(* ===== verification/_CoqProject ===== *)
-Q . S2P
Prelude.v
Errors.v
Gas.v
Objects.v
Concrete.v
Sorting.v
Store.v
FeeEnvelope.v
Intents.v
Admission.v
Planner.v
Scheduler.v
Artifacts.v
Settlement.v
Cells.v
SettlementFacts.v
SettlementProps.v
Independence.v
Supply.v
Groups.v
Fees.v
FeeExecutor.v
FeeSettlement.v
HotStuffTypes.v
HotStuff.v
HotStuffSafety.v
HotStuffDecisions.v
Numerals.v
SolverTypes.v
PlanValidation.v
Crx.v
CrxOrder.v
CrxChecks.v
CrxExec.v
CrxSettle.v
CrxAssembly.v
CrxGrants.v
CrxProps.v
CrxBatch.v
Safety.v
SafetyRules.v
SafetyBridge.v
SafetyEngine.v
Mempool.v
Runtime.v
Ingestion.v
SafetyProps.v
Merkle.v
PoolTypes.v
IntentPool.v
Auction.v
Ordering.v
Finality.v
Spending.v
Sponsorship.v
Slashing.v
SolverMarket.v
Membership.v
Rotation.v
Signatures.v
Sequencing.v
SequencingProps.v
PoseqFees.v
PoseqLedger.v
PoseqBids.v
PoseqFeeSim.v
ContractContext.v
ContractAssets.v
Randomness.v
Encrypted.v
Submissions.v
SubmissionProps.v
Fairness.v
FairnessProps.v
AntiMev.v
AntiMevProps.v
Accountability.v
Misbehavior.v
Delivery.v
Checkpoints.v
