(* ===== verification/Prelude.v ===== *)
(** * Omniphi: a verification development (root file and prelude)

    Omniphi runs intents: users sign what they want, validators agree on an
    order (PoSeq), and a deterministic runtime resolves, schedules and settles the
    ordered intents against a store of typed objects, charging fees in three
    places.  This development models the core of that path as the Rust code under
    src/runtime/src and src/poseq/src has it, and proves what makes each part
    correct; where the code does less than it means to, a theorem states what it
    does.

    ** The parts and their files

    - Prelude: Rust results ([outcome]: value, error, panic), [&mut] state
      threaded through [?] ([M]), loops, machine integers (wrapping, saturating,
      checked), bytes, ordered maps, the tactics [ints], [by_eval], [by_decide],
      and the third-party code every file shares.
    - Errors (errors.rs, capabilities/checker.rs): errors with their messages,
      capability sets.  Gas (gas/meter.rs, gas/calibration.rs): cost tables and
      the meter.  Objects (objects/base.rs, objects/types.rs): the object types,
      their constructors and mutators.  Concrete: sample instances of the
      third-party interfaces and sample objects for the witnesses.
    - Store (state/store.rs): the canonical object map, the typed overlays that
      fast lookups use, their synchronisation, and the state root.  The class
      [Ledger] of Objects is the interface by which the fee code sees the store: find
      a balance by owner and asset, write to it; Store implements it.
    - Intents (intents/types.rs, intents/base.rs): validation, canonical bytes,
      signing and sponsorship.  FeeEnvelope (fees/envelope.rs).  Admission (also
      intents/base.rs): the nonce tracker and the admission pipeline.
    - Planner (resolution/planner.rs): the resolver of each intent type, the
      constant-product output and the gas estimate.  It produces plans:
      operations with declared object accesses.
    - Scheduler (scheduler/parallel.rs): the conflict graph of the plans and the
      first-fit grouping.
    - Artifacts (contracts/advanced.rs), Settlement (settlement/engine.rs): a
      plan is checked, gas is charged, each operation validated and applied,
      versions bumped, overlays written back, side effects collected; plans run
      group by group.  Cells views the store as independent cells and shows each
      operation local to its own; SettlementFacts has the shared lemmas;
      SettlementProps, Independence, Supply and Groups the theorems.
    - Fees (fees/poseq_fee.rs, fees/routing.rs, fees/accounting.rs), FeeExecutor (fees/executor.rs), FeeSettlement (the
      settlement with fees of settlement/engine.rs).
    - HotStuffTypes, HotStuff (src/poseq/src/hotstuff/): messages and
      the locking rule, timeouts, and the engine, whose handlers are functions
      from the engine to the engine and its output; the class of key-value backends
      (src/poseq/src/persistence/backend.rs) is the storage interface through
      which the safety rule survives a restart.  HotStuffSafety and
      HotStuffDecisions have the theorems.
    - Mempool (src/runtime/src/poseq/mempool.rs), Runtime (poseq/interface.rs, with
      capabilities/registry.rs) and
      Ingestion (poseq/ingestion.rs): finalized envelopes come in, their
      submissions are taken from the mempool, the batch is resolved, scheduled and
      settled, and an acknowledgment goes out.  Runtime composes Planner, Scheduler
      and Settlement the way process_batch does; Ingestion composes Mempool,
      Intents and Runtime.
    - Merkle (src/runtime/src/state/merkle.rs): the tree over the objects of a
      store, its proofs and their verification.
    - PoolTypes, IntentPool (src/poseq/src/intent_pool/): the sequencer's own
      intents, their lifecycle, and the public pool.
    - Auction (src/poseq/src/auction/types.rs, state.rs), Ordering
      (auction/ordering.rs, da_checks.rs) and Finality (src/poseq/src/finality/):
      solvers commit and reveal bundles in a window, the reveals are put in a
      canonical sequence, validators check a commitment to it before they vote, and
      each batch has a finality state.  Ordering takes the reveals of Auction's
      windows, Finality the sequences of Ordering.

    - Spending (capabilities/spending.rs) and Sponsorship (intents/sponsorship.rs):
      bounded rights to spend, and who pays for a sponsored intent.
    - SolverTypes (solver_market/market.rs, solver_registry/registry.rs,
      policy/hooks.rs), PlanValidation (plan_validation/validator.rs,
      selection/ranker.rs) and SolverMarket (the second entry of
      poseq/interface.rs): solvers submit plans for the intents of a batch, each is
      checked and ranked, and the winner or the fallback of the resolver settles as
      in Runtime.
    - Crx (src/runtime/src/crx/: goal_packet.rs, rights_capsule.rs,
      causal_graph.rs), CrxChecks (rights_validation.rs, causal_validity.rs,
      plan_builder.rs), CrxExec (branch_execution.rs, finality.rs) and CrxSettle
      (settlement.rs, simulation.rs, poseq_bridge.rs): goals instead of intents; the
      plan of a solver becomes a graph of nodes with a capsule of rights, both are
      checked, the graph is executed branch by branch and the outcome classified by
      the policy of the goal.  CrxOrder is about the topological order, CrxAssembly
      describes the graph of a plan, CrxGrants what the checks come to for it,
      CrxProps the settlement of one goal, CrxBatch a batch of them.
    - Safety (src/runtime/src/safety/: actions.rs, incidents.rs, recovery_hooks.rs,
      receipts.rs, domain_profiles.rs, blast_radius.rs,
      solver_controls.rs), SafetyRules (policies.rs, kernel.rs) and SafetyBridge
      (poseq_bridge.rs, simulation.rs): rules look at the outcome of a settlement, the
      most severe that fires makes an incident, and the kernel contains objects,
      domains and solvers; Runtime asks the kernel what is contained.  SafetyEngine
      (deterministic.rs) freezes objects and blocks paths by thresholds, on its own.
      SafetyProps has the theorems about the kernel.
    - Slashing (src/poseq/src/slashing/, bonding/), Membership (identities/,
      membership/, chain_bridge/snapshot.rs, committee/membership.rs), Rotation
      (committee_rotation/, epochs/, leader_selection/) and Signatures (crypto/): who
      may sequence, how committees and leaders are drawn, what they sign.  Sequencing
      (proposals/, attestations/, finalization/, conflicts/, replay/,
      bridge/hardened.rs, commitment/, receipts/, persistence/store.rs,
      node/sequencer_node.rs) wires them into a node; its theorems are in
      SequencingProps.
    - PoseqFees (src/poseq/src/gas/: types.rs, parameters.rs, calculator.rs,
      routing.rs, estimation.rs), PoseqLedger (lifecycle.rs, accounting.rs),
      PoseqBids (priority.rs, solver_market.rs) and PoseqFeeSim (simulation.rs): the
      fee market of the sequencing layer, which no other part of it calls; the
      simulation composes the others.
    - ContractContext, ContractAssets, Randomness (contracts/advanced.rs, the last
      also randomness/mod.rs): what the validator of a contract can read, allowances
      and tokens, drawn and committed values, the entropy of an epoch.  Encrypted
      (intents/encrypted.rs): intents ordered before they are revealed.
    - Submissions (src/poseq/src/lib.rs, types/submission.rs, config/policy.rs,
      intake/, validation/, queue/, ordering/, batching/, receipts/, state/,
      attestation/, bridge/runtime.rs): the node that takes raw submissions, queues
      and orders them and exports batches; its theorems are in SubmissionProps.
      Fairness (fairness/, inclusion/, queue_snapshot/, protected_flows/) and AntiMev
      (anti_mev/ and fairness_validation/, _audit/, _bridge/, _config/, _incidents/,
      _persistence/): what a batch must take, and how far a leader may reorder the
      snapshot it committed to; theorems in FairnessProps and AntiMevProps.
    - Accountability (performance/, liveness/, reward/, settlement/epoch.rs,
      ranking/profile.rs, enforcement/rules.rs, adjudication/engine.rs) and Misbehavior
      (misbehavior/, enforcement/classification.rs, penalties/): what an epoch reports of
      its nodes, what they earn, and who is recommended for jail; the enforcer slashes
      through the store of Slashing.  Delivery (bridge/pipeline.rs, bridge_recovery/)
      carries the batches of Sequencing to the runtime and retries; Checkpoints
      (checkpoints/mod.rs, recovery/, sync/) stores checkpoints, restores them into the
      store of Finality and follows the deliveries.
    - Sorting ([sort_by] with a comparator) and Numerals ([str::parse]) serve several
      of these.

    A method of the source is the definition of the same name, in the module of
    its type ([ObjectStore.insert], [HotStuffEngine.on_qc]); Rocq keywords and
    clashes aside ([admit] is [admit_intent], [lock] is [lock_on], record fields
    that clash carry a prefix).  A [&mut self] method returns the new value, or is
    in [M] when it can fail half-way, where the state of an error is the one
    reached so far; a [find_.._mut] reference is the update through it.

    ** What the theorems show

    - Settlement: a successful plan charges exactly its gas, bumps exactly the
      versions of what it names and leaves the store well formed and synced
      ([apply_plan_success]); plans are all-or-nothing when their debits are
      covered, which all resolved plans are ([covered_plan_atomic],
      [resolved_plan_atomic]), and not otherwise ([failed_plan_keeps_debit]);
      plans that do not conflict commute if they declare what they touch, create no
      token and are all-or-nothing ([independent_plans_commute]), as the plans of the
      resolver are ([resolved_plans_commute]); transfers conserve supply, and in general it moves by credits less debits
      ([transfer_conserves], [plan_changes_supply]).
    - Resolution and scheduling: what the resolver promises to the scheduler and
      the engine ([resolve_sound], a contract between the files), the AMM bound
      ([amm_output_safe]), the schedule as a conflict-free permutation
      ([schedule_correct]) and its order ([schedule_reorders]).
    - Admission and signing: exactly what is admitted, consecutive nonces, what
      the signature covers and what it leaves out.
    - Store: the overlay invariant of every store built by the methods, as long as
      no insertion overwrites a balance, pool or vault by another type of object,
      which is exactly what breaks it ([reachable_store_inv],
      [insert_leaves_stale_overlay]); synchronisation, and the injectivity of the
      hashed state.
    - Fees: bounds and monotonicity of the formula, conservation of the split,
      the lifecycle invariant, exact settlement of one intent and of a batch
      against any ledger, over-reservation, and the root that precedes the fees.
    - Consensus: Prepare votes in strictly increasing views between restarts, and
      across the restarts before which the safety rule was saved
      ([prepare_votes_increase]; not across others: [unsaved_restart_votes_twice],
      and the node runner does not save it when it handles a HotStuff message), a
      safety rule that only moves forward between restarts, one decision per view,
      certificates checked for distinct signers, backoff; and where votes for other
      blocks count, and where a late certificate gets a second vote.
    - Batches: processing gives a receipt for each transaction that resolves and is
      clear of the quarantine, none twice, and a synced store
      ([process_batch_result]; an unresolved one gets none,
      [unresolved_no_receipt]), transfers conserve every asset
      ([batch_conserves]), quarantined objects are out of reach
      ([quarantine_holds]); a batch is acknowledged once ([ingest_once]) and
      executes the signed, valid submissions of the mempool
      ([ingest_executes_signed]), though another batch can execute them again
      ([ingest_replays]).
    - State proofs: the tree is built in finitely many levels
      ([merkle_build_terminates]), its proofs verify ([merkle_prove_verifies]), a
      verified proof is of an entry ([merkle_verify_sound]) and equal roots mean
      equal stores ([merkle_root_commits]), up to hash collisions.
    - Intent pool: admission branch by branch ([pool_admit_spec]) and safety of
      every run ([pool_run_safe]).
    - Auction: what a commitment binds ([reveal_binding]) and what it does not
      ([reveal_targets_unbound]), every run of a window ([auction_run_safe]), what
      is reported at its end ([no_reveals_exact]).
    - Ordering: which bundles are sequenced and in which order
      ([order_bundles_spec]), independence of the order of arrival
      ([order_deterministic]), the link to the commitments
      ([sequenced_bundles_committed]), the availability checks
      ([validate_da_spec]), intents in the sequence twice
      ([intent_sequenced_twice]).
    - Finality: the history of a batch ([finality_history_legal],
      [finality_needs_quorum]), the way to an end ([finality_live]), checkpoints
      ([checkpoint_spec]); what a commitment root binds
      ([commitment_binds_sequence]) and what the checks before a vote leave open
      ([bundle_contents_unverified]).
    - Rights to spend and sponsors: what is spent stays within what was granted over
      any history ([spend_bounded]), who pays and when ([sponsor_validate_spec]).
    - Solver market: exactly which plans pass ([plan_validate_spec]), the winner is
      the best of them, and a batch settles for each intent a plan that carries out
      the winner's actions ([solver_batch_result]); a plan is never compared with its intent
      ([solver_moves_any_balance]).
    - CRX: settlement is the actions of the plan run in turn
      ([crx_settle_spec], a refinement of the whole pipeline), reverts
      ([crx_revert_restores]), batches, which go through unless a chosen plan has a
      schema id that panics ([crx_batch_sound]), the cycle check
      ([acyclic_check_exact]); and what is not prevented
      ([downgraded_transfer_burns], [credit_alone_mints], [swap_never_succeeds],
      [goal_bounds_ignored], [simulation_optimistic]).
    - Safety kernel: containment over any history ([containment_holds]) down to the
      batches of the runtime ([contained_objects_untouched]), what an assessment
      contains ([assess_spec]), all that the kernel ever does about CRX settlements
      ([crx_only_suspends]), the frozen and the blocked of the deterministic engine
      ([engine_containment_exact]); and where containment goes wrong
      ([zero_solver_blames_all], [throttling_lifts_ban], [governance_paused_anyway],
      [emergency_scope_shrinks]).
    - Sequencer nodes: who is in jail ([jail_exact]) and what a slash takes
      ([bond_slash_exact]), committees ([committee_from_snapshot], [rotate_draws]),
      replay guards ([guard_is_window]), signatures good for one payload
      ([envelope_single_use]), and the runs of a node ([finalized_once_and_backed],
      [one_member_vetoes]).

    - Fee market of the sequencing layer: the charge ([poseq_charge_bounded]), the
      split ([distribution_exact]), the suggested envelope
      ([suggested_envelope_suffices]), the ways of a
      lifecycle and what it takes on each ([lifecycle_accounts]), what it loses
      ([sequencing_rest_lost]), what a tip buys ([tip_influence_bounded]), which bid is
      selected ([selection_protects_user]) and that the simulation is always
      consistent ([simulation_consistent]).
    - Contracts: the net change of a balance ([net_balance_change_exact]), prices and
      proofs ([read_price_fresh], [verified_state_hashes]), storage
      ([map_entry_set]), allowances ([allowance_bounded]), the index of owners
      ([nft_index_sound]), shuffles ([shuffle_permutes]), reveals ([reveals_bound],
      and where they are loose: [reveal_boundary_free]), the entropy that nodes agree
      on ([entropy_agreed]), encrypted intents ([encrypted_reveals_once],
      [wrong_reveal_rejects]).

    - Submissions: every accepted id is once in a batch or in the queue
      ([sequenced_once]), batches are linked ([batches_linked]), the queue drains
      ([queue_drains]) first in, first out ([drain_oldest]); when the order of a batch
      is canonical ([order_arrival_free]) and when not
      ([default_order_follows_arrival], [unenforced_orders_by_nonce]); what is lost or
      blocked ([full_queue_burns], [altered_copy_blocks]) and what the header leaves
      open ([header_ignores_order]).
    - Fairness: what a batch must take ([eligible_set_spec]) and limits without effect
      ([class_limits_unused]), canonical snapshots ([snapshot_canonical]), what is found
      in a log ([censorship_reports]), overdue flows ([overdue_exactly]); the orders
      that the engine and the validator accept ([engine_accepts],
      [validator_accepts_iff]) with receipts that say so ([receipt_compliant]), and
      what a leader may leave out ([omissions_accepted]) without more than a count
      ([validator_incidents], [omission_total]).
    - Accountability: the records of an epoch count its events ([perf_epoch_exact]) and
      its inactive nodes ([liveness_exact]), scores are bounded ([reward_bounded]), the
      ranking is in order ([ranked_spec], [tier_spec]), recommendations are exact
      ([enforcement_exact]) and so is adjudication ([adjudicated_once]); reports refine
      the slashing store ([reports_refine_slashing]), what hashes bind
      ([evidence_binds], [payload_order_free]), and where tables disagree
      ([classes_disagree], [slashed_kinds], [slash_tables_disagree]) or a case cannot be
      resolved ([double_report_unresolvable]).
    - Delivery and checkpoints: what a commitment binds ([envelope_binds]) and what not
      ([envelope_fields_unbound]), runs of the pipeline ([pipeline_exact]) and of the
      retry store ([recovery_sound], [terminal_kept]), states that are not final
      ([rejection_not_final], [late_ack_refused]); the two indices of the checkpoint
      store ([checkpoints_exact]), pruning ([prune_keeps_newest]), restoration
      ([restore_exact]) and when a checkpoint is made ([create_checkpoint_exact]).

    ** Parameters, bounds and fuel

    SHA-256, hex, bincode, U256, Ed25519 and the clock are parameters, with the
    documented behaviour a theorem needs as class laws ([BincodeLaws],
    [U256Laws], [SafetyBincodeLaws], [BundleBincodeLaws], [Sha256Laws], [HexLaws],
    [NodeEd25519Laws]); Concrete, HotStuffSafety, Auction and Signatures have
    instances that satisfy them.  [HexErrorText] is the text of hex's errors,
    [CrxBincode] the encoding of goals, scopes and nodes, [StorageBincode] that of
    contract storage, [SubmissionCodec] and [ReasonCodec] the encodings of the
    submission path, [CheckpointBincode] that of a checkpoint, and [StrDebug] the escaped
    text of a string.  The tree that orders a batch is a sorted list searched from the
    left, as one node of a B-tree is, which matters only where the comparison is not an
    order.  Hash collisions
    are excluded string by string ([no_collision]), never in general.  Integers are in [Z] with the width's arithmetic written
    out; hypotheses [fits w z] say that an input is one of its type.  Loops are
    folds and structural recursions over the lists the code iterates, and the
    scheduler's search is over the groups there are.  Three loops need fuel: the
    levels of a Merkle tree, which halve, where the number of leaves is enough
    ([merkle_build_terminates]); the topological sort of a CRX graph, where the number
    of entries is enough ([acyclic_check_exact]; running out would count as a panic);
    and the walk back along parents to a critical path, with the number of nodes.  Panics (indexing, [expect], U256 overflow) are values, and the theorems
    show where they cannot happen.

    ** What is not modelled

    serde formats beyond the round trip of bincode; WebAssembly execution; the
    asynchronous node (sockets, locks, logging), the sled database; the components around the
    core path (disputes, economics, governance, ownership, the exporters to the chain);
    code in other languages (the Go chain,
    the Python and TypeScript services).  The [{:?}] text of error values
    is modelled where a message contains it; the scope text of a containment record and
    the detail text of an engine event are left out, next to the values they print. *)

From Stdlib Require Import ZArith Lia.
From stdpp Require Import gmap strings list fin_maps sorting pretty.

#[export] Set Warnings "-clear-no-such-hyp".
#[global] Open Scope Z_scope.

Create HintDb ints.

(** ** Rust results: values, errors and panics

    A Rust call returns a value, returns an error, or panics.  Plain functions
    that cannot fail are plain Rocq functions. *)
Inductive outcome (E A : Type) : Type :=
| Ok (a : A)
| Err (e : E)
| Panic.
Arguments Ok {E A} a.
Arguments Err {E A} e.
Arguments Panic {E A}.

(** Code that returns no error but may panic. *)
Abbreviation total_or_panic A := (outcome Empty_set A).

#[export] Instance outcome_ret E : MRet (outcome E) := λ A a, Ok a.
#[export] Instance outcome_bind E : MBind (outcome E) := λ A B f m,
  match m with Ok a => f a | Err e => Err e | Panic => Panic end.

(** [opt.ok_or(e)] *)
Definition ok_or {E A} (o : option A) (e : E) : outcome E A :=
  match o with Some a => Ok a | None => Err e end.

(** [opt.expect(..)] and [opt.unwrap()]: the program stops on [None]. *)
Definition expect {E A} (o : option A) : outcome E A :=
  match o with Some a => Ok a | None => Panic end.

(** ** Stateful code: [&mut] state threaded through [?]

    On an error the state is the one reached so far: an early return by [?]
    does not undo the writes already made. *)
Definition M (S E A : Type) : Type := S → S * outcome E A.

#[export] Instance M_ret S E : MRet (M S E) := λ A a s, (s, Ok a).
#[export] Instance M_bind S E : MBind (M S E) := λ A B f m s,
  match m s with
  | (s', Ok a) => f a s'
  | (s', Err e) => (s', Err e)
  | (s', Panic) => (s', Panic)
  end.

Section monad_ops.
Context {S S' E A : Type}.
Definition gets (f : S → A) : M S E A := λ s, (s, Ok (f s)).
Definition modify (f : S → S) : M S E () := λ s, (f s, Ok tt).
Definition throw (e : E) : M S E A := λ s, (s, Err e).
Definition lift (o : outcome E A) : M S E A := λ s, (s, o).
Definition on_fst (m : M S E A) : M (S * S') E A := λ s,
  let '(s1, r) := m s.1 in ((s1, s.2), r).
Definition on_snd (m : M S' E A) : M (S * S') E A := λ s,
  let '(s2, r) := m s.2 in ((s.1, s2), r).
End monad_ops.

(** A [for] loop over a list, stopping at the first error. *)
Fixpoint mfor {S E A} (f : A → M S E ()) (l : list A) : M S E () :=
  match l with
  | [] => mret tt
  | a :: l => f a ≫= λ _, mfor f l
  end.

(** The same loop for code that only returns a result. *)
Fixpoint ofor {E A} (f : A → outcome E ()) (l : list A) : outcome E () :=
  match l with
  | [] => Ok tt
  | a :: l => f a ≫= λ _, ofor f l
  end.

Lemma obind_ok {E A B} (f : A → outcome E B) (m : outcome E A) b :
  m ≫= f = Ok b ↔ ∃ a, m = Ok a ∧ f a = Ok b.
Proof. destruct m; cbn; naive_solver. Qed.

Lemma Mbind_ok {S E A B} (f : A → M S E B) (m : M S E A) s s' b :
  (m ≫= f) s = (s', Ok b) ↔ ∃ s1 a, m s = (s1, Ok a) ∧ f a s1 = (s', Ok b).
Proof. unfold mbind, M_bind. destruct (m s) as [s1 []]; naive_solver. Qed.

Lemma Mbind_run {S E A B} (f : A → M S E B) (m : M S E A) s s' a :
  m s = (s', Ok a) → (m ≫= f) s = f a s'.
Proof. unfold mbind, M_bind. by intros ->. Qed.

Lemma ofor_ok {E A} (f : A → outcome E ()) (l : list A) :
  ofor f l = Ok tt ↔ Forall (λ a, f a = Ok tt) l.
Proof.
  induction l as [|a l IH]; cbn; [naive_solver|].
  rewrite obind_ok, Forall_cons. split.
  - intros ([] & ? & ?). naive_solver.
  - intros [? ?]. exists tt. naive_solver.
Qed.

Lemma obind_no_panic {E A B} (f : A → outcome E B) (m : outcome E A) :
  m ≠ Panic → (∀ a, f a ≠ Panic) → m ≫= f ≠ Panic.
Proof. destruct m; cbn; naive_solver. Qed.

Lemma ofor_no_panic {E A} (f : A → outcome E ()) (l : list A) :
  (∀ a, f a ≠ Panic) → ofor f l ≠ Panic.
Proof. intros Hf. induction l; cbn; [done|]. by apply obind_no_panic. Qed.

(** An invariant of the loop body is one of the loop, whatever the result. *)
Lemma mfor_inv {S E A} (P : S → Prop) (f : A → M S E ()) (l : list A) :
  (∀ a s, a ∈ l → P s → P (f a s).1) → ∀ s, P s → P (mfor f l s).1.
Proof.
  induction l as [|a l IH]; intros Hf s Hs; [done|]. cbn.
  unfold mbind, M_bind.
  pose proof (Hf a s ltac:(left) Hs) as H1.
  destruct (f a s) as [s1 []]; cbn in *; [|done|done].
  apply IH; [|done]. intros a' s' ?. apply Hf. by right.
Qed.

(** If the body always succeeds under the invariant, so does the loop. *)
Lemma mfor_total {S E A} (P : list A → S → Prop) (f : A → M S E ()) (l : list A) :
  (∀ a l' s, P (a :: l') s → ∃ s', f a s = (s', Ok tt) ∧ P l' s') →
  ∀ s, P l s → ∃ s', mfor f l s = (s', Ok tt) ∧ P [] s'.
Proof.
  intros Hf. induction l as [|a l IH]; intros s Hs; cbn; [by eexists|].
  destruct (Hf _ _ _ Hs) as (s1 & E1 & H1).
  destruct (IH _ H1) as (s2 & E2 & H2). exists s2. split; [|done].
  unfold mbind, M_bind. by rewrite E1.
Qed.

Lemma mfor_app_ok {S E A} (f : A → M S E ()) (l1 l2 : list A) s s' :
  mfor f (l1 ++ l2) s = (s', Ok tt) ↔
  ∃ s1, mfor f l1 s = (s1, Ok tt) ∧ mfor f l2 s1 = (s', Ok tt).
Proof.
  revert s. induction l1 as [|a l1 IH]; intros s; cbn.
  - split; [by eexists|]. intros (s1 & [=] & ?). by simplify_eq.
  - rewrite Mbind_ok. setoid_rewrite Mbind_ok. setoid_rewrite IH. naive_solver.
Qed.

(** ** Machine integers

    A [w]-bit unsigned integer is a [Z] in [0, 2^w).  Plain [+], [-] and [*]
    are the release build's: they wrap. *)
Definition umax (w : Z) : Z := 2 ^ w - 1.
Abbreviation u8_max := (umax 8).
Abbreviation u32_max := (umax 32).
Abbreviation u64_max := (umax 64).
Abbreviation u128_max := (umax 128).

Definition fits (w z : Z) : Prop := 0 ≤ z < 2 ^ w.
#[export] Instance fits_dec w z : Decision (fits w z).
Proof. unfold fits. apply _. Defined.

Definition wrapu (w z : Z) : Z := z mod 2 ^ w.
Definition wraps (w z : Z) : Z := (z + 2 ^ (w - 1)) mod 2 ^ w - 2 ^ (w - 1).
Definition sat_add (w a b : Z) : Z := Z.min (a + b) (umax w).
Definition sat_sub (a b : Z) : Z := Z.max (a - b) 0.
Definition sat_mul (w a b : Z) : Z := Z.min (a * b) (umax w).
Definition checked_add (w a b : Z) : option Z :=
  if decide (a + b < 2 ^ w) then Some (a + b) else None.
Definition checked_sub (a b : Z) : option Z :=
  if decide (b ≤ a) then Some (a - b) else None.

#[export] Hint Unfold umax fits sat_add sat_sub sat_mul : ints.

(** Arithmetic goals about machine integers. *)
Ltac ints := unfold fits, sat_add, sat_sub, sat_mul, umax in *; first [lia | exfalso; lia].

Lemma sat_sub_le a b : 0 ≤ a → 0 ≤ b → sat_sub a b ≤ a.
Proof. ints. Qed.
Lemma sat_sub_id a b : b ≤ a → sat_sub a b = a - b.
Proof. ints. Qed.
Lemma sat_add_id w a b : a + b < 2 ^ w → sat_add w a b = a + b.
Proof. ints. Qed.
Lemma sat_add_fits w a b : 0 ≤ w → fits w a → fits w b → fits w (sat_add w a b).
Proof. intros. assert (0 < 2 ^ w) by (apply Z.pow_pos_nonneg; lia). ints. Qed.
Lemma sat_sub_fits w a b : fits w a → 0 ≤ b → fits w (sat_sub a b).
Proof. ints. Qed.
Lemma wrapu_fits w z : 0 ≤ w → fits w (wrapu w z).
Proof. intros. apply Z.mod_pos_bound, Z.pow_pos_nonneg; lia. Qed.
Lemma wrapu_id w z : fits w z → wrapu w z = z.
Proof. intros. by apply Z.mod_small. Qed.
Lemma checked_sub_some a b c : checked_sub a b = Some c ↔ b ≤ a ∧ c = a - b.
Proof. unfold checked_sub. case_decide; naive_solver. Qed.
Lemma checked_add_some w a b c : checked_add w a b = Some c ↔ a + b < 2 ^ w ∧ c = a + b.
Proof. unfold checked_add. case_decide; naive_solver. Qed.

Lemma sat_mul_mono w a b c : a ≤ b → 0 ≤ c → sat_mul w a c ≤ sat_mul w b c.
Proof. intros. unfold sat_mul. assert (a * c ≤ b * c) by nia. lia. Qed.

Lemma sat_add_mono w a b c d : a ≤ b → c ≤ d → sat_add w a c ≤ sat_add w b d.
Proof. unfold sat_add. lia. Qed.

#[export] Hint Resolve sat_add_fits sat_sub_fits wrapu_fits : ints.

(** ** Bytes

    A [[u8; 32]] is the 256-bit number its bytes spell in big-endian order, so
    the array order of Rust's [BTreeMap] keys is the order of the numbers. *)
Abbreviation bytes := (list Z).
Abbreviation id32 := Z (only parsing).

Fixpoint le_bytes (n : nat) (z : Z) : bytes :=
  match n with
  | O => []
  | S n => z mod 256 :: le_bytes n (z / 256)
  end.
Definition be_bytes (n : nat) (z : Z) : bytes := rev (le_bytes n z).
Definition string_bytes (s : string) : bytes :=
  (λ a, Z.of_N (Ascii.N_of_ascii a)) <$> String.list_ascii_of_string s.

Lemma le_bytes_length n z : length (le_bytes n z) = n.
Proof. revert z. induction n; cbn; auto. Qed.
Lemma be_bytes_length n z : length (be_bytes n z) = n.
Proof. unfold be_bytes. by rewrite length_rev, le_bytes_length. Qed.

Lemma le_bytes_inj n z z' :
  0 ≤ z < 256 ^ Z.of_nat n → 0 ≤ z' < 256 ^ Z.of_nat n →
  le_bytes n z = le_bytes n z' → z = z'.
Proof.
  revert z z'. induction n as [|n IH]; intros z z' Hz Hz'; cbn [le_bytes].
  { cbn in *. lia. }
  rewrite Nat2Z.inj_succ, Z.pow_succ_r in Hz, Hz' by lia.
  intros [= Hm Hd]. apply IH in Hd.
  - rewrite (Z.div_mod z 256), (Z.div_mod z' 256) by lia. lia.
  - split; [apply Z.div_pos; lia|apply Z.div_lt_upper_bound; lia].
  - split; [apply Z.div_pos; lia|apply Z.div_lt_upper_bound; lia].
Qed.

Lemma be_bytes_inj n z z' :
  0 ≤ z < 256 ^ Z.of_nat n → 0 ≤ z' < 256 ^ Z.of_nat n →
  be_bytes n z = be_bytes n z' → z = z'.
Proof.
  intros ?? H. eapply le_bytes_inj; [done..|].
  by apply (f_equal (@rev Z)) in H; unfold be_bytes in H; rewrite !rev_involutive in H.
Qed.

(** Splitting a concatenation whose first parts have the same length. *)
Lemma be_bytes_app_inj n z z' l l' :
  0 ≤ z < 256 ^ Z.of_nat n → 0 ≤ z' < 256 ^ Z.of_nat n →
  be_bytes n z ++ l = be_bytes n z' ++ l' → z = z' ∧ l = l'.
Proof.
  intros ?? H. apply app_inj_1 in H as [Hz ->]; [|by rewrite !be_bytes_length].
  split; [by eapply be_bytes_inj|done].
Qed.

Lemma concat_ids_inj (l l' : list id32) :
  Forall (fits 256) l → Forall (fits 256) l' →
  concat (be_bytes 32 <$> l) = concat (be_bytes 32 <$> l') → l = l'.
Proof.
  assert (∀ z (l : list id32), concat (be_bytes 32 <$> z :: l) ≠ []) as Hne.
  { intros z k E. apply (f_equal length) in E. cbn [fmap list_fmap concat] in E.
    rewrite length_app, be_bytes_length in E. discriminate E. }
  intros Hl. revert l'. induction Hl as [|z l Hz Hl IH]; intros l' Hl' E.
  - destruct Hl' as [|z' l' _ _]; [done|]. by destruct (Hne z' l').
  - destruct Hl' as [|z' l' Hz' Hl']; [by destruct (Hne z l)|].
    cbn [fmap list_fmap concat] in E. apply be_bytes_app_inj in E as [-> E]; [|done..].
    f_equal. by apply IH.
Qed.

(** The number an array of bytes spells. *)
Definition of_be (b : bytes) : Z := foldl (λ acc x, acc * 256 + x) 0 b.
Definition is_byte (b : Z) : Prop := 0 ≤ b < 256.

Lemma le_bytes_bytes n z : Forall is_byte (le_bytes n z).
Proof.
  revert z. induction n as [|n IH]; intros z; cbn; constructor; [|done].
  apply Z.mod_pos_bound. lia.
Qed.
Lemma be_bytes_bytes n z : Forall is_byte (be_bytes n z).
Proof. apply Forall_rev, le_bytes_bytes. Qed.

Lemma of_be_app b x : of_be (b ++ [x]) = of_be b * 256 + x.
Proof. unfold of_be. by rewrite foldl_app. Qed.

Lemma of_be_be n z : 0 ≤ z < 256 ^ Z.of_nat n → of_be (be_bytes n z) = z.
Proof.
  unfold be_bytes. revert z. induction n as [|n IH]; intros z Hz; [cbn in *; unfold of_be; cbn; lia|].
  cbn [le_bytes rev]. rewrite of_be_app.
  rewrite Nat2Z.inj_succ, Z.pow_succ_r in Hz by lia.
  rewrite IH; [pose proof (Z.div_mod z 256); lia|].
  split; [apply Z.div_pos; lia|apply Z.div_lt_upper_bound; lia].
Qed.

(** ** Ordered maps

    [BTreeMap<[u8; 32], V>] is a [gmap]; iteration is in ascending key order. *)
Definition key_le {A} (p q : Z * A) : Prop := p.1 ≤ q.1.
#[export] Instance key_le_dec {A} : RelDecision (@key_le A).
Proof. intros p q. unfold key_le. apply _. Defined.
#[export] Instance key_le_trans {A} : Transitive (@key_le A).
Proof. intros ???. unfold key_le. lia. Qed.
#[export] Instance key_le_total {A} : Total (@key_le A).
Proof. intros p q. unfold key_le. lia. Qed.

Definition btree_list {A} (m : gmap Z A) : list (Z * A) := merge_sort key_le (map_to_list m).
Definition btree_keys {A} (m : gmap Z A) : list Z := (btree_list m).*1.
Definition btree_values {A} (m : gmap Z A) : list A := (btree_list m).*2.
(** [map.values().find(p)], with the key at which it was found. *)
Definition btree_find {A} (P : A → bool) (m : gmap Z A) : option (Z * A) :=
  List.find (λ p, P p.2) (btree_list m).

Section btree.
Context {A : Type}.
Implicit Types (m : gmap Z A) (P : A → bool).

Lemma btree_list_perm m : btree_list m ≡ₚ map_to_list m.
Proof. apply merge_sort_Permutation. Qed.

Lemma elem_of_btree_list m k a : (k, a) ∈ btree_list m ↔ m !! k = Some a.
Proof. by rewrite btree_list_perm, elem_of_map_to_list. Qed.

Lemma NoDup_btree_keys m : NoDup (btree_keys m).
Proof. unfold btree_keys. rewrite btree_list_perm. apply NoDup_fst_map_to_list. Qed.

Lemma elem_of_btree_keys m k : k ∈ btree_keys m ↔ is_Some (m !! k).
Proof.
  unfold btree_keys. rewrite list_elem_of_fmap. split.
  - intros ([? a] & -> & H). apply elem_of_btree_list in H. by exists a.
  - intros [a H]. exists (k, a). by rewrite elem_of_btree_list.
Qed.

Lemma elem_of_btree_values m a : a ∈ btree_values m ↔ ∃ k, m !! k = Some a.
Proof.
  unfold btree_values. rewrite list_elem_of_fmap. split.
  - intros ([k ?] & -> & H). apply elem_of_btree_list in H. by exists k.
  - intros [k H]. exists (k, a). by rewrite elem_of_btree_list.
Qed.

Lemma btree_list_sorted m : StronglySorted key_le (btree_list m).
Proof. apply StronglySorted_merge_sort; apply _. Qed.

Lemma find_sorted_spec P (l : list (Z * A)) k a :
  StronglySorted key_le l → NoDup l.*1 →
  List.find (λ p, P p.2) l = Some (k, a) ↔
  (k, a) ∈ l ∧ P a = true ∧ ∀ k' a', (k', a') ∈ l → P a' = true → k ≤ k'.
Proof.
  induction 1 as [|[k0 a0] l Hs IH Hf]; intros Hnd.
  { cbn. split; [done|]. by intros [?%elem_of_nil _]. }
  cbn in Hnd |- *. apply NoDup_cons in Hnd as [Hnin Hnd].
  rewrite Forall_forall in Hf. unfold key_le in Hf; cbn in Hf.
  destruct (P a0) eqn:E.
  - split.
    + intros [= <- <-]. split_and!; [left|done|].
      intros k' a' [[= -> ->]|H']%elem_of_cons _; [lia|]. apply (Hf (k', a') H').
    + intros ([[= <- <-]|Hin]%elem_of_cons & Ha & Hmin); [done|].
      pose proof (Hmin k0 a0 ltac:(left) E). pose proof (Hf _ Hin). cbn in *.
      assert (k = k0) as -> by lia. destruct Hnin.
      apply list_elem_of_fmap. by exists (k0, a).
  - rewrite (IH Hnd). split.
    + intros (? & ? & Hmin). split_and!; [by right|done|].
      intros k' a' [[= -> ->]|?]%elem_of_cons; [congruence|eauto].
    + intros ([[= <- <-]|?]%elem_of_cons & ? & Hmin); [congruence|].
      split_and!; [done..|]. intros. eapply Hmin; [by right|done].
Qed.

(** The found entry is the one with the least key. *)
Lemma btree_find_some P m k a :
  btree_find P m = Some (k, a) ↔
  m !! k = Some a ∧ P a = true ∧ ∀ k' a', m !! k' = Some a' → P a' = true → k ≤ k'.
Proof.
  unfold btree_find. rewrite find_sorted_spec.
  - rewrite elem_of_btree_list. by setoid_rewrite elem_of_btree_list.
  - apply btree_list_sorted.
  - apply NoDup_btree_keys.
Qed.

Lemma btree_find_none P m :
  btree_find P m = None ↔ ∀ k a, m !! k = Some a → P a = false.
Proof.
  unfold btree_find. split.
  - intros H k a Hk. apply elem_of_btree_list in Hk.
    apply list_elem_of_In in Hk. by apply (find_none _ _ H) in Hk.
  - intros H. destruct (List.find _ _) as [[k a]|] eqn:E; [|done].
    apply find_some in E as [Hin HP]. cbn in HP.
    apply list_elem_of_In, elem_of_btree_list, H in Hin. congruence.
Qed.

(** An update that keeps the tested fields keeps what is found. *)
Lemma btree_find_alter P m k0 (f : A → A) k a :
  (∀ b, P (f b) = P b) →
  btree_find P m = Some (k, a) →
  btree_find P (alter f k0 m) = Some (k, if decide (k0 = k) then f a else a).
Proof.
  intros Hf. rewrite !btree_find_some. intros (Hk & HP & Hmin). split_and!.
  - rewrite lookup_alter. case_decide; [subst; by rewrite Hk|done].
  - case_decide; by rewrite ?Hf.
  - intros k' a'. rewrite lookup_alter. case_decide.
    + subst. intros (b & Hb & ->)%fmap_Some. rewrite Hf. eauto.
    + eauto.
Qed.

Lemma btree_find_alter_none P m k0 (f : A → A) :
  (∀ b, P (f b) = P b) → btree_find P m = None → btree_find P (alter f k0 m) = None.
Proof.
  intros Hf. rewrite !btree_find_none. intros H k a. rewrite lookup_alter. case_decide.
  - subst. intros (b & Hb & ->)%fmap_Some. rewrite Hf. eauto.
  - eauto.
Qed.
End btree.

(** [*map.entry(k).or_insert(0)]: reading it leaves an entry, and a count. *)
Definition entry_count (k : Z) (m : gmap Z Z) : Z := default 0 (m !! k).
Definition touch (k : Z) (m : gmap Z Z) : gmap Z Z := <[k := entry_count k m]> m.
Definition incr (k : Z) (m : gmap Z Z) : gmap Z Z := <[k := wrapu 64 (entry_count k m + 1)]> m.

Lemma entry_touch s k m : entry_count s (touch k m) = entry_count s m.
Proof. unfold entry_count, touch. rewrite lookup_insert. case_decide; [by subst|done]. Qed.
Lemma entry_incr s k m :
  entry_count s (incr k m) = if decide (k = s) then wrapu 64 (entry_count k m + 1) else entry_count s m.
Proof. unfold entry_count, incr. rewrite lookup_insert. by case_decide. Qed.

(** ** Sums over lists and maps *)
Definition sumZ (l : list Z) : Z := foldr Z.add 0 l.

Lemma sumZ_nonneg l : Forall (λ a, 0 ≤ a) l → 0 ≤ sumZ l.
Proof. induction 1 as [|a l Ha _ IH]; [done|]. change (0 ≤ a + sumZ l). lia. Qed.
Lemma sumZ_cons a l : sumZ (a :: l) = a + sumZ l.
Proof. done. Qed.
Lemma sumZ_app l l' : sumZ (l ++ l') = sumZ l + sumZ l'.
Proof. induction l as [|a l IH]; [done|]. cbn [app]. rewrite !sumZ_cons. lia. Qed.

(** Elements of a list with distinct keys are told apart by their keys. *)
Lemma NoDup_key_inj {A B} (f : A → B) l x y :
  NoDup (f <$> l) → x ∈ l → y ∈ l → f x = f y → x = y.
Proof.
  intros Hnd [i Hi]%list_elem_of_lookup [j Hj]%list_elem_of_lookup E.
  assert (i = j) as ->; [|congruence].
  eapply (NoDup_lookup _ i j); [exact Hnd|by rewrite list_lookup_fmap, Hi|].
  by rewrite list_lookup_fmap, Hj, E.
Qed.

(** What holds of all entries holds of those that are kept. *)
Lemma map_Forall_kept `{Countable K} {A} (P : K → A → Prop) (Q : K * A → Prop) `{∀ x, Decision (Q x)} (m : gmap K A) :
  map_Forall P m → map_Forall P (filter Q m).
Proof. intros HP k a [Hk _]%map_lookup_filter_Some. by apply HP. Qed.

Definition map_sum {A} (f : A → Z) (m : gmap Z A) : Z := map_fold (λ _ a acc, f a + acc) 0 m.

Section map_sum.
Context {A : Type} (f : A → Z).
Implicit Types m : gmap Z A.

Lemma map_sum_insert m k a : m !! k = None → map_sum f (<[k := a]> m) = f a + map_sum f m.
Proof. intros. unfold map_sum. rewrite map_fold_insert_L; [done|intros; lia|done]. Qed.

Lemma map_sum_delete m k a : m !! k = Some a → map_sum f m = f a + map_sum f (delete k m).
Proof.
  intros H. rewrite <- (insert_delete_id m k a H) at 1.
  apply map_sum_insert, lookup_delete_eq.
Qed.

Lemma map_sum_update m k a b :
  m !! k = Some a → map_sum f (<[k := b]> m) = map_sum f m - f a + f b.
Proof.
  intros H. rewrite (map_sum_delete m k a H), <- insert_delete_eq.
  rewrite map_sum_insert by apply lookup_delete_eq. lia.
Qed.

Lemma map_sum_nonneg m : (∀ k a, m !! k = Some a → 0 ≤ f a) → 0 ≤ map_sum f m.
Proof.
  induction m as [|k a m Hk _ IH] using map_first_key_ind; intros Hf; [done|].
  rewrite map_sum_insert by done.
  assert (0 ≤ f a) by (apply (Hf k); apply lookup_insert_eq).
  assert (0 ≤ map_sum f m).
  { apply IH. intros k' a' H'. apply (Hf k').
    rewrite lookup_insert_ne; [done|]. intros ->. congruence. }
  lia.
Qed.

(** One entry is at most the sum of non-negative entries. *)
Lemma map_sum_ge m k a :
  (∀ k a, m !! k = Some a → 0 ≤ f a) → m !! k = Some a → f a ≤ map_sum f m.
Proof.
  intros Hf Hk. rewrite (map_sum_delete m k a Hk).
  assert (0 ≤ map_sum f (delete k m)); [|lia].
  apply map_sum_nonneg. intros k' a' H'.
  apply lookup_delete_Some in H' as [_ ?]. eauto.
Qed.
End map_sum.

(** ** Automation

    [inv_ok] takes apart hypotheses that say a computation succeeded. *)
Ltac inv_ok :=
  repeat match goal with
  | H : Ok _ = Ok _ |- _ => injection H as H; try subst
  | H : Ok _ = Err _ |- _ => discriminate H
  | H : Err _ = Ok _ |- _ => discriminate H
  | H : Panic = Ok _ |- _ => discriminate H
  | H : (_ ≫= _) = Ok _ |- _ => apply obind_ok in H as (? & ? & ?)
  | H : (_ ≫= _) _ = (_, Ok _) |- _ => apply Mbind_ok in H as (? & ? & ? & ?)
  | H : ok_or ?o _ = Ok _ |- _ => destruct o eqn:?; cbn in H
  | H : ofor _ _ = Ok tt |- _ => apply ofor_ok in H
  | H : checked_sub _ _ = Some _ |- _ => apply checked_sub_some in H as [? ->]
  | H : checked_add _ _ _ = Some _ |- _ => apply checked_add_some in H as [? ->]
  end.

(** Closed goals about numbers, by evaluation. *)
Ltac by_eval := repeat match goal with |- _ ∧ _ => split | |- fits _ _ => split end;
  vm_compute; done.

(** Closed decidable goals, by evaluating the decision. *)
Ltac by_decide := apply (bool_decide_unpack _); vm_compute; exact I.

(** ** Third-party code

    SHA-256 (crate [sha2]) and hex encoding (crate [hex]) are parameters. *)
Class Sha256 := sha256 : bytes → id32.
Class Hex := hex_encode : id32 → string.

(** [hex::encode] on any bytes, and [hex::decode]: what is encoded decodes, to two
    characters for each byte. *)
Class HexBytes := hex_bytes : bytes → string.
Class HexDecode := hex_decode : string → option bytes.
Class HexLaws `{HexBytes, HexDecode} : Prop := {
  hex_decode_bytes b : Forall is_byte b → hex_decode (hex_bytes b) = Some b;
  hex_bytes_length b : String.length (hex_bytes b) = (2 * length b)%nat }.

(** SHA-256 has 32 bytes of output. *)
Class Sha256Laws `{Sha256} : Prop := sha256_fits b : fits 256 (sha256 b).

(** No two of the hashed strings collide, and a test of it for closed lists. *)
Definition no_collision `{Sha256} (xs ys : list bytes) : Prop :=
  ∀ x y, x ∈ xs → y ∈ ys → sha256 x = sha256 y → x = y.
Definition collision_free `{Sha256} (xs ys : list bytes) : bool :=
  let hashed := (λ y, (sha256 y, y)) <$> ys in
  forallb (λ x, let h := sha256 x in
    forallb (λ p, bool_decide (h = p.1 → x = p.2)) hashed) xs.
Lemma collision_free_sound `{Sha256} xs ys : collision_free xs ys = true → no_collision xs ys.
Proof.
  unfold collision_free, no_collision. intros Hc x y Hx Hy.
  apply list_elem_of_In in Hx. apply (list_elem_of_fmap_2 (λ y, (sha256 y, y))), list_elem_of_In in Hy.
  pose proof (proj1 (forallb_forall _ _) (proj1 (forallb_forall _ _) Hc x Hx) _ Hy) as Hb.
  by apply bool_decide_eq_true in Hb.
Qed.

(** [primitive_types::U256]: 256-bit unsigned arithmetic whose operators panic
    when the result does not fit.  The operations are parameters; the laws are
    the crate's documented behaviour. *)
Class U256 := {
  u256_add : Z → Z → option Z;
  u256_sub : Z → Z → option Z;
  u256_mul : Z → Z → option Z;
  u256_div : Z → Z → option Z }.
Class U256Laws `{U256} : Prop := {
  u256_add_spec x y : u256_add x y = if decide (x + y < 2 ^ 256) then Some (x + y) else None;
  u256_sub_spec x y : u256_sub x y = if decide (y ≤ x) then Some (x - y) else None;
  u256_mul_spec x y : u256_mul x y = if decide (x * y < 2 ^ 256) then Some (x * y) else None;
  u256_div_spec x y : u256_div x y = if decide (y = 0) then None else Some (x / y) }.
