(* ===== verification/Errors.v ===== *)
(** * Capabilities and runtime errors

    [Capability], [CapabilitySet] (src/runtime/src/capabilities/checker.rs) and
    [RuntimeError] with its [Display] text (src/runtime/src/errors.rs). *)

From stdpp Require Import gmap strings list fin_maps pretty.
From S2P Require Import Prelude.

(** ** Capabilities *)

(* @src src/runtime/src/capabilities/checker.rs:5-24 Capability *)
Inductive Capability : Type :=
| ReadObject
| WriteObject
| TransferAsset
| SwapAsset
| ProvideLiquidity
| WithdrawLiquidity
| MintAsset
| BurnAsset
| ModifyGovernance
| UpdateIdentity
| ContractCall (schema : id32)
| ContractAdmin (schema : id32)
| ContractDeploy.

#[export] Instance Capability_eq_dec : EqDecision Capability.
Proof. solve_decision. Defined.

Definition cap_to_pair (c : Capability) : Z * Z :=
  match c with
  | ReadObject => (0, 0) | WriteObject => (1, 0) | TransferAsset => (2, 0)
  | SwapAsset => (3, 0) | ProvideLiquidity => (4, 0) | WithdrawLiquidity => (5, 0)
  | MintAsset => (6, 0) | BurnAsset => (7, 0) | ModifyGovernance => (8, 0)
  | UpdateIdentity => (9, 0) | ContractCall s => (10, s) | ContractAdmin s => (11, s)
  | ContractDeploy => (12, 0)
  end.
Definition cap_of_pair (p : Z * Z) : option Capability :=
  nth (Z.to_nat p.1)
    [Some ReadObject; Some WriteObject; Some TransferAsset; Some SwapAsset;
     Some ProvideLiquidity; Some WithdrawLiquidity; Some MintAsset; Some BurnAsset;
     Some ModifyGovernance; Some UpdateIdentity; Some (ContractCall p.2);
     Some (ContractAdmin p.2); Some ContractDeploy] None.
#[export] Instance Capability_countable : Countable Capability.
Proof. refine (inj_countable cap_to_pair cap_of_pair _). by intros []. Defined.

(** ** Capability sets: a [BTreeSet], whose order the code never observes *)

(* @src src/runtime/src/capabilities/checker.rs:26-28 CapabilitySet *)
Abbreviation CapabilitySet := (gset Capability).

Module CapabilitySet.
(* @src src/runtime/src/capabilities/checker.rs:31-34 CapabilitySet::empty *)
Definition empty : CapabilitySet := ∅.

(* @src src/runtime/src/capabilities/checker.rs:36-50 CapabilitySet::all *)
Definition all : CapabilitySet :=
  {[ReadObject; WriteObject; TransferAsset; SwapAsset; ProvideLiquidity;
    WithdrawLiquidity; MintAsset; BurnAsset; ModifyGovernance; UpdateIdentity]}.

(* @src src/runtime/src/capabilities/checker.rs:52-60 CapabilitySet::user_default *)
Definition user_default : CapabilitySet :=
  {[ReadObject; WriteObject; TransferAsset; SwapAsset]}.

(* @src src/runtime/src/capabilities/checker.rs:62-64 CapabilitySet::contains *)
Definition contains (s : CapabilitySet) (c : Capability) : bool := bool_decide (c ∈ s).

(* @src src/runtime/src/capabilities/checker.rs:66-68 CapabilitySet::add *)
Definition add (s : CapabilitySet) (c : Capability) : CapabilitySet := {[c]} ∪ s.

(* @src src/runtime/src/capabilities/checker.rs:70-72 CapabilitySet::remove *)
Definition remove (s : CapabilitySet) (c : Capability) : CapabilitySet := s ∖ {[c]}.
End CapabilitySet.

(** ** Runtime errors *)

(* @src src/runtime/src/errors.rs:5-51 RuntimeError *)
Inductive RuntimeError : Type :=
| InvalidIntent (msg : string)
| UnauthorizedCapability (required : Capability) (held : CapabilitySet)
| ObjectNotFound (id : id32)
| InsufficientBalance (required available : Z)
| ConstraintViolation (msg : string)
| SchedulerConflict (msg : string)
| ResolutionFailure (msg : string)
| SettlementFailure (msg : string)
| ObjectQuarantined (id : id32)
| DomainPaused (domain : string)
| SolverNotRegistered (id : string)
| SolverNotEligible (solver_id reason : string)
| NoCandidatePlans
| AllPlansInvalid
| PlanValidationFailed (plan_id : id32) (reason : string)
| PolicyViolation (msg : string)
| SimulationError (msg : string)
| GoalPacketInvalid (msg : string)
| RightsCapsuleViolation (capsule_id : id32) (reason : string)
| CausalViolation (msg : string)
| BranchExecutionFailed (branch_id : Z) (reason : string)
| FinalityEscalationRequired (msg : string)
| CRXSettlementFailed (msg : string)
| ContractNotFound (schema_id : id32)
| ContractConstraintViolation (schema_id : id32) (reason : string)
| ContractValidatorError (msg : string)
| ContractDeploymentFailed (msg : string)
| ContractStateOverflow (schema_id : id32) (max_bytes actual_bytes : Z)
| SafetyViolation (incident_type severity : string)
| ContainmentFailed (scope reason : string)
| KernelEvaluationError (msg : string)
| IncidentLedgerFull
| RecoveryRequiresGovernance (msg : string).

(** The derived [Debug] text of a capability; a byte array prints as a list. *)
Definition debug_bytes32 (z : id32) : string :=
  "[" +:+ String.concat ", " (pretty <$> be_bytes 32 z) +:+ "]".
Definition debug_capability (c : Capability) : string :=
  match c with
  | ReadObject => "ReadObject"
  | WriteObject => "WriteObject"
  | TransferAsset => "TransferAsset"
  | SwapAsset => "SwapAsset"
  | ProvideLiquidity => "ProvideLiquidity"
  | WithdrawLiquidity => "WithdrawLiquidity"
  | MintAsset => "MintAsset"
  | BurnAsset => "BurnAsset"
  | ModifyGovernance => "ModifyGovernance"
  | UpdateIdentity => "UpdateIdentity"
  | ContractCall s => "ContractCall(" +:+ debug_bytes32 s +:+ ")"
  | ContractAdmin s => "ContractAdmin(" +:+ debug_bytes32 s +:+ ")"
  | ContractDeploy => "ContractDeploy"
  end.

(* @src src/runtime/src/errors.rs:53-117 Display for RuntimeError *)
Definition error_to_string `{Hex} (e : RuntimeError) : string :=
  match e with
  | InvalidIntent msg => "InvalidIntent: " +:+ msg
  | UnauthorizedCapability required _ =>
      "UnauthorizedCapability: missing " +:+ debug_capability required
  | ObjectNotFound id => "ObjectNotFound: " +:+ hex_encode id
  | InsufficientBalance required available =>
      "InsufficientBalance: required=" +:+ pretty required +:+ ", available=" +:+ pretty available
  | ConstraintViolation msg => "ConstraintViolation: " +:+ msg
  | SchedulerConflict msg => "SchedulerConflict: " +:+ msg
  | ResolutionFailure msg => "ResolutionFailure: " +:+ msg
  | SettlementFailure msg => "SettlementFailure: " +:+ msg
  | ObjectQuarantined id => "ObjectQuarantined: " +:+ hex_encode id
  | DomainPaused domain => "DomainPaused: " +:+ domain
  | SolverNotRegistered id => "SolverNotRegistered: " +:+ id
  | SolverNotEligible solver_id reason =>
      "SolverNotEligible: solver=" +:+ solver_id +:+ " reason=" +:+ reason
  | NoCandidatePlans => "NoCandidatePlans"
  | AllPlansInvalid => "AllPlansInvalid"
  | PlanValidationFailed plan_id reason =>
      "PlanValidationFailed: plan=" +:+ hex_encode plan_id +:+ " reason=" +:+ reason
  | PolicyViolation msg => "PolicyViolation: " +:+ msg
  | SimulationError msg => "SimulationError: " +:+ msg
  | GoalPacketInvalid msg => "GoalPacketInvalid: " +:+ msg
  | RightsCapsuleViolation capsule_id reason =>
      "RightsCapsuleViolation: capsule=" +:+ hex_encode capsule_id +:+ " reason=" +:+ reason
  | CausalViolation msg => "CausalViolation: " +:+ msg
  | BranchExecutionFailed branch_id reason =>
      "BranchExecutionFailed: branch=" +:+ pretty branch_id +:+ " reason=" +:+ reason
  | FinalityEscalationRequired msg => "FinalityEscalationRequired: " +:+ msg
  | CRXSettlementFailed msg => "CRXSettlementFailed: " +:+ msg
  | ContractNotFound schema_id => "ContractNotFound: schema=" +:+ hex_encode schema_id
  | ContractConstraintViolation schema_id reason =>
      "ContractConstraintViolation: schema=" +:+ hex_encode schema_id +:+ " reason=" +:+ reason
  | ContractValidatorError msg => "ContractValidatorError: " +:+ msg
  | ContractDeploymentFailed msg => "ContractDeploymentFailed: " +:+ msg
  | ContractStateOverflow schema_id max_bytes actual_bytes =>
      "ContractStateOverflow: schema=" +:+ hex_encode schema_id +:+
      " max=" +:+ pretty max_bytes +:+ " actual=" +:+ pretty actual_bytes
  | SafetyViolation incident_type severity =>
      "SafetyViolation: type=" +:+ incident_type +:+ " severity=" +:+ severity
  | ContainmentFailed scope reason =>
      "ContainmentFailed: scope=" +:+ scope +:+ " reason=" +:+ reason
  | KernelEvaluationError msg => "KernelEvaluationError: " +:+ msg
  | IncidentLedgerFull => "IncidentLedgerFull"
  | RecoveryRequiresGovernance msg => "RecoveryRequiresGovernance: " +:+ msg
  end.
