(* ===== verification/Gas.v ===== *)
(** * Gas metering

    Cost tables, calibration profiles and the gas meter
    (src/runtime/src/gas/meter.rs, src/runtime/src/gas/calibration.rs). *)

From stdpp Require Import gmap strings list pretty.
From S2P Require Import Prelude Errors.

(** ** Cost tables *)

(* @src src/runtime/src/gas/meter.rs:3-36 GasCosts *)
Record GasCosts : Type := mkGasCosts {
  base_tx : Z;
  object_read : Z;
  object_write : Z;
  debit_balance : Z;
  credit_balance : Z;
  swap_pool : Z;
  lock_balance : Z;
  unlock_balance : Z;
  update_version : Z;
  capability_check : Z;
  storage_growth_per_byte : Z;
  contract_state_read : Z;
  contract_state_write : Z;
  constraint_validation_base : Z;
  constraint_validation_per_byte : Z;
  bind_contract_balance : Z;
  create_token : Z;
  emit_event : Z;
  ibc_transfer : Z;
  schedule_execution : Z }.

(* @src src/runtime/src/gas/meter.rs:38-63 GasCosts::default_costs *)
Definition default_costs : GasCosts := {|
  base_tx := 1000;
  object_read := 100;
  object_write := 500;
  debit_balance := 200;
  credit_balance := 200;
  swap_pool := 800;
  lock_balance := 300;
  unlock_balance := 300;
  update_version := 50;
  capability_check := 50;
  storage_growth_per_byte := 20;
  contract_state_read := 200;
  contract_state_write := 1000;
  constraint_validation_base := 5000;
  constraint_validation_per_byte := 5;
  bind_contract_balance := 2000;
  create_token := 10000;
  emit_event := 500;
  ibc_transfer := 5000;
  schedule_execution := 3000 |}.

(* @src src/runtime/src/gas/calibration.rs:75-111 calibrated_costs *)
Definition calibrated_costs : GasCosts := {|
  base_tx := 1000;
  object_read := 100;
  object_write := 500;
  debit_balance := 200;
  credit_balance := 200;
  swap_pool := 1500;
  lock_balance := 300;
  unlock_balance := 300;
  update_version := 50;
  capability_check := 50;
  storage_growth_per_byte := 25;
  contract_state_read := 200;
  contract_state_write := 2000;
  constraint_validation_base := 5000;
  constraint_validation_per_byte := 5;
  bind_contract_balance := 2000;
  create_token := 10000;
  emit_event := 500;
  ibc_transfer := 5000;
  schedule_execution := 3000 |}.

(* @src src/runtime/src/gas/calibration.rs:59-73 target_hardware_costs *)
Definition target_hardware_costs : GasCosts := calibrated_costs.

(* @src src/runtime/src/gas/calibration.rs:32-48 CalibrationProfile *)
Inductive CalibrationProfile := ProfileDefault | DevMachine | TargetHardware.

(* @src src/runtime/src/gas/calibration.rs:50-57 costs_for_profile *)
Definition costs_for_profile (p : CalibrationProfile) : GasCosts :=
  match p with
  | ProfileDefault => default_costs
  | DevMachine => calibrated_costs
  | TargetHardware => target_hardware_costs
  end.

(** ** The meter *)

(* @src src/runtime/src/gas/meter.rs:68-80 GasMeter *)
Record GasMeter : Type := mkGasMeter {
  limit : Z;
  consumed : Z;
  costs : GasCosts;
  storage_bytes_added : Z;
  batch_complexity_multiplier_bps : Z }.

Definition set_consumed (m : GasMeter) (c : Z) : GasMeter :=
  mkGasMeter (limit m) c (costs m) (storage_bytes_added m) (batch_complexity_multiplier_bps m).
Definition set_storage_bytes_added (m : GasMeter) (b : Z) : GasMeter :=
  mkGasMeter (limit m) (consumed m) (costs m) b (batch_complexity_multiplier_bps m).

Module GasMeter.
(* @src src/runtime/src/gas/meter.rs:83-91 GasMeter::new *)
Definition new (l : Z) : GasMeter := {|
  limit := l;
  consumed := 0;
  costs := default_costs;
  storage_bytes_added := 0;
  batch_complexity_multiplier_bps := 10000 |}.

(* @src src/runtime/src/gas/meter.rs:93-106 GasMeter::with_complexity_multiplier *)
Definition with_complexity_multiplier (l multiplier_bps : Z) : GasMeter := {|
  limit := l;
  consumed := 0;
  costs := default_costs;
  storage_bytes_added := 0;
  batch_complexity_multiplier_bps := Z.max multiplier_bps 10000 |}.

(** The gas really charged for [amount]: the [u128] product divided by
    10000, cast down to [u64] (the cast drops the high bits). *)
(* @src src/runtime/src/gas/meter.rs:111-119 GasMeter::consume *)
Definition effective (m : GasMeter) (amount : Z) : Z :=
  if decide (batch_complexity_multiplier_bps m = 10000) then amount
  else wrapu 64 (sat_mul 128 amount (batch_complexity_multiplier_bps m) / 10000).

Definition out_of_gas (m : GasMeter) : RuntimeError :=
  ConstraintViolation ("out of gas: consumed " +:+ pretty (consumed m) +:+
                       " limit " +:+ pretty (limit m)).

(* @src src/runtime/src/gas/meter.rs:108-133 GasMeter::consume *)
Definition consume (amount : Z) : M GasMeter RuntimeError () := λ m,
  match checked_add 64 (consumed m) (effective m amount) with
  | None => (m, Err (ConstraintViolation "gas counter overflow"))
  | Some c =>
      let m := set_consumed m c in
      if decide (limit m < consumed m) then (m, Err (out_of_gas m)) else (m, Ok tt)
  end.

(* @src src/runtime/src/gas/meter.rs:135-140 GasMeter::consume_storage_growth *)
Definition consume_storage_growth (b : Z) : M GasMeter RuntimeError () := λ m,
  let m := set_storage_bytes_added m (sat_add 64 (storage_bytes_added m) b) in
  let gas := sat_mul 64 b (storage_growth_per_byte (costs m)) in
  consume gas m.

(* @src src/runtime/src/gas/meter.rs:142-144 GasMeter::remaining *)
Definition remaining (m : GasMeter) : Z := sat_sub (limit m) (consumed m).
End GasMeter.

(** ** What the meter guarantees *)

(** A meter at multiplier 1.0x whose fields fit their [u64]s. *)
Definition meter_wf (m : GasMeter) : Prop :=
  batch_complexity_multiplier_bps m = 10000 ∧ fits 64 (limit m) ∧ fits 64 (consumed m).

(** The fields [consume] never writes. *)
Definition same_meter (m m' : GasMeter) : Prop :=
  limit m' = limit m ∧ costs m' = costs m ∧
  storage_bytes_added m' = storage_bytes_added m ∧
  batch_complexity_multiplier_bps m' = batch_complexity_multiplier_bps m.

#[export] Instance same_meter_refl : Reflexive same_meter.
Proof. by intros []. Qed.
#[export] Instance same_meter_trans : Transitive same_meter.
Proof. unfold same_meter. intros ???; naive_solver congruence. Qed.

Section meter.
Implicit Types m : GasMeter.

Lemma consume_same a m : same_meter m (GasMeter.consume a m).1.
Proof.
  unfold GasMeter.consume. destruct (checked_add _ _ _); [|done].
  by case_decide.
Qed.

Lemma consume_not_panic a m : (GasMeter.consume a m).2 ≠ Panic.
Proof. unfold GasMeter.consume. destruct (checked_add _ _ _); [|done]. by case_decide. Qed.

Lemma effective_id m a : meter_wf m → GasMeter.effective m a = a.
Proof. intros (Hm & _). unfold GasMeter.effective. by rewrite decide_True. Qed.

(** At 1.0x a charge succeeds exactly when the total stays within the limit. *)
Lemma consume_ok a m m' :
  meter_wf m →
  GasMeter.consume a m = (m', Ok tt) ↔
  consumed m + a ≤ limit m ∧ m' = set_consumed m (consumed m + a).
Proof.
  intros Hwf. unfold GasMeter.consume. rewrite effective_id by done.
  destruct Hwf as (_ & Hl & Hc).
  destruct (checked_add _ _ _) as [c|] eqn:E.
  - apply checked_add_some in E as [Hlt ->]. cbn. case_decide; [|naive_solver lia].
    split; [done|]. intros [? _]. lia.
  - split; [done|]. intros [? _]. unfold checked_add in E. case_decide; [done|].
    ints.
Qed.

Lemma consume_wf a m m' :
  meter_wf m → 0 ≤ a → GasMeter.consume a m = (m', Ok tt) → meter_wf m'.
Proof.
  intros Hwf Ha (Hle & ->)%consume_ok; [|done]. destruct Hwf as (? & ? & ?).
  split_and!; cbn; [done..|]. ints.
Qed.

(** The counter only grows and, while it fits, is the running total. *)
Lemma consume_fits a m : fits 64 (consumed m) → 0 ≤ a → meter_wf m →
  fits 64 (consumed (GasMeter.consume a m).1).
Proof.
  intros Hf Ha Hwf. unfold GasMeter.consume. rewrite effective_id by done.
  destruct (checked_add _ _ _) as [c|] eqn:E; [|done].
  apply checked_add_some in E as [Hlt ->]. case_decide; cbn; ints.
Qed.

(** Charging a list of amounts one after the other. *)
Definition consume_all (l : list Z) : M GasMeter RuntimeError () := mfor GasMeter.consume l.

Lemma consume_all_ok l m m' :
  meter_wf m → consumed m ≤ limit m → Forall (λ a, 0 ≤ a) l →
  consume_all l m = (m', Ok tt) ↔
  consumed m + sumZ l ≤ limit m ∧
  m' = set_consumed m (consumed m + sumZ l).
Proof.
  intros Hwf Hlim Hl. revert m Hwf Hlim.
  induction Hl as [|a l Ha Hl IH]; intros m Hwf Hlim; rewrite ?sumZ_cons; cbn.
  { unfold sumZ; cbn. rewrite Z.add_0_r. unfold mret, M_ret. destruct m; cbn. naive_solver. }
  pose proof (sumZ_nonneg _ Hl).
  rewrite Mbind_ok. split.
  - intros (m1 & [] & H1 & H2). pose proof (consume_wf _ _ _ Hwf Ha H1) as Hwf1.
    apply consume_ok in H1 as (Hle & ->); [|done].
    apply IH in H2 as (Hle' & ->); [|done..]. cbn in *. split; [lia|].
    unfold set_consumed; cbn. f_equal. lia.
  - intros (Hle & ->). exists (set_consumed m (consumed m + a)), tt.
    assert (GasMeter.consume a m = (set_consumed m (consumed m + a), Ok tt)) as E.
    { apply consume_ok; [done|]. split; [lia|done]. }
    split; [done|]. apply IH; [exact (consume_wf _ _ _ Hwf Ha E)|cbn; lia|]. cbn. split; [lia|].
    unfold set_consumed; cbn. f_equal. lia.
Qed.
End meter.

(** ** Properties *)

(** At 1.0x a charge of [a] gas succeeds exactly when the running total
    stays within the limit, and then records exactly [a]; when it fails because
    the limit is passed, the meter has still recorded the charge; the limit,
    cost table, storage counter and multiplier are never written. *)
Theorem consume_spec (m : GasMeter) (a : Z) :
  meter_wf m → fits 64 a →
  GasMeter.consume a m =
    if decide (consumed m + a ≤ limit m) then (set_consumed m (consumed m + a), Ok tt)
    else if decide (consumed m + a ≤ u64_max) then
      (set_consumed m (consumed m + a),
       Err (GasMeter.out_of_gas (set_consumed m (consumed m + a))))
    else (m, Err (ConstraintViolation "gas counter overflow")).
Proof.
  intros Hwf Ha. unfold GasMeter.consume. rewrite effective_id by done.
  destruct Hwf as (_ & Hl & Hc). unfold checked_add.
  repeat case_decide; cbn in *; try done; ints.
Qed.

Lemma consume_spec_witness :
  meter_wf (GasMeter.new 1500) ∧ fits 64 1000 ∧
  GasMeter.consume 1000 (GasMeter.new 1500) = (set_consumed (GasMeter.new 1500) 1000, Ok tt).
Proof.
  assert (meter_wf (GasMeter.new 1500)) as H by (split_and!; vm_compute; done).
  assert (fits 64 1000) as H' by (vm_compute; done).
  split_and!; [done..|]. rewrite (consume_spec _ _ H H'). reflexivity.
Defined.

(** The complexity multiplier can make gas free.  At a 4.0x multiplier a
    charge of 2^63 units costs 2^65 gas before the cast to [u64] and nothing
    after it, so the call succeeds with an unchanged counter, whatever the
    limit. *)
Theorem consume_multiplier_truncates (l : Z) :
  fits 64 l →
  let m := GasMeter.with_complexity_multiplier l 40000 in
  2 ^ 63 * batch_complexity_multiplier_bps m / 10000 = 2 ^ 65 ∧
  GasMeter.consume (2 ^ 63) m = (m, Ok tt).
Proof.
  intros Hl. split; [done|]. unfold GasMeter.consume.
  replace (GasMeter.effective _ _) with 0 by done.
  change (checked_add 64 _ 0) with (Some 0). cbv beta iota zeta.
  case_decide as Hlt; [|done]. cbn in Hlt. ints.
Qed.

Lemma consume_multiplier_truncates_witness :
  let m := GasMeter.with_complexity_multiplier 1000 40000 in
  GasMeter.consume (2 ^ 63) m = (m, Ok tt).
Proof. apply (consume_multiplier_truncates 1000). vm_compute; done. Defined.
