(* ===== verification/Objects.v ===== *)
(** * The object model

    Object metadata and the nine concrete object types of the runtime
    (src/runtime/src/objects/base.rs, src/runtime/src/objects/types.rs), the
    trait [Object] as functions on the tagged union [BoxedObject], and the
    object-write capability check of src/runtime/src/capabilities/checker.rs.
    [bincode] is a parameter: the class [Bincode] and its laws.  The class [Ledger]
    is what the fee code sees of a store. *)

From stdpp Require Import gmap strings list.
From S2P Require Import Prelude Errors.

(** ** Base types *)

(* @src src/runtime/src/objects/base.rs:56-70 ObjectType *)
Inductive ObjectType : Type :=
| TWallet
| TBalance
| TToken
| TLiquidityPool
| TVault
| TGovernanceProposal
| TIdentity
| TExecutionReceipt
| TContract (schema : id32).

#[export] Instance ObjectType_eq_dec : EqDecision ObjectType.
Proof. solve_decision. Defined.

(* @src src/runtime/src/objects/base.rs:72-77 AccessMode *)
Inductive AccessMode : Type := ReadOnly | ReadWrite.

#[export] Instance AccessMode_eq_dec : EqDecision AccessMode.
Proof. solve_decision. Defined.

(* @src src/runtime/src/objects/base.rs:79-84 ObjectAccess *)
Record ObjectAccess : Type := mkAccess {
  object_id : id32;
  mode : AccessMode }.

#[export] Instance ObjectAccess_eq_dec : EqDecision ObjectAccess.
Proof. solve_decision. Defined.

Module ObjectAccess.
(* @src src/runtime/src/objects/types.rs:685-687 ObjectAccess::read *)
Definition read (id : id32) : ObjectAccess := mkAccess id ReadOnly.
(* @src src/runtime/src/objects/types.rs:689-691 ObjectAccess::write *)
Definition write (id : id32) : ObjectAccess := mkAccess id ReadWrite.
End ObjectAccess.

(* @src src/runtime/src/objects/base.rs:89-98 ObjectMeta *)
Record ObjectMeta : Type := mkMeta {
  id : id32;
  object_type : ObjectType;
  owner : id32;
  version : Z;
  created_at : Z;
  updated_at : Z }.

Module ObjectMeta.
(* @src src/runtime/src/objects/base.rs:101-110 ObjectMeta::new *)
Definition new (oid : id32) (t : ObjectType) (own : id32) (now : Z) : ObjectMeta :=
  mkMeta oid t own 0 now now.
End ObjectMeta.

Definition set_version (m : ObjectMeta) (v : Z) : ObjectMeta :=
  mkMeta (id m) (object_type m) (owner m) v (created_at m) (updated_at m).
Definition set_owner (m : ObjectMeta) (o : id32) : ObjectMeta :=
  mkMeta (id m) (object_type m) o (version m) (created_at m) (updated_at m).
Definition set_updated_at (m : ObjectMeta) (t : Z) : ObjectMeta :=
  mkMeta (id m) (object_type m) (owner m) (version m) (created_at m) t.

(** ** Concrete objects *)

(* @src src/runtime/src/objects/types.rs:146-154 WalletObject *)
Record WalletObject : Type := mkWallet {
  wal_meta : ObjectMeta;
  wal_address : id32;
  authorized_keys : list id32;
  wal_nonce : Z }.

(* @src src/runtime/src/objects/types.rs:182-191 BalanceObject *)
Record BalanceObject : Type := mkBalance {
  bal_meta : ObjectMeta;
  bal_owner : id32;
  bal_asset_id : id32;
  amount : Z;
  locked_amount : Z }.

(* @src src/runtime/src/objects/types.rs:230-241 TokenObject *)
Record TokenObject : Type := mkToken {
  tok_meta : ObjectMeta;
  tok_asset_id : id32;
  symbol : string;
  decimals : Z;
  total_supply : Z;
  max_supply : option Z;
  mint_authority : option id32 }.

(* @src src/runtime/src/objects/types.rs:280-294 LiquidityPoolObject *)
Record LiquidityPoolObject : Type := mkPool {
  pool_meta : ObjectMeta;
  asset_a : id32;
  asset_b : id32;
  reserve_a : Z;
  reserve_b : Z;
  fee_bps : Z;
  lp_token_id : id32;
  total_lp_supply : Z }.

(* @src src/runtime/src/objects/types.rs:366-375 VaultObject *)
Record VaultObject : Type := mkVault {
  vault_meta : ObjectMeta;
  vault_asset_id : id32;
  deposited_amount : Z;
  strategy_id : option id32;
  withdrawal_lock_until : Z }.

(* @src src/runtime/src/objects/types.rs:409-415 ProposalStatus *)
Inductive ProposalStatus : Type := Active | Passed | Rejected | Expired.

(* @src src/runtime/src/objects/types.rs:417-430 GovernanceProposalObject *)
Record GovernanceProposalObject : Type := mkProposal {
  prop_meta : ObjectMeta;
  proposal_id : Z;
  proposer : id32;
  title : string;
  description : string;
  vote_yes : Z;
  vote_no : Z;
  vote_abstain : Z;
  deadline_epoch : Z;
  prop_status : ProposalStatus }.

(* @src src/runtime/src/objects/types.rs:473-482 IdentityObject *)
Record IdentityObject : Type := mkIdentity {
  ident_meta : ObjectMeta;
  ident_address : id32;
  display_name : string;
  verified : bool;
  reputation_score : Z;
  kyc_tier : Z }.

(* @src src/runtime/src/objects/types.rs:518-530 ExecutionReceiptObject *)
Record ExecutionReceiptObject : Type := mkReceiptObject {
  rcpt_meta : ObjectMeta;
  rcpt_tx_id : id32;
  rcpt_success : bool;
  rcpt_affected_objects : list id32;
  old_versions : list (id32 * Z);
  new_versions : list (id32 * Z);
  error_code : option Z;
  rcpt_gas_used : Z;
  executed_at_epoch : Z }.

(* @src src/runtime/src/objects/types.rs:570-591 ContractObject *)
Record ContractObject : Type := mkContract {
  con_meta : ObjectMeta;
  con_schema_id : id32;
  state : bytes;
  state_hash : id32;
  created_by : id32;
  admin : option id32;
  max_state_bytes : Z }.

Module WalletObject.
(* @src src/runtime/src/objects/types.rs:157-164 WalletObject::new *)
Definition new (oid own address : id32) (now : Z) : WalletObject :=
  mkWallet (ObjectMeta.new oid TWallet own now) address [own] 0.
End WalletObject.

Module BalanceObject.
(* @src src/runtime/src/objects/types.rs:194-208 BalanceObject::new *)
Definition new (oid own asset : id32) (amt now : Z) : BalanceObject :=
  mkBalance (ObjectMeta.new oid TBalance own now) own asset amt 0.

(* @src src/runtime/src/objects/types.rs:210-212 BalanceObject::available *)
Definition available (b : BalanceObject) : Z := sat_sub (amount b) (locked_amount b).
End BalanceObject.

Definition set_bal_meta (b : BalanceObject) (m : ObjectMeta) : BalanceObject :=
  mkBalance m (bal_owner b) (bal_asset_id b) (amount b) (locked_amount b).
Definition set_bal_owner (b : BalanceObject) (o : id32) : BalanceObject :=
  mkBalance (bal_meta b) o (bal_asset_id b) (amount b) (locked_amount b).
Definition set_amount (b : BalanceObject) (a : Z) : BalanceObject :=
  mkBalance (bal_meta b) (bal_owner b) (bal_asset_id b) a (locked_amount b).
Definition set_locked (b : BalanceObject) (l : Z) : BalanceObject :=
  mkBalance (bal_meta b) (bal_owner b) (bal_asset_id b) (amount b) l.

Module TokenObject.
(* @src src/runtime/src/objects/types.rs:244-262 TokenObject::new *)
Definition new (oid own asset : id32) (sym : string) (dec supply now : Z) : TokenObject :=
  mkToken (ObjectMeta.new oid TToken own now) asset sym dec supply None (Some own).
End TokenObject.

Definition set_max_supply (t : TokenObject) (m : option Z) : TokenObject :=
  mkToken (tok_meta t) (tok_asset_id t) (symbol t) (decimals t) (total_supply t) m
    (mint_authority t).
Definition set_mint_authority (t : TokenObject) (a : option id32) : TokenObject :=
  mkToken (tok_meta t) (tok_asset_id t) (symbol t) (decimals t) (total_supply t)
    (max_supply t) a.

Module LiquidityPoolObject.
(* @src src/runtime/src/objects/types.rs:297-318 LiquidityPoolObject::new *)
Definition new (oid own a b : id32) (ra rb fee : Z) (lp : id32) (now : Z) : LiquidityPoolObject :=
  mkPool (ObjectMeta.new oid TLiquidityPool own now) a b ra rb fee lp 0.

(* @src src/runtime/src/objects/types.rs:320-348 LiquidityPoolObject::compute_output *)
Definition compute_output `{U256} (p : LiquidityPoolObject) (input : Z) (input_is_a : bool)
  : outcome Empty_set Z :=
  let '(r_in, r_out) :=
    if input_is_a then (reserve_a p, reserve_b p) else (reserve_b p, reserve_a p) in
  fee_factor ← expect (u256_sub 10000 (fee_bps p));
  x ← expect (u256_mul input fee_factor);
  numerator ← expect (u256_mul x r_out);
  y ← expect (u256_mul r_in 10000);
  z ← expect (u256_mul input fee_factor);
  denominator ← expect (u256_add y z);
  if decide (denominator = 0) then Ok 0 else
  result ← expect (u256_div numerator denominator);
  if decide (u128_max < result) then Ok u128_max else Ok result.
End LiquidityPoolObject.

Definition set_pool_meta (p : LiquidityPoolObject) (m : ObjectMeta) : LiquidityPoolObject :=
  mkPool m (asset_a p) (asset_b p) (reserve_a p) (reserve_b p) (fee_bps p) (lp_token_id p)
    (total_lp_supply p).
Definition set_reserves (p : LiquidityPoolObject) (ra rb : Z) : LiquidityPoolObject :=
  mkPool (pool_meta p) (asset_a p) (asset_b p) ra rb (fee_bps p) (lp_token_id p)
    (total_lp_supply p).

Module VaultObject.
(* @src src/runtime/src/objects/types.rs:378-391 VaultObject::new *)
Definition new (oid own asset : id32) (now : Z) : VaultObject :=
  mkVault (ObjectMeta.new oid TVault own now) asset 0 None 0.
End VaultObject.

Definition set_vault_meta (v : VaultObject) (m : ObjectMeta) : VaultObject :=
  mkVault m (vault_asset_id v) (deposited_amount v) (strategy_id v) (withdrawal_lock_until v).

Module GovernanceProposalObject.
(* @src src/runtime/src/objects/types.rs:433-455 GovernanceProposalObject::new *)
Definition new (oid own : id32) (pid : Z) (prop : id32) (t d : string) (deadline now : Z)
  : GovernanceProposalObject :=
  mkProposal (ObjectMeta.new oid TGovernanceProposal own now) pid prop t d 0 0 0 deadline Active.
End GovernanceProposalObject.

Module IdentityObject.
(* @src src/runtime/src/objects/types.rs:485-500 IdentityObject::new *)
Definition new (oid own address : id32) (name : string) (now : Z) : IdentityObject :=
  mkIdentity (ObjectMeta.new oid TIdentity own now) address name false 0 0.
End IdentityObject.

Module ExecutionReceiptObject.
(* @src src/runtime/src/objects/types.rs:533-551 ExecutionReceiptObject::new *)
Definition new (oid own tx : id32) (ok : bool) (now : Z) : ExecutionReceiptObject :=
  mkReceiptObject (ObjectMeta.new oid TExecutionReceipt own now) tx ok [] [] [] None 0 now.
End ExecutionReceiptObject.

Module ContractObject.
(* @src src/runtime/src/objects/types.rs:594-620 ContractObject::new *)
Definition new `{Sha256} (oid own schema : id32) (initial_state : bytes) (max_bytes now : Z)
  : ContractObject :=
  mkContract (ObjectMeta.new oid (TContract schema) own now) schema initial_state
    (sha256 initial_state) own (Some own) max_bytes.

(* @src src/runtime/src/objects/types.rs:622-630 ContractObject::set_state *)
Definition set_state `{Sha256} (c : ContractObject) (new_state : bytes) : ContractObject :=
  mkContract (con_meta c) (con_schema_id c) new_state (sha256 new_state) (created_by c)
    (admin c) (max_state_bytes c).

(* @src src/runtime/src/objects/types.rs:632-635 ContractObject::state_size *)
Definition state_size (c : ContractObject) : Z := wrapu 64 (Z.of_nat (length (state c))).
End ContractObject.

Definition set_con_meta (c : ContractObject) (m : ObjectMeta) : ContractObject :=
  mkContract m (con_schema_id c) (state c) (state_hash c) (created_by c) (admin c)
    (max_state_bytes c).

(** ** The trait [Object] on the union of the concrete types *)

(* @src src/runtime/src/objects/base.rs:123-124 BoxedObject *)
Inductive BoxedObject : Type :=
| OWallet (w : WalletObject)
| OBalance (b : BalanceObject)
| OToken (t : TokenObject)
| OPool (p : LiquidityPoolObject)
| OVault (v : VaultObject)
| OProposal (p : GovernanceProposalObject)
| OIdentity (i : IdentityObject)
| OReceipt (r : ExecutionReceiptObject)
| OContract (c : ContractObject).

Module Object.
(* @src src/runtime/src/objects/base.rs:113-116 Object::meta *)
Definition meta (o : BoxedObject) : ObjectMeta :=
  match o with
  | OWallet w => wal_meta w
  | OBalance b => bal_meta b
  | OToken t => tok_meta t
  | OPool p => pool_meta p
  | OVault v => vault_meta v
  | OProposal p => prop_meta p
  | OIdentity i => ident_meta i
  | OReceipt r => rcpt_meta r
  | OContract c => con_meta c
  end.

(** Writing through [meta_mut()]. *)
(* @src src/runtime/src/objects/base.rs:116-116 Object::meta_mut *)
Definition map_meta (f : ObjectMeta → ObjectMeta) (o : BoxedObject) : BoxedObject :=
  match o with
  | OWallet w => OWallet (mkWallet (f (wal_meta w)) (wal_address w) (authorized_keys w) (wal_nonce w))
  | OBalance b => OBalance (set_bal_meta b (f (bal_meta b)))
  | OToken t => OToken (mkToken (f (tok_meta t)) (tok_asset_id t) (symbol t) (decimals t)
      (total_supply t) (max_supply t) (mint_authority t))
  | OPool p => OPool (set_pool_meta p (f (pool_meta p)))
  | OVault v => OVault (set_vault_meta v (f (vault_meta v)))
  | OProposal p => OProposal (mkProposal (f (prop_meta p)) (proposal_id p) (proposer p) (title p)
      (description p) (vote_yes p) (vote_no p) (vote_abstain p) (deadline_epoch p) (prop_status p))
  | OIdentity i => OIdentity (mkIdentity (f (ident_meta i)) (ident_address i) (display_name i)
      (verified i) (reputation_score i) (kyc_tier i))
  | OReceipt r => OReceipt (mkReceiptObject (f (rcpt_meta r)) (rcpt_tx_id r) (rcpt_success r)
      (rcpt_affected_objects r) (old_versions r) (new_versions r) (error_code r)
      (rcpt_gas_used r) (executed_at_epoch r))
  | OContract c => OContract (set_con_meta c (f (con_meta c)))
  end.

(* @src src/runtime/src/objects/base.rs:117-117 Object::object_type *)
Definition object_type (o : BoxedObject) : ObjectType :=
  match o with
  | OWallet _ => TWallet
  | OBalance _ => TBalance
  | OToken _ => TToken
  | OPool _ => TLiquidityPool
  | OVault _ => TVault
  | OProposal _ => TGovernanceProposal
  | OIdentity _ => TIdentity
  | OReceipt _ => TExecutionReceipt
  | OContract c => TContract (con_schema_id c)
  end.

(* @src src/runtime/src/objects/base.rs:118-118 Object::required_capabilities_for_write *)
Definition required_capabilities_for_write (o : BoxedObject) : list Capability :=
  match o with
  | OWallet _ => [WriteObject]
  | OBalance _ => [TransferAsset]
  | OToken _ => [MintAsset; BurnAsset]
  | OPool _ => [ProvideLiquidity]
  | OVault _ => [WriteObject]
  | OProposal _ => [ModifyGovernance]
  | OIdentity _ => [UpdateIdentity]
  | OReceipt _ => [WriteObject]
  | OContract c => [WriteObject; ContractCall (con_schema_id c)]
  end.
End Object.

(** [bincode]: serialization of every object, deserialization at the four types
    the store and the settlement engine read back.  The laws are the round
    trips the code's [expect]s rely on. *)
Class Bincode := {
  encode : BoxedObject → bytes;
  decode_balance : bytes → option BalanceObject;
  decode_pool : bytes → option LiquidityPoolObject;
  decode_vault : bytes → option VaultObject;
  decode_contract : bytes → option ContractObject }.
Class BincodeLaws `{Bincode} : Prop := {
  decode_encode_balance b : decode_balance (encode (OBalance b)) = Some b;
  decode_encode_pool p : decode_pool (encode (OPool p)) = Some p;
  decode_encode_vault v : decode_vault (encode (OVault v)) = Some v;
  decode_encode_contract c : decode_contract (encode (OContract c)) = Some c }.

(** ** Capability checks *)

Module CapabilityChecker.
(* @src src/runtime/src/capabilities/checker.rs:83-95 CapabilityChecker::check *)
Fixpoint check (held : CapabilitySet) (required : list Capability)
  : outcome RuntimeError () :=
  match required with
  | [] => Ok tt
  | cap :: required =>
      if CapabilitySet.contains held cap then check held required
      else Err (UnauthorizedCapability cap held)
  end.

(* @src src/runtime/src/capabilities/checker.rs:97-109 CapabilityChecker::check_object_write *)
Definition check_object_write (held : CapabilitySet) (obj : BoxedObject)
  : outcome RuntimeError () :=
  if negb (CapabilitySet.contains held WriteObject) then
    Err (UnauthorizedCapability WriteObject held)
  else check held (Object.required_capabilities_for_write obj).
End CapabilityChecker.

(** ** Lemmas *)

Create Rewrite HintDb objects.

Lemma check_ok held required :
  CapabilityChecker.check held required = Ok tt ↔ (∀ c, c ∈ required → c ∈ held).
Proof.
  induction required as [|c l IH]; cbn.
  { split; [|done]. intros _ c ?%elem_of_nil. done. }
  unfold CapabilitySet.contains. case_bool_decide.
  - rewrite IH. split; [|set_solver]. intros ? c' [->|?]%elem_of_cons; auto.
  - split; [done|]. intros Hl. destruct H. apply Hl. left.
Qed.

Lemma check_not_panic held required : CapabilityChecker.check held required ≠ Panic.
Proof. induction required as [|c l IH]; cbn; [done|]. by destruct (CapabilitySet.contains _ _). Qed.

Lemma check_err held required e :
  CapabilityChecker.check held required = Err e ↔
  (∃ c l1 l2, required = l1 ++ c :: l2 ∧ (∀ c', c' ∈ l1 → c' ∈ held) ∧ (c ∉ held) ∧
    e = UnauthorizedCapability c held).
Proof.
  revert e. induction required as [|c l IH]; intros e; cbn.
  { split; [done|]. by intros (? & [] & ? & ? & _). }
  unfold CapabilitySet.contains in *. case_bool_decide as Hc.
  - rewrite IH. split.
    + intros (c' & l1 & l2 & -> & H1 & ? & ?). exists c', (c :: l1), l2.
      split_and!; [done| |done..]. by intros ? [->|?]%elem_of_cons; auto.
    + intros (c' & [|c1 l1] & l2 & [= <- ->] & H1 & ? & ?); [done|].
      exists c', l1, l2. split_and!; [done| |done..]. intros. apply H1. by right.
  - split.
    + intros [= <-]. exists c, [], l. split_and!; [done| |done..]. by intros ? ?%elem_of_nil.
    + intros (c' & [|c1 l1] & l2 & [= <- ->] & H1 & ? & ->); [done|].
      destruct Hc. apply H1. left.
Qed.

(** [map_meta] touches the metadata only. *)
Lemma meta_map_meta f o : Object.meta (Object.map_meta f o) = f (Object.meta o).
Proof. by destruct o. Qed.
Lemma object_type_map_meta f o : Object.object_type (Object.map_meta f o) = Object.object_type o.
Proof. by destruct o. Qed.

#[export] Hint Rewrite meta_map_meta object_type_map_meta : objects.

(** ** Properties *)

(** Writing an object is authorised exactly when the caller holds
    [WriteObject] and every capability the object's type asks for; otherwise
    the error names the first missing one, [WriteObject] being checked first. *)
Theorem check_object_write_spec (held : CapabilitySet) (o : BoxedObject) :
  (CapabilityChecker.check_object_write held o = Ok tt ↔
     WriteObject ∈ held ∧ (∀ c, c ∈ Object.required_capabilities_for_write o → c ∈ held)) ∧
  (∀ e, CapabilityChecker.check_object_write held o = Err e →
     ∃ c, (c ∉ held) ∧ e = UnauthorizedCapability c held ∧
          (c = WriteObject ∨
           (WriteObject ∈ held ∧ c ∈ Object.required_capabilities_for_write o))) ∧
  CapabilityChecker.check_object_write held o ≠ Panic.
Proof.
  unfold CapabilityChecker.check_object_write, CapabilitySet.contains.
  case_bool_decide as Hw; cbn.
  - split_and!; [rewrite check_ok; naive_solver| |apply check_not_panic].
    intros e (c & l1 & l2 & Hl & _ & Hc & ->)%check_err. exists c. split; [done|]. split; [done|].
    right. split; [done|]. rewrite Hl. set_solver.
  - split_and!; [naive_solver| |done]. intros e [= <-]. exists WriteObject. naive_solver.
Qed.

(** * The balance-ledger interface

    What the fee executor and the fee settlement of the engine need from the
    object store: find the balance of an (owner, asset) pair and write to it.
    [ObjectStore] implements it (file Store); the theorems about fees are proved
    against the interface. *)

(** The fields by which a balance is found. *)
Definition keeps_key (f : BalanceObject → BalanceObject) : Prop :=
  ∀ b, bal_owner (f b) = bal_owner b ∧ bal_asset_id (f b) = bal_asset_id b.

Class BalanceLedger (S : Type) := {
  ledger_get : S → id32 → id32 → option BalanceObject;
  ledger_update : (BalanceObject → BalanceObject) → id32 → id32 → S → S }.

Class LedgerLaws (S : Type) `{BalanceLedger S} : Prop := {
  ledger_get_key s o a b :
    ledger_get s o a = Some b → bal_owner b = o ∧ bal_asset_id b = a;
  ledger_get_update f s o a :
    keeps_key f → ledger_get (ledger_update f o a s) o a = f <$> ledger_get s o a;
  ledger_get_update_ne f s o a o' a' :
    keeps_key f → (o, a) ≠ (o', a') →
    ledger_get (ledger_update f o a s) o' a' = ledger_get s o' a' }.

Lemma keeps_key_amount f : keeps_key (λ b, set_amount b (f b)).
Proof. by intros []. Qed.
Lemma keeps_key_locked f : keeps_key (λ b, set_locked b (f b)).
Proof. by intros []. Qed.
Lemma keeps_key_comp f g : keeps_key f → keeps_key g → keeps_key (λ b, g (f b)).
Proof. intros Hf Hg b. destruct (Hf b), (Hg (f b)). split; congruence. Qed.

Create HintDb ledger.
#[export] Hint Resolve keeps_key_amount keeps_key_locked keeps_key_comp : ledger.
