(* ===== verification/Concrete.v ===== *)
(** * Concrete parameters and sample objects

    One computable instance of each third-party parameter, with its laws, at
    which the theorems are exercised, and the sample objects those runs share.
    Nothing here is a claim about the crates: the theorems hold for every
    instance that satisfies the laws. *)

From Stdlib Require Import Ascii.
From stdpp Require Import gmap strings list pretty.
From S2P Require Import Prelude Errors Objects.

Definition sample_mask : Z := Eval cbv in Z.ones 256.
Definition sample_sha256 : Sha256 := foldl (λ h b, Z.land (h * 257 + b + 1) sample_mask) 7.
Lemma sample_sha256_laws : @Sha256Laws sample_sha256.
Proof.
  intros b. unfold sha256, sample_sha256. destruct b as [|x b _] using rev_ind; [by_eval|].
  rewrite foldl_app. cbn [foldl]. change sample_mask with (Z.ones 256).
  rewrite Z.land_ones by done. by apply Z.mod_pos_bound.
Qed.
Definition sample_hex : Hex := λ z, pretty z.

(** Lower-case hexadecimal of bytes, and back. *)
Definition nibble (d : Z) : ascii :=
  ascii_of_N (Z.to_N (if decide (d < 10) then 48 + d else 87 + d)).
Definition nibble_value (a : ascii) : option Z :=
  let n := Z.of_N (N_of_ascii a) in
  if decide (48 ≤ n ≤ 57) then Some (n - 48)
  else if decide (97 ≤ n ≤ 102) then Some (n - 87) else None.
Fixpoint nibbles (b : bytes) : string :=
  match b with
  | [] => EmptyString
  | x :: b => String (nibble (x / 16)) (String (nibble (x mod 16)) (nibbles b))
  end.
Fixpoint from_nibbles (s : string) : option bytes :=
  match s with
  | EmptyString => Some []
  | String _ EmptyString => None
  | String a (String a' s) =>
      d ← nibble_value a; d' ← nibble_value a'; b ← from_nibbles s; Some (d * 16 + d' :: b)
  end.
Definition sample_hex_bytes : HexBytes := nibbles.
Definition sample_hex_decode : HexDecode := from_nibbles.

Lemma nibble_value_of d : 0 ≤ d < 16 → nibble_value (nibble d) = Some d.
Proof.
  intros Hd. assert (Forall (λ d, nibble_value (nibble d) = Some d) (seqZ 0 16)) as Hall by by_decide.
  apply (proj1 (Forall_forall _ _) Hall), elem_of_seqZ. lia.
Qed.

Lemma sample_hex_laws : @HexLaws sample_hex_bytes sample_hex_decode.
Proof.
  split.
  - unfold hex_decode, hex_bytes, sample_hex_decode, sample_hex_bytes. unfold is_byte.
    induction 1 as [|x b Hx _ IH]; [done|]. cbn [nibbles from_nibbles].
    rewrite !nibble_value_of by (pose proof (Z.mod_pos_bound x 16); pose proof (Z.div_lt_upper_bound x 16 16);
      pose proof (Z.div_pos x 16); lia).
    cbn [mbind option_bind]. rewrite IH. cbn [mbind option_bind]. do 2 f_equal.
    pose proof (Z.div_mod x 16). lia.
  - intros b. unfold hex_bytes, sample_hex_bytes. induction b as [|x b IH]; [done|].
    cbn [nibbles String.length]. rewrite IH. cbn. lia.
Defined.

Definition sample_u256 : U256 := {|
  u256_add x y := if decide (x + y < 2 ^ 256) then Some (x + y) else None;
  u256_sub x y := if decide (y ≤ x) then Some (x - y) else None;
  u256_mul x y := if decide (x * y < 2 ^ 256) then Some (x * y) else None;
  u256_div x y := if decide (y = 0) then None else Some (x / y) |}.
Lemma sample_u256_laws : @U256Laws sample_u256.
Proof. by split. Defined.

(** A flat serialization into numbers. *)
Definition enc_type (t : ObjectType) : list Z :=
  match t with
  | TWallet => [0; 0] | TBalance => [1; 0] | TToken => [2; 0] | TLiquidityPool => [3; 0]
  | TVault => [4; 0] | TGovernanceProposal => [5; 0] | TIdentity => [6; 0]
  | TExecutionReceipt => [7; 0] | TContract s => [8; s]
  end.
Definition dec_type (tag s : Z) : ObjectType :=
  nth (Z.to_nat tag) [TWallet; TBalance; TToken; TLiquidityPool; TVault; TGovernanceProposal;
    TIdentity; TExecutionReceipt; TContract s] TWallet.
Lemma enc_dec_type t l : ∃ a b, enc_type t ++ l = a :: b :: l ∧ dec_type a b = t.
Proof. destruct t; eexists _, _; by split. Defined.

Definition enc_meta (m : ObjectMeta) : list Z :=
  enc_type (object_type m) ++ [id m; owner m; version m; created_at m; updated_at m].
Definition enc_opt (o : option Z) : list Z := match o with Some z => [1; z] | None => [0; 0] end.
Definition dec_opt (t z : Z) : option Z := if decide (t = 1) then Some z else None.
Definition dec_meta (t s i o v c u : Z) : ObjectMeta := mkMeta i (dec_type t s) o v c u.

Definition sample_encode (o : BoxedObject) : bytes :=
  match o with
  | OBalance b => 1 :: enc_meta (bal_meta b) ++
      [bal_owner b; bal_asset_id b; amount b; locked_amount b]
  | OPool p => 2 :: enc_meta (pool_meta p) ++
      [asset_a p; asset_b p; reserve_a p; reserve_b p; fee_bps p; lp_token_id p;
       total_lp_supply p]
  | OVault v => 3 :: enc_meta (vault_meta v) ++
      [vault_asset_id v; deposited_amount v] ++ enc_opt (strategy_id v) ++
      [withdrawal_lock_until v]
  | OContract c => 4 :: enc_meta (con_meta c) ++
      [con_schema_id c; state_hash c; created_by c] ++ enc_opt (admin c) ++
      [max_state_bytes c] ++ state c
  | _ => 5 :: enc_meta (Object.meta o)
  end.

Definition sample_bincode : Bincode := {|
  encode := sample_encode;
  decode_balance l := match l with
    | [1; t; s; i; o; v; c; u; ow; a; am; lk] =>
        Some (mkBalance (dec_meta t s i o v c u) ow a am lk)
    | _ => None end;
  decode_pool l := match l with
    | [2; t; s; i; o; v; c; u; a; b; ra; rb; fee; lp; sup] =>
        Some (mkPool (dec_meta t s i o v c u) a b ra rb fee lp sup)
    | _ => None end;
  decode_vault l := match l with
    | [3; t; s; i; o; v; c; u; a; d; st; sz; w] =>
        Some (mkVault (dec_meta t s i o v c u) a d (dec_opt st sz) w)
    | _ => None end;
  decode_contract l := match l with
    | 4 :: t :: s :: i :: o :: v :: c :: u :: sch :: h :: cr :: ad :: az :: mx :: st =>
        Some (mkContract (dec_meta t s i o v c u) sch st h cr (dec_opt ad az) mx)
    | _ => None end |}.

Lemma sample_bincode_laws : @BincodeLaws sample_bincode.
Proof.
  split.
  - intros [[i t o v c u] ????]. by destruct t.
  - intros [[i t o v c u] ???????]. by destruct t.
  - intros [[i t o v c u] ?? [?|] ?]; by destruct t.
  - intros [[i t o v c u] ???? [?|] ?]; by destruct t.
Defined.

(** ** Sample objects: two holders of asset 5, one of asset 6, a pool, a vault
    and a contract *)
Definition alice : id32 := 1.
Definition bob : id32 := 2.
Definition bal_alice5 : BalanceObject := BalanceObject.new 10 alice 5 1000 0.
Definition bal_bob5 : BalanceObject := BalanceObject.new 11 bob 5 50 0.
Definition bal_alice6 : BalanceObject := BalanceObject.new 12 alice 6 7 0.
Definition pool56 : LiquidityPoolObject :=
  LiquidityPoolObject.new 20 bob 5 6 100000 200000 30 99 0.
Definition vault5 : VaultObject := VaultObject.new 30 bob 5 0.
Definition contract40 : ContractObject :=
  @ContractObject.new sample_sha256 40 alice 77 [1; 2] 64 0.
Definition token50 : TokenObject := TokenObject.new 50 alice 8 "TOK" 6 1000 0.
