(* ===== verification/Sorting.v ===== *)
(** * Lists ordered by a comparator

    Rust's [sort_by]: a stable sort by a comparison function, with what its result
    is when the comparator is a total order up to ties. *)

From stdpp Require Import gmap strings list sorting.
From S2P Require Import Prelude.

(** [sort_by] with a comparator: equal elements keep their order, which
    determines the result, so an insertion sort gives it. *)
Definition then_with (c c' : comparison) : comparison := match c with Eq => c' | _ => c end.

Fixpoint insert_by {A} (cmp : A → A → comparison) (x : A) (l : list A) : list A :=
  match l with
  | [] => [x]
  | y :: l' => match cmp x y with Gt => y :: insert_by cmp x l' | _ => x :: l end
  end.
Definition sort_by {A} (cmp : A → A → comparison) (l : list A) : list A :=
  foldr (insert_by cmp) [] l.

(** [c.then_with(..)] on a comparison of numbers. *)
Lemma then_with_compare (x y : Z) c : then_with (x ?= y) c ≠ Gt ↔ x < y ∨ (x = y ∧ c ≠ Gt).
Proof. destruct (Z.compare_spec x y); cbn; naive_solver lia. Qed.

(** ** The sorted list *)

Section sort_by.
Context {A : Type} (cmp : A → A → comparison).
Implicit Types l : list A.

(** Comes no later, by a comparator that is a total order up to ties. *)
Definition no_later (x y : A) : Prop := cmp x y ≠ Gt.

Lemma insert_by_perm x l : insert_by cmp x l ≡ₚ x :: l.
Proof.
  induction l as [|y l IH]; [done|]. cbn. destruct (cmp x y); [done..|].
  rewrite IH. apply perm_swap.
Qed.

Lemma sort_by_perm l : sort_by cmp l ≡ₚ l.
Proof.
  induction l as [|x l IH]; [done|]. change (insert_by cmp x (sort_by cmp l) ≡ₚ x :: l).
  by rewrite insert_by_perm, IH.
Qed.

Hypothesis no_later_total : ∀ x y, cmp x y = Gt → no_later y x.
Hypothesis no_later_trans : ∀ x y z, no_later x y → no_later y z → no_later x z.

Lemma insert_by_sorted x l :
  StronglySorted no_later l → StronglySorted no_later (insert_by cmp x l).
Proof.
  induction 1 as [|y l Hs IH Hall]; cbn; [by repeat constructor|].
  assert (no_later x y → StronglySorted no_later (x :: y :: l)) as Hfront.
  { intros Hxy. constructor; [by constructor|]. constructor; [done|].
    eapply Forall_impl; [exact Hall|]. intros z Hz. by eapply no_later_trans. }
  unfold no_later in Hfront at 1. destruct (cmp x y) eqn:E; [by apply Hfront..|].
  constructor; [done|]. rewrite insert_by_perm. constructor; [by apply no_later_total|done].
Qed.

Lemma sort_by_sorted l : StronglySorted no_later (sort_by cmp l).
Proof.
  induction l as [|x l IH]; [constructor|].
  change (StronglySorted no_later (insert_by cmp x (sort_by cmp l))). by apply insert_by_sorted.
Qed.

(** The first of the sorted list is there and no later than any other. *)
Lemma sort_by_head l x :
  head (sort_by cmp l) = Some x → x ∈ l ∧ ∀ y, y ∈ l → no_later x y.
Proof.
  intros Hh. setoid_rewrite <- (sort_by_perm l). pose proof (sort_by_sorted l) as Hs.
  destruct (sort_by cmp l) as [|z l']; [done|]. injection Hh as ->. split; [left|].
  inversion Hs as [|? ? _ Hall]; subst. intros y [->|Hy]%elem_of_cons.
  - intros E. by apply (no_later_total x x E).
  - by apply (proj1 (Forall_forall _ _) Hall).
Qed.

Lemma sort_by_head_some l : l ≠ [] → is_Some (head (sort_by cmp l)).
Proof.
  intros Hl. destruct (sort_by cmp l) as [|z l'] eqn:E; [|by eexists].
  pose proof (sort_by_perm l) as Hp. rewrite E in Hp. by apply Permutation_nil in Hp.
Qed.

(** Among elements that the comparator tells apart, permuted lists have the same
    first element. *)
Lemma sort_by_head_perm l l' :
  (∀ x y, x ∈ l → y ∈ l → no_later x y → no_later y x → x = y) → l ≡ₚ l' →
  head (sort_by cmp l) = head (sort_by cmp l').
Proof.
  intros Hanti Hp. destruct (decide (length l = 0%nat)) as [E|E].
  { apply nil_length_inv in E as ->. by apply Permutation_nil in Hp as ->. }
  assert (l ≠ []) as Hl by (by intros ->).
  assert (l' ≠ []) as Hl' by (intros ->; by apply Permutation_sym, Permutation_nil in Hp).
  destruct (sort_by_head_some l Hl) as [x Hx], (sort_by_head_some l' Hl') as [y Hy].
  rewrite Hx, Hy. f_equal. apply sort_by_head in Hx as [Hx Hxmin], Hy as [Hy Hymin].
  apply Hanti; [done|by rewrite Hp|apply Hxmin; by rewrite Hp|apply Hymin; by rewrite <- Hp].
Qed.
End sort_by.

Lemma StronglySorted_weaken {A} (R R' : A → A → Prop) l :
  (∀ x y, R x y → R' x y) → StronglySorted R l → StronglySorted R' l.
Proof.
  intros HR. induction 1 as [|x l _ IH Hall]; constructor; [done|].
  eapply Forall_impl; [exact Hall|]. auto.
Qed.

Lemma not_no_later {A} (cmp : A → A → comparison) x y : cmp x y = Gt → ¬ no_later cmp x y.
Proof. unfold no_later. congruence. Qed.

(** Only comparisons of an element with later ones matter. *)
Lemma insert_by_ext {A} (c c' : A → A → comparison) x l :
  Forall (λ y, c x y = Gt ↔ c' x y = Gt) l → insert_by c x l = insert_by c' x l.
Proof.
  induction 1 as [|y l Hy _ IH]; [done|]. cbn. rewrite IH.
  destruct (c x y), (c' x y); try done; exfalso; naive_solver.
Qed.

Lemma sort_by_ext {A} (c c' : A → A → comparison) l :
  StronglySorted (λ x y, c x y = Gt ↔ c' x y = Gt) l → sort_by c l = sort_by c' l.
Proof.
  induction 1 as [|x l _ IH Hx]; [done|].
  change (insert_by c x (sort_by c l) = insert_by c' x (sort_by c' l)).
  rewrite IH. apply insert_by_ext. by rewrite sort_by_perm.
Qed.

Lemma seq_sorted (R : nat → nat → Prop) n k :
  (∀ i j, (n ≤ i < j)%nat → (j < n + k)%nat → R i j) → StronglySorted R (seq n k).
Proof.
  revert n. induction k as [|k IH]; intros n HR; cbn; constructor.
  - apply IH. intros i j ??. apply HR; lia.
  - apply Forall_forall. intros j Hj%elem_of_seq. apply HR; lia.
Qed.

(** ** Sets in order

    A [BTreeSet] of ids is iterated from the least to the greatest. *)
(** The strings of a [BTreeSet<String>] in order. *)
Definition sorted_strings (s : gset string) : list string := sort_by String.compare (elements s).
Definition sorted_elements (s : gset Z) : list Z := merge_sort Z.le (elements s).

Lemma sorted_elements_perm s : sorted_elements s ≡ₚ elements s.
Proof. apply merge_sort_Permutation. Qed.
Lemma elem_of_sorted_elements x s : x ∈ sorted_elements s ↔ x ∈ s.
Proof. by rewrite sorted_elements_perm, elem_of_elements. Qed.
Lemma NoDup_sorted_elements s : NoDup (sorted_elements s).
Proof. rewrite sorted_elements_perm. apply NoDup_elements. Qed.
Lemma sorted_elements_length s : length (sorted_elements s) = size s.
Proof. by rewrite sorted_elements_perm. Qed.
Lemma sorted_elements_sorted s : StronglySorted Z.le (sorted_elements s).
Proof. apply StronglySorted_merge_sort; apply _. Qed.

(** ** The least elements by a score

    [sort_by_key] on a score, and the first [n] of the result. *)
Section lowest.
Context {A : Type} (score : A → Z).
Implicit Types l : list A.

Definition by_score (x y : A) : comparison := score x ?= score y.
Definition lowest (n : nat) (l : list A) : list A := take n (sort_by by_score l).

Lemma by_score_no_later x y : no_later by_score x y ↔ score x ≤ score y.
Proof. done. Qed.
Lemma by_score_sorted l : StronglySorted (no_later by_score) (sort_by by_score l).
Proof.
  apply sort_by_sorted.
  - intros x y. unfold by_score, no_later. rewrite Z.compare_gt_iff. intros ?. rewrite Z.compare_le_iff. lia.
  - intros x y z. rewrite !by_score_no_later. lia.
Qed.
Lemma lowest_length n l : length (lowest n l) = (n `min` length l)%nat.
Proof. unfold lowest. by rewrite length_take, sort_by_perm. Qed.
Lemma lowest_elem n l x : x ∈ lowest n l → x ∈ l.
Proof. intros Hx. rewrite <- (sort_by_perm by_score l). by eapply subseteq_take. Qed.
Lemma lowest_NoDup n l : NoDup l → NoDup (lowest n l).
Proof. intros Hl. rewrite <- (sort_by_perm by_score l), <- (take_drop n) in Hl. by apply NoDup_app in Hl as [? _]. Qed.
(** What is left out scores no lower than what is taken. *)
Lemma lowest_least n l x y : x ∈ lowest n l → y ∈ l → y ∉ lowest n l → score x ≤ score y.
Proof.
  unfold lowest. intros Hx Hy Hny. rewrite <- (sort_by_perm by_score l) in Hy.
  rewrite <- (take_drop n (sort_by by_score l)) in Hy. apply elem_of_app in Hy as [Hy|Hy]; [done|].
  pose proof (by_score_sorted l) as Hs. rewrite <- (take_drop n (sort_by by_score l)) in Hs.
  apply StronglySorted_app in Hs as [Hle _]. by apply by_score_no_later, Hle.
Qed.
End lowest.

(** ** The keys and the last entry of an ordered map *)

Lemma btree_keys_sorted {A} (m : gmap Z A) : StronglySorted Z.lt (btree_keys m).
Proof.
  pose proof (NoDup_btree_keys m) as Hnd. unfold btree_keys in *.
  induction (btree_list_sorted m) as [|p l _ IH Hall]; cbn in *; [constructor|].
  apply NoDup_cons in Hnd as [Hnin Hnd]. constructor; [by apply IH|].
  apply Forall_forall. intros k Hk. assert (k ≠ p.1) by (by intros ->).
  apply list_elem_of_fmap in Hk as (q & -> & Hq).
  pose proof (proj1 (Forall_forall _ _) Hall q Hq) as Hle. unfold key_le in Hle. lia.
Qed.

Lemma last_sorted {A} (R : A → A → Prop) l x y :
  StronglySorted R l → last l = Some x → y ∈ l → y = x ∨ R y x.
Proof.
  intros Hs [k ->]%last_Some Hy. apply elem_of_app in Hy as [Hy|Hy]; [right|by left; apply list_elem_of_singleton].
  apply StronglySorted_app in Hs as (H & _). by apply H; [|left].
Qed.

(** The last entry of a map in order is that of the greatest key. *)
Lemma btree_last_spec {A} (m : gmap Z A) k a :
  last (btree_list m) = Some (k, a) → m !! k = Some a ∧ ∀ k', is_Some (m !! k') → k' ≤ k.
Proof.
  intros Hl. split.
  - apply elem_of_btree_list. apply last_Some in Hl as [l ->]. set_solver.
  - intros k' [a' H']. destruct (last_sorted key_le (btree_list m) (k, a) (k', a')) as [[= -> ->]|Hle];
      [apply btree_list_sorted|done|by apply elem_of_btree_list|done|exact Hle].
Qed.
Lemma btree_last_some {A} (m : gmap Z A) : m ≠ ∅ → is_Some (last (btree_list m)).
Proof.
  intros Hm. destruct (last (btree_list m)) as [p|] eqn:E; [by eexists|]. apply last_None in E.
  destruct Hm. apply map_eq. intros k. rewrite lookup_empty. destruct (m !! k) as [a|] eqn:Ek; [|done].
  apply elem_of_btree_list in Ek. rewrite E in Ek. by apply elem_of_nil in Ek.
Qed.
