(* ===== verification/Store.v ===== *)
(** * The object store

    The in-memory store of src/runtime/src/state/store.rs: a canonical map of
    type-erased objects and three typed overlays.  [&mut] access to an overlay
    entry is an update of the overlay at its key. *)

From stdpp Require Import gmap strings list fin_maps.
From S2P Require Import Prelude Errors Objects Concrete.

(* @src src/runtime/src/state/store.rs:6-23 ObjectStore *)
Record ObjectStore : Type := mkStore {
  objects : gmap Z BoxedObject;
  balances : gmap Z BalanceObject;
  pools : gmap Z LiquidityPoolObject;
  vaults : gmap Z VaultObject }.

Definition set_objects (st : ObjectStore) (m : gmap Z BoxedObject) : ObjectStore :=
  mkStore m (balances st) (pools st) (vaults st).
Definition set_balances (st : ObjectStore) (m : gmap Z BalanceObject) : ObjectStore :=
  mkStore (objects st) m (pools st) (vaults st).
Definition set_pools (st : ObjectStore) (m : gmap Z LiquidityPoolObject) : ObjectStore :=
  mkStore (objects st) (balances st) m (vaults st).
Definition set_vaults (st : ObjectStore) (m : gmap Z VaultObject) : ObjectStore :=
  mkStore (objects st) (balances st) (pools st) m.

(** Flushing one overlay: each of its ids that the canonical map holds gets the
    typed value. *)
(* @src src/runtime/src/state/store.rs:195-204 ObjectStore::sync_typed_to_canonical *)
Definition sync_overlay {A} (box : A → BoxedObject) (typed : gmap Z A)
    (objs : gmap Z BoxedObject) : gmap Z BoxedObject :=
  foldl (λ objs i,
    match typed !! i with
    | Some x => if decide (is_Some (objs !! i)) then <[i := box x]> objs else objs
    | None => objs
    end) objs (btree_keys typed).

Module ObjectStore.
(* @src src/runtime/src/state/store.rs:26-33 ObjectStore::new *)
Definition new : ObjectStore := mkStore ∅ ∅ ∅ ∅.

(* @src src/runtime/src/state/store.rs:39-61 ObjectStore::insert *)
Definition insert `{Bincode} {E} (obj : BoxedObject) (st : ObjectStore) : outcome E ObjectStore :=
  let i := id (Object.meta obj) in
  st ← match Object.object_type obj with
       | TBalance => b ← expect (decode_balance (encode obj));
                     Ok (set_balances st (<[i := b]> (balances st)))
       | TLiquidityPool => p ← expect (decode_pool (encode obj));
                           Ok (set_pools st (<[i := p]> (pools st)))
       | TVault => v ← expect (decode_vault (encode obj));
                   Ok (set_vaults st (<[i := v]> (vaults st)))
       | _ => Ok st
       end;
  Ok (set_objects st (<[i := obj]> (objects st))).

(* @src src/runtime/src/state/store.rs:63-69 ObjectStore::remove *)
Definition remove (i : id32) (st : ObjectStore) : ObjectStore * option BoxedObject :=
  (mkStore (delete i (objects st)) (delete i (balances st)) (delete i (pools st))
     (delete i (vaults st)), objects st !! i).

(* @src src/runtime/src/state/store.rs:75-78 ObjectStore::get *)
Definition get (st : ObjectStore) (i : id32) : option BoxedObject := objects st !! i.

(* @src src/runtime/src/state/store.rs:80-83 ObjectStore::get_mut *)
Definition update (f : BoxedObject → BoxedObject) (i : id32) (st : ObjectStore) : ObjectStore :=
  set_objects st (alter f i (objects st)).

(* @src src/runtime/src/state/store.rs:85-92 ObjectStore::find_by_type *)
Definition find_by_type (st : ObjectStore) (t : ObjectType) : list BoxedObject :=
  filter (λ o, Object.object_type o = t) (btree_values (objects st)).

Definition owned_by (own asset : id32) (b : BalanceObject) : bool :=
  bool_decide (bal_owner b = own) && bool_decide (bal_asset_id b = asset).

(* @src src/runtime/src/state/store.rs:98-103 ObjectStore::find_balance *)
Definition find_balance (st : ObjectStore) (own asset : id32) : option BalanceObject :=
  snd <$> btree_find (owned_by own asset) (balances st).

(** A write through the reference found; nothing when there is none. *)
(* @src src/runtime/src/state/store.rs:105-114 ObjectStore::find_balance_mut *)
Definition update_found_balance (f : BalanceObject → BalanceObject) (own asset : id32)
    (st : ObjectStore) : ObjectStore :=
  match btree_find (owned_by own asset) (balances st) with
  | Some (k, _) => set_balances st (alter f k (balances st))
  | None => st
  end.

(* @src src/runtime/src/state/store.rs:116-119 ObjectStore::get_balance_by_id *)
Definition get_balance_by_id (st : ObjectStore) (i : id32) : option BalanceObject :=
  balances st !! i.

(* @src src/runtime/src/state/store.rs:121-129 ObjectStore::get_balance_by_id_mut *)
Definition update_balance (f : BalanceObject → BalanceObject) (i : id32) (st : ObjectStore)
  : ObjectStore := set_balances st (alter f i (balances st)).

Definition has_pair (a b : id32) (p : LiquidityPoolObject) : bool :=
  (bool_decide (asset_a p = a) && bool_decide (asset_b p = b))
  || (bool_decide (asset_a p = b) && bool_decide (asset_b p = a)).

(* @src src/runtime/src/state/store.rs:135-145 ObjectStore::find_pool *)
Definition find_pool (st : ObjectStore) (a b : id32) : option LiquidityPoolObject :=
  snd <$> btree_find (has_pair a b) (pools st).

(* @src src/runtime/src/state/store.rs:147-157 ObjectStore::find_pool_mut *)
Definition update_found_pool (f : LiquidityPoolObject → LiquidityPoolObject) (a b : id32)
    (st : ObjectStore) : ObjectStore :=
  match btree_find (has_pair a b) (pools st) with
  | Some (k, _) => set_pools st (alter f k (pools st))
  | None => st
  end.

(* @src src/runtime/src/state/store.rs:159-162 ObjectStore::get_pool_by_id *)
Definition get_pool_by_id (st : ObjectStore) (i : id32) : option LiquidityPoolObject :=
  pools st !! i.

(* @src src/runtime/src/state/store.rs:164-172 ObjectStore::get_pool_by_id_mut *)
Definition update_pool (f : LiquidityPoolObject → LiquidityPoolObject) (i : id32)
    (st : ObjectStore) : ObjectStore := set_pools st (alter f i (pools st)).

(* @src src/runtime/src/state/store.rs:178-181 ObjectStore::get_vault *)
Definition get_vault (st : ObjectStore) (i : id32) : option VaultObject := vaults st !! i.

(* @src src/runtime/src/state/store.rs:183-186 ObjectStore::get_vault_mut *)
Definition update_vault (f : VaultObject → VaultObject) (i : id32) (st : ObjectStore)
  : ObjectStore := set_vaults st (alter f i (vaults st)).

(* @src src/runtime/src/state/store.rs:192-223 ObjectStore::sync_typed_to_canonical *)
Definition sync_typed_to_canonical (st : ObjectStore) : ObjectStore :=
  let objs := sync_overlay OBalance (balances st) (objects st) in
  let objs := sync_overlay OPool (pools st) objs in
  let objs := sync_overlay OVault (vaults st) objs in
  set_objects st objs.

(** What [state_root] feeds the hasher for one object. *)
(* @src src/runtime/src/state/store.rs:239-246 ObjectStore::state_root *)
Definition root_entry `{Bincode} (p : Z * BoxedObject) : bytes :=
  let encoded := encode p.2 in
  be_bytes 32 p.1 ++ le_bytes 8 (wrapu 64 (Z.of_nat (length encoded))) ++ encoded.

Definition root_preimage `{Bincode} (st : ObjectStore) : bytes :=
  concat (root_entry <$> btree_list (objects st)).

(* @src src/runtime/src/state/store.rs:236-249 ObjectStore::state_root *)
Definition state_root `{Bincode, Sha256} (st : ObjectStore) : id32 :=
  sha256 (root_preimage st).

(* @src src/runtime/src/state/store.rs:255-257 ObjectStore::len *)
Definition len (st : ObjectStore) : nat := size (objects st).
End ObjectStore.

(** ** The store's invariant

    The one its struct comment states: the ids of each overlay are the
    canonical ids of that type, and every entry sits at its own id. *)

(** An overlay entry [x] at [i] and the canonical entry of the same id. *)
Definition overlay_inv {A} (meta : A → ObjectMeta) (t : ObjectType) (typed : gmap Z A)
    (objs : gmap Z BoxedObject) : Prop :=
  (∀ i x, typed !! i = Some x →
     id (meta x) = i ∧ ∃ o, objs !! i = Some o ∧ Object.object_type o = t) ∧
  (∀ i o, objs !! i = Some o → Object.object_type o = t → is_Some (typed !! i)).

Record store_inv (st : ObjectStore) : Prop := {
  inv_balances : overlay_inv bal_meta TBalance (balances st) (objects st);
  inv_pools : overlay_inv pool_meta TLiquidityPool (pools st) (objects st);
  inv_vaults : overlay_inv vault_meta TVault (vaults st) (objects st);
  inv_ids : ∀ i o, objects st !! i = Some o → id (Object.meta o) = i }.

(** The canonical map shows the overlays' values. *)
Definition overlay_synced {A} (box : A → BoxedObject) (typed : gmap Z A)
    (objs : gmap Z BoxedObject) : Prop :=
  ∀ i x, typed !! i = Some x → objs !! i = Some (box x).
Definition synced (st : ObjectStore) : Prop :=
  overlay_synced OBalance (balances st) (objects st) ∧
  overlay_synced OPool (pools st) (objects st) ∧
  overlay_synced OVault (vaults st) (objects st).

(** ** Lemmas *)

Section sync.
Context {A : Type} (box : A → BoxedObject).
Implicit Types (typed : gmap Z A) (objs : gmap Z BoxedObject).

Lemma sync_fold_lookup typed l objs k :
  NoDup l → (∀ i, i ∈ l → is_Some (typed !! i)) →
  foldl (λ objs i,
    match typed !! i with
    | Some x => if decide (is_Some (objs !! i)) then <[i := box x]> objs else objs
    | None => objs
    end) objs l !! k =
  if decide (k ∈ l) then
    match typed !! k, objs !! k with Some x, Some _ => Some (box x) | _, o => o end
  else objs !! k.
Proof.
  revert objs. induction l as [|i l IH]; intros objs Hnd Hl; cbn.
  { by rewrite decide_False by apply not_elem_of_nil. }
  apply NoDup_cons in Hnd as [Hi Hnd].
  rewrite IH by (done || intros; apply Hl; by right).
  destruct (Hl i ltac:(left)) as [x Hx]. rewrite Hx.
  destruct (decide (k = i)) as [->|Hne].
  - rewrite (decide_False (P := i ∈ l)), (decide_True (P := i ∈ i :: l)), Hx
      by first [done | set_solver].
    destruct (decide (is_Some (objs !! i))) as [Hs|Hs].
    + rewrite lookup_insert_eq. by destruct Hs as [o ->].
    + by destruct (objs !! i); [destruct Hs|].
  - assert ((if decide (is_Some (objs !! i)) then <[i:=box x]> objs else objs) !! k = objs !! k)
      as ->
      by (destruct (decide (is_Some (objs !! i))); [by rewrite lookup_insert_ne|done]).
    destruct (decide (k ∈ l)), (decide (k ∈ i :: l)); [done| | |done]; exfalso; set_solver.
Qed.

Lemma sync_overlay_lookup typed objs k :
  sync_overlay box typed objs !! k =
  match typed !! k, objs !! k with Some x, Some _ => Some (box x) | _, o => o end.
Proof.
  unfold sync_overlay. rewrite sync_fold_lookup.
  - case_decide as Hk; [done|]. rewrite elem_of_btree_keys in Hk.
    destruct (typed !! k); [destruct Hk; eauto|]. by destruct (objs !! k).
  - apply NoDup_btree_keys.
  - intros i. by rewrite elem_of_btree_keys.
Qed.
End sync.

Lemma sync_objects_lookup st k :
  objects (ObjectStore.sync_typed_to_canonical st) !! k =
  match objects st !! k with
  | None => None
  | Some o => Some
      match vaults st !! k, pools st !! k, balances st !! k with
      | Some v, _, _ => OVault v
      | None, Some p, _ => OPool p
      | None, None, Some b => OBalance b
      | None, None, None => o
      end
  end.
Proof.
  cbn. rewrite !sync_overlay_lookup.
  by destruct (objects st !! k), (balances st !! k), (pools st !! k), (vaults st !! k).
Qed.

(** Under the invariant the overlays do not overlap. *)
Lemma inv_overlays_disjoint st i :
  store_inv st →
  (is_Some (balances st !! i) → pools st !! i = None ∧ vaults st !! i = None) ∧
  (is_Some (pools st !! i) → vaults st !! i = None).
Proof.
  intros [[Hb _] [Hp _] [Hv _] _].
  split; [intros [b E]|intros [p E]].
  - destruct (Hb _ _ E) as (_ & o & Ho & Ht). split.
    + destruct (pools st !! i) eqn:E'; [|done]. destruct (Hp _ _ E') as (_ & ? & ? & ?). congruence.
    + destruct (vaults st !! i) eqn:E'; [|done]. destruct (Hv _ _ E') as (_ & ? & ? & ?). congruence.
  - destruct (Hp _ _ E) as (_ & o & Ho & Ht).
    destruct (vaults st !! i) eqn:E'; [|done]. destruct (Hv _ _ E') as (_ & ? & ? & ?). congruence.
Qed.

(** The explicit result of an insertion. *)
Definition inserted (obj : BoxedObject) (st : ObjectStore) : ObjectStore :=
  let i := id (Object.meta obj) in
  mkStore (<[i := obj]> (objects st))
    (match obj with OBalance b => <[i := b]> (balances st) | _ => balances st end)
    (match obj with OPool p => <[i := p]> (pools st) | _ => pools st end)
    (match obj with OVault v => <[i := v]> (vaults st) | _ => vaults st end).

Lemma insert_inserted `{BincodeLaws} {E} obj st :
  ObjectStore.insert (E := E) obj st = Ok (inserted obj st).
Proof.
  destruct obj; unfold ObjectStore.insert, inserted; cbn;
    rewrite ?decode_encode_balance, ?decode_encode_pool, ?decode_encode_vault; done.
Qed.

(** *** Stores with the same ids and types

    Two stores are alike when they hold the same keys, and under each key an
    object of the same type and the same recorded id.  The invariant does not
    see past this equivalence, and every operation but [insert] and [remove]
    stays inside it. *)
Definition shape (o : BoxedObject) : ObjectType * Z :=
  (Object.object_type o, id (Object.meta o)).
Record store_like (st st' : ObjectStore) : Prop := {
  like_objects : shape <$> objects st = shape <$> objects st';
  like_balances : id ∘ bal_meta <$> balances st = id ∘ bal_meta <$> balances st';
  like_pools : id ∘ pool_meta <$> pools st = id ∘ pool_meta <$> pools st';
  like_vaults : id ∘ vault_meta <$> vaults st = id ∘ vault_meta <$> vaults st' }.

#[export] Instance store_like_equiv : Equivalence store_like.
Proof.
  split.
  - by split.
  - intros ?? []. by split.
  - intros ??? [] []. split; by etrans.
Qed.

Lemma fmap_eq_lookup {A B} (f : A → B) (m m' : gmap Z A) i x :
  f <$> m = f <$> m' → m !! i = Some x → ∃ y, m' !! i = Some y ∧ f y = f x.
Proof.
  intros H Hx. apply (f_equal (lookup i)) in H. rewrite !lookup_fmap, Hx in H.
  destruct (m' !! i); naive_solver.
Qed.

Lemma overlay_inv_like {A} (meta : A → ObjectMeta) t typed typed' objs objs' :
  id ∘ meta <$> typed = id ∘ meta <$> typed' → shape <$> objs = shape <$> objs' →
  overlay_inv meta t typed objs → overlay_inv meta t typed' objs'.
Proof.
  intros Ht Ho [H1 H2]. split.
  - intros i x Hx. destruct (fmap_eq_lookup _ _ _ _ _ (eq_sym Ht) Hx) as (y & Hy & E).
    destruct (H1 _ _ Hy) as (Hid & o & Hio & Hto).
    destruct (fmap_eq_lookup _ _ _ _ _ Ho Hio) as (o' & Ho' & [= E1 E2]).
    cbn in E. split; [congruence|]. exists o'. split; congruence.
  - intros i o Hi Hto. destruct (fmap_eq_lookup _ _ _ _ _ (eq_sym Ho) Hi) as (o' & Ho' & [= E1 E2]).
    destruct (H2 i o' Ho' ltac:(congruence)) as [x Hx].
    destruct (fmap_eq_lookup _ _ _ _ _ Ht Hx) as (y & Hy & _). by exists y.
Qed.

#[export] Instance store_inv_proper : Proper (store_like ==> iff) store_inv.
Proof.
  assert (∀ st st', store_like st st' → store_inv st → store_inv st') as H.
  { intros st st' [] []. split; [by eapply overlay_inv_like..|].
    intros i o Hi. destruct (fmap_eq_lookup shape (objects st') (objects st) i o)
      as (o' & Ho' & [= _ E]); [done|done|]. rewrite <- E. eauto. }
  intros st st' Hl. split; apply H; [done|by symmetry].
Qed.

Lemma fmap_alter_id {A B} (g : A → B) (f : A → A) i (m : gmap Z A) :
  (∀ x, g (f x) = g x) → g <$> alter f i m = g <$> m.
Proof.
  intros Hf. apply map_eq. intros k. rewrite !lookup_fmap, lookup_alter.
  case_decide; [subst|done]. destruct (m !! k); cbn; [by rewrite Hf|done].
Qed.

Lemma update_like f i st :
  (∀ o, shape (f o) = shape o) → store_like (ObjectStore.update f i st) st.
Proof. intros. split; cbn; try done. by apply fmap_alter_id. Qed.
Lemma update_balance_like f i st :
  (∀ b, id (bal_meta (f b)) = id (bal_meta b)) →
  store_like (ObjectStore.update_balance f i st) st.
Proof. intros. split; cbn; try done. by apply fmap_alter_id. Qed.
Lemma update_pool_like f i st :
  (∀ p, id (pool_meta (f p)) = id (pool_meta p)) →
  store_like (ObjectStore.update_pool f i st) st.
Proof. intros. split; cbn; try done. by apply fmap_alter_id. Qed.
Lemma update_vault_like f i st :
  (∀ v, id (vault_meta (f v)) = id (vault_meta v)) →
  store_like (ObjectStore.update_vault f i st) st.
Proof. intros. split; cbn; try done. by apply fmap_alter_id. Qed.
Lemma update_found_balance_like f own asset st :
  (∀ b, id (bal_meta (f b)) = id (bal_meta b)) →
  store_like (ObjectStore.update_found_balance f own asset st) st.
Proof.
  intros. unfold ObjectStore.update_found_balance.
  destruct (btree_find _ _) as [[k ?]|]; [|reflexivity]. by apply update_balance_like.
Qed.

Create HintDb store.
#[export] Hint Resolve update_like update_balance_like update_pool_like update_vault_like
  update_found_balance_like : store.

(** Syncing writes entries of the type and id already there. *)
Lemma sync_like st : store_inv st → store_like (ObjectStore.sync_typed_to_canonical st) st.
Proof.
  intros Hinv. split; [|done..]. apply map_eq. intros k. rewrite !lookup_fmap.
  rewrite sync_objects_lookup. destruct (objects st !! k) as [o|] eqn:Ho; [|done].
  destruct Hinv as [[Hb _] [Hp _] [Hv _] Hid]. specialize (Hid _ _ Ho). cbn. f_equal.
  destruct (vaults st !! k) as [v|] eqn:Ev; [|destruct (pools st !! k) as [p|] eqn:Ep;
    [|destruct (balances st !! k) as [b|] eqn:Eb; [|done]]].
  - destruct (Hv _ _ Ev) as (? & ? & ? & ?). unfold shape. cbn. congruence.
  - destruct (Hp _ _ Ep) as (? & ? & ? & ?). unfold shape. cbn. congruence.
  - destruct (Hb _ _ Eb) as (? & ? & ? & ?). unfold shape. cbn. congruence.
Qed.

Lemma sync_inv st : store_inv st → store_inv (ObjectStore.sync_typed_to_canonical st).
Proof. intros H. by rewrite sync_like. Qed.

Lemma sync_synced st : store_inv st → synced (ObjectStore.sync_typed_to_canonical st).
Proof.
  intros Hinv. pose proof (inv_overlays_disjoint st) as Hd.
  destruct (Hinv) as [[Hb _] [Hp _] [Hv _] _].
  split_and!; intros k x Hx; rewrite sync_objects_lookup; cbn in Hx.
  - destruct (Hb _ _ Hx) as (_ & ? & -> & _).
    destruct (Hd k Hinv) as [Hd' _]. destruct (Hd' ltac:(eauto)) as [-> ->]. by rewrite Hx.
  - destruct (Hp _ _ Hx) as (_ & ? & -> & _).
    destruct (Hd k Hinv) as [_ Hd']. rewrite (Hd' ltac:(eauto)). by rewrite Hx.
  - destruct (Hv _ _ Hx) as (_ & ? & -> & _). by rewrite Hx.
Qed.

(** *** Insertion and removal *)
Lemma overlay_inv_insert {A} (meta : A → ObjectMeta) t typed objs i x o :
  overlay_inv meta t typed objs → Object.object_type o = t → id (meta x) = i →
  overlay_inv meta t (<[i := x]> typed) (<[i := o]> objs).
Proof.
  intros [H1 H2] Ho Hx. split; intros k y; rewrite !lookup_insert; case_decide; subst; eauto.
  - intros [= ->]. eauto.
Qed.
Lemma overlay_inv_insert_other {A} (meta : A → ObjectMeta) t typed objs i o :
  overlay_inv meta t typed objs → Object.object_type o ≠ t → typed !! i = None →
  overlay_inv meta t typed (<[i := o]> objs).
Proof.
  intros [H1 H2] Ho Hx. split; intros k y.
  - intros Hy. rewrite lookup_insert_ne by congruence. eauto.
  - rewrite lookup_insert. case_decide; [naive_solver|eauto].
Qed.
Lemma overlay_inv_delete {A} (meta : A → ObjectMeta) t typed objs i :
  overlay_inv meta t typed objs → overlay_inv meta t (delete i typed) (delete i objs).
Proof. intros [H1 H2]. split; intros k y; rewrite !lookup_delete; case_decide; naive_solver. Qed.

Lemma overlay_inv_typed_none {A} (meta : A → ObjectMeta) t (typed : gmap Z A) objs i :
  overlay_inv meta t typed objs →
  (∀ o, objs !! i = Some o → Object.object_type o ≠ t) → typed !! i = None.
Proof.
  intros [H1 _] Ho. destruct (typed !! i) eqn:E; [|done].
  destruct (H1 _ _ E) as (_ & o & Hi & Ht). by destruct (Ho _ Hi).
Qed.

(** The types that have an overlay. *)
Definition overlaid (t : ObjectType) : Prop := t = TBalance ∨ t = TLiquidityPool ∨ t = TVault.

(** Inserting [obj] overwrites no balance, pool or vault by an object of another
    type. *)
Definition overwrites_like (obj : BoxedObject) (st : ObjectStore) : Prop :=
  ∀ o, objects st !! id (Object.meta obj) = Some o → overlaid (Object.object_type o) →
    Object.object_type o = Object.object_type obj.

Lemma inserted_inv obj st :
  store_inv st → overwrites_like obj st → store_inv (inserted obj st).
Proof.
  intros [Hb Hp Hv Hid] Hty.
  assert (∀ t, overlaid t → Object.object_type obj ≠ t → ∀ o,
    objects st !! id (Object.meta obj) = Some o → Object.object_type o ≠ t) as Hne'
    by (intros t Hot Ht o Ho <-; by rewrite (Hty _ Ho Hot) in Ht).
  pose proof (Hne' TBalance ltac:(by left)) as HneB.
  pose proof (Hne' TLiquidityPool ltac:(by right; left)) as HneP.
  pose proof (Hne' TVault ltac:(by right; right)) as HneV.
  split; cbn.
  - destruct (decide (Object.object_type obj = TBalance)) as [E|E].
    + destruct obj; try discriminate E. by apply overlay_inv_insert.
    + assert (balances st !! id (Object.meta obj) = None)
        by (eapply overlay_inv_typed_none; eauto).
      destruct obj; try done; by apply overlay_inv_insert_other.
  - destruct (decide (Object.object_type obj = TLiquidityPool)) as [E|E].
    + destruct obj; try discriminate E. by apply overlay_inv_insert.
    + assert (pools st !! id (Object.meta obj) = None)
        by (eapply overlay_inv_typed_none; eauto).
      destruct obj; try done; by apply overlay_inv_insert_other.
  - destruct (decide (Object.object_type obj = TVault)) as [E|E].
    + destruct obj; try discriminate E. by apply overlay_inv_insert.
    + assert (vaults st !! id (Object.meta obj) = None)
        by (eapply overlay_inv_typed_none; eauto).
      destruct obj; try done; by apply overlay_inv_insert_other.
  - intros i o. rewrite lookup_insert. case_decide; [naive_solver|eauto].
Qed.

(** Only such an insertion keeps the invariant. *)
Lemma inserted_inv_like obj st :
  store_inv st → store_inv (inserted obj st) → overwrites_like obj st.
Proof.
  intros [Hb Hp Hv _] [Hb' Hp' Hv' _] o Ho Hov. apply dec_stable. intros Hne.
  assert (∀ A (meta : A → ObjectMeta) t (typed typed' : gmap Z A),
    overlay_inv meta t typed (objects st) → overlay_inv meta t typed' (objects (inserted obj st)) →
    Object.object_type o = t → typed' !! id (Object.meta obj) = typed !! id (Object.meta obj) → False)
    as Hbad.
  { intros A meta t typed typed' [_ H2] [H1 _] Ht E. destruct (H2 _ _ Ho Ht) as [x Hx].
    rewrite <- E in Hx. destruct (H1 _ _ Hx) as (_ & o' & Ho' & Ht'). cbn in Ho'.
    rewrite lookup_insert_eq in Ho'. injection Ho' as <-. congruence. }
  destruct Hov as [Ht|[Ht|Ht]]; [apply (Hbad _ _ _ _ _ Hb Hb' Ht)|apply (Hbad _ _ _ _ _ Hp Hp' Ht)
    |apply (Hbad _ _ _ _ _ Hv Hv' Ht)]; destruct obj; cbn in *; congruence.
Qed.

(** *** The store implements the ledger interface *)
#[export] Instance store_ledger : BalanceLedger ObjectStore := {
  ledger_get := ObjectStore.find_balance;
  ledger_update := ObjectStore.update_found_balance }.

Lemma owned_by_true o a b :
  ObjectStore.owned_by o a b = true ↔ bal_owner b = o ∧ bal_asset_id b = a.
Proof. unfold ObjectStore.owned_by. by rewrite andb_true_iff, !bool_decide_eq_true. Qed.

Lemma keeps_key_owned_by f o a b :
  keeps_key f → ObjectStore.owned_by o a (f b) = ObjectStore.owned_by o a b.
Proof. intros Hf. unfold ObjectStore.owned_by. by destruct (Hf b) as [-> ->]. Qed.

#[export] Instance store_ledger_laws : LedgerLaws ObjectStore.
Proof.
  split; cbn; unfold ObjectStore.find_balance, ObjectStore.update_found_balance.
  - intros st o a b ([k b'] & H & ->)%fmap_Some.
    apply btree_find_some in H as (_ & H & _). by apply owned_by_true.
  - intros f st o a Hf. destruct (btree_find _ (balances st)) as [[k b]|] eqn:E; cbn; [|by rewrite E].
    erewrite btree_find_alter; [|intros; by apply keeps_key_owned_by|done].
    cbn. by rewrite decide_True.
  - intros f st o a o' a' Hf Hne. destruct (btree_find _ (balances st)) as [[k b]|] eqn:E; cbn; [|done].
    destruct (btree_find (ObjectStore.owned_by o' a') (balances st)) as [[k' b']|] eqn:E'.
    + erewrite btree_find_alter; [|intros; by apply keeps_key_owned_by|done].
      cbn. rewrite decide_False; [done|]. intros ->.
      apply btree_find_some in E as (? & ?%owned_by_true & _).
      apply btree_find_some in E' as (? & ?%owned_by_true & _). naive_solver.
    + rewrite btree_find_alter_none; [done| |done]. intros. by apply keeps_key_owned_by.
Qed.

(** ** Reachable stores *)

(** One call of a mutating method.  An insertion overwrites no balance, pool or
    vault by an object of another type (the method does not check that); writes
    through references keep the object's id and type (no code path of the runtime
    writes them). *)
Inductive store_step `{Bincode} : ObjectStore → ObjectStore → Prop :=
| step_insert obj st st' :
    ObjectStore.insert (E := RuntimeError) obj st = Ok st' → overwrites_like obj st →
    store_step st st'
| step_remove i st : store_step st (ObjectStore.remove i st).1
| step_get_mut f i st :
    (∀ o, shape (f o) = shape o) → store_step st (ObjectStore.update f i st)
| step_balance_mut f i st :
    (∀ b, id (bal_meta (f b)) = id (bal_meta b)) →
    store_step st (ObjectStore.update_balance f i st)
| step_find_balance_mut f own asset st :
    (∀ b, id (bal_meta (f b)) = id (bal_meta b)) →
    store_step st (ObjectStore.update_found_balance f own asset st)
| step_pool_mut f i st :
    (∀ p, id (pool_meta (f p)) = id (pool_meta p)) →
    store_step st (ObjectStore.update_pool f i st)
| step_vault_mut f i st :
    (∀ v, id (vault_meta (f v)) = id (vault_meta v)) →
    store_step st (ObjectStore.update_vault f i st)
| step_sync st : store_step st (ObjectStore.sync_typed_to_canonical st).

Lemma removed_inv i st : store_inv st → store_inv (ObjectStore.remove i st).1.
Proof.
  intros [Hb Hp Hv Hid]. split; cbn; [by apply overlay_inv_delete..|].
  intros k o. rewrite lookup_delete. case_decide; [done|eauto].
Qed.

Lemma store_step_inv `{BincodeLaws} st st' : store_step st st' → store_inv st → store_inv st'.
Proof.
  destruct 1; intros Hinv; try (by rewrite update_like || by rewrite update_balance_like
    || by rewrite update_found_balance_like || by rewrite update_pool_like
    || by rewrite update_vault_like).
  - rewrite insert_inserted in H1. injection H1 as <-. by apply inserted_inv.
  - by apply removed_inv.
  - by apply sync_inv.
Qed.

Lemma new_inv : store_inv ObjectStore.new.
Proof. split; [split|split|split|]; done. Qed.

Lemma btree_list_keys_bounded {A} (m : gmap Z A) w :
  (∀ k a, m !! k = Some a → fits w k) → Forall (λ p, fits w p.1) (btree_list m).
Proof.
  intros Hm. apply Forall_forall. intros [k a] Hin. apply elem_of_btree_list in Hin. by eapply Hm.
Qed.

Lemma root_entry_not_nil `{Bincode} p l : ObjectStore.root_entry p ++ l ≠ [].
Proof.
  intros E. apply (f_equal length) in E. unfold ObjectStore.root_entry in E.
  rewrite !length_app, be_bytes_length in E. cbn in E. lia.
Qed.

Lemma root_entries_inj `{Bincode} l l' :
  Forall (λ p, fits 256 p.1 ∧ fits 64 (Z.of_nat (length (encode p.2)))) l →
  Forall (λ p, fits 256 p.1 ∧ fits 64 (Z.of_nat (length (encode p.2)))) l' →
  concat (ObjectStore.root_entry <$> l) = concat (ObjectStore.root_entry <$> l') →
  (λ p, (p.1, encode p.2)) <$> l = (λ p, (p.1, encode p.2)) <$> l'.
Proof.
  intros Hl. revert l'. induction Hl as [|[i o] l [Hi Ho] _ IH]; intros [|[j o'] l'] Hl' E;
    [done|by destruct (root_entry_not_nil _ _ (eq_sym E))
    |by destruct (root_entry_not_nil _ _ E)|].
  apply Forall_cons in Hl' as [[Hj Ho'] Hl']. cbn in *.
  change (ObjectStore.root_entry (i, o) ++ concat (ObjectStore.root_entry <$> l) =
    ObjectStore.root_entry (j, o') ++ concat (ObjectStore.root_entry <$> l')) in E.
  unfold ObjectStore.root_entry at 1 3 in E. cbn [fst snd] in E. rewrite <- !app_assoc in E.
  apply be_bytes_app_inj in E as [-> E]; [|done..].
  rewrite !wrapu_id in E by done.
  apply app_inj_1 in E as [El E]; [|by rewrite !le_bytes_length].
  apply le_bytes_inj in El; [|done..].
  apply app_inj_1 in E as [-> E]; [|lia]. by rewrite (IH l').
Qed.

(** ** Properties *)

(** C13: The invariant of the struct comment (each overlay holds exactly the
    canonical ids of its type, and every entry sits at its own id) holds of every
    store built from the empty one by the store's methods, as long as no insertion
    overwrites a balance, pool or vault by an object of another type and writes
    through references keep ids and types.  That is exact: on such a store an
    insertion keeps the invariant if and only if it is not an overwriting of that
    kind (what such a one does is [insert_leaves_stale_overlay]). *)
Theorem reachable_store_inv `{BincodeLaws} (st : ObjectStore) :
  rtc store_step ObjectStore.new st →
  store_inv st ∧
  ∀ obj st', ObjectStore.insert (E := RuntimeError) obj st = Ok st' →
    (store_inv st' ↔ overwrites_like obj st).
Proof.
  intros Hr.
  assert (store_inv st) as Hinv.
  { remember ObjectStore.new as st0 eqn:E0.
    assert (store_inv st0) as Hinv by (subst; apply new_inv). clear E0.
    induction Hr as [|? ? ? Hstep _ IH]; [done|]. apply IH. by eapply store_step_inv. }
  split; [done|]. intros obj st'. rewrite insert_inserted. intros [= <-].
  split; [by apply inserted_inv_like|by apply inserted_inv].
Qed.

(** Syncing a store that satisfies the invariant keeps the invariant and
    the overlays, makes the canonical map agree with all three overlays, keeps
    every object that is in no overlay, adds and removes no id, and a second
    sync changes nothing. *)
Theorem sync_correct (st : ObjectStore) :
  store_inv st →
  let st' := ObjectStore.sync_typed_to_canonical st in
  store_inv st' ∧ synced st' ∧
  balances st' = balances st ∧ pools st' = pools st ∧ vaults st' = vaults st ∧
  (∀ i, balances st !! i = None → pools st !! i = None → vaults st !! i = None →
        ObjectStore.get st' i = ObjectStore.get st i) ∧
  dom (objects st') = dom (objects st) ∧
  ObjectStore.sync_typed_to_canonical st' = st'.
Proof.
  intros Hinv. split_and!; [by apply sync_inv|by apply sync_synced|done..| | |].
  - intros i Hb Hp Hv. unfold ObjectStore.get. rewrite sync_objects_lookup.
    rewrite Hb, Hp, Hv. by destruct (objects st !! i).
  - apply set_eq. intros i. rewrite !elem_of_dom, sync_objects_lookup.
    destruct (objects st !! i); split; intros [? ?]; eauto; done.
  - destruct st as [objs bs ps vs].
    unfold ObjectStore.sync_typed_to_canonical, set_objects. cbn. f_equal.
    apply map_eq. intros i. rewrite !sync_overlay_lookup.
    by destruct (objs !! i), (bs !! i), (ps !! i), (vs !! i).
Qed.

(** Inserting an object of another type over a balance leaves the balance
    in its overlay, so the next sync silently puts the stale balance back in
    place of the inserted object: [insert] does not replace an object in both
    stores, whatever its comment says, and the struct invariant breaks. *)
Theorem insert_leaves_stale_overlay `{BincodeLaws} (st st' : ObjectStore) (b : BalanceObject)
    (t : TokenObject) (i : id32) :
  store_inv st → balances st !! i = Some b → id (tok_meta t) = i →
  ObjectStore.insert (E := RuntimeError) (OToken t) st = Ok st' →
  ObjectStore.get st' i = Some (OToken t) ∧
  ObjectStore.get (ObjectStore.sync_typed_to_canonical st') i = Some (OBalance b) ∧
  ¬ store_inv st'.
Proof.
  intros Hinv Hb Hi. rewrite insert_inserted. intros [= <-].
  destruct (inv_overlays_disjoint st i Hinv) as [Hd _].
  destruct (Hd ltac:(eauto)) as [Hp Hv].
  unfold ObjectStore.get. split_and!.
  - cbn. by rewrite Hi, lookup_insert_eq.
  - rewrite sync_objects_lookup. cbn. by rewrite Hi, lookup_insert_eq, Hp, Hv, Hb.
  - intros [[Hbal _] _ _ _]. destruct (Hbal i b Hb) as (_ & o & Ho & Ht). cbn in Ho.
    rewrite Hi, lookup_insert_eq in Ho. by injection Ho as <-.
Qed.

(** The bytes hashed into the state root are an unambiguous encoding: two
    stores with the same root pre-image hold the same ids with the same encoded
    objects, in the same order (ids are 256-bit and encodings shorter than
    2^64 bytes). *)
Theorem root_preimage_injective `{Bincode} (st st' : ObjectStore) :
  (∀ i o, objects st !! i = Some o → fits 256 i ∧ fits 64 (Z.of_nat (length (encode o)))) →
  (∀ i o, objects st' !! i = Some o → fits 256 i ∧ fits 64 (Z.of_nat (length (encode o)))) →
  ObjectStore.root_preimage st = ObjectStore.root_preimage st' →
  encode <$> objects st = encode <$> objects st'.
Proof.
  intros Hs Hs' E. apply root_entries_inj in E.
  - apply map_eq. intros i. apply option_eq. intros e. rewrite !lookup_fmap.
    assert (∀ m : gmap Z BoxedObject, encode <$> m !! i = Some e ↔
      (i, e) ∈ (λ p, (p.1, encode p.2)) <$> btree_list m) as H'.
    { intros m. rewrite fmap_Some, list_elem_of_fmap. split.
      - intros (o & Ho & ->). exists (i, o). by rewrite elem_of_btree_list.
      - intros ([i' o] & [= -> ->] & Ho). rewrite elem_of_btree_list in Ho. eauto. }
    by rewrite !H', E.
  - apply Forall_forall. intros [i o] Hi%elem_of_btree_list. by apply Hs.
  - apply Forall_forall. intros [i o] Hi%elem_of_btree_list. by apply Hs'.
Qed.

(** ** Witnesses *)

Definition sample_store : ObjectStore :=
  foldr inserted ObjectStore.new
    [OContract contract40; OVault vault5; OPool pool56; OBalance bal_alice6;
     OBalance bal_bob5; OBalance bal_alice5].

Lemma sample_store_inv : store_inv sample_store.
Proof.
  unfold sample_store; cbn [foldr].
  repeat (apply inserted_inv; [|by intros o; vm_compute]). apply new_inv.
Qed.

Lemma reachable_store_inv_witness :
  let st := inserted (OBalance bal_alice5) ObjectStore.new in
  rtc (store_step (H := sample_bincode)) ObjectStore.new st ∧ store_inv st.
Proof.
  assert (rtc (store_step (H := sample_bincode)) ObjectStore.new
    (inserted (OBalance bal_alice5) ObjectStore.new)) as Hr.
  { apply rtc_once. apply (@step_insert sample_bincode (OBalance bal_alice5)); [done|].
    by intros o; vm_compute. }
  split; [exact Hr|]. exact (proj1 (reachable_store_inv (H0 := sample_bincode_laws) _ Hr)).
Defined.

Lemma sync_correct_witness :
  store_inv sample_store ∧ synced (ObjectStore.sync_typed_to_canonical sample_store).
Proof.
  pose proof (sync_correct sample_store sample_store_inv) as (_ & H & _).
  split; [exact sample_store_inv|exact H].
Defined.

Lemma insert_leaves_stale_overlay_witness :
  let t := TokenObject.new 10 alice 8 "TOK" 6 1000 0 in
  ∃ st', ObjectStore.insert (H := sample_bincode) (E := RuntimeError) (OToken t) sample_store = Ok st' ∧
    ObjectStore.get (ObjectStore.sync_typed_to_canonical st') 10 = Some (OBalance bal_alice5).
Proof.
  exists (inserted (OToken (TokenObject.new 10 alice 8 "TOK" 6 1000 0)) sample_store).
  split; [reflexivity|].
  apply (insert_leaves_stale_overlay (H0 := sample_bincode_laws) sample_store _ bal_alice5
    (TokenObject.new 10 alice 8 "TOK" 6 1000 0) 10 sample_store_inv); reflexivity.
Defined.

(** Two stores whose wallets differ in a field the sample encoding leaves out. *)
Lemma root_preimage_injective_witness :
  let w n := OWallet (mkWallet (ObjectMeta.new 9 TWallet alice 0) alice [] n) in
  let st n := inserted (w n) (inserted (OBalance bal_bob5) ObjectStore.new) in
  encode (Bincode := sample_bincode) <$> objects (st 0) =
  encode (Bincode := sample_bincode) <$> objects (st 1).
Proof.
  intros w st.
  assert (∀ n i o, objects (st n) !! i = Some o →
    fits 256 i ∧ fits 64 (Z.of_nat (length (encode (Bincode := sample_bincode) o)))) as Hb.
  { intros n i o. subst st. cbn.
    intros [[<- <-]|[_ [[<- <-]|[_ Hi]]%lookup_insert_Some]]%lookup_insert_Some;
      [vm_compute; done..|]. by rewrite lookup_empty in Hi. }
  exact (root_preimage_injective (H := sample_bincode) (st 0) (st 1) (Hb 0) (Hb 1) eq_refl).
Defined.
