(* ===== verification/FeeEnvelope.v ===== *)
(** * Fee envelopes

    The per-intent fee reserve of src/runtime/src/fees/envelope.rs. *)

From stdpp Require Import gmap strings list pretty.
From S2P Require Import Prelude.

(* @src src/runtime/src/fees/envelope.rs:8-41 FeeEnvelope *)
Record FeeEnvelope : Type := mkEnvelope {
  payer : id32;
  fee_token : string;
  max_poseq_fee : Z;
  max_runtime_fee : Z;
  priority_tip : Z;
  expiry_epoch : Z;
  refund_address : option id32 }.

Module FeeEnvelope.
(* @src src/runtime/src/fees/envelope.rs:44-47 FeeEnvelope::total_reserved *)
Definition total_reserved (e : FeeEnvelope) : Z :=
  sat_add 64 (max_poseq_fee e) (max_runtime_fee e).

(* @src src/runtime/src/fees/envelope.rs:49-52 FeeEnvelope::effective_refund_address *)
Definition effective_refund_address (e : FeeEnvelope) : id32 :=
  default (payer e) (refund_address e).

(* @src src/runtime/src/fees/envelope.rs:54-72 FeeEnvelope::validate *)
Definition validate (e : FeeEnvelope) (current_epoch : Z) : outcome string () :=
  if decide (payer e = 0) then Err "payer must be non-zero"
  else if decide (fee_token e ≠ "omniphi") then
    Err ("unsupported fee token: " +:+ fee_token e +:+ " (only omniphi accepted)")
  else if decide (max_poseq_fee e = 0 ∧ max_runtime_fee e = 0) then
    Err "at least one of max_poseq_fee or max_runtime_fee must be > 0"
  else if decide (expiry_epoch e ≤ current_epoch) then
    Err ("fee envelope expired at epoch " +:+ pretty (expiry_epoch e) +:+
         " (current: " +:+ pretty current_epoch +:+ ")")
  else if decide (total_reserved e = 0) then Err "total reserved fee must be > 0"
  else Ok tt.

(* @src src/runtime/src/fees/envelope.rs:74-95 FeeEnvelope::from_legacy_max_fee *)
Definition from_legacy_max_fee (p : id32) (max_fee expiry : Z) : FeeEnvelope :=
  let poseq_share := max_fee / 5 in
  let runtime_share := wrapu 64 (max_fee - poseq_share) in
  {| payer := p;
     fee_token := "omniphi";
     max_poseq_fee := poseq_share;
     max_runtime_fee := runtime_share;
     priority_tip := 0;
     expiry_epoch := expiry;
     refund_address := None |}.
End FeeEnvelope.

(** The numeric fields of an envelope fit their [u64]s. *)
Definition envelope_wf (e : FeeEnvelope) : Prop :=
  fits 64 (max_poseq_fee e) ∧ fits 64 (max_runtime_fee e) ∧
  fits 64 (priority_tip e) ∧ fits 64 (expiry_epoch e).

Lemma total_reserved_fits e : envelope_wf e → fits 64 (FeeEnvelope.total_reserved e).
Proof. intros (? & ? & _). unfold FeeEnvelope.total_reserved. ints. Qed.

Lemma validate_ok e now :
  FeeEnvelope.validate e now = Ok tt ↔
  payer e ≠ 0 ∧ fee_token e = "omniphi" ∧ ¬ (max_poseq_fee e = 0 ∧ max_runtime_fee e = 0) ∧
  now < expiry_epoch e ∧ FeeEnvelope.total_reserved e ≠ 0.
Proof. unfold FeeEnvelope.validate. repeat case_decide; naive_solver lia. Qed.

(** ** Properties *)

(** A legacy [max_fee] splits without loss: the two reserves add up to it
    exactly, the sequencing reserve is the floor of a fifth, no field wraps, and
    the envelope is valid exactly when the payer is non-zero, the fee is
    positive and the epoch is before its deadline. *)
Theorem from_legacy_max_fee_spec (p : id32) (max_fee expiry now : Z) :
  fits 64 max_fee → fits 64 expiry →
  let e := FeeEnvelope.from_legacy_max_fee p max_fee expiry in
  envelope_wf e ∧
  max_poseq_fee e + max_runtime_fee e = max_fee ∧
  5 * max_poseq_fee e ≤ max_fee < 5 * max_poseq_fee e + 5 ∧
  FeeEnvelope.total_reserved e = max_fee ∧
  FeeEnvelope.effective_refund_address e = p ∧
  (FeeEnvelope.validate e now = Ok tt ↔ p ≠ 0 ∧ 0 < max_fee ∧ now < expiry).
Proof.
  intros Hf He e.
  assert (0 ≤ max_fee / 5 ≤ max_fee ∧ 5 * (max_fee / 5) ≤ max_fee < 5 * (max_fee / 5) + 5)
    as (Hd & Hd').
  { pose proof (Z.div_mod max_fee 5). pose proof (Z.mod_pos_bound max_fee 5). ints. }
  assert (max_runtime_fee e = max_fee - max_fee / 5) as Hr by (apply wrapu_id; ints).
  assert (FeeEnvelope.total_reserved e = max_fee) as Ht.
  { unfold FeeEnvelope.total_reserved. rewrite Hr. cbn. ints. }
  assert (envelope_wf e) as Hwf.
  { unfold envelope_wf. rewrite Hr. cbn. split_and!; ints. }
  assert (FeeEnvelope.validate e now = Ok tt ↔ p ≠ 0 ∧ 0 < max_fee ∧ now < expiry) as Hv.
  { rewrite validate_ok, Ht, Hr. cbn. unfold fits in *. split; [intros (? & _ & ? & ? & ?); lia|].
    intros (? & ? & ?). split_and!; [done..|lia|done|lia]. }
  split_and!; rewrite ?Hr; cbn; first [done | lia | apply Hv].
Qed.

Lemma from_legacy_max_fee_spec_witness :
  let e := FeeEnvelope.from_legacy_max_fee 7 1003 20 in
  max_poseq_fee e + max_runtime_fee e = 1003 ∧ FeeEnvelope.validate e 19 = Ok tt.
Proof.
  pose proof (from_legacy_max_fee_spec 7 1003 20 19) as H.
  destruct H as (_ & H1 & _ & _ & _ & H2); [vm_compute; done..|].
  split; [exact H1|apply H2; lia].
Defined.
