(* ===== verification/Intents.v ===== *)
(** * Intent transactions

    The intent types (src/runtime/src/intents/types.rs) and the signed
    transaction around them: structural validation, canonical bytes, signing
    payloads, sponsorship (src/runtime/src/intents/base.rs).  Ed25519 is a
    parameter. *)

From stdpp Require Import gmap strings list.
From S2P Require Import Prelude Errors Objects Concrete FeeEnvelope.

(** ** Intent types *)

(* @src src/runtime/src/intents/types.rs:3-10 TransferIntent *)
Record TransferIntent : Type := mkTransfer {
  tr_asset_id : id32;
  tr_amount : Z;
  recipient : id32;
  memo : option string }.

(* @src src/runtime/src/intents/types.rs:12-22 SwapIntent *)
Record SwapIntent : Type := mkSwap {
  input_asset : id32;
  output_asset : id32;
  input_amount : Z;
  min_output_amount : Z;
  sw_max_slippage_bps : Z;
  allowed_pool_ids : option (list id32) }.

(* @src src/runtime/src/intents/types.rs:24-31 YieldAllocateIntent *)
Record YieldAllocateIntent : Type := mkYield {
  ya_asset_id : id32;
  ya_amount : Z;
  target_vault_id : id32;
  min_apy_bps : Z }.

(* @src src/runtime/src/intents/types.rs:33-41 TreasuryRebalanceIntent *)
Record TreasuryRebalanceIntent : Type := mkTreasury {
  from_asset : id32;
  to_asset : id32;
  tb_amount : Z;
  authorized_by : list id32 }.

(* @src src/runtime/src/intents/types.rs:43-53 RouteLiquidityIntent *)
Record RouteLiquidityIntent : Type := mkRoute {
  source_pool : id32;
  target_pool : id32;
  rl_asset_id : id32;
  rl_amount : Z;
  rl_min_received : Z;
  max_hops : Z;
  max_price_impact_bps : Z }.

(* @src src/runtime/src/intents/base.rs:10-20 ContractConstraints *)
Record ContractConstraints : Type := mkContractConstraints {
  max_state_delta_bytes : Z;
  required_object_versions : list (id32 * Z);
  custom_constraints : bytes }.

(* @src src/runtime/src/intents/base.rs:22-33 ContractCallIntent *)
Record ContractCallIntent : Type := mkContractCall {
  cc_schema_id : id32;
  method_selector : string;
  params : gmap string bytes;
  cc_constraints : ContractConstraints }.

(* @src src/runtime/src/intents/base.rs:35-45 IntentType *)
Inductive IntentType : Type :=
| ITransfer (t : TransferIntent)
| ISwap (s : SwapIntent)
| IYieldAllocate (y : YieldAllocateIntent)
| ITreasuryRebalance (r : TreasuryRebalanceIntent)
| IRouteLiquidity (rl : RouteLiquidityIntent)
| IContractCall (c : ContractCallIntent).

(* @src src/runtime/src/intents/base.rs:47-58 ExecutionMode *)
Inductive ExecutionMode : Type := BestEffort | Exact | FillOrKill | Partial.

(* @src src/runtime/src/intents/base.rs:64-79 IntentConstraints *)
Record IntentConstraints : Type := mkIntentConstraints {
  max_spend : option Z;
  ic_min_received : option Z;
  ic_max_slippage_bps : option Z;
  ic_allowed_objects : list id32;
  required_versions : list (id32 * Z);
  path_hints : list string }.

(* @src src/runtime/src/intents/base.rs:65-65 IntentConstraints::default *)
Definition default_constraints : IntentConstraints :=
  mkIntentConstraints None None None [] [] [].

(* @src src/runtime/src/intents/base.rs:81-90 FeePolicy *)
Inductive FeePolicy : Type := SenderPays | SponsorPays | SponsorThenSender.

(* @src src/runtime/src/intents/base.rs:96-111 SponsorshipLimits *)
Record SponsorshipLimits : Type := mkSponsorshipLimits {
  max_gas : option Z;
  max_fee_amount : option Z;
  allowed_intent_types : list string;
  sl_allowed_objects : list id32;
  expiration_epoch : option Z }.

(* @src src/runtime/src/intents/base.rs:113-145 IntentTransaction *)
Record IntentTransaction : Type := mkIntent {
  tx_id : id32;
  sender : id32;
  intent : IntentType;
  max_fee : Z;
  it_deadline_epoch : Z;
  nonce : Z;
  signature : bytes;
  metadata : gmap string string;
  target_objects : list id32;
  constraints : IntentConstraints;
  execution_mode : ExecutionMode;
  sponsor : option id32;
  sponsor_signature : option bytes;
  sponsorship_limits : SponsorshipLimits;
  fee_policy : FeePolicy;
  fee_envelope : option FeeEnvelope }.

(** Ed25519 (crate [ed25519_dalek]): public keys, signatures, signing. *)
Class Ed25519 := {
  valid_pubkey : id32 → bool;
  valid_signature : bytes → bool;
  verify : id32 → bytes → id32 → bool;
  sign_with : id32 → id32 → bytes }.

(** ** Operations *)

Module IntentTransaction.
(* @src src/runtime/src/intents/base.rs:497-500 IntentTransaction::is_sponsored *)
Definition is_sponsored (t : IntentTransaction) : bool :=
  bool_decide (is_Some (sponsor t)) && bool_decide (is_Some (sponsor_signature t)).

(* @src src/runtime/src/intents/base.rs:502-509 IntentTransaction::fee_payer *)
Definition fee_payer (t : IntentTransaction) : id32 :=
  match fee_policy t with
  | SenderPays => sender t
  | SponsorPays => default (sender t) (sponsor t)
  | SponsorThenSender => default (sender t) (sponsor t)
  end.

(* @src src/runtime/src/intents/base.rs:148-160 IntentTransaction::effective_fee_envelope *)
Definition effective_fee_envelope (t : IntentTransaction) : FeeEnvelope :=
  match fee_envelope t with
  | Some env => env
  | None => FeeEnvelope.from_legacy_max_fee (fee_payer t) (max_fee t) (it_deadline_epoch t)
  end.

(* @src src/runtime/src/intents/base.rs:162-168 IntentTransaction::runtime_gas_limit *)
Definition runtime_gas_limit (t : IntentTransaction) : Z :=
  max_runtime_fee (effective_fee_envelope t).

(** The per-variant checks of [validate]. *)
(* @src src/runtime/src/intents/base.rs:191-290 IntentTransaction::validate *)
Definition validate_intent (i : IntentType) : outcome RuntimeError () :=
  match i with
  | ITransfer t =>
      if decide (tr_amount t = 0) then
        Err (InvalidIntent "transfer amount must be greater than zero")
      else if decide (recipient t = 0) then
        Err (InvalidIntent "recipient address must be non-zero")
      else if decide (tr_asset_id t = 0) then
        Err (InvalidIntent "asset_id must be non-zero")
      else Ok tt
  | ISwap s =>
      if decide (input_amount s = 0) then
        Err (InvalidIntent "swap input_amount must be greater than zero")
      else if decide (input_asset s = output_asset s) then
        Err (InvalidIntent "swap input_asset and output_asset must differ")
      else if decide (10000 < sw_max_slippage_bps s) then
        Err (InvalidIntent "max_slippage_bps must not exceed 10000 (100%)")
      else Ok tt
  | IYieldAllocate y =>
      if decide (ya_amount y = 0) then
        Err (InvalidIntent "yield allocate amount must be greater than zero")
      else Ok tt
  | ITreasuryRebalance r =>
      if decide (tb_amount r = 0) then
        Err (InvalidIntent "treasury rebalance amount must be greater than zero")
      else if decide (authorized_by r = []) then
        Err (InvalidIntent "treasury rebalance requires at least one authority")
      else if decide (from_asset r = to_asset r) then
        Err (InvalidIntent "treasury rebalance from_asset and to_asset must differ")
      else Ok tt
  | IRouteLiquidity rl =>
      if decide (rl_amount rl = 0) then
        Err (InvalidIntent "route liquidity amount must be greater than zero")
      else if decide (rl_min_received rl = 0) then
        Err (InvalidIntent "route liquidity min_received must be greater than zero")
      else if decide (source_pool rl = target_pool rl) then
        Err (InvalidIntent "route liquidity source and target pools must differ")
      else if decide (max_hops rl = 0 ∨ 5 < max_hops rl) then
        Err (InvalidIntent "route liquidity max_hops must be 1-5")
      else if decide (500 < max_price_impact_bps rl) then
        Err (InvalidIntent "route liquidity max_price_impact_bps must not exceed 500")
      else Ok tt
  | IContractCall c =>
      if decide (cc_schema_id c = 0) then
        Err (InvalidIntent "contract call schema_id must be non-zero")
      else if decide (method_selector c = EmptyString) then
        Err (InvalidIntent "contract call method_selector must not be empty")
      else Ok tt
  end.

(* @src src/runtime/src/intents/base.rs:170-293 IntentTransaction::validate *)
Definition validate (t : IntentTransaction) : outcome RuntimeError () :=
  if decide (sender t = 0) then Err (InvalidIntent "sender address must be non-zero")
  else if decide (tx_id t = 0) then Err (InvalidIntent "tx_id must be non-zero")
  else if decide (max_fee t = 0) then Err (InvalidIntent "max_fee must be greater than zero")
  else validate_intent (intent t).

(* @src src/runtime/src/intents/base.rs:295-352 IntentTransaction::intent_canonical_bytes *)
Definition intent_canonical_bytes (i : IntentType) : bytes :=
  match i with
  | ITransfer t =>
      1 :: be_bytes 32 (tr_asset_id t) ++ be_bytes 16 (tr_amount t) ++ be_bytes 32 (recipient t)
  | ISwap s =>
      2 :: be_bytes 32 (input_asset s) ++ be_bytes 32 (output_asset s) ++
      be_bytes 16 (input_amount s) ++ be_bytes 16 (min_output_amount s) ++
      be_bytes 4 (sw_max_slippage_bps s)
  | IYieldAllocate y =>
      3 :: be_bytes 32 (ya_asset_id y) ++ be_bytes 16 (ya_amount y) ++
      be_bytes 32 (target_vault_id y) ++ be_bytes 4 (min_apy_bps y)
  | ITreasuryRebalance r =>
      4 :: be_bytes 32 (from_asset r) ++ be_bytes 32 (to_asset r) ++ be_bytes 16 (tb_amount r) ++
      be_bytes 4 (wrapu 32 (Z.of_nat (length (authorized_by r)))) ++
      concat (be_bytes 32 <$> authorized_by r)
  | IRouteLiquidity rl =>
      5 :: be_bytes 32 (source_pool rl) ++ be_bytes 32 (target_pool rl) ++
      be_bytes 32 (rl_asset_id rl) ++ be_bytes 16 (rl_amount rl) ++
      be_bytes 16 (rl_min_received rl) ++ [max_hops rl] ++ be_bytes 2 (max_price_impact_bps rl)
  | IContractCall c =>
      6 :: be_bytes 32 (cc_schema_id c) ++ string_bytes (method_selector c) ++
      be_bytes 8 (max_state_delta_bytes (cc_constraints c)) ++
      custom_constraints (cc_constraints c)
  end.

(** The bytes hashed by [signing_payload]. *)
Definition signing_preimage (t : IntentTransaction) : bytes :=
  string_bytes "OMNIPHI_INTENT_V1" ++ be_bytes 32 (tx_id t) ++ be_bytes 32 (sender t) ++
  be_bytes 8 (nonce t) ++ intent_canonical_bytes (intent t) ++ be_bytes 8 (max_fee t) ++
  be_bytes 8 (it_deadline_epoch t).

(* @src src/runtime/src/intents/base.rs:354-371 IntentTransaction::signing_payload *)
Definition signing_payload `{Sha256} (t : IntentTransaction) : id32 := sha256 (signing_preimage t).

(* @src src/runtime/src/intents/base.rs:373-393 IntentTransaction::verify_signature *)
Definition verify_signature `{Sha256, Ed25519} (t : IntentTransaction) : bool :=
  if negb (valid_pubkey (sender t)) then false
  else if negb (valid_signature (signature t)) then false
  else verify (sender t) (signature t) (signing_payload t).

(* @src src/runtime/src/intents/base.rs:395-406 IntentTransaction::sign *)
Definition sign `{Sha256, Ed25519} (t : IntentTransaction) (signing_key : id32) : bytes :=
  sign_with signing_key (signing_payload t).

Definition opt_bytes (o : option Z) : bytes :=
  match o with Some z => be_bytes 8 z | None => [] end.

(** The bytes hashed by [sponsorship_limits_hash]. *)
Definition limits_preimage (l : SponsorshipLimits) : bytes :=
  string_bytes "OMNIPHI_SPONSOR_LIMITS_V1" ++ opt_bytes (max_gas l) ++
  opt_bytes (max_fee_amount l) ++ concat (string_bytes <$> allowed_intent_types l) ++
  concat (be_bytes 32 <$> sl_allowed_objects l) ++ opt_bytes (expiration_epoch l).

(* @src src/runtime/src/intents/base.rs:434-458 IntentTransaction::sponsorship_limits_hash *)
Definition sponsorship_limits_hash `{Sha256} (l : SponsorshipLimits) : id32 :=
  sha256 (limits_preimage l).

(* @src src/runtime/src/intents/base.rs:410-432 IntentTransaction::sponsorship_payload *)
Definition sponsorship_payload `{Sha256} (t : IntentTransaction) : id32 :=
  sha256 (string_bytes "OMNIPHI_SPONSOR_V1" ++ be_bytes 32 (tx_id t) ++ be_bytes 32 (sender t) ++
    be_bytes 8 (max_fee t) ++
    match sponsor t with Some s => be_bytes 32 s | None => [] end ++
    be_bytes 32 (sponsorship_limits_hash (sponsorship_limits t))).

(* @src src/runtime/src/intents/base.rs:460-484 IntentTransaction::verify_sponsor_signature *)
Definition verify_sponsor_signature `{Sha256, Ed25519} (t : IntentTransaction) : bool :=
  match sponsor t with
  | None => false
  | Some s =>
      match sponsor_signature t with
      | None => false
      | Some sig =>
          if negb (valid_pubkey s) then false
          else if negb (valid_signature sig) then false
          else verify s sig (sponsorship_payload t)
      end
  end.

(* @src src/runtime/src/intents/base.rs:486-495 IntentTransaction::sign_sponsorship *)
Definition sign_sponsorship `{Sha256, Ed25519} (t : IntentTransaction) (sponsor_key : id32)
  : bytes := sign_with sponsor_key (sponsorship_payload t).
End IntentTransaction.

(** ** Well-formed intents: every integer fits its declared width *)

Definition intent_wf (i : IntentType) : Prop :=
  match i with
  | ITransfer t => fits 256 (tr_asset_id t) ∧ fits 128 (tr_amount t) ∧ fits 256 (recipient t)
  | ISwap s => fits 256 (input_asset s) ∧ fits 256 (output_asset s) ∧
      fits 128 (input_amount s) ∧ fits 128 (min_output_amount s) ∧ fits 32 (sw_max_slippage_bps s)
  | IYieldAllocate y => fits 256 (ya_asset_id y) ∧ fits 128 (ya_amount y) ∧
      fits 256 (target_vault_id y) ∧ fits 32 (min_apy_bps y)
  | ITreasuryRebalance r => fits 256 (from_asset r) ∧ fits 256 (to_asset r) ∧
      fits 128 (tb_amount r) ∧ fits 32 (Z.of_nat (length (authorized_by r))) ∧
      Forall (fits 256) (authorized_by r)
  | IRouteLiquidity rl => fits 256 (source_pool rl) ∧ fits 256 (target_pool rl) ∧
      fits 256 (rl_asset_id rl) ∧ fits 128 (rl_amount rl) ∧ fits 128 (rl_min_received rl) ∧
      fits 8 (max_hops rl) ∧ fits 16 (max_price_impact_bps rl)
  | IContractCall c => fits 256 (cc_schema_id c) ∧
      fits 64 (max_state_delta_bytes (cc_constraints c))
  end.

Definition tx_wf (t : IntentTransaction) : Prop :=
  fits 256 (tx_id t) ∧ fits 256 (sender t) ∧ fits 64 (nonce t) ∧ intent_wf (intent t) ∧
  fits 64 (max_fee t) ∧ fits 64 (it_deadline_epoch t).

Definition is_contract_call (i : IntentType) : bool :=
  match i with IContractCall _ => true | _ => false end.

(** An intent without the fields its canonical bytes leave out. *)
Definition signed_part (i : IntentType) : IntentType :=
  match i with
  | ITransfer t => ITransfer (mkTransfer (tr_asset_id t) (tr_amount t) (recipient t) None)
  | ISwap s => ISwap (mkSwap (input_asset s) (output_asset s) (input_amount s)
      (min_output_amount s) (sw_max_slippage_bps s) None)
  | i => i
  end.

Definition with_intent (t : IntentTransaction) (i : IntentType) : IntentTransaction :=
  mkIntent (tx_id t) (sender t) i (max_fee t) (it_deadline_epoch t) (nonce t) (signature t)
    (metadata t) (target_objects t) (constraints t) (execution_mode t) (sponsor t)
    (sponsor_signature t) (sponsorship_limits t) (fee_policy t) (fee_envelope t).

Definition with_unsigned (t : IntentTransaction) (objs : list id32) (cs : IntentConstraints)
    (m : ExecutionMode) (env : option FeeEnvelope) : IntentTransaction :=
  mkIntent (tx_id t) (sender t) (intent t) (max_fee t) (it_deadline_epoch t) (nonce t)
    (signature t) (metadata t) objs cs m (sponsor t) (sponsor_signature t)
    (sponsorship_limits t) (fee_policy t) env.

Definition with_params (c : ContractCallIntent) (p : gmap string bytes) : ContractCallIntent :=
  mkContractCall (cc_schema_id c) (method_selector c) p (cc_constraints c).

(** ** Lemmas *)

#[local] Opaque be_bytes.

Lemma fits_256 z : fits 256 z → 0 ≤ z < 256 ^ Z.of_nat 32.
Proof. done. Qed.
Lemma fits_128 z : fits 128 z → 0 ≤ z < 256 ^ Z.of_nat 16.
Proof. done. Qed.
Lemma fits_64 z : fits 64 z → 0 ≤ z < 256 ^ Z.of_nat 8.
Proof. done. Qed.
Lemma fits_32 z : fits 32 z → 0 ≤ z < 256 ^ Z.of_nat 4.
Proof. done. Qed.
Lemma fits_16 z : fits 16 z → 0 ≤ z < 256 ^ Z.of_nat 2.
Proof. done. Qed.
#[export] Hint Resolve fits_256 fits_128 fits_64 fits_32 fits_16 : ints.

(** Peels fixed-width fields off equal concatenations. *)
Ltac peel_bytes :=
  repeat match goal with
  | H : be_bytes _ _ ++ _ = be_bytes _ _ ++ _ |- _ =>
      apply be_bytes_app_inj in H as [? H]; [|by auto with ints..]
  | H : be_bytes _ _ = be_bytes _ _ |- _ => apply be_bytes_inj in H; [|by auto with ints..]
  end.

Lemma authorities_inj (l l' : list id32) :
  Forall (fits 256) l → Forall (fits 256) l' →
  concat (be_bytes 32 <$> l) = concat (be_bytes 32 <$> l') → length l = length l' → l = l'.
Proof.
  intros Hl. revert l'. induction Hl as [|z l Hz _ IH]; intros [|z' l'] Hl' E Hlen;
    [done|done|done|]. apply Forall_cons in Hl' as [Hz' Hl']. cbn [fmap list_fmap concat] in E.
  change (be_bytes 32 z ++ concat (be_bytes 32 <$> l) =
          be_bytes 32 z' ++ concat (be_bytes 32 <$> l')) in E.
  peel_bytes. f_equal; [done|]. apply IH; [done..|]. by injection Hlen.
Qed.

Lemma cons_inj {A} (x y : A) (l l' : list A) : x :: l = y :: l' → x = y ∧ l = l'.
Proof. by intros [= -> ->]. Qed.

Lemma canonical_bytes_inj i i' :
  intent_wf i → intent_wf i' → is_contract_call i = false → is_contract_call i' = false →
  IntentTransaction.intent_canonical_bytes i = IntentTransaction.intent_canonical_bytes i' →
  signed_part i = signed_part i'.
Proof.
  intros Hi Hi' Hc Hc' E.
  destruct i as [[]|[]|[]|[]|[]|], i' as [[]|[]|[]|[]|[]|]; try discriminate Hc;
    try discriminate Hc'; try discriminate E;
    cbn in Hi, Hi' |- *; destruct_and?; cbn in E; apply (cons_inj _ _ _ _) in E as [_ E];
    peel_bytes; subst; try done.
  - rewrite !wrapu_id in E by done. peel_bytes.
    match goal with H : Z.of_nat _ = Z.of_nat _ |- _ => apply Nat2Z.inj in H end.
    by erewrite (authorities_inj authorized_by0 authorized_by1).
  - apply (cons_inj _ _ _ _) in E as [-> E]. peel_bytes. by subst.
Qed.

Lemma preimage_split t t' :
  tx_wf t → tx_wf t' →
  IntentTransaction.signing_preimage t = IntentTransaction.signing_preimage t' →
  tx_id t = tx_id t' ∧ sender t = sender t' ∧ nonce t = nonce t' ∧
  IntentTransaction.intent_canonical_bytes (intent t) =
    IntentTransaction.intent_canonical_bytes (intent t') ∧
  max_fee t = max_fee t' ∧ it_deadline_epoch t = it_deadline_epoch t'.
Proof.
  intros (? & ? & ? & _ & ? & ?) (? & ? & ? & _ & ? & ?) E.
  unfold IntentTransaction.signing_preimage in E. apply app_inv_head in E.
  peel_bytes. apply app_inj_2 in E as [E1 E2]; [|by rewrite !length_app, !be_bytes_length].
  peel_bytes. done.
Qed.

(** ** Properties *)

(** What an Ed25519 signature covers: for intents other than contract
    calls, equal signing pre-images mean equal transaction id, sender, nonce,
    fee, deadline and intent, up to a transfer's memo and a swap's pool list.
    The encoding of the signed fields is unambiguous. *)
Theorem signing_preimage_injective (t t' : IntentTransaction) :
  tx_wf t → tx_wf t' →
  is_contract_call (intent t) = false → is_contract_call (intent t') = false →
  IntentTransaction.signing_preimage t = IntentTransaction.signing_preimage t' →
  tx_id t = tx_id t' ∧ sender t = sender t' ∧ nonce t = nonce t' ∧
  signed_part (intent t) = signed_part (intent t') ∧
  max_fee t = max_fee t' ∧ it_deadline_epoch t = it_deadline_epoch t'.
Proof.
  intros Hwf Hwf' Hc Hc' E.
  destruct (preimage_split t t' Hwf Hwf' E) as (? & ? & ? & Ei & ? & ?).
  destruct Hwf as (_ & _ & _ & ? & _), Hwf' as (_ & _ & _ & ? & _).
  split_and!; [done..| |done|done]. by apply canonical_bytes_inj.
Qed.

Definition sample_limits : SponsorshipLimits := mkSponsorshipLimits (Some 500) None [] [] None.
Definition sample_transfer : IntentType := ITransfer (mkTransfer 5 100 2 None).
Definition sample_intent (i : IntentType) (n : Z) : IntentTransaction :=
  {| tx_id := 900 + n; sender := 1; intent := i; max_fee := 1000; it_deadline_epoch := 50;
     nonce := n; signature := []; metadata := ∅; target_objects := [];
     constraints := default_constraints; execution_mode := BestEffort;
     sponsor := Some 2; sponsor_signature := Some []; sponsorship_limits := sample_limits;
     fee_policy := SenderPays; fee_envelope := None |}.

Lemma signing_preimage_injective_witness :
  signed_part (intent (sample_intent sample_transfer 3)) = sample_transfer.
Proof.
  refine (proj1 (proj2 (proj2 (proj2 (signing_preimage_injective
    (sample_intent sample_transfer 3) (sample_intent sample_transfer 3) _ _ _ _ _)))));
    [vm_compute; repeat split; done..|reflexivity|reflexivity|reflexivity].
Defined.

(** The arguments of a contract call, the declared objects and constraints,
    the execution mode and the whole fee envelope are not signed: whoever relays
    the transaction can replace them by any others, and the signature verifies
    as before. *)
Theorem contract_params_unsigned `{Sha256, Ed25519} (t : IntentTransaction)
    (c : ContractCallIntent) (p : gmap string bytes) (objs : list id32)
    (cs : IntentConstraints) (m : ExecutionMode) (env : option FeeEnvelope) :
  intent t = IContractCall c →
  IntentTransaction.verify_signature
    (with_unsigned (with_intent t (IContractCall (with_params c p))) objs cs m env) =
  IntentTransaction.verify_signature t.
Proof.
  intros Hi. unfold IntentTransaction.verify_signature, IntentTransaction.signing_payload,
    IntentTransaction.signing_preimage. cbn. by rewrite Hi.
Qed.

Definition sample_ed25519 : Ed25519 := {|
  valid_pubkey k := true;
  valid_signature s := true;
  verify k s m := bool_decide (s = [k + m]);
  sign_with k m := [k + m] |}.

Lemma contract_params_unsigned_witness :
  let c := mkContractCall 77 "send" ∅ (mkContractConstraints 64 [] []) in
  let t := sample_intent (IContractCall c) 0 in
  let e := FeeEnvelope.from_legacy_max_fee 3 9 9 in
  @IntentTransaction.verify_signature sample_sha256 sample_ed25519
    (with_unsigned (with_intent t (IContractCall (with_params c {["to" := [9]]}))) [7]
       default_constraints Exact (Some e)) =
  @IntentTransaction.verify_signature sample_sha256 sample_ed25519 t.
Proof.
  intros c t e. apply (@contract_params_unsigned sample_sha256 sample_ed25519 t c). reflexivity.
Defined.

(** The canonical bytes of contract calls are ambiguous: the method name is
    written without its length, so a call of [m ++ "transfer"] with delta bound
    [d] has the bytes of a call of [m] whose delta bound is the number spelt by
    the eight letters and whose constraint bytes begin with [d]. *)
Theorem contract_call_bytes_ambiguous (schema : id32) (m : string) (p : gmap string bytes)
    (vs : list (id32 * Z)) (d : Z) (cs : bytes) :
  let call1 := mkContractCall schema (m +:+ "transfer") p (mkContractConstraints d vs cs) in
  let call2 := mkContractCall schema m p
    (mkContractConstraints 8390876182755042674 vs (be_bytes 8 d ++ cs)) in
  method_selector call1 ≠ method_selector call2 ∧
  IntentTransaction.intent_canonical_bytes (IContractCall call1) =
  IntentTransaction.intent_canonical_bytes (IContractCall call2).
Proof.
  split.
  - intros E. cbn in E. apply (f_equal String.length) in E.
    assert (∀ s, String.length (s +:+ "transfer") = (String.length s + 8)%nat) as Hl
      by (intros s; induction s as [|a s IH]; [reflexivity|exact (f_equal S IH)]).
    rewrite Hl in E. lia.
  - assert (string_bytes (m +:+ "transfer") =
      string_bytes m ++ be_bytes 8 8390876182755042674) as E.
    { transitivity (string_bytes m ++ string_bytes "transfer"); [|reflexivity].
      induction m as [|a m IH]; [reflexivity|]. by apply (f_equal (cons _)). }
    change (6 :: be_bytes 32 schema ++ string_bytes (m +:+ "transfer") ++ be_bytes 8 d ++ cs =
      6 :: be_bytes 32 schema ++ string_bytes m ++ be_bytes 8 8390876182755042674 ++
      be_bytes 8 d ++ cs).
    by rewrite E, <- !app_assoc.
Qed.

(** The sponsorship limits are hashed without field tags: a sponsor that
    signed "at most [x] gas" has signed the same bytes as "at most [x] fee", so
    the limit can be moved from one field to the other under its signature. *)
Theorem sponsorship_limits_ambiguous `{Sha256, Ed25519} (t t' : IntentTransaction) (x : Z)
    (types : list string) (objs : list id32) (expiry : option Z) :
  sponsorship_limits t = mkSponsorshipLimits (Some x) None types objs expiry →
  sponsorship_limits t' = mkSponsorshipLimits None (Some x) types objs expiry →
  tx_id t = tx_id t' → sender t = sender t' → max_fee t = max_fee t' →
  sponsor t = sponsor t' → sponsor_signature t = sponsor_signature t' →
  IntentTransaction.verify_sponsor_signature t = IntentTransaction.verify_sponsor_signature t'.
Proof.
  intros Hl Hl' Hi Hs Hf Hp Hg. unfold IntentTransaction.verify_sponsor_signature,
    IntentTransaction.sponsorship_payload, IntentTransaction.sponsorship_limits_hash,
    IntentTransaction.limits_preimage. by rewrite Hl, Hl', Hi, Hs, Hf, Hp, Hg.
Qed.

Definition with_limits (t : IntentTransaction) (l : SponsorshipLimits) : IntentTransaction :=
  mkIntent (tx_id t) (sender t) (intent t) (max_fee t) (it_deadline_epoch t) (nonce t)
    (signature t) (metadata t) (target_objects t) (constraints t) (execution_mode t) (sponsor t)
    (sponsor_signature t) l (fee_policy t) (fee_envelope t).

Lemma sponsorship_limits_ambiguous_witness :
  let t := sample_intent sample_transfer 0 in
  let t' := with_limits t (mkSponsorshipLimits None (Some 500) [] [] None) in
  @IntentTransaction.verify_sponsor_signature sample_sha256 sample_ed25519 t =
  @IntentTransaction.verify_sponsor_signature sample_sha256 sample_ed25519 t'.
Proof.
  intros t t'.
  apply (@sponsorship_limits_ambiguous sample_sha256 sample_ed25519 t t' 500 [] [] None);
    reflexivity.
Defined.
