(* ===== verification/Admission.v ===== *)
(** * Intent admission

    The nonce tracker and the admission pipeline of
    src/runtime/src/intents/base.rs: structural checks, signature, expiry,
    nonce, object access and constraints, then the nonce advance. *)

From stdpp Require Import gmap strings list pretty.
From S2P Require Import Prelude Errors Objects Concrete Store FeeEnvelope Intents.

(* @src src/runtime/src/intents/base.rs:532-536 NonceTracker *)
Record NonceTracker : Type := mkNonceTracker { nonces : gmap Z Z }.

Module NonceTracker.
(* @src src/runtime/src/intents/base.rs:539-539 NonceTracker::new *)
Definition new : NonceTracker := mkNonceTracker ∅.

(* @src src/runtime/src/intents/base.rs:541-543 NonceTracker::expected_nonce *)
Definition expected_nonce (t : NonceTracker) (who : id32) : Z := default 0 (nonces t !! who).

(* @src src/runtime/src/intents/base.rs:545-547 NonceTracker::is_valid *)
Definition is_valid (t : NonceTracker) (who : id32) (n : Z) : bool :=
  bool_decide (n = expected_nonce t who).

(* @src src/runtime/src/intents/base.rs:549-556 NonceTracker::advance *)
Definition advance (who : id32) (n : Z) : M NonceTracker string () := λ t,
  let expected := expected_nonce t who in
  if decide (n ≠ expected) then
    (t, Err ("nonce mismatch: expected " +:+ pretty expected +:+ ", got " +:+ pretty n))
  else (mkNonceTracker (<[who := wrapu 64 (n + 1)]> (nonces t)), Ok tt).
End NonceTracker.

(* @src src/runtime/src/intents/base.rs:563-567 AdmissionResult *)
Inductive AdmissionResult : Type := Accepted | Rejected (msg : string).

(* @src src/runtime/src/intents/base.rs:569-574 IntentAdmissionPipeline *)
Record IntentAdmissionPipeline : Type := mkPipeline {
  nonce_tracker : NonceTracker;
  current_epoch : Z;
  verify_signatures : bool }.

Definition set_tracker (p : IntentAdmissionPipeline) (t : NonceTracker)
  : IntentAdmissionPipeline := mkPipeline t (current_epoch p) (verify_signatures p).

(** A check that gives the text of the rejection. *)
Abbreviation check := (outcome string ()).
Definition require (b : bool) (msg : string) : check := if b then Ok tt else Err msg.

Lemma require_ok b msg : require b msg = Ok tt ↔ b = true.
Proof. by destruct b. Qed.

Section admission.
Context `{Sha256, Ed25519, Hex}.

(* @src src/runtime/src/intents/base.rs:615-620 IntentAdmissionPipeline::admit *)
Definition check_targets (tx : IntentTransaction) (store : ObjectStore) : check :=
  ofor (λ o, require (bool_decide (is_Some (ObjectStore.get store o)))
    ("target object " +:+ hex_encode o +:+ " not found")) (target_objects tx).

(* @src src/runtime/src/intents/base.rs:628-643 IntentAdmissionPipeline::admit *)
Definition check_version (store : ObjectStore) (r : id32 * Z) : check :=
  match ObjectStore.get store r.1 with
  | Some obj =>
      let v := version (Object.meta obj) in
      require (bool_decide (v = r.2))
        ("constraint: object " +:+ hex_encode r.1 +:+ " version " +:+ pretty v +:+
         " != required " +:+ pretty r.2)
  | None => Err ("constraint: required_version object " +:+ hex_encode r.1 +:+ " not found")
  end.

(* @src src/runtime/src/intents/base.rs:622-652 IntentAdmissionPipeline::admit *)
Definition check_constraints (tx : IntentTransaction) (store : ObjectStore) : check :=
  let c := constraints tx in
  _ ← match ic_max_slippage_bps c with
      | Some s => require (bool_decide (s ≤ 10000)) "constraint: max_slippage_bps > 10000"
      | None => Ok tt
      end;
  _ ← ofor (check_version store) (required_versions c);
  if decide (ic_allowed_objects c = []) then Ok tt else
  ofor (λ o, require (bool_decide (o ∈ ic_allowed_objects c))
    ("constraint: target " +:+ hex_encode o +:+ " not in allowed_objects")) (target_objects tx).

(** The six checks in their order. *)
(* @src src/runtime/src/intents/base.rs:590-652 IntentAdmissionPipeline::admit *)
Definition admission_checks (p : IntentAdmissionPipeline) (tx : IntentTransaction)
    (store : ObjectStore) : check :=
  _ ← match IntentTransaction.validate tx with
      | Ok _ => Ok tt
      | Err e => Err ("structural: " +:+ error_to_string e)
      | Panic => Panic
      end;
  _ ← require (negb (verify_signatures p) || IntentTransaction.verify_signature tx)
        "invalid Ed25519 signature";
  _ ← require (bool_decide (current_epoch p ≤ it_deadline_epoch tx))
        ("expired: deadline " +:+ pretty (it_deadline_epoch tx) +:+ " < current " +:+
         pretty (current_epoch p));
  _ ← require (NonceTracker.is_valid (nonce_tracker p) (sender tx) (nonce tx))
        ("nonce: expected " +:+
         pretty (NonceTracker.expected_nonce (nonce_tracker p) (sender tx)) +:+
         ", got " +:+ pretty (nonce tx));
  _ ← check_targets tx store;
  check_constraints tx store.

(* @src src/runtime/src/intents/base.rs:585-657 IntentAdmissionPipeline::admit *)
Definition admit_intent (p : IntentAdmissionPipeline) (tx : IntentTransaction) (store : ObjectStore)
  : IntentAdmissionPipeline * AdmissionResult :=
  match admission_checks p tx store with
  | Ok _ => (set_tracker p (NonceTracker.advance (sender tx) (nonce tx) (nonce_tracker p)).1,
             Accepted)
  | Err msg => (p, Rejected msg)
  | Panic => (p, Rejected EmptyString)
  end.

(** Submitting a sequence of transactions, each with the store of its moment. *)
Fixpoint admit_all (p : IntentAdmissionPipeline) (l : list (IntentTransaction * ObjectStore))
  : IntentAdmissionPipeline * list (IntentTransaction * AdmissionResult) :=
  match l with
  | [] => (p, [])
  | (tx, store) :: l =>
      let '(p1, r) := admit_intent p tx store in
      let '(p2, rs) := admit_all p1 l in
      (p2, (tx, r) :: rs)
  end.
End admission.

#[export] Instance AdmissionResult_eq_dec : EqDecision AdmissionResult.
Proof. solve_decision. Defined.

(** The nonces of a sender's accepted transactions, in order. *)
Definition accepted_nonces (who : id32) (l : list (IntentTransaction * AdmissionResult)) : list Z :=
  (λ x, nonce x.1) <$> filter (λ x, sender x.1 = who ∧ x.2 = Accepted) l.

(** The condition under which a transaction enters. *)
Record admissible `{Sha256, Ed25519} (p : IntentAdmissionPipeline) (tx : IntentTransaction)
    (store : ObjectStore) : Prop := {
  adm_valid : IntentTransaction.validate tx = Ok tt;
  adm_signed : verify_signatures p = true → IntentTransaction.verify_signature tx = true;
  adm_live : current_epoch p ≤ it_deadline_epoch tx;
  adm_nonce : nonce tx = NonceTracker.expected_nonce (nonce_tracker p) (sender tx);
  adm_targets : Forall (λ o, is_Some (ObjectStore.get store o)) (target_objects tx);
  adm_slippage : ∀ s, ic_max_slippage_bps (constraints tx) = Some s → s ≤ 10000;
  adm_versions : Forall (λ r, ∃ obj, ObjectStore.get store r.1 = Some obj ∧
    version (Object.meta obj) = r.2) (required_versions (constraints tx));
  adm_allowed : ic_allowed_objects (constraints tx) = [] ∨
    Forall (λ o, o ∈ ic_allowed_objects (constraints tx)) (target_objects tx) }.

(** ** Lemmas *)

Section lemmas.
Context `{Sha256, Ed25519, Hex}.
Implicit Types (p : IntentAdmissionPipeline) (tx : IntentTransaction).

Lemma require_not_panic b msg : require b msg ≠ Panic.
Proof. by destruct b. Qed.

Lemma ofor_not_panic {A} (f : A → check) l : (∀ a, f a ≠ Panic) → ofor f l ≠ Panic.
Proof.
  intros Hf. induction l as [|a l IH]; cbn; [done|]. specialize (Hf a). by destruct (f a).
Qed.

Lemma obind_not_panic {E A B} (m : outcome E A) (f : A → outcome E B) :
  m ≠ Panic → (∀ a, f a ≠ Panic) → m ≫= f ≠ Panic.
Proof. destruct m; cbn; auto. Qed.

Lemma validate_not_panic tx : IntentTransaction.validate tx ≠ Panic.
Proof.
  unfold IntentTransaction.validate. repeat case_decide; try done.
  destruct (intent tx); cbn; repeat case_decide; done.
Qed.

Lemma admission_checks_not_panic p tx store : admission_checks p tx store ≠ Panic.
Proof.
  unfold admission_checks, check_targets, check_constraints.
  repeat (apply obind_not_panic; [|intros ?]); auto using require_not_panic, ofor_not_panic.
  - destruct (IntentTransaction.validate tx) eqn:E; [done..|]. by destruct (validate_not_panic tx).
  - case_match; [apply require_not_panic|done].
  - apply ofor_not_panic. intros r. unfold check_version.
    case_match; [apply require_not_panic|done].
  - case_decide; [done|]. apply ofor_not_panic. intros. apply require_not_panic.
Qed.

Lemma check_version_ok store r :
  check_version store r = Ok tt ↔
  ∃ obj, ObjectStore.get store r.1 = Some obj ∧ version (Object.meta obj) = r.2.
Proof.
  unfold check_version. destruct (ObjectStore.get store r.1) as [obj|]; [|naive_solver].
  rewrite require_ok, bool_decide_eq_true. naive_solver.
Qed.

Lemma check_constraints_ok tx store :
  check_constraints tx store = Ok tt ↔
  (∀ s, ic_max_slippage_bps (constraints tx) = Some s → s ≤ 10000) ∧
  Forall (λ r, ∃ obj, ObjectStore.get store r.1 = Some obj ∧
    version (Object.meta obj) = r.2) (required_versions (constraints tx)) ∧
  (ic_allowed_objects (constraints tx) = [] ∨
   Forall (λ o, o ∈ ic_allowed_objects (constraints tx)) (target_objects tx)).
Proof.
  unfold check_constraints. set (c := constraints tx). rewrite obind_ok. split.
  - intros ([] & Hs & ([] & Hv & Ha)%obind_ok). split_and!.
    + intros s E. rewrite E in Hs. by apply require_ok, bool_decide_eq_true in Hs.
    + apply ofor_ok in Hv. eapply Forall_impl; [exact Hv|]. intros r. apply check_version_ok.
    + case_decide; [by left|right]. rewrite ofor_ok in Ha.
      eapply Forall_impl; [exact Ha|]. cbn. intros o Ho.
      by apply require_ok, bool_decide_eq_true in Ho.
  - intros (Hs & Hv & Ha). exists tt. split.
    { case_match; [|done]. apply require_ok, bool_decide_eq_true. by apply Hs. }
    apply obind_ok. exists tt. split.
    { apply ofor_ok. eapply Forall_impl; [exact Hv|]. intros r. apply check_version_ok. }
    case_decide; [done|]. destruct Ha as [|Ha]; [done|].
    apply ofor_ok. eapply Forall_impl; [exact Ha|]. cbn. intros o Ho.
    by apply require_ok, bool_decide_eq_true.
Qed.

Lemma check_targets_ok tx store :
  check_targets tx store = Ok tt ↔
  Forall (λ o, is_Some (ObjectStore.get store o)) (target_objects tx).
Proof.
  unfold check_targets. rewrite ofor_ok. apply Forall_iff. intros o.
  by rewrite require_ok, bool_decide_eq_true.
Qed.

Lemma admission_checks_ok p tx store :
  admission_checks p tx store = Ok tt ↔ admissible p tx store.
Proof.
  unfold admission_checks, NonceTracker.is_valid. split.
  - intros E. apply obind_ok in E as ([] & H1' & E). apply obind_ok in E as ([] & H2 & E).
    apply obind_ok in E as ([] & H3 & E). apply obind_ok in E as ([] & H4 & E).
    apply obind_ok in E as ([] & H5 & E). apply check_constraints_ok in E as (H6 & H7 & H8).
    rewrite require_ok in H2, H3, H4. rewrite bool_decide_eq_true in H3, H4.
    apply check_targets_ok in H5. split; try done.
    + destruct (IntentTransaction.validate tx) as [[]| |]; naive_solver.
    + intros Hv. by rewrite Hv in H2.
  - intros []. rewrite adm_valid0. cbn. apply obind_ok. exists tt. split.
    { apply require_ok. destruct (verify_signatures p); [by apply adm_signed0|done]. }
    apply obind_ok. exists tt. split; [by apply require_ok, bool_decide_eq_true|].
    apply obind_ok. exists tt. split; [by apply require_ok, bool_decide_eq_true|].
    apply obind_ok. exists tt. split; [by apply check_targets_ok|].
    by apply check_constraints_ok.
Qed.

Lemma admit_accepted p tx store p' :
  admit_intent p tx store = (p', Accepted) ↔
  admissible p tx store ∧
  p' = set_tracker p (mkNonceTracker
         (<[sender tx := wrapu 64 (nonce tx + 1)]> (nonces (nonce_tracker p)))).
Proof.
  rewrite <- admission_checks_ok. unfold admit_intent.
  destruct (admission_checks p tx store) as [[]|e|] eqn:E; [|naive_solver..].
  assert (nonce tx = NonceTracker.expected_nonce (nonce_tracker p) (sender tx)) as Hn.
  { by apply admission_checks_ok in E as []. }
  unfold NonceTracker.advance. rewrite decide_False by (by intros []). cbn. naive_solver.
Qed.

Lemma admit_rejected p tx store p' msg : admit_intent p tx store = (p', Rejected msg) → p' = p.
Proof. unfold admit_intent. destruct (admission_checks _ _ _); naive_solver. Qed.

(** What a step does to the nonce expected of a sender. *)
Lemma admit_expected p tx store who :
  let '(p', r) := admit_intent p tx store in
  NonceTracker.expected_nonce (nonce_tracker p') who =
  if decide (sender tx = who ∧ r = Accepted)
  then wrapu 64 (NonceTracker.expected_nonce (nonce_tracker p) who + 1)
  else NonceTracker.expected_nonce (nonce_tracker p) who.
Proof.
  destruct (admit_intent p tx store) as [p' [|msg]] eqn:E.
  - apply admit_accepted in E as [[] ->]. unfold NonceTracker.expected_nonce in *; cbn.
    rewrite lookup_insert. case_decide; subst.
    + rewrite decide_True by done. cbn. by rewrite adm_nonce0.
    + by rewrite decide_False by naive_solver.
  - apply admit_rejected in E as ->. rewrite decide_False; [done|]. by intros [_ ?].
Qed.
End lemmas.

(** ** Properties *)

(** Admission accepts exactly the transactions that pass all six checks; an
    accepted transaction advances only its sender's nonce, by one, and a
    rejected one leaves the pipeline as it was. *)
Theorem admit_spec `{Sha256, Ed25519, Hex} (p : IntentAdmissionPipeline)
    (tx : IntentTransaction) (store : ObjectStore) :
  let '(p', r) := admit_intent p tx store in
  (r = Accepted ↔ admissible p tx store) ∧
  (r ≠ Accepted → p' = p) ∧
  (r = Accepted → ∀ who,
     NonceTracker.expected_nonce (nonce_tracker p') who =
     if decide (who = sender tx) then wrapu 64 (nonce tx + 1)
     else NonceTracker.expected_nonce (nonce_tracker p) who).
Proof.
  pose proof (admit_expected p tx store) as Hexp. pose proof (admit_accepted p tx store) as Ha.
  pose proof (admit_rejected p tx store) as Hr. destruct (admit_intent p tx store) as [p' r].
  split_and!.
  - split; [intros ->; by apply (Ha p')|]. intros Hadm.
    destruct (Ha (set_tracker p (mkNonceTracker
      (<[sender tx := wrapu 64 (nonce tx + 1)]> (nonces (nonce_tracker p)))))) as [_ E].
    by injection (E (conj Hadm eq_refl)).
  - destruct r as [|msg]; [done|]. intros _. by eapply Hr.
  - intros -> who. rewrite Hexp. destruct (proj1 (Ha p') eq_refl) as [[] _].
    destruct (decide (who = sender tx)) as [->|Hne].
    + by rewrite decide_True, adm_nonce0 by done.
    + rewrite decide_False; [done|]. by intros [<- _].
Qed.

(** C7: Replay protection.  Over any sequence of submissions, whatever the
    stores and the other senders, the accepted nonces of a sender are
    consecutive from the one first expected; no nonce is accepted twice until
    2^64 of the sender's transactions have been. *)
Theorem accepted_nonces_consecutive `{Sha256, Ed25519, Hex} (p p' : IntentAdmissionPipeline)
    (l : list (IntentTransaction * ObjectStore)) rs (who : id32) :
  fits 64 (NonceTracker.expected_nonce (nonce_tracker p) who) →
  admit_all p l = (p', rs) →
  let n0 := NonceTracker.expected_nonce (nonce_tracker p) who in
  let acc := accepted_nonces who rs in
  acc = (λ k, wrapu 64 (n0 + k)) <$> seqZ 0 (Z.of_nat (length acc)) ∧
  NonceTracker.expected_nonce (nonce_tracker p') who = wrapu 64 (n0 + Z.of_nat (length acc)) ∧
  (Z.of_nat (length acc) ≤ 2 ^ 64 → NoDup acc).
Proof.
  intros Hfit E n0 acc.
  assert (acc = (λ k, wrapu 64 (n0 + k)) <$> seqZ 0 (Z.of_nat (length acc)) ∧
    NonceTracker.expected_nonce (nonce_tracker p') who = wrapu 64 (n0 + Z.of_nat (length acc)))
    as [Hacc Hend].
  2: { split_and!; [done..|]. intros Hlen. rewrite Hacc.
    apply NoDup_fmap_2_strong; [|apply NoDup_seqZ].
    intros a b [Ha Ha']%elem_of_seqZ [Hb Hb']%elem_of_seqZ. unfold wrapu. intros Hab.
    assert ((a - b) mod 2 ^ 64 = 0) as Hm.
    { replace (a - b) with ((n0 + a) - (n0 + b)) by lia. by rewrite Zminus_mod, Hab, Z.sub_diag. }
    apply Z.mod_divide in Hm as [q Hq]; [|done]. assert (q = 0) by nia. lia. }
  subst n0 acc. revert p rs Hfit E. induction l as [|[tx store] l IH]; intros p rs Hfit E; cbn in E.
  { injection E as <- <-. cbn. split; [done|]. by rewrite Z.add_0_r, wrapu_id. }
  pose proof (admit_expected p tx store who) as Hexp.
  pose proof (admit_accepted p tx store) as Ha.
  destruct (admit_intent p tx store) as [p1 r]. destruct (admit_all p1 l) as [p2 rs2] eqn:E2.
  injection E as <- <-. unfold accepted_nonces in *. rewrite filter_cons. cbn [fst snd] in *.
  destruct (decide (sender tx = who ∧ r = Accepted)) as [[<- ->]|Hn].
  - apply IH in E2 as [E2 E2']; [|rewrite Hexp; by apply wrapu_fits].
    destruct (proj1 (Ha p1) eq_refl) as [[] _]. set (f := fmap _ _) in E2, E2'.
    rewrite fmap_cons. cbn [length fst]. fold f.
    set (n := NonceTracker.expected_nonce (nonce_tracker p) (sender tx)) in *.
    rewrite Nat2Z.inj_succ, seqZ_cons, Z.pred_succ, fmap_cons by lia.
    assert (∀ k, wrapu 64 (wrapu 64 (n + 1) + k) = wrapu 64 (n + Z.succ k)) as Hw.
    { intros k. unfold wrapu. rewrite Zplus_mod_idemp_l. f_equal. lia. }
    rewrite Hexp in E2, E2'. split.
    + f_equal; [by rewrite Z.add_0_r, wrapu_id, adm_nonce0|]. etrans; [exact E2|].
      change (Z.succ 0) with (1 + 0). rewrite <- (fmap_add_seqZ 1 0), <- list_fmap_compose.
      apply list_fmap_ext. intros _ k _. rewrite Hw. cbn. f_equal. lia.
    + by rewrite E2', Hw.
  - rewrite <- Hexp in Hfit |- *. by apply IH.
Qed.

Definition sample_pipeline : IntentAdmissionPipeline := mkPipeline NonceTracker.new 10 false.
Definition sample_submissions : list (IntentTransaction * ObjectStore) :=
  [(sample_intent sample_transfer 0, ObjectStore.new);
   (sample_intent sample_transfer 0, ObjectStore.new);
   (sample_intent sample_transfer 1, ObjectStore.new)].

Lemma accepted_nonces_consecutive_witness :
  let r := @admit_all sample_sha256 sample_ed25519 sample_hex sample_pipeline sample_submissions in
  accepted_nonces 1 r.2 = [0; 1] ∧ NoDup (accepted_nonces 1 r.2).
Proof.
  intros r. split; [vm_compute; reflexivity|].
  apply (@accepted_nonces_consecutive sample_sha256 sample_ed25519 sample_hex sample_pipeline r.1
    sample_submissions r.2 1); [by vm_compute|apply surjective_pairing|].
  vm_compute. discriminate.
Defined.
