(* ===== verification/Planner.v ===== *)
(** * Intent resolution

    Execution plans and the intent resolver of
    src/runtime/src/resolution/planner.rs: the constant-product output, the gas
    estimate, and one resolver per intent type. *)

From stdpp Require Import gmap strings list pretty.
From S2P Require Import Prelude Errors Gas Objects Concrete Store FeeEnvelope Intents.

(** ** Plans *)

(* @src src/runtime/src/resolution/planner.rs:13-78 ObjectOperation *)
Inductive ObjectOperation : Type :=
| DebitBalance (balance_id : id32) (amount : Z)
| CreditBalance (balance_id : id32) (amount : Z)
| SwapPoolAmounts (pool_id : id32) (delta_a delta_b : Z)
| LockBalance (balance_id : id32) (amount : Z)
| UnlockBalance (balance_id : id32) (amount : Z)
| UpdateVersion (object_id : id32)
| TransferOwnership (object_id : id32) (new_owner : id32)
| ContractStateTransition (contract_id : id32) (schema_id : id32) (proposed_state : bytes)
| BindContractBalance (contract_id balance_id schema_id asset_id : id32) (label : string)
| CreateToken (creator_contract mint_authority_schema : id32) (symbol : string) (decimals : Z)
    (initial_supply : Z) (max_supply : option Z)
| EmitContractEvent (contract_id schema_id : id32) (event_type : string)
    (indexed : gmap string string) (data : bytes)
| IBCTransfer (source_contract : id32) (channel_id port_id denom : string) (amount : Z)
    (receiver : string) (timeout_secs : Z)
| ScheduleExecution (contract_id schema_id : id32) (method : string) (params : bytes)
    (execute_at_epoch : Z) (recurring : bool) (interval_epochs max_recurrences : Z).

(* @src src/runtime/src/resolution/planner.rs:80-92 ExecutionPlan *)
Record ExecutionPlan : Type := mkPlan {
  plan_tx_id : id32;
  operations : list ObjectOperation;
  required_capabilities : list Capability;
  object_access : list ObjectAccess;
  gas_estimate : Z;
  gas_limit : Z }.

(** ** The constant-product output *)

(* @src src/runtime/src/resolution/planner.rs:98-134 amm_output *)
Definition amm_output `{U256} (input_amount reserve_in reserve_out fee_bps : Z)
  : outcome RuntimeError Z :=
  f ← expect (u256_sub 10000 fee_bps);
  input_with_fee ← expect (u256_mul input_amount f);
  numerator ← expect (u256_mul input_with_fee reserve_out);
  scaled ← expect (u256_mul reserve_in 10000);
  denominator ← expect (u256_add scaled input_with_fee);
  if decide (denominator = 0) then Err (ConstraintViolation "zero denominator in AMM")
  else
    output ← expect (u256_div numerator denominator);
    if decide (u128_max < output) then Err (ConstraintViolation "AMM output overflow")
    else Ok output.

(** ** Gas estimation *)

(* @src src/runtime/src/resolution/planner.rs:144-164 estimate_gas *)
Definition estimate_op (costs : GasCosts) (op : ObjectOperation) : Z :=
  match op with
  | DebitBalance _ _ => debit_balance costs
  | CreditBalance _ _ => credit_balance costs
  | SwapPoolAmounts _ _ _ => swap_pool costs
  | LockBalance _ _ => lock_balance costs
  | UnlockBalance _ _ => unlock_balance costs
  | UpdateVersion _ => update_version costs
  | TransferOwnership _ _ => update_version costs
  | ContractStateTransition _ _ proposed_state =>
      wrapu 64 (wrapu 64 (contract_state_write costs + constraint_validation_base costs) +
        wrapu 64 (constraint_validation_per_byte costs * Z.of_nat (length proposed_state)))
  | BindContractBalance _ _ _ _ _ => bind_contract_balance costs
  | CreateToken _ _ _ _ _ _ => create_token costs
  | EmitContractEvent _ _ _ _ data =>
      wrapu 64 (emit_event costs +
        wrapu 64 (constraint_validation_per_byte costs * Z.of_nat (length data)))
  | IBCTransfer _ _ _ _ _ _ _ => ibc_transfer costs
  | ScheduleExecution _ _ _ _ _ _ _ _ => schedule_execution costs
  end.

(* @src src/runtime/src/resolution/planner.rs:140-168 estimate_gas *)
Definition estimate_gas (ops : list ObjectOperation) (costs : GasCosts) : Z :=
  foldl (λ total op, sat_add 64 total (estimate_op costs op)) (base_tx costs) ops.

(** ** The resolver *)

Definition rw (i : id32) : ObjectAccess := mkAccess i ReadWrite.

Definition make_plan (txid max_fee : Z) (ops : list ObjectOperation) (caps : list Capability)
    (access : list ObjectAccess) : ExecutionPlan :=
  mkPlan txid ops caps access (estimate_gas ops default_costs) (sat_mul 64 max_fee 1000).

(** The source balance: found, and with enough available. *)
(* @src src/runtime/src/resolution/planner.rs:227-238 IntentResolver::resolve_transfer *)
Definition source_balance (store : ObjectStore) (who asset : id32) (amt : Z)
  : outcome RuntimeError BalanceObject :=
  b ← ok_or (ObjectStore.find_balance store who asset) (ObjectNotFound 0);
  if decide (BalanceObject.available b < amt)
  then Err (InsufficientBalance amt (BalanceObject.available b))
  else Ok b.

Module IntentResolver.
(* @src src/runtime/src/resolution/planner.rs:216-280 IntentResolver::resolve_transfer *)
Definition resolve_transfer (txid max_fee : Z) (who : id32) (t : TransferIntent)
    (store : ObjectStore) (caps : CapabilitySet) : outcome RuntimeError ExecutionPlan :=
  _ ← CapabilityChecker.check caps [TransferAsset];
  sb ← source_balance store who (tr_asset_id t) (tr_amount t);
  rb ← ok_or (ObjectStore.find_balance store (recipient t) (tr_asset_id t)) (ObjectNotFound 0);
  let sid := id (bal_meta sb) in
  let rid := id (bal_meta rb) in
  Ok (make_plan txid max_fee [DebitBalance sid (tr_amount t); CreditBalance rid (tr_amount t)]
        [TransferAsset] [rw sid; rw rid]).

(** [iter().find_map(..)] *)
Fixpoint find_map {A B} (f : A → option B) (l : list A) : option B :=
  match l with
  | [] => None
  | a :: l => match f a with Some b => Some b | None => find_map f l end
  end.

(* @src src/runtime/src/resolution/planner.rs:297-317 IntentResolver::resolve_swap *)
Definition select_pool (s : SwapIntent) (store : ObjectStore) : option LiquidityPoolObject :=
  match allowed_pool_ids s with
  | None => ObjectStore.find_pool store (input_asset s) (output_asset s)
  | Some ids =>
      find_map (λ pid,
        p ← ObjectStore.get_pool_by_id store pid;
        if ObjectStore.has_pair (input_asset s) (output_asset s) p
        then ObjectStore.find_pool store (input_asset s) (output_asset s) else None) ids
  end.

(* @src src/runtime/src/resolution/planner.rs:338-363 IntentResolver::resolve_swap *)
Definition check_slippage `{U256} (s : SwapIntent) (reserve_in reserve_out output_amount : Z)
  : outcome RuntimeError () :=
  denominator ← expect (u256_add reserve_in (input_amount s));
  if decide (denominator = 0) then Ok tt else
  x ← expect (u256_mul (input_amount s) reserve_out);
  ideal ← expect (u256_div x denominator);
  if decide (output_amount < ideal) then
    d ← expect (u256_sub ideal output_amount);
    y ← expect (u256_mul d 10000);
    slippage_bps ← expect (u256_div y ideal);
    if decide (sw_max_slippage_bps s < slippage_bps) then
      Err (ConstraintViolation ("swap slippage " +:+ pretty slippage_bps +:+
             " bps exceeds max " +:+ pretty (sw_max_slippage_bps s) +:+ " bps"))
    else Ok tt
  else Ok tt.

(* @src src/runtime/src/resolution/planner.rs:286-422 IntentResolver::resolve_swap *)
Definition resolve_swap `{U256} (txid max_fee : Z) (who : id32) (s : SwapIntent)
    (store : ObjectStore) (caps : CapabilitySet) : outcome RuntimeError ExecutionPlan :=
  _ ← CapabilityChecker.check caps [SwapAsset];
  pool ← ok_or (select_pool s store)
           (ResolutionFailure "no eligible liquidity pool found for swap");
  let input_is_a := bool_decide (asset_a pool = input_asset s) in
  let '(reserve_in, reserve_out) :=
    if input_is_a then (reserve_a pool, reserve_b pool) else (reserve_b pool, reserve_a pool) in
  output_amount ← amm_output (input_amount s) reserve_in reserve_out (fee_bps pool);
  if decide (output_amount < min_output_amount s) then
    Err (ConstraintViolation ("swap output " +:+ pretty output_amount +:+
           " < min_output_amount " +:+ pretty (min_output_amount s)))
  else
  _ ← check_slippage s reserve_in reserve_out output_amount;
  let pid := id (pool_meta pool) in
  let inp := wraps 128 (input_amount s) in
  let out := wraps 128 (- wraps 128 output_amount) in
  let '(delta_a, delta_b) := if input_is_a then (inp, out) else (out, inp) in
  bin ← source_balance store who (input_asset s) (input_amount s);
  bout ← ok_or (ObjectStore.find_balance store who (output_asset s)) (ObjectNotFound 0);
  let iid := id (bal_meta bin) in
  let oid := id (bal_meta bout) in
  Ok (make_plan txid max_fee
        [DebitBalance iid (input_amount s); CreditBalance oid output_amount;
         SwapPoolAmounts pid delta_a delta_b]
        [SwapAsset] [rw iid; rw oid; rw pid]).

(* @src src/runtime/src/resolution/planner.rs:428-482 IntentResolver::resolve_yield_allocate *)
Definition resolve_yield_allocate (txid max_fee : Z) (who : id32) (y : YieldAllocateIntent)
    (store : ObjectStore) (caps : CapabilitySet) : outcome RuntimeError ExecutionPlan :=
  _ ← CapabilityChecker.check caps [WriteObject];
  sb ← source_balance store who (ya_asset_id y) (ya_amount y);
  let bid := id (bal_meta sb) in
  _ ← ok_or (ObjectStore.get store (target_vault_id y)) (ObjectNotFound (target_vault_id y));
  Ok (make_plan txid max_fee [LockBalance bid (ya_amount y); UpdateVersion (target_vault_id y)]
        [WriteObject] [rw bid; rw (target_vault_id y)]).

(* @src src/runtime/src/resolution/planner.rs:488-552 IntentResolver::resolve_treasury_rebalance *)
Definition resolve_treasury_rebalance (txid max_fee : Z) (who : id32)
    (r : TreasuryRebalanceIntent) (store : ObjectStore) (caps : CapabilitySet)
  : outcome RuntimeError ExecutionPlan :=
  _ ← CapabilityChecker.check caps [ModifyGovernance];
  if decide (who ∉ authorized_by r) then Err (UnauthorizedCapability ModifyGovernance caps) else
  fb ← source_balance store who (from_asset r) (tb_amount r);
  let fid := id (bal_meta fb) in
  tb ← ok_or (ObjectStore.find_balance store who (to_asset r)) (ObjectNotFound 0);
  let tid := id (bal_meta tb) in
  Ok (make_plan txid max_fee [DebitBalance fid (tb_amount r); CreditBalance tid (tb_amount r)]
        [ModifyGovernance] [rw fid; rw tid]).

(* @src src/runtime/src/resolution/planner.rs:558-629 IntentResolver::resolve_route_liquidity *)
Definition resolve_route_liquidity (txid max_fee : Z) (who : id32) (rl : RouteLiquidityIntent)
    (store : ObjectStore) (caps : CapabilitySet) : outcome RuntimeError ExecutionPlan :=
  _ ← CapabilityChecker.check caps [ProvideLiquidity; WithdrawLiquidity];
  _ ← ok_or (ObjectStore.get store (source_pool rl)) (ObjectNotFound (source_pool rl));
  _ ← ok_or (ObjectStore.get store (target_pool rl)) (ObjectNotFound (target_pool rl));
  sb ← source_balance store who (rl_asset_id rl) (rl_amount rl);
  let bid := id (bal_meta sb) in
  Ok (make_plan txid max_fee
        [DebitBalance bid (rl_amount rl); UpdateVersion (source_pool rl);
         UpdateVersion (target_pool rl); CreditBalance bid (rl_min_received rl)]
        [ProvideLiquidity; WithdrawLiquidity]
        [rw bid; rw (source_pool rl); rw (target_pool rl)]).

(* @src src/runtime/src/resolution/planner.rs:177-210 IntentResolver::resolve *)
Definition resolve `{U256} (t : IntentTransaction) (store : ObjectStore) (caps : CapabilitySet)
  : outcome RuntimeError ExecutionPlan :=
  match intent t with
  | ITransfer i => resolve_transfer (tx_id t) (max_fee t) (sender t) i store caps
  | ISwap i => resolve_swap (tx_id t) (max_fee t) (sender t) i store caps
  | IYieldAllocate i => resolve_yield_allocate (tx_id t) (max_fee t) (sender t) i store caps
  | ITreasuryRebalance i =>
      resolve_treasury_rebalance (tx_id t) (max_fee t) (sender t) i store caps
  | IRouteLiquidity i => resolve_route_liquidity (tx_id t) (max_fee t) (sender t) i store caps
  | IContractCall _ =>
      Err (ResolutionFailure "contract calls require solver market resolution")
  end.
End IntentResolver.

(** ** What an operation touches and takes *)

(** The existing object an operation writes, or whose version it moves. *)
Definition op_target (op : ObjectOperation) : id32 :=
  match op with
  | DebitBalance i _ | CreditBalance i _ | LockBalance i _ | UnlockBalance i _ => i
  | SwapPoolAmounts i _ _ | UpdateVersion i | TransferOwnership i _ => i
  | ContractStateTransition i _ _ => i
  | BindContractBalance _ i _ _ _ => i
  | CreateToken i _ _ _ _ _ | EmitContractEvent i _ _ _ _ | IBCTransfer i _ _ _ _ _ _ => i
  | ScheduleExecution i _ _ _ _ _ _ _ => i
  end.

(** What an operation takes from the available amount of balance [i]. *)
Definition op_outflow (i : id32) (op : ObjectOperation) : Z :=
  match op with
  | DebitBalance j a | LockBalance j a => if decide (j = i) then a else 0
  | _ => 0
  end.
Definition outflow (i : id32) (ops : list ObjectOperation) : Z := sumZ (op_outflow i <$> ops).

Definition covers (p : ExecutionPlan) : Prop :=
  ∀ op, op ∈ operations p → rw (op_target op) ∈ object_access p.

(** Whatever the plan takes is available in a balance of [who]. *)
Definition funded (who : id32) (st : ObjectStore) (p : ExecutionPlan) : Prop :=
  ∀ i, 0 < outflow i (operations p) → ∃ b,
    ObjectStore.get_balance_by_id st i = Some b ∧ bal_owner b = who ∧
    outflow i (operations p) ≤ BalanceObject.available b.

(** The operations the resolver uses, and those that take from a balance. *)
Definition resolver_op (op : ObjectOperation) : bool :=
  match op with
  | DebitBalance _ _ | CreditBalance _ _ | SwapPoolAmounts _ _ _ | LockBalance _ _
  | UpdateVersion _ => true
  | _ => false
  end.
Definition is_source (op : ObjectOperation) : bool :=
  match op with DebitBalance _ _ | LockBalance _ _ => true | _ => false end.

(** ** Lemmas *)

Section amm.
Context `{U256Laws}.
Implicit Types i ri ro f : Z.

Lemma amm_numerator_bound i ri ro f :
  0 ≤ i → 0 ≤ ri → 0 ≤ ro → 0 ≤ f ≤ 10000 → 0 < ri * 10000 + i * (10000 - f) →
  0 ≤ i * (10000 - f) * ro / (ri * 10000 + i * (10000 - f)) ≤ ro.
Proof.
  intros Hi Hri Hro Hf HD. set (w := i * (10000 - f)) in *. assert (0 ≤ w) by (subst w; nia).
  split; [apply Z.div_pos; nia|]. apply Z.div_le_upper_bound; nia.
Qed.

Lemma amm_product i ri ro g out :
  0 ≤ i → 0 ≤ ri → 0 ≤ ro → 0 ≤ g ≤ 10000 → 0 ≤ out →
  0 < ri * 10000 + i * g → out * (ri * 10000 + i * g) ≤ i * g * ro →
  ri * ro ≤ (ri + i) * (ro - out).
Proof.
  intros Hi Hri Hro Hg Ho HD Hout.
  assert (out * (ri + i) ≤ i * ro); [|lia].
  destruct (decide (g = 0)) as [->|Hg0].
  - assert (out * (ri * 10000) ≤ 0) by lia. assert (out = 0) by nia. subst. nia.
  - assert (g * (out * (ri + i)) ≤ g * (i * ro)); [|nia].
    assert (out * (ri * g) ≤ out * (ri * 10000)) by (apply Z.mul_le_mono_nonneg_l; nia).
    nia.
Qed.

Lemma wide_bounds i ri f :
  fits 128 i → fits 128 ri → 0 ≤ f ≤ 10000 →
  i * (10000 - f) < 2 ^ 256 ∧ ri * 10000 < 2 ^ 256 ∧ ri * 10000 + i * (10000 - f) < 2 ^ 256.
Proof.
  intros [? Hi] [? Hri] Hf.
  assert (i * (10000 - f) ≤ 2 ^ 128 * 10000) by (apply Z.mul_le_mono_nonneg; lia).
  assert (ri * 10000 ≤ 2 ^ 128 * 10000) by lia.
  assert (2 ^ 128 * 10000 + 2 ^ 128 * 10000 < 2 ^ 256) by (vm_compute; done). lia.
Qed.

Lemma amm_output_eq i ri ro f :
  fits 128 i → fits 128 ri → fits 128 ro → 0 ≤ f →
  amm_output i ri ro f =
  if decide (10000 < f ∨ 2 ^ 256 ≤ i * (10000 - f) * ro) then Panic
  else if decide (ri * 10000 + i * (10000 - f) = 0)
  then Err (ConstraintViolation "zero denominator in AMM")
  else Ok (i * (10000 - f) * ro / (ri * 10000 + i * (10000 - f))).
Proof.
  intros Hi Hri Hro Hf. unfold amm_output.
  rewrite u256_sub_spec. destruct (decide (f ≤ 10000)) as [Hf'|Hf'].
  2: { by rewrite (decide_True (P := _ ∨ _)) by lia. }
  destruct (wide_bounds i ri f Hi Hri ltac:(lia)) as (H1 & H2 & H3). cbn [expect mbind outcome_bind].
  rewrite (u256_mul_spec i), decide_True by done. cbn [expect mbind outcome_bind].
  rewrite (u256_mul_spec (i * _)).
  destruct (decide (i * (10000 - f) * ro < 2 ^ 256)) as [Hn|Hn].
  2: { by rewrite (decide_True (P := _ ∨ _)) by lia. }
  rewrite (decide_False (P := _ ∨ _)) by lia. cbn [expect mbind outcome_bind].
  rewrite (u256_mul_spec ri), decide_True by done. cbn [expect mbind outcome_bind].
  rewrite u256_add_spec, decide_True by done. cbn [expect mbind outcome_bind].
  destruct (decide (ri * 10000 + i * (10000 - f) = 0)) as [|HD]; [done|].
  rewrite u256_div_spec, decide_False by done. cbn [expect mbind outcome_bind].
  rewrite decide_False; [done|].
  destruct Hi, Hri, Hro. assert (0 ≤ i * (10000 - f)) by nia.
  pose proof (amm_numerator_bound i ri ro f ltac:(lia) ltac:(lia) ltac:(lia) ltac:(lia) ltac:(lia)).
  unfold umax. lia.
Qed.
End amm.

Lemma find_balance_sound st o a b :
  store_inv st → ObjectStore.find_balance st o a = Some b →
  ObjectStore.get_balance_by_id st (id (bal_meta b)) = Some b ∧
  bal_owner b = o ∧ bal_asset_id b = a.
Proof.
  intros Hinv E. pose proof (ledger_get_key (S := ObjectStore) _ _ _ _ E).
  apply fmap_Some in E as ([k b'] & Hf & ->).
  apply btree_find_some in Hf as (Hk & _). destruct (inv_balances _ Hinv) as [Hb _].
  destruct (Hb _ _ Hk) as [Hid _]. cbn in *. split; [|done].
  unfold ObjectStore.get_balance_by_id. by rewrite Hid.
Qed.

Lemma source_balance_ok st o a amt b :
  source_balance st o a amt = Ok b ↔
  ObjectStore.find_balance st o a = Some b ∧ amt ≤ BalanceObject.available b.
Proof.
  unfold source_balance. rewrite obind_ok. split.
  - intros (b' & E & E'). destruct (ObjectStore.find_balance st o a); [|done].
    cbn in E. injection E as ->. case_decide; [done|]. injection E' as ->. split; [done|lia].
  - intros [E Hle]. exists b. rewrite E. split; [done|]. by rewrite decide_False by lia.
Qed.

(** A plan with one source satisfies the resolver's promise. *)
Lemma one_source_funded who st p b amt :
  store_inv st → bal_owner b = who →
  ObjectStore.get_balance_by_id st (id (bal_meta b)) = Some b →
  amt ≤ BalanceObject.available b →
  (∀ i, outflow i (operations p) = if decide (id (bal_meta b) = i) then amt else 0) →
  funded who st p.
Proof.
  intros Hinv Ho Hb Hle Hout i. rewrite Hout. case_decide as E; [|lia]. intros _.
  subst i. by exists b.
Qed.

Ltac covers_tac := intros ? Hop; cbn in *;
  repeat (apply elem_of_cons in Hop as [->|Hop]; [cbn; set_solver|]);
  by apply elem_of_nil in Hop.

(** What every resolver guarantees. *)
Record resolved_well (t : IntentTransaction) (st : ObjectStore) (caps : CapabilitySet)
    (p : ExecutionPlan) : Prop := {
  res_tx_id : plan_tx_id p = tx_id t;
  res_limit : gas_limit p = sat_mul 64 (max_fee t) 1000;
  res_gas : gas_estimate p = estimate_gas (operations p) default_costs;
  res_kinds : forallb resolver_op (operations p) = true;
  res_one : length (List.filter is_source (operations p)) = 1%nat;
  res_caps : ∀ c, c ∈ required_capabilities p → c ∈ caps;
  res_covers : covers p;
  res_funded : funded (sender t) st p }.

Lemma outflow_split i op ops : outflow i (op :: ops) = op_outflow i op + outflow i ops.
Proof. done. Qed.

Ltac resolved_tac Hinv Hcap Hsb :=
  pose proof (proj1 (check_ok _ _) Hcap) as Hheld; apply source_balance_ok in Hsb as [Hsb Hle];
  apply (find_balance_sound _ _ _ _ Hinv) in Hsb as (Hsb & Ho & _);
  split; cbn; [done..|exact Hheld|covers_tac|];
  refine (one_source_funded _ _ _ _ _ Hinv Ho Hsb Hle _);
  intros k; cbn [operations make_plan]; rewrite !outflow_split; cbn [op_outflow];
  unfold outflow; cbn; repeat case_decide; lia.

Section resolvers.
Context (st : ObjectStore) (Hinv : store_inv st).
Implicit Types (t : IntentTransaction) (caps : CapabilitySet) (p : ExecutionPlan).

Lemma resolve_transfer_well t i caps p :
  IntentResolver.resolve_transfer (tx_id t) (max_fee t) (sender t) i st caps = Ok p →
  resolved_well t st caps p.
Proof.
  unfold IntentResolver.resolve_transfer. intros E.
  apply obind_ok in E as ([] & Hcap & E). apply obind_ok in E as (b & Hsb & E).
  apply obind_ok in E as (rb & _ & E). injection E as <-. resolved_tac Hinv Hcap Hsb.
Qed.

Lemma resolve_swap_well `{U256} t i caps p :
  IntentResolver.resolve_swap (tx_id t) (max_fee t) (sender t) i st caps = Ok p →
  resolved_well t st caps p.
Proof.
  unfold IntentResolver.resolve_swap. intros E.
  apply obind_ok in E as ([] & Hcap & E). apply obind_ok in E as (pool & _ & E).
  destruct (if bool_decide _ then _ else _) as [ri ro].
  apply obind_ok in E as (out & _ & E). case_decide; [done|].
  apply obind_ok in E as ([] & _ & E). destruct (if bool_decide _ then _ else _) as [da db].
  apply obind_ok in E as (b & Hsb & E).
  apply obind_ok in E as (rb & _ & E). injection E as <-. resolved_tac Hinv Hcap Hsb.
Qed.

Lemma resolve_yield_well t i caps p :
  IntentResolver.resolve_yield_allocate (tx_id t) (max_fee t) (sender t) i st caps = Ok p →
  resolved_well t st caps p.
Proof.
  unfold IntentResolver.resolve_yield_allocate. intros E.
  apply obind_ok in E as ([] & Hcap & E). apply obind_ok in E as (b & Hsb & E).
  apply obind_ok in E as (v & _ & E). injection E as <-. resolved_tac Hinv Hcap Hsb.
Qed.

Lemma resolve_treasury_well t i caps p :
  IntentResolver.resolve_treasury_rebalance (tx_id t) (max_fee t) (sender t) i st caps = Ok p →
  resolved_well t st caps p.
Proof.
  unfold IntentResolver.resolve_treasury_rebalance. intros E.
  apply obind_ok in E as ([] & Hcap & E). case_decide; [done|].
  apply obind_ok in E as (b & Hsb & E). apply obind_ok in E as (tb & _ & E).
  injection E as <-. resolved_tac Hinv Hcap Hsb.
Qed.

Lemma resolve_route_well t i caps p :
  IntentResolver.resolve_route_liquidity (tx_id t) (max_fee t) (sender t) i st caps = Ok p →
  resolved_well t st caps p.
Proof.
  unfold IntentResolver.resolve_route_liquidity. intros E.
  apply obind_ok in E as ([] & Hcap & E). apply obind_ok in E as (sp & _ & E).
  apply obind_ok in E as (tp & _ & E). apply obind_ok in E as (b & Hsb & E).
  injection E as <-. resolved_tac Hinv Hcap Hsb.
Qed.
End resolvers.

Lemma resolve_well `{U256} t st caps p :
  store_inv st → IntentResolver.resolve t st caps = Ok p → resolved_well t st caps p.
Proof.
  intros Hinv. unfold IntentResolver.resolve. destruct (intent t).
  - by apply resolve_transfer_well.
  - by apply resolve_swap_well.
  - by apply resolve_yield_well.
  - by apply resolve_treasury_well.
  - by apply resolve_route_well.
  - done.
Qed.

(** ** Properties *)

(** C12: What the resolver promises to the scheduler and the settlement engine:
    a plan carries the transaction's id and gas terms, asks only for
    capabilities the caller holds, declares read-write access to every object
    its operations write, and takes once, from a balance owned by the sender
    that has it available. *)
Theorem resolve_sound `{U256} (t : IntentTransaction) (st : ObjectStore) (caps : CapabilitySet)
    (p : ExecutionPlan) :
  store_inv st → IntentResolver.resolve t st caps = Ok p → resolved_well t st caps p.
Proof. apply resolve_well. Qed.

Lemma resolve_sound_witness :
  ∃ p, @IntentResolver.resolve sample_u256 (sample_intent sample_transfer 0) sample_store
         CapabilitySet.user_default = Ok p ∧
       operations p = [DebitBalance 10 100; CreditBalance 11 100] ∧ covers p.
Proof.
  destruct (@IntentResolver.resolve sample_u256 (sample_intent sample_transfer 0) sample_store
         CapabilitySet.user_default) as [p| |] eqn:E; [|discriminate E..].
  exists p. split; [reflexivity|]. split; [vm_compute in E; injection E as <-; reflexivity|].
  apply (@resolve_sound sample_u256 (sample_intent sample_transfer 0) sample_store
    CapabilitySet.user_default p sample_store_inv E).
Defined.

(** C27: The constant-product output.  Where the intermediate products fit 256
    bits and the fee is at most 100%, the result never exceeds the output
    reserve, never drains a pool with a positive input reserve, and the product
    of the reserves does not decrease. *)
Theorem amm_output_safe `{U256Laws} (i ri ro f : Z) :
  fits 128 i → fits 128 ri → fits 128 ro → 0 ≤ f ≤ 10000 →
  i * (10000 - f) * ro < 2 ^ 256 → 0 < ri * 10000 + i * (10000 - f) →
  ∃ out, amm_output i ri ro f = Ok out ∧ 0 ≤ out ≤ ro ∧
    (0 < ri → 0 < ro → out < ro) ∧ ri * ro ≤ (ri + i) * (ro - out).
Proof.
  intros Hi Hri Hro Hf Hn HD. rewrite amm_output_eq by (done || lia).
  rewrite !decide_False by lia. destruct Hi, Hri, Hro.
  set (w := i * (10000 - f)) in *. set (D := ri * 10000 + w) in *.
  assert (0 ≤ w) by (subst w; nia).
  pose proof (amm_numerator_bound i ri ro f ltac:(lia) ltac:(lia) ltac:(lia) ltac:(lia) HD) as Hb.
  fold w D in Hb. pose proof (Z.mul_div_le (w * ro) D HD) as Hle.
  exists (w * ro / D). split_and!; [done|lia|lia| |].
  - intros. apply Z.div_lt_upper_bound; [lia|]. subst D. nia.
  - apply (amm_product i ri ro (10000 - f)); fold w; fold D; lia.
Qed.

Lemma amm_output_safe_witness :
  ∃ out, @amm_output sample_u256 1000 100000 200000 30 = Ok out ∧
    100000 * 200000 ≤ (100000 + 1000) * (200000 - out).
Proof.
  destruct (@amm_output_safe sample_u256 sample_u256_laws 1000 100000 200000 30)
    as (out & ? & ? & ? & ?); [by_eval..|]. exists out. split; assumption.
Defined.

(** The helper described as preventing overflow stops the program instead
    of returning its error: with a pool fee above 100%, or when the triple
    product passes 256 bits, the 256-bit arithmetic panics. *)
Theorem amm_output_panics `{U256Laws} (i ri ro f : Z) :
  fits 128 i → fits 128 ri → fits 128 ro → 0 ≤ f →
  (amm_output i ri ro f = Panic ↔ 10000 < f ∨ 2 ^ 256 ≤ i * (10000 - f) * ro).
Proof.
  intros Hi Hri Hro Hf. rewrite amm_output_eq by done.
  destruct (decide (10000 < f ∨ 2 ^ 256 ≤ i * (10000 - f) * ro)); [done|].
  split; [|done]. by case_decide.
Qed.

Lemma amm_output_panics_witness :
  @amm_output sample_u256 u128_max 1000 (2 ^ 120) 30 = Panic ∧
  @amm_output sample_u256 5 1000 1000 10001 = Panic.
Proof.
  split; apply (@amm_output_panics sample_u256 sample_u256_laws);
    first [by_eval | right; by_eval | left; by_eval].
Defined.

(** A swap's pool list does not choose the pool: as soon as one listed pool
    trades the pair, the resolver uses whichever pool of the pair the store
    finds first, listed or not, and the plan is that of the same swap without a
    list. *)
Theorem swap_list_ignored `{U256} (txid fee : Z) (who : id32) (s : SwapIntent)
    (st : ObjectStore) (caps : CapabilitySet) (ids : list id32) (pid : id32)
    (pool : LiquidityPoolObject) :
  allowed_pool_ids s = Some ids → pid ∈ ids →
  ObjectStore.get_pool_by_id st pid = Some pool →
  ObjectStore.has_pair (input_asset s) (output_asset s) pool = true →
  IntentResolver.resolve_swap txid fee who s st caps =
  IntentResolver.resolve_swap txid fee who
    (mkSwap (input_asset s) (output_asset s) (input_amount s) (min_output_amount s)
       (sw_max_slippage_bps s) None) st caps.
Proof.
  intros Hs Hin Hp Hpair.
  assert (IntentResolver.select_pool s st =
    ObjectStore.find_pool st (input_asset s) (output_asset s)) as Hsel.
  { unfold IntentResolver.select_pool. rewrite Hs.
    destruct (ObjectStore.find_pool st (input_asset s) (output_asset s)) as [fp|] eqn:Ef.
    2: { unfold ObjectStore.find_pool in Ef. apply fmap_None in Ef.
         rewrite btree_find_none in Ef. rewrite (Ef _ _ Hp) in Hpair. done. }
    clear Hs. induction ids as [|i ids IH]; [by apply elem_of_nil in Hin|]. cbn.
    destruct (ObjectStore.get_pool_by_id st i) as [q|] eqn:Eq; cbn.
    - destruct (ObjectStore.has_pair _ _ q) eqn:Hq; [done|].
      apply elem_of_cons in Hin as [->|Hin]; [congruence|by apply IH].
    - apply elem_of_cons in Hin as [->|Hin]; [congruence|by apply IH]. }
  unfold IntentResolver.resolve_swap. by rewrite Hsel.
Qed.

Definition two_pools : ObjectStore :=
  inserted (OPool (LiquidityPoolObject.new 21 bob 5 6 70000 70000 30 98 0)) sample_store.
Definition listed_swap : SwapIntent := mkSwap 5 6 100 1 10000 (Some [21]).

Lemma swap_list_ignored_witness :
  @IntentResolver.resolve_swap sample_u256 1 1 alice listed_swap two_pools
    CapabilitySet.user_default =
  Ok (make_plan 1 1 [DebitBalance 10 100; CreditBalance 12 199; SwapPoolAmounts 20 100 (-199)]
        [SwapAsset] [rw 10; rw 12; rw 20]).
Proof.
  rewrite (@swap_list_ignored sample_u256 1 1 alice listed_swap two_pools
    CapabilitySet.user_default [21] 21 (LiquidityPoolObject.new 21 bob 5 6 70000 70000 30 98 0));
    [vm_compute; reflexivity|reflexivity|left|reflexivity|reflexivity].
Defined.
