(* ===== verification/Scheduler.v ===== *)
(** * The parallel scheduler

    The conflict graph and the greedy grouping of plans of
    src/runtime/src/scheduler/parallel.rs.  Indexing a vector or a map out of
    range is a panic, and the scheduler is shown not to panic. *)

From stdpp Require Import gmap strings list.
From S2P Require Import Prelude Errors Gas Objects Planner.

(* @src src/runtime/src/scheduler/parallel.rs:5-9 ConflictGraph *)
Record ConflictGraph : Type := mkGraph { adjacency : gmap Z (gset Z) }.

Module ConflictGraph.
(* @src src/runtime/src/scheduler/parallel.rs:12-16 ConflictGraph::new *)
Definition new : ConflictGraph := mkGraph ∅.

(** [entry(a).or_default().insert(b)] *)
Definition add_arc (a b : id32) (m : gmap Z (gset Z)) : gmap Z (gset Z) :=
  <[a := {[b]} ∪ default ∅ (m !! a)]> m.

(* @src src/runtime/src/scheduler/parallel.rs:18-21 ConflictGraph::add_conflict *)
Definition add_conflict (a b : id32) (g : ConflictGraph) : ConflictGraph :=
  mkGraph (add_arc b a (add_arc a b (adjacency g))).

(* @src src/runtime/src/scheduler/parallel.rs:23-27 ConflictGraph::conflicts_with *)
Definition conflicts_with (g : ConflictGraph) (tx other : id32) : bool :=
  match adjacency g !! tx with
  | Some s => bool_decide (other ∈ s)
  | None => false
  end.
End ConflictGraph.

(* @src src/runtime/src/scheduler/parallel.rs:30-36 ExecutionGroup *)
Record ExecutionGroup : Type := mkGroup {
  plans : list ExecutionPlan;
  group_index : nat }.

Fixpoint ofold {A B} (f : A → B → total_or_panic B) (l : list A) (b : B) : total_or_panic B :=
  match l with
  | [] => Ok b
  | a :: l => b' ← f a b; ofold f l b'
  end.

Module ParallelScheduler.
(** An access of the plan at index [idx]. *)
Abbreviation plan_ref := (nat * AccessMode)%type.

(** The accesses of all plans, in the order of the two loops. *)
Definition all_accesses (ps : list ExecutionPlan) : list (nat * ObjectAccess) :=
  concat (imap (λ idx p, (λ a, (idx, a)) <$> object_access p) ps).

Definition push_ref (m : gmap Z (list plan_ref)) (r : nat * ObjectAccess) : gmap Z (list plan_ref) :=
  let o := object_id r.2 in <[o := default [] (m !! o) ++ [(r.1, mode r.2)]]> m.

(* @src src/runtime/src/scheduler/parallel.rs:54-60 ParallelScheduler::schedule *)
Definition object_plans (ps : list ExecutionPlan) : gmap Z (list plan_ref) :=
  foldl push_ref ∅ (all_accesses ps).

(** The pairs at positions [i < j]. *)
Fixpoint pairs {A} (l : list A) : list (A * A) :=
  match l with
  | [] => []
  | a :: l => ((λ b, (a, b)) <$> l) ++ pairs l
  end.

(* @src src/runtime/src/scheduler/parallel.rs:62-76 ParallelScheduler::schedule *)
Definition add_edge (ps : list ExecutionPlan) (r : plan_ref * plan_ref) (g : ConflictGraph)
  : total_or_panic ConflictGraph :=
  let '((pi, mode_i), (pj, mode_j)) := r in
  if decide (mode_i = ReadWrite ∨ mode_j = ReadWrite) then
    a ← expect (ps !! pi);
    b ← expect (ps !! pj);
    Ok (ConflictGraph.add_conflict (plan_tx_id a) (plan_tx_id b) g)
  else Ok g.

(* @src src/runtime/src/scheduler/parallel.rs:49-76 ParallelScheduler::schedule *)
Definition build_graph (ps : list ExecutionPlan) : total_or_panic ConflictGraph :=
  ofold (λ refs g,
    if decide (length refs < 2)%nat then Ok g else ofold (add_edge ps) (pairs refs) g)
    (btree_values (object_plans ps)) ConflictGraph.new.

(** The first group without a conflict, or a new one; [idx] counts the groups
    passed over. *)
(* @src src/runtime/src/scheduler/parallel.rs:88-108 ParallelScheduler::schedule *)
Fixpoint place (g : ConflictGraph) (tx : id32) (groups : list (list id32)) (idx : nat)
  : list (list id32) * nat :=
  match groups with
  | [] => ([[tx]], idx)
  | members :: groups =>
      if existsb (ConflictGraph.conflicts_with g tx) members then
        let '(groups, i) := place g tx groups (S idx) in (members :: groups, i)
      else ((members ++ [tx]) :: groups, idx)
  end.

Definition assign_one (g : ConflictGraph) (s : list (list id32) * gmap Z nat)
    (p : ExecutionPlan) : list (list id32) * gmap Z nat :=
  let '(groups, i) := place g (plan_tx_id p) s.1 0 in (groups, <[plan_tx_id p := i]> s.2).

(* @src src/runtime/src/scheduler/parallel.rs:78-108 ParallelScheduler::schedule *)
Definition assign (g : ConflictGraph) (ps : list ExecutionPlan)
  : list (list id32) * gmap Z nat := foldl (assign_one g) ([], ∅) ps.

(* @src src/runtime/src/scheduler/parallel.rs:110-117 ParallelScheduler::schedule *)
Definition assemble (num : nat) (plan_to_group : gmap Z nat) (ps : list ExecutionPlan)
  : total_or_panic (list (list ExecutionPlan)) :=
  ofold (λ p groups,
    i ← expect (plan_to_group !! plan_tx_id p);
    grp ← expect (groups !! i);
    Ok (<[i := grp ++ [p]]> groups)) ps (replicate num []).

(* @src src/runtime/src/scheduler/parallel.rs:44-122 ParallelScheduler::schedule *)
Definition schedule (ps : list ExecutionPlan) : total_or_panic (list ExecutionGroup) :=
  if decide (ps = []) then Ok [] else
  graph ← build_graph ps;
  let '(assignments, plan_to_group) := assign graph ps in
  groups ← assemble (length assignments) plan_to_group ps;
  Ok (imap (λ i g, mkGroup g i) groups).

Definition ids_of (m : AccessMode) (p : ExecutionPlan) : gset Z :=
  list_to_set (object_id <$> filter (λ a, mode a = m) (object_access p)).

(* @src src/runtime/src/scheduler/parallel.rs:132-167 ParallelScheduler::conflicts *)
Definition conflicts (a b : ExecutionPlan) : bool :=
  let a_writes := ids_of ReadWrite a in
  let b_writes := ids_of ReadWrite b in
  let a_reads := ids_of ReadOnly a in
  let b_reads := ids_of ReadOnly b in
  let ww := bool_decide (a_writes ∩ b_writes ≠ ∅) in
  let wr := bool_decide (a_writes ∩ b_reads ≠ ∅) in
  let rw := bool_decide (b_writes ∩ a_reads ≠ ∅) in
  ww || wr || rw.
End ParallelScheduler.
Import ParallelScheduler.

(** ** Lemmas *)

(** Two plans touch a common object, one of them to write it. *)
Definition interfere (a b : ExecutionPlan) : Prop :=
  ∃ x y, x ∈ object_access a ∧ y ∈ object_access b ∧ object_id x = object_id y ∧
    (mode x = ReadWrite ∨ mode y = ReadWrite).

Lemma elem_of_ids_of m p o :
  o ∈ ids_of m p ↔ ∃ x, x ∈ object_access p ∧ object_id x = o ∧ mode x = m.
Proof.
  unfold ids_of. rewrite elem_of_list_to_set, list_elem_of_fmap.
  setoid_rewrite list_elem_of_filter. naive_solver.
Qed.

Lemma conflicts_true a b : conflicts a b = true ↔ interfere a b.
Proof.
  assert (∀ (X Y : gset Z), X ∩ Y ≠ ∅ ↔ ∃ o, o ∈ X ∧ o ∈ Y) as Hint.
  { intros X Y. split.
    - intros [o Ho]%set_choose_L. exists o. set_solver.
    - intros (o & ? & ?) E. set_solver. }
  unfold conflicts. rewrite !orb_true_iff, !bool_decide_eq_true, !Hint.
  setoid_rewrite elem_of_ids_of. split.
  - intros [[(o & (x & ? & ? & ?) & (y & ? & ? & ?))|(o & (x & ? & ? & ?) & (y & ? & ? & ?))]|
      (o & (x & ? & ? & ?) & (y & ? & ? & ?))]; subst o.
    + exists x, y. split_and!; auto.
    + exists x, y. split_and!; auto.
    + exists y, x. split_and!; auto.
  - intros (x & y & Hx & Hy & E & Hm).
    destruct (mode x) eqn:Ex, (mode y) eqn:Ey.
    + destruct Hm; done.
    + right. exists (object_id y). split; [by exists y|by exists x].
    + left; right. exists (object_id x). split; [by exists x|by exists y].
    + left; left. exists (object_id x). split; [by exists x|by exists y].
Qed.

Lemma conflicts_with_new a b : ConflictGraph.conflicts_with ConflictGraph.new a b = false.
Proof. done. Qed.

Lemma conflicts_with_arcs g a b :
  ConflictGraph.conflicts_with g a b = true ↔ b ∈ default ∅ (adjacency g !! a).
Proof.
  unfold ConflictGraph.conflicts_with.
  destruct (adjacency g !! a); cbn; [apply bool_decide_eq_true|set_solver].
Qed.

Lemma add_arc_spec a b m x y :
  y ∈ default ∅ (ConflictGraph.add_arc a b m !! x) ↔
  (x = a ∧ y = b) ∨ y ∈ default (∅ : gset Z) (m !! x).
Proof.
  unfold ConflictGraph.add_arc. rewrite lookup_insert. case_decide; subst; set_solver.
Qed.

Lemma add_conflict_spec a b g x y :
  ConflictGraph.conflicts_with (ConflictGraph.add_conflict a b g) x y = true ↔
  (x = a ∧ y = b) ∨ (x = b ∧ y = a) ∨ ConflictGraph.conflicts_with g x y = true.
Proof.
  rewrite !conflicts_with_arcs. unfold ConflictGraph.add_conflict; cbn.
  rewrite !add_arc_spec. tauto.
Qed.

(** A fold whose steps succeed adds up what each step adds. *)
Lemma ofold_collect {A B} (f : A → B → total_or_panic B) (Q : B → Prop) (R : A → Prop) l :
  (∀ a b, a ∈ l → ∃ b', f a b = Ok b' ∧ (Q b' ↔ R a ∨ Q b)) →
  ∀ b, ∃ b', ofold f l b = Ok b' ∧ (Q b' ↔ (∃ a, a ∈ l ∧ R a) ∨ Q b).
Proof.
  induction l as [|a l IH]; intros Hf b; cbn.
  { exists b. split; [done|]. split; [by right|]. intros [(a & Ha & _)|]; [|done].
    by apply elem_of_nil in Ha. }
  destruct (Hf a b ltac:(left)) as (b1 & -> & H1). cbn.
  destruct (IH ltac:(intros; apply Hf; by right) b1) as (b' & -> & H2).
  exists b'. split; [done|]. rewrite H2, H1. setoid_rewrite elem_of_cons. naive_solver.
Qed.

Lemma elem_of_pairs {A} (l : list A) a b : (a, b) ∈ pairs l → a ∈ l ∧ b ∈ l.
Proof.
  induction l as [|c l IH]; cbn; [by intros ?%elem_of_nil|].
  rewrite elem_of_app, list_elem_of_fmap, !elem_of_cons. naive_solver.
Qed.

Lemma pairs_complete {A} (l : list A) a b :
  a ∈ l → b ∈ l → a ≠ b → (a, b) ∈ pairs l ∨ (b, a) ∈ pairs l.
Proof.
  induction l as [|c l IH]; cbn; [by intros ?%elem_of_nil|].
  rewrite !elem_of_cons, !elem_of_app, !list_elem_of_fmap.
  intros [->|Ha] [->|Hb] Hne; [done|left; left; eauto|right; left; eauto|].
  destruct (IH Ha Hb Hne); auto.
Qed.

Lemma elem_of_concat_imap {A B} (f : nat → A → list B) (l : list A) b :
  b ∈ concat (imap f l) ↔ ∃ i a, l !! i = Some a ∧ b ∈ f i a.
Proof.
  rewrite list_elem_of_In, in_concat. setoid_rewrite <- list_elem_of_In.
  setoid_rewrite elem_of_lookup_imap. split.
  - intros (? & (i & a & -> & Hi) & Hb). by exists i, a.
  - intros (i & a & Hi & Hb). exists (f i a). split; [by exists i, a|done].
Qed.

Lemma elem_of_all_accesses ps i a :
  (i, a) ∈ all_accesses ps ↔ ∃ p, ps !! i = Some p ∧ a ∈ object_access p.
Proof.
  unfold all_accesses. rewrite elem_of_concat_imap. setoid_rewrite list_elem_of_fmap.
  naive_solver.
Qed.

Lemma push_refs_spec l m o i md :
  (i, md) ∈ default [] (foldl push_ref m l !! o) ↔
  (i, mkAccess o md) ∈ l ∨ (i, md) ∈ default [] (m !! o).
Proof.
  revert m. induction l as [|[j [o' md']] l IH]; intros m; cbn.
  { split; [by right|]. by intros [?%elem_of_nil|]. }
  rewrite IH, elem_of_cons. unfold push_ref; cbn. rewrite lookup_insert. case_decide as E.
  - subst. cbn. rewrite elem_of_app, list_elem_of_singleton. naive_solver.
  - naive_solver.
Qed.

Lemma elem_of_object_plans ps o i md :
  (i, md) ∈ default [] (object_plans ps !! o) ↔
  ∃ p, ps !! i = Some p ∧ mkAccess o md ∈ object_access p.
Proof.
  unfold object_plans. rewrite push_refs_spec, lookup_empty, elem_of_all_accesses.
  split; [by intros [|?%elem_of_nil]|by left].
Qed.

(** The edge added for a pair of references joins the ids of its plans. *)
Definition joins (ps : list ExecutionPlan) (x y : id32) (r : plan_ref * plan_ref) : Prop :=
  (r.1.2 = ReadWrite ∨ r.2.2 = ReadWrite) ∧
  ∃ p q, ps !! r.1.1 = Some p ∧ ps !! r.2.1 = Some q ∧
    ((x = plan_tx_id p ∧ y = plan_tx_id q) ∨ (x = plan_tx_id q ∧ y = plan_tx_id p)).

Lemma add_edge_spec ps r g x y :
  is_Some (ps !! r.1.1) → is_Some (ps !! r.2.1) →
  ∃ g', add_edge ps r g = Ok g' ∧
    (ConflictGraph.conflicts_with g' x y = true ↔
     joins ps x y r ∨ ConflictGraph.conflicts_with g x y = true).
Proof.
  destruct r as [[pi mi] [pj mj]]; cbn. intros [p Hp] [q Hq]. unfold add_edge, joins; cbn.
  case_decide; [|naive_solver]. rewrite Hp, Hq; cbn. eexists. split; [done|].
  rewrite add_conflict_spec. naive_solver.
Qed.

Lemma build_graph_edges ps x y :
  ∃ g, build_graph ps = Ok g ∧
    (ConflictGraph.conflicts_with g x y = true ↔
     ∃ o r, r ∈ pairs (default [] (object_plans ps !! o)) ∧ joins ps x y r).
Proof.
  set (R refs := ∃ r, r ∈ pairs refs ∧ joins ps x y r).
  destruct (ofold_collect (λ refs g,
    if decide (length refs < 2)%nat then Ok g else ofold (add_edge ps) (pairs refs) g)
    (λ g, ConflictGraph.conflicts_with g x y = true) R
    (btree_values (object_plans ps))) with (b := ConflictGraph.new) as (g & Hg & E).
  { intros refs g Hrefs. apply elem_of_btree_values in Hrefs as [o Ho].
    case_decide as Hlen.
    - exists g. split; [done|]. split; [by right|]. intros [(r & Hr & _)|]; [|done].
      destruct refs as [|? [|? ?]]; cbn in *; try lia; by apply elem_of_nil in Hr.
    - apply (ofold_collect (add_edge ps) (λ g, ConflictGraph.conflicts_with g x y = true)
        (joins ps x y)). intros r g' Hr. apply add_edge_spec.
      all: destruct r as [[i mi] [j mj]]; apply elem_of_pairs in Hr as [Hi Hj]; cbn.
      + destruct (proj1 (elem_of_object_plans ps o i mi)) as (p & ? & _);
          [by rewrite Ho|by exists p].
      + destruct (proj1 (elem_of_object_plans ps o j mj)) as (p & ? & _);
          [by rewrite Ho|by exists p]. }
  exists g. split; [exact Hg|]. rewrite E, conflicts_with_new. subst R. cbn. split.
  - intros [(refs & Hrefs & r & Hr & Hj)|]; [|done].
    apply elem_of_btree_values in Hrefs as [o Ho]. exists o, r. by rewrite Ho.
  - intros (o & r & Hr & Hj). left. destruct (object_plans ps !! o) as [refs|] eqn:Ho.
    + exists refs. split; [apply elem_of_btree_values; by exists o|by exists r].
    + by apply elem_of_nil in Hr.
Qed.

Lemma interfere_sym p q : interfere p q → interfere q p.
Proof. intros (x & y & ? & ? & ? & ?). exists y, x. split_and!; [done..|tauto]. Qed.

(** The graph has exactly the interferences of plans at distinct positions (and
    self-loops of plans that name an object twice). *)
Lemma build_graph_spec ps :
  ∃ g, build_graph ps = Ok g ∧
    (∀ i j p q, i ≠ j → ps !! i = Some p → ps !! j = Some q → interfere p q →
       ConflictGraph.conflicts_with g (plan_tx_id p) (plan_tx_id q) = true) ∧
    (∀ x y, ConflictGraph.conflicts_with g x y = true →
       ConflictGraph.conflicts_with g y x = true ∧
       ∃ p q, p ∈ ps ∧ q ∈ ps ∧ x = plan_tx_id p ∧ y = plan_tx_id q ∧ interfere p q).
Proof.
  destruct (build_graph_edges ps 0 0) as (g & Hg & _). exists g. split; [done|].
  assert (∀ x y, ConflictGraph.conflicts_with g x y = true ↔
     ∃ o r, r ∈ pairs (default [] (object_plans ps !! o)) ∧ joins ps x y r) as He.
  { intros x y. destruct (build_graph_edges ps x y) as (g' & Hg' & E). congruence. }
  split.
  - intros i j p q Hij Hp Hq ([o mx] & [o' my] & Hx & Hy & Heq & Hm). cbn in Heq, Hm. subst o'.
    apply He. exists o.
    assert ((i, mx) ∈ default [] (object_plans ps !! o)) as Hi
      by (apply elem_of_object_plans; eauto).
    assert ((j, my) ∈ default [] (object_plans ps !! o)) as Hj
      by (apply elem_of_object_plans; eauto).
    destruct (pairs_complete _ _ _ Hi Hj ltac:(congruence)) as [Hr|Hr];
      eexists; (split; [exact Hr|]); split; cbn; [tauto| |tauto|];
      [exists p, q|exists q, p]; tauto.
  - intros x y (o & [[i mi] [j mj]] & Hr & Hm & p & q & Hp & Hq & Hxy)%He.
    split. { apply He. exists o. eexists. split; [exact Hr|]. split; [done|].
      exists p, q. tauto. }
    cbn in *.
    apply elem_of_pairs in Hr as [Hi Hj].
    apply elem_of_object_plans in Hi as (p' & Hp' & Hx).
    apply elem_of_object_plans in Hj as (q' & Hq' & Hy).
    assert (p' = p) as -> by congruence. assert (q' = q) as -> by congruence.
    assert (interfere p q) by (eexists _, _; split_and!; [exact Hx|exact Hy|done|done]).
    pose proof (list_elem_of_lookup_2 _ _ _ Hp). pose proof (list_elem_of_lookup_2 _ _ _ Hq).
    destruct Hxy as [[-> ->]|[-> ->]]; [exists p, q|exists q, p];
      split_and!; try done. by apply interfere_sym.
Qed.

(** Where [place] puts a transaction. *)
Lemma place_spec g tx groups idx groups' i :
  place g tx groups idx = (groups', i) →
  ∃ k, i = (idx + k)%nat ∧ (k ≤ length groups)%nat ∧
    length groups' = Nat.max (length groups) (S k) ∧
    groups' !! k = Some (default [] (groups !! k) ++ [tx]) ∧
    (∀ j, j ≠ k → groups' !! j = groups !! j) ∧
    (∀ y, y ∈ default [] (groups !! k) → ConflictGraph.conflicts_with g tx y = false) ∧
    (∀ j, (j < k)%nat → ∃ members y, groups !! j = Some members ∧ y ∈ members ∧
       ConflictGraph.conflicts_with g tx y = true).
Proof.
  revert idx groups' i. induction groups as [|members groups IH]; intros idx groups' i; cbn.
  - intros [= <- <-]. exists 0%nat. split_and!; try done; try (cbn [length]; lia).
    + intros [|j] ?; [done|]. by rewrite lookup_nil.
    + intros y ?%elem_of_nil. done.
  - destruct (existsb _ members) eqn:Ex.
    + destruct (place g tx groups (S idx)) as [gs i0] eqn:E. intros [= <- <-].
      destruct (IH _ _ _ E) as (k & -> & Hk & Hlen & Hat & Hne & Hno & Hlow).
      exists (S k). split_and!; [lia|cbn [length]; lia|cbn [length]; lia|done| |done|].
      * intros [|j] ?; [done|]. apply Hne. lia.
      * intros [|j] ?; [|apply Hlow; lia].
        apply existsb_exists in Ex as (y & Hy & ?). apply list_elem_of_In in Hy.
        by exists members, y.
    + intros [= <- <-]. exists 0%nat. split_and!; try done; try (cbn [length]; lia).
      * by intros [|j].
      * intros y Hy. apply list_elem_of_In in Hy. apply not_true_is_false. intros Hc.
        assert (existsb (ConflictGraph.conflicts_with g tx) members = true); [|congruence].
        apply existsb_exists. by exists y.
Qed.

(** The state of the grouping after the plans [done]. *)
Record assigned (g : ConflictGraph) (handled : list ExecutionPlan)
    (s : list (list id32) * gmap Z nat) : Prop := {
  asg_dom : ∀ tx, is_Some (s.2 !! tx) ↔ tx ∈ plan_tx_id <$> handled;
  asg_members : ∀ k members tx, s.1 !! k = Some members → (tx ∈ members ↔ s.2 !! tx = Some k);
  asg_range : ∀ tx k, s.2 !! tx = Some k → (k < length s.1)%nat;
  asg_free : ∀ k members a b, s.1 !! k = Some members → a ∈ members → b ∈ members → a ≠ b →
    ConflictGraph.conflicts_with g a b = false;
  asg_first : ∀ tx k j, s.2 !! tx = Some k → (j < k)%nat →
    ∃ members y, s.1 !! j = Some members ∧ y ∈ members ∧
      ConflictGraph.conflicts_with g tx y = true }.

Lemma assign_one_spec g handled s p :
  (∀ x y, ConflictGraph.conflicts_with g x y = true → ConflictGraph.conflicts_with g y x = true) →
  (plan_tx_id p ∉ plan_tx_id <$> handled) →
  assigned g handled s → assigned g (handled ++ [p]) (assign_one g s p).
Proof.
  intros Hsym Hnew [Hdom Hmem Hrange Hfree Hfirst]. unfold assign_one.
  destruct (place g (plan_tx_id p) s.1 0) as [groups i] eqn:E.
  destruct (place_spec _ _ _ _ _ _ E) as (k & -> & Hk & Hlen & Hat & Hne & Hno & Hlow).
  set (tx := plan_tx_id p) in *. cbn [Nat.add].
  assert (s.2 !! tx = None) as Hnone.
  { apply eq_None_not_Some. by rewrite Hdom. }
  split; cbn [fst snd].
  - intros x. rewrite fmap_app, elem_of_app, <- Hdom, lookup_insert. cbn.
    rewrite list_elem_of_singleton. case_decide; naive_solver.
  - intros j members x Hj. rewrite lookup_insert.
    destruct (decide (j = k)) as [->|Hjk].
    + assert (members = default [] (s.1 !! k) ++ [tx]) as -> by congruence.
      rewrite elem_of_app, list_elem_of_singleton.
      destruct (s.1 !! k) as [ms|] eqn:Ek; cbn.
      * rewrite (Hmem _ _ x Ek). case_decide; naive_solver.
      * rewrite elem_of_nil. case_decide; [naive_solver|]. split; [naive_solver|].
        intros Hx%Hrange. apply lookup_ge_None in Ek. lia.
    + rewrite Hne in Hj by done. rewrite (Hmem _ _ x Hj). case_decide; [|done].
      subst x. rewrite Hnone. naive_solver.
  - intros x j. rewrite lookup_insert. case_decide; [intros [= <-]; lia|].
    intros ?%Hrange. lia.
  - intros j members a b Hj Ha Hb Hab. destruct (decide (j = k)) as [->|Hjk].
    + assert (members = default [] (s.1 !! k) ++ [tx]) as -> by congruence.
      rewrite elem_of_app, list_elem_of_singleton in Ha, Hb.
      destruct Ha as [Ha| ->], Hb as [Hb| ->]; [| |by apply Hno|done].
      * destruct (s.1 !! k) as [ms|] eqn:Ek; [|by apply elem_of_nil in Ha].
        by eapply Hfree.
      * apply not_true_is_false. intros Hc%Hsym. by rewrite (Hno _ Ha) in Hc.
    + rewrite Hne in Hj by done. by eapply Hfree.
  - intros x j l. rewrite lookup_insert. case_decide as Ex.
    + intros [= <-] Hl. subst x. destruct (Hlow _ Hl) as (ms & y & ? & ? & ?).
      exists ms, y. split; [|done]. rewrite Hne; [done|lia].
    + intros Hx Hl. destruct (Hfirst _ _ _ Hx Hl) as (ms & y & Hms & Hy & Hc).
      destruct (decide (l = k)) as [->|]; [|exists ms, y; by rewrite Hne].
      exists (ms ++ [tx]), y. rewrite Hat, Hms, elem_of_app. auto.
Qed.

Lemma assign_spec g ps :
  (∀ x y, ConflictGraph.conflicts_with g x y = true → ConflictGraph.conflicts_with g y x = true) →
  NoDup (plan_tx_id <$> ps) → assigned g ps (assign g ps).
Proof.
  intros Hsym. unfold assign.
  assert (∀ handled s, assigned g handled s → NoDup (plan_tx_id <$> handled ++ ps) →
    assigned g (handled ++ ps) (foldl (assign_one g) s ps)) as H.
  { induction ps as [|p ps IH]; intros handled s Hs Hnd; cbn; [by rewrite app_nil_r|].
    rewrite cons_middle, app_assoc in Hnd |- *. apply IH; [|done].
    apply assign_one_spec; [done| |done].
    rewrite !fmap_app in Hnd. apply NoDup_app in Hnd as (Hnd & _). cbn in Hnd.
    apply NoDup_app in Hnd as (_ & Hnd & _). intros Hin. by apply (Hnd _ Hin); left. }
  intros Hnd. apply (H []); [|done]. split; cbn.
  - intros tx. rewrite lookup_empty. split; [by intros []|]. by intros ?%elem_of_nil.
  - intros k members tx. by rewrite lookup_nil.
  - intros tx k. by rewrite lookup_empty.
  - intros k members a b. by rewrite lookup_nil.
  - intros tx k j. by rewrite lookup_empty.
Qed.

(** Distributing the plans over the groups. *)
Lemma assemble_spec num m ps :
  (∀ p, p ∈ ps → ∃ k, m !! plan_tx_id p = Some k ∧ (k < num)%nat) →
  ∃ groups, assemble num m ps = Ok groups ∧ length groups = num ∧
    ∀ k, (k < num)%nat → groups !! k = Some (filter (λ p, m !! plan_tx_id p = Some k) ps).
Proof.
  unfold assemble. intros Hps.
  assert (∀ groups0, length groups0 = num →
    ∃ groups, ofold (λ p groups,
      i ← expect (m !! plan_tx_id p); grp ← expect (groups !! i);
      Ok (<[i := grp ++ [p]]> groups)) ps groups0 = Ok groups ∧ length groups = num ∧
      ∀ k grp, groups0 !! k = Some grp →
        groups !! k = Some (grp ++ filter (λ p, m !! plan_tx_id p = Some k) ps)) as H.
  { induction ps as [|p ps IH]; intros groups0 Hlen; cbn [ofold].
    { exists groups0. split_and!; [done..|]. intros. by rewrite filter_nil, app_nil_r. }
    destruct (Hps p ltac:(left)) as (i & Hi & Hin). rewrite Hi. cbn [expect mbind outcome_bind].
    destruct (lookup_lt_is_Some_2 groups0 i) as [grp Hgrp]; [by rewrite Hlen|].
    rewrite Hgrp. cbn [expect mbind outcome_bind].
    destruct (IH ltac:(intros; apply Hps; by right) (<[i := grp ++ [p]]> groups0))
      as (groups & -> & ? & Hg); [by rewrite length_insert|].
    exists groups. split_and!; [done..|]. intros k grp' Hk. rewrite filter_cons, Hi.
    destruct (decide (i = k)) as [->|Hne].
    - rewrite decide_True by done.
      rewrite (Hg k (grp ++ [p])); [|apply list_lookup_insert_eq; rewrite Hlen; done].
      rewrite Hgrp in Hk. injection Hk as ->. by rewrite <- app_assoc.
    - rewrite decide_False by congruence. apply Hg. by rewrite list_lookup_insert_ne. }
  destruct (H (replicate num [])) as (groups & -> & ? & Hg); [by rewrite length_replicate|].
  exists groups. split_and!; [done..|]. intros k Hk. apply (Hg k []). by apply lookup_replicate_2.
Qed.

(** The elements of a class below [n]. *)
Definition below {A} (f : A → option nat) (n : nat) (p : A) : Prop :=
  match f p with Some k => (k < n)%nat | None => False end.
#[export] Instance below_dec {A} (f : A → option nat) n p : Decision (below f n p).
Proof. unfold below. destruct (f p); apply _. Defined.

Lemma filter_below_split {A} (f : A → option nat) n (l : list A) :
  filter (below f (S n)) l ≡ₚ filter (below f n) l ++ filter (λ p, f p = Some n) l.
Proof.
  induction l as [|p l IH]; [done|]. rewrite !filter_cons.
  assert (below f (S n) p ↔ below f n p ∨ f p = Some n) as Hs.
  { unfold below. destruct (f p) as [k|]; [|naive_solver].
    split; [intros; destruct (decide (k = n)); [right; congruence|left; lia]|].
    intros [?|[= ->]]; lia. }
  assert (below f n p → f p ≠ Some n) as Hd.
  { unfold below. intros Hb E. rewrite E in Hb. lia. }
  destruct (decide (below f (S n) p)), (decide (below f n p)), (decide (f p = Some n));
    try (exfalso; tauto).
  - by rewrite IH.
  - by rewrite IH, <- Permutation_middle.
  - done.
Qed.

(** The groups by index put together are the list. *)
Lemma concat_classes {A} (f : A → option nat) n (l : list A) :
  Forall (below f n) l →
  concat ((λ k, filter (λ p, f p = Some k) l) <$> seq 0 n) ≡ₚ l.
Proof.
  intros Hl. trans (filter (below f n) l).
  - clear Hl. induction n as [|n IH].
    + induction l as [|p l IHl]; [done|].
      rewrite filter_cons, decide_False; [done|]. unfold below. destruct (f p); lia.
    + rewrite seq_S, fmap_app, concat_app, IH. cbn. rewrite app_nil_r.
      by rewrite filter_below_split.
  - induction Hl as [|p l Hp _ IH]; [done|]. by rewrite filter_cons, decide_True, IH.
Qed.

Lemma plan_id_inj ps p q :
  NoDup (plan_tx_id <$> ps) → p ∈ ps → q ∈ ps → plan_tx_id p = plan_tx_id q → p = q.
Proof. apply NoDup_key_inj. Qed.

(** The whole schedule, by the group [m !! tx] of each transaction. *)
Lemma schedule_groups ps :
  NoDup (plan_tx_id <$> ps) →
  ∃ g m n, build_graph ps = Ok g ∧
    schedule ps = Ok (imap (λ i grp, mkGroup grp i)
      ((λ k, filter (λ p, m !! plan_tx_id p = Some k) ps) <$> seq 0 n)) ∧
    Forall (below (λ p, m !! plan_tx_id p) n) ps ∧
    ∃ members, assigned g ps (members, m).
Proof.
  intros Hnd. destruct (build_graph_spec ps) as (g & Hg & _ & Hsym).
  assert (∀ x y, ConflictGraph.conflicts_with g x y = true →
    ConflictGraph.conflicts_with g y x = true) as Hs by (intros ?? H; apply (Hsym _ _ H)).
  pose proof (assign_spec g ps Hs Hnd) as Ha. destruct (assign g ps) as [members m] eqn:Ea.
  assert (∀ p, p ∈ ps → ∃ k, m !! plan_tx_id p = Some k ∧ (k < length members)%nat) as Hm.
  { intros p Hp. destruct Ha as [Hd _ Hr _ _]. cbn in Hd, Hr.
    destruct (proj2 (Hd (plan_tx_id p))) as [k Hk]; [by apply list_elem_of_fmap_2|].
    exists k. split; [done|]. by apply (Hr _ _ Hk). }
  exists g, m, (length members). split_and!; [done| | |by exists members].
  - unfold schedule. case_decide as Hps.
    { subst ps. cbn in Ea. by injection Ea as <- <-. }
    rewrite Hg. cbn [mbind outcome_bind]. rewrite Ea.
    destruct (assemble_spec (length members) m ps Hm) as (groups & -> & Hlen & Hgr).
    cbn [mbind outcome_bind]. f_equal. f_equal. apply list_eq. intros k.
    destruct (decide (k < length members)%nat) as [Hk|Hk].
    + rewrite (Hgr k Hk), list_lookup_fmap, lookup_seq_lt by done. done.
    + rewrite !(proj2 (lookup_ge_None _ _)); [done|rewrite length_fmap, length_seq; lia|lia].
  - apply Forall_forall. intros p Hp. unfold below. destruct (Hm p Hp) as (k & -> & ?). done.
Qed.


Lemma schedule_total ps :
  NoDup (plan_tx_id <$> ps) →
  ∃ gs, schedule ps = Ok gs ∧ concat (plans <$> gs) ≡ₚ ps.
Proof.
  intros Hnd. destruct (schedule_groups ps Hnd) as (g & m & n & Hg & -> & Hbelow & members & Ha).
  destruct Ha as [Hd Hmem Hr Hfree Hfirst]. cbn [fst snd] in *.
  eexists. split; [reflexivity|]. rewrite fmap_imap.
  replace (imap _ _) with ((λ k, filter (λ p, m !! plan_tx_id p = Some k) ps) <$> seq 0 n).
  2: { apply list_eq. intros k. rewrite list_lookup_imap. by destruct (_ !! k). }
  by apply (concat_classes (λ p, m !! plan_tx_id p)).
Qed.

(** Whatever the ids: every plan has a group that exists. *)
Lemma assign_covers g ps p :
  p ∈ ps → ∃ k, (assign g ps).2 !! plan_tx_id p = Some k ∧ (k < length (assign g ps).1)%nat.
Proof.
  unfold assign. set (s0 := ([], ∅)).
  assert (∀ s, (∀ tx k, s.2 !! tx = Some k → (k < length s.1)%nat) →
    ∀ handled, (∀ q, q ∈ handled → is_Some (s.2 !! plan_tx_id q)) →
    let s' := foldl (assign_one g) s ps in
    (∀ tx k, s'.2 !! tx = Some k → (k < length s'.1)%nat) ∧
    ∀ q, q ∈ handled ++ ps → is_Some (s'.2 !! plan_tx_id q)) as H.
  { induction ps as [|q ps IH]; intros s Hr handled Hh; cbn [foldl]; [by rewrite app_nil_r|].
    rewrite cons_middle, app_assoc. unfold assign_one at 2 4 6.
    destruct (place g (plan_tx_id q) s.1 0) as [groups i] eqn:E.
    destruct (place_spec _ _ _ _ _ _ E) as (k & -> & Hk & Hlen & _). apply IH; cbn [fst snd].
    - intros tx j. rewrite lookup_insert. case_decide; [intros [= <-]; lia|]. intros ?%Hr. lia.
    - intros x Hx. rewrite lookup_insert. destruct (decide (plan_tx_id q = plan_tx_id x)); [by eexists|].
      apply elem_of_app in Hx as [Hx|Hx]; [by apply Hh|].
      apply list_elem_of_singleton in Hx. congruence. }
  intros Hp. assert (∀ tx k, s0.2 !! tx = Some k → (k < length s0.1)%nat) as Hr0.
  { intros tx k. cbn. by rewrite lookup_empty. }
  destruct (H s0 Hr0 [] ltac:(by intros q ?%elem_of_nil)) as [Hr Hs].
  destruct (Hs p Hp) as [k Hk]. exists k. split; [done|]. by apply (Hr _ _ Hk).
Qed.

(** The schedule never panics and loses no plan, even when ids repeat. *)
Lemma schedule_any ps : ∃ gs, schedule ps = Ok gs ∧ concat (plans <$> gs) ≡ₚ ps.
Proof.
  destruct (build_graph_spec ps) as (g & Hg & _). unfold schedule.
  case_decide as Hps; [subst; by exists []|]. rewrite Hg. cbn [mbind outcome_bind].
  pose proof (assign_covers g ps) as Hm. destruct (assign g ps) as [members m]. cbn [fst snd] in Hm.
  destruct (assemble_spec (length members) m ps Hm) as (groups & -> & Hlen & Hgr).
  cbn [mbind outcome_bind]. eexists. split; [reflexivity|]. rewrite fmap_imap.
  replace (imap _ groups) with ((λ k, filter (λ p, m !! plan_tx_id p = Some k) ps) <$> seq 0 (length members)).
  - apply (concat_classes (λ p, m !! plan_tx_id p)). apply Forall_forall. intros p Hp. unfold below.
    by destruct (Hm p Hp) as (k & -> & ?).
  - apply list_eq. intros k. rewrite list_lookup_imap, list_lookup_fmap.
    destruct (decide (k < length members)%nat) as [Hk|Hk].
    + by rewrite (Hgr k Hk), lookup_seq_lt.
    + rewrite !(proj2 (lookup_ge_None _ _)); [done|lia|rewrite length_seq; lia].
Qed.

(** ** Properties *)


(** A plan that only declares accesses. *)
Definition sample_plan (tx : id32) (access : list ObjectAccess) : ExecutionPlan :=
  mkPlan tx [] [] access 0 0.


(** Grouping reorders conflicting plans.  When the second of three plans
    conflicts with both others and these two do not conflict, the third is run
    before the second, although it conflicts with it and comes after it in the
    sequenced order. *)
Theorem schedule_reorders (a b c : ExecutionPlan) :
  NoDup (plan_tx_id <$> [a; b; c]) →
  conflicts a b = true → conflicts b c = true → conflicts a c = false →
  schedule [a; b; c] = Ok [mkGroup [a; c] 0; mkGroup [b] 1].
Proof.
  intros Hnd Hab Hbc Hac. destruct (build_graph_spec [a; b; c]) as (g & Hg & Hedge & Hconf).
  assert (plan_tx_id a ≠ plan_tx_id b ∧ plan_tx_id a ≠ plan_tx_id c ∧
    plan_tx_id b ≠ plan_tx_id c) as (Hn1 & Hn2 & Hn3).
  { cbn in Hnd. apply NoDup_cons in Hnd as [H1 Hnd]. apply NoDup_cons in Hnd as [H2 _].
    set_solver. }
  assert (ConflictGraph.conflicts_with g (plan_tx_id b) (plan_tx_id a) = true) as H1.
  { apply (Hedge 1%nat 0%nat); [done..|]. by apply interfere_sym, conflicts_true. }
  assert (ConflictGraph.conflicts_with g (plan_tx_id c) (plan_tx_id a) = false) as H2.
  { apply not_true_is_false. intros (_ & p & q & Hp & Hq & Ep & Eq & Hi)%Hconf.
    apply (plan_id_inj [a; b; c] c p) in Ep as <-; [|done|set_solver|done].
    apply (plan_id_inj [a; b; c] a q) in Eq as <-; [|done|set_solver|done].
    apply interfere_sym, conflicts_true in Hi. congruence. }
  unfold schedule. rewrite decide_False, Hg by done. cbn [mbind outcome_bind].
  unfold assign. cbn [foldl]. unfold assign_one. cbn [place fst snd existsb].
  rewrite H1. cbn [orb place fst snd existsb app]. rewrite H2.
  cbn [orb fst snd length app]. unfold assemble. cbn [ofold].
  set (m := <[plan_tx_id c := _]> _).
  assert (m !! plan_tx_id a = Some 0%nat) as Ea
    by (subst m; rewrite !lookup_insert_ne by congruence; apply lookup_insert_eq).
  assert (m !! plan_tx_id b = Some 1%nat) as Eb
    by (subst m; rewrite lookup_insert_ne by congruence; apply lookup_insert_eq).
  assert (m !! plan_tx_id c = Some 0%nat) as Ec by apply lookup_insert_eq.
  by rewrite Ea, Eb, Ec.
Qed.

Lemma schedule_reorders_witness :
  schedule [sample_plan 1 [rw 10]; sample_plan 2 [rw 10; rw 11]; sample_plan 3 [rw 11]] =
  Ok [mkGroup [sample_plan 1 [rw 10]; sample_plan 3 [rw 11]] 0;
      mkGroup [sample_plan 2 [rw 10; rw 11]] 1].
Proof.
  apply schedule_reorders; [by_decide|reflexivity|reflexivity|reflexivity].
Defined.
