(* ===== verification/Artifacts.v ===== *)
(** * Contract artifacts

    What contract operations leave behind besides the store
    (src/runtime/src/contracts/advanced.rs): events, balance bindings, token
    creation requests, IBC hooks and scheduled executions, with the binding and
    schedule registries. *)

From stdpp Require Import gmap strings list pretty.
From S2P Require Import Prelude Concrete.

(** ** Events, hooks, token requests *)

(* @src src/runtime/src/contracts/advanced.rs:20-34 ContractEvent *)
Record ContractEvent : Type := mkEvent {
  ev_contract_id : id32;
  ev_schema_id : id32;
  ev_event_type : string;
  ev_indexed : gmap string string;
  ev_data : bytes;
  ev_epoch : Z }.

Module ContractEvent.
(* @src src/runtime/src/contracts/advanced.rs:38-49 ContractEvent::event_id *)
Definition event_id `{Sha256} (e : ContractEvent) : id32 :=
  sha256 (string_bytes "OMNIPHI_EVENT_V1" ++ be_bytes 32 (ev_contract_id e) ++
    string_bytes (ev_event_type e) ++ be_bytes 8 (ev_epoch e) ++ ev_data e).
End ContractEvent.

(* @src src/runtime/src/contracts/advanced.rs:475-488 IBCAction *)
Inductive IBCAction : Type :=
| Transfer (denom : string) (amount : Z) (receiver : string)
| SendPacket (data : bytes).

(* @src src/runtime/src/contracts/advanced.rs:460-474 IBCHook *)
Record IBCHook : Type := mkHook {
  hk_source_contract : id32;
  hk_channel_id : string;
  hk_port_id : string;
  hk_action : IBCAction;
  hk_timeout_secs : Z }.

(* @src src/runtime/src/contracts/advanced.rs:292-310 TokenCreationRequest *)
Record TokenCreationRequest : Type := mkTokenRequest {
  tq_creator_contract : id32;
  tq_mint_authority_schema : id32;
  tq_symbol : string;
  tq_decimals : Z;
  tq_initial_supply : Z;
  tq_max_supply : option Z;
  tq_metadata : gmap string string }.

Module TokenCreationRequest.
(* @src src/runtime/src/contracts/advanced.rs:312-326 TokenCreationRequest::compute_asset_id *)
Definition compute_asset_id `{Sha256} (r : TokenCreationRequest) : id32 :=
  sha256 (string_bytes "OMNIPHI_TOKEN_V1" ++ be_bytes 32 (tq_creator_contract r) ++
    be_bytes 32 (tq_mint_authority_schema r) ++ string_bytes (tq_symbol r) ++ [tq_decimals r]).
End TokenCreationRequest.

(** ** Contract-held balances *)

(* @src src/runtime/src/contracts/advanced.rs:76-109 ContractBalance *)
Record ContractBalance : Type := mkBinding {
  cb_contract_id : id32;
  cb_balance_id : id32;
  cb_withdrawal_schema_id : id32;
  cb_asset_id : id32;
  cb_label : string }.

(* @src src/runtime/src/contracts/advanced.rs:111-123 ContractBalanceRegistry *)
Record ContractBalanceRegistry : Type := mkBindings { bindings : gmap Z ContractBalance }.

(** The derived [Debug] text of an object id. *)
Definition debug_object_id (i : id32) : string :=
  "ObjectId([" +:+ String.concat ", " (pretty <$> be_bytes 32 i) +:+ "])".

Module ContractBalanceRegistry.
Definition new : ContractBalanceRegistry := mkBindings ∅.

(* @src src/runtime/src/contracts/advanced.rs:125-132 ContractBalanceRegistry::bind *)
Definition bind (cb : ContractBalance) : M ContractBalanceRegistry string () := λ r,
  if decide (is_Some (bindings r !! cb_balance_id cb)) then
    (r, Err ("balance " +:+ debug_object_id (cb_balance_id cb) +:+ " already bound to a contract"))
  else (mkBindings (<[cb_balance_id cb := cb]> (bindings r)), Ok tt).

(* @src src/runtime/src/contracts/advanced.rs:134-137 ContractBalanceRegistry::is_contract_controlled *)
Definition is_contract_controlled (r : ContractBalanceRegistry) (i : id32) : bool :=
  bool_decide (is_Some (bindings r !! i)).

(* @src src/runtime/src/contracts/advanced.rs:139-142 ContractBalanceRegistry::get_controller *)
Definition get_controller (r : ContractBalanceRegistry) (i : id32) : option ContractBalance :=
  bindings r !! i.

(* @src src/runtime/src/contracts/advanced.rs:144-147 ContractBalanceRegistry::unbind *)
Definition unbind (i : id32) (r : ContractBalanceRegistry) : ContractBalanceRegistry * bool :=
  (mkBindings (delete i (bindings r)), bool_decide (is_Some (bindings r !! i))).
End ContractBalanceRegistry.

(** ** Scheduled executions *)

(* @src src/runtime/src/contracts/advanced.rs:514-541 ScheduledExecution *)
Record ScheduledExecution : Type := mkSchedule {
  sc_schedule_id : id32;
  sc_contract_id : id32;
  sc_schema_id : id32;
  sc_method : string;
  sc_params : bytes;
  sc_execute_at_epoch : Z;
  sc_recurring : bool;
  sc_interval_epochs : Z;
  sc_max_recurrences : Z;
  sc_executed_count : Z;
  sc_active : bool }.

Definition set_run (s : ScheduledExecution) (epoch count : Z) (act : bool)
  : ScheduledExecution :=
  mkSchedule (sc_schedule_id s) (sc_contract_id s) (sc_schema_id s) (sc_method s) (sc_params s)
    epoch (sc_recurring s) (sc_interval_epochs s) (sc_max_recurrences s) count act.

Module ScheduledExecution.
(* @src src/runtime/src/contracts/advanced.rs:544-554 ScheduledExecution::compute_id *)
Definition compute_id `{Sha256} (contract_id : id32) (method : string) (execute_at : Z) : id32 :=
  sha256 (string_bytes "OMNIPHI_SCHEDULE_V1" ++ be_bytes 32 contract_id ++
    string_bytes method ++ be_bytes 8 execute_at).

(* @src src/runtime/src/contracts/advanced.rs:556-565 ScheduledExecution::is_due *)
Definition is_due (s : ScheduledExecution) (current_epoch : Z) : bool :=
  if negb (sc_active s) then false
  else if decide (0 < sc_max_recurrences s ∧ sc_max_recurrences s ≤ sc_executed_count s) then false
  else bool_decide (sc_execute_at_epoch s ≤ current_epoch).

(* @src src/runtime/src/contracts/advanced.rs:567-580 ScheduledExecution::advance *)
Definition advance (s : ScheduledExecution) : ScheduledExecution * bool :=
  let count := wrapu 64 (sc_executed_count s + 1) in
  if negb (sc_recurring s) then (set_run s (sc_execute_at_epoch s) count false, false)
  else if decide (0 < sc_max_recurrences s ∧ sc_max_recurrences s ≤ count) then
    (set_run s (sc_execute_at_epoch s) count false, false)
  else
    (set_run s (wrapu 64 (sc_execute_at_epoch s + sc_interval_epochs s)) count (sc_active s), true).
End ScheduledExecution.

(* @src src/runtime/src/contracts/advanced.rs:583-592 ScheduleRegistry *)
Record ScheduleRegistry : Type := mkSchedules { schedules : gmap Z ScheduledExecution }.

Module ScheduleRegistry.
Definition new : ScheduleRegistry := mkSchedules ∅.

(* @src src/runtime/src/contracts/advanced.rs:594-604 ScheduleRegistry::register *)
Definition register (s : ScheduledExecution) : M ScheduleRegistry string () := λ r,
  if decide (is_Some (schedules r !! sc_schedule_id s)) then (r, Err "schedule already exists")
  else if decide (sc_execute_at_epoch s = 0) then (r, Err "execute_at_epoch must be > 0")
  else (mkSchedules (<[sc_schedule_id s := s]> (schedules r)), Ok tt).

(* @src src/runtime/src/contracts/advanced.rs:606-614 ScheduleRegistry::cancel *)
Definition cancel (i : id32) (r : ScheduleRegistry) : ScheduleRegistry * bool :=
  match schedules r !! i with
  | Some s => (mkSchedules (<[i := set_run s (sc_execute_at_epoch s) (sc_executed_count s) false]>
                 (schedules r)), true)
  | None => (r, false)
  end.

(* @src src/runtime/src/contracts/advanced.rs:616-621 ScheduleRegistry::get_due *)
Definition get_due (r : ScheduleRegistry) (current_epoch : Z) : list ScheduledExecution :=
  filter (λ s, ScheduledExecution.is_due s current_epoch = true) (btree_values (schedules r)).

(* @src src/runtime/src/contracts/advanced.rs:623-630 ScheduleRegistry::advance *)
Definition advance (i : id32) (r : ScheduleRegistry) : ScheduleRegistry * bool :=
  match schedules r !! i with
  | Some s => let '(s, b) := ScheduledExecution.advance s in
              (mkSchedules (<[i := s]> (schedules r)), b)
  | None => (r, false)
  end.

(* @src src/runtime/src/contracts/advanced.rs:632-637 ScheduleRegistry::prune_inactive *)
Definition prune_inactive (r : ScheduleRegistry) : ScheduleRegistry * nat :=
  let kept := filter (λ p, sc_active p.2 = true) (schedules r) in
  (mkSchedules kept, (size (schedules r) - size kept)%nat).
End ScheduleRegistry.

(** ** Running a schedule

    The due schedule is executed and advanced at each of the given epochs. *)
Fixpoint fire (s : ScheduledExecution) (epochs : list Z) : ScheduledExecution * list Z :=
  match epochs with
  | [] => (s, [])
  | e :: epochs =>
      if ScheduledExecution.is_due s e then
        let '(s', fired) := fire (ScheduledExecution.advance s).1 epochs in (s', e :: fired)
      else fire s epochs
  end.

Lemma fire_inactive s epochs : sc_active s = false → (fire s epochs).2 = [].
Proof.
  intros Ha. induction epochs as [|e l IH]; [done|]. cbn.
  unfold ScheduledExecution.is_due. by rewrite Ha.
Qed.

(** A schedule runs at most once when it is not recurring, and at most
    [max_recurrences] times when that is set, however often and at whatever
    epochs the registry is polled. *)
Theorem schedule_runs_bounded (s : ScheduledExecution) (epochs : list Z) :
  sc_executed_count s = 0 → fits 64 (sc_max_recurrences s) →
  (sc_recurring s = false → (length (fire s epochs).2 ≤ 1)%nat) ∧
  (0 < sc_max_recurrences s → Z.of_nat (length (fire s epochs).2) ≤ sc_max_recurrences s).
Proof.
  intros H0 Hfit. split.
  - intros Hr. clear H0. induction epochs as [|e l IH]; cbn [fire]; [cbn; lia|].
    destruct (ScheduledExecution.is_due s e); [|done].
    destruct (fire (ScheduledExecution.advance s).1 l) as [s' fired] eqn:E. cbn.
    pose proof (fire_inactive (ScheduledExecution.advance s).1 l) as Hi. rewrite E in Hi.
    cbn in Hi. rewrite Hi; [cbn; lia|]. unfold ScheduledExecution.advance. by rewrite Hr.
  - intros Hm.
    assert (∀ n s, sc_executed_count s = n → 0 ≤ n ≤ sc_max_recurrences s →
      0 < sc_max_recurrences s → fits 64 (sc_max_recurrences s) →
      Z.of_nat (length (fire s epochs).2) ≤ sc_max_recurrences s - n) as Hgen.
    { clear. induction epochs as [|e l IH]; intros n s Hn Hle Hm Hfit; cbn [fire]; [cbn; lia|].
      destruct (ScheduledExecution.is_due s e) eqn:Ed; [|by apply IH].
      assert (n < sc_max_recurrences s) as Hlt.
      { unfold ScheduledExecution.is_due in Ed. destruct (negb (sc_active s)); [done|].
        case_decide as Hd; [done|]. rewrite Hn in Hd. lia. }
      destruct (fire (ScheduledExecution.advance s).1 l) as [s' fired] eqn:E. cbn [snd length].
      assert (wrapu 64 (sc_executed_count s + 1) = n + 1) as Hw.
      { rewrite Hn. apply wrapu_id. ints. }
      specialize (IH (n + 1) (ScheduledExecution.advance s).1). rewrite E in IH.
      cbn [snd] in IH.
      assert (sc_executed_count (ScheduledExecution.advance s).1 = n + 1 ∧
        sc_max_recurrences (ScheduledExecution.advance s).1 = sc_max_recurrences s) as [Hc Hx].
      { unfold ScheduledExecution.advance. rewrite Hw.
        destruct (negb (sc_recurring s)); [done|]. by case_decide. }
      rewrite Hx in IH. specialize (IH Hc ltac:(lia) Hm Hfit). lia. }
    specialize (Hgen 0 s H0 ltac:(lia) Hm Hfit). lia.
Qed.

Lemma schedule_runs_bounded_witness :
  let s := mkSchedule 1 2 3 "tick" [] 5 true 10 2 0 true in
  (fire s [4; 5; 15; 25]).2 = [5; 15] ∧ Z.of_nat (length (fire s [4; 5; 15; 25]).2) ≤ 2.
Proof.
  intros s. split; [reflexivity|].
  apply (schedule_runs_bounded s [4; 5; 15; 25]); [reflexivity|by_eval|reflexivity].
Defined.
