(* ===== verification/Settlement.v ===== *)
(** * The settlement engine

    Plan validation, application, receipts and group execution of
    src/runtime/src/settlement/engine.rs.  The engine works on the store and,
    while a plan runs, on a gas meter and the list of affected objects. *)

From stdpp Require Import gmap strings list sorting pretty.
From S2P Require Import Prelude Errors Gas Objects Concrete Store FeeEnvelope Intents.
From S2P Require Import Planner Scheduler Artifacts.

(* @src src/runtime/src/settlement/engine.rs:9-21 ExecutionReceipt *)
Record ExecutionReceipt : Type := mkReceipt {
  rc_tx_id : id32;
  success : bool;
  affected_objects : list id32;
  version_transitions : list (id32 * Z * Z);
  error : option string;
  gas_used : Z;
  events : list ContractEvent }.

(* @src src/runtime/src/settlement/engine.rs:23-41 SettlementResult *)
Record SettlementResult : Type := mkResult {
  epoch : Z;
  total_plans : nat;
  succeeded : nat;
  failed : nat;
  receipts : list ExecutionReceipt;
  res_state_root : id32;
  res_ibc_hooks : list IBCHook;
  res_schedules : list ScheduledExecution;
  balance_bindings : list ContractBalance;
  all_events : list ContractEvent }.

(* @src src/runtime/src/settlement/engine.rs:43-48 PlanSideEffects *)
Record PlanSideEffects : Type := mkEffects {
  ibc_hooks : list IBCHook;
  fx_schedules : list ScheduledExecution;
  fx_bindings : list ContractBalance }.

(** [|delta|] as the code computes it: negate as [i128], cast to [u128]. *)
Definition neg_abs (d : Z) : Z := wrapu 128 (wraps 128 (- d)).

(** [Vec::sort] then [Vec::dedup]. *)
Fixpoint dedup (l : list Z) : list Z :=
  match l with
  | [] => []
  | a :: l => match dedup l with
              | b :: l' => if decide (a = b) then b :: l' else a :: b :: l'
              | [] => [a]
              end
  end.
Definition sort_dedup (l : list Z) : list Z := dedup (merge_sort Z.le l).

Fixpoint mmap {S E A B} (f : A → M S E B) (l : list A) : M S E (list B) :=
  match l with
  | [] => mret []
  | a :: l => f a ≫= λ b, mmap f l ≫= λ bs, mret (b :: bs)
  end.

Module SettlementEngine.
(** The state of the application phase: the store and the affected ids. *)
Abbreviation AM := (M (ObjectStore * list id32) RuntimeError).

(** The state of the side-effect pass: the store, the events, the effects. *)
Abbreviation XM := (M (ObjectStore * (list ContractEvent * PlanSideEffects)) Empty_set).

Section engine.
Context `{Sha256, Hex, Bincode}.

(* @src src/runtime/src/settlement/engine.rs:419-441 SettlementEngine::op_gas_cost *)
Definition op_gas_cost (op : ObjectOperation) (c : GasCosts) : Z :=
  match op with
  | DebitBalance _ _ => debit_balance c
  | CreditBalance _ _ => credit_balance c
  | SwapPoolAmounts _ _ _ => swap_pool c
  | LockBalance _ _ => lock_balance c
  | UnlockBalance _ _ => unlock_balance c
  | UpdateVersion _ => update_version c
  | TransferOwnership _ _ => update_version c
  | ContractStateTransition _ _ proposed_state =>
      wrapu 64 (wrapu 64 (contract_state_write c + constraint_validation_base c) +
        wrapu 64 (constraint_validation_per_byte c * Z.of_nat (length proposed_state)))
  | BindContractBalance _ _ _ _ _ => bind_contract_balance c
  | CreateToken _ _ _ _ _ _ => create_token c
  | EmitContractEvent _ _ _ _ data =>
      wrapu 64 (emit_event c +
        wrapu 64 (constraint_validation_per_byte c * Z.of_nat (length data)))
  | IBCTransfer _ _ _ _ _ _ _ => ibc_transfer c
  | ScheduleExecution _ _ _ _ _ _ _ _ => schedule_execution c
  end.

(** [store.get_balance_by_id(id).ok_or(ObjectNotFound(id))] and its likes. *)
Definition need_balance (st : ObjectStore) (i : id32) : outcome RuntimeError BalanceObject :=
  ok_or (ObjectStore.get_balance_by_id st i) (ObjectNotFound i).
Definition need_pool (st : ObjectStore) (i : id32) : outcome RuntimeError LiquidityPoolObject :=
  ok_or (ObjectStore.get_pool_by_id st i) (ObjectNotFound i).
Definition need_object (st : ObjectStore) (i : id32) : outcome RuntimeError BoxedObject :=
  ok_or (ObjectStore.get st i) (ObjectNotFound i).

Definition is_contract_of (schema : id32) (o : BoxedObject) : bool :=
  bool_decide (Object.object_type o = TContract schema).

(* @src src/runtime/src/settlement/engine.rs:520-560 SettlementEngine::validate_op *)
Definition validate_transition (st : ObjectStore) (contract_id schema_id : id32)
    (proposed_state : bytes) : outcome RuntimeError () :=
  obj ← need_object st contract_id;
  _ ← match Object.object_type obj with
      | TContract sid =>
          if decide (sid ≠ schema_id) then
            Err (ContractConstraintViolation schema_id "contract object schema_id mismatch")
          else Ok tt
      | _ => Err (ContractConstraintViolation schema_id "target object is not a Contract type")
      end;
  if decide (proposed_state = []) then
    Err (ContractConstraintViolation schema_id "proposed_state cannot be empty")
  else
    match decode_contract (encode obj) with
    | Some c =>
        let len := Z.of_nat (length proposed_state) in
        if decide (0 < max_state_bytes c ∧ max_state_bytes c < wrapu 64 len) then
          Err (ContractConstraintViolation schema_id
            ("proposed state " +:+ pretty len +:+ " bytes exceeds max_state_bytes " +:+
             pretty (max_state_bytes c)))
        else Ok tt
    | None => Ok tt
    end.

(* @src src/runtime/src/settlement/engine.rs:444-620 SettlementEngine::validate_op *)
Definition validate_op (op : ObjectOperation) (st : ObjectStore) : outcome RuntimeError () :=
  match op with
  | DebitBalance i amt | LockBalance i amt =>
      b ← need_balance st i;
      if decide (BalanceObject.available b < amt)
      then Err (InsufficientBalance amt (BalanceObject.available b)) else Ok tt
  | SwapPoolAmounts i da db =>
      p ← need_pool st i;
      if decide (da < 0 ∧ reserve_a p < neg_abs da) then
        Err (ConstraintViolation "swap would drain pool reserve_a below zero")
      else if decide (db < 0 ∧ reserve_b p < neg_abs db) then
        Err (ConstraintViolation "swap would drain pool reserve_b below zero")
      else Ok tt
  | CreditBalance i _ => _ ← need_balance st i; Ok tt
  | UnlockBalance i amt =>
      b ← need_balance st i;
      if decide (locked_amount b < amt) then
        Err (ConstraintViolation "unlock amount exceeds locked_amount") else Ok tt
  | TransferOwnership i new_owner =>
      o ← need_object st i;
      if decide (new_owner = 0) then Err (InvalidIntent "new_owner cannot be zero")
      else if decide (owner (Object.meta o) = new_owner) then
        Err (InvalidIntent "new_owner is already the owner")
      else Ok tt
  | UpdateVersion i => _ ← need_object st i; Ok tt
  | ContractStateTransition c schema proposed => validate_transition st c schema proposed
  | BindContractBalance c b schema _ _ =>
      o ← need_object st c;
      _ ← need_object st b;
      if is_contract_of schema o then Ok tt else
        Err (ContractConstraintViolation schema
               "bind target is not a contract with matching schema")
  | CreateToken _ _ sym dec initial max =>
      if decide (sym = EmptyString ∨ (12 < String.length sym)%nat) then
        Err (ConstraintViolation "symbol must be 1-12 chars")
      else if decide (18 < dec) then Err (ConstraintViolation "decimals must be <= 18")
      else match max with
           | Some m => if decide (m < initial) then
                         Err (ConstraintViolation "initial_supply > max_supply") else Ok tt
           | None => Ok tt
           end
  | EmitContractEvent c schema _ _ data =>
      o ← need_object st c;
      if negb (is_contract_of schema o) then
        Err (ContractConstraintViolation schema "event source is not a valid contract")
      else if decide (65536 < Z.of_nat (length data)) then
        Err (ConstraintViolation "event data exceeds 64KB")
      else Ok tt
  | IBCTransfer c _ _ denom amt receiver _ =>
      _ ← need_object st c;
      if decide (denom = EmptyString) then
        Err (ConstraintViolation "IBC denom cannot be empty")
      else if decide (amt = 0) then Err (ConstraintViolation "IBC amount must be > 0")
      else if decide (receiver = EmptyString) then
        Err (ConstraintViolation "IBC receiver cannot be empty")
      else Ok tt
  | ScheduleExecution c _ _ _ at_epoch _ _ _ =>
      _ ← need_object st c;
      if decide (at_epoch = 0) then
        Err (ConstraintViolation "execute_at_epoch must be > 0") else Ok tt
  end.

Definition push_affected (i : id32) : AM () := modify (λ s, (s.1, s.2 ++ [i])).
Definition get_or_fail {A} (f : ObjectStore → option A) (i : id32) : AM A :=
  λ s, (s, ok_or (f s.1) (ObjectNotFound i)).
Definition modify_store (f : ObjectStore → ObjectStore) : AM () := modify (λ s, (f s.1, s.2)).
Definition insert_object (o : BoxedObject) : AM () := λ s,
  match ObjectStore.insert o s.1 with
  | Ok st => ((st, s.2), Ok tt)
  | Err e => (s, Err e)
  | Panic => (s, Panic)
  end.

(** One side of a swap: what a delta makes of a reserve. *)
Definition shift_reserve (r d : Z) : Z :=
  if decide (0 ≤ d) then sat_add 128 r (wrapu 128 d) else sat_sub r (neg_abs d).

(** The new owner in the canonical entry and in each overlay. *)
(* @src src/runtime/src/settlement/engine.rs:679-697 SettlementEngine::apply_op *)
Definition change_owner (i new_owner : id32) (st : ObjectStore) : ObjectStore :=
  let st := ObjectStore.update (Object.map_meta (λ m, set_owner m new_owner)) i st in
  let st := ObjectStore.update_balance (λ b,
    set_bal_owner (set_bal_meta b (set_owner (bal_meta b) new_owner)) new_owner) i st in
  let st := ObjectStore.update_pool (λ p, set_pool_meta p (set_owner (pool_meta p) new_owner)) i st in
  ObjectStore.update_vault (λ v, set_vault_meta v (set_owner (vault_meta v) new_owner)) i st.

(* @src src/runtime/src/settlement/engine.rs:702-717 SettlementEngine::apply_op *)
Definition next_contract (c : ContractObject) (proposed_state : bytes) : ContractObject :=
  let c := ContractObject.set_state c proposed_state in
  set_con_meta c (set_updated_at (con_meta c) (wrapu 64 (updated_at (con_meta c) + 1))).

(* @src src/runtime/src/settlement/engine.rs:724-752 SettlementEngine::apply_op *)
Definition new_token (creator schema : id32) (sym : string) (dec initial : Z)
    (max : option Z) : TokenObject :=
  let req := mkTokenRequest creator schema sym dec initial max ∅ in
  let asset_id := TokenCreationRequest.compute_asset_id req in
  let token := TokenObject.new asset_id creator asset_id sym dec initial 0 in
  set_mint_authority (set_max_supply token max) (Some creator).

(* @src src/runtime/src/settlement/engine.rs:623-771 SettlementEngine::apply_op *)
Definition apply_op (op : ObjectOperation) : AM () :=
  match op with
  | DebitBalance i amt =>
      b ← get_or_fail (λ st, ObjectStore.get_balance_by_id st i) i;
      rest ← lift (ok_or (checked_sub (amount b) amt) (InsufficientBalance amt (amount b)));
      _ ← modify_store (ObjectStore.update_balance (λ b, set_amount b rest) i);
      push_affected i
  | CreditBalance i amt =>
      _ ← get_or_fail (λ st, ObjectStore.get_balance_by_id st i) i;
      _ ← modify_store (ObjectStore.update_balance (λ b, set_amount b (sat_add 128 (amount b) amt)) i);
      push_affected i
  | SwapPoolAmounts i da db =>
      _ ← get_or_fail (λ st, ObjectStore.get_pool_by_id st i) i;
      _ ← modify_store (ObjectStore.update_pool (λ p,
            set_reserves p (shift_reserve (reserve_a p) da) (shift_reserve (reserve_b p) db)) i);
      push_affected i
  | LockBalance i amt =>
      _ ← get_or_fail (λ st, ObjectStore.get_balance_by_id st i) i;
      _ ← modify_store (ObjectStore.update_balance (λ b,
            set_locked b (sat_add 128 (locked_amount b) amt)) i);
      push_affected i
  | UnlockBalance i amt =>
      b ← get_or_fail (λ st, ObjectStore.get_balance_by_id st i) i;
      rest ← lift (ok_or (checked_sub (locked_amount b) amt)
                     (ConstraintViolation "unlock exceeds locked_amount"));
      _ ← modify_store (ObjectStore.update_balance (λ b, set_locked b rest) i);
      push_affected i
  | TransferOwnership i new_owner =>
      _ ← get_or_fail (λ st, ObjectStore.get st i) i;
      _ ← modify_store (change_owner i new_owner);
      push_affected i
  | UpdateVersion i => push_affected i
  | ContractStateTransition c _ proposed =>
      obj ← get_or_fail (λ st, ObjectStore.get st c) c;
      match decode_contract (encode obj) with
      | Some contract_obj =>
          _ ← insert_object (OContract (next_contract contract_obj proposed));
          push_affected c
      | None =>
          throw (ContractValidatorError "failed to deserialize contract object for state update")
      end
  | BindContractBalance _ b _ _ _ => push_affected b
  | CreateToken creator schema sym dec initial max =>
      let token := new_token creator schema sym dec initial max in
      _ ← insert_object (OToken token);
      _ ← push_affected (id (tok_meta token));
      push_affected creator
  | EmitContractEvent c _ _ _ _ => push_affected c
  | IBCTransfer c _ _ _ _ _ _ => push_affected c
  | ScheduleExecution c _ _ _ _ _ _ _ => push_affected c
  end.

Definition bump (m : ObjectMeta) : ObjectMeta := set_version m (wrapu 64 (version m + 1)).

(* @src src/runtime/src/settlement/engine.rs:273-288 SettlementEngine::apply_plan *)
Definition bump_version (st : ObjectStore) (i : id32) : ObjectStore :=
  let st := ObjectStore.update (Object.map_meta bump) i st in
  let st := ObjectStore.update_balance (λ b, set_bal_meta b (bump (bal_meta b))) i st in
  let st := ObjectStore.update_pool (λ p, set_pool_meta p (bump (pool_meta p))) i st in
  ObjectStore.update_vault (λ v, set_vault_meta v (bump (vault_meta v))) i st.

(** Phases 0 to 2, which only read the store. *)
(* @src src/runtime/src/settlement/engine.rs:240-261 SettlementEngine::apply_plan *)
Definition check_plan (plan : ExecutionPlan) (st : ObjectStore)
  : M GasMeter RuntimeError (list (id32 * Z)) :=
  c ← gets costs;
  _ ← GasMeter.consume (base_tx c);
  old_versions ← mmap (λ a,
    obj ← lift (ok_or (ObjectStore.get st (object_id a)) (ObjectNotFound (object_id a)));
    _ ← GasMeter.consume (object_read c);
    mret (object_id a, version (Object.meta obj))) (object_access plan);
  _ ← mfor (λ op,
    _ ← lift (validate_op op st);
    GasMeter.consume (op_gas_cost op c)) (operations plan);
  mret old_versions.

(** Phases 3 and 4: apply, bump the versions of the mutated ids, sync. *)
(* @src src/runtime/src/settlement/engine.rs:263-291 SettlementEngine::apply_plan *)
Definition commit_plan (plan : ExecutionPlan) : M ObjectStore RuntimeError (list id32) := λ st,
  match mfor apply_op (operations plan) (st, []) with
  | ((st, affected), Ok _) =>
      let mutated_ids := sort_dedup affected in
      let st := foldl bump_version st mutated_ids in
      (ObjectStore.sync_typed_to_canonical st, Ok mutated_ids)
  | ((st, _), Err e) => (st, Err e)
  | ((st, _), Panic) => (st, Panic)
  end.

(* @src src/runtime/src/settlement/engine.rs:293-301 SettlementEngine::apply_plan *)
Definition transition (st : ObjectStore) (v : id32 * Z) : id32 * Z * Z :=
  (v.1, v.2, default v.2 (version <$> (Object.meta <$> ObjectStore.get st v.1))).

Definition fail_receipt (plan : ExecutionPlan) (m : GasMeter) (e : RuntimeError) : ExecutionReceipt :=
  mkReceipt (plan_tx_id plan) false [] [] (Some (error_to_string e)) (consumed m) [].

(* @src src/runtime/src/settlement/engine.rs:225-325 SettlementEngine::apply_plan *)
Definition apply_plan (plan : ExecutionPlan) : M ObjectStore Empty_set ExecutionReceipt := λ st,
  match check_plan plan st (GasMeter.new (gas_limit plan)) with
  | (m, Err e) => (st, Ok (fail_receipt plan m e))
  | (m, Panic) => (st, Panic)
  | (m, Ok old_versions) =>
      match commit_plan plan st with
      | (st, Ok mutated_ids) =>
          (st, Ok (mkReceipt (plan_tx_id plan) true mutated_ids
                     (transition st <$> old_versions) None (consumed m) []))
      | (st, Err e) => (st, Ok (fail_receipt plan m e))
      | (st, Panic) => (st, Panic)
      end
  end.

(** ** Side effects *)

Definition no_effects : PlanSideEffects := mkEffects [] [] [].
Definition add_event (e : ContractEvent) : XM () :=
  modify (λ s, (s.1, (s.2.1 ++ [e], s.2.2))).
Definition map_effects (f : PlanSideEffects → PlanSideEffects) : XM () :=
  modify (λ s, (s.1, (s.2.1, f s.2.2))).

(* @src src/runtime/src/settlement/engine.rs:348-411 SettlementEngine::apply_plan_with_effects *)
Definition collect_effect (now : Z) (op : ObjectOperation) : XM () :=
  match op with
  | EmitContractEvent c schema ty idx data => add_event (mkEvent c schema ty idx data now)
  | IBCTransfer c chan port denom amt receiver timeout =>
      map_effects (λ fx, mkEffects
        (ibc_hooks fx ++ [mkHook c chan port (Transfer denom amt receiver) timeout])
        (fx_schedules fx) (fx_bindings fx))
  | ScheduleExecution c schema method params at_epoch recurring interval max =>
      map_effects (λ fx, mkEffects (ibc_hooks fx)
        (fx_schedules fx ++ [mkSchedule (ScheduledExecution.compute_id c method at_epoch)
           c schema method params at_epoch recurring interval max 0 true]) (fx_bindings fx))
  | BindContractBalance c b schema asset label =>
      st ← gets fst;
      _ ← match ObjectStore.get st b with
          | None => on_fst (λ st,
              match ObjectStore.insert (OBalance (BalanceObject.new b c asset 0 now)) st with
              | Ok st' => (st', Ok tt)
              | Err e => (st, Err e)
              | Panic => (st, Panic)
              end)
          | Some _ => mret tt
          end;
      map_effects (λ fx, mkEffects (ibc_hooks fx) (fx_schedules fx)
        (fx_bindings fx ++ [mkBinding c b schema asset label]))
  | _ => mret tt
  end.

Definition with_events (r : ExecutionReceipt) (evs : list ContractEvent) : ExecutionReceipt :=
  mkReceipt (rc_tx_id r) (success r) (affected_objects r) (version_transitions r) (error r)
    (gas_used r) evs.

(* @src src/runtime/src/settlement/engine.rs:328-416 SettlementEngine::apply_plan_with_effects *)
Definition apply_plan_with_effects (plan : ExecutionPlan) (now : Z)
  : M ObjectStore Empty_set (ExecutionReceipt * PlanSideEffects) := λ st,
  match apply_plan plan st with
  | (st, Ok receipt) =>
      if negb (success receipt) then (st, Ok (receipt, no_effects)) else
      match mfor (collect_effect now) (operations plan) (st, (events receipt, no_effects)) with
      | ((st, (evs, fx)), Ok _) => (st, Ok (with_events receipt evs, fx))
      | ((st, _), Err e) => (st, Err e)
      | ((st, _), Panic) => (st, Panic)
      end
  | (st, Err e) => (st, Err e)
  | (st, Panic) => (st, Panic)
  end.

(** ** Groups *)

(** The collectors of [execute_groups] while plans run. *)
Definition start_result (now : Z) (total : nat) : SettlementResult :=
  mkResult now total 0 0 [] 0 [] [] [] [].

(* @src src/runtime/src/settlement/engine.rs:94-107 SettlementEngine::execute_groups *)
Definition record_plan (r : SettlementResult) (receipt : ExecutionReceipt)
    (fx : PlanSideEffects) : SettlementResult :=
  if success receipt then
    mkResult (epoch r) (total_plans r) (S (succeeded r)) (failed r) (receipts r ++ [receipt])
      (res_state_root r) (res_ibc_hooks r ++ ibc_hooks fx)
      (res_schedules r ++ fx_schedules fx) (balance_bindings r ++ fx_bindings fx)
      (all_events r ++ events receipt)
  else
    mkResult (epoch r) (total_plans r) (succeeded r) (S (failed r)) (receipts r ++ [receipt])
      (res_state_root r) (res_ibc_hooks r) (res_schedules r) (balance_bindings r) (all_events r).

(* @src src/runtime/src/settlement/engine.rs:92-129 SettlementEngine::execute_groups *)
Definition run_plan (now : Z) (plan : ExecutionPlan)
  : M (ObjectStore * SettlementResult) Empty_set () := λ s,
  match apply_plan_with_effects plan now s.1 with
  | (st, Ok (receipt, fx)) => ((st, record_plan s.2 receipt fx), Ok tt)
  | (st, Err e) => ((st, s.2), Err e)
  | (st, Panic) => ((st, s.2), Panic)
  end.

Definition group_le (g g' : ExecutionGroup) : Prop := (group_index g ≤ group_index g')%nat.
#[export] Instance group_le_dec : RelDecision group_le.
Proof. intros g g'. unfold group_le. apply _. Defined.

Definition set_root (r : SettlementResult) (root : id32) : SettlementResult :=
  mkResult (epoch r) (total_plans r) (succeeded r) (failed r) (receipts r) root
    (res_ibc_hooks r) (res_schedules r) (balance_bindings r) (all_events r).

(** The two branches of the loop over a group's plans run the same statements. *)
(* @src src/runtime/src/settlement/engine.rs:67-148 SettlementEngine::execute_groups *)
Definition execute_groups (groups : list ExecutionGroup) (now : Z)
  : M ObjectStore Empty_set SettlementResult := λ st,
  let total := sum_list (length <$> (plans <$> groups)) in
  match mfor (λ g, mfor (run_plan now) (plans g)) (merge_sort group_le groups)
          (st, start_result now total) with
  | ((st, r), Ok _) =>
      let st := ObjectStore.sync_typed_to_canonical st in
      (st, Ok (set_root r (ObjectStore.state_root st)))
  | ((st, _), Err e) => (st, Err e)
  | ((st, _), Panic) => (st, Panic)
  end.
End engine.
End SettlementEngine.
