(* ===== verification/Cells.v ===== *)
(** * The store seen one object at a time

    Everything the store holds under one id is a cell.  The settlement engine's
    operations act on one cell: they change no other, and what they do depends
    on that cell alone.  The lemmas of this file say so for the store methods
    and for the operations of a plan. *)

From stdpp Require Import gmap strings list sorting.
From S2P Require Import Prelude Errors Gas Objects Store FeeEnvelope Intents Planner.
From S2P Require Import Scheduler Artifacts Settlement.
Import SettlementEngine.

Record cell : Type := mkCell {
  c_object : option BoxedObject;
  c_balance : option BalanceObject;
  c_pool : option LiquidityPoolObject;
  c_vault : option VaultObject }.

Definition get_cell (st : ObjectStore) (i : id32) : cell :=
  mkCell (objects st !! i) (balances st !! i) (pools st !! i) (vaults st !! i).

Lemma store_ext st st' : (∀ i, get_cell st i = get_cell st' i) → st = st'.
Proof.
  intros Hc. destruct st, st'. f_equal; apply map_eq; intros i; pose proof (Hc i) as E;
    by injection E.
Qed.

(** ** The store methods on cells *)

Lemma cell_update f i st j :
  get_cell (ObjectStore.update f i st) j =
  if decide (i = j) then mkCell (f <$> c_object (get_cell st j)) (c_balance (get_cell st j))
    (c_pool (get_cell st j)) (c_vault (get_cell st j)) else get_cell st j.
Proof. unfold get_cell; cbn. rewrite lookup_alter. by destruct (decide (i = j)) as [->|]. Qed.
Lemma cell_update_balance f i st j :
  get_cell (ObjectStore.update_balance f i st) j =
  if decide (i = j) then mkCell (c_object (get_cell st j)) (f <$> c_balance (get_cell st j))
    (c_pool (get_cell st j)) (c_vault (get_cell st j)) else get_cell st j.
Proof. unfold get_cell; cbn. rewrite lookup_alter. by destruct (decide (i = j)) as [->|]. Qed.
Lemma cell_update_pool f i st j :
  get_cell (ObjectStore.update_pool f i st) j =
  if decide (i = j) then mkCell (c_object (get_cell st j)) (c_balance (get_cell st j))
    (f <$> c_pool (get_cell st j)) (c_vault (get_cell st j)) else get_cell st j.
Proof. unfold get_cell; cbn. rewrite lookup_alter. by destruct (decide (i = j)) as [->|]. Qed.
Lemma cell_update_vault f i st j :
  get_cell (ObjectStore.update_vault f i st) j =
  if decide (i = j) then mkCell (c_object (get_cell st j)) (c_balance (get_cell st j))
    (c_pool (get_cell st j)) (f <$> c_vault (get_cell st j)) else get_cell st j.
Proof. unfold get_cell; cbn. rewrite lookup_alter. by destruct (decide (i = j)) as [->|]. Qed.

Definition sync_cell (c : cell) : cell :=
  mkCell (match c_object c with
          | None => None
          | Some o => Some match c_vault c, c_pool c, c_balance c with
              | Some v, _, _ => OVault v
              | None, Some p, _ => OPool p
              | None, None, Some b => OBalance b
              | None, None, None => o
              end
          end) (c_balance c) (c_pool c) (c_vault c).

Lemma cell_sync st j :
  get_cell (ObjectStore.sync_typed_to_canonical st) j = sync_cell (get_cell st j).
Proof. unfold get_cell, sync_cell. by rewrite sync_objects_lookup. Qed.

Lemma cell_synced st j :
  store_inv st → synced st → sync_cell (get_cell st j) = get_cell st j.
Proof.
  intros Hinv (Hb & Hp & Hv). unfold sync_cell, get_cell; cbn. f_equal.
  destruct (objects st !! j) as [o|] eqn:Eo; [|done].
  destruct (vaults st !! j) as [v|] eqn:Ev; [pose proof (Hv _ _ Ev); congruence|].
  destruct (pools st !! j) as [p|] eqn:Ep; [pose proof (Hp _ _ Ep); congruence|].
  destruct (balances st !! j) as [b|] eqn:Eb; [pose proof (Hb _ _ Eb); congruence|]. done.
Qed.

Definition bump_cell (c : cell) : cell :=
  mkCell (Object.map_meta bump <$> c_object c)
    ((λ b, set_bal_meta b (bump (bal_meta b))) <$> c_balance c)
    ((λ p, set_pool_meta p (bump (pool_meta p))) <$> c_pool c)
    ((λ v, set_vault_meta v (bump (vault_meta v))) <$> c_vault c).

Lemma cell_bump i st j :
  get_cell (bump_version st i) j = if decide (i = j) then bump_cell (get_cell st j) else get_cell st j.
Proof.
  unfold bump_version. rewrite cell_update_vault, cell_update_pool, cell_update_balance, cell_update.
  by destruct (decide (i = j)) as [->|].
Qed.

Lemma cell_bumps l st j :
  NoDup l →
  get_cell (foldl bump_version st l) j =
  if decide (j ∈ l) then bump_cell (get_cell st j) else get_cell st j.
Proof.
  revert st. induction l as [|i l IH]; intros st Hnd; cbn.
  { by rewrite decide_False by apply not_elem_of_nil. }
  apply NoDup_cons in Hnd as [Hi Hnd]. rewrite (IH _ Hnd), cell_bump.
  destruct (decide (i = j)) as [->|Hne].
  - rewrite decide_False by done. by rewrite decide_True by left.
  - destruct (decide (j ∈ l)) as [Hj|Hj].
    + by rewrite decide_True by (by right).
    + rewrite decide_False; [done|]. by intros [?|?]%elem_of_cons.
Qed.

(** ** Sorting ids *)

Lemma elem_of_dedup l i : i ∈ dedup l ↔ i ∈ l.
Proof.
  induction l as [|a l IH]; [done|]. cbn.
  destruct (dedup l) as [|b l'] eqn:E; [|case_decide as Ha]; rewrite ?elem_of_cons, <- IH.
  - by rewrite elem_of_nil.
  - subst. rewrite elem_of_cons. tauto.
  - by rewrite elem_of_cons.
Qed.

Lemma dedup_head a l : StronglySorted Z.le (a :: l) → ∃ l', dedup (a :: l) = a :: l'.
Proof.
  intros Hs. cbn. destruct (dedup l) as [|b l'] eqn:E; [by eexists|].
  case_decide; subst; by eexists.
Qed.

Lemma NoDup_dedup l : StronglySorted Z.le l → NoDup (dedup l).
Proof.
  induction 1 as [|a l Hs IH Hf]; [constructor|]. cbn.
  destruct l as [|a' l]; [cbn; apply NoDup_singleton|].
  destruct (dedup_head a' l Hs) as [l' E]. rewrite E in IH |- *.
  case_decide as Ha; [done|]. apply NoDup_cons. split; [|done]. rewrite <- E, elem_of_dedup.
  intros Hin. assert (Hle : ∀ x, x ∈ a' :: l → a' ≤ x).
  { intros x [->|Hx]%elem_of_cons; [lia|]. apply StronglySorted_inv in Hs as [_ Hf'].
    rewrite Forall_forall in Hf'. by apply Hf'. }
  pose proof (Hle a Hin). rewrite Forall_forall in Hf. pose proof (Hf a' ltac:(left)). lia.
Qed.

Lemma elem_of_sort_dedup l i : i ∈ sort_dedup l ↔ i ∈ l.
Proof. unfold sort_dedup. by rewrite elem_of_dedup, merge_sort_Permutation. Qed.

Lemma NoDup_sort_dedup l : NoDup (sort_dedup l).
Proof. apply NoDup_dedup, StronglySorted_merge_sort; apply _. Qed.

(** ** Operations act on one cell *)

Definition creates (op : ObjectOperation) : bool :=
  match op with CreateToken _ _ _ _ _ _ => true | _ => false end.

(** A state transition's target is a contract. *)
Definition op_typed (st : ObjectStore) (op : ObjectOperation) : Prop :=
  match op with
  | ContractStateTransition c _ _ => ∃ c0, objects st !! c = Some (OContract c0)
  | _ => True
  end.

(** Unfolds one operation. *)
Ltac run_op :=
  unfold apply_op, get_or_fail, lift, modify_store, push_affected, insert_object, modify, throw,
    mbind, M_bind in *; rewrite ?insert_inserted in *; cbn [fst snd] in *.

Section local.
Context `{Sha256, Hex, BincodeLaws}.

(** [m] changes only the cell at [i], and what it does depends on that cell. *)
Definition local_at {A} (i : id32) (m : AM A) (st : ObjectStore) : Prop := ∀ aff,
  (∀ j, j ≠ i → get_cell (m (st, aff)).1.1 j = get_cell st j) ∧
  ∀ st2, store_inv st2 → get_cell st2 i = get_cell st i →
    (m (st2, aff)).2 = (m (st, aff)).2 ∧ (m (st2, aff)).1.2 = (m (st, aff)).1.2 ∧
    get_cell (m (st2, aff)).1.1 i = get_cell (m (st, aff)).1.1 i.

Lemma local_push (i j : id32) st : local_at i (push_affected j) st.
Proof. intros aff. split; [done|]. intros st2 _ Hc. done. Qed.

Ltac cells := rewrite ?cell_update_vault, ?cell_update_pool, ?cell_update_balance, ?cell_update.

(** Runs an operation that reads the component [proj] of its cell and writes it. *)
Ltac local_tac proj :=
  intros aff;
  unfold apply_op, get_or_fail, lift, modify_store, push_affected, modify, change_owner,
    mbind, M_bind; cbn -[get_cell ObjectStore.update ObjectStore.update_balance
      ObjectStore.update_pool ObjectStore.update_vault];
  split;
  [ intros j Hj; repeat (case_match; cbn [fst snd]; try done);
    cells; by rewrite ?decide_False by congruence
  | intros st2 _ Hc; pose proof (f_equal proj Hc) as Hp; cbn in Hp;
    unfold ObjectStore.get_balance_by_id, ObjectStore.get_pool_by_id, ObjectStore.get in *;
    rewrite Hp; repeat (case_match; cbn [fst snd]; try done);
    split_and!; [done..|]; cells; by rewrite Hc ].

Lemma contract_transition_result c schema proposed st c0 aff :
  store_inv st → objects st !! c = Some (OContract c0) →
  apply_op (ContractStateTransition c schema proposed) (st, aff) =
  ((inserted (OContract (next_contract c0 proposed)) st, aff ++ [c]), Ok tt) ∧
  id (Object.meta (OContract (next_contract c0 proposed))) = c.
Proof.
  intros Hinv Hc. split; [|exact (inv_ids _ Hinv _ _ Hc)].
  cbn. unfold get_or_fail, insert_object, push_affected, modify, mbind, M_bind, ObjectStore.get.
  cbn [fst snd]. rewrite Hc. cbn [ok_or]. rewrite decode_encode_contract.
  by rewrite insert_inserted.
Qed.

Lemma cell_inserted_contract c st j :
  get_cell (inserted (OContract c) st) j =
  if decide (id (con_meta c) = j) then mkCell (Some (OContract c)) (c_balance (get_cell st j))
    (c_pool (get_cell st j)) (c_vault (get_cell st j)) else get_cell st j.
Proof. unfold get_cell, inserted; cbn. rewrite lookup_insert. by case_decide. Qed.

Lemma apply_op_local op st :
  creates op = false → op_typed st op → store_inv st → local_at (op_target op) (apply_op op) st.
Proof.
  intros Hcr Hty Hinv. destruct op; try discriminate Hcr; cbn [op_target];
    try apply local_push.
  - local_tac c_balance.
  - local_tac c_balance.
  - local_tac c_pool.
  - local_tac c_balance.
  - local_tac c_balance.
  - local_tac c_object.
  - intros aff. destruct Hty as [c0 Hc0]. split.
    + intros j Hj. destruct (contract_transition_result _ schema_id proposed_state _ _ aff Hinv Hc0)
        as [-> Hid]. cbn [fst]. by rewrite cell_inserted_contract, decide_False by (cbn in *; congruence).
    + intros st2 Hinv2 Hc.
      destruct (contract_transition_result _ schema_id proposed_state _ _ aff Hinv Hc0) as [-> Hid].
      pose proof (f_equal c_object Hc) as Ho. cbn in Ho. rewrite Hc0 in Ho.
      destruct (contract_transition_result _ schema_id proposed_state _ _ aff Hinv2 Ho) as [-> _].
      cbn [fst snd]. split_and!; [done..|]. by rewrite !cell_inserted_contract, Hc.
Qed.

(** ** What operations never change: types, ids and versions *)

Definition sig (o : BoxedObject) : ObjectType * Z * Z := (shape o, version (Object.meta o)).
Definition meta_sig (m : ObjectMeta) : Z * Z := (id m, version m).
Definition sig_cell (c : cell) :=
  (sig <$> c_object c, (λ b, meta_sig (bal_meta b)) <$> c_balance c,
   (λ p, meta_sig (pool_meta p)) <$> c_pool c, (λ v, meta_sig (vault_meta v)) <$> c_vault c).
Definition sig_like (st st' : ObjectStore) : Prop :=
  ∀ i, sig_cell (get_cell st i) = sig_cell (get_cell st' i).

Lemma sig_like_refl st : sig_like st st.
Proof. done. Qed.
Lemma sig_like_trans st1 st2 st3 : sig_like st1 st2 → sig_like st2 st3 → sig_like st1 st3.
Proof. intros H12 H23 i. by rewrite H12. Qed.

Lemma fmap_fst_eq {A A' B C} (f : A → B * C) (g : A' → B * C) (x : option A) (y : option A') :
  f <$> x = g <$> y → fst ∘ f <$> x = fst ∘ g <$> y.
Proof. destruct x, y; cbn; congruence. Qed.

Lemma sig_like_store_like st st' : sig_like st st' → store_like st st'.
Proof.
  intros Hs. split; apply map_eq; intros i; specialize (Hs i); unfold sig_cell in Hs;
    injection Hs as H1' H2' H3' H4'; rewrite !lookup_fmap; cbn in *;
    [apply (fmap_fst_eq sig sig) in H1'|apply (fmap_fst_eq (λ b, meta_sig (bal_meta b))
      (λ b, meta_sig (bal_meta b))) in H2'|apply (fmap_fst_eq (λ b, meta_sig (pool_meta b))
      (λ b, meta_sig (pool_meta b))) in H3'|apply (fmap_fst_eq (λ b, meta_sig (vault_meta b))
      (λ b, meta_sig (vault_meta b))) in H4']; done.
Qed.

Lemma sig_like_inv st st' : sig_like st st' → store_inv st ↔ store_inv st'.
Proof. intros Hs%sig_like_store_like. by rewrite Hs. Qed.

Lemma sig_like_typed st st' op : sig_like st st' → op_typed st op → op_typed st' op.
Proof.
  intros Hs. destruct op; try done. intros [c0 Hc]. specialize (Hs contract_id).
  unfold sig_cell, get_cell in Hs; cbn in Hs. rewrite Hc in Hs. injection Hs as Hs _ _ _.
  cbn in Hs. destruct (objects st' !! contract_id) as [o|] eqn:Eo; [|done]. cbn in Hs.
  destruct o; cbn in Hs; try (unfold sig, shape in Hs; cbn in Hs; congruence).
  by eexists.
Qed.

Ltac sig_tac :=
  unfold apply_op, get_or_fail, lift, modify_store, push_affected, modify, change_owner,
    mbind, M_bind; cbn -[get_cell ObjectStore.update ObjectStore.update_balance
      ObjectStore.update_pool ObjectStore.update_vault];
  intros j; repeat (case_match; cbn [fst snd]; try done); cells;
  repeat case_decide; try done; unfold sig_cell, get_cell; cbn;
  repeat match goal with
  | |- context [_ <$> (?m !! ?i)] => destruct (m !! i) as [[]|]
  end; cbn; try done.

Lemma apply_op_sig op st aff :
  creates op = false → op_typed st op → store_inv st →
  sig_like (apply_op op (st, aff)).1.1 st.
Proof.
  intros Hcr Hty Hinv. destruct op; try discriminate Hcr; try apply sig_like_refl;
    try solve [sig_tac].
  destruct Hty as [c0 Hc0].
  destruct (contract_transition_result _ schema_id proposed_state _ _ aff Hinv Hc0) as [-> Hid].
  intros j. cbn [fst]. rewrite cell_inserted_contract. case_decide as Ej; [|done].
  assert (j = contract_id) as -> by (cbn in *; congruence).
  unfold sig_cell, get_cell; cbn. rewrite Hc0. done.
Qed.

Lemma apply_op_affected op st aff st' aff' :
  creates op = false → apply_op op (st, aff) = ((st', aff'), Ok tt) →
  aff' = aff ++ [op_target op].
Proof.
  intros Hcr E. destruct op; try discriminate Hcr; run_op;
    repeat (case_match; try done); simplify_eq; try done;
    rewrite insert_inserted in *; simplify_eq; done.
Qed.

Lemma apply_op_not_panic op s : (apply_op op s).2 ≠ Panic.
Proof.
  destruct op; run_op; unfold ok_or; try done;
    repeat (case_match; cbn [snd] in *; try congruence);
    rewrite insert_inserted in *; simplify_eq.
Qed.

(** ** Sequences of operations *)

Definition ops_ok (st : ObjectStore) (ops : list ObjectOperation) : Prop :=
  Forall (λ op, creates op = false ∧ op_typed st op) ops.

Lemma ops_ok_like st st' ops : sig_like st st' → ops_ok st ops → ops_ok st' ops.
Proof.
  intros Hs Hops. eapply Forall_impl; [exact Hops|]. cbn.
  intros op [? ?]. split; [done|by eapply sig_like_typed].
Qed.

(** What a run of operations keeps, whatever its result. *)
Record run_spec (st : ObjectStore) (ops : list ObjectOperation) (aff : list id32)
    (r : (ObjectStore * list id32) * outcome RuntimeError ()) : Prop := {
  run_sig : sig_like r.1.1 st;
  run_frame : ∀ j, j ∉ op_target <$> ops → get_cell r.1.1 j = get_cell st j;
  run_panic : r.2 ≠ Panic;
  run_affected : r.2 = Ok tt → r.1.2 = aff ++ (op_target <$> ops) }.

Lemma apply_ops_spec ops st aff :
  store_inv st → ops_ok st ops → run_spec st ops aff (mfor apply_op ops (st, aff)).
Proof.
  revert st aff. induction ops as [|op ops IH]; intros st aff Hinv Hok.
  { split; try done. intros _. cbn. by rewrite app_nil_r. }
  apply Forall_cons in Hok as [[Hcr Hty] Hok]. cbn [mfor]. unfold mbind, M_bind.
  pose proof (apply_op_sig op st aff Hcr Hty Hinv) as Hsig.
  destruct (apply_op_local op st Hcr Hty Hinv aff) as [Hframe _].
  pose proof (apply_op_not_panic op (st, aff)) as Hnp.
  pose proof (apply_op_affected op st aff) as Haff.
  destruct (apply_op op (st, aff)) as [[st1 aff1] [[]|e|]]; cbn [fst snd] in *; [| |done].
  - assert (sig_like st st1) as Hsig' by (intros j; by rewrite Hsig).
    destruct (IH st1 aff1) as [H1' H2' H3' H4'].
    { by apply (sig_like_inv _ _ Hsig'). }
    { by eapply ops_ok_like. }
    split; [by eapply sig_like_trans| |done|].
    + intros j [Hj Hj']%not_elem_of_cons. rewrite (H2' j Hj'). by apply Hframe.
    + intros E. rewrite (H4' E), (Haff st1 aff1 Hcr eq_refl). by rewrite <- app_assoc.
  - split; try done. intros j [Hj _]%not_elem_of_cons. by apply Hframe.
Qed.

Lemma apply_ops_local ops st st2 aff :
  store_inv st → store_inv st2 → ops_ok st ops →
  (∀ i, i ∈ op_target <$> ops → get_cell st2 i = get_cell st i) →
  let r := mfor apply_op ops (st, aff) in
  let r2 := mfor apply_op ops (st2, aff) in
  r2.2 = r.2 ∧ r2.1.2 = r.1.2 ∧
  ∀ i, i ∈ op_target <$> ops → get_cell r2.1.1 i = get_cell r.1.1 i.
Proof.
  revert st st2 aff. induction ops as [|op ops IH]; intros st st2 aff Hinv Hinv2 Hok Hc; [done|].
  apply Forall_cons in Hok as [[Hcr Hty] Hok]. cbn [mfor]. unfold mbind, M_bind.
  pose proof (Hc _ ltac:(left)) as Hc1.
  pose proof (apply_op_sig op st aff Hcr Hty Hinv) as Hsig.
  destruct (apply_op_local op st Hcr Hty Hinv aff) as [Hframe Hloc].
  destruct (Hloc st2 Hinv2 Hc1) as (E1 & E2 & E3).
  assert (op_typed st2 op) as Hty2.
  { destruct op; try done. destruct Hty as [c0 ?]. exists c0.
    pose proof (f_equal c_object Hc1) as E. cbn in E. congruence. }
  pose proof (apply_op_sig op st2 aff Hcr Hty2 Hinv2) as Hsig2.
  destruct (apply_op_local op st2 Hcr Hty2 Hinv2 aff) as [Hframe2 _].
  destruct (apply_op op (st, aff)) as [[st1 aff1] r] eqn:Er.
  destruct (apply_op op (st2, aff)) as [[st3 aff3] r2] eqn:Er2. cbn [fst snd] in *. subst r2 aff3.
  assert (∀ i, i ∈ op_target <$> op :: ops → get_cell st3 i = get_cell st1 i) as Hc'.
  { intros i Hi. destruct (decide (i = op_target op)) as [->|Hne]; [done|].
    rewrite (Hframe i Hne), (Hframe2 i Hne). by apply Hc. }
  destruct r as [[]|e|]; [|by split_and!..].
  assert (sig_like st st1) as Hsig' by (intros j; by rewrite Hsig).
  assert (sig_like st2 st3) as Hsig2' by (intros j; by rewrite Hsig2).
  destruct (IH st1 st3 aff1) as (F1 & F2 & F3).
  { by apply (sig_like_inv _ _ Hsig'). }
  { by apply (sig_like_inv _ _ Hsig2'). }
  { by eapply ops_ok_like. }
  { intros i Hi. apply Hc'. by right. }
  split_and!; [done..|]. intros i [->|Hi]%elem_of_cons; [|by apply F3].
  destruct (decide (op_target op ∈ op_target <$> ops)) as [Hin|Hnin]; [by apply F3|].
  assert (ops_ok st1 ops) as Hok1 by (by eapply ops_ok_like).
  assert (ops_ok st3 ops) as Hok3.
  { apply Forall_forall. intros o Ho. pose proof (proj1 (Forall_forall _ _) Hok1 o Ho) as [? Ht].
    split; [done|]. destruct o; try done. destruct Ht as [c0 ?]. exists c0.
    assert (get_cell st3 contract_id = get_cell st1 contract_id) as E.
    { apply Hc'. right. apply list_elem_of_fmap. by eexists (ContractStateTransition _ _ _). }
    pose proof (f_equal c_object E) as E'. cbn in E'. congruence. }
  rewrite (run_frame _ _ _ _ (apply_ops_spec ops st1 aff1
    (proj1 (sig_like_inv _ _ Hsig') Hinv) Hok1) _ Hnin).
  rewrite (run_frame _ _ _ _ (apply_ops_spec ops st3 aff1
    (proj1 (sig_like_inv _ _ Hsig2') Hinv2) Hok3) _ Hnin).
  apply Hc'. left.
Qed.
End local.
