(* ===== verification/SettlementFacts.v ===== *)
(** * Settlement: what plan application guarantees

    Lemmas about the phases of [apply_plan] (validation and gas, application,
    version bump), on top of the cell lemmas of file Cells. *)

From stdpp Require Import gmap strings list sorting.
From S2P Require Import Prelude Errors Gas Objects Concrete Store FeeEnvelope Intents.
From S2P Require Import Planner Scheduler Artifacts Settlement Cells.
Import SettlementEngine.

(** The gas of a plan: base cost, one read per declared object, each operation. *)
Definition plan_cost (p : ExecutionPlan) : Z :=
  base_tx default_costs + object_read default_costs * Z.of_nat (length (object_access p)) +
  sumZ ((λ op, op_gas_cost op default_costs) <$> operations p).

(** ** Charging while checking *)

Section charging.
Context {A : Type} (check : A → outcome RuntimeError ()) (cost : A → Z).
Hypothesis cost_nonneg : ∀ a, 0 ≤ cost a.

Lemma mfor_charge l m m' :
  meter_wf m → consumed m ≤ limit m →
  mfor (λ a, lift (check a) ≫= λ _, GasMeter.consume (cost a)) l m = (m', Ok tt) ↔
  Forall (λ a, check a = Ok tt) l ∧ consumed m + sumZ (cost <$> l) ≤ limit m ∧
  m' = set_consumed m (consumed m + sumZ (cost <$> l)).
Proof.
  revert m m'. induction l as [|a l IH]; intros m m' Hwf Hlim.
  { cbn. rewrite Z.add_0_r. unfold mret, M_ret. destruct m; cbn in *. split.
    - intros [= <-]. done.
    - by intros (_ & _ & ->). }
  cbn [mfor fmap list_fmap]. rewrite sumZ_cons, Forall_cons.
  assert (0 ≤ sumZ (cost <$> l)) as Hs.
  { apply sumZ_nonneg, Forall_forall. intros x (y & -> & _)%list_elem_of_fmap. apply cost_nonneg. }
  pose proof (cost_nonneg a) as Ha. rewrite Mbind_ok. split.
  - intros (m1 & [] & H1 & H2). apply Mbind_ok in H1 as (m0 & [] & H0 & H1).
    injection H0 as <- Hck. pose proof (consume_wf _ _ _ Hwf Ha H1) as Hwf1.
    apply consume_ok in H1 as (Hle & ->); [|done].
    apply IH in H2 as (? & ? & ->); [|done..]. cbn in *. split_and!; [done..|lia|].
    unfold set_consumed; cbn. f_equal. lia.
  - intros ([Hck Hl] & Hle & ->).
    assert (GasMeter.consume (cost a) m = (set_consumed m (consumed m + cost a), Ok tt)) as E.
    { apply consume_ok; [done|]. split; [lia|done]. }
    exists (set_consumed m (consumed m + cost a)), tt. split.
    + apply Mbind_ok. exists m, tt. split; [|done]. unfold lift. by rewrite Hck.
    + apply IH; [exact (consume_wf _ _ _ Hwf Ha E)|cbn; lia|]. cbn. split_and!; [done|lia|].
      unfold set_consumed; cbn. f_equal. lia.
Qed.
End charging.

Section reading.
Context {A B : Type} (read : A → outcome RuntimeError B) (c : Z).
Hypothesis c_nonneg : 0 ≤ c.

Lemma mmap_charge l m m' bs :
  meter_wf m → consumed m ≤ limit m →
  mmap (λ a, lift (read a) ≫= λ b, GasMeter.consume c ≫= λ _, mret b) l m = (m', Ok bs) ↔
  Forall2 (λ a b, read a = Ok b) l bs ∧ consumed m + c * Z.of_nat (length l) ≤ limit m ∧
  m' = set_consumed m (consumed m + c * Z.of_nat (length l)).
Proof.
  revert m m' bs. induction l as [|a l IH]; intros m m' bs Hwf Hlim.
  { cbn. rewrite Z.mul_0_r, Z.add_0_r. unfold mret, M_ret. destruct m; cbn in *. split.
    - intros [= <- <-]. done.
    - intros (Hf & _ & ->). apply Forall2_nil_inv_l in Hf as ->. done. }
  cbn [mmap length]. rewrite Nat2Z.inj_succ, Z.mul_succ_r.
  rewrite Mbind_ok. split.
  - intros (m1 & b & H1 & H2). apply Mbind_ok in H1 as (m0 & b0 & H0 & H1).
    apply Mbind_ok in H1 as (m2 & [] & H1 & H3). injection H3 as <- <-.
    injection H0 as <- Hr. pose proof (consume_wf _ _ _ Hwf c_nonneg H1) as Hwf1.
    apply consume_ok in H1 as (Hle & ->); [|done].
    apply Mbind_ok in H2 as (m3 & bs' & H2 & H3). injection H3 as <- <-.
    apply IH in H2 as (? & ? & ->); [|done..]. cbn in *. split_and!; [by constructor|lia|].
    unfold set_consumed; cbn. f_equal. lia.
  - intros (Hf & Hle & ->). apply Forall2_cons_inv_l in Hf as (b & bs' & Hr & Hf & ->).
    assert (GasMeter.consume c m = (set_consumed m (consumed m + c), Ok tt)) as E.
    { apply consume_ok; [done|]. split; [nia|done]. }
    exists (set_consumed m (consumed m + c)), b. split.
    + apply Mbind_ok. exists m, b. split; [unfold lift; by rewrite Hr|].
      apply Mbind_ok. by exists (set_consumed m (consumed m + c)), tt.
    + apply Mbind_ok. exists (set_consumed m (consumed m + (c * Z.of_nat (length l) + c))), bs'.
      split; [|done].
      apply IH; [exact (consume_wf _ _ _ Hwf c_nonneg E)|cbn; nia|]. cbn. split_and!; [done|lia|].
      unfold set_consumed; cbn. f_equal. lia.
Qed.
End reading.

Section facts.
Context `{Sha256, Hex, BincodeLaws}.
Implicit Types (st : ObjectStore) (p : ExecutionPlan) (op : ObjectOperation).

Lemma op_gas_cost_nonneg op : 0 ≤ op_gas_cost op default_costs.
Proof.
  destruct op; cbn [op_gas_cost];
    first [exact (proj1 (wrapu_fits 64 _ ltac:(done))) | by apply (bool_decide_unpack _)].
Qed.

Lemma plan_cost_parts p :
  0 ≤ sumZ ((λ op, op_gas_cost op default_costs) <$> operations p).
Proof.
  apply sumZ_nonneg, Forall_forall. intros x (op & -> & _)%list_elem_of_fmap.
  apply op_gas_cost_nonneg.
Qed.

Lemma new_meter_wf l : fits 64 l → meter_wf (GasMeter.new l) ∧ consumed (GasMeter.new l) ≤ limit (GasMeter.new l).
Proof. intros Hl. split; [by split_and!; [|exact Hl|by_eval]|destruct Hl; done]. Qed.

(** The checking phases succeed exactly when every declared object exists, every
    operation validates and the plan's gas is within its limit. *)
Lemma check_plan_ok p st m olds :
  fits 64 (gas_limit p) →
  check_plan p st (GasMeter.new (gas_limit p)) = (m, Ok olds) ↔
  Forall2 (λ a v, ∃ o, ObjectStore.get st (object_id a) = Some o ∧
    v = (object_id a, version (Object.meta o))) (object_access p) olds ∧
  Forall (λ op, validate_op op st = Ok tt) (operations p) ∧
  plan_cost p ≤ gas_limit p ∧
  m = set_consumed (GasMeter.new (gas_limit p)) (plan_cost p).
Proof.
  intros Hfit. destruct (new_meter_wf _ Hfit) as [Hwf Hlim].
  set (m0 := GasMeter.new (gas_limit p)) in *.
  assert (∀ a v, (ok_or (ObjectStore.get st (object_id a)) (ObjectNotFound (object_id a))
      ≫= λ obj, Ok (object_id a, version (Object.meta obj))) = (Ok v : outcome RuntimeError _) ↔
    ∃ o, ObjectStore.get st (object_id a) = Some o ∧ v = (object_id a, version (Object.meta o)))
    as Hread.
  { intros a v. destruct (ObjectStore.get st (object_id a)); cbn; naive_solver. }
  unfold check_plan. split.
  - intros E. apply Mbind_ok in E as (? & ? & [= <- <-] & E).
    apply Mbind_ok in E as (m1 & [] & E1 & E). change (costs m0) with default_costs in *.
    pose proof (consume_wf (base_tx default_costs) _ _ Hwf ltac:(done) E1) as Hwf1.
    apply consume_ok in E1 as (Hle1 & ->); [|done].
    apply Mbind_ok in E as (m2 & bs & E2 & E).
    assert (E2' : mmap (λ a, lift (ok_or (ObjectStore.get st (object_id a))
       (ObjectNotFound (object_id a)) ≫= λ obj, Ok (object_id a, version (Object.meta obj)))
       ≫= λ b, GasMeter.consume (object_read default_costs) ≫= λ _, mret b) (object_access p)
       (set_consumed m0 (consumed m0 + base_tx default_costs)) = (m2, Ok bs)).
    { rewrite <- E2. clear. generalize (set_consumed m0 (consumed m0 + base_tx default_costs)).
      induction (object_access p) as [|a l IH]; intros m; [done|]. cbn [mmap].
      unfold mbind, M_bind, lift. destruct (ObjectStore.get st (object_id a)); cbn; [|done].
      destruct (GasMeter.consume _ m) as [m1 []]; cbn; [|done..]. by rewrite IH. }
    apply mmap_charge in E2' as (Hf & Hle2 & ->); [|done..].
    apply Mbind_ok in E as (m3 & [] & E3 & E). injection E as <- <-.
    apply (mfor_charge (λ op, validate_op op st) (λ op, op_gas_cost op default_costs)
      op_gas_cost_nonneg) in E3 as (Hv & Hle3 & ->).
    + split_and!; [|done| |].
      * eapply Forall2_impl; [exact Hf|]. intros a v. apply Hread.
      * unfold plan_cost. cbn in *. lia.
      * unfold plan_cost, set_consumed; cbn. f_equal; lia.
    + destruct Hwf1 as (? & ? & ?), Hfit.
      split_and!; cbn in *; first [done | split; lia].
    + done.
  - intros (Hf & Hv & Hcost & ->). pose proof (plan_cost_parts p) as Hops.
    unfold plan_cost in Hcost.
    apply Mbind_ok. exists m0, default_costs. split; [done|].
    apply Mbind_ok. exists (set_consumed m0 (base_tx default_costs)), tt. split.
    { apply consume_ok; [done|]. cbn in *. split; [lia|done]. }
    apply Mbind_ok. exists (set_consumed m0 (base_tx default_costs +
      object_read default_costs * Z.of_nat (length (object_access p)))), olds. split.
    { trans (mmap (λ a, lift (ok_or (ObjectStore.get st (object_id a))
       (ObjectNotFound (object_id a)) ≫= λ obj, Ok (object_id a, version (Object.meta obj)))
       ≫= λ b, GasMeter.consume (object_read default_costs) ≫= λ _, mret b) (object_access p)
       (set_consumed m0 (base_tx default_costs))).
      - generalize (set_consumed m0 (base_tx default_costs)). clear.
        induction (object_access p) as [|a l IH]; intros m; [done|]. cbn [mmap].
        unfold mbind, M_bind, lift. destruct (ObjectStore.get st (object_id a)); cbn; [|done].
        destruct (GasMeter.consume _ m) as [m1 []]; cbn; [|done..]. by rewrite IH.
      - apply mmap_charge; [done|split_and!; [done..|by_eval]|cbn in *; lia|]. split_and!.
        + eapply Forall2_impl; [exact Hf|]. intros a v. apply Hread.
        + cbn in *. lia.
        + done. }
    apply Mbind_ok. exists (set_consumed m0 (plan_cost p)), tt. split; [|done].
    apply (mfor_charge (λ op, validate_op op st) (λ op, op_gas_cost op default_costs)
      op_gas_cost_nonneg); cbn in *.
    + destruct Hfit. split_and!; cbn in *; first [done | split; lia].
    + lia.
    + split_and!; [done|lia|]. unfold plan_cost, set_consumed; cbn. done.
Qed.

(** ** Validation *)

Lemma validate_op_not_panic op st : validate_op op st ≠ Panic.
Proof.
  destruct op; cbn [validate_op];
    unfold validate_transition, need_balance, need_pool, need_object, ok_or;
    repeat (case_match; cbn [mbind outcome_bind]; try done); repeat case_decide; done.
Qed.

Lemma validate_op_typed op st : validate_op op st = Ok tt → op_typed st op.
Proof.
  destruct op; try done. cbn [validate_op op_typed]. unfold validate_transition, need_object.
  intros (o & Ho & E)%obind_ok. apply obind_ok in E as ([] & E & _).
  unfold ObjectStore.get in Ho. destruct (objects st !! contract_id) as [o'|] eqn:Eo; [|done].
  injection Ho as ->. destruct o; try done. by eexists.
Qed.

Lemma validated_ops_ok p st :
  Forall (λ op, creates op = false) (operations p) →
  Forall (λ op, validate_op op st = Ok tt) (operations p) → ops_ok st (operations p).
Proof.
  rewrite !Forall_forall. intros Hc Hv. apply Forall_forall. intros op Hop.
  split; [by apply Hc|]. by apply validate_op_typed, Hv.
Qed.

Lemma mmap_not_panic {S E A B} (f : A → M S E B) l s :
  (∀ a s, (f a s).2 ≠ Panic) → (mmap f l s).2 ≠ Panic.
Proof.
  intros Hf. revert s. induction l as [|a l IH]; intros s; [done|]. cbn [mmap].
  unfold mbind, M_bind. pose proof (Hf a s). destruct (f a s) as [s1 []]; cbn in *; [|done..].
  pose proof (IH s1). by destruct (mmap f l s1) as [s2 []].
Qed.
Lemma mfor_not_panic {S E A} (f : A → M S E ()) l s :
  (∀ a s, (f a s).2 ≠ Panic) → (mfor f l s).2 ≠ Panic.
Proof.
  intros Hf. revert s. induction l as [|a l IH]; intros s; [done|]. cbn [mfor].
  unfold mbind, M_bind. pose proof (Hf a s). destruct (f a s) as [s1 []]; cbn in *; [|done..].
  apply IH.
Qed.
Lemma Mbind_not_panic {S E A B} (m : M S E A) (f : A → M S E B) s :
  (m s).2 ≠ Panic → (∀ a s, (f a s).2 ≠ Panic) → ((m ≫= f) s).2 ≠ Panic.
Proof. unfold mbind, M_bind. destruct (m s) as [s1 []]; cbn; auto. Qed.

Lemma check_plan_not_panic p st m : (check_plan p st m).2 ≠ Panic.
Proof.
  unfold check_plan. apply Mbind_not_panic; [done|]. intros c s.
  apply Mbind_not_panic; [apply consume_not_panic|]. intros _ s1.
  apply Mbind_not_panic.
  - apply mmap_not_panic. intros a s2. apply Mbind_not_panic; [by destruct (ObjectStore.get st _)|].
    intros o s3. apply Mbind_not_panic; [apply consume_not_panic|done].
  - intros olds s2. apply Mbind_not_panic; [|done]. apply mfor_not_panic. intros op s3.
    apply Mbind_not_panic; [apply validate_op_not_panic|]. intros _ s4. apply consume_not_panic.
Qed.

(** ** The commit phase *)

Definition targets p : list id32 := op_target <$> operations p.
Definition no_create p : Prop := Forall (λ op, creates op = false) (operations p).

Lemma bump_version_like st i : store_like (bump_version st i) st.
Proof.
  unfold bump_version. etrans; [by apply update_vault_like|]. etrans; [by apply update_pool_like|].
  etrans; [by apply update_balance_like|]. apply update_like. by intros [].
Qed.
Lemma bump_versions_like l st : store_like (foldl bump_version st l) st.
Proof.
  revert st. induction l as [|i l IH]; intros st; [reflexivity|]. cbn. etrans; [apply IH|].
  apply bump_version_like.
Qed.

Lemma resolver_no_create p : forallb resolver_op (operations p) = true → no_create p.
Proof.
  intros Hk. apply Forall_forall. intros op Hop. apply list_elem_of_In in Hop.
  pose proof (proj1 (forallb_forall _ _) Hk op Hop). by destruct op.
Qed.
(** The run of the operations, before versions move. *)
Definition run p st := mfor apply_op (operations p) (st, []).

Lemma run_spec_of p st :
  store_inv st → ops_ok st (operations p) → run_spec st (operations p) [] (run p st).
Proof. intros. by apply apply_ops_spec. Qed.

Lemma run_inv p st : store_inv st → ops_ok st (operations p) → store_inv (run p st).1.1.
Proof.
  intros Hinv Hok. destruct (run_spec_of p st Hinv Hok) as [Hs _ _ _].
  by apply (sig_like_inv _ _ Hs).
Qed.

Lemma commit_plan_spec p st :
  store_inv st → ops_ok st (operations p) →
  let r := run p st in
  commit_plan p st =
  match r.2 with
  | Ok _ => (ObjectStore.sync_typed_to_canonical
               (foldl bump_version r.1.1 (sort_dedup (targets p))), Ok (sort_dedup (targets p)))
  | Err e => (r.1.1, Err e)
  | Panic => (r.1.1, Panic)
  end.
Proof.
  intros Hinv Hok r. destruct (run_spec_of p st Hinv Hok) as [_ _ _ Ha]. fold r in Ha.
  unfold commit_plan. change (mfor apply_op (operations p) (st, [])) with r.
  destruct r as [[st1 aff] [[]|e|]]; cbn in *; [|done..]. by rewrite (Ha eq_refl).
Qed.

Definition committed p st : ObjectStore :=
  ObjectStore.sync_typed_to_canonical
    (foldl bump_version (run p st).1.1 (sort_dedup (targets p))).

Lemma committed_inv p st : store_inv st → ops_ok st (operations p) →
  store_inv (committed p st) ∧ synced (committed p st).
Proof.
  intros Hinv Hok. pose proof (run_inv p st Hinv Hok) as Hr.
  assert (store_inv (foldl bump_version (run p st).1.1 (sort_dedup (targets p))))
    by (by rewrite bump_versions_like).
  split; [by apply sync_inv|by apply sync_synced].
Qed.

Lemma committed_cell p st j :
  store_inv st → synced st → ops_ok st (operations p) →
  get_cell (committed p st) j =
  if decide (j ∈ targets p) then sync_cell (bump_cell (get_cell (run p st).1.1 j))
  else get_cell st j.
Proof.
  intros Hinv Hsync Hok. unfold committed. rewrite cell_sync, cell_bumps by apply NoDup_sort_dedup.
  destruct (decide (j ∈ targets p)) as [Hj|Hj].
  - by rewrite decide_True by (by apply elem_of_sort_dedup).
  - rewrite decide_False by (by rewrite elem_of_sort_dedup).
    rewrite (run_frame _ _ _ _ (run_spec_of p st Hinv Hok) j Hj). by apply cell_synced.
Qed.

(** A synced cell after a run: one type, and the version one up. *)
Lemma sync_bump_object st c j o :
  store_inv st → synced st → sig_cell c = sig_cell (get_cell st j) →
  objects st !! j = Some o →
  ∃ o', c_object (sync_cell (bump_cell c)) = Some o' ∧
    Object.object_type o' = Object.object_type o ∧
    version (Object.meta o') = wrapu 64 (version (Object.meta o) + 1).
Proof.
  intros Hinv (Hb & Hp & Hv) Hs Ho. pose proof (inv_overlays_disjoint st j Hinv) as [Hd1 Hd2].
  unfold sig_cell, get_cell in Hs; cbn in Hs. rewrite Ho in Hs. injection Hs as H1' H2' H3' H4'.
  unfold sync_cell; cbn.
  destruct (c_object c) as [o1|] eqn:E1; [|done]. cbn in H1'. injection H1' as H1'. cbn.
  unfold shape, meta_sig in *.
  destruct (c_vault c) as [v|]; cbn in *.
  { destruct (vaults st !! j) as [v0|] eqn:E; [|done]. eexists. split; [done|].
    pose proof (Hv _ _ E) as Ho'. rewrite Ho in Ho'. injection Ho' as ->. cbn in *.
    split; congruence. }
  destruct (c_pool c) as [q|]; cbn in *.
  { destruct (pools st !! j) as [v0|] eqn:E; [|done]. eexists. split; [done|].
    pose proof (Hp _ _ E) as Ho'. rewrite Ho in Ho'. injection Ho' as ->. cbn in *.
    split; congruence. }
  destruct (c_balance c) as [b|]; cbn in *.
  { destruct (balances st !! j) as [v0|] eqn:E; [|done]. eexists. split; [done|].
    pose proof (Hb _ _ E) as Ho'. rewrite Ho in Ho'. injection Ho' as ->. cbn in *.
    split; congruence. }
  eexists. split; [done|]. autorewrite with objects. cbn. split; congruence.
Qed.

(** ** The outcomes of [apply_plan] *)

(** Checking fails and nothing happens, or it succeeds and the plan is run. *)
Lemma apply_plan_cases p st :
  fits 64 (gas_limit p) →
  (∃ m e, check_plan p st (GasMeter.new (gas_limit p)) = (m, Err e) ∧
     apply_plan p st = (st, Ok (fail_receipt p m e))) ∨
  (∃ olds, check_plan p st (GasMeter.new (gas_limit p)) =
       (set_consumed (GasMeter.new (gas_limit p)) (plan_cost p), Ok olds) ∧
     Forall (λ op, validate_op op st = Ok tt) (operations p) ∧
     plan_cost p ≤ gas_limit p ∧
     apply_plan p st =
       match commit_plan p st with
       | (st', Ok ids) => (st', Ok (mkReceipt (plan_tx_id p) true ids
                                  (transition st' <$> olds) None (plan_cost p) []))
       | (st', Err e) => (st', Ok (fail_receipt p
           (set_consumed (GasMeter.new (gas_limit p)) (plan_cost p)) e))
       | (st', Panic) => (st', Panic)
       end).
Proof.
  intros Hfit. pose proof (check_plan_not_panic p st (GasMeter.new (gas_limit p))) as Hnp.
  unfold apply_plan. destruct (check_plan p st _) as [m [olds|e|]] eqn:E; [|left; by eauto|done].
  right. apply check_plan_ok in E as (_ & Hv & Hle & ->); [|done].
  exists olds. by split_and!.
Qed.

(** A plan that creates no token: it fails in the checks and changes nothing,
    fails while it is applied, or succeeds. *)
Lemma apply_plan_outcome p st :
  fits 64 (gas_limit p) → store_inv st → no_create p →
  (∃ r, apply_plan p st = (st, Ok r) ∧ success r = false) ∨
  (ops_ok st (operations p) ∧ ∃ e r, (run p st).2 = Err e ∧
     apply_plan p st = ((run p st).1.1, Ok r) ∧ success r = false) ∨
  (ops_ok st (operations p) ∧ Forall (λ op, validate_op op st = Ok tt) (operations p) ∧
   plan_cost p ≤ gas_limit p ∧
   (run p st).2 = Ok tt ∧ ∃ olds,
     apply_plan p st = (committed p st, Ok (mkReceipt (plan_tx_id p) true
       (sort_dedup (targets p)) (transition (committed p st) <$> olds) None (plan_cost p) []))).
Proof.
  intros Hfit Hinv Hnc. destruct (apply_plan_cases p st Hfit)
    as [(m & e & _ & E)|(olds & _ & Hv & Hle & E)]; [left; by eexists|right].
  pose proof (validated_ops_ok p st Hnc Hv) as Hok.
  rewrite (commit_plan_spec p st Hinv Hok) in E.
  pose proof (run_panic _ _ _ _ (run_spec_of p st Hinv Hok)) as Hp.
  destruct (run p st) as [[st1 aff] [[]|e|]] eqn:Er; cbn [fst snd] in *; [right|left|done].
  - split_and!; [done..|]. exists olds. unfold committed. by rewrite Er.
  - split; [done|]. by eexists _, _.
Qed.
End facts.

(** ** A well-formed, synced store for sample runs *)

Definition settled_store : ObjectStore := ObjectStore.sync_typed_to_canonical sample_store.
Lemma settled_inv : store_inv settled_store.
Proof. apply sync_inv, sample_store_inv. Qed.
Lemma settled_synced : synced settled_store.
Proof. apply sync_synced, sample_store_inv. Qed.
