(* ===== verification/SettlementProps.v ===== *)
(** * Settlement: the properties

    Atomicity, gas, versions, conservation and independence of plan
    application, and the aggregate result of executing groups. *)

From stdpp Require Import gmap strings list sorting.
From S2P Require Import Prelude Errors Gas Objects Concrete Store FeeEnvelope Intents.
From S2P Require Import Planner Scheduler Artifacts Settlement Cells SettlementFacts.
Import SettlementEngine.

(** ** Amounts *)

Definition balances_fit (st : ObjectStore) : Prop :=
  ∀ i b, balances st !! i = Some b → fits 128 (amount b) ∧ fits 128 (locked_amount b).

Definition op_fits (op : ObjectOperation) : Prop :=
  match op with
  | DebitBalance _ a | CreditBalance _ a | LockBalance _ a | UnlockBalance _ a => fits 128 a
  | _ => True
  end.

Definition debit_of (i : id32) (op : ObjectOperation) : Z :=
  match op with DebitBalance j a => if decide (j = i) then a else 0 | _ => 0 end.
Definition unlock_of (i : id32) (op : ObjectOperation) : Z :=
  match op with UnlockBalance j a => if decide (j = i) then a else 0 | _ => 0 end.

(** All the plan's debits of a balance together are in its amount, and all its
    unlocks in what is locked. *)
Definition covered (st : ObjectStore) (ops : list ObjectOperation) : Prop :=
  ∀ i b, balances st !! i = Some b →
    sumZ (debit_of i <$> ops) ≤ amount b ∧ sumZ (unlock_of i <$> ops) ≤ locked_amount b.

(** The entry an operation reads is there. *)
Definition op_ready (st : ObjectStore) (op : ObjectOperation) : Prop :=
  match op with
  | DebitBalance i _ | CreditBalance i _ | LockBalance i _ | UnlockBalance i _ =>
      is_Some (balances st !! i)
  | SwapPoolAmounts i _ _ => is_Some (pools st !! i)
  | TransferOwnership i _ => is_Some (objects st !! i)
  | _ => True
  end.

(** What is known of balance [i] in a covered sequence. *)
Ltac op_facts Hcov Hbf Hpos i b Hb :=
  let Hd := fresh "Hd" in let Hu := fresh "Hu" in
  destruct (Hcov i b Hb) as [Hd Hu]; cbn [fmap list_fmap debit_of unlock_of] in Hd, Hu;
  rewrite sumZ_cons in Hd, Hu; try rewrite decide_True in Hd by done;
  try rewrite decide_True in Hu by done;
  pose proof (Hbf i b Hb) as [? ?]; pose proof (Hpos i) as [? ?].

Section lemmas.
Context `{Sha256, Hex, BincodeLaws}.
Implicit Types (st : ObjectStore) (p : ExecutionPlan) (op : ObjectOperation).

Lemma validate_op_ready op st : validate_op op st = Ok tt → op_ready st op.
Proof.
  destruct op; try done; cbn [validate_op op_ready]; unfold need_balance, need_pool, need_object;
    intros E; apply obind_ok in E as (x & E & _);
    unfold ObjectStore.get_balance_by_id, ObjectStore.get_pool_by_id, ObjectStore.get in E;
    by destruct (_ !! _).
Qed.

Lemma sig_like_ready st st' op : sig_like st st' → op_ready st op → op_ready st' op.
Proof.
  intros Hs. destruct op; try done; cbn.
  all: match goal with |- is_Some (_ !! ?i) → _ => specialize (Hs i) end;
    unfold sig_cell, get_cell in Hs; cbn in Hs; injection Hs as H1' H2' H3' H4'.
  1-2,4-5: by destruct (balances st !! _), (balances st' !! _); cbn in *; naive_solver.
  - by destruct (pools st !! _), (pools st' !! _); cbn in *; naive_solver.
  - by destruct (objects st !! _), (objects st' !! _); cbn in *; naive_solver.
Qed.

(** One operation of a covered sequence succeeds, and the rest is covered. *)
Lemma apply_op_covered op ops st aff :
  store_inv st → creates op = false → op_typed st op → op_ready st op → op_fits op →
  Forall op_fits ops → balances_fit st → covered st (op :: ops) →
  ∃ st', apply_op op (st, aff) = ((st', aff ++ [op_target op]), Ok tt) ∧
    balances_fit st' ∧ covered st' ops.
Proof.
  intros Hinv Hcr Hty Hr Hf Hfs Hbf Hcov.
  assert (∀ i, 0 ≤ sumZ (debit_of i <$> ops) ∧ 0 ≤ sumZ (unlock_of i <$> ops)) as Hpos.
  { intros i. split; apply sumZ_nonneg, Forall_forall; intros x (o & -> & Ho)%list_elem_of_fmap;
      pose proof (proj1 (Forall_forall _ _) Hfs o Ho) as Hfo; destruct o; cbn; try lia;
      case_decide; try lia; apply Hfo. }
  (** The operations that leave the balances alone. *)
  assert (∀ st', balances st' = balances st → (∀ i, debit_of i op = 0 ∧ unlock_of i op = 0) →
    balances_fit st' ∧ covered st' ops) as Hsame.
  { intros st' E Hz. unfold balances_fit, covered in *. rewrite E. split; [done|].
    intros i b Hb. destruct (Hcov i b Hb) as [Hd Hu]. cbn [fmap list_fmap] in Hd, Hu.
    rewrite sumZ_cons in Hd, Hu. destruct (Hz i). lia. }
  (** A change of one balance. *)
  assert (∀ i f b, balances st !! i = Some b → fits 128 (amount (f b)) → fits 128 (locked_amount (f b)) →
    sumZ (debit_of i <$> ops) ≤ amount (f b) → sumZ (unlock_of i <$> ops) ≤ locked_amount (f b) →
    (∀ j, j ≠ i → debit_of j op = 0 ∧ unlock_of j op = 0) →
    balances_fit (ObjectStore.update_balance f i st) ∧
    covered (ObjectStore.update_balance f i st) ops) as Hupd.
  { intros i f b Hb Ha Hl Hd Hu Hz. split; intros j c; cbn; rewrite lookup_alter; case_decide as E.
    - subst. rewrite Hb. intros [= <-]. done.
    - apply Hbf.
    - subst. rewrite Hb. intros [= <-]. done.
    - intros Hc. destruct (Hcov j c Hc) as [Hd' Hu']. cbn [fmap list_fmap] in Hd', Hu'.
      rewrite sumZ_cons in Hd', Hu'. destruct (Hz j) as [? ?]; [done|]. lia. }
  destruct op; try discriminate Hcr; cbn [op_ready op_fits] in *;
    try (eexists; split; [reflexivity|apply Hsame; [done|by intros]]).
  - destruct Hr as [b Hb]. op_facts Hcov Hbf Hpos balance_id b Hb.
    eexists. split.
    + run_op. unfold ObjectStore.get_balance_by_id. rewrite Hb. cbn [ok_or].
      unfold checked_sub. rewrite decide_True by lia. reflexivity.
    + apply (Hupd balance_id _ b Hb); cbn [set_amount set_locked Objects.amount Objects.locked_amount]; [ints|done|lia|lia|].
      intros j Hj. cbn. by rewrite decide_False by congruence.
  - destruct Hr as [b Hb]. op_facts Hcov Hbf Hpos balance_id b Hb.
    eexists. split.
    + run_op. unfold ObjectStore.get_balance_by_id. rewrite Hb. reflexivity.
    + apply (Hupd balance_id _ b Hb); cbn [set_amount set_locked Objects.amount Objects.locked_amount]; [ints|done|ints|lia|by intros].
  - destruct Hr as [q Hq]. eexists. split.
    + run_op. unfold ObjectStore.get_pool_by_id. rewrite Hq. reflexivity.
    + apply Hsame; [done|by intros].
  - destruct Hr as [b Hb]. op_facts Hcov Hbf Hpos balance_id b Hb.
    eexists. split.
    + run_op. unfold ObjectStore.get_balance_by_id. rewrite Hb. reflexivity.
    + apply (Hupd balance_id _ b Hb); cbn [set_amount set_locked Objects.amount Objects.locked_amount]; [done|ints|lia|ints|by intros].
  - destruct Hr as [b Hb]. op_facts Hcov Hbf Hpos balance_id b Hb.
    eexists. split.
    + run_op. unfold ObjectStore.get_balance_by_id. rewrite Hb. cbn [ok_or].
      unfold checked_sub. rewrite decide_True by lia. reflexivity.
    + apply (Hupd balance_id _ b Hb); cbn [set_amount set_locked Objects.amount Objects.locked_amount]; [done|ints|lia|lia|].
      intros j Hj. cbn. by rewrite decide_False by congruence.
  - destruct Hr as [o Ho]. eexists. split.
    + run_op. unfold ObjectStore.get. rewrite Ho. reflexivity.
    + split; intros j c; cbn; rewrite lookup_alter; case_decide as E; try subst j.
      * intros (b & Hb & ->)%fmap_Some. exact (Hbf _ _ Hb).
      * apply Hbf.
      * intros (b & Hb & ->)%fmap_Some. op_facts Hcov Hbf Hpos object_id b Hb.
        cbn [set_bal_owner set_bal_meta Objects.amount Objects.locked_amount]. lia.
      * intros Hc. op_facts Hcov Hbf Hpos j c Hc. lia.
  - destruct Hty as [c0 Hc0].
    destruct (contract_transition_result _ schema_id proposed_state _ _ aff Hinv Hc0) as [E _].
    eexists. split; [exact E|]. apply Hsame; [done|by intros].
Qed.

Lemma run_covered ops st aff :
  store_inv st → ops_ok st ops → Forall (op_ready st) ops → Forall op_fits ops →
  balances_fit st → covered st ops → (mfor apply_op ops (st, aff)).2 = Ok tt.
Proof.
  revert st aff. induction ops as [|op ops IH]; intros st aff Hinv Hok Hr Hf Hbf Hcov; [done|].
  apply Forall_cons in Hok as [[Hcr Hty] Hok], Hr as [Hr Hrs], Hf as [Hf Hfs].
  destruct (apply_op_covered op ops st aff Hinv Hcr Hty Hr Hf Hfs Hbf Hcov) as (st' & E & Hbf' & Hcov').
  cbn [mfor]. unfold mbind, M_bind. rewrite E.
  pose proof (apply_op_sig op st aff Hcr Hty Hinv) as Hsig. rewrite E in Hsig. cbn in Hsig.
  assert (sig_like st st') as Hsig' by (intros j; by rewrite Hsig).
  apply IH; [by apply (sig_like_inv _ _ Hsig')|by eapply ops_ok_like| |done..].
  eapply Forall_impl; [exact Hrs|]. intros o. by apply sig_like_ready.
Qed.

(** A covered plan is applied entirely or not at all. *)
Lemma covered_atomic p st :
  fits 64 (gas_limit p) → store_inv st → no_create p → balances_fit st →
  Forall op_fits (operations p) → covered st (operations p) →
  ∃ st' r, apply_plan p st = (st', Ok r) ∧ (success r = false → st' = st).
Proof.
  intros Hg Hinv Hnc Hbf Hf Hcov.
  destruct (apply_plan_cases p st Hg) as [(m & e & _ & E)|(olds & _ & Hv & Hle & E)];
    [by eexists _, _|].
  pose proof (validated_ops_ok p st Hnc Hv) as Hok.
  assert ((run p st).2 = Ok tt) as Hr.
  { apply run_covered; try done. eapply Forall_impl; [exact Hv|]. intros op. apply validate_op_ready. }
  rewrite (commit_plan_spec p st Hinv Hok), Hr in E. eexists _, _. split; [exact E|]. done.
Qed.

(** A plan of the resolver's kinds that takes from one balance only is covered
    wherever it validates. *)
Lemma one_source_covered p st :
  forallb resolver_op (operations p) = true →
  length (List.filter is_source (operations p)) = 1%nat → balances_fit st →
  Forall op_fits (operations p) →
  Forall (λ op, validate_op op st = Ok tt) (operations p) → covered st (operations p).
Proof.
  intros Hk H1s Hbf Hf Hv i b Hb. split.
  - assert (sumZ (debit_of i <$> operations p) =
      sumZ (debit_of i <$> List.filter is_source (operations p))) as ->.
    { clear. induction (operations p) as [|op ops IH]; [done|].
      cbn [List.filter fmap list_fmap]. destruct (is_source op) eqn:E;
        cbn [fmap list_fmap]; rewrite ?sumZ_cons, IH; [done|]. by destruct op. }
    destruct (List.filter _ _) as [|op [|? ?]] eqn:E; try discriminate H1s.
    cbn [fmap list_fmap]. rewrite sumZ_cons. cbn [sumZ foldr].
    assert (op ∈ operations p) as Hop.
    { apply list_elem_of_In. eapply filter_In. rewrite E. by left. }
    pose proof (proj1 (Forall_forall _ _) Hv op Hop) as Hvo.
    destruct (Hbf i b Hb) as [? ?].
    destruct op; cbn [debit_of]; try (unfold sumZ; cbn; ints).
    case_decide; [|unfold sumZ; cbn; ints]. subst i. cbn [validate_op] in Hvo.
    apply obind_ok in Hvo as (b' & Hb' & Hvo). unfold need_balance, ObjectStore.get_balance_by_id in Hb'.
    rewrite Hb in Hb'. injection Hb' as <-. case_decide as Ha; [done|].
    unfold BalanceObject.available in Ha. unfold sumZ; cbn. ints.
  - assert (sumZ (unlock_of i <$> operations p) = 0) as ->; [|destruct (Hbf i b Hb) as [? ?]; ints].
    clear -Hk. induction (operations p) as [|op ops IH]; [done|].
    cbn [forallb] in Hk. apply andb_prop in Hk as [Ho Hk].
    cbn [fmap list_fmap]. rewrite sumZ_cons, (IH Hk). by destruct op.
Qed.

(** Plans with one source are all-or-nothing on any store. *)
Lemma one_source_atomic p st :
  fits 64 (gas_limit p) → store_inv st → forallb resolver_op (operations p) = true →
  length (List.filter is_source (operations p)) = 1%nat → balances_fit st →
  Forall op_fits (operations p) →
  ∃ st' r, apply_plan p st = (st', Ok r) ∧ (success r = false → st' = st).
Proof.
  intros Hg Hinv Hk H1s Hbf Hf.
  destruct (apply_plan_cases p st Hg) as [(m & e & _ & E)|(olds & _ & Hv & _ & _)];
    [by eexists _, _|].
  apply covered_atomic; try done; [by apply resolver_no_create|].
  by apply one_source_covered.
Qed.
End lemmas.

(** ** Properties *)

Section properties.
Context `{Sha256, Hex, BincodeLaws}.
Implicit Types (st : ObjectStore) (p : ExecutionPlan).

(** C2: All or nothing, for the plans of the resolver: whatever store such a
    plan is applied to (others may have run since it was resolved), it is either
    applied or leaves the store as it was. *)
Theorem resolved_plan_atomic `{U256} (t : IntentTransaction) (st0 st : ObjectStore)
    (caps : CapabilitySet) (p : ExecutionPlan) :
  store_inv st0 → IntentResolver.resolve t st0 caps = Ok p →
  fits 64 (max_fee t) → Forall op_fits (operations p) →
  store_inv st → balances_fit st →
  ∃ st' r, apply_plan p st = (st', Ok r) ∧ (success r = false → st' = st).
Proof.
  intros Hinv0 Hres Hfee Hf Hinv Hbf.
  destruct (resolve_well _ _ _ _ Hinv0 Hres) as [_ Hlim _ Hk H1s _ _ _].
  assert (fits 64 (gas_limit p)) as Hg by (rewrite Hlim; destruct Hfee; split; ints).
  by apply one_source_atomic.
Qed.

(** All or nothing in general: a plan that creates no token, whose debits of
    each balance add up to at most its amount and whose unlocks to at most what
    is locked, never leaves a failed application half done. *)
Theorem covered_plan_atomic st p :
  fits 64 (gas_limit p) → store_inv st → no_create p → balances_fit st →
  Forall op_fits (operations p) → covered st (operations p) →
  ∃ st' r, apply_plan p st = (st', Ok r) ∧ (success r = false → st' = st).
Proof. apply covered_atomic. Qed.

(** Outside that bound the engine is not all-or-nothing: each operation is
    validated against the balance before the plan, so two debits that fit
    separately but not together pass the validation; the second fails while the
    plan is applied, the receipt says failure, and the first debit stays. *)
Theorem failed_plan_keeps_debit st i b x y txid caps :
  let p := mkPlan txid [DebitBalance i x; DebitBalance i y] caps [] 0 1400 in
  ObjectStore.get_balance_by_id st i = Some b → locked_amount b = 0 →
  0 ≤ x ≤ amount b → 0 ≤ y ≤ amount b → amount b < x + y →
  ∃ r, apply_plan p st =
    (ObjectStore.update_balance (λ b', set_amount b' (amount b - x)) i st, Ok r) ∧
    success r = false.
Proof.
  intros p Hb Hl Hx Hy Hxy.
  assert (check_plan p st (GasMeter.new (gas_limit p)) =
    (set_consumed (GasMeter.new 1400) (plan_cost p), Ok [])) as Hc.
  { apply check_plan_ok; [by_eval|]. split_and!; [constructor| |by_eval|done].
    assert (∀ z, z ≤ amount b → validate_op (DebitBalance i z) st = Ok tt) as Hv.
    { intros z Hz. cbn. unfold need_balance. rewrite Hb. cbn.
      rewrite decide_False; [done|]. unfold BalanceObject.available. ints. }
    repeat constructor; apply Hv; lia. }
  unfold apply_plan. rewrite Hc. unfold commit_plan. subst p. cbn [operations mfor].
  assert (apply_op (DebitBalance i x) (st, []) =
    ((ObjectStore.update_balance (λ b', set_amount b' (amount b - x)) i st, [i]), Ok tt)) as E1.
  { run_op. rewrite Hb. cbn [ok_or]. unfold checked_sub. by rewrite decide_True by lia. }
  set (st1 := ObjectStore.update_balance _ i st) in *.
  assert (ObjectStore.get_balance_by_id st1 i = Some (set_amount b (amount b - x))) as Hb1.
  { unfold ObjectStore.get_balance_by_id in *. cbn. by rewrite lookup_alter_eq, Hb. }
  unfold mbind at 1, M_bind at 1. rewrite E1.
  assert (∃ e, apply_op (DebitBalance i y) (st1, [i]) = ((st1, [i]), Err e)) as [e E2].
  { eexists. run_op. rewrite Hb1. cbn [ok_or]. unfold checked_sub. cbn [Objects.amount set_amount].
    by rewrite decide_False by lia. }
  unfold mbind, M_bind. rewrite E2. by eexists.
Qed.

(** C1: A successful plan that creates no token: exactly the gas of its
    operations is charged, within its limit; the affected objects are those its
    operations name; each of them keeps its type and gains one version; every
    other object is unchanged; and the store is again well formed and synced. *)
Theorem apply_plan_success st st' p r :
  fits 64 (gas_limit p) → store_inv st → synced st → no_create p →
  apply_plan p st = (st', Ok r) → success r = true →
  gas_used r = plan_cost p ∧ plan_cost p ≤ gas_limit p ∧
  (∀ i, i ∈ affected_objects r ↔ ∃ op, op ∈ operations p ∧ op_target op = i) ∧
  store_inv st' ∧ synced st' ∧
  ∀ i o, ObjectStore.get st i = Some o → ∃ o', ObjectStore.get st' i = Some o' ∧
    Object.object_type o' = Object.object_type o ∧
    (i ∈ affected_objects r → version (Object.meta o') = wrapu 64 (version (Object.meta o) + 1)) ∧
    (i ∉ affected_objects r → o' = o).
Proof.
  intros Hg Hinv Hsync Hnc E Hr. destruct (apply_plan_outcome p st Hg Hinv Hnc)
    as [(r' & E' & Hr')|[(_ & e & r' & _ & E' & Hr')|(Hok & _ & Hle & Hrun & olds & E')]];
    rewrite E in E'; injection E' as -> ->; [congruence..|]. cbn in *.
  assert (∀ i, i ∈ sort_dedup (targets p) ↔ i ∈ targets p) as Hin by apply elem_of_sort_dedup.
  destruct (committed_inv p st Hinv Hok) as [Hinv' Hsync'].
  split_and!; [done|done| |done|done|].
  - intros i. rewrite Hin. unfold targets. rewrite list_elem_of_fmap. naive_solver.
  - intros i o Ho. setoid_rewrite Hin.
    pose proof (committed_cell p st i Hinv Hsync Hok) as Hcell.
    pose proof (f_equal c_object Hcell) as Hobj. unfold ObjectStore.get in *.
    change (objects (committed p st) !! i = c_object (if decide (i ∈ targets p) then
      sync_cell (bump_cell (get_cell (run p st).1.1 i)) else get_cell st i)) in Hobj.
    destruct (decide (i ∈ targets p)) as [Hi|Hi].
    + destruct (sync_bump_object st (get_cell (run p st).1.1 i) i o Hinv Hsync) as (o' & E1 & E2 & E3);
        [apply (run_sig _ _ _ _ (run_spec_of p st Hinv Hok))|done|].
      exists o'. split_and!; [by rewrite Hobj|done|done|done].
    + exists o. split_and!; [by rewrite Hobj|done|done|done].
Qed.
End properties.

(** ** Sample runs *)

Definition sample_apply := @apply_plan sample_sha256 sample_hex sample_bincode.

Lemma settled_fit : balances_fit settled_store.
Proof.
  assert (map_Forall (λ _ b, fits 128 (amount b) ∧ fits 128 (locked_amount b))
    (balances settled_store)) as Hm by by_decide.
  exact Hm.
Qed.

Lemma resolved_plan_atomic_witness :
  ∃ p, @IntentResolver.resolve sample_u256 (sample_intent sample_transfer 0) settled_store
         CapabilitySet.user_default = Ok p ∧
    ∃ st' r, sample_apply p settled_store = (st', Ok r) ∧ (success r = false → st' = settled_store).
Proof.
  destruct (@IntentResolver.resolve sample_u256 (sample_intent sample_transfer 0) settled_store
         CapabilitySet.user_default) as [p| |] eqn:E; [|discriminate E..].
  exists p. split; [reflexivity|].
  apply (@resolved_plan_atomic sample_sha256 sample_hex sample_bincode sample_bincode_laws
    sample_u256 (sample_intent sample_transfer 0) settled_store settled_store
    CapabilitySet.user_default p settled_inv E);
    [by_eval| |exact settled_inv|exact settled_fit].
  vm_compute in E. injection E as <-. repeat constructor; by_eval.
Defined.

Lemma covered_plan_atomic_witness :
  let p := mkPlan 1 [DebitBalance 10 600; DebitBalance 10 400; UnlockBalance 11 0] [] [rw 10] 0 5000 in
  ∃ st' r, sample_apply p settled_store = (st', Ok r) ∧ (success r = false → st' = settled_store).
Proof.
  intros p. apply (@covered_plan_atomic sample_sha256 sample_hex sample_bincode sample_bincode_laws);
    [by_eval|exact settled_inv|repeat constructor|exact settled_fit
    |repeat constructor; by_eval|].
  assert (map_Forall (λ i b, sumZ (debit_of i <$> operations p) ≤ amount b ∧
    sumZ (unlock_of i <$> operations p) ≤ locked_amount b) (balances settled_store)) as Hm
    by by_decide.
  exact Hm.
Defined.

Lemma failed_plan_keeps_debit_witness :
  ∃ r, sample_apply (mkPlan 1 [DebitBalance 10 600; DebitBalance 10 500] [] [] 0 1400) settled_store =
    (ObjectStore.update_balance (λ b', set_amount b' 400) 10 settled_store, Ok r) ∧
    success r = false.
Proof.
  apply (@failed_plan_keeps_debit sample_sha256 sample_hex sample_bincode
    settled_store 10 bal_alice5 600 500 1 []);
    [reflexivity|reflexivity|by_eval|by_eval|by_eval].
Defined.

Lemma apply_plan_success_witness :
  let p := mkPlan 1 [DebitBalance 10 100; CreditBalance 11 100] [] [rw 10; rw 11] 0 5000 in
  ∃ st' r, sample_apply p settled_store = (st', Ok r) ∧ gas_used r = 1600 ∧ store_inv st'.
Proof.
  intros p. destruct (sample_apply p settled_store) as [st' o] eqn:E.
  assert (match o with Ok r => success r | _ => false end = true) as Hs.
  { apply (f_equal snd) in E. cbn [snd] in E. subst o. vm_compute. reflexivity. }
  destruct o as [r| |]; [|discriminate Hs..]. exists st', r. split; [reflexivity|].
  destruct (@apply_plan_success sample_sha256 sample_hex sample_bincode sample_bincode_laws
    settled_store st' p r) as (Hgas & _ & _ & Hinv & _);
    [by_eval|exact settled_inv|exact settled_synced|repeat constructor|exact E|exact Hs|].
  split; [rewrite Hgas; reflexivity|exact Hinv].
Defined.
