(* ===== verification/Independence.v ===== *)
(** * Independent plans commute

    The scheduler puts plans that do not conflict in one group, and the engine
    relies on their order not mattering.  What a plan does depends on the cells
    it declares and changes only the cells it declares read-write, so two plans
    without a conflict can be exchanged. *)

From stdpp Require Import gmap strings list sorting.
From S2P Require Import Prelude Errors Gas Objects Concrete Store FeeEnvelope Intents.
From S2P Require Import Planner Scheduler Artifacts Settlement Cells SettlementFacts SettlementProps.
Import SettlementEngine.

(** A plan declares what it writes, and the contract a binding reads. *)
Definition declared (p : ExecutionPlan) : Prop :=
  covers p ∧
  ∀ c b s a l, BindContractBalance c b s a l ∈ operations p → ∃ m, mkAccess c m ∈ object_access p.

Definition touched (p : ExecutionPlan) : list id32 := object_id <$> object_access p.

Section independence.
Context `{Sha256, Hex, BincodeLaws}.
Implicit Types (st : ObjectStore) (p q : ExecutionPlan).

(** A failed application leaves no trace at [st]. *)
Definition atomic_at p st : Prop :=
  ∀ st' r, apply_plan p st = (st', Ok r) → success r = false → st' = st.

Definition same_on (l : list id32) (st st2 : ObjectStore) : Prop :=
  ∀ i, i ∈ l → get_cell st2 i = get_cell st i.

(** ** Checking reads the declared cells *)

Lemma validate_op_cell op st st2 :
  get_cell st2 (op_target op) = get_cell st (op_target op) →
  (∀ c b s a l, op = BindContractBalance c b s a l → get_cell st2 c = get_cell st c) →
  validate_op op st2 = validate_op op st.
Proof.
  intros Hc Hbind.
  pose proof (f_equal c_object Hc) as Ho. pose proof (f_equal c_balance Hc) as Hb.
  pose proof (f_equal c_pool Hc) as Hp. cbn in Ho, Hb, Hp.
  destruct op; cbn [op_target] in *; cbn [validate_op];
    unfold validate_transition, need_balance, need_pool, need_object,
      ObjectStore.get_balance_by_id, ObjectStore.get_pool_by_id, ObjectStore.get;
    try (by rewrite Hb); try (by rewrite Hp); try (by rewrite Ho); [|done].
  pose proof (f_equal c_object (Hbind _ _ _ _ _ eq_refl)) as Hc'. cbn in Hc'.
  by rewrite Hc', Ho.
Qed.

Lemma touched_target p op : declared p → op ∈ operations p → op_target op ∈ touched p.
Proof.
  intros [Hcov _] Hop. apply list_elem_of_fmap. exists (rw (op_target op)).
  split; [done|by apply Hcov].
Qed.
Lemma touched_targets p i : declared p → i ∈ targets p → i ∈ touched p.
Proof. intros Hd (op & -> & Hop)%list_elem_of_fmap. by apply touched_target. Qed.

Lemma mfor_ext {S E A} (f g : A → M S E ()) l s :
  (∀ a s, a ∈ l → f a s = g a s) → mfor f l s = mfor g l s.
Proof.
  revert s. induction l as [|a l IH]; intros s Hfg; [done|]. cbn [mfor]. unfold mbind, M_bind.
  rewrite (Hfg a s) by left. destruct (g a s) as [s1 []]; [|done..].
  apply IH. intros. apply Hfg. by right.
Qed.
Lemma mmap_ext {S E A B} (f g : A → M S E B) l s :
  (∀ a s, a ∈ l → f a s = g a s) → mmap f l s = mmap g l s.
Proof.
  revert s. induction l as [|a l IH]; intros s Hfg; [done|]. cbn [mmap]. unfold mbind, M_bind.
  rewrite (Hfg a s) by left. destruct (g a s) as [s1 []]; [|done..].
  rewrite IH; [done|]. intros. apply Hfg. by right.
Qed.

Lemma Mbind_ext {S E A B} (m m' : M S E A) (f f' : A → M S E B) s :
  m s = m' s → (∀ a s, f a s = f' a s) → (m ≫= f) s = (m' ≫= f') s.
Proof. intros Hm Hf. unfold mbind, M_bind. rewrite Hm. by destruct (m' s) as [? []]. Qed.

Lemma check_plan_cell p st st2 m :
  declared p → same_on (touched p) st st2 → check_plan p st2 m = check_plan p st m.
Proof.
  intros Hd Hs. unfold check_plan. apply Mbind_ext; [done|]. intros c s1.
  apply Mbind_ext; [done|]. intros _ s2. apply Mbind_ext.
  - apply mmap_ext. intros a s3 Ha.
    assert (ObjectStore.get st2 (object_id a) = ObjectStore.get st (object_id a)) as ->; [|done].
    assert (object_id a ∈ touched p) as Hi by (apply list_elem_of_fmap; eauto).
    exact (f_equal c_object (Hs _ Hi)).
  - intros olds s3. apply Mbind_ext; [|done]. apply mfor_ext. intros op s4 Hop.
    rewrite (validate_op_cell op st st2); [done|by apply Hs, touched_target|].
    intros c' b sc a l ->. destruct Hd as [_ Hb]. destruct (Hb _ _ _ _ _ Hop) as [md Hm].
    apply Hs, list_elem_of_fmap. by exists (mkAccess c' md).
Qed.

(** ** Locality of the whole application *)

(** What holds of an application that leaves no half-done state. *)
Lemma apply_plan_good p st :
  fits 64 (gas_limit p) → store_inv st → synced st → no_create p → atomic_at p st →
  store_inv (apply_plan p st).1 ∧ synced (apply_plan p st).1 ∧
  ∀ j, j ∉ targets p → get_cell (apply_plan p st).1 j = get_cell st j.
Proof.
  intros Hg Hinv Hsync Hnc Hat. destruct (apply_plan_outcome p st Hg Hinv Hnc)
    as [(r & E & _)|[(_ & e & r & _ & E & Hr)|(Hok & _ & _ & _ & olds & E)]].
  - by rewrite E.
  - rewrite (Hat _ _ E Hr) in E. by rewrite E.
  - rewrite E. cbn [fst]. destruct (committed_inv p st Hinv Hok). split_and!; [done..|].
    intros j Hj. by rewrite (committed_cell p st j Hinv Hsync Hok), decide_False.
Qed.

Lemma apply_plan_local p st st2 :
  fits 64 (gas_limit p) → store_inv st → synced st → store_inv st2 → synced st2 →
  no_create p → declared p → atomic_at p st → same_on (touched p) st st2 →
  (apply_plan p st2).2 = (apply_plan p st).2 ∧ atomic_at p st2 ∧
  same_on (touched p) (apply_plan p st).1 (apply_plan p st2).1.
Proof.
  intros Hg Hinv Hsync Hinv2 Hsync2 Hnc Hd Hat Hs.
  pose proof (check_plan_cell p st st2 (GasMeter.new (gas_limit p)) Hd Hs) as Hck.
  destruct (apply_plan_cases p st Hg) as [(m & e & Hc & E)|(olds & Hc & Hv & Hle & E)].
  { assert (apply_plan p st2 = (st2, Ok (fail_receipt p m e))) as E2.
    { unfold apply_plan. by rewrite Hck, Hc. }
    unfold atomic_at. rewrite E, E2. split_and!; [done| |done].
    intros st' r [= <- _]. done. }
  pose proof (validated_ops_ok p st Hnc Hv) as Hok.
  assert (ops_ok st2 (operations p)) as Hok2.
  { rewrite Hc in Hck. apply check_plan_ok in Hck as (_ & Hv2 & _ & _); [|done].
    by apply validated_ops_ok. }
  destruct (apply_ops_local (operations p) st st2 [] Hinv Hinv2 Hok) as (R1 & R2 & R3).
  { intros i Hi. apply Hs. by apply touched_targets. }
  fold (run p st) (run p st2) in R1, R2, R3.
  assert (apply_plan p st2 =
    match commit_plan p st2 with
    | (st', Ok ids) => (st', Ok (mkReceipt (plan_tx_id p) true ids
                               (transition st' <$> olds) None (plan_cost p) []))
    | (st', Err e) => (st', Ok (fail_receipt p
        (set_consumed (GasMeter.new (gas_limit p)) (plan_cost p)) e))
    | (st', Panic) => (st', Panic)
    end) as E2 by (unfold apply_plan; by rewrite Hck, Hc).
  rewrite (commit_plan_spec p st Hinv Hok) in E. rewrite (commit_plan_spec p st2 Hinv2 Hok2), R1 in E2.
  pose proof (run_panic _ _ _ _ (run_spec_of p st Hinv Hok)) as Hnp.
  destruct ((run p st).2) as [[]|e|] eqn:Er; [| |done].
  - fold (committed p st) in E. fold (committed p st2) in E2.
    assert (same_on (touched p) (committed p st) (committed p st2)) as Hcs.
    { intros i Hi. rewrite !committed_cell by done. case_decide as Ht; [|by apply Hs].
      by rewrite R3. }
    unfold atomic_at. rewrite E, E2. cbn [fst snd]. split_and!; [|by intros ? ? [= <- <-]|done].
    do 2 f_equal. apply list_fmap_ext. intros k v Hk. unfold transition.
    apply check_plan_ok in Hc as (Holds & _); [|done].
    destruct (Forall2_lookup_r _ _ _ _ _ Holds Hk) as (a & Ha & o & _ & Ev). subst v. cbn [fst snd].
    assert (object_id a ∈ touched p) as Hi.
    { apply list_elem_of_fmap. exists a. split; [done|]. by eapply list_elem_of_lookup_2. }
    pose proof (f_equal c_object (Hcs _ Hi)) as Eo. cbn in Eo. unfold ObjectStore.get.
    change (objects (committed p st2) !! object_id a = objects (committed p st) !! object_id a) in Eo.
    by rewrite Eo.
  - pose proof (Hat _ _ E eq_refl) as Hst.
    assert ((run p st2).1.1 = st2) as Hst2.
    { apply store_ext. intros i. destruct (decide (i ∈ targets p)) as [Hi|Hi].
      - rewrite (R3 i Hi), Hst. symmetry. apply Hs. by apply touched_targets.
      - by apply (run_frame _ _ _ _ (run_spec_of p st2 Hinv2 Hok2)). }
    unfold atomic_at. rewrite E, E2, Hst, Hst2. cbn [fst snd]. split_and!; [done| |done].
    intros st' r [= <- _]. done.
Qed.

Lemma conflict_free_disjoint p q i :
  declared q → ParallelScheduler.conflicts p q = false → i ∈ targets q → i ∉ touched p.
Proof.
  intros [Hq _] Hc (op & -> & Hop)%list_elem_of_fmap (a & E & Ha)%list_elem_of_fmap.
  assert (ParallelScheduler.conflicts p q = true); [|congruence].
  apply conflicts_true. exists a, (rw (op_target op)). split_and!; [done|by apply Hq|done|by right].
Qed.

Lemma plans_commute p q st :
  fits 64 (gas_limit p) → fits 64 (gas_limit q) → store_inv st → synced st →
  no_create p → no_create q → declared p → declared q → atomic_at p st → atomic_at q st →
  ParallelScheduler.conflicts p q = false →
  ∃ s, apply_plan q (apply_plan p st).1 = (s, (apply_plan q st).2) ∧
       apply_plan p (apply_plan q st).1 = (s, (apply_plan p st).2).
Proof.
  intros Hgp Hgq Hinv Hsync Hcp Hcq Hdp Hdq Hap Haq Hc.
  assert (ParallelScheduler.conflicts q p = false) as Hc'.
  { apply not_true_is_false. intros Hi%conflicts_true.
    apply interfere_sym, conflicts_true in Hi. congruence. }
  destruct (apply_plan_good p st Hgp Hinv Hsync Hcp Hap) as (Hip & Hsp & Hfp).
  destruct (apply_plan_good q st Hgq Hinv Hsync Hcq Haq) as (Hiq & Hsq & Hfq).
  assert (same_on (touched p) st (apply_plan q st).1) as Sp.
  { intros i Hi. apply Hfq. intros Ht. by apply (conflict_free_disjoint p q i). }
  assert (same_on (touched q) st (apply_plan p st).1) as Sq.
  { intros i Hi. apply Hfp. intros Ht. by apply (conflict_free_disjoint q p i). }
  destruct (apply_plan_local p st _ Hgp Hinv Hsync Hiq Hsq Hcp Hdp Hap Sp) as (P1 & P2 & P3).
  destruct (apply_plan_local q st _ Hgq Hinv Hsync Hip Hsp Hcq Hdq Haq Sq) as (Q1 & Q2 & Q3).
  destruct (apply_plan_good p _ Hgp Hiq Hsq Hcp P2) as (_ & _ & Fp).
  destruct (apply_plan_good q _ Hgq Hip Hsp Hcq Q2) as (_ & _ & Fq).
  exists (apply_plan q (apply_plan p st).1).1. split; [by rewrite <- Q1, <- surjective_pairing|].
  assert ((apply_plan q (apply_plan p st).1).1 = (apply_plan p (apply_plan q st).1).1) as ->.
  2: { by rewrite <- P1, <- surjective_pairing. }
  apply store_ext. intros i. destruct (decide (i ∈ targets p)) as [Hi|Hi].
  - rewrite P3 by (by apply touched_targets). apply Fq. intros Ht.
    apply (conflict_free_disjoint q p i Hdp Hc' Hi). by apply touched_targets.
  - rewrite (Fp i Hi). destruct (decide (i ∈ targets q)) as [Hj|Hj].
    + by rewrite Q3 by (by apply touched_targets).
    + by rewrite (Fq i Hj), (Hfp i Hi), (Hfq i Hj).
Qed.

(** C10: The order of two plans that do not conflict does not matter, if both create
    no token, declare every object they write (and the contract a binding reads),
    are all or nothing at the store and have gas limits of 64 bits: applied either
    way round to a well-formed and synced store they give the same store and the
    same two receipts, each the one the plan would have had alone.  The plans of the
    resolver are such ([resolved_plans_commute]); the plan of a solver need not be. *)
Theorem independent_plans_commute p q st :
  fits 64 (gas_limit p) → fits 64 (gas_limit q) → store_inv st → synced st →
  no_create p → no_create q → declared p → declared q → atomic_at p st → atomic_at q st →
  ParallelScheduler.conflicts p q = false →
  ∃ s, apply_plan q (apply_plan p st).1 = (s, (apply_plan q st).2) ∧
       apply_plan p (apply_plan q st).1 = (s, (apply_plan p st).2).
Proof. apply plans_commute. Qed.

(** What the resolver makes of a transaction. *)
Lemma resolved_independent `{U256} t st caps p :
  store_inv st → balances_fit st → fits 64 (max_fee t) → Forall op_fits (operations p) →
  IntentResolver.resolve t st caps = Ok p →
  fits 64 (gas_limit p) ∧ no_create p ∧ declared p ∧ atomic_at p st.
Proof.
  intros Hinv Hbf Hfee Hf Hres.
  destruct (resolve_well _ _ _ _ Hinv Hres) as [_ Hlim _ Hk H1s _ Hcov _].
  assert (fits 64 (gas_limit p)) as Hg by (rewrite Hlim; destruct Hfee; split; ints).
  split_and!; [done|by apply resolver_no_create| |].
  - split; [done|]. intros c b s a l Hop%list_elem_of_In.
    by pose proof (proj1 (forallb_forall _ _) Hk _ Hop).
  - intros st' r E Hr. destruct (one_source_atomic p st Hg Hinv Hk H1s Hbf Hf) as (st2 & r2 & E2 & Ha).
    rewrite E in E2. injection E2 as <- <-. by apply Ha.
Qed.

(** Two plans of the resolver commute when they do not conflict: this is what lets
    the engine run a group of them sequentially, or in parallel. *)
Theorem resolved_plans_commute `{U256} t t' st caps caps' p q :
  store_inv st → synced st → balances_fit st → fits 64 (max_fee t) → fits 64 (max_fee t') →
  Forall op_fits (operations p) → Forall op_fits (operations q) →
  IntentResolver.resolve t st caps = Ok p → IntentResolver.resolve t' st caps' = Ok q →
  ParallelScheduler.conflicts p q = false →
  ∃ s, apply_plan q (apply_plan p st).1 = (s, (apply_plan q st).2) ∧
       apply_plan p (apply_plan q st).1 = (s, (apply_plan p st).2).
Proof.
  intros Hinv Hsync Hbf Hfp Hfq Hop Hoq Ep Eq.
  destruct (resolved_independent t st caps p Hinv Hbf Hfp Hop Ep) as (? & ? & ? & ?).
  destruct (resolved_independent t' st caps' q Hinv Hbf Hfq Hoq Eq) as (? & ? & ? & ?).
  by apply plans_commute.
Qed.
End independence.

(** Two independent plans. *)
Definition pay_plan : ExecutionPlan :=
  mkPlan 1 [DebitBalance 10 100; CreditBalance 11 100] [] [rw 10; rw 11] 0 5000.
Definition lock_plan : ExecutionPlan := mkPlan 2 [LockBalance 12 3] [] [rw 12] 0 5000.

Lemma independent_plans_commute_witness :
  let run := @apply_plan sample_sha256 sample_hex sample_bincode in
  ∃ s, run lock_plan (run pay_plan settled_store).1 = (s, (run lock_plan settled_store).2) ∧
       run pay_plan (run lock_plan settled_store).1 = (s, (run pay_plan settled_store).2).
Proof.
  intros run.
  assert (∀ p, (run p settled_store).2 = (run p settled_store).2 →
    match (run p settled_store).2 with Ok r => success r | _ => false end = true →
    @atomic_at sample_sha256 sample_hex sample_bincode p settled_store) as Hat.
  { intros p _ Hs st' r E Hr. subst run. rewrite E in Hs. cbn in Hs. congruence. }
  apply (@independent_plans_commute sample_sha256 sample_hex sample_bincode sample_bincode_laws).
  - by_eval.
  - by_eval.
  - exact settled_inv.
  - exact settled_synced.
  - repeat constructor.
  - repeat constructor.
  - split; [intros op Hop; cbn in *; set_solver|intros ? ? ? ? ? Hop; cbn in *; set_solver].
  - split; [intros op Hop; cbn in *; set_solver|intros ? ? ? ? ? Hop; cbn in *; set_solver].
  - apply Hat; [reflexivity|vm_compute; reflexivity].
  - apply Hat; [reflexivity|vm_compute; reflexivity].
  - vm_compute. reflexivity.
Defined.
