(* ===== verification/Supply.v ===== *)
(** * Settlement and the supply of an asset

    The total of an asset over all balances, and how a successful plan changes
    it: by its credits less its debits.  Transfers conserve every asset; the
    resolver's liquidity routing does not. *)

From stdpp Require Import gmap strings list sorting.
From S2P Require Import Prelude Errors Gas Objects Concrete Store FeeEnvelope Intents.
From S2P Require Import Planner Scheduler Artifacts Settlement Cells SettlementFacts.
From S2P Require Import Independence.
Import SettlementEngine.

Definition held (a : id32) (b : BalanceObject) : Z :=
  if decide (bal_asset_id b = a) then amount b else 0.

(** The total of asset [a] over the balances of the store. *)
Definition asset_total (a : id32) (st : ObjectStore) : Z := map_sum (held a) (balances st).

Definition asset_of (st : ObjectStore) (i : id32) : option id32 := bal_asset_id <$> balances st !! i.

(** What an operation adds to the total of asset [a]. *)
Definition op_delta (st : ObjectStore) (a : id32) (op : ObjectOperation) : Z :=
  match op with
  | DebitBalance i x => if decide (asset_of st i = Some a) then - x else 0
  | CreditBalance i x => if decide (asset_of st i = Some a) then x else 0
  | _ => 0
  end.
Definition supply_change (st : ObjectStore) (a : id32) (ops : list ObjectOperation) : Z :=
  sumZ (op_delta st a <$> ops).

(** No balance is negative, and along the run no supply passes 2^128 - 1. *)
Definition amounts_nonneg (st : ObjectStore) : Prop :=
  ∀ i b, balances st !! i = Some b → 0 ≤ amount b.
Definition supply_fits (st : ObjectStore) (ops : list ObjectOperation) : Prop :=
  ∀ a k, asset_total a st + supply_change st a (take k ops) ≤ u128_max.

Section map_sum.
Context {A : Type} (f : A → Z) (m : gmap Z A).
Lemma map_sum_alter g i x :
  m !! i = Some x → map_sum f (alter g i m) = map_sum f m - f x + f (g x).
Proof.
  intros Hx. rewrite <- (map_sum_update f m i x (g x) Hx). f_equal. apply map_eq. intros j.
  rewrite lookup_alter, lookup_insert. case_decide; [subst; by rewrite Hx|done].
Qed.
Lemma map_sum_alter_same g i : (∀ x, f (g x) = f x) → map_sum f (alter g i m) = map_sum f m.
Proof.
  intros Hg. destruct (m !! i) as [x|] eqn:E.
  - rewrite (map_sum_alter g i x E), Hg. lia.
  - f_equal. apply map_eq. intros j. rewrite lookup_alter. case_decide; [subst; by rewrite E|done].
Qed.
End map_sum.

Section supply.
Context `{Sha256, Hex, BincodeLaws}.
Implicit Types (st : ObjectStore) (p : ExecutionPlan) (op : ObjectOperation).

Lemma held_le_total a st i b :
  amounts_nonneg st → balances st !! i = Some b → bal_asset_id b = a → amount b ≤ asset_total a st.
Proof.
  intros Hn Hb Ha. unfold asset_total.
  assert (held a b = amount b) as E by (unfold held; by rewrite decide_True).
  rewrite <- E. apply (map_sum_ge (held a) (balances st) i); [|done].
  intros j c Hc. unfold held. case_decide; [by eapply Hn|done].
Qed.

(** One operation that succeeds: its delta, the same assets, still nothing
    negative. *)
Lemma apply_op_supply op st aff st' aff' :
  store_inv st → creates op = false → op_typed st op → amounts_nonneg st →
  match op with CreditBalance _ x => 0 ≤ x | _ => True end →
  (∀ a, asset_total a st + op_delta st a op ≤ u128_max) →
  apply_op op (st, aff) = ((st', aff'), Ok tt) →
  (∀ a, asset_total a st' = asset_total a st + op_delta st a op) ∧
  (∀ i, asset_of st' i = asset_of st i) ∧ amounts_nonneg st'.
Proof.
  intros Hinv Hcr Hty Hn Hx Hfit E.
  assert (∀ i f, balances st' = alter f i (balances st) →
    (∀ b, bal_asset_id (f b) = bal_asset_id b) → (∀ b, amount (f b) = amount b) →
    (∀ a, op_delta st a op = 0) →
    (∀ a, asset_total a st' = asset_total a st + op_delta st a op) ∧
    (∀ i, asset_of st' i = asset_of st i) ∧ amounts_nonneg st') as Hkeep.
  { intros i f Eb Ha Hm Hz. split_and!.
    - intros a. rewrite Hz, Z.add_0_r. unfold asset_total; rewrite Eb.
      apply map_sum_alter_same. intros b. unfold held. by rewrite Ha, Hm.
    - intros j. unfold asset_of; rewrite Eb, lookup_alter. case_decide; [subst|done].
      destruct (balances st !! j); cbn; [by rewrite Ha|done].
    - intros j c; rewrite Eb, lookup_alter. case_decide; [|apply Hn].
      intros (b & Hb & ->)%fmap_Some. rewrite Hm. by eapply Hn. }
  assert (balances st' = balances st → (∀ a, op_delta st a op = 0) →
    (∀ a, asset_total a st' = asset_total a st + op_delta st a op) ∧
    (∀ i, asset_of st' i = asset_of st i) ∧ amounts_nonneg st') as Hsame.
  { intros Eb Hz. unfold asset_total, asset_of, amounts_nonneg. rewrite Eb. split_and!; [|done|done].
    intros a. by rewrite Hz, Z.add_0_r. }
  assert (∀ i f b, balances st' = alter f i (balances st) → balances st !! i = Some b →
    (∀ b, bal_asset_id (f b) = bal_asset_id b) → 0 ≤ amount (f b) →
    (∀ a, op_delta st a op = if decide (asset_of st i = Some a) then amount (f b) - amount b else 0) →
    (∀ a, asset_total a st' = asset_total a st + op_delta st a op) ∧
    (∀ i, asset_of st' i = asset_of st i) ∧ amounts_nonneg st') as Hset.
  { intros i f b Eb Hb Ha Hm Hd. split_and!.
    - intros a. rewrite Hd. unfold asset_total, asset_of; rewrite Eb, Hb. cbn [fmap option_fmap option_map].
      rewrite (map_sum_alter _ _ f i b Hb). unfold held. rewrite Ha.
      destruct (decide (bal_asset_id b = a)) as [E'|Hne].
      + rewrite decide_True by congruence. clear. lia.
      + rewrite decide_False by congruence. clear. lia.
    - intros j. unfold asset_of; rewrite Eb, lookup_alter. case_decide; [subst|done].
      rewrite Hb; cbn. by rewrite Ha.
    - intros j c; rewrite Eb, lookup_alter. case_decide; [subst|apply Hn].
      rewrite Hb. by intros [= <-]. }
  destruct op; try discriminate Hcr; run_op;
    try (injection E as <- <-; by apply Hsame).
  - unfold ObjectStore.get_balance_by_id in E.
    destruct (balances st !! balance_id) as [b|] eqn:Hb; cbn [ok_or] in E; [|done].
    destruct (checked_sub _ _) as [rest|] eqn:Ec; cbn [ok_or] in E; [|done].
    injection E as <- <-. apply checked_sub_some in Ec as [Hle ->].
    eapply (Hset balance_id _ b); [reflexivity|done|done|cbn; lia|].
    intros a. cbn. case_decide; lia.
  - unfold ObjectStore.get_balance_by_id in E.
    destruct (balances st !! balance_id) as [b|] eqn:Hb; cbn [ok_or] in E; [|done].
    injection E as <- <-. pose proof (Hn _ _ Hb).
    specialize (Hfit (bal_asset_id b)). cbn in Hfit. unfold asset_of in Hfit. rewrite Hb in Hfit.
    cbn in Hfit. rewrite decide_True in Hfit by done.
    pose proof (held_le_total _ st balance_id b Hn Hb eq_refl).
    eapply (Hset balance_id _ b); [reflexivity|done|done|cbn; ints|].
    intros a. cbn. case_decide; [ints|done].
  - unfold ObjectStore.get_pool_by_id in E.
    destruct (pools st !! pool_id) as [q|]; cbn [ok_or] in E; [|done]. injection E as <- <-.
    by apply Hsame.
  - unfold ObjectStore.get_balance_by_id in E.
    destruct (balances st !! balance_id) as [b|]; cbn [ok_or] in E; [|done]. injection E as <- <-.
    eapply Hkeep; [reflexivity|done..].
  - unfold ObjectStore.get_balance_by_id in E.
    destruct (balances st !! balance_id) as [b|]; cbn [ok_or] in E; [|done].
    destruct (checked_sub _ _) as [rest|]; cbn [ok_or] in E; [|done]. injection E as <- <-.
    eapply Hkeep; [reflexivity|done..].
  - unfold ObjectStore.get in E. destruct (objects st !! object_id) as [o|]; cbn [ok_or] in E; [|done].
    injection E as <- <-. eapply Hkeep; [reflexivity|done..].
  - destruct Hty as [c0 Hc0].
    destruct (contract_transition_result _ schema_id proposed_state _ _ aff Hinv Hc0) as [E' _].
    revert E'. run_op. intros E'. rewrite E in E'. injection E' as -> ->. by apply Hsame.
Qed.

Lemma op_delta_assets st st' a op :
  (∀ i, asset_of st' i = asset_of st i) → op_delta st' a op = op_delta st a op.
Proof. intros Ha. destruct op; cbn; by rewrite ?Ha. Qed.

Lemma run_supply ops st aff st' aff' :
  store_inv st → ops_ok st ops → amounts_nonneg st →
  Forall (λ op, match op with CreditBalance _ x => 0 ≤ x | _ => True end) ops →
  supply_fits st ops →
  mfor apply_op ops (st, aff) = ((st', aff'), Ok tt) →
  ∀ a, asset_total a st' = asset_total a st + supply_change st a ops.
Proof.
  revert st aff. induction ops as [|op ops IH]; intros st aff Hinv Hok Hn Hc Hfit E a.
  { injection E as <- <-. unfold supply_change; cbn. lia. }
  apply Forall_cons in Hok as [[Hcr Hty] Hok], Hc as [Hc Hcs].
  cbn [mfor] in E. apply Mbind_ok in E as ([st1 aff1] & [] & E1 & E2).
  destruct (apply_op_supply op st aff st1 aff1 Hinv Hcr Hty Hn Hc) as (Ht & Ha & Hn1); [|done|].
  { intros b. specialize (Hfit b 1%nat). unfold supply_change in Hfit. cbn [take fmap list_fmap] in Hfit.
    rewrite take_0 in Hfit. cbn in Hfit. lia. }
  pose proof (apply_op_sig op st aff Hcr Hty Hinv) as Hsig. rewrite E1 in Hsig. cbn in Hsig.
  assert (sig_like st st1) as Hsig' by (intros j; by rewrite Hsig).
  assert (∀ b l, supply_change st1 b l = supply_change st b l) as Hch.
  { intros b l. unfold supply_change. f_equal. apply list_fmap_ext. intros. by apply op_delta_assets. }
  rewrite (IH st1 aff1); [|by apply (sig_like_inv _ _ Hsig')|by eapply ops_ok_like|done|done| |done].
  - rewrite Ht, Hch. unfold supply_change. cbn [fmap list_fmap]. rewrite sumZ_cons. lia.
  - intros b k. rewrite Ht, Hch. specialize (Hfit b (S k)). unfold supply_change in *.
    cbn [take fmap list_fmap] in Hfit. rewrite sumZ_cons in Hfit. lia.
Qed.

(** Moving versions and syncing do not touch amounts. *)
Lemma committed_supply p st a :
  asset_total a (committed p st) = asset_total a (run p st).1.1.
Proof.
  unfold committed. change (asset_total a (ObjectStore.sync_typed_to_canonical ?s))
    with (asset_total a s).
  generalize (sort_dedup (targets p)) as l. generalize (run p st).1.1 as s. intros s l.
  revert s. induction l as [|i l IH]; intros s; [done|]. cbn [foldl]. rewrite IH.
  unfold asset_total, bump_version. cbn. by apply map_sum_alter_same.
Qed.

Lemma plan_supply p st st' r :
  fits 64 (gas_limit p) → store_inv st → no_create p → amounts_nonneg st →
  Forall (λ op, match op with CreditBalance _ x => 0 ≤ x | _ => True end) (operations p) →
  supply_fits st (operations p) →
  apply_plan p st = (st', Ok r) → success r = true →
  ∀ a, asset_total a st' = asset_total a st + supply_change st a (operations p).
Proof.
  intros Hg Hinv Hnc Hn Hc Hfit E Hr a. destruct (apply_plan_outcome p st Hg Hinv Hnc)
    as [(r' & E' & Hr')|[(_ & e & r' & _ & E' & Hr')|(Hok & _ & _ & Hrun & olds & E')]];
    rewrite E in E'; injection E' as -> ->; [congruence..|].
  rewrite committed_supply. destruct (run p st) as [[st1 aff1] r1] eqn:Er. cbn [fst snd] in *.
  subst r1. by eapply run_supply.
Qed.

(** A successful plan that creates no token changes the total of each asset
    by exactly its credits less its debits of that asset, as long as no total
    passes 2^128 - 1 on the way. *)
Theorem plan_changes_supply p st st' r :
  fits 64 (gas_limit p) → store_inv st → no_create p → amounts_nonneg st →
  Forall (λ op, match op with CreditBalance _ x => 0 ≤ x | _ => True end) (operations p) →
  supply_fits st (operations p) →
  apply_plan p st = (st', Ok r) → success r = true →
  ∀ a, asset_total a st' = asset_total a st + supply_change st a (operations p).
Proof. apply plan_supply. Qed.

(** What the resolver makes of a transfer. *)
Lemma resolve_transfer_shape `{U256} t i st caps p :
  store_inv st → intent t = ITransfer i → IntentResolver.resolve t st caps = Ok p →
  ∃ x y, operations p = [DebitBalance x (tr_amount i); CreditBalance y (tr_amount i)] ∧
    asset_of st x = Some (tr_asset_id i) ∧ asset_of st y = Some (tr_asset_id i).
Proof.
  intros Hinv Hi Hres. unfold IntentResolver.resolve in Hres. rewrite Hi in Hres.
  unfold IntentResolver.resolve_transfer in Hres.
  apply obind_ok in Hres as ([] & _ & Hres). apply obind_ok in Hres as (sb & Hsb & Hres).
  apply obind_ok in Hres as (rb & Hrb & Hres). injection Hres as <-.
  apply source_balance_ok in Hsb as [Hsb _].
  destruct (ObjectStore.find_balance st (recipient i) _) as [rb'|] eqn:Hrb'; [|done].
  injection Hrb as ->.
  destruct (find_balance_sound _ _ _ _ Hinv Hsb) as (Hs & _ & Hsa).
  destruct (find_balance_sound _ _ _ _ Hinv Hrb') as (Hb & _ & Hba).
  unfold ObjectStore.get_balance_by_id in *. do 2 eexists. split; [reflexivity|].
  unfold asset_of. rewrite Hs, Hb. cbn. by rewrite Hsa, Hba.
Qed.

(** A debit and a credit of one asset and amount leave every total. *)
Lemma transfer_delta st a x y i j amt k :
  asset_of st i = Some a → asset_of st j = Some a → 0 ≤ amt →
  supply_change st x (take k [DebitBalance i amt; CreditBalance j amt]) ≤ 0 ∧
  supply_change st y [DebitBalance i amt; CreditBalance j amt] = 0.
Proof.
  intros Hi Hj Hx. unfold supply_change. split.
  - destruct k as [|[|k]]; cbn; rewrite ?take_nil; cbn; rewrite ?Hi, ?Hj; repeat case_decide; lia.
  - cbn. rewrite Hi, Hj. case_decide; lia.
Qed.

(** Transfers conserve: after a resolved transfer has been settled, the total
    of every asset is what it was. *)
Theorem transfer_conserves `{U256} (t : IntentTransaction) (i : TransferIntent)
    (st st' : ObjectStore) (caps : CapabilitySet) (p : ExecutionPlan) (r : ExecutionReceipt) :
  store_inv st → amounts_nonneg st → (∀ a, asset_total a st ≤ u128_max) →
  fits 64 (max_fee t) → 0 ≤ tr_amount i →
  intent t = ITransfer i → IntentResolver.resolve t st caps = Ok p →
  apply_plan p st = (st', Ok r) → success r = true →
  ∀ a, asset_total a st' = asset_total a st.
Proof.
  intros Hinv Hn Hmax Hfee Hamt Hi Hres E Hr a.
  destruct (resolve_well _ _ _ _ Hinv Hres) as [_ Hlim _ Hk _ _ _ _].
  assert (fits 64 (gas_limit p)) as Hg by (rewrite Hlim; destruct Hfee; split; ints).
  destruct (resolve_transfer_shape t i st caps p Hinv Hi Hres) as (x & y & Hops & Hx & Hy).
  pose proof (λ b c k, transfer_delta st _ b c x y (tr_amount i) k Hx Hy Hamt) as Hd.
  rewrite (plan_supply _ st st' r Hg Hinv (resolver_no_create _ Hk) Hn) with (3 := E) (4 := Hr);
    rewrite Hops.
  - destruct (Hd a a 0%nat) as [_ ->]. lia.
  - repeat constructor. done.
  - intros b k. destruct (Hd b b k) as [Hle _]. specialize (Hmax b). lia.
Qed.

(** Liquidity routing creates money.  The resolver debits [amount] and
    credits [min_received] to the same balance without comparing them, and
    [validate] only asks that both be positive: settling such an intent raises
    the asset's total, and the sender's balance, by the difference. *)
Theorem route_liquidity_mints `{U256} (t : IntentTransaction) (i : RouteLiquidityIntent)
    (st st' : ObjectStore) (caps : CapabilitySet) (p : ExecutionPlan) (r : ExecutionReceipt) :
  store_inv st → amounts_nonneg st →
  asset_total (rl_asset_id i) st + (rl_min_received i - rl_amount i) ≤ u128_max →
  (∀ a, asset_total a st ≤ u128_max) →
  fits 64 (max_fee t) → 0 ≤ rl_amount i → 0 ≤ rl_min_received i →
  intent t = IRouteLiquidity i → IntentResolver.resolve t st caps = Ok p →
  apply_plan p st = (st', Ok r) → success r = true →
  asset_total (rl_asset_id i) st' =
  asset_total (rl_asset_id i) st + (rl_min_received i - rl_amount i).
Proof.
  intros Hinv Hn Hmint Hmax Hfee Hamt Hmin Hi Hres E Hr.
  destruct (resolve_well _ _ _ _ Hinv Hres) as [_ Hlim _ Hk _ _ _ _].
  assert (fits 64 (gas_limit p)) as Hg by (rewrite Hlim; destruct Hfee; split; ints).
  unfold IntentResolver.resolve in Hres. rewrite Hi in Hres.
  unfold IntentResolver.resolve_route_liquidity in Hres.
  apply obind_ok in Hres as ([] & _ & Hres). apply obind_ok in Hres as (? & _ & Hres).
  apply obind_ok in Hres as (? & _ & Hres). apply obind_ok in Hres as (sb & Hsb & Hres).
  injection Hres as <-. apply source_balance_ok in Hsb as [Hsb _].
  destruct (find_balance_sound _ _ _ _ Hinv Hsb) as (Hs & _ & Hsa).
  unfold ObjectStore.get_balance_by_id in *.
  rewrite (plan_supply _ st st' r Hg Hinv (resolver_no_create _ Hk) Hn) with (3 := E) (4 := Hr).
  - cbn [operations make_plan]. unfold supply_change; cbn.
    unfold asset_of. rewrite Hs. cbn. rewrite Hsa. rewrite !decide_True by done. lia.
  - repeat constructor. done.
  - intros b k. specialize (Hmax b). unfold supply_change.
    destruct k as [|[|[|[|k]]]]; cbn; rewrite ?take_nil; cbn;
      unfold asset_of; rewrite ?Hs; cbn; rewrite ?Hsa; repeat case_decide; simplify_eq; lia.
Qed.
End supply.

(** ** Sample runs *)

Lemma asset_total_le a st : amounts_nonneg st → asset_total a st ≤ map_sum amount (balances st).
Proof.
  unfold amounts_nonneg, asset_total.
  induction (balances st) as [|k b m Hk _ IH] using map_first_key_ind; intros Hn; [done|].
  rewrite !map_sum_insert by done.
  assert (0 ≤ amount b) by (apply (Hn k); apply lookup_insert_eq).
  assert (map_sum (held a) m ≤ map_sum amount m); [|unfold held at 1; case_decide; lia].
  apply IH. intros k' b' Hb'. apply (Hn k'). rewrite lookup_insert_ne; [done|].
  intros ->. congruence.
Qed.

Lemma settled_nonneg : amounts_nonneg settled_store.
Proof.
  assert (map_Forall (λ _ b, 0 ≤ amount b) (balances settled_store)) as Hm by by_decide.
  exact Hm.
Qed.
Lemma settled_total a : asset_total a settled_store ≤ 1057.
Proof. etrans; [apply asset_total_le, settled_nonneg|]. by_eval. Qed.

Definition sample_settle := @apply_plan sample_sha256 sample_hex sample_bincode.

Lemma plan_changes_supply_witness :
  let p := mkPlan 1 [CreditBalance 11 100] [] [rw 11] 0 5000 in
  ∃ st' r, sample_settle p settled_store = (st', Ok r) ∧
    ∀ a, asset_total a st' = asset_total a settled_store + supply_change settled_store a (operations p).
Proof.
  intros p. destruct (sample_settle p settled_store) as [st' o] eqn:E.
  assert (match o with Ok r => success r | _ => false end = true) as Hs.
  { apply (f_equal snd) in E. cbn [snd] in E. subst o. vm_compute. reflexivity. }
  destruct o as [r| |]; [|discriminate Hs..]. exists st', r. split; [reflexivity|].
  apply (@plan_changes_supply sample_sha256 sample_hex sample_bincode sample_bincode_laws
    p settled_store st' r);
    [by_eval|exact settled_inv|repeat constructor|exact settled_nonneg
    |repeat constructor; by_eval| |exact E|exact Hs].
  intros a k. pose proof (settled_total a).
  assert (supply_change settled_store a (take k (operations p)) ≤ 100).
  { destruct k as [|k]; unfold supply_change; cbn; rewrite ?take_nil; cbn;
      repeat case_decide; lia. }
  unfold umax. lia.
Defined.

Lemma transfer_conserves_witness :
  let t := sample_intent sample_transfer 0 in
  ∃ p st' r, @IntentResolver.resolve sample_u256 t settled_store CapabilitySet.user_default = Ok p ∧
    sample_settle p settled_store = (st', Ok r) ∧
    ∀ a, asset_total a st' = asset_total a settled_store.
Proof.
  intros t. destruct (@IntentResolver.resolve sample_u256 t settled_store CapabilitySet.user_default)
    as [p| |] eqn:Ep; [|discriminate Ep..].
  destruct (sample_settle p settled_store) as [st' o] eqn:E. exists p, st'.
  assert (match o with Ok r => success r | _ => false end = true) as Hs.
  { vm_compute in Ep. injection Ep as <-. apply (f_equal snd) in E. cbn [snd] in E. subst o.
    vm_compute. reflexivity. }
  destruct o as [r| |]; [|discriminate Hs..]. exists r. split; [reflexivity|]. split; [exact E|].
  apply (@transfer_conserves sample_sha256 sample_hex sample_bincode sample_bincode_laws
    sample_u256 t (mkTransfer 5 100 2 None) settled_store st' CapabilitySet.user_default p r);
    [exact settled_inv|exact settled_nonneg| |by_eval|by_eval|reflexivity|exact Ep|exact E|exact Hs].
  intros a. etrans; [apply settled_total|by_eval].
Defined.

Lemma route_liquidity_mints_witness :
  let i := mkRoute 20 30 5 10 500 1 100 in
  let t := sample_intent (IRouteLiquidity i) 0 in
  let caps := {[ProvideLiquidity; WithdrawLiquidity]} in
  IntentTransaction.validate t = Ok tt ∧
  ∃ p st' r, @IntentResolver.resolve sample_u256 t settled_store caps = Ok p ∧
    sample_settle p settled_store = (st', Ok r) ∧
    asset_total 5 st' = asset_total 5 settled_store + (500 - 10).
Proof.
  intros i t caps. split; [reflexivity|].
  destruct (@IntentResolver.resolve sample_u256 t settled_store caps)
    as [p| |] eqn:Ep; [|discriminate Ep..].
  destruct (sample_settle p settled_store) as [st' o] eqn:E. exists p, st'.
  assert (match o with Ok r => success r | _ => false end = true) as Hs.
  { vm_compute in Ep. injection Ep as <-. apply (f_equal snd) in E. cbn [snd] in E. subst o.
    vm_compute. reflexivity. }
  destruct o as [r| |]; [|discriminate Hs..]. exists r. split; [reflexivity|]. split; [exact E|].
  apply (@route_liquidity_mints sample_sha256 sample_hex sample_bincode sample_bincode_laws
    sample_u256 t i settled_store st' caps p r);
    [exact settled_inv|exact settled_nonneg| | |by_eval|by_eval|by_eval|reflexivity|exact Ep|exact E|exact Hs].
  - pose proof (settled_total 5). cbn. unfold umax. lia.
  - intros a. etrans; [apply settled_total|by_eval].
Defined.
