(* ===== verification/Groups.v ===== *)
(** * Executing groups

    The side effects of a plan and the aggregate result of
    [SettlementEngine::execute_groups]. *)

From stdpp Require Import gmap strings list sorting.
From S2P Require Import Prelude Errors Gas Objects Concrete Store FeeEnvelope Intents.
From S2P Require Import Planner Scheduler Artifacts Settlement Cells SettlementFacts.
Import SettlementEngine.

Section groups.
Context `{Sha256, Hex, BincodeLaws}.
Implicit Types (st : ObjectStore) (p : ExecutionPlan) (res : SettlementResult).

(** ** Side effects leave the store alone *)

Lemma collect_effect_ok now op st acc :
  (∀ c b s a l, op = BindContractBalance c b s a l → is_Some (ObjectStore.get st b)) →
  ∃ acc', collect_effect now op (st, acc) = ((st, acc'), Ok tt).
Proof.
  intros Hb. destruct op; cbn [collect_effect];
    try (by eexists).
  destruct (Hb _ _ _ _ _ eq_refl) as [o Ho].
  unfold gets, map_effects, modify, mret, M_ret, mbind, M_bind. cbn. rewrite Ho. by eexists.
Qed.

Lemma collect_effects_ok now ops st acc :
  (∀ c b s a l, BindContractBalance c b s a l ∈ ops → is_Some (ObjectStore.get st b)) →
  ∃ acc', mfor (collect_effect now) ops (st, acc) = ((st, acc'), Ok tt).
Proof.
  revert acc. induction ops as [|op ops IH]; intros acc Hb; [by eexists|].
  destruct (collect_effect_ok now op st acc) as [acc1 E1].
  { intros c b s a l ->. by apply (Hb c b s a l); left. }
  destruct (IH acc1) as [acc2 E2]. { intros c b s a l Hin. apply (Hb c b s a l). by right. }
  exists acc2. cbn [mfor]. unfold mbind, M_bind. by rewrite E1.
Qed.

Lemma validated_bind st c b s a l :
  validate_op (BindContractBalance c b s a l) st = Ok tt → is_Some (ObjectStore.get st b).
Proof.
  cbn. unfold need_object. intros (o & _ & E)%obind_ok. apply obind_ok in E as (o' & E & _).
  destruct (ObjectStore.get st b); [by eexists|done].
Qed.

Lemma like_get st st' i :
  store_like st st' → is_Some (ObjectStore.get st i) → is_Some (ObjectStore.get st' i).
Proof.
  intros Hl [o Ho]. unfold ObjectStore.get in *.
  destruct (fmap_eq_lookup _ _ _ _ _ (like_objects _ _ Hl) Ho) as (o' & ? & _). by eexists.
Qed.

(** A plan with its effects: the store and the receipt of [apply_plan]. *)
Lemma with_effects_ok p now st :
  fits 64 (gas_limit p) → store_inv st → no_create p →
  ∃ st' r fx evs, apply_plan p st = (st', Ok r) ∧ store_inv st' ∧ rc_tx_id r = plan_tx_id p ∧
    apply_plan_with_effects p now st = (st', Ok (with_events r evs, fx)).
Proof.
  intros Hg Hinv Hnc.
  assert (∀ st' r, apply_plan p st = (st', Ok r) → success r = false → store_inv st' →
    rc_tx_id r = plan_tx_id p → events r = [] →
    ∃ st' r fx evs, apply_plan p st = (st', Ok r) ∧ store_inv st' ∧ rc_tx_id r = plan_tx_id p ∧
      apply_plan_with_effects p now st = (st', Ok (with_events r evs, fx))) as Hfail.
  { intros st' r E Hr Hi Hid Hev. exists st', r, no_effects, []. split_and!; [done..|].
    unfold apply_plan_with_effects. rewrite E, Hr. cbn. destruct r; cbn in *. by subst. }
  destruct (apply_plan_cases p st Hg) as [(m & e & _ & E)|(olds & _ & Hv & Hle & E)].
  { by apply (Hfail st (fail_receipt p m e)). }
  pose proof (validated_ops_ok p st Hnc Hv) as Hok.
  rewrite (commit_plan_spec p st Hinv Hok) in E.
  pose proof (run_panic _ _ _ _ (run_spec_of p st Hinv Hok)) as Hnp.
  destruct ((run p st).2) as [[]|e|] eqn:Er; [|apply (Hfail _ _ E); [done|by apply run_inv|done|done]|done].
  fold (committed p st) in E. destruct (committed_inv p st Hinv Hok) as [Hinv' _].
  assert (store_like st (committed p st)) as Hl.
  { symmetry. unfold committed. etrans.
    { apply sync_like. rewrite bump_versions_like. by apply run_inv. }
    etrans; [apply bump_versions_like|].
    apply sig_like_store_like, (run_sig _ _ _ _ (run_spec_of p st Hinv Hok)). }
  destruct (collect_effects_ok now (operations p) (committed p st) ([], no_effects)) as [[evs fx] Ec].
  { intros c b s a l Hin. apply (like_get st); [done|].
    apply (validated_bind st c b s a l). by apply (proj1 (Forall_forall _ _) Hv). }
  eexists _, _, fx, evs. split_and!; [exact E|done|done|].
  unfold apply_plan_with_effects. rewrite E. cbn [success negb events]. by rewrite Ec.
Qed.

(** Collecting the side effects of a plan never touches the store: the
    balance that the engine would create for a binding "if it doesn't exist"
    always exists, because validation has refused the plan otherwise. *)
Theorem effects_keep_store p now st :
  fits 64 (gas_limit p) → store_inv st → no_create p →
  (apply_plan_with_effects p now st).1 = (apply_plan p st).1.
Proof.
  intros Hg Hinv Hnc. destruct (with_effects_ok p now st Hg Hinv Hnc) as (st' & r & fx & evs & E & _ & _ & E').
  by rewrite E, E'.
Qed.

(** ** Groups *)

(** What the collectors hold after the plans [done]. *)
Record tallied (res : SettlementResult) (handled : list ExecutionPlan) : Prop := {
  tal_ids : rc_tx_id <$> receipts res = plan_tx_id <$> handled;
  tal_ok : succeeded res = length (filter (λ r, success r = true) (receipts res));
  tal_failed : failed res = length (filter (λ r, success r = false) (receipts res));
  tal_events : all_events res = concat (events <$> filter (λ r, success r = true) (receipts res)) }.

Lemma record_plan_tallied res handled r fx p :
  tallied res handled → rc_tx_id r = plan_tx_id p →
  tallied (record_plan res r fx) (handled ++ [p]).
Proof.
  intros [Hi Ho Hf He] Hid. unfold record_plan.
  assert (filter (λ r, success r = true) [r] = if success r then [r] else []) as F1.
  { rewrite filter_cons, filter_nil. by destruct (success r). }
  assert (filter (λ r, success r = false) [r] = if success r then [] else [r]) as F2.
  { rewrite filter_cons, filter_nil. by destruct (success r). }
  destruct (success r) eqn:Es; split; cbn [receipts succeeded failed all_events];
    rewrite ?fmap_app, ?filter_app, ?F1, ?F2, ?length_app, ?fmap_app, ?concat_app, <- ?Hi, <- ?Ho,
      <- ?Hf, <- ?He; cbn; rewrite ?Hid, ?app_nil_r; done || lia.
Qed.

Definition plan_good p : Prop := fits 64 (gas_limit p) ∧ no_create p.

Lemma run_plans_ok now ps st res handled :
  store_inv st → Forall plan_good ps → tallied res handled →
  ∃ st' res', mfor (run_plan now) ps (st, res) = ((st', res'), Ok tt) ∧ store_inv st' ∧
    tallied res' (handled ++ ps) ∧ total_plans res' = total_plans res ∧ epoch res' = epoch res.
Proof.
  revert st res handled. induction ps as [|p ps IH]; intros st res handled Hinv Hg Ht.
  { exists st, res. rewrite app_nil_r. by split_and!. }
  apply Forall_cons in Hg as [[Hgas Hnc] Hg].
  destruct (with_effects_ok p now st Hgas Hinv Hnc) as (st1 & r & fx & evs & _ & Hinv1 & Hid & E).
  destruct (IH st1 (record_plan res (with_events r evs) fx) (handled ++ [p])) as
    (st2 & res2 & E2 & Hinv2 & Ht2 & Htot & Hep); [done|done|by apply record_plan_tallied|].
  exists st2, res2. cbn [mfor]. unfold mbind, M_bind, run_plan at 1. cbn [fst snd]. rewrite E.
  rewrite <- app_assoc in Ht2. split_and!; [exact E2|done|done|rewrite Htot|rewrite Hep];
    unfold record_plan; by case_match.
Qed.

Lemma run_groups_ok now gs st res handled :
  store_inv st → Forall plan_good (concat (plans <$> gs)) → tallied res handled →
  ∃ st' res', mfor (λ g, mfor (run_plan now) (plans g)) gs (st, res) = ((st', res'), Ok tt) ∧
    store_inv st' ∧ tallied res' (handled ++ concat (plans <$> gs)) ∧
    total_plans res' = total_plans res ∧ epoch res' = epoch res.
Proof.
  revert st res handled. induction gs as [|g gs IH]; intros st res handled Hinv Hg Ht.
  { exists st, res. cbn. rewrite app_nil_r. by split_and!. }
  cbn [fmap list_fmap concat] in *. apply Forall_app in Hg as [Hg1 Hg].
  destruct (run_plans_ok now (plans g) st res handled Hinv Hg1 Ht)
    as (st1 & res1 & E1 & Hinv1 & Ht1 & Htot1 & Hep1).
  destruct (IH st1 res1 (handled ++ plans g) Hinv1 Hg Ht1)
    as (st2 & res2 & E2 & Hinv2 & Ht2 & Htot2 & Hep2).
  exists st2, res2. cbn [mfor]. unfold mbind, M_bind. rewrite E1. rewrite <- app_assoc in Ht2.
  split_and!; [exact E2|done|done|congruence|congruence].
Qed.

Lemma sum_list_perm (l l' : list nat) : l ≡ₚ l' → sum_list l = sum_list l'.
Proof. induction 1; cbn; lia. Qed.

Lemma sum_list_lengths {A} (ls : list (list A)) : sum_list (length <$> ls) = length (concat ls).
Proof. induction ls as [|l ls IH]; [done|]. cbn. rewrite length_app. cbn in IH. lia. Qed.

Lemma filter_split_length {A} (f : A → bool) (l : list A) :
  (length (filter (λ x, f x = true) l) + length (filter (λ x, f x = false) l) = length l)%nat.
Proof.
  induction l as [|a l IH]; [done|]. rewrite !filter_cons.
  destruct (decide (f a = true)), (decide (f a = false)); try congruence.
  - cbn [length]. lia.
  - cbn [length]. lia.
  - by destruct (f a).
Qed.

Lemma sorted_groups_plans groups :
  concat (plans <$> merge_sort group_le groups) ≡ₚ concat (plans <$> groups).
Proof. by rewrite (merge_sort_Permutation group_le groups). Qed.

Lemma sorted_groups_Forall (P : ExecutionPlan → Prop) groups :
  Forall P (concat (plans <$> groups)) → Forall P (concat (plans <$> merge_sort group_le groups)).
Proof. by rewrite sorted_groups_plans. Qed.

Lemma execute_groups_ok groups now st :
  store_inv st → Forall plan_good (concat (plans <$> groups)) →
  ∃ st' res, execute_groups groups now st = (st', Ok res) ∧
    store_inv st' ∧ synced st' ∧ res_state_root res = ObjectStore.state_root st' ∧
    tallied res (concat (plans <$> merge_sort group_le groups)) ∧
    total_plans res = sum_list (length <$> (plans <$> groups)) ∧ epoch res = now.
Proof.
  intros Hinv Hg.
  pose proof (sorted_groups_Forall _ _ Hg) as Hg'.
  set (total := sum_list (length <$> (plans <$> groups))).
  destruct (run_groups_ok now (merge_sort group_le groups) st (start_result now total) [])
    as (st1 & res1 & E & Hinv1 & [Hi Ho Hf He] & Htot & Hep); [done|done|done|].
  eexists _, _. split.
  { unfold execute_groups. fold total. rewrite E. reflexivity. }
  split_and!; [by apply sync_inv|by apply sync_synced|done|by split|exact Htot|exact Hep].
Qed.

(** *** Invariants of group execution

    What every plan and the final sync keep, the whole execution keeps. *)
Section invariant.
Context (I : ObjectStore → Prop) (Q : ExecutionPlan → Prop).
Context (I_inv : ∀ st, I st → store_inv st) (Q_good : ∀ p, Q p → plan_good p).
Context (I_plan : ∀ p st st' r, Q p → I st → apply_plan p st = (st', Ok r) → I st').
Context (I_sync : ∀ st, I st → I (ObjectStore.sync_typed_to_canonical st)).

Lemma run_plan_keeps now p st res :
  I st → Q p → ∃ st' res', run_plan now p (st, res) = ((st', res'), Ok tt) ∧ I st'.
Proof.
  intros Hi Hq. destruct (Q_good p Hq) as [Hg Hnc].
  destruct (with_effects_ok p now st Hg (I_inv _ Hi) Hnc) as (st1 & r & fx & evs & E & _ & _ & E').
  unfold run_plan. cbn [fst snd]. rewrite E'. do 2 eexists. split; [reflexivity|].
  by eapply I_plan.
Qed.

Lemma run_plans_keep now ps st res :
  I st → Forall Q ps →
  ∃ st' res', mfor (run_plan now) ps (st, res) = ((st', res'), Ok tt) ∧ I st'.
Proof.
  revert st res. induction ps as [|p ps IH]; intros st res Hi Hq; [by exists st, res|].
  apply Forall_cons in Hq as [Hp Hq]. destruct (run_plan_keeps now p st res Hi Hp) as (st1 & res1 & E & Hi1).
  cbn [mfor]. unfold mbind, M_bind. rewrite E. by apply IH.
Qed.

Lemma run_groups_keep now gs st res :
  I st → Forall Q (concat (plans <$> gs)) →
  ∃ st' res', mfor (λ g, mfor (run_plan now) (plans g)) gs (st, res) = ((st', res'), Ok tt) ∧ I st'.
Proof.
  revert st res. induction gs as [|g gs IH]; intros st res Hi Hq; [by exists st, res|].
  cbn [fmap list_fmap concat] in Hq. apply Forall_app in Hq as [Hg Hgs].
  destruct (run_plans_keep now (plans g) st res Hi Hg) as (st1 & res1 & E & Hi1).
  cbn [mfor]. unfold mbind, M_bind. rewrite E. by apply IH.
Qed.

Lemma execute_groups_keep now gs st :
  I st → Forall Q (concat (plans <$> gs)) →
  ∃ st' res, execute_groups gs now st = (st', Ok res) ∧ I st'.
Proof.
  intros Hi Hq. unfold execute_groups.
  destruct (run_groups_keep now (merge_sort group_le gs) st
    (start_result now (sum_list (length <$> (plans <$> gs)))) Hi (sorted_groups_Forall _ _ Hq))
    as (st1 & res1 & E & Hi1).
  rewrite E. do 2 eexists. split; [reflexivity|]. by apply I_sync.
Qed.
End invariant.

(** Executing groups of plans that create no token always terminates with a
    result: one receipt per plan, in the order of the group indices; the counts
    of successes and failures are those of the receipts and add up to the number
    of plans; the events are those of the successful plans; the final store is
    well formed and synced, and the result carries its state root. *)
Theorem execute_groups_result (groups : list ExecutionGroup) (now : Z) st :
  store_inv st → Forall plan_good (concat (plans <$> groups)) →
  ∃ st' res, execute_groups groups now st = (st', Ok res) ∧
    store_inv st' ∧ synced st' ∧ res_state_root res = ObjectStore.state_root st' ∧
    rc_tx_id <$> receipts res = plan_tx_id <$> concat (plans <$> merge_sort group_le groups) ∧
    succeeded res = length (filter (λ r, success r = true) (receipts res)) ∧
    failed res = length (filter (λ r, success r = false) (receipts res)) ∧
    (succeeded res + failed res)%nat = total_plans res ∧
    all_events res = concat (events <$> filter (λ r, success r = true) (receipts res)) ∧
    epoch res = now.
Proof.
  intros Hinv Hg.
  destruct (execute_groups_ok groups now st Hinv Hg)
    as (st' & res & E & Hinv' & Hs & Hroot & [Hi Ho Hf He] & Htot & Hep).
  exists st', res. split_and!; [done..| |done|done].
  rewrite Ho, Hf, filter_split_length, Htot, sum_list_lengths.
  apply (f_equal length) in Hi. rewrite !length_fmap in Hi. rewrite Hi, <- !sum_list_lengths.
  apply sum_list_perm. by rewrite (merge_sort_Permutation group_le groups).
Qed.
End groups.

(** ** Sample runs *)

Definition sample_groups : list ExecutionGroup :=
  [mkGroup [mkPlan 3 [LockBalance 12 1000] [] [rw 12] 0 5000] 1;
   mkGroup [mkPlan 1 [DebitBalance 10 100; CreditBalance 11 100] [] [rw 10; rw 11] 0 5000;
            mkPlan 2 [EmitContractEvent 40 77 "ping" ∅ [1]] [] [rw 40] 0 5000] 0].

Lemma effects_keep_store_witness :
  let p := mkPlan 2 [EmitContractEvent 40 77 "ping" ∅ [1]] [] [rw 40] 0 5000 in
  (@apply_plan_with_effects sample_sha256 sample_hex sample_bincode p 9 settled_store).1 =
  (@apply_plan sample_sha256 sample_hex sample_bincode p settled_store).1.
Proof.
  intros p. apply (@effects_keep_store sample_sha256 sample_hex sample_bincode sample_bincode_laws);
    [by_eval|exact settled_inv|repeat constructor].
Defined.

Lemma execute_groups_result_witness :
  ∃ st' res, @execute_groups sample_sha256 sample_hex sample_bincode sample_groups 9 settled_store =
      (st', Ok res) ∧ store_inv st' ∧ (succeeded res + failed res)%nat = total_plans res.
Proof.
  destruct (@execute_groups_result sample_sha256 sample_hex sample_bincode sample_bincode_laws
    sample_groups 9 settled_store) as (st' & res & E & Hinv & _ & _ & _ & _ & _ & Hsum & _);
    [exact settled_inv| |].
  - cbn. repeat constructor; by_eval.
  - exists st', res. split; [exact E|]. split; [exact Hinv|exact Hsum].
Defined.
