(* ===== verification/Fees.v ===== *)
(** * Sequencing fees and their routing

    The PoSeq fee formula (src/runtime/src/fees/poseq_fee.rs) and the split of
    a fee among its destinations (src/runtime/src/fees/routing.rs), and the record of
    one intent's fees as a state machine (src/runtime/src/fees/accounting.rs). *)

From stdpp Require Import gmap strings list pretty.
From S2P Require Import Prelude FeeEnvelope.

(** ** Parameters *)

(* @src src/runtime/src/fees/poseq_fee.rs:22-82 PoSeqFeeParams *)
Record PoSeqFeeParams : Type := mkFeeParams {
  base_admission_fee : Z;
  fee_per_byte : Z;
  target_intents_per_batch : Z;
  target_bytes_per_batch : Z;
  min_congestion_multiplier_bps : Z;
  max_congestion_multiplier_bps : Z;
  priority_tip_cap : Z;
  max_tip_priority_weight_bps : Z;
  intent_expiry_penalty_bps : Z;
  poseq_fee_floor : Z;
  max_poseq_fee_cap : Z;
  burn_bps : Z;
  sequencer_reward_bps : Z;
  shared_security_bps : Z;
  treasury_bps : Z }.

Module PoSeqFeeParams.
(* @src src/runtime/src/fees/poseq_fee.rs:85-104 PoSeqFeeParams::default_params *)
Definition default_params : PoSeqFeeParams := {|
  base_admission_fee := 1000;
  fee_per_byte := 5;
  target_intents_per_batch := 100;
  target_bytes_per_batch := 500000;
  min_congestion_multiplier_bps := 10000;
  max_congestion_multiplier_bps := 50000;
  priority_tip_cap := 100000;
  max_tip_priority_weight_bps := 2000;
  intent_expiry_penalty_bps := 1000;
  poseq_fee_floor := 500;
  max_poseq_fee_cap := 10000000;
  burn_bps := 2000;
  sequencer_reward_bps := 5000;
  shared_security_bps := 2000;
  treasury_bps := 1000 |}.

(** [if cond { errors.push(msg) }] *)
Definition complain (cond : bool) (msg : string) : list string := if cond then [msg] else [].

(* @src src/runtime/src/fees/poseq_fee.rs:106-141 PoSeqFeeParams::validate *)
Definition validate (p : PoSeqFeeParams) : list string :=
  complain (bool_decide (target_intents_per_batch p = 0))
    "target_intents_per_batch must be > 0" ++
  complain (bool_decide (target_bytes_per_batch p = 0)) "target_bytes_per_batch must be > 0" ++
  complain (bool_decide (min_congestion_multiplier_bps p < 10000))
    "min_congestion_multiplier_bps must be >= 10000 (1.0x)" ++
  complain (bool_decide (max_congestion_multiplier_bps p < min_congestion_multiplier_bps p))
    "max_congestion_multiplier_bps must be >= min" ++
  complain (bool_decide (max_poseq_fee_cap p < poseq_fee_floor p)) "fee_floor must be <= fee_cap" ++
  complain (bool_decide (5000 < max_tip_priority_weight_bps p))
    "max_tip_priority_weight_bps must be <= 5000 (50%)" ++
  let total_routing := wrapu 64 (wrapu 64 (wrapu 64 (burn_bps p + sequencer_reward_bps p) +
    shared_security_bps p) + treasury_bps p) in
  complain (bool_decide (total_routing ≠ 10000))
    ("fee routing splits must sum to 10000, got " +:+ pretty total_routing).
End PoSeqFeeParams.

(* @src src/runtime/src/fees/poseq_fee.rs:143-150 CongestionState *)
Record CongestionState : Type := mkCongestion {
  pool_intent_count : Z;
  pool_total_bytes : Z }.

(* @src src/runtime/src/fees/poseq_fee.rs:152-169 PoSeqFeeResult *)
Record PoSeqFeeResult : Type := mkFeeResult {
  total_fee : Z;
  base_component : Z;
  bandwidth_component : Z;
  tip_component : Z;
  congestion_multiplier_bps : Z;
  floor_applied : bool;
  cap_applied : bool }.

(** ** The calculator *)

(* @src src/runtime/src/fees/poseq_fee.rs:295-298 u64_clamp *)
Definition u64_clamp (v : Z) : Z := if decide (u64_max < v) then u64_max else v.

Module PoSeqFeeCalculator.
(* @src src/runtime/src/fees/poseq_fee.rs:242-261 PoSeqFeeCalculator::compute_congestion_multiplier *)
Definition ratio_bps (seen target : Z) : Z :=
  if decide (0 < target) then wrapu 64 (sat_mul 128 seen 10000 / target) else 10000.

(* @src src/runtime/src/fees/poseq_fee.rs:233-271 PoSeqFeeCalculator::compute_congestion_multiplier *)
Definition compute_congestion_multiplier (p : PoSeqFeeParams) (c : CongestionState) : Z :=
  let intent_ratio_bps := ratio_bps (pool_intent_count c) (target_intents_per_batch p) in
  let byte_ratio_bps := ratio_bps (pool_total_bytes c) (target_bytes_per_batch p) in
  let demand_bps := Z.max intent_ratio_bps byte_ratio_bps in
  Z.min (Z.max demand_bps (min_congestion_multiplier_bps p)) (max_congestion_multiplier_bps p).

(* @src src/runtime/src/fees/poseq_fee.rs:175-231 PoSeqFeeCalculator::calculate *)
Definition calculate (p : PoSeqFeeParams) (intent_bytes priority_tip : Z) (c : CongestionState)
  : PoSeqFeeResult :=
  let base := base_admission_fee p in
  let bandwidth := u64_clamp (sat_mul 128 intent_bytes (fee_per_byte p)) in
  let tip := Z.min priority_tip (priority_tip_cap p) in
  let multiplier := compute_congestion_multiplier p c in
  let pre_multiply := sat_add 128 (sat_add 128 base bandwidth) tip in
  let post_multiply := sat_mul 128 pre_multiply multiplier / 10000 in
  let total := u64_clamp post_multiply in
  let floor := bool_decide (total < poseq_fee_floor p) in
  let total := if floor then poseq_fee_floor p else total in
  let cap := bool_decide (max_poseq_fee_cap p < total) in
  let total := if cap then max_poseq_fee_cap p else total in
  mkFeeResult total base (u64_clamp bandwidth) tip multiplier floor cap.

(* @src src/runtime/src/fees/poseq_fee.rs:273-278 PoSeqFeeCalculator::compute_expiry_penalty *)
Definition compute_expiry_penalty (p : PoSeqFeeParams) (computed_fee : Z) : Z :=
  wrapu 64 (sat_mul 128 computed_fee (intent_expiry_penalty_bps p) / 10000).

(* @src src/runtime/src/fees/poseq_fee.rs:280-292 PoSeqFeeCalculator::compute_tip_priority_weight *)
Definition compute_tip_priority_weight (p : PoSeqFeeParams) (tip : Z) : Z :=
  if decide (priority_tip_cap p = 0) then 0 else
  let capped_tip := Z.min tip (priority_tip_cap p) in
  wrapu 64 (sat_mul 128 capped_tip (max_tip_priority_weight_bps p) / priority_tip_cap p).
End PoSeqFeeCalculator.

(** ** Routing *)

(* @src src/runtime/src/fees/routing.rs:14-21 FeeRoutingParams *)
Record FeeRoutingParams : Type := mkRouting {
  fr_burn_bps : Z;
  fr_sequencer_reward_bps : Z;
  fr_shared_security_bps : Z;
  fr_treasury_bps : Z }.

Module FeeRoutingParams.
(* @src src/runtime/src/fees/routing.rs:24-31 FeeRoutingParams::from_poseq_params *)
Definition from_poseq_params (p : PoSeqFeeParams) : FeeRoutingParams :=
  mkRouting (burn_bps p) (sequencer_reward_bps p) (shared_security_bps p) (treasury_bps p).

(* @src src/runtime/src/fees/routing.rs:33-42 FeeRoutingParams::validate *)
Definition validate (p : FeeRoutingParams) : outcome string () :=
  let total := wrapu 64 (wrapu 64 (wrapu 64 (fr_burn_bps p + fr_sequencer_reward_bps p) +
    fr_shared_security_bps p) + fr_treasury_bps p) in
  if decide (total ≠ 10000)
  then Err ("routing splits must sum to 10000, got " +:+ pretty total) else Ok tt.
End FeeRoutingParams.

(* @src src/runtime/src/fees/routing.rs:45-60 RoutedFees *)
Record RoutedFees : Type := mkRouted {
  rf_total : Z;
  burned : Z;
  sequencer_reward : Z;
  shared_security : Z;
  treasury : Z;
  dust : Z }.

Module RoutedFees.
(* @src src/runtime/src/fees/routing.rs:62-71 RoutedFees::check_conservation *)
Definition check_conservation (r : RoutedFees) : bool :=
  bool_decide (sat_add 64 (sat_add 64 (sat_add 64 (burned r) (sequencer_reward r))
    (shared_security r)) (treasury r) = rf_total r).
End RoutedFees.

Module FeeRouting.
Definition share (amt bps : Z) : Z := wrapu 64 (wrapu 128 (amt * bps) / 10000).

(* @src src/runtime/src/fees/routing.rs:78-118 FeeRouting::route *)
Definition route (amt : Z) (p : FeeRoutingParams) : RoutedFees :=
  if decide (amt = 0) then mkRouted 0 0 0 0 0 0 else
  let seq := share amt (fr_sequencer_reward_bps p) in
  let sec := share amt (fr_shared_security_bps p) in
  let tre := share amt (fr_treasury_bps p) in
  let burn_base := share amt (fr_burn_bps p) in
  let accounted := sat_add 64 (sat_add 64 (sat_add 64 seq sec) tre) burn_base in
  let dust := sat_sub amt accounted in
  mkRouted amt (sat_add 64 burn_base dust) seq sec tre dust.
End FeeRouting.

(** ** Well-formed parameters *)

Definition params_fit (p : PoSeqFeeParams) : Prop :=
  Forall (fits 64) [base_admission_fee p; fee_per_byte p; target_intents_per_batch p;
    target_bytes_per_batch p; min_congestion_multiplier_bps p; max_congestion_multiplier_bps p;
    priority_tip_cap p; max_tip_priority_weight_bps p; intent_expiry_penalty_bps p;
    poseq_fee_floor p; max_poseq_fee_cap p; burn_bps p; sequencer_reward_bps p;
    shared_security_bps p; treasury_bps p].

(** The splits as the basis points they are meant to be: at most 10000 each, so
    that their sum does not wrap. *)
Definition routing_fit (p : FeeRoutingParams) : Prop :=
  Forall (λ b, 0 ≤ b ≤ 10000)
    [fr_burn_bps p; fr_sequencer_reward_bps p; fr_shared_security_bps p; fr_treasury_bps p].

(** ** Lemmas *)

Lemma complain_nil b msg : PoSeqFeeParams.complain b msg = [] ↔ b = false.
Proof. by destruct b. Qed.

Lemma validate_nil p :
  PoSeqFeeParams.validate p = [] →
  10000 ≤ min_congestion_multiplier_bps p ≤ max_congestion_multiplier_bps p ∧
  poseq_fee_floor p ≤ max_poseq_fee_cap p ∧ max_tip_priority_weight_bps p ≤ 5000 ∧
  target_intents_per_batch p ≠ 0 ∧ target_bytes_per_batch p ≠ 0.
Proof.
  unfold PoSeqFeeParams.validate. intros E.
  repeat (apply app_nil in E as [?%complain_nil%bool_decide_eq_false E]). lia.
Qed.

Lemma u64_clamp_mono a b : a ≤ b → u64_clamp a ≤ u64_clamp b.
Proof. intros. unfold u64_clamp. repeat case_decide; unfold umax in *; lia. Qed.

Lemma multiplier_bounds p c :
  min_congestion_multiplier_bps p ≤ max_congestion_multiplier_bps p →
  min_congestion_multiplier_bps p ≤ PoSeqFeeCalculator.compute_congestion_multiplier p c
    ≤ max_congestion_multiplier_bps p.
Proof. unfold PoSeqFeeCalculator.compute_congestion_multiplier. lia. Qed.

(** The fee before the floor and the cap. *)
Definition raw_fee (p : PoSeqFeeParams) (len tip : Z) (c : CongestionState) : Z :=
  u64_clamp (sat_mul 128 (sat_add 128 (sat_add 128 (base_admission_fee p)
    (u64_clamp (sat_mul 128 len (fee_per_byte p)))) (Z.min tip (priority_tip_cap p)))
    (PoSeqFeeCalculator.compute_congestion_multiplier p c) / 10000).

Lemma calculate_total p len tip c :
  poseq_fee_floor p ≤ max_poseq_fee_cap p →
  total_fee (PoSeqFeeCalculator.calculate p len tip c) =
  Z.min (Z.max (raw_fee p len tip c) (poseq_fee_floor p)) (max_poseq_fee_cap p).
Proof.
  intros Hle. unfold PoSeqFeeCalculator.calculate. cbn [total_fee]. fold (raw_fee p len tip c).
  repeat case_bool_decide; lia.
Qed.

Lemma raw_fee_mono p len len' tip tip' c :
  0 ≤ fee_per_byte p → 0 ≤ PoSeqFeeCalculator.compute_congestion_multiplier p c →
  len ≤ len' → tip ≤ tip' → raw_fee p len tip c ≤ raw_fee p len' tip' c.
Proof.
  intros Hb Hm Hl Ht. apply u64_clamp_mono, Z.div_le_mono; [lia|].
  apply sat_mul_mono; [|done]. apply sat_add_mono; [|lia]. apply sat_add_mono; [lia|].
  by apply u64_clamp_mono, sat_mul_mono.
Qed.

Lemma share_exact amt bps :
  fits 64 amt → 0 ≤ bps ≤ 10000 →
  FeeRouting.share amt bps = amt * bps / 10000 ∧
  10000 * FeeRouting.share amt bps ≤ amt * bps < 10000 * FeeRouting.share amt bps + 10000.
Proof.
  intros [Ha Ha'] Hb. unfold FeeRouting.share.
  assert (amt * bps ≤ amt * 10000) by nia.
  assert (amt * 10000 < 2 ^ 128) by (assert (2 ^ 64 * 10000 < 2 ^ 128) by by_eval; lia).
  rewrite (wrapu_id 128) by (split; [nia|lia]).
  pose proof (Z.div_mod (amt * bps) 10000). pose proof (Z.mod_pos_bound (amt * bps) 10000).
  rewrite wrapu_id; [lia|]. split; [apply Z.div_pos; nia|].
  apply Z.div_lt_upper_bound; lia.
Qed.

(** ** Properties *)

(** With parameters that pass [validate], the sequencing fee is always
    between the floor and the cap, the congestion multiplier is between its
    bounds, and the fee does not decrease when the intent gets longer or the tip
    larger; a tip above the cap counts as the cap. *)
Theorem poseq_fee_bounded (p : PoSeqFeeParams) (len len' tip tip' : Z) (c : CongestionState) :
  params_fit p → PoSeqFeeParams.validate p = [] → len ≤ len' → tip ≤ tip' →
  let r := PoSeqFeeCalculator.calculate p len tip c in
  let r' := PoSeqFeeCalculator.calculate p len' tip' c in
  poseq_fee_floor p ≤ total_fee r ≤ max_poseq_fee_cap p ∧
  min_congestion_multiplier_bps p ≤ congestion_multiplier_bps r
    ≤ max_congestion_multiplier_bps p ∧
  total_fee r ≤ total_fee r' ∧
  (priority_tip_cap p ≤ tip → total_fee r = total_fee
     (PoSeqFeeCalculator.calculate p len (priority_tip_cap p) c)).
Proof.
  intros Hfit (Hmult & Hfc & _)%validate_nil Hlen Htip r r'.
  pose proof (multiplier_bounds p c ltac:(lia)) as Hm.
  assert (0 ≤ fee_per_byte p) as Hb.
  { do 2 (apply Forall_cons in Hfit as [? Hfit]). ints. }
  subst r r'. rewrite !calculate_total by lia. split_and!; [lia|lia|exact (proj1 Hm)|exact (proj2 Hm)| |].
  - pose proof (raw_fee_mono p len len' tip tip' c Hb ltac:(lia) Hlen Htip). lia.
  - intros Hcap. unfold raw_fee. by rewrite (Z.min_r tip), Z.min_id by lia.
Qed.

Lemma poseq_fee_bounded_witness :
  let p := PoSeqFeeParams.default_params in
  let r := PoSeqFeeCalculator.calculate p 200 7 (mkCongestion 150 1000) in
  total_fee r = 3010 ∧ 500 ≤ total_fee r ≤ 10000000.
Proof.
  intros p r. split; [reflexivity|].
  apply (poseq_fee_bounded p 200 300 7 9 (mkCongestion 150 1000));
    [repeat constructor; by_eval|reflexivity|by_eval|by_eval].
Defined.

(** Routing conserves the fee: for splits that [validate], the four
    destinations add up to the amount exactly, each split gets the floor of its
    share, and what rounding leaves, less than four units, is burned. *)
Theorem route_conserves (amt : Z) (p : FeeRoutingParams) :
  fits 64 amt → routing_fit p → FeeRoutingParams.validate p = Ok tt →
  let r := FeeRouting.route amt p in
  burned r + sequencer_reward r + shared_security r + treasury r = amt ∧
  RoutedFees.check_conservation r = true ∧
  sequencer_reward r = amt * fr_sequencer_reward_bps p / 10000 ∧
  shared_security r = amt * fr_shared_security_bps p / 10000 ∧
  treasury r = amt * fr_treasury_bps p / 10000 ∧
  burned r = amt * fr_burn_bps p / 10000 + dust r ∧ 0 ≤ dust r < 4.
Proof.
  intros Ha Hfit Hv. unfold routing_fit in Hfit.
  apply Forall_cons in Hfit as [Hb Hfit]. apply Forall_cons in Hfit as [Hq Hfit].
  apply Forall_cons in Hfit as [Hs Hfit]. apply Forall_cons in Hfit as [Ht _].
  assert (2 ^ 64 = 18446744073709551616) as E64 by done.
  unfold FeeRoutingParams.validate in Hv.
  rewrite (wrapu_id 64 (fr_burn_bps p + _)) in Hv by (split; lia).
  rewrite (wrapu_id 64 (_ + fr_shared_security_bps p)) in Hv by (split; lia).
  rewrite (wrapu_id 64 (_ + fr_treasury_bps p)) in Hv by (split; lia).
  destruct (decide _) as [|Hsum] in Hv; [done|]. apply dec_stable in Hsum. clear Hv.
  destruct (share_exact amt _ Ha Hb) as [Eb Hb'], (share_exact amt _ Ha Hq) as [Eq Hq'],
    (share_exact amt _ Ha Hs) as [Es Hs'], (share_exact amt _ Ha Ht) as [Et Ht'].
  unfold FeeRouting.route. case_decide as Hz.
  { subst amt. cbn. rewrite !Z.mul_0_l, Z.div_0_l by lia. by split_and!. }
  cbn [burned sequencer_reward shared_security treasury dust].
  unfold RoutedFees.check_conservation. cbn [burned sequencer_reward shared_security treasury rf_total].
  rewrite bool_decide_eq_true, <- Eb, <- Eq, <- Es, <- Et.
  set (B := FeeRouting.share amt (fr_burn_bps p)) in *.
  set (Q := FeeRouting.share amt (fr_sequencer_reward_bps p)) in *.
  set (S := FeeRouting.share amt (fr_shared_security_bps p)) in *.
  set (T := FeeRouting.share amt (fr_treasury_bps p)) in *.
  assert (amt * fr_burn_bps p + amt * fr_sequencer_reward_bps p + amt * fr_shared_security_bps p +
    amt * fr_treasury_bps p = amt * 10000) as Htot by (rewrite <- Hsum; ring).
  destruct Ha as [Ha1 Ha2].
  assert (0 ≤ B ∧ 0 ≤ Q ∧ 0 ≤ S ∧ 0 ≤ T) as (? & ? & ? & ?).
  { assert (0 ≤ amt * fr_burn_bps p) by nia. assert (0 ≤ amt * fr_sequencer_reward_bps p) by nia.
    assert (0 ≤ amt * fr_shared_security_bps p) by nia. assert (0 ≤ amt * fr_treasury_bps p) by nia.
    lia. }
  unfold sat_add, sat_sub, umax. lia.
Qed.

Lemma route_conserves_witness :
  let r := FeeRouting.route 1003 (FeeRoutingParams.from_poseq_params PoSeqFeeParams.default_params) in
  burned r + sequencer_reward r + shared_security r + treasury r = 1003 ∧ dust r = 2.
Proof.
  intros r. split; [|reflexivity].
  apply (route_conserves 1003 (FeeRoutingParams.from_poseq_params PoSeqFeeParams.default_params));
    [by_eval|repeat constructor; by_eval|reflexivity].
Defined.

(** * The fee lifecycle of one intent

    Reserve, charge, refund: the accounting record of
    src/runtime/src/fees/accounting.rs, which never touches a balance itself
    (FeeExecutor does).  The record is a state machine; [command] names its
    operations, so that a lifecycle is a list of commands. *)

(* @src src/runtime/src/fees/accounting.rs:16-33 FeeAccountingState *)
Inductive FeeAccountingState : Type :=
| Reserved
| SequencingCharged
| FullyCharged
| Settled
| FailedIntake
| Expired
| RuntimeReverted.

#[export] Instance FeeAccountingState_eq_dec : EqDecision FeeAccountingState.
Proof. solve_decision. Defined.

(** The text [{:?}] prints. *)
Definition debug_state (st : FeeAccountingState) : string :=
  match st with
  | Reserved => "Reserved"
  | SequencingCharged => "SequencingCharged"
  | FullyCharged => "FullyCharged"
  | Settled => "Settled"
  | FailedIntake => "FailedIntake"
  | Expired => "Expired"
  | RuntimeReverted => "RuntimeReverted"
  end.

(* @src src/runtime/src/fees/accounting.rs:35-52 FeeAccounting *)
Record FeeAccounting : Type := mkAccounting {
  envelope : FeeEnvelope;
  fa_state : FeeAccountingState;
  reserved_total : Z;
  charged_poseq : Z;
  charged_runtime : Z;
  refunded : Z;
  penalty : Z }.

(* @src src/runtime/src/fees/accounting.rs:54-60 ChargeResult *)
Record ChargeResult : Type := mkCharge {
  charge_success : bool;
  amount_charged : Z;
  charge_error : option string }.

Definition charge_failed (msg : string) : ChargeResult := mkCharge false 0 (Some msg).
Definition charged (amt : Z) : ChargeResult := mkCharge true amt None.

Module FeeAccounting.
(* @src src/runtime/src/fees/accounting.rs:63-76 FeeAccounting::reserve *)
Definition reserve (e : FeeEnvelope) : FeeAccounting :=
  mkAccounting e Reserved (FeeEnvelope.total_reserved e) 0 0 0 0.

(* @src src/runtime/src/fees/accounting.rs:78-110 FeeAccounting::charge_sequencing *)
Definition charge_sequencing (a : FeeAccounting) (fee_result : PoSeqFeeResult)
  : FeeAccounting * ChargeResult :=
  if decide (fa_state a ≠ Reserved) then
    (a, charge_failed ("invalid state for sequencing charge: " +:+ debug_state (fa_state a)))
  else if decide (max_poseq_fee (envelope a) < total_fee fee_result) then
    (a, charge_failed ("insufficient poseq reserve: need " +:+ pretty (total_fee fee_result) +:+
      ", have " +:+ pretty (max_poseq_fee (envelope a))))
  else
    (mkAccounting (envelope a) SequencingCharged (reserved_total a) (total_fee fee_result)
       (charged_runtime a) (refunded a) (penalty a),
     charged (total_fee fee_result)).

(* @src src/runtime/src/fees/accounting.rs:112-144 FeeAccounting::charge_runtime *)
Definition charge_runtime (a : FeeAccounting) (actual_gas_fee : Z) : FeeAccounting * ChargeResult :=
  if decide (fa_state a ≠ SequencingCharged) then
    (a, charge_failed ("invalid state for runtime charge: " +:+ debug_state (fa_state a)))
  else if decide (max_runtime_fee (envelope a) < actual_gas_fee) then
    (a, charge_failed ("insufficient runtime reserve: need " +:+ pretty actual_gas_fee +:+
      ", have " +:+ pretty (max_runtime_fee (envelope a))))
  else
    (mkAccounting (envelope a) FullyCharged (reserved_total a) (charged_poseq a)
       actual_gas_fee (refunded a) (penalty a),
     charged actual_gas_fee).

(* @src src/runtime/src/fees/accounting.rs:179-184 FeeAccounting::total_charged *)
Definition total_charged (a : FeeAccounting) : Z :=
  sat_add 64 (sat_add 64 (charged_poseq a) (charged_runtime a)) (penalty a).

(* @src src/runtime/src/fees/accounting.rs:146-155 FeeAccounting::settle_refund *)
Definition settle_refund (a : FeeAccounting) : FeeAccounting * Z :=
  let total := sat_add 64 (sat_add 64 (charged_poseq a) (charged_runtime a)) (penalty a) in
  let refund := sat_sub (reserved_total a) total in
  (mkAccounting (envelope a) Settled (reserved_total a) (charged_poseq a) (charged_runtime a)
     refund (penalty a), refund).

(* @src src/runtime/src/fees/accounting.rs:157-162 FeeAccounting::fail_intake *)
Definition fail_intake (a : FeeAccounting) (validation_cost : Z) : FeeAccounting :=
  let pen := Z.min validation_cost (reserved_total a) in
  mkAccounting (envelope a) FailedIntake (reserved_total a) (charged_poseq a)
    (charged_runtime a) (sat_sub (reserved_total a) pen) pen.

(* @src src/runtime/src/fees/accounting.rs:164-169 FeeAccounting::expire *)
Definition expire (a : FeeAccounting) (expiry_penalty : Z) : FeeAccounting :=
  let pen := Z.min expiry_penalty (reserved_total a) in
  mkAccounting (envelope a) Expired (reserved_total a) (charged_poseq a)
    (charged_runtime a) (sat_sub (reserved_total a) pen) pen.

(* @src src/runtime/src/fees/accounting.rs:171-178 FeeAccounting::revert_runtime *)
Definition revert_runtime (a : FeeAccounting) (runtime_work_charged : Z) : FeeAccounting :=
  let rt := Z.min runtime_work_charged (max_runtime_fee (envelope a)) in
  let total := sat_add 64 (charged_poseq a) rt in
  mkAccounting (envelope a) RuntimeReverted (reserved_total a) (charged_poseq a) rt
    (sat_sub (reserved_total a) total) (penalty a).

(* @src src/runtime/src/fees/accounting.rs:188-191 FeeAccounting::check_invariant_no_negative_refund *)
Definition check_invariant_no_negative_refund (a : FeeAccounting) : bool :=
  bool_decide (total_charged a ≤ reserved_total a).

(* @src src/runtime/src/fees/accounting.rs:193-196 FeeAccounting::check_invariant_conservation *)
Definition check_invariant_conservation (a : FeeAccounting) : bool :=
  bool_decide (reserved_total a = sat_add 64 (total_charged a) (refunded a)).
End FeeAccounting.

(** ** Lifecycles *)

Inductive command : Type :=
| CSequence (r : PoSeqFeeResult)
| CRuntime (gas_fee : Z)
| CSettle
| CFailIntake (cost : Z)
| CExpire (pen : Z)
| CRevert (work : Z).

Definition run_command (a : FeeAccounting) (c : command) : FeeAccounting :=
  match c with
  | CSequence r => (FeeAccounting.charge_sequencing a r).1
  | CRuntime g => (FeeAccounting.charge_runtime a g).1
  | CSettle => (FeeAccounting.settle_refund a).1
  | CFailIntake c => FeeAccounting.fail_intake a c
  | CExpire p => FeeAccounting.expire a p
  | CRevert w => FeeAccounting.revert_runtime a w
  end.

(** The numbers a command carries fit a [u64]. *)
Definition command_fits (c : command) : Prop :=
  match c with
  | CSequence r => fits 64 (total_fee r)
  | CRuntime z | CFailIntake z | CExpire z | CRevert z => fits 64 z
  | CSettle => True
  end.

(** When the module's documentation has the operations that check no state
    called: intake failure and expiry before sequencing, revert after it, the
    refund on a record that has not been closed by one of them. *)
Definition in_order (st : FeeAccountingState) (c : command) : Prop :=
  match c with
  | CFailIntake _ | CExpire _ => st = Reserved
  | CRevert _ => st = SequencingCharged
  | _ => True
  end.

Inductive lifecycle (e : FeeEnvelope) : FeeAccounting → Prop :=
| lifecycle_reserve : lifecycle e (FeeAccounting.reserve e)
| lifecycle_step a c :
    lifecycle e a → command_fits c → in_order (fa_state a) c → lifecycle e (run_command a c).

(** A closed record: the refund has been computed. *)
Definition closed (st : FeeAccountingState) : bool :=
  bool_decide (st ∈ [Settled; FailedIntake; Expired; RuntimeReverted]).

(** The invariant every command keeps, in order or not. *)
Record capped (e : FeeEnvelope) (a : FeeAccounting) : Prop := {
  capped_envelope : envelope a = e;
  capped_reserved : reserved_total a = FeeEnvelope.total_reserved e;
  capped_poseq : 0 ≤ charged_poseq a ≤ max_poseq_fee e;
  capped_runtime : 0 ≤ charged_runtime a ≤ max_runtime_fee e;
  capped_penalty : 0 ≤ penalty a ≤ FeeEnvelope.total_reserved e;
  capped_unsequenced : fa_state a = Reserved →
    charged_poseq a = 0 ∧ charged_runtime a = 0 ∧ penalty a = 0;
  capped_sequenced : fa_state a = SequencingCharged → charged_runtime a = 0 ∧ penalty a = 0 }.

(** What only lifecycles in order keep. *)
Record balanced (a : FeeAccounting) : Prop := {
  balanced_total : FeeAccounting.total_charged a ≤ reserved_total a;
  balanced_closed : closed (fa_state a) = true →
    reserved_total a = FeeAccounting.total_charged a + refunded a }.

(** ** Lemmas *)

Lemma reserve_capped e : envelope_wf e → capped e (FeeAccounting.reserve e).
Proof.
  intros He. pose proof (total_reserved_fits e He). destruct He as (? & ? & _).
  split; cbn; unfold fits in *; naive_solver lia.
Qed.

Lemma run_command_capped e a c :
  envelope_wf e → command_fits c → capped e a → capped e (run_command a c).
Proof.
  intros He Hc [He' Hr ????]. pose proof (total_reserved_fits e He). destruct He as (? & ? & _).
  destruct c; cbn in *; unfold FeeAccounting.charge_sequencing, FeeAccounting.charge_runtime;
    repeat case_decide; split; cbn; rewrite ?He', ?Hr in *; try done;
    unfold fits in *; naive_solver lia.
Qed.

Lemma total_charged_pair e a :
  envelope_wf e → capped e a → penalty a = 0 →
  FeeAccounting.total_charged a ≤ FeeEnvelope.total_reserved e.
Proof.
  intros (? & ? & _) [] Hp. unfold FeeAccounting.total_charged, FeeEnvelope.total_reserved.
  rewrite Hp. ints.
Qed.

Lemma settled_exact a :
  fits 64 (reserved_total a) → FeeAccounting.total_charged a ≤ reserved_total a →
  0 ≤ FeeAccounting.total_charged a →
  reserved_total a = FeeAccounting.total_charged a +
    sat_sub (reserved_total a) (FeeAccounting.total_charged a).
Proof. unfold sat_sub. lia. Qed.

Lemma run_command_balanced e a c :
  envelope_wf e → command_fits c → in_order (fa_state a) c → capped e a → balanced a →
  balanced (run_command a c).
Proof.
  intros He Hc Ho Hcap [Ht Hcl]. pose proof (total_reserved_fits e He).
  pose proof (total_charged_pair e a He Hcap) as Hpair.
  pose proof (run_command_capped e a c He Hc Hcap) as Hcap'.
  destruct Hcap as [Ee Er ?? [? ?] Hres Hseq].
  assert (0 ≤ FeeAccounting.total_charged a) as Hpos.
  { unfold FeeAccounting.total_charged. ints. }
  destruct c; cbn [run_command] in *.
  - unfold FeeAccounting.charge_sequencing in *. case_decide as Hs; [by split|].
    case_decide; [by split|]. destruct (Hres Hs) as (?&?&Hp).
    split; [|done]. cbn [fst reserved_total]. rewrite Er.
    by apply (total_charged_pair e _ He Hcap').
  - unfold FeeAccounting.charge_runtime in *. case_decide as Hs; [by split|].
    case_decide; [by split|]. destruct (Hseq Hs) as (?&Hp).
    split; [|done]. cbn [fst reserved_total]. rewrite Er.
    by apply (total_charged_pair e _ He Hcap').
  - split; [done|]. intros _. apply (settled_exact a); [by rewrite Er|done..].
  - destruct (Hres Ho) as (E1&E2&Hp). split; [|intros _];
      unfold FeeAccounting.total_charged, FeeAccounting.fail_intake; cbn;
      rewrite E1, E2, Er in *; ints.
  - destruct (Hres Ho) as (E1&E2&Hp). split; [|intros _];
      unfold FeeAccounting.total_charged, FeeAccounting.expire; cbn;
      rewrite E1, E2, Er in *; ints.
  - destruct (Hseq Ho) as (E1&Hp).
    assert (FeeAccounting.total_charged (FeeAccounting.revert_runtime a work) ≤
      FeeEnvelope.total_reserved e) as Hle by by apply (total_charged_pair e _ He Hcap').
    split; [by cbn; rewrite Er|intros _].
    unfold FeeAccounting.total_charged, FeeAccounting.revert_runtime in *; cbn in *.
    rewrite Hp, Er in *. ints.
Qed.

Lemma lifecycle_balanced e a : envelope_wf e → lifecycle e a → capped e a ∧ balanced a.
Proof.
  intros He. induction 1 as [|a c _ [Hcap Hbal] Hc Ho].
  - pose proof (total_reserved_fits e He) as Hf. split; [by apply reserve_capped|].
    split; [|done]. unfold FeeAccounting.total_charged. cbn. ints.
  - split; [by apply run_command_capped|by eapply run_command_balanced].
Qed.

(** ** Properties *)

(** In every lifecycle in order, whatever the fees and penalties asked for,
    what is charged never exceeds the reserve nor either of its two caps; a
    closed record has returned exactly the rest; and the sequencing charge
    succeeds just when nothing has been charged yet and the fee is within its
    cap, the runtime charge just when sequencing alone has been charged and the
    gas fee is within its own, a refused charge changing nothing. *)
Theorem fee_lifecycle_balances (e : FeeEnvelope) (a : FeeAccounting) :
  envelope_wf e → lifecycle e a →
  FeeAccounting.check_invariant_no_negative_refund a = true ∧
  charged_poseq a ≤ max_poseq_fee e ∧ charged_runtime a ≤ max_runtime_fee e ∧
  (closed (fa_state a) = true → FeeAccounting.check_invariant_conservation a = true) ∧
  (∀ r, let '(a', res) := FeeAccounting.charge_sequencing a r in
     if decide (fa_state a = Reserved ∧ total_fee r ≤ max_poseq_fee e)
     then res = charged (total_fee r) ∧ fa_state a' = SequencingCharged
     else charge_success res = false ∧ a' = a) ∧
  (∀ g, let '(a', res) := FeeAccounting.charge_runtime a g in
     if decide (fa_state a = SequencingCharged ∧ g ≤ max_runtime_fee e)
     then res = charged g ∧ fa_state a' = FullyCharged
     else charge_success res = false ∧ a' = a).
Proof.
  intros He Hl. destruct (lifecycle_balanced e a He Hl) as [Hcap [Ht Hcl]].
  pose proof (total_reserved_fits e He) as Hf. destruct Hcap as [Ee Er [? ?] [? ?] _ _ _].
  unfold FeeAccounting.check_invariant_no_negative_refund,
    FeeAccounting.check_invariant_conservation, FeeAccounting.charge_sequencing,
    FeeAccounting.charge_runtime.
  rewrite !bool_decide_eq_true, Ee. split_and!; [done..| | |].
  - intros Hc. specialize (Hcl Hc). rewrite Er in *. unfold sat_add at 1. ints.
  - intros r. repeat case_decide; naive_solver lia.
  - intros g. repeat case_decide; naive_solver lia.
Qed.

Lemma fee_lifecycle_balances_witness :
  let e := mkEnvelope 7 "omniphi" 1000 500 0 20 None in
  let a := fold_left run_command
    [CSequence (mkFeeResult 600 600 0 0 10000 false false); CRuntime 501; CRuntime 120; CSettle]
    (FeeAccounting.reserve e) in
  refunded a = 780 ∧ FeeAccounting.check_invariant_conservation a = true.
Proof.
  intros e a. split; [reflexivity|].
  apply (fee_lifecycle_balances e a); [by_eval| |reflexivity].
  repeat (apply lifecycle_step; [|by_eval|done]). constructor.
Defined.

(** The penalty operations check no state: an intent that expires after its
    sequencing charge can be charged more than it reserved, and the two
    invariants of the record then fail. *)
Theorem late_expiry_overcharges (e : FeeEnvelope) (r : PoSeqFeeResult) (pen : Z) :
  envelope_wf e → 0 < total_fee r ≤ max_poseq_fee e →
  FeeEnvelope.total_reserved e < u64_max → FeeEnvelope.total_reserved e ≤ pen →
  let a := FeeAccounting.expire (FeeAccounting.charge_sequencing (FeeAccounting.reserve e) r).1 pen in
  FeeAccounting.check_invariant_no_negative_refund a = false ∧
  FeeAccounting.check_invariant_conservation a = false.
Proof.
  intros He [Hr Hle] Hmax Hpen a. pose proof (total_reserved_fits e He) as Hf.
  subst a. unfold FeeAccounting.charge_sequencing. rewrite decide_False by (cbn; auto).
  rewrite decide_False by (cbn; lia).
  unfold FeeAccounting.check_invariant_no_negative_refund,
    FeeAccounting.check_invariant_conservation, FeeAccounting.total_charged. cbn.
  rewrite !bool_decide_eq_false. ints.
Qed.

Lemma late_expiry_overcharges_witness :
  let a := FeeAccounting.expire (FeeAccounting.charge_sequencing
    (FeeAccounting.reserve (mkEnvelope 7 "omniphi" 1000 500 0 20 None))
    (mkFeeResult 600 600 0 0 10000 false false)).1 1500 in
  FeeAccounting.check_invariant_no_negative_refund a = false.
Proof.
  apply (late_expiry_overcharges (mkEnvelope 7 "omniphi" 1000 500 0 20 None)
    (mkFeeResult 600 600 0 0 10000 false false) 1500); by_eval.
Defined.
