(* ===== verification/FeeExecutor.v ===== *)
(** * Moving fees between balances

    src/runtime/src/fees/executor.rs: the operations that lock, debit and credit
    balances as the accounting record (FeeAccounting) advances, written against
    the [BalanceLedger] interface; and the congestion tracker and the fee
    estimator of the same file. *)

From stdpp Require Import gmap strings list pretty.
From S2P Require Import Prelude Objects Concrete Store FeeEnvelope Fees.

(* @src src/runtime/src/fees/executor.rs:18-27 FeeDestinations *)
Record FeeDestinations : Type := mkDestinations {
  sequencer : id32;
  shared_security_pool : id32;
  treasury_account : id32 }.

(** The two writes to a found balance: [bal.locked_amount] and [bal.amount]. *)
Definition lock (total : Z) (b : BalanceObject) : BalanceObject :=
  set_locked b (sat_add 128 (locked_amount b) total).
Definition unlock (total : Z) (b : BalanceObject) : BalanceObject :=
  set_locked b (sat_sub (locked_amount b) total).
Definition spend_locked (total : Z) (b : BalanceObject) : BalanceObject :=
  let b := unlock total b in set_amount b (sat_sub (amount b) total).
Definition credit (amt : Z) (b : BalanceObject) : BalanceObject :=
  set_amount b (sat_add 128 (amount b) amt).

Lemma keeps_key_lock t : keeps_key (lock t).
Proof. by intros []. Qed.
Lemma keeps_key_unlock t : keeps_key (unlock t).
Proof. by intros []. Qed.
Lemma keeps_key_spend t : keeps_key (spend_locked t).
Proof. by intros []. Qed.
Lemma keeps_key_credit t : keeps_key (credit t).
Proof. by intros []. Qed.
#[export] Hint Resolve keeps_key_lock keeps_key_unlock keeps_key_spend keeps_key_credit : ledger.

(** [store.find_balance_mut(..).ok_or_else(..)?] and the write through it. *)
Definition update_found {S} `{BalanceLedger S} (f : BalanceObject → BalanceObject)
    (o a : id32) (missing : string) : M S string () := λ s,
  match ledger_get s o a with
  | None => (s, Err missing)
  | Some _ => (ledger_update f o a s, Ok tt)
  end.

(** [if let Some(bal) = store.find_balance_mut(..) { .. }] *)
Definition update_if_found {S} `{BalanceLedger S} (f : BalanceObject → BalanceObject)
    (o a : id32) (s : S) : S :=
  match ledger_get s o a with None => s | Some _ => ledger_update f o a s end.

Module FeeExecutor.
Section with_ledger.
Context {S : Type} `{BalanceLedger S}.

(* @src src/runtime/src/fees/executor.rs:48-80 FeeExecutor::reserve *)
Definition reserve (env : FeeEnvelope) (token : id32) : M S string FeeAccounting := λ store,
  let total := FeeEnvelope.total_reserved env in
  if decide (total = 0) then (store, Err "nothing to reserve") else
  match ledger_get store (payer env) token with
  | None => (store, Err "payer balance not found")
  | Some balance =>
      if decide (amount balance < total) then
        (store, Err ("insufficient balance: need " +:+ pretty total +:+ ", have " +:+
                     pretty (amount balance)))
      else
        (update_found (lock total) (payer env) token "payer balance not found (mut)" ≫= λ _,
         mret (FeeAccounting.reserve env)) store
  end.

(* @src src/runtime/src/fees/executor.rs:161-175 FeeExecutor::credit_if_exists *)
Definition credit_if_exists (addr token : id32) (amt : Z) (store : S) : S :=
  if decide (amt = 0) then store else update_if_found (credit amt) addr token store.

(* @src src/runtime/src/fees/executor.rs:82-116 FeeExecutor::charge_sequencing *)
Definition charge_sequencing (fee_result : PoSeqFeeResult) (params : FeeRoutingParams)
    (dest : FeeDestinations) (token : id32) : M (S * FeeAccounting) string RoutedFees :=
  λ '(store, acc),
  let '(acc, charge) := FeeAccounting.charge_sequencing acc fee_result in
  if charge_success charge then
    let routed := FeeRouting.route (total_fee fee_result) params in
    on_fst (
      update_found (spend_locked (total_fee fee_result)) (payer (envelope acc)) token
        "payer balance not found" ≫= λ _,
      modify (credit_if_exists (sequencer dest) token (sequencer_reward routed)) ≫= λ _,
      modify (credit_if_exists (shared_security_pool dest) token (shared_security routed)) ≫= λ _,
      modify (credit_if_exists (treasury_account dest) token (treasury routed)) ≫= λ _,
      mret routed) (store, acc)
  else ((store, acc), Err (default EmptyString (charge_error charge))).

(* @src src/runtime/src/fees/executor.rs:118-142 FeeExecutor::charge_runtime *)
Definition charge_runtime (actual_gas_fee : Z) (token : id32) : M (S * FeeAccounting) string () :=
  λ '(store, acc),
  let '(acc, charge) := FeeAccounting.charge_runtime acc actual_gas_fee in
  if charge_success charge then
    on_fst (update_found (spend_locked actual_gas_fee) (payer (envelope acc)) token
              "payer balance not found") (store, acc)
  else ((store, acc), Err (default EmptyString (charge_error charge))).

(* @src src/runtime/src/fees/executor.rs:144-160 FeeExecutor::settle_refund *)
Definition settle_refund (token : id32) : M (S * FeeAccounting) string Z := λ '(store, acc),
  let '(acc, refund) := FeeAccounting.settle_refund acc in
  let store := if decide (0 < refund)
    then update_if_found (unlock refund)
           (FeeEnvelope.effective_refund_address (envelope acc)) token store
    else store in
  ((store, acc), Ok refund).
End with_ledger.
End FeeExecutor.

(** ** The congestion tracker *)

(* @src src/runtime/src/fees/executor.rs:178-191 CongestionTracker *)
Record CongestionTracker : Type := mkTracker {
  ema_multiplier_bps : Z;
  alpha_bps : Z;
  ema_floor_bps : Z }.

Module CongestionTracker.
(* @src src/runtime/src/fees/executor.rs:194-200 CongestionTracker::new *)
Definition new : CongestionTracker := mkTracker 10000 3000 10000.

(* @src src/runtime/src/fees/executor.rs:202-219 CongestionTracker::update *)
Definition update (observed_multiplier_bps : Z) (t : CongestionTracker) : CongestionTracker :=
  let new_component := sat_mul 128 (alpha_bps t) observed_multiplier_bps / 10000 in
  let old_component := sat_mul 128 (wrapu 64 (10000 - alpha_bps t)) (ema_multiplier_bps t) / 10000 in
  let new_ema := wrapu 64 (wrapu 128 (new_component + old_component)) in
  mkTracker (Z.max new_ema (ema_floor_bps t)) (alpha_bps t) (ema_floor_bps t).

(* @src src/runtime/src/fees/executor.rs:221-224 CongestionTracker::current_multiplier_bps *)
Definition current_multiplier_bps (t : CongestionTracker) : Z := ema_multiplier_bps t.

(* @src src/runtime/src/fees/executor.rs:226-235 CongestionTracker::effective_multiplier *)
Definition effective_multiplier (p : PoSeqFeeParams) (c : CongestionState) (t : CongestionTracker) : Z :=
  Z.max (PoSeqFeeCalculator.compute_congestion_multiplier p c) (ema_multiplier_bps t).
End CongestionTracker.

(** ** The estimator *)

Module FeeEstimator.
(* @src src/runtime/src/fees/executor.rs:248-273 FeeEstimator::estimate_poseq_fee *)
Definition estimate_poseq_fee (p : PoSeqFeeParams) (intent_bytes : Z) (c : CongestionState)
    (tracker : option CongestionTracker) : PoSeqFeeResult :=
  let effective := match tracker with
    | Some t => mkCongestion
        (Z.max (pool_intent_count c)
           (wrapu 64 (wrapu 128 (target_intents_per_batch p * ema_multiplier_bps t) / 10000)))
        (pool_total_bytes c)
    | None => c
    end in
  PoSeqFeeCalculator.calculate p intent_bytes 0 effective.

(* @src src/runtime/src/fees/executor.rs:275-309 FeeEstimator::suggest_fee_envelope *)
Definition suggest_fee_envelope (p : PoSeqFeeParams) (intent_bytes estimated_runtime_gas : Z)
    (c : CongestionState) (tracker : option CongestionTracker) (payer : id32)
    (deadline_epoch : Z) : FeeEnvelope :=
  let estimated_poseq := estimate_poseq_fee p intent_bytes c tracker in
  let max_poseq := sat_mul 64 (total_fee estimated_poseq) 3 / 2 in
  let max_runtime := sat_mul 64 estimated_runtime_gas 6 / 5 in
  mkEnvelope payer "omniphi" max_poseq max_runtime 0 deadline_epoch None.
End FeeEstimator.

(** ** One intent from reserve to refund *)

Section lifecycle.
Context {S : Type} `{LedgerLaws S}.

(** The four operations in the order the runtime calls them. *)
Definition settle_intent (env : FeeEnvelope) (fee_result : PoSeqFeeResult) (gas_fee : Z)
    (params : FeeRoutingParams) (dest : FeeDestinations) (token : id32)
  : M S string (RoutedFees * Z * FeeAccounting) := λ store,
  let '(store, res) := FeeExecutor.reserve env token store in
  match res with
  | Ok acc =>
      let '((store, acc), res) :=
        (FeeExecutor.charge_sequencing fee_result params dest token ≫= λ routed,
         FeeExecutor.charge_runtime gas_fee token ≫= λ _,
         FeeExecutor.settle_refund token ≫= λ refund,
         mret (routed, refund)) (store, acc) in
      (store, res ≫= λ rr, Ok (rr, acc))
  | Err e => (store, Err e)
  | Panic => (store, Panic)
  end.

Definition held (s : S) (o a : id32) : option Z := amount <$> ledger_get s o a.

(** *** Lemmas *)

Lemma get_update_if_found f s o a o' a' :
  keeps_key f → ledger_get (update_if_found f o a s) o' a' =
    if decide ((o', a') = (o, a)) then f <$> ledger_get s o' a' else ledger_get s o' a'.
Proof.
  intros Hf. unfold update_if_found. case_decide as E.
  - injection E as -> ->. destruct (ledger_get s o a) eqn:Eg; [|by rewrite Eg].
    by rewrite ledger_get_update, Eg by done.
  - destruct (ledger_get s o a); [|done]. by rewrite ledger_get_update_ne by auto using not_eq_sym.
Qed.

Lemma update_found_some f s o a msg b :
  ledger_get s o a = Some b → update_found f o a msg s = (update_if_found f o a s, Ok tt).
Proof. unfold update_found, update_if_found. by intros ->. Qed.

Lemma get_credit_ne d t amt s o a :
  (o, a) ≠ (d, t) →
  ledger_get (FeeExecutor.credit_if_exists d t amt s) o a = ledger_get s o a.
Proof.
  intros Hne. unfold FeeExecutor.credit_if_exists. case_decide; [done|].
  rewrite get_update_if_found by auto with ledger. by rewrite decide_False.
Qed.

Lemma held_credit_ne d t amt s o :
  o ≠ d → held (FeeExecutor.credit_if_exists d t amt s) o t = held s o t.
Proof. intros. unfold held. by rewrite get_credit_ne by congruence. Qed.

Lemma held_credit d t amt s b :
  held s d t = Some b → fits 128 b → 0 ≤ amt →
  held (FeeExecutor.credit_if_exists d t amt s) d t = Some (sat_add 128 b amt).
Proof.
  unfold held. intros E Hb Ha. unfold FeeExecutor.credit_if_exists. case_decide as E0.
  - rewrite E, E0. f_equal; ints.
  - rewrite get_update_if_found, decide_True by auto with ledger.
    destruct (ledger_get s d t); [|done]. injection E as <-. done.
Qed.

Definition routed_to (dest : FeeDestinations) (token : id32) (routed : RoutedFees) (s : S) : S :=
  FeeExecutor.credit_if_exists (treasury_account dest) token (treasury routed)
    (FeeExecutor.credit_if_exists (shared_security_pool dest) token (shared_security routed)
      (FeeExecutor.credit_if_exists (sequencer dest) token (sequencer_reward routed) s)).

Definition destinations (dest : FeeDestinations) : list id32 :=
  [sequencer dest; shared_security_pool dest; treasury_account dest].

Lemma get_routed_ne dest token routed s o a :
  (a = token → o ∉ destinations dest) →
  ledger_get (routed_to dest token routed s) o a = ledger_get s o a.
Proof.
  intros Hne. unfold routed_to, destinations in *.
  rewrite !get_credit_ne; [done|..]; intros [= -> ->]; set_solver.
Qed.

(** The store the four operations leave. *)
Definition settled_ledger (env : FeeEnvelope) (fee gas refund : Z) (routed : RoutedFees)
    (dest : FeeDestinations) (token : id32) (s : S) : S :=
  let s := update_if_found (lock (FeeEnvelope.total_reserved env)) (payer env) token s in
  let s := update_if_found (spend_locked fee) (payer env) token s in
  let s := routed_to dest token routed s in
  let s := update_if_found (spend_locked gas) (payer env) token s in
  if decide (0 < refund)
  then update_if_found (unlock refund) (FeeEnvelope.effective_refund_address env) token s else s.

Lemma reserve_ok env token s b :
  ledger_get s (payer env) token = Some b →
  0 < FeeEnvelope.total_reserved env ≤ amount b →
  FeeExecutor.reserve env token s =
  (update_if_found (lock (FeeEnvelope.total_reserved env)) (payer env) token s,
   Ok (FeeAccounting.reserve env)).
Proof.
  intros Eb Ht. unfold FeeExecutor.reserve. rewrite decide_False by lia.
  rewrite Eb, decide_False by lia. by erewrite Mbind_run by (by eapply update_found_some).
Qed.

Lemma charge_sequencing_ok acc r params dest token s b :
  ledger_get s (payer (envelope acc)) token = Some b →
  fa_state acc = Reserved → total_fee r ≤ max_poseq_fee (envelope acc) →
  let routed := FeeRouting.route (total_fee r) params in
  FeeExecutor.charge_sequencing r params dest token (s, acc) =
  ((routed_to dest token routed
      (update_if_found (spend_locked (total_fee r)) (payer (envelope acc)) token s),
    (FeeAccounting.charge_sequencing acc r).1), Ok routed).
Proof.
  intros Eb Est Hr routed. unfold FeeExecutor.charge_sequencing, FeeAccounting.charge_sequencing.
  rewrite decide_False by auto. rewrite decide_False by lia. cbn [charged charge_success envelope].
  unfold on_fst. cbn [fst snd]. by erewrite Mbind_run by (by eapply update_found_some).
Qed.

Lemma charge_runtime_ok acc g token s b :
  ledger_get s (payer (envelope acc)) token = Some b →
  fa_state acc = SequencingCharged → g ≤ max_runtime_fee (envelope acc) →
  FeeExecutor.charge_runtime g token (s, acc) =
  ((update_if_found (spend_locked g) (payer (envelope acc)) token s,
    (FeeAccounting.charge_runtime acc g).1), Ok tt).
Proof.
  intros Eb Est Hr. unfold FeeExecutor.charge_runtime, FeeAccounting.charge_runtime.
  rewrite decide_False by auto. rewrite decide_False by lia. cbn [charged charge_success envelope].
  unfold on_fst. cbn [fst snd]. by erewrite update_found_some.
Qed.

Lemma settle_intent_ok env r g params dest token s b :
  let fee := total_fee r in
  let refund := FeeEnvelope.total_reserved env - fee - g in
  ledger_get s (payer env) token = Some b → payer env ∉ destinations dest →
  0 < FeeEnvelope.total_reserved env ≤ amount b →
  FeeEnvelope.total_reserved env = max_poseq_fee env + max_runtime_fee env →
  FeeEnvelope.total_reserved env ≤ u64_max →
  0 ≤ fee ≤ max_poseq_fee env → 0 ≤ g ≤ max_runtime_fee env →
  settle_intent env r g params dest token s =
  (settled_ledger env fee g refund (FeeRouting.route fee params) dest token s,
   Ok (FeeRouting.route fee params, refund,
       mkAccounting env Settled (FeeEnvelope.total_reserved env) fee g refund 0)).
Proof.
  intros fee refund Eb Hd Ht Hsum Hmax Hf Hg. unfold settle_intent.
  rewrite (reserve_ok env token s b Eb Ht).
  set (T := FeeEnvelope.total_reserved env) in *.
  set (s1 := update_if_found (lock T) (payer env) token s).
  assert (ledger_get s1 (payer env) token = Some (lock T b)) as E1.
  { subst s1. rewrite get_update_if_found, decide_True, Eb by auto with ledger. done. }
  set (routed := FeeRouting.route fee params).
  set (s2 := routed_to dest token routed
    (update_if_found (spend_locked fee) (payer env) token s1)).
  assert (ledger_get s2 (payer env) token = Some (spend_locked fee (lock T b))) as E2.
  { subst s2. rewrite get_routed_ne by done.
    rewrite get_update_if_found, decide_True, E1 by auto with ledger. done. }
  rewrite (Mbind_run _ _ (s1, FeeAccounting.reserve env) _ _
    (charge_sequencing_ok (FeeAccounting.reserve env) r params dest token s1 _ E1 eq_refl (proj2 Hf))).
  cbn [FeeAccounting.reserve envelope]. fold fee routed s2.
  assert ((FeeAccounting.charge_sequencing (FeeAccounting.reserve env) r).1 =
    mkAccounting env SequencingCharged T fee 0 0 0) as Ea.
  { unfold FeeAccounting.charge_sequencing. by rewrite !decide_False by (cbn; auto; fold fee; lia). }
  rewrite Ea, (Mbind_run _ _ (s2, mkAccounting env SequencingCharged T fee 0 0 0) _ _
    (charge_runtime_ok (mkAccounting env SequencingCharged T fee 0 0 0)
       g token s2 _ E2 eq_refl (proj2 Hg))).
  cbn [envelope]. unfold FeeAccounting.charge_runtime. rewrite !decide_False by (cbn; auto; lia).
  unfold FeeExecutor.settle_refund, FeeAccounting.settle_refund, mbind, M_bind, outcome_bind.
  cbn [fst snd charged_poseq charged_runtime penalty reserved_total envelope].
  assert (sat_sub T (sat_add 64 (sat_add 64 fee g) 0) = refund) as -> by (subst refund; ints).
  unfold settled_ledger. fold T s1 s2. by case_decide.
Qed.

Lemma held_update_ne f o a s o' a' :
  keeps_key f → (∀ b, amount (f b) = amount b) ∨ (o', a') ≠ (o, a) →
  held (update_if_found f o a s) o' a' = held s o' a'.
Proof.
  intros Hf Hor. unfold held. rewrite get_update_if_found by done. case_decide as E; [|done].
  destruct Hor as [Ha|]; [|done]. destruct (ledger_get s o' a'); [|done]. cbn. by rewrite Ha.
Qed.

Lemma route_nonneg amt p :
  let r := FeeRouting.route amt p in
  0 ≤ sequencer_reward r ∧ 0 ≤ shared_security r ∧ 0 ≤ treasury r.
Proof.
  unfold FeeRouting.route. case_decide; [done|]. cbn. unfold FeeRouting.share.
  split_and!; apply Z.mod_pos_bound; done.
Qed.

(** Each destination with its share. *)
Definition shares (dest : FeeDestinations) (routed : RoutedFees) : list (id32 * Z) :=
  [(sequencer dest, sequencer_reward routed);
   (shared_security_pool dest, shared_security routed);
   (treasury_account dest, treasury routed)].

Lemma held_routed dest token routed s d amt b :
  NoDup (destinations dest) → (d, amt) ∈ shares dest routed →
  0 ≤ sequencer_reward routed ∧ 0 ≤ shared_security routed ∧ 0 ≤ treasury routed →
  held s d token = Some b → fits 128 b →
  held (routed_to dest token routed s) d token = Some (sat_add 128 b amt).
Proof.
  intros Hnd Hin (H1 & H2 & H3) Hb Hf. unfold routed_to, destinations, shares in *.
  rewrite !NoDup_cons in Hnd. destruct Hnd as (N1 & N2 & _).
  rewrite !elem_of_cons in Hin. destruct Hin as [[=-> ->]|[[=-> ->]|[[=-> ->]|Hin]]].
  - rewrite !held_credit_ne by set_solver. by apply held_credit.
  - rewrite held_credit_ne by set_solver. apply held_credit; [|done..].
    by rewrite held_credit_ne by set_solver.
  - apply held_credit; [|done..]. by rewrite !held_credit_ne by set_solver.
  - set_solver.
Qed.

Lemma settled_payer env fee g refund routed dest token s b :
  ledger_get s (payer env) token = Some b → payer env ∉ destinations dest →
  FeeEnvelope.total_reserved env = fee + g + refund → 0 ≤ fee → 0 ≤ g → 0 ≤ refund →
  fee + g ≤ amount b → 0 ≤ locked_amount b →
  locked_amount b + FeeEnvelope.total_reserved env ≤ u128_max →
  ledger_get (settled_ledger env fee g refund routed dest token s) (payer env) token =
  Some (set_locked (set_amount b (amount b - fee - g))
    (locked_amount b +
     if decide (FeeEnvelope.effective_refund_address env = payer env) then 0 else refund)).
Proof.
  intros Eb Hd ET Hf Hg Hr Ha Hl Hmax. unfold settled_ledger.
  set (s4 := update_if_found (spend_locked g) _ _ _).
  assert (ledger_get s4 (payer env) token =
    Some (spend_locked g (spend_locked fee (lock (FeeEnvelope.total_reserved env) b)))) as E4.
  { subst s4. rewrite get_update_if_found, decide_True by auto with ledger.
    rewrite get_routed_ne by done.
    rewrite get_update_if_found, decide_True by auto with ledger.
    by rewrite get_update_if_found, decide_True, Eb by auto with ledger. }
  case_decide as Hpos.
  - rewrite get_update_if_found by auto with ledger. rewrite E4.
    destruct (decide (FeeEnvelope.effective_refund_address env = payer env)) as [->|Hne].
    + rewrite decide_True by done. destruct b. cbn in *.
      unfold spend_locked, lock, unlock, set_locked, set_amount. cbn. do 2 f_equal; ints.
    + rewrite decide_False by congruence. destruct b. cbn in *.
      unfold spend_locked, lock, unlock, set_locked, set_amount. cbn. do 2 f_equal; ints.
  - rewrite E4. assert (refund = 0) as -> by lia. destruct b. cbn in *.
    unfold spend_locked, lock, unlock, set_locked, set_amount. cbn.
    case_decide; do 2 f_equal; ints.
Qed.

Lemma settled_other env fee g refund routed dest token s o a :
  (a = token → o ∉ payer env :: FeeEnvelope.effective_refund_address env :: destinations dest) →
  ledger_get (settled_ledger env fee g refund routed dest token s) o a = ledger_get s o a.
Proof.
  intros Hne. unfold settled_ledger.
  assert (∀ x, x ∈ [payer env; FeeEnvelope.effective_refund_address env] →
    (o, a) ≠ (x, token)) as Hx by (intros x ? [= -> ->]; set_solver).
  assert (∀ x f s, x ∈ [payer env; FeeEnvelope.effective_refund_address env] → keeps_key f →
    ledger_get (update_if_found f x token s) o a = ledger_get s o a) as Hu.
  { intros x f s' Hin Hf. rewrite get_update_if_found, decide_False by auto. done. }
  case_decide; rewrite !Hu, get_routed_ne, ?Hu by (auto with ledger; set_solver); done.
Qed.

Lemma settled_destination env fee g refund routed dest token s d amt b :
  NoDup (destinations dest) → payer env ∉ destinations dest → (d, amt) ∈ shares dest routed →
  0 ≤ sequencer_reward routed ∧ 0 ≤ shared_security routed ∧ 0 ≤ treasury routed →
  held s d token = Some b → fits 128 b →
  held (settled_ledger env fee g refund routed dest token s) d token = Some (sat_add 128 b amt).
Proof.
  intros Hnd Hp Hin Hr Hb Hf. unfold settled_ledger.
  assert (d ∈ destinations dest) as Hd by (unfold shares, destinations in *; set_solver).
  assert ((d, token) ≠ (payer env, token)) as Hne by (intros [= ->]; done).
  assert (∀ f s, keeps_key f → held (update_if_found f (payer env) token s) d token =
    held s d token) as Hu by (intros; apply held_update_ne; auto).
  assert (∀ s', held (if decide (0 < refund)
    then update_if_found (unlock refund) (FeeEnvelope.effective_refund_address env) token s'
    else s') d token = held s' d token) as Hl.
  { intros s'. case_decide; [|done]. apply held_update_ne; auto with ledger. }
  rewrite Hl, Hu by auto with ledger. apply held_routed; [done..| |done].
  by rewrite !Hu by auto with ledger.
Qed.

(** ** Properties *)

(** C20: Settling one intent takes from the payer exactly the two fees charged:
    from any balance that covers the reserve, with fees within their caps and
    destinations apart from the payer, the four operations succeed; the fees and
    the refund add up to the reserve; each destination gets its routed share; no
    other balance changes.  The payer's lock returns to what it was exactly when
    the refund address is the payer: a refund sent elsewhere unlocks the other
    account, and the payer's reserve stays locked. *)
Theorem fee_settlement_exact (env : FeeEnvelope) (r : PoSeqFeeResult) (g : Z)
    (params : FeeRoutingParams) (dest : FeeDestinations) (token : id32) (s : S) (b : BalanceObject) :
  0 < max_poseq_fee env + max_runtime_fee env ≤ u64_max →
  ledger_get s (payer env) token = Some b → 0 ≤ locked_amount b →
  max_poseq_fee env + max_runtime_fee env ≤ amount b →
  locked_amount b + (max_poseq_fee env + max_runtime_fee env) ≤ u128_max →
  NoDup (payer env :: destinations dest) →
  0 ≤ total_fee r ≤ max_poseq_fee env → 0 ≤ g ≤ max_runtime_fee env →
  let refund_to := FeeEnvelope.effective_refund_address env in
  ∃ s' routed refund acc,
    settle_intent env r g params dest token s = (s', Ok (routed, refund, acc)) ∧
    routed = FeeRouting.route (total_fee r) params ∧ fa_state acc = Settled ∧
    total_fee r + g + refund = max_poseq_fee env + max_runtime_fee env ∧
    ledger_get s' (payer env) token =
      Some (set_locked (set_amount b (amount b - total_fee r - g))
        (locked_amount b + if decide (refund_to = payer env) then 0 else refund)) ∧
    (∀ d share b0, (d, share) ∈ shares dest routed → held s d token = Some b0 → fits 128 b0 →
       held s' d token = Some (sat_add 128 b0 share)) ∧
    (∀ o a, (a = token → o ∉ payer env :: refund_to :: destinations dest) →
       ledger_get s' o a = ledger_get s o a).
Proof.
  intros HT Eb Hl Ha Hmax [Hd Hnd]%NoDup_cons Hf Hg refund_to.
  assert (FeeEnvelope.total_reserved env = max_poseq_fee env + max_runtime_fee env) as ET
    by (unfold FeeEnvelope.total_reserved; ints).
  do 4 eexists. split; [apply (settle_intent_ok _ _ _ _ _ _ _ b); rewrite ?ET; auto; lia|].
  split; [done|]. split; [done|]. split; [lia|]. split; [|split].
  - apply settled_payer; rewrite ?ET; auto; lia.
  - intros d share b0 Hin Hb0 Hf0. apply settled_destination; auto using route_nonneg.
  - intros o a Hne. by apply settled_other.
Qed.

(** A reserve checks the balance, not what of it is still unlocked: as long
    as the balance covers one reserve, any number of intents can reserve against
    it one after the other, and the locked amount grows past the balance. *)
Theorem reserves_overcommit (env : FeeEnvelope) (token : id32) (n : nat) (s : S) (b : BalanceObject) :
  let total := FeeEnvelope.total_reserved env in
  ledger_get s (payer env) token = Some b → 0 < total ≤ amount b →
  0 ≤ locked_amount b → locked_amount b + Z.of_nat n * total ≤ u128_max →
  ∃ s', mfor (λ e, FeeExecutor.reserve e token ≫= λ _, mret tt) (replicate n env) s = (s', Ok tt) ∧
    ledger_get s' (payer env) token =
      Some (set_locked b (locked_amount b + Z.of_nat n * total)).
Proof.
  intros total. revert s b. induction n as [|n IH]; intros s b Eb Ht Hl Hmax.
  { exists s. split; [done|]. rewrite Eb. destruct b. cbn. by rewrite Z.mul_0_l, Z.add_0_r. }
  cbn [replicate mfor]. set (s1 := update_if_found (lock total) (payer env) token s).
  assert (ledger_get s1 (payer env) token = Some (lock total b)) as E1.
  { subst s1. by rewrite get_update_if_found, decide_True, Eb by auto with ledger. }
  assert (locked_amount (lock total b) = locked_amount b + total) as El.
  { destruct b. cbn in *. ints. }
  destruct (IH s1 (lock total b) E1) as (s' & E & E'); [by destruct b|rewrite El; lia..|].
  exists s'. split.
  - rewrite (Mbind_run _ _ s s1 tt); [exact E|].
    by rewrite (Mbind_run _ _ _ _ _ (reserve_ok env token s b Eb Ht)).
  - rewrite E', El. destruct b. cbn. do 2 f_equal. lia.
Qed.
End lifecycle.

(** A store of three balances, the third the sequencer's. *)
Definition fee_store : ObjectStore :=
  mkStore ∅ (list_to_map [(10, bal_alice5); (11, bal_bob5); (13, BalanceObject.new 13 3 5 0 0)]) ∅ ∅.
Definition fee_env : FeeEnvelope := mkEnvelope alice "omniphi" 600 300 0 20 None.

Lemma fee_settlement_exact_witness :
  ∃ s' x, settle_intent fee_env (mkFeeResult 500 500 0 0 10000 false false) 200
      (FeeRoutingParams.from_poseq_params PoSeqFeeParams.default_params)
      (mkDestinations 3 4 5) 5 fee_store = (s', Ok x) ∧
    x.1.2 = 200 ∧ held s' alice 5 = Some 300 ∧ held s' 3 5 = Some 250 ∧ held s' bob 5 = Some 50.
Proof.
  destruct (fee_settlement_exact fee_env (mkFeeResult 500 500 0 0 10000 false false) 200
      (FeeRoutingParams.from_poseq_params PoSeqFeeParams.default_params)
      (mkDestinations 3 4 5) 5 fee_store bal_alice5)
    as (s' & routed & refund & acc & E & Er & _ & Hsum & Hp & Hd & Ho);
    [by_eval|reflexivity|by_eval|by_eval|by_eval| |by_eval|by_eval|].
  - by_decide.
  - exists s', (routed, refund, acc). split; [exact E|]. subst routed.
    split; [cbn in *; lia|]. unfold held in *. split; [|split].
    + change alice with (payer fee_env). rewrite Hp. reflexivity.
    + apply (Hd 3 250 0); [by_decide|reflexivity|by_eval].
    + rewrite Ho; [reflexivity|]. intros _. by_decide.
Defined.

Lemma reserves_overcommit_witness :
  ∃ s' b, mfor (λ e, FeeExecutor.reserve e 5 ≫= λ _, mret tt) (replicate 2 fee_env) fee_store =
      (s', Ok tt) ∧ ledger_get s' alice 5 = Some b ∧ locked_amount b = 1800 ∧ amount b = 1000.
Proof.
  destruct (reserves_overcommit fee_env 5 2 fee_store bal_alice5) as (s' & E & Eb);
    [reflexivity|by_eval..|].
  exists s', (set_locked bal_alice5 1800). split; [exact E|]. split; [exact Eb|]. by split.
Defined.
