(* ===== verification/FeeSettlement.v ===== *)
(** * Settlement with fees

    [execute_groups_with_fees] of src/runtime/src/settlement/engine.rs: it runs
    the groups (Settlement), then charges the runtime fee of each receipt to the
    accounting record (FeeAccounting) at the same index and moves the balances
    through the ledger interface (FeeExecutor). *)

From stdpp Require Import gmap strings list pretty.
From S2P Require Import Prelude Errors Gas Objects Concrete Store FeeEnvelope.
From S2P Require Import Planner Scheduler Artifacts Settlement Cells SettlementFacts Groups.
From S2P Require Import Fees FeeExecutor.

(** ** One receipt *)

Section receipts.
Context {S : Type} `{BalanceLedger S}.

(* @src src/runtime/src/settlement/engine.rs:173-204 SettlementEngine::execute_groups_with_fees *)
Definition charge_receipt (token : id32) (receipt : ExecutionReceipt) (store : S)
    (accounting : FeeAccounting) : S * FeeAccounting :=
  if success receipt then
    let gas_fee := gas_used receipt in
    let '(accounting, charge) := FeeAccounting.charge_runtime accounting gas_fee in
    (if charge_success charge
     then update_if_found (spend_locked gas_fee) (payer (envelope accounting)) token store
     else store, accounting)
  else
    let partial_charge := Z.min (gas_used receipt) (max_runtime_fee (envelope accounting) / 2) in
    let accounting := FeeAccounting.revert_runtime accounting partial_charge in
    (if decide (0 < partial_charge)
     then update_if_found (spend_locked partial_charge) (payer (envelope accounting)) token store
     else store, accounting).

(* @src src/runtime/src/settlement/engine.rs:206-214 SettlementEngine::execute_groups_with_fees *)
Definition refund_receipt (token : id32) (store : S) (accounting : FeeAccounting)
  : S * FeeAccounting :=
  let '(accounting, refund) := FeeAccounting.settle_refund accounting in
  (if decide (0 < refund)
   then update_if_found (unlock refund)
          (FeeEnvelope.effective_refund_address (envelope accounting)) token store
   else store, accounting).

(** The loop stops at the end of the shorter list: [if i >= len { break; }]. *)
(* @src src/runtime/src/settlement/engine.rs:170-215 SettlementEngine::execute_groups_with_fees *)
Fixpoint settle_receipts (token : id32) (rs : list ExecutionReceipt) (accs : list FeeAccounting)
    (store : S) : S * list FeeAccounting :=
  match rs, accs with
  | receipt :: rs, accounting :: accs =>
      let '(store, accounting) := charge_receipt token receipt store accounting in
      let '(store, accounting) := refund_receipt token store accounting in
      let '(store, accs) := settle_receipts token rs accs store in
      (store, accounting :: accs)
  | _, _ => (store, accs)
  end.
End receipts.

Module EngineWithFees.
Section engine.
Context `{Sha256, Hex, Bincode}.

(* @src src/runtime/src/settlement/engine.rs:150-218 SettlementEngine::execute_groups_with_fees *)
Definition execute_groups_with_fees (groups : list ExecutionGroup) (now : Z) (token : id32)
  : M (ObjectStore * list FeeAccounting) Empty_set SettlementResult := λ '(store, accs),
  match SettlementEngine.execute_groups groups now store with
  | (store, Ok result) => (settle_receipts token (receipts result) accs store, Ok result)
  | (store, Err e) => ((store, accs), Err e)
  | (store, Panic) => ((store, accs), Panic)
  end.
End engine.
End EngineWithFees.

(** ** What a receipt is charged *)

(** A successful plan pays its gas if its runtime reserve covers it, and nothing
    at all otherwise; a failed one pays its gas up to half of the reserve. *)
Definition runtime_charge (e : FeeEnvelope) (receipt : ExecutionReceipt) : Z :=
  if success receipt then
    if decide (gas_used receipt ≤ max_runtime_fee e) then gas_used receipt else 0
  else Z.min (gas_used receipt) (max_runtime_fee e / 2).

(** The record after sequencing, and the balance that backs it. *)
Record ready (a : FeeAccounting) (b : BalanceObject) : Prop := {
  ready_state : fa_state a = SequencingCharged;
  ready_runtime : charged_runtime a = 0;
  ready_penalty : penalty a = 0;
  ready_refund : FeeEnvelope.effective_refund_address (envelope a) = payer (envelope a);
  ready_poseq : 0 ≤ charged_poseq a ≤ max_poseq_fee (envelope a);
  ready_runtime_fee : 0 ≤ max_runtime_fee (envelope a);
  ready_total : reserved_total a = max_poseq_fee (envelope a) + max_runtime_fee (envelope a);
  ready_fits : reserved_total a ≤ u64_max;
  ready_locked : reserved_total a - charged_poseq a ≤ locked_amount b;
  ready_amount : max_runtime_fee (envelope a) ≤ amount b }.

Definition settled_accounting (a : FeeAccounting) (receipt : ExecutionReceipt) : FeeAccounting :=
  let c := runtime_charge (envelope a) receipt in
  mkAccounting (envelope a) Settled (reserved_total a) (charged_poseq a) c
    (reserved_total a - charged_poseq a - c) 0.

Definition settled_balance (a : FeeAccounting) (receipt : ExecutionReceipt) (b : BalanceObject)
  : BalanceObject :=
  set_locked (set_amount b (amount b - runtime_charge (envelope a) receipt))
    (locked_amount b - (reserved_total a - charged_poseq a)).

Section facts.
Context {S : Type} `{LedgerLaws S}.

(** One iteration of the loop. *)
Definition settle_receipt (token : id32) (receipt : ExecutionReceipt) (store : S)
    (a : FeeAccounting) : S * FeeAccounting :=
  let '(store, a) := charge_receipt token receipt store a in refund_receipt token store a.

Lemma settle_receipts_cons token r rs a accs s :
  settle_receipts token (r :: rs) (a :: accs) s =
  let x := settle_receipt token r s a in
  let y := settle_receipts token rs accs x.1 in (y.1, x.2 :: y.2).
Proof.
  cbn [settle_receipts]. unfold settle_receipt. destruct (charge_receipt token r s a) as [s1 a1].
  destruct (refund_receipt token s1 a1) as [s2 a2].
  cbn [fst snd]. by destruct (settle_receipts token rs accs s2).
Qed.

Lemma runtime_charge_bounds e r :
  0 ≤ max_runtime_fee e → 0 ≤ gas_used r → 0 ≤ runtime_charge e r ≤ max_runtime_fee e.
Proof.
  intros Hm Hg. unfold runtime_charge.
  pose proof (Z.div_pos (max_runtime_fee e) 2 Hm ltac:(lia)).
  pose proof (Z.mul_div_le (max_runtime_fee e) 2 ltac:(lia)).
  destruct (success r); [case_decide|]; lia.
Qed.

(** [s'] is [s] with [b] as the balance of [o] and [a]. *)
Definition sets_balance (o a : id32) (b : BalanceObject) (s s' : S) : Prop :=
  ∀ o' a', ledger_get s' o' a' =
    if decide ((o', a') = (o, a)) then Some b else ledger_get s o' a'.

Lemma sets_same o a b s : ledger_get s o a = Some b → sets_balance o a b s s.
Proof. intros E o' a'. case_decide as Eq; [|done]. by injection Eq as -> ->. Qed.

Lemma sets_update f o a b s :
  keeps_key f → ledger_get s o a = Some b → sets_balance o a (f b) s (update_if_found f o a s).
Proof.
  intros Hf E o' a'. rewrite get_update_if_found by done. case_decide as Eq; [|done].
  injection Eq as -> ->. by rewrite E.
Qed.

Lemma sets_get o a b s s' : sets_balance o a b s s' → ledger_get s' o a = Some b.
Proof. intros Hs. rewrite Hs. by rewrite decide_True. Qed.

Lemma sets_trans o a b b' s s' s'' :
  sets_balance o a b s s' → sets_balance o a b' s' s'' → sets_balance o a b' s s''.
Proof. intros H1 H2 o' a'. rewrite H2. case_decide as E; [done|]. by rewrite H1, decide_False. Qed.

Lemma spend_none b : 0 ≤ locked_amount b → 0 ≤ amount b → spend_locked 0 b = b.
Proof. destruct b. cbn. intros. unfold spend_locked, unlock, set_locked, set_amount. cbn. f_equal; ints. Qed.

Lemma unlock_none b : 0 ≤ locked_amount b → unlock 0 b = b.
Proof. destruct b. cbn. intros. unfold unlock, set_locked. cbn. f_equal; ints. Qed.

Lemma charge_receipt_spec token r s a b :
  ledger_get s (payer (envelope a)) token = Some b → ready a b → 0 ≤ gas_used r →
  let c := runtime_charge (envelope a) r in
  sets_balance (payer (envelope a)) token (spend_locked c b) s (charge_receipt token r s a).1 ∧
  ∃ st rf, (charge_receipt token r s a).2 =
    mkAccounting (envelope a) st (reserved_total a) (charged_poseq a) c rf 0.
Proof.
  intros Eb [Est Er0 Ep0 _ ? Hmr ? ? Hl Ha] Hg c.
  pose proof (runtime_charge_bounds (envelope a) r Hmr Hg) as Hc. fold c in Hc.
  pose proof (Z.mul_div_le (max_runtime_fee (envelope a)) 2 ltac:(lia)).
  assert (spend_locked 0 b = b) as Hn by (apply spend_none; lia).
  unfold charge_receipt, FeeAccounting.charge_runtime. subst c. unfold runtime_charge in *.
  destruct (success r).
  - rewrite (decide_False (P := fa_state a ≠ SequencingCharged)) by auto. destruct (decide (max_runtime_fee _ < _)).
    + rewrite decide_False by lia. cbn [charge_failed charge_success fst snd]. rewrite Hn.
      split; [by apply sets_same|]. destruct a. cbn in *. subst. by eexists _, _.
    + rewrite decide_True by lia. cbn [charged charge_success fst snd envelope].
      split; [apply sets_update; auto with ledger|]. rewrite Ep0. by eexists _, _.
  - unfold FeeAccounting.revert_runtime. cbn [fst snd envelope]. split.
    + case_decide; [apply sets_update; auto with ledger|].
      assert (Z.min (gas_used r) (max_runtime_fee (envelope a) / 2) = 0) as -> by lia.
      rewrite Hn. by apply sets_same.
    + rewrite Ep0, Z.min_l by lia. by eexists _, _.
Qed.

Lemma settle_receipt_spec token r s a b :
  ledger_get s (payer (envelope a)) token = Some b → ready a b → 0 ≤ gas_used r →
  sets_balance (payer (envelope a)) token (settled_balance a r b) s
    (settle_receipt token r s a).1 ∧
  (settle_receipt token r s a).2 = settled_accounting a r.
Proof.
  intros Eb Hr Hg. destruct (charge_receipt_spec token r s a b Eb Hr Hg) as (H1 & st & rf & E).
  destruct Hr as [_ _ _ Hre ? Hmr Ht ? Hl Ha].
  pose proof (runtime_charge_bounds (envelope a) r Hmr Hg) as Hc.
  unfold settle_receipt. destruct (charge_receipt token r s a) as [s1 a1]. cbn [fst snd] in *.
  subst a1. unfold refund_receipt, FeeAccounting.settle_refund.
  cbn [reserved_total charged_poseq charged_runtime penalty envelope].
  unfold settled_accounting, settled_balance. set (c := runtime_charge _ _) in *.
  assert (sat_sub (reserved_total a) (sat_add 64 (sat_add 64 (charged_poseq a) c) 0) =
    reserved_total a - charged_poseq a - c) as -> by ints.
  split; [|done]. cbn [fst]. rewrite Hre. eapply sets_trans; [done|].
  assert (unlock (reserved_total a - charged_poseq a - c) (spend_locked c b) =
    set_locked (set_amount b (amount b - c)) (locked_amount b - (reserved_total a - charged_poseq a)))
    as Eu.
  { destruct b. cbn in *. unfold spend_locked, unlock, set_locked, set_amount. cbn. f_equal; ints. }
  rewrite <- Eu. case_decide; [apply sets_update; eauto using sets_get with ledger|].
  assert (reserved_total a - charged_poseq a - c = 0) as -> by lia.
  rewrite unlock_none; [by eapply sets_same, sets_get|].
  destruct b. cbn in *. ints.
Qed.

Definition payers (accs : list FeeAccounting) : list id32 := payer ∘ envelope <$> accs.

(** Every record is backed by a balance of its payer. *)
Definition all_ready (token : id32) (accs : list FeeAccounting) (s : S) : Prop :=
  Forall (λ a, ∃ b, ledger_get s (payer (envelope a)) token = Some b ∧ ready a b) accs.

Lemma all_ready_ext token accs s s' :
  (∀ o, o ∈ payers accs → ledger_get s' o token = ledger_get s o token) →
  all_ready token accs s → all_ready token accs s'.
Proof.
  unfold all_ready, payers. rewrite !Forall_forall. intros He Hr a Ha.
  rewrite He; [by apply Hr|]. apply list_elem_of_fmap. by exists a.
Qed.

Lemma settle_receipts_other token rs accs s o t :
  all_ready token accs s → NoDup (payers accs) → Forall (λ r, 0 ≤ gas_used r) rs →
  (t = token → o ∉ payers (take (length rs) accs)) →
  ledger_get (settle_receipts token rs accs s).1 o t = ledger_get s o t.
Proof.
  revert accs s. induction rs as [|r rs IH]; intros [|a accs] s Hr Hnd Hg Ho; [done..|].
  apply Forall_cons in Hr as [(b & Eb & Hb) Hr]. apply Forall_cons in Hg as [Hg0 Hg].
  cbn [payers fmap list_fmap] in Hnd. apply NoDup_cons in Hnd as [Hn Hnd].
  destruct (settle_receipt_spec token r s a b Eb Hb Hg0) as [Hs _].
  rewrite settle_receipts_cons. cbn [fst]. rewrite IH; [|clear Ho|done|done|].
  - rewrite Hs, decide_False; [done|]. intros [= -> ->]. apply Ho; [done|]. by left.
  - eapply all_ready_ext; [|done]. intros x Hx. rewrite Hs, decide_False; [done|].
    intros [= ->]. by apply Hn.
  - intros ->. specialize (Ho eq_refl). cbn in Ho. apply not_elem_of_cons in Ho. by apply Ho.
Qed.

Lemma settle_receipts_nth token rs accs s i a b :
  all_ready token accs s → NoDup (payers accs) → Forall (λ r, 0 ≤ gas_used r) rs →
  accs !! i = Some a → ledger_get s (payer (envelope a)) token = Some b →
  let '(s', accs') := settle_receipts token rs accs s in
  match rs !! i with
  | Some r => accs' !! i = Some (settled_accounting a r) ∧
              ledger_get s' (payer (envelope a)) token = Some (settled_balance a r b)
  | None => accs' !! i = Some a ∧ ledger_get s' (payer (envelope a)) token = Some b
  end.
Proof.
  revert rs accs s. induction i as [|i IH]; intros [|r rs] [|a0 accs] s Hr Hnd Hg Ha Hb;
    [done|by split|done| |done|by split|done|].
  all: apply Forall_cons in Hr as [(b0 & Eb & Hb0) Hr]; apply Forall_cons in Hg as [Hg0 Hg].
  all: cbn [payers fmap list_fmap] in Hnd; apply NoDup_cons in Hnd as [Hn Hnd].
  all: destruct (settle_receipt_spec token r s a0 b0 Eb Hb0 Hg0) as [Hs Ea].
  all: assert (all_ready token accs (settle_receipt token r s a0).1) as Hr'
    by (eapply all_ready_ext; [|done]; intros x Hx; rewrite Hs, decide_False;
        [done|intros [= ->]; by apply Hn]).
  all: rewrite settle_receipts_cons; cbn [lookup list_lookup] in *.
  - injection Ha as ->. rewrite Eb in Hb. injection Hb as ->. rewrite Ea. split; [done|].
    rewrite settle_receipts_other; [|done..|].
    + by eapply sets_get.
    + intros _ Hin. apply Hn. unfold payers in *. rewrite fmap_take in Hin.
      apply elem_of_take in Hin as (j & Hj & _). by eapply list_elem_of_lookup_2.
  - assert (ledger_get (settle_receipt token r s a0).1 (payer (envelope a)) token = Some b) as Hb'.
    { rewrite Hs, decide_False; [done|]. intros [= E]. apply Hn. change (payer (envelope a0) ∈ payers accs). rewrite <- E.
      apply list_elem_of_fmap. exists a. split; [done|]. by eapply list_elem_of_lookup_2. }
    specialize (IH rs accs _ Hr' Hnd Hg Ha Hb').
    destruct (settle_receipts token rs accs (settle_receipt token r s a0).1). exact IH.
Qed.

Lemma settle_receipts_length token rs accs s :
  length (settle_receipts token rs accs s).2 = length accs.
Proof.
  revert accs s. induction rs as [|r rs IH]; intros [|a accs] s; [done..|].
  rewrite settle_receipts_cons. cbn [snd length]. by rewrite IH.
Qed.

(** ** Properties *)

(** C21: The fees of a batch are exact: with one backed record per receipt and
    payers that are all different, each record the loop reaches ends settled
    with the charge of its receipt, its refund and charge adding up to the
    unspent reserve; its payer's balance falls by the charge and its lock by the
    unspent reserve; and records past the receipts, and all other balances, stay
    as they were.  A successful plan whose gas exceeds its runtime reserve is
    charged nothing. *)
Theorem batch_fees_exact token rs accs s s' accs' :
  all_ready token accs s → NoDup (payers accs) → Forall (λ r, 0 ≤ gas_used r) rs →
  settle_receipts token rs accs s = (s', accs') →
  length accs' = length accs ∧
  (∀ i a b, accs !! i = Some a → ledger_get s (payer (envelope a)) token = Some b →
     match rs !! i with
     | Some r => accs' !! i = Some (settled_accounting a r) ∧
                 ledger_get s' (payer (envelope a)) token = Some (settled_balance a r b) ∧
                 0 ≤ runtime_charge (envelope a) r ≤ max_runtime_fee (envelope a) ∧
                 (success r = true → max_runtime_fee (envelope a) < gas_used r →
                    runtime_charge (envelope a) r = 0)
     | None => accs' !! i = Some a ∧ ledger_get s' (payer (envelope a)) token = Some b
     end) ∧
  (∀ o t, (t = token → o ∉ payers (take (length rs) accs)) → ledger_get s' o t = ledger_get s o t).
Proof.
  intros Hr Hnd Hg E.
  pose proof (settle_receipts_length token rs accs s) as Hlen.
  pose proof (λ o t, settle_receipts_other token rs accs s o t Hr Hnd Hg) as Ho.
  rewrite E in Hlen, Ho. split; [exact Hlen|]. split; [|exact Ho].
  intros i a b Ha Hb. pose proof (settle_receipts_nth token rs accs s i a b Hr Hnd Hg Ha Hb) as Hn.
  rewrite E in Hn. destruct (rs !! i) as [r|] eqn:Er; [|exact Hn].
  destruct Hn as [H1 H2]. split; [done|]. split; [done|].
  assert (0 ≤ gas_used r) as Hgr by (by eapply Forall_lookup_1 in Hg).
  assert (0 ≤ max_runtime_fee (envelope a)) as Hm.
  { eapply Forall_lookup_1 in Hr as (b' & _ & []); done. }
  split; [by apply runtime_charge_bounds|]. intros Hs Hlt. unfold runtime_charge.
  rewrite Hs, decide_False by lia. done.
Qed.
End facts.

(** ** The store after the fees *)

Lemma update_if_found_objects f o a (st : ObjectStore) :
  objects (update_if_found f o a st) = objects st.
Proof.
  unfold update_if_found. cbn. unfold ObjectStore.update_found_balance.
  destruct (ObjectStore.find_balance st o a); [|done]. by destruct (btree_find _ _) as [[]|].
Qed.

Lemma settle_receipts_objects token rs accs (st : ObjectStore) :
  objects (settle_receipts token rs accs st).1 = objects st.
Proof.
  revert accs st. induction rs as [|r rs IH]; intros [|a accs] st; [done..|].
  rewrite settle_receipts_cons. cbn [fst]. rewrite IH.
  unfold settle_receipt, charge_receipt, refund_receipt, FeeAccounting.charge_runtime,
    FeeAccounting.settle_refund.
  destruct (success r); repeat case_decide; cbn [charge_success charge_failed charged fst];
    by rewrite ?update_if_found_objects.
Qed.

Section engine_fees.
Context `{Sha256, Hex, BincodeLaws}.

(** The state root that a settlement with fees reports is the one from before
    the fees: charging and refunding change balances in the overlay only, after
    the overlay has been written back, so the canonical objects and their root
    still show what each balance held when execution ended. *)
Theorem root_precedes_fees (groups : list ExecutionGroup) (now : Z) (token : id32)
    (st : ObjectStore) (accs : list FeeAccounting) :
  store_inv st → Forall plan_good (concat (plans <$> groups)) →
  ∃ st1 st' accs' res,
    SettlementEngine.execute_groups groups now st = (st1, Ok res) ∧
    EngineWithFees.execute_groups_with_fees groups now token (st, accs) = ((st', accs'), Ok res) ∧
    synced st1 ∧ objects st' = objects st1 ∧
    ObjectStore.state_root st' = res_state_root res ∧
    (∀ i b, balances st1 !! i = Some b → ObjectStore.get st' i = Some (OBalance b)).
Proof.
  intros Hinv Hg. destruct (execute_groups_ok groups now st Hinv Hg)
    as (st1 & res & E & _ & Hs & Hroot & _).
  pose proof (settle_receipts_objects token (receipts res) accs st1) as Ho.
  unfold EngineWithFees.execute_groups_with_fees. rewrite E.
  destruct (settle_receipts token (receipts res) accs st1) as [st' accs'].
  exists st1, st', accs', res. cbn [fst] in Ho.
  split_and!; [done..| |].
  - rewrite Hroot. unfold ObjectStore.state_root, ObjectStore.root_preimage. by rewrite Ho.
  - intros i b Hb. unfold ObjectStore.get. rewrite Ho. by apply Hs.
Qed.
End engine_fees.

(** ** Sample batch *)

Definition ready_acc (p : id32) : FeeAccounting :=
  mkAccounting (mkEnvelope p "omniphi" 600 300 0 20 None) SequencingCharged 900 500 0 0 0.
Definition batch_store : ObjectStore :=
  mkStore ∅ (list_to_map [(10, set_locked bal_alice5 400);
    (11, set_locked (set_amount bal_bob5 900) 400)]) ∅ ∅.
Definition batch_receipts : list ExecutionReceipt :=
  [mkReceipt 1 true [] [] None 301 []; mkReceipt 2 false [] [] None 200 []].

Lemma batch_fees_exact_witness :
  ∃ s' accs', settle_receipts 5 batch_receipts [ready_acc alice; ready_acc bob] batch_store =
      (s', accs') ∧
    charged_runtime <$> accs' !! 0%nat = Some 0 ∧ charged_runtime <$> accs' !! 1%nat = Some 150 ∧
    held s' alice 5 = Some 1000 ∧ held s' bob 5 = Some 750.
Proof.
  destruct (settle_receipts 5 batch_receipts [ready_acc alice; ready_acc bob] batch_store)
    as [s' accs'] eqn:E.
  destruct (batch_fees_exact 5 batch_receipts [ready_acc alice; ready_acc bob] batch_store s' accs')
    as (_ & Hn & _); [| | |exact E|].
  - repeat constructor; eexists; (split; [reflexivity|]); split; by_eval.
  - by_decide.
  - repeat constructor; by_eval.
  - exists s', accs'. split; [reflexivity|].
    destruct (Hn 0%nat (ready_acc alice) _ eq_refl eq_refl) as (Ea & Ba & _).
    destruct (Hn 1%nat (ready_acc bob) _ eq_refl eq_refl) as (Eb & Bb & _).
    rewrite Ea, Eb. unfold held. change alice with (payer (envelope (ready_acc alice))).
    change bob with (payer (envelope (ready_acc bob))). rewrite Ba, Bb. by split_and!.
Defined.

Lemma root_precedes_fees_witness :
  ∃ st' accs' res, @EngineWithFees.execute_groups_with_fees sample_sha256 sample_hex sample_bincode
      sample_groups 9 5 (settled_store, [ready_acc alice]) = ((st', accs'), Ok res) ∧
    @ObjectStore.state_root sample_bincode sample_sha256 st' = res_state_root res.
Proof.
  destruct (@root_precedes_fees sample_sha256 sample_hex sample_bincode sample_bincode_laws
    sample_groups 9 5 settled_store [ready_acc alice])
    as (st1 & st' & accs' & res & _ & E & _ & _ & Hr & _).
  - exact settled_inv.
  - cbn. repeat constructor; by_eval.
  - exists st', accs', res. split; [exact E|exact Hr].
Defined.
