(* ===== verification/HotStuffTypes.v ===== *)
(** * HotStuff: data, the safety rule and message verification

    src/poseq/src/hotstuff/types.rs (phases, blocks, quorum certificates, votes
    and the locking rule), verification.rs (membership and freshness checks) and
    persistence.rs (the snapshot type); the storage interface and its in-memory
    implementation (src/poseq/src/persistence/backend.rs); and the pacemaker
    (hotstuff/pacemaker.rs).  Hashing, Ed25519 and bincode are
    parameters. *)

From stdpp Require Import gmap strings list pretty sorting.
From S2P Require Import Prelude.

(** ** Phases *)

(* @src src/poseq/src/hotstuff/types.rs:41-51 Phase *)
Inductive Phase : Type :=
| Prepare
| PreCommit
| Commit
| Decide.

#[export] Instance Phase_eq_dec : EqDecision Phase.
Proof. solve_decision. Defined.

Module Phase.
(* @src src/poseq/src/hotstuff/types.rs:54-61 Phase::name *)
Definition name (p : Phase) : string :=
  match p with
  | Prepare => "PREPARE"
  | PreCommit => "PRE-COMMIT"
  | Commit => "COMMIT"
  | Decide => "DECIDE"
  end.

(* @src src/poseq/src/hotstuff/types.rs:63-71 Phase::next *)
Definition next (p : Phase) : option Phase :=
  match p with
  | Prepare => Some PreCommit
  | PreCommit => Some Commit
  | Commit => Some Decide
  | Decide => None
  end.

(** [phase as u8] *)
Definition byte (p : Phase) : Z :=
  match p with Prepare => 0 | PreCommit => 1 | Commit => 2 | Decide => 3 end.
End Phase.

#[export] Instance Phase_countable : Countable Phase.
Proof.
  apply (inj_countable' (λ p, Z.to_nat (Phase.byte p))
    (λ n, match n with 0%nat => Prepare | 1%nat => PreCommit | 2%nat => Commit | _ => Decide end)).
  by intros [].
Defined.

(** ** Messages *)

(* @src src/poseq/src/hotstuff/types.rs:122-138 QuorumCertificate *)
Record QuorumCertificate : Type := mkQC {
  qc_view : Z;
  qc_block_id : id32;
  qc_phase : Phase;
  signatures : list (id32 * bytes) }.

(* @src src/poseq/src/hotstuff/types.rs:76-93 HotStuffBlock *)
Record HotStuffBlock : Type := mkBlock {
  block_id : id32;
  parent_id : id32;
  bl_view : Z;
  leader_id : id32;
  batch_root : id32;
  ordered_submission_ids : list id32;
  justify_qc : option QuorumCertificate }.

(* @src src/poseq/src/hotstuff/types.rs:170-181 HotStuffVote *)
Record HotStuffVote : Type := mkVote {
  vt_view : Z;
  vt_block_id : id32;
  vt_phase : Phase;
  voter_id : id32;
  vt_signature : bytes }.

(* @src src/poseq/src/hotstuff/types.rs:192-202 NewViewMessage *)
Record NewViewMessage : Type := mkNewView {
  new_view : Z;
  nv_high_qc : QuorumCertificate;
  sender_id : id32 }.

#[export] Instance QuorumCertificate_eq_dec : EqDecision QuorumCertificate.
Proof. solve_decision. Defined.
#[export] Instance HotStuffBlock_eq_dec : EqDecision HotStuffBlock.
Proof. solve_decision. Defined.
#[export] Instance HotStuffVote_eq_dec : EqDecision HotStuffVote.
Proof. solve_decision. Defined.

Module HotStuffBlock.
(* @src src/poseq/src/hotstuff/types.rs:96-111 HotStuffBlock::compute_id *)
Definition compute_id `{Sha256} (parent root : id32) (view : Z) (leader : id32) : id32 :=
  sha256 (string_bytes "HOTSTUFF_BLOCK_V1" ++ be_bytes 32 parent ++ be_bytes 32 root ++
    be_bytes 8 view ++ be_bytes 32 leader).

(* @src src/poseq/src/hotstuff/types.rs:113-117 HotStuffBlock::extends_direct *)
Definition extends_direct (b : HotStuffBlock) (ancestor : id32) : bool :=
  bool_decide (parent_id b = ancestor).
End HotStuffBlock.

Module QuorumCertificate.
(* @src src/poseq/src/hotstuff/types.rs:141-150 QuorumCertificate::vote_hash *)
Definition vote_hash `{Sha256} (view : Z) (block : id32) (phase : Phase) : id32 :=
  sha256 (string_bytes "HOTSTUFF_VOTE_V1" ++ be_bytes 8 view ++ be_bytes 32 block ++
    [Phase.byte phase]).

(* @src src/poseq/src/hotstuff/types.rs:152-155 QuorumCertificate::has_quorum *)
Definition has_quorum (qc : QuorumCertificate) (threshold : nat) : bool :=
  bool_decide (threshold ≤ length (signatures qc))%nat.

(* @src src/poseq/src/hotstuff/types.rs:157-165 QuorumCertificate::genesis *)
Definition genesis : QuorumCertificate := mkQC 0 0 Decide [].
End QuorumCertificate.

Module HotStuffVote.
(* @src src/poseq/src/hotstuff/types.rs:184-187 HotStuffVote::vote_hash *)
Definition vote_hash `{Sha256} (v : HotStuffVote) : id32 :=
  QuorumCertificate.vote_hash (vt_view v) (vt_block_id v) (vt_phase v).
End HotStuffVote.

(** ** The safety rule *)

(* @src src/poseq/src/hotstuff/types.rs:206-223 SafetyRule *)
Record SafetyRule : Type := mkSafety {
  locked_qc : QuorumCertificate;
  high_qc : QuorumCertificate;
  sr_current_view : Z;
  last_voted_view : Z }.

(** The crate [bincode] on a [SafetyRule]. *)
Class SafetyBincode := {
  encode_safety : SafetyRule → bytes;
  decode_safety : bytes → option SafetyRule }.
Class SafetyBincodeLaws `{SafetyBincode} : Prop := {
  decode_encode_safety s : decode_safety (encode_safety s) = Some s }.

Module SafetyRule.
(* @src src/poseq/src/hotstuff/types.rs:226-234 SafetyRule::new *)
Definition new : SafetyRule :=
  let genesis := QuorumCertificate.genesis in mkSafety genesis genesis 0 0.

(* @src src/poseq/src/hotstuff/types.rs:236-239 SafetyRule::to_bytes *)
Definition to_bytes `{SafetyBincode} (s : SafetyRule) : bytes := encode_safety s.

(* @src src/poseq/src/hotstuff/types.rs:241-244 SafetyRule::from_bytes *)
Definition from_bytes `{SafetyBincode} (l : bytes) : option SafetyRule := decode_safety l.

(* @src src/poseq/src/hotstuff/types.rs:246-268 SafetyRule::safe_to_vote *)
Definition safe_to_vote (s : SafetyRule) (b : HotStuffBlock) : bool :=
  if decide (bl_view b ≤ last_voted_view s) then false
  else if HotStuffBlock.extends_direct b (qc_block_id (locked_qc s)) then true
  else if match justify_qc b with
          | Some justify => bool_decide (qc_view (locked_qc s) < qc_view justify)
          | None => false
          end then true
  else bool_decide (parent_id b = 0).

(* @src src/poseq/src/hotstuff/types.rs:270-275 SafetyRule::record_vote *)
Definition record_vote (view : Z) (s : SafetyRule) : SafetyRule :=
  if decide (last_voted_view s < view)
  then mkSafety (locked_qc s) (high_qc s) (sr_current_view s) view else s.

(* @src src/poseq/src/hotstuff/types.rs:277-282 SafetyRule::update_high_qc *)
Definition update_high_qc (qc : QuorumCertificate) (s : SafetyRule) : SafetyRule :=
  if decide (qc_view (high_qc s) < qc_view qc)
  then mkSafety (locked_qc s) qc (sr_current_view s) (last_voted_view s) else s.

(* @src src/poseq/src/hotstuff/types.rs:284-290 SafetyRule::lock *)
Definition lock_on (qc : QuorumCertificate) (s : SafetyRule) : SafetyRule :=
  if decide (qc_view (locked_qc s) ≤ qc_view qc)
  then update_high_qc qc (mkSafety qc (high_qc s) (sr_current_view s) (last_voted_view s)) else s.

(* @src src/poseq/src/hotstuff/types.rs:292-297 SafetyRule::advance_view *)
Definition advance_view (v : Z) (s : SafetyRule) : SafetyRule :=
  if decide (sr_current_view s < v)
  then mkSafety (locked_qc s) (high_qc s) v (last_voted_view s) else s.
End SafetyRule.

(** ** Message verification *)

(* @src src/poseq/src/hotstuff/verification.rs:15-32 ConsensusVerificationError *)
Inductive ConsensusVerificationError : Type :=
| InvalidSignature (signer : id32)
| NotCommitteeMember (signer : id32)
| StaleView (message_view current_view : Z)
| DuplicateMessage (signer : id32) (view : Z)
| InsufficientQuorum (required valid : nat)
| WrongLeader (expected actual : id32)
| ReplayDetected (signer : id32).

(* @src src/poseq/src/hotstuff/verification.rs:34-46 ConsensusVerificationError::fmt *)
Definition display_verification_error `{HexBytes} (e : ConsensusVerificationError) : string :=
  let short signer := hex_bytes (take 4 (be_bytes 32 signer)) in
  match e with
  | InvalidSignature signer => "invalid signature from " +:+ short signer
  | NotCommitteeMember signer => "not committee member: " +:+ short signer
  | StaleView mv cv => "stale view " +:+ pretty mv +:+ " (current " +:+ pretty cv +:+ ")"
  | DuplicateMessage signer v => "duplicate from " +:+ short signer +:+ " in view " +:+ pretty v
  | InsufficientQuorum req valid =>
      "insufficient quorum: " +:+ pretty valid +:+ "/" +:+ pretty req
  | WrongLeader expected actual =>
      "wrong leader: expected " +:+ short expected +:+ ", got " +:+ short actual
  | ReplayDetected signer => "replay from " +:+ short signer
  end.

(** [message.view + 2 < current_view] *)
Definition stale (view current : Z) : bool := bool_decide (wrapu 64 (view + 2) < current).

(* @src src/poseq/src/hotstuff/verification.rs:50-73 verify_vote_membership *)
Definition verify_vote_membership (vote : HotStuffVote) (committee : gset id32) (current : Z)
  : outcome ConsensusVerificationError () :=
  if decide (voter_id vote ∉ committee) then Err (NotCommitteeMember (voter_id vote))
  else if stale (vt_view vote) current then Err (StaleView (vt_view vote) current)
  else Ok tt.

(* @src src/poseq/src/hotstuff/verification.rs:75-104 verify_proposal_leader *)
Definition verify_proposal_leader (b : HotStuffBlock) (expected : id32) (committee : gset id32)
    (current : Z) : outcome ConsensusVerificationError () :=
  if decide (leader_id b ∉ committee) then Err (NotCommitteeMember (leader_id b))
  else if decide (leader_id b ≠ expected) then Err (WrongLeader expected (leader_id b))
  else if stale (bl_view b) current then Err (StaleView (bl_view b) current)
  else Ok tt.

(* @src src/poseq/src/hotstuff/verification.rs:106-127 verify_qc_committee *)
Definition verify_qc_committee (qc : QuorumCertificate) (committee : gset id32) (threshold : nat)
  : outcome ConsensusVerificationError nat :=
  let valid_count := length (filter (λ s, s.1 ∈ committee) (signatures qc)) in
  if decide (valid_count < threshold)%nat then Err (InsufficientQuorum threshold valid_count)
  else Ok valid_count.

(* @src src/poseq/src/hotstuff/verification.rs:129-138 verify_new_view_membership *)
Definition verify_new_view_membership (nv : NewViewMessage) (committee : gset id32)
  : outcome ConsensusVerificationError () :=
  if decide (sender_id nv ∉ committee) then Err (NotCommitteeMember (sender_id nv)) else Ok tt.

(* @src src/poseq/src/hotstuff/verification.rs:140-158 compute_vote_payload *)
Definition compute_vote_payload `{Sha256} (view : Z) (block : id32) (phase : Phase) : id32 :=
  let phase_byte := match phase with
    | Prepare => 0 | PreCommit => 1 | Commit => 2 | Decide => 3 end in
  sha256 (string_bytes "HOTSTUFF_VOTE_V1" ++ be_bytes 8 view ++ be_bytes 32 block ++ [phase_byte]).

(* @src src/poseq/src/hotstuff/verification.rs:160-172 compute_proposal_payload *)
Definition compute_proposal_payload `{Sha256} (b : HotStuffBlock) : id32 :=
  sha256 (string_bytes "HOTSTUFF_PROPOSAL_V1" ++ be_bytes 32 (block_id b) ++
    be_bytes 8 (bl_view b) ++ be_bytes 32 (leader_id b) ++ be_bytes 32 (batch_root b)).

(** ** The persisted snapshot *)

(* @src src/poseq/src/hotstuff/persistence.rs:9-28 HotStuffConsensusState *)
Record HotStuffConsensusState : Type := mkConsensusState {
  cs_current_view : Z;
  cs_high_qc : QuorumCertificate;
  cs_locked_qc : QuorumCertificate;
  voted_views : list (Z * Z);
  last_finalized_view : Z;
  last_finalized_block_id : id32 }.

Module HotStuffConsensusState.
(* @src src/poseq/src/hotstuff/persistence.rs:31-42 HotStuffConsensusState::genesis *)
Definition genesis : HotStuffConsensusState :=
  let qc := QuorumCertificate.genesis in mkConsensusState 0 qc qc [] 0 0.

(* @src src/poseq/src/hotstuff/persistence.rs:44-61 HotStuffConsensusState::capture *)
Definition capture (current : Z) (high locked : QuorumCertificate) (voted : list (Z * Z))
    (final_view : Z) (final_id : id32) : HotStuffConsensusState :=
  mkConsensusState current high locked voted final_view final_id.

(* @src src/poseq/src/hotstuff/persistence.rs:63-66 HotStuffConsensusState::has_voted *)
Definition has_voted (s : HotStuffConsensusState) (view phase_byte : Z) : bool :=
  existsb (λ p, bool_decide (p.1 = view) && bool_decide (p.2 = phase_byte)) (voted_views s).

(* @src src/poseq/src/hotstuff/persistence.rs:72-80 finalized_block_key *)
Definition finalized_block_key (view : Z) : bytes :=
  string_bytes "hotstuff:finalized:" ++ be_bytes 8 view.
End HotStuffConsensusState.

(** * Key-value persistence

    The storage interface of src/poseq/src/persistence/backend.rs and its
    in-memory implementation.  The interface is the class [PersistenceBackend]
    with the contract its comments state as [BackendLaws]; clients such as the
    HotStuff engine are verified against it. *)

(** [k.starts_with(prefix)] *)
Fixpoint starts_with (pre k : bytes) : bool :=
  match pre, k with
  | [], _ => true
  | x :: pre, y :: k => bool_decide (x = y) && starts_with pre k
  | _ :: _, [] => false
  end.

(** The order of [Vec<u8>]: lexicographic. *)
Fixpoint bytes_leb (k k' : bytes) : bool :=
  match k, k' with
  | [], _ => true
  | _ :: _, [] => false
  | x :: k, y :: k' => (x <? y) || ((x =? y) && bytes_leb k k')
  end.

Definition entry_le (p q : bytes * bytes) : Prop := bytes_leb p.1 q.1 = true.
#[export] Instance entry_le_dec : RelDecision entry_le.
Proof. intros p q. unfold entry_le. apply _. Defined.

(* @src src/poseq/src/persistence/backend.rs:3-21 PersistenceBackend *)
Class PersistenceBackend (B : Type) := {
  backend_get : bytes → B → option bytes;
  backend_put : bytes → bytes → B → B;
  backend_delete : bytes → B → B;
  backend_prefix_scan : bytes → B → list (bytes * bytes);
  backend_flush : B → B }.

(* @src src/poseq/src/persistence/backend.rs:13-16 PersistenceBackend::contains *)
Definition backend_contains {B} `{PersistenceBackend B} (k : bytes) (b : B) : bool :=
  match backend_get k b with Some _ => true | None => false end.

(** What the comments of the trait promise. *)
Class BackendLaws (B : Type) `{PersistenceBackend B} : Prop := {
  backend_get_put k k' v b :
    backend_get k' (backend_put k v b) = if decide (k' = k) then Some v else backend_get k' b;
  backend_get_delete k k' b :
    backend_get k' (backend_delete k b) = if decide (k' = k) then None else backend_get k' b;
  backend_get_flush k b : backend_get k (backend_flush b) = backend_get k b;
  backend_scan_spec pre k v b :
    (k, v) ∈ backend_prefix_scan pre b ↔ starts_with pre k = true ∧ backend_get k b = Some v;
  backend_scan_sorted pre b : StronglySorted entry_le (backend_prefix_scan pre b) }.

(** ** The in-memory backend *)

(* @src src/poseq/src/persistence/backend.rs:23-26 InMemoryBackend *)
Record InMemoryBackend : Type := mkBackend { backend_store : gmap bytes bytes }.

Module InMemoryBackend.
(* @src src/poseq/src/persistence/backend.rs:29-31 InMemoryBackend::new *)
Definition new : InMemoryBackend := mkBackend ∅.

(* @src src/poseq/src/persistence/backend.rs:33-36 InMemoryBackend::len *)
Definition len (b : InMemoryBackend) : nat := size (backend_store b).

(* @src src/poseq/src/persistence/backend.rs:38-40 InMemoryBackend::is_empty *)
Definition is_empty (b : InMemoryBackend) : bool := bool_decide (backend_store b = ∅).

(** The entries in key order. *)
Definition sorted_entries (b : InMemoryBackend) : list (bytes * bytes) :=
  merge_sort entry_le (map_to_list (backend_store b)).

(* @src src/poseq/src/persistence/backend.rs:42-45 InMemoryBackend::keys *)
Definition keys (b : InMemoryBackend) : list bytes := (sorted_entries b).*1.

(* @src src/poseq/src/persistence/backend.rs:55-57 InMemoryBackend::get *)
Definition get (k : bytes) (b : InMemoryBackend) : option bytes := backend_store b !! k.

(* @src src/poseq/src/persistence/backend.rs:59-61 InMemoryBackend::put *)
Definition put (k v : bytes) (b : InMemoryBackend) : InMemoryBackend :=
  mkBackend (<[k := v]> (backend_store b)).

(* @src src/poseq/src/persistence/backend.rs:63-65 InMemoryBackend::delete *)
Definition remove (k : bytes) (b : InMemoryBackend) : InMemoryBackend :=
  mkBackend (delete k (backend_store b)).

(** [iter.take_while(p)] *)
Fixpoint take_while {A} (p : A → bool) (l : list A) : list A :=
  match l with
  | [] => []
  | a :: l => if p a then a :: take_while p l else []
  end.

(** [range(prefix..)] is the entries whose key is not below the prefix. *)
(* @src src/poseq/src/persistence/backend.rs:67-73 InMemoryBackend::prefix_scan *)
Definition prefix_scan (pre : bytes) (b : InMemoryBackend) : list (bytes * bytes) :=
  take_while (λ e, starts_with pre e.1)
    (filter (λ e, bytes_leb pre e.1 = true) (sorted_entries b)).
End InMemoryBackend.

#[export] Instance memory_backend : PersistenceBackend InMemoryBackend := {
  backend_get := InMemoryBackend.get;
  backend_put := InMemoryBackend.put;
  backend_delete := InMemoryBackend.remove;
  backend_prefix_scan := InMemoryBackend.prefix_scan;
  backend_flush := λ b, b }.

(** ** Lemmas *)

Lemma bytes_leb_refl k : bytes_leb k k = true.
Proof. induction k as [|x k IH]; [done|]. cbn. rewrite Z.ltb_irrefl, Z.eqb_refl. done. Qed.

Lemma bytes_leb_trans k1 k2 k3 :
  bytes_leb k1 k2 = true → bytes_leb k2 k3 = true → bytes_leb k1 k3 = true.
Proof.
  revert k2 k3. induction k1 as [|x k1 IH]; intros [|y k2] [|z k3]; cbn; try done.
  rewrite !orb_true_iff, !andb_true_iff, !Z.ltb_lt, !Z.eqb_eq.
  intros [?|[-> ?]] [?|[-> ?]]; [left; lia|by left|by left|right; split; [done|by eapply IH]].
Qed.

Lemma bytes_leb_total k1 k2 : bytes_leb k1 k2 = true ∨ bytes_leb k2 k1 = true.
Proof.
  revert k2. induction k1 as [|x k1 IH]; intros [|y k2]; cbn; [by left..|by right|].
  rewrite !orb_true_iff, !andb_true_iff, !Z.ltb_lt, !Z.eqb_eq.
  destruct (Z.lt_trichotomy x y) as [|[->|]]; [tauto| |tauto]. destruct (IH k2); tauto.
Qed.

#[export] Instance entry_le_trans : Transitive entry_le.
Proof. intros ???. apply bytes_leb_trans. Qed.
#[export] Instance entry_le_total : Total entry_le.
Proof. intros ??. apply bytes_leb_total. Qed.

(** A prefix is below what it starts, and what it starts is an interval. *)
Lemma starts_with_leb pre k : starts_with pre k = true → bytes_leb pre k = true.
Proof.
  revert k. induction pre as [|x pre IH]; intros [|y k]; cbn; try done.
  rewrite andb_true_iff, bool_decide_eq_true. intros [-> ?].
  by rewrite Z.ltb_irrefl, Z.eqb_refl, IH.
Qed.

Lemma starts_with_interval pre k k' :
  bytes_leb pre k = true → bytes_leb k k' = true → starts_with pre k' = true →
  starts_with pre k = true.
Proof.
  revert k k'. induction pre as [|x pre IH]; intros [|y k] [|z k']; cbn; try done.
  rewrite !orb_true_iff, !andb_true_iff, !Z.ltb_lt, !Z.eqb_eq, !bool_decide_eq_true.
  intros [?|[-> ?]] [?|[-> ?]] [E ?]; subst; try lia. split; [done|by eapply IH].
Qed.

Lemma take_while_interval (p : bytes * bytes → bool) l e :
  (∀ e1 e2, e1 ∈ l → e2 ∈ l → entry_le e1 e2 → p e2 = true → p e1 = true) →
  StronglySorted entry_le l → (e ∈ InMemoryBackend.take_while p l ↔ e ∈ l ∧ p e = true).
Proof.
  induction l as [|a l IH]; intros Hp Hs; cbn; [set_solver|].
  inversion Hs as [|? ? Hs' Hle]; subst. rewrite Forall_forall in Hle.
  destruct (p a) eqn:Ea.
  - rewrite elem_of_cons, IH, elem_of_cons; [naive_solver| |done]. intros. eapply Hp; eauto; by right.
  - split; [set_solver|]. intros [[->|Hin]%elem_of_cons He]; [congruence|].
    rewrite (Hp a e) in Ea; [done|by left|by right|by apply Hle|done].
Qed.

Lemma take_while_sorted p l :
  StronglySorted entry_le l → StronglySorted entry_le (InMemoryBackend.take_while p l).
Proof.
  induction 1 as [|a l _ IH Hle]; cbn; [constructor|]. destruct (p a); [|constructor].
  constructor; [done|]. rewrite Forall_forall in Hle |- *. intros x Hx. apply Hle.
  clear -Hx. induction l as [|b l IH]; cbn in *; [done|]. destruct (p b); [|set_solver].
  apply elem_of_cons in Hx as [->|]; [by left|right; auto].
Qed.

Lemma filter_sorted (P : bytes * bytes → Prop) `{∀ x, Decision (P x)} l :
  StronglySorted entry_le l → StronglySorted entry_le (filter P l).
Proof.
  induction 1 as [|a l _ IH Hle]; [constructor|]. rewrite filter_cons. case_decide; [|done].
  constructor; [done|]. rewrite Forall_forall in Hle |- *. intros x Hx. apply Hle.
  by apply list_elem_of_filter in Hx as [_ ?].
Qed.

Lemma sorted_entries_sorted b : StronglySorted entry_le (InMemoryBackend.sorted_entries b).
Proof. apply StronglySorted_merge_sort; apply _. Qed.

Lemma elem_of_sorted_entries b k v :
  (k, v) ∈ InMemoryBackend.sorted_entries b ↔ backend_store b !! k = Some v.
Proof.
  unfold InMemoryBackend.sorted_entries. by rewrite merge_sort_Permutation, elem_of_map_to_list.
Qed.

Lemma sorted_entries_nodup b : NoDup (InMemoryBackend.sorted_entries b).*1.
Proof.
  unfold InMemoryBackend.sorted_entries. rewrite merge_sort_Permutation. apply NoDup_fst_map_to_list.
Qed.

Lemma filter_nodup (P : bytes * bytes → Prop) `{∀ x, Decision (P x)} l :
  NoDup l.*1 → NoDup (filter P l).*1.
Proof. intros Hl. eapply sublist_NoDup; [exact Hl|]. apply fmap_sublist, sublist_filter. Qed.

Lemma take_while_nodup p (l : list (bytes * bytes)) :
  NoDup l.*1 → NoDup (InMemoryBackend.take_while p l).*1.
Proof.
  intros Hl. eapply sublist_NoDup; [exact Hl|]. apply fmap_sublist. clear Hl.
  induction l as [|a l IH]; cbn; [constructor|].
  destruct (p a); [by apply sublist_skip|apply sublist_nil_l].
Qed.

#[export] Instance memory_backend_laws : BackendLaws InMemoryBackend.
Proof.
  split; cbn.
  - intros k k' v b. unfold InMemoryBackend.get, InMemoryBackend.put. cbn.
    rewrite lookup_insert. repeat case_decide; congruence.
  - intros k k' b. unfold InMemoryBackend.get, InMemoryBackend.remove. cbn.
    rewrite lookup_delete. repeat case_decide; congruence.
  - done.
  - intros pre k v b. unfold InMemoryBackend.prefix_scan, InMemoryBackend.get.
    rewrite take_while_interval; [|intros e1 e2 [H1 _]%list_elem_of_filter _ ??;
      by eapply starts_with_interval|apply filter_sorted, sorted_entries_sorted].
    rewrite list_elem_of_filter, elem_of_sorted_entries. cbn.
    split; [tauto|]. intros [? ?]. auto using starts_with_leb.
  - intros pre b. apply take_while_sorted, filter_sorted, sorted_entries_sorted.
Qed.

(** ** Properties *)

(** Scanning a prefix returns, in key order, exactly the entries whose key
    starts with it, each key once: what [range] and [take_while] pick from the
    sorted map is the whole interval of the prefix. *)
Theorem prefix_scan_exact (pre : bytes) (b : InMemoryBackend) :
  (∀ k v, (k, v) ∈ InMemoryBackend.prefix_scan pre b ↔
     starts_with pre k = true ∧ InMemoryBackend.get k b = Some v) ∧
  StronglySorted entry_le (InMemoryBackend.prefix_scan pre b) ∧
  NoDup (InMemoryBackend.prefix_scan pre b).*1.
Proof.
  split; [intros k v; apply (@backend_scan_spec _ memory_backend memory_backend_laws)|].
  split; [apply (@backend_scan_sorted _ memory_backend memory_backend_laws)|].
  apply take_while_nodup, filter_nodup, sorted_entries_nodup.
Qed.

(** * The pacemaker

    View timeouts and view changes: src/poseq/src/hotstuff/pacemaker.rs.  A
    [Duration] is a number of nanoseconds and an [Instant] a reading of the
    monotonic clock; [Instant::now()] is the argument [now] of the operations
    that read it. *)

(* @src src/poseq/src/hotstuff/pacemaker.rs:21-32 ViewState *)
Inductive ViewState : Type :=
| AwaitingProposal
| Voted
| Decided
| TimedOut.

(* @src src/poseq/src/hotstuff/pacemaker.rs:36-52 Pacemaker *)
Record Pacemaker : Type := mkPacemaker {
  pm_current_view : Z;
  view_state : ViewState;
  view_started_at : Z;
  current_timeout : Z;
  base_timeout : Z;
  max_timeout : Z;
  consecutive_timeouts : Z;
  total_view_changes : Z }.

(** [Duration::MAX]: 2^64 - 1 seconds and 999,999,999 nanoseconds. *)
Definition duration_max : Z := 2 ^ 64 * 1000000000 - 1.

(** [start.elapsed()], zero when the clock reads earlier. *)
Definition elapsed (start now : Z) : Z := sat_sub now start.

(** [iter.max_by_key(f)]: the last of the greatest. *)
Definition keep_max {A} (f : A → Z) (best : option A) (a : A) : option A :=
  match best with
  | Some b => if decide (f a < f b) then Some b else Some a
  | None => Some a
  end.
Definition max_by_key {A} (f : A → Z) (l : list A) : option A := foldl (keep_max f) None l.

Module Pacemaker.
(** [Duration::from_millis] of a [u64] and its multiple by 32 are below
    [Duration::MAX], so the multiplication does not panic. *)
(* @src src/poseq/src/hotstuff/pacemaker.rs:55-67 Pacemaker::new *)
Definition new (base_timeout_ms now : Z) : Pacemaker :=
  let base := base_timeout_ms * 1000000 in
  mkPacemaker 1 AwaitingProposal now base base (base * 32) 0 0.

(* @src src/poseq/src/hotstuff/pacemaker.rs:69-72 Pacemaker::is_timed_out *)
Definition is_timed_out (p : Pacemaker) (now : Z) : bool :=
  bool_decide (current_timeout p ≤ elapsed (view_started_at p) now).

(* @src src/poseq/src/hotstuff/pacemaker.rs:74-78 Pacemaker::time_remaining *)
Definition time_remaining (p : Pacemaker) (now : Z) : Z :=
  sat_sub (current_timeout p) (elapsed (view_started_at p) now).

(* @src src/poseq/src/hotstuff/pacemaker.rs:80-99 Pacemaker::advance_view *)
Definition advance_view (self_id : id32) (safety : SafetyRule) (now : Z) (p : Pacemaker)
  : Pacemaker * NewViewMessage :=
  let view := wrapu 64 (pm_current_view p + 1) in
  let new_timeout := Z.min (current_timeout p * 2) duration_max in
  (mkPacemaker view AwaitingProposal now (Z.min new_timeout (max_timeout p)) (base_timeout p)
     (max_timeout p) (wrapu 32 (consecutive_timeouts p + 1)) (wrapu 64 (total_view_changes p + 1)),
   mkNewView view (high_qc safety) self_id).

(* @src src/poseq/src/hotstuff/pacemaker.rs:101-106 Pacemaker::on_decide *)
Definition on_decide (p : Pacemaker) : Pacemaker :=
  mkPacemaker (pm_current_view p) Decided (view_started_at p) (base_timeout p) (base_timeout p)
    (max_timeout p) 0 (total_view_changes p).

(* @src src/poseq/src/hotstuff/pacemaker.rs:108-111 Pacemaker::on_voted *)
Definition on_voted (p : Pacemaker) : Pacemaker :=
  mkPacemaker (pm_current_view p) Voted (view_started_at p) (current_timeout p) (base_timeout p)
    (max_timeout p) (consecutive_timeouts p) (total_view_changes p).

(* @src src/poseq/src/hotstuff/pacemaker.rs:113-121 Pacemaker::reset_view_timer *)
Definition reset_view_timer (view now : Z) (p : Pacemaker) : Pacemaker :=
  if decide (pm_current_view p < view)
  then mkPacemaker view AwaitingProposal now (current_timeout p) (base_timeout p)
         (max_timeout p) (consecutive_timeouts p) (total_view_changes p)
  else p.

(* @src src/poseq/src/hotstuff/pacemaker.rs:123-129 Pacemaker::select_high_qc *)
Definition select_high_qc (nvs : list NewViewMessage) : option QuorumCertificate :=
  max_by_key qc_view (nv_high_qc <$> nvs).

(* @src src/poseq/src/hotstuff/pacemaker.rs:131-135 Pacemaker::new_view_quorum_reached *)
Definition new_view_quorum_reached (nvs : list NewViewMessage) (threshold : nat) : bool :=
  bool_decide (threshold ≤ length nvs)%nat.
End Pacemaker.

(** ** Lemmas *)

Lemma max_by_key_spec {A} (f : A → Z) (l : list A) a :
  max_by_key f l = Some a → a ∈ l ∧ ∀ b, b ∈ l → f b ≤ f a.
Proof.
  unfold max_by_key. revert a. induction l as [|x l IH] using rev_ind; [done|].
  intros a. rewrite foldl_app. cbn. destruct (foldl (keep_max f) None l) as [b|] eqn:E; cbn.
  - destruct (IH b eq_refl) as [Hin Hmax]. case_decide; intros [= <-]; (split; [set_solver|]);
      intros c Hc; apply elem_of_app in Hc as [Hc|Hc%list_elem_of_singleton];
      subst; try lia; specialize (Hmax _ Hc); lia.
  - intros [= <-]. split; [set_solver|]. destruct l as [|y l]; [set_solver|].
    exfalso. clear -E. revert E. cbn. generalize y. induction l as [|z l IH]; intros b; cbn; [done|].
    case_decide; apply IH.
Qed.

(** [n] view changes by timeout, at the given clock readings. *)
Fixpoint time_outs (self_id : id32) (safety : SafetyRule) (nows : list Z) (p : Pacemaker)
  : Pacemaker :=
  match nows with
  | [] => p
  | now :: nows => time_outs self_id safety nows (Pacemaker.advance_view self_id safety now p).1
  end.

Lemma time_outs_spec self_id safety nows p k :
  0 ≤ base_timeout p → base_timeout p * 32 ≤ duration_max → max_timeout p = base_timeout p * 32 →
  0 ≤ k → current_timeout p = Z.min (base_timeout p * 2 ^ k) (base_timeout p * 32) →
  0 ≤ pm_current_view p → pm_current_view p + Z.of_nat (length nows) < 2 ^ 64 →
  let p' := time_outs self_id safety nows p in
  current_timeout p' =
    Z.min (base_timeout p * 2 ^ (k + Z.of_nat (length nows))) (base_timeout p * 32) ∧
  pm_current_view p' = pm_current_view p + Z.of_nat (length nows) ∧
  base_timeout p' = base_timeout p ∧ max_timeout p' = max_timeout p.
Proof.
  revert p k. induction nows as [|now nows IH]; intros p k Hb Hd Hm Hk Hc Hv Hv'.
  { cbn in *. rewrite !Z.add_0_r. done. }
  cbn [time_outs length] in *. set (p1 := (Pacemaker.advance_view self_id safety now p).1).
  assert (2 ^ (k + 1) = 2 * 2 ^ k) as Hpow by (rewrite Z.pow_add_r by lia; lia).
  assert (0 < 2 ^ k) as Hpos by (apply Z.pow_pos_nonneg; lia).
  assert (current_timeout p1 = Z.min (base_timeout p * 2 ^ (k + 1)) (base_timeout p * 32)) as Hc1.
  { cbn. rewrite Hc, Hm, Hpow. lia. }
  assert (pm_current_view p1 = pm_current_view p + 1) as Hv1 by (cbn; apply wrapu_id; split; lia).
  destruct (IH p1 (k + 1)) as (E1 & E2 & E3 & E4);
    [done|done|done|lia|exact Hc1|rewrite Hv1; lia|rewrite Hv1; lia|].
  rewrite Hv1 in E2. split_and!; [|lia|done|done].
  rewrite E1. change (base_timeout p1) with (base_timeout p). do 3 f_equal. lia.
Qed.

(** ** Properties *)

(** Backoff: from a fresh view (at start-up or after a decision) the timeout
    after [n] consecutive timeouts is the base doubled [n] times, capped at 32
    times the base, so after five doublings it stays; the view has advanced by
    [n]; and a decision puts the timeout back to the base. *)
Theorem backoff_doubles (self_id : id32) (safety : SafetyRule) (base_ms : Z) (t0 : Z) (nows : list Z) :
  fits 64 base_ms → Z.of_nat (length nows) < 2 ^ 64 - 1 →
  let base := base_ms * 1000000 in
  let n := Z.of_nat (length nows) in
  let p := time_outs self_id safety nows (Pacemaker.new base_ms t0) in
  current_timeout p = Z.min (base * 2 ^ n) (base * 32) ∧
  (5 ≤ n → current_timeout p = base * 32) ∧
  pm_current_view p = 1 + n ∧
  current_timeout (Pacemaker.on_decide p) = base.
Proof.
  intros Hf Hn base n p.
  assert (0 ≤ base) as Hb by (subst base; ints).
  destruct (time_outs_spec self_id safety nows (Pacemaker.new base_ms t0) 0) as (E1 & E2 & E3 & _);
    cbn [Pacemaker.new base_timeout max_timeout current_timeout pm_current_view]; fold base;
    [exact Hb| |exact eq_refl|lia|rewrite Z.pow_0_r; lia|lia|lia|].
  { subst base. unfold duration_max. ints. }
  fold n p in E1, E2, E3. cbn [Pacemaker.new base_timeout max_timeout pm_current_view] in E1, E2, E3.
  fold base in E1, E3. rewrite Z.add_0_l in E1.
  split_and!; [exact E1| |exact E2|exact E3].
  intros H5. rewrite E1. assert (2 ^ 5 ≤ 2 ^ n) by (apply Z.pow_le_mono_r; lia). nia.
Qed.

Lemma backoff_doubles_witness :
  let p := time_outs 7 SafetyRule.new [10; 20; 30] (Pacemaker.new 200 0) in
  current_timeout p = 1600000000 ∧ pm_current_view p = 4.
Proof.
  intros p. destruct (backoff_doubles 7 SafetyRule.new 200 0 [10; 20; 30]) as (E & _ & E' & _);
    [by_eval|by_eval|]. split; [exact E|exact E'].
Defined.
