(* ===== verification/HotStuff.v ===== *)
(** * The HotStuff engine

    src/poseq/src/hotstuff/engine.rs: the state machine that drives a node
    through the phases.  Each handler is a function from the engine to the engine
    and its output; the clock reading that [Instant::now()] returns is an
    argument.  [handle] collects the handlers, and [node_step] interleaves them
    with saving the safety rule, which is up to the caller (the HotStuff arms of
    src/poseq/src/networking/node_runner.rs do not save it, the arms of the
    other proposals and finalizations do), and with restarts. *)

From stdpp Require Import gmap strings list.
From S2P Require Import Prelude HotStuffTypes.

(** Ed25519 as the engine uses it (crate [ed25519_dalek]): which byte strings are
    keys and signatures, strict verification, signing. *)
Class Ed25519Strict := {
  verifying_key_ok : id32 → bool;
  signature_ok : bytes → bool;
  verify_strict : id32 → id32 → bytes → bool;
  sign_hash : id32 → id32 → bytes }.

#[local] Set Warnings "-register-all".

(* @src src/poseq/src/hotstuff/engine.rs:47-62 HotStuffOutput *)
Inductive HotStuffOutput : Type :=
| NoOutput
| SendVote (v : HotStuffVote)
| BroadcastQC (qc : QuorumCertificate)
| SendNewView (nv : NewViewMessage)
| Finalize (b : HotStuffBlock)
| Multi (l : list HotStuffOutput).

(* @src src/poseq/src/hotstuff/engine.rs:64-66 HotStuffOutput::is_none *)
Definition output_is_none (o : HotStuffOutput) : bool :=
  match o with NoOutput => true | _ => false end.

(* @src src/poseq/src/hotstuff/engine.rs:70-91 HotStuffEngine *)
Record HotStuffEngine : Type := mkEngine {
  self_id : id32;
  quorum_threshold : nat;
  safety : SafetyRule;
  pacemaker : Pacemaker;
  pending_block : option HotStuffBlock;
  votes : gmap (Z * Phase) (list HotStuffVote);
  new_views : list NewViewMessage;
  voted : gmap (Z * Phase) bool;
  decided_blocks : gmap Z id32 }.

(** Field updates. *)
Definition with_safety (f : SafetyRule → SafetyRule) (e : HotStuffEngine) : HotStuffEngine :=
  mkEngine (self_id e) (quorum_threshold e) (f (safety e)) (pacemaker e) (pending_block e)
    (votes e) (new_views e) (voted e) (decided_blocks e).
Definition with_pacemaker (f : Pacemaker → Pacemaker) (e : HotStuffEngine) : HotStuffEngine :=
  mkEngine (self_id e) (quorum_threshold e) (safety e) (f (pacemaker e)) (pending_block e)
    (votes e) (new_views e) (voted e) (decided_blocks e).
Definition with_pending (b : option HotStuffBlock) (e : HotStuffEngine) : HotStuffEngine :=
  mkEngine (self_id e) (quorum_threshold e) (safety e) (pacemaker e) b
    (votes e) (new_views e) (voted e) (decided_blocks e).
Definition with_votes (v : gmap (Z * Phase) (list HotStuffVote)) (e : HotStuffEngine)
  : HotStuffEngine :=
  mkEngine (self_id e) (quorum_threshold e) (safety e) (pacemaker e) (pending_block e)
    v (new_views e) (voted e) (decided_blocks e).
Definition with_new_views (l : list NewViewMessage) (e : HotStuffEngine) : HotStuffEngine :=
  mkEngine (self_id e) (quorum_threshold e) (safety e) (pacemaker e) (pending_block e)
    (votes e) l (voted e) (decided_blocks e).
Definition with_voted (v : gmap (Z * Phase) bool) (e : HotStuffEngine) : HotStuffEngine :=
  mkEngine (self_id e) (quorum_threshold e) (safety e) (pacemaker e) (pending_block e)
    (votes e) (new_views e) v (decided_blocks e).
Definition with_decided (d : gmap Z id32) (e : HotStuffEngine) : HotStuffEngine :=
  mkEngine (self_id e) (quorum_threshold e) (safety e) (pacemaker e) (pending_block e)
    (votes e) (new_views e) (voted e) d.

(* @src src/poseq/src/hotstuff/engine.rs:462-466 unsigned_vote_sig *)
Definition unsigned_vote_sig : bytes := [].

Definition safety_key : bytes := string_bytes "hotstuff/safety_rule".

Module HotStuffEngine.
(* @src src/poseq/src/hotstuff/engine.rs:94-106 HotStuffEngine::new *)
Definition new (self : id32) (threshold : nat) (base_timeout_ms now : Z) : HotStuffEngine :=
  mkEngine self threshold SafetyRule.new (Pacemaker.new base_timeout_ms now) None ∅ [] ∅ ∅.

(** The vote the engine returns, to be signed by its caller. *)
Definition unsigned_vote (e : HotStuffEngine) (view : Z) (block : id32) (phase : Phase)
  : HotStuffOutput := SendVote (mkVote view block phase (self_id e) unsigned_vote_sig).

(* @src src/poseq/src/hotstuff/engine.rs:110-155 HotStuffEngine::on_block *)
Definition on_block (b : HotStuffBlock) (now : Z) (e : HotStuffEngine)
  : HotStuffEngine * HotStuffOutput :=
  let view := bl_view b in
  if decide (view < pm_current_view (pacemaker e)) then (e, NoOutput) else
  let e := match justify_qc b with
           | Some qc => with_safety (SafetyRule.update_high_qc qc) e
           | None => e
           end in
  let e := with_pacemaker (Pacemaker.reset_view_timer view now) e in
  let e := with_safety (SafetyRule.advance_view view) e in
  if negb (SafetyRule.safe_to_vote (safety e) b) then (e, NoOutput) else
  let e := with_pending (Some b) e in
  match voted e !! (view, Prepare) with
  | Some _ => (e, NoOutput)
  | None =>
      let e := with_voted (<[(view, Prepare) := true]> (voted e)) e in
      let e := with_safety (SafetyRule.record_vote view) e in
      let e := with_pacemaker Pacemaker.on_voted e in
      (e, unsigned_vote e view (block_id b) Prepare)
  end.

(* @src src/poseq/src/hotstuff/engine.rs:193-221 HotStuffEngine::on_vote *)
Definition quorum_output (qc : QuorumCertificate) (vote : HotStuffVote) (e : HotStuffEngine)
  : HotStuffEngine * HotStuffOutput :=
  match vt_phase vote with
  | Prepare => (with_safety (SafetyRule.update_high_qc qc) e, BroadcastQC qc)
  | PreCommit => (with_safety (SafetyRule.lock_on qc) e, BroadcastQC qc)
  | Commit =>
      match pending_block e with
      | Some b =>
          if decide (block_id b = vt_block_id vote) then
            match decided_blocks e !! vt_view vote with
            | Some _ => (e, NoOutput)
            | None =>
                let e := with_decided (<[vt_view vote := block_id b]> (decided_blocks e)) e in
                (with_pacemaker Pacemaker.on_decide e, Multi [BroadcastQC qc; Finalize b])
            end
          else (e, BroadcastQC qc)
      | None => (e, BroadcastQC qc)
      end
  | Decide => (e, NoOutput)
  end.

(* @src src/poseq/src/hotstuff/engine.rs:157-221 HotStuffEngine::on_vote *)
Definition on_vote (vote : HotStuffVote) (e : HotStuffEngine) : HotStuffEngine * HotStuffOutput :=
  let key := (vt_view vote, vt_phase vote) in
  let entry := default [] (votes e !! key) in
  if existsb (λ v, bool_decide (voter_id v = voter_id vote)) entry then (e, NoOutput) else
  let entry := entry ++ [vote] in
  let e := with_votes (<[key := entry]> (votes e)) e in
  if decide (length entry < quorum_threshold e)%nat then (e, NoOutput) else
  let sigs := (λ v, (voter_id v, vt_signature v)) <$> entry in
  let qc := mkQC (vt_view vote) (vt_block_id vote) (vt_phase vote) sigs in
  quorum_output qc vote e.

(* @src src/poseq/src/hotstuff/engine.rs:223-270 HotStuffEngine::on_qc *)
Definition on_qc (qc : QuorumCertificate) (e : HotStuffEngine) : HotStuffEngine * HotStuffOutput :=
  let view := qc_view qc in
  match Phase.next (qc_phase qc) with
  | None => (e, NoOutput)
  | Some next_phase =>
      let e := with_safety (SafetyRule.update_high_qc qc) e in
      let e := if decide (qc_phase qc = PreCommit)
               then with_safety (SafetyRule.lock_on qc) e else e in
      match voted e !! (view, next_phase) with
      | Some _ => (e, NoOutput)
      | None =>
          if decide (qc_phase qc = Commit) then
            match pending_block e with
            | Some b =>
                if decide (block_id b = qc_block_id qc) then
                  match decided_blocks e !! view with
                  | None =>
                      let e := with_decided (<[view := block_id b]> (decided_blocks e)) e in
                      (with_pacemaker Pacemaker.on_decide e, Finalize b)
                  | Some _ => (e, NoOutput)
                  end
                else (e, NoOutput)
            | None => (e, NoOutput)
            end
          else
            let e := with_voted (<[(view, next_phase) := true]> (voted e)) e in
            let e := with_safety (SafetyRule.record_vote view) e in
            (e, unsigned_vote e view (qc_block_id qc) next_phase)
      end
  end.

(** [pending.map(|b| b.view) < Some(v)]: [None] is below every [Some]. *)
(* @src src/poseq/src/hotstuff/engine.rs:404-414 HotStuffEngine::clear_view_state *)
Definition clear_view_state (e : HotStuffEngine) : HotStuffEngine :=
  let v := pm_current_view (pacemaker e) in
  let e := with_votes (filter (λ p, v ≤ p.1.1) (votes e)) e in
  let e := with_voted (filter (λ p, v ≤ p.1.1) (voted e)) e in
  let e := with_new_views [] e in
  match pending_block e with
  | Some b => if decide (bl_view b < v) then with_pending None e else e
  | None => with_pending None e
  end.

(* @src src/poseq/src/hotstuff/engine.rs:272-302 HotStuffEngine::on_new_view *)
Definition on_new_view (nv : NewViewMessage) (now : Z) (e : HotStuffEngine)
  : HotStuffEngine * HotStuffOutput :=
  if existsb (λ n, bool_decide (sender_id n = sender_id nv)) (new_views e) then (e, NoOutput) else
  let e := with_new_views (new_views e ++ [nv]) e in
  let e := match Pacemaker.select_high_qc (new_views e) with
           | Some best => with_safety (SafetyRule.update_high_qc best) e
           | None => e
           end in
  if negb (Pacemaker.new_view_quorum_reached (new_views e) (quorum_threshold e))
  then (e, NoOutput) else
  let e := with_pacemaker (Pacemaker.reset_view_timer (new_view nv) now) e in
  let e := with_safety (SafetyRule.advance_view (new_view nv)) e in
  (clear_view_state e, NoOutput).

(* @src src/poseq/src/hotstuff/engine.rs:304-311 HotStuffEngine::on_timeout *)
Definition on_timeout (now : Z) (e : HotStuffEngine) : HotStuffEngine * HotStuffOutput :=
  let '(pm, nv) := Pacemaker.advance_view (self_id e) (safety e) now (pacemaker e) in
  (clear_view_state (with_pacemaker (λ _, pm) e), SendNewView nv).

(* @src src/poseq/src/hotstuff/engine.rs:313-337 HotStuffEngine::propose *)
Definition propose `{Sha256} (parent root : id32) (ids : list id32) (e : HotStuffEngine)
  : HotStuffEngine * HotStuffBlock :=
  let view := pm_current_view (pacemaker e) in
  let b := mkBlock (HotStuffBlock.compute_id parent root view (self_id e)) parent view
             (self_id e) root ids (Some (high_qc (safety e))) in
  (with_pending (Some b) e, b).

(* @src src/poseq/src/hotstuff/engine.rs:341-349 HotStuffEngine::submit_verified_vote *)
Definition submit_verified_vote (vote : HotStuffVote) (e : HotStuffEngine)
  : HotStuffEngine * HotStuffOutput := on_vote vote e.

(** The checks on one signature of a certificate. *)
(* @src src/poseq/src/hotstuff/engine.rs:370-388 HotStuffEngine::verify_qc *)
Definition signature_valid `{Ed25519Strict} (pubkey_lookup : id32 → option id32) (hash : id32)
    (s : id32 * bytes) : bool :=
  match pubkey_lookup s.1 with
  | None => false
  | Some pk =>
      verifying_key_ok pk && bool_decide (length s.2 = 64)%nat && signature_ok s.2 &&
      verify_strict pk hash s.2
  end.

(** The loop's state: the signers seen and the valid count. *)
(* @src src/poseq/src/hotstuff/engine.rs:365-388 HotStuffEngine::verify_qc *)
Fixpoint count_valid `{Ed25519Strict} (pubkey_lookup : id32 → option id32) (hash : id32)
    (sigs : list (id32 * bytes)) (seen : gset id32) : nat :=
  match sigs with
  | [] => 0
  | s :: sigs =>
      if decide (s.1 ∈ seen) then count_valid pubkey_lookup hash sigs seen
      else ((if signature_valid pubkey_lookup hash s then 1 else 0) +
            count_valid pubkey_lookup hash sigs ({[s.1]} ∪ seen))%nat
  end.

(* @src src/poseq/src/hotstuff/engine.rs:351-390 HotStuffEngine::verify_qc *)
Definition verify_qc `{Sha256, Ed25519Strict} (qc : QuorumCertificate)
    (pubkey_lookup : id32 → option id32) (e : HotStuffEngine) : bool :=
  let hash := QuorumCertificate.vote_hash (qc_view qc) (qc_block_id qc) (qc_phase qc) in
  bool_decide (quorum_threshold e ≤ count_valid pubkey_lookup hash (signatures qc) ∅)%nat.

(* @src src/poseq/src/hotstuff/engine.rs:392-400 HotStuffEngine::sign_vote *)
Definition sign_vote `{Sha256, Ed25519Strict} (seed : id32) (v : HotStuffVote) : HotStuffVote :=
  mkVote (vt_view v) (vt_block_id v) (vt_phase v) (voter_id v)
    (sign_hash seed (HotStuffVote.vote_hash v)).

Section persistence.
Context `{SafetyBincode} {B : Type} `{PersistenceBackend B}.

(* @src src/poseq/src/hotstuff/engine.rs:416-423 HotStuffEngine::persist_safety_rule *)
Definition persist_safety_rule (e : HotStuffEngine) (store : B) : B :=
  backend_flush (backend_put safety_key (SafetyRule.to_bytes (safety e)) store).

(* @src src/poseq/src/hotstuff/engine.rs:425-441 HotStuffEngine::restore_safety_rule *)
Definition restore_safety_rule (store : B) (now : Z) (e : HotStuffEngine) : HotStuffEngine * bool :=
  match backend_get safety_key store with
  | Some l =>
      match SafetyRule.from_bytes l with
      | Some rule =>
          let e := with_safety (λ _, rule) e in
          (with_pacemaker (Pacemaker.reset_view_timer (sr_current_view rule) now) e, true)
      | None => (e, false)
      end
  | None => (e, false)
  end.
End persistence.

(* @src src/poseq/src/hotstuff/engine.rs:443-445 HotStuffEngine::current_view *)
Definition current_view (e : HotStuffEngine) : Z := pm_current_view (pacemaker e).

(* @src src/poseq/src/hotstuff/engine.rs:447-449 HotStuffEngine::is_timed_out *)
Definition is_timed_out (now : Z) (e : HotStuffEngine) : bool :=
  Pacemaker.is_timed_out (pacemaker e) now.
End HotStuffEngine.

(** ** Runs of an engine *)

Section runs.
Context `{Sha256}.

Inductive input : Type :=
| InBlock (b : HotStuffBlock)
| InVote (v : HotStuffVote)
| InQC (qc : QuorumCertificate)
| InNewView (nv : NewViewMessage)
| InTimeout
| InPropose (parent root : id32) (ids : list id32).

(** One call at clock reading [now]. *)
Definition handle (now : Z) (i : input) (e : HotStuffEngine) : HotStuffEngine * HotStuffOutput :=
  match i with
  | InBlock b => HotStuffEngine.on_block b now e
  | InVote v => HotStuffEngine.submit_verified_vote v e
  | InQC qc => HotStuffEngine.on_qc qc e
  | InNewView nv => HotStuffEngine.on_new_view nv now e
  | InTimeout => HotStuffEngine.on_timeout now e
  | InPropose parent root ids => ((HotStuffEngine.propose parent root ids e).1, NoOutput)
  end.

(** The events of a node: a call of a handler, which saves nothing; the caller's
    saving of the safety rule; and a restart from the store. *)
Inductive event : Type :=
| Call (now : Z) (i : input)
| Save
| Reboot (base_timeout_ms now : Z).

Context `{SafetyBincode} {B : Type} `{PersistenceBackend B}.

Definition node : Type := HotStuffEngine * B.

Definition node_step (ev : event) (n : node) : node * HotStuffOutput :=
  match ev with
  | Call now i => let '(e, o) := handle now i n.1 in ((e, n.2), o)
  | Save => ((n.1, HotStuffEngine.persist_safety_rule n.1 n.2), NoOutput)
  | Reboot ms now =>
      let e := HotStuffEngine.new (self_id n.1) (quorum_threshold n.1) ms now in
      (((HotStuffEngine.restore_safety_rule n.2 now e).1, n.2), NoOutput)
  end.

(** The outputs of a sequence of events, in order. *)
Fixpoint node_run (evs : list event) (n : node) : node * list HotStuffOutput :=
  match evs with
  | [] => (n, [])
  | ev :: evs =>
      let '(n, o) := node_step ev n in
      let '(n, os) := node_run evs n in (n, o :: os)
  end.

(** Whether what a node knew is still known after [evs]: nothing but calls
    happened, or the safety rule was saved before the first restart. *)
Fixpoint remembers (evs : list event) : bool :=
  match evs with
  | [] | Save :: _ => true
  | Call _ _ :: evs => remembers evs
  | Reboot _ _ :: _ => false
  end.

(** A node at its first start. *)
Definition node_start (self : id32) (threshold : nat) (ms now : Z) (store : B) : node :=
  (HotStuffEngine.new self threshold ms now, store).
End runs.
