(* ===== verification/HotStuffSafety.v ===== *)
(** * Safety of the HotStuff engine

    The safety rule only moves forward between restarts, and a restart gives back
    the rule last saved; so Prepare votes are cast in strictly increasing views
    unless a restart lost the record of the earlier vote, and then they need not
    be ([unsaved_restart_votes_twice]). *)

From stdpp Require Import gmap strings list sorting.
From S2P Require Import Prelude Concrete HotStuffTypes HotStuff.

(** ** The order on safety rules *)

Record safety_le (s s' : SafetyRule) : Prop := {
  le_locked : qc_view (locked_qc s) ≤ qc_view (locked_qc s');
  le_high : qc_view (high_qc s) ≤ qc_view (high_qc s');
  le_current : sr_current_view s ≤ sr_current_view s';
  le_voted : last_voted_view s ≤ last_voted_view s' }.

#[export] Instance safety_le_preorder : PreOrder safety_le.
Proof. split; [by split|]. intros s1 s2 s3 [] []. split; lia. Qed.

(** [HighQC.view >= LockedQC.view] *)
Definition safety_inv (s : SafetyRule) : Prop := qc_view (locked_qc s) ≤ qc_view (high_qc s).

Lemma record_vote_le v s : safety_le s (SafetyRule.record_vote v s).
Proof. unfold SafetyRule.record_vote. case_decide; split; cbn; lia. Qed.
Lemma update_high_qc_le qc s : safety_le s (SafetyRule.update_high_qc qc s).
Proof. unfold SafetyRule.update_high_qc. case_decide; split; cbn; lia. Qed.
Lemma lock_on_le qc s : safety_le s (SafetyRule.lock_on qc s).
Proof.
  unfold SafetyRule.lock_on, SafetyRule.update_high_qc. repeat case_decide; split; cbn in *; lia.
Qed.
Lemma advance_view_le v s : safety_le s (SafetyRule.advance_view v s).
Proof. unfold SafetyRule.advance_view. case_decide; split; cbn; lia. Qed.

Lemma record_vote_inv v s : safety_inv s → safety_inv (SafetyRule.record_vote v s).
Proof. unfold safety_inv, SafetyRule.record_vote. by case_decide. Qed.
Lemma update_high_qc_inv qc s : safety_inv s → safety_inv (SafetyRule.update_high_qc qc s).
Proof. unfold safety_inv, SafetyRule.update_high_qc. case_decide; cbn; lia. Qed.
Lemma lock_on_inv qc s : safety_inv s → safety_inv (SafetyRule.lock_on qc s).
Proof.
  unfold safety_inv, SafetyRule.lock_on, SafetyRule.update_high_qc.
  repeat case_decide; cbn in *; lia.
Qed.
Lemma advance_view_inv v s : safety_inv s → safety_inv (SafetyRule.advance_view v s).
Proof. unfold safety_inv, SafetyRule.advance_view. by case_decide. Qed.

Create HintDb hotstuff.
#[export] Hint Resolve record_vote_le update_high_qc_le lock_on_le advance_view_le
  record_vote_inv update_high_qc_inv lock_on_inv advance_view_inv : hotstuff.

Lemma record_vote_ge v s : v ≤ last_voted_view (SafetyRule.record_vote v s).
Proof. unfold SafetyRule.record_vote. case_decide; cbn; lia. Qed.

(** ** The handlers *)

(** The safety rule moves from [s] to [s']. *)
Definition safety_step (s s' : SafetyRule) : Prop :=
  safety_le s s' ∧ (safety_inv s → safety_inv s').

#[export] Instance safety_step_preorder : PreOrder safety_step.
Proof.
  split; [by split|]. intros s1 s2 s3 [H1 I1] [H2 I2]. split; [by etrans|auto].
Qed.

Lemma step_record v s : safety_step s (SafetyRule.record_vote v s).
Proof. split; auto with hotstuff. Qed.
Lemma step_high qc s : safety_step s (SafetyRule.update_high_qc qc s).
Proof. split; auto with hotstuff. Qed.
Lemma step_lock qc s : safety_step s (SafetyRule.lock_on qc s).
Proof. split; auto with hotstuff. Qed.
Lemma step_advance v s : safety_step s (SafetyRule.advance_view v s).
Proof. split; auto with hotstuff. Qed.
#[export] Hint Resolve step_record step_high step_lock step_advance : hotstuff.

Lemma clear_safety e : safety (HotStuffEngine.clear_view_state e) = safety e.
Proof. unfold HotStuffEngine.clear_view_state. by repeat case_match. Qed.

(** What every call does to the safety rule, and to identity and quorum. *)
Ltac safety_chain :=
  cbn; first [reflexivity | solve [eauto 3 with hotstuff]
    | etrans; [|solve [eauto 3 with hotstuff]]; safety_chain].

Lemma on_block_step b now e : safety_step (safety e) (safety (HotStuffEngine.on_block b now e).1).
Proof.
  unfold HotStuffEngine.on_block. case_decide; [reflexivity|].
  destruct (justify_qc b); (destruct (negb _); [safety_chain|]);
    destruct (voted _ !! _); safety_chain.
Qed.

Lemma on_vote_step v e : safety_step (safety e) (safety (HotStuffEngine.on_vote v e).1).
Proof.
  unfold HotStuffEngine.on_vote, HotStuffEngine.quorum_output.
  destruct (existsb _ _); [reflexivity|]. case_decide; [reflexivity|].
  destruct (vt_phase v); [safety_chain|safety_chain| |reflexivity].
  destruct (pending_block _); [|reflexivity]. case_decide; [|reflexivity].
  destruct (decided_blocks _ !! _); reflexivity.
Qed.

Lemma on_qc_step qc e : safety_step (safety e) (safety (HotStuffEngine.on_qc qc e).1).
Proof.
  unfold HotStuffEngine.on_qc. destruct (Phase.next _) as [ph|]; [|reflexivity].
  destruct (decide (qc_phase qc = PreCommit)); (destruct (voted _ !! _); [safety_chain|]);
    (case_decide; [|safety_chain]); (destruct (pending_block _); [|safety_chain]);
    (case_decide; [|safety_chain]); destruct (decided_blocks _ !! _); safety_chain.
Qed.

Lemma on_new_view_step nv now e :
  safety_step (safety e) (safety (HotStuffEngine.on_new_view nv now e).1).
Proof.
  unfold HotStuffEngine.on_new_view. destruct (existsb _ _); [reflexivity|].
  destruct (Pacemaker.select_high_qc _); (destruct (negb _); [safety_chain|]);
    cbn [fst]; rewrite clear_safety; safety_chain.
Qed.

Lemma on_timeout_safety now e : safety (HotStuffEngine.on_timeout now e).1 = safety e.
Proof. unfold HotStuffEngine.on_timeout. cbn. by rewrite clear_safety. Qed.

Lemma handle_step `{Sha256} now i e : safety_step (safety e) (safety (handle now i e).1).
Proof.
  destruct i; cbn [handle].
  - apply on_block_step.
  - apply on_vote_step.
  - apply on_qc_step.
  - apply on_new_view_step.
  - by rewrite on_timeout_safety.
  - reflexivity.
Qed.

(** ** Votes *)

Fixpoint sent_votes (o : HotStuffOutput) : list HotStuffVote :=
  match o with
  | SendVote v => [v]
  | Multi l => flat_map sent_votes l
  | _ => []
  end.

(** The views of the Prepare votes among the outputs, in order. *)
Definition prepare_views (os : list HotStuffOutput) : list Z :=
  vt_view <$> filter (λ v, vt_phase v = Prepare) (concat (sent_votes <$> os)).

(** When a block gets the vote. *)
Definition votable (b : HotStuffBlock) (e : HotStuffEngine) : Prop :=
  pm_current_view (pacemaker e) ≤ bl_view b ∧ last_voted_view (safety e) < bl_view b ∧
  (parent_id b = qc_block_id (locked_qc (safety e)) ∨
   (∃ j, justify_qc b = Some j ∧ qc_view (locked_qc (safety e)) < qc_view j) ∨
   parent_id b = 0) ∧
  voted e !! (bl_view b, Prepare) = None.

Lemma safe_to_vote_true s b :
  SafetyRule.safe_to_vote s b = true ↔
  last_voted_view s < bl_view b ∧
  (parent_id b = qc_block_id (locked_qc s) ∨
   (∃ j, justify_qc b = Some j ∧ qc_view (locked_qc s) < qc_view j) ∨ parent_id b = 0).
Proof.
  unfold SafetyRule.safe_to_vote, HotStuffBlock.extends_direct. case_decide as Hv.
  { split; [done|]. intros [? _]. lia. }
  case_bool_decide as He; [split; [intros _; split; [lia|by left]|done]|].
  destruct (justify_qc b) as [j|]; [case_bool_decide as Hj|]; rewrite ?bool_decide_eq_true.
  - split; [intros _|done]. split; [lia|]. right. left. by exists j.
  - split; [intros E; split; [lia|by right; right]|]. intros [_ [|[(j' & [= <-] & ?)|]]]; done.
  - split; [intros E; split; [lia|by right; right]|]. intros [_ [|[(j' & [=] & ?)|]]]; done.
Qed.

(** The safety rule and the votes when [on_block] reaches its safety check. *)
Definition before_vote (b : HotStuffBlock) (now : Z) (e : HotStuffEngine) : HotStuffEngine :=
  with_safety (SafetyRule.advance_view (bl_view b))
    (with_pacemaker (Pacemaker.reset_view_timer (bl_view b) now)
      match justify_qc b with
      | Some qc => with_safety (SafetyRule.update_high_qc qc) e
      | None => e
      end).

Lemma before_vote_safety b now e :
  locked_qc (safety (before_vote b now e)) = locked_qc (safety e) ∧
  last_voted_view (safety (before_vote b now e)) = last_voted_view (safety e) ∧
  voted (before_vote b now e) = voted e ∧ self_id (before_vote b now e) = self_id e.
Proof.
  unfold before_vote, SafetyRule.advance_view, SafetyRule.update_high_qc.
  destruct (justify_qc b); cbn; repeat case_decide; done.
Qed.

Lemma on_block_votes b now e :
  let '(e', o) := HotStuffEngine.on_block b now e in
  (votable b e ∧ o = HotStuffEngine.unsigned_vote e (bl_view b) (block_id b) Prepare ∧
   pending_block e' = Some b ∧ voted e' = <[(bl_view b, Prepare) := true]> (voted e) ∧
   last_voted_view (safety e') = bl_view b) ∨
  (¬ votable b e ∧ o = NoOutput ∧ voted e' = voted e ∧
   last_voted_view (safety e') = last_voted_view (safety e)).
Proof.
  unfold HotStuffEngine.on_block. fold (before_vote b now e).
  destruct (before_vote_safety b now e) as (El & Ev & Evo & Eid).
  remember (before_vote b now e) as e1 eqn:E1. clear E1. unfold votable. case_decide; [right; split; [intros (? & _); lia|done]|].
  pose proof (safe_to_vote_true (safety e1) b) as Hs.
  rewrite El, Ev in Hs.
  destruct (SafetyRule.safe_to_vote (safety e1) b) eqn:Es; cbn [negb].
  - destruct (proj1 Hs eq_refl) as [Hlast Hsafe]. cbn [voted with_pending]. rewrite Evo.
    destruct (voted e !! (bl_view b, Prepare)) eqn:Evd.
    + right. split; [intros (_ & _ & _ & ?); done|]. done.
    + left. split; [split_and!; [lia|done..]|].
      unfold HotStuffEngine.unsigned_vote. cbn.
      rewrite Eid. split_and!; [done..|]. unfold SafetyRule.record_vote. rewrite Ev, decide_True by lia. done.
  - right. split; [intros (_ & ? & ? & _)|done]. by assert (false = true) by (apply Hs; auto).
Qed.

Lemma prepare_views_other v : vt_phase v ≠ Prepare → prepare_views [SendVote v] = [].
Proof.
  intros Hv. change (prepare_views [SendVote v]) with
    (vt_view <$> filter (λ v, vt_phase v = Prepare) [v]).
  by rewrite filter_cons_False, filter_nil.
Qed.

Lemma on_qc_votes qc e :
  prepare_views [(HotStuffEngine.on_qc qc e).2] = [].
Proof.
  unfold HotStuffEngine.on_qc. destruct (Phase.next (qc_phase qc)) as [ph|] eqn:Ep; [|done].
  assert (ph ≠ Prepare) as Hp by (destruct (qc_phase qc); cbn in Ep; congruence).
  destruct (voted _ !! _); [done|]. case_decide.
  - destruct (pending_block _); [|done]. case_decide; [|done]. by destruct (decided_blocks _ !! _).
  - by apply prepare_views_other.
Qed.

Lemma on_vote_votes v e : prepare_views [(HotStuffEngine.on_vote v e).2] = [].
Proof.
  unfold HotStuffEngine.on_vote, HotStuffEngine.quorum_output.
  repeat (case_decide || case_match || done).
Qed.

Lemma on_new_view_votes nv now e : prepare_views [(HotStuffEngine.on_new_view nv now e).2] = [].
Proof. unfold HotStuffEngine.on_new_view. by repeat case_match. Qed.

Lemma handle_prepare `{Sha256} now i e :
  let '(e', o) := handle now i e in
  prepare_views [o] = [] ∨
  ∃ v, prepare_views [o] = [v] ∧ last_voted_view (safety e) < v ≤ last_voted_view (safety e').
Proof.
  destruct i; cbn [handle].
  - pose proof (on_block_votes b now e) as Hb. destruct (HotStuffEngine.on_block b now e) as [e' o].
    destruct Hb as [((_ & Hlt & _) & -> & _ & _ & ->)|(_ & -> & _)]; [right|by left].
    exists (bl_view b). split; [done|]. lia.
  - pose proof (on_vote_votes v e). unfold HotStuffEngine.submit_verified_vote.
    destruct (HotStuffEngine.on_vote v e). by left.
  - pose proof (on_qc_votes qc e). destruct (HotStuffEngine.on_qc qc e). by left.
  - pose proof (on_new_view_votes nv now e). destruct (HotStuffEngine.on_new_view nv now e). by left.
  - unfold HotStuffEngine.on_timeout. destruct (Pacemaker.advance_view _ _ _ _). by left.
  - by left.
Qed.

(** ** Nodes: persistence and restarts *)

Section node.
Context `{Sha256, SafetyBincodeLaws} {B : Type} `{BackendLaws B}.

(** What the store holds, if anything, is a safety rule with [P]. *)
Definition stored (P : SafetyRule → Prop) (store : B) : Prop :=
  match backend_get safety_key store with
  | Some l => ∃ s, SafetyRule.from_bytes l = Some s ∧ P s
  | None => False
  end.

Lemma persist_get e (store : B) :
  backend_get safety_key (HotStuffEngine.persist_safety_rule e store) =
  Some (SafetyRule.to_bytes (safety e)).
Proof.
  unfold HotStuffEngine.persist_safety_rule.
  by rewrite backend_get_flush, backend_get_put, decide_True by done.
Qed.

Lemma persist_stored P e (store : B) :
  P (safety e) → stored P (HotStuffEngine.persist_safety_rule e store).
Proof.
  intros HP. unfold stored. rewrite persist_get. exists (safety e).
  split; [apply decode_encode_safety|done].
Qed.

Lemma reboot_stored P ms now n :
  stored P n.2 → P (safety (node_step (Reboot ms now) n).1.1).
Proof.
  unfold stored, node_step, HotStuffEngine.restore_safety_rule. cbn [fst snd].
  destruct (backend_get safety_key n.2) as [l|]; [|done]. by intros (s & -> & HP).
Qed.

Lemma reboot_empty ms now n :
  backend_get safety_key n.2 = None →
  safety (node_step (Reboot ms now) n).1.1 = SafetyRule.new.
Proof. unfold node_step, HotStuffEngine.restore_safety_rule. cbn [fst snd]. by intros ->. Qed.

Lemma call_step now i n :
  safety_step (safety n.1) (safety (node_step (Call now i) n).1.1) ∧
  (node_step (Call now i) n).1.2 = n.2.
Proof.
  cbn [node_step]. pose proof (handle_step now i n.1) as Hh. by destruct (handle now i n.1) as [e o].
Qed.

(** A statement about the safety rule that the handlers keep. *)
Definition kept (P : SafetyRule → Prop) : Prop := ∀ s s', safety_step s s' → P s → P s'.

Lemma node_run_cons ev evs n :
  node_run (ev :: evs) n =
  ((node_run evs (node_step ev n).1).1, (node_step ev n).2 :: (node_run evs (node_step ev n).1).2).
Proof. cbn. destruct (node_step ev n) as [n1 o]. cbn. by destruct (node_run evs n1). Qed.

(** Once saved it is never lost. *)
Lemma node_run_durable P evs n : kept P →
  P (safety n.1) → stored P n.2 →
  P (safety (node_run evs n).1.1) ∧ stored P (node_run evs n).1.2.
Proof.
  intros HK. revert n. induction evs as [|ev evs IH]; intros n HP Hst; [done|].
  rewrite node_run_cons. cbn [fst]. destruct ev as [now i| |ms now].
  - destruct (call_step now i n) as [Hs E]. apply IH; [by eapply HK|by rewrite E].
  - apply IH; [done|]. by apply persist_stored.
  - apply IH; [by apply reboot_stored|done].
Qed.

(** And it is known as long as the events remember. *)
Lemma node_run_remembers P evs n : kept P →
  remembers evs = true → P (safety n.1) → P (safety (node_run evs n).1.1).
Proof.
  intros HK. revert n. induction evs as [|ev evs IH]; intros n Hr HP; [done|].
  destruct ev as [now i| |ms now]; [| |done]; rewrite node_run_cons; cbn [fst].
  - apply IH; [done|]. by eapply HK, HP; apply call_step.
  - apply node_run_durable; [done|done|]. by apply persist_stored.
Qed.

(** What holds of the fresh rule and is kept holds on every run. *)
Lemma node_run_rule P evs n : kept P → P SafetyRule.new →
  P (safety n.1) → (backend_get safety_key n.2 = None ∨ stored P n.2) →
  P (safety (node_run evs n).1.1).
Proof.
  intros HK Hnew. revert n. induction evs as [|ev evs IH]; intros n HP Hst; [done|].
  rewrite node_run_cons. cbn [fst]. destruct ev as [now i| |ms now].
  - destruct (call_step now i n) as [Hs E]. apply IH; [by eapply HK|by rewrite E].
  - apply IH; [done|]. right. by apply persist_stored.
  - apply IH; [|done]. destruct Hst as [Hst|Hst]; [by rewrite reboot_empty|by apply reboot_stored].
Qed.

Lemma kept_voted v : kept (λ s, v ≤ last_voted_view s).
Proof. intros s s' [[_ _ _ Hle] _] Hv. cbn in *. lia. Qed.

Lemma node_step_prepare ev n :
  prepare_views [(node_step ev n).2] = [] ∨
  ∃ v, prepare_views [(node_step ev n).2] = [v] ∧
    last_voted_view (safety n.1) < v ≤ last_voted_view (safety (node_step ev n).1.1).
Proof.
  destruct ev as [now i| |ms now]; [|by left|by left].
  cbn [node_step]. pose proof (handle_prepare now i n.1) as Hh.
  by destruct (handle now i n.1) as [e o].
Qed.

Lemma node_run_output evs n i o :
  (node_run evs n).2 !! i = Some o →
  ∃ ev, evs !! i = Some ev ∧ o = (node_step ev (node_run (take i evs) n).1).2.
Proof.
  revert n i. induction evs as [|ev evs IH]; intros n i; [done|].
  rewrite node_run_cons. cbn [snd]. destruct i as [|i]; cbn [lookup list_lookup take].
  - intros [= <-]. by exists ev.
  - intros Hi. destruct (IH _ _ Hi) as (ev' & ? & ->). exists ev'. split; [done|].
    by rewrite node_run_cons.
Qed.

Lemma node_run_app evs1 evs2 n :
  (node_run (evs1 ++ evs2) n).1 = (node_run evs2 (node_run evs1 n).1).1.
Proof.
  revert n. induction evs1 as [|ev evs1 IH]; intros n; [done|].
  cbn [app]. rewrite !node_run_cons. cbn [fst]. apply IH.
Qed.

Lemma node_run_vote_known evs n i j o v :
  (node_run evs n).2 !! i = Some o → v ∈ prepare_views [o] → (i < j)%nat →
  remembers (take (j - S i) (drop (S i) evs)) = true →
  v ≤ last_voted_view (safety (node_run (take j evs) n).1.1).
Proof.
  intros (ev & Hev & ->)%node_run_output Hv Hij Hr.
  assert (take j evs = take i evs ++ ev :: take (j - S i) (drop (S i) evs)) as ->.
  { pose proof (lookup_lt_Some _ _ _ Hev). rewrite <-(take_drop_middle evs i ev Hev) at 1.
    rewrite take_app_ge; rewrite length_take, Nat.min_l by lia; [|lia].
    by replace (j - i)%nat with (S (j - S i))%nat by lia. }
  rewrite node_run_app, node_run_cons. cbn [fst].
  apply (node_run_remembers (λ s, v ≤ last_voted_view s)); [apply kept_voted|done|].
  destruct (node_step_prepare ev (node_run (take i evs) n).1) as [E|(w & E & _ & Hw)];
    rewrite E in Hv; [by apply not_elem_of_nil in Hv|].
  apply list_elem_of_singleton in Hv. by subst w.
Qed.

(** ** Properties *)

(** C8: No equivocation in Prepare, as far as the record of the last vote
    survives: in any sequence of handler calls, saves of the safety rule and
    restarts, a Prepare vote is in a higher view than an earlier one whenever
    nothing but calls lies between the two, or the safety rule was saved between
    the earlier one and the first restart after it, whatever else happened
    since; and each call casts at most one.  Saving is an event of its own: the
    handlers do not save, and after an unsaved vote nothing is promised across
    a restart. *)
Theorem prepare_votes_increase (n : node (B := B)) (evs : list event) (i j : nat)
    (o o' : HotStuffOutput) (v v' : Z) :
  (node_run evs n).2 !! i = Some o → (node_run evs n).2 !! j = Some o' → (i < j)%nat →
  remembers (take (j - S i) (drop (S i) evs)) = true →
  v ∈ prepare_views [o] → v' ∈ prepare_views [o'] →
  v < v' ∧ prepare_views [o] = [v] ∧ prepare_views [o'] = [v'].
Proof.
  intros Hi Hj Hij Hr Hv Hv'. pose proof (node_run_vote_known evs n i j o v Hi Hv Hij Hr) as Hle.
  destruct (node_run_output _ _ _ _ Hi) as (ev & _ & ->).
  destruct (node_run_output _ _ _ _ Hj) as (ev' & _ & ->).
  destruct (node_step_prepare ev (node_run (take i evs) n).1) as [E|(w & E & _)];
    rewrite E in Hv |- *; [by apply not_elem_of_nil in Hv|].
  destruct (node_step_prepare ev' (node_run (take j evs) n).1) as [E'|(w' & E' & Hlt & _)];
    rewrite E' in Hv' |- *; [by apply not_elem_of_nil in Hv'|].
  apply list_elem_of_singleton in Hv, Hv'. subst w w'. split_and!; [lia|done|done].
Qed.

(** Between restarts the safety rule only moves forward: the locked view, the
    highest certified view, the current view and the last voted view never
    decrease; and the highest certified view is never below the locked one,
    restarts included. *)
Theorem safety_rule_monotone self threshold ms now (store : B) (evs1 evs2 : list event) :
  backend_get safety_key store = None → Forall (λ ev, ∀ ms now, ev ≠ Reboot ms now) evs2 →
  let n1 := (node_run evs1 (node_start self threshold ms now store)).1 in
  let n2 := (node_run evs2 n1).1 in
  safety_le (safety n1.1) (safety n2.1) ∧
  qc_view (locked_qc (safety n2.1)) ≤ qc_view (high_qc (safety n2.1)).
Proof.
  intros Hst Hev n1 n2. split.
  - subst n2. generalize n1 as n. clear n1. induction Hev as [|ev evs Hne _ IH]; intros n; [done|].
    rewrite node_run_cons. cbn [fst]. etrans; [|apply IH].
    destruct ev as [now' i| |ms' now']; [apply (call_step now' i n)|done|].
    by destruct (Hne ms' now').
  - subst n2 n1. rewrite <-node_run_app. apply (node_run_rule safety_inv);
      [by intros s s' [_ Hs]|by cbn|by cbn|by left].
Qed.

(** A restart gives back exactly the safety rule last saved, however many calls
    came after, and starts in its view. *)
Theorem restart_restores (n : node (B := B)) (calls : list (Z * input)) ms now :
  let n' := (node_run (Save :: ((λ c, Call c.1 c.2) <$> calls)) n).1 in
  let r := (node_step (Reboot ms now) n').1.1 in
  safety r = safety n.1 ∧
  pm_current_view (pacemaker r) = Z.max 1 (sr_current_view (safety n.1)).
Proof.
  intros n' r.
  assert (backend_get safety_key n'.2 = Some (SafetyRule.to_bytes (safety n.1))) as E.
  { subst n'. rewrite node_run_cons. cbn [fst node_step].
    transitivity (backend_get safety_key (HotStuffEngine.persist_safety_rule n.1 n.2));
      [|apply persist_get].
    change (HotStuffEngine.persist_safety_rule n.1 n.2) with
      (n.1, HotStuffEngine.persist_safety_rule n.1 n.2).2 at 2.
    generalize (n.1, HotStuffEngine.persist_safety_rule n.1 n.2) as m. clear r.
    induction calls as [|[t i] calls IH]; intros m; [done|].
    cbn [fmap list_fmap]. rewrite node_run_cons. cbn [fst snd]. rewrite IH.
    f_equal. apply call_step. }
  subst r. unfold node_step, HotStuffEngine.restore_safety_rule. cbn [fst snd].
  rewrite E. rewrite decode_encode_safety. cbn. split; [done|].
  unfold Pacemaker.reset_view_timer. cbn. case_decide; cbn; lia.
Qed.

(** A block gets a Prepare vote exactly when its view is neither past nor
    already voted in, and it extends the locked block, carries a certificate of a
    higher view than the lock, or names the zero parent; the vote is for that
    block and view, unsigned, and a refusal leaves the voting record unchanged. *)
Theorem prepare_vote_spec (b : HotStuffBlock) (now : Z) (e : HotStuffEngine) :
  let '(e', o) := HotStuffEngine.on_block b now e in
  (votable b e → o = SendVote (mkVote (bl_view b) (block_id b) Prepare (self_id e) []) ∧
     pending_block e' = Some b ∧ last_voted_view (safety e') = bl_view b) ∧
  (o = NoOutput ↔ ¬ votable b e) ∧
  (¬ votable b e → voted e' = voted e ∧
     last_voted_view (safety e') = last_voted_view (safety e)).
Proof.
  pose proof (on_block_votes b now e) as Hb. destruct (HotStuffEngine.on_block b now e) as [e' o].
  destruct Hb as [(Hv & -> & ? & ? & ?)|(Hv & -> & ? & ?)].
  - split_and!; [done|done|by intros ?].
  - split_and!; [by intros ?|done|done].
Qed.
End node.

(** ** A concrete bincode and backend *)

#[export] Instance QC_countable : Countable QuorumCertificate.
Proof.
  apply (inj_countable' (λ q, (qc_view q, qc_block_id q, qc_phase q, signatures q))
    (λ x, mkQC x.1.1.1 x.1.1.2 x.1.2 x.2)). by intros [].
Defined.
#[export] Instance SafetyRule_eq_dec : EqDecision SafetyRule.
Proof. solve_decision. Defined.
#[export] Instance SafetyRule_countable : Countable SafetyRule.
Proof.
  apply (inj_countable' (λ s, (locked_qc s, high_qc s, sr_current_view s, last_voted_view s))
    (λ x, mkSafety x.1.1.1 x.1.1.2 x.1.2 x.2)). by intros [].
Defined.

Definition sample_safety_bincode : SafetyBincode := {|
  encode_safety s := [Z.pos (encode s)];
  decode_safety l := match l with [Z.pos p] => decode p | _ => None end |}.
Lemma sample_safety_bincode_laws : @SafetyBincodeLaws sample_safety_bincode.
Proof. split. intros s. cbn. apply decode_encode. Qed.

(** A vote, a save and more calls; a restart; a vote of the same view again, which
    is refused, and one of a later view. *)
Definition sample_events : list event :=
  [Call 5 (InBlock (mkBlock 70 0 2 9 5 [] None)); Call 6 InTimeout; Save; Call 7 InTimeout;
   Reboot 200 7; Call 8 (InBlock (mkBlock 71 0 2 9 5 [] None));
   Call 9 (InBlock (mkBlock 72 0 4 9 5 [] None))].

Definition sample_start : node :=
  @node_start InMemoryBackend 1 3 200 0 InMemoryBackend.new.

Lemma prepare_votes_increase_witness :
  (λ o, prepare_views [o]) <$> (@node_run sample_sha256 sample_safety_bincode _ memory_backend
      sample_events sample_start).2 = [[2]; []; []; []; []; []; [4]] ∧
  2 < 4.
Proof.
  split; [by vm_compute|].
  apply (@prepare_votes_increase sample_sha256 sample_safety_bincode
    sample_safety_bincode_laws InMemoryBackend memory_backend memory_backend_laws
    sample_start sample_events 0 6
    (SendVote (mkVote 2 70 Prepare 1 [])) (SendVote (mkVote 4 72 Prepare 1 [])));
    [by vm_compute|by vm_compute|lia|by vm_compute|by left|by left].
Defined.

(** Without the save the record of the vote is lost, and the node votes for two
    blocks of one view: the arms of the node runner for HotStuff messages send the
    vote without saving. *)
Example unsaved_restart_votes_twice :
  (@node_run sample_sha256 sample_safety_bincode _ memory_backend
    [Call 5 (InBlock (mkBlock 70 0 2 9 5 [] None)); Reboot 200 7;
     Call 8 (InBlock (mkBlock 71 0 2 9 5 [] None))] sample_start).2 =
  [SendVote (mkVote 2 70 Prepare 1 []); NoOutput; SendVote (mkVote 2 71 Prepare 1 [])].
Proof. by vm_compute. Qed.

Lemma safety_rule_monotone_witness :
  let n1 := (@node_run sample_sha256 sample_safety_bincode _ memory_backend (take 5 sample_events)
      sample_start).1 in
  let n2 := (@node_run sample_sha256 sample_safety_bincode _ memory_backend (drop 5 sample_events) n1).1 in
  safety_le (safety n1.1) (safety n2.1).
Proof.
  apply (@safety_rule_monotone sample_sha256 sample_safety_bincode
    sample_safety_bincode_laws InMemoryBackend memory_backend memory_backend_laws
    1 3 200 0 InMemoryBackend.new (take 5 sample_events) (drop 5 sample_events) eq_refl).
  by repeat constructor.
Defined.
