(* ===== verification/HotStuffDecisions.v ===== *)
(** * Decisions and certificates of the HotStuff engine

    When the engine finalizes a block, what its check of a certificate accepts,
    and where the handlers accept less than a quorum for one block. *)

From stdpp Require Import gmap strings list sorting.
From S2P Require Import Prelude Concrete HotStuffTypes HotStuff HotStuffSafety.

(** ** Finalization *)

Fixpoint finalized (o : HotStuffOutput) : list HotStuffBlock :=
  match o with
  | Finalize b => [b]
  | Multi l => flat_map finalized l
  | _ => []
  end.

(** The view of the vote or certificate that a call is given. *)
Definition decision_view (i : input) : Z :=
  match i with InVote v => vt_view v | InQC qc => qc_view qc | _ => 0 end.

(** What makes the engine finalize [b]: a Commit certificate for it, or the
    Commit vote that completes a quorum of votes of that view and phase. *)
Definition commit_evidence (i : input) (b : HotStuffBlock) (e : HotStuffEngine) : Prop :=
  match i with
  | InVote v =>
      vt_phase v = Commit ∧ vt_block_id v = block_id b ∧
      (quorum_threshold e ≤ S (length (default [] (votes e !! (vt_view v, Commit)))))%nat
  | InQC qc => qc_phase qc = Commit ∧ qc_block_id qc = block_id b
  | _ => False
  end.

Section decisions.
Context `{Sha256}.

(** The decisions of a sequence of calls, with their views. *)
Fixpoint engine_run (ins : list (Z * input)) (e : HotStuffEngine)
  : HotStuffEngine * list (Z * HotStuffBlock) :=
  match ins with
  | [] => (e, [])
  | (now, i) :: ins =>
      let '(e, o) := handle now i e in
      let '(e, ds) := engine_run ins e in
      (e, ((λ b, (decision_view i, b)) <$> finalized o) ++ ds)
  end.

Definition undecided (e e' : HotStuffEngine) (o : HotStuffOutput) : Prop :=
  finalized o = [] ∧ decided_blocks e' = decided_blocks e.

Definition decides (i : input) (e e' : HotStuffEngine) (o : HotStuffOutput) : Prop :=
  ∃ b, finalized o = [b] ∧ pending_block e = Some b ∧ commit_evidence i b e ∧
    decided_blocks e !! decision_view i = None ∧
    decided_blocks e' = <[decision_view i := block_id b]> (decided_blocks e).

Lemma clear_decided e :
  decided_blocks (HotStuffEngine.clear_view_state e) = decided_blocks e.
Proof. unfold HotStuffEngine.clear_view_state. by repeat case_match. Qed.

Lemma on_block_undecided b now e :
  undecided e (HotStuffEngine.on_block b now e).1 (HotStuffEngine.on_block b now e).2.
Proof.
  unfold HotStuffEngine.on_block. case_decide; [by split|].
  destruct (justify_qc b); (destruct (negb _); [by split|]); by destruct (voted _ !! _).
Qed.

Lemma on_vote_decides v e :
  let x := HotStuffEngine.on_vote v e in
  undecided e x.1 x.2 ∨ decides (InVote v) e x.1 x.2.
Proof.
  unfold HotStuffEngine.on_vote, HotStuffEngine.quorum_output.
  destruct (existsb _ _); [left; by split|]. case_decide as Hq; [left; by split|].
  rewrite length_app in Hq. cbn [quorum_threshold with_votes length] in Hq.
  destruct (vt_phase v) eqn:Ep; [left; by split|left; by split| |left; by split].
  destruct (pending_block _) as [b|] eqn:Eb; [|left; by split].
  case_decide as Hid; [|left; by split].
  destruct (decided_blocks _ !! _) eqn:Ed; [left; by split|right].
  exists b. cbn in *. split_and!; try done. lia.
Qed.

Lemma on_qc_decides qc e :
  let x := HotStuffEngine.on_qc qc e in
  undecided e x.1 x.2 ∨ decides (InQC qc) e x.1 x.2.
Proof.
  unfold HotStuffEngine.on_qc. destruct (Phase.next _) as [ph|]; [|left; by split].
  destruct (decide (qc_phase qc = PreCommit)) as [Hp|Hp];
    (destruct (voted _ !! _); [left; by split|]); (case_decide as Hc; [|left; by split]).
  { congruence. }
  destruct (pending_block _) as [b|] eqn:Eb; [|left; by split].
  case_decide as Hid; [|left; by split].
  destruct (decided_blocks _ !! _) eqn:Ed; [left; by split|right].
  exists b. cbn in *. by split_and!.
Qed.

Lemma handle_decides now i e :
  let x := handle now i e in undecided e x.1 x.2 ∨ decides i e x.1 x.2.
Proof.
  destruct i; cbn [handle].
  - left. apply on_block_undecided.
  - apply on_vote_decides.
  - apply on_qc_decides.
  - left. unfold HotStuffEngine.on_new_view. destruct (existsb _ _); [by split|].
    destruct (Pacemaker.select_high_qc _); (destruct (negb _); [by split|]);
      (split; [done|]); cbn [fst]; by rewrite clear_decided.
  - left. unfold HotStuffEngine.on_timeout. split; [done|]. cbn [fst].
    destruct (Pacemaker.advance_view _ _ _ _). cbn [fst]. by rewrite clear_decided.
  - left. by split.
Qed.

Lemma engine_run_cons now i ins e :
  engine_run ((now, i) :: ins) e =
  let x := handle now i e in
  let y := engine_run ins x.1 in
  (y.1, ((λ b, (decision_view i, b)) <$> finalized x.2) ++ y.2).
Proof. cbn. destruct (handle now i e) as [e1 o]. cbn. by destruct (engine_run ins e1). Qed.

Lemma engine_run_decisions ins e :
  let '(e', ds) := engine_run ins e in
  decided_blocks e ⊆ decided_blocks e' ∧ NoDup ds.*1 ∧
  Forall (λ d, decided_blocks e !! d.1 = None ∧
    decided_blocks e' !! d.1 = Some (block_id d.2)) ds.
Proof.
  revert e. induction ins as [|[now i] ins IH]; intros e; [by split_and!; try constructor|].
  rewrite engine_run_cons. cbn zeta. specialize (IH (handle now i e).1).
  destruct (engine_run ins (handle now i e).1) as [e' ds]. destruct IH as (Hsub & Hnd & Hall).
  cbn [fst snd]. destruct (handle_decides now i e) as [[Hf Hd]|(b & Hf & _ & _ & Hnone & Hd)];
    rewrite Hf, Hd in *; cbn [fmap list_fmap app].
  - by split_and!.
  - split_and!.
    + etrans; [|exact Hsub]. by apply insert_subseteq.
    + cbn. constructor; [|done]. intros ([v b'] & E & Hin)%list_elem_of_fmap. cbn in E. subst v.
      rewrite Forall_forall in Hall. destruct (Hall _ Hin) as [E _]. cbn in E.
      by rewrite lookup_insert_eq in E.
    + constructor.
      * split; [done|]. cbn. eapply lookup_weaken; [|done]. apply lookup_insert_eq.
      * eapply Forall_impl; [done|]. intros [v b'] [E1 E2]. split; [|done]. cbn in *.
        by apply lookup_insert_None in E1 as [? _].
Qed.
End decisions.

(** ** Certificates *)

Section certificates.
Context `{Ed25519Strict}.
Implicit Types (pk : id32 → option id32) (sigs : list (id32 * bytes)).

Lemma count_valid_set pk hash sigs seen :
  ∃ X : gset id32, size X = HotStuffEngine.count_valid pk hash sigs seen ∧ X ## seen ∧
    ∀ x, x ∈ X → ∃ sig, (x, sig) ∈ sigs ∧ HotStuffEngine.signature_valid pk hash (x, sig) = true.
Proof.
  revert seen. induction sigs as [|[x sig] sigs IH]; intros seen; cbn.
  { exists ∅. split_and!; [apply size_empty|set_solver|set_solver]. }
  case_decide as Hin.
  { destruct (IH seen) as (X & HX & Hd & Hall). exists X. split_and!; [done|done|].
    intros y Hy. destruct (Hall y Hy) as (s & ? & ?). exists s. split; [by right|done]. }
  destruct (IH ({[x]} ∪ seen)) as (X & HX & Hd & Hall).
  destruct (HotStuffEngine.signature_valid pk hash (x, sig)) eqn:Ev.
  - exists ({[x]} ∪ X). split_and!; [|set_solver|].
    + rewrite size_union by set_solver. rewrite size_singleton, HX. done.
    + intros y [->%elem_of_singleton|Hy]%elem_of_union; [exists sig; split; [by left|done]|].
      destruct (Hall y Hy) as (s & ? & ?). exists s. split; [by right|done].
  - exists X. split_and!; [done|set_solver|]. intros y Hy.
    destruct (Hall y Hy) as (s & ? & ?). exists s. split; [by right|done].
Qed.

Lemma count_valid_distinct pk hash sigs (seen : gset id32) :
  NoDup sigs.*1 → Forall (λ s, s.1 ∉ seen) sigs →
  HotStuffEngine.count_valid pk hash sigs seen =
  length (filter (λ s, HotStuffEngine.signature_valid pk hash s = true) sigs).
Proof.
  revert seen. induction sigs as [|[x sig] sigs IH]; intros seen Hnd Hs; [done|].
  cbn [fmap list_fmap] in Hnd. apply NoDup_cons in Hnd as [Hx Hnd].
  apply Forall_cons in Hs as [Hx' Hs]. cbn [HotStuffEngine.count_valid]. cbn [fst] in Hx'.
  cbn [fst]. rewrite decide_False by done. rewrite IH; [|done|].
  - rewrite filter_cons. destruct (HotStuffEngine.signature_valid pk hash (x, sig)); done.
  - rewrite Forall_forall in Hs |- *. intros [y s] Hy. cbn. specialize (Hs _ Hy). cbn in Hs.
    assert (y ≠ x); [|set_solver]. intros ->. apply Hx. apply list_elem_of_fmap. by exists (x, s).
Qed.

Lemma size_le_length (X : gset id32) (l : list id32) :
  (∀ x, x ∈ X → x ∈ l) → (size X ≤ length l)%nat.
Proof.
  intros HX. change (size X) with (length (elements X)). apply submseteq_length, NoDup_submseteq.
  - apply NoDup_elements.
  - intros x Hx%elem_of_elements. by apply HX.
Qed.
End certificates.

(** ** Reaching a quorum of votes *)

Section quorum.
Context `{Sha256}.

Lemma new_voter l0 v l :
  NoDup (voter_id <$> l0 ++ v :: l) →
  existsb (λ v', bool_decide (voter_id v' = voter_id v)) l0 = false.
Proof.
  intros Hnd. apply not_true_iff_false. rewrite existsb_exists.
  intros (v' & Hin & Heq%bool_decide_eq_true).
  rewrite fmap_app, NoDup_app in Hnd. destruct Hnd as (_ & Hd & _).
  apply (Hd (voter_id v')); [apply list_elem_of_fmap_2; by apply list_elem_of_In|].
  rewrite Heq. by left.
Qed.

(** The votes of distinct voters gather until the threshold. *)
Lemma votes_gather ph view (l : list HotStuffVote) e l0 :
  Forall (λ v, vt_view v = view ∧ vt_phase v = ph) l →
  default [] (votes e !! (view, ph)) = l0 → NoDup (voter_id <$> l0 ++ l) →
  (length (l0 ++ l) < quorum_threshold e)%nat →
  engine_run ((λ v, (0, InVote v)) <$> l) e =
  (with_votes (if decide (l = []) then votes e else <[(view, ph) := l0 ++ l]> (votes e)) e, []).
Proof.
  revert e l0. induction l as [|v l IH]; intros e l0 Hl H0 Hnd Hlen; [by destruct e|].
  apply Forall_cons in Hl as [[Hv Hp] Hl].
  assert (HotStuffEngine.on_vote v e =
    (with_votes (<[(view, ph) := l0 ++ [v]]> (votes e)) e, NoOutput)) as E.
  { unfold HotStuffEngine.on_vote. rewrite Hv, Hp, H0.
    rewrite (new_voter _ _ _ Hnd).
    rewrite decide_True; [done|]. rewrite length_app in *. cbn in *. lia. }
  cbn [fmap list_fmap]. rewrite engine_run_cons. cbn [handle].
  unfold HotStuffEngine.submit_verified_vote. rewrite E. cbn [fst snd finalized fmap list_fmap app].
  rewrite (IH _ (l0 ++ [v])); [|done|cbn; by rewrite lookup_insert_eq| |].
  - cbn. f_equal. unfold with_votes. cbn. f_equal. destruct l as [|v' l]; [done|].
    rewrite decide_False by done. by rewrite insert_insert_eq, <- app_assoc.
  - by rewrite <- app_assoc.
  - by rewrite <- app_assoc.
Qed.

Lemma engine_run_app ins1 ins2 e :
  engine_run (ins1 ++ ins2) e =
  let x := engine_run ins1 e in let y := engine_run ins2 x.1 in (y.1, x.2 ++ y.2).
Proof.
  revert e. induction ins1 as [|[now i] ins1 IH]; intros e.
  { cbn. by destruct (engine_run ins2 e). }
  cbn [app]. rewrite !engine_run_cons. cbn zeta. rewrite IH. cbn [fst snd]. by rewrite app_assoc.
Qed.

(** The vote that completes a quorum of Commit votes for any blocks. *)
Lemma completing_vote_finalizes b l vote e :
  NoDup (voter_id <$> l ++ [vote]) → vt_view vote = bl_view b ∧ vt_phase vote = Commit →
  vt_block_id vote = block_id b → quorum_threshold e = S (length l) →
  default [] (votes e !! (bl_view b, Commit)) = l → pending_block e = Some b →
  decided_blocks e !! bl_view b = None →
  (HotStuffEngine.on_vote vote e).2 = Multi [BroadcastQC (mkQC (bl_view b) (block_id b) Commit
    ((λ v, (voter_id v, vt_signature v)) <$> l ++ [vote])); Finalize b].
Proof.
  intros Hnd [Hv Hp] Hid Hthr Hl Hpend Hdec. unfold HotStuffEngine.on_vote. rewrite Hv, Hp, Hl.
  rewrite (new_voter _ _ _ Hnd).
  rewrite decide_False.
  2: { rewrite length_app. cbn. lia. }
  unfold HotStuffEngine.quorum_output. rewrite Hp. cbn [pending_block with_votes].
  rewrite Hpend, decide_True by done. cbn [decided_blocks with_votes]. rewrite Hv, Hdec, Hid. done.
Qed.

(** ** Properties *)

(** C9: A view is finalized at most once: over any sequence of calls the
    decisions are in distinct views, none decided before, and recorded; and each
    call that finalizes a block does so for the pending block, on a Commit
    certificate for it or on a Commit vote for it that completes a quorum of
    votes of its view. *)
Theorem finalize_once (ins : list (Z * input)) (e : HotStuffEngine) :
  let '(e', ds) := engine_run ins e in
  NoDup ds.*1 ∧
  (∀ v b, (v, b) ∈ ds →
     decided_blocks e !! v = None ∧ decided_blocks e' !! v = Some (block_id b)) ∧
  (∀ now i b, b ∈ finalized (handle now i e').2 →
     pending_block e' = Some b ∧ commit_evidence i b e').
Proof.
  pose proof (engine_run_decisions ins e) as Hr. destruct (engine_run ins e) as [e' ds].
  destruct Hr as (_ & Hnd & Hall). split; [done|]. split.
  - intros v b Hin. rewrite Forall_forall in Hall. apply (Hall _ Hin).
  - intros now i b Hin. destruct (handle_decides now i e') as [[Hf _]|(b' & Hf & Hp & Hc & _)];
      rewrite Hf in Hin; [set_solver|]. apply list_elem_of_singleton in Hin as ->. done.
Qed.

(** [verify_qc] accepts only a true quorum: if it accepts a certificate there
    are at least threshold-many distinct signers with a registered key and a
    64-byte signature that verifies against the vote hash of exactly that view,
    block and phase; and a certificate whose signers are distinct and include so
    many is accepted. *)
Theorem verify_qc_quorum `{Ed25519Strict} (qc : QuorumCertificate) (pk : id32 → option id32)
    (e : HotStuffEngine) :
  let hash := QuorumCertificate.vote_hash (qc_view qc) (qc_block_id qc) (qc_phase qc) in
  let quorum := ∃ X : gset id32, (quorum_threshold e ≤ size X)%nat ∧
    ∀ x, x ∈ X → ∃ sig key, (x, sig) ∈ signatures qc ∧ pk x = Some key ∧
      verifying_key_ok key = true ∧ length sig = 64%nat ∧ signature_ok sig = true ∧
      verify_strict key hash sig = true in
  (HotStuffEngine.verify_qc qc pk e = true → quorum) ∧
  (NoDup (signatures qc).*1 → quorum → HotStuffEngine.verify_qc qc pk e = true).
Proof.
  intros hash quorum. unfold HotStuffEngine.verify_qc. fold hash. rewrite bool_decide_eq_true. split.
  - intros Hle. destruct (count_valid_set pk hash (signatures qc) ∅) as (X & HX & _ & Hall).
    exists X. split; [lia|]. intros x Hx. destruct (Hall x Hx) as (sig & Hin & Hv).
    unfold HotStuffEngine.signature_valid in Hv. cbn in Hv. destruct (pk x) as [key|] eqn:Ek; [|done].
    rewrite !andb_true_iff, bool_decide_eq_true in Hv. exists sig, key. naive_solver.
  - intros Hnd (X & Hle & Hall). rewrite count_valid_distinct; [|done|].
    2: { apply Forall_true. set_solver. }
    etrans; [exact Hle|]. rewrite <- (length_fmap fst). apply size_le_length.
    intros x Hx. destruct (Hall x Hx) as (sig & key & Hin & Hk & H1 & H2 & H3 & H4).
    apply list_elem_of_fmap. exists (x, sig). split; [done|]. apply list_elem_of_filter. split; [|done].
    unfold HotStuffEngine.signature_valid. cbn. rewrite Hk, !andb_true_iff, bool_decide_eq_true. done.
Qed.

(** Votes are gathered by view and phase only: a node that has accepted a
    block and then any threshold-less-one Commit votes of distinct voters, for
    whatever blocks, finalizes its own block on a single vote for it, with a
    certificate that lists all the voters. *)
Theorem votes_for_other_blocks_count (b : HotStuffBlock) (self : id32) (ms : Z)
    (l : list HotStuffVote) (vote : HotStuffVote) :
  1 ≤ bl_view b → parent_id b = 0 →
  Forall (λ v, vt_view v = bl_view b ∧ vt_phase v = Commit) (l ++ [vote]) →
  vt_block_id vote = block_id b → NoDup (voter_id <$> l ++ [vote]) →
  let e := HotStuffEngine.new self (S (length l)) ms 0 in
  let ins := (0, InBlock b) :: ((λ v, (0, InVote v)) <$> l) in
  (engine_run (ins ++ [(0, InVote vote)]) e).2 = [(bl_view b, b)] ∧
  (handle 0 (InVote vote) (engine_run ins e).1).2 =
    Multi [BroadcastQC (mkQC (bl_view b) (block_id b) Commit
             ((λ v, (voter_id v, vt_signature v)) <$> l ++ [vote])); Finalize b].
Proof.
  intros Hv Hp Hl Hid Hnd e ins. apply Forall_app in Hl as [Hl [Hvote _]%Forall_cons].
  pose proof (on_block_votes b 0 e) as Hb.
  pose proof (on_block_undecided b 0 e) as [Hfin Hdec].
  assert (votes (HotStuffEngine.on_block b 0 e).1 = ∅ ∧
    quorum_threshold (HotStuffEngine.on_block b 0 e).1 = S (length l)) as [Hvotes Hthr].
  { unfold HotStuffEngine.on_block. repeat case_match; done. }
  destruct (HotStuffEngine.on_block b 0 e) as [e1 o] eqn:E1. cbn [fst snd] in *.
  assert (pending_block e1 = Some b) as Hpend.
  { destruct Hb as [(_ & _ & ? & _)|(Hn & _)]; [done|]. destruct Hn. subst e.
    split_and!; cbn; [lia|lia|by right; right|done]. }
  pose proof (votes_gather Commit (bl_view b) l e1 [] Hl) as Hg.
  rewrite Hvotes in Hg. specialize (Hg eq_refl). cbn [app] in Hg.
  specialize (Hg ltac:(rewrite fmap_app, NoDup_app in Hnd; apply Hnd) ltac:(lia)).
  set (e2 := with_votes _ e1) in Hg.
  assert ((HotStuffEngine.on_vote vote e2).2 = Multi [BroadcastQC (mkQC (bl_view b) (block_id b) Commit
    ((λ v, (voter_id v, vt_signature v)) <$> l ++ [vote])); Finalize b]) as Hlast.
  { apply completing_vote_finalizes; [exact Hnd|done|done|exact Hthr| |exact Hpend|].
    - subst e2. cbn. case_decide as E0; [by subst l|]. by rewrite lookup_insert_eq.
    - subst e2. cbn. by rewrite Hdec. }
  subst ins. cbn [app]. rewrite !engine_run_cons. cbn [handle]. rewrite E1. cbn [fst snd].
  rewrite engine_run_app, Hg. cbn [fst snd]. rewrite Hfin. cbn [fmap list_fmap app].
  rewrite engine_run_cons. cbn [handle fst snd]. unfold HotStuffEngine.submit_verified_vote.
  rewrite Hlast. cbn. destruct Hvote as [-> _]. done.
Qed.

Lemma on_qc_vote qc ph e :
  Phase.next (qc_phase qc) = Some ph → qc_phase qc ≠ Commit → voted e !! (qc_view qc, ph) = None →
  (HotStuffEngine.on_qc qc e).2 = SendVote (mkVote (qc_view qc) (qc_block_id qc) ph (self_id e) []) ∧
  pacemaker (HotStuffEngine.on_qc qc e).1 = pacemaker e ∧
  self_id (HotStuffEngine.on_qc qc e).1 = self_id e.
Proof.
  intros Hn Hc Hv. unfold HotStuffEngine.on_qc. rewrite Hn.
  destruct (decide (qc_phase qc = PreCommit)); cbn [voted with_safety];
    rewrite Hv, decide_False by done; done.
Qed.

Lemma on_timeout_forgets now e ph :
  0 ≤ pm_current_view (pacemaker e) < u64_max →
  voted (HotStuffEngine.on_timeout now e).1 !! (pm_current_view (pacemaker e), ph) = None ∧
  self_id (HotStuffEngine.on_timeout now e).1 = self_id e.
Proof.
  intros Hv. unfold HotStuffEngine.on_timeout, Pacemaker.advance_view. cbn [fst].
  unfold HotStuffEngine.clear_view_state.
  assert (filter (λ p : (Z * Phase) * bool, wrapu 64 (pm_current_view (pacemaker e) + 1) ≤ p.1.1)
    (voted e) !! (pm_current_view (pacemaker e), ph) = None) as Hf.
  { apply map_lookup_filter_None. right. intros x _. cbn. rewrite wrapu_id by (split; ints). lia. }
  cbn -[wrapu]. destruct (pending_block e); [case_decide|]; (split; [exact Hf|done]).
Qed.

(** The later phases do equivocate: a node that voted on a certificate in its
    current view forgets it when the view times out, and a second certificate of
    that view, for any other block, gets a vote of the same view and phase. *)
Theorem late_certificates_equivocate (qa qb : QuorumCertificate) (ph : Phase) (now : Z)
    (e : HotStuffEngine) :
  qc_phase qa = qc_phase qb → qc_phase qa ≠ Commit → Phase.next (qc_phase qa) = Some ph →
  qc_view qa = pm_current_view (pacemaker e) → qc_view qb = qc_view qa →
  0 ≤ qc_view qa < u64_max → voted e !! (qc_view qa, ph) = None →
  let e1 := (handle now (InQC qa) e).1 in
  let e2 := (handle now InTimeout e1).1 in
  (handle now (InQC qa) e).2 =
    SendVote (mkVote (qc_view qa) (qc_block_id qa) ph (self_id e) []) ∧
  (handle now (InQC qb) e2).2 =
    SendVote (mkVote (qc_view qa) (qc_block_id qb) ph (self_id e) []).
Proof.
  intros Hph Hc Hn Hva Hvb Hr Hvoted e1 e2.
  destruct (on_qc_vote qa ph e Hn Hc Hvoted) as (Ha & Hpm & Hid).
  split; [exact Ha|]. subst e1 e2. cbn [handle] in *.
  destruct (on_timeout_forgets now (HotStuffEngine.on_qc qa e).1 ph) as (Hf & Hid2).
  { rewrite Hpm, <- Hva. exact Hr. }
  rewrite Hpm, <- Hva in Hf.
  destruct (on_qc_vote qb ph (HotStuffEngine.on_timeout now (HotStuffEngine.on_qc qa e).1).1)
    as (Hb & _); [by rewrite <- Hph|by rewrite <- Hph|by rewrite Hvb|].
  by rewrite Hb, Hvb, Hid2, Hid.
Qed.

(** The committee check counts entries, not signers: a certificate that
    repeats one committee member's entry passes for any threshold, and so does
    [has_quorum]. *)
Theorem committee_quorum_counts_entries (view : Z) (block : id32) (ph : Phase) (member : id32)
    (sig : bytes) (committee : gset id32) (threshold : nat) :
  member ∈ committee →
  let qc := mkQC view block ph (replicate threshold (member, sig)) in
  verify_qc_committee qc committee threshold = Ok threshold ∧
  QuorumCertificate.has_quorum qc threshold = true.
Proof.
  intros Hm qc. unfold verify_qc_committee, QuorumCertificate.has_quorum. cbn [signatures qc].
  assert (filter (λ s : id32 * bytes, s.1 ∈ committee) (replicate threshold (member, sig)) =
    replicate threshold (member, sig)) as Hf.
  { induction threshold as [|n IH]; [done|]. cbn [replicate]. rewrite filter_cons_True by done.
    by rewrite IH. }
  rewrite Hf, length_replicate, decide_False by lia. split; [done|]. by rewrite bool_decide_eq_true.
Qed.
End quorum.

(** ** Sample runs *)

Definition sample_block : HotStuffBlock := mkBlock 77 0 3 9 5 [] None.
Definition other_votes : list HotStuffVote := [mkVote 3 66 Commit 21 []; mkVote 3 65 Commit 22 []].
Definition own_vote : HotStuffVote := mkVote 3 77 Commit 23 [].

Lemma votes_for_other_blocks_count_witness :
  ∃ qc, (@handle sample_sha256 0 (InVote own_vote)
      (@engine_run sample_sha256 ((0, InBlock sample_block) :: ((λ v, (0, InVote v)) <$> other_votes))
        (HotStuffEngine.new 1 3 200 0)).1).2 = Multi [BroadcastQC qc; Finalize sample_block].
Proof.
  eexists. apply (@votes_for_other_blocks_count sample_sha256 sample_block 1 200 other_votes own_vote);
    [by_eval|reflexivity|repeat constructor|reflexivity|by_decide].
Defined.

Lemma late_certificates_equivocate_witness :
  let e := HotStuffEngine.new 1 3 200 0 in
  let e1 := (@handle sample_sha256 5 (InQC (mkQC 1 77 Prepare [])) e).1 in
  let e2 := (@handle sample_sha256 5 InTimeout e1).1 in
  sent_votes (@handle sample_sha256 5 (InQC (mkQC 1 78 Prepare [])) e2).2 =
    [mkVote 1 78 PreCommit 1 []] ∧
  sent_votes (@handle sample_sha256 5 (InQC (mkQC 1 77 Prepare [])) e).2 =
    [mkVote 1 77 PreCommit 1 []].
Proof.
  destruct (@late_certificates_equivocate sample_sha256 (mkQC 1 77 Prepare [])
    (mkQC 1 78 Prepare []) PreCommit 5 (HotStuffEngine.new 1 3 200 0)) as [H1 H2];
    [reflexivity|discriminate|reflexivity|reflexivity|reflexivity|by_eval|reflexivity|].
  intros e e1 e2. subst e e1 e2. rewrite H1, H2. split; reflexivity.
Defined.

Lemma committee_quorum_counts_entries_witness :
  verify_qc_committee (mkQC 3 77 Commit (replicate 3 (21, []))) {[21]} 3 = Ok 3%nat.
Proof. apply (committee_quorum_counts_entries 3 77 Commit 21 [] {[21]} 3). by_decide. Defined.
