(* ===== verification/Numerals.v ===== *)
(** * Decimal numerals

    Rust's [str::parse] for integers, and that it reads back what
    [to_string] writes. *)

From Stdlib Require Import Ascii.
From stdpp Require Import strings pretty.
From S2P Require Import Prelude.

(** [to_string] of an integer is [pretty]; this is [str::parse] for [i128]. *)
Definition digit_value (a : Ascii.ascii) : option Z :=
  let n := Z.of_N (Ascii.N_of_ascii a) in
  if decide (48 ≤ n ≤ 57) then Some (n - 48) else None.
Fixpoint digits_from (acc : Z) (s : string) : option Z :=
  match s with
  | EmptyString => Some acc
  | String a s => d ← digit_value a; digits_from (acc * 10 + d) s
  end.
Definition parse_digits (s : string) : option Z :=
  match s with EmptyString => None | _ => digits_from 0 s end.
Definition parse_int (s : string) : option Z :=
  match s with
  | String a rest =>
      if Ascii.eqb a "-"%char then Z.opp <$> parse_digits rest
      else if Ascii.eqb a "+"%char then parse_digits rest
      else parse_digits s
  | EmptyString => None
  end.
Definition parse_i128 (s : string) : option Z :=
  z ← parse_int s; if decide (- 2 ^ 127 ≤ z < 2 ^ 127) then Some z else None.

(** [str::parse] for unsigned widths: a plus sign may lead, a minus sign may not. *)
Definition parse_unsigned (w : Z) (s : string) : option Z :=
  z ← match s with
      | String a rest => if Ascii.eqb a "+"%char then parse_digits rest else parse_digits s
      | EmptyString => None
      end;
  if decide (z < 2 ^ w) then Some z else None.
Definition parse_u64 (s : string) : option Z := parse_unsigned 64 s.
Definition parse_u32 (s : string) : option Z := parse_unsigned 32 s.

(** ** Reading back *)

Lemma digit_value_char n : (n < 10)%N → digit_value (pretty_N_char n) = Some (Z.of_N n).
Proof.
  intros Hn. assert (n = 0 ∨ n = 1 ∨ n = 2 ∨ n = 3 ∨ n = 4 ∨ n = 5 ∨ n = 6 ∨ n = 7 ∨ n = 8 ∨ n = 9)%N
    as Hc by lia.
  by repeat destruct Hc as [->|Hc]; [..|subst].
Qed.

Lemma digits_pretty_go x s : digits_from 0 (pretty_N_go x s) = digits_from (Z.of_N x) s.
Proof.
  revert s. induction (N.lt_wf_0 x) as [x _ IH]. intros s.
  destruct (decide (x = 0)%N) as [->|Hx]; [by rewrite pretty_N_go_0|].
  rewrite pretty_N_go_step by lia. rewrite IH by (apply N.div_lt; lia).
  cbn [digits_from]. rewrite digit_value_char by (by apply N.mod_lt).
  cbn [mbind option_bind]. f_equal. rewrite N2Z.inj_div, N2Z.inj_mod.
  change (Z.of_N 10) with 10. pose proof (Z.div_mod (Z.of_N x) 10). lia.
Qed.

Lemma pretty_go_head x s : (0 < x)%N → ∃ n rest, (n < 10)%N ∧ pretty_N_go x s = String (pretty_N_char n) rest.
Proof.
  revert s. induction (N.lt_wf_0 x) as [x _ IH]. intros s Hx. rewrite pretty_N_go_step by done.
  destruct (decide (x `div` 10 = 0)%N) as [->|Hd].
  - rewrite pretty_N_go_0. eexists _, _. split; [|done]. by apply N.mod_lt.
  - apply IH; [by apply N.div_lt|]. by apply N.neq_0_lt_0.
Qed.

Lemma char_no_sign n : (n < 10)%N →
  Ascii.eqb (pretty_N_char n) "-" = false ∧ Ascii.eqb (pretty_N_char n) "+" = false.
Proof.
  intros Hn. assert (n = 0 ∨ n = 1 ∨ n = 2 ∨ n = 3 ∨ n = 4 ∨ n = 5 ∨ n = 6 ∨ n = 7 ∨ n = 8 ∨ n = 9)%N
    as Hc by lia.
  by repeat destruct Hc as [->|Hc]; [..|subst].
Qed.

Lemma digits_pretty_pos x : (0 < x)%N → parse_digits (pretty_N_go x EmptyString) = Some (Z.of_N x).
Proof.
  intros Hx. destruct (pretty_go_head x EmptyString Hx) as (n & rest & _ & E).
  pose proof (digits_pretty_go x EmptyString) as Hd. cbn [digits_from] in Hd. rewrite E in *. exact Hd.
Qed.

Lemma parse_pretty z : parse_int (pretty z) = Some z.
Proof.
  unfold pretty, pretty_Z, pretty, pretty_positive. destruct z as [|p|p]; [done| |].
  - unfold pretty, pretty_N. rewrite decide_False by done.
    destruct (pretty_go_head (Npos p) EmptyString ltac:(lia)) as (n & rest & Hn & E).
    pose proof (digits_pretty_pos (Npos p) ltac:(lia)) as Hp. rewrite E in *. cbn [parse_int].
    destruct (char_no_sign n Hn) as [-> ->]. exact Hp.
  - unfold pretty, pretty_N. rewrite decide_False by done.
    change (Z.opp <$> parse_digits (pretty_N_go (Npos p) EmptyString) = Some (Zneg p)).
    by rewrite digits_pretty_pos by lia.
Qed.

Lemma parse_i128_pretty z : - 2 ^ 127 ≤ z < 2 ^ 127 → parse_i128 (pretty z) = Some z.
Proof. intros Hz. unfold parse_i128. rewrite parse_pretty. cbn [mbind option_bind]. by rewrite decide_True. Qed.

(** A number read without a sign is not negative. *)
Lemma digits_from_nonneg acc s z : 0 ≤ acc → digits_from acc s = Some z → 0 ≤ z.
Proof.
  revert acc. induction s as [|a s IH]; intros acc Ha; cbn; [by intros [= <-]|].
  unfold digit_value. case_decide; cbn; [|done]. apply IH. lia.
Qed.
Lemma parse_u64_fits s z : parse_u64 s = Some z → fits 64 z.
Proof.
  assert (∀ s z, parse_digits s = Some z → 0 ≤ z) as Hp.
  { intros [|a s'] z'; [done|]. by apply digits_from_nonneg. }
  unfold parse_u64, parse_unsigned. intros (z' & Hs & E)%bind_Some. case_decide; simplify_eq.
  destruct s as [|a s]; [done|]. split; [|done]. destruct (Ascii.eqb a "+"); by eapply Hp.
Qed.
