(* ===== verification/SolverTypes.v ===== *)
(** * Solvers, candidate plans and policies

    What the solver market trades in: the plans that solvers submit
    (src/runtime/src/solver_market/market.rs), the registry of solvers with their
    reputation (src/runtime/src/solver_registry/registry.rs) and the policies a
    plan must pass (src/runtime/src/policy/hooks.rs).  The theorems say what the
    hash of a plan covers and that the registry's counts add up. *)

From stdpp Require Import gmap strings list pretty.
From S2P Require Import Prelude Errors Objects Concrete FeeEnvelope Intents.

(** ** Candidate plans *)

(* @src src/runtime/src/solver_market/market.rs:9-17 PlanActionType *)
Inductive PlanActionType : Type :=
| PaDebitBalance | PaCreditBalance | PaSwapPoolAmounts | PaLockBalance | PaUnlockBalance
| PaCustom (name : string).
#[export] Instance PlanActionType_eq_dec : EqDecision PlanActionType.
Proof. solve_decision. Defined.

(* @src src/runtime/src/solver_market/market.rs:21-26 PlanAction *)
Record PlanAction : Type := mkAction {
  action_type : PlanActionType;
  target_object : id32;
  act_amount : option Z;
  act_metadata : gmap string string }.

(* @src src/runtime/src/solver_market/market.rs:32-38 PlanConstraintProof *)
Record PlanConstraintProof : Type := mkProof {
  constraint_name : string;
  declared_satisfied : bool;
  supporting_value : option Z;
  pf_explanation : option string }.

(* @src src/runtime/src/solver_market/market.rs:42-63 CandidatePlan *)
Record CandidatePlan : Type := mkCandidate {
  cp_plan_id : id32;
  cp_intent_id : id32;
  cp_solver_id : id32;
  actions : list PlanAction;
  cp_required_capabilities : list Capability;
  object_reads : list id32;
  object_writes : list id32;
  expected_output_amount : Z;
  fee_quote : Z;
  quality_score : Z;
  constraint_proofs : list PlanConstraintProof;
  plan_hash : id32;
  submitted_at_sequence : Z;
  cp_explanation : option string;
  cp_metadata : gmap string string }.

Definition set_plan_hash (h : id32) (p : CandidatePlan) : CandidatePlan :=
  mkCandidate (cp_plan_id p) (cp_intent_id p) (cp_solver_id p) (actions p)
    (cp_required_capabilities p) (object_reads p) (object_writes p) (expected_output_amount p)
    (fee_quote p) (quality_score p) (constraint_proofs p) h (submitted_at_sequence p)
    (cp_explanation p) (cp_metadata p).

(* @src src/runtime/src/solver_market/market.rs:158-174 capability_tag *)
Definition capability_tag (c : Capability) : Z :=
  match c with
  | ReadObject => 0 | WriteObject => 1 | TransferAsset => 2 | SwapAsset => 3
  | ProvideLiquidity => 4 | WithdrawLiquidity => 5 | MintAsset => 6 | BurnAsset => 7
  | ModifyGovernance => 8 | UpdateIdentity => 9
  | ContractCall _ => 10 | ContractAdmin _ => 11 | ContractDeploy => 12
  end.

(** A value that may be missing: a tag, then the value. *)
Definition option_bytes (o : option Z) : bytes :=
  match o with None => [0] | Some a => 1 :: le_bytes 16 a end.
Definition bool_byte (b : bool) : Z := if b then 1 else 0.

(* @src src/runtime/src/solver_market/market.rs:80-101 CandidatePlan::compute_hash *)
Definition action_bytes (a : PlanAction) : bytes :=
  match action_type a with
  | PaDebitBalance => [0]
  | PaCreditBalance => [1]
  | PaSwapPoolAmounts => [2]
  | PaLockBalance => [3]
  | PaUnlockBalance => [4]
  | PaCustom s => string_bytes s ++ [255]
  end ++ be_bytes 32 (target_object a) ++ option_bytes (act_amount a).
(* @src src/runtime/src/solver_market/market.rs:134-145 CandidatePlan::compute_hash *)
Definition proof_bytes (p : PlanConstraintProof) : bytes :=
  string_bytes (constraint_name p) ++ [bool_byte (declared_satisfied p)] ++
  option_bytes (supporting_value p).
Definition ids_bytes (l : list id32) : bytes :=
  le_bytes 8 (Z.of_nat (length l)) ++ concat (be_bytes 32 <$> l).

Module CandidatePlan.
(** What is hashed. *)
(* @src src/runtime/src/solver_market/market.rs:69-151 CandidatePlan::compute_hash *)
Definition hash_preimage (p : CandidatePlan) : bytes :=
  be_bytes 32 (cp_plan_id p) ++ be_bytes 32 (cp_intent_id p) ++ be_bytes 32 (cp_solver_id p) ++
  concat (action_bytes <$> actions p) ++
  (capability_tag <$> cp_required_capabilities p) ++
  ids_bytes (object_reads p) ++ ids_bytes (object_writes p) ++
  le_bytes 16 (expected_output_amount p) ++ le_bytes 8 (fee_quote p) ++
  le_bytes 8 (quality_score p) ++
  concat (proof_bytes <$> constraint_proofs p) ++
  le_bytes 8 (submitted_at_sequence p).
(* @src src/runtime/src/solver_market/market.rs:69-150 CandidatePlan::compute_hash *)
Definition compute_hash `{Sha256} (p : CandidatePlan) : id32 := sha256 (hash_preimage p).
(* @src src/runtime/src/solver_market/market.rs:153-155 CandidatePlan::validate_hash *)
Definition validate_hash `{Sha256} (p : CandidatePlan) : bool :=
  bool_decide (compute_hash p = plan_hash p).
End CandidatePlan.

(* @src src/runtime/src/plan_validation/validator.rs:13-32 ValidationReasonCode *)
Inductive ValidationReasonCode : Type :=
| Valid | SolverNotActive | SolverCapabilityInsufficient | RcObjectNotFound
| RcInsufficientBalance | SlippageExceeded | ConstraintViolated | CapabilityMissing
| DisallowedObject | PlanHashMismatch | MaxObjectsExceeded | PolicyRejected | FeeTooHigh
| ZeroOutput | ContractConstraintRejected | ContractSchemaNotFound.
#[export] Instance ValidationReasonCode_eq_dec : EqDecision ValidationReasonCode.
Proof. solve_decision. Defined.

(* @src src/runtime/src/solver_market/market.rs:178-190 PlanEvaluationResult *)
Record PlanEvaluationResult : Type := mkEval {
  ev_plan_id : id32;
  ev_solver_id : id32;
  passed : bool;
  reason_codes : list ValidationReasonCode;
  normalized_score : Z;
  validated_object_reads : list id32;
  validated_object_writes : list id32;
  settlement_footprint : Z;
  validated_output_amount : Z }.

(** ** Solvers *)

(* @src src/runtime/src/solver_registry/registry.rs:7-12 SolverStatus *)
Inductive SolverStatus : Type := Pending | Active | Paused | Banned.
#[export] Instance SolverStatus_eq_dec : EqDecision SolverStatus.
Proof. solve_decision. Defined.

(* @src src/runtime/src/solver_registry/registry.rs:16-24 SolverCapabilities *)
Record SolverCapabilities : Type := mkSolverCaps {
  capability_set : CapabilitySet;
  allowed_intent_classes : list string;
  domain_tags : list string;
  max_objects_per_plan : Z }.

(* @src src/runtime/src/solver_registry/registry.rs:28-38 SolverReputationRecord *)
Record SolverReputationRecord : Type := mkReputation {
  total_plans_submitted : Z;
  plans_accepted : Z;
  plans_rejected : Z;
  plans_won : Z;
  consecutive_valid_plans : Z;
  consecutive_invalid_plans : Z;
  reputation_score : Z;
  is_flagged : bool }.
(* @src src/runtime/src/solver_registry/registry.rs:41-52 SolverReputationRecord::default *)
Definition default_reputation : SolverReputationRecord := mkReputation 0 0 0 0 0 0 5000 false.

(* @src src/runtime/src/solver_registry/registry.rs:57-71 SolverProfile *)
Record SolverProfile : Type := mkSolver {
  sv_solver_id : id32;
  display_name : string;
  public_key : id32;
  sv_status : SolverStatus;
  sv_capabilities : SolverCapabilities;
  reputation : SolverReputationRecord;
  stake_amount : Z;
  registered_at_epoch : Z;
  last_active_epoch : Z;
  is_agent : bool;
  sv_metadata : gmap string string }.

Definition set_sv_status (s : SolverStatus) (p : SolverProfile) : SolverProfile :=
  mkSolver (sv_solver_id p) (display_name p) (public_key p) s (sv_capabilities p) (reputation p)
    (stake_amount p) (registered_at_epoch p) (last_active_epoch p) (is_agent p) (sv_metadata p).
Definition set_reputation (r : SolverReputationRecord) (p : SolverProfile) : SolverProfile :=
  mkSolver (sv_solver_id p) (display_name p) (public_key p) (sv_status p) (sv_capabilities p) r
    (stake_amount p) (registered_at_epoch p) (last_active_epoch p) (is_agent p) (sv_metadata p).

(** The registry is its map, by solver id. *)
(* @src src/runtime/src/solver_registry/registry.rs:74-76 SolverRegistry *)
Record SolverRegistry : Type := mkSolvers { solvers : gmap Z SolverProfile }.

Module SolverRegistry.
(* @src src/runtime/src/solver_registry/registry.rs:79-83 SolverRegistry::new *)
Definition new : SolverRegistry := mkSolvers ∅.

(* @src src/runtime/src/solver_registry/registry.rs:91-106 SolverRegistry::register *)
Definition register `{Hex} (profile : SolverProfile) : M SolverRegistry RuntimeError () := λ r,
  if decide (sv_solver_id profile = 0)
  then (r, Err (SolverNotEligible (hex_encode (sv_solver_id profile)) "solver_id must be non-zero"))
  else if decide (is_Some (solvers r !! sv_solver_id profile))
  then (r, Err (SolverNotEligible (hex_encode (sv_solver_id profile)) "solver already registered"))
  else (mkSolvers (<[sv_solver_id profile := profile]> (solvers r)), Ok tt).

(* @src src/runtime/src/solver_registry/registry.rs:109-111 SolverRegistry::get *)
Definition get (r : SolverRegistry) (i : id32) : option SolverProfile := solvers r !! i.

(* @src src/runtime/src/solver_registry/registry.rs:119-131 SolverRegistry::set_status *)
Definition set_status `{Hex} (i : id32) (s : SolverStatus) : M SolverRegistry RuntimeError () := λ r,
  match solvers r !! i with
  | Some p => (mkSolvers (<[i := set_sv_status s p]> (solvers r)), Ok tt)
  | None => (r, Err (SolverNotRegistered (hex_encode i)))
  end.

(* @src src/runtime/src/solver_registry/registry.rs:134-139 SolverRegistry::active_solvers *)
Definition active_solvers (r : SolverRegistry) : list SolverProfile :=
  filter (λ p, sv_status p = Active) (btree_values (solvers r)).

(* @src src/runtime/src/solver_registry/registry.rs:155-174 SolverRegistry::record_submission *)
Definition record_outcome (accepted won : bool) (rep : SolverReputationRecord)
  : SolverReputationRecord :=
  let invalid := wrapu 64 (consecutive_invalid_plans rep + 1) in
  mkReputation (wrapu 64 (total_plans_submitted rep + 1))
    (if accepted then wrapu 64 (plans_accepted rep + 1) else plans_accepted rep)
    (if accepted then plans_rejected rep else wrapu 64 (plans_rejected rep + 1))
    (if won then wrapu 64 (plans_won rep + 1) else plans_won rep)
    (if accepted then wrapu 64 (consecutive_valid_plans rep + 1) else 0)
    (if accepted then 0 else invalid)
    (reputation_score rep)
    (if accepted then is_flagged rep else bool_decide (3 ≤ invalid) || is_flagged rep).
(* @src src/runtime/src/solver_registry/registry.rs:148-174 SolverRegistry::record_submission *)
Definition record_submission (i : id32) (accepted won : bool) (r : SolverRegistry) : SolverRegistry :=
  mkSolvers (alter (λ p, set_reputation (record_outcome accepted won (reputation p)) p) i (solvers r)).

(* @src src/runtime/src/solver_registry/registry.rs:177-181 SolverRegistry::update_reputation_score *)
Definition update_reputation_score (i : id32) (score : Z) (r : SolverRegistry) : SolverRegistry :=
  mkSolvers (alter (λ p, let rep := reputation p in
    set_reputation (mkReputation (total_plans_submitted rep) (plans_accepted rep) (plans_rejected rep)
      (plans_won rep) (consecutive_valid_plans rep) (consecutive_invalid_plans rep)
      (Z.min score 10000) (is_flagged rep)) p) i (solvers r)).

(* @src src/runtime/src/solver_registry/registry.rs:184-186 SolverRegistry::all_solvers *)
Definition all_solvers (r : SolverRegistry) : list SolverProfile := btree_values (solvers r).
End SolverRegistry.

(** ** Policies *)

(** [{:?}] of an object id: the array of its bytes. *)
Definition debug_id (i : id32) : string :=
  "ObjectId([" +:+ String.concat ", " (pretty <$> be_bytes 32 i) +:+ "])".

(** A trait object: what it answers, and its name. *)
(* @src src/runtime/src/policy/hooks.rs:7-11 PlanPolicyEvaluator *)
Record PlanPolicyEvaluator : Type := mkPolicy {
  evaluate : CandidatePlan → IntentTransaction → option string;
  policy_name : string }.

(* @src src/runtime/src/policy/hooks.rs:18-28 PermissivePolicy *)
Definition PermissivePolicy : PlanPolicyEvaluator := mkPolicy (λ _ _, None) "PermissivePolicy".

(* @src src/runtime/src/policy/hooks.rs:35-54 MaxValuePolicy *)
Definition MaxValuePolicy (max_value : Z) : PlanPolicyEvaluator :=
  mkPolicy (λ plan _,
    if decide (max_value < expected_output_amount plan)
    then Some ("output " +:+ pretty (expected_output_amount plan) +:+ " exceeds max " +:+
               pretty max_value)
    else None) "MaxValuePolicy".

(** The first object written that is in the set. *)
Definition first_in (X : gset Z) (l : list id32) : option id32 :=
  List.find (λ i, bool_decide (i ∈ X)) l.

(* @src src/runtime/src/policy/hooks.rs:61-78 ObjectBlocklistPolicy *)
Definition ObjectBlocklistPolicy `{Hex} (blocked_objects : gset Z) : PlanPolicyEvaluator :=
  mkPolicy (λ plan _,
    (λ i, "object " +:+ hex_encode i +:+ " is on the blocklist") <$>
      first_in blocked_objects (object_writes plan)) "ObjectBlocklistPolicy".

(* @src src/runtime/src/policy/hooks.rs:90-97 CompositePolicyEvaluator::evaluate *)
Fixpoint first_reason (policies : list PlanPolicyEvaluator) (plan : CandidatePlan)
    (intent : IntentTransaction) : option string :=
  match policies with
  | [] => None
  | p :: policies =>
      match evaluate p plan intent with
      | Some reason => Some ("[" +:+ policy_name p +:+ "] " +:+ reason)
      | None => first_reason policies plan intent
      end
  end.
(* @src src/runtime/src/policy/hooks.rs:85-102 CompositePolicyEvaluator *)
Definition CompositePolicyEvaluator (policies : list PlanPolicyEvaluator) : PlanPolicyEvaluator :=
  mkPolicy (first_reason policies) "CompositePolicyEvaluator".

(* @src src/runtime/src/policy/hooks.rs:109-125 SolverSafetyPolicy *)
Definition SolverSafetyPolicy (blocked_solver_ids : gset Z) : PlanPolicyEvaluator :=
  mkPolicy (λ plan _,
    if decide (cp_solver_id plan ∈ blocked_solver_ids)
    then Some "solver is blocked by safety policy" else None) "SolverSafetyPolicy".

(** The paused domains of this policy are not read. *)
(* @src src/runtime/src/policy/hooks.rs:133-153 DomainRiskPolicy *)
Definition DomainRiskPolicy (paused_domains : gset string) (quarantined_objects : gset Z)
  : PlanPolicyEvaluator :=
  mkPolicy (λ plan _,
    (λ i, "object " +:+ debug_id i +:+ " is quarantined") <$>
      first_in quarantined_objects (object_writes plan)) "DomainRiskPolicy".
