(* ===== verification/PlanValidation.v ===== *)
(** * Validation and ranking of candidate plans

    The checks a solver's plan must pass and its score
    (src/runtime/src/plan_validation/validator.rs), and the choice of the winner
    (src/runtime/src/selection/ranker.rs).  The theorems say exactly which plans
    pass, and that the winner is the best of them. *)

From stdpp Require Import gmap strings list.
From S2P Require Import Prelude Errors Objects Concrete Sorting Store FeeEnvelope Intents.
From S2P Require Import SolverTypes.

(** ** Validation *)

Module PlanValidator.
(* @src src/runtime/src/plan_validation/validator.rs:159-172 PlanValidator::check_solver_status *)
Definition check_solver_status (solver_opt : option SolverProfile) : option ValidationReasonCode :=
  match solver_opt with
  | None => Some SolverNotActive
  | Some solver => if decide (sv_status solver ≠ Active) then Some SolverNotActive else None
  end.

(* @src src/runtime/src/plan_validation/validator.rs:175-185 PlanValidator::check_solver_eligibility *)
Fixpoint check_solver_eligibility (solver : SolverProfile) (required_caps : list Capability)
  : option ValidationReasonCode :=
  match required_caps with
  | [] => None
  | cap :: caps =>
      if negb (CapabilitySet.contains (capability_set (sv_capabilities solver)) cap)
      then Some SolverCapabilityInsufficient
      else check_solver_eligibility solver caps
  end.

Fixpoint first_missing (store : ObjectStore) (ids : list id32) : option ValidationReasonCode :=
  match ids with
  | [] => None
  | i :: ids =>
      match ObjectStore.get store i with
      | None => Some RcObjectNotFound
      | Some _ => first_missing store ids
      end
  end.
(* @src src/runtime/src/plan_validation/validator.rs:188-204 PlanValidator::check_objects_exist *)
Definition check_objects_exist (plan : CandidatePlan) (store : ObjectStore)
  : option ValidationReasonCode :=
  match first_missing store (object_reads plan) with
  | Some c => Some c
  | None => first_missing store (object_writes plan)
  end.

(** What one action needs of the store. *)
(* @src src/runtime/src/plan_validation/validator.rs:211-224 PlanValidator::check_balance_sufficiency *)
Definition action_unfunded (store : ObjectStore) (a : PlanAction) : bool :=
  match action_type a, act_amount a with
  | PaDebitBalance, Some amt =>
      match ObjectStore.get_balance_by_id store (target_object a) with
      | Some b => bool_decide (BalanceObject.available b < amt)
      | None => true
      end
  | _, _ => false
  end.
(* @src src/runtime/src/plan_validation/validator.rs:207-226 PlanValidator::check_balance_sufficiency *)
Definition check_balance_sufficiency (plan : CandidatePlan) (store : ObjectStore)
  : option ValidationReasonCode :=
  if existsb (action_unfunded store) (actions plan) then Some RcInsufficientBalance else None.

(* @src src/runtime/src/plan_validation/validator.rs:229-235 PlanValidator::check_plan_hash *)
Definition check_plan_hash `{Sha256} (plan : CandidatePlan) : option ValidationReasonCode :=
  if negb (CandidatePlan.validate_hash plan) then Some PlanHashMismatch else None.

(* @src src/runtime/src/plan_validation/validator.rs:238-248 PlanValidator::check_object_count *)
Definition check_object_count (plan : CandidatePlan) (solver : SolverProfile)
  : option ValidationReasonCode :=
  let total_objects := Z.of_nat (length (object_reads plan)) + Z.of_nat (length (object_writes plan)) in
  if decide (max_objects_per_plan (sv_capabilities solver) < total_objects)
  then Some MaxObjectsExceeded else None.

(* @src src/runtime/src/plan_validation/validator.rs:257-281 PlanValidator::compute_score *)
Definition compute_score (plan : CandidatePlan) : Z :=
  let quality_component := Z.min (quality_score plan) 10000 * 6000 / 10000 in
  let fee_normalized := Z.min (fee_quote plan) 10000 in
  let fee_component := sat_sub 10000 fee_normalized * 3000 / 10000 in
  let constraint_component :=
    match constraint_proofs plan with
    | [] => 1000
    | proofs =>
        let satisfied := Z.of_nat (length (filter (λ p, declared_satisfied p = true) proofs)) in
        let total := Z.of_nat (length proofs) in
        satisfied * 1000 / total
    end in
  Z.min (quality_component + fee_component + constraint_component) 10000.

(** The structural checks of one contract action. *)
(* @src src/runtime/src/plan_validation/validator.rs:108-120 PlanValidator::validate *)
Definition contract_codes `{HexDecode} (a : PlanAction) : list ValidationReasonCode :=
  match action_type a with
  | PaCustom _ =>
      match act_metadata a !! "schema_id" with
      | Some schema_hex =>
          (if bool_decide (String.length schema_hex ≠ 64%nat) || bool_decide (hex_decode schema_hex = None)
           then [ContractSchemaNotFound] else []) ++
          (if decide (act_metadata a !! "proposed_state" = None)
           then [ContractConstraintRejected] else [])
      | None => []
      end
  | _ => []
  end.

(** The codes of all checks, in order. *)
(* @src src/runtime/src/plan_validation/validator.rs:51-121 PlanValidator::validate *)
Definition rejections `{Sha256, HexDecode} (plan : CandidatePlan) (intent : IntentTransaction)
    (store : ObjectStore) (registry : SolverRegistry) (policy : PlanPolicyEvaluator)
  : list ValidationReasonCode :=
  let solver_opt := SolverRegistry.get registry (cp_solver_id plan) in
  option_list (check_plan_hash plan) ++
  option_list (check_solver_status solver_opt) ++
  match solver_opt with
  | Some solver =>
      option_list (check_solver_eligibility solver (cp_required_capabilities plan)) ++
      option_list (check_object_count plan solver)
  | None => []
  end ++
  option_list (check_objects_exist plan store) ++
  option_list (check_balance_sufficiency plan store) ++
  match evaluate policy plan intent with Some _ => [PolicyRejected] | None => [] end ++
  (if decide (max_fee intent < fee_quote plan) then [FeeTooHigh] else []) ++
  (if decide (expected_output_amount plan = 0) then [ZeroOutput] else []) ++
  concat (contract_codes <$> actions plan).

(* @src src/runtime/src/plan_validation/validator.rs:42-152 PlanValidator::validate *)
Definition validate `{Sha256, HexDecode} (plan : CandidatePlan) (intent : IntentTransaction)
    (store : ObjectStore) (registry : SolverRegistry) (policy : PlanPolicyEvaluator)
  : PlanEvaluationResult :=
  let reason_codes := rejections plan intent store registry policy in
  let passed := bool_decide (reason_codes = []) in
  let normalized_score := if passed then compute_score plan else 0 in
  let reason_codes := if passed then reason_codes ++ [Valid] else reason_codes in
  let settlement_footprint := wrapu 64 (Z.of_nat (length (actions plan)) * 200 +
    Z.of_nat (length (object_writes plan)) * 500 + Z.of_nat (length (object_reads plan)) * 100) in
  mkEval (cp_plan_id plan) (cp_solver_id plan) passed reason_codes normalized_score
    (object_reads plan) (object_writes plan) settlement_footprint (expected_output_amount plan).
End PlanValidator.

(** ** Selection *)

(* @src src/runtime/src/selection/ranker.rs:6-13 SelectionPolicy *)
Inductive SelectionPolicy : Type := BestScore | LowestFee | BestOutput.
(** [{:?}] of a policy. *)
Definition debug_policy (p : SelectionPolicy) : string :=
  match p with BestScore => "BestScore" | LowestFee => "LowestFee" | BestOutput => "BestOutput" end.

Module PlanRanker.
(* @src src/runtime/src/selection/ranker.rs:50-98 PlanRanker::rank *)
Definition compare (policy : SelectionPolicy) (a b : CandidatePlan * PlanEvaluationResult) : comparison :=
  let '(plan_a, eval_a) := a in
  let '(plan_b, eval_b) := b in
  let score := normalized_score eval_b ?= normalized_score eval_a in
  let fee := fee_quote plan_a ?= fee_quote plan_b in
  let output := validated_output_amount eval_b ?= validated_output_amount eval_a in
  let lexical := cp_solver_id plan_a ?= cp_solver_id plan_b in
  match policy with
  | BestScore => then_with score (then_with fee lexical)
  | LowestFee => then_with fee (then_with score lexical)
  | BestOutput => then_with output (then_with fee lexical)
  end.

(** The indices are in range, so the indexing does not panic. *)
Definition compare_at (policy : SelectionPolicy)
    (valid_plans : list (CandidatePlan * PlanEvaluationResult)) (a b : nat) : comparison :=
  match valid_plans !! a, valid_plans !! b with
  | Some x, Some y => compare policy x y
  | _, _ => Eq
  end.
(* @src src/runtime/src/selection/ranker.rs:44-103 PlanRanker::rank *)
Definition rank (valid_plans : list (CandidatePlan * PlanEvaluationResult)) (policy : SelectionPolicy)
  : list nat := sort_by (compare_at policy valid_plans) (seq 0 (length valid_plans)).
End PlanRanker.

Module WinningPlanSelector.
(* @src src/runtime/src/selection/ranker.rs:25-34 WinningPlanSelector::select *)
Definition select (valid_plans : list (CandidatePlan * PlanEvaluationResult)) (policy : SelectionPolicy)
  : outcome RuntimeError nat :=
  if decide (valid_plans = []) then Err NoCandidatePlans
  else expect (head (PlanRanker.rank valid_plans policy)).
End WinningPlanSelector.

(** ** Lemmas *)

Section validation.
Context `{Sha256, HexDecode}.
Implicit Types (plan : CandidatePlan) (intent : IntentTransaction) (st : ObjectStore)
  (reg : SolverRegistry) (policy : PlanPolicyEvaluator) (c : ValidationReasonCode).
Import PlanValidator.

(** When a reason applies to a plan.  Four of the reasons never apply. *)
Definition applies plan intent st reg policy c : Prop :=
  match c with
  | PlanHashMismatch => CandidatePlan.compute_hash plan ≠ plan_hash plan
  | SolverNotActive => ∀ s, solvers reg !! cp_solver_id plan = Some s → sv_status s ≠ Active
  | SolverCapabilityInsufficient => ∃ s k, solvers reg !! cp_solver_id plan = Some s ∧
      k ∈ cp_required_capabilities plan ∧ k ∉ capability_set (sv_capabilities s)
  | MaxObjectsExceeded => ∃ s, solvers reg !! cp_solver_id plan = Some s ∧
      max_objects_per_plan (sv_capabilities s) <
        Z.of_nat (length (object_reads plan) + length (object_writes plan))
  | RcObjectNotFound => ∃ i, i ∈ object_reads plan ++ object_writes plan ∧ objects st !! i = None
  | RcInsufficientBalance => ∃ a amt, a ∈ actions plan ∧ action_type a = PaDebitBalance ∧
      act_amount a = Some amt ∧
      ∀ b, balances st !! target_object a = Some b → BalanceObject.available b < amt
  | PolicyRejected => evaluate policy plan intent ≠ None
  | FeeTooHigh => max_fee intent < fee_quote plan
  | ZeroOutput => expected_output_amount plan = 0
  | ContractSchemaNotFound => ∃ a name s, a ∈ actions plan ∧ action_type a = PaCustom name ∧
      act_metadata a !! "schema_id" = Some s ∧ (String.length s ≠ 64%nat ∨ hex_decode s = None)
  | ContractConstraintRejected => ∃ a name s, a ∈ actions plan ∧ action_type a = PaCustom name ∧
      act_metadata a !! "schema_id" = Some s ∧ act_metadata a !! "proposed_state" = None
  | Valid | SlippageExceeded | ConstraintViolated | CapabilityMissing | DisallowedObject => False
  end.

(** A check that reports at most one code. *)
Definition reports (o : option ValidationReasonCode) c (P : Prop) : Prop :=
  (o = Some c ∧ P) ∨ (o = None ∧ ¬ P).

Lemma reports_elem o c0 c P : reports o c0 P → (c ∈ option_list o ↔ c = c0 ∧ P).
Proof. intros [[-> ?]|[-> ?]]; cbn; set_solver. Qed.

Lemma reports_iff o c P Q : (P ↔ Q) → reports o c P → reports o c Q.
Proof. unfold reports. tauto. Qed.

Lemma decide_reports P `{Decision P} c : reports (if decide P then Some c else None) c P.
Proof. unfold reports. destruct (decide P); tauto. Qed.

Lemma eligibility_reports s caps :
  reports (check_solver_eligibility s caps) SolverCapabilityInsufficient
    (∃ k, k ∈ caps ∧ k ∉ capability_set (sv_capabilities s)).
Proof.
  induction caps as [|k caps IH]; cbn; [right; split; [done|set_solver]|].
  unfold CapabilitySet.contains. case_bool_decide as Hk; cbn.
  - eapply reports_iff; [|exact IH]. set_solver.
  - left. split; [done|]. exists k. set_solver.
Qed.

Lemma missing_reports st ids :
  reports (first_missing st ids) RcObjectNotFound (∃ i, i ∈ ids ∧ objects st !! i = None).
Proof.
  induction ids as [|i ids IH]; cbn; [right; split; [done|set_solver]|].
  unfold ObjectStore.get. destruct (objects st !! i) as [o|] eqn:E.
  - eapply reports_iff; [|exact IH]. split; [set_solver|]. intros (j & [->|Hj]%elem_of_cons & ?); [congruence|].
    by exists j.
  - left. split; [done|]. exists i. set_solver.
Qed.

Lemma exist_reports plan st :
  reports (check_objects_exist plan st) RcObjectNotFound
    (∃ i, i ∈ object_reads plan ++ object_writes plan ∧ objects st !! i = None).
Proof.
  unfold check_objects_exist. destruct (missing_reports st (object_reads plan)) as [[-> ?]|[-> ?]].
  - left. set_solver.
  - eapply reports_iff; [|apply missing_reports]. set_solver.
Qed.

Lemma unfunded_spec st a :
  action_unfunded st a = true ↔ ∃ amt, action_type a = PaDebitBalance ∧ act_amount a = Some amt ∧
    ∀ b, balances st !! target_object a = Some b → BalanceObject.available b < amt.
Proof.
  unfold action_unfunded, ObjectStore.get_balance_by_id.
  destruct (action_type a); try (split; [done|]; by intros (? & [=] & _)).
  destruct (act_amount a) as [amt|]; [|split; [done|]; by intros (? & _ & [=] & _)].
  destruct (balances st !! target_object a) as [b|].
  - rewrite bool_decide_eq_true. naive_solver.
  - naive_solver.
Qed.

Lemma balance_reports plan st :
  reports (check_balance_sufficiency plan st) RcInsufficientBalance
    (∃ a amt, a ∈ actions plan ∧ action_type a = PaDebitBalance ∧ act_amount a = Some amt ∧
      ∀ b, balances st !! target_object a = Some b → BalanceObject.available b < amt).
Proof.
  unfold check_balance_sufficiency. destruct (existsb _ _) eqn:E.
  - left. split; [done|]. apply existsb_exists in E as (a & Ha%list_elem_of_In & Hu).
    apply unfunded_spec in Hu as (amt & ?). by exists a, amt.
  - right. split; [done|]. intros (a & amt & Ha%list_elem_of_In & Hu).
    apply not_true_iff_false in E. apply E, existsb_exists. exists a. split; [done|].
    apply unfunded_spec. by exists amt.
Qed.

Lemma contract_code_elem a c :
  c ∈ contract_codes a ↔ ∃ name s, action_type a = PaCustom name ∧
    act_metadata a !! "schema_id" = Some s ∧
    ((c = ContractSchemaNotFound ∧ (String.length s ≠ 64%nat ∨ hex_decode s = None)) ∨
     (c = ContractConstraintRejected ∧ act_metadata a !! "proposed_state" = None)).
Proof.
  unfold contract_codes. destruct (action_type a); try (split; [set_solver|by intros (? & ? & [=] & _)]).
  destruct (act_metadata a !! "schema_id") as [s|]; [|set_solver].
  rewrite elem_of_app.
  assert (∀ b (x : ValidationReasonCode), c ∈ (if b : bool then [x] else []) ↔ c = x ∧ b = true) as Hif.
  { intros [] x; set_solver. }
  rewrite Hif, orb_true_iff, !bool_decide_eq_true.
  assert (c ∈ (if decide (act_metadata a !! "proposed_state" = None) then [ContractConstraintRejected] else [])
    ↔ c = ContractConstraintRejected ∧ act_metadata a !! "proposed_state" = None) as ->.
  { case_decide; set_solver. }
  split; [intros Hc; by exists name, s|]. by intros (? & ? & _ & [= ->] & Hc).
Qed.

(** The codes reported are exactly those that apply. *)
Lemma rejections_elem plan intent st reg policy c :
  c ∈ rejections plan intent st reg policy ↔ applies plan intent st reg policy c.
Proof.
  unfold rejections, SolverRegistry.get. set (so := solvers reg !! cp_solver_id plan).
  assert (reports (check_plan_hash plan) PlanHashMismatch (CandidatePlan.compute_hash plan ≠ plan_hash plan)) as H1.
  { unfold check_plan_hash, CandidatePlan.validate_hash, reports. case_bool_decide; cbn; tauto. }
  assert (reports (check_solver_status so) SolverNotActive (∀ s, so = Some s → sv_status s ≠ Active)) as H2.
  { destruct so as [s|]; cbn; [|left; by split].
    eapply reports_iff; [|apply decide_reports]. naive_solver. }
  assert (∀ x, x ∈ match so with
    | Some s => option_list (check_solver_eligibility s (cp_required_capabilities plan)) ++
        option_list (check_object_count plan s)
    | None => [] end ↔ ∃ s, so = Some s ∧
      ((x = SolverCapabilityInsufficient ∧ ∃ k, k ∈ cp_required_capabilities plan ∧
          k ∉ capability_set (sv_capabilities s)) ∨
       (x = MaxObjectsExceeded ∧ max_objects_per_plan (sv_capabilities s) <
          Z.of_nat (length (object_reads plan) + length (object_writes plan))))) as H3.
  { intros x. destruct so as [s|]; [|set_solver].
    rewrite elem_of_app, (reports_elem _ _ x _ (eligibility_reports s _)).
    unfold check_object_count. rewrite (reports_elem _ _ x _ (decide_reports _ _)), Nat2Z.inj_add.
    naive_solver. }
  rewrite !elem_of_app, (reports_elem _ _ c _ H1), (reports_elem _ _ c _ H2), H3,
    (reports_elem _ _ c _ (exist_reports plan st)), (reports_elem _ _ c _ (balance_reports plan st)).
  assert (c ∈ match evaluate policy plan intent with Some _ => [PolicyRejected] | None => [] end ↔
    c = PolicyRejected ∧ evaluate policy plan intent ≠ None) as ->.
  { destruct (evaluate policy plan intent); set_solver. }
  assert (∀ P (HP : Decision P) x, c ∈ (if decide P then [x] else []) ↔ c = x ∧ P) as Hif.
  { intros P HP x. destruct (decide P); set_solver. }
  assert (c ∈ concat (contract_codes <$> actions plan) ↔
    ∃ a, a ∈ actions plan ∧ c ∈ contract_codes a) as ->.
  { rewrite list_elem_of_In, in_concat. setoid_rewrite <- list_elem_of_In.
    setoid_rewrite list_elem_of_fmap. naive_solver. }
  rewrite !Hif.
  setoid_rewrite contract_code_elem. destruct c; cbn; naive_solver.
Qed.

Lemma score_bounds plan : 0 ≤ quality_score plan → 0 ≤ fee_quote plan → 0 ≤ compute_score plan ≤ 10000.
Proof.
  intros Hq Hf. unfold compute_score.
  assert (0 ≤ Z.min (quality_score plan) 10000 * 6000 / 10000) by (apply Z.div_pos; lia).
  assert (0 ≤ sat_sub 10000 (Z.min (fee_quote plan) 10000) * 3000 / 10000)
    by (apply Z.div_pos; unfold sat_sub; lia).
  assert (0 ≤ match constraint_proofs plan with [] => 1000 | p :: l =>
    Z.of_nat (length (filter (λ p, declared_satisfied p = true) (p :: l))) * 1000 /
      Z.of_nat (length (p :: l)) end).
  { destruct (constraint_proofs plan); [lia|]. apply Z.div_pos; cbn [length]; lia. }
  destruct (constraint_proofs plan); lia.
Qed.

Lemma validate_passes plan intent st reg policy :
  (∀ c, ¬ applies plan intent st reg policy c) →
  passed (validate plan intent st reg policy) = true.
Proof.
  intros Hno. cbn. apply bool_decide_eq_true.
  destruct (rejections plan intent st reg policy) as [|c l] eqn:E; [done|].
  destruct (Hno c). apply rejections_elem. rewrite E. left.
Qed.

(** ** What passes *)

(** The verdict on a plan.  Each reason code is reported exactly when its check
    fails; the plan passes exactly when none does, then with the code [Valid] alone
    and a score between 0 and 10000; a plan that does not pass scores 0.  Slippage
    and the constraints of the intent are never among the reasons, nor whether the
    plan is for this intent and moves its sender's funds. *)
Theorem plan_validate_spec plan intent st reg policy :
  let e := validate plan intent st reg policy in
  (passed e = true ↔ ∀ c, ¬ applies plan intent st reg policy c) ∧
  (passed e = true → reason_codes e = [Valid] ∧ normalized_score e = compute_score plan ∧
     (0 ≤ quality_score plan → 0 ≤ fee_quote plan → 0 ≤ normalized_score e ≤ 10000)) ∧
  (passed e = false → normalized_score e = 0 ∧
     ∀ c, c ∈ reason_codes e ↔ applies plan intent st reg policy c) ∧
  ev_plan_id e = cp_plan_id plan ∧ ev_solver_id e = cp_solver_id plan ∧
  validated_output_amount e = expected_output_amount plan.
Proof.
  unfold validate. cbv zeta. cbn [passed reason_codes normalized_score ev_plan_id ev_solver_id
    validated_output_amount].
  pose proof (rejections_elem plan intent st reg policy) as He. case_bool_decide as Hr.
  - rewrite Hr in He |- *. split_and!; try done.
    + split; [|done]. intros _ c Hc%He. by apply elem_of_nil in Hc.
    + intros _. split_and!; [done..|]. apply score_bounds.
  - split_and!; try done. split; [done|]. intros Hno. exfalso. apply Hr.
    destruct (rejections plan intent st reg policy) as [|c l] eqn:E; [done|].
    destruct (Hno c). apply He. left.
Qed.
End validation.

(** ** Ranking *)

Section ranking.
Implicit Types (x y : CandidatePlan * PlanEvaluationResult) (policy : SelectionPolicy)
  (l : list (CandidatePlan * PlanEvaluationResult)).
Import PlanRanker.

(** What a policy compares, smaller first. *)
Definition rank_key policy x : Z * Z * Z :=
  let score := - normalized_score x.2 in
  let output := - validated_output_amount x.2 in
  match policy with
  | BestScore => (score, fee_quote x.1, cp_solver_id x.1)
  | LowestFee => (fee_quote x.1, score, cp_solver_id x.1)
  | BestOutput => (output, fee_quote x.1, cp_solver_id x.1)
  end.

Definition lex_compare (k k' : Z * Z * Z) (c : comparison) : comparison :=
  then_with (k.1.1 ?= k'.1.1) (then_with (k.1.2 ?= k'.1.2) (then_with (k.2 ?= k'.2) c)).
Definition lex_lt (k k' : Z * Z * Z) : Prop :=
  k.1.1 < k'.1.1 ∨ (k.1.1 = k'.1.1 ∧ (k.1.2 < k'.1.2 ∨ (k.1.2 = k'.1.2 ∧ k.2 < k'.2))).

Lemma lex_no_later k k' c : lex_compare k k' c ≠ Gt ↔ lex_lt k k' ∨ (k = k' ∧ c ≠ Gt).
Proof.
  unfold lex_compare, lex_lt. rewrite !then_with_compare. destruct k as [[a b] d], k' as [[a' b'] d'].
  cbn. split; [naive_solver|]. intros [H|[[= -> -> ->] ?]]; naive_solver.
Qed.

Lemma compare_key policy x y : compare policy x y = lex_compare (rank_key policy x) (rank_key policy y) Eq.
Proof.
  destruct x as [p e], y as [p' e'], policy; cbn; unfold lex_compare; cbn;
    rewrite ?Z.compare_opp, ?Z.opp_involutive;
    destruct (cp_solver_id p ?= cp_solver_id p'); done.
Qed.

(** The comparison with ties broken by position. *)
Definition key_at policy l (i : nat) : Z * Z * Z := default (0, 0, 0) (rank_key policy <$> l !! i).
Definition placed_cmp policy l (i j : nat) : comparison :=
  lex_compare (key_at policy l i) (key_at policy l j) (Z.of_nat i ?= Z.of_nat j).

Lemma placed_no_later policy l i j :
  no_later (placed_cmp policy l) i j ↔
  lex_lt (key_at policy l i) (key_at policy l j) ∨
  (key_at policy l i = key_at policy l j ∧ (i ≤ j)%nat).
Proof. unfold no_later, placed_cmp. rewrite lex_no_later, Z.compare_le_iff. by rewrite <- Nat2Z.inj_le. Qed.

Lemma lex_total k k' : lex_lt k k' ∨ k = k' ∨ lex_lt k' k.
Proof.
  destruct k as [[a b] d], k' as [[a' b'] d']. unfold lex_lt. cbn.
  destruct (Z.lt_trichotomy a a') as [|[->|]], (Z.lt_trichotomy b b') as [|[->|]],
    (Z.lt_trichotomy d d') as [|[->|]]; tauto.
Qed.
Lemma lex_trans k k' k'' : lex_lt k k' → lex_lt k' k'' → lex_lt k k''.
Proof. destruct k as [[a b] d], k' as [[a' b'] d'], k'' as [[a'' b''] d'']. unfold lex_lt. cbn. lia. Qed.

Lemma placed_total policy l i j : placed_cmp policy l i j = Gt → no_later (placed_cmp policy l) j i.
Proof.
  intros E. assert (¬ no_later (placed_cmp policy l) i j) as Hn by (unfold no_later; congruence).
  rewrite placed_no_later in Hn |- *.
  destruct (lex_total (key_at policy l i) (key_at policy l j)) as [|[Ek|]]; [tauto| |tauto].
  right. split; [done|]. destruct (decide (i ≤ j)%nat); [exfalso; apply Hn; by right|lia].
Qed.
Lemma placed_trans policy l i j k :
  no_later (placed_cmp policy l) i j → no_later (placed_cmp policy l) j k →
  no_later (placed_cmp policy l) i k.
Proof.
  rewrite !placed_no_later. intros [H1|[H1 ?]] [H2|[H2 ?]].
  - left. by eapply lex_trans.
  - left. congruence.
  - left. congruence.
  - right. split; [congruence|lia].
Qed.

Lemma rank_placed policy l : rank l policy = sort_by (placed_cmp policy l) (seq 0 (length l)).
Proof.
  apply sort_by_ext, seq_sorted. intros i j Hij Hj. unfold compare_at, placed_cmp, key_at.
  destruct (lookup_lt_is_Some_2 l i) as [x Hx]; [lia|].
  destruct (lookup_lt_is_Some_2 l j) as [y Hy]; [lia|].
  rewrite Hx, Hy. cbn [fmap option_fmap option_map default]. rewrite compare_key.
  unfold lex_compare. rewrite (proj2 (Z.compare_lt_iff (Z.of_nat i) (Z.of_nat j))) by lia.
  repeat (destruct (_ ?= _); cbn; try done).
Qed.

Lemma select_winner policy l :
  l ≠ [] →
  ∃ i x, WinningPlanSelector.select l policy = Ok i ∧ l !! i = Some x ∧
    ∀ j y, l !! j = Some y →
      lex_lt (rank_key policy x) (rank_key policy y) ∨
      (rank_key policy x = rank_key policy y ∧ (i ≤ j)%nat).
Proof.
  intros Hl. unfold WinningPlanSelector.select. rewrite decide_False by done.
  rewrite rank_placed.
  destruct (sort_by_head_some (placed_cmp policy l) (seq 0 (length l))) as [i Hi].
  { by destruct l. }
  pose proof (sort_by_head _ (placed_total policy l) (placed_trans policy l) _ _ Hi) as [Hin Hmin].
  apply elem_of_seq in Hin. destruct (lookup_lt_is_Some_2 l i) as [x Hx]; [lia|].
  exists i, x. rewrite Hi. split; [done|]. split; [done|]. intros j y Hj.
  assert (j ∈ seq 0 (length l)) as Hjs.
  { apply elem_of_seq. apply lookup_lt_Some in Hj. lia. }
  pose proof (Hmin j Hjs) as Hb. apply placed_no_later in Hb. unfold key_at in Hb.
  by rewrite Hx, Hj in Hb.
Qed.
(** The winner: there is one whenever a plan is valid, and it comes before every
    other plan in the order of the policy (best score, then lowest fee; lowest fee,
    then best score; or largest output, then lowest fee; then the least solver id),
    the earlier of two plans that tie. *)
Theorem select_best policy l :
  l ≠ [] →
  ∃ i x, WinningPlanSelector.select l policy = Ok i ∧ l !! i = Some x ∧
    ∀ j y, l !! j = Some y →
      lex_lt (rank_key policy x) (rank_key policy y) ∨
      (rank_key policy x = rank_key policy y ∧ (i ≤ j)%nat).
Proof. apply select_winner. Qed.
End ranking.

(** ** Sample ranking *)

Definition ranked_plan (sid fee : Z) : CandidatePlan :=
  mkCandidate sid 1 sid [] [] [] [] 10 fee 5000 [] 0 0 None ∅.
Definition ranked_list : list (CandidatePlan * PlanEvaluationResult) :=
  (λ x, (ranked_plan x.1.1 x.1.2, mkEval x.1.1 x.1.1 true [Valid] x.2 [] [] 0 10)) <$>
    [(3, 40, 700); (9, 30, 800); (4, 30, 800); (4, 30, 800)].

(** The best score and lowest fee are shared by three plans, the least solver id by
    two of them: the earlier wins. *)
Lemma select_best_witness :
  ∃ i x, WinningPlanSelector.select ranked_list BestScore = Ok i ∧ i = 2%nat ∧
    ranked_list !! i = Some x ∧ cp_solver_id x.1 = 4.
Proof.
  destruct (select_best BestScore ranked_list) as (i & x & E & Hx & _); [discriminate|].
  assert (WinningPlanSelector.select ranked_list BestScore = Ok 2%nat) as E2 by (vm_compute; reflexivity).
  rewrite E in E2. injection E2 as ->. exists 2%nat, x. split; [exact E|]. split; [reflexivity|].
  split; [exact Hx|]. vm_compute in Hx. injection Hx as <-. reflexivity.
Defined.
