(* ===== verification/Crx.v ===== *)
(** * Goals, rights and causal graphs

    The data of the CRX layer: goal packets (src/runtime/src/crx/goal_packet.rs),
    rights capsules (crx/rights_capsule.rs) and causal graphs with their
    topological order (crx/causal_graph.rs).  CrxOrder has the theorems about the
    order; CrxChecks, CrxPlan, CrxExec and CrxSettle the operations on a graph. *)

From stdpp Require Import gmap strings list sorting pretty.
From S2P Require Import Prelude Errors Objects Intents Sorting.

(** The encodings that are hashed. *)
Definition id4_hex `{HexBytes} (i : id32) : string := hex_bytes (take 4 (be_bytes 32 i)).

(** ** Goal packets *)

(* @src src/runtime/src/crx/goal_packet.rs:8-13 RiskTier *)
Inductive RiskTier : Type := RiskLow | RiskStandard | RiskElevated | RiskCritical.

(* @src src/runtime/src/crx/goal_packet.rs:16-25 PartialFailurePolicy *)
Inductive PartialFailurePolicy : Type :=
| StrictAllOrNothing | AllowBranchDowngrade | QuarantineOnFailure | DowngradeAndContinue.
#[export] Instance PartialFailurePolicy_eq_dec : EqDecision PartialFailurePolicy.
Proof. solve_decision. Defined.

(* @src src/runtime/src/crx/goal_packet.rs:28-36 GoalConstraints *)
Record GoalConstraints : Type := mkGoalConstraints {
  gc_min_output_amount : Z;
  gc_max_slippage_bps : Z;
  gc_allowed_object_ids : option (list id32);
  gc_allowed_object_types : list ObjectType;
  gc_allowed_domains : list string;
  gc_forbidden_domains : list string;
  gc_max_objects_touched : Z }.
(* @src src/runtime/src/crx/goal_packet.rs:39-49 GoalConstraints::default *)
Definition default_goal_constraints : GoalConstraints :=
  mkGoalConstraints 0 300 None [TBalance; TWallet] [] [] 16.

(* @src src/runtime/src/crx/goal_packet.rs:53-60 SettlementStrictness *)
Inductive SettlementStrictness : Type := SsStrict | SsLenient | SsProvisional.
#[export] Instance SettlementStrictness_eq_dec : EqDecision SettlementStrictness.
Proof. solve_decision. Defined.

(* @src src/runtime/src/crx/goal_packet.rs:63-69 GoalPolicyEnvelope *)
Record GoalPolicyEnvelope : Type := mkGoalPolicy {
  risk_tier : RiskTier;
  partial_failure_policy : PartialFailurePolicy;
  require_rights_capsule : bool;
  require_causal_audit : bool;
  settlement_strictness : SettlementStrictness }.
(* @src src/runtime/src/crx/goal_packet.rs:72-80 GoalPolicyEnvelope::default *)
Definition default_goal_policy : GoalPolicyEnvelope :=
  mkGoalPolicy RiskStandard StrictAllOrNothing true true SsStrict.

(* @src src/runtime/src/crx/goal_packet.rs:84-95 GoalPacket *)
Record GoalPacket : Type := mkGoal {
  gp_packet_id : id32;
  gp_intent_id : id32;
  gp_sender : id32;
  desired_outcome : string;
  gp_constraints : GoalConstraints;
  gp_policy : GoalPolicyEnvelope;
  gp_max_fee : Z;
  gp_deadline_epoch : Z;
  gp_nonce : Z;
  gp_metadata : gmap string string }.

(** ** Rights capsules *)

(* @src src/runtime/src/crx/rights_capsule.rs:16-27 AllowedActionType *)
Inductive AllowedActionType : Type :=
| AaRead | AaDebitBalance | AaCreditBalance | AaSwapPoolAmounts | AaLockBalance | AaUnlockBalance
| AaCreateObject | AaUpdateVersion | AaEmitReceipt | AaInvokeSafetyHook.
#[export] Instance AllowedActionType_eq_dec : EqDecision AllowedActionType.
Proof. solve_decision. Defined.

(** All of them, in the derived order. *)
Definition all_actions : list AllowedActionType :=
  [AaRead; AaDebitBalance; AaCreditBalance; AaSwapPoolAmounts; AaLockBalance; AaUnlockBalance;
   AaCreateObject; AaUpdateVersion; AaEmitReceipt; AaInvokeSafetyHook].
#[export] Instance AllowedActionType_finite : finite.Finite AllowedActionType.
Proof. refine {| finite.enum := all_actions |}; [by_decide|by intros []; by_decide]. Defined.
#[export] Instance AllowedActionType_countable : Countable AllowedActionType := finite.finite_countable.

(** [{:?}] of an action. *)
Definition debug_action (a : AllowedActionType) : string :=
  match a with
  | AaRead => "Read" | AaDebitBalance => "DebitBalance" | AaCreditBalance => "CreditBalance"
  | AaSwapPoolAmounts => "SwapPoolAmounts" | AaLockBalance => "LockBalance"
  | AaUnlockBalance => "UnlockBalance" | AaCreateObject => "CreateObject"
  | AaUpdateVersion => "UpdateVersion" | AaEmitReceipt => "EmitReceipt"
  | AaInvokeSafetyHook => "InvokeSafetyHook"
  end.

#[export] Instance ObjectType_countable : Countable ObjectType.
Proof.
  refine (inj_countable
    (λ t, match t with
          | TWallet => (0, 0) | TBalance => (1, 0) | TToken => (2, 0) | TLiquidityPool => (3, 0)
          | TVault => (4, 0) | TGovernanceProposal => (5, 0) | TIdentity => (6, 0)
          | TExecutionReceipt => (7, 0) | TContract s => (8, s)
          end)
    (λ p, nth (Z.to_nat p.1) [Some TWallet; Some TBalance; Some TToken; Some TLiquidityPool;
       Some TVault; Some TGovernanceProposal; Some TIdentity; Some TExecutionReceipt;
       Some (TContract p.2)] None) _). by intros [].
Defined.

(** [{:?}] of an object type. *)
Definition debug_object_type (t : ObjectType) : string :=
  match t with
  | TWallet => "Wallet" | TBalance => "Balance" | TToken => "Token"
  | TLiquidityPool => "LiquidityPool" | TVault => "Vault"
  | TGovernanceProposal => "GovernanceProposal" | TIdentity => "Identity"
  | TExecutionReceipt => "ExecutionReceipt" | TContract s => "Contract(" +:+ debug_bytes32 s +:+ ")"
  end.

(* @src src/runtime/src/crx/rights_capsule.rs:30-30 AllowedActionSet *)
Abbreviation AllowedActionSet := (gset AllowedActionType).
Module AllowedActionSet.
(* @src src/runtime/src/crx/rights_capsule.rs:34-47 AllowedActionSet::full *)
Definition full : AllowedActionSet :=
  {[AaRead; AaDebitBalance; AaCreditBalance; AaSwapPoolAmounts; AaLockBalance; AaUnlockBalance;
    AaCreateObject; AaUpdateVersion; AaEmitReceipt; AaInvokeSafetyHook]}.
(* @src src/runtime/src/crx/rights_capsule.rs:49-53 AllowedActionSet::read_only *)
Definition read_only : AllowedActionSet := {[AaRead]}.
(* @src src/runtime/src/crx/rights_capsule.rs:56-64 AllowedActionSet::transfer_only *)
Definition transfer_only : AllowedActionSet :=
  {[AaRead; AaDebitBalance; AaCreditBalance; AaUpdateVersion; AaEmitReceipt]}.
(* @src src/runtime/src/crx/rights_capsule.rs:67-76 AllowedActionSet::swap_only *)
Definition swap_only : AllowedActionSet :=
  {[AaRead; AaDebitBalance; AaCreditBalance; AaSwapPoolAmounts; AaUpdateVersion; AaEmitReceipt]}.
(* @src src/runtime/src/crx/rights_capsule.rs:78-80 AllowedActionSet::contains *)
Definition contains (s : AllowedActionSet) (a : AllowedActionType) : bool := bool_decide (a ∈ s).
End AllowedActionSet.

(* @src src/runtime/src/crx/rights_capsule.rs:84-87 DomainAccessEnvelope *)
Record DomainAccessEnvelope : Type := mkDomains {
  allowed_domains : gset string;
  forbidden_domains : gset string }.
Module DomainAccessEnvelope.
(* @src src/runtime/src/crx/rights_capsule.rs:90-94 DomainAccessEnvelope::is_domain_allowed *)
Definition is_domain_allowed (e : DomainAccessEnvelope) (domain : string) : bool :=
  negb (bool_decide (domain ∈ forbidden_domains e)) &&
  (bool_decide (allowed_domains e = ∅) || bool_decide (domain ∈ allowed_domains e)).
(* @src src/runtime/src/crx/rights_capsule.rs:96-101 DomainAccessEnvelope::unrestricted *)
Definition unrestricted : DomainAccessEnvelope := mkDomains ∅ ∅.
End DomainAccessEnvelope.

(* @src src/runtime/src/crx/rights_capsule.rs:105-118 RightsScope *)
Record RightsScope : Type := mkScope {
  sc_object_ids : gset Z;
  sc_object_types : gset ObjectType;
  allowed_actions : AllowedActionSet;
  domain_envelope : DomainAccessEnvelope;
  sc_max_spend : Z;
  sc_max_objects_touched : Z;
  allow_rollback : bool;
  allow_downgrade : bool;
  quarantine_eligible : bool }.

(* @src src/runtime/src/crx/rights_capsule.rs:121-131 RightsCapsule *)
Record RightsCapsule : Type := mkCapsule {
  capsule_id : id32;
  rc_goal_packet_id : id32;
  authorized_solver_id : id32;
  rc_scope : RightsScope;
  valid_from_epoch : Z;
  valid_until_epoch : Z;
  capsule_hash : id32;
  rc_metadata : gmap string string }.
Definition set_capsule_hash (h : id32) (c : RightsCapsule) : RightsCapsule :=
  mkCapsule (capsule_id c) (rc_goal_packet_id c) (authorized_solver_id c) (rc_scope c)
    (valid_from_epoch c) (valid_until_epoch c) h (rc_metadata c).

(** ** Causal graphs *)

(* @src src/runtime/src/crx/causal_graph.rs:13-21 ObjectRiskTag *)
Inductive ObjectRiskTag : Type :=
| TreasuryCritical | GovernanceSensitive | OracleDependentTag | UserRecoverable
| QuarantineEligible | BridgeAdjacent | LiquiditySystemic.

(* @src src/runtime/src/crx/causal_graph.rs:41-62 NodeExecutionClass *)
Inductive NodeExecutionClass : Type :=
| NxReadObject | NxCheckPolicy | NxCheckBalance | NxReserveLiquidity | NxMutateBalance
| NxSwapPoolAmounts | NxLockObject | NxUnlockObject | NxCreateObject | NxEmitReceipt
| NxInvokeSafetyHook | NxFinalizeSettlement | NxBranchGate
| NxContractStateTransition (schema_id : id32) (method : string).
#[export] Instance NodeExecutionClass_eq_dec : EqDecision NodeExecutionClass.
Proof. solve_decision. Defined.

(* @src src/runtime/src/crx/causal_graph.rs:65-71 NodeAccessType *)
Inductive NodeAccessType : Type :=
| NaRead | NaWrite | NaConditional | NaValidationOnly | NaSettlementOnly.
#[export] Instance NodeAccessType_eq_dec : EqDecision NodeAccessType.
Proof. solve_decision. Defined.

(** A [NodeId] is its number. *)
(* @src src/runtime/src/crx/causal_graph.rs:38-38 NodeId *)
Abbreviation NodeId := Z (only parsing).
Definition debug_node (n : NodeId) : string := "NodeId(" +:+ pretty n +:+ ")".

(* @src src/runtime/src/crx/causal_graph.rs:74-86 CausalNode *)
Record CausalNode : Type := mkNode {
  node_id : NodeId;
  label : string;
  execution_class : NodeExecutionClass;
  access_type : NodeAccessType;
  nd_target : option id32;
  nd_amount : option Z;
  nd_branch_id : Z;
  domain_tag : option string;
  risk_tags : list ObjectRiskTag;
  nd_metadata : gmap string string }.

(* @src src/runtime/src/crx/causal_graph.rs:96-109 NodeDependencyKind *)
Inductive NodeDependencyKind : Type :=
| StateDependent | PolicyDependent | OracleDependent | RightsDependent | DomainDependent
| OrderingOnly.
#[export] Instance NodeDependencyKind_eq_dec : EqDecision NodeDependencyKind.
Proof. solve_decision. Defined.

(* @src src/runtime/src/crx/causal_graph.rs:112-118 CausalEdge *)
Record CausalEdge : Type := mkEdge {
  e_from : NodeId;
  e_to : NodeId;
  dependency_kind : NodeDependencyKind;
  is_critical : bool }.

(* @src src/runtime/src/crx/causal_graph.rs:125-131 ExecutionBranch *)
Record ExecutionBranch : Type := mkBranch {
  branch_id : Z;
  br_nodes : list NodeId;
  is_main : bool;
  failure_allowed : bool }.

(* @src src/runtime/src/crx/causal_graph.rs:138-147 CausalGraph *)
Record CausalGraph : Type := mkGraph {
  graph_id : id32;
  cg_goal_packet_id : id32;
  nodes : gmap Z CausalNode;
  edges : list CausalEdge;
  branches : list ExecutionBranch;
  topological_order : list NodeId;
  graph_hash : id32 }.
Definition set_graph_hash (h : id32) (g : CausalGraph) : CausalGraph :=
  mkGraph (graph_id g) (cg_goal_packet_id g) (nodes g) (edges g) (branches g)
    (topological_order g) h.

(** [bincode] on the three values that are hashed. *)
Class CrxBincode := {
  encode_packet : GoalPacket → bytes;
  encode_scope : RightsScope → bytes;
  encode_node : CausalNode → bytes }.

Module GoalPacket.
(* @src src/runtime/src/crx/goal_packet.rs:98-120 GoalPacket::validate *)
Definition validate (g : GoalPacket) : outcome RuntimeError () :=
  if decide (gp_packet_id g = 0) then Err (GoalPacketInvalid "zero packet_id")
  else if decide (gp_max_fee g = 0) then Err (GoalPacketInvalid "max_fee must be > 0")
  else if decide (gp_deadline_epoch g = 0) then Err (GoalPacketInvalid "deadline_epoch must be > 0")
  else if decide (gc_allowed_object_types (gp_constraints g) = [] ∧
                  gc_allowed_domains (gp_constraints g) = [])
  then Err (GoalPacketInvalid "must specify at least one allowed_object_type or allowed_domain")
  else Ok tt.
(* @src src/runtime/src/crx/goal_packet.rs:123-129 GoalPacket::compute_hash *)
Definition compute_hash `{Sha256, CrxBincode} (g : GoalPacket) : id32 := sha256 (encode_packet g).
End GoalPacket.

(* @src src/runtime/src/crx/goal_packet.rs:201-210 intent_type_name *)
Definition intent_type_name (i : IntentType) : string :=
  match i with
  | ITransfer _ => "transfer"
  | ISwap _ => "swap"
  | IYieldAllocate _ => "yield_allocate"
  | ITreasuryRebalance _ => "treasury_rebalance"
  | IRouteLiquidity _ => "route_liquidity"
  | IContractCall _ => "contract_call"
  end.

(** The object types and the description of each intent type. *)
(* @src src/runtime/src/crx/goal_packet.rs:136-162 goal_packet_from_intent *)
Definition goal_scope `{HexBytes} (i : IntentType) : list ObjectType * string :=
  match i with
  | ITransfer _ => ([TBalance; TWallet], "Transfer assets from sender to recipient")
  | ISwap _ => ([TBalance; TLiquidityPool], "Swap input asset for output asset via liquidity pool")
  | IYieldAllocate _ => ([TBalance; TVault], "Allocate assets to yield-bearing vault")
  | ITreasuryRebalance _ => ([TBalance], "Rebalance treasury assets between asset classes")
  | IRouteLiquidity _ =>
      ([TBalance; TLiquidityPool], "Route liquidity between pools via multi-hop path")
  | IContractCall c =>
      ([TContract (cc_schema_id c)],
       "Contract call: " +:+ id4_hex (cc_schema_id c) +:+ "." +:+ method_selector c)
  end.

(** The first byte of the packet id differs from that of the intent's id in its
    last bit. *)
(* @src src/runtime/src/crx/goal_packet.rs:133-199 goal_packet_from_intent *)
Definition goal_packet_from_intent `{HexBytes} (t : IntentTransaction) (epoch : Z) : GoalPacket :=
  let '(types, outcome) := goal_scope (intent t) in
  let '(min_output, slippage) :=
    match intent t with
    | ISwap s => (min_output_amount s, sw_max_slippage_bps s)
    | _ => (0, 300)
    end in
  mkGoal (Z.lxor (tx_id t) (2 ^ 248)) (tx_id t) (sender t) outcome
    (mkGoalConstraints min_output slippage None types [] [] 16) default_goal_policy (max_fee t)
    (if decide (0 < it_deadline_epoch t) then it_deadline_epoch t else wrapu 64 (epoch + 100))
    (nonce t) (<["intent_type" := intent_type_name (intent t)]> (metadata t)).

Module RightsCapsule.
(** The entries of a string map, in key order. *)
Definition string_entries (m : gmap string string) : list (string * string) :=
  sort_by (λ a b, String.compare a.1 b.1) (map_to_list m).
(** What is hashed. *)
Definition hash_preimage `{CrxBincode} (c : RightsCapsule) : bytes :=
  be_bytes 32 (capsule_id c) ++ be_bytes 32 (rc_goal_packet_id c) ++
  be_bytes 32 (authorized_solver_id c) ++
  le_bytes 8 (Z.of_nat (length (encode_scope (rc_scope c)))) ++ encode_scope (rc_scope c) ++
  le_bytes 8 (valid_from_epoch c) ++ le_bytes 8 (valid_until_epoch c) ++
  concat ((λ p, string_bytes p.1 ++ string_bytes p.2) <$> string_entries (rc_metadata c)).
(* @src src/runtime/src/crx/rights_capsule.rs:135-155 RightsCapsule::compute_hash *)
Definition compute_hash `{Sha256, CrxBincode} (c : RightsCapsule) : id32 := sha256 (hash_preimage c).
(* @src src/runtime/src/crx/rights_capsule.rs:157-159 RightsCapsule::validate_hash *)
Definition validate_hash `{Sha256, CrxBincode} (c : RightsCapsule) : bool :=
  bool_decide (compute_hash c = capsule_hash c).
(* @src src/runtime/src/crx/rights_capsule.rs:161-163 RightsCapsule::is_valid_at_epoch *)
Definition is_valid_at_epoch (c : RightsCapsule) (epoch : Z) : bool :=
  bool_decide (valid_from_epoch c ≤ epoch) && bool_decide (epoch ≤ valid_until_epoch c).
(* @src src/runtime/src/crx/rights_capsule.rs:165-169 RightsCapsule::can_access_object *)
Definition can_access_object (c : RightsCapsule) (i : id32) (t : ObjectType) : bool :=
  (bool_decide (sc_object_ids (rc_scope c) = ∅) || bool_decide (i ∈ sc_object_ids (rc_scope c))) &&
  bool_decide (t ∈ sc_object_types (rc_scope c)).
(* @src src/runtime/src/crx/rights_capsule.rs:171-173 RightsCapsule::can_perform_action *)
Definition can_perform_action (c : RightsCapsule) (a : AllowedActionType) : bool :=
  AllowedActionSet.contains (allowed_actions (rc_scope c)) a.
End RightsCapsule.

(** ** The topological order

    Only the ends of the edges matter to it. *)
Definition edge_pairs (l : list CausalEdge) : list (NodeId * NodeId) := (λ e, (e_from e, e_to e)) <$> l.

(* @src src/runtime/src/crx/causal_graph.rs:157-161 CausalGraph::compute_topological_order *)
Definition in_degrees {A} (ns : gmap Z A) (es : list (NodeId * NodeId)) : gmap Z Z :=
  foldl (λ m e, incr e.2 m) ((λ _, 0) <$> ns) es.
(* @src src/runtime/src/crx/causal_graph.rs:158-168 CausalGraph::compute_topological_order *)
Definition adjacency {A} (ns : gmap Z A) (es : list (NodeId * NodeId)) : gmap Z (list NodeId) :=
  merge_sort Z.le <$>
    foldl (λ m e, <[e.1 := default [] (m !! e.1) ++ [e.2]]> m) ((λ _, []) <$> ns) es.

(** One neighbour of a finished node: its degree falls, and at 0 it is ready. *)
(* @src src/runtime/src/crx/causal_graph.rs:184-190 CausalGraph::compute_topological_order *)
Definition relax (n : NodeId) (s : gmap Z Z * gset Z) : total_or_panic (gmap Z Z * gset Z) :=
  deg ← expect (s.1 !! n);
  let deg := wrapu 64 (deg - 1) in
  Ok (<[n := deg]> s.1, if decide (deg = 0) then {[n]} ∪ s.2 else s.2).
Fixpoint relax_all (l : list NodeId) (s : gmap Z Z * gset Z) : total_or_panic (gmap Z Z * gset Z) :=
  match l with
  | [] => Ok s
  | n :: l => s ← relax n s; relax_all l s
  end.

(** The loop; running out of fuel counts as a panic, and neither happens. *)
(* @src src/runtime/src/crx/causal_graph.rs:170-194 CausalGraph::compute_topological_order *)
Fixpoint kahn (fuel : nat) (adj : gmap Z (list NodeId)) (s : gmap Z Z * gset Z) (result : list NodeId)
  : total_or_panic (list NodeId) :=
  match sorted_elements s.2 with
  | [] => Ok result
  | node :: _ =>
      match fuel with
      | O => Panic
      | S fuel =>
          s ← relax_all (default [] (adj !! node)) (s.1, s.2 ∖ {[node]});
          kahn fuel adj s (result ++ [node])
      end
  end.

Module CausalGraph.
(* @src src/runtime/src/crx/causal_graph.rs:152-195 CausalGraph::compute_topological_order *)
Definition compute_topological_order {A} (ns : gmap Z A) (es : list (NodeId * NodeId))
  : total_or_panic (list NodeId) :=
  let degs := in_degrees ns es in
  kahn (size degs) (adjacency ns es)
    (degs, dom (filter (λ p : Z * Z, p.2 = 0) degs)) [].

(* @src src/runtime/src/crx/causal_graph.rs:222-230 CausalGraph::validate_acyclic *)
Definition validate_acyclic (g : CausalGraph) : outcome RuntimeError () :=
  match compute_topological_order (nodes g) (edge_pairs (edges g)) with
  | Ok order =>
      if decide (length order ≠ size (nodes g))
      then Err (CausalViolation "cycle detected in causal graph") else Ok tt
  | _ => Panic
  end.

Definition node_bytes `{CrxBincode} (p : Z * CausalNode) : bytes :=
  le_bytes 4 p.1 ++ le_bytes 8 (Z.of_nat (length (encode_node p.2))) ++ encode_node p.2.
(* @src src/runtime/src/crx/causal_graph.rs:197-219 CausalGraph::compute_hash *)
Definition compute_hash `{Sha256, CrxBincode} (g : CausalGraph) : id32 :=
  sha256 (be_bytes 32 (graph_id g) ++ be_bytes 32 (cg_goal_packet_id g) ++
    concat (node_bytes <$> btree_list (nodes g)) ++
    concat ((λ e, le_bytes 4 (e_from e) ++ le_bytes 4 (e_to e)) <$> edges g)).

(* @src src/runtime/src/crx/causal_graph.rs:232-237 CausalGraph::nodes_for_branch *)
Definition nodes_for_branch (g : CausalGraph) (b : Z) : list CausalNode :=
  filter (λ n, nd_branch_id n = b) (btree_values (nodes g)).
(* @src src/runtime/src/crx/causal_graph.rs:240-242 CausalGraph::dependencies_of *)
Definition dependencies_of (g : CausalGraph) (n : NodeId) : list CausalEdge :=
  filter (λ e, e_to e = n) (edges g).
(* @src src/runtime/src/crx/causal_graph.rs:245-247 CausalGraph::successors_of *)
Definition successors_of (g : CausalGraph) (n : NodeId) : list CausalEdge :=
  filter (λ e, e_from e = n) (edges g).
End CausalGraph.
