(* ===== verification/CrxOrder.v ===== *)
(** * The topological order of a causal graph

    Kahn's algorithm of src/runtime/src/crx/causal_graph.rs: it never panics and
    ends, its result lists nodes once and after all they depend on, and it lists
    them all exactly when the graph has no cycle.  A graph whose edges go from
    lower to higher numbers, as the ones the layer builds, is listed in the order
    of the numbers. *)

From stdpp Require Import gmap strings list sorting relations.
From S2P Require Import Prelude Errors Sorting Crx.

(** ** Counting *)

Definition count_of (v : Z) (l : list Z) : Z := Z.of_nat (length (filter (λ x, x = v) l)).
(** The edges into [v] that are not from [R]. *)
Definition indeg (es : list (Z * Z)) (R : list Z) (v : Z) : Z :=
  Z.of_nat (length (filter (λ e, e.2 = v ∧ e.1 ∉ R) es)).
Definition targets (es : list (Z * Z)) (x : Z) : list Z := (filter (λ e, e.1 = x) es).*2.

Lemma count_cons v x l : count_of v (x :: l) = (if decide (x = v) then 1 else 0) + count_of v l.
Proof. unfold count_of. rewrite filter_cons. case_decide; cbn [length]; lia. Qed.
Lemma count_perm v l l' : l ≡ₚ l' → count_of v l = count_of v l'.
Proof. intros Hp. unfold count_of. f_equal. apply Permutation_length. by rewrite Hp. Qed.
#[export] Instance count_of_proper v : Proper ((≡ₚ) ==> (=)) (count_of v).
Proof. intros l l'. apply count_perm. Qed.
Lemma count_nonneg v l : 0 ≤ count_of v l.
Proof. unfold count_of. lia. Qed.
Lemma count_zero v l : count_of v l = 0 ↔ v ∉ l.
Proof.
  induction l as [|x l IH]; [split; [intros _ ?%elem_of_nil|]; done|].
  pose proof (count_nonneg v l). rewrite count_cons, not_elem_of_cons, <- IH.
  case_decide; naive_solver lia.
Qed.

Lemma targets_cons a b es x :
  targets ((a, b) :: es) x = if decide (a = x) then b :: targets es x else targets es x.
Proof. unfold targets. rewrite filter_cons. cbn [fst]. by case_decide. Qed.

Lemma indeg_nonneg es R v : 0 ≤ indeg es R v.
Proof. unfold indeg. lia. Qed.
Lemma indeg_cons e es R v :
  indeg (e :: es) R v = (if decide (e.2 = v ∧ e.1 ∉ R) then 1 else 0) + indeg es R v.
Proof. unfold indeg. rewrite filter_cons. case_decide; cbn [length]; lia. Qed.
Lemma indeg_bound es R v : indeg es R v ≤ Z.of_nat (length es).
Proof. unfold indeg. pose proof (length_filter (λ e : Z * Z, e.2 = v ∧ e.1 ∉ R) es). lia. Qed.
Lemma indeg_zero es R v : indeg es R v = 0 ↔ ∀ x, (x, v) ∈ es → x ∈ R.
Proof.
  induction es as [|[a b] es IH].
  { split; [intros _ x ?%elem_of_nil|]; done. }
  pose proof (indeg_nonneg es R v). rewrite indeg_cons. cbn. setoid_rewrite elem_of_cons.
  case_decide as Hd.
  - split; [lia|]. intros Hx. destruct Hd as [-> []]. apply Hx. by left.
  - rewrite Z.add_0_l, IH. split; [|naive_solver]. intros Hx x [[= -> ->]|?]; [|by apply Hx].
    destruct (decide (a ∈ R)); [done|]. by destruct Hd.
Qed.

(** Finishing a node releases its edges. *)
Lemma indeg_finish es R x v :
  x ∉ R → indeg es R v = indeg es (R ++ [x]) v + count_of v (targets es x).
Proof.
  intros Hx. induction es as [|[a b] es IH]; [done|].
  rewrite !indeg_cons, IH, targets_cons. cbn [fst snd]. rewrite (decide_ext (b = v ∧ a ∉ R ++ [x])
    (b = v ∧ (a ∉ R) ∧ a ≠ x)) by set_solver.
  destruct (decide (a = x)) as [->|Hne].
  - rewrite count_cons. rewrite (decide_False (P := b = v ∧ (x ∉ R) ∧ x ≠ x)) by naive_solver.
    rewrite (decide_ext (b = v ∧ x ∉ R) (b = v)) by naive_solver. lia.
  - rewrite (decide_ext (b = v ∧ a ∉ R) (b = v ∧ (a ∉ R) ∧ a ≠ x)) by naive_solver. lia.
Qed.

(** ** The initial maps *)

Lemma incr_lookup k v m :
  incr k m !! v = if decide (k = v) then Some (wrapu 64 (entry_count k m + 1)) else m !! v.
Proof. unfold incr. by rewrite lookup_insert. Qed.

Lemma in_degrees_lookup {A} (ns : gmap Z A) es v :
  Z.of_nat (length es) ≤ u64_max →
  in_degrees ns es !! v =
  if decide (is_Some (ns !! v) ∨ v ∈ es.*2) then Some (indeg es [] v) else None.
Proof.
  unfold in_degrees. induction es as [|e es IH] using rev_ind; intros Hl.
  - cbn. rewrite lookup_fmap. destruct (ns !! v); cbn; [by rewrite decide_True by eauto|].
    rewrite decide_False; [done|]. intros [[? [=]]|?%elem_of_nil]; done.
  - rewrite length_app in Hl. cbn in Hl.
    assert (indeg (es ++ [e]) [] v = indeg es [] v + if decide (e.2 = v) then 1 else 0) as E.
    { unfold indeg. rewrite filter_app, length_app, filter_cons, filter_nil.
      rewrite (decide_ext (e.2 = v ∧ e.1 ∉ []) (e.2 = v)) by set_solver.
      destruct (decide (e.2 = v)); cbn [length]; lia. }
    rewrite foldl_app. cbn [foldl]. rewrite incr_lookup, fmap_app, E.
    specialize (IH ltac:(lia)). pose proof (indeg_bound es [] v). pose proof (indeg_nonneg es [] v).
    destruct (decide (e.2 = v)) as [<-|Hv].
    + rewrite (decide_True (P := is_Some (ns !! e.2) ∨ e.2 ∈ es.*2 ++ [e].*2))
        by (right; set_solver).
      unfold entry_count. rewrite IH. case_decide as Hm; cbn.
      * rewrite wrapu_id by ints. done.
      * assert (indeg es [] e.2 = 0) as ->.
        { apply indeg_zero. intros x Hx. destruct Hm. right. by apply (list_elem_of_fmap_2 snd) in Hx. }
        done.
    + rewrite IH, Z.add_0_r. rewrite (decide_ext (is_Some (ns !! v) ∨ v ∈ es.*2 ++ [e].*2)
        (is_Some (ns !! v) ∨ v ∈ es.*2)) by set_solver. done.
Qed.

Lemma adjacency_lookup {A} (ns : gmap Z A) es x :
  default [] (adjacency ns es !! x) ≡ₚ targets es x.
Proof.
  unfold adjacency. rewrite lookup_fmap.
  set (m := foldl _ _ es).
  assert (default [] (m !! x) = targets es x) as E.
  { subst m. induction es as [|e es IH] using rev_ind; cbn.
    { rewrite lookup_fmap. by destruct (ns !! x). }
    rewrite foldl_app. cbn [foldl]. rewrite lookup_insert. unfold targets in *.
    rewrite filter_app, fmap_app, filter_cons, filter_nil. case_decide as He; cbn.
    - by rewrite He, IH.
    - by rewrite IH, app_nil_r. }
  rewrite <- E. destruct (m !! x); cbn; [|done]. by rewrite merge_sort_Permutation.
Qed.

(** ** One node *)

Lemma relax_all_spec l (D : gmap Z Z) (Q : gset Z) :
  (∀ v, v ∈ l → ∃ d, D !! v = Some d ∧ count_of v l ≤ d ≤ u64_max) →
  ∃ D' Q', relax_all l (D, Q) = Ok (D', Q') ∧
    (∀ v, D' !! v = (λ d, d - count_of v l) <$> D !! v) ∧
    (∀ v, v ∈ Q' ↔ v ∈ Q ∨ (v ∈ l ∧ D !! v = Some (count_of v l))).
Proof.
  revert D Q. induction l as [|n l IH]; intros D Q Hl.
  - exists D, Q. split_and!; [done| |].
    + intros v. cbn. destruct (D !! v); cbn; [f_equal; unfold count_of; cbn; lia|done].
    + intros v. split; [by left|]. intros [?|[?%elem_of_nil _]]; done.
  - destruct (Hl n ltac:(left)) as (d & Hd & Hc). cbn [relax_all]. unfold relax. cbn [fst snd].
    rewrite Hd. cbn [expect mbind outcome_bind]. rewrite count_cons, decide_True in Hc by done.
    pose proof (count_nonneg n l). rewrite wrapu_id by ints.
    edestruct (IH (<[n := d - 1]> D) (if decide (d - 1 = 0) then {[n]} ∪ Q else Q))
      as (D' & Q' & E & HD & HQ).
    { intros v Hv. rewrite lookup_insert. case_decide; [subst v; eexists; split; [done|lia]|].
      destruct (Hl v ltac:(by right)) as (d' & ? & Hc'). rewrite count_cons, decide_False in Hc' by done.
      eexists. split; [done|lia]. }
    exists D', Q'. split_and!; [done| |].
    + intros v. rewrite HD, lookup_insert, count_cons. destruct (decide (n = v)) as [<-|Hv].
      * rewrite Hd. cbn. f_equal. lia.
      * destruct (D !! v); cbn; [f_equal; lia|done].
    + intros v. rewrite HQ, lookup_insert, count_cons, elem_of_cons. destruct (decide (n = v)) as [<-|Hv].
      * rewrite Hd. split.
        -- intros [Hq|[Hin [= E']]]; [|right; split; [by left|f_equal; lia]].
           case_decide as Hz; [|by left].
           destruct (decide (n ∈ Q)); [by left|]. right. split; [by left|]. f_equal. lia.
        -- intros [Hq|[_ [= E']]]; [left; case_decide; set_solver|].
           destruct (decide (count_of n l = 0)) as [Hz|Hz].
           ++ left. rewrite decide_True by lia. set_solver.
           ++ right. split; [|f_equal; lia]. destruct (decide (n ∈ l)) as [|Hn]; [done|].
              by apply count_zero in Hn.
      * assert (v ∈ (if decide (d - 1 = 0) then {[n]} ∪ Q else Q) ↔ v ∈ Q) as ->
          by (case_decide; set_solver). naive_solver.
Qed.

(** ** The loop *)

Section kahn.
Context (es : list (Z * Z)) (adj : gmap Z (list Z)) (U : gset Z).
Hypothesis Hes : Z.of_nat (length es) ≤ u64_max.
Hypothesis Hadj : ∀ x, default [] (adj !! x) ≡ₚ targets es x.
Hypothesis HU : ∀ e, e ∈ es → e.2 ∈ U.

(** Every node is listed after all it depends on. *)
Definition ordered (R : list Z) : Prop :=
  ∀ R1 v R2, R = R1 ++ v :: R2 → ∀ x, (x, v) ∈ es → x ∈ R1.

Record kahn_inv (D : gmap Z Z) (Q : gset Z) (R : list Z) : Prop := {
  ki_degs : ∀ v, D !! v = if decide (v ∈ U) then Some (indeg es R v) else None;
  ki_ready : ∀ v, v ∈ Q ∨ v ∈ R ↔ v ∈ U ∧ indeg es R v = 0;
  ki_nodup : NoDup R;
  ki_disj : ∀ v, v ∈ Q → v ∉ R;
  ki_ordered : ordered R }.

Lemma ordered_snoc R x : ordered R → (∀ y, (y, x) ∈ es → y ∈ R) → ordered (R ++ [x]).
Proof.
  intros HR Hx R1 v R2 E. destruct R2 as [|z R2 _] using rev_ind.
  - apply app_inj_tail in E as [<- <-]. done.
  - rewrite app_comm_cons, app_assoc in E. apply app_inj_tail in E as [-> _]. by apply (HR R1 v R2).
Qed.

Lemma kahn_step D Q R x :
  kahn_inv D Q R → x ∈ Q →
  ∃ D' Q', relax_all (default [] (adj !! x)) (D, Q ∖ {[x]}) = Ok (D', Q') ∧
    kahn_inv D' Q' (R ++ [x]).
Proof.
  intros HI Hx. pose proof (ki_disj _ _ _ HI x Hx) as HxR.
  assert (∀ v, v ∈ targets es x → (x, v) ∈ es) as Ht.
  { intros v Hv. apply list_elem_of_fmap in Hv as ([a b] & -> & H%list_elem_of_filter).
    destruct H as [H ?]. cbn in H. by subst. }
  assert (∀ v, count_of v (default [] (adj !! x)) = count_of v (targets es x)) as Hc
    by (intros v; by apply count_perm).
  destruct (relax_all_spec (default [] (adj !! x)) D (Q ∖ {[x]})) as (D' & Q' & E & HD & HQ).
  { intros v Hv. rewrite Hadj in Hv. exists (indeg es R v).
    rewrite (ki_degs _ _ _ HI), decide_True by (apply (HU (x, v)), Ht, Hv). split; [done|].
    rewrite Hc, (indeg_finish es R x v HxR). pose proof (indeg_nonneg es (R ++ [x]) v).
    pose proof (indeg_bound es R v). rewrite (indeg_finish es R x v HxR) in *. lia. }
  exists D', Q'. split; [done|].
  assert (∀ v, v ∈ targets es x → v ∈ Q ∨ v ∈ R → False) as Hfresh.
  { intros v Hv HqR. apply (ki_ready _ _ _ HI) in HqR as [_ Hz].
    apply HxR. rewrite indeg_zero in Hz. by apply Hz, Ht. }
  split.
  - intros v. rewrite HD, (ki_degs _ _ _ HI). case_decide; cbn; [|done]. f_equal.
    rewrite Hc, (indeg_finish es R x v HxR). lia.
  - intros v. rewrite HQ, Hc, Hadj, (ki_degs _ _ _ HI), elem_of_app, list_elem_of_singleton,
      elem_of_difference, elem_of_singleton.
    pose proof (indeg_finish es R x v HxR) as Hi. pose proof (ki_ready _ _ _ HI v) as Hr.
    pose proof (ki_ready _ _ _ HI x) as Hrx. pose proof (Hfresh v).
    destruct (decide (v ∈ targets es x)) as [Hv|Hv].
    + assert (v ∈ U) by (apply (HU (x, v)), Ht, Hv). rewrite decide_True by done. split.
      * intros [[[??]|[_ [= E']]]|[?| ->]]; [naive_solver|split; [done|lia]|naive_solver|].
        exfalso. apply (Hfresh x); [done|by left].
      * intros [_ Hz]. left. right. split; [done|]. f_equal. lia.
    + pose proof (proj2 (count_zero v (targets es x)) Hv). split.
      * intros [[[??]|[??]]|[?| ->]]; [|done| |].
        -- destruct Hr as [Hr _]. destruct (Hr ltac:(by left)). split; [done|lia].
        -- destruct Hr as [Hr _]. destruct (Hr ltac:(by right)). split; [done|lia].
        -- destruct Hrx as [Hrx _]. destruct (Hrx ltac:(by left)). split; [done|lia].
      * intros [Hu Hz]. destruct (decide (v = x)) as [->|Hne]; [naive_solver|].
        destruct Hr as [_ [?|?]]; [split; [done|lia]|left; left; done|right; by left].
  - apply NoDup_app. split_and!; [apply HI| |apply NoDup_singleton].
    intros v Hv ->%list_elem_of_singleton. done.
  - intros v Hv Hin. apply HQ in Hv. rewrite elem_of_difference, elem_of_singleton in Hv.
    rewrite elem_of_app, list_elem_of_singleton in Hin.
    destruct Hv as [[Hq Hne]|[Hl _]].
    + destruct Hin; [by eapply ki_disj|done].
    + rewrite Hadj in Hl. destruct Hin as [?| ->]; eapply Hfresh; eauto.
  - apply ordered_snoc; [apply HI|]. apply indeg_zero.
    by destruct (proj1 (ki_ready _ _ _ HI x)) as [_ ?]; [left|].
Qed.

Lemma kahn_inv_subset D Q R : kahn_inv D Q R → (length R + size Q ≤ size U)%nat.
Proof.
  intros HI. rewrite <- (size_list_to_set (C := gset Z) R) by apply HI.
  rewrite <- size_union by (pose proof (ki_disj _ _ _ HI); set_solver).
  apply subseteq_size. intros v. rewrite elem_of_union, elem_of_list_to_set.
  intros Hv. apply (proj1 (ki_ready _ _ _ HI v)). naive_solver.
Qed.

(** The fuel is enough, and the queue is empty at the end. *)
Lemma kahn_ends fuel D Q R :
  kahn_inv D Q R → (size U ≤ fuel + length R)%nat →
  ∃ D' R', kahn fuel adj (D, Q) R = Ok R' ∧ kahn_inv D' ∅ R'.
Proof.
  revert D Q R. induction fuel as [|fuel IH]; intros D Q R HI Hf; cbn [kahn snd fst];
    destruct (sorted_elements Q) as [|x q] eqn:Eq.
  1,3: assert (Q = ∅) as -> by (apply set_eq; intros v; rewrite <- elem_of_sorted_elements, Eq; set_solver);
    by exists D, R.
  - pose proof (kahn_inv_subset _ _ _ HI). pose proof (sorted_elements_length Q) as Hl.
    rewrite Eq in Hl. cbn in Hl. lia.
  - assert (x ∈ Q) as Hx by (apply elem_of_sorted_elements; rewrite Eq; left).
    destruct (kahn_step _ _ _ _ HI Hx) as (D' & Q' & -> & HI').
    cbn [mbind outcome_bind]. apply (IH D' Q'); [done|]. rewrite length_app. cbn. lia.
Qed.

(** When the edges go upwards and the nodes are the first numbers, the nodes
    are listed in their order. *)
Lemma kahn_counts fuel D Q R n k :
  kahn_inv D Q R → (∀ e, e ∈ es → 0 ≤ e.1 < e.2) → U = list_to_set (seqZ 0 n) →
  R = seqZ 0 k → 0 ≤ k ≤ n → n ≤ Z.of_nat fuel + k →
  kahn fuel adj (D, Q) R = Ok (seqZ 0 n).
Proof.
  intros HI Hup EU. revert D Q R k HI. induction fuel as [|fuel IH]; intros D Q R k HI ER Hk Hf;
    cbn [kahn fst snd].
  all: assert (∀ v, v ∈ Q → k ≤ v < n) as HQ by
    (intros v Hv; pose proof (ki_disj _ _ _ HI v Hv) as Hn;
     pose proof (proj1 (ki_ready _ _ _ HI v) (or_introl Hv)) as [Hu _];
     rewrite EU, elem_of_list_to_set, elem_of_seqZ in Hu; rewrite ER, elem_of_seqZ in Hn; lia).
  all: assert (k < n → k ∈ Q) as Hready by
    (intros Hkn; destruct (proj2 (ki_ready _ _ _ HI k)) as [?|Hin]; [|done|
       rewrite ER, elem_of_seqZ in Hin; lia];
     split; [rewrite EU, elem_of_list_to_set, elem_of_seqZ; lia|];
     apply indeg_zero; intros x Hx; apply Hup in Hx; cbn in Hx; rewrite ER, elem_of_seqZ; lia).
  all: destruct (sorted_elements Q) as [|x q] eqn:Eq.
  1,3: f_equal; rewrite ER; f_equal; destruct (decide (k < n)) as [Hlt|]; [|lia];
    apply Hready, elem_of_sorted_elements in Hlt; rewrite Eq in Hlt; by apply elem_of_nil in Hlt.
  all: assert (x ∈ Q) as Hx by (apply elem_of_sorted_elements; rewrite Eq; left).
  - specialize (HQ _ Hx). lia.
  - assert (x = k) as ->.
    { pose proof (HQ _ Hx). pose proof (sorted_elements_sorted Q) as Hs. rewrite Eq in Hs.
      inversion Hs as [|?? _ Hall]; subst.
      pose proof (Hready ltac:(lia)) as Hin. rewrite <- elem_of_sorted_elements, Eq in Hin.
      apply elem_of_cons in Hin as [->|Hin]; [done|].
      apply (proj1 (Forall_forall _ _) Hall) in Hin. lia. }
    destruct (kahn_step _ _ _ _ HI Hx) as (D' & Q' & -> & HI').
    cbn [mbind outcome_bind]. pose proof (HQ _ Hx). apply (IH D' Q' _ (k + 1)); [done| |lia|lia].
    by rewrite ER, (seqZ_app 0 k 1) by lia.
Qed.
End kahn.

(** ** The graph's order *)

Section order.
Context {A : Type} (ns : gmap Z A) (es : list (Z * Z)).
Hypothesis Hes : Z.of_nat (length es) ≤ u64_max.
Let U : gset Z := dom ns ∪ list_to_set es.*2.

Lemma in_degrees_kahn_inv :
  kahn_inv es U (in_degrees ns es) (dom (filter (λ p : Z * Z, p.2 = 0) (in_degrees ns es))) [].
Proof.
  assert (∀ v, v ∈ U ↔ is_Some (ns !! v) ∨ v ∈ es.*2) as HU.
  { intros v. unfold U. by rewrite elem_of_union, elem_of_dom, elem_of_list_to_set. }
  assert (∀ v, in_degrees ns es !! v = if decide (v ∈ U) then Some (indeg es [] v) else None) as HD.
  { intros v. rewrite in_degrees_lookup by done. apply decide_ext. by rewrite HU. }
  split; [done| |constructor| |].
  - intros v. rewrite elem_of_dom. split.
    + intros [[d Hd]|?%elem_of_nil]; [|done]. apply map_lookup_filter_Some in Hd as [Hd Hz].
      cbn in Hz. subst d. rewrite HD in Hd. case_decide; naive_solver.
    + intros [Hu Hz]. left. exists 0. apply map_lookup_filter_Some. rewrite HD, decide_True by done.
      by rewrite Hz.
  - intros v _ ?%elem_of_nil. done.
  - intros R1 v R2 E. by destruct R1.
Qed.

Lemma in_degrees_size : size (in_degrees ns es) = size U.
Proof.
  rewrite <- size_dom. f_equal. apply set_eq. intros v. rewrite elem_of_dom.
  rewrite in_degrees_lookup by done. unfold U.
  rewrite elem_of_union, elem_of_dom, elem_of_list_to_set. case_decide; naive_solver.
Qed.

(** The order is always computed; what it holds. *)
Lemma order_computed :
  ∃ D R, CausalGraph.compute_topological_order ns es = Ok R ∧ kahn_inv es U D ∅ R.
Proof.
  destruct (kahn_ends es (adjacency ns es) U Hes (adjacency_lookup ns es)) with
    (fuel := size (in_degrees ns es)) (D := in_degrees ns es)
    (Q := dom (filter (λ p : Z * Z, p.2 = 0) (in_degrees ns es))) (R := @nil Z)
    as (D & R & E & HI).
  - intros e He. unfold U. apply elem_of_union_r, elem_of_list_to_set. by apply list_elem_of_fmap_2.
  - apply in_degrees_kahn_inv.
  - rewrite in_degrees_size. lia.
  - by exists D, R.
Qed.
End order.

(** One edge of the graph. *)
Definition edge_rel (es : list (Z * Z)) (x y : Z) : Prop := (x, y) ∈ es.

Lemma tc_flip {B} (R : relation B) x y : tc (flip R) x y → tc R y x.
Proof. induction 1 as [|x y z H _ IH]; [by apply tc_once|]. by eapply tc_r. Qed.

(** Positions in an order grow along the edges, so there is no way back. *)
Lemma ordered_irreflexive es R v :
  NoDup R → ordered es R → v ∈ R → ¬ tc (edge_rel es) v v.
Proof.
  intros Hnd Ho Hv Hc.
  assert (∀ x y, tc (edge_rel es) x y → ∀ R1 R2, R = R1 ++ y :: R2 → x ∈ R1) as Hb.
  { intros x y Hxy. induction Hxy as [x y H|x y z H _ IH]; intros R1 R2 E; [by eapply Ho|].
    pose proof (IH _ _ E) as Hy. apply list_elem_of_split in Hy as (R3 & R4 & ->).
    apply elem_of_app. left. apply (Ho R3 y (R4 ++ z :: R2)); [|done].
    by rewrite E, <- app_assoc. }
  apply list_elem_of_split in Hv as (R1 & R2 & E). pose proof (Hb _ _ Hc _ _ E) as Hin.
  rewrite E in Hnd. apply NoDup_app in Hnd as (_ & Hd & _). apply (Hd v Hin). left.
Qed.

(** Acyclicity of a graph whose edges join its nodes: the check finds every cycle. *)
Lemma order_complete {A} (ns : gmap Z A) es R :
  Z.of_nat (length es) ≤ u64_max → (∀ x y, (x, y) ∈ es → x ∈ dom ns ∧ y ∈ dom ns) →
  CausalGraph.compute_topological_order ns es = Ok R →
  (length R = size ns ↔ ∀ v, ¬ tc (edge_rel es) v v) ∧
  NoDup R ∧ ordered es R ∧ (∀ v, v ∈ R → v ∈ dom ns).
Proof.
  intros Hes Hcl HR. destruct (order_computed ns es Hes) as (D & R' & E & HI).
  rewrite E in HR. injection HR as ->.
  assert (dom ns ∪ list_to_set es.*2 = dom ns) as EU.
  { apply set_eq. intros v. rewrite elem_of_union, elem_of_list_to_set, list_elem_of_fmap.
    split; [|by left]. intros [?|([a b] & -> & H)]; [done|]. exact (proj2 (Hcl a b H)). }
  rewrite EU in HI.
  assert (∀ v, v ∈ R → v ∈ dom ns) as Hsub.
  { intros v Hv. by apply (proj1 (ki_ready _ _ _ _ _ HI v)); right. }
  split_and!; [|apply HI|apply HI|done]. split.
  - intros Hl v Hc. assert (dom ns ⊆ list_to_set (C := gset Z) R) as Hsup.
    { assert (list_to_set (C := gset Z) R = dom ns) as ->; [|done].
      apply leibniz_equiv, set_subseteq_size_equiv; [set_solver|].
      rewrite size_list_to_set by apply HI. by rewrite size_dom, Hl. }
    apply (ordered_irreflexive es R v); [apply HI|apply HI| |done].
    apply (elem_of_list_to_set (C := gset Z)), Hsup.
    assert (∀ x y, tc (edge_rel es) x y → x ∈ dom ns) as Hd.
    { intros x y [? ? H|? ? ? H _]; exact (proj1 (Hcl _ _ H)). }
    by eapply Hd.
  - intros Hac. rewrite <- (size_list_to_set (C := gset Z) R) by apply HI.
    rewrite <- size_dom. f_equal. apply set_eq. intros v. rewrite elem_of_list_to_set.
    split; [apply Hsub|].
    assert (sn (flip (edge_rel es)) v) as Hsn.
    { apply tc_finite_sn.
      - intros x Hx. by apply (Hac x), tc_flip.
      - exists (elements (dom ns)). intros y Hy. apply elem_of_elements.
        assert (∀ a b, tc (flip (edge_rel es)) a b → b ∈ dom ns) as Hd; [|by eapply Hd].
        induction 1 as [a b H|]; [exact (proj1 (Hcl b a H))|done]. }
    induction Hsn as [v _ IH]. intros Hv.
    destruct (proj2 (ki_ready _ _ _ _ _ HI v)) as [?%elem_of_empty|?]; [|done|done].
    split; [done|]. apply indeg_zero. intros x Hx. apply IH; [done|]. exact (proj1 (Hcl _ _ Hx)).
Qed.

(** A graph with nodes [0 .. n-1] and upward edges is listed in that order. *)
Lemma upward_order {A} (ns : gmap Z A) es n :
  Z.of_nat (length es) ≤ u64_max → dom ns = list_to_set (seqZ 0 n) → 0 ≤ n →
  (∀ x y, (x, y) ∈ es → 0 ≤ x < y ∧ y < n) →
  CausalGraph.compute_topological_order ns es = Ok (seqZ 0 n).
Proof.
  intros Hes Hd Hn Hup. pose proof (in_degrees_kahn_inv ns es Hes) as HI.
  assert (dom ns ∪ list_to_set es.*2 = list_to_set (seqZ 0 n)) as EU.
  { rewrite Hd. apply set_eq. intros v.
    rewrite elem_of_union, !elem_of_list_to_set, list_elem_of_fmap, elem_of_seqZ.
    split; [|by left]. intros [?|([a b] & -> & H)]; [done|]. cbn. destruct (Hup a b H). lia. }
  rewrite EU in HI. unfold CausalGraph.compute_topological_order.
  apply (kahn_counts es (adjacency ns es) (list_to_set (seqZ 0 n)) Hes (adjacency_lookup ns es))
    with (k := 0); [|done| |done|done|lia|].
  - intros [a b] H. apply elem_of_list_to_set, elem_of_seqZ. cbn. destruct (Hup a b H). lia.
  - intros [a b] H. cbn. by destruct (Hup a b H).
  - rewrite (in_degrees_size ns es Hes), EU, size_list_to_set by apply NoDup_seqZ.
    rewrite length_seqZ. lia.
Qed.

(** ** Theorems *)

(** C19: The order is computed for every graph, without a panic; on a graph whose
    edges join its nodes the check passes exactly when there is no cycle, and then
    the order lists every node once, after all it depends on. *)
Theorem acyclic_check_exact (g : CausalGraph) :
  Z.of_nat (length (edges g)) ≤ u64_max →
  (∀ e, e ∈ edges g → e_from e ∈ dom (nodes g) ∧ e_to e ∈ dom (nodes g)) →
  CausalGraph.validate_acyclic g ≠ Panic ∧
  (CausalGraph.validate_acyclic g = Ok tt ↔ ∀ v, ¬ tc (edge_rel (edge_pairs (edges g))) v v) ∧
  (CausalGraph.validate_acyclic g = Ok tt →
     ∃ R, CausalGraph.compute_topological_order (nodes g) (edge_pairs (edges g)) = Ok R ∧
       list_to_set R = dom (nodes g) ∧ NoDup R ∧ ordered (edge_pairs (edges g)) R).
Proof.
  intros Hl Hcl. unfold CausalGraph.validate_acyclic.
  assert (Z.of_nat (length (edge_pairs (edges g))) ≤ u64_max) as Hl'
    by (unfold edge_pairs; by rewrite length_fmap).
  assert (∀ x y, (x, y) ∈ edge_pairs (edges g) → x ∈ dom (nodes g) ∧ y ∈ dom (nodes g)) as Hcl'.
  { intros x y (e & [= -> ->] & He)%list_elem_of_fmap. by apply Hcl. }
  destruct (order_computed (nodes g) _ Hl') as (D & R & E & _).
  destruct (order_complete (nodes g) _ R Hl' Hcl' E) as (Hiff & Hnd & Ho & Hsub).
  rewrite E. split_and!; [by case_decide|rewrite <- Hiff; case_decide; naive_solver|].
  case_decide as Hs; [done|]. intros _. exists R. split_and!; [done| |done|done].
  apply leibniz_equiv, set_subseteq_size_equiv; [set_solver|].
  rewrite size_list_to_set by done. rewrite size_dom. lia.
Qed.

Definition plain_node (i : Z) : CausalNode :=
  mkNode i "n" NxEmitReceipt NaWrite None None 0 None [] ∅.
Definition ordering_edge (p : Z * Z) : CausalEdge := mkEdge p.1 p.2 OrderingOnly false.
Definition plain_graph (ks : list Z) (es : list (Z * Z)) : CausalGraph :=
  mkGraph 1 2 (list_to_map ((λ i, (i, plain_node i)) <$> ks)) (ordering_edge <$> es) [] [] 0.

Lemma acyclic_check_exact_witness :
  ∃ R, CausalGraph.compute_topological_order (nodes (plain_graph [1; 2; 3] [(3, 1); (1, 2)]))
    (edge_pairs (edges (plain_graph [1; 2; 3] [(3, 1); (1, 2)]))) = Ok R ∧ R = [3; 1; 2].
Proof.
  destruct (acyclic_check_exact (plain_graph [1; 2; 3] [(3, 1); (1, 2)])) as (_ & _ & H).
  - by_decide.
  - apply (proj1 (Forall_forall (λ e, e_from e ∈ dom (nodes (plain_graph [1; 2; 3] [(3, 1); (1, 2)])) ∧
      e_to e ∈ dom (nodes (plain_graph [1; 2; 3] [(3, 1); (1, 2)])))
      (edges (plain_graph [1; 2; 3] [(3, 1); (1, 2)])))). by_decide.
  - destruct H as (R & HR & _ & _); [vm_compute; reflexivity|]. exists R. split; [exact HR|].
    vm_compute in HR. injection HR as HR. by symmetry.
Defined.

(** Edges to nodes that the graph does not have are counted as if it had them, so
    they can make up for the nodes of a cycle: the check compares only the
    lengths. *)
Theorem dangling_edges_hide_cycle :
  let g := plain_graph [1; 2; 3] [(1, 2); (2, 1); (3, 4); (3, 5)] in
  CausalGraph.validate_acyclic g = Ok tt ∧ tc (edge_rel (edge_pairs (edges g))) 1 1.
Proof.
  split; [vm_compute; reflexivity|].
  apply tc_l with 2; [|apply tc_once]; unfold edge_rel; by_decide.
Qed.
