(* ===== verification/CrxChecks.v ===== *)
(** * Checks of a causal graph

    The validation of a graph against the rights of its capsule
    (src/runtime/src/crx/rights_validation.rs) and of its causal structure
    (src/runtime/src/crx/causal_validity.rs).  The theorems say what a graph that
    passes cannot do.  Then the building of the graph from a plan (plan_builder.rs). *)

From stdpp Require Import gmap strings list pretty sorting.
From S2P Require Import Prelude Errors Objects Store Sorting Crx CrxOrder SolverTypes.

(* @src src/runtime/src/crx/rights_validation.rs:6-8 META_DEBIT_DIR *)
Definition META_DEBIT_DIR : string := "debit_direction".
Definition VAL_DEBIT : string := "debit".
Definition VAL_CREDIT : string := "credit".

(** The direction a balance mutation is marked with. *)
Definition is_debit (n : CausalNode) : bool :=
  bool_decide (nd_metadata n !! META_DEBIT_DIR = Some VAL_DEBIT).
Definition marked_credit (n : CausalNode) : bool :=
  bool_decide (nd_metadata n !! META_DEBIT_DIR = Some VAL_CREDIT).

(** ** Rights *)

(* @src src/runtime/src/crx/rights_validation.rs:15-23 ScopeBreachReason *)
Inductive ScopeBreachReason : Type :=
| ObjectNotInScope | ActionNotAllowed | DomainForbidden | SpendLimitExceeded | CapsuleExpired
| SolverMismatch | ObjectCountExceeded.
#[export] Instance ScopeBreachReason_eq_dec : EqDecision ScopeBreachReason.
Proof. solve_decision. Defined.

(* @src src/runtime/src/crx/rights_validation.rs:26-30 RightsViolation *)
Record RightsViolation : Type := mkRightsViolation {
  rv_node_id : NodeId;
  breach_reason : ScopeBreachReason;
  rv_detail : string }.

(* @src src/runtime/src/crx/rights_validation.rs:33-37 NodeRightsCheck *)
Record NodeRightsCheck : Type := mkNodeCheck {
  nc_node_id : NodeId;
  nc_passed : bool;
  nc_violation : option RightsViolation }.

(* @src src/runtime/src/crx/rights_validation.rs:40-47 RightsValidationResult *)
Record RightsValidationResult : Type := mkRightsResult {
  rr_capsule_id : id32;
  all_passed : bool;
  node_checks : list NodeRightsCheck;
  rights_violations : list RightsViolation;
  total_spend : Z;
  objects_touched : Z }.

(* @src src/runtime/src/crx/rights_validation.rs:315-343 node_to_action_type *)
Definition node_to_action_type (n : CausalNode) : option AllowedActionType :=
  match execution_class n with
  | NxReadObject | NxCheckBalance | NxCheckPolicy | NxReserveLiquidity => Some AaRead
  | NxMutateBalance => if is_debit n then Some AaDebitBalance else Some AaCreditBalance
  | NxSwapPoolAmounts => Some AaSwapPoolAmounts
  | NxLockObject => Some AaLockBalance
  | NxUnlockObject => Some AaUnlockBalance
  | NxCreateObject => Some AaCreateObject
  | NxFinalizeSettlement => Some AaUpdateVersion
  | NxEmitReceipt => Some AaEmitReceipt
  | NxInvokeSafetyHook => Some AaInvokeSafetyHook
  | NxBranchGate => None
  | NxContractStateTransition _ _ => Some AaUpdateVersion
  end.

Module RightsValidationEngine.
Section rights.
Context `{Hex}.

Definition pass (n : CausalNode) : NodeRightsCheck := mkNodeCheck (node_id n) true None.
Definition breach (n : NodeId) (r : ScopeBreachReason) (detail : string) : NodeRightsCheck :=
  mkNodeCheck n false (Some (mkRightsViolation n r detail)).

(** The checks of one node; each is the breach it finds. *)
Definition action_breach (n : CausalNode) (c : RightsCapsule) : option NodeRightsCheck :=
  match node_to_action_type n with
  | Some a =>
      if RightsCapsule.can_perform_action c a then None
      else Some (breach (node_id n) ActionNotAllowed
                   ("action " +:+ debug_action a +:+ " not in capsule scope"))
  | None => None
  end.
Definition object_breach (n : CausalNode) (c : RightsCapsule) (st : ObjectStore)
  : option NodeRightsCheck :=
  match nd_target n with
  | None => None
  | Some i =>
      match Object.object_type <$> ObjectStore.get st i with
      | Some ot =>
          if RightsCapsule.can_access_object c i ot then None
          else Some (breach (node_id n) ObjectNotInScope
                       ("object " +:+ hex_encode i +:+ " (type " +:+ debug_object_type ot +:+
                        ") not in capsule scope"))
      | None =>
          if negb (bool_decide (sc_object_ids (rc_scope c) = ∅)) &&
             negb (bool_decide (i ∈ sc_object_ids (rc_scope c)))
          then Some (breach (node_id n) ObjectNotInScope
                       ("object " +:+ hex_encode i +:+ " not in capsule allowed_object_ids"))
          else None
      end
  end.
Definition domain_breach (n : CausalNode) (c : RightsCapsule) : option NodeRightsCheck :=
  match domain_tag n with
  | Some d =>
      if DomainAccessEnvelope.is_domain_allowed (domain_envelope (rc_scope c)) d then None
      else Some (breach (node_id n) DomainForbidden
                   ("domain '" +:+ d +:+ "' is forbidden in capsule scope"))
  | None => None
  end.
(** What the node debits, when it is a debit. *)
Definition node_spend (n : CausalNode) : option Z :=
  if decide (execution_class n = NxMutateBalance) then
    if is_debit n then nd_amount n else None
  else None.
Definition spend_breach (n : CausalNode) (c : RightsCapsule) (cumulative_spend : Z)
  : option NodeRightsCheck :=
  match node_spend n with
  | Some amt =>
      let new_spend := sat_add 128 cumulative_spend amt in
      if decide (0 < sc_max_spend (rc_scope c) ∧ sc_max_spend (rc_scope c) < new_spend)
      then Some (breach (node_id n) SpendLimitExceeded
                   ("cumulative spend " +:+ pretty new_spend +:+ " would exceed max_spend " +:+
                    pretty (sc_max_spend (rc_scope c))))
      else None
  | None => None
  end.
Definition or_else {A} (o o' : option A) : option A := match o with Some _ => o | None => o' end.
(* @src src/runtime/src/crx/rights_validation.rs:200-312 RightsValidationEngine::check_node *)
Definition check_node (n : CausalNode) (c : RightsCapsule) (st : ObjectStore) (cumulative_spend : Z)
  : NodeRightsCheck :=
  default (pass n)
    (or_else (action_breach n c) (or_else (object_breach n c st)
      (or_else (domain_breach n c) (spend_breach n c cumulative_spend)))).

(** The state of the loop over the nodes. *)
Record Progress : Type := mkProgress {
  pg_checks : list NodeRightsCheck;
  pg_violations : list RightsViolation;
  pg_spend : Z;
  pg_touched : gset Z }.

(* @src src/runtime/src/crx/rights_validation.rs:135-186 RightsValidationEngine::validate *)
Definition visit (g : CausalGraph) (c : RightsCapsule) (st : ObjectStore) (p : Progress) (i : NodeId)
  : Progress :=
  match nodes g !! i with
  | None => p
  | Some n =>
      let check := check_node n c st (pg_spend p) in
      let spend := if nc_passed check
                   then match node_spend n with
                        | Some amt => sat_add 128 (pg_spend p) amt
                        | None => pg_spend p
                        end
                   else pg_spend p in
      let touched := if nc_passed check && bool_decide (access_type n = NaWrite)
                     then match nd_target n with
                          | Some o => {[o]} ∪ pg_touched p
                          | None => pg_touched p
                          end
                     else pg_touched p in
      let violations := if nc_passed check then pg_violations p
                        else pg_violations p ++ option_list (nc_violation check) in
      let limit := sc_max_objects_touched (rc_scope c) in
      if decide (0 < limit ∧ limit < Z.of_nat (size touched) ∧ nc_passed check = true) then
        let v := mkRightsViolation i ObjectCountExceeded
          ("objects touched " +:+ pretty (Z.of_nat (size touched)) +:+ " exceeds max " +:+ pretty limit) in
        mkProgress (pg_checks p ++ [mkNodeCheck i false (Some v)]) (violations ++ [v]) spend touched
      else mkProgress (pg_checks p ++ [check]) violations spend touched
  end.

(** Every node fails for the same reason. *)
(* @src src/runtime/src/crx/rights_validation.rs:68-127 RightsValidationEngine::validate *)
Definition refuse_all (g : CausalGraph) (c : RightsCapsule) (r : ScopeBreachReason) (detail : string)
  : RightsValidationResult :=
  mkRightsResult (capsule_id c) false ((λ i, breach i r detail) <$> topological_order g)
    ((λ i, mkRightsViolation i r detail) <$> topological_order g) 0 0.

(* @src src/runtime/src/crx/rights_validation.rs:60-198 RightsValidationEngine::validate *)
Definition validate (g : CausalGraph) (c : RightsCapsule) (st : ObjectStore) (epoch : Z)
    (requesting_solver_id : id32) : RightsValidationResult :=
  if decide (authorized_solver_id c ≠ requesting_solver_id) then
    refuse_all g c SolverMismatch
      ("capsule authorized solver " +:+ hex_encode (authorized_solver_id c) +:+ ", got " +:+
       hex_encode requesting_solver_id)
  else if negb (RightsCapsule.is_valid_at_epoch c epoch) then
    refuse_all g c CapsuleExpired
      ("capsule valid [" +:+ pretty (valid_from_epoch c) +:+ ", " +:+ pretty (valid_until_epoch c) +:+
       "], current epoch " +:+ pretty epoch)
  else
    let p := foldl (visit g c st) (mkProgress [] [] 0 ∅) (topological_order g) in
    mkRightsResult (capsule_id c) (bool_decide (pg_violations p = [])) (pg_checks p)
      (pg_violations p) (pg_spend p) (Z.of_nat (size (pg_touched p))).
End rights.
End RightsValidationEngine.

(** ** Causal validity *)

(* @src src/runtime/src/crx/causal_validity.rs:19-23 MissingDependencyViolation *)
Record MissingDependencyViolation : Type := mkMissing {
  md_node_id : NodeId;
  missing_dep_kind : NodeDependencyKind;
  md_detail : string }.

(* @src src/runtime/src/crx/causal_validity.rs:26-29 UnauthorizedPathViolation *)
Record UnauthorizedPathViolation : Type := mkUnauthorized {
  up_node_id : NodeId;
  up_detail : string }.

(* @src src/runtime/src/crx/causal_validity.rs:32-40 CausalViolation *)
Inductive CausalViolation : Type :=
| CvMissingDependency (v : MissingDependencyViolation)
| CvUnauthorizedPath (v : UnauthorizedPathViolation)
| CvSkippedValidationNode (validation_node : NodeId)
| CvBranchBypass (gate_node bypassed_node : NodeId)
| CvHiddenObjectAccess (object : id32)
| CvForbiddenDomain (domain : string)
| CvCycleDetected.

(* @src src/runtime/src/crx/causal_validity.rs:47-56 CausalAuditRecord *)
Record CausalAuditRecord : Type := mkCausalAudit {
  ca_graph_id : id32;
  total_nodes_validated : Z;
  ca_violations : list CausalViolation;
  all_dependencies_satisfied : bool;
  no_unauthorized_paths : bool;
  no_skipped_validation : bool;
  audit_hash : id32 }.

(* @src src/runtime/src/crx/causal_validity.rs:59-73 CausalAuditRecord::compute_audit_hash *)
Definition compute_audit_hash `{Sha256} (graph : id32) (total_nodes violation_count : Z)
    (all_dep no_unauth no_skip : bool) : id32 :=
  let bit (b : bool) := if b then 1 else 0 in
  sha256 (be_bytes 32 graph ++ le_bytes 8 total_nodes ++ le_bytes 8 violation_count ++
    [bit all_dep; bit no_unauth; bit no_skip]).

(* @src src/runtime/src/crx/causal_validity.rs:77-82 CausalValidityResult *)
Record CausalValidityResult : Type := mkCausalResult {
  cr_graph_id : id32;
  is_causally_valid : bool;
  causal_violations : list CausalViolation;
  audit : CausalAuditRecord }.

Module CausalValidityEngine.
(** The index of each node in the order; the last one, were a node there twice. *)
(* @src src/runtime/src/crx/causal_validity.rs:165-171 CausalValidityEngine::check_dependencies_satisfied *)
Definition positions (order : list NodeId) : gmap Z Z :=
  foldl (λ m p, <[p.2 := p.1]> m) ∅ (imap (λ i n, (Z.of_nat i, n)) order).

Definition is_check (n : CausalNode) : bool :=
  match execution_class n with NxCheckBalance | NxCheckPolicy | NxReadObject => true | _ => false end.

(** The order of the two ends of a critical edge. *)
(* @src src/runtime/src/crx/causal_validity.rs:173-209 CausalValidityEngine::check_dependencies_satisfied *)
Definition edge_order_violations (pos : gmap Z Z) (e : CausalEdge) : list CausalViolation :=
  let missing detail := [CvMissingDependency (mkMissing (e_to e) (dependency_kind e) detail)] in
  match pos !! e_from e, pos !! e_to e with
  | Some fp, Some tp =>
      if decide (tp ≤ fp) then
        missing ("node " +:+ debug_node (e_to e) +:+ " dependency on " +:+ debug_node (e_from e) +:+
          " violated in topological order (from_pos=" +:+ pretty fp +:+ ", to_pos=" +:+ pretty tp +:+ ")")
      else []
  | _, _ =>
      missing ("node " +:+ debug_node (e_from e) +:+ " or " +:+ debug_node (e_to e) +:+
        " missing from topological order")
  end.
(** A write that depends on a policy must depend on a check. *)
(* @src src/runtime/src/crx/causal_validity.rs:211-236 CausalValidityEngine::check_dependencies_satisfied *)
Definition edge_path_violations (g : CausalGraph) (e : CausalEdge) : list CausalViolation :=
  if decide (dependency_kind e = PolicyDependent) then
    match nodes g !! e_from e, nodes g !! e_to e with
    | Some from, Some to =>
        if bool_decide (access_type to = NaWrite) && negb (is_check from) then
          [CvUnauthorizedPath (mkUnauthorized (node_id to)
             ("Write node " +:+ debug_node (node_id to) +:+ " has PolicyDependent edge from non-check node "
              +:+ debug_node (node_id from)))]
        else []
    | _, _ => []
    end
  else [].
(* @src src/runtime/src/crx/causal_validity.rs:162-240 CausalValidityEngine::check_dependencies_satisfied *)
Definition check_dependencies_satisfied (g : CausalGraph) : list CausalViolation :=
  concat ((λ e, edge_order_violations (positions (topological_order g)) e ++ edge_path_violations g e) <$>
    filter (λ e, is_critical e = true) (edges g)).

(* @src src/runtime/src/crx/causal_validity.rs:243-289 CausalValidityEngine::check_no_branch_bypass *)
Definition check_no_branch_bypass (g : CausalGraph) : list CausalViolation :=
  let pos := positions (topological_order g) in
  let gates := filter (λ n, execution_class n = NxBranchGate) (btree_values (nodes g)) in
  concat ((λ gate,
    let gate_pos := default u64_max (pos !! node_id gate) in
    let writes := filter (λ n, nd_branch_id n = nd_branch_id gate ∧ access_type n = NaWrite ∧
                            node_id n ≠ node_id gate) (btree_values (nodes g)) in
    (λ n, CvBranchBypass (node_id gate) (node_id n)) <$>
      filter (λ n, default 0 (pos !! node_id n) < gate_pos) writes) <$> gates).

(* @src src/runtime/src/crx/causal_validity.rs:292-306 CausalValidityEngine::check_no_forbidden_domain *)
Definition check_no_forbidden_domain (g : CausalGraph) (goal : GoalPacket) : list CausalViolation :=
  concat ((λ n, match domain_tag n with
                | Some d => if decide (d ∈ gc_forbidden_domains (gp_constraints goal))
                            then [CvForbiddenDomain d] else []
                | None => []
                end) <$> btree_values (nodes g)).

(** Whether a write needs a check before it. *)
(* @src src/runtime/src/crx/causal_validity.rs:321-336 CausalValidityEngine::check_validation_nodes_not_skipped *)
Definition needs_validation (n : CausalNode) : bool :=
  bool_decide (access_type n = NaWrite) &&
  (let is_credit := bool_decide (execution_class n = NxMutateBalance) && marked_credit n in
   (bool_decide (execution_class n = NxMutateBalance) && negb is_credit) ||
   bool_decide (execution_class n = NxSwapPoolAmounts)).
(** A check of the same target earlier in the order. *)
(* @src src/runtime/src/crx/causal_validity.rs:346-357 CausalValidityEngine::check_validation_nodes_not_skipped *)
Definition has_validation (g : CausalGraph) (n : CausalNode) : bool :=
  let pos := positions (topological_order g) in
  existsb (λ m, is_check m && bool_decide (nd_target m = nd_target n) &&
    bool_decide (default u64_max (pos !! node_id m) < default 0 (pos !! node_id n)))
    (btree_values (nodes g)).
(* @src src/runtime/src/crx/causal_validity.rs:311-368 CausalValidityEngine::check_validation_nodes_not_skipped *)
Definition check_validation_nodes_not_skipped (g : CausalGraph) : list CausalViolation :=
  concat ((λ n,
    if needs_validation n then
      let policy_deps := filter (λ e, dependency_kind e = PolicyDependent)
                           (CausalGraph.dependencies_of g (node_id n)) in
      if bool_decide (policy_deps = []) && negb (has_validation g n)
      then [CvSkippedValidationNode (node_id n)] else []
    else []) <$> btree_values (nodes g)).


(** All violations; [validate_acyclic] does not panic. *)
(* @src src/runtime/src/crx/causal_validity.rs:97-118 CausalValidityEngine::validate *)
Definition violations (g : CausalGraph) (goal : GoalPacket) : list CausalViolation :=
  match CausalGraph.validate_acyclic g with Ok _ => [] | _ => [CvCycleDetected] end ++
  check_dependencies_satisfied g ++ check_no_branch_bypass g ++
  check_no_forbidden_domain g goal ++ check_validation_nodes_not_skipped g.

Definition is_missing (v : CausalViolation) : bool :=
  match v with CvMissingDependency _ => true | _ => false end.
Definition is_unauthorized (v : CausalViolation) : bool :=
  match v with CvUnauthorizedPath _ | CvHiddenObjectAccess _ => true | _ => false end.
Definition is_skipped (v : CausalViolation) : bool :=
  match v with CvSkippedValidationNode _ => true | _ => false end.

(* @src src/runtime/src/crx/causal_validity.rs:92-159 CausalValidityEngine::validate *)
Definition validate `{Sha256} (g : CausalGraph) (c : RightsCapsule) (goal : GoalPacket)
  : CausalValidityResult :=
  let all_violations := violations g goal in
  let all_dep := negb (existsb is_missing all_violations) in
  let no_unauth := negb (existsb is_unauthorized all_violations) in
  let no_skip := negb (existsb is_skipped all_violations) in
  let total_nodes := Z.of_nat (size (nodes g)) in
  let violation_count := Z.of_nat (length all_violations) in
  let hash := compute_audit_hash (graph_id g) total_nodes violation_count all_dep no_unauth no_skip in
  mkCausalResult (graph_id g) (match all_violations with [] => true | _ => false end) all_violations
    (mkCausalAudit (graph_id g) total_nodes all_violations all_dep no_unauth no_skip hash).
End CausalValidityEngine.

(** * From candidate plans to causal graphs

    The assembler of graphs, the synthesis of the rights capsule and the builder
    that puts them together (src/runtime/src/crx/plan_builder.rs).  The theorems
    say that assembled graphs are well formed: numbered nodes, edges that go
    upwards, an order that is the numbering. *)

Module DomainMapper.
(* @src src/runtime/src/crx/plan_builder.rs:29-37 DomainMapper::map *)
Definition map (g : CausalGraph) : gmap string (list NodeId) :=
  foldl (λ m p, match domain_tag p.2 with
                | Some d => <[d := default [] (m !! d) ++ [p.1]]> m
                | None => m
                end) ∅ (btree_list (nodes g)).
End DomainMapper.

(** ** The assembler *)

(** [&s[..n.min(s.len())]] of a string in UTF-8: a panic when the cut falls
    inside a character. *)
Definition slice_to (n : nat) (s : string) : total_or_panic string :=
  match String.get n s with
  | Some a => let b := Z.of_N (Ascii.N_of_ascii a) in
              if decide (128 ≤ b < 192) then Panic else Ok (String.substring 0 n s)
  | None => Ok s
  end.

Module GraphAssembler.
Section assembler.
Context `{HexBytes, HexDecode}.

(** Node numbers are [u32]. *)
Definition nth_id (next : Z) (i : Z) : NodeId := wrapu 32 (next + i).

Definition mk_label (what : string) (target : id32) : string :=
  what +:+ id4_hex target +:+ ")".
Definition main_node (i : NodeId) (l : string) (x : NodeExecutionClass) (acc : NodeAccessType)
    (target : id32) (amt : option Z) (dom : option string) (meta : gmap string string) : CausalNode :=
  mkNode i l x acc (Some target) amt 0 dom [] meta.

(** The 32 bytes of a schema id, zero unless the text is their hex. *)
Definition schema_of (s : string) : id32 :=
  match hex_decode s with
  | Some b => if decide (length b = 32%nat) then of_be b else 0
  | None => 0
  end.

Definition is_contract_action (a : PlanAction) : bool := bool_decide (is_Some (act_metadata a !! "schema_id")).

(** The class, domain and label of a custom action. *)
(* @src src/runtime/src/crx/plan_builder.rs:317-343 GraphAssembler::assemble *)
Definition custom_class (a : PlanAction) (name : string)
  : total_or_panic (NodeExecutionClass * option string * string) :=
  match act_metadata a !! "schema_id" with
  | Some schema_hex =>
      short ← slice_to 8 schema_hex;
      Ok (NxContractStateTransition (schema_of schema_hex) name, Some ("contract." +:+ short),
          "Contract(" +:+ short +:+ "." +:+ name +:+ ")")
  | None => Ok (NxEmitReceipt, None, mk_label "Custom(" (target_object a))
  end.

(** The nodes of an action, numbered from [next]. *)
(* @src src/runtime/src/crx/plan_builder.rs:58-358 GraphAssembler::assemble *)
Definition action_nodes (a : PlanAction) (next : Z) : total_or_panic (list CausalNode) :=
  let t := target_object a in
  let meta := act_metadata a in
  match action_type a with
  | PaDebitBalance =>
      let dom := meta !! "domain_tag" in
      Ok [main_node next (mk_label "CheckBalance(debit:" t) NxCheckBalance NaValidationOnly t
            (act_amount a) dom ∅;
          main_node (nth_id next 1) (mk_label "MutateBalance(debit:" t) NxMutateBalance NaWrite t
            (act_amount a) dom (<[META_DEBIT_DIR := VAL_DEBIT]> meta)]
  | PaCreditBalance =>
      Ok [main_node next (mk_label "MutateBalance(credit:" t) NxMutateBalance NaWrite t
            (act_amount a) None (<[META_DEBIT_DIR := VAL_CREDIT]> meta)]
  | PaSwapPoolAmounts =>
      Ok [main_node next (mk_label "CheckBalance(pool_reserves:" t) NxCheckBalance NaValidationOnly t
            (act_amount a) None ∅;
          main_node (nth_id next 1) (mk_label "SwapPoolAmounts(" t) NxSwapPoolAmounts NaWrite t
            (act_amount a) None meta]
  | PaLockBalance =>
      Ok [main_node next (mk_label "LockObject(" t) NxLockObject NaWrite t (act_amount a) None meta]
  | PaUnlockBalance =>
      Ok [main_node next (mk_label "UnlockObject(" t) NxUnlockObject NaWrite t (act_amount a) None meta]
  | PaCustom name =>
      if decide (name = "update_version")
      then Ok [main_node next (mk_label "FinalizeSettlement(" t) NxFinalizeSettlement NaSettlementOnly
                 t None None ∅]
      else '(x, dom, l) ← custom_class a name;
           Ok [main_node next l x NaWrite t (act_amount a) dom meta]
  end.

(** An edge from the last mutation, if there is one. *)
Definition after_last (last : option NodeId) (to : NodeId) (k : NodeDependencyKind) (critical : bool)
  : list CausalEdge :=
  match last with Some prev => [mkEdge prev to k critical] | None => [] end.

(** The edges of an action. *)
(* @src src/runtime/src/crx/plan_builder.rs:62-371 GraphAssembler::assemble *)
Definition action_edges (a : PlanAction) (last : option NodeId) (next : Z) : list CausalEdge :=
  match action_type a with
  | PaDebitBalance =>
      mkEdge next (nth_id next 1) PolicyDependent true :: after_last last next OrderingOnly false
  | PaCreditBalance => after_last last next StateDependent true
  | PaSwapPoolAmounts =>
      mkEdge next (nth_id next 1) StateDependent true :: after_last last next OrderingOnly false
  | PaLockBalance | PaUnlockBalance => after_last last next OrderingOnly false
  | PaCustom name =>
      if decide (name = "update_version") then after_last last next OrderingOnly false
      else after_last last next StateDependent (is_contract_action a)
  end.

(** The state of the loop over the actions. *)
Record Assembly : Type := mkAssembly {
  as_nodes : gmap Z CausalNode;
  as_edges : list CausalEdge;
  next_id : Z;
  last_mutation_node : option NodeId;
  all_mutation_nodes : list NodeId }.

Definition add_nodes (l : list CausalNode) (m : gmap Z CausalNode) : gmap Z CausalNode :=
  foldl (λ m n, <[node_id n := n]> m) m l.

(** One action: its last node is the mutation that the next one follows. *)
(* @src src/runtime/src/crx/plan_builder.rs:58-373 GraphAssembler::assemble *)
Definition assemble_action (a : PlanAction) (s : Assembly) : total_or_panic Assembly :=
  new ← action_nodes a (next_id s);
  let mutation := nth_id (next_id s) (Z.of_nat (length new) - 1) in
  Ok (mkAssembly (add_nodes new (as_nodes s)) (as_edges s ++ action_edges a (last_mutation_node s) (next_id s))
        (nth_id (next_id s) (Z.of_nat (length new))) (Some mutation)
        (all_mutation_nodes s ++ [mutation])).

Fixpoint assemble_actions (l : list PlanAction) (s : Assembly) : total_or_panic Assembly :=
  match l with
  | [] => Ok s
  | a :: l => s ← assemble_action a s; assemble_actions l s
  end.

Definition root_node (i : NodeId) : CausalNode :=
  mkNode i "FinalizeSettlement(root)" NxFinalizeSettlement NaSettlementOnly None None 0 None [] ∅.
Definition is_finalize (n : CausalNode) : bool :=
  bool_decide (execution_class n = NxFinalizeSettlement) && bool_decide (nd_branch_id n = 0).

(** The final node, which follows every mutation. *)
(* @src src/runtime/src/crx/plan_builder.rs:375-407 GraphAssembler::assemble *)
Definition add_finalize (s : Assembly) : Assembly :=
  if negb (existsb is_finalize (btree_values (as_nodes s))) && negb (bool_decide (all_mutation_nodes s = []))
  then mkAssembly (<[next_id s := root_node (next_id s)]> (as_nodes s))
         (as_edges s ++ ((λ m, mkEdge m (next_id s) OrderingOnly false) <$> all_mutation_nodes s))
         (next_id s) (last_mutation_node s) (all_mutation_nodes s)
  else s.

(* @src src/runtime/src/crx/plan_builder.rs:48-441 GraphAssembler::assemble *)
Definition assemble `{Sha256, CrxBincode} (plan : CandidatePlan) (goal : GoalPacket)
  : total_or_panic CausalGraph :=
  s ← assemble_actions (actions plan) (mkAssembly ∅ [] 0 None []);
  let s := add_finalize s in
  order ← CausalGraph.compute_topological_order (as_nodes s) (edge_pairs (as_edges s));
  let main := mkBranch 0 order true
    (match partial_failure_policy (gp_policy goal) with StrictAllOrNothing => false | _ => true end) in
  let graph := mkGraph (sha256 (be_bytes 32 (cp_plan_id plan) ++ be_bytes 32 (gp_packet_id goal)))
    (gp_packet_id goal) (as_nodes s) (as_edges s) [main] order 0 in
  Ok (set_graph_hash (CausalGraph.compute_hash graph) graph).
End assembler.
End GraphAssembler.

(** ** The capsule *)

Module RightsSynthesizer.
(** What one node adds to the set of actions. *)
(* @src src/runtime/src/crx/plan_builder.rs:476-517 RightsSynthesizer::synthesize *)
Definition node_actions (n : CausalNode) : gset AllowedActionType :=
  match execution_class n with
  | NxReadObject | NxCheckBalance | NxCheckPolicy => {[AaRead]}
  | NxMutateBalance => if is_debit n then {[AaDebitBalance]} else {[AaCreditBalance]}
  | NxSwapPoolAmounts => {[AaSwapPoolAmounts; AaDebitBalance; AaCreditBalance]}
  | NxLockObject => {[AaLockBalance]}
  | NxUnlockObject => {[AaUnlockBalance]}
  | NxFinalizeSettlement => {[AaUpdateVersion; AaEmitReceipt]}
  | NxEmitReceipt => {[AaEmitReceipt]}
  | NxInvokeSafetyHook => {[AaInvokeSafetyHook]}
  | NxCreateObject => {[AaCreateObject]}
  | _ => ∅
  end.
(* @src src/runtime/src/crx/plan_builder.rs:465-474 RightsSynthesizer::synthesize *)
Definition node_objects (n : CausalNode) : gset Z :=
  match nd_target n, access_type n with
  | Some o, (NaWrite | NaSettlementOnly | NaValidationOnly) => {[o]}
  | _, _ => ∅
  end.
Definition node_debit (n : CausalNode) : Z :=
  default 0 (RightsValidationEngine.node_spend n).

(* @src src/runtime/src/crx/plan_builder.rs:452-580 RightsSynthesizer::synthesize *)
Definition synthesize `{Sha256, CrxBincode} (g : CausalGraph) (goal : GoalPacket) (solver_id : id32)
    (epoch : Z) : RightsCapsule :=
  let ns := btree_values (nodes g) in
  let object_types : gset ObjectType :=
    match ns with [] => ∅ | _ => list_to_set (gc_allowed_object_types (gp_constraints goal)) end in
  let '(rollback, downgrade, quarantine) :=
    match partial_failure_policy (gp_policy goal) with
    | StrictAllOrNothing => (true, false, false)
    | AllowBranchDowngrade => (false, true, false)
    | QuarantineOnFailure => (false, false, true)
    | DowngradeAndContinue => (false, true, false)
    end in
  let scope := mkScope (⋃ (node_objects <$> ns)) object_types (⋃ (node_actions <$> ns) ∪ {[AaRead]})
    (mkDomains (list_to_set (gc_allowed_domains (gp_constraints goal)))
       (list_to_set (gc_forbidden_domains (gp_constraints goal))))
    (foldl (λ acc n, sat_add 128 acc (node_debit n)) 0 ns)
    (gc_max_objects_touched (gp_constraints goal)) rollback downgrade quarantine in
  let capsule := mkCapsule (sha256 (be_bytes 32 (graph_id g) ++ be_bytes 32 solver_id))
    (gp_packet_id goal) solver_id scope epoch (gp_deadline_epoch goal) 0 ∅ in
  set_capsule_hash (RightsCapsule.compute_hash capsule) capsule.
End RightsSynthesizer.

Definition never_err {E A} (o : total_or_panic A) : outcome E A :=
  match o with Ok a => Ok a | _ => Panic end.

Module CausalPlanBuilder.
(* @src src/runtime/src/crx/plan_builder.rs:592-604 CausalPlanBuilder::build *)
Definition build `{Sha256, HexBytes, HexDecode, CrxBincode} (plan : CandidatePlan) (goal : GoalPacket)
    (epoch : Z) : outcome RuntimeError (CausalGraph * RightsCapsule) :=
  graph ← never_err (GraphAssembler.assemble plan goal);
  _ ← CausalGraph.validate_acyclic graph;
  Ok (graph, RightsSynthesizer.synthesize graph goal (cp_solver_id plan) epoch).
End CausalPlanBuilder.
