(* ===== verification/CrxExec.v ===== *)
(** * Execution of a causal graph

    The executor of branches and nodes
    (src/runtime/src/crx/branch_execution.rs) and the classification of its
    outcome (src/runtime/src/crx/finality.rs). *)

From stdpp Require Import gmap strings list pretty.
From S2P Require Import Prelude Errors Objects Store Numerals Crx CrxChecks.

(** ** Records *)

(* @src src/runtime/src/crx/branch_execution.rs:13-18 BranchFailureMode *)
Inductive BranchFailureMode : Type := FmRevert | FmDowngrade | FmQuarantine | FmIgnore.

(* @src src/runtime/src/crx/branch_execution.rs:21-26 DowngradeAction *)
Record DowngradeAction : Type := mkDowngrade {
  dg_branch_id : Z;
  reduced_amount : Z;
  skipped_nodes : list NodeId;
  dg_reason : string }.

(* @src src/runtime/src/crx/branch_execution.rs:29-33 QuarantineAction *)
Record QuarantineAction : Type := mkQuarantine {
  qa_branch_id : Z;
  quarantined_objects : list id32;
  qa_reason : string }.

(* @src src/runtime/src/crx/branch_execution.rs:36-48 ExecutionSettlementClass *)
Inductive ExecutionSettlementClass : Type :=
| FullSuccess
| SuccessWithDowngrade (branch : Z)
| SuccessWithQuarantine (objects : list id32)
| PartialSuccess (succeeded_branches failed_branches : list Z)
| FullRevert
| ScRejected.
#[export] Instance ExecutionSettlementClass_eq_dec : EqDecision ExecutionSettlementClass.
Proof. solve_decision. Defined.

(* @src src/runtime/src/crx/branch_execution.rs:51-59 BranchExecutionResult *)
Record BranchExecutionResult : Type := mkBranchResult {
  bx_branch_id : Z;
  bx_success : bool;
  failure_mode : option BranchFailureMode;
  downgrade : option DowngradeAction;
  quarantine : option QuarantineAction;
  mutated_objects : list id32;
  bx_error : option string }.

(** ** Nodes *)

(** [i128] numbers written in the metadata; a missing or malformed one is 0. *)
Definition meta_i128 (k : string) (m : gmap string string) : Z := default 0 (m !! k ≫= parse_i128).

(** A node returns [Ok(())] or an error, and never panics: [None] or the error.
    Updates of an object are the error or the new object. *)
Definition updated (A : Type) : Type := RuntimeError + A.

(** A reserve moved by a signed amount. *)
(* @src src/runtime/src/crx/branch_execution.rs:393-405 BranchAwareExecutor::execute_node *)
Definition shift_reserve (delta reserve : Z) : updated Z :=
  if decide (0 ≤ delta) then inr (sat_add 128 reserve (wrapu 128 delta))
  else
    let sub := wrapu 128 (- delta) in
    if decide (reserve < sub) then inl (InsufficientBalance sub reserve) else inr (reserve - sub).

Definition no_target (what : string) : option RuntimeError :=
  Some (Errors.CausalViolation (what +:+ " node has no target_object")).

Module BranchAwareExecutor.
(* @src src/runtime/src/crx/branch_execution.rs:345-370 BranchAwareExecutor::execute_node *)
Definition mutate_balance (debit : bool) (amt : Z) (b : BalanceObject) : updated BalanceObject :=
  if debit then
    let available := sat_sub (amount b) (locked_amount b) in
    if decide (available < amt) then inl (InsufficientBalance amt available)
    else match checked_sub (amount b) amt with
         | Some a => inr (set_amount b a)
         | None => inl (InsufficientBalance amt (amount b))
         end
  else inr (set_amount b (sat_add 128 (amount b) amt)).

(* @src src/runtime/src/crx/branch_execution.rs:430-443 BranchAwareExecutor::execute_node *)
Definition lock_amount (amt : Z) (b : BalanceObject) : updated BalanceObject :=
  let available := sat_sub (amount b) (locked_amount b) in
  if decide (available < amt) then inl (InsufficientBalance amt available)
  else inr (set_locked b (sat_add 128 (locked_amount b) amt)).

(* @src src/runtime/src/crx/branch_execution.rs:446-458 BranchAwareExecutor::execute_node *)
Definition unlock_amount (amt : Z) (b : BalanceObject) : updated BalanceObject :=
  inr (set_locked b (sat_sub (locked_amount b) amt)).

(** A write through a balance that must exist. *)
Definition with_balance (i : id32) (f : BalanceObject → updated BalanceObject) (st : ObjectStore)
  : ObjectStore * option RuntimeError :=
  match ObjectStore.get_balance_by_id st i with
  | None => (st, Some (ObjectNotFound i))
  | Some b =>
      match f b with
      | inr b' => (ObjectStore.update_balance (λ _, b') i st, None)
      | inl e => (st, Some e)
      end
  end.

(** Both deltas; the first one stays when the second cannot be applied. *)
(* @src src/runtime/src/crx/branch_execution.rs:389-421 BranchAwareExecutor::execute_node *)
Definition swap_reserves (i : id32) (delta_a delta_b : Z) (st : ObjectStore)
  : ObjectStore * option RuntimeError :=
  match ObjectStore.get_pool_by_id st i with
  | None => (st, Some (ObjectNotFound i))
  | Some p =>
      match shift_reserve delta_a (reserve_a p) with
      | inl e => (st, Some e)
      | inr ra =>
          match shift_reserve delta_b (reserve_b p) with
          | inl e => (ObjectStore.update_pool (λ p, set_reserves p ra (reserve_b p)) i st, Some e)
          | inr rb => (ObjectStore.update_pool (λ p, set_reserves p ra rb) i st, None)
          end
      end
  end.

Definition bump (m : ObjectMeta) : ObjectMeta := set_version m (wrapu 64 (version m + 1)).
(** The version of the balance, the pool or else the canonical object. *)
(* @src src/runtime/src/crx/branch_execution.rs:460-472 BranchAwareExecutor::execute_node *)
Definition finalize (i : id32) (st : ObjectStore) : ObjectStore :=
  if decide (is_Some (ObjectStore.get_balance_by_id st i))
  then ObjectStore.update_balance (λ b, set_bal_meta b (bump (bal_meta b))) i st
  else if decide (is_Some (ObjectStore.get_pool_by_id st i))
  then ObjectStore.update_pool (λ p, set_pool_meta p (bump (pool_meta p))) i st
  else ObjectStore.update (Object.map_meta bump) i st.

Definition read_object (i : id32) (st : ObjectStore) : option RuntimeError :=
  match ObjectStore.get st i with Some _ => None | None => Some (ObjectNotFound i) end.
(* @src src/runtime/src/crx/branch_execution.rs:324-338 BranchAwareExecutor::execute_node *)
Definition check_balance (i : id32) (min_amount : Z) (st : ObjectStore) : option RuntimeError :=
  match ObjectStore.get_balance_by_id st i with
  | None => Some (ObjectNotFound i)
  | Some bal =>
      if decide (BalanceObject.available bal < min_amount)
      then Some (InsufficientBalance min_amount (BalanceObject.available bal)) else None
  end.

(* @src src/runtime/src/crx/branch_execution.rs:311-490 BranchAwareExecutor::execute_node *)
Definition execute_node (n : CausalNode) (st : ObjectStore) : ObjectStore * option RuntimeError :=
  let amt := default 0 (nd_amount n) in
  match execution_class n, nd_target n with
  | NxReadObject, Some i => (st, read_object i st)
  | (NxCheckBalance | NxCheckPolicy), Some i => (st, check_balance i amt st)
  | NxMutateBalance, Some i => with_balance i (mutate_balance (is_debit n) amt) st
  | NxMutateBalance, None => (st, no_target "MutateBalance")
  | NxSwapPoolAmounts, Some i =>
      swap_reserves i (meta_i128 "delta_a" (nd_metadata n)) (meta_i128 "delta_b" (nd_metadata n)) st
  | NxSwapPoolAmounts, None => (st, no_target "SwapPoolAmounts")
  | NxLockObject, Some i => with_balance i (lock_amount amt) st
  | NxLockObject, None => (st, no_target "LockObject")
  | NxUnlockObject, Some i => with_balance i (unlock_amount amt) st
  | NxUnlockObject, None => (st, no_target "UnlockObject")
  | NxFinalizeSettlement, Some i => (finalize i st, None)
  | _, _ => (st, None)
  end.

(** Classes whose targets are recorded as mutated. *)
Definition records_mutation (x : NodeExecutionClass) : bool :=
  match x with
  | NxMutateBalance | NxSwapPoolAmounts | NxLockObject | NxUnlockObject | NxFinalizeSettlement => true
  | _ => false
  end.
(* @src src/runtime/src/crx/branch_execution.rs:113-126 BranchAwareExecutor::execute *)
Definition record_mutation (n : CausalNode) (mutated : list id32) : list id32 :=
  match nd_target n with
  | Some o => if records_mutation (execution_class n) && negb (bool_decide (o ∈ mutated))
              then mutated ++ [o] else mutated
  | None => mutated
  end.

(** The node that failed, its error, and the nodes after it in the branch. *)
Record BranchFailure : Type := mkFailure {
  failed_node : NodeId;
  failure_error : RuntimeError;
  bf_skipped_nodes : list NodeId }.

Definition first_index (i : NodeId) (l : list NodeId) : nat := default 0%nat (fst <$> list_find (λ j, j = i) l).

(** The nodes of a branch, until one fails. *)
(* @src src/runtime/src/crx/branch_execution.rs:98-139 BranchAwareExecutor::execute *)
Fixpoint run_nodes (g : CausalGraph) (all ids : list NodeId) (st : ObjectStore) (mutated : list id32)
  : ObjectStore * list id32 * option BranchFailure :=
  match ids with
  | [] => (st, mutated, None)
  | i :: ids =>
      match nodes g !! i with
      | None => run_nodes g all ids st mutated
      | Some n =>
          match execute_node n st with
          | (st, None) => run_nodes g all ids st (record_mutation n mutated)
          | (st, Some e) => (st, mutated, Some (mkFailure i e (drop (S (first_index i all)) all)))
          end
      end
  end.

(* @src src/runtime/src/crx/branch_execution.rs:277-308 BranchAwareExecutor::determine_failure_mode *)
Definition determine_failure_mode (policy : PartialFailurePolicy) (c : RightsCapsule)
    (failure_allowed : bool) : BranchFailureMode :=
  match policy with
  | StrictAllOrNothing => FmRevert
  | AllowBranchDowngrade => if allow_downgrade (rc_scope c) then FmDowngrade else FmRevert
  | QuarantineOnFailure => if quarantine_eligible (rc_scope c) then FmQuarantine else FmRevert
  | DowngradeAndContinue =>
      if allow_downgrade (rc_scope c) then FmDowngrade
      else if failure_allowed then FmIgnore else FmRevert
  end.

(** The nodes of a branch in topological order. *)
(* @src src/runtime/src/crx/branch_execution.rs:84-96 BranchAwareExecutor::execute *)
Definition branch_node_ids (g : CausalGraph) (b : Z) : list NodeId :=
  filter (λ i, nd_branch_id <$> nodes g !! i = Some b) (topological_order g).

(** What the loop over the branches has collected. *)
Record ExecProgress : Type := mkExec {
  branch_results : list BranchExecutionResult;
  all_succeeded : list Z;
  all_failed : list Z;
  all_quarantined : list id32;
  any_downgrade : option Z }.

Section execute.
Context `{Hex}.

(** The result of a failed branch, by its failure mode. *)
(* @src src/runtime/src/crx/branch_execution.rs:154-240 BranchAwareExecutor::execute *)
Definition fail_branch (g : CausalGraph) (b : Z) (mode : BranchFailureMode) (f : BranchFailure)
    (mutated : list id32) (p : ExecProgress) : ExecProgress :=
  let msg := error_to_string (failure_error f) in
  let result success dg qa := mkBranchResult b success (Some mode) dg qa mutated (Some msg) in
  match mode with
  | FmRevert | FmIgnore =>
      mkExec (branch_results p ++ [result false None None]) (all_succeeded p) (all_failed p ++ [b])
        (all_quarantined p) (any_downgrade p)
  | FmDowngrade =>
      mkExec (branch_results p ++ [result true (Some (mkDowngrade b 0 (bf_skipped_nodes f) msg)) None])
        (all_succeeded p ++ [b]) (all_failed p) (all_quarantined p) (Some b)
  | FmQuarantine =>
      let quarantined := option_list (n ← nodes g !! failed_node f; nd_target n) in
      mkExec (branch_results p ++ [result false None (Some (mkQuarantine b quarantined msg))])
        (all_succeeded p) (all_failed p ++ [b]) (all_quarantined p ++ quarantined) (any_downgrade p)
  end.

(** The class of the whole from what the branches came to. *)
(* @src src/runtime/src/crx/branch_execution.rs:244-272 BranchAwareExecutor::execute *)
Definition settlement_class (policy : PartialFailurePolicy) (p : ExecProgress) : ExecutionSettlementClass :=
  if decide (all_failed p = []) then
    match any_downgrade p with
    | Some b => SuccessWithDowngrade b
    | None => if decide (all_quarantined p ≠ []) then SuccessWithQuarantine (all_quarantined p)
              else FullSuccess
    end
  else if decide (all_succeeded p = []) then FullRevert
  else match policy with
       | QuarantineOnFailure => SuccessWithQuarantine (all_quarantined p)
       | AllowBranchDowngrade | DowngradeAndContinue => PartialSuccess (all_succeeded p) (all_failed p)
       | StrictAllOrNothing => FullRevert
       end.

(** The branches in turn; a revert under the strict policy ends the loop. *)
(* @src src/runtime/src/crx/branch_execution.rs:81-242 BranchAwareExecutor::execute *)
Fixpoint run_branches (g : CausalGraph) (c : RightsCapsule) (policy : PartialFailurePolicy)
    (bs : list ExecutionBranch) (p : ExecProgress) (st : ObjectStore)
  : ObjectStore * (ExecutionSettlementClass * list BranchExecutionResult) :=
  match bs with
  | [] => (st, (settlement_class policy p, branch_results p))
  | b :: bs =>
      let ids := branch_node_ids g (branch_id b) in
      let '(st, mutated, failure) := run_nodes g ids ids st [] in
      match failure with
      | None =>
          run_branches g c policy bs
            (mkExec (branch_results p ++ [mkBranchResult (branch_id b) true None None None mutated None])
               (all_succeeded p ++ [branch_id b]) (all_failed p) (all_quarantined p) (any_downgrade p)) st
      | Some f =>
          let mode := determine_failure_mode policy c (failure_allowed b) in
          let p := fail_branch g (branch_id b) mode f mutated p in
          match mode, policy with
          | FmRevert, StrictAllOrNothing => (st, (FullRevert, branch_results p))
          | _, _ => run_branches g c policy bs p st
          end
      end
  end.

(* @src src/runtime/src/crx/branch_execution.rs:69-275 BranchAwareExecutor::execute *)
Definition execute (g : CausalGraph) (c : RightsCapsule) (goal : GoalPacket) (st : ObjectStore)
  : ObjectStore * (ExecutionSettlementClass * list BranchExecutionResult) :=
  run_branches g c (partial_failure_policy (gp_policy goal)) (branches g) (mkExec [] [] [] [] None) st.
End execute.
End BranchAwareExecutor.

(** ** Finality *)

(* @src src/runtime/src/crx/finality.rs:9-16 FinalityClass *)
Inductive FinalityClass : Type :=
| FcFinalized | FcFinalizedWithDowngrade | FcFinalizedWithQuarantine | FcProvisional | FcRejected
| FcReverted.
#[export] Instance FinalityClass_eq_dec : EqDecision FinalityClass.
Proof. solve_decision. Defined.

(* @src src/runtime/src/crx/finality.rs:19-24 DomainFinalityPolicy *)
Record DomainFinalityPolicy : Type := mkDomainPolicy {
  dp_domain : string;
  min_finality_class : FinalityClass;
  require_audit : bool }.

(* @src src/runtime/src/crx/finality.rs:27-32 SettlementDisposition *)
Record SettlementDisposition : Type := mkDisposition {
  finality_class : FinalityClass;
  sd_reason : string;
  escalation_required : bool;
  provisional_until_epoch : option Z }.

(* @src src/runtime/src/crx/finality.rs:38-47 finality_rank *)
Definition finality_rank (f : FinalityClass) : Z :=
  match f with
  | FcFinalized => 5 | FcFinalizedWithDowngrade => 4 | FcFinalizedWithQuarantine => 3
  | FcProvisional => 2 | FcReverted => 1 | FcRejected => 0
  end.

Module FinalityClassifier.
Definition count {A} (l : list A) : string := pretty (Z.of_nat (length l)).

(* @src src/runtime/src/crx/finality.rs:101-174 FinalityClassifier::base_classify *)
Definition base_classify (c : ExecutionSettlementClass) (goal : GoalPacket) : FinalityClass * string :=
  let policy := partial_failure_policy (gp_policy goal) in
  match c with
  | FullSuccess => (FcFinalized, "full success")
  | SuccessWithDowngrade b =>
      if decide (policy = AllowBranchDowngrade ∨ policy = DowngradeAndContinue)
      then (FcFinalizedWithDowngrade, "branch " +:+ pretty b +:+ " downgraded")
      else (FcReverted, "branch " +:+ pretty b +:+ " downgraded but policy disallows it")
  | SuccessWithQuarantine objects =>
      if decide (policy = QuarantineOnFailure)
      then (FcFinalizedWithQuarantine, count objects +:+ " object(s) quarantined")
      else (FcReverted, count objects +:+ " object(s) quarantined but policy disallows quarantine")
  | PartialSuccess succeeded failed =>
      match policy with
      | AllowBranchDowngrade | DowngradeAndContinue =>
          (FcFinalizedWithDowngrade,
           "partial success: " +:+ count succeeded +:+ " succeeded, " +:+ count failed +:+ " failed")
      | QuarantineOnFailure =>
          (FcFinalizedWithQuarantine,
           "partial success with quarantine: " +:+ count succeeded +:+ " succeeded, " +:+
           count failed +:+ " failed")
      | StrictAllOrNothing => (FcReverted, "strict policy: partial success triggers revert")
      end
  | FullRevert => (FcReverted, "full revert")
  | ScRejected => (FcRejected, "rejected before execution")
  end.

(* @src src/runtime/src/crx/finality.rs:57-99 FinalityClassifier::classify *)
Definition classify (c : ExecutionSettlementClass) (goal : GoalPacket)
    (domain_policies : list DomainFinalityPolicy) : SettlementDisposition :=
  let '(base_class, base_reason) := base_classify c goal in
  let '(final, reason) :=
    if decide (settlement_strictness (gp_policy goal) = SsProvisional ∧
               base_class ≠ FcRejected ∧ base_class ≠ FcReverted)
    then (FcProvisional, base_reason +:+ "; overridden to Provisional by strictness policy")
    else (base_class, base_reason) in
  let escalation := existsb (λ dp, bool_decide (finality_rank final < finality_rank (min_finality_class dp)))
                      domain_policies in
  mkDisposition final reason escalation
    (if decide (final = FcProvisional) then Some (gp_deadline_epoch goal) else None).
End FinalityClassifier.
