(* ===== verification/CrxSettle.v ===== *)
(** * CRX settlement

    The settlement of a plan for a goal (src/runtime/src/crx/settlement.rs): build
    the graph, check it, execute it, classify the outcome, and put the touched
    objects back when it is a revert.  Then the simulator (crx/simulation.rs) and
    the batches of goals (crx/poseq_bridge.rs). *)

From stdpp Require Import gmap strings list sorting pretty.
From S2P Require Import Prelude Errors Gas Objects Store FeeEnvelope Intents SolverTypes.
From S2P Require Import PlanValidation Numerals Sorting Crx CrxOrder CrxChecks CrxExec.

(** ** Records *)

(* @src src/runtime/src/crx/settlement.rs:22-28 RightsCapsuleReceipt *)
Record RightsCapsuleReceipt : Type := mkCapsuleReceipt {
  cp_capsule_id : id32;
  cp_capsule_hash : id32;
  scope_summary : string;
  was_respected : bool }.

(* @src src/runtime/src/crx/settlement.rs:31-39 GraphExecutionReceipt *)
Record GraphExecutionReceipt : Type := mkGraphReceipt {
  ge_graph_id : id32;
  ge_graph_hash : id32;
  total_nodes : Z;
  executed_nodes : Z;
  ge_skipped_nodes : Z;
  failed_nodes : Z;
  ge_branch_results : list BranchExecutionResult }.

(* @src src/runtime/src/crx/settlement.rs:42-47 CausalSettlementSummary *)
Record CausalSettlementSummary : Type := mkCausalSummary {
  causal_validity : bool;
  rights_validity : bool;
  violations_count : Z;
  cs_audit_hash : id32 }.

(* @src src/runtime/src/crx/settlement.rs:50-65 CRXSettlementRecord *)
Record CRXSettlementRecord : Type := mkCrxRecord {
  cx_goal_packet_id : id32;
  cx_intent_id : id32;
  cx_solver_id : id32;
  cx_plan_id : id32;
  finality : SettlementDisposition;
  cx_class : ExecutionSettlementClass;
  capsule_receipt : RightsCapsuleReceipt;
  graph_receipt : GraphExecutionReceipt;
  causal_summary : CausalSettlementSummary;
  affected_objects : list id32;
  version_transitions : list (id32 * Z * Z);
  cx_gas_used : Z;
  cx_epoch : Z }.

(** ** Snapshots *)

(* @src src/runtime/src/crx/settlement.rs:71-75 StoreSnapshot *)
Record StoreSnapshot : Type := mkSnapshot {
  sn_balances : gmap Z BalanceObject;
  sn_pools : gmap Z LiquidityPoolObject;
  sn_vaults : gmap Z VaultObject }.

Module StoreSnapshot.
Definition at_ids {A} (ids : list id32) (m : gmap Z A) : gmap Z A := filter (λ p, p.1 ∈ ids) m.
(* @src src/runtime/src/crx/settlement.rs:79-95 StoreSnapshot::take *)
Definition take (st : ObjectStore) (ids : list id32) : StoreSnapshot :=
  mkSnapshot (at_ids ids (balances st)) (at_ids ids (pools st)) (at_ids ids (vaults st)).

(** Entries that still exist get the values of the snapshot. *)
Definition put_back {A} (snap m : gmap Z A) : gmap Z A := map_imap (λ i x, Some (default x (snap !! i))) m.
(* @src src/runtime/src/crx/settlement.rs:98-114 StoreSnapshot::restore *)
Definition restore (s : StoreSnapshot) (st : ObjectStore) : ObjectStore :=
  mkStore (objects st) (put_back (sn_balances s) (balances st)) (put_back (sn_pools s) (pools st))
    (put_back (sn_vaults s) (vaults st)).
End StoreSnapshot.

(** ** The engine *)

Module CRXSettlementEngine.
Section settle.
Context `{Sha256, Hex, HexBytes, HexDecode, CrxBincode}.

(** [len() as u64], and the version of an object of the store. *)
Definition node_count (g : CausalGraph) : Z := Z.of_nat (size (nodes g)).
Definition version_of (st : ObjectStore) (i : id32) : option Z :=
  (λ o, version (Object.meta o)) <$> ObjectStore.get st i.

(* @src src/runtime/src/crx/settlement.rs:201-205 CRXSettlementEngine::settle *)
Definition target_ids (g : CausalGraph) : list id32 := omap nd_target (btree_values (nodes g)).

(* @src src/runtime/src/crx/settlement.rs:237-243 CRXSettlementEngine::settle *)
Definition affected (results : list BranchExecutionResult) : list id32 :=
  sorted_elements (list_to_set (concat (mutated_objects <$> results))).

(** Old and new versions of the affected objects. *)
(* @src src/runtime/src/crx/settlement.rs:245-260 CRXSettlementEngine::settle *)
Definition transitions (pre post : ObjectStore) (ids : list id32) : list (id32 * Z * Z) :=
  (λ i, let old_v := default 0 (version_of pre i) in (i, old_v, default old_v (version_of post i))) <$> ids.

(* @src src/runtime/src/crx/settlement.rs:277-280 CRXSettlementEngine::settle *)
Definition graph_gas (g : CausalGraph) : Z :=
  wrapu 64 (base_tx default_costs +
    node_count g * (object_write default_costs + object_read default_costs)).

Definition capsule_summary (c : RightsCapsule) (respected : bool) : RightsCapsuleReceipt :=
  mkCapsuleReceipt (capsule_id c) (capsule_hash c)
    ("actions=" +:+ pretty (Z.of_nat (size (allowed_actions (rc_scope c)))) +:+
     ", obj_types=" +:+ pretty (Z.of_nat (size (sc_object_types (rc_scope c)))) +:+
     ", max_spend=" +:+ pretty (sc_max_spend (rc_scope c))) respected.

(** The execution of a graph that passed the checks, with the snapshot put back
    when the outcome is a revert. *)
(* @src src/runtime/src/crx/settlement.rs:200-235 CRXSettlementEngine::settle *)
Definition execute_and_classify (g : CausalGraph) (c : RightsCapsule) (goal : GoalPacket)
    (domain_policies : list DomainFinalityPolicy) (st : ObjectStore)
  : ObjectStore * (ExecutionSettlementClass * list BranchExecutionResult * SettlementDisposition * bool) :=
  let snapshot := StoreSnapshot.take st (target_ids g) in
  let '(st, (class, results)) := BranchAwareExecutor.execute g c goal st in
  let st := ObjectStore.sync_typed_to_canonical st in
  let finality := FinalityClassifier.classify class goal domain_policies in
  let is_reverted := bool_decide (finality_class finality = FcReverted) || bool_decide (class = FullRevert) in
  let st := if is_reverted then ObjectStore.sync_typed_to_canonical (StoreSnapshot.restore snapshot st)
            else st in
  (st, (class, results, finality, is_reverted)).

(** The record of a settlement. *)
Definition settled_record (plan : CandidatePlan) (goal : GoalPacket) (g : CausalGraph)
    (c : RightsCapsule) (summary : CausalSettlementSummary) (finality : SettlementDisposition)
    (class : ExecutionSettlementClass) (executed skipped failed : Z)
    (results : list BranchExecutionResult) (objs : list id32) (versions : list (id32 * Z * Z))
    (gas epoch : Z) : CRXSettlementRecord :=
  mkCrxRecord (gp_packet_id goal) (cp_intent_id plan) (cp_solver_id plan) (cp_plan_id plan) finality class
    (capsule_summary c (rights_validity summary))
    (mkGraphReceipt (graph_id g) (graph_hash g) (node_count g) executed skipped failed results)
    summary objs versions gas epoch.

(* @src src/runtime/src/crx/settlement.rs:125-297 CRXSettlementEngine::settle *)
Definition settle (plan : CandidatePlan) (goal : GoalPacket)
    (domain_policies : list DomainFinalityPolicy) (epoch : Z)
  : M ObjectStore RuntimeError CRXSettlementRecord := λ st,
  match CausalPlanBuilder.build plan goal epoch with
  | Err e => (st, Err e)
  | Panic => (st, Panic)
  | Ok (g, c) =>
      let rights := RightsValidationEngine.validate g c st epoch (cp_solver_id plan) in
      let causal := CausalValidityEngine.validate g c goal in
      let count := Z.of_nat (length (rights_violations rights) + length (causal_violations causal)) in
      let summary := mkCausalSummary (is_causally_valid causal) (all_passed rights) count
                       (audit_hash (audit causal)) in
      if negb (all_passed rights) || negb (is_causally_valid causal) then
        (st, Ok (settled_record plan goal g c summary
                   (FinalityClassifier.classify ScRejected goal domain_policies) ScRejected
                   0 (node_count g) count [] [] [] (base_tx default_costs) epoch))
      else
        let '(st', (class, results, finality, is_reverted)) :=
          execute_and_classify g c goal domain_policies st in
        let objs := affected results in
        let failed := Z.of_nat (length (filter (λ r, bx_success r = false) results)) in
        (st', Ok (settled_record plan goal g c summary finality class
                    (if is_reverted then 0 else Z.of_nat (length (topological_order g)))
                    (if is_reverted then node_count g else 0) failed results objs
                    (if is_reverted then [] else transitions st st' objs) (graph_gas g) epoch))
  end.
End settle.
End CRXSettlementEngine.

(** ** Simulation *)

(* @src src/runtime/src/crx/simulation.rs:23-35 CRXSimulationResult *)
Record CRXSimulationResult : Type := mkSimulation {
  sim_goal_packet_id : id32;
  would_pass_rights_validation : bool;
  would_pass_causal_validation : bool;
  predicted_finality : FinalityClass;
  predicted_settlement_class : ExecutionSettlementClass;
  preview_graph_hash : id32;
  preview_capsule_hash : id32;
  sim_balance_changes : list (id32 * Z);
  sim_rights_violations : list RightsViolation;
  sim_causal_violations : list CausalViolation;
  estimated_gas : Z }.

(* @src src/runtime/src/crx/simulation.rs:38-46 RightsInspectionView *)
Record RightsInspectionView : Type := mkRightsView {
  iv_capsule_id : id32;
  iv_allowed_objects : list id32;
  iv_allowed_actions : list AllowedActionType;
  iv_allowed_domains : list string;
  iv_forbidden_domains : list string;
  iv_max_spend : Z;
  valid_epochs : Z * Z }.

(* @src src/runtime/src/crx/simulation.rs:49-57 GraphExplainabilityRecord *)
Record GraphExplainabilityRecord : Type := mkExplained {
  ex_graph_id : id32;
  node_count : nat;
  edge_count : nat;
  branch_count : nat;
  critical_path : list NodeId;
  domain_map : gmap string (list NodeId);
  node_summaries : list (NodeId * string * NodeExecutionClass) }.

Module CRXSimulator.
(** One balance mutation in a preview; the casts to [i128] and the sums wrap. *)
(* @src src/runtime/src/crx/simulation.rs:258-279 CRXSimulator::preview_balance_changes *)
Definition preview_node (g : CausalGraph) (m : gmap Z Z) (i : NodeId) : gmap Z Z :=
  match nodes g !! i with
  | Some n =>
      match nd_target n with
      | Some o =>
          if decide (execution_class n = NxMutateBalance) then
            let amt := wraps 128 (default 0 (nd_amount n)) in
            let delta := if is_debit n then wraps 128 (- amt) else amt in
            <[o := wraps 128 (default 0 (m !! o) + delta)]> m
          else m
      | None => m
      end
  | None => m
  end.
(* @src src/runtime/src/crx/simulation.rs:252-282 CRXSimulator::preview_balance_changes *)
Definition preview_balance_changes (g : CausalGraph) : list (id32 * Z) :=
  btree_list (foldl (preview_node g) ∅ (topological_order g)).

(* @src src/runtime/src/crx/simulation.rs:67-141 CRXSimulator::simulate *)
Definition simulate `{Sha256, Hex, HexBytes, HexDecode, CrxBincode} (plan : CandidatePlan)
    (goal : GoalPacket) (st : ObjectStore) (domain_policies : list DomainFinalityPolicy) (epoch : Z)
  : total_or_panic CRXSimulationResult :=
  match CausalPlanBuilder.build plan goal epoch with
  | Panic => Panic
  | Err _ => Ok (mkSimulation (gp_packet_id goal) false false FcRejected ScRejected 0 0 [] [] [] 0)
  | Ok (g, c) =>
      let rights := RightsValidationEngine.validate g c st epoch (cp_solver_id plan) in
      let causal := CausalValidityEngine.validate g c goal in
      let class := if negb (all_passed rights) || negb (is_causally_valid causal)
                   then ScRejected else FullSuccess in
      let finality := FinalityClassifier.classify class goal domain_policies in
      Ok (mkSimulation (gp_packet_id goal) (all_passed rights) (is_causally_valid causal)
            (finality_class finality) class (graph_hash g) (capsule_hash c)
            (preview_balance_changes g) (rights_violations rights) (causal_violations causal)
            (CRXSettlementEngine.graph_gas g))
  end.

(* @src src/runtime/src/crx/simulation.rs:144-177 CRXSimulator::inspect_rights *)
Definition inspect_rights (c : RightsCapsule) : RightsInspectionView :=
  let sc := rc_scope c in
  mkRightsView (capsule_id c) (sorted_elements (sc_object_ids sc))
    (filter (λ a, a ∈ allowed_actions sc) all_actions)
    (sorted_strings (allowed_domains (domain_envelope sc)))
    (sorted_strings (forbidden_domains (domain_envelope sc)))
    (sc_max_spend sc) (valid_from_epoch c, valid_until_epoch c).

(** The longest paths found so far, and the node before each on its path. *)
(* @src src/runtime/src/crx/simulation.rs:221-232 CRXSimulator::find_critical_path *)
Definition extend_path (x : NodeId) (s : gmap Z Z * gmap Z (option NodeId)) (e : CausalEdge)
  : gmap Z Z * gmap Z (option NodeId) :=
  let '(dist, parent) := s in
  let next_dist := wrapu 64 (default 0 (dist !! x) + 1) in
  let entry := default 0 (dist !! e_to e) in
  if decide (entry < next_dist)
  then (<[e_to e := next_dist]> dist, <[e_to e := Some x]> parent)
  else (<[e_to e := entry]> dist, parent).
(** [dist.iter().max_by_key(..)]: the last of the largest. *)
Definition farthest (dist : gmap Z Z) : option NodeId :=
  fst <$> foldl (λ best p, match best with
                           | Some b => if decide (b.2 ≤ p.2) then Some p else best
                           | None => Some p
                           end) None (btree_list dist).
(** Back along the parents; out of fuel when they do not end. *)
(* @src src/runtime/src/crx/simulation.rs:240-247 CRXSimulator::find_critical_path *)
Fixpoint walk_back (fuel : nat) (parent : gmap Z (option NodeId)) (current : option NodeId)
    (path : list NodeId) : option (list NodeId) :=
  match current with
  | None => Some path
  | Some x =>
      match fuel with
      | O => None
      | S fuel => walk_back fuel parent (p ← parent !! x; p) (x :: path)
      end
  end.
(* @src src/runtime/src/crx/simulation.rs:203-249 CRXSimulator::find_critical_path *)
Definition find_critical_path (g : CausalGraph) : option (list NodeId) :=
  match topological_order g with
  | [] => Some []
  | order =>
      let dist : gmap Z Z := list_to_map ((λ i, (i, 0)) <$> order) in
      let parent : gmap Z (option NodeId) := list_to_map ((λ i, (i, None)) <$> order) in
      let '(dist, parent) :=
        foldl (λ s x, foldl (extend_path x) s (CausalGraph.successors_of g x)) (dist, parent) order in
      walk_back (S (size dist)) parent (farthest dist) []
  end.

(* @src src/runtime/src/crx/simulation.rs:180-200 CRXSimulator::explain_graph *)
Definition explain_graph (g : CausalGraph) : option GraphExplainabilityRecord :=
  path ← find_critical_path g;
  Some (mkExplained (graph_id g) (size (nodes g)) (length (edges g)) (length (branches g)) path
    (DomainMapper.map g)
    ((λ n, (node_id n, label n, execution_class n)) <$>
       omap (λ i, nodes g !! i) (topological_order g))).
End CRXSimulator.

(** ** Batches of goals *)

(* @src src/runtime/src/crx/poseq_bridge.rs:23-30 OrderedGoalBatch *)
Record OrderedGoalBatch : Type := mkGoalBatch {
  gb_batch_id : id32;
  gb_epoch : Z;
  gb_sequence_number : Z;
  goals : list GoalPacket;
  gb_candidate_plans : gmap Z (list CandidatePlan) }.

(* @src src/runtime/src/crx/poseq_bridge.rs:32-37 SelectedCausalPlan *)
Record SelectedCausalPlan : Type := mkSelectedCausal {
  sel_goal_packet_id : id32;
  sel_plan : CandidatePlan;
  sel_graph : CausalGraph;
  sel_capsule : RightsCapsule }.

(* @src src/runtime/src/crx/poseq_bridge.rs:40-44 CRXExecutionResult *)
Record CRXExecutionResult : Type := mkCrxResult {
  xr_goal_packet_id : id32;
  xr_record : CRXSettlementRecord;
  xr_success : bool }.

(* @src src/runtime/src/crx/poseq_bridge.rs:50-57 PoSeqCRXBridge *)
Record PoSeqCRXBridge : Type := mkBridge {
  br_store : ObjectStore;
  br_registry : SolverRegistry;
  br_selection_policy : SelectionPolicy;
  br_policy_evaluator : PlanPolicyEvaluator;
  br_domain_policies : list DomainFinalityPolicy;
  br_current_epoch : Z }.
Definition set_br_store (st : ObjectStore) (b : PoSeqCRXBridge) : PoSeqCRXBridge :=
  mkBridge st (br_registry b) (br_selection_policy b) (br_policy_evaluator b) (br_domain_policies b)
    (br_current_epoch b).

Module PoSeqCRXBridge.
(* @src src/runtime/src/crx/poseq_bridge.rs:60-72 PoSeqCRXBridge::new *)
Definition new (p : SelectionPolicy) (e : PlanPolicyEvaluator) : PoSeqCRXBridge :=
  mkBridge ObjectStore.new SolverRegistry.new p e [] 0.

(* @src src/runtime/src/crx/poseq_bridge.rs:74-76 PoSeqCRXBridge::register_solver *)
Definition register_solver `{Hex} (profile : SolverProfile) : M PoSeqCRXBridge RuntimeError () := λ b,
  let '(r, res) := SolverRegistry.register profile (br_registry b) in
  (mkBridge (br_store b) r (br_selection_policy b) (br_policy_evaluator b) (br_domain_policies b)
     (br_current_epoch b), res).

(* @src src/runtime/src/crx/poseq_bridge.rs:78-80 PoSeqCRXBridge::seed_object *)
Definition seed_object `{Bincode} (o : BoxedObject) (b : PoSeqCRXBridge) : total_or_panic PoSeqCRXBridge :=
  st ← ObjectStore.insert o (br_store b); Ok (set_br_store st b).

(** The transfer that stands for the goal when plans are validated. *)
(* @src src/runtime/src/crx/poseq_bridge.rs:166-190 PoSeqCRXBridge::intent_from_goal *)
Definition intent_from_goal (g : GoalPacket) : IntentTransaction :=
  mkIntent (gp_intent_id g) (gp_sender g)
    (ITransfer (mkTransfer (of_be (repeat 1 32)) (Z.max (gc_min_output_amount (gp_constraints g)) 1)
       (gp_sender g) (Some (desired_outcome g))))
    (gp_max_fee g) (gp_deadline_epoch g) (gp_nonce g) (repeat 0 64) (gp_metadata g) []
    default_constraints BestEffort None None (mkSponsorshipLimits None None [] [] None) SenderPays None.

(* @src src/runtime/src/crx/poseq_bridge.rs:193-220 PoSeqCRXBridge::build_synthetic_plan *)
Definition build_synthetic_plan `{Sha256} (g : GoalPacket) : CandidatePlan :=
  let plan := mkCandidate (gp_packet_id g) (gp_intent_id g) (of_be (repeat 254 32)) [] [] [] [] 0
    (gp_max_fee g) 1000 [] 0 0 (Some "synthetic fallback plan") ∅ in
  set_plan_hash (CandidatePlan.compute_hash plan) plan.

Definition is_success (c : ExecutionSettlementClass) : bool :=
  match c with
  | FullSuccess | SuccessWithDowngrade _ | SuccessWithQuarantine _ | PartialSuccess _ _ => true
  | FullRevert | ScRejected => false
  end.

Section batch.
Context `{Sha256, Hex, HexBytes, HexDecode, CrxBincode}.

(* @src src/runtime/src/crx/poseq_bridge.rs:100-117 PoSeqCRXBridge::process_batch *)
Definition valid_plans (b : PoSeqCRXBridge) (g : GoalPacket) (candidates : list CandidatePlan)
  : list (CandidatePlan * PlanEvaluationResult) :=
  omap (λ plan,
    let eval := PlanValidator.validate plan (intent_from_goal g) (br_store b) (br_registry b)
                  (br_policy_evaluator b) in
    if passed eval then Some (plan, eval) else None) candidates.

(** The plan to settle; none when the goal is skipped. *)
(* @src src/runtime/src/crx/poseq_bridge.rs:119-131 PoSeqCRXBridge::process_batch *)
Definition choose_plan (b : PoSeqCRXBridge) (g : GoalPacket)
    (valid : list (CandidatePlan * PlanEvaluationResult)) : total_or_panic (option CandidatePlan) :=
  match valid with
  | [] => Ok (Some (build_synthetic_plan g))
  | _ =>
      match WinningPlanSelector.select valid (br_selection_policy b) with
      | Ok idx => p ← expect (valid !! idx); Ok (Some p.1)
      | Err _ => Ok None
      | Panic => Panic
      end
  end.

(** One goal: its result, if it has one. *)
(* @src src/runtime/src/crx/poseq_bridge.rs:87-160 PoSeqCRXBridge::process_batch *)
Definition process_goal (candidate_plans : gmap Z (list CandidatePlan)) (g : GoalPacket)
  : M PoSeqCRXBridge Empty_set (option CRXExecutionResult) := λ b,
  match GoalPacket.validate g with
  | Ok _ =>
      let candidates := default [] (candidate_plans !! gp_packet_id g) in
      match choose_plan b g (valid_plans b g candidates) with
      | Panic | Err _ => (b, Panic)
      | Ok None => (b, Ok None)
      | Ok (Some plan) =>
          let '(st, r) := CRXSettlementEngine.settle plan g (br_domain_policies b) (br_current_epoch b)
                            (br_store b) in
          let b := set_br_store st b in
          match r with
          | Ok record => (b, Ok (Some (mkCrxResult (gp_packet_id g) record (is_success (cx_class record)))))
          | Err _ => (b, Ok None)
          | Panic => (b, Panic)
          end
      end
  | _ => (b, Ok None)
  end.

Fixpoint process_goals (plans : gmap Z (list CandidatePlan)) (gs : list GoalPacket)
  : M PoSeqCRXBridge Empty_set (list CRXExecutionResult) :=
  match gs with
  | [] => mret []
  | g :: gs => r ← process_goal plans g; rs ← process_goals plans gs; mret (option_list r ++ rs)
  end.

(* @src src/runtime/src/crx/poseq_bridge.rs:83-163 PoSeqCRXBridge::process_batch *)
Definition process_batch (batch : OrderedGoalBatch)
  : M PoSeqCRXBridge Empty_set (list CRXExecutionResult) := λ b,
  process_goals (gb_candidate_plans batch) (goals batch)
    (mkBridge (br_store b) (br_registry b) (br_selection_policy b) (br_policy_evaluator b)
       (br_domain_policies b) (gb_epoch batch)).
End batch.
End PoSeqCRXBridge.
