(* ===== verification/CrxAssembly.v ===== *)
(** * Assembled graphs

    What the assembler of CrxPlan builds from the actions of a plan: their nodes
    in a row, numbered from 0, with edges that go upwards, so that the graph is
    acyclic and its topological order is the order of the actions. *)

From stdpp Require Import gmap strings list sorting.
From S2P Require Import Prelude Errors Objects Store SolverTypes Sorting Crx CrxOrder CrxChecks.

Lemma elem_of_concat {A} (x : A) (ls : list (list A)) : x ∈ concat ls ↔ ∃ l, l ∈ ls ∧ x ∈ l.
Proof.
  induction ls as [|l ls IH]; cbn.
  - split; [by intros ?%elem_of_nil|]. by intros (l & ?%elem_of_nil & _).
  - rewrite elem_of_app, IH. setoid_rewrite elem_of_cons. naive_solver.
Qed.
Lemma Forall2_elem_r {A B} (P : A → B → Prop) l k y :
  Forall2 P l k → y ∈ k → ∃ x, x ∈ l ∧ P x y.
Proof.
  intros HF [i Hi]%list_elem_of_lookup. destruct (Forall2_lookup_r _ _ _ _ _ HF Hi) as (x & Hx & ?).
  exists x. split; [|done]. by apply list_elem_of_lookup_2 in Hx.
Qed.
Lemma Forall2_elem_l {A B} (P : A → B → Prop) l k x :
  Forall2 P l k → x ∈ l → ∃ y, y ∈ k ∧ P x y.
Proof.
  intros HF [i Hi]%list_elem_of_lookup. destruct (Forall2_lookup_l _ _ _ _ _ HF Hi) as (y & Hy & ?).
  exists y. split; [|done]. by apply list_elem_of_lookup_2 in Hy.
Qed.

(** Room for the numbers of the nodes of a plan. *)
Definition plan_fits (acts : list PlanAction) : Prop := 2 * Z.of_nat (length acts) + 1 < 2 ^ 32.

(** A graph whose nodes are [L], numbered by their position. *)
Record numbered (ns : gmap Z CausalNode) (L : list CausalNode) : Prop := {
  nb_lookup : ∀ i, ns !! i = if decide (0 ≤ i) then L !! Z.to_nat i else None;
  nb_ids : ∀ k n, L !! k = Some n → node_id n = Z.of_nat k }.

Lemma numbered_nil : numbered ∅ [].
Proof. split; [|done]. intros i. rewrite lookup_empty. by case_decide. Qed.

Lemma numbered_snoc ns L n :
  numbered ns L → node_id n = Z.of_nat (length L) → numbered (<[node_id n := n]> ns) (L ++ [n]).
Proof.
  intros [Hl Hi] En. split.
  - intros i. rewrite lookup_insert. destruct (decide (node_id n = i)) as [<-|Hne].
    + rewrite decide_True by lia. rewrite En, Nat2Z.id. by rewrite lookup_app_r, Nat.sub_diag.
    + rewrite Hl. case_decide; [|done].
      destruct (decide (Z.to_nat i < length L)%nat) as [?|Hge]; [by rewrite lookup_app_l|].
      rewrite !lookup_ge_None_2; [done|rewrite length_app; cbn; lia|lia].
  - intros k m. rewrite lookup_snoc_Some. intros [[? Hk]|[-> <-]]; [by apply Hi|done].
Qed.

Lemma numbered_size ns L : numbered ns L → size ns = length L.
Proof.
  intros HN. assert (dom ns = list_to_set (seqZ 0 (Z.of_nat (length L)))) as Ed.
  { apply set_eq. intros i. rewrite elem_of_dom, elem_of_list_to_set, elem_of_seqZ, (nb_lookup _ _ HN).
    case_decide; [rewrite lookup_lt_is_Some; lia|]. split; [by intros [? [=]]|lia]. }
  rewrite <- size_dom, Ed, size_list_to_set by apply NoDup_seqZ. rewrite length_seqZ. lia.
Qed.

(** Numbered nodes, iterated in key order, come in their order. *)
Lemma imap_sorted (L : list CausalNode) k :
  StronglySorted key_le (imap (λ i n, (Z.of_nat (k + i), n)) L).
Proof.
  revert k. induction L as [|n L IH]; intros k; [constructor|]. rewrite imap_cons.
  rewrite (imap_ext _ (λ i m, (Z.of_nat (S k + i), m))) by (intros; cbn; do 2 f_equal; lia).
  constructor; [apply IH|]. apply Forall_forall. intros p Hp.
  apply elem_of_lookup_imap_1 in Hp as (i & m & -> & _). unfold key_le. cbn. lia.
Qed.

Lemma numbered_values ns L : numbered ns L → btree_values ns = L.
Proof.
  intros HN. assert (btree_list ns = imap (λ i n, (Z.of_nat i, n)) L) as E.
  { assert (NoDup (imap (λ i n, (Z.of_nat i, n)) L).*1) as Hnd.
    { apply NoDup_alt. intros i j x Hi Hj. rewrite list_lookup_fmap, list_lookup_imap in Hi, Hj.
      destruct (L !! i), (L !! j); cbn in *; simplify_eq. lia. }
    apply (StronglySorted_unique_strong key_le); [|apply btree_list_sorted|apply (imap_sorted L 0)|].
    - intros [i n] [i' n'] Hi Hi' ??. unfold key_le in *. cbn in *. assert (i = i') as <- by lia.
      apply elem_of_btree_list in Hi. apply elem_of_lookup_imap_1 in Hi' as (k & m & [= -> ->] & Hk).
      rewrite (nb_lookup _ _ HN), decide_True, Nat2Z.id in Hi by lia. congruence.
    - apply NoDup_Permutation.
      + eapply NoDup_fmap_1, NoDup_btree_keys.
      + eapply NoDup_fmap_1, Hnd.
      + intros [i n]. rewrite elem_of_btree_list, (nb_lookup _ _ HN), list_elem_of_lookup.
        setoid_rewrite list_lookup_imap. split.
        * case_decide; [|done]. intros Hn. exists (Z.to_nat i). rewrite Hn. cbn. do 2 f_equal. lia.
        * intros (k & Hk). destruct (L !! k) eqn:El; cbn in Hk; simplify_eq.
          rewrite decide_True by lia. by rewrite Nat2Z.id. }
  unfold btree_values. rewrite E. apply list_eq. intros i. rewrite list_lookup_fmap, list_lookup_imap.
  by destruct (L !! i).
Qed.

(** ** The nodes of one action *)

Section assembly.
Context `{HexBytes, HexDecode}.
Import GraphAssembler.

(** One node, or a check and the node it is for. *)
Record group_of (a : PlanAction) (next : Z) (g : list CausalNode) : Prop := {
  gr_main : Forall (λ n, nd_branch_id n = 0 ∧ nd_target n = Some (target_object a) ∧
                      execution_class n ≠ NxBranchGate ∧
                      access_type n ∈ [NaWrite; NaValidationOnly; NaSettlementOnly]) g;
  gr_shape : (∃ n, g = [n] ∧ node_id n = next ∧ CausalValidityEngine.needs_validation n = false) ∨
             (∃ m n, g = [m; n] ∧ node_id m = next ∧ node_id n = nth_id next 1 ∧
                CausalValidityEngine.is_check m = true ∧
                CausalValidityEngine.needs_validation m = false) }.

Lemma action_group a next g : action_nodes a next = Ok g → group_of a next g.
Proof.
  unfold action_nodes. intros E. destruct (action_type a) as [| | | | |name] eqn:Et.
  1-5: injection E as <-; split; [repeat constructor; cbn; try done; set_solver|].
  - right. eexists _, _. by split_and!.
  - left. eexists. split_and!; [done..|]. cbn. unfold CausalValidityEngine.needs_validation, marked_credit.
    cbn. by rewrite lookup_insert_eq.
  - right. eexists _, _. by split_and!.
  - left. eexists. by split_and!.
  - left. eexists. by split_and!.
  - destruct (decide (name = "update_version")) as [_|_].
    { injection E as <-. split; [repeat constructor; cbn; try done; set_solver|].
      left. eexists. by split_and!. }
    unfold custom_class in E. destruct (act_metadata a !! "schema_id") as [hex|].
    + destruct (slice_to 8 hex) as [short| |]; [|done..]. injection E as <-.
      split; [repeat constructor; cbn; try done; set_solver|]. left. eexists. by split_and!.
    + injection E as <-. split; [repeat constructor; cbn; try done; set_solver|].
      left. eexists. by split_and!.
Qed.

(** The only panic: a schema id of a custom action cut inside a character. *)
Definition bad_schema (a : PlanAction) : Prop :=
  ∃ name s, action_type a = PaCustom name ∧ name ≠ "update_version" ∧
    act_metadata a !! "schema_id" = Some s ∧ slice_to 8 s = Panic.
Lemma slice_total n s : (∃ s', slice_to n s = Ok s') ∨ slice_to n s = Panic.
Proof.
  unfold slice_to. destruct (String.get n s); [|left; by eexists].
  case_decide; [by right|left; by eexists].
Qed.
Lemma action_nodes_total a next :
  (∃ g, action_nodes a next = Ok g) ∨ (action_nodes a next = Panic ∧ bad_schema a).
Proof.
  unfold action_nodes, bad_schema.
  destruct (action_type a) as [| | | | |name]; [left; by eexists..|].
  case_decide; [left; by eexists|]. unfold custom_class.
  destruct (act_metadata a !! "schema_id") as [s|]; [|left; by eexists].
  destruct (slice_total 8 s) as [[s' E]|E]; rewrite E; [left; by eexists|].
  right. split; [done|]. by exists name, s.
Qed.

(** The edges of an action go from lower to higher numbers; those that depend on
    a policy come from a check. *)
Lemma action_edges_up a last next g e :
  action_nodes a next = Ok g → (∀ m, last = Some m → 0 ≤ m < next) → 0 ≤ next →
  next + 2 < 2 ^ 32 → e ∈ action_edges a last next →
  0 ≤ e_from e < e_to e ∧ e_to e < next + Z.of_nat (length g) ∧
  (dependency_kind e = PolicyDependent →
     ∃ m n, g = [m; n] ∧ e_from e = next ∧ CausalValidityEngine.is_check m = true).
Proof.
  intros Eg Hlast Hn Hfit. unfold action_edges.
  assert (nth_id next 1 = next + 1) as E1 by (unfold nth_id; apply wrapu_id; ints).
  assert (∀ k c, e ∈ after_last last next k c → k ≠ PolicyDependent →
    0 ≤ e_from e < e_to e ∧ e_to e = next ∧ dependency_kind e ≠ PolicyDependent) as Hafter.
  { intros k c He Hk. destruct last as [m|]; cbn in He; [|by apply elem_of_nil in He].
    apply list_elem_of_singleton in He as ->. cbn. specialize (Hlast m eq_refl). split_and!; lia || done. }
  assert (0 < Z.of_nat (length g)) as Hg.
  { destruct (gr_shape _ _ _ (action_group _ _ _ Eg)) as [(? & -> & _)|(? & ? & -> & _)]; cbn; lia. }
  unfold action_nodes in Eg. destruct (action_type a) as [| | | | |name].
  - injection Eg as <-. intros [->|He]%elem_of_cons.
    + cbn. rewrite E1. split_and!; [lia..|]. intros _. by eexists _, _.
    + destruct (Hafter _ _ He) as (? & ? & ?); [done|]. split_and!; [lia..|done].
  - intros He. destruct (Hafter _ _ He) as (? & ? & ?); [done|]. split_and!; [lia..|done].
  - injection Eg as <-. intros [->|He]%elem_of_cons.
    + cbn. rewrite E1. split_and!; [lia..|done].
    + destruct (Hafter _ _ He) as (? & ? & ?); [done|]. split_and!; [lia..|done].
  - intros He. destruct (Hafter _ _ He) as (? & ? & ?); [done|]. split_and!; [lia..|done].
  - intros He. destruct (Hafter _ _ He) as (? & ? & ?); [done|]. split_and!; [lia..|done].
  - destruct (decide (name = _)); intros He; destruct (Hafter _ _ He) as (? & ? & ?); try done;
      split_and!; [lia..|done|lia|lia|lia|done].
Qed.

Lemma action_edges_count a last next : (length (action_edges a last next) ≤ 2)%nat.
Proof.
  unfold action_edges, after_last.
  destruct (action_type a); [..|case_decide]; destruct last; cbn; lia.
Qed.

(** ** The loop over the actions *)

Record assembled (acts : list PlanAction) (groups : list (list CausalNode)) (s : Assembly) : Prop := {
  am_nodes : numbered (as_nodes s) (concat groups);
  am_next : next_id s = Z.of_nat (length (concat groups));
  am_room : (length (concat groups) ≤ 2 * length acts)%nat;
  am_groups : Forall2 (λ a g, ∃ next, action_nodes a next = Ok g) acts groups;
  am_edges : ∀ e, e ∈ as_edges s → 0 ≤ e_from e < e_to e ∧ e_to e < next_id s;
  am_policy : ∀ e, e ∈ as_edges s → dependency_kind e = PolicyDependent →
    ∃ m, as_nodes s !! e_from e = Some m ∧ CausalValidityEngine.is_check m = true;
  am_count : (length (as_edges s) ≤ 2 * length acts)%nat;
  am_last : ∀ m, last_mutation_node s = Some m → 0 ≤ m < next_id s;
  am_muts : Forall (λ m, 0 ≤ m < next_id s) (all_mutation_nodes s);
  am_muts_count : length (all_mutation_nodes s) = length acts;
  am_checked : ∀ k n, concat groups !! k = Some n → CausalValidityEngine.needs_validation n = true →
    ∃ j m, k = S j ∧ concat groups !! j = Some m ∧ CausalValidityEngine.is_check m = true ∧
      nd_target m = nd_target n }.

Lemma assembled_start : assembled [] [] (mkAssembly ∅ [] 0 None []).
Proof.
  split; cbn; try done; try lia; try apply numbered_nil; try (by constructor);
    intros ? ?%elem_of_nil; done.
Qed.

Lemma add_group ns L a next g :
  numbered ns L → next = Z.of_nat (length L) → next + 2 < 2 ^ 32 → group_of a next g →
  numbered (add_nodes g ns) (L ++ g).
Proof.
  intros HN -> Hfit [_ [(n & -> & En & _)|(m & n & -> & Em & En & _)]]; unfold add_nodes; cbn [foldl].
  - by apply numbered_snoc.
  - unfold nth_id in En. rewrite wrapu_id in En by ints.
    change (L ++ [m; n]) with (L ++ [m] ++ [n]). rewrite app_assoc. apply numbered_snoc.
    + by apply numbered_snoc.
    + rewrite length_app. cbn. lia.
Qed.

Lemma assemble_step acts groups s a :
  assembled acts groups s → plan_fits (acts ++ [a]) →
  (∃ s' g, assemble_action a s = Ok s' ∧ assembled (acts ++ [a]) (groups ++ [g]) s') ∨
  (assemble_action a s = Panic ∧ bad_schema a).
Proof.
  intros HA Hfit. unfold plan_fits in Hfit. rewrite length_app in Hfit. cbn in Hfit.
  pose proof (am_next _ _ _ HA) as Hn. pose proof (am_room _ _ _ HA) as Hr.
  unfold assemble_action. destruct (action_nodes_total a (next_id s)) as [[g E]|[E Hb]];
    rewrite E; cbn [mbind outcome_bind]; [left|by right].
  eexists _, g. split; [done|]. pose proof (action_group _ _ _ E) as HG.
  assert (1 ≤ Z.of_nat (length g) ≤ 2) as Hg
    by (destruct (gr_shape _ _ _ HG) as [(? & -> & _)|(? & ? & -> & _)]; cbn; lia).
  assert (nth_id (next_id s) (Z.of_nat (length g)) = next_id s + Z.of_nat (length g)) as Enext
    by (unfold nth_id; apply wrapu_id; ints).
  assert (nth_id (next_id s) (Z.of_nat (length g) - 1) = next_id s + Z.of_nat (length g) - 1) as Emut
    by (unfold nth_id; rewrite wrapu_id; ints).
  assert (concat (groups ++ [g]) = concat groups ++ g) as Ec by (rewrite concat_app; cbn; by rewrite app_nil_r).
  assert (numbered (add_nodes g (as_nodes s)) (concat groups ++ g)) as HN
    by (eapply add_group; [apply HA|done|lia|done]).
  assert (∀ i n, as_nodes s !! i = Some n → add_nodes g (as_nodes s) !! i = Some n) as Hold.
  { intros i n Hi. rewrite (nb_lookup _ _ HN). rewrite (nb_lookup _ _ (am_nodes _ _ _ HA)) in Hi.
    case_decide; [|done]. by apply lookup_app_l_Some. }
  pose proof (λ e, action_edges_up a (last_mutation_node s) (next_id s) g e E (am_last _ _ _ HA)
    ltac:(lia) ltac:(lia)) as Hup.
  split; cbn [as_nodes as_edges next_id last_mutation_node all_mutation_nodes]; rewrite ?Ec, ?Enext, ?Emut.
  - done.
  - rewrite length_app. lia.
  - rewrite !length_app. cbn. lia.
  - apply Forall2_app; [apply HA|]. constructor; [by eexists|constructor].
  - intros e [He|He]%elem_of_app; [apply (am_edges _ _ _ HA) in He; lia|].
    apply Hup in He as (? & ? & _). lia.
  - intros e [He|He]%elem_of_app Hk.
    + destruct (am_policy _ _ _ HA e He Hk) as (m & Hm & ?). exists m. split; [by apply Hold|done].
    + apply Hup in He as (_ & _ & Hp). destruct (Hp Hk) as (m & n & -> & -> & Hc). exists m.
      split; [|done]. rewrite (nb_lookup _ _ HN), decide_True by lia.
      rewrite Hn, Nat2Z.id, lookup_app_r, Nat.sub_diag by lia. done.
  - rewrite !length_app. pose proof (action_edges_count a (last_mutation_node s) (next_id s)).
    pose proof (am_count _ _ _ HA). cbn. lia.
  - intros m [= <-]. lia.
  - apply Forall_app. split; [|repeat constructor; lia].
    eapply Forall_impl; [apply HA|]. cbn. lia.
  - rewrite !length_app. cbn. pose proof (am_muts_count _ _ _ HA). lia.
  - intros k n Hk Hv. apply lookup_app_Some in Hk as [Hk|[Hle Hk]].
    + destruct (am_checked _ _ _ HA k n Hk Hv) as (j & m & -> & Hj & Hc). exists j, m.
      split_and!; [done|by apply lookup_app_l_Some|apply Hc..].
    + destruct (gr_shape _ _ _ HG) as [(n' & -> & _ & Hf)|(m & n' & -> & _ & _ & Hc & Hf)].
      * apply list_lookup_singleton_Some in Hk as [_ <-]. congruence.
      * destruct (k - length (concat groups))%nat as [|[|?]] eqn:Ek; cbn in Hk; [congruence| |done].
        injection Hk as <-.
        exists (length (concat groups)), m. split_and!; [lia| |done|].
        -- by rewrite lookup_app_r, Nat.sub_diag by lia.
        -- pose proof (gr_main _ _ _ HG) as Hm. apply Forall_cons in Hm as [(_ & -> & _) Hm].
           apply Forall_cons in Hm as [(_ & -> & _) _]. done.
Qed.

Lemma assemble_loop rest acts groups s :
  assembled acts groups s → plan_fits (acts ++ rest) →
  (∃ s' groups', assemble_actions rest s = Ok s' ∧ assembled (acts ++ rest) groups' s') ∨
  (assemble_actions rest s = Panic ∧ Exists bad_schema rest).
Proof.
  revert acts groups s. induction rest as [|a rest IH]; intros acts groups s HA Hfit; cbn.
  { left. exists s, groups. by rewrite app_nil_r. }
  rewrite cons_middle, app_assoc in Hfit |- *.
  destruct (assemble_step acts groups s a HA) as [(s' & g & -> & HA')|[-> Hb]].
  - unfold plan_fits in *. rewrite !length_app in *. cbn in *. lia.
  - cbn [mbind outcome_bind]. destruct (IH _ _ _ HA' Hfit) as [?|[-> ?]]; [by left|].
    right. split; [done|]. by apply Exists_cons_tl.
  - right. split; [done|]. by apply Exists_cons_hd.
Qed.
End assembly.

(** ** The finished graph *)

Section graph.
Context `{Sha256, HexBytes, HexDecode, CrxBincode}.
Import GraphAssembler.

(** The graph of a plan: the nodes of its actions, and the final node when there
    are actions and none of them finalizes. *)
Record graph_of (acts : list PlanAction) (goal : GoalPacket) (g : CausalGraph)
    (groups : list (list CausalNode)) (tail : list CausalNode) : Prop := {
  go_nodes : numbered (nodes g) (concat groups ++ tail);
  go_groups : Forall2 (λ a l, ∃ next, action_nodes a next = Ok l) acts groups;
  go_tail : tail = [] ∨ tail = [root_node (Z.of_nat (length (concat groups)))];
  go_order : topological_order g = seqZ 0 (Z.of_nat (length (concat groups ++ tail)));
  go_acyclic : CausalGraph.validate_acyclic g = Ok tt;
  go_edges : ∀ e, e ∈ edges g → 0 ≤ e_from e < e_to e ∧ e_to e < Z.of_nat (length (concat groups ++ tail));
  go_policy : ∀ e, e ∈ edges g → dependency_kind e = PolicyDependent →
    ∃ m, nodes g !! e_from e = Some m ∧ CausalValidityEngine.is_check m = true;
  go_checked : ∀ k n, (concat groups ++ tail) !! k = Some n → CausalValidityEngine.needs_validation n = true →
    ∃ j m, k = S j ∧ (concat groups ++ tail) !! j = Some m ∧ CausalValidityEngine.is_check m = true ∧
      nd_target m = nd_target n;
  go_final : acts ≠ [] → Exists (λ n, is_finalize n = true) (concat groups ++ tail);
  go_empty : acts = [] → concat groups ++ tail = [];
  go_branches : branches g = [mkBranch 0 (topological_order g) true
    (match partial_failure_policy (gp_policy goal) with StrictAllOrNothing => false | _ => true end)];
  go_goal : cg_goal_packet_id g = gp_packet_id goal }.

(** The final node keeps all that the loop guarantees. *)
Lemma finalize_shape acts groups s :
  assembled acts groups s → plan_fits acts →
  let s' := add_finalize s in
  ∃ tail, let L := concat groups ++ tail in
    (tail = [] ∨ tail = [root_node (Z.of_nat (length (concat groups)))]) ∧
    numbered (as_nodes s') L ∧
    (∀ e, e ∈ as_edges s' → 0 ≤ e_from e < e_to e ∧ e_to e < Z.of_nat (length L)) ∧
    (∀ e, e ∈ as_edges s' → dependency_kind e = PolicyDependent →
       ∃ m, as_nodes s' !! e_from e = Some m ∧ CausalValidityEngine.is_check m = true) ∧
    (length (as_edges s') ≤ 3 * length acts)%nat ∧
    (acts ≠ [] → Exists (λ n, is_finalize n = true) L) ∧ (acts = [] → L = []).
Proof.
  intros HA Hfit s'. pose proof (am_next _ _ _ HA) as Hn. pose proof (am_count _ _ _ HA) as Hcount.
  pose proof (am_room _ _ _ HA) as Hroom. pose proof (am_muts_count _ _ _ HA) as Hmc.
  subst s'. unfold add_finalize.
  destruct (existsb is_finalize (btree_values (as_nodes s))) eqn:Ef; cbn [negb andb].
  { exists []. rewrite app_nil_r. split_and!; [by left|apply HA| |apply HA|lia| |].
    - intros e He. rewrite <- Hn. by apply (am_edges _ _ _ HA).
    - intros _. rewrite <- (numbered_values _ _ (am_nodes _ _ _ HA)).
      apply existsb_exists in Ef as (n & Hin & E). apply Exists_exists. exists n.
      by rewrite list_elem_of_In.
    - intros ->. destruct (concat groups); [done|]. cbn in Hroom. lia. }
  destruct (decide (all_mutation_nodes s = [])) as [Em|Em].
  { rewrite (bool_decide_eq_true_2 (_ = []) Em). cbn [negb]. exists []. rewrite app_nil_r.
    rewrite Em in Hmc. cbn in Hmc. assert (acts = []) as Ea by (by destruct acts).
    split_and!; [by left|apply HA| |apply HA|lia|done|].
    - intros e He. rewrite <- Hn. by apply (am_edges _ _ _ HA).
    - intros ->. destruct (concat groups); [done|]. cbn in Hroom. lia. }
  rewrite (bool_decide_eq_false_2 (_ = []) Em). cbn [negb as_nodes as_edges].
  assert (acts ≠ []) as Ha by (intros ->; by destruct (all_mutation_nodes s)).
  exists [root_node (Z.of_nat (length (concat groups)))]. rewrite <- Hn. split_and!.
  - by right.
  - change (next_id s) with (node_id (root_node (next_id s))) at 1. apply numbered_snoc; [apply HA|done].
  - rewrite length_app. cbn. intros e [He|He]%elem_of_app; [apply (am_edges _ _ _ HA) in He; lia|].
    apply list_elem_of_fmap in He as (m & -> & Hm). cbn.
    apply (proj1 (Forall_forall _ _) (am_muts _ _ _ HA)) in Hm. lia.
  - intros e [He|He]%elem_of_app Hk.
    + destruct (am_policy _ _ _ HA e He Hk) as (m & Hm & ?). exists m. split; [|done].
      rewrite lookup_insert_ne; [done|]. apply (am_edges _ _ _ HA) in He. lia.
    + by apply list_elem_of_fmap in He as (m & -> & Hm).
  - rewrite length_app, length_fmap. lia.
  - intros _. apply Exists_app. right. by apply Exists_cons_hd.
  - done.
Qed.

Lemma assemble_graph plan goal :
  plan_fits (actions plan) →
  (∃ g groups tail, assemble plan goal = Ok g ∧ graph_of (actions plan) goal g groups tail) ∨
  (assemble plan goal = Panic ∧ Exists bad_schema (actions plan)).
Proof.
  intros Hfit. unfold assemble.
  destruct (assemble_loop (actions plan) [] [] _ assembled_start Hfit) as [(s & groups & -> & HA)|[-> ?]];
    [left|by right]. cbn [mbind outcome_bind app] in *.
  destruct (finalize_shape _ _ _ HA Hfit) as (tail & Ht & HN & Hup & Hpol & Hec & Hfin & Hemp).
  set (L := concat groups ++ tail) in *. set (s' := add_finalize s) in *.
  assert (length L ≤ 2 * length (actions plan) + 1)%nat as HL.
  { subst L. rewrite length_app. pose proof (am_room _ _ _ HA). destruct Ht as [-> | ->]; cbn; lia. }
  assert (CausalGraph.compute_topological_order (as_nodes s') (edge_pairs (as_edges s')) =
    Ok (seqZ 0 (Z.of_nat (length L)))) as Eo.
  { unfold plan_fits in Hfit. apply upward_order.
    - unfold edge_pairs. rewrite length_fmap. ints.
    - apply set_eq. intros i. rewrite elem_of_dom, elem_of_list_to_set, elem_of_seqZ, (nb_lookup _ _ HN).
      case_decide; [rewrite lookup_lt_is_Some; lia|]. split; [by intros [? [=]]|lia].
    - lia.
    - intros x y Hxy. apply list_elem_of_fmap in Hxy as (e & [= -> ->] & He). apply Hup in He. lia. }
  rewrite Eo. cbn [mbind outcome_bind]. eexists _, groups, tail. split; [reflexivity|].
  split; cbn [nodes topological_order edges branches cg_goal_packet_id set_graph_hash]; try done.
  - apply HA.
  - unfold CausalGraph.validate_acyclic. cbn [nodes edges set_graph_hash]. rewrite Eo, length_seqZ.
    rewrite (numbered_size _ _ HN), decide_False; [done|]. lia.
  - intros k n Hk Hv. apply lookup_app_Some in Hk as [Hk|[Hle Hk]].
    + destruct (am_checked _ _ _ HA k n Hk Hv) as (j & m & -> & Hj & Hc). exists j, m.
      split_and!; [done|by apply lookup_app_l_Some|apply Hc..].
    + destruct Ht as [-> | ->]; [done|]. by apply list_lookup_singleton_Some in Hk as [_ <-].
Qed.
End graph.
