(* ===== verification/CrxGrants.v ===== *)
(** * What the checks of an assembled graph amount to

    The graph and the capsule of a plan come from the plan itself, so most checks
    cannot fail.  The theorems of this file say which can: the deadline, the types
    of the objects, the domains, and the number of objects written. *)

From stdpp Require Import gmap strings list sorting.
From S2P Require Import Prelude Errors Objects Store SolverTypes Sorting Crx CrxOrder CrxChecks.
From S2P Require Import CrxAssembly.

(** ** Causal checks *)

Lemma positions_lookup k i :
  CausalValidityEngine.positions (seqZ 0 (Z.of_nat k)) !! i =
  if decide (0 ≤ i < Z.of_nat k) then Some i else None.
Proof.
  unfold CausalValidityEngine.positions. induction k as [|k IH].
  { rewrite decide_False by lia. apply lookup_empty. }
  rewrite seqZ_S, imap_app, foldl_app. cbn [foldl imap app fst snd].
  rewrite lookup_insert, length_seqZ, Nat2Z.id, IH, Z.add_0_l. cbn [compose]. rewrite Nat.add_0_r.
  destruct (decide (Z.of_nat k = i)); repeat case_decide; subst; try done; try lia; f_equal; lia.
Qed.

Lemma concat_nil {A} (l : list (list A)) : concat l = [] ↔ Forall (λ x, x = []) l.
Proof.
  induction l as [|x l IH]; cbn; [split; [by constructor|done]|].
  rewrite app_nil, IH. by rewrite Forall_cons.
Qed.

Lemma concat_fmap_nil {A B} (f : A → list B) l : concat (f <$> l) = [] ↔ ∀ x, x ∈ l → f x = [].
Proof. by rewrite concat_nil, Forall_fmap, Forall_forall. Qed.

Section causal.
Context `{Sha256, HexBytes, HexDecode, CrxBincode}.
Context {acts : list PlanAction} {goal : GoalPacket} {g : CausalGraph}.
Context {groups : list (list CausalNode)} {tail : list CausalNode}.
Hypothesis Hg : graph_of acts goal g groups tail.
Let L := concat groups ++ tail.
Import CausalValidityEngine.

Lemma go_main : Forall (λ n, nd_branch_id n = 0 ∧ execution_class n ≠ NxBranchGate ∧
  access_type n ∈ [NaWrite; NaValidationOnly; NaSettlementOnly]) L.
Proof.
  apply Forall_app. split.
  - apply Forall_forall. intros n (l & Hl & Hn)%elem_of_concat.
    destruct (Forall2_elem_r _ _ _ _ (go_groups _ _ _ _ _ Hg) Hl) as (a & _ & next & E).
    pose proof (gr_main _ _ _ (action_group _ _ _ E)) as HF.
    apply (proj1 (Forall_forall _ _) HF) in Hn. naive_solver.
  - destruct (go_tail _ _ _ _ _ Hg) as [-> | ->]; repeat constructor. cbn. set_solver.
Qed.

Lemma go_position i : positions (topological_order g) !! i = if decide (0 ≤ i < Z.of_nat (length L)) then Some i else None.
Proof. rewrite (go_order _ _ _ _ _ Hg). apply positions_lookup. Qed.

Lemma go_values : btree_values (nodes g) = L.
Proof. apply numbered_values, Hg. Qed.

(** Only forbidden domains are left to find. *)
Lemma assembled_causal : violations g goal = check_no_forbidden_domain g goal.
Proof.
  unfold violations. rewrite (go_acyclic _ _ _ _ _ Hg). cbn [app].
  assert (check_dependencies_satisfied g = []) as ->.
  { apply concat_fmap_nil. intros e [_ He]%list_elem_of_filter.
    pose proof (go_edges _ _ _ _ _ Hg e He) as Hup. fold L in Hup. apply app_nil. split.
    - unfold edge_order_violations. rewrite !go_position, !decide_True by lia.
      by rewrite decide_False by lia.
    - unfold edge_path_violations. case_decide as Hk; [|done].
      destruct (go_policy _ _ _ _ _ Hg e He Hk) as (m & -> & ->).
      destruct (nodes g !! e_to e); [|done]. by rewrite andb_false_r. }
  assert (check_no_branch_bypass g = []) as ->.
  { apply concat_fmap_nil. intros n Hn. apply list_elem_of_filter in Hn as [Hc Hn].
    rewrite go_values in Hn. apply (proj1 (Forall_forall _ _) go_main) in Hn. naive_solver. }
  assert (check_validation_nodes_not_skipped g = []) as ->; [|by rewrite app_nil_r].
  apply concat_fmap_nil. intros n Hn. rewrite go_values in Hn.
  destruct (needs_validation n) eqn:Ev; [|done].
  assert (has_validation g n = true) as ->; [|cbn [negb]; by rewrite andb_false_r].
  apply list_elem_of_lookup in Hn as (k & Hk).
  destruct (go_checked _ _ _ _ _ Hg k n Hk Ev) as (j & m & -> & Hj & Hc & Ht).
  unfold has_validation. rewrite go_values. apply existsb_exists. exists m.
  split; [by apply list_elem_of_In, list_elem_of_lookup; exists j|].
  pose proof (nb_ids _ _ (go_nodes _ _ _ _ _ Hg) _ _ Hj) as Em.
  pose proof (nb_ids _ _ (go_nodes _ _ _ _ _ Hg) _ _ Hk) as En.
  apply lookup_lt_Some in Hk. fold L in Hk.
  rewrite Hc, Ht, Em, En, !go_position, !decide_True by lia.
  cbn [from_option]. unfold Datatypes.id. rewrite !bool_decide_eq_true_2 by (done || lia). done.
Qed.

(** ** Rights *)

(** The values of the loop's nodes, in order. *)
Lemma order_nodes : Forall2 (λ i n, nodes g !! i = Some n ∧ node_id n = i) (topological_order g) L.
Proof.
  rewrite (go_order _ _ _ _ _ Hg). fold L. apply Forall2_same_length_lookup. split.
  { rewrite length_seqZ. lia. }
  intros k i n Hi Hn. apply lookup_seqZ in Hi as [-> Hlt].
  rewrite (nb_lookup _ _ (go_nodes _ _ _ _ _ Hg)), decide_True by lia.
  replace (Z.to_nat (0 + Z.of_nat k)) with k by lia. split; [done|].
  rewrite (nb_ids _ _ (go_nodes _ _ _ _ _ Hg) _ _ Hn). lia.
Qed.
End causal.

(** Saturating sums of amounts. *)
Lemma sat_fold {A} (f : A → Z) (l : list A) acc : Forall (λ x, 0 ≤ f x) l → 0 ≤ acc ≤ umax 128 →
  foldl (λ acc x, sat_add 128 acc (f x)) acc l = Z.min (acc + sumZ (f <$> l)) (umax 128).
Proof.
  intros Hl. revert acc. induction Hl as [|a l Ha Hl IH]; intros acc Hacc; cbn [foldl fmap list_fmap].
  - change (sumZ []) with 0. lia.
  - rewrite sumZ_cons. assert (0 ≤ sumZ (f <$> l)) by (by apply sumZ_nonneg, Forall_fmap).
    rewrite IH by (unfold sat_add; lia). unfold sat_add. lia.
Qed.

Section rights.
Context `{Hex} (g : CausalGraph) (c : RightsCapsule) (st : ObjectStore).
Import RightsValidationEngine.

(** What a node may fail on, its spending apart. *)
Definition node_clean (n : CausalNode) : Prop :=
  action_breach n c = None ∧ object_breach n c st = None ∧ domain_breach n c = None.
Definition node_writes (n : CausalNode) : gset Z :=
  match nd_target n with
  | Some o => if decide (access_type n = NaWrite) then {[o]} else ∅
  | None => ∅
  end.
Definition over_limit (X : gset Z) : Prop :=
  let limit := sc_max_objects_touched (rc_scope c) in 0 < limit ∧ limit < Z.of_nat (size X).

Lemma check_passes n spent :
  nc_passed (check_node n c st spent) = true ↔ node_clean n ∧ spend_breach n c spent = None.
Proof.
  unfold check_node, node_clean. unfold action_breach, object_breach, domain_breach, spend_breach, breach.
  repeat case_match; cbn; naive_solver.
Qed.

Lemma check_result n spent :
  check_node n c st spent = pass n ∨ ∃ r d, check_node n c st spent = breach (node_id n) r d.
Proof.
  unfold check_node, action_breach, object_breach, domain_breach, spend_breach, or_else.
  repeat case_match; simplify_eq; cbn; eauto.
Qed.

Lemma visit_clean p i n :
  nodes g !! i = Some n →
  pg_violations (visit g c st p i) = [] ↔
  pg_violations p = [] ∧ node_clean n ∧ spend_breach n c (pg_spend p) = None ∧
    ¬ over_limit (node_writes n ∪ pg_touched p).
Proof.
  intros Hn. unfold visit. rewrite Hn. rewrite (and_assoc (node_clean n)), <- check_passes.
  destruct (nc_passed (check_node n c st (pg_spend p))) eqn:Ec.
  - cbn [andb]. assert ((if bool_decide (access_type n = NaWrite)
      then match nd_target n with Some o => {[o]} ∪ pg_touched p | None => pg_touched p end
      else pg_touched p) = node_writes n ∪ pg_touched p) as ->.
    { unfold node_writes. case_bool_decide; destruct (nd_target n); try rewrite decide_True by done;
        try rewrite decide_False by done; set_solver. }
    unfold over_limit. case_decide as Hd; cbn [pg_violations].
    + split; [by intros [? [=]]%app_nil|]. naive_solver.
    + naive_solver.
  - cbn [andb]. rewrite decide_False by naive_solver. cbn [pg_violations]. split; [|naive_solver].
    intros [_ E]%app_nil. exfalso.
    destruct (check_result n (pg_spend p)) as [E'|(r & d & E')]; rewrite E' in E, Ec; done.
Qed.

Lemma visit_progress p i n :
  nodes g !! i = Some n → pg_violations (visit g c st p i) = [] →
  pg_spend (visit g c st p i) =
  match node_spend n with Some amt => sat_add 128 (pg_spend p) amt | None => pg_spend p end.
Proof.
  intros Hn Hv. apply (visit_clean p i n Hn) in Hv as (_ & Hc & Hs & _).
  unfold visit. rewrite Hn. rewrite (proj2 (check_passes n (pg_spend p)) (conj Hc Hs)).
  by case_decide.
Qed.
Lemma visit_touched p i n :
  nodes g !! i = Some n → pg_violations (visit g c st p i) = [] →
  pg_touched (visit g c st p i) = node_writes n ∪ pg_touched p.
Proof.
  intros Hn Hv. apply (visit_clean p i n Hn) in Hv as (_ & Hc & Hs & _).
  unfold visit. rewrite Hn. rewrite (proj2 (check_passes n (pg_spend p)) (conj Hc Hs)). cbn [andb].
  assert ((if bool_decide (access_type n = NaWrite)
      then match nd_target n with Some o => {[o]} ∪ pg_touched p | None => pg_touched p end
      else pg_touched p) = node_writes n ∪ pg_touched p) as ->.
  { unfold node_writes. case_bool_decide; destruct (nd_target n); try rewrite decide_True by done;
      try rewrite decide_False by done; set_solver. }
  by case_decide.
Qed.

(** Violations stay. *)
Lemma visit_grows p i : ∃ l, pg_violations (visit g c st p i) = pg_violations p ++ l.
Proof.
  unfold visit. destruct (nodes g !! i) as [n|]; [|exists []; by rewrite app_nil_r].
  destruct (nc_passed (check_node n c st (pg_spend p))); case_decide; cbn [pg_violations];
    rewrite <- ?app_assoc; try by eexists. exists []. by rewrite app_nil_r.
Qed.
Lemma visits_grow ids p : ∃ l, pg_violations (foldl (visit g c st) p ids) = pg_violations p ++ l.
Proof.
  revert p. induction ids as [|i ids IH]; intros p; cbn; [exists []; by rewrite app_nil_r|].
  destruct (IH (visit g c st p i)) as [l ->], (visit_grows p i) as [l' ->].
  rewrite <- app_assoc. by eexists.
Qed.

Lemma over_limit_mono X Y : X ⊆ Y → over_limit X → over_limit Y.
Proof. intros Hs%subseteq_size [? ?]. split; [done|]. lia. Qed.

(** The loop over the nodes of a graph whose capsule allows their total spending. *)
Section loop.
Context (L : list CausalNode).
Let debits (l : list CausalNode) : Z := sumZ (RightsSynthesizer.node_debit <$> l).
Hypothesis Hamounts : Forall (λ n, 0 ≤ RightsSynthesizer.node_debit n) L.
Hypothesis Hmax : sc_max_spend (rc_scope c) = Z.min (debits L) (umax 128).

Lemma debits_app l l' : debits (l ++ l') = debits l + debits l'.
Proof. unfold debits. by rewrite fmap_app, sumZ_app. Qed.

Lemma no_spend_breach pre n suf p :
  pre ++ n :: suf = L → pg_spend p = Z.min (debits pre) (umax 128) → spend_breach n c (pg_spend p) = None.
Proof.
  intros EL Hp. unfold spend_breach. destruct (node_spend n) as [amt|] eqn:Es; [|done].
  rewrite decide_False; [done|]. rewrite Hmax, Hp, <- EL, debits_app.
  rewrite <- EL in Hamounts. apply Forall_app in Hamounts as [H1 [H2 H3]%Forall_cons].
  assert (0 ≤ debits pre) by (by apply sumZ_nonneg, Forall_fmap).
  assert (0 ≤ debits suf) by (by apply sumZ_nonneg, Forall_fmap).
  assert (debits (n :: suf) = amt + debits suf) as ->
    by (unfold debits, RightsSynthesizer.node_debit at 1; cbn [fmap list_fmap]; rewrite sumZ_cons;
        unfold RightsSynthesizer.node_debit at 1; by rewrite Es).
  unfold RightsSynthesizer.node_debit in H2. rewrite Es in H2. cbn in H2. unfold sat_add. lia.
Qed.

Lemma rights_loop ids suf pre p :
  Forall2 (λ i n, nodes g !! i = Some n ∧ node_id n = i) ids suf → pre ++ suf = L →
  pg_spend p = Z.min (debits pre) (umax 128) → ¬ over_limit (pg_touched p) →
  pg_violations (foldl (visit g c st) p ids) = [] ↔
  pg_violations p = [] ∧ Forall node_clean suf ∧ ¬ over_limit (⋃ (node_writes <$> suf) ∪ pg_touched p).
Proof.
  intros HF. revert pre p. induction HF as [|i n ids suf [Hn Hi] HF IH]; intros pre p EL Hp Hlim.
  { cbn. rewrite (left_id_L ∅ (∪)). naive_solver. }
  pose proof (no_spend_breach pre n suf p EL Hp) as Hs. cbn [foldl].
  destruct (pg_violations (visit g c st p i)) as [|v l] eqn:Ev.
  - pose proof (visit_progress p i n Hn Ev) as Hspend. pose proof (visit_touched p i n Hn Ev) as Ht.
    apply (visit_clean p i n Hn) in Ev as Hv. destruct Hv as (Hpn & Hc & _ & Hl).
    rewrite (IH (pre ++ [n])); [| |rewrite Hspend|by rewrite Ht].
    + rewrite Ht, Forall_cons. cbn [fmap list_fmap union_list].
      assert (⋃ (node_writes <$> suf) ∪ (node_writes n ∪ pg_touched p) =
        node_writes n ∪ ⋃ (node_writes <$> suf) ∪ pg_touched p) as -> by set_solver. naive_solver.
    + by rewrite <- app_assoc.
    + rewrite debits_app. assert (debits [n] = RightsSynthesizer.node_debit n) as ->
        by (unfold debits; cbn [fmap list_fmap]; rewrite sumZ_cons; change (sumZ []) with 0; lia).
      rewrite <- EL in Hamounts. apply Forall_app in Hamounts as [H1 [H2 _]%Forall_cons].
      unfold RightsSynthesizer.node_debit in *. destruct (node_spend n); cbn in *; [|rewrite Hp; f_equal; lia].
      rewrite Hp. unfold sat_add. lia.
  - split.
    + intros E. destruct (visits_grow ids (visit g c st p i)) as [l' El]. rewrite E, Ev in El. done.
    + intros (Hpn & [Hc _]%Forall_cons & Hl). exfalso.
      assert (pg_violations (visit g c st p i) = []) as E'; [|by rewrite E' in Ev].
      apply (visit_clean p i n Hn). split_and!; try done. intros Ho. apply Hl.
      eapply over_limit_mono; [|exact Ho]. cbn. set_solver.
Qed.
End loop.
End rights.

(** ** What a goal grants to the actions of a plan *)

Section grants.
Context `{HexBytes, HexDecode}.
Import GraphAssembler.

(** The domain an action names. *)
Definition action_domain (a : PlanAction) : option string :=
  match action_type a with
  | PaDebitBalance => act_metadata a !! "domain_tag"
  | PaCustom name =>
      if decide (name = "update_version") then None
      else match act_metadata a !! "schema_id" with
           | Some s => match slice_to 8 s with Ok short => Some ("contract." +:+ short) | _ => None end
           | None => None
           end
  | _ => None
  end.
Definition action_writes (a : PlanAction) : bool :=
  match action_type a with
  | PaCustom name => negb (bool_decide (name = "update_version"))
  | _ => true
  end.

(** The objects' types, the domains and the number of objects written are all
    that is limited; the actions and the amounts are not. *)
Definition domain_granted (goal : GoalPacket) (d : string) : Prop :=
  (d ∉ gc_forbidden_domains (gp_constraints goal)) ∧
  (gc_allowed_domains (gp_constraints goal) = [] ∨ d ∈ gc_allowed_domains (gp_constraints goal)).
Definition action_granted (goal : GoalPacket) (st : ObjectStore) (a : PlanAction) : Prop :=
  (∀ o, ObjectStore.get st (target_object a) = Some o →
     Object.object_type o ∈ gc_allowed_object_types (gp_constraints goal)) ∧
  (∀ d, action_domain a = Some d → domain_granted goal d).
Definition written (acts : list PlanAction) : gset Z :=
  list_to_set (target_object <$> filter (λ a, action_writes a = true) acts).
Definition plan_granted (goal : GoalPacket) (st : ObjectStore) (epoch : Z) (acts : list PlanAction) : Prop :=
  epoch ≤ gp_deadline_epoch goal ∧ Forall (action_granted goal st) acts ∧
  (let limit := gc_max_objects_touched (gp_constraints goal) in
   limit ≤ 0 ∨ Z.of_nat (size (written acts)) ≤ limit).

Lemma group_domain a next g d :
  action_nodes a next = Ok g → (∃ n, n ∈ g ∧ domain_tag n = Some d) ↔ action_domain a = Some d.
Proof.
  unfold action_nodes, action_domain. intros E. rewrite <- Exists_exists.
  destruct (action_type a) as [| | | | |name].
  1-5: injection E as <-; rewrite !Exists_cons, Exists_nil; cbn; naive_solver.
  destruct (decide (name = _)).
  { injection E as <-. rewrite Exists_cons, Exists_nil. cbn. naive_solver. }
  unfold custom_class in E. destruct (act_metadata a !! "schema_id") as [s|].
  - destruct (slice_to 8 s); [|done..]. injection E as <-.
    rewrite Exists_cons, Exists_nil. cbn. naive_solver.
  - injection E as <-. rewrite Exists_cons, Exists_nil. cbn. naive_solver.
Qed.

Lemma group_writes a next g :
  action_nodes a next = Ok g →
  ⋃ (node_writes <$> g) = if action_writes a then {[target_object a]} else ∅.
Proof.
  unfold action_nodes, action_writes. intros E. destruct (action_type a) as [| | | | |name].
  1-5: injection E as <-; cbn; unfold node_writes; cbn; set_solver.
  destruct (decide (name = _)) as [Hn|Hn].
  { injection E as <-. rewrite bool_decide_eq_true_2 by done. cbn. unfold node_writes. cbn. set_solver. }
  rewrite bool_decide_eq_false_2 by done. unfold custom_class in E.
  destruct (act_metadata a !! "schema_id") as [s|].
  - destruct (slice_to 8 s); [|done..]. injection E as <-. cbn. unfold node_writes. cbn. set_solver.
  - injection E as <-. cbn. unfold node_writes. cbn. set_solver.
Qed.

(** The amounts of the plan are [u128]s. *)
Definition amounts_fit (acts : list PlanAction) : Prop :=
  Forall (λ a, ∀ x, act_amount a = Some x → 0 ≤ x) acts.

Lemma group_amounts a next g n :
  action_nodes a next = Ok g → n ∈ g → nd_amount n = act_amount a ∨ nd_amount n = None.
Proof.
  unfold action_nodes, custom_class. intros E Hn. destruct (action_type a) as [| | | | |name].
  1-5: injection E as <-; repeat (apply elem_of_cons in Hn as [->|Hn]; [by left|]); by apply elem_of_nil in Hn.
  destruct (decide (name = _)).
  - injection E as <-. apply list_elem_of_singleton in Hn as ->. by right.
  - destruct (act_metadata a !! "schema_id") as [s|]; [destruct (slice_to 8 s); [|done..]|];
      injection E as <-; apply list_elem_of_singleton in Hn as ->; by left.
Qed.
End grants.

Section synthesized.
Context `{Sha256, Hex, HexBytes, HexDecode, CrxBincode}.
Context {acts : list PlanAction} {goal : GoalPacket} {g : CausalGraph}.
Context {groups : list (list CausalNode)} {tail : list CausalNode}.
Hypothesis Hg : graph_of acts goal g groups tail.
Context (st : ObjectStore) (solver : id32) (epoch : Z).
Let L := concat groups ++ tail.
Let c := RightsSynthesizer.synthesize g goal solver epoch.
Import RightsValidationEngine.

Lemma capsule_scope :
  rc_scope c = mkScope (⋃ (RightsSynthesizer.node_objects <$> L))
    (match L with [] => ∅ | _ => list_to_set (gc_allowed_object_types (gp_constraints goal)) end)
    (⋃ (RightsSynthesizer.node_actions <$> L) ∪ {[AaRead]})
    (mkDomains (list_to_set (gc_allowed_domains (gp_constraints goal)))
       (list_to_set (gc_forbidden_domains (gp_constraints goal))))
    (foldl (λ acc n, sat_add 128 acc (RightsSynthesizer.node_debit n)) 0 L)
    (gc_max_objects_touched (gp_constraints goal)) (allow_rollback (rc_scope c))
    (allow_downgrade (rc_scope c)) (quarantine_eligible (rc_scope c)).
Proof.
  subst c L. unfold RightsSynthesizer.synthesize. rewrite (go_values Hg).
  by destruct (partial_failure_policy (gp_policy goal)).
Qed.

(** The capsule allows every action of the graph it was made from. *)
Lemma no_action_breach n : n ∈ L → action_breach n c = None.
Proof.
  intros Hn. unfold action_breach, RightsCapsule.can_perform_action, AllowedActionSet.contains.
  assert (∀ m a, m ∈ L → a ∈ RightsSynthesizer.node_actions m → a ∈ allowed_actions (rc_scope c)) as Hin.
  { intros m a Hm Ha. rewrite capsule_scope. cbn [allowed_actions]. apply elem_of_union_l.
    apply elem_of_union_list. eexists. split; [|exact Ha]. by apply list_elem_of_fmap_2. }
  assert (AaRead ∈ allowed_actions (rc_scope c)) as Hr by (rewrite capsule_scope; set_solver).
  assert (AaUpdateVersion ∈ allowed_actions (rc_scope c)) as Hu.
  { destruct (decide (acts = [])) as [Ea|Ea].
    - subst L. rewrite (go_empty _ _ _ _ _ Hg Ea) in Hn. by apply elem_of_nil in Hn.
    - apply (go_final _ _ _ _ _ Hg), Exists_exists in Ea as (m & Hm & Ef). apply (Hin m); [done|].
      apply andb_true_iff in Ef as [Ef%bool_decide_eq_true _].
      unfold RightsSynthesizer.node_actions. rewrite Ef. set_solver. }
  specialize (Hin n). unfold node_to_action_type, RightsSynthesizer.node_actions in *.
  destruct (execution_class n); try destruct (is_debit n); try done;
    rewrite bool_decide_eq_true_2; (done || (apply Hin; [done|set_solver])).
Qed.

Lemma object_breach_spec n : n ∈ L →
  object_breach n c st = None ↔
  ∀ i o, nd_target n = Some i → ObjectStore.get st i = Some o →
    Object.object_type o ∈ gc_allowed_object_types (gp_constraints goal).
Proof.
  intros Hn. unfold object_breach. destruct (nd_target n) as [i|] eqn:Et; [|naive_solver].
  assert (i ∈ sc_object_ids (rc_scope c)) as Hi.
  { rewrite capsule_scope. cbn [sc_object_ids]. apply elem_of_union_list.
    exists (RightsSynthesizer.node_objects n). split; [by apply list_elem_of_fmap_2|].
    pose proof (proj1 (Forall_forall _ _) (go_main Hg) n Hn) as (_ & _ & Ha).
    unfold RightsSynthesizer.node_objects. rewrite Et.
    destruct (access_type n); set_solver. }
  destruct (ObjectStore.get st i) as [o|] eqn:Eo; cbn [fmap option_fmap option_map].
  - unfold RightsCapsule.can_access_object. rewrite (bool_decide_eq_true_2 _ Hi), orb_true_r. cbn [andb].
    assert (sc_object_types (rc_scope c) = list_to_set (gc_allowed_object_types (gp_constraints goal))) as ->.
    { rewrite capsule_scope. cbn. destruct L; [by apply elem_of_nil in Hn|done]. }
    case_bool_decide as Hd; rewrite elem_of_list_to_set in Hd; naive_solver.
  - rewrite (bool_decide_eq_true_2 _ Hi). rewrite andb_false_r. naive_solver.
Qed.

Lemma domain_breach_spec n :
  domain_breach n c = None ↔ ∀ d, domain_tag n = Some d → domain_granted goal d.
Proof.
  unfold domain_breach. destruct (domain_tag n) as [d|]; [|naive_solver].
  unfold DomainAccessEnvelope.is_domain_allowed. rewrite capsule_scope. cbn. unfold domain_granted.
  assert (list_to_set (C := gset string) (gc_allowed_domains (gp_constraints goal)) = ∅ ↔
    gc_allowed_domains (gp_constraints goal) = []) as Hz.
  { destruct (gc_allowed_domains (gp_constraints goal)); [done|]. split; [|done]. set_solver. }
  repeat case_bool_decide; cbn; set_solver.
Qed.

(** From the nodes back to the actions. *)
Lemma nodes_granted : Forall (node_clean c st) L ↔ Forall (action_granted goal st) acts.
Proof.
  pose proof (go_groups _ _ _ _ _ Hg) as HF. rewrite !Forall_forall. split.
  - intros Hall a Ha. destruct (Forall2_elem_l _ _ _ _ HF Ha) as (l & Hl & next & E).
    assert (∀ n, n ∈ l → n ∈ L) as Hsub.
    { intros n Hn. apply elem_of_app. left. apply elem_of_concat. eauto. }
    split.
    + intros o Ho. assert (∃ n, n ∈ l) as [n Hn].
      { destruct (gr_shape _ _ _ (action_group _ _ _ E)) as [(n & -> & _)|(n & ? & -> & _)];
          exists n; left. }
      destruct (Hall n (Hsub n Hn)) as (_ & Hob & _).
      apply (proj1 (object_breach_spec n (Hsub n Hn)) Hob (target_object a)); [|done].
      by apply (proj1 (Forall_forall _ _) (gr_main _ _ _ (action_group _ _ _ E)) n Hn).
    + intros d Hd. apply (group_domain a next l d E) in Hd as (n & Hn & Hd).
      destruct (Hall n (Hsub n Hn)) as (_ & _ & Hdb). by apply (proj1 (domain_breach_spec n) Hdb).
  - intros Hall n Hn. split_and!.
    + by apply no_action_breach.
    + apply object_breach_spec; [done|]. intros i o Hi Ho. apply elem_of_app in Hn as [Hn|Hn].
      * apply elem_of_concat in Hn as (l & Hl & Hn).
        destruct (Forall2_elem_r _ _ _ _ HF Hl) as (a & Ha & next & E).
        pose proof (proj1 (Forall_forall _ _) (gr_main _ _ _ (action_group _ _ _ E)) n Hn) as (_ & Ht & _).
        apply (Hall a Ha). congruence.
      * destruct (go_tail _ _ _ _ _ Hg) as [E|E]; rewrite E in Hn; [by apply elem_of_nil in Hn|].
        apply list_elem_of_singleton in Hn as ->. done.
    + apply domain_breach_spec. intros d Hd. apply elem_of_app in Hn as [Hn|Hn].
      * apply elem_of_concat in Hn as (l & Hl & Hn).
        destruct (Forall2_elem_r _ _ _ _ HF Hl) as (a & Ha & next & E).
        apply (Hall a Ha). apply (group_domain a next l d E). eauto.
      * destruct (go_tail _ _ _ _ _ Hg) as [E|E]; rewrite E in Hn; [by apply elem_of_nil in Hn|].
        apply list_elem_of_singleton in Hn as ->. done.
Qed.

Lemma nodes_written : ⋃ (node_writes <$> L) = written acts.
Proof.
  pose proof (go_groups _ _ _ _ _ Hg) as HF. apply set_eq. intros x. unfold written.
  rewrite elem_of_union_list, elem_of_list_to_set, list_elem_of_fmap. split.
  - intros (X & (n & -> & Hn)%list_elem_of_fmap & Hx). apply elem_of_app in Hn as [Hn|Hn].
    + apply elem_of_concat in Hn as (l & Hl & Hn).
      destruct (Forall2_elem_r _ _ _ _ HF Hl) as (a & Ha & next & E).
      assert (x ∈ ⋃ (node_writes <$> l)) as Hxl
        by (apply elem_of_union_list; eexists; split; [by apply list_elem_of_fmap_2|done]).
      rewrite (group_writes a next l E) in Hxl. destruct (action_writes a) eqn:Ew; [|set_solver].
      exists a. rewrite list_elem_of_filter. set_solver.
    + destruct (go_tail _ _ _ _ _ Hg) as [E|E]; rewrite E in Hn; [by apply elem_of_nil in Hn|].
      apply list_elem_of_singleton in Hn as ->. set_solver.
  - intros (a & -> & Ha). apply list_elem_of_filter in Ha as [Ew Ha].
    destruct (Forall2_elem_l _ _ _ _ HF Ha) as (l & Hl & next & E).
    assert (target_object a ∈ ⋃ (node_writes <$> l)) as Hx
      by (rewrite (group_writes a next l E), Ew; set_solver).
    apply elem_of_union_list in Hx as (X & (n & -> & Hn)%list_elem_of_fmap & Hx).
    exists (node_writes n). split; [|done]. apply list_elem_of_fmap_2, elem_of_app. left.
    apply elem_of_concat. eauto.
Qed.

Lemma nodes_amounts : amounts_fit acts → Forall (λ n, 0 ≤ RightsSynthesizer.node_debit n) L.
Proof.
  intros Hfit. apply Forall_forall. intros n Hn. unfold RightsSynthesizer.node_debit, node_spend.
  repeat case_match; try done. destruct (nd_amount n) as [x|] eqn:Ex; [|done]. cbn.
  apply elem_of_app in Hn as [Hn|Hn].
  - apply elem_of_concat in Hn as (l & Hl & Hn).
    destruct (Forall2_elem_r _ _ _ _ (go_groups _ _ _ _ _ Hg) Hl) as (a & Ha & next & E).
    destruct (group_amounts a next l n E Hn) as [E'|E']; [|congruence].
    apply (proj1 (Forall_forall _ _) Hfit a Ha). congruence.
  - destruct (go_tail _ _ _ _ _ Hg) as [E|E]; rewrite E in Hn; [by apply elem_of_nil in Hn|].
    by apply list_elem_of_singleton in Hn as ->.
Qed.

(** The rights check of a plan against its own capsule. *)
Lemma rights_granted :
  amounts_fit acts →
  all_passed (validate g c st epoch solver) = true ↔ plan_granted goal st epoch acts.
Proof.
  intros Hfit. unfold validate.
  assert (authorized_solver_id c = solver) as -> by (subst c; unfold RightsSynthesizer.synthesize;
    by destruct (partial_failure_policy (gp_policy goal))).
  rewrite decide_False by naive_solver.
  assert (RightsCapsule.is_valid_at_epoch c epoch = bool_decide (epoch ≤ gp_deadline_epoch goal)) as ->.
  { subst c. unfold RightsSynthesizer.synthesize.
    destruct (partial_failure_policy (gp_policy goal)); unfold RightsCapsule.is_valid_at_epoch; cbn;
      by rewrite (bool_decide_eq_true_2 (epoch ≤ epoch)) by lia. }
  unfold plan_granted. case_bool_decide as Hd; cbn [negb]; [|cbn; split; [done|lia]].
  cbn [all_passed]. rewrite bool_decide_eq_true.
  pose proof (nodes_amounts Hfit) as Ham.
  rewrite (rights_loop g c st L) with (pre := []) (suf := L); [|done| |by apply (order_nodes Hg)|done| |].
  - cbn [pg_violations pg_touched]. rewrite nodes_granted, nodes_written, (right_id_L ∅ (∪)).
    assert (¬ over_limit c (written acts) ↔ gc_max_objects_touched (gp_constraints goal) ≤ 0 ∨
      Z.of_nat (size (written acts)) ≤ gc_max_objects_touched (gp_constraints goal)) as ->; [|naive_solver].
    unfold over_limit. rewrite capsule_scope. cbn [sc_max_objects_touched]. lia.
  - rewrite capsule_scope. cbn [sc_max_spend]. rewrite sat_fold by (done || ints). f_equal.
  - done.
  - unfold over_limit. cbn. rewrite size_empty. lia.
Qed.

(** The causal check finds forbidden domains, which the rights check finds too. *)
Lemma causal_granted :
  Forall (action_granted goal st) acts → is_causally_valid (CausalValidityEngine.validate g c goal) = true.
Proof.
  intros Hall. unfold CausalValidityEngine.validate. cbn [is_causally_valid].
  rewrite (assembled_causal Hg).
  assert (CausalValidityEngine.check_no_forbidden_domain g goal = []) as ->; [|done].
  apply concat_fmap_nil. intros n Hn. rewrite (go_values Hg) in Hn. fold L in Hn.
  apply nodes_granted in Hall. apply (proj1 (Forall_forall _ _) Hall) in Hn as (_ & _ & Hd).
  pose proof (proj1 (domain_breach_spec n) Hd) as Hg'. destruct (domain_tag n) as [d|]; [|done].
  rewrite decide_False; [done|]. by apply Hg'.
Qed.
End synthesized.
