(* ===== verification/CrxProps.v ===== *)
(** * Properties of CRX settlement

    Executing the graph of a plan is executing its actions in turn; a settlement
    is rejected, succeeds, is downgraded or is reverted by what the actions do and
    the goal's policy ([crx_settle_spec]); a revert puts back every balance, pool
    and vault ([crx_revert_restores]); batches keep the store's invariant
    ([crx_batch_sound]). *)

From stdpp Require Import gmap strings list sorting.
From S2P Require Import Prelude Errors Gas Objects Concrete Store FeeEnvelope Intents Sorting.
From S2P Require Import SolverTypes PlanValidation Numerals Crx CrxOrder CrxChecks CrxExec.
From S2P Require Import CrxSettle CrxAssembly CrxGrants.

(** ** The actions of a plan, executed in turn *)

Import BranchAwareExecutor.

(** One action: a debit and a swap are checked first. *)
Definition run_action (a : PlanAction) (st : ObjectStore) : ObjectStore * option RuntimeError :=
  let i := target_object a in
  let amt := default 0 (act_amount a) in
  match action_type a with
  | PaDebitBalance =>
      match check_balance i amt st with
      | Some e => (st, Some e)
      | None => with_balance i (mutate_balance true amt) st
      end
  | PaCreditBalance => with_balance i (mutate_balance false amt) st
  | PaSwapPoolAmounts =>
      match check_balance i amt st with
      | Some e => (st, Some e)
      | None => swap_reserves i (meta_i128 "delta_a" (act_metadata a)) (meta_i128 "delta_b" (act_metadata a)) st
      end
  | PaLockBalance => with_balance i (lock_amount amt) st
  | PaUnlockBalance => with_balance i (unlock_amount amt) st
  | PaCustom name => (if decide (name = "update_version") then finalize i st else st, None)
  end.

(** Until one fails. *)
Fixpoint run_until {A} (f : A → ObjectStore → ObjectStore * option RuntimeError) (l : list A)
    (st : ObjectStore) : ObjectStore * option RuntimeError :=
  match l with
  | [] => (st, None)
  | x :: l => match f x st with
              | (st, None) => run_until f l st
              | (st, Some e) => (st, Some e)
              end
  end.
Definition run_actions : list PlanAction → ObjectStore → ObjectStore * option RuntimeError := run_until run_action.

Lemma run_until_app {A} f (l l' : list A) st :
  run_until f (l ++ l') st =
  match run_until f l st with (st, None) => run_until f l' st | r => r end.
Proof.
  revert st. induction l as [|x l IH]; intros st; [done|]. cbn.
  destruct (f x st) as [st1 [e|]]; [done|apply IH].
Qed.

Lemma run_until_inv {A} (P : ObjectStore → Prop) f (l : list A) st :
  (∀ x st, x ∈ l → P st → P (f x st).1) → P st → P (run_until f l st).1.
Proof.
  revert st. induction l as [|x l IH]; intros st Hf Hst; [done|]. cbn.
  pose proof (Hf x st ltac:(left) Hst) as Hx. destruct (f x st) as [st1 [e|]]; [done|].
  apply IH; [|done]. intros y s Hy. apply Hf. by right.
Qed.

Section execution.
Context `{HexBytes, HexDecode}.
Import GraphAssembler.

Lemma group_runs a next l st :
  action_nodes a next = Ok l → run_until execute_node l st = run_action a st.
Proof.
  unfold action_nodes, run_action. intros E. destruct (action_type a) as [| | | | |name] eqn:Et.
  1-5: injection E as <-; cbn; unfold execute_node; cbn -[mutate_balance check_balance META_DEBIT_DIR VAL_DEBIT VAL_CREDIT].
  - destruct (check_balance _ _ st); [done|]. unfold is_debit. cbn [nd_metadata main_node].
    rewrite lookup_insert_eq, bool_decide_eq_true_2 by done. by destruct (with_balance _ _ _) as [? []].
  - unfold is_debit. cbn [nd_metadata main_node]. rewrite lookup_insert_eq, bool_decide_eq_false_2 by done.
    by destruct (with_balance _ _ _) as [? []].
  - destruct (check_balance _ _ st); [done|]. by destruct (swap_reserves _ _ _ _) as [? []].
  - by destruct (with_balance _ _ _) as [? []].
  - by destruct (with_balance _ _ _) as [? []].
  - destruct (decide (name = _)).
    + by injection E as <-.
    + unfold custom_class in E. destruct (act_metadata a !! "schema_id") as [s|].
      * destruct (slice_to 8 s); [|done..]. by injection E as <-.
      * by injection E as <-.
Qed.

Lemma groups_run acts groups st :
  Forall2 (λ a l, ∃ next, action_nodes a next = Ok l) acts groups →
  run_until execute_node (concat groups) st = run_actions acts st.
Proof.
  intros HF. revert st. induction HF as [|a l acts groups [next E] HF IH]; intros st; [done|].
  cbn [concat]. rewrite run_until_app, (group_runs a next l st E). unfold run_actions. cbn [run_until].
  destruct (run_action a st) as [st1 [e|]]; [done|apply IH].
Qed.
End execution.

Section graph_execution.
Context `{Sha256, HexBytes, HexDecode, CrxBincode}.
Context {acts : list PlanAction} {goal : GoalPacket} {g : CausalGraph}.
Context {groups : list (list CausalNode)} {tail : list CausalNode}.
Hypothesis Hg : graph_of acts goal g groups tail.

Lemma filter_keeps {A} (P : A → Prop) `{∀ x, Decision (P x)} l : Forall P l → filter P l = l.
Proof. induction 1 as [|x l Hx _ IH]; [done|]. by rewrite filter_cons_True, IH. Qed.

Lemma graph_branch : branch_node_ids g 0 = topological_order g.
Proof.
  unfold branch_node_ids. apply filter_keeps, Forall_forall. intros i Hi.
  destruct (Forall2_elem_l _ _ _ _ (order_nodes Hg) Hi) as (n & Hn & -> & _). cbn. f_equal.
  by apply (proj1 (Forall_forall _ _) (go_main Hg) n Hn).
Qed.

Lemma run_nodes_until all ids ns st mutated :
  Forall2 (λ i n, nodes g !! i = Some n ∧ node_id n = i) ids ns →
  (run_nodes g all ids st mutated).1.1 = (run_until execute_node ns st).1 ∧
  failure_error <$> (run_nodes g all ids st mutated).2 = (run_until execute_node ns st).2.
Proof.
  intros HF. revert st mutated. induction HF as [|i n ids ns [Hn _] HF IH]; intros st mutated; [done|].
  cbn [run_nodes run_until]. rewrite Hn. destruct (execute_node n st) as [st1 [e|]]; [done|apply IH].
Qed.

(** The graph does what its actions do. *)
Lemma graph_runs st :
  (run_nodes g (topological_order g) (topological_order g) st []).1.1 = (run_actions acts st).1 ∧
  failure_error <$> (run_nodes g (topological_order g) (topological_order g) st []).2 = (run_actions acts st).2.
Proof.
  destruct (run_nodes_until (topological_order g) _ _ st [] (order_nodes Hg)) as [-> ->].
  rewrite run_until_app, (groups_run _ _ st (go_groups _ _ _ _ _ Hg)).
  destruct (run_actions acts st) as [st1 [e|]]; [done|].
  by destruct (go_tail _ _ _ _ _ Hg) as [-> | ->].
Qed.

(** The objects that the actions name are the targets of the graph. *)
Lemma graph_targets i : i ∈ CRXSettlementEngine.target_ids g ↔ i ∈ target_object <$> acts.
Proof.
  unfold CRXSettlementEngine.target_ids. rewrite (go_values Hg), list_elem_of_omap, list_elem_of_fmap.
  pose proof (go_groups _ _ _ _ _ Hg) as HF. split.
  - intros (n & [Hn|Hn]%elem_of_app & Ht).
    + apply elem_of_concat in Hn as (l & Hl & Hn).
      destruct (Forall2_elem_r _ _ _ _ HF Hl) as (a & Ha & next & E). exists a. split; [|done].
      pose proof (proj1 (Forall_forall _ _) (gr_main _ _ _ (action_group _ _ _ E)) n Hn) as (_ & Ht' & _).
      congruence.
    + destruct (go_tail _ _ _ _ _ Hg) as [E|E]; rewrite E in Hn; [by apply elem_of_nil in Hn|].
      by apply list_elem_of_singleton in Hn as ->.
  - intros (a & -> & Ha). destruct (Forall2_elem_l _ _ _ _ HF Ha) as (l & Hl & next & E).
    assert (∃ n, n ∈ l) as [n Hn].
    { destruct (gr_shape _ _ _ (action_group _ _ _ E)) as [(n & -> & _)|(n & ? & -> & _)]; exists n; left. }
    exists n. split; [apply elem_of_app; left; apply elem_of_concat; eauto|].
    by apply (proj1 (Forall_forall _ _) (gr_main _ _ _ (action_group _ _ _ E)) n Hn).
Qed.

(** The class of the execution, by the goal's policy. *)
Definition class_of (policy : PartialFailurePolicy) (failed : option RuntimeError) : ExecutionSettlementClass :=
  match failed, policy with
  | None, _ => FullSuccess
  | Some _, (AllowBranchDowngrade | DowngradeAndContinue) => SuccessWithDowngrade 0
  | Some _, (StrictAllOrNothing | QuarantineOnFailure) => FullRevert
  end.

Context `{Hex}.
Lemma graph_executes solver epoch st :
  let c := RightsSynthesizer.synthesize g goal solver epoch in
  let r := execute g c goal st in
  r.1 = (run_actions acts st).1 ∧
  r.2.1 = class_of (partial_failure_policy (gp_policy goal)) (run_actions acts st).2.
Proof.
  intros c r. destruct (graph_runs st) as [<- <-]. subst r. unfold execute.
  rewrite (go_branches _ _ _ _ _ Hg). cbn [run_branches branch_id failure_allowed]. rewrite graph_branch.
  destruct (run_nodes g _ _ st []) as [[st1 mutated] [f|]]; cbn [fmap option_fmap option_map fst snd]; [|done].
  subst c. unfold RightsSynthesizer.synthesize.
  by destruct (partial_failure_policy (gp_policy goal)).
Qed.
End graph_execution.

(** ** What the actions leave alone *)

Definition is_update (a : PlanAction) : bool := negb (action_writes a).
Definition bumped (acts : list PlanAction) : list id32 := target_object <$> filter (λ a, is_update a = true) acts.

(** [s] differs from [st] only in the balances and pools of [ids], which are
    there in both, and in the versions of other objects of [ups]. *)
Record frame (ids ups : list id32) (st s : ObjectStore) : Prop := {
  fr_balances : ∀ i, i ∉ ids → balances s !! i = balances st !! i;
  fr_balances_dom : ∀ i, is_Some (balances s !! i) ↔ is_Some (balances st !! i);
  fr_pools : ∀ i, i ∉ ids → pools s !! i = pools st !! i;
  fr_pools_dom : ∀ i, is_Some (pools s !! i) ↔ is_Some (pools st !! i);
  fr_vaults : vaults s = vaults st;
  fr_objects : ∀ i, objects s !! i = objects st !! i ∨
    (i ∈ ups ∧ balances st !! i = None ∧ pools st !! i = None ∧
     ∃ v, objects s !! i = Object.map_meta (λ m, set_version m v) <$> objects st !! i);
  fr_like : store_like s st }.

Lemma frame_refl ids ups st : frame ids ups st st.
Proof. split; naive_solver. Qed.

Lemma alter_is_some {A} (f : A → A) i j (m : gmap Z A) : is_Some (alter f i m !! j) ↔ is_Some (m !! j).
Proof. rewrite lookup_alter. case_decide; [subst|done]. by rewrite fmap_is_Some. Qed.

(** A write to an entry that keeps its id keeps the store alike. *)
Lemma update_balance_like_at f i st :
  (∀ b, balances st !! i = Some b → id (bal_meta (f b)) = id (bal_meta b)) →
  store_like (ObjectStore.update_balance f i st) st.
Proof.
  intros Hf. split; cbn; try done. apply map_eq. intros k. rewrite !lookup_fmap, lookup_alter.
  case_decide; [subst|done]. destruct (balances st !! k) as [b|]; cbn; [|done]. f_equal. by apply Hf.
Qed.

Lemma frame_balance ids ups st s f i :
  frame ids ups st s → i ∈ ids →
  (∀ b, balances s !! i = Some b → id (bal_meta (f b)) = id (bal_meta b)) →
  frame ids ups st (ObjectStore.update_balance f i s).
Proof.
  intros HF Hi Hid. split; cbn; try apply HF.
  - intros j Hj. rewrite lookup_alter_ne by (by intros ->). by apply HF.
  - intros j. rewrite alter_is_some. apply HF.
  - etrans; [by apply update_balance_like_at|apply HF].
Qed.
Lemma frame_pool ids ups st s f i :
  frame ids ups st s → i ∈ ids → (∀ p, id (pool_meta (f p)) = id (pool_meta p)) →
  frame ids ups st (ObjectStore.update_pool f i s).
Proof.
  intros HF Hi Hid. split; cbn; try apply HF.
  - intros j Hj. rewrite lookup_alter_ne by (by intros ->). by apply HF.
  - intros j. rewrite alter_is_some. apply HF.
  - etrans; [by apply update_pool_like|apply HF].
Qed.

Lemma map_meta_compose f f' o : Object.map_meta f (Object.map_meta f' o) = Object.map_meta (f ∘ f') o.
Proof. by destruct o. Qed.
Lemma map_meta_id o : Object.map_meta (λ m, set_version m (version m)) o = o.
Proof. destruct o as [[[]]|[[]]|[[]]|[[]]|[[]]|[[]]|[[]]|[[]]|[[]]]; done. Qed.
Lemma map_meta_ext f f' o : f (Object.meta o) = f' (Object.meta o) → Object.map_meta f o = Object.map_meta f' o.
Proof. destruct o; cbn; by intros ->. Qed.
Lemma meta_map f o : Object.meta (Object.map_meta f o) = f (Object.meta o).
Proof. by destruct o. Qed.
Lemma shape_bump o : shape (Object.map_meta bump o) = shape o.
Proof. by destruct o. Qed.

Lemma frame_finalize ids ups st s i :
  frame ids ups st s → i ∈ ids → i ∈ ups → frame ids ups st (finalize i s).
Proof.
  intros HF Hi Hu. unfold finalize. case_decide as Hb; [by apply frame_balance|].
  case_decide as Hp; [by apply frame_pool|]. split; cbn; try apply HF.
  - intros j. rewrite lookup_alter. case_decide as Hj; [subst j|apply HF].
    right. unfold ObjectStore.get_balance_by_id, ObjectStore.get_pool_by_id in *.
    apply eq_None_not_Some in Hb, Hp. split_and!; [done| | |].
    + apply eq_None_not_Some. rewrite <- (fr_balances_dom _ _ _ _ HF). by rewrite Hb, <- eq_None_not_Some.
    + apply eq_None_not_Some. rewrite <- (fr_pools_dom _ _ _ _ HF). by rewrite Hp, <- eq_None_not_Some.
    + assert (∃ v, objects s !! i = Object.map_meta (λ m, set_version m v) <$> objects st !! i) as [v Ev].
      { destruct (fr_objects _ _ _ _ HF i) as [E|(_ & _ & _ & ?)]; [|done]. rewrite E.
        destruct (objects st !! i) as [o|]; [|by exists 0]. exists (version (Object.meta o)). cbn.
        f_equal. etrans; [symmetry; apply map_meta_id|]. by apply map_meta_ext. }
      rewrite Ev. exists (wrapu 64 (v + 1)).
      destruct (objects st !! i) as [o|]; cbn; [|done]. f_equal. by rewrite map_meta_compose.
  - etrans; [|apply HF]. apply update_like, shape_bump.
Qed.

Lemma mutate_balance_id d amt b b' : mutate_balance d amt b = inr b' → id (bal_meta b') = id (bal_meta b).
Proof.
  unfold mutate_balance. destruct d; [|by intros [= <-]]. case_decide; [done|].
  destruct (checked_sub _ _); [by intros [= <-]|done].
Qed.

Lemma frame_with_balance ids ups st s i f :
  frame ids ups st s → i ∈ ids →
  (∀ b b', f b = inr b' → id (bal_meta b') = id (bal_meta b)) → frame ids ups st (with_balance i f s).1.
Proof.
  intros HF Hi Hf. unfold with_balance, ObjectStore.get_balance_by_id.
  destruct (balances s !! i) as [b|] eqn:Eb; [|done]. destruct (f b) as [e|b'] eqn:Ef; [done|]. cbn.
  apply frame_balance; [done..|]. intros b0 Hb0. rewrite Eb in Hb0. injection Hb0 as <-. by eapply Hf.
Qed.

Lemma frame_swap ids ups st s i da db :
  frame ids ups st s → i ∈ ids → frame ids ups st (swap_reserves i da db s).1.
Proof.
  intros HF Hi. unfold swap_reserves. destruct (ObjectStore.get_pool_by_id s i) as [p|]; [|done].
  destruct (shift_reserve da _) as [e|ra]; [done|].
  destruct (shift_reserve db _) as [e|rb]; by apply frame_pool.
Qed.

Lemma frame_action acts st s a :
  a ∈ acts → frame (target_object <$> acts) (bumped acts) st s →
  frame (target_object <$> acts) (bumped acts) st (run_action a s).1.
Proof.
  intros Ha HF. assert (target_object a ∈ target_object <$> acts) as Hi by (by apply list_elem_of_fmap_2).
  unfold run_action. destruct (action_type a) as [| | | | |name] eqn:Et.
  - destruct (check_balance _ _ s); [done|]. apply frame_with_balance; [done..|]. apply mutate_balance_id.
  - apply frame_with_balance; [done..|]. apply mutate_balance_id.
  - destruct (check_balance _ _ s); [done|]. by apply frame_swap.
  - apply frame_with_balance; [done..|]. intros b b'. unfold lock_amount. case_decide; [done|].
    by intros [= <-].
  - apply frame_with_balance; [done..|]. by intros b b' [= <-].
  - cbn. case_decide as Hn; [|done]. apply frame_finalize; [done..|].
    unfold bumped. apply list_elem_of_fmap_2, list_elem_of_filter. split; [|done].
    unfold is_update, action_writes. rewrite Et. by rewrite bool_decide_eq_true_2.
Qed.

Lemma actions_frame acts st : frame (target_object <$> acts) (bumped acts) st (run_actions acts st).1.
Proof.
  unfold run_actions. apply (run_until_inv (frame (target_object <$> acts) (bumped acts) st)).
  - intros a s. apply frame_action.
  - apply frame_refl.
Qed.

(** ** Putting the snapshot back *)

Lemma put_back_frame {A} (ids : list id32) (m m' : gmap Z A) :
  (∀ i, i ∉ ids → m' !! i = m !! i) → (∀ i, is_Some (m' !! i) ↔ is_Some (m !! i)) →
  StoreSnapshot.put_back (StoreSnapshot.at_ids ids m) m' = m.
Proof.
  intros Hoff Hdom. apply map_eq. intros i. unfold StoreSnapshot.put_back, StoreSnapshot.at_ids.
  rewrite map_lookup_imap. specialize (Hdom i). destruct (decide (i ∈ ids)) as [Hi|Hi].
  - destruct (m' !! i) as [x|], (m !! i) as [y|] eqn:Ey; cbn.
    + rewrite (map_lookup_filter_Some_2 _ _ _ y); [done|done|done].
    + exfalso. destruct Hdom as [[? [=]] _]. by eexists.
    + exfalso. destruct Hdom as [_ [? [=]]]. by eexists.
    + done.
  - rewrite (Hoff i Hi). destruct (m !! i) as [y|] eqn:Ey; cbn; [|done].
    rewrite map_lookup_filter_None_2; [done|]. right. intros x _. cbn. done.
Qed.

Lemma at_ids_ext {A} (ids ids' : list id32) (m : gmap Z A) :
  (∀ i, i ∈ ids ↔ i ∈ ids') → StoreSnapshot.at_ids ids m = StoreSnapshot.at_ids ids' m.
Proof. intros He. apply map_filter_ext. intros i x _. cbn. apply He. Qed.

Section theorems.
Context `{Sha256, Hex, HexBytes, HexDecode, CrxBincode}.
Import CRXSettlementEngine.

(** The store after a revert: the overlays are those of before. *)
Lemma restored acts st (s := (run_actions acts st).1) :
  StoreSnapshot.restore (StoreSnapshot.take st (target_object <$> acts)) (ObjectStore.sync_typed_to_canonical s) =
  mkStore (objects (ObjectStore.sync_typed_to_canonical s)) (balances st) (pools st) (vaults st).
Proof.
  pose proof (actions_frame acts st) as HF. fold s in HF.
  unfold StoreSnapshot.restore, StoreSnapshot.take. cbn [sn_balances sn_pools sn_vaults].
  f_equal; apply put_back_frame; cbn; try apply HF; by rewrite (fr_vaults _ _ _ _ HF).
Qed.

Definition finality_of (goal : GoalPacket) (c : ExecutionSettlementClass) : FinalityClass :=
  match c with
  | ScRejected => FcRejected
  | FullRevert => FcReverted
  | _ => if decide (settlement_strictness (gp_policy goal) = SsProvisional) then FcProvisional
         else match c with FullSuccess => FcFinalized | _ => FcFinalizedWithDowngrade end
  end.

Lemma classify_class goal dps failed :
  finality_class (FinalityClassifier.classify
    (class_of (partial_failure_policy (gp_policy goal)) failed) goal dps) =
  finality_of goal (class_of (partial_failure_policy (gp_policy goal)) failed).
Proof.
  unfold FinalityClassifier.classify, class_of, finality_of.
  destruct failed, (partial_failure_policy (gp_policy goal)) eqn:Ep; cbn; rewrite ?Ep;
    repeat (case_decide; cbn); naive_solver.
Qed.

(** The store that a settlement leaves: synced, with the touched objects put back
    when the class is a revert. *)
Definition crx_store (acts : list PlanAction) (st : ObjectStore) (c : ExecutionSettlementClass)
  : ObjectStore :=
  let s := ObjectStore.sync_typed_to_canonical (run_actions acts st).1 in
  if decide (c = FullRevert)
  then ObjectStore.sync_typed_to_canonical (StoreSnapshot.restore (StoreSnapshot.take st (target_object <$> acts)) s)
  else s.

Lemma build_cases plan goal epoch :
  plan_fits (actions plan) →
  (∃ g groups tail, CausalPlanBuilder.build plan goal epoch =
     Ok (g, RightsSynthesizer.synthesize g goal (cp_solver_id plan) epoch) ∧
     graph_of (actions plan) goal g groups tail) ∨
  (CausalPlanBuilder.build plan goal epoch = Panic ∧ Exists bad_schema (actions plan)).
Proof.
  intros Hfit. unfold CausalPlanBuilder.build.
  destruct (assemble_graph plan goal Hfit) as [(g & groups & tail & -> & Hg)|[-> ?]]; [left|by right].
  cbn [never_err mbind outcome_bind]. rewrite (go_acyclic _ _ _ _ _ Hg). cbn [mbind outcome_bind].
  by exists g, groups, tail.
Qed.

(** The settlement of a plan whose graph can be built. *)
Lemma settle_runs (plan : CandidatePlan) (goal : GoalPacket) (dps : list DomainFinalityPolicy)
    (epoch : Z) (st : ObjectStore) :
  plan_fits (actions plan) → amounts_fit (actions plan) → ¬ Exists bad_schema (actions plan) →
  ∃ st' r, settle plan goal dps epoch st = (st', Ok r) ∧
    finality_class (finality r) = finality_of goal (cx_class r) ∧
    ((¬ plan_granted goal st epoch (actions plan) ∧ cx_class r = ScRejected ∧ st' = st) ∨
     (plan_granted goal st epoch (actions plan) ∧
      cx_class r = class_of (partial_failure_policy (gp_policy goal)) (run_actions (actions plan) st).2 ∧
      st' = crx_store (actions plan) st (cx_class r))).
Proof.
  intros Hfit Ham Hbad. unfold settle.
  destruct (build_cases plan goal epoch Hfit) as [(g & groups & tail & -> & Hg)|[_ ?]]; [|done].
  set (c := RightsSynthesizer.synthesize g goal (cp_solver_id plan) epoch).
  pose proof (rights_granted Hg st (cp_solver_id plan) epoch Ham) as Hr. fold c in Hr.
  destruct (all_passed (RightsValidationEngine.validate g c st epoch (cp_solver_id plan))) eqn:Ea.
  - pose proof (proj1 Hr eq_refl) as Hgr.
    pose proof (causal_granted Hg st (cp_solver_id plan) epoch (proj1 (proj2 Hgr))) as Hc. fold c in Hc.
    rewrite Hc. cbn [negb orb]. unfold execute_and_classify.
    destruct (graph_executes Hg (cp_solver_id plan) epoch st) as [E1 E2]. fold c in E1, E2.
    destruct (execute g c goal st) as [s [class results]]. cbn [fst snd] in E1, E2. subst s class.
    assert (bool_decide (finality_class (FinalityClassifier.classify
        (class_of (partial_failure_policy (gp_policy goal)) (run_actions (actions plan) st).2) goal dps) = FcReverted)
      || bool_decide (class_of (partial_failure_policy (gp_policy goal)) (run_actions (actions plan) st).2 = FullRevert)
      = bool_decide (class_of (partial_failure_policy (gp_policy goal)) (run_actions (actions plan) st).2 = FullRevert)) as ->.
    { rewrite classify_class. unfold finality_of.
      destruct (run_actions (actions plan) st).2, (partial_failure_policy (gp_policy goal)); cbn; by case_decide. }
    eexists _, _. split; [reflexivity|]. cbn [finality cx_class settled_record]. split; [apply classify_class|].
    right. split_and!; [done|done|]. unfold crx_store.
    assert (StoreSnapshot.take st (target_ids g) = StoreSnapshot.take st (target_object <$> actions plan)) as ->
      by (unfold StoreSnapshot.take; f_equal; apply at_ids_ext, (graph_targets Hg)).
    by repeat case_decide || case_bool_decide.
  - cbn [negb orb]. eexists _, _. split; [reflexivity|]. cbn [finality cx_class settled_record]. split.
    + unfold FinalityClassifier.classify. cbn. by rewrite decide_False by naive_solver.
    + left. split_and!; [|done..]. intros Hgr. apply Hr in Hgr. discriminate Hgr.
Qed.

Lemma bad_no_graph acts goal g groups tail : graph_of acts goal g groups tail → ¬ Exists bad_schema acts.
Proof.
  intros Hg (a & Ha & name & s & Et & Hn & Es & E)%Exists_exists.
  destruct (Forall2_elem_l _ _ _ _ (go_groups _ _ _ _ _ Hg) Ha) as (l & _ & next & El).
  unfold GraphAssembler.action_nodes, GraphAssembler.custom_class in El.
  by rewrite Et, decide_False, Es, E in El by done.
Qed.

Lemma bad_panics plan goal dps epoch st :
  plan_fits (actions plan) → Exists bad_schema (actions plan) → settle plan goal dps epoch st = (st, Panic).
Proof.
  intros Hfit Hbad. unfold settle.
  by destruct (build_cases plan goal epoch Hfit) as [(? & ? & ? & _ & Hg%bad_no_graph)|[-> _]].
Qed.

(** The store after a settlement that ran. *)
Lemma crx_store_sound acts st c :
  store_inv st → store_inv (crx_store acts st c) ∧ synced (crx_store acts st c).
Proof.
  intros Hinv. pose proof (actions_frame acts st) as HF.
  assert (store_inv (run_actions acts st).1) as Hs by (by rewrite (fr_like _ _ _ _ HF)).
  unfold crx_store. case_decide; [|split; [by apply sync_inv|by apply sync_synced]].
  rewrite restored.
  assert (store_inv (mkStore (objects (ObjectStore.sync_typed_to_canonical (run_actions acts st).1))
    (balances st) (pools st) (vaults st))) as Hr.
  { assert (store_like (mkStore (objects (ObjectStore.sync_typed_to_canonical (run_actions acts st).1))
      (balances st) (pools st) (vaults st)) st) as ->; [|done].
    split; [|done..]. cbn [objects].
    etrans; [apply (sync_like _ Hs)|]. apply (fr_like _ _ _ _ HF). }
  split; [by apply sync_inv|by apply sync_synced].
Qed.

Lemma revert_objects acts st i :
  store_inv st → synced st →
  let st' := crx_store acts st FullRevert in
  objects st' !! i = objects st !! i ∨
  (i ∈ bumped acts ∧ balances st !! i = None ∧ pools st !! i = None ∧ vaults st !! i = None ∧
   ∃ v, objects st' !! i = Object.map_meta (λ m, set_version m v) <$> objects st !! i).
Proof.
  intros Hinv Hsync st'. subst st'. unfold crx_store. rewrite decide_True by done. rewrite restored.
  pose proof (actions_frame acts st) as HF.
  set (s := (run_actions acts st).1) in *. rewrite !sync_objects_lookup. cbn [objects balances pools vaults].
  rewrite sync_objects_lookup. rewrite (fr_vaults _ _ _ _ HF).
  destruct Hsync as (Sb & Sp & Sv). pose proof (fr_balances_dom _ _ _ _ HF i) as Db.
  pose proof (fr_pools_dom _ _ _ _ HF i) as Dp.
  assert (is_Some (objects s !! i) ↔ is_Some (objects st !! i)) as Do.
  { destruct (fr_objects _ _ _ _ HF i) as [->|(_ & _ & _ & v & ->)]; [done|]. by rewrite fmap_is_Some. }
  destruct (objects s !! i) as [o1|] eqn:E1, (objects st !! i) as [o|] eqn:Eo;
    [|destruct Do as [[? [=]] _]; by eexists|destruct Do as [_ [? [=]]]; by eexists|by left].
  destruct (vaults st !! i) as [v|] eqn:Ev.
  { left. specialize (Sv i v Ev). congruence. }
  destruct (pools st !! i) as [p|] eqn:Ep.
  { left. specialize (Sp i p Ep). congruence. }
  destruct (balances st !! i) as [b|] eqn:Eb.
  { left. specialize (Sb i b Eb). congruence. }
  assert (pools s !! i = None) as ->.
  { destruct (pools s !! i); [|done]. destruct Dp as [[? [=]] _]. by eexists. }
  assert (balances s !! i = None) as ->.
  { destruct (balances s !! i); [|done]. destruct Db as [[? [=]] _]. by eexists. }
  destruct (fr_objects _ _ _ _ HF i) as [E|(Hu & _ & _ & v & E)]; rewrite E1, Eo in E.
  - left. congruence.
  - right. split_and!; try done. exists v. done.
Qed.

(** C31: A plan panics only by a schema id whose eighth byte is inside a character.
    Otherwise it is rejected without a change when its goal does not grant it; else
    its actions run in turn, and what they come to decides the class, the finality
    and the store by the goal's policy.  No other check of the layer ever fails. *)
Theorem crx_settle_spec (plan : CandidatePlan) (goal : GoalPacket) (dps : list DomainFinalityPolicy)
    (epoch : Z) (st : ObjectStore) :
  plan_fits (actions plan) → amounts_fit (actions plan) →
  (Exists bad_schema (actions plan) ∧ settle plan goal dps epoch st = (st, Panic)) ∨
  ∃ st' r, settle plan goal dps epoch st = (st', Ok r) ∧
    finality_class (finality r) = finality_of goal (cx_class r) ∧
    ((¬ plan_granted goal st epoch (actions plan) ∧ cx_class r = ScRejected ∧ st' = st) ∨
     (plan_granted goal st epoch (actions plan) ∧
      cx_class r = class_of (partial_failure_policy (gp_policy goal)) (run_actions (actions plan) st).2 ∧
      st' = crx_store (actions plan) st (cx_class r))).
Proof.
  intros Hfit Ham. destruct (build_cases plan goal epoch Hfit) as [(g & ? & ? & _ & Hg)|[_ Hbad]].
  - right. apply settle_runs; [done..|]. by eapply bad_no_graph.
  - left. split; [done|]. by apply bad_panics.
Qed.

(** C32: A rejected or reverted settlement leaves every balance, pool and vault as it
    was, and every object but the version of one that is none of these and that an
    [update_version] action names: the snapshot does not hold it. *)
Theorem crx_revert_restores (plan : CandidatePlan) (goal : GoalPacket) (dps : list DomainFinalityPolicy)
    (epoch : Z) (st st' : ObjectStore) (r : CRXSettlementRecord) :
  plan_fits (actions plan) → amounts_fit (actions plan) → store_inv st → synced st →
  settle plan goal dps epoch st = (st', Ok r) → cx_class r = FullRevert ∨ cx_class r = ScRejected →
  balances st' = balances st ∧ pools st' = pools st ∧ vaults st' = vaults st ∧
  ∀ i, objects st' !! i = objects st !! i ∨
    (i ∈ bumped (actions plan) ∧ balances st !! i = None ∧ pools st !! i = None ∧ vaults st !! i = None ∧
     ∃ v, objects st' !! i = Object.map_meta (λ m, set_version m v) <$> objects st !! i).
Proof.
  intros Hfit Ham Hinv Hsync E Hc.
  assert (¬ Exists bad_schema (actions plan)) as Hbad
    by (intros Hbad; by rewrite (bad_panics plan goal dps epoch st Hfit Hbad) in E).
  destruct (settle_runs plan goal dps epoch st Hfit Ham Hbad) as (s & r' & E' & _ & Hr).
  rewrite E in E'. injection E' as <- <-. destruct Hr as [(_ & _ & ->)|(_ & Ec & ->)].
  { split_and!; [done..|]. by left. }
  assert (cx_class r = FullRevert) as ->.
  { destruct Hc as [?|Hc]; [done|]. exfalso. rewrite Hc in Ec. unfold class_of in Ec. by repeat case_match. }
  split_and!; [| | |intros i; by apply revert_objects];
    unfold crx_store; rewrite decide_True by done; by rewrite restored.
Qed.
End theorems.
