(* ===== verification/CrxBatch.v ===== *)
(** * CRX batches, previews, and what the layer does not prevent

    Batches of goals keep the store's invariant and give a result for each valid
    goal, unless a plan chosen for one has a schema id that panics.  Then what follows from the settlement's description: swaps
    never succeed, a downgraded transfer burns its debit and counts as a success,
    a plan of credits alone mints, the goal's object list and output bounds are
    ignored, and the preview predicts success for whatever passes the checks. *)

From stdpp Require Import gmap strings list sorting.
From S2P Require Import Prelude Errors Gas Objects Concrete Store FeeEnvelope Intents Sorting.
From S2P Require Import SolverTypes PlanValidation Numerals Crx CrxOrder CrxChecks CrxExec.
From S2P Require Import CrxSettle CrxAssembly CrxGrants CrxProps.

(** ** Concrete goals and plans *)

Definition sample_crx_bincode : CrxBincode := {|
  encode_packet g := [gp_packet_id g; gp_nonce g];
  encode_scope s := [sc_max_spend s];
  encode_node n := [node_id n] |}.

Definition sample_goal (policy : PartialFailurePolicy) : GoalPacket :=
  mkGoal 7 8 alice "move" default_goal_constraints
    (mkGoalPolicy RiskStandard policy true true SsStrict) 100 50 0 ∅.
Definition with_types (g : GoalPacket) (types : list ObjectType) : GoalPacket :=
  mkGoal (gp_packet_id g) (gp_intent_id g) (gp_sender g) (desired_outcome g)
    (mkGoalConstraints 0 300 None types [] [] 16) (gp_policy g) (gp_max_fee g) (gp_deadline_epoch g)
    (gp_nonce g) (gp_metadata g).
Definition crx_plan (acts : list PlanAction) : CandidatePlan :=
  mkCandidate 9 8 77 acts [] [] [] 1 5 5000 [] 0 0 None ∅.
Definition crx_start : ObjectStore := ObjectStore.sync_typed_to_canonical sample_store.
Lemma crx_start_inv : store_inv crx_start.
Proof. apply sync_inv, sample_store_inv. Qed.
Lemma crx_start_synced : synced crx_start.
Proof. apply sync_synced, sample_store_inv. Qed.

Definition act (t : PlanActionType) (i : id32) (amt : Z) : PlanAction := mkAction t i (Some amt) ∅.
Definition sample_moves : list PlanAction := [act PaDebitBalance 10 30; act PaCreditBalance 11 30].
Definition sample_settle :=
  @CRXSettlementEngine.settle sample_sha256 sample_hex sample_hex_bytes sample_hex_decode sample_crx_bincode.

(** Plans with amounts that are not negative, and without custom actions. *)
Lemma plain_amounts acts :
  forallb (λ a, match act_amount a with Some x => bool_decide (0 ≤ x) | None => true end) acts = true →
  amounts_fit acts.
Proof.
  rewrite forallb_forall. intros Hp. apply Forall_forall. intros a Ha x Hx.
  apply list_elem_of_In, Hp in Ha. rewrite Hx in Ha. by apply bool_decide_eq_true in Ha.
Qed.
Lemma plain_schema acts :
  forallb (λ a, match action_type a with PaCustom _ => false | _ => true end) acts = true →
  ¬ Exists bad_schema acts.
Proof.
  rewrite forallb_forall. intros Hp (a & Ha & name & s & Et & _)%Exists_exists.
  apply list_elem_of_In, Hp in Ha. by rewrite Et in Ha.
Qed.

(** The grant of a plan without domains. *)
Lemma plain_granted goal st epoch acts :
  epoch ≤ gp_deadline_epoch goal →
  forallb (λ a, bool_decide (action_domain a = None) &&
    match ObjectStore.get st (target_object a) with
    | Some o => bool_decide (Object.object_type o ∈ gc_allowed_object_types (gp_constraints goal))
    | None => true
    end) acts = true →
  Z.of_nat (size (written acts)) ≤ gc_max_objects_touched (gp_constraints goal) →
  plan_granted goal st epoch acts.
Proof.
  intros He Hall Hw. rewrite forallb_forall in Hall. split_and!; [done| |by right].
  apply Forall_forall. intros a Ha. apply list_elem_of_In, Hall in Ha.
  apply andb_true_iff in Ha as [Hd%bool_decide_eq_true Ho]. split; [|by rewrite Hd].
  intros o E. rewrite E in Ho. by apply bool_decide_eq_true in Ho.
Qed.

Ltac granted := apply plain_granted; [vm_compute; discriminate|vm_compute; reflexivity|vm_compute; discriminate].

Lemma crx_settle_spec_witness :
  ∃ st' r, sample_settle (crx_plan sample_moves) (sample_goal StrictAllOrNothing) [] 5 crx_start = (st', Ok r) ∧
    cx_class r = FullSuccess ∧ finality_class (finality r) = FcFinalized ∧
    st' = crx_store sample_moves crx_start FullSuccess.
Proof.
  destruct (@crx_settle_spec sample_sha256 sample_hex sample_hex_bytes sample_hex_decode sample_crx_bincode
    (crx_plan sample_moves) (sample_goal StrictAllOrNothing) [] 5 crx_start)
    as [[Hb _]|(st' & r & E & Hf & Hr)].
  - reflexivity.
  - apply plain_amounts. reflexivity.
  - exfalso. revert Hb. apply plain_schema. reflexivity.
  - exists st', r. split; [exact E|]. destruct Hr as [(Hn & _ & _)|(_ & Hc & Hs)].
    + exfalso. apply Hn. granted.
    + assert (cx_class r = FullSuccess) as Ec by (rewrite Hc; vm_compute; reflexivity).
      rewrite Ec in Hf, Hs. split_and!; [exact Ec|rewrite Hf; reflexivity|exact Hs].
Defined.

(** A debit, then a credit of an object that is no balance. *)
Definition broken_moves : list PlanAction := [act PaDebitBalance 10 30; act PaCreditBalance 99 30].

Lemma crx_revert_restores_witness :
  ∃ st' r, sample_settle (crx_plan broken_moves) (sample_goal StrictAllOrNothing) [] 5 crx_start = (st', Ok r) ∧
    cx_class r = FullRevert ∧ balances st' = balances crx_start.
Proof.
  destruct (sample_settle (crx_plan broken_moves) (sample_goal StrictAllOrNothing) [] 5 crx_start)
    as [st' [r|e|]] eqn:E; [|vm_compute in E; discriminate E..].
  assert (cx_class r = FullRevert) as Hc by (vm_compute in E; injection E as _ <-; reflexivity).
  exists st', r. split_and!; [reflexivity|exact Hc|].
  apply (@crx_revert_restores sample_sha256 sample_hex sample_hex_bytes sample_hex_decode sample_crx_bincode
    (crx_plan broken_moves) (sample_goal StrictAllOrNothing) [] 5 crx_start st' r).
  - reflexivity.
  - apply plain_amounts. reflexivity.
  - apply crx_start_inv.
  - apply crx_start_synced.
  - exact E.
  - left. exact Hc.
Defined.

(** ** Batches of goals *)

(** A selection among valid plans finds one of them. *)
Lemma selects_some valid policy :
  valid ≠ [] → ∃ i x, WinningPlanSelector.select valid policy = Ok i ∧ valid !! i = Some x.
Proof.
  intros Hne. unfold WinningPlanSelector.select. rewrite decide_False by done.
  assert (PlanRanker.rank valid policy ≡ₚ seq 0 (length valid)) as Hp by apply sort_by_perm.
  destruct (PlanRanker.rank valid policy) as [|i l].
  - apply Permutation_length in Hp. rewrite length_seq in Hp. by destruct valid.
  - cbn. assert (i ∈ seq 0 (length valid)) as Hi by (rewrite <- Hp; left).
    apply elem_of_seq in Hi. destruct (lookup_lt_is_Some_2 valid i) as [x Hx]; [lia|]. eauto.
Qed.

Section batches.
Context `{Sha256, Hex, HexBytes, HexDecode, CrxBincode}.
Import PoSeqCRXBridge.

(** Plans as the program can hold them: fewer than 2^31 actions, amounts of 128 bits
    without a sign. *)
Definition representable (p : CandidatePlan) : Prop :=
  plan_fits (actions p) ∧ amounts_fit (actions p).

Lemma settle_sound plan goal dps epoch st :
  representable plan → store_inv st → synced st →
  (Exists bad_schema (actions plan) ∧ CRXSettlementEngine.settle plan goal dps epoch st = (st, Panic)) ∨
  (¬ Exists bad_schema (actions plan) ∧
   ∃ st' r, CRXSettlementEngine.settle plan goal dps epoch st = (st', Ok r) ∧
     store_inv st' ∧ synced st').
Proof.
  intros (Hfit & Ham) Hinv Hsync.
  destruct (build_cases plan goal epoch Hfit) as [(? & ? & ? & _ & Hg%bad_no_graph)|[_ Hbad]].
  - right. split; [done|].
    destruct (settle_runs plan goal dps epoch st Hfit Ham Hg) as (st' & r & E & _ & Hr).
    exists st', r. split; [done|]. destruct Hr as [(_ & _ & ->)|(_ & _ & ->)]; [done|].
    by apply crx_store_sound.
  - left. split; [done|]. by apply bad_panics.
Qed.

(** The plan a goal is settled with is a candidate or the synthetic one, which does
    nothing. *)
Lemma chosen_plan b g candidates :
  ∃ p, choose_plan b g (valid_plans b g candidates) = Ok (Some p) ∧
    (p ∈ candidates ∨ p = build_synthetic_plan g).
Proof.
  unfold choose_plan. destruct (valid_plans b g candidates) as [|x l] eqn:Ev.
  - exists (build_synthetic_plan g). split; [done|by right].
  - destruct (selects_some (x :: l) (br_selection_policy b) ltac:(done)) as (i & [p ev] & -> & Hi).
    rewrite Hi. exists p. split; [done|]. left. rewrite <- Ev in Hi. apply list_elem_of_lookup_2 in Hi.
    apply list_elem_of_omap in Hi as (plan & Hin & E).
    cbv zeta in E. case_match; [|done]. by injection E as <- _.
Qed.

Definition goal_ok (g : GoalPacket) : Prop := GoalPacket.validate g = Ok tt.
#[export] Instance goal_ok_dec g : Decision (goal_ok g).
Proof. unfold goal_ok, GoalPacket.validate. repeat case_decide; (left; reflexivity) || (right; discriminate). Defined.

(** In the state [b] a valid goal [g] gets a candidate with a bad schema id. *)
Definition bad_choice (plans : gmap Z (list CandidatePlan)) (g : GoalPacket) (b : PoSeqCRXBridge) : Prop :=
  goal_ok g ∧ ∃ l p, plans !! gp_packet_id g = Some l ∧ p ∈ l ∧ Exists bad_schema (actions p) ∧
    choose_plan b g (valid_plans b g l) = Ok (Some p).

Lemma goal_sound plans g b :
  (∀ k l, plans !! k = Some l → Forall representable l) → store_inv (br_store b) → synced (br_store b) →
  (bad_choice plans g b ∧ process_goal plans g b = (b, Panic)) ∨
  (¬ bad_choice plans g b ∧ ∃ b' o,
    process_goal plans g b = (b', Ok o) ∧ store_inv (br_store b') ∧ synced (br_store b') ∧
    b' = set_br_store (br_store b') b ∧
    xr_goal_packet_id <$> option_list o = gp_packet_id <$> filter goal_ok [g] ∧
    Forall (λ r, xr_success r = is_success (cx_class (xr_record r))) (option_list o)).
Proof.
  intros Hp Hinv Hsync. unfold process_goal. rewrite filter_cons, filter_nil.
  destruct (decide (goal_ok g)) as [Hok|Hok].
  2: { right. split; [by intros [? _]|]. exists b, None. unfold goal_ok in Hok. split_and!; try done.
       - by destruct (GoalPacket.validate g) as [[]| |].
       - by destruct b. }
  pose proof Hok as Ev. unfold goal_ok in Ev. rewrite Ev.
  destruct (chosen_plan b g (default [] (plans !! gp_packet_id g))) as (p & Ec & Hin). rewrite Ec.
  assert (representable p) as Hrep.
  { destruct Hin as [Hin | ->]; [|by split; [|by constructor]].
    destruct (plans !! gp_packet_id g) as [l|] eqn:El; [|by apply elem_of_nil in Hin].
    by apply (proj1 (Forall_forall _ _) (Hp _ _ El)). }
  destruct (settle_sound p g (br_domain_policies b) (br_current_epoch b) (br_store b) Hrep Hinv Hsync)
    as [[Hbad ->]|(Hbad & st' & r & -> & ? & ?)].
  - left. split; [|by destruct b]. split; [done|].
    destruct (plans !! gp_packet_id g) as [l|] eqn:El;
      (destruct Hin as [Hin | ->]; [|cbn in Hbad; by inversion Hbad]); [|by apply elem_of_nil in Hin].
    exists l, p. by split_and!.
  - right. split.
    + intros (_ & l & q & El & _ & Hq & Eq). rewrite El in Ec. cbn [from_option] in Ec.
      unfold Datatypes.id in Ec. congruence.
    + eexists _, _. split; [reflexivity|]. split_and!; try done. cbn. by repeat constructor.
Qed.

Lemma goals_sound plans gs b :
  (∀ k l, plans !! k = Some l → Forall representable l) → store_inv (br_store b) → synced (br_store b) →
  ∃ gs1 gs2 b' rs, gs = gs1 ++ gs2 ∧ process_goals plans gs1 b = (b', Ok rs) ∧
    store_inv (br_store b') ∧ synced (br_store b') ∧ b' = set_br_store (br_store b') b ∧
    xr_goal_packet_id <$> rs = gp_packet_id <$> filter goal_ok gs1 ∧
    Forall (λ r, xr_success r = is_success (cx_class (xr_record r))) rs ∧
    ((gs2 = [] ∧ process_goals plans gs b = (b', Ok rs)) ∨
     (∃ g gs3, gs2 = g :: gs3 ∧ bad_choice plans g b' ∧ process_goals plans gs b = (b', Panic))).
Proof.
  intros Hp. revert b. induction gs as [|g gs IH]; intros b Hinv Hsync.
  { exists [], [], b, []. split_and!; try done; [by destruct b|by left]. }
  destruct (goal_sound plans g b Hp Hinv Hsync) as [[Hbad E]|(_ & b1 & o & E1 & Hi1 & Hs1 & Eb1 & Eg1 & Hok1)].
  { exists [], (g :: gs), b, []. split_and!; try done; [by destruct b|]. right. exists g, gs.
    split_and!; [done|done|]. cbn [process_goals]. unfold mbind, M_bind. by rewrite E. }
  destruct (IH b1 Hi1 Hs1) as (gs1 & gs2 & b2 & rs & -> & E2 & Hi2 & Hs2 & Eb2 & Eg2 & Hok2 & Hend).
  exists (g :: gs1), gs2, b2, (option_list o ++ rs). cbn [process_goals app]. split_and!; [done| |done|done| | | |].
  - by rewrite (Mbind_run _ _ _ _ _ E1), (Mbind_run _ _ _ _ _ E2).
  - rewrite Eb2, Eb1. by destruct b.
  - change (g :: gs1) with ([g] ++ gs1). by rewrite filter_app, !fmap_app, Eg1, Eg2.
  - by apply Forall_app.
  - rewrite (Mbind_run _ _ _ _ _ E1).
    destruct Hend as [[-> E]|(g' & gs3 & -> & Hbad & E)]; [left|right].
    + by rewrite (Mbind_run _ _ _ _ _ E).
    + exists g', gs3. split_and!; [done|done|]. unfold mbind, M_bind. by rewrite E.
Qed.

(** C33: A batch of goals whose candidates are representable, run on a well-formed
    and synced store, either goes through, or it panics at the first valid goal for
    which a candidate with a bad schema id is chosen (one whose eighth byte is
    inside a character), and there is such a goal then.  Up to there it keeps the
    store well formed and synced, leaves the rest of the bridge alone but for the
    epoch, and gives one result for each valid goal, in order, with the success its
    record says.  In particular a batch without bad schema ids goes through. *)
Theorem crx_batch_sound (batch : OrderedGoalBatch) (b : PoSeqCRXBridge) :
  let plans := gb_candidate_plans batch in
  (∀ k l, plans !! k = Some l → Forall representable l) →
  store_inv (br_store b) → synced (br_store b) →
  let b0 := mkBridge (br_store b) (br_registry b) (br_selection_policy b) (br_policy_evaluator b)
           (br_domain_policies b) (gb_epoch batch) in
  ∃ gs1 gs2 b' rs, goals batch = gs1 ++ gs2 ∧ process_goals plans gs1 b0 = (b', Ok rs) ∧
    store_inv (br_store b') ∧ synced (br_store b') ∧ b' = set_br_store (br_store b') b0 ∧
    xr_goal_packet_id <$> rs = gp_packet_id <$> filter goal_ok gs1 ∧
    Forall (λ r, xr_success r = is_success (cx_class (xr_record r))) rs ∧
    ((gs2 = [] ∧ process_batch batch b = (b', Ok rs)) ∨
     (∃ g gs3, gs2 = g :: gs3 ∧ bad_choice plans g b' ∧ process_batch batch b = (b', Panic))).
Proof. intros plans Hp Hinv Hsync b0. by apply goals_sound. Qed.
End batches.

Definition sample_goals : OrderedGoalBatch :=
  mkGoalBatch 1 5 1 [sample_goal StrictAllOrNothing; sample_goal DowngradeAndContinue]
    {[7 := [crx_plan sample_moves; crx_plan broken_moves]]}.
Definition sample_bridge : PoSeqCRXBridge :=
  mkBridge crx_start SolverRegistry.new BestScore PermissivePolicy [] 0.
Definition sample_crx_batch :=
  @PoSeqCRXBridge.process_batch sample_sha256 sample_hex sample_hex_bytes sample_hex_decode sample_crx_bincode.

Lemma crx_batch_sound_witness :
  ∃ b' rs, sample_crx_batch sample_goals sample_bridge = (b', Ok rs) ∧ store_inv (br_store b') ∧
    xr_goal_packet_id <$> rs = [7; 7].
Proof.
  destruct (@crx_batch_sound sample_sha256 sample_hex sample_hex_bytes sample_hex_decode sample_crx_bincode
    sample_goals sample_bridge) as (gs1 & gs2 & b' & rs & Eg & _ & Hi & _ & _ & Er & _ & Hend).
  - intros k l Hk. cbn [gb_candidate_plans sample_goals] in Hk. apply lookup_singleton_Some in Hk as [_ <-].
    repeat (apply Forall_cons; split; [split; [reflexivity|apply plain_amounts; reflexivity]|]).
    by apply Forall_nil.
  - apply crx_start_inv.
  - apply crx_start_synced.
  - destruct Hend as [[-> E]|(g & gs3 & _ & _ & E)].
    + rewrite app_nil_r in Eg. subst gs1. exists b', rs.
      split_and!; [exact E|exact Hi|rewrite Er; vm_compute; reflexivity].
    + exfalso. assert (match (sample_crx_batch sample_goals sample_bridge).2 with Panic => False | _ => True end)
        as Hn by (vm_compute; exact I).
      unfold sample_crx_batch in Hn. rewrite E in Hn. exact Hn.
Defined.

(** ** What follows *)

Section consequences.
Context `{Sha256, Hex, HexBytes, HexDecode, CrxBincode}.
Import CRXSettlementEngine.

Lemma run_until_each {A} (P : ObjectStore → Prop) f (l : list A) st x :
  (∀ y s, y ∈ l → P s → P (f y s).1) → P st → x ∈ l → (run_until f l st).2 = None →
  ∃ s, P s ∧ (f x s).2 = None.
Proof.
  revert st. induction l as [|y l IH]; intros st Hf Hst Hx; [by apply elem_of_nil in Hx|].
  cbn. pose proof (Hf y st ltac:(left) Hst) as Hy. destruct (f y st) as [s [e|]] eqn:E; [done|].
  apply elem_of_cons in Hx as [->|Hx].
  - intros _. exists st. by rewrite E.
  - apply (IH s); [|done|done]. intros z t Hz. apply Hf. by right.
Qed.

(** The node before a swap asks for a balance with the pool's id, and no object
    is both: a plan with a swap never fully succeeds. *)
Theorem swap_never_succeeds (plan : CandidatePlan) (goal : GoalPacket) (dps : list DomainFinalityPolicy)
    (epoch : Z) (st st' : ObjectStore) (r : CRXSettlementRecord) (a : PlanAction) :
  plan_fits (actions plan) → amounts_fit (actions plan) → store_inv st →
  a ∈ actions plan → action_type a = PaSwapPoolAmounts → is_Some (pools st !! target_object a) →
  settle plan goal dps epoch st = (st', Ok r) → cx_class r ≠ FullSuccess.
Proof.
  intros Hfit Ham Hinv Ha Et Hpool E Hc.
  assert (¬ Exists bad_schema (actions plan)) as Hbad
    by (intros Hbad; by rewrite (bad_panics plan goal dps epoch st Hfit Hbad) in E).
  destruct (settle_runs plan goal dps epoch st Hfit Ham Hbad) as (s & r' & E' & _ & Hr).
  rewrite E in E'. injection E' as <- <-. destruct Hr as [(_ & Hc' & _)|(_ & Hc' & _)]; [congruence|].
  rewrite Hc in Hc'. destruct (run_actions (actions plan) st).2 as [e|] eqn:En.
  { unfold class_of in Hc'. by repeat case_match. }
  destruct (run_until_each (frame (target_object <$> actions plan) (bumped (actions plan)) st)
    run_action (actions plan) st a) as (s & HF & Hs); [by intros; apply frame_action|apply frame_refl|done|done|].
  assert (balances st !! target_object a = None) as Hb.
  { apply eq_None_not_Some. intros Hb. apply (inv_overlays_disjoint st (target_object a) Hinv) in Hb as [Hp _].
    destruct Hpool as [p Hpool]. congruence. }
  assert (balances s !! target_object a = None) as Hb'.
  { apply eq_None_not_Some. rewrite (fr_balances_dom _ _ _ _ HF). by apply eq_None_not_Some. }
  unfold run_action in Hs. rewrite Et in Hs. unfold BranchAwareExecutor.check_balance, ObjectStore.get_balance_by_id in Hs.
  by rewrite Hb' in Hs.
Qed.

(** Under a policy that downgrades, a transfer whose credit fails keeps its debit:
    the settlement is final, counts as a success, and the amount is gone. *)
Theorem downgraded_transfer_burns (plan : CandidatePlan) (goal : GoalPacket)
    (dps : list DomainFinalityPolicy) (epoch : Z) (st : ObjectStore) (i j amt : Z) (b : BalanceObject) :
  actions plan = [act PaDebitBalance i amt; act PaCreditBalance j amt] →
  partial_failure_policy (gp_policy goal) ∈ [AllowBranchDowngrade; DowngradeAndContinue] →
  settlement_strictness (gp_policy goal) ≠ SsProvisional →
  plan_granted goal st epoch (actions plan) →
  balances st !! i = Some b → balances st !! j = None →
  0 ≤ amt ≤ BalanceObject.available b → 0 ≤ locked_amount b ≤ amount b →
  ∃ st' r, settle plan goal dps epoch st = (st', Ok r) ∧
    finality_class (finality r) = FcFinalizedWithDowngrade ∧
    PoSeqCRXBridge.is_success (cx_class r) = true ∧
    balances st' = <[i := set_amount b (amount b - amt)]> (balances st).
Proof.
  intros Ep Hpol Hstr Hgr Hb Hj Hamt Hl.
  assert (¬ Exists bad_schema (actions plan)) as Hbad by (rewrite Ep; apply plain_schema; reflexivity).
  destruct (settle_runs plan goal dps epoch st) as (st' & r & E & Hf & Hr); [| |done|].
  { rewrite Ep. unfold plan_fits. cbn. lia. }
  { rewrite Ep. unfold amounts_fit. rewrite !Forall_cons, Forall_nil. cbn. split_and!; naive_solver lia. }
  exists st', r. split; [done|]. destruct Hr as [(Hn & _)|(_ & Hc & Hs)]; [done|].
  assert (i ≠ j) as Hij by congruence.
  assert (run_actions (actions plan) st =
    (ObjectStore.update_balance (λ _, set_amount b (amount b - amt)) i st, Some (ObjectNotFound j))) as Erun.
  { rewrite Ep. unfold run_actions. cbn [run_until run_action act action_type target_object act_amount default].
    unfold run_action. cbn [act action_type target_object act_amount from_option]. unfold Datatypes.id.
    unfold BranchAwareExecutor.check_balance, ObjectStore.get_balance_by_id. rewrite Hb.
    rewrite decide_False by lia. unfold BranchAwareExecutor.with_balance, ObjectStore.get_balance_by_id.
    rewrite Hb. unfold BranchAwareExecutor.mutate_balance.
    unfold BalanceObject.available in Hamt. rewrite decide_False by lia.
    unfold checked_sub. rewrite decide_True by (unfold sat_sub in Hamt; lia).
    cbn [balances ObjectStore.update_balance set_balances]. rewrite lookup_alter_ne by done. by rewrite Hj. }
  rewrite Erun in Hc. cbn [snd] in Hc.
  assert (cx_class r = SuccessWithDowngrade 0) as Ec.
  { rewrite Hc. apply elem_of_cons in Hpol as [-> | ->%list_elem_of_singleton]; done. }
  rewrite Ec in Hf, Hs |- *. split_and!; [rewrite Hf; unfold finality_of; by rewrite decide_False|done|].
  rewrite Hs. unfold crx_store. rewrite decide_False by done. rewrite Erun. cbn.
  apply map_eq. intros k. rewrite lookup_alter, lookup_insert. case_decide; [subst|done]. by rewrite Hb.
Qed.

(** A plan with a credit alone succeeds under every policy: nothing asks for a
    matching debit. *)
Theorem credit_alone_mints (plan : CandidatePlan) (goal : GoalPacket)
    (dps : list DomainFinalityPolicy) (epoch : Z) (st : ObjectStore) (i amt : Z) (b : BalanceObject) :
  actions plan = [act PaCreditBalance i amt] → plan_granted goal st epoch (actions plan) →
  balances st !! i = Some b → 0 ≤ amt →
  ∃ st' r, settle plan goal dps epoch st = (st', Ok r) ∧ cx_class r = FullSuccess ∧
    balances st' = <[i := set_amount b (sat_add 128 (amount b) amt)]> (balances st).
Proof.
  intros Ep Hgr Hb Hamt.
  assert (¬ Exists bad_schema (actions plan)) as Hbad by (rewrite Ep; apply plain_schema; reflexivity).
  destruct (settle_runs plan goal dps epoch st) as (st' & r & E & _ & Hr); [| |done|].
  { by rewrite Ep. }
  { rewrite Ep. unfold amounts_fit. rewrite !Forall_cons, Forall_nil. cbn. split_and!; naive_solver lia. }
  exists st', r. split; [done|]. destruct Hr as [(Hn & _)|(_ & Hc & Hs)]; [done|].
  assert (run_actions (actions plan) st =
    (ObjectStore.update_balance (λ _, set_amount b (sat_add 128 (amount b) amt)) i st, None)) as Erun.
  { rewrite Ep. unfold run_actions. cbn [run_until]. unfold run_action.
    cbn [act action_type target_object act_amount from_option]. unfold Datatypes.id.
    unfold BranchAwareExecutor.with_balance, ObjectStore.get_balance_by_id. by rewrite Hb. }
  rewrite Erun in Hc. cbn in Hc. split; [done|]. rewrite Hc in Hs. rewrite Hs. unfold crx_store.
  rewrite decide_False by done. rewrite Erun. cbn.
  apply map_eq. intros k. rewrite lookup_alter, lookup_insert. case_decide; [subst|done]. by rewrite Hb.
Qed.

(** The goal's object list, output bound and slippage bound reach nothing. *)
Definition with_bounds (goal : GoalPacket) (objs : option (list id32)) (min_out slippage : Z) : GoalPacket :=
  let gc := gp_constraints goal in
  mkGoal (gp_packet_id goal) (gp_intent_id goal) (gp_sender goal) (desired_outcome goal)
    (mkGoalConstraints min_out slippage objs (gc_allowed_object_types gc) (gc_allowed_domains gc)
       (gc_forbidden_domains gc) (gc_max_objects_touched gc))
    (gp_policy goal) (gp_max_fee goal) (gp_deadline_epoch goal) (gp_nonce goal) (gp_metadata goal).
Theorem goal_bounds_ignored (plan : CandidatePlan) (goal : GoalPacket) (dps : list DomainFinalityPolicy)
    (epoch : Z) (st : ObjectStore) (objs : option (list id32)) (min_out slippage : Z) :
  settle plan (with_bounds goal objs min_out slippage) dps epoch st = settle plan goal dps epoch st.
Proof. reflexivity. Qed.

(** The preview and the settlement agree on rejections and on the gas of what is
    not rejected; everything else the preview calls a full success. *)
Theorem simulation_optimistic (plan : CandidatePlan) (goal : GoalPacket) (dps : list DomainFinalityPolicy)
    (epoch : Z) (st st' : ObjectStore) (r : CRXSettlementRecord) :
  plan_fits (actions plan) → settle plan goal dps epoch st = (st', Ok r) →
  ∃ s, CRXSimulator.simulate plan goal st dps epoch = Ok s ∧
    ((cx_class r = ScRejected ∧ predicted_settlement_class s = ScRejected) ∨
     (cx_class r ≠ ScRejected ∧ predicted_settlement_class s = FullSuccess ∧
      estimated_gas s = cx_gas_used r)).
Proof.
  intros Hfit. unfold settle, CRXSimulator.simulate.
  destruct (build_cases plan goal epoch Hfit) as [(g & groups & tail & -> & Hg)|[-> _]]; [|done].
  set (c := RightsSynthesizer.synthesize g goal (cp_solver_id plan) epoch).
  destruct (negb (all_passed (RightsValidationEngine.validate g c st epoch (cp_solver_id plan))) ||
    negb (is_causally_valid (CausalValidityEngine.validate g c goal))) eqn:Ev.
  - intros [= <- <-]. eexists. split; [reflexivity|]. left. done.
  - unfold execute_and_classify. destruct (graph_executes Hg (cp_solver_id plan) epoch st) as [_ E2].
    fold c in E2. destruct (BranchAwareExecutor.execute g c goal st) as [s [class results]].
    cbn [fst snd] in E2. intros [= <- <-]. eexists. split; [reflexivity|]. right.
    split_and!; [|done|done]. cbn. rewrite E2. unfold class_of. by repeat case_match.
Qed.
End consequences.

(** ** Witnesses *)

Lemma downgraded_transfer_burns_witness :
  ∃ st' r, sample_settle (crx_plan broken_moves) (sample_goal AllowBranchDowngrade) [] 5 crx_start = (st', Ok r) ∧
    PoSeqCRXBridge.is_success (cx_class r) = true ∧
    amount <$> (balances st' !! 10) = Some 970.
Proof.
  destruct (@downgraded_transfer_burns sample_sha256 sample_hex sample_hex_bytes sample_hex_decode
    sample_crx_bincode (crx_plan broken_moves) (sample_goal AllowBranchDowngrade) [] 5 crx_start 10 99 30 bal_alice5)
    as (st' & r & E & _ & Hs & Hb).
  - reflexivity.
  - cbn. left.
  - discriminate.
  - granted.
  - vm_compute. reflexivity.
  - vm_compute. reflexivity.
  - vm_compute. split; discriminate.
  - vm_compute. split; discriminate.
  - exists st', r. split_and!; [exact E|exact Hs|]. rewrite Hb. vm_compute. reflexivity.
Defined.

Lemma credit_alone_mints_witness :
  ∃ st' r, sample_settle (crx_plan [act PaCreditBalance 11 500]) (sample_goal StrictAllOrNothing) [] 5 crx_start =
    (st', Ok r) ∧ amount <$> (balances st' !! 11) = Some 550.
Proof.
  destruct (@credit_alone_mints sample_sha256 sample_hex sample_hex_bytes sample_hex_decode
    sample_crx_bincode (crx_plan [act PaCreditBalance 11 500]) (sample_goal StrictAllOrNothing) [] 5 crx_start
    11 500 bal_bob5) as (st' & r & E & _ & Hb).
  - reflexivity.
  - granted.
  - vm_compute. reflexivity.
  - lia.
  - exists st', r. split; [exact E|]. rewrite Hb. vm_compute. reflexivity.
Defined.

Lemma swap_never_succeeds_witness :
  ∃ st' r, sample_settle (crx_plan [act PaSwapPoolAmounts 20 5]) (with_types (sample_goal StrictAllOrNothing)
    [TLiquidityPool]) [] 5 crx_start = (st', Ok r) ∧ cx_class r ≠ FullSuccess.
Proof.
  destruct (sample_settle (crx_plan [act PaSwapPoolAmounts 20 5]) (with_types (sample_goal StrictAllOrNothing)
    [TLiquidityPool]) [] 5 crx_start) as [st' [r|e|]] eqn:E; [|vm_compute in E; discriminate E..].
  exists st', r. split; [reflexivity|].
  apply (@swap_never_succeeds sample_sha256 sample_hex sample_hex_bytes sample_hex_decode sample_crx_bincode
    (crx_plan [act PaSwapPoolAmounts 20 5]) (with_types (sample_goal StrictAllOrNothing) [TLiquidityPool]) []
    5 crx_start st' r (act PaSwapPoolAmounts 20 5)).
  - reflexivity.
  - apply plain_amounts. reflexivity.
  - apply crx_start_inv.
  - cbn. left.
  - reflexivity.
  - exists pool56. vm_compute. reflexivity.
  - exact E.
Defined.

Lemma simulation_optimistic_witness :
  ∃ s st' r, @CRXSimulator.simulate sample_sha256 sample_hex sample_hex_bytes sample_hex_decode sample_crx_bincode
      (crx_plan broken_moves) (sample_goal StrictAllOrNothing) crx_start [] 5 = Ok s ∧
    sample_settle (crx_plan broken_moves) (sample_goal StrictAllOrNothing) [] 5 crx_start = (st', Ok r) ∧
    predicted_settlement_class s = FullSuccess ∧ cx_class r = FullRevert.
Proof.
  destruct (sample_settle (crx_plan broken_moves) (sample_goal StrictAllOrNothing) [] 5 crx_start)
    as [st' [r|e|]] eqn:E; [|vm_compute in E; discriminate E..].
  assert (cx_class r = FullRevert) as Hc by (vm_compute in E; injection E as _ <-; reflexivity).
  destruct (@simulation_optimistic sample_sha256 sample_hex sample_hex_bytes sample_hex_decode sample_crx_bincode
    (crx_plan broken_moves) (sample_goal StrictAllOrNothing) [] 5 crx_start st' r eq_refl E)
    as (s & Hs & [(Hr & _)|(_ & Hp & _)]); [congruence|].
  exists s, st', r. split_and!; [exact Hs|reflexivity|exact Hp|exact Hc].
Defined.
