(* ===== verification/Safety.v ===== *)
(** * Safety incidents and what is done about them

    The vocabulary of the safety kernel (src/runtime/src/safety/): actions
    (actions.rs), incidents (incidents.rs), recovery hooks (recovery_hooks.rs), and
    the ledger of receipts (receipts.rs); then the scopes the rules look at:
    domain_profiles.rs, blast_radius.rs, solver_controls.rs. *)

From stdpp Require Import gmap strings list pretty.
From S2P Require Import Prelude Errors.

(** ** Actions *)

(* @src src/runtime/src/safety/actions.rs:4-9 QuarantineAction *)
Record QuarantineAction : Type := mkQuarantineAction {
  qn_object_ids : list id32;
  qn_reason : string;
  qn_reversible : bool;
  qn_governance_required_to_lift : bool }.

(* @src src/runtime/src/safety/actions.rs:20-25 PauseTarget *)
Inductive PauseTarget : Type :=
| PtDomain (d : string)
| PtObjectClass (c : string)
| PtExecutionClass (c : string)
| PtLiquidityVenue (i : id32).

(* @src src/runtime/src/safety/actions.rs:12-17 PauseAction *)
Record PauseAction : Type := mkPauseAction {
  ps_target : PauseTarget;
  ps_reason : string;
  temporary_until_epoch : option Z;
  ps_governance_required_to_lift : bool }.

(* @src src/runtime/src/safety/actions.rs:28-34 RateLimitAction *)
Record RateLimitAction : Type := mkRateLimitAction {
  rl_target_domain : option string;
  rl_target_solver : option id32;
  max_mutations_per_epoch : Z;
  max_value_per_epoch : Z;
  rl_reason : string }.

(* @src src/runtime/src/safety/actions.rs:37-43 ExecutionRestrictionAction *)
Record ExecutionRestrictionAction : Type := mkRestriction {
  restrict_to_downgrade_only : bool;
  restrict_to_provisional_only : bool;
  blocked_intent_classes : list string;
  blocked_solver_ids : gset id32;
  er_reason : string }.

(* @src src/runtime/src/safety/actions.rs:46-51 EmergencyModeAction *)
Record EmergencyModeAction : Type := mkEmergency {
  activated : bool;
  em_reason : string;
  requires_governance_to_deactivate : bool }.

(* @src src/runtime/src/safety/actions.rs:54-64 SafetyAction *)
#[warnings="-register-all"] Inductive SafetyAction : Type :=
| NoAction
| LogOnly (s : string)
| Quarantine (q : QuarantineAction)
| Pause (p : PauseAction)
| RateLimit (r : RateLimitAction)
| SuspendSolver (solver : id32) (reason : string)
| ExecutionRestriction (r : ExecutionRestrictionAction)
| EmergencyMode (e : EmergencyModeAction)
| MultiAction (l : list SafetyAction).

Module SafetyAction.
(* @src src/runtime/src/safety/actions.rs:67-72 SafetyAction::is_scoped *)
Definition is_scoped (a : SafetyAction) : bool :=
  match a with EmergencyMode _ | MultiAction _ => false | _ => true end.

(* @src src/runtime/src/safety/actions.rs:74-82 SafetyAction::requires_governance *)
Fixpoint requires_governance (a : SafetyAction) : bool :=
  match a with
  | Quarantine q => qn_governance_required_to_lift q
  | Pause p => ps_governance_required_to_lift p
  | EmergencyMode _ => true
  | MultiAction l => existsb requires_governance l
  | _ => false
  end.
End SafetyAction.

(** ** Incidents *)

(* @src src/runtime/src/safety/incidents.rs:4-11 IncidentSeverity *)
Inductive IncidentSeverity : Type := SvInfo | SvLow | SvMedium | SvHigh | SvCritical | SvEmergency.
#[export] Instance IncidentSeverity_eq_dec : EqDecision IncidentSeverity.
Proof. solve_decision. Defined.
(** The derived [Ord]: the order of the variants. *)
Definition severity_rank (s : IncidentSeverity) : Z :=
  match s with SvInfo => 0 | SvLow => 1 | SvMedium => 2 | SvHigh => 3 | SvCritical => 4 | SvEmergency => 5 end.
Definition severity_cmp (a b : IncidentSeverity) : comparison := severity_rank a ?= severity_rank b.

(* @src src/runtime/src/safety/incidents.rs:14-30 IncidentType *)
Inductive IncidentType : Type :=
| ItAbnormalOutflow | UnauthorizedDomainAccess | RightsScopeBreach | CausalValidityBreach
| OracleCorruptionIndicator | SolverMisconduct | LiquidityPoolInstability
| GovernanceSensitiveObjectMisuse | RepeatedBranchQuarantine | AbnormalMutationVelocity
| CrossDomainBlastRadiusEscalation | RepeatedRightsViolation | UnauthorizedCapabilityUse
| ExcessiveObjectVersionChurn | PolicyRuleViolation.
#[export] Instance IncidentType_eq_dec : EqDecision IncidentType.
Proof. solve_decision. Defined.
(** The derived [Debug] text. *)
Definition debug_incident_type (t : IncidentType) : string :=
  match t with
  | ItAbnormalOutflow => "AbnormalOutflow"
  | UnauthorizedDomainAccess => "UnauthorizedDomainAccess"
  | RightsScopeBreach => "RightsScopeBreach"
  | CausalValidityBreach => "CausalValidityBreach"
  | OracleCorruptionIndicator => "OracleCorruptionIndicator"
  | SolverMisconduct => "SolverMisconduct"
  | LiquidityPoolInstability => "LiquidityPoolInstability"
  | GovernanceSensitiveObjectMisuse => "GovernanceSensitiveObjectMisuse"
  | RepeatedBranchQuarantine => "RepeatedBranchQuarantine"
  | AbnormalMutationVelocity => "AbnormalMutationVelocity"
  | CrossDomainBlastRadiusEscalation => "CrossDomainBlastRadiusEscalation"
  | RepeatedRightsViolation => "RepeatedRightsViolation"
  | UnauthorizedCapabilityUse => "UnauthorizedCapabilityUse"
  | ExcessiveObjectVersionChurn => "ExcessiveObjectVersionChurn"
  | PolicyRuleViolation => "PolicyRuleViolation"
  end.

(* @src src/runtime/src/safety/incidents.rs:33-42 IncidentScope *)
Inductive IncidentScope : Type :=
| ScSingleObject (i : id32)
| ScObjectClass (c : string)
| ScSolver (i : id32)
| ScDomain (d : string)
| ScMultiDomain (l : list string)
| ScExecutionClass (c : string)
| ScLiquidityVenue (i : id32)
| ScFullChain.

(* @src src/runtime/src/safety/incidents.rs:45-49 AffectedDomainSet *)
Record AffectedDomainSet : Type := mkAffected {
  af_domains : gset string;
  af_object_ids : gset id32;
  af_solver_ids : gset id32 }.
Module AffectedDomainSet.
(* @src src/runtime/src/safety/incidents.rs:52-58 AffectedDomainSet::new *)
Definition new : AffectedDomainSet := mkAffected ∅ ∅ ∅.
End AffectedDomainSet.

(* @src src/runtime/src/safety/incidents.rs:62-78 SafetyIncident *)
Record SafetyIncident : Type := mkIncident {
  incident_id : id32;
  incident_type : IncidentType;
  severity : IncidentSeverity;
  scope : IncidentScope;
  affected : AffectedDomainSet;
  triggering_rule : string;
  in_detail : string;
  in_goal_packet_id : option id32;
  in_plan_id : option id32;
  in_solver_id : option id32;
  in_capsule_hash : option id32;
  in_epoch : Z;
  in_reversible : bool;
  in_requires_governance : bool;
  in_metadata : gmap string string }.

(* @src src/runtime/src/safety/incidents.rs:81-85 SafetyClassificationResult *)
Record SafetyClassificationResult : Type := mkClassification {
  cl_incident : SafetyIncident;
  recommended_action : SafetyAction;
  escalation_required : bool }.

Module SafetyIncident.
(* @src src/runtime/src/safety/incidents.rs:88-106 SafetyIncident::compute_id *)
Definition compute_id `{Sha256, Hex} (t : IncidentType) (epoch : Z) (solver_id : option id32) : id32 :=
  sha256 (string_bytes (debug_incident_type t +:+ ":" +:+ pretty epoch +:+ ":" +:+
    from_option hex_encode EmptyString solver_id)).
End SafetyIncident.

(** ** Recovery hooks *)

(* @src src/runtime/src/safety/recovery_hooks.rs:13-17 EscalationUrgency *)
Inductive EscalationUrgency : Type := Routine | Expedited | EuEmergency.

(* @src src/runtime/src/safety/recovery_hooks.rs:4-10 GovernanceEscalationMarker *)
Record GovernanceEscalationMarker : Type := mkMarker {
  gm_incident_id : id32;
  gm_reason : string;
  required_action_type : string;
  urgency : EscalationUrgency;
  gm_epoch : Z }.

(* @src src/runtime/src/safety/recovery_hooks.rs:30-35 ProposalReferenceStatus *)
Inductive ProposalReferenceStatus : Type := PrPending | PrApproved | PrRejected | PrExecuted.

(* @src src/runtime/src/safety/recovery_hooks.rs:20-27 RecoveryProposalReference *)
Record RecoveryProposalReference : Type := mkProposalRef {
  rp_incident_id : id32;
  proposal_type : string;
  rp_target_id : option id32;
  rp_target_domain : option string;
  proposed_at_epoch : Z;
  rp_status : ProposalReferenceStatus }.

(* @src src/runtime/src/safety/recovery_hooks.rs:38-44 PostIncidentReviewRecord *)
Record PostIncidentReviewRecord : Type := mkReview {
  pr_incident_id : id32;
  review_epoch : Z;
  findings : string;
  policy_changes_recommended : list string;
  resolved : bool }.

(** The trait: a name and a function of the incident. *)
(* @src src/runtime/src/safety/recovery_hooks.rs:48-53 RecoveryHook *)
Record RecoveryHook : Type := mkHook {
  hook_name : string;
  on_incident : SafetyIncident → option GovernanceEscalationMarker }.

(* @src src/runtime/src/safety/recovery_hooks.rs:54-64 NoOpRecoveryHook *)
Definition NoOpRecoveryHook : RecoveryHook := mkHook "noop" (λ _, None).
(* @src src/runtime/src/safety/recovery_hooks.rs:66-87 CriticalEscalationHook *)
Definition CriticalEscalationHook : RecoveryHook := mkHook "critical_escalation" (λ i,
  if decide (severity_rank SvCritical ≤ severity_rank (severity i))
  then Some (mkMarker (incident_id i) (in_detail i) "governance_review" EuEmergency (in_epoch i))
  else None).

(** ** Receipts and the ledger *)

(** [applied_to] is the [Debug] text of the scope in the code; here the scope. *)
(* @src src/runtime/src/safety/receipts.rs:6-12 ContainmentActionRecord *)
Record ContainmentActionRecord : Type := mkActionRecord {
  ar_action : SafetyAction;
  applied_at_epoch : Z;
  applied_to : IncidentScope;
  ar_success : bool;
  ar_error : option string }.

(* @src src/runtime/src/safety/receipts.rs:24-29 RecoveryStatus *)
Inductive RecoveryStatus : Type := RsPending | InGovernanceReview | RsResolved | RsUnresolved.

(* @src src/runtime/src/safety/receipts.rs:15-21 SafetyRecoveryPlaceholder *)
Record SafetyRecoveryPlaceholder : Type := mkRecovery {
  ry_incident_id : id32;
  recovery_status : RecoveryStatus;
  governance_proposal_id : option Z;
  recovery_epoch : option Z;
  ry_notes : string }.

(* @src src/runtime/src/safety/receipts.rs:32-39 SafetyReceipt *)
Record SafetyReceipt : Type := mkSafetyReceipt {
  receipt_id : id32;
  sr_incident : SafetyIncident;
  containment_actions : list ContainmentActionRecord;
  recovery : SafetyRecoveryPlaceholder;
  sr_epoch : Z;
  receipt_hash : id32 }.

Module SafetyReceipt.
(* @src src/runtime/src/safety/receipts.rs:42-49 SafetyReceipt::compute_hash *)
Definition compute_hash `{Sha256} (r : SafetyReceipt) : id32 :=
  sha256 (string_bytes (debug_bytes32 (incident_id (sr_incident r)) +:+ ":" +:+ pretty (sr_epoch r))).
Definition set_hash (h : id32) (r : SafetyReceipt) : SafetyReceipt :=
  mkSafetyReceipt (receipt_id r) (sr_incident r) (containment_actions r) (recovery r) (sr_epoch r) h.
End SafetyReceipt.

(* @src src/runtime/src/safety/receipts.rs:53-57 IncidentLedgerEntry *)
Record IncidentLedgerEntry : Type := mkLedgerEntry {
  sequence : Z;
  le_receipt : SafetyReceipt;
  le_batch_id : option id32 }.

(* @src src/runtime/src/safety/receipts.rs:59-63 IncidentLedger *)
Record IncidentLedger : Type := mkIncidentLedger {
  le_entries : list IncidentLedgerEntry;
  max_entries : Z;
  next_sequence : Z }.

Module IncidentLedger.
(* @src src/runtime/src/safety/receipts.rs:66-72 IncidentLedger::new *)
Definition new (max : Z) : IncidentLedger := mkIncidentLedger [] max 0.

(* @src src/runtime/src/safety/receipts.rs:75-97 IncidentLedger::append *)
Definition append `{Sha256} (r : SafetyReceipt) (batch_id : option id32)
  : M IncidentLedger RuntimeError Z := λ l,
  if decide (0 < max_entries l ∧ max_entries l ≤ Z.of_nat (length (le_entries l)))
  then (l, Err IncidentLedgerFull)
  else
    let r := SafetyReceipt.set_hash (SafetyReceipt.compute_hash r) r in
    let seq := next_sequence l in
    (mkIncidentLedger (le_entries l ++ [mkLedgerEntry seq r batch_id]) (max_entries l)
       (wrapu 64 (next_sequence l + 1)), Ok seq).

(* @src src/runtime/src/safety/receipts.rs:99-104 IncidentLedger::get_by_severity *)
Definition get_by_severity (min : IncidentSeverity) (l : IncidentLedger) : list IncidentLedgerEntry :=
  filter (λ e, severity_rank min ≤ severity_rank (severity (sr_incident (le_receipt e)))) (le_entries l).
(* @src src/runtime/src/safety/receipts.rs:106-117 IncidentLedger::get_by_solver *)
Definition get_by_solver (solver : id32) (l : IncidentLedger) : list IncidentLedgerEntry :=
  filter (λ e, in_solver_id (sr_incident (le_receipt e)) = Some solver) (le_entries l).
(* @src src/runtime/src/safety/receipts.rs:119-121 IncidentLedger::len *)
Definition len (l : IncidentLedger) : nat := length (le_entries l).
(* @src src/runtime/src/safety/receipts.rs:123-125 IncidentLedger::latest *)
Definition latest (l : IncidentLedger) : option IncidentLedgerEntry := last (le_entries l).
End IncidentLedger.

(** * Domains, blast radius, and solvers under control

    The risk profiles of domains (src/runtime/src/safety/domain_profiles.rs), how far
    an incident reaches (blast_radius.rs), and the restrictions on solvers
    (solver_controls.rs).  The theorems say what an assessment contains, that its
    scope is not monotone in the severity, and what happens to a ban. *)

(** ** Domain profiles *)

(* @src src/runtime/src/safety/domain_profiles.rs:4-9 DomainCriticality *)
Inductive DomainCriticality : Type := DcLow | DcStandard | DcHigh | DcCritical.

(* @src src/runtime/src/safety/domain_profiles.rs:12-17 RecoveryMode *)
Inductive RecoveryMode : Type :=
| AutomaticAfterEpochs (n : Z)
| GovernanceVote
| MultiSigRequired
| ManualReview.

(* @src src/runtime/src/safety/domain_profiles.rs:20-32 DomainRiskProfile *)
Record DomainRiskProfile : Type := mkProfile {
  dp_domain : string;
  criticality : DomainCriticality;
  pause_sensitivity : bool;
  quarantine_eligible : bool;
  governance_escalation_required : bool;
  acceptable_downgrade_modes : list string;
  dp_max_mutations : Z;
  max_outflow_per_epoch : Z;
  oracle_dependent : bool;
  recovery_mode : RecoveryMode;
  dp_tags : gset string }.

Module DomainRiskProfile.
(* @src src/runtime/src/safety/domain_profiles.rs:35-191 DomainRiskProfile::for_domain *)
Definition for_domain (d : string) : DomainRiskProfile :=
  if decide (d = "treasury"%string) then
    mkProfile d DcCritical true true true [] 10 50000000 false GovernanceVote {["treasury"%string; "critical"%string]}
  else if decide (d = "governance"%string) then
    mkProfile d DcCritical false false true [] 5 0 false GovernanceVote {["governance"%string; "critical"%string]}
  else if decide (d = "dex_liquidity"%string) then
    mkProfile d DcHigh true true false ["partial"%string] 100 10000000 false (AutomaticAfterEpochs 5)
      {["dex"%string; "liquidity"%string]}
  else if decide (d = "lending"%string) then
    mkProfile d DcHigh true true false ["partial"%string] 50 5000000 true (AutomaticAfterEpochs 10)
      {["lending"%string]}
  else if decide (d = "bridge"%string) then
    mkProfile d DcCritical true true true [] 20 20000000 true MultiSigRequired
      {["bridge"%string; "critical"%string]}
  else if decide (d = "identity"%string) then
    mkProfile d DcStandard true true false ["partial"%string] 200 0 false (AutomaticAfterEpochs 3)
      {["identity"%string]}
  else if decide (d = "rewards"%string) then
    mkProfile d DcStandard true true false ["partial"%string] 500 1000000 false (AutomaticAfterEpochs 1)
      {["rewards"%string]}
  else if decide (d = "oracle"%string) then
    mkProfile d DcHigh true true false [] 30 0 true ManualReview {["oracle"%string]}
  else mkProfile d DcStandard true true false ["partial"%string] 0 0 false (AutomaticAfterEpochs 5) ∅.
End DomainRiskProfile.

(* @src src/runtime/src/safety/domain_profiles.rs:195-197 DomainSafetyPolicy *)
Record DomainSafetyPolicy : Type := mkDomainPolicy { profiles : gmap string DomainRiskProfile }.

Module DomainSafetyPolicy.
(* @src src/runtime/src/safety/domain_profiles.rs:200-204 DomainSafetyPolicy::new *)
Definition new : DomainSafetyPolicy := mkDomainPolicy ∅.
(* @src src/runtime/src/safety/domain_profiles.rs:206-222 DomainSafetyPolicy::with_defaults *)
Definition with_defaults : DomainSafetyPolicy :=
  mkDomainPolicy (foldl (λ m d, <[d := DomainRiskProfile.for_domain d]> m) ∅
    ["treasury"; "governance"; "dex_liquidity"; "lending"; "bridge"; "identity"; "rewards"; "oracle"]%string).
(* @src src/runtime/src/safety/domain_profiles.rs:224-226 DomainSafetyPolicy::get *)
Definition get (p : DomainSafetyPolicy) (d : string) : option DomainRiskProfile := profiles p !! d.
(* @src src/runtime/src/safety/domain_profiles.rs:228-233 DomainSafetyPolicy::is_pause_allowed *)
Definition is_pause_allowed (p : DomainSafetyPolicy) (d : string) : bool :=
  from_option pause_sensitivity true (profiles p !! d).
(* @src src/runtime/src/safety/domain_profiles.rs:235-240 DomainSafetyPolicy::requires_governance *)
Definition requires_governance (p : DomainSafetyPolicy) (d : string) : bool :=
  from_option governance_escalation_required false (profiles p !! d).
(* @src src/runtime/src/safety/domain_profiles.rs:242-247 DomainSafetyPolicy::max_outflow *)
Definition max_outflow (p : DomainSafetyPolicy) (d : string) : Z :=
  from_option max_outflow_per_epoch 0 (profiles p !! d).
End DomainSafetyPolicy.

(** ** Blast radius *)

(* @src src/runtime/src/safety/blast_radius.rs:18-25 ContainmentScope *)
Inductive ContainmentScope : Type := CsMinimal | CsScoped | CsDomain | CsMultiDomain | CsExecutionClass | CsGlobal.
#[export] Instance ContainmentScope_eq_dec : EqDecision ContainmentScope.
Proof. solve_decision. Defined.
Definition scope_rank (s : ContainmentScope) : Z :=
  match s with
  | CsMinimal => 0 | CsScoped => 1 | CsDomain => 2 | CsMultiDomain => 3 | CsExecutionClass => 4 | CsGlobal => 5
  end.
(** The derived [Debug] text. *)
Definition debug_scope (s : ContainmentScope) : string :=
  match s with
  | CsMinimal => "Minimal" | CsScoped => "Scoped" | CsDomain => "Domain" | CsMultiDomain => "MultiDomain"
  | CsExecutionClass => "ExecutionClass" | CsGlobal => "Global"
  end.

(* @src src/runtime/src/safety/blast_radius.rs:5-15 BlastRadiusAssessment *)
Record BlastRadiusAssessment : Type := mkAssessment {
  as_incident_id : id32;
  minimum_scope : ContainmentScope;
  recommended_scope : ContainmentScope;
  affected_domains : gset string;
  as_affected_objects : gset id32;
  affected_solvers : gset id32;
  cross_domain : bool;
  systemic_risk : bool;
  escalation_triggers : list string }.

(* @src src/runtime/src/safety/blast_radius.rs:28-33 ScopeResolutionPolicy *)
Record ScopeResolutionPolicy : Type := mkScopePolicy {
  prefer_minimal_scope : bool;
  max_scope_without_governance : ContainmentScope;
  cross_domain_threshold : Z;
  emergency_threshold : Z }.
(* @src src/runtime/src/safety/blast_radius.rs:35-44 ScopeResolutionPolicy *)
Definition default_scope_policy : ScopeResolutionPolicy := mkScopePolicy true CsDomain 2 4.

(* @src src/runtime/src/safety/blast_radius.rs:47-51 DomainContainmentMap *)
Record DomainContainmentMap : Type := mkContainmentMap {
  domain_to_objects : gmap string (gset id32);
  domain_to_solvers : gmap string (gset id32);
  domain_dependencies : gmap string (gset string) }.

Module BlastRadiusEngine.
(** What a map gives a domain, and what it gives a set of domains. *)
Definition at_domain {A} `{Countable A} (m : gmap string (gset A)) (d : string) : gset A := default ∅ (m !! d).
Definition at_domains {A} `{Countable A} (m : gmap string (gset A)) (s : gset string) : gset A :=
  ⋃ ((at_domain m) <$> elements s).

(* @src src/runtime/src/safety/blast_radius.rs:126-161 BlastRadiusEngine::scope_from_incident *)
Definition scope_from_incident (i : SafetyIncident) (count : Z) (p : ScopeResolutionPolicy)
  : ContainmentScope :=
  if decide (emergency_threshold p ≤ count) then CsGlobal
  else if decide (cross_domain_threshold p ≤ count) then CsMultiDomain
  else match severity i with
       | SvInfo | SvLow => CsMinimal
       | SvMedium => if decide (0 < count) then CsScoped else CsMinimal
       | SvHigh => if decide (0 < count) then CsDomain else CsScoped
       | SvCritical => CsMultiDomain
       | SvEmergency => CsGlobal
       end.

(** The loop over the incident's domains adds, for each, what the maps give it, its
    dependencies, and what the maps give those. *)
(* @src src/runtime/src/safety/blast_radius.rs:67-86 BlastRadiusEngine::assess *)
Definition expand (m : DomainContainmentMap) (acc : gset string * gset id32 * gset id32) (d : string)
  : gset string * gset id32 * gset id32 :=
  let '(ds, objs, solvers) := acc in
  let deps := at_domain (domain_dependencies m) d in
  (ds ∪ deps,
   objs ∪ at_domain (domain_to_objects m) d ∪ at_domains (domain_to_objects m) deps,
   solvers ∪ at_domain (domain_to_solvers m) d ∪ at_domains (domain_to_solvers m) deps).

(* @src src/runtime/src/safety/blast_radius.rs:56-124 BlastRadiusEngine::assess *)
Definition assess (i : SafetyIncident) (m : DomainContainmentMap) (p : ScopeResolutionPolicy)
  : BlastRadiusAssessment :=
  let a := affected i in
  let '(ds, objs, solvers) :=
    foldl (expand m) (af_domains a, af_object_ids a, af_solver_ids a) (elements (af_domains a)) in
  let count := Z.of_nat (size ds) in
  let cross := bool_decide (cross_domain_threshold p ≤ count) in
  let systemic := bool_decide (emergency_threshold p ≤ count) in
  let trigger name threshold :=
    name +:+ "=" +:+ pretty threshold +:+ " reached (" +:+ pretty count +:+ ")" in
  let minimum := scope_from_incident i count p in
  mkAssessment (incident_id i) minimum (if prefer_minimal_scope p then minimum else minimum)
    ds objs solvers cross systemic
    ((if cross then [trigger "cross_domain_threshold" (cross_domain_threshold p)] else []) ++
     (if systemic then [trigger "emergency_threshold" (emergency_threshold p)] else [])).
End BlastRadiusEngine.

(** ** Solver controls *)

(* @src src/runtime/src/safety/solver_controls.rs:5-12 SolverSafetyStatus *)
Inductive SolverSafetyStatus : Type :=
| SsNormal | SsMonitored | SsRateRestricted | SsDowngradeOnly | SsSuspended | SsBanned.
#[export] Instance SolverSafetyStatus_eq_dec : EqDecision SolverSafetyStatus.
Proof. solve_decision. Defined.
Definition status_rank (s : SolverSafetyStatus) : Z :=
  match s with
  | SsNormal => 0 | SsMonitored => 1 | SsRateRestricted => 2 | SsDowngradeOnly => 3 | SsSuspended => 4
  | SsBanned => 5
  end.

(* @src src/runtime/src/safety/solver_controls.rs:15-23 SolverRestrictionProfile *)
Record SolverRestrictionProfile : Type := mkRestrictionProfile {
  rs_solver_id : id32;
  rs_status : SolverSafetyStatus;
  rs_blocked_intent_classes : gset string;
  max_submissions_per_epoch : Z;
  require_stricter_policy : bool;
  suspension_until_epoch : option Z;
  ban_reason : option string }.

(* @src src/runtime/src/safety/solver_controls.rs:26-32 SolverIncidentRecord *)
Record SolverIncidentRecord : Type := mkSolverIncident {
  ir_solver_id : id32;
  ir_incident_type : IncidentType;
  ir_detail : string;
  ir_epoch : Z;
  ir_escalated : bool }.

(* @src src/runtime/src/safety/solver_controls.rs:35-50 SolverSafetyAction *)
Inductive SolverSafetyAction : Type :=
| SaMonitor (solver : id32)
| SaRateRestrict (solver : id32) (max_per_epoch : Z)
| SaDowngradeOnly (solver : id32)
| SaSuspend (solver : id32) (until_epoch : Z)
| SaBan (solver : id32) (reason : string).

(* @src src/runtime/src/safety/solver_controls.rs:52-55 SolverSafetyController *)
Record SolverSafetyController : Type := mkController {
  restrictions : gmap id32 SolverRestrictionProfile;
  incident_history : gmap id32 (list SolverIncidentRecord) }.

Module SolverSafetyController.
(* @src src/runtime/src/safety/solver_controls.rs:58-63 SolverSafetyController::new *)
Definition new : SolverSafetyController := mkController ∅ ∅.

(** [entry(id).or_insert_with(..)]: the profile, or a fresh one. *)
(* @src src/runtime/src/safety/solver_controls.rs:66-77 SolverSafetyController::apply_action *)
Definition profile_of (c : SolverSafetyController) (i : id32) : SolverRestrictionProfile :=
  default (mkRestrictionProfile i SsNormal ∅ 0 false None None) (restrictions c !! i).
Definition set_profile (i : id32) (p : SolverRestrictionProfile) (c : SolverSafetyController)
  : SolverSafetyController := mkController (<[i := p]> (restrictions c)) (incident_history c).

(** Each action rewrites the status, whatever it was; only [Monitor] looks at it. *)
(* @src src/runtime/src/safety/solver_controls.rs:65-158 SolverSafetyController::apply_action *)
Definition apply_action (a : SolverSafetyAction) (c : SolverSafetyController) : SolverSafetyController :=
  match a with
  | SaMonitor i =>
      let p := profile_of c i in
      set_profile i
        (if decide (rs_status p = SsNormal)
         then mkRestrictionProfile (rs_solver_id p) SsMonitored (rs_blocked_intent_classes p)
                (max_submissions_per_epoch p) (require_stricter_policy p) (suspension_until_epoch p)
                (ban_reason p)
         else p) c
  | SaRateRestrict i max =>
      let p := profile_of c i in
      set_profile i (mkRestrictionProfile (rs_solver_id p) SsRateRestricted (rs_blocked_intent_classes p)
        max (require_stricter_policy p) (suspension_until_epoch p) (ban_reason p)) c
  | SaDowngradeOnly i =>
      let p := profile_of c i in
      set_profile i (mkRestrictionProfile (rs_solver_id p) SsDowngradeOnly (rs_blocked_intent_classes p)
        (max_submissions_per_epoch p) (require_stricter_policy p) (suspension_until_epoch p)
        (ban_reason p)) c
  | SaSuspend i until =>
      let p := profile_of c i in
      set_profile i (mkRestrictionProfile (rs_solver_id p) SsSuspended (rs_blocked_intent_classes p)
        (max_submissions_per_epoch p) (require_stricter_policy p) (Some until) (ban_reason p)) c
  | SaBan i reason =>
      let p := profile_of c i in
      set_profile i (mkRestrictionProfile (rs_solver_id p) SsBanned (rs_blocked_intent_classes p)
        (max_submissions_per_epoch p) (require_stricter_policy p) (suspension_until_epoch p)
        (Some reason)) c
  end.

(* @src src/runtime/src/safety/solver_controls.rs:161-166 SolverSafetyController::is_solver_allowed *)
Definition is_solver_allowed (c : SolverSafetyController) (i : id32) : bool :=
  match restrictions c !! i with
  | Some p => bool_decide (status_rank (rs_status p) < status_rank SsSuspended)
  | None => true
  end.
(* @src src/runtime/src/safety/solver_controls.rs:169-174 SolverSafetyController::get_status *)
Definition get_status (c : SolverSafetyController) (i : id32) : SolverSafetyStatus :=
  from_option rs_status SsNormal (restrictions c !! i).
(* @src src/runtime/src/safety/solver_controls.rs:176-181 SolverSafetyController::record_incident *)
Definition record_incident (r : SolverIncidentRecord) (c : SolverSafetyController) : SolverSafetyController :=
  mkController (restrictions c)
    (<[ir_solver_id r := default [] (incident_history c !! ir_solver_id r) ++ [r]]> (incident_history c)).
(* @src src/runtime/src/safety/solver_controls.rs:183-199 SolverSafetyController::incident_count *)
Definition incident_count (c : SolverSafetyController) (i : id32) (window_epochs current_epoch : Z) : Z :=
  let min_epoch := sat_sub current_epoch window_epochs in
  match incident_history c !! i with
  | Some l => Z.of_nat (length (filter (λ r, min_epoch ≤ ir_epoch r) l))
  | None => 0
  end.
(* @src src/runtime/src/safety/solver_controls.rs:201-203 SolverSafetyController::get_restriction *)
Definition get_restriction (c : SolverSafetyController) (i : id32) : option SolverRestrictionProfile :=
  restrictions c !! i.
End SolverSafetyController.
