(* ===== verification/SafetyRules.v ===== *)
(** * The rules of the safety kernel, and the kernel

    Policies and the engine that evaluates them against the outcome of a settlement
    (src/runtime/src/safety/policies.rs), and the kernel that turns the most severe
    rule that fired into an incident, an action and a receipt (kernel.rs). *)

From stdpp Require Import gmap strings list pretty.
From S2P Require Import Prelude Errors Sorting Numerals Objects CrxExec CrxSettle Safety.

(** ** What is evaluated *)

(* @src src/runtime/src/safety/kernel.rs:20-23 GovernanceProof *)
Record GovernanceProof : Type := mkGovProof { is_valid : bool; proposal_id : option Z }.

(* @src src/runtime/src/safety/kernel.rs:27-47 SafetyEvaluationContext *)
Record SafetyEvaluationContext : Type := mkContext {
  sx_epoch : Z;
  sx_batch_id : option id32;
  sx_goal_packet_id : option id32;
  sx_plan_id : option id32;
  sx_solver_id : option id32;
  sx_capsule_hash : option id32;
  sx_finality_class : FinalityClass;
  sx_affected_objects : list id32;
  sx_affected_domains : list string;
  rights_violations_count : Z;
  causal_violations_count : Z;
  branch_quarantine_count : Z;
  branch_downgrade_count : Z;
  total_outflow : Z;
  mutation_count : Z;
  domain_mutation_counts : gmap string Z;
  pool_ids : list id32;
  is_governance_sensitive : bool;
  sx_metadata : gmap string string }.

Module SafetyEvaluationContext.
Definition count_if {A} (f : A → bool) (l : list A) : Z := Z.of_nat (length (filter (λ x, f x = true) l)).

(* @src src/runtime/src/safety/kernel.rs:51-87 SafetyEvaluationContext::from_crx_record *)
Definition from_crx_record (r : CRXSettlementRecord) (batch_id : option id32) (epoch : Z)
  : SafetyEvaluationContext :=
  mkContext epoch batch_id (Some (cx_goal_packet_id r)) (Some (cx_plan_id r)) (Some (cx_solver_id r))
    (Some (cp_capsule_hash (capsule_receipt r))) (finality_class (finality r)) (affected_objects r) []
    (violations_count (causal_summary r)) (if causal_validity (causal_summary r) then 0 else 1)
    (count_if (λ b, bool_decide (is_Some (quarantine b))) (ge_branch_results (graph_receipt r)))
    (count_if (λ b, bool_decide (is_Some (downgrade b))) (ge_branch_results (graph_receipt r)))
    0 (executed_nodes (graph_receipt r)) ∅ [] false ∅.

(* @src src/runtime/src/safety/kernel.rs:89-111 SafetyEvaluationContext::clean *)
Definition clean (epoch : Z) : SafetyEvaluationContext :=
  mkContext epoch None None None None None FcFinalized [] [] 0 0 0 0 0 0 ∅ [] false ∅.
End SafetyEvaluationContext.

(** ** Policies *)

(* @src src/runtime/src/safety/policies.rs:9-12 RuleThreshold *)
Record RuleThreshold : Type := mkThreshold { rt_name : string; rt_value : Z }.

(* @src src/runtime/src/safety/policies.rs:15-54 RuleCondition *)
Inductive RuleCondition : Type :=
| OutflowExceedsThreshold (threshold : Z)
| MutationCountExceedsThreshold (domain : string) (threshold : Z)
| RepeatedRightsViolations (solver_id : id32) (count window_epochs : Z)
| GovernanceSensitiveObjectTouched (execution_class : string)
| RepeatedQuarantinesInWindow (window_epochs threshold : Z)
| BranchDowngradeFrequency (threshold_bps : Z)
| PoolReserveDeviationExceeds (pool_id : id32) (threshold_bps : Z)
| ObjectVersionChurnExceeds (object_id : id32) (threshold : Z)
| SolverInvalidPlanRateExceeds (solver_id : id32) (threshold_bps : Z)
| DomainCrossBlastRadius (domain : string) (affected_count : Z).

(* @src src/runtime/src/safety/policies.rs:57-62 EscalationRule *)
Record EscalationRule : Type := mkEscalation {
  from_severity : IncidentSeverity;
  condition_count_threshold : Z;
  to_severity : IncidentSeverity;
  escalated_action : SafetyAction }.

(* @src src/runtime/src/safety/policies.rs:65-73 SafetyPolicy *)
Record SafetyPolicy : Type := mkSafetyPolicy {
  sp_name : string;
  sp_incident_type : IncidentType;
  sp_condition : RuleCondition;
  sp_severity : IncidentSeverity;
  default_action : SafetyAction;
  sp_escalation : option EscalationRule;
  sp_enabled : bool }.

(* @src src/runtime/src/safety/policies.rs:76-82 SafetyRuleEvaluation *)
Record SafetyRuleEvaluation : Type := mkRuleEvaluation {
  policy_name : string;
  triggered : bool;
  computed_severity : IncidentSeverity;
  ev_action : SafetyAction;
  ev_detail : string }.

(* @src src/runtime/src/safety/policies.rs:84-90 SafetyRuleEngine *)
Record SafetyRuleEngine : Type := mkRuleEngine {
  policies : list SafetyPolicy;
  violation_counts : gmap (id32 * string) Z;
  quarantine_counts_per_window : gmap Z Z }.

Module SafetyRuleEngine.
Section rules.
Context `{Hex}.

(* @src src/runtime/src/safety/policies.rs:93-99 SafetyRuleEngine::new *)
Definition new (l : list SafetyPolicy) : SafetyRuleEngine := mkRuleEngine l ∅ ∅.
Definition with_counts (m : gmap (id32 * string) Z) (e : SafetyRuleEngine) : SafetyRuleEngine :=
  mkRuleEngine (policies e) m (quarantine_counts_per_window e).
Definition count_at (e : SafetyRuleEngine) (k : id32 * string) : Z := default 0 (violation_counts e !! k).

(** Whether a condition holds of a context, and its text.  A count of [2^64 - 1]
    invalid plans would make the divisor of that rate zero; nothing writes that count. *)
(* @src src/runtime/src/safety/policies.rs:171-312 SafetyRuleEngine::check_condition *)
Definition check_condition (e : SafetyRuleEngine) (c : RuleCondition) (ctx : SafetyEvaluationContext)
  : bool * string :=
  match c with
  | OutflowExceedsThreshold threshold =>
      (bool_decide (threshold < total_outflow ctx),
       "outflow=" +:+ pretty (total_outflow ctx) +:+ " threshold=" +:+ pretty threshold)
  | MutationCountExceedsThreshold domain threshold =>
      let count := default 0 (domain_mutation_counts ctx !! domain) in
      (bool_decide (threshold < count),
       "domain=" +:+ domain +:+ " mutations=" +:+ pretty count +:+ " threshold=" +:+ pretty threshold)
  | RepeatedRightsViolations solver_id count _ =>
      let actual := count_at e (solver_id, "SolverMisconduct"%string) in
      let effective := wrapu 64 (actual + rights_violations_count ctx) in
      (bool_decide (count ≤ effective),
       "solver=" +:+ hex_encode solver_id +:+ " violations=" +:+ pretty effective +:+
         " threshold=" +:+ pretty count)
  | GovernanceSensitiveObjectTouched _ =>
      (is_governance_sensitive ctx, "governance-sensitive object touched")
  | RepeatedQuarantinesInWindow _ threshold =>
      (bool_decide (threshold < branch_quarantine_count ctx),
       "quarantine_count=" +:+ pretty (branch_quarantine_count ctx) +:+ " threshold=" +:+ pretty threshold)
  | BranchDowngradeFrequency threshold_bps =>
      let rate := wrapu 64 (branch_downgrade_count ctx * 10000) / Z.max (mutation_count ctx) 1 in
      (bool_decide (threshold_bps < rate),
       "downgrade_rate_bps=" +:+ pretty rate +:+ " threshold_bps=" +:+ pretty threshold_bps)
  | PoolReserveDeviationExceeds pool_id threshold_bps =>
      let deviation := sx_metadata ctx !! "pool_reserve_deviation_bps"%string ≫= parse_u32 in
      (bool_decide (pool_id ∈ pool_ids ctx) &&
         from_option (λ v, bool_decide (threshold_bps < v)) false deviation,
       "pool=" +:+ hex_encode pool_id +:+ " threshold_bps=" +:+ pretty threshold_bps)
  | ObjectVersionChurnExceeds object_id threshold =>
      let churn := default 0 (sx_metadata ctx !! ("version_churn_" +:+ hex_encode object_id) ≫= parse_u64) in
      (bool_decide (threshold < churn),
       "object=" +:+ hex_encode object_id +:+ " churn=" +:+ pretty churn +:+ " threshold=" +:+ pretty threshold)
  | SolverInvalidPlanRateExceeds solver_id threshold_bps =>
      let invalid := count_at e (solver_id, "invalid_plans"%string) in
      let rate := wrapu 64 (invalid * 10000) / wrapu 64 (invalid + 1) in
      (bool_decide (threshold_bps < rate),
       "solver=" +:+ hex_encode solver_id +:+ " invalid_rate_bps=" +:+ pretty rate +:+
         " threshold_bps=" +:+ pretty threshold_bps)
  | DomainCrossBlastRadius _ affected_count =>
      let n := Z.of_nat (length (sx_affected_domains ctx)) in
      (bool_decide (affected_count ≤ n),
       "affected_domains=" +:+ pretty n +:+ " threshold=" +:+ pretty affected_count)
  end.

(** One more at a key, and the count there is then. *)
Definition count_one (k : id32 * string) (e : SafetyRuleEngine) : SafetyRuleEngine * Z :=
  let count := wrapu 64 (count_at e k + 1) in
  (with_counts (<[k := count]> (violation_counts e)) e, count).

(* @src src/runtime/src/safety/policies.rs:127-169 SafetyRuleEngine::eval_policy *)
Definition eval_policy (p : SafetyPolicy) (ctx : SafetyEvaluationContext) (e : SafetyRuleEngine)
  : SafetyRuleEngine * SafetyRuleEvaluation :=
  let '(hit, detail) := check_condition e (sp_condition p) ctx in
  let '(e, (sev, action)) :=
    if hit then
      match sp_escalation p with
      | Some esc =>
          let '(e, count) := count_one (default 0 (sx_solver_id ctx), sp_name p) e in
          (e, if decide (condition_count_threshold esc ≤ count)
              then (to_severity esc, escalated_action esc) else (sp_severity p, default_action p))
      | None =>
          (match sx_solver_id ctx with
           | Some s => (count_one (s, sp_name p) e).1
           | None => e
           end, (sp_severity p, default_action p))
      end
    else (e, (sp_severity p, NoAction)) in
  (e, mkRuleEvaluation (sp_name p) hit sev action detail).

(** The enabled policies in turn, and the evaluations that fired. *)
(* @src src/runtime/src/safety/policies.rs:108-121 SafetyRuleEngine::evaluate *)
Fixpoint eval_all (l : list SafetyPolicy) (ctx : SafetyEvaluationContext) (e : SafetyRuleEngine)
  : SafetyRuleEngine * list SafetyRuleEvaluation :=
  match l with
  | [] => (e, [])
  | p :: l =>
      if sp_enabled p then
        let '(e, ev) := eval_policy p ctx e in
        let '(e, evs) := eval_all l ctx e in
        (e, (if triggered ev then [ev] else []) ++ evs)
      else eval_all l ctx e
  end.
Definition by_severity (a b : SafetyRuleEvaluation) : comparison :=
  severity_cmp (computed_severity b) (computed_severity a).
(* @src src/runtime/src/safety/policies.rs:108-125 SafetyRuleEngine::evaluate *)
Definition evaluate (ctx : SafetyEvaluationContext) (e : SafetyRuleEngine)
  : SafetyRuleEngine * list SafetyRuleEvaluation :=
  let '(e, evs) := eval_all (policies e) ctx e in
  (e, sort_by by_severity evs).
End rules.

(* @src src/runtime/src/safety/policies.rs:315-453 default_policies *)
Definition default_policies : list SafetyPolicy :=
  [ mkSafetyPolicy "AbnormalOutflow" ItAbnormalOutflow (OutflowExceedsThreshold 1000000) SvHigh
      (Quarantine (mkQuarantineAction [] "abnormal outflow detected" true false)) None true;
    mkSafetyPolicy "SolverMisconduct" SolverMisconduct (RepeatedRightsViolations 0 3 10) SvMedium
      (SuspendSolver 0 "repeated violations")
      (Some (mkEscalation SvMedium 5 SvHigh (SuspendSolver 0 "escalated repeated violations"))) true;
    mkSafetyPolicy "RepeatedBranchQuarantine" RepeatedBranchQuarantine (RepeatedQuarantinesInWindow 5 2)
      SvLow (RateLimit (mkRateLimitAction None None 50 500000 "repeated branch quarantine")) None true;
    mkSafetyPolicy "GovernanceSensitiveObjectMisuse" GovernanceSensitiveObjectMisuse
      (GovernanceSensitiveObjectTouched "governance") SvHigh
      (Pause (mkPauseAction (PtDomain "governance") "governance-sensitive object misuse" None true))
      None true;
    mkSafetyPolicy "LiquidityPoolInstability" LiquidityPoolInstability (PoolReserveDeviationExceeds 0 5000)
      SvHigh (Pause (mkPauseAction (PtLiquidityVenue 0) "liquidity pool reserve deviation" None false))
      None true;
    mkSafetyPolicy "AbnormalMutationVelocity" AbnormalMutationVelocity
      (MutationCountExceedsThreshold "global" 100) SvMedium
      (RateLimit (mkRateLimitAction (Some "global"%string) None 100 0 "abnormal mutation velocity"))
      None true;
    mkSafetyPolicy "CrossDomainBlastRadius" CrossDomainBlastRadiusEscalation
      (DomainCrossBlastRadius "any" 3) SvCritical
      (EmergencyMode (mkEmergency true "cross-domain blast radius escalation" true)) None true ].

(* @src src/runtime/src/safety/policies.rs:102-104 SafetyRuleEngine::with_defaults *)
Definition with_defaults : SafetyRuleEngine := new default_policies.
End SafetyRuleEngine.

(** ** The kernel *)

(* @src src/runtime/src/safety/kernel.rs:126-132 ConstrainedStateUpdate *)
Inductive ConstrainedStateUpdate : Type :=
| QuarantineObjects (l : list id32)
| PauseDomain (d : string)
| CuSuspendSolver (i : id32)
| ActivateRateLimit (domain : string) (max_per_epoch : Z)
| ActivateEmergencyMode.

(* @src src/runtime/src/safety/kernel.rs:116-122 SafetyDecision *)
Record SafetyDecision : Type := mkDecision {
  sd_incident : option SafetyIncident;
  sd_action : SafetyAction;
  blast_radius : option BlastRadiusAssessment;
  governance_escalation : option GovernanceEscalationMarker;
  constrained_state_updates : list ConstrainedStateUpdate }.

(* @src src/runtime/src/safety/kernel.rs:135-141 SafetyAuditRecord *)
Record SafetyAuditRecord : Type := mkAuditRecord {
  context_epoch : Z;
  rules_evaluated : Z;
  rules_triggered : Z;
  decision : SafetyDecision;
  sa_audit_hash : id32 }.
Module SafetyAuditRecord.
(* @src src/runtime/src/safety/kernel.rs:144-154 SafetyAuditRecord::compute_hash *)
Definition compute_hash `{Sha256} (r : SafetyAuditRecord) : id32 :=
  sha256 (string_bytes (pretty (context_epoch r) +:+ ":" +:+ pretty (rules_evaluated r) +:+ ":" +:+
    pretty (rules_triggered r))).
End SafetyAuditRecord.

(* @src src/runtime/src/safety/kernel.rs:157-168 SafetyKernel *)
Record SafetyKernel : Type := mkKernel {
  rule_engine : SafetyRuleEngine;
  domain_policy : DomainSafetyPolicy;
  solver_controller : SolverSafetyController;
  blast_radius_policy : ScopeResolutionPolicy;
  kernel_domain_map : DomainContainmentMap;
  kernel_ledger : IncidentLedger;
  recovery_hooks : list RecoveryHook;
  quarantined_objects : gset id32;
  paused_domains : gset string;
  emergency_mode : bool }.

Module SafetyKernel.
Definition set_rules (e : SafetyRuleEngine) (k : SafetyKernel) : SafetyKernel :=
  mkKernel e (domain_policy k) (solver_controller k) (blast_radius_policy k) (kernel_domain_map k)
    (kernel_ledger k) (recovery_hooks k) (quarantined_objects k) (paused_domains k) (emergency_mode k).
Definition set_solvers (c : SolverSafetyController) (k : SafetyKernel) : SafetyKernel :=
  mkKernel (rule_engine k) (domain_policy k) c (blast_radius_policy k) (kernel_domain_map k)
    (kernel_ledger k) (recovery_hooks k) (quarantined_objects k) (paused_domains k) (emergency_mode k).
Definition set_ledger (l : IncidentLedger) (k : SafetyKernel) : SafetyKernel :=
  mkKernel (rule_engine k) (domain_policy k) (solver_controller k) (blast_radius_policy k)
    (kernel_domain_map k) l (recovery_hooks k) (quarantined_objects k) (paused_domains k)
    (emergency_mode k).
Definition set_contained (q : gset id32) (p : gset string) (em : bool) (k : SafetyKernel) : SafetyKernel :=
  mkKernel (rule_engine k) (domain_policy k) (solver_controller k) (blast_radius_policy k)
    (kernel_domain_map k) (kernel_ledger k) (recovery_hooks k) q p em.

(* @src src/runtime/src/safety/kernel.rs:171-188 SafetyKernel::new *)
Definition new : SafetyKernel :=
  mkKernel SafetyRuleEngine.with_defaults DomainSafetyPolicy.with_defaults SolverSafetyController.new
    default_scope_policy (mkContainmentMap ∅ ∅ ∅) (IncidentLedger.new 0) [] ∅ ∅ false.

(* @src src/runtime/src/safety/kernel.rs:190-193 SafetyKernel::with_recovery_hook *)
Definition with_recovery_hook (h : RecoveryHook) (k : SafetyKernel) : SafetyKernel :=
  mkKernel (rule_engine k) (domain_policy k) (solver_controller k) (blast_radius_policy k)
    (kernel_domain_map k) (kernel_ledger k) (recovery_hooks k ++ [h]) (quarantined_objects k)
    (paused_domains k) (emergency_mode k).

(* @src src/runtime/src/safety/kernel.rs:403-405 SafetyKernel::is_object_quarantined *)
Definition is_object_quarantined (k : SafetyKernel) (i : id32) : bool :=
  bool_decide (i ∈ quarantined_objects k).
(* @src src/runtime/src/safety/kernel.rs:408-410 SafetyKernel::is_domain_paused *)
Definition is_domain_paused (k : SafetyKernel) (domain : string) : bool :=
  bool_decide (domain ∈ paused_domains k).
(* @src src/runtime/src/safety/kernel.rs:413-415 SafetyKernel::is_solver_allowed *)
Definition is_solver_allowed (k : SafetyKernel) (i : id32) : bool :=
  SolverSafetyController.is_solver_allowed (solver_controller k) i.

(** The effect of an action on the kernel; [[0; 32]] stands for the solver of the
    context. *)
(* @src src/runtime/src/safety/kernel.rs:463-504 SafetyKernel::apply_action *)
Fixpoint apply_action (a : SafetyAction) (ctx : SafetyEvaluationContext) (k : SafetyKernel) : SafetyKernel :=
  match a with
  | Quarantine q =>
      set_contained (quarantined_objects k ∪ list_to_set (qn_object_ids q) ∪
                     list_to_set (sx_affected_objects ctx)) (paused_domains k) (emergency_mode k) k
  | Pause p =>
      match ps_target p with
      | PtDomain d => set_contained (quarantined_objects k) ({[d]} ∪ paused_domains k) (emergency_mode k) k
      | _ => k
      end
  | SuspendSolver i _ =>
      let effective := if decide (i = 0) then default i (sx_solver_id ctx) else i in
      set_solvers (SolverSafetyController.apply_action (SaSuspend effective u64_max)
                     (solver_controller k)) k
  | EmergencyMode _ => set_contained (quarantined_objects k) (paused_domains k) true k
  | MultiAction l => foldl (λ k a, apply_action a ctx k) k l
  | _ => k
  end.

(* @src src/runtime/src/safety/kernel.rs:217-226 SafetyKernel::evaluate *)
Definition classify (name : string) : IncidentType :=
  if decide (name = "AbnormalOutflow"%string) then ItAbnormalOutflow
  else if decide (name = "SolverMisconduct"%string) then SolverMisconduct
  else if decide (name = "RepeatedBranchQuarantine"%string) then RepeatedBranchQuarantine
  else if decide (name = "GovernanceSensitiveObjectMisuse"%string) then GovernanceSensitiveObjectMisuse
  else if decide (name = "LiquidityPoolInstability"%string) then LiquidityPoolInstability
  else if decide (name = "AbnormalMutationVelocity"%string) then AbnormalMutationVelocity
  else if decide (name = "CrossDomainBlastRadius"%string) then CrossDomainBlastRadiusEscalation
  else PolicyRuleViolation.

(* @src src/runtime/src/safety/kernel.rs:231-251 SafetyKernel::evaluate *)
Definition incident_scope (t : IncidentType) (ctx : SafetyEvaluationContext) : IncidentScope :=
  let by_extent :=
    match sx_affected_domains ctx, sx_affected_objects ctx with
    | _ :: _ :: _, _ => ScMultiDomain (sx_affected_domains ctx)
    | [d], _ => ScDomain d
    | [], i :: _ => ScSingleObject i
    | [], [] => ScFullChain
    end in
  match sx_solver_id ctx with
  | Some s => if decide (t = SolverMisconduct) then ScSolver s else by_extent
  | None => by_extent
  end.

(* @src src/runtime/src/safety/kernel.rs:228-286 SafetyKernel::evaluate *)
Definition incident_of `{Sha256, Hex} (top : SafetyRuleEvaluation) (ctx : SafetyEvaluationContext)
  : SafetyIncident :=
  let t := classify (policy_name top) in
  let governance := SafetyAction.requires_governance (ev_action top) ||
    bool_decide (computed_severity top = SvCritical ∨ computed_severity top = SvEmergency) in
  mkIncident (SafetyIncident.compute_id t (sx_epoch ctx) (sx_solver_id ctx)) t (computed_severity top)
    (incident_scope t ctx)
    (mkAffected (list_to_set (sx_affected_domains ctx)) (list_to_set (sx_affected_objects ctx))
       (list_to_set (option_list (sx_solver_id ctx))))
    (policy_name top) (ev_detail top) (sx_goal_packet_id ctx) (sx_plan_id ctx) (sx_solver_id ctx)
    (sx_capsule_hash ctx) (sx_epoch ctx) (negb governance) governance (sx_metadata ctx).

(** The updates reported for one action inside a stack of actions. *)
(* @src src/runtime/src/safety/kernel.rs:329-353 SafetyKernel::evaluate *)
Definition stacked_update (a : SafetyAction) : list ConstrainedStateUpdate :=
  match a with
  | Quarantine q => [QuarantineObjects (qn_object_ids q)]
  | Pause p => match ps_target p with PtDomain d => [PauseDomain d] | _ => [] end
  | SuspendSolver i _ => [CuSuspendSolver i]
  | EmergencyMode _ => [ActivateEmergencyMode]
  | _ => []
  end.
(* @src src/runtime/src/safety/kernel.rs:295-356 SafetyKernel::evaluate *)
Definition state_updates (a : SafetyAction) (ctx : SafetyEvaluationContext) : list ConstrainedStateUpdate :=
  match a with
  | Quarantine q =>
      if decide (qn_object_ids q ≠ []) then [QuarantineObjects (qn_object_ids q)]
      else if decide (sx_affected_objects ctx ≠ []) then [QuarantineObjects (sx_affected_objects ctx)]
      else []
  | RateLimit r =>
      match rl_target_domain r with
      | Some d => [ActivateRateLimit d (max_mutations_per_epoch r)]
      | None => []
      end
  | MultiAction l => l ≫= stacked_update
  | _ => stacked_update a
  end.

(** The first marker a hook returns, for incidents that are critical or worse. *)
(* @src src/runtime/src/safety/kernel.rs:358-367 SafetyKernel::evaluate *)
Definition escalate (hooks : list RecoveryHook) (i : SafetyIncident) : option GovernanceEscalationMarker :=
  if decide (severity_rank SvCritical ≤ severity_rank (severity i))
  then head (omap (λ h, on_incident h i) hooks) else None.

(* @src src/runtime/src/safety/kernel.rs:369-389 SafetyKernel::evaluate *)
Definition incident_receipt (i : SafetyIncident) (a : SafetyAction) (epoch : Z) : SafetyReceipt :=
  mkSafetyReceipt (incident_id i) i [mkActionRecord a epoch (scope i) true None]
    (mkRecovery (incident_id i) RsPending None None EmptyString) epoch 0.

Section evaluate.
Context `{Sha256, Hex}.

Definition log (r : SafetyReceipt) (batch_id : option id32) (k : SafetyKernel) : SafetyKernel :=
  set_ledger (IncidentLedger.append r batch_id (kernel_ledger k)).1 k.

(* @src src/runtime/src/safety/kernel.rs:197-400 SafetyKernel::evaluate *)
Definition evaluate (ctx : SafetyEvaluationContext) (k : SafetyKernel) : SafetyKernel * SafetyDecision :=
  let '(rules, evaluations) := SafetyRuleEngine.evaluate ctx (rule_engine k) in
  let k := set_rules rules k in
  match evaluations with
  | [] => (k, mkDecision None NoAction None None [])
  | top :: _ =>
      let i := incident_of top ctx in
      let radius := BlastRadiusEngine.assess i (kernel_domain_map k) (blast_radius_policy k) in
      let a := ev_action top in
      let k := apply_action a ctx k in
      let updates := state_updates a ctx in
      let marker := escalate (recovery_hooks k) i in
      let k := log (incident_receipt i a (sx_epoch ctx)) (sx_batch_id ctx) k in
      (k, mkDecision (Some i) a (Some radius) marker updates)
  end.

(* @src src/runtime/src/safety/kernel.rs:426-457 SafetyKernel::reset_emergency_mode *)
Definition reset_receipt (epoch : Z) : SafetyReceipt :=
  let id := SafetyIncident.compute_id PolicyRuleViolation epoch None in
  mkSafetyReceipt id
    (mkIncident id PolicyRuleViolation SvEmergency ScFullChain AffectedDomainSet.new "GovernanceReset"
       "Emergency mode was manually reset by governance multi-sig" None None None None epoch false true ∅)
    [] (mkRecovery id RsPending None (Some epoch) "Emergency mode explicitly reset by governance") epoch 0.
(* @src src/runtime/src/safety/kernel.rs:419-461 SafetyKernel::reset_emergency_mode *)
Definition reset_emergency_mode (proof : GovernanceProof) (epoch : Z) : M SafetyKernel string () := λ k,
  if negb (is_valid proof) then (k, Err "Emergency mode reset denied: invalid governance proof"%string)
  else
    let k := set_contained (quarantined_objects k) (paused_domains k) false k in
    (log (reset_receipt epoch) None k, Ok tt).
End evaluate.

(** The clone has no hooks. *)
(* @src src/runtime/src/safety/kernel.rs:507-534 SafetyKernel::clone *)
Definition clone (k : SafetyKernel) : SafetyKernel :=
  mkKernel (rule_engine k) (domain_policy k) (solver_controller k) (blast_radius_policy k)
    (kernel_domain_map k) (kernel_ledger k) [] (quarantined_objects k) (paused_domains k)
    (emergency_mode k).
End SafetyKernel.
