(* ===== verification/SafetyBridge.v ===== *)
(** * The safety kernel over batches, and its simulation

    The settlements of a batch are shown to the kernel one by one and blocked by what
    it has contained so far (src/runtime/src/safety/poseq_bridge.rs); scenarios are
    run against a clone of the kernel (simulation.rs). *)

From stdpp Require Import gmap strings list pretty.
From S2P Require Import Prelude Errors Sorting Numerals Objects CrxExec CrxSettle Safety.
From S2P Require Import SafetyRules.

(** ** Batches *)

(* @src src/runtime/src/safety/poseq_bridge.rs:8-12 OrderedSafetyContext *)
Record OrderedSafetyContext : Type := mkOrderedContext {
  oc_batch_id : id32;
  oc_epoch : Z;
  per_goal_contexts : list SafetyEvaluationContext }.

(* @src src/runtime/src/safety/poseq_bridge.rs:16-20 SafetyAnnotatedSettlement *)
Record SafetyAnnotatedSettlement : Type := mkAnnotated {
  crx_result : CRXExecutionResult;
  safety_decision : SafetyDecision;
  final_allowed : bool }.

(* @src src/runtime/src/safety/poseq_bridge.rs:24-30 SafetyConstrainedExecutionState *)
Record SafetyConstrainedExecutionState : Type := mkConstrained {
  ce_quarantined_objects : list id32;
  ce_paused_domains : list string;
  suspended_solvers : list id32;
  ce_emergency_mode : bool;
  as_of_epoch : Z }.

(** The bridge is its kernel. *)
(* @src src/runtime/src/safety/poseq_bridge.rs:32-34 PoSeqSafetyBridge *)
Record PoSeqSafetyBridge : Type := mkSafetyBridge { kernel : SafetyKernel }.

Module PoSeqSafetyBridge.
(* @src src/runtime/src/safety/poseq_bridge.rs:37-41 PoSeqSafetyBridge::new *)
Definition new : PoSeqSafetyBridge := mkSafetyBridge SafetyKernel.new.

(** What the kernel lets through after it has seen a settlement. *)
(* @src src/runtime/src/safety/poseq_bridge.rs:66-84 PoSeqSafetyBridge::process_batch *)
Definition allowed (k : SafetyKernel) (r : CRXExecutionResult) (ctx : SafetyEvaluationContext) : bool :=
  negb (emergency_mode k) && SafetyKernel.is_solver_allowed k (cx_solver_id (xr_record r)) &&
  negb (existsb (SafetyKernel.is_object_quarantined k) (affected_objects (xr_record r))) &&
  negb (existsb (SafetyKernel.is_domain_paused k) (sx_affected_domains ctx)).

Section batch.
Context `{Sha256, Hex}.

(* @src src/runtime/src/safety/poseq_bridge.rs:56-91 PoSeqSafetyBridge::process_batch *)
Definition process_result (batch_id : id32) (epoch : Z) (r : CRXExecutionResult) (k : SafetyKernel)
  : SafetyKernel * SafetyAnnotatedSettlement :=
  let ctx := SafetyEvaluationContext.from_crx_record (xr_record r) (Some batch_id) epoch in
  let '(k, d) := SafetyKernel.evaluate ctx k in
  (k, mkAnnotated r d (allowed k r ctx)).
Fixpoint process_results (batch_id : id32) (epoch : Z) (l : list CRXExecutionResult) (k : SafetyKernel)
  : SafetyKernel * list SafetyAnnotatedSettlement :=
  match l with
  | [] => (k, [])
  | r :: l =>
      let '(k, a) := process_result batch_id epoch r k in
      let '(k, annotated) := process_results batch_id epoch l k in
      (k, a :: annotated)
  end.

(* @src src/runtime/src/safety/poseq_bridge.rs:97-125 PoSeqSafetyBridge::constrained_state *)
Definition constrained_state (b : PoSeqSafetyBridge) (epoch : Z) : SafetyConstrainedExecutionState :=
  let k := kernel b in
  mkConstrained (sorted_elements (quarantined_objects k)) (sorted_strings (paused_domains k))
    (btree_keys (filter (λ p, status_rank SsSuspended ≤ status_rank (rs_status p.2))
                   (restrictions (solver_controller k))))
    (emergency_mode k) epoch.

(* @src src/runtime/src/safety/poseq_bridge.rs:45-95 PoSeqSafetyBridge::process_batch *)
Definition process_batch (results : list CRXExecutionResult) (batch_id : id32) (epoch : Z)
    (b : PoSeqSafetyBridge)
  : PoSeqSafetyBridge * (list SafetyAnnotatedSettlement * SafetyConstrainedExecutionState) :=
  let '(k, annotated) := process_results batch_id epoch results (kernel b) in
  let b := mkSafetyBridge k in
  (b, (annotated, constrained_state b epoch)).
End batch.
End PoSeqSafetyBridge.

(** ** Simulation *)

(* @src src/runtime/src/safety/simulation.rs:7-12 IncidentScenario *)
Record IncidentScenario : Type := mkScenario {
  sn_name : string;
  sn_context : SafetyEvaluationContext;
  expected_incident_type : option IncidentType;
  expected_min_severity : IncidentSeverity }.

(* @src src/runtime/src/safety/simulation.rs:15-22 ContainmentPreview *)
Record ContainmentPreview : Type := mkPreview {
  scenario_name : string;
  predicted_action : SafetyAction;
  predicted_scope : string;
  would_require_governance : bool;
  pv_affected_domains : list string;
  pv_affected_solvers : list id32 }.

(* @src src/runtime/src/safety/simulation.rs:25-30 RuleCoverageReport *)
Record RuleCoverageReport : Type := mkCoverage {
  total_policies : Z;
  enabled_policies : Z;
  policies_triggered : list string;
  uncovered_incident_types : list IncidentType }.

(* @src src/runtime/src/safety/simulation.rs:33-38 SafetySimulationResult *)
Record SafetySimulationResult : Type := mkSimulationResult {
  scenario : IncidentScenario;
  actual_decision : SafetyDecision;
  containment_preview : ContainmentPreview;
  expectation_met : bool }.

Module SafetySimulator.
Section simulate.
Context `{Sha256, Hex}.

(* @src src/runtime/src/safety/simulation.rs:44-91 SafetySimulator::simulate *)
Definition simulate (k : SafetyKernel) (s : IncidentScenario) : SafetySimulationResult :=
  let d := (SafetyKernel.evaluate (sn_context s) (SafetyKernel.clone k)).2 in
  let severity := from_option severity SvInfo (sd_incident d) in
  mkSimulationResult s d
    (mkPreview (sn_name s) (sd_action d)
       (from_option (λ b, debug_scope (recommended_scope b)) "None"%string (blast_radius d))
       (SafetyAction.requires_governance (sd_action d))
       (from_option (λ i, sorted_strings (af_domains (affected i))) [] (sd_incident d))
       (from_option (λ i, sorted_elements (af_solver_ids (affected i))) [] (sd_incident d)))
    (bool_decide (severity_rank (expected_min_severity s) ≤ severity_rank severity)).

Definition all_incident_types : list IncidentType :=
  [ItAbnormalOutflow; UnauthorizedDomainAccess; RightsScopeBreach; CausalValidityBreach;
   OracleCorruptionIndicator; SolverMisconduct; LiquidityPoolInstability;
   GovernanceSensitiveObjectMisuse; RepeatedBranchQuarantine; AbnormalMutationVelocity;
   CrossDomainBlastRadiusEscalation; RepeatedRightsViolation; UnauthorizedCapabilityUse;
   ExcessiveObjectVersionChurn; PolicyRuleViolation].
(* @src src/runtime/src/safety/simulation.rs:93-148 SafetySimulator::coverage_report *)
Definition coverage_report (k : SafetyKernel) : RuleCoverageReport :=
  let all := policies (rule_engine k) in
  let enabled := filter (λ p, sp_enabled p = true) all in
  let covered : gset string := list_to_set ((λ p, debug_incident_type (sp_incident_type p)) <$> enabled) in
  mkCoverage (Z.of_nat (length all)) (Z.of_nat (length enabled)) (sp_name <$> enabled)
    (filter (λ t, debug_incident_type t ∉ covered) all_incident_types).

Definition context_with (epoch : Z) (solver : option id32) (finality : FinalityClass) (objs : list id32)
    (domains : list string) (rights causal outflow : Z) (pools : list id32) (governance : bool)
    (metadata : gmap string string) : SafetyEvaluationContext :=
  mkContext epoch None None None solver None finality objs domains rights causal 0 0 outflow 0 ∅ pools
    governance metadata.
(** The id [[b; 32]]. *)
Definition repeated (b : Z) : id32 := of_be (replicate 32 b).

(* @src src/runtime/src/safety/simulation.rs:166-178 SafetySimulator::abnormal_outflow_scenario *)
Definition abnormal_outflow_scenario (epoch : Z) : IncidentScenario :=
  mkScenario "abnormal_outflow"
    (context_with epoch None FcFinalized [repeated 1; repeated 2] ["treasury"%string] 0 0 2000000 [] false ∅)
    (Some ItAbnormalOutflow) SvHigh.
(* @src src/runtime/src/safety/simulation.rs:180-195 SafetySimulator::solver_misconduct_scenario *)
Definition solver_misconduct_scenario (solver : id32) (epoch : Z) : IncidentScenario :=
  mkScenario "solver_misconduct"
    (context_with epoch (Some solver) FcFinalized [] ["dex_liquidity"%string] 3 0 0 [] false ∅)
    (Some SolverMisconduct) SvMedium.
(* @src src/runtime/src/safety/simulation.rs:197-208 SafetySimulator::governance_misuse_scenario *)
Definition governance_misuse_scenario (epoch : Z) : IncidentScenario :=
  mkScenario "governance_misuse"
    (context_with epoch None FcFinalized [] ["governance"%string] 0 0 0 [] true ∅)
    (Some GovernanceSensitiveObjectMisuse) SvHigh.
(* @src src/runtime/src/safety/simulation.rs:210-223 SafetySimulator::oracle_inconsistency_scenario *)
Definition oracle_inconsistency_scenario (epoch : Z) : IncidentScenario :=
  mkScenario "oracle_inconsistency"
    (context_with epoch None FcProvisional [] ["oracle"%string] 0 1 0 [] false ∅) None SvInfo.
(* @src src/runtime/src/safety/simulation.rs:225-248 SafetySimulator::liquidity_instability_scenario *)
Definition liquidity_instability_scenario (pool : id32) (epoch : Z) : IncidentScenario :=
  mkScenario "liquidity_instability"
    (context_with epoch None FcFinalized [] ["dex_liquidity"%string] 0 0 0 [pool] false
       (<["pool_reserve_deviation_bps_" +:+ hex_encode pool := "6000"%string]>
          {["pool_reserve_deviation_bps"%string := "6000"%string]}))
    (Some LiquidityPoolInstability) SvInfo.
(* @src src/runtime/src/safety/simulation.rs:250-269 SafetySimulator::cross_domain_emergency_scenario *)
Definition cross_domain_emergency_scenario (epoch : Z) : IncidentScenario :=
  mkScenario "cross_domain_emergency"
    (context_with epoch None FcFinalized [repeated 1; repeated 2; repeated 3]
       ["treasury"; "dex_liquidity"; "lending"]%string 0 0 0 [] false ∅)
    (Some CrossDomainBlastRadiusEscalation) SvCritical.

(* @src src/runtime/src/safety/simulation.rs:151-164 SafetySimulator::run_all_scenarios *)
Definition run_all_scenarios (k : SafetyKernel) : list SafetySimulationResult :=
  simulate k <$>
    [abnormal_outflow_scenario 100; solver_misconduct_scenario (repeated 171) 100;
     governance_misuse_scenario 100; oracle_inconsistency_scenario 100;
     liquidity_instability_scenario (repeated 187) 100; cross_domain_emergency_scenario 100].
End simulate.
End SafetySimulator.
