(* ===== verification/SafetyEngine.v ===== *)
(** * The deterministic safety engine

    Scoped containment without an administrator
    (src/runtime/src/safety/deterministic.rs): outflows are summed per epoch and per
    object, failures counted per path, and objects are frozen and paths blocked by
    thresholds.  The theorem says exactly what is frozen and blocked after any
    history. *)

From stdpp Require Import gmap strings list pretty.
From S2P Require Import Prelude Concrete.

(** ** Events *)

(* @src src/runtime/src/safety/deterministic.rs:45-58 SafetyTrigger *)
Inductive SafetyTrigger : Type :=
| AbnormalOutflow (epoch outflow threshold : Z)
| ObjectDrain (object_id : id32) (drained threshold : Z)
| InvariantViolation (expected_sum actual_sum : Z)
| RepeatedFailure (path : string) (count threshold : Z)
| StateDivergence (expected_hash actual_hash : id32)
| InvalidDependency (source reason : string).

(* @src src/runtime/src/safety/deterministic.rs:75-80 RiskLevel *)
Inductive RiskLevel : Type := RlLow | RlMedium | RlHigh | RlCritical.

(* @src src/runtime/src/safety/deterministic.rs:62-71 SafetyAction *)
Inductive SafetyAction : Type :=
| FreezeObjects (l : list id32)
| BlockPath (path : string)
| MarkRisk (l : list id32) (level : RiskLevel)
| Alert (msg : string).

(** The code also keeps the [Debug] text of the trigger and the action. *)
(* @src src/runtime/src/safety/deterministic.rs:33-41 SafetyEvent *)
Record SafetyEvent : Type := mkEvent {
  event_id : id32;
  ev_epoch : Z;
  trigger : SafetyTrigger;
  action : SafetyAction;
  ev_affected_objects : list id32;
  affected_paths : list string }.

(** ** The engine *)

(* @src src/runtime/src/safety/deterministic.rs:89-100 SafetyConfig *)
Record SafetyConfig : Type := mkSafetyConfig {
  max_epoch_outflow : Z;
  max_object_outflow : Z;
  failure_threshold : Z;
  failure_window_epochs : Z;
  invariant_epsilon : Z }.
(* @src src/runtime/src/safety/deterministic.rs:102-112 SafetyConfig::default *)
Definition default_safety_config : SafetyConfig := mkSafetyConfig 10000000000000 1000000000000 5 10 0.

(* @src src/runtime/src/safety/deterministic.rs:120-141 DeterministicSafetyEngine *)
Record DeterministicSafetyEngine : Type := mkEngine {
  config : SafetyConfig;
  frozen_objects : gset id32;
  blocked_paths : gset string;
  risk_marks : gmap id32 RiskLevel;
  epoch_outflows : gmap Z Z;
  object_outflows : gmap (Z * id32) Z;
  failure_counts : gmap (string * Z) Z;
  events : list SafetyEvent;
  event_seq : Z }.

Module DeterministicSafetyEngine.
(* @src src/runtime/src/safety/deterministic.rs:144-156 DeterministicSafetyEngine::new *)
Definition new (c : SafetyConfig) : DeterministicSafetyEngine := mkEngine c ∅ ∅ ∅ ∅ ∅ ∅ [] 0.

Definition set_contained (f : gset id32) (b : gset string) (r : gmap id32 RiskLevel)
    (e : DeterministicSafetyEngine) : DeterministicSafetyEngine :=
  mkEngine (config e) f b r (epoch_outflows e) (object_outflows e) (failure_counts e) (events e) (event_seq e).
Definition set_tracked (eo : gmap Z Z) (oo : gmap (Z * id32) Z) (fc : gmap (string * Z) Z)
    (e : DeterministicSafetyEngine) : DeterministicSafetyEngine :=
  mkEngine (config e) (frozen_objects e) (blocked_paths e) (risk_marks e) eo oo fc (events e) (event_seq e).
Definition freeze (l : list id32) (e : DeterministicSafetyEngine) : DeterministicSafetyEngine :=
  set_contained (frozen_objects e ∪ list_to_set l) (blocked_paths e) (risk_marks e) e.
Definition block (l : list string) (e : DeterministicSafetyEngine) : DeterministicSafetyEngine :=
  set_contained (frozen_objects e) (blocked_paths e ∪ list_to_set l) (risk_marks e) e.

(* @src src/runtime/src/safety/deterministic.rs:161-163 DeterministicSafetyEngine::is_frozen *)
Definition is_frozen (e : DeterministicSafetyEngine) (i : id32) : bool := bool_decide (i ∈ frozen_objects e).
(* @src src/runtime/src/safety/deterministic.rs:166-168 DeterministicSafetyEngine::is_path_blocked *)
Definition is_path_blocked (e : DeterministicSafetyEngine) (p : string) : bool :=
  bool_decide (p ∈ blocked_paths e).
(* @src src/runtime/src/safety/deterministic.rs:171-173 DeterministicSafetyEngine::risk_level *)
Definition risk_level (e : DeterministicSafetyEngine) (i : id32) : option RiskLevel := risk_marks e !! i.
(* @src src/runtime/src/safety/deterministic.rs:191-193 DeterministicSafetyEngine::event_count *)
Definition event_count (e : DeterministicSafetyEngine) : nat := length (events e).

Section engine.
Context `{Sha256}.

(* @src src/runtime/src/safety/deterministic.rs:412-421 DeterministicSafetyEngine::compute_event_id *)
Definition compute_event_id (seq epoch : Z) : id32 :=
  sha256 (string_bytes "OMNIPHI_SAFETY_EVENT_V1" ++ be_bytes 8 seq ++ be_bytes 8 epoch).

(* @src src/runtime/src/safety/deterministic.rs:386-410 DeterministicSafetyEngine::emit *)
Definition emit (epoch : Z) (t : SafetyTrigger) (a : SafetyAction) (objs : list id32) (paths : list string)
    (e : DeterministicSafetyEngine) : DeterministicSafetyEngine * SafetyEvent :=
  let ev := mkEvent (compute_event_id (event_seq e) epoch) epoch t a objs paths in
  (mkEngine (config e) (frozen_objects e) (blocked_paths e) (risk_marks e) (epoch_outflows e)
     (object_outflows e) (failure_counts e) (events e ++ [ev]) (wrapu 64 (event_seq e + 1)), ev).

(** The part of [record_outflow] about the epoch, and the part about the object. *)
(* @src src/runtime/src/safety/deterministic.rs:204-221 DeterministicSafetyEngine::record_outflow *)
Definition outflow_of_epoch (epoch amt : Z) (e : DeterministicSafetyEngine)
  : DeterministicSafetyEngine * list SafetyEvent :=
  let total := sat_add 128 (default 0 (epoch_outflows e !! epoch)) amt in
  let e := set_tracked (<[epoch := total]> (epoch_outflows e)) (object_outflows e) (failure_counts e) e in
  let max := max_epoch_outflow (config e) in
  if decide (max < total) then
    let '(e, ev) := emit epoch (AbnormalOutflow epoch total max)
      (Alert ("Epoch " +:+ pretty epoch +:+ " outflow " +:+ pretty total +:+ " exceeds threshold " +:+
              pretty max)) [] [] e in (e, [ev])
  else (e, []).
(* @src src/runtime/src/safety/deterministic.rs:223-241 DeterministicSafetyEngine::record_outflow *)
Definition outflow_of_object (epoch : Z) (i : id32) (amt : Z) (e : DeterministicSafetyEngine)
  : DeterministicSafetyEngine * list SafetyEvent :=
  let total := sat_add 128 (default 0 (object_outflows e !! (epoch, i))) amt in
  let e := set_tracked (epoch_outflows e) (<[(epoch, i) := total]> (object_outflows e)) (failure_counts e) e in
  let max := max_object_outflow (config e) in
  if decide (max < total) then
    let '(e, ev) := emit epoch (ObjectDrain i total max) (FreezeObjects [i]) [i] [] e in (freeze [i] e, [ev])
  else (e, []).
(* @src src/runtime/src/safety/deterministic.rs:198-242 DeterministicSafetyEngine::record_outflow *)
Definition record_outflow (epoch : Z) (i : id32) (amt : Z) (e : DeterministicSafetyEngine)
  : DeterministicSafetyEngine * list SafetyEvent :=
  let '(e, l) := outflow_of_epoch epoch amt e in
  let '(e, l') := outflow_of_object epoch i amt e in
  (e, l ++ l').

(* @src src/runtime/src/safety/deterministic.rs:246-275 DeterministicSafetyEngine::check_invariant *)
Definition check_invariant (epoch expected actual : Z) (objs : list id32) (e : DeterministicSafetyEngine)
  : DeterministicSafetyEngine * option SafetyEvent :=
  let diff := if decide (actual < expected) then expected - actual else actual - expected in
  if decide (invariant_epsilon (config e) < diff) then
    let '(e, ev) := emit epoch (InvariantViolation expected actual) (FreezeObjects objs) objs []
                      (freeze objs e) in (e, Some ev)
  else (e, None).

(** The failures counted for a path in epochs from [lo] to [hi]; the sum is a
    [u32]. *)
Definition window_total (m : gmap (string * Z) Z) (path : string) (lo hi : Z) : Z :=
  map_fold (λ k c acc, if decide (k.1 = path ∧ lo ≤ k.2 ≤ hi) then c + acc else acc) 0 m.
(* @src src/runtime/src/safety/deterministic.rs:279-309 DeterministicSafetyEngine::record_failure *)
Definition record_failure (epoch : Z) (path : string) (e : DeterministicSafetyEngine)
  : DeterministicSafetyEngine * option SafetyEvent :=
  let count := wrapu 32 (default 0 (failure_counts e !! (path, epoch)) + 1) in
  let e := set_tracked (epoch_outflows e) (object_outflows e) (<[(path, epoch) := count]> (failure_counts e)) e in
  let start := sat_sub epoch (failure_window_epochs (config e)) in
  let total := wrapu 32 (window_total (failure_counts e) path start epoch) in
  if decide (failure_threshold (config e) ≤ total) then
    let '(e, ev) := emit epoch (RepeatedFailure path total (failure_threshold (config e))) (BlockPath path)
                      [] [path] (block [path] e) in (e, Some ev)
  else (e, None).

(* @src src/runtime/src/safety/deterministic.rs:312-329 DeterministicSafetyEngine::report_state_divergence *)
Definition report_state_divergence (epoch : Z) (expected actual : id32) (objs : list id32)
    (e : DeterministicSafetyEngine) : DeterministicSafetyEngine * SafetyEvent :=
  let e := freeze objs e in
  let e := set_contained (frozen_objects e) (blocked_paths e)
             (foldl (λ m i, <[i := RlCritical]> m) (risk_marks e) objs) e in
  emit epoch (StateDivergence expected actual) (FreezeObjects objs) objs [] e.

(* @src src/runtime/src/safety/deterministic.rs:332-348 DeterministicSafetyEngine::report_invalid_dependency *)
Definition report_invalid_dependency (epoch : Z) (source reason : string) (paths : list string)
    (e : DeterministicSafetyEngine) : DeterministicSafetyEngine * SafetyEvent :=
  emit epoch (InvalidDependency source reason) (BlockPath (default EmptyString (head paths))) [] paths
    (block paths e).

(* @src src/runtime/src/safety/deterministic.rs:351-355 DeterministicSafetyEngine::mark_risk *)
Definition mark_risk (objs : list id32) (level : RiskLevel) (e : DeterministicSafetyEngine)
  : DeterministicSafetyEngine :=
  set_contained (frozen_objects e) (blocked_paths e) (foldl (λ m i, <[i := level]> m) (risk_marks e) objs) e.

(** The three releases; the boolean says whether there was something to release. *)
(* @src src/runtime/src/safety/deterministic.rs:361-363 DeterministicSafetyEngine::unfreeze_object *)
Definition unfreeze_object (i : id32) (e : DeterministicSafetyEngine) : DeterministicSafetyEngine * bool :=
  (set_contained (frozen_objects e ∖ {[i]}) (blocked_paths e) (risk_marks e) e,
   bool_decide (i ∈ frozen_objects e)).
(* @src src/runtime/src/safety/deterministic.rs:366-368 DeterministicSafetyEngine::unblock_path *)
Definition unblock_path (p : string) (e : DeterministicSafetyEngine) : DeterministicSafetyEngine * bool :=
  (set_contained (frozen_objects e) (blocked_paths e ∖ {[p]}) (risk_marks e) e,
   bool_decide (p ∈ blocked_paths e)).
(* @src src/runtime/src/safety/deterministic.rs:371-373 DeterministicSafetyEngine::clear_risk *)
Definition clear_risk (i : id32) (e : DeterministicSafetyEngine) : DeterministicSafetyEngine * bool :=
  (set_contained (frozen_objects e) (blocked_paths e) (delete i (risk_marks e)) e,
   bool_decide (is_Some (risk_marks e !! i))).

(* @src src/runtime/src/safety/deterministic.rs:378-382 DeterministicSafetyEngine::prune *)
Definition prune (before : Z) (e : DeterministicSafetyEngine) : DeterministicSafetyEngine :=
  set_tracked (filter (λ p, before ≤ p.1) (epoch_outflows e))
    (filter (λ p, before ≤ p.1.1) (object_outflows e)) (filter (λ p, before ≤ p.1.2) (failure_counts e)) e.
End engine.
End DeterministicSafetyEngine.

(** ** Histories *)

Inductive engine_op : Type :=
| DoOutflow (epoch : Z) (i : id32) (amt : Z)
| DoInvariant (epoch expected actual : Z) (objs : list id32)
| DoFailure (epoch : Z) (path : string)
| DoDivergence (epoch : Z) (expected actual : id32) (objs : list id32)
| DoDependency (epoch : Z) (source reason : string) (paths : list string)
| DoMark (objs : list id32) (level : RiskLevel)
| DoUnfreeze (i : id32)
| DoUnblock (path : string)
| DoClear (i : id32)
| DoPrune (before : Z).

Section histories.
Context `{Sha256}.
Import DeterministicSafetyEngine.

Definition do_op (o : engine_op) (e : DeterministicSafetyEngine) : DeterministicSafetyEngine :=
  match o with
  | DoOutflow epoch i amt => (record_outflow epoch i amt e).1
  | DoInvariant epoch x y objs => (check_invariant epoch x y objs e).1
  | DoFailure epoch path => (record_failure epoch path e).1
  | DoDivergence epoch x y objs => (report_state_divergence epoch x y objs e).1
  | DoDependency epoch s r paths => (report_invalid_dependency epoch s r paths e).1
  | DoMark objs level => mark_risk objs level e
  | DoUnfreeze i => (unfreeze_object i e).1
  | DoUnblock p => (unblock_path p e).1
  | DoClear i => (clear_risk i e).1
  | DoPrune before => prune before e
  end.
(** A history is the list of operations, the latest first. *)
Definition after (c : SafetyConfig) (h : list engine_op) : DeterministicSafetyEngine :=
  foldr do_op (new c) h.

(** What left an object in an epoch, and how often a path failed in a span of
    epochs; a pruning forgets the epochs before it. *)
Fixpoint drained (h : list engine_op) (epoch : Z) (i : id32) : Z :=
  match h with
  | [] => 0
  | DoOutflow epoch' i' amt :: h =>
      if decide (epoch' = epoch ∧ i' = i) then sat_add 128 (drained h epoch i) amt else drained h epoch i
  | DoPrune before :: h => if decide (epoch < before) then 0 else drained h epoch i
  | _ :: h => drained h epoch i
  end.
Fixpoint failures (h : list engine_op) (path : string) (lo hi : Z) : Z :=
  match h with
  | [] => 0
  | DoFailure epoch path' :: h =>
      (if decide (path' = path ∧ lo ≤ epoch ≤ hi) then 1 else 0) + failures h path lo hi
  | DoPrune before :: h => failures h path (Z.max lo before) hi
  | _ :: h => failures h path lo hi
  end.

(** What is frozen and what is blocked: something that was cause for it happened
    since the last release. *)
Fixpoint frozen (c : SafetyConfig) (h : list engine_op) (i : id32) : Prop :=
  match h with
  | [] => False
  | DoUnfreeze i' :: h => i' ≠ i ∧ frozen c h i
  | o :: h' =>
      frozen c h' i ∨
      match o with
      | DoOutflow epoch i' _ => i' = i ∧ max_object_outflow c < drained h epoch i
      | DoInvariant _ x y objs => invariant_epsilon c < Z.abs (x - y) ∧ i ∈ objs
      | DoDivergence _ _ _ objs => i ∈ objs
      | _ => False
      end
  end.
Fixpoint blocked (c : SafetyConfig) (h : list engine_op) (p : string) : Prop :=
  match h with
  | [] => False
  | DoUnblock p' :: h => p' ≠ p ∧ blocked c h p
  | o :: h' =>
      blocked c h' p ∨
      match o with
      | DoFailure epoch p' =>
          p' = p ∧ failure_threshold c ≤ failures h p (sat_sub epoch (failure_window_epochs c)) epoch
      | DoDependency _ _ _ paths => p ∈ paths
      | _ => False
      end
  end.

(** *** The counts of a window *)

Definition in_window (path : string) (lo hi : Z) (k : string * Z) : Prop := k.1 = path ∧ lo ≤ k.2 ≤ hi.
#[local] Instance in_window_dec path lo hi k : Decision (in_window path lo hi k).
Proof. unfold in_window. apply _. Defined.

Lemma window_insert_new m k c path lo hi :
  m !! k = None →
  window_total (<[k := c]> m) path lo hi =
  (if decide (in_window path lo hi k) then c else 0) + window_total m path lo hi.
Proof.
  intros Hk. unfold window_total. rewrite map_fold_insert_L; [|intros; repeat case_decide; lia|done].
  destruct (decide (in_window path lo hi k)) as [Hd|Hd];
    [rewrite decide_True by exact Hd|rewrite decide_False by exact Hd]; done.
Qed.

Lemma window_insert m k c path lo hi :
  window_total (<[k := c]> m) path lo hi =
  window_total m path lo hi + if decide (in_window path lo hi k) then c - default 0 (m !! k) else 0.
Proof.
  destruct (m !! k) as [c0|] eqn:Ek; cbn [default from_option]; unfold Datatypes.id.
  - rewrite <- (insert_delete_id m k c0 Ek). rewrite insert_insert_eq.
    rewrite !window_insert_new by apply lookup_delete_eq. case_decide; lia.
  - rewrite window_insert_new by done. case_decide; lia.
Qed.

Lemma window_single m path epoch : window_total m path epoch epoch = default 0 (m !! (path, epoch)).
Proof.
  induction m as [|k c m Hk IH] using map_ind; [done|]. rewrite window_insert_new, IH by done.
  rewrite lookup_insert. destruct (decide (k = (path, epoch))) as [->|Hne].
  - rewrite decide_True by (split; cbn; lia || done). rewrite Hk. cbn. lia.
  - rewrite decide_False; [done|]. intros [E1 E2]. apply Hne. destruct k as [p z]. cbn in *.
    subst. f_equal. lia.
Qed.

Lemma window_prune m before path lo hi :
  window_total (filter (λ p : string * Z * Z, before ≤ p.1.2) m) path lo hi =
  window_total m path (Z.max lo before) hi.
Proof.
  induction m as [|k c m Hk IH] using map_ind; [by rewrite map_filter_empty|].
  rewrite window_insert_new by done. destruct (decide (before ≤ k.2)) as [Hb|Hb].
  - rewrite map_filter_insert_True by done. rewrite window_insert_new, IH.
    + f_equal. unfold in_window. repeat case_decide; (done || lia || naive_solver lia).
    + by apply map_lookup_filter_None_2; left.
  - rewrite map_filter_insert_not' by (cbn; naive_solver). rewrite IH.
    rewrite decide_False; [done|]. unfold in_window. lia.
Qed.

Lemma failures_bound h path lo hi : 0 ≤ failures h path lo hi ≤ Z.of_nat (length h).
Proof.
  revert lo. induction h as [|o h IH]; intros lo; [done|]. cbn [length failures].
  destruct o; try (pose proof (IH lo); lia).
  - pose proof (IH lo). case_decide; lia.
  - pose proof (IH (Z.max lo before)). lia.
Qed.

(** What the engine keeps of its history. *)
Record tracks (c : SafetyConfig) (h : list engine_op) (e : DeterministicSafetyEngine) : Prop := {
  tk_config : config e = c;
  tk_outflows : ∀ epoch i, default 0 (object_outflows e !! (epoch, i)) = drained h epoch i;
  tk_failures : ∀ path lo hi, window_total (failure_counts e) path lo hi = failures h path lo hi;
  tk_frozen : ∀ i, i ∈ frozen_objects e ↔ frozen c h i;
  tk_blocked : ∀ p, p ∈ blocked_paths e ↔ blocked c h p }.

(** The fields an operation writes, in one equation each. *)
Lemma outflow_fields ep i amt e :
  let e' := (record_outflow ep i amt e).1 in
  let total := sat_add 128 (default 0 (object_outflows e !! (ep, i))) amt in
  config e' = config e ∧ failure_counts e' = failure_counts e ∧ blocked_paths e' = blocked_paths e ∧
  object_outflows e' = <[(ep, i) := total]> (object_outflows e) ∧
  frozen_objects e' = frozen_objects e ∪ if decide (max_object_outflow (config e) < total) then {[i]} else ∅.
Proof.
  unfold record_outflow, outflow_of_epoch, outflow_of_object, freeze, set_contained, set_tracked, emit.
  case_decide; cbn; case_decide; cbn; split_and!; try done; set_solver.
Qed.
Lemma invariant_fields ep x y objs e :
  let e' := (check_invariant ep x y objs e).1 in
  config e' = config e ∧ failure_counts e' = failure_counts e ∧ blocked_paths e' = blocked_paths e ∧
  object_outflows e' = object_outflows e ∧
  frozen_objects e' = frozen_objects e ∪
    if decide (invariant_epsilon (config e) < Z.abs (x - y)) then list_to_set objs else ∅.
Proof.
  unfold check_invariant, freeze, set_contained, emit.
  assert ((if decide (y < x) then x - y else y - x) = Z.abs (x - y)) as -> by (case_decide; lia).
  case_decide; cbn; split_and!; try done; set_solver.
Qed.
Lemma failure_fields ep path e :
  let e' := (record_failure ep path e).1 in
  let m := <[(path, ep) := wrapu 32 (default 0 (failure_counts e !! (path, ep)) + 1)]> (failure_counts e) in
  config e' = config e ∧ failure_counts e' = m ∧ object_outflows e' = object_outflows e ∧
  frozen_objects e' = frozen_objects e ∧
  blocked_paths e' = blocked_paths e ∪
    if decide (failure_threshold (config e) ≤
               wrapu 32 (window_total m path (sat_sub ep (failure_window_epochs (config e))) ep))
    then {[path]} else ∅.
Proof.
  unfold record_failure, block, set_contained, set_tracked, emit. cbn.
  case_decide; cbn; split_and!; try done; set_solver.
Qed.

Lemma failures_one h path epoch path' lo hi :
  failures (DoFailure epoch path :: h) path' lo hi =
  failures h path' lo hi + if decide (in_window path' lo hi (path, epoch)) then 1 else 0.
Proof.
  cbn [failures]. destruct (decide (in_window path' lo hi (path, epoch))) as [Hd|Hd];
    [rewrite decide_True by exact Hd|rewrite decide_False by exact Hd]; lia.
Qed.

Lemma tracks_failure c h e ep path :
  tracks c h e → Z.of_nat (S (length h)) < 2 ^ 32 → tracks c (DoFailure ep path :: h) (do_op (DoFailure ep path) e).
Proof.
  intros [Hc Ho Hf Hfz Hb] Hl. cbn [do_op].
  destruct (failure_fields ep path e) as (Ec & Ef & Eo & Ez & Eb).
  assert (default 0 (failure_counts e !! (path, ep)) + 1 = failures h path ep ep + 1) as Ecount
    by (by rewrite <- window_single, Hf).
  pose proof (failures_bound h path ep ep) as Hbd.
  assert (∀ path' lo hi, window_total (failure_counts (record_failure ep path e).1) path' lo hi =
    failures (DoFailure ep path :: h) path' lo hi) as Hf'.
  { intros path' lo hi. rewrite Ef, window_insert, failures_one, Hf, wrapu_id by (split; lia).
    destruct (decide (in_window path' lo hi (path, ep))); lia. }
  split; [congruence|intros; by rewrite Eo|done|intros; rewrite Ez, Hfz; cbn; tauto|].
  intros p. rewrite Eb, <- Ef, Hf', elem_of_union, Hb, Hc. cbn [blocked].
  rewrite wrapu_id by (pose proof (failures_bound (DoFailure ep path :: h) path
    (sat_sub ep (failure_window_epochs c)) ep) as Hb2; cbn [length] in Hb2; split; lia).
  split.
  - intros [?|Hin]; [by left|]. right. case_decide as Hd; [|by apply elem_of_empty in Hin].
    by apply elem_of_singleton in Hin as ->.
  - intros [?|[<- Hd]]; [by left|]. right. rewrite decide_True by exact Hd. by apply elem_of_singleton.
Qed.

Lemma tracks_outflow c h e ep i amt :
  tracks c h e → tracks c (DoOutflow ep i amt :: h) (do_op (DoOutflow ep i amt) e).
Proof.
  intros [Hc Ho Hf Hfz Hb]. cbn [do_op].
  destruct (outflow_fields ep i amt e) as (Ec & Ef & Eb & Eo & Ez).
  assert (∀ ep' i', default 0 (object_outflows (record_outflow ep i amt e).1 !! (ep', i')) =
    drained (DoOutflow ep i amt :: h) ep' i') as Ho'.
  { intros ep' i'. rewrite Eo, lookup_insert. cbn [drained].
    destruct (decide (ep = ep' ∧ i = i')) as [[-> ->]|Hne].
    - rewrite decide_True by done. cbn. by rewrite Ho.
    - rewrite decide_False by naive_solver. apply Ho. }
  split; [congruence|done|intros; by rewrite Ef| |intros; rewrite Eb, Hb; cbn; tauto].
  intros j. rewrite Ez, elem_of_union, Hfz, Ho, Hc. cbn [frozen drained].
  split.
  - intros [?|Hin]; [by left|]. right. case_decide as Hd; [|by apply elem_of_empty in Hin].
    apply elem_of_singleton in Hin as ->. by rewrite decide_True by done.
  - intros [?|[<- Hd]]; [by left|]. right. rewrite decide_True in Hd by done. rewrite decide_True by exact Hd.
    by apply elem_of_singleton.
Qed.

Lemma tracks_step c h e o :
  tracks c h e → Z.of_nat (S (length h)) < 2 ^ 32 → tracks c (o :: h) (do_op o e).
Proof.
  intros Ht Hl. destruct o as [ep i amt|ep x y objs|ep path|ep x y objs|ep s r paths|objs lv|i|p|i|before];
    [by apply tracks_outflow| |by apply tracks_failure|..];
    clear Hl; destruct Ht as [Hc Ho Hf Hfz Hb]; cbn [do_op].
  - destruct (invariant_fields ep x y objs e) as (Ec & Ef & Eb & Eo & Ez).
    split; [congruence|intros; by rewrite Eo|intros; by rewrite Ef| |intros; rewrite Eb, Hb; cbn; tauto].
    intros j. rewrite Ez, elem_of_union, Hfz, Hc. cbn [frozen].
    destruct (decide (invariant_epsilon c < Z.abs (x - y)));
      [rewrite elem_of_list_to_set|rewrite elem_of_empty]; tauto.
  - split; cbn; try done; set_solver.
  - split; cbn; try done; set_solver.
  - split; cbn; try done; set_solver.
  - split; cbn; try done; set_solver.
  - split; cbn; try done; set_solver.
  - split; cbn; try done; set_solver.
  - split; cbn; [done| | |set_solver..].
    + intros ep i. rewrite map_lookup_filter. rewrite <- Ho.
      destruct (object_outflows e !! (ep, i)) as [z|]; cbn; [|by case_decide].
      destruct (decide (ep < before)); [rewrite option_guard_False by (cbn; lia)|rewrite option_guard_True by (cbn; lia)]; done.
    + intros p lo hi. rewrite window_prune. apply Hf.
Qed.

Lemma tracks_after c h : Z.of_nat (length h) < 2 ^ 32 → tracks c h (after c h).
Proof.
  induction h as [|o h IH]; intros Hl; [by split|]. cbn [length] in Hl. apply tracks_step; [|done].
  apply IH. lia.
Qed.

(** C36: After any history exactly those objects are frozen that drained too much, were
    part of a violated invariant or of a divergence, since they were last released;
    and exactly those paths blocked that failed often enough within the window or
    depend on something invalid. *)
Theorem engine_containment_exact (c : SafetyConfig) (h : list engine_op) :
  Z.of_nat (length h) < 2 ^ 32 →
  (∀ i, is_frozen (after c h) i = true ↔ frozen c h i) ∧
  (∀ p, is_path_blocked (after c h) p = true ↔ blocked c h p).
Proof.
  intros Hl. destruct (tracks_after c h Hl) as [_ _ _ Hfz Hb].
  split; intros; unfold is_frozen, is_path_blocked; rewrite bool_decide_eq_true; done.
Qed.
End histories.

(** An object that drains in two steps, is released, and drains again. *)
Definition small_safety_config : SafetyConfig := mkSafetyConfig 1000 100 2 3 0.
Definition sample_history : list engine_op :=
  [DoOutflow 4 7 150; DoUnfreeze 7; DoOutflow 3 7 60; DoFailure 9 "swap"; DoOutflow 3 7 60; DoFailure 6 "swap"].
Lemma engine_containment_exact_witness :
  @DeterministicSafetyEngine.is_frozen (@after sample_sha256 small_safety_config sample_history) 7 = true ∧
  DeterministicSafetyEngine.is_path_blocked (@after sample_sha256 small_safety_config sample_history) "swap" = true.
Proof.
  destruct (@engine_containment_exact sample_sha256 small_safety_config sample_history) as [Hf Hb];
    [by vm_compute|]. split.
  - apply Hf. cbn. right. by vm_compute.
  - apply Hb. cbn. left. left. left. right. split; [done|]. by vm_compute.
Defined.
