(* ===== verification/Mempool.v ===== *)
(** * The intent mempool

    The fee-prioritised pool of src/runtime/src/poseq/mempool.rs: pending
    transactions by id, and an index ordered by fee (highest first) and id that
    the pool evicts from and builds batches with. *)

From stdpp Require Import gmap strings list sorting.
From S2P Require Import Prelude Errors Objects Concrete FeeEnvelope Intents.

(** The derived order of [PriorityKey]: by negated fee, then by id. *)
(* @src src/runtime/src/poseq/mempool.rs:17-25 PriorityKey *)
Record PriorityKey : Type := mkKey { neg_fee : Z; pk_tx_id : id32 }.

#[export] Instance PriorityKey_eq_dec : EqDecision PriorityKey.
Proof. solve_decision. Defined.
#[export] Instance PriorityKey_countable : Countable PriorityKey.
Proof.
  apply (inj_countable' (λ k, (neg_fee k, pk_tx_id k)) (λ p, mkKey p.1 p.2)). by intros [].
Defined.

Definition pk_le (k k' : PriorityKey) : Prop :=
  neg_fee k < neg_fee k' ∨ (neg_fee k = neg_fee k' ∧ pk_tx_id k ≤ pk_tx_id k').
#[export] Instance pk_le_dec : RelDecision pk_le.
Proof. intros k k'. unfold pk_le. apply _. Defined.
#[export] Instance pk_le_trans : Transitive pk_le.
Proof. unfold pk_le. intros ???. lia. Qed.
#[export] Instance pk_le_total : Total pk_le.
Proof. unfold pk_le. intros ??. lia. Qed.
#[export] Instance pk_le_antisym : AntiSymm (=) pk_le.
Proof. unfold pk_le. intros [] [] ??. cbn in *. f_equal; lia. Qed.

(* @src src/runtime/src/poseq/mempool.rs:27-35 IntentMempool *)
Record IntentMempool : Type := mkMempool {
  pending : gmap id32 IntentTransaction;
  priority_index : gset PriorityKey;
  max_size : nat }.

Module IntentMempool.
(* @src src/runtime/src/poseq/mempool.rs:38-44 IntentMempool::new *)
Definition new (size : nat) : IntentMempool := mkMempool ∅ ∅ size.

(* @src src/runtime/src/poseq/mempool.rs:46-51 IntentMempool::priority_key *)
Definition priority_key (tx : IntentTransaction) : PriorityKey := mkKey (- max_fee tx) (tx_id tx).

(** The index in the order of the [BTreeSet]. *)
Definition by_priority (m : IntentMempool) : list PriorityKey :=
  merge_sort pk_le (elements (priority_index m)).

Definition add (tx : IntentTransaction) (m : IntentMempool) : IntentMempool :=
  mkMempool (<[tx_id tx := tx]> (pending m)) ({[priority_key tx]} ∪ priority_index m) (max_size m).

(* @src src/runtime/src/poseq/mempool.rs:53-85 IntentMempool::insert *)
Definition insert (tx : IntentTransaction) (m : IntentMempool) : IntentMempool * bool :=
  if decide (is_Some (pending m !! tx_id tx)) then (m, false) else
  if decide (max_size m ≤ size (pending m))%nat then
    match last (by_priority m) with
    | Some lowest =>
        let lowest_fee := wrapu 64 (- neg_fee lowest) in
        if decide (max_fee tx ≤ lowest_fee) then (m, false)
        else
          let m := mkMempool (delete (pk_tx_id lowest) (pending m))
                     (priority_index m ∖ {[lowest]}) (max_size m) in
          (add tx m, true)
    | None => (m, false)
    end
  else (add tx m, true).

(* @src src/runtime/src/poseq/mempool.rs:87-90 IntentMempool::get *)
Definition get (m : IntentMempool) (i : id32) : option IntentTransaction := pending m !! i.

(* @src src/runtime/src/poseq/mempool.rs:92-101 IntentMempool::remove *)
Definition remove (i : id32) (m : IntentMempool) : IntentMempool * option IntentTransaction :=
  match pending m !! i with
  | Some tx => (mkMempool (delete i (pending m)) (priority_index m ∖ {[priority_key tx]})
                  (max_size m), Some tx)
  | None => (m, None)
  end.

(* @src src/runtime/src/poseq/mempool.rs:103-109 IntentMempool::top_n *)
Definition top_n (n : nat) (m : IntentMempool) : list IntentTransaction :=
  omap (λ k, pending m !! pk_tx_id k) (take n (by_priority m)).

(* @src src/runtime/src/poseq/mempool.rs:111-122 IntentMempool::expire *)
Definition expire (current_epoch : Z) (m : IntentMempool) : IntentMempool * nat :=
  let expired := tx_id <$> filter (λ tx, it_deadline_epoch tx ≤ current_epoch)
                   (btree_values (pending m)) in
  (foldl (λ m i, (remove i m).1) m expired, length expired).

(* @src src/runtime/src/poseq/mempool.rs:124-127 IntentMempool::len *)
Definition len (m : IntentMempool) : nat := size (pending m).

(* @src src/runtime/src/poseq/mempool.rs:129-131 IntentMempool::is_empty *)
Definition is_empty (m : IntentMempool) : bool := bool_decide (pending m = ∅).

(* @src src/runtime/src/poseq/mempool.rs:133-137 IntentMempool::clear *)
Definition clear (m : IntentMempool) : IntentMempool := mkMempool ∅ ∅ (max_size m).
End IntentMempool.
Import IntentMempool.

(** ** The pool's invariant *)

(** The index is the image of the pending transactions, each sits at its own id,
    fees fit their type, and the pool respects its size. *)
Record mempool_inv (m : IntentMempool) : Prop := {
  mp_index k : k ∈ priority_index m ↔ ∃ i tx, pending m !! i = Some tx ∧ k = priority_key tx;
  mp_ids i tx : pending m !! i = Some tx → tx_id tx = i ∧ fits 64 (max_fee tx);
  mp_size : (size (pending m) ≤ max_size m)%nat }.

Inductive mempool_reachable (size : nat) : IntentMempool → Prop :=
| reach_new : mempool_reachable size (new size)
| reach_insert m tx :
    mempool_reachable size m → fits 64 (max_fee tx) → mempool_reachable size (insert tx m).1
| reach_remove m i : mempool_reachable size m → mempool_reachable size (remove i m).1
| reach_expire m now : mempool_reachable size m → mempool_reachable size (expire now m).1
| reach_clear m : mempool_reachable size m → mempool_reachable size (clear m).

(** ** Lemmas *)

Lemma empty_pool_inv size : mempool_inv (new size).
Proof. split; cbn; [set_solver| |rewrite map_size_empty; lia]. intros i tx. by rewrite lookup_empty. Qed.

Lemma add_inv tx m :
  mempool_inv m → pending m !! tx_id tx = None → fits 64 (max_fee tx) →
  (size (pending m) < max_size m)%nat → mempool_inv (add tx m).
Proof.
  intros [Hi Hid Hs] Hn Hf Hlt. split; cbn.
  - intros k. rewrite elem_of_union, elem_of_singleton, Hi. split.
    + intros [->|(i & tx' & H' & ->)]; [exists (tx_id tx), tx; by rewrite lookup_insert_eq|].
      exists i, tx'. rewrite lookup_insert_ne; [done|]. congruence.
    + intros (i & tx' & H' & ->). rewrite lookup_insert in H'. case_decide; [left|right; eauto].
      by injection H' as ->.
  - intros i tx'. rewrite lookup_insert. case_decide; [|apply Hid]. intros [= <-]. by subst.
  - rewrite map_size_insert_None by done. lia.
Qed.

Lemma delete_inv m i tx :
  mempool_inv m → pending m !! i = Some tx →
  mempool_inv (mkMempool (delete i (pending m)) (priority_index m ∖ {[priority_key tx]}) (max_size m)).
Proof.
  intros [Hi Hid Hs] Hx. split; cbn.
  - intros k. rewrite elem_of_difference, elem_of_singleton, Hi. split.
    + intros [(j & tx' & H' & ->) Hne]. exists j, tx'. split; [|done].
      rewrite lookup_delete_ne; [done|]. intros ->. congruence.
    + intros (j & tx' & H' & ->). rewrite lookup_delete in H'. case_decide; [done|].
      split; [by eauto|]. intros [= _ E]. apply Hid in H' as [<- _]. apply Hid in Hx as [<- _].
      congruence.
  - intros j tx'. rewrite lookup_delete. case_decide; [done|apply Hid].
  - rewrite map_size_delete_Some by (by eexists). lia.
Qed.

Lemma remove_inv i m : mempool_inv m → mempool_inv (remove i m).1.
Proof.
  intros Hm. unfold remove. destruct (pending m !! i) as [tx|] eqn:E; [|done]. by apply delete_inv.
Qed.

Lemma by_priority_elem m k : k ∈ by_priority m ↔ k ∈ priority_index m.
Proof. unfold by_priority. by rewrite merge_sort_Permutation, elem_of_elements. Qed.

Lemma by_priority_sorted m : StronglySorted pk_le (by_priority m).
Proof. apply StronglySorted_merge_sort; apply _. Qed.

Lemma by_priority_nodup m : NoDup (by_priority m).
Proof. unfold by_priority. rewrite merge_sort_Permutation. apply NoDup_elements. Qed.

Lemma sorted_last l k :
  StronglySorted pk_le l → last l = Some k → k ∈ l ∧ ∀ k', k' ∈ l → pk_le k' k.
Proof.
  intros Hs. rewrite last_Some. intros (l' & ->). split; [set_solver|].
  induction l' as [|a l' IH]; cbn in *.
  - intros k' ->%list_elem_of_singleton. right. lia.
  - inversion Hs as [|? ? Hs' Hf]; subst. rewrite Forall_forall in Hf.
    intros k' [->|Hin]%elem_of_cons; [apply Hf; set_solver|by apply IH].
Qed.

(** The lowest key of a pool that is not empty. *)
Lemma lowest_spec m k :
  mempool_inv m → last (by_priority m) = Some k →
  ∃ low, pending m !! tx_id low = Some low ∧ k = priority_key low ∧
    (∀ i tx, pending m !! i = Some tx → pk_le (priority_key tx) k) ∧
    wrapu 64 (- neg_fee k) = max_fee low.
Proof.
  intros [Hi Hid _] Hl. destruct (sorted_last _ _ (by_priority_sorted m) Hl) as [Hin Hmax].
  rewrite by_priority_elem, Hi in Hin. destruct Hin as (i & low & Hlow & ->).
  destruct (Hid _ _ Hlow) as [Eid Hf]. exists low. rewrite Eid. split_and!; [done|done| |].
  - intros j tx Hj. apply Hmax. rewrite by_priority_elem, Hi. by exists j, tx.
  - cbn. rewrite Z.opp_involutive. by apply wrapu_id.
Qed.

Lemma insert_inv tx m : mempool_inv m → fits 64 (max_fee tx) → mempool_inv (insert tx m).1.
Proof.
  intros Hm Hf. unfold insert. case_decide as Hd; [done|].
  apply eq_None_not_Some in Hd. case_decide as Hfull; [|apply add_inv; [done..|lia]].
  destruct (last (by_priority m)) as [k|] eqn:Hl; [|done].
  destruct (lowest_spec m k Hm Hl) as (low & Hlow & -> & _ & _). case_decide; [done|].
  apply add_inv; cbn [pending max_size].
  - by apply delete_inv.
  - cbn. rewrite lookup_delete. by case_decide.
  - done.
  - cbn. rewrite map_size_delete_Some by (by eexists).
    pose proof (mp_size _ Hm). assert (size (pending m) ≠ 0%nat); [|lia].
    intros E%map_size_empty_inv. by rewrite E, lookup_empty in Hlow.
Qed.

Lemma expire_inv now m : mempool_inv m → mempool_inv (expire now m).1.
Proof.
  unfold expire. cbn [fst]. generalize (tx_id <$> filter (λ tx, it_deadline_epoch tx ≤ now)
    (btree_values (pending m))) as l. intros l. revert m.
  induction l as [|i l IH]; intros m Hm; [done|]. apply IH, remove_inv, Hm.
Qed.

Lemma reachable_inv size m : mempool_reachable size m → mempool_inv m ∧ max_size m = size.
Proof.
  induction 1 as [|m tx _ [IH E] Hf|m i _ [IH E]|m now _ [IH E]|m _ [IH E]].
  - split; [apply empty_pool_inv|done].
  - split; [by apply insert_inv|]. rewrite <- E. unfold insert.
    case_decide; [done|]. case_decide; [|done]. destruct (last _); [|done]. by case_decide.
  - split; [by apply remove_inv|]. unfold remove. by destruct (pending m !! i).
  - split; [by apply expire_inv|]. rewrite <- E. unfold expire. cbn [fst]. clear.
    generalize (tx_id <$> filter (λ tx, it_deadline_epoch tx ≤ now) (btree_values (pending m))) as l.
    intros l. revert m. induction l as [|i l IH]; intros m; [done|]. cbn. rewrite IH.
    unfold remove. by destruct (pending m !! i).
  - split; [|done]. split; cbn; [set_solver| |rewrite map_size_empty; lia].
    intros i tx. by rewrite lookup_empty.
Qed.

Lemma by_priority_last_none m : mempool_inv m → last (by_priority m) = None → pending m = ∅.
Proof.
  intros [Hi _ _] Hl. apply map_empty. intros i. apply eq_None_not_Some. intros [tx Hx].
  apply last_None in Hl. assert (priority_key tx ∈ by_priority m) as Hin.
  { rewrite by_priority_elem, Hi. eauto. }
  rewrite Hl in Hin. set_solver.
Qed.

(** The transactions of a list of keys of the index. *)
Lemma omap_keys m l :
  mempool_inv m → Forall (λ k, k ∈ priority_index m) l →
  priority_key <$> omap (λ k, pending m !! pk_tx_id k) l = l.
Proof.
  intros Hm. induction 1 as [|k l Hk _ IH]; [done|]. cbn.
  apply (mp_index _ Hm) in Hk as (i & tx & Hx & ->). cbn.
  destruct (mp_ids _ Hm _ _ Hx) as [-> _]. rewrite Hx. cbn. by rewrite IH.
Qed.

Lemma length_by_priority m : mempool_inv m → length (by_priority m) = size (pending m).
Proof.
  intros Hm. rewrite <- (length_fmap pk_tx_id).
  assert (pk_tx_id <$> by_priority m ≡ₚ (map_to_list (pending m)).*1) as ->.
  - apply NoDup_Permutation; [|apply NoDup_fst_map_to_list|].
    + apply NoDup_fmap_2_strong; [|apply by_priority_nodup]. intros k k' Hk Hk' E.
      rewrite by_priority_elem in Hk, Hk'.
      apply (mp_index _ Hm) in Hk as (i & tx & Hx & ->), Hk' as (i' & tx' & Hx' & ->).
      cbn in E. destruct (mp_ids _ Hm _ _ Hx) as [<- _], (mp_ids _ Hm _ _ Hx') as [<- _]. congruence.
    + intros i. rewrite list_elem_of_fmap. setoid_rewrite by_priority_elem.
      setoid_rewrite (mp_index _ Hm). rewrite list_elem_of_fmap. split.
      * intros (k & -> & j & tx & Hx & ->). cbn. exists (j, tx). rewrite elem_of_map_to_list.
        split; [by destruct (mp_ids _ Hm _ _ Hx)|done].
      * intros ([j tx] & -> & Hx%elem_of_map_to_list). cbn. exists (priority_key tx).
        split; [by destruct (mp_ids _ Hm _ _ Hx)|]. eauto.
  - by rewrite length_fmap, length_map_to_list.
Qed.

Lemma top_n_keys n m :
  mempool_inv m → priority_key <$> top_n n m = take n (by_priority m).
Proof.
  intros Hm. apply omap_keys; [done|]. apply Forall_forall. intros k (j & Hj & _)%elem_of_take.
  apply by_priority_elem. by eapply list_elem_of_lookup_2.
Qed.

Lemma sorted_split l n k k' :
  StronglySorted pk_le l → NoDup l → k ∈ take n l → k' ∈ l → k' ∉ take n l → pk_le k k'.
Proof.
  intros Hs Hnd Hk Hk' Hn. rewrite <- (take_drop n l) in Hk', Hs.
  apply elem_of_app in Hk' as [?|Hk']; [done|].
  apply StronglySorted_app_1_elem_of with (x1 := k) (x2 := k') in Hs; done.
Qed.

(** ** Properties *)

(** What an insertion does to a well-formed pool.  It is refused, and changes
    nothing, exactly for a known id or a full pool none of whose transactions
    pays less; otherwise the transaction enters, in a full pool in place of one
    that pays less than it and that no pending transaction ranks below; and every
    reachable pool is well formed and within its size. *)
Theorem mempool_insert_spec (n : nat) (m : IntentMempool) (tx : IntentTransaction) :
  mempool_reachable n m → fits 64 (max_fee tx) →
  let '(m', ok) := insert tx m in
  mempool_inv m' ∧ (size (pending m') ≤ n)%nat ∧
  (ok = false ↔ is_Some (get m (tx_id tx)) ∨
     ((n ≤ size (pending m))%nat ∧ ∀ i tx', get m i = Some tx' → max_fee tx ≤ max_fee tx')) ∧
  (ok = false → m' = m) ∧
  (ok = true → get m' (tx_id tx) = Some tx ∧
     (pending m' = <[tx_id tx := tx]> (pending m) ∨
      ∃ low, get m (tx_id low) = Some low ∧ max_fee low < max_fee tx ∧
        (∀ i tx', get m i = Some tx' → pk_le (priority_key tx') (priority_key low)) ∧
        pending m' = <[tx_id tx := tx]> (delete (tx_id low) (pending m)))).
Proof.
  intros Hr Hf. destruct (reachable_inv n m Hr) as [Hm Hsz].
  pose proof (insert_inv tx m Hm Hf) as Hinv'.
  assert (max_size (insert tx m).1 = n) as Hsz'.
  { destruct (reachable_inv n (insert tx m).1) as [_ ?]; [by constructor|done]. }
  unfold get. destruct (insert tx m) as [m' ok] eqn:E. cbn [fst] in *.
  split; [done|]. split; [rewrite <- Hsz'; apply (mp_size _ Hinv')|]. unfold insert in E.
  case_decide as Hd; [injection E as <- <-; split_and!; [tauto|done|done]|].
  case_decide as Hfull.
  2: { injection E as <- <-. cbn. rewrite lookup_insert_eq. split_and!; [|done|by auto].
       split; [done|]. intros [?|[? _]]; [done|lia]. }
  destruct (last (by_priority m)) as [k|] eqn:Hl.
  - destruct (lowest_spec m k Hm Hl) as (low & Hlow & -> & Hmax & Hfee). rewrite Hfee in E.
    case_decide as Hle; injection E as <- <-; cbn.
    + split_and!; [|done|done]. split; [intros _|done]. right. split; [lia|].
      intros i tx' Hx. destruct (Hmax i tx' Hx) as [Hlt|[Heq _]]; cbn in *; lia.
    + rewrite lookup_insert_eq. split_and!; [|done|].
      * split; [done|]. intros [?|[_ Hall]]; [done|]. specialize (Hall _ _ Hlow). lia.
      * intros _. split; [done|]. right. exists low. split_and!; [done|lia|done|done].
  - pose proof (by_priority_last_none m Hm Hl) as Hemp.
    injection E as <- <-. split_and!; [|done|done]. split; [intros _|done]. right.
    split; [lia|]. intros i tx'. by rewrite Hemp, lookup_empty.
Qed.

(** The first [n] of the pool are its best: there are [n] of them, or all
    when the pool holds fewer; they come in order of falling fee, the id breaking
    ties; and every other pending transaction ranks below each of them. *)
Theorem top_n_best (k n : nat) (m : IntentMempool) :
  mempool_reachable k m →
  length (top_n n m) = Nat.min n (size (pending m)) ∧
  StronglySorted pk_le (priority_key <$> top_n n m) ∧ NoDup (priority_key <$> top_n n m) ∧
  (∀ tx, tx ∈ top_n n m → get m (tx_id tx) = Some tx) ∧
  (∀ tx i tx', tx ∈ top_n n m → get m i = Some tx' → tx' ∉ top_n n m →
     max_fee tx' ≤ max_fee tx ∧ pk_le (priority_key tx) (priority_key tx')).
Proof.
  intros Hr. destruct (reachable_inv k m Hr) as [Hm _].
  pose proof (top_n_keys n m Hm) as Hk.
  assert (∀ tx, tx ∈ top_n n m → get m (tx_id tx) = Some tx) as Hget.
  { intros tx (key & _ & Hx)%list_elem_of_omap.
    unfold get. by destruct (mp_ids _ Hm _ _ Hx) as [-> _]. }
  split_and!; [| | |exact Hget|].
  - rewrite <- (length_fmap priority_key), Hk, length_take, length_by_priority; done.
  - rewrite Hk. pose proof (by_priority_sorted m) as Hs. rewrite <- (take_drop n (by_priority m)) in Hs.
    by apply StronglySorted_app_1_l in Hs.
  - rewrite Hk. apply (sublist_NoDup _ (by_priority m)); [apply by_priority_nodup|apply sublist_take].
  - intros tx i tx' Hin Hx Hout.
    assert (pk_le (priority_key tx) (priority_key tx')) as Hle.
    { apply (sorted_split (by_priority m) n);
        [apply by_priority_sorted|apply by_priority_nodup| |rewrite by_priority_elem, (mp_index _ Hm); eauto|].
      - rewrite <- Hk. by apply list_elem_of_fmap_2.
      - rewrite <- Hk. intros (tx2 & E & Hin2)%list_elem_of_fmap. apply Hout.
        pose proof (Hget _ Hin2) as Hg2. unfold get in *. destruct (mp_ids _ Hm _ _ Hx) as [Ei _].
        injection E as _ E. rewrite <- E, Ei, Hx in Hg2. by injection Hg2 as ->. }
    split; [|done]. destruct Hle as [?|[? _]]; cbn in *; lia.
Qed.

Definition pool_tx (i fee : Z) : IntentTransaction :=
  mkIntent i 7 sample_transfer fee 100 0 [] ∅ [] default_constraints BestEffort None None
    (mkSponsorshipLimits None None [] [] None) SenderPays None.
Definition sample_pool : IntentMempool :=
  foldl (λ m tx, (insert tx m).1) (new 2) [pool_tx 1 100; pool_tx 2 200].
Lemma sample_pool_reachable : mempool_reachable 2 sample_pool.
Proof. repeat (apply reach_insert; [|by_eval]). constructor. Qed.

Lemma mempool_insert_spec_witness :
  (insert (pool_tx 3 500) sample_pool).2 = true ∧
  get (insert (pool_tx 3 500) sample_pool).1 3 = Some (pool_tx 3 500).
Proof.
  pose proof (mempool_insert_spec 2 sample_pool (pool_tx 3 500) sample_pool_reachable) as Hs.
  assert ((insert (pool_tx 3 500) sample_pool).2 = true) as E by reflexivity.
  destruct (insert (pool_tx 3 500) sample_pool) as [m' ok]. cbn [fst snd] in *. subst ok.
  split; [reflexivity|]. apply Hs; [by_eval|reflexivity].
Defined.

Lemma top_n_best_witness :
  length (top_n 1 sample_pool) = 1%nat ∧ max_fee <$> top_n 5 sample_pool = [200; 100].
Proof.
  destruct (top_n_best 2 1 sample_pool sample_pool_reachable) as [H _].
  split; [exact H|reflexivity].
Defined.
