(* ===== verification/Runtime.v ===== *)
(** * The PoSeq runtime

    The top of the intent path: [PoSeqRuntime::process_batch] of
    src/runtime/src/poseq/interface.rs runs an ordered batch through validation,
    resolution, scheduling and settlement, with the capabilities of
    src/runtime/src/capabilities/registry.rs and the quarantine of the safety
    kernel (src/runtime/src/safety/kernel.rs). *)

From stdpp Require Import gmap strings list sorting.
From S2P Require Import SafetyRules.
From S2P Require Import Prelude Errors Gas Objects Concrete Store FeeEnvelope Intents.
From S2P Require Import Planner Scheduler Artifacts Settlement Cells SettlementFacts.
From S2P Require Import SettlementProps Independence Supply Groups.

(** ** Capabilities per sender *)

(* @src src/runtime/src/capabilities/registry.rs:10-17 CapabilityRegistry *)
Record CapabilityRegistry : Type := mkRegistry {
  entries : gmap id32 CapabilitySet;
  default_caps : CapabilitySet }.

Module CapabilityRegistry.
(* @src src/runtime/src/capabilities/registry.rs:20-26 CapabilityRegistry::new *)
Definition new : CapabilityRegistry := mkRegistry ∅ CapabilitySet.user_default.

(* @src src/runtime/src/capabilities/registry.rs:28-34 CapabilityRegistry::with_default *)
Definition with_default (caps : CapabilitySet) : CapabilityRegistry := mkRegistry ∅ caps.

(* @src src/runtime/src/capabilities/registry.rs:36-39 CapabilityRegistry::register *)
Definition register (who : id32) (caps : CapabilitySet) (r : CapabilityRegistry)
  : CapabilityRegistry := mkRegistry (<[who := caps]> (entries r)) (default_caps r).

(* @src src/runtime/src/capabilities/registry.rs:41-44 CapabilityRegistry::revoke *)
Definition revoke (who : id32) (r : CapabilityRegistry) : CapabilityRegistry :=
  mkRegistry (delete who (entries r)) (default_caps r).

(* @src src/runtime/src/capabilities/registry.rs:46-49 CapabilityRegistry::resolve *)
Definition resolve (r : CapabilityRegistry) (who : id32) : CapabilitySet :=
  default (default_caps r) (entries r !! who).

(* @src src/runtime/src/capabilities/registry.rs:51-54 CapabilityRegistry::registered_count *)
Definition registered_count (r : CapabilityRegistry) : nat := size (entries r).

(* @src src/runtime/src/capabilities/registry.rs:56-59 CapabilityRegistry::is_registered *)
Definition is_registered (r : CapabilityRegistry) (who : id32) : bool :=
  bool_decide (is_Some (entries r !! who)).
End CapabilityRegistry.

(** ** Batches *)

(* @src src/runtime/src/poseq/interface.rs:23-31 OrderedBatch *)
Record OrderedBatch : Type := mkBatch {
  batch_id : id32;
  ob_epoch : Z;
  sequence_number : Z;
  transactions : list IntentTransaction }.

(** The resolver, scheduler and engine fields are unit types. *)
(* @src src/runtime/src/poseq/interface.rs:33-49 PoSeqRuntime *)
Record PoSeqRuntime : Type := mkRuntime {
  store : ObjectStore;
  rt_epoch : Z;
  rt_safety : option SafetyKernel;
  capability_registry : option CapabilityRegistry }.

Definition is_ok {E A} (o : outcome E A) : bool := match o with Ok _ => true | _ => false end.

(** A result that cannot be an error, at any error type. *)
Definition no_error {E A} (o : outcome Empty_set A) : outcome E A :=
  match o with Ok a => Ok a | Err e => match e with end | Panic => Panic end.

Module PoSeqRuntime.
(* @src src/runtime/src/poseq/interface.rs:52-63 PoSeqRuntime::new *)
Definition new : PoSeqRuntime := mkRuntime ObjectStore.new 0 None None.

(* @src src/runtime/src/poseq/interface.rs:65-68 PoSeqRuntime::seed_object *)
Definition seed_object `{Bincode} {E} (obj : BoxedObject) (rt : PoSeqRuntime) : outcome E PoSeqRuntime :=
  st ← ObjectStore.insert obj (store rt);
  Ok (mkRuntime st (rt_epoch rt) (rt_safety rt) (capability_registry rt)).

(* @src src/runtime/src/poseq/interface.rs:171-176 PoSeqRuntime::with_safety *)
Definition with_safety (k : SafetyKernel) (rt : PoSeqRuntime) : PoSeqRuntime :=
  mkRuntime (store rt) (rt_epoch rt) (Some k) (capability_registry rt).

(* @src src/runtime/src/poseq/interface.rs:178-184 PoSeqRuntime::with_capability_registry *)
Definition with_capability_registry (r : CapabilityRegistry) (rt : PoSeqRuntime) : PoSeqRuntime :=
  mkRuntime (store rt) (rt_epoch rt) (rt_safety rt) (Some r).

(* @src src/runtime/src/poseq/interface.rs:115-129 PoSeqRuntime::process_batch *)
Definition caps_of (rt : PoSeqRuntime) (who : id32) : CapabilitySet :=
  match capability_registry rt with
  | Some r => CapabilityRegistry.resolve r who
  | None => CapabilitySet.user_default
  end.

(** Step 2: the plans of the transactions that resolve; an error skips the
    transaction, a panic stops the program. *)
(* @src src/runtime/src/poseq/interface.rs:122-137 PoSeqRuntime::process_batch *)
Fixpoint resolve_all `{U256} (rt : PoSeqRuntime) (txs : list IntentTransaction)
  : outcome RuntimeError (list ExecutionPlan) :=
  match txs with
  | [] => Ok []
  | tx :: txs =>
      match IntentResolver.resolve tx (store rt) (caps_of rt (sender tx)) with
      | Ok plan => plans ← resolve_all rt txs; Ok (plan :: plans)
      | Err _ => resolve_all rt txs
      | Panic => Panic
      end
  end.

(* @src src/runtime/src/poseq/interface.rs:139-151 PoSeqRuntime::process_batch *)
Definition clear_of_quarantine (rt : PoSeqRuntime) (plan : ExecutionPlan) : bool :=
  match rt_safety rt with
  | Some k => negb (existsb (λ a, SafetyKernel.is_object_quarantined k (object_id a)) (object_access plan))
  | None => true
  end.

(* @src src/runtime/src/poseq/interface.rs:70-161 PoSeqRuntime::process_batch *)
Definition process_batch `{Sha256, Hex, Bincode, U256} (batch : OrderedBatch)
  : M PoSeqRuntime RuntimeError SettlementResult := λ rt,
  if match rt_safety rt with Some k => emergency_mode k | None => false end then
    (rt, Err (DomainPaused
      "emergency mode active — all execution halted until governance reset"))
  else
    let rt := mkRuntime (store rt) (ob_epoch batch) (rt_safety rt) (capability_registry rt) in
    let valid_txns := filter (λ tx, is_ok (IntentTransaction.validate tx) = true) (transactions batch) in
    match resolve_all rt valid_txns with
    | Ok plans =>
        let plans := filter (λ p, clear_of_quarantine rt p = true) plans in
        match ParallelScheduler.schedule plans with
        | Ok groups =>
            let '(st, res) := SettlementEngine.execute_groups groups (ob_epoch batch) (store rt) in
            (mkRuntime st (rt_epoch rt) (rt_safety rt) (capability_registry rt), no_error res)
        | Err e => match e with end
        | Panic => (rt, Panic)
        end
    | Err e => (rt, Err e)
    | Panic => (rt, Panic)
    end.
End PoSeqRuntime.
Import PoSeqRuntime.
Import SettlementEngine.

(** ** Batches of plans *)

Section resolved.
Context `{U256}.
Implicit Types (rt : PoSeqRuntime) (txs : list IntentTransaction).

Lemma resolve_all_elem rt txs ps p :
  resolve_all rt txs = Ok ps → p ∈ ps →
  ∃ tx, tx ∈ txs ∧ IntentResolver.resolve tx (store rt) (caps_of rt (sender tx)) = Ok p.
Proof.
  revert ps. induction txs as [|tx txs IH]; intros ps; cbn.
  { intros [= <-]. set_solver. }
  destruct (IntentResolver.resolve tx _ _) as [q|e|] eqn:E; [|naive_solver set_solver|done].
  intros (qs & Eqs & [= <-])%obind_ok [->|Hin]%elem_of_cons; [exists tx; split; [by left|done]|].
  destruct (IH _ Eqs Hin) as (tx' & ? & ?). exists tx'. split; [by right|done].
Qed.

Lemma resolve_all_total rt txs :
  Forall (λ tx, IntentResolver.resolve tx (store rt) (caps_of rt (sender tx)) ≠ Panic) txs →
  ∃ ps, resolve_all rt txs = Ok ps.
Proof.
  induction 1 as [|tx txs Hp _ [ps IH]]; [by exists []|]. cbn.
  destruct (IntentResolver.resolve tx _ _); [|by exists ps|done]. rewrite IH. by eexists.
Qed.

Lemma resolve_all_none rt txs :
  Forall (λ tx, ∃ err, IntentResolver.resolve tx (store rt) (caps_of rt (sender tx)) = Err err) txs →
  resolve_all rt txs = Ok [].
Proof. induction 1 as [|tx txs [err E] _ IH]; [done|]. cbn. by rewrite E. Qed.

Lemma resolved_good rt tx p :
  store_inv (store rt) → fits 64 (max_fee tx) →
  IntentResolver.resolve tx (store rt) (caps_of rt (sender tx)) = Ok p → plan_good p.
Proof.
  intros Hinv Hf E. destruct (resolve_well _ _ _ _ Hinv E) as [_ Hlim _ Hk _ _ _ _].
  split; [rewrite Hlim; destruct Hf; split; ints|by apply resolver_no_create].
Qed.
End resolved.

(** ** Solvent stores *)

(** Well formed, with amounts in range and no total past 2^128 - 1. *)
Record solvent (st : ObjectStore) : Prop := {
  sol_inv : store_inv st;
  sol_nonneg : amounts_nonneg st;
  sol_locked : ∀ i b, balances st !! i = Some b → fits 128 (locked_amount b);
  sol_total : ∀ a, asset_total a st ≤ u128_max }.

Lemma solvent_fit st : solvent st → balances_fit st.
Proof.
  intros [Hi Hn Hl Ht] i b Hb. split; [|by eapply Hl].
  pose proof (Hn _ _ Hb). pose proof (held_le_total _ st i b Hn Hb eq_refl).
  specialize (Ht (bal_asset_id b)). ints.
Qed.

(** A plan that moves [amt] of one asset between two balances. *)
Definition transfer_plan (st : ObjectStore) (p : ExecutionPlan) : Prop :=
  fits 64 (gas_limit p) ∧ ∃ i j amt a,
    operations p = [DebitBalance i amt; CreditBalance j amt] ∧ fits 128 amt ∧
    asset_of st i = Some a ∧ asset_of st j = Some a.

(** What a batch of transfers keeps. *)
Record money_kept (st st' : ObjectStore) : Prop := {
  kept_solvent : solvent st';
  kept_assets i : asset_of st' i = asset_of st i;
  kept_totals a : asset_total a st' = asset_total a st }.

Section money.
Context `{Sha256, Hex, BincodeLaws}.

Definition money (b : BalanceObject) : id32 * Z := (bal_asset_id b, locked_amount b).

Lemma committed_money p st i :
  (money <$> balances (SettlementFacts.committed p st) !! i) =
    (money <$> balances (run p st).1.1 !! i) ∧
  (amount <$> balances (SettlementFacts.committed p st) !! i) =
    (amount <$> balances (run p st).1.1 !! i).
Proof.
  unfold SettlementFacts.committed.
  change (balances (ObjectStore.sync_typed_to_canonical ?s)) with (balances s).
  generalize (sort_dedup (targets p)) as l. generalize (run p st).1.1 as s. intros s l.
  revert s. induction l as [|j l IH]; intros s; [done|]. cbn [foldl].
  destruct (IH (SettlementEngine.bump_version s j)) as [-> ->].
  unfold SettlementEngine.bump_version. cbn. rewrite lookup_alter.
  case_decide; [subst i|done]. by destruct (balances s !! j).
Qed.

(** Debits and credits keep the asset and the lock of every balance. *)
Lemma apply_transfer_money op st aff st' aff' :
  match op with DebitBalance _ _ | CreditBalance _ _ => True | _ => False end →
  SettlementEngine.apply_op op (st, aff) = ((st', aff'), Ok tt) →
  ∀ i, (money <$> balances st' !! i) = (money <$> balances st !! i).
Proof.
  intros Hop E. assert (∃ f j, balances st' = alter f j (balances st) ∧ ∀ b, money (f b) = money b)
    as (f & j & Eb & Hf).
  { destruct op; try done; run_op; unfold ObjectStore.get_balance_by_id in E;
      destruct (balances st !! balance_id) as [b|]; cbn [ok_or] in E; try done.
    - destruct (checked_sub _ _); cbn [ok_or] in E; [|done]. injection E as <- <-. by eexists _, _.
    - injection E as <- <-. by eexists _, _. }
  intros i. rewrite Eb, lookup_alter. case_decide; [subst|done].
  destruct (balances st !! i); cbn; [by rewrite Hf|done].
Qed.

Lemma same_money_assets st st' :
  (∀ i, (money <$> balances st' !! i) = (money <$> balances st !! i)) →
  (∀ i, asset_of st' i = asset_of st i) ∧
  ((∀ i b, balances st !! i = Some b → fits 128 (locked_amount b)) →
   ∀ i b, balances st' !! i = Some b → fits 128 (locked_amount b)).
Proof.
  intros Hm. split.
  - intros i. specialize (Hm i). unfold asset_of.
    unfold money in Hm. destruct (balances st' !! i), (balances st !! i); cbn in *; congruence.
  - intros Hl i b Hb. specialize (Hm i). rewrite Hb in Hm. cbn in Hm.
    destruct (balances st !! i) as [b'|] eqn:Eb'; [|done]. injection Hm as _ ->. by eapply Hl.
Qed.

(** The two operations of a transfer, when they run. *)
Lemma run_transfer st st' aff i j amt a :
  solvent st → fits 128 amt → asset_of st i = Some a → asset_of st j = Some a →
  ops_ok st [DebitBalance i amt; CreditBalance j amt] →
  mfor SettlementEngine.apply_op [DebitBalance i amt; CreditBalance j amt] (st, []) =
    ((st', aff), Ok tt) →
  amounts_nonneg st' ∧ ∀ k, (money <$> balances st' !! k) = (money <$> balances st !! k).
Proof.
  intros [Hinv Hn Hl Ht] Hamt Hi Hj Hok Em. cbn [mfor] in Em.
  apply Mbind_ok in Em as ([st1 aff1] & [] & E1 & Em).
  apply Mbind_ok in Em as ([st2 aff2] & [] & E2 & [= <- <-]).
  pose proof (apply_transfer_money (DebitBalance i amt) _ _ _ _ I E1) as Hm1.
  pose proof (apply_transfer_money (CreditBalance j amt) _ _ _ _ I E2) as Hm2.
  pose proof Hok as [[Hc1 Ht1] [[Hc2 Ht2] _]%Forall_cons]%Forall_cons.
  pose proof (λ b k, proj1 (transfer_delta st a b b i j amt k Hi Hj (proj1 Hamt))) as Hd.
  destruct (apply_op_supply _ st [] st1 aff1 Hinv Hc1 Ht1 Hn) as (Htot1 & Ha1 & Hn1); [done| |done|].
  { intros b. specialize (Hd b 1%nat). specialize (Ht b).
    unfold supply_change in Hd. cbn [take fmap list_fmap sumZ foldr] in Hd. lia. }
  pose proof (apply_op_sig _ st [] Hc1 Ht1 Hinv) as Hsig. rewrite E1 in Hsig. cbn in Hsig.
  assert (sig_like st st1) as Hsig' by (intros k; by rewrite Hsig).
  assert (store_inv st1) as Hinv1 by (by apply (sig_like_inv _ _ Hsig')).
  destruct (apply_op_supply _ st1 aff1 st2 aff2 Hinv1 Hc2) as (_ & _ & Hn2);
    [by eapply sig_like_typed|done|ints| |done|].
  { intros b. specialize (Hd b 2%nat). specialize (Ht b). rewrite Htot1, (op_delta_assets st st1) by done.
    unfold supply_change in Hd. cbn [take fmap list_fmap sumZ foldr] in Hd. lia. }
  split; [exact Hn2|]. intros k. by rewrite Hm2, Hm1.
Qed.

(** Settling one transfer, whatever the receipt says. *)
Lemma settle_transfer p st :
  solvent st → transfer_plan st p →
  ∃ st' r, SettlementEngine.apply_plan p st = (st', Ok r) ∧ money_kept st st'.
Proof.
  intros Hsol (Hg & i & j & amt & a & Hops & Hamt & Hi & Hj). pose proof Hsol as [Hinv Hn Hl Ht].
  assert (no_create p) as Hnc by (unfold no_create; rewrite Hops; by repeat constructor).
  assert (Forall op_fits (operations p)) as Hof by (rewrite Hops; repeat constructor; ints).
  destruct (one_source_atomic p st Hg Hinv) as (st' & r & E & Hatom);
    [by rewrite Hops|by rewrite Hops|by apply solvent_fit|exact Hof|].
  exists st', r. split; [done|]. destruct (success r) eqn:Er; [|rewrite (Hatom eq_refl); by split].
  assert (∀ b, asset_total b st' = asset_total b st) as Htot.
  { intros b. rewrite (plan_supply p st st' r Hg Hinv Hnc Hn) with (3 := E) (4 := Er); rewrite Hops.
    - destruct (transfer_delta st a b b i j amt 0 Hi Hj) as [_ ->]; [ints|lia].
    - repeat constructor. ints.
    - intros c k. destruct (transfer_delta st a c c i j amt k Hi Hj) as [Hle _]; [ints|].
      specialize (Ht c). lia. }
  destruct (apply_plan_outcome p st Hg Hinv Hnc)
    as [(r' & E' & Hr')|[(_ & e & r' & _ & E' & Hr')|(Hok & _ & _ & Hrun & olds & E')]];
    rewrite E in E'; injection E' as -> ->; [congruence..|].
  destruct (committed_inv p st Hinv Hok) as [Hinv' _].
  pose proof (committed_money p st) as Hcm. rewrite Hops in Hok.
  destruct (run p st) as [[st2 aff2] o] eqn:Em. cbn [fst snd] in *. subst o.
  unfold run in Em. rewrite Hops in Em.
  destruct (run_transfer st st2 aff2 i j amt a Hsol Hamt Hi Hj Hok Em) as [Hn2 Hm2].
  destruct (same_money_assets st (SettlementFacts.committed p st)) as [Ha Hlock].
  { intros k. by rewrite (proj1 (Hcm k)). }
  split; [|exact Ha|exact Htot]. split; [exact Hinv'| |by apply Hlock|].
  - intros k b Hb. destruct (Hcm k) as [_ Hk]. rewrite Hb in Hk.
    destruct (balances st2 !! k) as [b2|] eqn:Eb2; [|done]. injection Hk as ->. by eapply Hn2.
  - intros b. rewrite Htot. apply Ht.
Qed.
End money.

(** ** Groups of transfers *)

Section transfers.
Context `{Sha256, Hex, BincodeLaws}.
Implicit Types (st : ObjectStore) (p : ExecutionPlan) (res : SettlementResult).

Lemma kept_refl st : solvent st → money_kept st st.
Proof. by split. Qed.

Lemma kept_trans st0 st st' : money_kept st0 st → money_kept st st' → money_kept st0 st'.
Proof.
  intros [_ Ha Ht] [Hs Ha' Ht']. split; [done| |]; intros x; [by rewrite Ha'|by rewrite Ht'].
Qed.

Lemma transfer_plan_kept st0 st p : money_kept st0 st → transfer_plan st0 p → transfer_plan st p.
Proof.
  intros [_ Ha _] (Hg & i & j & amt & a & Hops & Hamt & Hi & Hj).
  split; [done|]. exists i, j, amt, a. by rewrite !Ha.
Qed.

Lemma transfer_good st p : transfer_plan st p → plan_good p.
Proof.
  intros (Hg & i & j & amt & a & Hops & _). split; [done|].
  unfold no_create. rewrite Hops. by repeat constructor.
Qed.

Lemma sync_kept st : solvent st → money_kept st (ObjectStore.sync_typed_to_canonical st).
Proof. intros [Hi Hn Hl Ht]. split; [|done..]. split; [by apply sync_inv|done..]. Qed.

Lemma execute_transfer_groups gs now st :
  solvent st → Forall (transfer_plan st) (concat (plans <$> gs)) →
  ∃ st' res, execute_groups gs now st = (st', Ok res) ∧ money_kept st st'.
Proof.
  intros Hsol. apply (execute_groups_keep (money_kept st) (transfer_plan st)); [|apply transfer_good| | |].
  - intros st' Hk. apply (sol_inv _ (kept_solvent _ _ Hk)).
  - intros p st1 st2 r Hp Hk E. pose proof (kept_solvent _ _ Hk) as Hsol1.
    destruct (settle_transfer p st1 Hsol1 (transfer_plan_kept _ _ _ Hk Hp)) as (st2' & r' & E' & Hk').
    rewrite E in E'. injection E' as <- <-. by eapply kept_trans.
  - intros st' Hk. eapply kept_trans; [exact Hk|]. by apply sync_kept, Hk.
  - by apply kept_refl.
Qed.

(** *** Cells that no plan names *)

(** The object [j] is what it was, up to the write-back of its overlay. *)
Definition untouched (j : id32) (c : cell) (st : ObjectStore) : Prop :=
  store_inv st ∧ sync_cell (get_cell st j) = c.

Lemma sync_cell_idem c : sync_cell (sync_cell c) = sync_cell c.
Proof. destruct c as [[o|] [b|] [q|] [v|]]; done. Qed.

Lemma plan_untouched j c p st st' r :
  plan_good p → j ∉ targets p → untouched j c st → apply_plan p st = (st', Ok r) →
  untouched j c st'.
Proof.
  intros [Hg Hnc] Hj [Hinv Hc] E. destruct (apply_plan_outcome p st Hg Hinv Hnc)
    as [(r' & E' & _)|[(Hok & e & r' & _ & E' & _)|(Hok & _ & _ & Hrun & olds & E')]];
    rewrite E in E'; injection E' as -> ->; [done| |].
  - split; [by apply run_inv|]. by rewrite (run_frame _ _ _ _ (run_spec_of p st Hinv Hok) j Hj).
  - split; [by apply committed_inv|]. unfold committed.
    rewrite cell_sync, cell_bumps by apply NoDup_sort_dedup.
    rewrite decide_False by (by rewrite elem_of_sort_dedup).
    by rewrite (run_frame _ _ _ _ (run_spec_of p st Hinv Hok) j Hj), sync_cell_idem.
Qed.

Lemma groups_untouched j gs now st :
  store_inv st → Forall (λ p, plan_good p ∧ j ∉ targets p) (concat (plans <$> gs)) →
  ∃ st' res, execute_groups gs now st = (st', Ok res) ∧
    untouched j (sync_cell (get_cell st j)) st'.
Proof.
  intros Hinv. apply (execute_groups_keep (untouched j (sync_cell (get_cell st j)))
    (λ p, plan_good p ∧ j ∉ targets p)).
  - by intros st' [? _].
  - by intros p [? _].
  - intros p st1 st2 r [? ?]. by apply plan_untouched.
  - intros st1 [Hi Hc]. split; [by apply sync_inv|]. by rewrite cell_sync, sync_cell_idem.
  - by split.
Qed.
End transfers.

(** ** Whole batches *)

(** The transactions that reach the scheduler: valid, resolved, and clear of the
    quarantine. *)
Definition planned `{U256} (rt : PoSeqRuntime) (tx : IntentTransaction) : bool :=
  is_ok (IntentTransaction.validate tx) &&
  match IntentResolver.resolve tx (store rt) (caps_of rt (sender tx)) with
  | Ok p => clear_of_quarantine rt p
  | _ => false
  end.

Definition halted (rt : PoSeqRuntime) : bool :=
  match rt_safety rt with Some k => emergency_mode k | None => false end.

(** The runtime while a batch of epoch [now] is processed. *)
Definition at_epoch (rt : PoSeqRuntime) (now : Z) : PoSeqRuntime :=
  mkRuntime (store rt) now (rt_safety rt) (capability_registry rt).
Definition with_store (rt : PoSeqRuntime) (st : ObjectStore) : PoSeqRuntime :=
  mkRuntime st (rt_epoch rt) (rt_safety rt) (capability_registry rt).

Section batches.
Context `{Sha256, Hex, BincodeLaws, U256}.
Implicit Types (rt : PoSeqRuntime) (batch : OrderedBatch) (txs : list IntentTransaction).

Lemma planned_ids rt txs ps :
  store_inv (store rt) →
  resolve_all rt (filter (λ tx, is_ok (IntentTransaction.validate tx) = true) txs) = Ok ps →
  plan_tx_id <$> filter (λ p, clear_of_quarantine rt p = true) ps =
  tx_id <$> filter (λ tx, planned rt tx = true) txs.
Proof.
  intros Hinv. revert ps. induction txs as [|tx txs IH]; intros ps; [by intros [= <-]|].
  rewrite !filter_cons.
  destruct (decide (is_ok (IntentTransaction.validate tx) = true)) as [V|V].
  2: { intros E. rewrite decide_False; [by apply IH|]. unfold planned. by destruct (is_ok _). }
  cbn [resolve_all].
  destruct (IntentResolver.resolve tx _ _) as [p|e|] eqn:E; [| |done].
  - assert (planned rt tx = clear_of_quarantine rt p) as Hp by (unfold planned; by rewrite V, E).
    intros (qs & Eqs & [= <-])%obind_ok. rewrite filter_cons.
    destruct (decide (planned rt tx = true)), (decide (clear_of_quarantine rt p = true));
      try congruence; [|by apply IH].
    cbn. f_equal; [|by apply IH]. by rewrite (res_tx_id _ _ _ _ (resolve_well _ _ _ _ Hinv E)).
  - intros Eps. rewrite decide_False; [by apply IH|]. unfold planned. by rewrite V, E.
Qed.

(** What the steps before execution make of a batch that does not halt. *)
Lemma batch_groups rt txs :
  store_inv (store rt) → NoDup (tx_id <$> txs) → Forall (λ tx, fits 64 (max_fee tx)) txs →
  Forall (λ tx, IntentResolver.resolve tx (store rt) (caps_of rt (sender tx)) ≠ Panic) txs →
  ∃ ps gs, resolve_all rt (filter (λ tx, is_ok (IntentTransaction.validate tx) = true) txs) = Ok ps ∧
    ParallelScheduler.schedule (filter (λ p, clear_of_quarantine rt p = true) ps) = Ok gs ∧
    plan_tx_id <$> concat (plans <$> gs) ≡ₚ tx_id <$> filter (λ tx, planned rt tx = true) txs ∧
    Forall (λ p, clear_of_quarantine rt p = true ∧ ∃ tx, tx ∈ txs ∧
      IntentTransaction.validate tx = Ok tt ∧
      IntentResolver.resolve tx (store rt) (caps_of rt (sender tx)) = Ok p) (concat (plans <$> gs)) ∧
    Forall plan_good (concat (plans <$> gs)).
Proof.
  intros Hinv Hnd Hfee Hnp.
  destruct (resolve_all_total rt
    (filter (λ tx, is_ok (IntentTransaction.validate tx) = true) txs)) as [ps Eps].
  { apply Forall_forall. intros tx [_ Htx]%list_elem_of_filter. by apply (proj1 (Forall_forall _ _) Hnp). }
  pose proof (planned_ids rt txs ps Hinv Eps) as Hids.
  destruct (schedule_total (filter (λ p, clear_of_quarantine rt p = true) ps)) as (gs & Egs & Hperm).
  { rewrite Hids. eapply sublist_NoDup; [exact Hnd|]. by apply fmap_sublist, sublist_filter. }
  assert (Forall (λ p, clear_of_quarantine rt p = true ∧ ∃ tx, tx ∈ txs ∧
      IntentTransaction.validate tx = Ok tt ∧
      IntentResolver.resolve tx (store rt) (caps_of rt (sender tx)) = Ok p) (concat (plans <$> gs)))
    as Hall.
  { rewrite Hperm. apply Forall_forall. intros p [Hc Hp]%list_elem_of_filter. split; [done|].
    destruct (resolve_all_elem _ _ _ _ Eps Hp) as (tx & [Hv Htx]%list_elem_of_filter & E).
    exists tx. split_and!; [done| |done]. by destruct (IntentTransaction.validate tx) as [[]| |]. }
  exists ps, gs. split_and!; [done|done|by rewrite Hperm, Hids|done|].
  eapply Forall_impl; [exact Hall|]. intros p (_ & tx & Htx & _ & E).
  apply (resolved_good rt tx); [done|by apply (proj1 (Forall_forall _ _) Hfee)|done].
Qed.

Lemma process_batch_eq rt batch ps gs :
  halted rt = false →
  resolve_all (at_epoch rt (ob_epoch batch))
    (filter (λ tx, is_ok (IntentTransaction.validate tx) = true) (transactions batch)) = Ok ps →
  ParallelScheduler.schedule
    (filter (λ p, clear_of_quarantine (at_epoch rt (ob_epoch batch)) p = true) ps) = Ok gs →
  process_batch batch rt =
    (let '(st, r) := execute_groups gs (ob_epoch batch) (store rt) in
     (with_store (at_epoch rt (ob_epoch batch)) st, no_error r)).
Proof.
  intros Hh Eps Egs. unfold process_batch. fold (halted rt) (at_epoch rt (ob_epoch batch)).
  by rewrite Hh, Eps, Egs.
Qed.

Lemma process_batch_ok (batch : OrderedBatch) (rt : PoSeqRuntime) :
  store_inv (store rt) → NoDup (tx_id <$> transactions batch) →
  Forall (λ tx, fits 64 (max_fee tx)) (transactions batch) →
  Forall (λ tx, IntentResolver.resolve tx (store rt) (caps_of rt (sender tx)) ≠ Panic)
    (transactions batch) →
  halted rt = false →
  ∃ rt' res, process_batch batch rt = (rt', Ok res) ∧
    rt' = with_store (at_epoch rt (ob_epoch batch)) (store rt') ∧
    store_inv (store rt') ∧ synced (store rt') ∧
    res_state_root res = ObjectStore.state_root (store rt') ∧ epoch res = ob_epoch batch ∧
    rc_tx_id <$> receipts res ≡ₚ
      tx_id <$> filter (λ tx, planned rt tx = true) (transactions batch) ∧
    (succeeded res + failed res)%nat = length (receipts res) ∧
    succeeded res = length (filter (λ r, success r = true) (receipts res)).
Proof.
  intros Hinv Hnd Hfee Hnp Hh.
  destruct (batch_groups (at_epoch rt (ob_epoch batch)) (transactions batch))
    as (ps & gs & Eps & Egs & Hids & _ & Hgood); [done..|].
  destruct (execute_groups_ok gs (ob_epoch batch) (store rt) Hinv Hgood)
    as (st' & res & E & Hinv' & Hs & Hroot & [Hi Ho Hf He] & _ & Hep).
  exists (with_store (at_epoch rt (ob_epoch batch)) st'), res.
  rewrite (process_batch_eq rt batch ps gs Hh Eps Egs), E. split_and!; try done.
  - rewrite Hi. rewrite (sorted_groups_plans gs). exact Hids.
  - by rewrite Ho, Hf, filter_split_length.
Qed.

(** The receipts of a batch are exactly one for each transaction that is valid,
    resolves and touches no quarantined object: one that does not resolve gets
    none, not even a failed one. *)
Theorem unresolved_no_receipt (batch : OrderedBatch) (rt : PoSeqRuntime) :
  store_inv (store rt) → NoDup (tx_id <$> transactions batch) →
  Forall (λ tx, fits 64 (max_fee tx)) (transactions batch) →
  Forall (λ tx, IntentResolver.resolve tx (store rt) (caps_of rt (sender tx)) ≠ Panic)
    (transactions batch) →
  halted rt = false →
  ∃ rt' res, process_batch batch rt = (rt', Ok res) ∧
    rc_tx_id <$> receipts res ≡ₚ
      tx_id <$> filter (λ tx, planned rt tx = true) (transactions batch).
Proof.
  intros Hinv Hnd Hfee Hnp Hh.
  destruct (process_batch_ok batch rt Hinv Hnd Hfee Hnp Hh)
    as (rt' & res & E & _ & _ & _ & _ & _ & Hids & _). by exists rt', res.
Qed.

(** C3: Processing a batch gives a result, when the store is well formed, the chain
    is not halted, the ids of the transactions differ, their fees fit 64 bits and
    no resolution panics.  The runtime changes in its store and epoch only; the
    final store is well formed and synced and the result carries its root and the
    batch's epoch.  Every transaction that is valid, resolves and touches no
    quarantined object has a receipt; no transaction has two; every receipt is for
    a valid transaction of the batch, and a successful one for a transaction that
    resolved and touched no quarantined object.  The successes counted are the
    successful receipts, and the failures the others. *)
Theorem process_batch_result (batch : OrderedBatch) (rt : PoSeqRuntime) :
  store_inv (store rt) → NoDup (tx_id <$> transactions batch) →
  Forall (λ tx, fits 64 (max_fee tx)) (transactions batch) →
  Forall (λ tx, IntentResolver.resolve tx (store rt) (caps_of rt (sender tx)) ≠ Panic)
    (transactions batch) →
  halted rt = false →
  ∃ rt' res, process_batch batch rt = (rt', Ok res) ∧
    rt' = with_store (at_epoch rt (ob_epoch batch)) (store rt') ∧
    store_inv (store rt') ∧ synced (store rt') ∧
    res_state_root res = ObjectStore.state_root (store rt') ∧ epoch res = ob_epoch batch ∧
    NoDup (rc_tx_id <$> receipts res) ∧
    (∀ tx, tx ∈ transactions batch → planned rt tx = true →
       ∃ r, r ∈ receipts res ∧ rc_tx_id r = tx_id tx) ∧
    (∀ r, r ∈ receipts res → ∃ tx, tx ∈ transactions batch ∧ rc_tx_id r = tx_id tx ∧
       IntentTransaction.validate tx = Ok tt ∧ (success r = true → planned rt tx = true)) ∧
    succeeded res = length (filter (λ r, success r = true) (receipts res)) ∧
    (succeeded res + failed res)%nat = length (receipts res).
Proof.
  intros Hinv Hnd Hfee Hnp Hh.
  destruct (process_batch_ok batch rt Hinv Hnd Hfee Hnp Hh)
    as (rt' & res & E & Hrt & Hi & Hs & Hroot & Hep & Hids & Hc & Hok).
  exists rt', res. split_and!; try done.
  - rewrite Hids. eapply sublist_NoDup; [exact Hnd|]. by apply fmap_sublist, sublist_filter.
  - intros tx Htx Hp.
    assert (tx_id tx ∈ rc_tx_id <$> receipts res) as Hin.
    { rewrite Hids. apply list_elem_of_fmap_2, list_elem_of_filter. by split. }
    apply list_elem_of_fmap in Hin as (r & Hid & Hr). by exists r.
  - intros r Hr.
    assert (rc_tx_id r ∈ rc_tx_id <$> receipts res) as Hin by by apply list_elem_of_fmap_2.
    rewrite Hids in Hin. apply list_elem_of_fmap in Hin as (tx & Hid & [Hp Htx]%list_elem_of_filter).
    exists tx. split_and!; [done|done| |done].
    unfold planned in Hp. by destruct (IntentTransaction.validate tx) as [[]| |].
Qed.

(** An object in quarantine is out of reach of every batch. *)
Theorem quarantine_holds (batch : OrderedBatch) (rt rt' : PoSeqRuntime) (k : SafetyKernel)
    (j : id32) (r : outcome RuntimeError SettlementResult) :
  store_inv (store rt) → synced (store rt) → NoDup (tx_id <$> transactions batch) →
  Forall (λ tx, fits 64 (max_fee tx)) (transactions batch) →
  Forall (λ tx, IntentResolver.resolve tx (store rt) (caps_of rt (sender tx)) ≠ Panic)
    (transactions batch) →
  rt_safety rt = Some k → j ∈ quarantined_objects k → process_batch batch rt = (rt', r) →
  get_cell (store rt') j = get_cell (store rt) j.
Proof.
  intros Hinv Hsync Hnd Hfee Hnp Hk Hj E.
  destruct (halted rt) eqn:Hh.
  { unfold process_batch in E. fold (halted rt) in E. rewrite Hh in E. by injection E as <- _. }
  destruct (batch_groups (at_epoch rt (ob_epoch batch)) (transactions batch))
    as (ps & gs & Eps & Egs & _ & Hall & Hgood); [done..|].
  rewrite (process_batch_eq rt batch ps gs Hh Eps Egs) in E.
  destruct (groups_untouched j gs (ob_epoch batch) (store rt) Hinv) as (st' & res & E' & [_ Hc]).
  - rewrite Forall_forall in Hall, Hgood |- *. intros p Hp. split; [by apply Hgood|].
    intros Ht. destruct (Hall p Hp) as (Hclear & tx & _ & _ & Er).
    apply list_elem_of_fmap in Ht as (op & -> & Hop).
    pose proof (res_covers _ _ _ _ (resolve_well _ _ _ _ Hinv Er) op Hop) as Hrw.
    unfold clear_of_quarantine in Hclear. cbn [rt_safety at_epoch] in Hclear. rewrite Hk in Hclear.
    apply negb_true_iff, not_true_iff_false in Hclear. apply Hclear.
    apply existsb_exists. exists (rw (op_target op)). split; [by apply list_elem_of_In|].
    by apply bool_decide_eq_true.
  - rewrite E' in E. injection E as <- _. cbn [store with_store].
    destruct (execute_groups_ok gs (ob_epoch batch) (store rt) Hinv Hgood)
      as (st2 & res2 & E2 & Hinv2 & Hs2 & _). rewrite E' in E2. injection E2 as <- _.
    by rewrite (cell_synced st'), (cell_synced (store rt)) in Hc by done.
Qed.

Definition is_transfer (tx : IntentTransaction) : Prop :=
  match intent tx with ITransfer i => fits 128 (tr_amount i) | _ => False end.

Lemma resolved_transfer rt tx p :
  solvent (store rt) → is_transfer tx → fits 64 (max_fee tx) →
  IntentResolver.resolve tx (store rt) (caps_of rt (sender tx)) = Ok p →
  transfer_plan (store rt) p.
Proof.
  intros Hsol Htx Hfee E. unfold is_transfer in Htx. destruct (intent tx) as [i| | | | |] eqn:Ei; try done.
  destruct (resolved_good rt tx p (sol_inv _ Hsol) Hfee E) as [Hg _].
  destruct (resolve_transfer_shape tx i (store rt) _ p (sol_inv _ Hsol) Ei E) as (x & y & Hops & Hx & Hy).
  split; [done|]. by exists x, y, (tr_amount i), (tr_asset_id i).
Qed.

Lemma transfer_no_panic rt tx :
  is_transfer tx → IntentResolver.resolve tx (store rt) (caps_of rt (sender tx)) ≠ Panic.
Proof.
  unfold is_transfer, IntentResolver.resolve. destruct (intent tx) as [i| | | | |]; try done. intros _.
  unfold IntentResolver.resolve_transfer, CapabilityChecker.check, source_balance.
  case_match; cbn [mbind outcome_bind]; [|done..].
  destruct (ObjectStore.find_balance _ (sender tx) _); cbn [ok_or mbind outcome_bind]; [|done].
  case_decide; cbn [mbind outcome_bind]; [done|].
  by destruct (ObjectStore.find_balance _ (recipient i) _).
Qed.

(** C4: A batch of transfers conserves every asset, whichever of them fail. *)
Theorem batch_conserves (batch : OrderedBatch) (rt rt' : PoSeqRuntime)
    (r : outcome RuntimeError SettlementResult) :
  solvent (store rt) → NoDup (tx_id <$> transactions batch) →
  Forall (λ tx, is_transfer tx ∧ fits 64 (max_fee tx)) (transactions batch) →
  process_batch batch rt = (rt', r) →
  solvent (store rt') ∧ ∀ a, asset_total a (store rt') = asset_total a (store rt).
Proof.
  intros Hsol Hnd [Htx Hfee]%Forall_and E. destruct (halted rt) eqn:Hh.
  { unfold process_batch in E. fold (halted rt) in E. rewrite Hh in E. by injection E as <- _. }
  destruct (batch_groups (at_epoch rt (ob_epoch batch)) (transactions batch))
    as (ps & gs & Eps & Egs & _ & Hall & _); [by apply sol_inv|done|done| |].
  { eapply Forall_impl; [exact Htx|]. intros tx. apply (transfer_no_panic (at_epoch rt (ob_epoch batch))). }
  rewrite (process_batch_eq rt batch ps gs Hh Eps Egs) in E.
  destruct (execute_transfer_groups gs (ob_epoch batch) (store rt) Hsol) as (st' & res & E' & Hk).
  - eapply Forall_impl; [exact Hall|]. intros p (_ & tx & Hin & _ & Er).
    apply (resolved_transfer rt tx p Hsol); [| |exact Er].
    + by apply (proj1 (Forall_forall _ _) Htx).
    + by apply (proj1 (Forall_forall _ _) Hfee).
  - rewrite E' in E. injection E as <- _. split; apply Hk.
Qed.
End batches.

(** ** Sample runs *)

(** Two transfers and one that asks for more than there is, in two groups. *)
Definition big_transfer : IntentType := ITransfer (mkTransfer 5 5000 2 None).
Definition sample_batch : OrderedBatch :=
  mkBatch 7 9 1 [sample_intent sample_transfer 0; sample_intent big_transfer 1;
                 sample_intent sample_transfer 2].
Definition sample_runtime : PoSeqRuntime :=
  with_safety (SafetyKernel.set_contained {[20; 40]} ∅ false SafetyKernel.new) (with_store PoSeqRuntime.new settled_store).

Definition run_sample (rt : PoSeqRuntime) : PoSeqRuntime * outcome RuntimeError SettlementResult :=
  @process_batch sample_sha256 sample_hex sample_bincode sample_u256 sample_batch rt.

Lemma sample_ids : NoDup (tx_id <$> transactions sample_batch).
Proof. by_decide. Qed.

Lemma process_batch_result_witness :
  ∃ rt' res, run_sample sample_runtime = (rt', Ok res) ∧ store_inv (store rt') ∧
    (∃ r, r ∈ receipts res ∧ rc_tx_id r = 902) ∧ rc_tx_id <$> receipts res = [900; 902].
Proof.
  destruct (@process_batch_result sample_sha256 sample_hex sample_bincode sample_bincode_laws
    sample_u256 sample_batch sample_runtime) as (rt' & res & E & _ & Hinv & _ & _ & _ & _ & Hr & _);
    [exact settled_inv|exact sample_ids|by_decide| |reflexivity|].
  - repeat constructor; vm_compute; discriminate.
  - exists rt', res. split; [exact E|]. split; [exact Hinv|]. split.
    + apply (Hr (sample_intent sample_transfer 2)); [by do 2 right; left|reflexivity].
    + assert (match run_sample sample_runtime with
        | (_, Ok res) => rc_tx_id <$> receipts res = [900; 902] | _ => False end) as Hids
        by (vm_compute; reflexivity).
      unfold run_sample in Hids. by rewrite E in Hids.
Defined.

Lemma quarantine_holds_witness :
  get_cell (store (run_sample sample_runtime).1) 20 = get_cell settled_store 20.
Proof.
  destruct (run_sample sample_runtime) as [rt' r] eqn:E.
  apply (@quarantine_holds sample_sha256 sample_hex sample_bincode sample_bincode_laws sample_u256
    sample_batch sample_runtime rt' (SafetyKernel.set_contained {[20; 40]} ∅ false SafetyKernel.new) 20 r);
    [exact settled_inv|exact settled_synced|exact sample_ids|by_decide| |reflexivity|set_solver|exact E].
  repeat constructor; vm_compute; discriminate.
Defined.

Lemma settled_solvent : solvent settled_store.
Proof.
  split; [exact settled_inv|exact settled_nonneg| |].
  - intros i b Hb. apply (settled_fit i b Hb).
  - intros a. etrans; [apply settled_total|by_eval].
Qed.

Lemma batch_conserves_witness :
  asset_total 5 (store (run_sample sample_runtime).1) = asset_total 5 settled_store.
Proof.
  destruct (run_sample sample_runtime) as [rt' r] eqn:E.
  apply (@batch_conserves sample_sha256 sample_hex sample_bincode sample_bincode_laws sample_u256
    sample_batch sample_runtime rt' r);
    [exact settled_solvent|exact sample_ids| |exact E].
  repeat constructor; by_eval.
Defined.
