(* ===== verification/Ingestion.v ===== *)
(** * Ingestion of finalized batches

    The runtime's half of the bridge from the sequencer
    (src/runtime/src/poseq/ingestion.rs): the envelope and its commitment, the
    outcomes, and [RuntimeBatchIngester::ingest], which refuses what was applied
    before, turns submission ids into transactions (from the mempool, or the
    scaffold of a development network) and runs them through the runtime. *)

From stdpp Require Import gmap strings list sorting pretty.
From S2P Require Import SafetyRules.
From S2P Require Import Prelude Errors Gas Objects Concrete Store FeeEnvelope Intents.
From S2P Require Import Planner Scheduler Artifacts Settlement Cells SettlementFacts.
From S2P Require Import SettlementProps Supply Groups Mempool Runtime.

(** ** Envelopes *)

(* @src src/runtime/src/poseq/ingestion.rs:46-50 InboundFairnessMeta *)
Record InboundFairnessMeta : Type := mkFairness {
  policy_version : Z;
  forced_inclusion_count : Z;
  rate_limited_count : Z }.

(* @src src/runtime/src/poseq/ingestion.rs:54-59 InboundCommitment *)
Record InboundCommitment : Type := mkCommitment {
  com_commitment_hash : id32;
  com_finalization_hash : id32;
  com_delivery_id : id32;
  com_submission_root : id32 }.

(* @src src/runtime/src/poseq/ingestion.rs:99-121 InboundFinalizationEnvelope *)
Record InboundFinalizationEnvelope : Type := mkEnvelope {
  env_batch_id : id32;
  delivery_id : id32;
  attempt_count : Z;
  slot : Z;
  env_epoch : Z;
  env_sequence_number : Z;
  leader_id : id32;
  parent_batch_id : id32;
  ordered_submission_ids : list id32;
  batch_root : id32;
  finalization_hash : id32;
  quorum_approvals : Z;
  committee_size : Z;
  fairness : InboundFairnessMeta;
  commitment_hash : id32 }.

(* @src src/runtime/src/poseq/ingestion.rs:156-167 IngestionRejectionCause *)
Inductive IngestionRejectionCause : Type :=
| InvalidEnvelope (msg : string)
| AlreadyApplied
| TransientUnavailable (msg : string)
| ExecutionFailure (msg : string)
| SafetyBlock (msg : string).
#[export] Instance IngestionRejectionCause_eq_dec : EqDecision IngestionRejectionCause.
Proof. solve_decision. Defined.

Module IngestionRejectionCause.
(* @src src/runtime/src/poseq/ingestion.rs:170-172 IngestionRejectionCause::is_retryable *)
Definition is_retryable (c : IngestionRejectionCause) : bool :=
  match c with TransientUnavailable _ => true | _ => false end.

(* @src src/runtime/src/poseq/ingestion.rs:174-182 IngestionRejectionCause::tag *)
Definition tag (c : IngestionRejectionCause) : string :=
  match c with
  | InvalidEnvelope _ => "invalid_envelope"
  | AlreadyApplied => "already_applied"
  | TransientUnavailable _ => "transient_unavailable"
  | ExecutionFailure _ => "execution_failure"
  | SafetyBlock _ => "safety_block"
  end.
End IngestionRejectionCause.

Module InboundCommitment.
Definition submission_root `{Sha256} (ordered_ids : list id32) : id32 :=
  sha256 (concat (be_bytes 32 <$> ordered_ids)).

(** The hash of the delivered content. *)
(* @src src/runtime/src/poseq/ingestion.rs:69-91 InboundCommitment::verify *)
Definition compute `{Sha256} (fin delivery : id32) (ordered_ids : list id32) : id32 :=
  sha256 (be_bytes 32 fin ++ be_bytes 32 delivery ++ be_bytes 32 (submission_root ordered_ids)).

(* @src src/runtime/src/poseq/ingestion.rs:63-92 InboundCommitment::verify *)
Definition verify `{Sha256} (fin delivery : id32) (ordered_ids : list id32) (claimed : id32)
  : bool := bool_decide (compute fin delivery ordered_ids = claimed).
End InboundCommitment.

Module InboundFinalizationEnvelope.
(* @src src/runtime/src/poseq/ingestion.rs:125-151 InboundFinalizationEnvelope::validate *)
Definition validate `{Sha256} (e : InboundFinalizationEnvelope)
  : outcome IngestionRejectionCause () :=
  if decide (env_batch_id e = 0) then Err (InvalidEnvelope "zero batch_id")
  else if decide (delivery_id e = 0) then Err (InvalidEnvelope "zero delivery_id")
  else if decide (finalization_hash e = 0) then Err (InvalidEnvelope "zero finalization_hash")
  else if decide (committee_size e = 0) then Err (InvalidEnvelope "zero committee_size")
  else if decide (quorum_approvals e = 0) then Err (InvalidEnvelope "zero quorum_approvals")
  else if negb (InboundCommitment.verify (finalization_hash e) (delivery_id e)
                  (ordered_submission_ids e) (commitment_hash e))
  then Err (InvalidEnvelope "commitment hash mismatch")
  else Ok tt.
End InboundFinalizationEnvelope.

(** ** Outcomes *)

(* @src src/runtime/src/poseq/ingestion.rs:209-220 IngestionAck *)
Record IngestionAck : Type := mkAck {
  ack_batch_id : id32;
  ack_delivery_id : id32;
  ack_epoch : Z;
  succeeded_count : nat;
  failed_count : nat;
  execution_result_ref : id32;
  ack_hash : id32 }.

(* @src src/runtime/src/poseq/ingestion.rs:252-258 IngestionRejection *)
Record IngestionRejection : Type := mkRejection {
  rej_batch_id : id32;
  rej_delivery_id : id32;
  rej_epoch : Z;
  cause : IngestionRejectionCause;
  rejection_hash : id32 }.

(* @src src/runtime/src/poseq/ingestion.rs:187-192 IngestionOutcome *)
Inductive IngestionOutcome : Type :=
| Accepted (a : IngestionAck)
| Rejected (r : IngestionRejection).

Module IngestionOutcome.
(* @src src/runtime/src/poseq/ingestion.rs:195-200 IngestionOutcome::batch_id *)
Definition batch_id (o : IngestionOutcome) : id32 :=
  match o with Accepted a => ack_batch_id a | Rejected r => rej_batch_id r end.

(* @src src/runtime/src/poseq/ingestion.rs:202-204 IngestionOutcome::is_accepted *)
Definition is_accepted (o : IngestionOutcome) : bool :=
  match o with Accepted _ => true | Rejected _ => false end.
End IngestionOutcome.

Module IngestionAck.
(* @src src/runtime/src/poseq/ingestion.rs:223-247 IngestionAck::build *)
Definition build `{Sha256} (e : InboundFinalizationEnvelope) (s : SettlementResult) : IngestionAck :=
  mkAck (env_batch_id e) (delivery_id e) (env_epoch e) (succeeded s) (failed s) (res_state_root s)
    (sha256 (be_bytes 32 (env_batch_id e) ++ be_bytes 32 (delivery_id e) ++ string_bytes "ack" ++
       be_bytes 8 (env_epoch e))).
End IngestionAck.

Module IngestionRejection.
(* @src src/runtime/src/poseq/ingestion.rs:261-283 IngestionRejection::new *)
Definition new `{Sha256} (e : InboundFinalizationEnvelope) (c : IngestionRejectionCause)
  : IngestionRejection :=
  mkRejection (env_batch_id e) (delivery_id e) (env_epoch e) c
    (sha256 (be_bytes 32 (env_batch_id e) ++ be_bytes 32 (delivery_id e) ++ string_bytes "reject" ++
       string_bytes (IngestionRejectionCause.tag c))).
End IngestionRejection.

(** ** The ingester *)

(* @src src/runtime/src/poseq/ingestion.rs:295-312 RuntimeBatchIngester *)
Record RuntimeBatchIngester : Type := mkIngester {
  runtime : PoSeqRuntime;
  applied_deliveries : gset id32;
  applied_batches : gset id32;
  mempool : option IntentMempool;
  ing_registry : option CapabilityRegistry;
  use_mempool : bool }.

(** [format!("{:02x}..", id[0], .., id[3])] *)
Definition hex_digit (d : Z) : Ascii.ascii :=
  Ascii.ascii_of_N (Z.to_N (if decide (d < 10) then 48 + d else 87 + d)).
Definition hex_prefix (i : id32) : string :=
  String.string_of_list_ascii
    (concat ((λ b, [hex_digit (b / 16); hex_digit (b mod 16)]) <$> take 4 (be_bytes 32 i))).

Module RuntimeBatchIngester.
(* @src src/runtime/src/poseq/ingestion.rs:315-324 RuntimeBatchIngester::new *)
Definition new : RuntimeBatchIngester := mkIngester PoSeqRuntime.new ∅ ∅ None None false.

(* @src src/runtime/src/poseq/ingestion.rs:327-336 RuntimeBatchIngester::with_mempool *)
Definition with_mempool (m : IntentMempool) (r : CapabilityRegistry) : RuntimeBatchIngester :=
  mkIngester PoSeqRuntime.new ∅ ∅ (Some m) (Some r) true.

(** The id is big-endian: its last byte is the low one, its first the high one. *)
(* @src src/runtime/src/poseq/ingestion.rs:518-523 RuntimeBatchIngester::synthesize_scaffold_transactions *)
Definition scaffold_recipient (sid : id32) : id32 :=
  let r := Z.lxor sid 1 in if decide (r = 0) then 2 ^ 248 else r.

(* @src src/runtime/src/poseq/ingestion.rs:510-549 RuntimeBatchIngester::synthesize_scaffold_transactions *)
Definition synthesize_scaffold_transactions (e : InboundFinalizationEnvelope)
  : list IntentTransaction :=
  imap (λ i sid, {|
    tx_id := sid; sender := leader_id e;
    intent := ITransfer (mkTransfer sid 1 (scaffold_recipient sid) None);
    max_fee := 1000; it_deadline_epoch := wrapu 64 (env_epoch e + 10);
    nonce := wrapu 64 (wrapu 64 (slot e * 1000) + Z.of_nat i);
    signature := replicate 64 0; metadata := ∅; target_objects := [];
    constraints := default_constraints; execution_mode := BestEffort;
    sponsor := None; sponsor_signature := None;
    sponsorship_limits := mkSponsorshipLimits None None [] [] None;
    fee_policy := SenderPays; fee_envelope := None |}) (ordered_submission_ids e).

(** What the mempool path keeps of one transaction: signed, before its deadline,
    with a valid fee envelope. *)
(* @src src/runtime/src/poseq/ingestion.rs:392-411 RuntimeBatchIngester::ingest *)
Definition runnable `{Sha256, Ed25519} (now : Z) (tx : IntentTransaction) : bool :=
  if negb (IntentTransaction.verify_signature tx) then false
  else if decide (it_deadline_epoch tx < now) then false
  else is_ok (FeeEnvelope.validate (IntentTransaction.effective_fee_envelope tx) now).

(* @src src/runtime/src/poseq/ingestion.rs:380-420 RuntimeBatchIngester::ingest *)
Definition mempool_transactions `{Sha256, Ed25519} (m : IntentMempool)
    (e : InboundFinalizationEnvelope) : list IntentTransaction :=
  omap (λ sid,
    match IntentMempool.get m sid with
    | None => None
    | Some tx => if runnable (env_epoch e) tx then Some tx else None
    end) (ordered_submission_ids e).

(* @src src/runtime/src/poseq/ingestion.rs:439-451 RuntimeBatchIngester::ingest *)
Definition collision_text (e : InboundFinalizationEnvelope) (sid : id32) : string :=
  "scaffold collision: submission_id " +:+ hex_prefix sid +:+
  " matches a real asset for sender " +:+ hex_prefix (leader_id e).

(** Step 3: the transactions of an envelope. *)
(* @src src/runtime/src/poseq/ingestion.rs:376-454 RuntimeBatchIngester::ingest *)
Definition envelope_transactions `{Sha256, Ed25519} (ing : RuntimeBatchIngester)
    (e : InboundFinalizationEnvelope)
  : outcome IngestionRejectionCause (list IntentTransaction) :=
  if use_mempool ing then
    match mempool ing with
    | Some m => Ok (mempool_transactions m e)
    | None => Ok (synthesize_scaffold_transactions e)
    end
  else
    match list_find (λ sid, is_Some (ObjectStore.find_balance (store (runtime ing))
                                       (leader_id e) sid)) (ordered_submission_ids e) with
    | Some (_, sid) => Err (ExecutionFailure (collision_text e sid))
    | None => Ok (synthesize_scaffold_transactions e)
    end.

Definition set_runtime (rt : PoSeqRuntime) (ing : RuntimeBatchIngester) : RuntimeBatchIngester :=
  mkIngester rt (applied_deliveries ing) (applied_batches ing) (mempool ing) (ing_registry ing)
    (use_mempool ing).
Definition mark_applied (e : InboundFinalizationEnvelope) (ing : RuntimeBatchIngester)
  : RuntimeBatchIngester :=
  mkIngester (runtime ing) ({[delivery_id e]} ∪ applied_deliveries ing)
    ({[env_batch_id e]} ∪ applied_batches ing) (mempool ing) (ing_registry ing) (use_mempool ing).

(** The cause reported for an error of [process_batch]. *)
(* @src src/runtime/src/poseq/ingestion.rs:471-484 RuntimeBatchIngester::ingest *)
Definition failure_cause `{Hex} (err : RuntimeError) : IngestionRejectionCause :=
  match err with
  | ObjectQuarantined _ | DomainPaused _ => SafetyBlock "object quarantined or domain paused"
  | _ => ExecutionFailure (error_to_string err)
  end.

Definition ordered_batch (e : InboundFinalizationEnvelope) (txs : list IntentTransaction)
  : OrderedBatch := mkBatch (env_batch_id e) (env_epoch e) (env_sequence_number e) txs.

(* @src src/runtime/src/poseq/ingestion.rs:346-486 RuntimeBatchIngester::ingest *)
Definition ingest `{Sha256, Ed25519, Hex, Bincode, U256} (e : InboundFinalizationEnvelope)
  : M RuntimeBatchIngester Empty_set IngestionOutcome := λ ing,
  let reject c := (ing, Ok (Rejected (IngestionRejection.new e c))) in
  match InboundFinalizationEnvelope.validate e with
  | Err c => reject c
  | Panic => (ing, Panic)
  | Ok _ =>
  if decide (delivery_id e ∈ applied_deliveries ing) then reject AlreadyApplied
  else if decide (env_batch_id e ∈ applied_batches ing) then reject AlreadyApplied
  else
  match envelope_transactions ing e with
  | Err c => reject c
  | Panic => (ing, Panic)
  | Ok txs =>
      match PoSeqRuntime.process_batch (ordered_batch e txs) (runtime ing) with
      | (rt, Ok settlement) =>
          (mark_applied e (set_runtime rt ing), Ok (Accepted (IngestionAck.build e settlement)))
      | (rt, Err err) =>
          (set_runtime rt ing, Ok (Rejected (IngestionRejection.new e (failure_cause err))))
      | (rt, Panic) => (set_runtime rt ing, Panic)
      end
  end
  end.

(* @src src/runtime/src/poseq/ingestion.rs:489-491 RuntimeBatchIngester::is_applied *)
Definition is_applied (ing : RuntimeBatchIngester) (d : id32) : bool :=
  bool_decide (d ∈ applied_deliveries ing).

(* @src src/runtime/src/poseq/ingestion.rs:494-496 RuntimeBatchIngester::is_batch_applied *)
Definition is_batch_applied (ing : RuntimeBatchIngester) (b : id32) : bool :=
  bool_decide (b ∈ applied_batches ing).

(* @src src/runtime/src/poseq/ingestion.rs:499-501 RuntimeBatchIngester::applied_count *)
Definition applied_count (ing : RuntimeBatchIngester) : nat := size (applied_batches ing).
End RuntimeBatchIngester.
Import RuntimeBatchIngester.

(** ** Lemmas *)

Section lemmas.
Context `{Sha256, Ed25519, Hex, Bincode, U256}.
Implicit Types (ing : RuntimeBatchIngester) (e : InboundFinalizationEnvelope).

Lemma validate_env_not_panic e : InboundFinalizationEnvelope.validate e ≠ Panic.
Proof. unfold InboundFinalizationEnvelope.validate. repeat case_decide; try done. by case_match. Qed.

(** The three ways a call of [ingest] can go. *)
Inductive ingest_case ing e : RuntimeBatchIngester → outcome Empty_set IngestionOutcome → Prop :=
| case_refused c : ingest_case ing e ing (Ok (Rejected (IngestionRejection.new e c)))
| case_failed txs rt err :
    envelope_transactions ing e = Ok txs →
    PoSeqRuntime.process_batch (ordered_batch e txs) (runtime ing) = (rt, Err err) →
    ingest_case ing e (set_runtime rt ing)
      (Ok (Rejected (IngestionRejection.new e (failure_cause err))))
| case_stopped txs rt :
    envelope_transactions ing e = Ok txs →
    PoSeqRuntime.process_batch (ordered_batch e txs) (runtime ing) = (rt, Panic) →
    ingest_case ing e (set_runtime rt ing) Panic
| case_accepted txs rt res :
    InboundFinalizationEnvelope.validate e = Ok tt →
    delivery_id e ∉ applied_deliveries ing → env_batch_id e ∉ applied_batches ing →
    envelope_transactions ing e = Ok txs →
    PoSeqRuntime.process_batch (ordered_batch e txs) (runtime ing) = (rt, Ok res) →
    ingest_case ing e (mark_applied e (set_runtime rt ing))
      (Ok (Accepted (IngestionAck.build e res))).

Lemma envelope_transactions_not_panic ing e : envelope_transactions ing e ≠ Panic.
Proof.
  unfold envelope_transactions. destruct (use_mempool ing); [by case_match|].
  by destruct (list_find _ _) as [[]|].
Qed.

Lemma ingest_cases ing e : ingest_case ing e (ingest e ing).1 (ingest e ing).2.
Proof.
  unfold ingest. destruct (InboundFinalizationEnvelope.validate e) as [[]|c|] eqn:Ev.
  2: constructor. 2: by destruct (validate_env_not_panic e).
  case_decide; [constructor|]. case_decide; [constructor|].
  destruct (envelope_transactions ing e) as [txs|c|] eqn:Et.
  2: constructor. 2: by destruct (envelope_transactions_not_panic ing e).
  destruct (PoSeqRuntime.process_batch _ _) as [rt [res|err|]] eqn:Ep; cbn [fst snd].
  - by econstructor.
  - by econstructor.
  - by econstructor.
Qed.
End lemmas.

(** ** Properties *)

Section properties.
Context `{Sha256, Ed25519, Hex, Bincode, U256}.
Implicit Types (ing : RuntimeBatchIngester) (e : InboundFinalizationEnvelope).

(** A sequence of envelopes, as long as nothing panics. *)
Definition ingest_all (envs : list InboundFinalizationEnvelope)
  : M RuntimeBatchIngester Empty_set (list IngestionOutcome) := mmap ingest envs.

Definition ack_of (o : IngestionOutcome) : option IngestionAck :=
  match o with Accepted a => Some a | Rejected _ => None end.

(** What the ingester remembers after acknowledging [acks]. *)
Record remembers ing (acks : list IngestionAck) ing' : Prop := {
  rem_batches : applied_batches ing' =
    list_to_set (ack_batch_id <$> acks) ∪ applied_batches ing;
  rem_deliveries : applied_deliveries ing' =
    list_to_set (ack_delivery_id <$> acks) ∪ applied_deliveries ing;
  rem_new a : a ∈ acks →
    (ack_batch_id a ∉ applied_batches ing) ∧ (ack_delivery_id a ∉ applied_deliveries ing);
  rem_once : NoDup (ack_batch_id <$> acks) ∧ NoDup (ack_delivery_id <$> acks) }.

Lemma ingest_step ing e ing1 o :
  ingest e ing = (ing1, Ok o) → remembers ing (option_list (ack_of o)) ing1.
Proof.
  intros E. pose proof (ingest_cases ing e) as Hc. rewrite E in Hc. cbn [fst snd] in Hc.
  inversion Hc as [c|txs rt err Ht Hp|txs rt Ht Hp|txs rt res Hv Hd Hb Ht Hp]; subst; cbn.
  - split; cbn; [set_solver..| |by split; constructor]. by intros a ?%elem_of_nil.
  - split; cbn; [set_solver..| |by split; constructor]. by intros a ?%elem_of_nil.
  - split; cbn; [set_solver..| |split; apply NoDup_singleton].
    intros a ->%list_elem_of_singleton. by split.
Qed.

Lemma remembers_app ing acks ing1 acks' ing2 :
  remembers ing acks ing1 → remembers ing1 acks' ing2 → remembers ing (acks ++ acks') ing2.
Proof.
  intros [Hb Hd Hn [Hob Hod]] [Hb' Hd' Hn' [Hob' Hod']].
  split; rewrite ?fmap_app, ?list_to_set_app_L.
  - rewrite Hb', Hb. set_solver.
  - rewrite Hd', Hd. set_solver.
  - intros a [Ha|Ha]%elem_of_app; [by apply Hn|]. destruct (Hn' a Ha) as [H1' H2'].
    rewrite Hb in H1'. rewrite Hd in H2'. set_solver.
  - rewrite !NoDup_app. split_and!; try done.
    + intros x Hx (a & -> & Ha)%list_elem_of_fmap. destruct (Hn' a Ha) as [H1' _].
      rewrite Hb in H1'. set_solver.
    + intros x Hx (a & -> & Ha)%list_elem_of_fmap. destruct (Hn' a Ha) as [_ H1'].
      rewrite Hd in H1'. set_solver.
Qed.

Lemma ingest_refuses ing e :
  env_batch_id e ∈ applied_batches ing ∨ delivery_id e ∈ applied_deliveries ing →
  ∃ c, ingest e ing = (ing, Ok (Rejected (IngestionRejection.new e c))).
Proof.
  intros Ha. unfold ingest. destruct (InboundFinalizationEnvelope.validate e) as [[]|c|] eqn:Ev.
  - exists AlreadyApplied. case_decide; [done|]. case_decide; [done|]. tauto.
  - by exists c.
  - by destruct (validate_env_not_panic e).
Qed.

Lemma ingest_all_remembers envs ing ing' outs :
  ingest_all envs ing = (ing', Ok outs) → remembers ing (omap ack_of outs) ing'.
Proof.
  revert ing outs. induction envs as [|e envs IH]; intros ing outs E.
  { injection E as <- <-. split; cbn; [set_solver..| |by split; constructor].
    by intros a ?%elem_of_nil. }
  apply Mbind_ok in E as (ing1 & o & E1 & E). apply Mbind_ok in E as (ing2 & os & E2 & E).
  injection E as <- <-. pose proof (ingest_step _ _ _ _ E1) as Hr.
  pose proof (remembers_app _ _ _ _ _ Hr (IH _ _ E2)) as Hr'. cbn [omap list_omap].
  by destruct (ack_of o).
Qed.

(** C5: Each batch is applied at most once: over any sequence of envelopes, no batch
    id and no delivery id is acknowledged twice, none is that was applied before,
    and an envelope that repeats either is refused and changes nothing. *)
Theorem ingest_once (envs : list InboundFinalizationEnvelope) (ing ing' : RuntimeBatchIngester)
    (outs : list IngestionOutcome) :
  ingest_all envs ing = (ing', Ok outs) →
  let acks := omap ack_of outs in
  NoDup (ack_batch_id <$> acks) ∧ NoDup (ack_delivery_id <$> acks) ∧
  (∀ a, a ∈ acks →
     (ack_batch_id a ∉ applied_batches ing) ∧ (ack_delivery_id a ∉ applied_deliveries ing)) ∧
  ∀ a e, a ∈ acks → env_batch_id e = ack_batch_id a ∨ delivery_id e = ack_delivery_id a →
    ∃ c, ingest e ing' = (ing', Ok (Rejected (IngestionRejection.new e c))).
Proof.
  intros E acks. destruct (ingest_all_remembers _ _ _ _ E) as [Hb Hd Hn [Hob Hod]].
  split_and!; [done..|]. intros a e Ha He. apply ingest_refuses. rewrite Hb, Hd.
  rewrite !elem_of_union, !elem_of_list_to_set.
  destruct He as [-> | ->]; [left|right]; left; by apply list_elem_of_fmap_2.
Qed.

(** *** The mempool path *)

Lemma ingest_fresh ing e txs :
  InboundFinalizationEnvelope.validate e = Ok tt →
  delivery_id e ∉ applied_deliveries ing → env_batch_id e ∉ applied_batches ing →
  envelope_transactions ing e = Ok txs →
  ingest e ing =
    match PoSeqRuntime.process_batch (ordered_batch e txs) (runtime ing) with
    | (rt, Ok res) => (mark_applied e (set_runtime rt ing), Ok (Accepted (IngestionAck.build e res)))
    | (rt, Err err) =>
        (set_runtime rt ing, Ok (Rejected (IngestionRejection.new e (failure_cause err))))
    | (rt, Panic) => (set_runtime rt ing, Panic)
    end.
Proof. intros Hv Hd Hb Ht. unfold ingest. by rewrite Hv, !decide_False, Ht by done. Qed.




(** Nothing remembers what was executed but the batch and delivery ids: the
    mempool keeps the transactions and no nonce is compared, so an envelope with
    other ids and the same submissions runs the same transactions again. *)
Theorem ingest_replays (ing ing' : RuntimeBatchIngester) (e e' : InboundFinalizationEnvelope)
    (m : IntentMempool) (a : IngestionAck) :
  use_mempool ing = true → mempool ing = Some m →
  ingest e ing = (ing', Ok (Accepted a)) →
  ordered_submission_ids e' = ordered_submission_ids e → env_epoch e' = env_epoch e →
  InboundFinalizationEnvelope.validate e' = Ok tt →
  delivery_id e' ∉ applied_deliveries ing' → env_batch_id e' ∉ applied_batches ing' →
  ∃ txs rt res, envelope_transactions ing e = Ok txs ∧
    PoSeqRuntime.process_batch (ordered_batch e txs) (runtime ing) = (rt, Ok res) ∧
    runtime ing' = rt ∧
    ingest e' ing' =
      match PoSeqRuntime.process_batch (ordered_batch e' txs) rt with
      | (rt, Ok res) =>
          (mark_applied e' (set_runtime rt ing'), Ok (Accepted (IngestionAck.build e' res)))
      | (rt, Err err) =>
          (set_runtime rt ing', Ok (Rejected (IngestionRejection.new e' (failure_cause err))))
      | (rt, Panic) => (set_runtime rt ing', Panic)
      end.
Proof.
  intros Hu Hmp E Hids Hep Hv Hd Hb. pose proof (ingest_cases ing e) as Hc. rewrite E in Hc.
  cbn [fst snd] in Hc. inversion Hc as [| | |txs rt res _ _ _ Ht Hp]; subst.
  exists txs, rt, res. split_and!; [done..|].
  rewrite (ingest_fresh _ e' txs); [done..|].
  unfold envelope_transactions in *. cbn [use_mempool mempool mark_applied set_runtime].
  rewrite Hu, Hmp in Ht |- *. unfold mempool_transactions in *. by rewrite Hids, Hep.
Qed.

(** *** The ingester's registry *)

Definition with_registry (r : option CapabilityRegistry) ing : RuntimeBatchIngester :=
  mkIngester (runtime ing) (applied_deliveries ing) (applied_batches ing) (mempool ing) r
    (use_mempool ing).

(** The capability registry that the ingester is given does not gate anything:
    whatever it holds, ingestion does the same; only the runtime's own registry
    counts, which the constructor leaves empty. *)
Theorem ingester_registry_ignored (ing : RuntimeBatchIngester) (e : InboundFinalizationEnvelope)
    (r : option CapabilityRegistry) :
  ingest e (with_registry r ing) = (with_registry r (ingest e ing).1, (ingest e ing).2) ∧
  ∀ m caps, capability_registry (runtime (with_mempool m caps)) = None.
Proof.
  split; [|done]. unfold ingest.
  change (envelope_transactions (with_registry r ing) e) with (envelope_transactions ing e).
  cbn [applied_deliveries applied_batches runtime with_registry].
  destruct (InboundFinalizationEnvelope.validate e) as [[]|c|]; [|done..].
  do 2 (case_decide; [done|]). destruct (envelope_transactions ing e) as [txs|c|]; [|done..].
  by destruct (PoSeqRuntime.process_batch _ _) as [rt [res|err|]].
Qed.

(** *** The scaffold path *)

Lemma scaffold_elem e tx :
  tx ∈ synthesize_scaffold_transactions e →
  ∃ sid amt r memo, sid ∈ ordered_submission_ids e ∧ sender tx = leader_id e ∧
    intent tx = ITransfer (mkTransfer sid amt r memo).
Proof.
  unfold synthesize_scaffold_transactions. intros (i & sid & -> & Hi)%elem_of_lookup_imap.
  exists sid. do 3 eexists. split_and!; [by eapply list_elem_of_lookup_2|done|done].
Qed.

Lemma unfunded_transfer_fails tx sid amt r memo st caps :
  intent tx = ITransfer (mkTransfer sid amt r memo) →
  ObjectStore.find_balance st (sender tx) sid = None →
  ∃ err, IntentResolver.resolve tx st caps = Err err.
Proof.
  intros Hi Hf. unfold IntentResolver.resolve. rewrite Hi. unfold IntentResolver.resolve_transfer.
  destruct (CapabilityChecker.check caps _) as [[]|err|] eqn:E; cbn [mbind outcome_bind].
  - unfold source_balance. cbn [tr_asset_id]. rewrite Hf. by eexists.
  - by eexists.
  - revert E. unfold CapabilityChecker.check. by case_match.
Qed.

(** A development node acknowledges and executes nothing: on the scaffold path
    the guard against colliding assets refuses exactly the envelopes whose
    placeholder transfers could resolve, so every accepted batch has no success
    and no failure, and the store is only synced. *)
Theorem scaffold_executes_nothing (ing ing' : RuntimeBatchIngester)
    (e : InboundFinalizationEnvelope) (a : IngestionAck) :
  use_mempool ing = false → ingest e ing = (ing', Ok (Accepted a)) →
  succeeded_count a = 0%nat ∧ failed_count a = 0%nat ∧
  store (runtime ing') = ObjectStore.sync_typed_to_canonical (store (runtime ing)).
Proof.
  intros Hu E. pose proof (ingest_cases ing e) as Hc. rewrite E in Hc.
  cbn [fst snd] in Hc. inversion Hc as [| | |txs rt res _ _ _ Ht Hp]; subst. clear Hc.
  unfold envelope_transactions in Ht. rewrite Hu in Ht.
  destruct (list_find _ _) as [[]|] eqn:Ef; [done|]. injection Ht as <-.
  apply list_find_None in Ef.
  assert (∀ rt', store rt' = store (runtime ing) →
    PoSeqRuntime.resolve_all rt' (filter (λ tx, is_ok (IntentTransaction.validate tx) = true)
      (synthesize_scaffold_transactions e)) = Ok []) as Hres.
  { intros rt' Hst. apply resolve_all_none, Forall_forall. intros tx [_ Htx]%list_elem_of_filter.
    destruct (scaffold_elem e tx Htx) as (sid & amt & r & memo & Hsid & Hs & Hi).
    apply (unfunded_transfer_fails tx sid amt r memo); [done|]. rewrite Hs, Hst.
    apply eq_None_not_Some. by apply (proj1 (Forall_forall _ _) Ef). }
  unfold PoSeqRuntime.process_batch in Hp. case_match; [done|].
  cbn [transactions ordered_batch] in Hp. rewrite Hres in Hp by done.
  cbn in Hp. injection Hp as <- <-. done.
Qed.
End properties.

(** ** Sample runs *)

Definition signed_transfer (i : IntentType) (n : Z) : IntentTransaction :=
  let t := sample_intent i n in
  mkIntent (tx_id t) (sender t) i (max_fee t) (it_deadline_epoch t) n
    (@IntentTransaction.sign sample_sha256 sample_ed25519 t alice) ∅ [] default_constraints
    BestEffort None None (sponsorship_limits t) SenderPays None.

(** The pool holds two signed transfers and one that is not signed. *)
Definition ingest_pool : IntentMempool :=
  foldl (λ m tx, (IntentMempool.insert tx m).1) (IntentMempool.new 8)
    [signed_transfer sample_transfer 0; signed_transfer big_transfer 1; sample_intent sample_transfer 2].

Definition sample_envelope (batch delivery : id32) (ids : list id32) : InboundFinalizationEnvelope :=
  mkEnvelope batch delivery 0 3 9 1 alice 0 ids 0 77 3 4 (mkFairness 1 0 0)
    (@InboundCommitment.compute sample_sha256 77 delivery ids).

Definition sample_ingester (use : bool) : RuntimeBatchIngester :=
  mkIngester (PoSeqRuntime.with_safety (SafetyKernel.set_contained {[20; 40]} ∅ false SafetyKernel.new)
    (with_store PoSeqRuntime.new settled_store)) ∅ ∅ (Some ingest_pool) None use.

Abbreviation sample_ingest :=
  (@ingest sample_sha256 sample_ed25519 sample_hex sample_bincode sample_u256).
Definition submissions : list id32 := [900; 901; 902; 903].
Definition balance_of (ing : RuntimeBatchIngester) (i : id32) : option Z :=
  amount <$> balances (store (runtime ing)) !! i.



Lemma ingest_once_witness :
  let envs := [sample_envelope 7 8 submissions; sample_envelope 7 9 submissions;
               sample_envelope 5 8 submissions; sample_envelope 5 9 submissions] in
  match @ingest_all sample_sha256 sample_ed25519 sample_hex sample_bincode sample_u256 envs
    (sample_ingester true) with
  | (ing', Ok outs) => ack_batch_id <$> omap ack_of outs = [7; 5] ∧
      NoDup (ack_batch_id <$> omap ack_of outs)
  | _ => False
  end.
Proof.
  intros envs.
  assert (match (@ingest_all sample_sha256 sample_ed25519 sample_hex sample_bincode sample_u256 envs
    (sample_ingester true)).2 with
    | Ok outs => ack_batch_id <$> omap ack_of outs = [7; 5] | _ => False end) as Hs
    by (vm_compute; reflexivity).
  destruct (@ingest_all sample_sha256 sample_ed25519 sample_hex sample_bincode sample_u256 envs
    (sample_ingester true)) as [ing' [outs| |]] eqn:E; cbn [snd] in Hs; [|destruct Hs..].
  split; [exact Hs|].
  apply (@ingest_once sample_sha256 sample_ed25519 sample_hex sample_bincode sample_u256 envs
    (sample_ingester true) ing' outs E).
Defined.

(** The same signed transfer of 100 is paid by both batches. *)
Lemma ingest_replays_witness :
  let first := sample_ingest (sample_envelope 7 8 submissions) (sample_ingester true) in
  let second := sample_ingest (sample_envelope 5 9 submissions) first.1 in
  [balance_of (sample_ingester true) 10; balance_of first.1 10; balance_of second.1 10] =
    [Some 1000; Some 900; Some 800] ∧
  ∃ txs, @envelope_transactions sample_sha256 sample_ed25519 (sample_ingester true)
    (sample_envelope 7 8 submissions) = Ok txs.
Proof.
  intros first second. split; [vm_compute; reflexivity|].
  assert (match first.2 with
    | Ok (Accepted a) => (ack_batch_id a, ack_delivery_id a) = (7, 8) | _ => False end) as Ho
    by (vm_compute; reflexivity).
  clear second. destruct first as [ing' o] eqn:E. cbn [snd] in Ho. destruct o as [[a|]| |];
    [|destruct Ho..]. injection Ho as Hb Hd.
  destruct (@ingest_step sample_sha256 sample_ed25519 sample_hex sample_bincode sample_u256 _ _ _ _ E)
    as [Eb Ed _ _]. cbn in Eb, Ed. rewrite Hb in Eb. rewrite Hd in Ed.
  assert (9 ∉ applied_deliveries ing') as Hd' by (rewrite Ed; by_decide).
  assert (5 ∉ applied_batches ing') as Hb' by (rewrite Eb; by_decide).
  assert (@InboundFinalizationEnvelope.validate sample_sha256 (sample_envelope 5 9 submissions) = Ok tt)
    as Hv by (vm_compute; reflexivity).
  pose proof (@ingest_replays sample_sha256 sample_ed25519 sample_hex sample_bincode sample_u256
    (sample_ingester true) ing' (sample_envelope 7 8 submissions) (sample_envelope 5 9 submissions)
    ingest_pool a eq_refl eq_refl E (eq_refl submissions) (eq_refl 9) Hv Hd' Hb') as (txs & rt & res & Ht & _).
  exists txs. exact Ht.
Defined.

Lemma scaffold_executes_nothing_witness :
  ∃ ing' a, sample_ingest (sample_envelope 7 8 submissions) (sample_ingester false) =
      (ing', Ok (Accepted a)) ∧ succeeded_count a = 0%nat.
Proof.
  destruct (sample_ingest (sample_envelope 7 8 submissions) (sample_ingester false)) as [ing' o] eqn:E.
  assert (match o with Ok (Accepted _) => true | _ => false end = true) as Ho.
  { apply (f_equal snd) in E. cbn [snd] in E. subst o. vm_compute. reflexivity. }
  destruct o as [[a|]| |]; try discriminate Ho. exists ing', a. split; [reflexivity|].
  apply (@scaffold_executes_nothing sample_sha256 sample_ed25519 sample_hex sample_bincode sample_u256
    (sample_ingester false) ing' (sample_envelope 7 8 submissions) a); [reflexivity|exact E].
Defined.
