(* ===== verification/SafetyProps.v ===== *)
(** * What the safety kernel guarantees

    What an assessment contains and when its scope shrinks; containment over any
    history of the kernel, down to the batches of the runtime; and what the kernel
    can see of CRX settlements. *)

From stdpp Require Import gmap strings list pretty.
From S2P Require Import Prelude Errors Gas Objects Concrete Store FeeEnvelope Intents.
From S2P Require Import Planner Settlement Cells SettlementFacts SettlementProps Independence Supply Groups Sorting Numerals CrxExec CrxSettle.
From S2P Require Import Safety SafetyRules SafetyBridge Runtime.

(** ** Blast radius *)

Section radius.
Import BlastRadiusEngine.

Lemma elem_of_at_domains {A} `{Countable A} (m : gmap string (gset A)) s x :
  x ∈ at_domains m s ↔ ∃ d, d ∈ s ∧ x ∈ at_domain m d.
Proof.
  unfold at_domains. rewrite elem_of_union_list. setoid_rewrite list_elem_of_fmap.
  setoid_rewrite elem_of_elements. naive_solver.
Qed.

Lemma at_domains_empty {A} `{Countable A} (m : gmap string (gset A)) : at_domains m ∅ = ∅.
Proof. apply set_eq. intros x. rewrite elem_of_at_domains. set_solver. Qed.
Lemma at_domains_single {A} `{Countable A} (m : gmap string (gset A)) d :
  at_domains m {[d]} = at_domain m d.
Proof. apply set_eq. intros x. rewrite elem_of_at_domains. set_solver. Qed.
Lemma at_domains_union {A} `{Countable A} (m : gmap string (gset A)) s s' :
  at_domains m (s ∪ s') = at_domains m s ∪ at_domains m s'.
Proof. apply set_eq. intros x. rewrite elem_of_union, !elem_of_at_domains. set_solver. Qed.

(** What the loop over a list of domains adds. *)
Lemma expand_all m l ds objs sols :
  foldl (expand m) (ds, objs, sols) l =
  (ds ∪ at_domains (domain_dependencies m) (list_to_set l),
   objs ∪ at_domains (domain_to_objects m)
            (list_to_set l ∪ at_domains (domain_dependencies m) (list_to_set l)),
   sols ∪ at_domains (domain_to_solvers m)
            (list_to_set l ∪ at_domains (domain_dependencies m) (list_to_set l))).
Proof.
  revert ds objs sols. induction l as [|d l IH]; intros ds objs sols; cbn [foldl list_to_set].
  - rewrite !at_domains_union, !at_domains_empty. f_equal; [f_equal|]; set_solver.
  - unfold expand at 2. rewrite IH, !at_domains_union, !at_domains_single. rewrite ?at_domains_union.
    f_equal; [f_equal|]; set_solver.
Qed.

(** An assessment has the domains of the incident and those they directly depend on,
    and every object and solver that the incident or the map names for one of them;
    its scope follows from how many domains that are, and else from the severity. *)
Theorem assess_spec (i : SafetyIncident) (m : DomainContainmentMap) (p : ScopeResolutionPolicy) :
  let r := assess i m p in
  let a := affected i in
  (∀ d, d ∈ affected_domains r ↔
     d ∈ af_domains a ∨ ∃ d', d' ∈ af_domains a ∧ d ∈ at_domain (domain_dependencies m) d') ∧
  (∀ o, o ∈ as_affected_objects r ↔
     o ∈ af_object_ids a ∨ ∃ d, d ∈ affected_domains r ∧ o ∈ at_domain (domain_to_objects m) d) ∧
  (∀ s, s ∈ affected_solvers r ↔
     s ∈ af_solver_ids a ∨ ∃ d, d ∈ affected_domains r ∧ s ∈ at_domain (domain_to_solvers m) d) ∧
  (cross_domain r = true ↔ cross_domain_threshold p ≤ Z.of_nat (size (affected_domains r))) ∧
  (systemic_risk r = true ↔ emergency_threshold p ≤ Z.of_nat (size (affected_domains r))) ∧
  recommended_scope r = minimum_scope r ∧
  minimum_scope r = scope_from_incident i (Z.of_nat (size (affected_domains r))) p.
Proof.
  intros r a. subst r. unfold assess. fold a. rewrite expand_all.
  rewrite (list_to_set_elements_L (af_domains a)).
  cbn [affected_domains as_affected_objects affected_solvers cross_domain systemic_risk
       recommended_scope minimum_scope].
  split_and!; [| | |apply bool_decide_eq_true|apply bool_decide_eq_true|by destruct prefer_minimal_scope|done].
  - intros d. by rewrite elem_of_union, elem_of_at_domains.
  - intros o. by rewrite elem_of_union, elem_of_at_domains.
  - intros s. by rewrite elem_of_union, elem_of_at_domains.
Qed.

(** An emergency that reaches two domains gets a smaller scope than one that reaches
    none, under the default policy. *)
Theorem emergency_scope_shrinks (i : SafetyIncident) :
  severity i = SvEmergency →
  scope_from_incident i 0 default_scope_policy = CsGlobal ∧
  scope_from_incident i 2 default_scope_policy = CsMultiDomain.
Proof. intros Hi. unfold scope_from_incident. by rewrite Hi. Qed.
End radius.

(** ** Solver controls *)

(** Whatever was decided about a solver before, throttling it lets it back in: a ban
    does not last. *)
Theorem throttling_lifts_ban (c : SolverSafetyController) (i : id32) (reason : string) (max : Z) :
  let banned := SolverSafetyController.apply_action (SaBan i reason) c in
  SolverSafetyController.is_solver_allowed banned i = false ∧
  SolverSafetyController.is_solver_allowed
    (SolverSafetyController.apply_action (SaRateRestrict i max) banned) i = true.
Proof.
  unfold SolverSafetyController.is_solver_allowed. cbn -[SolverSafetyController.profile_of].
  by rewrite !lookup_insert_eq.
Qed.

(** ** Containment *)

(** The kernel over its two operations. *)
Inductive kernel_op : Type :=
| OpEvaluate (ctx : SafetyEvaluationContext)
| OpReset (proof : GovernanceProof) (epoch : Z).

Section containment.
Context `{Sha256, Hex}.
Import SafetyKernel.

Definition run_op (k : SafetyKernel) (o : kernel_op) : SafetyKernel :=
  match o with
  | OpEvaluate ctx => (evaluate ctx k).1
  | OpReset proof epoch => (reset_emergency_mode proof epoch k).1
  end.
Definition run_ops (l : list kernel_op) (k : SafetyKernel) : SafetyKernel := foldl run_op k l.
Definition valid_reset (o : kernel_op) : Prop :=
  match o with OpReset proof _ => is_valid proof = true | _ => False end.

(** At least as contained: nothing is let out, the emergency mode aside. *)
Record contains_more (k k' : SafetyKernel) : Prop := {
  cm_objects : quarantined_objects k ⊆ quarantined_objects k';
  cm_domains : paused_domains k ⊆ paused_domains k';
  cm_solvers : ∀ s, is_solver_allowed k s = false → is_solver_allowed k' s = false;
  cm_entries : le_entries (kernel_ledger k) `prefix_of` le_entries (kernel_ledger k') }.
#[export] Instance contains_more_preorder : PreOrder contains_more.
Proof.
  split.
  - intros k. by split.
  - intros k1 k2 k3 [] []. split; [set_solver|set_solver|naive_solver|by etrans].
Qed.

Lemma suspends_keep c i until s :
  SolverSafetyController.is_solver_allowed c s = false →
  SolverSafetyController.is_solver_allowed
    (SolverSafetyController.apply_action (SaSuspend i until) c) s = false.
Proof.
  unfold SolverSafetyController.is_solver_allowed. cbn. rewrite lookup_insert. by case_decide.
Qed.

Lemma foldl_preserves {A B} (R : A → A → Prop) `{!PreOrder R} (f : A → B → A) l x :
  (∀ y z, z ∈ l → R y (f y z)) → R x (foldl f x l).
Proof.
  revert x. induction l as [|z l IH]; intros x Hf; [done|]. cbn. etrans; [apply Hf; left|].
  apply IH. intros y z' Hz. apply Hf. by right.
Qed.

(** An induction principle for actions that goes into stacks of them. *)
Lemma action_ind (P : SafetyAction → Prop) :
  (∀ l, Forall P l → P (MultiAction l)) →
  (∀ a, (∀ l, a ≠ MultiAction l) → P a) → ∀ a, P a.
Proof.
  intros Hm Ho. fix IH 1. intros a. destruct a as [| | | | | | | |l]; try by apply Ho.
  apply Hm. induction l as [|a l IHl]; constructor; [apply IH|apply IHl].
Qed.

(** What holds of every effect of a single action holds of actions. *)
Lemma apply_preserves (R : SafetyKernel → SafetyKernel → Prop) `{!PreOrder R} ctx :
  (∀ k ids, R k (set_contained (quarantined_objects k ∪ ids) (paused_domains k) (emergency_mode k) k)) →
  (∀ k d, R k (set_contained (quarantined_objects k) ({[d]} ∪ paused_domains k) (emergency_mode k) k)) →
  (∀ k i, R k (set_solvers (SolverSafetyController.apply_action (SaSuspend i u64_max)
                             (solver_controller k)) k)) →
  (∀ k, R k (set_contained (quarantined_objects k) (paused_domains k) true k)) →
  ∀ a k, R k (apply_action a ctx k).
Proof.
  intros Hq Hp Hs He. induction a as [l IH|a Ha] using action_ind; intros k.
  - cbn [apply_action]. apply foldl_preserves; [done|]. intros y a Hin.
    by apply (proj1 (Forall_forall _ _) IH).
  - destruct a as [| |q|p| |i r| |e|l]; cbn [apply_action]; try done.
    + rewrite <- (assoc_L _). apply Hq.
    + destruct (ps_target p); done.
    + by destruct (Ha l).
Qed.

Lemma apply_contains a ctx k : contains_more k (apply_action a ctx k).
Proof.
  apply apply_preserves; [apply _| | | |]; intros; split; cbn; try done; try set_solver.
  intros s. apply suspends_keep.
Qed.
Lemma apply_emergency a ctx k :
  emergency_mode k = true → emergency_mode (apply_action a ctx k) = true.
Proof.
  assert (PreOrder (λ k k', emergency_mode k = true → emergency_mode k' = true)).
  { split; [by intros ?|]. intros ? ? ?. naive_solver. }
  by apply (apply_preserves (λ k k', emergency_mode k = true → emergency_mode k' = true) ctx).
Qed.

Lemma append_entries r b l : le_entries l `prefix_of` le_entries (IncidentLedger.append r b l).1.
Proof. unfold IncidentLedger.append. case_decide; [done|]. cbn. by apply prefix_app_r. Qed.

Lemma log_contains r b k : contains_more k (log r b k).
Proof. split; try done. apply append_entries. Qed.

Lemma evaluate_contains ctx k : contains_more k (evaluate ctx k).1.
Proof.
  unfold evaluate. destruct (SafetyRuleEngine.evaluate ctx (rule_engine k)) as [rules [|top l]]; [done|].
  cbn [fst]. etrans; [|apply log_contains]. etrans; [|apply apply_contains]. done.
Qed.
Lemma evaluate_emergency ctx k : emergency_mode k = true → emergency_mode (evaluate ctx k).1 = true.
Proof.
  intros He. unfold evaluate. destruct (SafetyRuleEngine.evaluate ctx (rule_engine k)) as [rules [|top l]]; [done|].
  cbn [fst]. by apply apply_emergency.
Qed.

Lemma op_contains k o : contains_more k (run_op k o).
Proof.
  destruct o as [ctx|proof epoch]; [apply evaluate_contains|]. cbn. unfold reset_emergency_mode.
  destruct (is_valid proof); cbn [negb fst]; [|done]. etrans; [|apply log_contains]. done.
Qed.

Lemma ops_contain l k : contains_more k (run_ops l k).
Proof. unfold run_ops. apply foldl_preserves; [apply _|]. intros. apply op_contains. Qed.

(** Over any history of the kernel nothing that was contained is let out: objects
    stay in quarantine, domains paused, solvers suspended, and the ledger keeps its
    entries; only a valid governance proof ends the emergency mode. *)
Theorem containment_holds (l : list kernel_op) (k : SafetyKernel) :
  contains_more k (run_ops l k) ∧
  (emergency_mode k = true → Forall (λ o, ¬ valid_reset o) l → emergency_mode (run_ops l k) = true).
Proof.
  split; [apply ops_contain|]. revert k. induction l as [|o l IH]; intros k He Hl; [done|].
  apply Forall_cons in Hl as [Ho Hl]. apply (IH (run_op k o)); [|done].
  destruct o as [ctx|proof epoch]; cbn in Ho |- *; [by apply evaluate_emergency|].
  unfold reset_emergency_mode. by destruct (is_valid proof).
Qed.
End containment.

(** C34: What the kernel quarantined stays out of reach of the runtime that holds it:
    whatever happens in the kernel afterwards, no batch changes an object that an
    incident put into quarantine. *)
Theorem contained_objects_untouched `{Sha256, Hex, !Bincode, !BincodeLaws, !U256}
    (ctx : SafetyEvaluationContext) (k k1 : SafetyKernel) (d : SafetyDecision) (q : QuarantineAction)
    (o : id32) (l : list kernel_op) (batch : OrderedBatch) (rt rt' : PoSeqRuntime)
    (r : outcome RuntimeError SettlementResult) :
  SafetyKernel.evaluate ctx k = (k1, d) → sd_action d = Quarantine q →
  o ∈ qn_object_ids q ++ sx_affected_objects ctx → rt_safety rt = Some (run_ops l k1) →
  store_inv (store rt) → synced (store rt) → NoDup (tx_id <$> transactions batch) →
  Forall (λ tx, fits 64 (max_fee tx)) (transactions batch) →
  Forall (λ tx, IntentResolver.resolve tx (store rt) (PoSeqRuntime.caps_of rt (sender tx)) ≠ Panic)
    (transactions batch) →
  PoSeqRuntime.process_batch batch rt = (rt', r) →
  get_cell (store rt') o = get_cell (store rt) o.
Proof.
  intros E Ea Ho Hk Hinv Hsync Hnd Hfee Hnp Eb.
  apply (quarantine_holds batch rt rt' (run_ops l k1) o r); [done..| |done].
  apply (cm_objects _ _ (ops_contain l k1)).
  unfold SafetyKernel.evaluate in E.
  destruct (SafetyRuleEngine.evaluate ctx (rule_engine k)) as [rules [|top evs]];
    injection E as <- <-; cbn [sd_action] in Ea; [discriminate Ea|].
  rewrite Ea. cbn. set_solver.
Qed.

(** ** What the kernel sees of CRX settlements *)

Section crx.
Context `{Sha256, Hex}.
Import SafetyRuleEngine.

Abbreviation crx_context := SafetyEvaluationContext.from_crx_record.
Abbreviation violations r := (violations_count (causal_summary r)).
Abbreviation blamed_count e := (count_at e (0, "SolverMisconduct"%string)).

Lemma eval_miss p ctx e :
  (check_condition e (sp_condition p) ctx).1 = false →
  ∃ ev, eval_policy p ctx e = (e, ev) ∧ triggered ev = false.
Proof.
  unfold eval_policy. destruct (check_condition e (sp_condition p) ctx) as [hit detail]. cbn.
  intros ->. by eexists.
Qed.

Lemma eval_all_miss p l ctx e :
  (check_condition e (sp_condition p) ctx).1 = false → eval_all (p :: l) ctx e = eval_all l ctx e.
Proof.
  intros Hm. cbn [eval_all]. destruct (sp_enabled p); [|done].
  destruct (eval_miss p ctx e Hm) as (ev & -> & Ht). rewrite Ht.
  by destruct (eval_all l ctx e).
Qed.

Lemma count_one_at k k' e :
  count_at (count_one k e).1 k' = if decide (k = k') then wrapu 64 (count_at e k + 1) else count_at e k'.
Proof. unfold count_at, count_one. cbn. rewrite lookup_insert. by case_decide. Qed.

(** A policy that fires counts at most one more under its own name, and its
    evaluation has its severity and action or the escalated ones. *)
Lemma eval_hit p ctx e s :
  (check_condition e (sp_condition p) ctx).1 = true → sx_solver_id ctx = Some s →
  ∃ e' ev, eval_policy p ctx e = (e', ev) ∧ triggered ev = true ∧ policy_name ev = sp_name p ∧
    policies e' = policies e ∧
    (∀ k, count_at e' k = if decide ((s, sp_name p) = k) then wrapu 64 (count_at e k + 1) else count_at e k) ∧
    (computed_severity ev = sp_severity p ∧ ev_action ev = default_action p ∨
     ∃ esc, sp_escalation p = Some esc ∧
       computed_severity ev = to_severity esc ∧ ev_action ev = escalated_action esc).
Proof.
  unfold eval_policy. destruct (check_condition e (sp_condition p) ctx) as [hit detail]. cbn [fst].
  intros -> ->. cbn [default from_option].
  pose proof (λ k, count_one_at (s, sp_name p) k e) as Hc.
  assert (policies (count_one (s, sp_name p) e).1 = policies e) as Hp by done.
  assert (∀ k, count_at (count_one (s, sp_name p) e).1 k =
    if decide ((s, sp_name p) = k) then wrapu 64 (count_at e k + 1) else count_at e k) as Hc'.
  { intros k. rewrite Hc. case_decide; [by subst|done]. }
  unfold Datatypes.id. destruct (count_one (s, sp_name p) e) as [e1 c]. cbn [fst] in *.
  destruct (sp_escalation p) as [esc|]; [case_decide|];
    (eexists _, _; split; [reflexivity|]); split_and!; try done; eauto.
Qed.

Lemma eval_all_silent l ctx e :
  Forall (λ p, ∀ e, (check_condition e (sp_condition p) ctx).1 = false) l → eval_all l ctx e = (e, []).
Proof. induction 1 as [|p l Hm _ IH]; [done|]. by rewrite eval_all_miss. Qed.

(** One enabled policy, for a context with a solver. *)
Lemma eval_all_cons p l ctx e s :
  sp_enabled p = true → sx_solver_id ctx = Some s →
  ∃ e' ev, (eval_all (p :: l) ctx e = let '(e2, evs) := eval_all l ctx e' in
      (e2, (if (check_condition e (sp_condition p) ctx).1 then [ev] else []) ++ evs)) ∧
    policies e' = policies e ∧
    (∀ k, count_at e' k = if decide ((check_condition e (sp_condition p) ctx).1 = true ∧ (s, sp_name p) = k)
                          then wrapu 64 (count_at e k + 1) else count_at e k) ∧
    (computed_severity ev = sp_severity p ∧ ev_action ev = default_action p ∨
     ∃ esc, sp_escalation p = Some esc ∧
       computed_severity ev = to_severity esc ∧ ev_action ev = escalated_action esc).
Proof.
  intros He Hs. destruct (check_condition e (sp_condition p) ctx).1 eqn:Ec.
  - destruct (eval_hit p ctx e s Ec Hs) as (e' & ev & E & Ht & _ & Hp & Hc & Ha).
    exists e', ev. cbn [eval_all]. rewrite He, E, Ht. split_and!; [done|done| |done].
    intros k. rewrite Hc. by repeat case_decide; try naive_solver.
  - exists e, (mkRuleEvaluation EmptyString false (sp_severity p) (default_action p) EmptyString).
    rewrite (eval_all_miss p l ctx e Ec). split_and!; [by destruct (eval_all l ctx e)|done| |by left].
    intros k. rewrite decide_False; [done|naive_solver].
Qed.

(** Of the default rules only two can fire on a CRX settlement: misconduct, and many
    quarantined branches, whose rate limit changes nothing. *)
Lemma crx_rules r b epoch e :
  policies e = default_policies → 0 ≤ violations r → 0 ≤ blamed_count e →
  blamed_count e + violations r < 2 ^ 64 →
  ∃ e' evs, evaluate (crx_context r b epoch) e = (e', evs) ∧ policies e' = default_policies ∧
    blamed_count e' = (if decide (3 ≤ blamed_count e + violations r ∧ cx_solver_id r = 0)
                       then wrapu 64 (blamed_count e + 1) else blamed_count e) ∧
    if decide (3 ≤ blamed_count e + violations r)
    then ∃ top rest reason, evs = top :: rest ∧ ev_action top = SuspendSolver 0 reason
    else evs = [] ∨ ∃ top limit, evs = [top] ∧ ev_action top = RateLimit limit.
Proof.
  intros Hp Hv Hz Hb. set (ctx := crx_context r b epoch). unfold evaluate. rewrite Hp.
  assert (sx_solver_id ctx = Some (cx_solver_id r)) as Hs by done.
  assert (wrapu 64 (blamed_count e + violations r) = blamed_count e + violations r) as Hw
    by (apply wrapu_id; split; lia).
  unfold default_policies at 1. rewrite eval_all_miss by reflexivity.
  match goal with |- context [eval_all (?p2 :: ?p3 :: ?rest) ctx e] =>
    destruct (eval_all_cons p2 (p3 :: rest) ctx e _ eq_refl Hs) as (e2 & ev2 & -> & Hp2 & Hc2 & Ha2);
    destruct (eval_all_cons p3 rest ctx e2 _ eq_refl Hs) as (e3 & ev3 & -> & Hp3 & Hc3 & Ha3);
    rewrite (eval_all_silent rest ctx e3) by (repeat constructor)
  end.
  assert (blamed_count e3 = if decide (3 ≤ blamed_count e + violations r ∧ cx_solver_id r = 0)
                            then wrapu 64 (blamed_count e + 1) else blamed_count e) as Hc.
  { rewrite Hc3, decide_False by (cbn; naive_solver). rewrite Hc2. cbn [fst check_condition sp_condition sp_name].
    change (rights_violations_count ctx) with (violations r). rewrite Hw.
    apply decide_ext. rewrite bool_decide_eq_true. split; intros [? E]; (split; [done|]); [congruence|by rewrite E]. }
  eexists _, _. split; [reflexivity|]. split_and!; [congruence|done|].
  cbn [fst check_condition sp_condition sp_escalation sp_severity default_action] in *.
  destruct Ha3 as [[Hs3 Ha3]|(? & [=] & _)].
  change (rights_violations_count ctx) with (violations r). rewrite Hw.
  destruct (decide (3 ≤ blamed_count e + violations r)) as [Hd|Hd];
    [rewrite (bool_decide_eq_true_2 _ Hd)|rewrite (bool_decide_eq_false_2 _ Hd)].
  - destruct (bool_decide (2 < branch_quarantine_count ctx)), Ha2 as [[Hs2 Ha2]|(? & [= <-] & Hs2 & Ha2)];
      cbn; unfold by_severity; rewrite ?Hs2, ?Hs3; cbn; eauto.
  - destruct (bool_decide (2 < branch_quarantine_count ctx)); cbn; [right|by left]. eauto.
Qed.

(** Who is to blame: a settlement counts when its violations, with the counted
    settlements of the solver [[0; 32]] so far, are three or more.  The state is that
    count and the solvers blamed. *)
Definition blame (st : Z * gset id32) (r : CRXSettlementRecord) : Z * gset id32 :=
  if decide (3 ≤ st.1 + violations r)
  then (if decide (cx_solver_id r = 0) then st.1 + 1 else st.1, {[cx_solver_id r]} ∪ st.2)
  else st.
(** What each settlement of a batch is allowed. *)
Fixpoint verdicts (st : Z * gset id32) (l : list CRXSettlementRecord) : list bool :=
  match l with
  | [] => []
  | r :: l => bool_decide (cx_solver_id r ∉ (blame st r).2) :: verdicts (blame st r) l
  end.

(** The kernel as CRX settlements leave it. *)
Record crx_view (k : SafetyKernel) (st : Z * gset id32) : Prop := {
  cv_policies : policies (rule_engine k) = default_policies;
  cv_count : blamed_count (rule_engine k) = st.1;
  cv_objects : quarantined_objects k = ∅;
  cv_domains : paused_domains k = ∅;
  cv_emergency : emergency_mode k = false;
  cv_solvers : ∀ s, SafetyKernel.is_solver_allowed k s = bool_decide (s ∉ st.2) }.

Lemma view_new : crx_view SafetyKernel.new (0, ∅).
Proof. by split. Qed.

Lemma suspended_allowed c i until s :
  SolverSafetyController.is_solver_allowed (SolverSafetyController.apply_action (SaSuspend i until) c) s =
  if decide (i = s) then false else SolverSafetyController.is_solver_allowed c s.
Proof.
  unfold SolverSafetyController.is_solver_allowed. cbn. rewrite lookup_insert. by case_decide.
Qed.

Lemma view_step k st r b epoch :
  crx_view k st → 0 ≤ violations r → 0 ≤ st.1 → st.1 + violations r < 2 ^ 64 → st.1 + 1 < 2 ^ 64 →
  crx_view (SafetyKernel.evaluate (crx_context r b epoch) k).1 (blame st r).
Proof.
  intros Hk Hv Hz Hb Hb'. destruct Hk as [Hp Hc Ho Hd He Hs]. rewrite <- Hc in *.
  destruct (crx_rules r b epoch (rule_engine k) Hp Hv Hz Hb) as (e' & evs & E & Hp' & Hc' & Hevs).
  unfold SafetyKernel.evaluate, blame. rewrite E. rewrite <- Hc.
  destruct (decide (3 ≤ blamed_count (rule_engine k) + violations r)) as [Hd3|Hd3].
  - destruct Hevs as (top & rest & reason & -> & ->). split; cbn -[SolverSafetyController.apply_action]; try done.
    + rewrite Hc'. destruct (decide (cx_solver_id r = 0)) as [E0|E0].
      * rewrite decide_True by done. apply wrapu_id. split; lia.
      * by rewrite decide_False by naive_solver.
    + intros s. unfold SafetyKernel.is_solver_allowed. cbn -[SolverSafetyController.apply_action].
      rewrite suspended_allowed. fold (SafetyKernel.is_solver_allowed k s). rewrite Hs.
      rewrite (decide_True (P := 0 = 0)) by done.       unfold Datatypes.id. destruct (decide (cx_solver_id r = s)) as [<-|Hne];
        [rewrite bool_decide_false; [done|intros Hn; apply Hn; set_solver]|apply bool_decide_ext; set_solver].
  - rewrite decide_False in Hc' by naive_solver.
    destruct Hevs as [->|(top & limit & -> & ->)]; split; cbn; congruence || done.
Qed.

Lemma view_results batch_id epoch l k st :
  crx_view k st → 0 ≤ st.1 →
  Forall (λ r, 0 ≤ violations (xr_record r) ∧
               violations (xr_record r) + st.1 + Z.of_nat (length l) < 2 ^ 64) l →
  let '(k', annotated) := PoSeqSafetyBridge.process_results batch_id epoch l k in
  crx_view k' (foldl blame st (xr_record <$> l)) ∧
  final_allowed <$> annotated = verdicts st (xr_record <$> l).
Proof.
  revert k st. induction l as [|r l IH]; intros k st Hk Hz Hl; [done|].
  apply Forall_cons in Hl as [[Hv Hb] Hl]. cbn [length] in *.
  cbn [PoSeqSafetyBridge.process_results]. unfold PoSeqSafetyBridge.process_result.
  pose proof (view_step k st (xr_record r) (Some batch_id) epoch Hk Hv Hz ltac:(lia) ltac:(lia)) as Hk1.
  destruct (SafetyKernel.evaluate (crx_context (xr_record r) (Some batch_id) epoch) k) as [k1 d].
  cbn [fst] in Hk1.
  assert (st.1 ≤ (blame st (xr_record r)).1 ≤ st.1 + 1) as Hb1.
  { unfold blame. repeat case_decide; cbn; lia. }
  specialize (IH k1 (blame st (xr_record r)) Hk1 ltac:(lia)).
  destruct (PoSeqSafetyBridge.process_results batch_id epoch l k1) as [k' annotated].
  destruct IH as [Hk' Hf].
  { eapply Forall_impl; [exact Hl|]. cbn. intros x Hx. lia. }
  split; [exact Hk'|]. cbn [fmap list_fmap verdicts final_allowed]. f_equal; [|exact Hf].
  unfold PoSeqSafetyBridge.allowed. rewrite (cv_emergency _ _ Hk1), (cv_solvers _ _ Hk1).
  assert (existsb (SafetyKernel.is_object_quarantined k1) (affected_objects (xr_record r)) = false) as ->.
  { apply not_true_iff_false. intros (x & _ & Hx)%existsb_exists.
    unfold SafetyKernel.is_object_quarantined in Hx. rewrite (cv_objects _ _ Hk1) in Hx.
    by apply bool_decide_eq_true in Hx. }
  by destruct (bool_decide (cx_solver_id (xr_record r) ∉ (blame st (xr_record r)).2)).
Qed.

Lemma blamed_bound l : 0 ≤ (foldl blame (0, ∅) l).1 ≤ Z.of_nat (length l).
Proof.
  induction l as [|r l IH] using rev_ind; [done|]. rewrite foldl_app, length_app. cbn.
  unfold blame at 1 3. repeat case_decide; cbn; lia.
Qed.

(** C35: The kernel sees of a CRX settlement neither outflow nor domains, pools or
    mutation counts: over any batches of settlements it never quarantines an object,
    pauses a domain or enters the emergency mode.  All it does is to suspend the
    solvers to blame, and their settlements are all that it blocks. *)
Theorem crx_only_suspends (l : list CRXExecutionResult) (batch_id epoch : Z)
    (l' : list CRXExecutionResult) (batch_id' epoch' : Z) :
  Forall (λ r, 0 ≤ violations (xr_record r) ∧
               violations (xr_record r) + Z.of_nat (length l + length l') < 2 ^ 64) (l ++ l') →
  let b := (PoSeqSafetyBridge.process_batch l batch_id epoch PoSeqSafetyBridge.new).1 in
  let '(b', (annotated, state)) := PoSeqSafetyBridge.process_batch l' batch_id' epoch' b in
  let st := foldl blame (0, ∅) (xr_record <$> l) in
  final_allowed <$> annotated = verdicts st (xr_record <$> l') ∧
  ce_quarantined_objects state = [] ∧ ce_paused_domains state = [] ∧ ce_emergency_mode state = false ∧
  ∀ s, SafetyKernel.is_solver_allowed (kernel b') s =
       bool_decide (s ∉ (foldl blame st (xr_record <$> l')).2).
Proof.
  intros Hl. apply Forall_app in Hl as [Hl Hl'].
  pose proof (view_results batch_id epoch l SafetyKernel.new (0, ∅) view_new ltac:(done)) as H1.
  unfold PoSeqSafetyBridge.process_batch, PoSeqSafetyBridge.new. cbn [kernel].
  destruct (PoSeqSafetyBridge.process_results batch_id epoch l SafetyKernel.new) as [k1 a1]. cbn [fst kernel].
  destruct H1 as [Hk1 _].
  { eapply Forall_impl; [exact Hl|]. cbn. intros x Hx. lia. }
  set (st := foldl blame (0, ∅) (xr_record <$> l)) in *.
  assert (0 ≤ st.1 ≤ Z.of_nat (length l)) as Hst.
  { rewrite <- (length_fmap xr_record l). apply blamed_bound. }
  pose proof (view_results batch_id' epoch' l' k1 st Hk1 ltac:(lia)) as H2.
  destruct (PoSeqSafetyBridge.process_results batch_id' epoch' l' k1) as [k2 a2].
  destruct H2 as [Hk2 Hf].
  { eapply Forall_impl; [exact Hl'|]. cbn. intros x Hx. lia. }
  split; [exact Hf|]. unfold PoSeqSafetyBridge.constrained_state.
  cbn [kernel ce_quarantined_objects ce_paused_domains ce_emergency_mode].
  rewrite (cv_objects _ _ Hk2), (cv_domains _ _ Hk2), (cv_emergency _ _ Hk2).
  split_and!; [done..|]. apply (cv_solvers _ _ Hk2).
Qed.

(** Once three settlements of the solver [[0; 32]] were to blame, every settlement
    is, whatever its solver did. *)
Theorem zero_solver_blames_all (l : list CRXSettlementRecord) (r : CRXSettlementRecord) :
  3 ≤ (foldl blame (0, ∅) l).1 → 0 ≤ violations r →
  cx_solver_id r ∈ (blame (foldl blame (0, ∅) l) r).2.
Proof. intros Hc Hv. unfold blame at 1. rewrite decide_True by lia. cbn. set_solver. Qed.
End crx.

(** The rule about governance-sensitive objects pauses the domain whose profile says
    that it cannot be paused. *)
Theorem governance_paused_anyway `{Sha256, Hex} (epoch : Z) :
  let ctx := sn_context (SafetySimulator.governance_misuse_scenario epoch) in
  DomainSafetyPolicy.is_pause_allowed (domain_policy SafetyKernel.new) "governance" = false ∧
  paused_domains (SafetyKernel.evaluate ctx SafetyKernel.new).1 = {["governance"%string]}.
Proof. split; [by vm_compute|]. cbn. set_solver. Qed.

(** ** Sample runs *)

Definition sample_record (solver violations : Z) (objs : list id32) : CRXSettlementRecord :=
  mkCrxRecord 7 8 solver 77 (mkDisposition FcRejected EmptyString false None) ScRejected
    (mkCapsuleReceipt 1 2 EmptyString false) (mkGraphReceipt 1 2 3 0 3 violations [])
    (mkCausalSummary true false violations 5) objs [] 0 1.
Definition sample_result (r : CRXSettlementRecord) : CRXExecutionResult := mkCrxResult 7 r false.

Lemma crx_only_suspends_witness :
  final_allowed <$> (@PoSeqSafetyBridge.process_batch sample_sha256 sample_hex
    (sample_result <$> [sample_record 5 0 []]) 1 1
    (@PoSeqSafetyBridge.process_batch sample_sha256 sample_hex
      (sample_result <$> [sample_record 5 3 [20]; sample_record 6 2 [20]]) 1 1
      PoSeqSafetyBridge.new).1).2.1 = [false].
Proof.
  pose proof (@crx_only_suspends sample_sha256 sample_hex
    (sample_result <$> [sample_record 5 3 [20]; sample_record 6 2 [20]]) 1 1
    (sample_result <$> [sample_record 5 0 []]) 1 1) as Hc.
  cbv zeta in Hc.
  destruct (@PoSeqSafetyBridge.process_batch sample_sha256 sample_hex
    (sample_result <$> [sample_record 5 0 []]) 1 1 _) as [b' [annotated state]].
  destruct Hc as [Hf _]; [repeat constructor; by_eval|]. cbn [fst snd]. rewrite Hf. vm_compute. reflexivity.
Defined.

Lemma zero_solver_blames_all_witness :
  let l := replicate 3 (sample_record 0 3 []) in
  3 ≤ (foldl blame (0, ∅) l).1 ∧ 5 ∈ (blame (foldl blame (0, ∅) l) (sample_record 5 0 [])).2.
Proof.
  split; [vm_compute; discriminate|].
  apply (zero_solver_blames_all (replicate 3 (sample_record 0 3 [])) (sample_record 5 0 []));
    vm_compute; discriminate.
Defined.

(** An outflow that is too large, with an object of the sample batch. *)
Definition drain_context : SafetyEvaluationContext :=
  SafetySimulator.context_with 9 None FcFinalized [20] ["treasury"%string] 0 0 2000000 [] false ∅.
Definition drained : SafetyKernel * SafetyDecision :=
  @SafetyKernel.evaluate sample_sha256 sample_hex drain_context SafetyKernel.new.
Definition guarded_runtime : PoSeqRuntime :=
  PoSeqRuntime.with_safety (@run_ops sample_sha256 sample_hex [OpReset (mkGovProof true None) 9] drained.1)
    (with_store PoSeqRuntime.new settled_store).

Lemma contained_objects_untouched_witness :
  get_cell (store (run_sample guarded_runtime).1) 20 = get_cell settled_store 20.
Proof.
  destruct (run_sample guarded_runtime) as [rt' r] eqn:E.
  apply (@contained_objects_untouched sample_sha256 sample_hex sample_bincode sample_bincode_laws sample_u256
    drain_context SafetyKernel.new drained.1 drained.2
    (mkQuarantineAction [] "abnormal outflow detected" true false) 20
    [OpReset (mkGovProof true None) 9] sample_batch guarded_runtime rt' r).
  - apply surjective_pairing.
  - vm_compute. reflexivity.
  - vm_compute. left.
  - reflexivity.
  - exact settled_inv.
  - exact settled_synced.
  - exact sample_ids.
  - by_decide.
  - repeat constructor; vm_compute; discriminate.
  - exact E.
Defined.

Lemma containment_holds_witness :
  emergency_mode (@run_ops sample_sha256 sample_hex [OpEvaluate drain_context; OpReset (mkGovProof false None) 9]
    (SafetyKernel.set_contained ∅ ∅ true SafetyKernel.new)) = true.
Proof.
  apply (proj2 (@containment_holds sample_sha256 sample_hex
    [OpEvaluate drain_context; OpReset (mkGovProof false None) 9]
    (SafetyKernel.set_contained ∅ ∅ true SafetyKernel.new))).
  - reflexivity.
  - apply Forall_cons; split; [by intros ?|]. apply Forall_cons; split; [done|by apply Forall_nil].
Defined.

Lemma emergency_scope_shrinks_witness :
  let i := @SafetyKernel.incident_of sample_sha256 sample_hex
    (mkRuleEvaluation EmptyString true SvEmergency NoAction EmptyString) drain_context in
  BlastRadiusEngine.scope_from_incident i 0 default_scope_policy = CsGlobal.
Proof. apply emergency_scope_shrinks. reflexivity. Defined.
