(* ===== verification/Merkle.v ===== *)
(** * Merkle proofs of the store

    The binary Merkle tree over the sorted (id, hash of the object) pairs of
    src/runtime/src/state/merkle.rs: building it level by level, inclusion
    proofs and their verification. *)

From stdpp Require Import gmap strings list.
From S2P Require Import Prelude Objects Concrete Store.

(* @src src/runtime/src/state/merkle.rs:16-23 empty_leaf_hash *)
Definition empty_leaf_hash `{Sha256} : id32 := sha256 (string_bytes "OMNIPHI_EMPTY_LEAF").

Definition leaf_bytes (key value_hash : id32) : bytes :=
  0 :: be_bytes 32 key ++ be_bytes 32 value_hash.
Definition node_bytes (left right : id32) : bytes := 1 :: be_bytes 32 left ++ be_bytes 32 right.

(* @src src/runtime/src/state/merkle.rs:26-35 hash_leaf *)
Definition hash_leaf `{Sha256} (key value_hash : id32) : id32 := sha256 (leaf_bytes key value_hash).

(* @src src/runtime/src/state/merkle.rs:38-47 hash_internal *)
Definition hash_internal `{Sha256} (left right : id32) : id32 := sha256 (node_bytes left right).

(* @src src/runtime/src/state/merkle.rs:51-56 ProofNode *)
Record ProofNode : Type := mkNode {
  node_hash : id32;
  is_left : bool }.

(* @src src/runtime/src/state/merkle.rs:60-69 MerkleProof *)
Record MerkleProof : Type := mkProof {
  key : id32;
  value_hash : id32;
  path : list ProofNode;
  root : id32 }.

Definition set_value_hash (v : id32) (p : MerkleProof) : MerkleProof :=
  mkProof (key p) v (path p) (root p).

Module MerkleProof.
(** One level of the walk from the leaf to the root: the bytes that are hashed. *)
Definition step_bytes (current : id32) (n : ProofNode) : bytes :=
  if is_left n then node_bytes (node_hash n) current else node_bytes current (node_hash n).

(* @src src/runtime/src/state/merkle.rs:73-83 MerkleProof::verify *)
Definition verify `{Sha256} (p : MerkleProof) : bool :=
  bool_decide (foldl (λ current n,
    if is_left n then hash_internal (node_hash n) current
    else hash_internal current (node_hash n)) (hash_leaf (key p) (value_hash p)) (path p) = root p).
End MerkleProof.

(* @src src/runtime/src/state/merkle.rs:91-98 MerkleTree *)
Record MerkleTree : Type := mkTree {
  leaves : list (id32 * id32);
  levels : list (list id32);
  tree_root : id32 }.

Module MerkleTree.
(** The body of the loop: neighbours in pairs, an odd last one with itself. *)
(* @src src/runtime/src/state/merkle.rs:130-142 MerkleTree::build *)
Fixpoint next_level `{Sha256} (current : list id32) : list id32 :=
  match current with
  | [] => []
  | [l] => [hash_internal l l]
  | l :: r :: current => hash_internal l r :: next_level current
  end.

(** The loop.  A level of two nodes or more has a shorter next level, so the
    number of leaves is fuel enough. *)
(* @src src/runtime/src/state/merkle.rs:121-144 MerkleTree::build *)
Fixpoint build_levels `{Sha256} (fuel : nat) (current : list id32) : list (list id32) :=
  match fuel with
  | O => [current]
  | S fuel =>
      if decide (length current = 1%nat) then [current]
      else current :: build_levels fuel (next_level current)
  end.

Definition leaf_hashes `{Sha256} (entries : list (id32 * id32)) : list id32 :=
  (λ e, hash_leaf e.1 e.2) <$> entries.

(* @src src/runtime/src/state/merkle.rs:102-149 MerkleTree::build *)
Definition build `{Sha256} (entries : list (id32 * id32)) : total_or_panic MerkleTree :=
  if decide (entries = []) then Ok (mkTree [] [[empty_leaf_hash]] empty_leaf_hash) else
  let hashes := leaf_hashes entries in
  let levels := build_levels (length hashes) hashes in
  top ← expect (last levels);
  root ← expect (head top);
  Ok (mkTree (zip entries.*1 hashes) levels root).

(* @src src/runtime/src/state/merkle.rs:163-183 MerkleTree::prove *)
Fixpoint path_from (levels : list (list id32)) (idx : nat) : total_or_panic (list ProofNode) :=
  match levels with
  | [] | [_] => Ok []
  | current :: levels =>
      let sibling := if decide (idx mod 2 = 0)%nat then S idx else pred idx in
      h ← expect (if decide (sibling < length current)%nat then current !! sibling
                  else current !! idx);
      path ← path_from levels (idx / 2);
      Ok (mkNode h (bool_decide (idx mod 2 = 1)%nat) :: path)
  end.

(** The caller has to fill in the value hash. *)
(* @src src/runtime/src/state/merkle.rs:155-191 MerkleTree::prove *)
Definition prove (t : MerkleTree) (index : nat) : total_or_panic (option MerkleProof) :=
  if decide (length (leaves t) ≤ index)%nat then Ok None else
  leaf ← expect (leaves t !! index);
  path ← path_from (levels t) index;
  Ok (Some (mkProof leaf.1 0 path (tree_root t))).

(* @src src/runtime/src/state/merkle.rs:194-194 MerkleTree::len *)
Definition len (t : MerkleTree) : nat := length (leaves t).

(* @src src/runtime/src/state/merkle.rs:197-197 MerkleTree::depth *)
Definition depth (t : MerkleTree) : nat := length (levels t).
End MerkleTree.
Import MerkleTree.

Definition store_entries `{Sha256, Bincode} (objs : gmap Z BoxedObject) : list (id32 * id32) :=
  (λ e, (e.1, sha256 (encode e.2))) <$> btree_list objs.

(* @src src/runtime/src/state/merkle.rs:204-223 compute_merkle_root *)
Definition compute_merkle_root `{Sha256, Bincode} (objs : gmap Z BoxedObject)
  : total_or_panic (MerkleTree * id32) :=
  tree ← build (store_entries objs);
  Ok (tree, tree_root tree).

(** ** The levels *)

(** The shape the loop builds: level by level up to a single node. *)
Inductive tower `{Sha256} : list id32 → list (list id32) → Prop :=
| tower_top r : tower [r] [[r]]
| tower_step l ls : (1 < length l)%nat → tower (next_level l) ls → tower l (l :: ls).

Section levels.
Context `{Sha256}.
Implicit Types (l : list id32) (ls : list (list id32)).

(** Induction over a list by pairs. *)
Lemma pair_ind (P : list id32 → Prop) :
  P [] → (∀ a, P [a]) → (∀ a b l, P l → P (a :: b :: l)) → ∀ l, P l.
Proof.
  intros H0 H1 H2. assert (∀ l, P l ∧ ∀ a, P (a :: l)) as Hp; [|intros l; apply Hp].
  induction l as [|b l [IH IH']]; [by split|]. split; [apply IH'|]. intros a. by apply H2.
Qed.

Lemma next_level_length l : length (next_level l) = (S (length l) / 2)%nat.
Proof.
  induction l as [|a|a b l IH] using pair_ind; [done..|]. cbn [next_level length]. rewrite IH.
  replace (S (S (S (length l)))) with (S (length l) + 1 * 2)%nat by lia.
  rewrite Nat.div_add by done. lia.
Qed.

Lemma next_level_lookup l j :
  next_level l !! j =
  a ← l !! (2 * j)%nat; Some (hash_internal a (default a (l !! S (2 * j)))).
Proof.
  revert j. induction l as [|a|a b l IH] using pair_ind; intros j; [done|..].
  - destruct j; [done|]. cbn. by rewrite Nat.add_succ_r.
  - destruct j as [|j]; [done|]. replace (2 * S j)%nat with (S (S (2 * j))) by lia.
    cbn [next_level lookup list_lookup]. apply IH.
Qed.

Lemma build_levels_tower fuel l :
  l ≠ [] → (length l ≤ fuel)%nat → tower l (build_levels fuel l).
Proof.
  revert l. induction fuel as [|fuel IH]; intros l Hl Hf.
  { destruct l; [done|cbn in Hf; lia]. }
  cbn. case_decide as E.
  { destruct l as [|r [|]]; [done| |done]. constructor. }
  assert (1 < length l)%nat by (destruct l as [|? [|]]; cbn in *; [done|lia|lia]).
  pose proof (Nat.div_mod_eq (S (length l)) 2). pose proof (Nat.mod_upper_bound (S (length l)) 2).
  constructor; [done|]. apply IH.
  - intros En%(f_equal length). rewrite next_level_length in En. cbn [length] in En. lia.
  - rewrite next_level_length. lia.
Qed.

Lemma tower_unique l ls ls' : tower l ls → tower l ls' → ls = ls'.
Proof.
  intros Ht. revert ls'. induction Ht as [r|l ls Hl Ht IH]; intros ls' Ht'.
  - inversion Ht' as [|? ? Hl]; subst; [done|cbn in Hl; lia].
  - inversion Ht' as [|? ls2 ? Ht2]; subst; [cbn in Hl; lia|]. f_equal. by apply IH.
Qed.

Lemma tower_last l ls : tower l ls → ∃ r, last ls = Some [r].
Proof.
  induction 1 as [r|l ls Hl Ht [r IH]]; [by exists r|]. exists r. destruct ls; [done|]. exact IH.
Qed.

Lemma tower_head l ls : tower l ls → ls !! 0%nat = Some l.
Proof. by destruct 1. Qed.

Lemma tower_next l ls k lev lev' :
  tower l ls → ls !! k = Some lev → ls !! S k = Some lev' → lev' = next_level lev.
Proof.
  intros Ht. revert k. induction Ht as [r|l ls Hl Ht IH]; intros k Hk Hk'; [by destruct k|].
  destruct k as [|k]; [|by eapply IH]. injection Hk as <-.
  change (ls !! 0%nat = Some lev') in Hk'. rewrite (tower_head _ _ Ht) in Hk'. by injection Hk'.
Qed.

(** The height is the logarithm of the number of leaves. *)
Lemma tower_height l ls :
  tower l ls → (length l ≤ 2 ^ pred (length ls) < 2 * length l)%nat.
Proof.
  induction 1 as [r|l ls Hl Ht IH]; [cbn; lia|].
  assert (length ls ≠ 0%nat) as Hn by (by destruct Ht). rewrite next_level_length in IH.
  cbn [length Nat.pred]. destruct (length ls) as [|n]; [done|]. cbn [Nat.pred] in IH.
  change (2 ^ S n)%nat with (2 * 2 ^ n)%nat.
  pose proof (Nat.div_mod_eq (S (length l)) 2). pose proof (Nat.mod_upper_bound (S (length l)) 2).
  split; [lia|]. destruct IH as [_ IH].
  assert (2 ^ n < S (length l))%nat by lia.
  destruct n as [|n]; [cbn; lia|]. change (2 ^ S n)%nat with (2 * 2 ^ n)%nat in *. lia.
Qed.
End levels.

(** ** What gets hashed *)

Fixpoint pair_bytes (l : list id32) : list bytes :=
  match l with
  | [] => []
  | [a] => [node_bytes a a]
  | a :: b :: l => node_bytes a b :: pair_bytes l
  end.

(** The bytes hashed to build the tree of [entries]. *)
Definition tree_preimages `{Sha256} (entries : list (id32 * id32)) : list bytes :=
  if decide (entries = []) then [string_bytes "OMNIPHI_EMPTY_LEAF"] else
  let ls := build_levels (length entries) (leaf_hashes entries) in
  ((λ e, leaf_bytes e.1 e.2) <$> entries) ++ concat (pair_bytes <$> take (pred (length ls)) ls).

(** The bytes hashed to verify a proof. *)
Fixpoint walk_bytes `{Sha256} (current : id32) (path : list ProofNode) : list bytes :=
  match path with
  | [] => []
  | n :: path =>
      MerkleProof.step_bytes current n :: walk_bytes (sha256 (MerkleProof.step_bytes current n)) path
  end.
Definition proof_preimages `{Sha256} (p : MerkleProof) : list bytes :=
  leaf_bytes (key p) (value_hash p) :: walk_bytes (hash_leaf (key p) (value_hash p)) (path p).

Definition entry_fits (e : id32 * id32) : Prop := fits 256 e.1 ∧ fits 256 e.2.
Definition proof_fits (p : MerkleProof) : Prop :=
  entry_fits (key p, value_hash p) ∧ Forall (λ n, fits 256 (node_hash n)) (path p).

Section hashing.
Context `{Sha256Laws}.
Implicit Types (l : list id32) (ls : list (list id32)) (entries : list (id32 * id32)).

Lemma next_level_hashes l : next_level l = sha256 <$> pair_bytes l.
Proof.
  induction l as [|a|a b l IH] using pair_ind; [done..|]. cbn. by f_equal.
Qed.

Lemma pair_bytes_elem l x : x ∈ pair_bytes l → ∃ a b, a ∈ l ∧ b ∈ l ∧ x = node_bytes a b.
Proof.
  induction l as [|a|a b l IH] using pair_ind; cbn [pair_bytes].
  - by intros ?%elem_of_nil.
  - intros ->%list_elem_of_singleton. exists a, a. by split_and!; [left|left|].
  - intros [->|(a' & b' & ? & ? & ->)%IH]%elem_of_cons.
    + exists a, b. split_and!; [left|right; left|done].
    + exists a', b'. split_and!; [by do 2 right..|done].
Qed.

Lemma pair_bytes_lookup l j a b :
  l !! (2 * j)%nat = Some a → default a (l !! S (2 * j)) = b → node_bytes a b ∈ pair_bytes l.
Proof.
  revert j. induction l as [|c|c d l IH] using pair_ind; intros j Ha Hb; [done|..].
  - destruct j; [|by rewrite lookup_nil in Ha || (destruct j; done)].
    cbn in *. injection Ha as ->. subst b. left.
  - destruct j as [|j]; [cbn in *; injection Ha as ->; subst; left|].
    replace (2 * S j)%nat with (S (S (2 * j))) in * by lia. right. by apply (IH j).
Qed.

Lemma two_ids_inj a b a' b' :
  fits 256 a → fits 256 b → fits 256 a' → fits 256 b' →
  be_bytes 32 a ++ be_bytes 32 b = be_bytes 32 a' ++ be_bytes 32 b' → a = a' ∧ b = b'.
Proof.
  intros ? ? ? ? E. apply be_bytes_app_inj in E as [-> E]; [|by auto with ints..].
  split; [done|]. apply be_bytes_inj in E; by auto with ints.
Qed.

Lemma node_bytes_inj a b a' b' :
  fits 256 a → fits 256 b → fits 256 a' → fits 256 b' →
  node_bytes a b = node_bytes a' b' → a = a' ∧ b = b'.
Proof. intros ? ? ? ? E%(f_equal tail). by apply two_ids_inj. Qed.

Lemma leaf_bytes_inj e e' :
  entry_fits e → entry_fits e' → leaf_bytes e.1 e.2 = leaf_bytes e'.1 e'.2 → e = e'.
Proof.
  destruct e, e'. intros [? ?] [? ?] E%(f_equal tail).
  apply two_ids_inj in E as [E1 E2]; [|done..]. cbn in E1, E2. by subst.
Qed.

Lemma leaf_not_node a b c d : leaf_bytes a b ≠ node_bytes c d.
Proof. intros E%(f_equal head). discriminate E. Qed.

Lemma verify_walk p :
  MerkleProof.verify p = true ↔
  foldl (λ c n, sha256 (MerkleProof.step_bytes c n)) (hash_leaf (key p) (value_hash p)) (path p) =
    root p.
Proof.
  unfold MerkleProof.verify. rewrite bool_decide_eq_true.
  assert (∀ ns c, foldl (λ current n, if is_left n then hash_internal (node_hash n) current
    else hash_internal current (node_hash n)) c ns =
    foldl (λ c n, sha256 (MerkleProof.step_bytes c n)) c ns) as ->; [|done].
  induction ns as [|n ns IH]; intros c; [done|]. cbn. rewrite IH. f_equal.
  unfold MerkleProof.step_bytes. by destruct (is_left n).
Qed.

Lemma walk_bytes_app c ns ns' :
  walk_bytes c (ns ++ ns') = walk_bytes c ns ++
    walk_bytes (foldl (λ c n, sha256 (MerkleProof.step_bytes c n)) c ns) ns'.
Proof. revert c. induction ns as [|n ns IH]; intros c; [done|]. cbn. by rewrite IH. Qed.

(** One level of a proof: the sibling, and where the pair is in the level. *)
Lemma sibling_step l idx h :
  l !! idx = Some h →
  let sibling := if decide (idx mod 2 = 0)%nat then S idx else pred idx in
  ∃ s, (if decide (sibling < length l)%nat then l !! sibling else l !! idx) = Some s ∧
    let n := mkNode s (bool_decide (idx mod 2 = 1)%nat) in
    next_level l !! (idx / 2)%nat = Some (sha256 (MerkleProof.step_bytes h n)) ∧
    MerkleProof.step_bytes h n ∈ pair_bytes l.
Proof.
  intros Hh sibling. pose proof (Nat.div_mod_eq idx 2) as E. pose proof (Nat.mod_upper_bound idx 2).
  rewrite next_level_lookup. set (j := (idx / 2)%nat) in *. unfold sibling.
  destruct (decide (idx mod 2 = 0)%nat) as [E0|E0].
  - rewrite bool_decide_eq_false_2 by lia. assert (idx = 2 * j)%nat as Ej by lia.
    exists (default h (l !! S (2 * j)%nat)). rewrite <- Ej, Hh. split_and!.
    + case_decide as Hlt; [|by rewrite (proj2 (lookup_ge_None l (S idx))) by lia].
      by apply lookup_lt_is_Some in Hlt as [s ->].
    + done.
    + unfold MerkleProof.step_bytes; cbn. apply (pair_bytes_lookup l j); by rewrite <- Ej.
  - rewrite bool_decide_eq_true_2 by lia. assert (idx = S (2 * j)) as Ej by lia.
    assert (is_Some (l !! (2 * j)%nat)) as [s Hs].
    { apply lookup_lt_is_Some. apply lookup_lt_Some in Hh. lia. }
    exists s. rewrite Ej in Hh |- *. cbn [Nat.pred]. rewrite Hs, Hh. split_and!.
    + apply lookup_lt_Some in Hs. by rewrite decide_True.
    + done.
    + unfold MerkleProof.step_bytes; cbn [is_left node_hash].
      apply (pair_bytes_lookup l j); [done|]. by rewrite Hh.
Qed.

Lemma path_from_cons l l' ls idx :
  path_from (l :: l' :: ls) idx =
  (h ← expect (if decide ((if decide (idx mod 2 = 0) then S idx else pred idx) < length l)
               then l !! (if decide (idx mod 2 = 0) then S idx else pred idx) else l !! idx);
   path ← path_from (l' :: ls) (idx / 2);
   Ok (mkNode h (bool_decide (idx mod 2 = 1)) :: path))%nat.
Proof. done. Qed.

(** A walk from the leaf at [idx] passes the tree's own nodes up to its root. *)
Lemma path_from_tower l ls idx h :
  tower l ls → l !! idx = Some h →
  ∃ ns, path_from ls idx = Ok ns ∧ length ns = pred (length ls) ∧
    last ls = Some [foldl (λ c n, sha256 (MerkleProof.step_bytes c n)) h ns] ∧
    (∀ x, x ∈ walk_bytes h ns → x ∈ concat (pair_bytes <$> take (pred (length ls)) ls)) ∧
    Forall (λ n, ∃ lev, lev ∈ ls ∧ node_hash n ∈ lev) ns.
Proof.
  intros Ht. revert idx h. induction Ht as [r|l ls Hl Ht IH]; intros idx h Hh.
  { destruct idx; [|done]. injection Hh as ->. exists [].
    split_and!; [done..|by intros ? ?%elem_of_nil|constructor]. }
  destruct (sibling_step l idx h Hh) as (s & Es & Hn & Hin).
  destruct (IH _ _ Hn) as (ns & Ens & Hlen & Hlast & Hsub & Hlev).
  destruct ls as [|l' ls']; [by inversion Ht|].
  exists (mkNode s (bool_decide (idx mod 2 = 1)%nat) :: ns). split_and!.
  - rewrite path_from_cons, Es. cbn [expect mbind outcome_bind]. by rewrite Ens.
  - cbn [length Nat.pred] in *. by rewrite Hlen.
  - exact Hlast.
  - cbn [length Nat.pred] in Hsub |- *. cbn [take fmap list_fmap concat walk_bytes].
    intros x [->|Hx]%elem_of_cons; apply elem_of_app; [by left|right; by apply Hsub].
  - constructor.
    + exists l. split; [left|]. cbn [node_hash].
      case_match; by eapply list_elem_of_lookup_2.
    + eapply Forall_impl; [exact Hlev|]. intros n (lev & ? & ?). exists lev. split; [by right|done].
Qed.

(** ** The tree and its proofs *)

Definition tree_levels entries : list (list id32) :=
  build_levels (length entries) (leaf_hashes entries).

Lemma build_ok entries :
  entries ≠ [] → ∃ r, tower (leaf_hashes entries) (tree_levels entries) ∧
    last (tree_levels entries) = Some [r] ∧
    build entries = Ok (mkTree (zip entries.*1 (leaf_hashes entries)) (tree_levels entries) r).
Proof.
  intros Hne. assert (length (leaf_hashes entries) = length entries) as El by apply length_fmap.
  assert (tower (leaf_hashes entries) (tree_levels entries)) as Ht.
  { apply build_levels_tower; [|by rewrite El]. by intros ?%fmap_nil_inv. }
  destruct (tower_last _ _ Ht) as [r Hr]. exists r. split_and!; [done..|].
  unfold build. rewrite decide_False by done. cbv zeta. rewrite El.
  fold (tree_levels entries). rewrite Hr. done.
Qed.

Lemma build_total entries : ∃ t, build entries = Ok t.
Proof.
  destruct (decide (entries = [])) as [->|Hne]; [by eexists|].
  destruct (build_ok entries Hne) as (r & _ & _ & ->). by eexists.
Qed.

(** Every node of the tree is a hash of the tree's preimages: a leaf on the lowest
    level, a pair of the level below elsewhere. *)
Lemma node_origin entries k lev c :
  entries ≠ [] → tree_levels entries !! k = Some lev → c ∈ lev →
  (k = 0%nat ∧ ∃ e, e ∈ entries ∧ c = sha256 (leaf_bytes e.1 e.2)) ∨
  (∃ j low a b, k = S j ∧ tree_levels entries !! j = Some low ∧ a ∈ low ∧ b ∈ low ∧
     c = sha256 (node_bytes a b) ∧ node_bytes a b ∈ tree_preimages entries).
Proof.
  intros Hne Hk Hc. destruct (build_ok entries Hne) as (r & Ht & _ & _).
  destruct k as [|j].
  - left. split; [done|]. rewrite (tower_head _ _ Ht) in Hk. injection Hk as <-.
    apply list_elem_of_fmap in Hc as (e & -> & He). by exists e.
  - right. destruct (lookup_lt_is_Some_2 (tree_levels entries) j) as [low Hlow].
    { apply lookup_lt_Some in Hk. lia. }
    rewrite (tower_next _ _ _ _ _ Ht Hlow Hk), next_level_hashes in Hc.
    apply list_elem_of_fmap in Hc as (x & -> & Hx).
    destruct (pair_bytes_elem _ _ Hx) as (a & b & Ha & Hb & ->).
    exists j, low, a, b. split_and!; try done.
    unfold tree_preimages. rewrite decide_False by done. apply elem_of_app. right.
    apply list_elem_of_In, in_concat. exists (pair_bytes low). split; [|by apply list_elem_of_In].
    apply list_elem_of_In, list_elem_of_fmap. exists low. split; [done|].
    apply (list_elem_of_lookup_2 _ j). rewrite lookup_take_lt; [done|].
    apply lookup_lt_Some in Hk. fold (tree_levels entries). lia.
Qed.

Lemma level_fits entries k lev c :
  entries ≠ [] → tree_levels entries !! k = Some lev → c ∈ lev → fits 256 c.
Proof.
  intros Hne Hk Hc.
  destruct (node_origin entries k lev c Hne Hk Hc) as [(_ & e & _ & ->)|(?&?&?&?&_&_&_&_&->&_)];
    apply sha256_fits.
Qed.

Lemma build_prove entries t i k v :
  build entries = Ok t → entries !! i = Some (k, v) →
  ∃ p, prove t i = Ok (Some p) ∧ key p = k ∧ root p = tree_root t ∧
    length (path p) = pred (depth t) ∧
    MerkleProof.verify (set_value_hash v p) = true ∧
    (∀ x, x ∈ proof_preimages (set_value_hash v p) → x ∈ tree_preimages entries) ∧
    Forall (λ n, fits 256 (node_hash n)) (path p).
Proof.
  intros Eb Hi. assert (entries ≠ []) as Hne by (by intros ->).
  destruct (build_ok entries Hne) as (r & Ht & Hr & E). rewrite E in Eb. injection Eb as <-.
  assert (leaf_hashes entries !! i = Some (hash_leaf k v)) as Hl.
  { unfold leaf_hashes. by rewrite list_lookup_fmap, Hi. }
  assert (zip entries.*1 (leaf_hashes entries) !! i = Some (k, hash_leaf k v)) as Hz.
  { rewrite lookup_zip_with, list_lookup_fmap, Hi. cbn. by rewrite Hl. }
  destruct (path_from_tower _ _ _ _ Ht Hl) as (ns & Ens & Hlen & Hlast & Hsub & Hlev).
  exists (mkProof k 0 ns r). split_and!; try done.
  - unfold prove. cbn [leaves]. rewrite decide_False by (apply lookup_lt_Some in Hz; lia).
    rewrite Hz. cbn [expect mbind outcome_bind levels]. by rewrite Ens.
  - apply verify_walk. cbn. rewrite Hr in Hlast. by injection Hlast.
  - unfold proof_preimages, tree_preimages. rewrite decide_False by done. cbn.
    intros x [->|Hx]%elem_of_cons; apply elem_of_app; [left|right; by apply Hsub].
    apply list_elem_of_fmap. exists (k, v). split; [done|]. by eapply list_elem_of_lookup_2.
  - eapply Forall_impl; [exact Hlev|]. intros n (lev & [j Hj]%list_elem_of_lookup & Hin).
    by eapply level_fits.
Qed.

(** Walking up from a leaf to a node of the tree starts at one of its leaves. *)
Lemma walk_sound entries kv ns k lev :
  entries ≠ [] → Forall entry_fits entries → entry_fits kv →
  Forall (λ n, fits 256 (node_hash n)) ns →
  no_collision (leaf_bytes kv.1 kv.2 :: walk_bytes (hash_leaf kv.1 kv.2) ns)
    (tree_preimages entries) →
  tree_levels entries !! k = Some lev →
  foldl (λ c n, sha256 (MerkleProof.step_bytes c n)) (hash_leaf kv.1 kv.2) ns ∈ lev →
  kv ∈ entries.
Proof.
  intros Hne Hef Hkv Hns Hcol. revert k lev.
  assert (∀ e, e ∈ entries → leaf_bytes e.1 e.2 ∈ tree_preimages entries) as Hleaf.
  { intros e He. unfold tree_preimages. rewrite decide_False by done. apply elem_of_app. left.
    apply list_elem_of_fmap. by exists e. }
  induction ns as [|n ns IH] using rev_ind; intros k lev Hk Hc.
  - cbn in Hc. destruct (node_origin entries k lev _ Hne Hk Hc)
      as [(_ & e & He & Eh)|(j & low & a & b & _ & _ & _ & _ & Eh & Hp)].
    + apply Hcol in Eh; [|left|by apply Hleaf].
      apply leaf_bytes_inj in Eh as ->; [done|done|]. by apply (proj1 (Forall_forall _ _) Hef).
    + apply Hcol in Eh; [|left|done]. by apply leaf_not_node in Eh.
  - rewrite foldl_app in Hc. cbn [foldl] in Hc. rewrite walk_bytes_app in Hcol. cbn [walk_bytes] in Hcol.
    apply Forall_app in Hns as [Hns [Hn _]%Forall_cons].
    set (c := foldl _ _ ns) in *.
    assert (fits 256 c) as Hcf by (subst c; destruct ns as [|? ? _] using rev_ind;
      [|rewrite foldl_app]; apply sha256_fits).
    assert (MerkleProof.step_bytes c n ∈ leaf_bytes kv.1 kv.2 :: walk_bytes (hash_leaf kv.1 kv.2) ns ++
      [MerkleProof.step_bytes c n]) as Hin by (right; apply elem_of_app; right; left).
    destruct (node_origin entries k lev _ Hne Hk Hc)
      as [(_ & e & He & Eh)|(j & low & a & b & _ & Hlow & Ha & Hb & Eh & Hp)].
    + apply Hcol in Eh; [|exact Hin|by apply Hleaf].
      unfold MerkleProof.step_bytes in Eh. destruct (is_left n); symmetry in Eh;
        by apply leaf_not_node in Eh.
    + apply Hcol in Eh; [|exact Hin|done].
      pose proof (level_fits _ _ _ _ Hne Hlow Ha). pose proof (level_fits _ _ _ _ Hne Hlow Hb).
      apply (IH Hns) with j low; [|done|].
      { intros x y Hx Hy. apply Hcol; [|done]. apply elem_of_cons in Hx as [->|Hx]; [left|right].
        apply elem_of_app. by left. }
      unfold MerkleProof.step_bytes in Eh.
      destruct (is_left n); apply node_bytes_inj in Eh as [E1 E2]; try done; by subst.
Qed.

(** A proof that verifies against the root of a tree is about one of its entries. *)
Lemma verify_sound entries t p :
  Forall entry_fits entries → proof_fits p → build entries = Ok t → root p = tree_root t →
  MerkleProof.verify p = true → no_collision (proof_preimages p) (tree_preimages entries) →
  (key p, value_hash p) ∈ entries.
Proof.
  intros Hef [Hkv Hns] Eb Hroot Hv%verify_walk Hcol. rewrite Hroot in Hv.
  destruct (decide (entries = [])) as [->|Hne].
  - injection Eb as <-. cbn [tree_root] in Hv. unfold empty_leaf_hash in Hv.
    assert (∃ x, x ∈ proof_preimages p ∧
      foldl (λ c n, sha256 (MerkleProof.step_bytes c n)) (hash_leaf (key p) (value_hash p)) (path p) =
        sha256 x ∧ head x ≠ Some 79) as (x & Hx & Ex & Hh).
    { unfold proof_preimages. destruct (path p) as [|n ns _] using rev_ind.
      - exists (leaf_bytes (key p) (value_hash p)). split_and!; [left|done|done].
      - rewrite foldl_app, walk_bytes_app. eexists. split_and!; [|reflexivity|].
        + right. apply elem_of_app. right. left.
        + unfold MerkleProof.step_bytes. by destruct (is_left n). }
    rewrite Ex in Hv. apply Hcol in Hv; [|done|by left]. by subst x.
  - destruct (build_ok entries Hne) as (r & Ht & Hr & E). rewrite E in Eb. injection Eb as <-.
    cbn [tree_root] in Hv. rewrite last_lookup in Hr.
    apply (walk_sound entries (key p, value_hash p) (path p) _ [r] Hne Hef Hkv Hns Hcol Hr).
    rewrite <- Hv. left.
Qed.
End hashing.

(** ** Properties *)

Section properties.
Context `{Sha256Laws}.

(** The loop that builds the levels ends: with at least as many rounds as there
    are leaves it reaches a level of a single node, more rounds change nothing,
    and the number of levels is logarithmic. *)
Theorem merkle_build_terminates (hashes : list id32) (fuel : nat) :
  hashes ≠ [] → (length hashes ≤ fuel)%nat →
  build_levels fuel hashes = build_levels (length hashes) hashes ∧
  (∃ r, last (build_levels fuel hashes) = Some [r]) ∧
  (length hashes ≤ 2 ^ pred (length (build_levels fuel hashes)) < 2 * length hashes)%nat.
Proof.
  intros Hne Hf. pose proof (build_levels_tower fuel hashes Hne Hf) as Ht.
  split_and!; [|by eapply tower_last|by apply tower_height..].
  eapply tower_unique; [exact Ht|]. by apply build_levels_tower.
Qed.

(** C18: Proving then verifying: building a tree never panics, and every entry has a
    proof that, once its value hash is filled in, verifies against the root; the
    path has logarithmic length; there is no proof past the last entry. *)
Theorem merkle_prove_verifies (entries : list (id32 * id32)) :
  ∃ t, build entries = Ok t ∧ len t = length entries ∧
    (∀ i k v, entries !! i = Some (k, v) →
       ∃ p, prove t i = Ok (Some p) ∧ key p = k ∧ root p = tree_root t ∧
         (2 ^ length (path p) < 2 * length entries)%nat ∧
         MerkleProof.verify (set_value_hash v p) = true) ∧
    (∀ i, (length entries ≤ i)%nat → prove t i = Ok None).
Proof.
  destruct (build_total entries) as [t Et]. exists t.
  assert (len t = length entries ∧ (entries ≠ [] → 2 ^ pred (depth t) < 2 * length entries)%nat)
    as [Hlen Hdep].
  { destruct (decide (entries = [])) as [->|Hne]; [by injection Et as <-|].
    destruct (build_ok entries Hne) as (r & Ht & _ & E). rewrite E in Et. injection Et as <-.
    apply tower_height in Ht. unfold leaf_hashes in Ht. rewrite length_fmap in Ht. split; [|intros _; apply Ht].
    unfold len, leaf_hashes. cbn. rewrite length_zip_with, !length_fmap. lia. }
  split_and!; [done|done| |].
  - intros i k v Hi. destruct (build_prove entries t i k v Et Hi) as (p & Hp & Hk & Hr & Hl & Hv & _ & _).
    exists p. split_and!; try done. rewrite Hl. apply Hdep. by intros ->.
  - intros i Hi. unfold prove. rewrite decide_True; [done|]. unfold len in Hlen. lia.
Qed.

(** C17: No forged proof, up to collisions: a proof that verifies against the root of
    a tree, of whatever length its path is, is about one of the tree's entries,
    unless two of the strings hashed on the way collide. *)
Theorem merkle_verify_sound (entries : list (id32 * id32)) (t : MerkleTree) (p : MerkleProof) :
  Forall entry_fits entries → proof_fits p → build entries = Ok t → root p = tree_root t →
  MerkleProof.verify p = true → no_collision (proof_preimages p) (tree_preimages entries) →
  (key p, value_hash p) ∈ entries.
Proof. apply verify_sound. Qed.

Lemma same_root_subset (entries entries' : list (id32 * id32)) t t' :
  Forall entry_fits entries → Forall entry_fits entries' →
  build entries = Ok t → build entries' = Ok t' → tree_root t = tree_root t' →
  no_collision (tree_preimages entries) (tree_preimages entries') →
  ∀ e, e ∈ entries → e ∈ entries'.
Proof.
  intros Hf Hf' Et Et' Hroot Hcol [k v] [i Hi]%list_elem_of_lookup.
  destruct (build_prove entries t i k v Et Hi) as (p & Hp & <- & Hr & _ & Hv & Hsub & Hns).
  apply (verify_sound entries' t' (set_value_hash v p)); try done.
  - split; [|done]. apply (proj1 (Forall_forall _ _) Hf). by eapply list_elem_of_lookup_2.
  - cbn. congruence.
  - intros x y Hx. by apply Hcol, Hsub.
Qed.

Lemma store_entries_elem `{Bincode} objs i h :
  (i, h) ∈ store_entries objs ↔ ∃ o, objs !! i = Some o ∧ h = sha256 (encode o).
Proof.
  unfold store_entries. rewrite list_elem_of_fmap. split.
  - intros ([j o] & [= -> ->] & Ho%elem_of_btree_list). by exists o.
  - intros (o & Ho & ->). exists (i, o). split; [done|]. by apply elem_of_btree_list.
Qed.

(** The Merkle root commits to the store: two canonical maps with the same root
    hold the same ids with the same encodings, unless two of the hashed strings
    collide. *)
Theorem merkle_root_commits `{Bincode} (objs objs' : gmap Z BoxedObject) (t t' : MerkleTree)
    (r : id32) :
  (∀ i, is_Some (objs !! i) ∨ is_Some (objs' !! i) → fits 256 i) →
  compute_merkle_root objs = Ok (t, r) → compute_merkle_root objs' = Ok (t', r) →
  no_collision (tree_preimages (store_entries objs)) (tree_preimages (store_entries objs')) →
  no_collision (encode <$> (btree_values objs)) (encode <$> (btree_values objs')) →
  ∀ i, encode <$> objs !! i = encode <$> objs' !! i.
Proof.
  intros Hids Et Et' Hcol Henc i.
  apply obind_ok in Et as (t1 & Et & [= -> Er]). apply obind_ok in Et' as (t1' & Et' & [= -> Er']).
  assert (∀ m, (∀ j, is_Some (m !! j) → fits 256 j) → Forall entry_fits (store_entries m)) as Hf.
  { intros m Hm. apply Forall_forall. intros [j h] (o & Ho & ->)%store_entries_elem.
    split; [apply Hm; by exists o|apply sha256_fits]. }
  assert (∀ e, e ∈ store_entries objs ↔ e ∈ store_entries objs') as Hsame.
  { intros e. split; eapply same_root_subset; try done; try congruence; try (apply Hf; auto).
    intros x y Hx Hy E. symmetry. by apply Hcol. }
  assert (∀ o o', objs !! i = Some o → objs' !! i = Some o' →
    sha256 (encode o) = sha256 (encode o') → encode o = encode o') as Hinj.
  { intros o o' Ho Ho'. apply Henc; apply list_elem_of_fmap_2, elem_of_btree_values; by exists i. }
  destruct (objs !! i) as [o|] eqn:Ho, (objs' !! i) as [o'|] eqn:Ho'; cbn; [| | |done].
  - f_equal. apply Hinj; [done..|].
    destruct (proj1 (store_entries_elem objs' i (sha256 (encode o)))) as (o2 & Ho2 & ->).
    + apply Hsame, store_entries_elem. by exists o.
    + congruence.
  - destruct (proj1 (store_entries_elem objs' i (sha256 (encode o)))) as (o2 & Ho2 & _); [|congruence].
    apply Hsame, store_entries_elem. by exists o.
  - destruct (proj1 (store_entries_elem objs i (sha256 (encode o')))) as (o2 & Ho2 & _); [|congruence].
    apply Hsame, store_entries_elem. by exists o'.
Qed.
End properties.

(** ** Sample runs *)

(** Three entries, so that the last node is paired with itself. *)
Definition sample_entries : list (id32 * id32) := [(1, 11); (2, 12); (3, 13)].

Lemma merkle_prove_verifies_witness :
  ∃ t p, @build sample_sha256 sample_entries = Ok t ∧ prove t 2 = Ok (Some p) ∧
    length (path p) = 2%nat ∧ @MerkleProof.verify sample_sha256 (set_value_hash 13 p) = true ∧
    @MerkleProof.verify sample_sha256 (set_value_hash 12 p) = false.
Proof.
  destruct (@merkle_prove_verifies sample_sha256 sample_sha256_laws sample_entries)
    as (t & Et & _ & Hp & _).
  destruct (Hp 2%nat 3 13 eq_refl) as (p & Ep & _ & _ & _ & Hv). exists t, p.
  split; [exact Et|]. split; [exact Ep|].
  vm_compute in Et. injection Et as <-. vm_compute in Ep. injection Ep as <-.
  split; [reflexivity|]. split; [exact Hv|vm_compute; reflexivity].
Defined.

Lemma merkle_verify_sound_witness :
  ∃ t p, @build sample_sha256 sample_entries = Ok t ∧ prove t 1 = Ok (Some p) ∧
    (key p, value_hash (set_value_hash 12 p)) ∈ sample_entries.
Proof.
  destruct (@build sample_sha256 sample_entries) as [t| |] eqn:Et; [|vm_compute in Et; discriminate Et..].
  destruct (prove t 1) as [[p|]| |] eqn:Ep;
    try (vm_compute in Et; injection Et as <-; vm_compute in Ep; discriminate Ep).
  exists t, p. split; [reflexivity|]. split; [exact Ep|].
  apply (@merkle_verify_sound sample_sha256 sample_sha256_laws sample_entries t (set_value_hash 12 p)).
  - repeat constructor; by_eval.
  - vm_compute in Et. injection Et as <-. vm_compute in Ep. injection Ep as <-.
    split; [split; by_eval|repeat constructor; by_eval].
  - exact Et.
  - vm_compute in Et. injection Et as <-. vm_compute in Ep. injection Ep as <-. reflexivity.
  - vm_compute in Et. injection Et as <-. vm_compute in Ep. injection Ep as <-. vm_compute. reflexivity.
  - vm_compute in Et. injection Et as <-. vm_compute in Ep. injection Ep as <-.
    apply collision_free_sound. vm_compute. reflexivity.
Defined.

Lemma merkle_root_commits_witness :
  ∃ t r, @compute_merkle_root sample_sha256 sample_bincode (objects sample_store) = Ok (t, r) ∧
    ∀ i, @encode sample_bincode <$> objects sample_store !! i =
         @encode sample_bincode <$> objects sample_store !! i.
Proof.
  destruct (@compute_merkle_root sample_sha256 sample_bincode (objects sample_store))
    as [[t r]| |] eqn:Et; [|vm_compute in Et; discriminate Et..].
  exists t, r. split; [reflexivity|].
  apply (@merkle_root_commits sample_sha256 sample_sha256_laws sample_bincode
    (objects sample_store) (objects sample_store) t t r).
  - assert (map_Forall (λ i _, fits 256 i) (objects sample_store)) as Hf by by_decide.
    intros i [[o Ho]|[o Ho]]; exact (Hf i o Ho).
  - exact Et.
  - exact Et.
  - apply collision_free_sound. vm_compute. reflexivity.
  - apply collision_free_sound. vm_compute. reflexivity.
Defined.

Lemma merkle_build_terminates_witness :
  length (@build_levels sample_sha256 9 [4; 5; 6; 7; 8]) = 4%nat ∧
  @build_levels sample_sha256 9 [4; 5; 6; 7; 8] = @build_levels sample_sha256 5 [4; 5; 6; 7; 8].
Proof.
  destruct (@merkle_build_terminates sample_sha256 [4; 5; 6; 7; 8] 9) as (E & _); [done|cbn; lia|].
  split; [reflexivity|exact E].
Defined.
