(* ===== verification/PoolTypes.v ===== *)
(** * Intents of the sequencer's public pool

    The intent schema of the sequencing layer (src/poseq/src/intent_pool/types.rs,
    a schema of its own next to the runtime's), its structural validation and id,
    and the lifecycle state machine (lifecycle.rs), with the protocol constants
    (constants.rs) these and the auction use. *)

From stdpp Require Import gmap strings list pretty.
From S2P Require Import Prelude.

(** ** Constants *)

(* @src src/poseq/src/intent_pool/constants.rs:9-9 COMMIT_PHASE_BLOCKS *)
Definition COMMIT_PHASE_BLOCKS : Z := 5.
(* @src src/poseq/src/intent_pool/constants.rs:12-12 REVEAL_PHASE_BLOCKS *)
Definition REVEAL_PHASE_BLOCKS : Z := 3.
(* @src src/poseq/src/intent_pool/constants.rs:15-15 BATCH_WINDOW_BLOCKS *)
Definition BATCH_WINDOW_BLOCKS : Z := COMMIT_PHASE_BLOCKS + REVEAL_PHASE_BLOCKS + 1.
(* @src src/poseq/src/intent_pool/constants.rs:18-18 MIN_INTENT_LIFETIME *)
Definition MIN_INTENT_LIFETIME : Z := 10.
(* @src src/poseq/src/intent_pool/constants.rs:21-21 MAX_POOL_RESIDENCE *)
Definition MAX_POOL_RESIDENCE : Z := 1000.
(* @src src/poseq/src/intent_pool/constants.rs:47-47 MIN_INTENT_FEE_BPS *)
Definition MIN_INTENT_FEE_BPS : Z := 10.
(* @src src/poseq/src/intent_pool/constants.rs:62-62 COMMIT_WITHOUT_REVEAL_PENALTY_BPS *)
Definition COMMIT_WITHOUT_REVEAL_PENALTY_BPS : Z := 100.
(* @src src/poseq/src/intent_pool/constants.rs:79-79 MAX_INTENTS_PER_BLOCK_PER_USER *)
Definition MAX_INTENTS_PER_BLOCK_PER_USER : Z := 10.
(* @src src/poseq/src/intent_pool/constants.rs:82-82 MAX_NONCE_GAP *)
Definition MAX_NONCE_GAP : Z := 3.
(* @src src/poseq/src/intent_pool/constants.rs:85-85 MAX_INTENT_SIZE *)
Definition MAX_INTENT_SIZE : Z := 4096.
(* @src src/poseq/src/intent_pool/constants.rs:88-88 MAX_POOL_SIZE *)
Definition MAX_POOL_SIZE : Z := 50000.
(* @src src/poseq/src/intent_pool/constants.rs:91-91 MAX_COMMITMENTS_PER_SOLVER_PER_WINDOW *)
Definition MAX_COMMITMENTS_PER_SOLVER_PER_WINDOW : Z := 10.
(* @src src/poseq/src/intent_pool/constants.rs:97-97 MAX_BUNDLE_STEPS *)
Definition MAX_BUNDLE_STEPS : Z := 64.

(** ** Assets, permissions, preferences *)

(* @src src/poseq/src/intent_pool/types.rs:13-17 AssetType *)
Inductive AssetType : Type := Native | Token | Object.
#[export] Instance AssetType_eq_dec : EqDecision AssetType.
Proof. solve_decision. Defined.

(* @src src/poseq/src/intent_pool/types.rs:20-24 AssetId *)
Record AssetId : Type := mkAsset {
  chain_id : Z;
  asset_type : AssetType;
  identifier : id32 }.
#[export] Instance AssetId_eq_dec : EqDecision AssetId.
Proof. solve_decision. Defined.

Module AssetId.
(* @src src/poseq/src/intent_pool/types.rs:27-29 AssetId::native *)
Definition native (i : id32) : AssetId := mkAsset 0 Native i.
(* @src src/poseq/src/intent_pool/types.rs:31-33 AssetId::token *)
Definition token (i : id32) : AssetId := mkAsset 0 Token i.
End AssetId.

(* @src src/poseq/src/intent_pool/types.rs:39-43 PermissionMode *)
Inductive PermissionMode : Type := AllowAll | Whitelist | Blacklist.
#[export] Instance PermissionMode_eq_dec : EqDecision PermissionMode.
Proof. solve_decision. Defined.

(* @src src/poseq/src/intent_pool/types.rs:46-49 SolverPermissions *)
Record SolverPermissions : Type := mkPermissions {
  perm_mode : PermissionMode;
  solver_ids : list id32 }.
#[export] Instance SolverPermissions_eq_dec : EqDecision SolverPermissions.
Proof. solve_decision. Defined.

Module SolverPermissions.
(* @src src/poseq/src/intent_pool/types.rs:52-54 SolverPermissions::default *)
Definition default : SolverPermissions := mkPermissions AllowAll [].

(* @src src/poseq/src/intent_pool/types.rs:59-65 SolverPermissions::is_permitted *)
Definition is_permitted (p : SolverPermissions) (solver_id : id32) : bool :=
  match perm_mode p with
  | AllowAll => true
  | Whitelist => bool_decide (solver_id ∈ solver_ids p)
  | Blacklist => negb (bool_decide (solver_id ∈ solver_ids p))
  end.
End SolverPermissions.

(* @src src/poseq/src/intent_pool/types.rs:71-75 Priority *)
Inductive Priority : Type := Normal | High | Urgent.
#[export] Instance Priority_eq_dec : EqDecision Priority.
Proof. solve_decision. Defined.

(* @src src/poseq/src/intent_pool/types.rs:78-84 Priority::weight *)
Definition weight (p : Priority) : Z :=
  match p with Normal => 100 | High => 500 | Urgent => 1000 end.

(* @src src/poseq/src/intent_pool/types.rs:88-92 ExecutionPrefs *)
Record ExecutionPrefs : Type := mkPrefs {
  priority : Priority;
  max_solver_count : option Z;
  require_full_fill : bool }.
#[export] Instance ExecutionPrefs_eq_dec : EqDecision ExecutionPrefs.
Proof. solve_decision. Defined.

(* @src src/poseq/src/intent_pool/types.rs:95-101 ExecutionPrefs::default *)
Definition default_prefs : ExecutionPrefs := mkPrefs Normal None false.

(** ** Intents *)

(* @src src/poseq/src/intent_pool/types.rs:107-114 SwapIntent *)
Record SwapIntent : Type := mkSwap {
  asset_in : AssetId;
  asset_out : AssetId;
  amount_in : Z;
  min_amount_out : Z;
  max_slippage_bps : Z;
  route_hint : option (list AssetId) }.

(* @src src/poseq/src/intent_pool/types.rs:117-122 PaymentIntent *)
Record PaymentIntent : Type := mkPayment {
  pay_asset : AssetId;
  pay_amount : Z;
  pay_recipient : id32;
  memo : option bytes }.

(* @src src/poseq/src/intent_pool/types.rs:125-128 RebalanceParams *)
Record RebalanceParams : Type := mkRebalance {
  max_hops : Z;
  max_price_impact_bps : Z }.

(* @src src/poseq/src/intent_pool/types.rs:131-138 RouteLiquidityIntent *)
Record RouteLiquidityIntent : Type := mkRoute {
  source_pool : id32;
  target_pool : id32;
  rt_asset : AssetId;
  rt_amount : Z;
  min_received : Z;
  rebalance_params : RebalanceParams }.

(* @src src/poseq/src/intent_pool/types.rs:141-145 IntentKind *)
Inductive IntentKind : Type :=
| Swap (s : SwapIntent)
| Payment (p : PaymentIntent)
| RouteLiquidity (r : RouteLiquidityIntent).

#[export] Instance SwapIntent_eq_dec : EqDecision SwapIntent.
Proof. solve_decision. Defined.
#[export] Instance PaymentIntent_eq_dec : EqDecision PaymentIntent.
Proof. solve_decision. Defined.
#[export] Instance RebalanceParams_eq_dec : EqDecision RebalanceParams.
Proof. solve_decision. Defined.
#[export] Instance RouteLiquidityIntent_eq_dec : EqDecision RouteLiquidityIntent.
Proof. solve_decision. Defined.
#[export] Instance IntentKind_eq_dec : EqDecision IntentKind.
Proof. solve_decision. Defined.

Module IntentKind.
(* @src src/poseq/src/intent_pool/types.rs:149-155 IntentKind::type_tag *)
Definition type_tag (k : IntentKind) : Z :=
  match k with Swap _ => 1 | Payment _ => 2 | RouteLiquidity _ => 3 end.

(* @src src/poseq/src/intent_pool/types.rs:158-164 IntentKind::kind_str *)
Definition kind_str (k : IntentKind) : string :=
  match k with Swap _ => "swap" | Payment _ => "payment" | RouteLiquidity _ => "route_liquidity" end.
End IntentKind.

(* @src src/poseq/src/intent_pool/types.rs:174-206 IntentTransaction *)
Record IntentTransaction : Type := mkIntent {
  intent_id : id32;
  intent_type : IntentKind;
  it_version : Z;
  user : id32;
  nonce : Z;
  recipient : option id32;
  deadline : Z;
  valid_from : option Z;
  max_fee : Z;
  tip : option Z;
  partial_fill_allowed : bool;
  solver_permissions : SolverPermissions;
  execution_preferences : ExecutionPrefs;
  witness_hash : option id32;
  signature : bytes;
  metadata : gmap string string }.
#[export] Instance IntentTransaction_eq_dec : EqDecision IntentTransaction.
Proof. solve_decision. Defined.

(* @src src/poseq/src/intent_pool/types.rs:353-375 IntentValidationError *)
Inductive IntentValidationError : Type :=
| UnsupportedVersion (v : Z)
| ZeroUser
| ZeroIntentId
| IntentIdMismatch
| FeeBelowMinimum (fee min : Z)
| MissingSignature
| ZeroAmount (field : string)
| ZeroRecipient
| SameAsset
| SamePool
| InvalidSlippage (v : Z)
| InvalidMaxHops (v : Z)
| InvalidPriceImpact (v : Z)
| MemoTooLarge (v : Z)
| DeadlineExpired (dl current_block : Z)
| IntentTooLarge (sz max : Z)
| NonceAlreadyUsed (who : id32) (n : Z)
| NonceGapTooLarge (expected got : Z)
| RateLimitExceeded (who : id32) (count max : Z)
| PoolFull
| DuplicateIntent.
#[export] Instance IntentValidationError_eq_dec : EqDecision IntentValidationError.
Proof. solve_decision. Defined.

(** [bincode::serialize] of a kind and of a whole intent; [None] when it fails. *)
Class IntentBincode := {
  encode_kind : IntentKind → option bytes;
  encode_intent : IntentTransaction → option bytes }.

Definition require {E} (b : bool) (e : E) : outcome E () := if b then Ok tt else Err e.

Module IntentTransaction.
(** The bytes hashed into the intent's id. *)
Definition id_preimage `{IntentBincode} (t : IntentTransaction) : bytes :=
  be_bytes 32 (user t) ++ be_bytes 8 (nonce t) ++ [IntentKind.type_tag (intent_type t)] ++
  default [] (encode_kind (intent_type t)) ++ be_bytes 8 (deadline t).

(* @src src/poseq/src/intent_pool/types.rs:212-225 IntentTransaction::compute_intent_id *)
Definition compute_intent_id `{Sha256, IntentBincode} (t : IntentTransaction) : id32 :=
  sha256 (id_preimage t).

(* @src src/poseq/src/intent_pool/types.rs:228-230 IntentTransaction::verify_intent_id *)
Definition verify_intent_id `{Sha256, IntentBincode} (t : IntentTransaction) : bool :=
  bool_decide (intent_id t = compute_intent_id t).

(* @src src/poseq/src/intent_pool/types.rs:266-312 IntentTransaction::validate_basic *)
Definition validate_kind (k : IntentKind) : outcome IntentValidationError () :=
  match k with
  | Swap s =>
      if decide (amount_in s = 0) then Err (ZeroAmount "amount_in")
      else if decide (min_amount_out s = 0) then Err (ZeroAmount "min_amount_out")
      else if decide (asset_in s = asset_out s) then Err SameAsset
      else if decide (10000 < max_slippage_bps s) then Err (InvalidSlippage (max_slippage_bps s))
      else Ok tt
  | Payment p =>
      if decide (pay_amount p = 0) then Err (ZeroAmount "amount")
      else if decide (pay_recipient p = 0) then Err ZeroRecipient
      else match memo p with
           | Some m => if decide (256 < Z.of_nat (length m))
                       then Err (MemoTooLarge (Z.of_nat (length m))) else Ok tt
           | None => Ok tt
           end
  | RouteLiquidity r =>
      if decide (rt_amount r = 0) then Err (ZeroAmount "amount")
      else if decide (min_received r = 0) then Err (ZeroAmount "min_received")
      else if decide (source_pool r = target_pool r) then Err SamePool
      else if decide (max_hops (rebalance_params r) = 0 ∨ 5 < max_hops (rebalance_params r))
      then Err (InvalidMaxHops (max_hops (rebalance_params r)))
      else if decide (500 < max_price_impact_bps (rebalance_params r))
      then Err (InvalidPriceImpact (max_price_impact_bps (rebalance_params r)))
      else Ok tt
  end.

(* @src src/poseq/src/intent_pool/types.rs:233-316 IntentTransaction::validate_basic *)
Definition validate_basic `{Sha256, IntentBincode} (t : IntentTransaction)
  : outcome IntentValidationError () :=
  if decide (it_version t ≠ 1) then Err (UnsupportedVersion (it_version t))
  else if decide (user t = 0) then Err ZeroUser
  else if decide (intent_id t = 0) then Err ZeroIntentId
  else if negb (verify_intent_id t) then Err IntentIdMismatch
  else if decide (max_fee t < MIN_INTENT_FEE_BPS)
  then Err (FeeBelowMinimum (max_fee t) MIN_INTENT_FEE_BPS)
  else if decide (signature t = []) then Err MissingSignature
  else validate_kind (intent_type t).

(* @src src/poseq/src/intent_pool/types.rs:319-321 IntentTransaction::estimated_size *)
Definition estimated_size `{IntentBincode} (t : IntentTransaction) : Z :=
  match encode_intent t with Some l => Z.of_nat (length l) | None => 0 end.
End IntentTransaction.

(* @src src/poseq/src/intent_pool/types.rs:328-335 IntentAnnouncement *)
Record IntentAnnouncement : Type := mkAnnouncement {
  an_intent_id : id32;
  an_type_tag : Z;
  an_user : id32;
  an_deadline : Z;
  an_tip : Z;
  size_bytes : Z }.

(* @src src/poseq/src/intent_pool/types.rs:338-347 IntentAnnouncement::from_intent *)
Definition from_intent `{IntentBincode} (t : IntentTransaction) : IntentAnnouncement :=
  mkAnnouncement (intent_id t) (IntentKind.type_tag (intent_type t)) (user t) (deadline t)
    (default 0 (tip t)) (wrapu 32 (IntentTransaction.estimated_size t)).

(** ** Lifecycle

    [StAdmitted] is the source's state of an intent that the pool has taken. *)

(* @src src/poseq/src/intent_pool/lifecycle.rs:10-23 IntentState *)
Inductive IntentState : Type :=
| Created | StAdmitted | Open | Matched | Sequenced | Executed | Settled
| Expired | Cancelled | Disputed | Slashed.
#[export] Instance IntentState_eq_dec : EqDecision IntentState.
Proof. solve_decision. Defined.

Module IntentState.
(* @src src/poseq/src/intent_pool/lifecycle.rs:27-29 IntentState::is_terminal *)
Definition is_terminal (s : IntentState) : bool :=
  match s with Settled | Expired | Cancelled | Slashed => true | _ => false end.

(* @src src/poseq/src/intent_pool/lifecycle.rs:32-34 IntentState::is_active *)
Definition is_active (s : IntentState) : bool :=
  match s with
  | Created | StAdmitted | Open | Matched | Sequenced | Executed | Disputed => true
  | _ => false
  end.

(* @src src/poseq/src/intent_pool/lifecycle.rs:37-39 IntentState::is_cancellable *)
Definition is_cancellable (s : IntentState) : bool :=
  match s with Open | Matched => true | _ => false end.

(* @src src/poseq/src/intent_pool/lifecycle.rs:42-56 IntentState::as_byte *)
Definition as_byte (s : IntentState) : Z :=
  match s with
  | Created => 0 | StAdmitted => 1 | Open => 2 | Matched => 3 | Sequenced => 4 | Executed => 5
  | Settled => 6 | Expired => 7 | Cancelled => 8 | Disputed => 9 | Slashed => 10
  end.
End IntentState.

(* @src src/poseq/src/intent_pool/lifecycle.rs:61-63 TransitionError *)
Inductive TransitionError : Type :=
| InvalidTransition (from to : IntentState).

(* @src src/poseq/src/intent_pool/lifecycle.rs:78-110 transition *)
Definition transition (current target : IntentState) : outcome TransitionError IntentState :=
  match current, target with
  | Created, StAdmitted | StAdmitted, Open | Open, Matched | Matched, Sequenced
  | Sequenced, Executed | Executed, Settled
  | Open, Expired | Matched, Expired | Open, Cancelled | Matched, Cancelled
  | Executed, Disputed | Disputed, Slashed => Ok target
  | _, _ => Err (InvalidTransition current target)
  end.

(* @src src/poseq/src/intent_pool/lifecycle.rs:114-122 IntentLifecycleRecord *)
Record IntentLifecycleRecord : Type := mkLifecycle {
  lc_intent_id : id32;
  lc_state : IntentState;
  admitted_at_block : Z;
  last_transition_block : Z;
  matched_bundle_id : option id32;
  lc_solver_id : option id32;
  receipt_id : option id32 }.

Module IntentLifecycleRecord.
(* @src src/poseq/src/intent_pool/lifecycle.rs:125-135 IntentLifecycleRecord::new *)
Definition new (i : id32) (block : Z) : IntentLifecycleRecord :=
  mkLifecycle i StAdmitted block block None None None.

(* @src src/poseq/src/intent_pool/lifecycle.rs:137-142 IntentLifecycleRecord::transition_to *)
Definition transition_to (target : IntentState) (block : Z)
  : M IntentLifecycleRecord TransitionError () := λ r,
  match transition (lc_state r) target with
  | Ok s => (mkLifecycle (lc_intent_id r) s (admitted_at_block r) block (matched_bundle_id r)
               (lc_solver_id r) (receipt_id r), Ok tt)
  | Err e => (r, Err e)
  | Panic => (r, Panic)
  end.
End IntentLifecycleRecord.
