(* ===== verification/IntentPool.v ===== *)
(** * The public intent pool

    [IntentPool] of src/poseq/src/intent_pool/pool.rs: admission with its rate
    limit, nonces and eviction, removal, expiry, and what the batch producer
    takes from it. *)

From stdpp Require Import gmap strings list sorting pretty.
From S2P Require Import Prelude Concrete PoolTypes.

(** ** State *)

(* @src src/poseq/src/intent_pool/pool.rs:13-16 PoolEntry *)
Record PoolEntry : Type := mkEntry {
  pe_intent : IntentTransaction;
  lifecycle : IntentLifecycleRecord }.

(* @src src/poseq/src/intent_pool/pool.rs:91-97 PoolMetrics *)
Record PoolMetrics : Type := mkMetrics {
  total_admitted : Z;
  total_rejected : Z;
  total_expired : Z;
  total_evicted : Z;
  rejected_by_reason : gmap string Z }.

(** The rate tracker maps a user to a block and a count, the nonce tracker to the
    highest nonce. *)
(* @src src/poseq/src/intent_pool/pool.rs:71-87 IntentPool *)
Record IntentPool : Type := mkPool {
  entries : gmap id32 PoolEntry;
  insertion_order : list id32;
  seen_ids : gset id32;
  counts : gmap id32 (Z * Z);
  highest : gmap id32 Z;
  pool_block : Z;
  metrics : PoolMetrics }.

Definition set_counts (c : gmap id32 (Z * Z)) (p : IntentPool) : IntentPool :=
  mkPool (entries p) (insertion_order p) (seen_ids p) c (highest p) (pool_block p) (metrics p).
Definition set_highest (h : gmap id32 Z) (p : IntentPool) : IntentPool :=
  mkPool (entries p) (insertion_order p) (seen_ids p) (counts p) h (pool_block p) (metrics p).
Definition set_metrics (m : PoolMetrics) (p : IntentPool) : IntentPool :=
  mkPool (entries p) (insertion_order p) (seen_ids p) (counts p) (highest p) (pool_block p) m.
Definition set_entries (e : gmap id32 PoolEntry) (p : IntentPool) : IntentPool :=
  mkPool e (insertion_order p) (seen_ids p) (counts p) (highest p) (pool_block p) (metrics p).
(** Remove an id from the entries and from the insertion order. *)
Definition drop_id (i : id32) (p : IntentPool) : IntentPool :=
  mkPool (delete i (entries p)) (filter (λ j, j ≠ i) (insertion_order p)) (seen_ids p) (counts p)
    (highest p) (pool_block p) (metrics p).

Definition tip_of (e : PoolEntry) : Z := default 0 (tip (pe_intent e)).

(* @src src/poseq/src/intent_pool/pool.rs:26-42 UserRateTracker::check_and_increment *)
Definition check_rate (who : id32) (block : Z)
  : M (gmap id32 (Z * Z)) IntentValidationError () := λ m,
  let '(b, c) := default (block, 0) (m !! who) in
  let c := if decide (b = block) then c else 0 in
  if decide (MAX_INTENTS_PER_BLOCK_PER_USER ≤ c)
  then (<[who := (block, c)]> m, Err (RateLimitExceeded who c MAX_INTENTS_PER_BLOCK_PER_USER))
  else (<[who := (block, c + 1)]> m, Ok tt).

(* @src src/poseq/src/intent_pool/pool.rs:53-67 NonceTracker::check_and_record *)
Definition check_and_record (who : id32) (n : Z) : M (gmap id32 Z) IntentValidationError () := λ m,
  match m !! who with
  | Some last =>
      if decide (n ≤ last) then (m, Err (NonceAlreadyUsed who n))
      else if decide (wrapu 64 (last + MAX_NONCE_GAP) < n)
      then (m, Err (NonceGapTooLarge (wrapu 64 (last + 1)) n))
      else (<[who := n]> m, Ok tt)
  | None => (<[who := n]> m, Ok tt)
  end.

Module IntentPool.
(* @src src/poseq/src/intent_pool/pool.rs:100-110 IntentPool::new *)
Definition new : IntentPool := mkPool ∅ [] ∅ ∅ ∅ 0 (mkMetrics 0 0 0 0 ∅).

(* @src src/poseq/src/intent_pool/pool.rs:113-115 IntentPool::set_block_height *)
Definition set_block_height (block : Z) (p : IntentPool) : IntentPool :=
  mkPool (entries p) (insertion_order p) (seen_ids p) (counts p) (highest p) block (metrics p).

(* @src src/poseq/src/intent_pool/pool.rs:122-124 IntentPool::len *)
Definition len (p : IntentPool) : Z := Z.of_nat (size (entries p)).

(* @src src/poseq/src/intent_pool/pool.rs:126-128 IntentPool::is_empty *)
Definition is_empty (p : IntentPool) : bool := bool_decide (entries p = ∅).

(* @src src/poseq/src/intent_pool/pool.rs:335-338 IntentPool::record_rejection *)
Definition record_rejection (reason : string) (p : IntentPool) : IntentPool :=
  let m := metrics p in
  set_metrics (mkMetrics (total_admitted m) (wrapu 64 (total_rejected m + 1)) (total_expired m)
    (total_evicted m)
    (<[reason := wrapu 64 (default 0 (rejected_by_reason m !! reason) + 1)]> (rejected_by_reason m))) p.

Definition reject (reason : string) (e : IntentValidationError) : M IntentPool IntentValidationError () :=
  λ p, (record_rejection reason p, Err e).

(** The entry with the lowest tip: the first such in key order. *)
(* @src src/poseq/src/intent_pool/pool.rs:316-323 IntentPool::evict_lowest_tip *)
Definition lowest_tip (p : IntentPool) : option (id32 * Z) :=
  foldl (λ lowest e,
    let t := tip_of e.2 in
    match lowest with
    | Some l => if decide (t < l.2) then Some (e.1, t) else lowest
    | None => Some (e.1, t)
    end) None (btree_list (entries p)).

(* @src src/poseq/src/intent_pool/pool.rs:315-333 IntentPool::evict_lowest_tip *)
Definition evict_lowest_tip (p : IntentPool) : IntentPool * bool :=
  match lowest_tip p with
  | Some (i, _) =>
      let p := drop_id i p in
      let m := metrics p in
      (set_metrics (mkMetrics (total_admitted m) (total_rejected m) (total_expired m)
         (wrapu 64 (total_evicted m + 1)) (rejected_by_reason m)) p, true)
  | None => (p, false)
  end.

(** Run a tracker of the pool. *)
Definition on_counts {E A} (m : M (gmap id32 (Z * Z)) E A) : M IntentPool E A := λ p,
  let '(c, r) := m (counts p) in (set_counts c p, r).
Definition on_highest {E A} (m : M (gmap id32 Z) E A) : M IntentPool E A := λ p,
  let '(h, r) := m (highest p) in (set_highest h p, r).

(** Step 7: make room. *)
(* @src src/poseq/src/intent_pool/pool.rs:164-169 IntentPool::admit *)
Definition make_room : M IntentPool IntentValidationError () := λ p,
  if decide (MAX_POOL_SIZE ≤ len p) then
    match evict_lowest_tip p with
    | (p, true) => (p, Ok tt)
    | (p, false) => (record_rejection "pool_full" p, Err PoolFull)
    end
  else (p, Ok tt).

(** Step 8. *)
(* @src src/poseq/src/intent_pool/pool.rs:171-178 IntentPool::admit *)
Definition add_intent (t : IntentTransaction) (p : IntentPool) : IntentPool :=
  let m := metrics p in
  mkPool (<[intent_id t := mkEntry t (IntentLifecycleRecord.new (intent_id t) (pool_block p))]> (entries p))
    (insertion_order p ++ [intent_id t]) ({[intent_id t]} ∪ seen_ids p) (counts p) (highest p)
    (pool_block p)
    (mkMetrics (wrapu 64 (total_admitted m + 1)) (total_rejected m) (total_expired m)
       (total_evicted m) (rejected_by_reason m)).

(* @src src/poseq/src/intent_pool/pool.rs:131-181 IntentPool::admit *)
Definition admit_intent `{Sha256, IntentBincode} (t : IntentTransaction)
  : M IntentPool IntentValidationError IntentAnnouncement :=
  _ ← lift (IntentTransaction.validate_basic t);
  _ ← (λ p, if decide (intent_id t ∈ seen_ids p ∨ is_Some (entries p !! intent_id t))
            then reject "duplicate" DuplicateIntent p else (p, Ok tt));
  _ ← (if decide (MAX_INTENT_SIZE < IntentTransaction.estimated_size t)
       then reject "too_large" (IntentTooLarge (IntentTransaction.estimated_size t) MAX_INTENT_SIZE)
       else mret tt);
  _ ← (λ p, if decide (deadline t ≤ wrapu 64 (pool_block p + MIN_INTENT_LIFETIME))
            then reject "deadline_expired" (DeadlineExpired (deadline t) (pool_block p)) p
            else (p, Ok tt));
  _ ← (λ p, on_counts (check_rate (user t) (pool_block p)) p);
  _ ← on_highest (check_and_record (user t) (nonce t));
  _ ← make_room;
  _ ← modify (add_intent t);
  mret (from_intent t).

(* @src src/poseq/src/intent_pool/pool.rs:184-186 IntentPool::get *)
Definition get (p : IntentPool) (i : id32) : option PoolEntry := entries p !! i.

(** Writes through the reference that [get_mut] returns. *)
(* @src src/poseq/src/intent_pool/pool.rs:189-191 IntentPool::get_mut *)
Definition get_mut (i : id32) (f : PoolEntry → PoolEntry) (p : IntentPool) : IntentPool :=
  set_entries (alter f i (entries p)) p.

(* @src src/poseq/src/intent_pool/pool.rs:194-201 IntentPool::remove *)
Definition remove (i : id32) (p : IntentPool) : IntentPool * option PoolEntry :=
  match entries p !! i with
  | Some e => (drop_id i p, Some e)
  | None => (p, None)
  end.

(* @src src/poseq/src/intent_pool/pool.rs:204-220 IntentPool::query_open_intents *)
Definition query_open_intents (p : IntentPool) (tags : option (list Z)) (min_tip : Z) : list PoolEntry :=
  List.filter (λ e, bool_decide (lc_state (lifecycle e) = Open ∨ lc_state (lifecycle e) = StAdmitted) &&
    match tags with
    | Some l => bool_decide (IntentKind.type_tag (intent_type (pe_intent e)) ∈ l)
    | None => true
    end && bool_decide (min_tip ≤ tip_of e)) (btree_values (entries p)).

(** A transition whose error is dropped. *)
Definition try_transition (target : IntentState) (block : Z) (e : PoolEntry) : PoolEntry :=
  mkEntry (pe_intent e) (IntentLifecycleRecord.transition_to target block (lifecycle e)).1.

(* @src src/poseq/src/intent_pool/pool.rs:223-229 IntentPool::open_admitted_intents *)
Definition open_admitted_intents (p : IntentPool) : IntentPool :=
  set_entries ((λ e, if decide (lc_state (lifecycle e) = StAdmitted)
                     then try_transition Open (pool_block p) e else e) <$> entries p) p.

Definition set_match (bundle solver : id32) (r : IntentLifecycleRecord) : IntentLifecycleRecord :=
  mkLifecycle (lc_intent_id r) (lc_state r) (admitted_at_block r) (last_transition_block r)
    (Some bundle) (Some solver) (receipt_id r).

(* @src src/poseq/src/intent_pool/pool.rs:232-241 IntentPool::mark_matched *)
Definition mark_matched (i bundle solver : id32) (p : IntentPool) : IntentPool * bool :=
  match entries p !! i with
  | Some e =>
      match IntentLifecycleRecord.transition_to Matched (pool_block p) (lifecycle e) with
      | (r, Ok _) =>
          (set_entries (<[i := mkEntry (pe_intent e) (set_match bundle solver r)]> (entries p)) p, true)
      | (r, _) => (set_entries (<[i := mkEntry (pe_intent e) r]> (entries p)) p, false)
      end
  | None => (p, false)
  end.

(* @src src/poseq/src/intent_pool/pool.rs:249-255 IntentPool::prune_expired *)
Definition is_expired (block : Z) (e : PoolEntry) : bool :=
  bool_decide ((deadline (pe_intent e) ≤ block ∨
      wrapu 64 (admitted_at_block (lifecycle e) + MAX_POOL_RESIDENCE) ≤ block) ∧
    (lc_state (lifecycle e) = Open ∨ lc_state (lifecycle e) = StAdmitted ∨
     lc_state (lifecycle e) = Matched)).

(* @src src/poseq/src/intent_pool/pool.rs:244-272 IntentPool::prune_expired *)
Definition prune_expired (p : IntentPool) : IntentPool * list id32 :=
  let block := pool_block p in
  let expired := (filter (λ e, is_expired block e.2 = true) (btree_list (entries p))).*1 in
  let p := foldl (λ p i,
    let p := get_mut i (try_transition Expired block) p in
    let m := metrics p in
    set_metrics (mkMetrics (total_admitted m) (total_rejected m) (wrapu 64 (total_expired m + 1))
      (total_evicted m) (rejected_by_reason m)) (set_entries (delete i (entries p)) p)) p expired in
  (mkPool (entries p) (filter (λ i, is_Some (entries p !! i)) (insertion_order p)) (seen_ids p)
     (counts p) (highest p) (pool_block p) (metrics p), expired).

(* @src src/poseq/src/intent_pool/pool.rs:275-286 IntentPool::cancel *)
Definition cancel (i : id32) (p : IntentPool) : IntentPool * bool :=
  match entries p !! i with
  | Some e =>
      if IntentState.is_cancellable (lc_state (lifecycle e)) then
        match IntentLifecycleRecord.transition_to Cancelled (pool_block p) (lifecycle e) with
        | (r, Ok _) => (drop_id i p, true)
        | (r, _) => (set_entries (<[i := mkEntry (pe_intent e) r]> (entries p)) p, false)
        end
      else (p, false)
  | None => (p, false)
  end.

(** Candidates in order: tip down, deadline up, id up. *)
Definition candidate : Type := id32 * Z * Z.
Definition candidate_of (e : PoolEntry) : candidate :=
  (intent_id (pe_intent e), tip_of e, deadline (pe_intent e)).
(* @src src/poseq/src/intent_pool/pool.rs:296-300 IntentPool::drain_open_for_batch *)
Definition batch_le (a b : candidate) : Prop :=
  b.1.2 < a.1.2 ∨ b.1.2 = a.1.2 ∧ (a.2 < b.2 ∨ a.2 = b.2 ∧ a.1.1 ≤ b.1.1).
#[export] Instance batch_le_dec : RelDecision batch_le.
Proof. intros a b. unfold batch_le. apply _. Defined.

(* @src src/poseq/src/intent_pool/pool.rs:289-312 IntentPool::drain_open_for_batch *)
Definition drain_open_for_batch (max_count : nat) (p : IntentPool)
  : IntentPool * list IntentTransaction :=
  let candidates := candidate_of <$>
    filter (λ e, lc_state (lifecycle e) = Open) (btree_values (entries p)) in
  let ids := (take max_count (merge_sort batch_le candidates)).*1.*1 in
  (p, omap (λ i, pe_intent <$> entries p !! i) ids).
End IntentPool.
Import IntentPool.

(** ** Solver subscriptions *)

(* @src src/poseq/src/intent_pool/pool.rs:345-350 SolverSubscription *)
Record SolverSubscription : Type := mkSubscription {
  sub_solver_id : id32;
  intent_type_filter : list Z;
  min_tip : Z;
  min_amount : Z }.

Module SolverSubscription.
(* @src src/poseq/src/intent_pool/pool.rs:354-373 SolverSubscription::matches *)
Definition matches (s : SolverSubscription) (t : IntentTransaction) : bool :=
  if decide (intent_type_filter s ≠ [] ∧ IntentKind.type_tag (intent_type t) ∉ intent_type_filter s)
  then false
  else if decide (default 0 (tip t) < min_tip s) then false
  else if negb (SolverPermissions.is_permitted (solver_permissions t) (sub_solver_id s)) then false
  else true.
End SolverSubscription.

(** ** The pool's invariant *)

(** Entries sit at their ids and were seen; their nonces are recorded; the
    insertion order lists each entry once; the pool respects its size; what is in
    it is structurally valid and still waiting. *)
Record pool_inv `{Sha256, IntentBincode} (p : IntentPool) : Prop := {
  pi_entry i e : entries p !! i = Some e →
    intent_id (pe_intent e) = i ∧ i ∈ seen_ids p ∧
    IntentTransaction.validate_basic (pe_intent e) = Ok tt ∧
    lc_state (lifecycle e) ∈ [StAdmitted; Open; Matched];
  pi_nonce i e : entries p !! i = Some e →
    ∃ n, highest p !! user (pe_intent e) = Some n ∧ nonce (pe_intent e) ≤ n;
  pi_order i : i ∈ insertion_order p ↔ is_Some (entries p !! i);
  pi_once : NoDup (insertion_order p);
  pi_size : len p ≤ MAX_POOL_SIZE }.

Section pool.
Context `{Sha256, IntentBincode}.
Implicit Types (p : IntentPool) (t : IntentTransaction) (e : PoolEntry).

(** The invariant does not read the metrics, the rates and the block. *)
Definition same_book p p' : Prop :=
  entries p' = entries p ∧ insertion_order p' = insertion_order p ∧ seen_ids p' = seen_ids p ∧
  highest p' = highest p.

Lemma same_book_inv p p' : same_book p p' → pool_inv p → pool_inv p'.
Proof.
  intros (E1 & E2 & E3 & E4) [He Hn Ho Hd Hs]. unfold len in Hs.
  split; rewrite ?E1, ?E2, ?E3, ?E4; try done. unfold len. by rewrite E1.
Qed.

Lemma pool_empty_inv : pool_inv IntentPool.new.
Proof.
  split; cbn; try (intros i e E; by rewrite lookup_empty in E); [|constructor|].
  - intros i. rewrite lookup_empty. split; [by intros ?%elem_of_nil|by intros [? ?]].
  - unfold len. cbn. rewrite map_size_empty. by_eval.
Qed.

Lemma drop_inv i p : pool_inv p → pool_inv (drop_id i p).
Proof.
  intros [He Hn Ho Hd Hs]. split; cbn.
  - intros j e [_ Hj]%lookup_delete_Some. by apply He.
  - intros j e [_ Hj]%lookup_delete_Some. by eapply Hn.
  - intros j. rewrite list_elem_of_filter, Ho, lookup_delete. case_decide; [subst|naive_solver].
    split; [naive_solver|by intros [? ?]].
  - by apply NoDup_filter.
  - unfold len in *. cbn [entries drop_id]. rewrite map_size_delete. destruct (entries p !! i); cbn; lia.
Qed.

(** Rewriting entries in place: the same intents, states that still wait. *)
Lemma rewrite_inv p (m : gmap id32 PoolEntry) :
  pool_inv p →
  (∀ i e', m !! i = Some e' → ∃ e, entries p !! i = Some e ∧ pe_intent e' = pe_intent e ∧
     lc_state (lifecycle e') ∈ [StAdmitted; Open; Matched]) →
  dom m = dom (entries p) → pool_inv (set_entries m p).
Proof.
  intros [He Hn Ho Hd Hs] Hm Hdom. split; cbn.
  - intros i e' Hi. destruct (Hm _ _ Hi) as (e & Hi' & -> & Hst).
    destruct (He _ _ Hi') as (? & ? & ? & _). by split_and!.
  - intros i e' Hi. destruct (Hm _ _ Hi) as (e & Hi' & -> & _). by eapply Hn.
  - intros i. by rewrite Ho, <- !elem_of_dom, Hdom.
  - done.
  - unfold len in *. cbn. by rewrite <- size_dom, Hdom, size_dom.
Qed.

Lemma transition_waits s s' target :
  s ∈ [StAdmitted; Open; Matched] → target ∈ [Open; Matched] →
  transition s target = Ok s' → s' ∈ [StAdmitted; Open; Matched].
Proof.
  intros Hs Ht E. assert (s' = target) as -> by (destruct s, target; cbn in E; congruence).
  set_solver.
Qed.

Lemma try_transition_spec target block e :
  pe_intent (try_transition target block e) = pe_intent e ∧
  lc_state (lifecycle (try_transition target block e)) =
    default (lc_state (lifecycle e)) (match transition (lc_state (lifecycle e)) target with
                                      | Ok s => Some s | _ => None end).
Proof.
  unfold try_transition, IntentLifecycleRecord.transition_to. split; [done|]. cbn.
  by destruct (transition _ _).
Qed.

(** ** Eviction *)

Lemma lowest_tip_spec p :
  match lowest_tip p with
  | Some (i, t) => ∃ e, entries p !! i = Some e ∧ t = tip_of e ∧
      ∀ j e', entries p !! j = Some e' → t < tip_of e' ∨ t = tip_of e' ∧ i ≤ j
  | None => entries p = ∅
  end.
Proof.
  unfold lowest_tip.
  assert (∀ (l : list (id32 * PoolEntry)) (acc : option (id32 * Z)), StronglySorted key_le l →
    (∀ a, acc = Some a → ∀ x, x ∈ l → a.1 ≤ x.1) →
    match foldl (λ lowest (x : id32 * PoolEntry), let tp := tip_of x.2 in
        match lowest with
        | Some l => if decide (tp < l.2) then Some (x.1, tp) else lowest
        | None => Some (x.1, tp) end) acc l with
    | Some (i, t) => (acc = Some (i, t) ∨ ∃ e, (i, e) ∈ l ∧ t = tip_of e) ∧
        (∀ x, x ∈ l → t < tip_of x.2 ∨ t = tip_of x.2 ∧ i ≤ x.1) ∧
        (∀ a, acc = Some a → t < a.2 ∨ t = a.2 ∧ i ≤ a.1)
    | None => acc = None ∧ l = []
    end) as Hgen.
  { induction l as [|[k e] l IH]; intros acc Hsort Hacc.
    { cbn. destruct acc as [[i t]|]; [|done]. split_and!; [by left|by intros ? ?%elem_of_nil|].
      intros a [= <-]. right. cbn. lia. }
    cbn [foldl]. apply StronglySorted_inv in Hsort as [Hsort Hk]. rewrite Forall_forall in Hk.
    set (acc' := match acc with Some _ => _ | None => _ end).
    assert (acc' = Some (k, tip_of e) ∧ (∀ a, acc = Some a → tip_of e < a.2) ∨
            acc' = acc ∧ ∃ a, acc = Some a ∧ a.2 ≤ tip_of e) as Hacc'.
    { subst acc'. destruct acc as [[i t]|]; cbn; [|by left]. case_decide; cbn in *.
      - left. split; [done|]. by intros a [= <-].
      - right. split; [done|]. eexists. split; [done|]. cbn. lia. }
    specialize (IH acc' Hsort). destruct (foldl _ acc' l) as [[i t]|].
    - destruct IH as (Hin & Hmin & Hfrom).
      { intros a Ha x Hx. destruct Hacc' as [[E _]|[E _]]; rewrite E in Ha.
        - injection Ha as <-. by apply (Hk x Hx).
        - apply (Hacc a Ha). by right. }
      destruct Hacc' as [[E Hlt]|[E (a & Ea & Hle)]]; rewrite E in Hin, Hfrom.
      + specialize (Hfrom _ eq_refl). cbn in Hfrom. split_and!.
        * destruct Hin as [[= <- <-]|(e' & He' & ->)]; right; [exists e; split; [left|done]|].
          exists e'. split; [by right|done].
        * intros x [->|Hx]%elem_of_cons; [done|by apply Hmin].
        * intros a Ha. specialize (Hlt a Ha). left. lia.
      + specialize (Hfrom _ Ea). pose proof (Hacc a Ea (k, e) ltac:(left)) as Hik. cbn in Hik.
        split_and!.
        * destruct Hin as [->|(e' & He' & ->)]; [by left|right]. exists e'. split; [by right|done].
        * intros x [->|Hx]%elem_of_cons; [cbn; lia|by apply Hmin].
        * intros b Hb. rewrite Ea in Hb. by injection Hb as <-.
    - destruct IH as [En ->].
      { intros a Ha x Hx. destruct Hacc' as [[E _]|[E _]]; rewrite E in Ha.
        - injection Ha as <-. by apply (Hk x Hx).
        - apply (Hacc a Ha). by right. }
      destruct Hacc' as [[E _]|[E (a & Ea & _)]]; congruence. }
  specialize (Hgen (btree_list (entries p)) None (btree_list_sorted _) ltac:(done)).
  destruct (foldl _ _ _) as [[i t]|].
  - destruct Hgen as ([?|(e & He & ->)] & Hmin & _); [done|]. exists e.
    split_and!; [by apply elem_of_btree_list|done|]. intros j e' Hj.
    apply (Hmin (j, e')). by apply elem_of_btree_list.
  - destruct Hgen as [_ En]. apply map_empty. intros i. apply eq_None_not_Some. intros [e He].
    apply elem_of_btree_list in He. rewrite En in He. by apply elem_of_nil in He.
Qed.

(** ** Operations and the invariant *)

Lemma open_inv p : pool_inv p → pool_inv (open_admitted_intents p).
Proof.
  intros Hinv. apply rewrite_inv; [done| |by rewrite dom_fmap_L].
  intros i e' (e & <- & Hi)%lookup_fmap_Some. exists e. split; [done|].
  destruct (pi_entry _ Hinv _ _ Hi) as (_ & _ & _ & Hst).
  destruct (decide (lc_state (lifecycle e) = StAdmitted)); [|done].
  destruct (try_transition_spec Open (pool_block p) e) as [-> ->].
  split; [done|]. destruct (transition _ _) as [s'| |] eqn:E; cbn; [|done..].
  eapply transition_waits; [exact Hst| |exact E]. set_solver.
Qed.

Lemma mark_inv i b s p : pool_inv p → pool_inv (mark_matched i b s p).1.
Proof.
  intros Hinv. unfold mark_matched. destruct (entries p !! i) as [e|] eqn:Hi; [|done].
  destruct (pi_entry _ Hinv _ _ Hi) as (_ & _ & _ & Hst).
  unfold IntentLifecycleRecord.transition_to.
  assert (∀ r, lc_state r ∈ [StAdmitted; Open; Matched] →
    pool_inv (set_entries (<[i:=mkEntry (pe_intent e) r]> (entries p)) p)) as Hset.
  { intros r Hr. apply rewrite_inv; [done| |].
    - intros j e' [[<- <-]|[_ Hj]]%lookup_insert_Some; [by exists e|].
      exists e'. split_and!; [done..|]. by apply (pi_entry _ Hinv _ _ Hj).
    - apply dom_insert_lookup_L. by eexists. }
  destruct (transition _ _) as [s'| |] eqn:E; cbn [fst snd]; apply Hset; [|done..].
  cbn. eapply transition_waits; [exact Hst| |exact E]. set_solver.
Qed.

Lemma cancel_inv i p : pool_inv p → pool_inv (cancel i p).1.
Proof.
  intros Hinv. unfold cancel. destruct (entries p !! i) as [e|] eqn:Hi; [|done].
  destruct (IntentState.is_cancellable _) eqn:Hc; [|done].
  unfold IntentLifecycleRecord.transition_to.
  destruct (transition _ _) as [s'| |] eqn:E; [by apply drop_inv|..];
    destruct (lc_state (lifecycle e)); done.
Qed.

Lemma pool_remove_inv i p : pool_inv p → pool_inv (remove i p).1.
Proof. intros Hinv. unfold remove. case_match; [by apply drop_inv|done]. Qed.

Lemma prune_spec p :
  entries (prune_expired p).1 = filter (λ x, is_expired (pool_block p) x.2 = false) (entries p) ∧
  highest (prune_expired p).1 = highest p ∧ seen_ids (prune_expired p).1 = seen_ids p ∧
  insertion_order (prune_expired p).1 =
    filter (λ i, is_Some (entries (prune_expired p).1 !! i)) (insertion_order p).
Proof.
  unfold prune_expired. set (block := pool_block p). set (f := λ p i, _).
  assert (∀ l p, entries (foldl f p l) = foldr delete (entries p) l ∧
    highest (foldl f p l) = highest p ∧ seen_ids (foldl f p l) = seen_ids p ∧
    insertion_order (foldl f p l) = insertion_order p) as Hf.
  { induction l as [|i l IH]; intros q; [done|]. cbn [foldl foldr].
    destruct (IH (f q i)) as (-> & -> & -> & ->). split_and!; try done. subst f. cbn.
    apply map_eq. intros j. rewrite lookup_delete. destruct (decide (j ∈ l)).
    - rewrite !lookup_foldr_delete by done. by case_decide.
    - rewrite !lookup_foldr_delete_not_elem_of, lookup_delete, lookup_alter by done.
      by case_decide. }
  cbn [fst]. destruct (Hf (filter (λ x, is_expired block x.2 = true) (btree_list (entries p))).*1 p)
    as (E1 & -> & -> & ->). cbn. split_and!; [|done..].
  rewrite E1. apply map_eq. intros i. rewrite map_lookup_filter.
  set (ids := (filter _ _).*1).
  assert (i ∈ ids ↔ ∃ e, entries p !! i = Some e ∧ is_expired block e = true) as Hids.
  { subst ids. rewrite list_elem_of_fmap. split.
    - intros ([j e] & -> & [Hx Hin]%list_elem_of_filter). exists e. split; [|done].
      by apply elem_of_btree_list.
    - intros (e & He & Hx). exists (i, e). split; [done|]. apply list_elem_of_filter.
      split; [done|]. by apply elem_of_btree_list. }
  destruct (decide (i ∈ ids)) as [Hi|Hi].
  - rewrite lookup_foldr_delete by done. apply Hids in Hi as (e & -> & Hx). cbn.
    case_guard; [congruence|done].
  - rewrite lookup_foldr_delete_not_elem_of by done.
    destruct (entries p !! i) as [e|] eqn:He; [|done]. cbn. case_guard as Hg; [done|].
    destruct Hg. apply not_true_is_false. intros Hx. apply Hi, Hids. by exists e.
Qed.

Lemma prune_inv p : pool_inv p → pool_inv (prune_expired p).1.
Proof.
  intros [He Hn Ho Hd Hs]. destruct (prune_spec p) as (E1 & E2 & E3 & E4). split.
  - intros i e Hi. rewrite E1 in Hi. apply map_lookup_filter_Some in Hi as [Hi _]. rewrite E3. by apply He.
  - intros i e Hi. rewrite E1 in Hi. apply map_lookup_filter_Some in Hi as [Hi _]. rewrite E2. by eapply Hn.
  - intros i. rewrite E4, list_elem_of_filter, Ho. split; [by intros [? _]|]. intros Hi.
    split; [done|]. rewrite E1 in Hi. destruct Hi as [e [Hi _]%map_lookup_filter_Some]. by exists e.
  - rewrite E4. by apply NoDup_filter.
  - unfold len in *. rewrite E1. etrans; [|exact Hs]. apply inj_le, map_subseteq_size, map_filter_subseteq.
Qed.

(** ** Admission *)

(** The nonce is the user's first, or one to three above the last. *)
Definition nonce_follows (last : option Z) (n : Z) : Prop :=
  match last with Some m => m < n ≤ wrapu 64 (m + MAX_NONCE_GAP) | None => True end.

Record admissible t p : Prop := {
  ad_valid : IntentTransaction.validate_basic t = Ok tt;
  ad_new : intent_id t ∉ seen_ids p;
  ad_size : IntentTransaction.estimated_size t ≤ MAX_INTENT_SIZE;
  ad_deadline : wrapu 64 (pool_block p + MIN_INTENT_LIFETIME) < deadline t;
  ad_nonce : nonce_follows (highest p !! user t) (nonce t) }.

(** The entry that leaves a full pool: lowest tip, then lowest id. *)
Definition evicted p (i : id32) : Prop :=
  ∃ e, entries p !! i = Some e ∧
    ∀ j e', entries p !! j = Some e' → tip_of e < tip_of e' ∨ tip_of e = tip_of e' ∧ i ≤ j.

(** The entries left when there is room for one more. *)
Inductive room p : gmap id32 PoolEntry → list id32 → Prop :=
| room_left : len p < MAX_POOL_SIZE → room p (entries p) (insertion_order p)
| room_made i : MAX_POOL_SIZE ≤ len p → evicted p i →
    room p (delete i (entries p)) (filter (λ j, j ≠ i) (insertion_order p)).

Lemma make_room_spec p :
  ∃ p1, make_room p = (p1, Ok tt) ∧ room p (entries p1) (insertion_order p1) ∧
    seen_ids p1 = seen_ids p ∧ highest p1 = highest p ∧ pool_block p1 = pool_block p.
Proof.
  unfold make_room. case_decide as Hs.
  2: { exists p. split_and!; [done|constructor; lia|done..]. }
  unfold evict_lowest_tip. pose proof (lowest_tip_spec p) as Hl.
  destruct (lowest_tip p) as [[i tp]|].
  - destruct Hl as (e & He & -> & Hmin). eexists. split; [reflexivity|].
    split_and!; [|done..]. cbn. constructor; [done|]. exists e. split; [done|]. apply Hmin.
  - unfold len in Hs. rewrite Hl, map_size_empty in Hs. by vm_compute in Hs.
Qed.

Lemma check_and_record_spec who n m m' r :
  check_and_record who n m = (m', r) →
  (r = Ok tt ∧ nonce_follows (m !! who) n ∧ m' = <[who := n]> m) ∨
  (m' = m ∧ ∃ err, r = Err err ∧ err ≠ PoolFull).
Proof.
  unfold check_and_record, nonce_follows. destruct (m !! who) as [last|].
  - case_decide; [intros [= <- <-]; right; eauto|].
    case_decide; [intros [= <- <-]; right; eauto|]. intros [= <- <-]. left. split_and!; [done|lia..|done].
  - intros [= <- <-]. by left.
Qed.

Lemma validate_no_full t err :
  IntentTransaction.validate_basic t = Err err → err ≠ PoolFull.
Proof.
  unfold IntentTransaction.validate_basic, IntentTransaction.validate_kind.
  repeat (case_decide; [by intros [= <-]|]).
  case_match; [by intros [= <-]|]. repeat (case_decide; [by intros [= <-]|]).
  destruct (intent_type t); repeat case_decide; repeat case_match; congruence.
Qed.
Lemma validate_no_panic t : IntentTransaction.validate_basic t ≠ Panic.
Proof.
  unfold IntentTransaction.validate_basic, IntentTransaction.validate_kind.
  repeat (case_decide; [done|]). case_match; [done|]. repeat (case_decide; [done|]).
  destruct (intent_type t); repeat case_decide; repeat case_match; congruence.
Qed.

Lemma admit_cases t p p' r :
  admit_intent t p = (p', r) →
  (∃ err, r = Err err ∧ err ≠ PoolFull ∧ same_book p p') ∨
  (r = Ok (from_intent t) ∧ admissible t p ∧ ∃ p1, p' = add_intent t p1 ∧
     room p (entries p1) (insertion_order p1) ∧ seen_ids p1 = seen_ids p ∧
     highest p1 = <[user t := nonce t]> (highest p) ∧ pool_block p1 = pool_block p).
Proof.
  unfold admit_intent, mbind, M_bind, lift.
  destruct (IntentTransaction.validate_basic t) as [[]|e|] eqn:Ev.
  2: { intros [= <- <-]. left. exists e. split_and!; [done|by eapply validate_no_full|done]. }
  2: by destruct (validate_no_panic t).
  destruct (decide (intent_id t ∈ seen_ids p ∨ is_Some (entries p !! intent_id t))) as [Hd|Hd].
  { intros [= <- <-]. left. eexists. by split_and!. }
  destruct (decide (MAX_INTENT_SIZE < _)) as [Hz|Hz].
  { intros [= <- <-]. left. eexists. by split_and!. }
  cbn [mret M_ret].
  destruct (decide (deadline t ≤ wrapu 64 (pool_block p + MIN_INTENT_LIFETIME))) as [Hdl|Hdl].
  { intros [= <- <-]. left. eexists. by split_and!. }
  unfold on_counts, check_rate. destruct (default _ _) as [b c].
  destruct (decide (MAX_INTENTS_PER_BLOCK_PER_USER ≤ _)) as [Hc|Hc].
  { intros [= <- <-]. left. eexists. by split_and!. }
  unfold on_highest. cbn [highest set_counts].
  destruct (check_and_record (user t) (nonce t) (highest p)) as [h rr] eqn:Eh.
  destruct (check_and_record_spec _ _ _ _ _ Eh) as [(-> & Hn & ->)|(-> & e & -> & He)].
  2: { intros [= <- <-]. left. exists e. by split_and!. }
  set (p0 := set_highest _ _). destruct (make_room_spec p0) as (p1 & -> & Hroom & Hs & Hh & Hb).
  intros [= <- <-]. right. split; [done|]. split.
  { split; [done|tauto|lia|lia|done]. }
  exists p1. split; [done|]. split_and!; [|done..].
  inversion Hroom as [Hlen|i Hlen Hev]; [by apply room_left|by apply room_made].
Qed.

Lemma admit_keeps_inv t p : pool_inv p → pool_inv (admit_intent t p).1.
Proof.
  intros Hinv. destruct (admit_intent t p) as [p' r] eqn:E. cbn.
  destruct (admit_cases _ _ _ _ E) as [(err & _ & _ & Hb)|(_ & [Hv Hnew _ _ Hnon] & p1 & -> & Hr & Hs & Hh & _)].
  { by eapply same_book_inv. }
  assert (pool_inv (mkPool (entries p1) (insertion_order p1) (seen_ids p) (counts p) (highest p)
    (pool_block p) (metrics p)) ∧ len p1 < MAX_POOL_SIZE) as [[He Hn Ho Hd Hz] Hlt].
  { inversion Hr as [Hlen E1 E2|v Hlen Hev E1 E2].
    - split; [by apply (same_book_inv p)|]. unfold len in *. by rewrite <- E1.
    - split; [by apply (same_book_inv (drop_id v p)); [|apply drop_inv]|].
      unfold len in *. rewrite <- E1, map_size_delete. destruct Hev as (e & -> & _).
      pose proof (pi_size _ Hinv). unfold len in *. cbn.
      assert (0 < MAX_POOL_SIZE) by done. lia. }
  cbn in He, Hn, Ho, Hd.
  assert (entries p1 !! intent_id t = None) as Hfree.
  { apply eq_None_not_Some. intros [e He']. by destruct (He _ _ He') as (_ & ? & _). }
  split; cbn; rewrite ?Hs, ?Hh.
  - intros i e [[<- <-]|[_ Hi]]%lookup_insert_Some; cbn.
    + split_and!; [done|set_solver|done|set_solver].
    + destruct (He _ _ Hi) as (? & ? & ? & ?). split_and!; [done|set_solver|done|done].
  - intros i e [[<- <-]|[_ Hi]]%lookup_insert_Some; cbn.
    + exists (nonce t). by rewrite lookup_insert_eq.
    + destruct (Hn _ _ Hi) as (n & Hl & Hle). rewrite lookup_insert. case_decide as Eu; [|by exists n].
      exists (nonce t). split; [done|]. rewrite Eu, Hl in Hnon. cbn in Hnon. lia.
  - intros i. rewrite elem_of_app, list_elem_of_singleton, Ho, lookup_insert.
    case_decide; [subst; split; [by eexists|by right]|]. split; [by intros [?| ->]|by left].
  - apply NoDup_app. split_and!; [done| |apply NoDup_singleton].
    intros i Hi%Ho ->%list_elem_of_singleton. rewrite Hfree in Hi. by destruct Hi.
  - unfold len in *. cbn. rewrite map_size_insert_None by done. lia.
Qed.

(** *** Runs of the pool *)

Inductive pool_op : Type :=
| OpBlock (block : Z)
| OpAdmit (t : IntentTransaction)
| OpRemove (i : id32)
| OpOpen
| OpMatch (i bundle solver : id32)
| OpPrune
| OpCancel (i : id32)
| OpDrain (n : nat).

(** One operation: the pool after it, and the intent it admitted, if any. *)
Definition pool_step (op : pool_op) p : IntentPool * list IntentTransaction :=
  match op with
  | OpBlock b => (set_block_height b p, [])
  | OpAdmit t => let '(p', r) := admit_intent t p in (p', match r with Ok _ => [t] | _ => [] end)
  | OpRemove i => ((remove i p).1, [])
  | OpOpen => (open_admitted_intents p, [])
  | OpMatch i b s => ((mark_matched i b s p).1, [])
  | OpPrune => ((prune_expired p).1, [])
  | OpCancel i => ((cancel i p).1, [])
  | OpDrain n => ((drain_open_for_batch n p).1, [])
  end.
Fixpoint pool_run (ops : list pool_op) p : IntentPool * list IntentTransaction :=
  match ops with
  | [] => (p, [])
  | op :: ops =>
      let '(p1, l) := pool_step op p in let '(p2, l') := pool_run ops p1 in (p2, l ++ l')
  end.

(** The nonces a user got admitted, and what it means that they follow. *)
Definition nonces_of (u : id32) (l : list IntentTransaction) : list Z :=
  nonce <$> filter (λ t, user t = u) l.
Fixpoint follows (last : option Z) (ns : list Z) : Prop :=
  match ns with
  | [] => True
  | n :: ns => match last with Some m => m < n ≤ m + MAX_NONCE_GAP | None => True end ∧ follows (Some n) ns
  end.

(** What a step adds to the books. *)
Record booked p (l : list IntentTransaction) p' : Prop := {
  bk_seen : seen_ids p' = list_to_set (intent_id <$> l) ∪ seen_ids p;
  bk_fresh t : t ∈ l → intent_id t ∉ seen_ids p;
  bk_once : NoDup (intent_id <$> l);
  bk_high u : highest p' !! u = match last (nonces_of u l) with
                                | Some n => Some n | None => highest p !! u end;
  bk_nonces u : (∀ m, highest p !! u = Some m → 0 ≤ m) → Forall (λ t, 0 ≤ nonce t) l →
    follows (highest p !! u) (nonces_of u l) }.

Lemma booked_none p p' : seen_ids p' = seen_ids p → highest p' = highest p → booked p [] p'.
Proof.
  intros Es Eh. split; cbn; [set_solver|by intros ? ?%elem_of_nil|constructor|by rewrite Eh|done].
Qed.

Lemma pool_step_booked op p : booked p (pool_step op p).2 (pool_step op p).1.
Proof.
  destruct op as [b|t|i| |i b s| |i|n]; cbn [pool_step fst snd]; try (apply booked_none; done).
  - destruct (admit_intent t p) as [p' r] eqn:E.
    destruct (admit_cases _ _ _ _ E) as [(err & -> & _ & (_ & _ & ? & ?))|
      (-> & [_ Hnew _ _ Hnon] & p1 & -> & _ & Hs & Hh & _)]; cbn [fst snd]; [by apply booked_none|].
    split; cbn [seen_ids highest add_intent].
    + rewrite Hs. cbn. set_solver.
    + intros t' ->%list_elem_of_singleton. done.
    + apply NoDup_singleton.
    + intros u. rewrite Hh. unfold nonces_of. rewrite filter_cons, filter_nil, lookup_insert.
      by case_decide.
    + intros u Hpos _. unfold nonces_of. rewrite filter_cons, filter_nil.
      destruct (decide (user t = u)) as [<-|]; cbn; [|done]. split; [|done].
      unfold nonce_follows in Hnon. destruct (highest p !! user t) as [m|]; [|done].
      specialize (Hpos m eq_refl). unfold wrapu in Hnon.
      pose proof (Z.mod_le (m + MAX_NONCE_GAP) (2 ^ 64)). unfold MAX_NONCE_GAP in *. lia.
  - apply booked_none; unfold remove; by case_match.
  - apply booked_none; unfold mark_matched; destruct (entries p !! i); try done;
      by destruct (IntentLifecycleRecord.transition_to _ _ _) as [r [| |]].
  - destruct (prune_spec p) as (_ & ? & ? & _). by apply booked_none.
  - apply booked_none; unfold cancel; destruct (entries p !! i) as [e|]; try done;
      destruct (IntentState.is_cancellable _); try done;
      by destruct (IntentLifecycleRecord.transition_to _ _ _) as [r [| |]].
Qed.

Lemma pool_step_inv op p : pool_inv p → pool_inv (pool_step op p).1.
Proof.
  intros Hinv. destruct op as [b|t|i| |i b s| |i|n]; cbn [pool_step].
  - by apply (same_book_inv p).
  - pose proof (admit_keeps_inv t p Hinv) as H'. by destruct (admit_intent t p).
  - by apply pool_remove_inv.
  - by apply open_inv.
  - by apply mark_inv.
  - by apply prune_inv.
  - by apply cancel_inv.
  - done.
Qed.

Lemma follows_app last_n ns ns' :
  follows last_n (ns ++ ns') ↔
  follows last_n ns ∧ follows (match last ns with Some n => Some n | None => last_n end) ns'.
Proof.
  revert last_n. induction ns as [|n ns IH]; intros last_n; cbn [follows app]; [naive_solver|].
  rewrite IH. destruct ns as [|m ns]; [cbn; tauto|]. rewrite last_cons_cons.
  destruct (last (m :: ns)) eqn:El; [tauto|by apply last_None in El].
Qed.

Lemma booked_app p l p1 l' p2 : booked p l p1 → booked p1 l' p2 → booked p (l ++ l') p2.
Proof.
  intros [Hs Hf Ho Hh Hn] [Hs' Hf' Ho' Hh' Hn'].
  assert (∀ u, nonces_of u (l ++ l') = nonces_of u l ++ nonces_of u l') as Happ.
  { intros u. unfold nonces_of. by rewrite filter_app, fmap_app. }
  split.
  - rewrite Hs', Hs, fmap_app, list_to_set_app_L. set_solver.
  - intros t [Ht|Ht]%elem_of_app; [by apply Hf|]. specialize (Hf' t Ht). rewrite Hs in Hf'. set_solver.
  - rewrite fmap_app. apply NoDup_app. split_and!; [done| |done].
    intros i Hi (t & -> & Ht)%list_elem_of_fmap. specialize (Hf' t Ht). rewrite Hs in Hf'. set_solver.
  - intros u. rewrite Hh', Happ, last_app, Hh. by destruct (last (nonces_of u l')).
  - intros u Hpos Hl. rewrite Happ. apply Forall_app in Hl as [Hl Hl'].
    apply follows_app. split; [by apply Hn|]. rewrite <- Hh. apply Hn'; [|done].
    intros m. rewrite Hh. destruct (last (nonces_of u l)) as [n|] eqn:El; [|apply Hpos].
    intros [= <-]. apply last_Some_elem_of in El. apply list_elem_of_fmap in El as (t & -> & Ht).
    apply list_elem_of_filter in Ht as [_ Ht]. by apply (proj1 (Forall_forall _ _) Hl).
Qed.

(** Nonces are unsigned. *)
Definition op_fits (op : pool_op) : Prop :=
  match op with OpAdmit t => 0 ≤ nonce t | _ => True end.

Lemma pool_run_spec ops p :
  pool_inv p → Forall op_fits ops →
  pool_inv (pool_run ops p).1 ∧ booked p (pool_run ops p).2 (pool_run ops p).1 ∧
  Forall (λ t, 0 ≤ nonce t) (pool_run ops p).2.
Proof.
  revert p. induction ops as [|op ops IH]; intros p Hinv Hops.
  { split_and!; [done|by apply booked_none|constructor]. }
  apply Forall_cons in Hops as [Hop Hops]. cbn [pool_run].
  pose proof (pool_step_inv op p Hinv) as Hinv1. pose proof (pool_step_booked op p) as Hb1.
  assert (Forall (λ t, 0 ≤ nonce t) (pool_step op p).2) as Hf1.
  { destruct op as [|t| | | | | |]; try constructor. cbn.
    destruct (admit_intent t p) as [? [| |]]; by repeat constructor. }
  destruct (pool_step op p) as [p1 l1]. cbn [fst snd] in *.
  destruct (IH p1 Hinv1 Hops) as (Hinv2 & Hb2 & Hf2). destruct (pool_run ops p1) as [p2 l2].
  cbn [fst snd] in *. split_and!; [done|by eapply booked_app|by apply Forall_app].
Qed.

(** ** Properties *)

(** Admission, branch by branch: it refuses without touching the entries, the
    order, the seen ids and the nonces; or the intent is valid, new, small enough
    and in time, and its nonce follows: then it is in the pool as admitted, at the
    end of the order, and of the others only, in a full pool, the one with the
    lowest tip (and lowest id among those) is gone.  A full pool never refuses:
    the error for it is dead code, and the newcomer's own tip is not compared. *)
Theorem pool_admit_spec (t : IntentTransaction) (p p' : IntentPool)
    (r : outcome IntentValidationError IntentAnnouncement) :
  admit_intent t p = (p', r) →
  match r with
  | Ok a => a = from_intent t ∧ admissible t p ∧
      (∃ m order, room p m order ∧ insertion_order p' = order ++ [intent_id t] ∧
         entries p' = <[intent_id t :=
           mkEntry t (IntentLifecycleRecord.new (intent_id t) (pool_block p))]> m) ∧
      seen_ids p' = {[intent_id t]} ∪ seen_ids p ∧
      highest p' = <[user t := nonce t]> (highest p)
  | Err err => err ≠ PoolFull ∧ same_book p p'
  | Panic => False
  end.
Proof.
  intros E. destruct (admit_cases _ _ _ _ E) as [(err & -> & ? & ?)|
    (-> & Had & p1 & -> & Hr & Hs & Hh & Hb)]; [done|].
  split_and!; [done|done| |cbn; by rewrite Hs|done].
  exists (entries p1), (insertion_order p1). split_and!; [done..|]. cbn. by rewrite Hb.
Qed.

(** C22: Over any run of the pool's operations from an empty pool, the pool stays
    consistent, no intent is admitted twice even after it has left the pool, and
    the nonces a user gets admitted strictly increase with gaps of at most three. *)
Theorem pool_run_safe (ops : list pool_op) (p : IntentPool) (l : list IntentTransaction) :
  Forall op_fits ops → pool_run ops IntentPool.new = (p, l) →
  pool_inv p ∧ NoDup (intent_id <$> l) ∧ ∀ u, follows None (nonces_of u l).
Proof.
  intros Hops E. destruct (pool_run_spec ops IntentPool.new pool_empty_inv Hops) as (Hinv & [_ _ Ho _ Hn] & Hf).
  rewrite E in *. split_and!; [done..|]. intros u. apply (Hn u); [|done].
  intros m Hm. cbn in Hm. by rewrite lookup_empty in Hm.
Qed.
End pool.

(** ** Sample runs *)

Definition sample_intent_bincode : IntentBincode := {|
  encode_kind k := Some [IntentKind.type_tag k];
  encode_intent t := Some (be_bytes 32 (user t)) |}.

Definition pool_intent (u n tp : Z) : IntentTransaction :=
  let t i := mkIntent i (Payment (mkPayment (AssetId.token 5) 10 9 None)) 1 u n None 100 None 20
    (Some tp) false SolverPermissions.default default_prefs None [1] ∅ in
  t (@IntentTransaction.compute_intent_id sample_sha256 sample_intent_bincode (t 0)).

Definition sample_ops : list pool_op :=
  [OpAdmit (pool_intent 1 4 5); OpAdmit (pool_intent 1 4 9); OpAdmit (pool_intent 1 9 5);
   OpAdmit (pool_intent 1 6 5); OpOpen; OpBlock 200; OpPrune; OpAdmit (pool_intent 1 4 5)].

Lemma pool_run_safe_witness :
  let r := @pool_run sample_sha256 sample_intent_bincode sample_ops IntentPool.new in
  nonces_of 1 r.2 = [4; 6] ∧ len r.1 = 0 ∧ follows None (nonces_of 1 r.2).
Proof.
  intros r. split; [vm_compute; reflexivity|]. split; [vm_compute; reflexivity|].
  destruct (@pool_run sample_sha256 sample_intent_bincode sample_ops IntentPool.new) as [p l] eqn:E.
  apply (@pool_run_safe sample_sha256 sample_intent_bincode sample_ops p l); [|exact E].
  repeat constructor; by_eval.
Defined.

Lemma pool_admit_spec_witness :
  let t := pool_intent 1 4 5 in
  let p' := (@admit_intent sample_sha256 sample_intent_bincode t IntentPool.new).1 in
  seen_ids p' = {[intent_id t]} ∪ ∅ ∧ highest p' = {[1 := 4]}.
Proof.
  intros t p'.
  pose proof (@pool_admit_spec sample_sha256 sample_intent_bincode t IntentPool.new) as Hs.
  assert (match (@admit_intent sample_sha256 sample_intent_bincode t IntentPool.new).2 with
          | Ok _ => true | _ => false end = true) as Ho by (vm_compute; reflexivity).
  unfold p'. destruct (@admit_intent sample_sha256 sample_intent_bincode t IntentPool.new) as [q r].
  destruct r as [a| |]; try discriminate Ho. destruct (Hs q (Ok a) eq_refl) as (_ & _ & _ & Hseen & Hh).
  split; [exact Hseen|exact Hh].
Defined.
