(* ===== verification/Auction.v ===== *)
(** * The commit-reveal auction

    Solvers first commit to a bundle by its hashes, then reveal it
    (src/poseq/src/auction/types.rs), in a window whose phases are ranges of block
    heights (src/poseq/src/auction/state.rs).  The theorems say what a commitment
    binds a reveal to, what it leaves open, and that no commitment is taken once
    reveals are. *)

From stdpp Require Import gmap strings list.
From S2P Require Import Prelude Concrete PoolTypes.

(** ** Resource declarations *)

(* @src src/poseq/src/auction/types.rs:16-19 AccessType *)
Inductive AccessType : Type := Read | Write.
#[export] Instance AccessType_eq_dec : EqDecision AccessType.
Proof. solve_decision. Defined.

(* @src src/poseq/src/auction/types.rs:23-26 ResourceAccess *)
Record ResourceAccess : Type := mkAccess {
  resource_id : id32;
  access_type : AccessType }.

Module ResourceAccess.
(* @src src/poseq/src/auction/types.rs:29-31 ResourceAccess::read *)
Definition read (i : id32) : ResourceAccess := mkAccess i Read.
(* @src src/poseq/src/auction/types.rs:33-35 ResourceAccess::write *)
Definition write (i : id32) : ResourceAccess := mkAccess i Write.
End ResourceAccess.

(* @src src/poseq/src/auction/types.rs:42-54 bundles_conflict *)
Definition bundles_conflict (a b : list ResourceAccess) : bool :=
  existsb (λ ra, existsb (λ rb,
    bool_decide (resource_id ra = resource_id rb) &&
    (bool_decide (access_type ra = Write) || bool_decide (access_type rb = Write))) b) a.

(** ** Bundles *)

(* @src src/poseq/src/auction/types.rs:59-70 OperationType *)
Inductive OperationType : Type :=
| OpDebit | OpCredit | OpSwap | OpLock | OpUnlock | OpCreate | OpDestroy | OpTransfer
| OpContractCall.

(* @src src/poseq/src/auction/types.rs:73-79 OperationParams *)
Record OperationParams : Type := mkParams {
  op_asset : option AssetId;
  op_amount : option Z;
  op_recipient : option id32;
  op_pool_id : option id32;
  custom_data : option bytes }.

(* @src src/poseq/src/auction/types.rs:82-89 ExecutionStep *)
Record ExecutionStep : Type := mkStep {
  step_index : Z;
  operation : OperationType;
  object_id : id32;
  read_set : list id32;
  write_set : list id32;
  params : OperationParams }.

(* @src src/poseq/src/auction/types.rs:94-99 PredictedOutput *)
Record PredictedOutput : Type := mkOutput {
  out_intent_id : id32;
  out_asset : AssetId;
  amount_out : Z;
  fee_charged_bps : Z }.

(* @src src/poseq/src/auction/types.rs:104-107 PredictedOutput::user_outcome_score *)
Definition user_outcome_score (o : PredictedOutput) : Z :=
  let fee_factor := sat_sub 10000 (fee_charged_bps o) in
  sat_mul 128 (amount_out o) fee_factor / 10000.

(* @src src/poseq/src/auction/types.rs:113-117 FeeBreakdown *)
Record FeeBreakdown : Type := mkFeeBreakdown {
  solver_fee_bps : Z;
  protocol_fee_bps : Z;
  total_fee_bps : Z }.

(* @src src/poseq/src/auction/types.rs:122-126 LiquidityType *)
Inductive LiquidityType : Type := Pool | Vault | External.

(* @src src/poseq/src/auction/types.rs:129-134 LiquiditySource *)
Record LiquiditySource : Type := mkSource {
  source_type : LiquidityType;
  source_id : id32;
  source_asset : AssetId;
  amount_used : Z }.

(* @src src/poseq/src/auction/types.rs:140-151 BundleCommitment *)
Record BundleCommitment : Type := mkCommitment {
  c_bundle_id : id32;
  c_solver_id : id32;
  c_batch_window : Z;
  target_intent_count : Z;
  commitment_hash : id32;
  expected_outputs_hash : id32;
  execution_plan_hash : id32;
  valid_until : Z;
  bond_locked : Z;
  c_signature : bytes }.

(* @src src/poseq/src/auction/types.rs:155-157 BundleCommitment::is_valid_at *)
Definition is_valid_at (c : BundleCommitment) (block : Z) : bool :=
  bool_decide (block ≤ valid_until c).

(* @src src/poseq/src/auction/types.rs:164-183 BundleReveal *)
Record BundleReveal : Type := mkReveal {
  bundle_id : id32;
  solver_id : id32;
  batch_window : Z;
  target_intent_ids : list id32;
  execution_steps : list ExecutionStep;
  liquidity_sources : list LiquiditySource;
  predicted_outputs : list PredictedOutput;
  fee_breakdown : FeeBreakdown;
  resource_declarations : list ResourceAccess;
  r_nonce : id32;
  proof_data : bytes;
  r_signature : bytes }.

#[export] Instance ResourceAccess_eq_dec : EqDecision ResourceAccess.
Proof. solve_decision. Defined.
#[export] Instance OperationType_eq_dec : EqDecision OperationType.
Proof. solve_decision. Defined.
#[export] Instance OperationParams_eq_dec : EqDecision OperationParams.
Proof. solve_decision. Defined.
#[export] Instance ExecutionStep_eq_dec : EqDecision ExecutionStep.
Proof. solve_decision. Defined.
#[export] Instance PredictedOutput_eq_dec : EqDecision PredictedOutput.
Proof. solve_decision. Defined.
#[export] Instance FeeBreakdown_eq_dec : EqDecision FeeBreakdown.
Proof. solve_decision. Defined.
#[export] Instance LiquidityType_eq_dec : EqDecision LiquidityType.
Proof. solve_decision. Defined.
#[export] Instance LiquiditySource_eq_dec : EqDecision LiquiditySource.
Proof. solve_decision. Defined.
#[export] Instance BundleCommitment_eq_dec : EqDecision BundleCommitment.
Proof. solve_decision. Defined.
#[export] Instance BundleReveal_eq_dec : EqDecision BundleReveal.
Proof. solve_decision. Defined.

(* @src src/poseq/src/auction/types.rs:280-298 RevealValidationError *)
Inductive RevealValidationError : Type :=
| BundleIdMismatch
| SolverIdMismatch
| BatchWindowMismatch
| CommitmentHashMismatch (expected computed : id32)
| OutputsHashMismatch
| PlanHashMismatch
| RNoMatchingCommitment
| RRevealPhaseNotOpen
| RRevealPhaseClosed
| SolverNotActive
| SolverInsufficientBond
| IntentNotFound (i : id32)
| IntentExpired (i : id32)
| FeeExceedsMax (i : id32) (charged max : Z)
| OutputBelowMin (i : id32) (output min : Z)
| RTooManySteps (count max : Z)
| RDuplicateReveal.

(** [bincode::serialize] of the parts of a reveal; [None] when it fails. *)
Class BundleBincode := {
  encode_steps : list ExecutionStep → option bytes;
  encode_outputs : list PredictedOutput → option bytes;
  encode_fee : FeeBreakdown → option bytes }.
(** The encodings succeed and can be read back. *)
Class BundleBincodeLaws `{BundleBincode} : Prop := {
  encode_steps_total l : is_Some (encode_steps l);
  encode_outputs_total l : is_Some (encode_outputs l);
  encode_fee_total f : is_Some (encode_fee f);
  encode_steps_inj l l' : encode_steps l = encode_steps l' → l = l';
  encode_outputs_inj l l' : encode_outputs l = encode_outputs l' → l = l';
  encode_fee_inj f f' : encode_fee f = encode_fee f' → f = f' }.

Module BundleReveal.
Section reveal.
Context `{Sha256, BundleBincode}.
Implicit Types r : BundleReveal.

Definition steps_bytes r : bytes := default [] (encode_steps (execution_steps r)).
Definition outputs_bytes r : bytes := default [] (encode_outputs (predicted_outputs r)).
Definition fee_bytes r : bytes := default [] (encode_fee (fee_breakdown r)).
Definition commitment_preimage r : bytes :=
  be_bytes 32 (bundle_id r) ++ be_bytes 32 (solver_id r) ++
  steps_bytes r ++ outputs_bytes r ++ fee_bytes r ++ be_bytes 32 (r_nonce r).

(* @src src/poseq/src/auction/types.rs:190-205 BundleReveal::compute_commitment_hash *)
Definition compute_commitment_hash r : id32 := sha256 (commitment_preimage r).

(* @src src/poseq/src/auction/types.rs:208-214 BundleReveal::compute_expected_outputs_hash *)
Definition compute_expected_outputs_hash r : id32 := sha256 (outputs_bytes r).

(* @src src/poseq/src/auction/types.rs:217-223 BundleReveal::compute_execution_plan_hash *)
Definition compute_execution_plan_hash r : id32 := sha256 (steps_bytes r).

(* @src src/poseq/src/auction/types.rs:226-259 BundleReveal::verify_against_commitment *)
Definition verify_against_commitment r (c : BundleCommitment) : outcome RevealValidationError () :=
  if decide (bundle_id r ≠ c_bundle_id c) then Err BundleIdMismatch
  else if decide (solver_id r ≠ c_solver_id c) then Err SolverIdMismatch
  else if decide (batch_window r ≠ c_batch_window c) then Err BatchWindowMismatch
  else
    let computed := compute_commitment_hash r in
    if decide (computed ≠ commitment_hash c)
    then Err (CommitmentHashMismatch (commitment_hash c) computed)
    else if decide (compute_expected_outputs_hash r ≠ expected_outputs_hash c)
    then Err OutputsHashMismatch
    else if decide (compute_execution_plan_hash r ≠ execution_plan_hash c)
    then Err PlanHashMismatch
    else Ok tt.

(* @src src/poseq/src/auction/types.rs:262-267 BundleReveal::best_user_outcome *)
Definition best_user_outcome r : Z :=
  foldr Z.max 0 (user_outcome_score <$> predicted_outputs r).

(* @src src/poseq/src/auction/types.rs:270-274 BundleReveal::total_user_outcome *)
Definition total_user_outcome r : Z :=
  foldl (λ acc o, wrapu 128 (acc + user_outcome_score o)) 0 (predicted_outputs r).
End reveal.
End BundleReveal.

(* @src src/poseq/src/auction/types.rs:337-345 SequencedBundle *)
Record SequencedBundle : Type := mkSequenced {
  sb_bundle_id : id32;
  sb_solver_id : id32;
  sb_target_intent_ids : list id32;
  sb_execution_steps : list ExecutionStep;
  sb_predicted_outputs : list PredictedOutput;
  sb_resource_declarations : list ResourceAccess;
  sequence_index : Z }.

(** ** The auction window *)

(* @src src/poseq/src/auction/state.rs:15-24 AuctionPhase *)
Inductive AuctionPhase : Type := Commit | Reveal | Selection | Closed.
#[export] Instance AuctionPhase_eq_dec : EqDecision AuctionPhase.
Proof. solve_decision. Defined.

(* @src src/poseq/src/auction/state.rs:27-44 AuctionWindow *)
Record AuctionWindow : Type := mkWindow {
  w_batch_window : Z;
  commit_start_block : Z;
  reveal_start_block : Z;
  selection_block : Z;
  commitments : gmap Z BundleCommitment;
  solver_commitment_counts : gmap Z Z;
  reveals : gmap Z BundleReveal;
  committed_but_not_revealed : gset Z }.

(* @src src/poseq/src/auction/state.rs:196-202 NoRevealRecord *)
Record NoRevealRecord : Type := mkNoReveal {
  nr_bundle_id : id32;
  nr_solver_id : id32;
  nr_batch_window : Z;
  nr_bond_locked : Z;
  penalty_bps : Z }.

(* @src src/poseq/src/auction/state.rs:206-208 NoRevealRecord::penalty_amount *)
Definition penalty_amount (n : NoRevealRecord) : Z :=
  wrapu 128 (nr_bond_locked n * penalty_bps n) / 10000.

(* @src src/poseq/src/auction/state.rs:213-224 AuctionError *)
Inductive AuctionError : Type :=
| CommitPhaseEnded
| RevealPhaseNotStarted
| RevealPhaseClosed
| DuplicateCommitment (i : id32)
| DuplicateReveal (i : id32)
| NoMatchingCommitment (i : id32)
| MaxCommitmentsExceeded (solver : id32) (max : Z)
| TooManySteps (count max : Z)
| RevealValidation (e : RevealValidationError)
| WindowClosed.

Module AuctionWindow.
Section window.
Context `{Sha256, BundleBincode}.
Implicit Types w : AuctionWindow.

(* @src src/poseq/src/auction/state.rs:47-58 AuctionWindow::new *)
Definition new (batch_window start_block : Z) : AuctionWindow :=
  mkWindow batch_window start_block (wrapu 64 (start_block + COMMIT_PHASE_BLOCKS))
    (wrapu 64 (start_block + COMMIT_PHASE_BLOCKS + REVEAL_PHASE_BLOCKS)) ∅ ∅ ∅ ∅.

Definition set_counts (f : gmap Z Z → gmap Z Z) w : AuctionWindow :=
  mkWindow (w_batch_window w) (commit_start_block w) (reveal_start_block w) (selection_block w)
    (commitments w) (f (solver_commitment_counts w)) (reveals w) (committed_but_not_revealed w).
Definition set_commitments (f : gmap Z BundleCommitment → gmap Z BundleCommitment) w
  : AuctionWindow :=
  mkWindow (w_batch_window w) (commit_start_block w) (reveal_start_block w) (selection_block w)
    (f (commitments w)) (solver_commitment_counts w) (reveals w) (committed_but_not_revealed w).
Definition set_reveals (f : gmap Z BundleReveal → gmap Z BundleReveal) w : AuctionWindow :=
  mkWindow (w_batch_window w) (commit_start_block w) (reveal_start_block w) (selection_block w)
    (commitments w) (solver_commitment_counts w) (f (reveals w)) (committed_but_not_revealed w).
Definition set_unrevealed (s : gset Z) w : AuctionWindow :=
  mkWindow (w_batch_window w) (commit_start_block w) (reveal_start_block w) (selection_block w)
    (commitments w) (solver_commitment_counts w) (reveals w) s.

(* @src src/poseq/src/auction/state.rs:61-71 AuctionWindow::phase_at *)
Definition phase_at w (block : Z) : AuctionPhase :=
  if decide (block < reveal_start_block w) then Commit
  else if decide (block < selection_block w) then Reveal
  else if decide (block = selection_block w) then Selection
  else Closed.

(* @src src/poseq/src/auction/state.rs:74-98 AuctionWindow::record_commitment *)
Definition record_commitment (c : BundleCommitment) (current_block : Z)
  : M AuctionWindow AuctionError () := λ w,
  if decide (phase_at w current_block ≠ Commit) then (w, Err CommitPhaseEnded)
  else
    let count := entry_count (c_solver_id c) (solver_commitment_counts w) in
    let w := set_counts (touch (c_solver_id c)) w in
    if decide (MAX_COMMITMENTS_PER_SOLVER_PER_WINDOW ≤ count)
    then (w, Err (MaxCommitmentsExceeded (c_solver_id c) MAX_COMMITMENTS_PER_SOLVER_PER_WINDOW))
    else if decide (is_Some (commitments w !! c_bundle_id c))
    then (w, Err (DuplicateCommitment (c_bundle_id c)))
    else
      let w := set_commitments (<[c_bundle_id c := c]>) w in
      (set_counts (incr (c_solver_id c)) w, Ok tt).

(* @src src/poseq/src/auction/state.rs:102-136 AuctionWindow::record_reveal *)
Definition record_reveal (r : BundleReveal) (current_block : Z)
  : M AuctionWindow AuctionError () := λ w,
  let phase := phase_at w current_block in
  if decide (phase = Commit) then (w, Err RevealPhaseNotStarted)
  else if decide (phase ≠ Reveal) then (w, Err RevealPhaseClosed)
  else if decide (is_Some (reveals w !! bundle_id r)) then (w, Err (DuplicateReveal (bundle_id r)))
  else
    match commitments w !! bundle_id r with
    | None => (w, Err (NoMatchingCommitment (bundle_id r)))
    | Some c =>
        match BundleReveal.verify_against_commitment r c with
        | Err e => (w, Err (RevealValidation e))
        | Panic => (w, Panic)
        | Ok _ =>
            if decide (MAX_BUNDLE_STEPS < Z.of_nat (length (execution_steps r)))
            then (w, Err (TooManySteps (Z.of_nat (length (execution_steps r))) MAX_BUNDLE_STEPS))
            else (set_reveals (<[bundle_id r := r]>) w, Ok tt)
        end
    end.

(** The record pushed for a commitment without a reveal. *)
Definition no_reveal w (p : Z * BundleCommitment) : option NoRevealRecord :=
  if decide (is_Some (reveals w !! p.1)) then None
  else Some (mkNoReveal p.1 (c_solver_id p.2) (w_batch_window w) (bond_locked p.2)
    COMMIT_WITHOUT_REVEAL_PENALTY_BPS).

(* @src src/poseq/src/auction/state.rs:139-157 AuctionWindow::finalize_no_reveals *)
Definition finalize_no_reveals w : AuctionWindow * list NoRevealRecord :=
  let no_reveals := omap (no_reveal w) (btree_list (commitments w)) in
  (set_unrevealed (list_to_set (nr_solver_id <$> no_reveals)) w, no_reveals).

(* @src src/poseq/src/auction/state.rs:160-162 AuctionWindow::valid_reveals *)
Definition valid_reveals w : list BundleReveal := btree_values (reveals w).

(** The loop that files each reveal under each intent it targets. *)
Definition push_reveal (r : BundleReveal) (grouped : gmap Z (list BundleReveal)) (i : id32)
  : gmap Z (list BundleReveal) := <[i := default [] (grouped !! i) ++ [r]]> grouped.
Definition group_by_intent (l : list BundleReveal) : gmap Z (list BundleReveal) :=
  foldl (λ grouped r, foldl (push_reveal r) grouped (target_intent_ids r)) ∅ l.

(* @src src/poseq/src/auction/state.rs:165-173 AuctionWindow::reveals_by_intent *)
Definition reveals_by_intent w : gmap Z (list BundleReveal) := group_by_intent (valid_reveals w).

(* @src src/poseq/src/auction/state.rs:176-178 AuctionWindow::get_commitment *)
Definition get_commitment w (i : id32) : option BundleCommitment := commitments w !! i.
(* @src src/poseq/src/auction/state.rs:181-183 AuctionWindow::get_reveal *)
Definition get_reveal w (i : id32) : option BundleReveal := reveals w !! i.
(* @src src/poseq/src/auction/state.rs:185-187 AuctionWindow::commitment_count *)
Definition commitment_count w : nat := size (commitments w).
(* @src src/poseq/src/auction/state.rs:189-191 AuctionWindow::reveal_count *)
Definition reveal_count w : nat := size (reveals w).
End window.
End AuctionWindow.
Import BundleReveal AuctionWindow.

(** ** What a commitment binds *)

Section binding.
Context `{Sha256, BundleBincode}.
Implicit Types (r : BundleReveal) (c : BundleCommitment).

Lemma default_inj (o o' : option bytes) :
  is_Some o → is_Some o' → default [] o = default [] o' → o = o'.
Proof. intros [x ->] [x' ->]. cbn. congruence. Qed.

(** The strings hashed to check a reveal. *)
Definition reveal_preimages r : list bytes :=
  [commitment_preimage r; outputs_bytes r; steps_bytes r].
Definition reveal_fits r : Prop :=
  fits 256 (bundle_id r) ∧ fits 256 (solver_id r) ∧ fits 256 (r_nonce r).

Lemma verify_ok r c :
  verify_against_commitment r c = Ok tt ↔
  bundle_id r = c_bundle_id c ∧ solver_id r = c_solver_id c ∧ batch_window r = c_batch_window c ∧
  compute_commitment_hash r = commitment_hash c ∧
  compute_expected_outputs_hash r = expected_outputs_hash c ∧
  compute_execution_plan_hash r = execution_plan_hash c.
Proof.
  unfold verify_against_commitment. cbv zeta.
  repeat match goal with |- context [decide (?x ≠ ?y)] =>
    destruct (decide (x ≠ y)) as [|?%dec_stable]; [split; [done|tauto]|] end.
  tauto.
Qed.

(** Changes the parts of a reveal that no hash covers. *)
Definition with_uncovered (targets : list id32) (sources : list LiquiditySource)
    (declarations : list ResourceAccess) (proof sig : bytes) r : BundleReveal :=
  mkReveal (bundle_id r) (solver_id r) (batch_window r) targets (execution_steps r) sources
    (predicted_outputs r) (fee_breakdown r) declarations (r_nonce r) proof sig.

(** A commitment binds its solver: two reveals accepted for it, whose hashed
    strings do not collide, have the same bundle, solver, window, steps, outputs,
    fees and nonce.  The steps and outputs are hashed alone too, which is what
    makes the concatenation of encodings in the commitment hash unambiguous. *)
Theorem reveal_binding `{!BundleBincodeLaws} (c : BundleCommitment) (r r' : BundleReveal) :
  verify_against_commitment r c = Ok tt → verify_against_commitment r' c = Ok tt →
  reveal_fits r → reveal_fits r' → no_collision (reveal_preimages r) (reveal_preimages r') →
  bundle_id r = bundle_id r' ∧ solver_id r = solver_id r' ∧ batch_window r = batch_window r' ∧
  execution_steps r = execution_steps r' ∧ predicted_outputs r = predicted_outputs r' ∧
  fee_breakdown r = fee_breakdown r' ∧ r_nonce r = r_nonce r'.
Proof.
  intros (Eb & Es & Ew & Ec & Eo & Ep)%verify_ok (Eb' & Es' & Ew' & Ec' & Eo' & Ep')%verify_ok
    (Hb & Hs & Hn) (Hb' & Hs' & Hn') Hcol.
  assert (steps_bytes r = steps_bytes r') as Hsteps.
  { apply Hcol; [set_solver..|]. unfold compute_execution_plan_hash in *. congruence. }
  assert (outputs_bytes r = outputs_bytes r') as Houts.
  { apply Hcol; [set_solver..|]. unfold compute_expected_outputs_hash in *. congruence. }
  assert (commitment_preimage r = commitment_preimage r') as Hpre.
  { apply Hcol; [set_solver..|]. unfold compute_commitment_hash in *. congruence. }
  unfold commitment_preimage in Hpre. rewrite Hsteps, Houts, Eb, Eb', Es, Es' in Hpre.
  do 4 apply app_inv_head in Hpre.
  apply app_inj_2 in Hpre as [Hfee Hnonce]; [|by rewrite !be_bytes_length].
  apply be_bytes_inj in Hnonce; [|done..].
  split_and!; try congruence.
  - apply encode_steps_inj, default_inj; auto using encode_steps_total.
  - apply encode_outputs_inj, default_inj; auto using encode_outputs_total.
  - apply encode_fee_inj, default_inj; auto using encode_fee_total.
Qed.

(** What it leaves open: the targets, the sources, the declarations, the proof
    and the signature of a reveal can be replaced after the commitment without
    changing whether the reveal is accepted.  A solver can thus choose which
    intents to compete for after seeing the other reveals. *)
Theorem reveal_targets_unbound (r : BundleReveal) (targets : list id32)
    (sources : list LiquiditySource) (declarations : list ResourceAccess) (proof sig : bytes)
    (w : AuctionWindow) (block : Z) :
  let r' := with_uncovered targets sources declarations proof sig r in
  (record_reveal r' block w).2 = (record_reveal r block w).2 ∧
  ((record_reveal r block w).2 = Ok tt →
   get_reveal (record_reveal r' block w).1 (bundle_id r) = Some r').
Proof.
  intros r'. unfold record_reveal. change (bundle_id r') with (bundle_id r).
  change (execution_steps r') with (execution_steps r).
  repeat (case_decide; [done|]). destruct (commitments w !! bundle_id r) as [c|]; [|done].
  change (verify_against_commitment r' c) with (verify_against_commitment r c).
  destruct (verify_against_commitment r c); [|done..]. case_decide; [done|].
  split; [done|]. intros _. cbn. apply lookup_insert_eq.
Qed.
End binding.

(** ** Runs of a window *)

Inductive auction_op : Type :=
| TryCommit (c : BundleCommitment) (block : Z)
| TryReveal (r : BundleReveal) (block : Z)
| Finalize.

Inductive auction_event : Type :=
| Committed (c : BundleCommitment) (block : Z)
| Revealed (r : BundleReveal) (block : Z).

#[export] Instance auction_event_eq_dec : EqDecision auction_event.
Proof. solve_decision. Defined.

Section runs.
Context `{Sha256, BundleBincode}.
Implicit Types (w : AuctionWindow) (op : auction_op) (ev : auction_event).

(** One call: the window after it, and what it accepted. *)
Definition auction_step op w : AuctionWindow * list auction_event :=
  match op with
  | TryCommit c b =>
      let '(w', res) := record_commitment c b w in
      (w', match res with Ok _ => [Committed c b] | _ => [] end)
  | TryReveal r b =>
      let '(w', res) := record_reveal r b w in
      (w', match res with Ok _ => [Revealed r b] | _ => [] end)
  | Finalize => ((finalize_no_reveals w).1, [])
  end.
Fixpoint auction_run (ops : list auction_op) w : AuctionWindow * list auction_event :=
  match ops with
  | [] => (w, [])
  | op :: ops =>
      let '(w1, l) := auction_step op w in let '(w2, l') := auction_run ops w1 in (w2, l ++ l')
  end.

(** How many commitments a solver has. *)
Definition solver_count (s : id32) (m : gmap Z BundleCommitment) : nat :=
  size (filter (λ p, c_solver_id p.2 = s) m).

(** A window is consistent: commitments sit at their ids, the counts are those of
    the commitments and within the limit, and each reveal matches its commitment
    and has at most the allowed number of steps. *)
Record window_inv w : Prop := {
  wi_ids i c : commitments w !! i = Some c → c_bundle_id c = i;
  wi_counts s : entry_count s (solver_commitment_counts w) = Z.of_nat (solver_count s (commitments w));
  wi_limit s : Z.of_nat (solver_count s (commitments w)) ≤ MAX_COMMITMENTS_PER_SOLVER_PER_WINDOW;
  wi_reveals i r : reveals w !! i = Some r →
    bundle_id r = i ∧ Z.of_nat (length (execution_steps r)) ≤ MAX_BUNDLE_STEPS ∧
    ∃ c, commitments w !! i = Some c ∧ verify_against_commitment r c = Ok tt }.

(** What the accepted calls [l] did between two windows: each was in its phase,
    was new, and is in the maps, which hold nothing else. *)
Record auction_booked w (l : list auction_event) w' : Prop := {
  ab_phases : reveal_start_block w' = reveal_start_block w ∧ selection_block w' = selection_block w ∧
    w_batch_window w' = w_batch_window w;
  ab_commit_block c b : Committed c b ∈ l → b < reveal_start_block w;
  ab_reveal_block r b : Revealed r b ∈ l → reveal_start_block w ≤ b < selection_block w;
  ab_commits i c : commitments w' !! i = Some c ↔
    commitments w !! i = Some c ∨ (c_bundle_id c = i ∧ ∃ b, Committed c b ∈ l);
  ab_reveals i r : reveals w' !! i = Some r ↔
    reveals w !! i = Some r ∨ (bundle_id r = i ∧ ∃ b, Revealed r b ∈ l) }.

(** *** Lemmas *)

Lemma phase_commit w b : phase_at w b = Commit ↔ b < reveal_start_block w.
Proof. unfold phase_at. repeat case_decide; split; (done || lia). Qed.

Lemma phase_reveal w b : phase_at w b = Reveal ↔ reveal_start_block w ≤ b < selection_block w.
Proof. unfold phase_at. repeat case_decide; split; (done || lia). Qed.

Lemma solver_count_insert s c m :
  m !! c_bundle_id c = None →
  solver_count s (<[c_bundle_id c := c]> m) =
  ((if decide (c_solver_id c = s) then 1 else 0) + solver_count s m)%nat.
Proof.
  intros Hn. unfold solver_count. case_decide as E.
  - rewrite map_filter_insert_True by done.
    rewrite map_size_insert_None; [done|]. by apply map_lookup_filter_None_2; left.
  - rewrite map_filter_insert_not' by (cbn; congruence). done.
Qed.

(** A commitment: refused with at most an empty count added, or recorded. *)
Lemma record_commitment_cases c b w w' res :
  record_commitment c b w = (w', res) →
  ((∃ err, res = Err err) ∧ (w' = w ∨ w' = set_counts (touch (c_solver_id c)) w)) ∨
  (res = Ok tt ∧ b < reveal_start_block w ∧ commitments w !! c_bundle_id c = None ∧
   entry_count (c_solver_id c) (solver_commitment_counts w) < MAX_COMMITMENTS_PER_SOLVER_PER_WINDOW ∧
   w' = set_counts (incr (c_solver_id c)) (set_commitments (<[c_bundle_id c := c]>)
     (set_counts (touch (c_solver_id c)) w))).
Proof.
  unfold record_commitment. destruct (decide (_ ≠ Commit)) as [|Hp%dec_stable%phase_commit].
  { intros [= <- <-]. left. split; [by eexists|by left]. }
  case_decide as Hc. { intros [= <- <-]. left. split; [by eexists|by right]. }
  case_decide as Hd. { intros [= <- <-]. left. split; [by eexists|by right]. }
  intros [= <- <-]. right. apply eq_None_not_Some in Hd. split_and!; [done..|lia|done].
Qed.

(** A reveal: refused without a change, or recorded against its commitment. *)
Lemma record_reveal_cases r b w w' res :
  record_reveal r b w = (w', res) →
  ((∃ err, res = Err err) ∧ w' = w) ∨
  (res = Ok tt ∧ reveal_start_block w ≤ b < selection_block w ∧ reveals w !! bundle_id r = None ∧
   Z.of_nat (length (execution_steps r)) ≤ MAX_BUNDLE_STEPS ∧
   (∃ c, commitments w !! bundle_id r = Some c ∧ verify_against_commitment r c = Ok tt) ∧
   w' = set_reveals (<[bundle_id r := r]>) w).
Proof.
  unfold record_reveal. case_decide. { intros [= <- <-]. left. eauto. }
  destruct (decide (_ ≠ Reveal)) as [|Hp%dec_stable%phase_reveal].
  { intros [= <- <-]. left. eauto. }
  case_decide as Hd. { intros [= <- <-]. left. eauto. }
  destruct (commitments w !! bundle_id r) as [c|] eqn:Ec. 2: { intros [= <- <-]. left. eauto. }
  destruct (verify_against_commitment r c) as [[]|e|] eqn:Ev.
  2: { intros [= <- <-]. left. eauto. }
  2: { revert Ev. unfold verify_against_commitment. repeat case_decide; done. }
  case_decide as Hs. { intros [= <- <-]. left. eauto. }
  intros [= <- <-]. right. apply eq_None_not_Some in Hd. split_and!; [done|lia|lia|done|lia|eauto|done].
Qed.

Lemma new_window_inv bw start : window_inv (AuctionWindow.new bw start).
Proof.
  assert (∀ s, solver_count s ∅ = 0%nat) as Hz.
  { intros s. unfold solver_count. by rewrite map_filter_empty, map_size_empty. }
  split; cbn; [by intros i c ?%lookup_empty_Some| | |by intros i r ?%lookup_empty_Some].
  - intros s. unfold entry_count. by rewrite lookup_empty, Hz.
  - intros s. by rewrite Hz.
Qed.

Lemma booked_refl w : auction_booked w [] w.
Proof.
  split; [done|by intros ?? ?%elem_of_nil..| |].
  - intros i c. split; [by left|]. by intros [?|(_ & b & ?%elem_of_nil)].
  - intros i r. split; [by left|]. by intros [?|(_ & b & ?%elem_of_nil)].
Qed.

Lemma booked_trans w l w1 l' w2 :
  auction_booked w l w1 → auction_booked w1 l' w2 → auction_booked w (l ++ l') w2.
Proof.
  intros [(Er & Es & Ew) Hc Hr Hcs Hrs] [(Er' & Es' & Ew') Hc' Hr' Hcs' Hrs'].
  split; [split_and!; congruence| | | |].
  - intros c b [?|?]%elem_of_app; [eauto|]. rewrite <- Er. eauto.
  - intros r b [?|?]%elem_of_app; [eauto|]. rewrite <- Er, <- Es. eauto.
  - intros i c. rewrite Hcs', Hcs. setoid_rewrite elem_of_app. naive_solver.
  - intros i r. rewrite Hrs', Hrs. setoid_rewrite elem_of_app. naive_solver.
Qed.

(** Maps and phases kept, nothing accepted. *)
Lemma booked_same w w' :
  commitments w' = commitments w → reveals w' = reveals w →
  reveal_start_block w' = reveal_start_block w → selection_block w' = selection_block w →
  w_batch_window w' = w_batch_window w → auction_booked w [] w'.
Proof.
  intros Ec Er Es Esel Eb. destruct (booked_refl w) as [_ ? ? Hc Hr].
  split; [done..| |]; by rewrite ?Ec, ?Er.
Qed.

Lemma touch_inv k w : window_inv w → window_inv (set_counts (touch k) w).
Proof. intros [Hi Hc Hl Hr]. split; cbn; [done| |done..]. intros s. by rewrite entry_touch. Qed.

Lemma step_inv op w : window_inv w → window_inv (auction_step op w).1.
Proof.
  intros Hw. destruct op as [c b|r b|]; cbn [auction_step].
  - destruct (record_commitment c b w) as [w' res] eqn:E. cbn [fst].
    destruct (record_commitment_cases _ _ _ _ _ E) as [(_ & [->| ->])|(_ & _ & Hn & Hlim & ->)];
      [done|by apply touch_inv|].
    destruct Hw as [Hi Hc Hl Hr]. rewrite Hc in Hlim. split; cbn.
    + intros i c' [[<- <-]|[_ ?]]%lookup_insert_Some; [done|eauto].
    + intros s. rewrite (solver_count_insert s c (commitments w) Hn). unfold incr.
      rewrite entry_touch. unfold entry_count at 1. rewrite lookup_insert. case_decide as E1; cbn.
      * rewrite Hc, wrapu_id; [|unfold MAX_COMMITMENTS_PER_SOLVER_PER_WINDOW in Hlim; ints].
        rewrite E1. lia.
      * change (default 0 (touch (c_solver_id c) (solver_commitment_counts w) !! s)) with
          (entry_count s (touch (c_solver_id c) (solver_commitment_counts w))).
        by rewrite entry_touch, Hc.
    + intros s. rewrite (solver_count_insert s c (commitments w) Hn). specialize (Hl s).
      case_decide as E1; [|lia]. rewrite E1 in Hlim. lia.
    + intros i r Hri. destruct (Hr i r Hri) as (? & ? & c' & Hc' & ?). split_and!; [done..|].
      exists c'. split; [|done]. rewrite lookup_insert_ne; [done|]. intros <-. congruence.
  - destruct (record_reveal r b w) as [w' res] eqn:E. cbn [fst].
    destruct (record_reveal_cases _ _ _ _ _ E) as [(_ & ->)|(_ & _ & _ & Hs & Hc & ->)]; [done|].
    destruct Hw as [Hi Hcn Hl Hr]. split; cbn; [done..|].
    intros i r' [[<- <-]|[_ ?]]%lookup_insert_Some; [by split_and!|eauto].
  - by destruct Hw.
Qed.

Lemma step_booked op w : auction_booked w (auction_step op w).2 (auction_step op w).1.
Proof.
  destruct op as [c b|r b|]; cbn [auction_step].
  - destruct (record_commitment c b w) as [w' res] eqn:E. cbn [fst snd].
    destruct (record_commitment_cases _ _ _ _ _ E) as [((err & ->) & [->| ->])|(-> & Hb & Hn & _ & ->)];
      [by apply booked_same..|].
    split; cbn; [done| | | |].
    + by intros c' b' [= -> ->]%list_elem_of_singleton.
    + by intros r' b' [=]%list_elem_of_singleton.
    + intros i c'. rewrite lookup_insert_Some. setoid_rewrite list_elem_of_singleton. split.
      * intros [[<- <-]|[_ ?]]; [right; eauto|by left].
      * intros [Hc'|(<- & b' & [= -> ->])]; [|by left].
        right. split; [|done]. intros <-. congruence.
    + intros i r'. setoid_rewrite list_elem_of_singleton. naive_solver.
  - destruct (record_reveal r b w) as [w' res] eqn:E. cbn [fst snd].
    destruct (record_reveal_cases _ _ _ _ _ E) as [((err & ->) & ->)|(-> & Hb & Hn & _ & _ & ->)];
      [by apply booked_same|].
    split; cbn; [done| | | |].
    + by intros c' b' [=]%list_elem_of_singleton.
    + by intros r' b' [= -> ->]%list_elem_of_singleton.
    + intros i c'. setoid_rewrite list_elem_of_singleton. naive_solver.
    + intros i r'. rewrite lookup_insert_Some. setoid_rewrite list_elem_of_singleton. split.
      * intros [[<- <-]|[_ ?]]; [right; eauto|by left].
      * intros [Hc'|(<- & b' & [= -> ->])]; [|by left].
        right. split; [|done]. intros <-. congruence.
  - by apply booked_same.
Qed.

Lemma run_spec ops w :
  window_inv w →
  window_inv (auction_run ops w).1 ∧ auction_booked w (auction_run ops w).2 (auction_run ops w).1.
Proof.
  revert w. induction ops as [|op ops IH]; intros w Hw; [split; [done|apply booked_refl]|].
  cbn [auction_run]. pose proof (step_inv op w Hw) as Hw1. pose proof (step_booked op w) as Hb1.
  destruct (auction_step op w) as [w1 l1]. cbn [fst snd] in *.
  destruct (IH w1 Hw1) as [Hw2 Hb2]. destruct (auction_run ops w1) as [w2 l2].
  split; [done|by eapply booked_trans].
Qed.

(** ** Properties *)

(** C14: Over any sequence of calls on a new window, with heights in any order, the
    window stays consistent: every reveal in it matches the commitment of its id,
    and no solver has more than ten commitments.  What was accepted is in the maps
    and never replaced, and every accepted commitment was made at a lower height
    than every accepted reveal, so nobody commits after seeing a reveal. *)
Theorem auction_run_safe (ops : list auction_op) (bw start : Z) (w : AuctionWindow)
    (l : list auction_event) :
  auction_run ops (AuctionWindow.new bw start) = (w, l) →
  window_inv w ∧
  (∀ i c, get_commitment w i = Some c ↔ c_bundle_id c = i ∧ ∃ b, Committed c b ∈ l) ∧
  (∀ i r, get_reveal w i = Some r ↔ bundle_id r = i ∧ ∃ b, Revealed r b ∈ l) ∧
  (∀ c b r b', Committed c b ∈ l → Revealed r b' ∈ l → b < b').
Proof.
  intros E. destruct (run_spec ops _ (new_window_inv bw start)) as [Hw [_ Hc Hr Hcs Hrs]].
  rewrite E in *. cbn [fst snd] in *. split_and!; [done| | |].
  - intros i c. unfold get_commitment. rewrite Hcs. cbn. rewrite lookup_empty. naive_solver.
  - intros i r. unfold get_reveal. rewrite Hrs. cbn. rewrite lookup_empty. naive_solver.
  - intros c b r b' H1 H2. apply Hc in H1. apply Hr in H2. lia.
Qed.

Lemma no_reveal_some w p n :
  no_reveal w p = Some n ↔ reveals w !! p.1 = None ∧
  n = mkNoReveal p.1 (c_solver_id p.2) (w_batch_window w) (bond_locked p.2)
        COMMIT_WITHOUT_REVEAL_PENALTY_BPS.
Proof.
  unfold no_reveal. rewrite eq_None_not_Some. case_decide; naive_solver.
Qed.

Lemma omap_no_reveal_ids w l :
  sublist (nr_bundle_id <$> omap (no_reveal w) l) l.*1.
Proof.
  induction l as [|p l IH]; [constructor|]. cbn [omap list_omap fmap list_fmap].
  destruct (no_reveal w p) as [n|] eqn:E; [|by constructor].
  apply no_reveal_some in E as [_ ->]. by constructor.
Qed.

(** Closing a window reports exactly the commitments without a reveal, each once;
    the penalty of each is one percent of its bond, rounded down, as long as the
    product fits 128 bits. *)
Theorem no_reveals_exact (w : AuctionWindow) :
  let '(w', records) := finalize_no_reveals w in
  NoDup (nr_bundle_id <$> records) ∧
  committed_but_not_revealed w' = list_to_set (nr_solver_id <$> records) ∧
  (∀ n, n ∈ records ↔ ∃ c, get_commitment w (nr_bundle_id n) = Some c ∧
     get_reveal w (nr_bundle_id n) = None ∧
     n = mkNoReveal (nr_bundle_id n) (c_solver_id c) (w_batch_window w) (bond_locked c) 100) ∧
  (∀ n, n ∈ records → 0 ≤ nr_bond_locked n → nr_bond_locked n * 100 < 2 ^ 128 →
     penalty_amount n = nr_bond_locked n / 100).
Proof.
  unfold finalize_no_reveals, get_commitment, get_reveal.
  assert (∀ n, n ∈ omap (no_reveal w) (btree_list (commitments w)) ↔
    ∃ c, commitments w !! nr_bundle_id n = Some c ∧ reveals w !! nr_bundle_id n = None ∧
      n = mkNoReveal (nr_bundle_id n) (c_solver_id c) (w_batch_window w) (bond_locked c) 100) as Hin.
  { intros n. rewrite list_elem_of_omap. setoid_rewrite no_reveal_some. split.
    - intros ([i c] & Hi%elem_of_btree_list & Hr & ->). by exists c.
    - intros (c & Hc & Hr & En). exists (nr_bundle_id n, c).
      by rewrite elem_of_btree_list. }
  split_and!; [|done|done|].
  - by eapply sublist_NoDup, omap_no_reveal_ids; apply NoDup_btree_keys.
  - intros n (c & _ & _ & ->)%Hin. cbn. intros. unfold penalty_amount. cbn.
    rewrite wrapu_id by ints. change 10000 with (100 * 100).
    by rewrite Z.div_mul_cancel_r.
Qed.
End runs.

(** ** Sample runs *)

#[export] Instance AssetId_countable : Countable AssetId.
Proof.
  apply (inj_countable' (λ a, (chain_id a,
      match asset_type a with Native => 0 | Token => 1 | Object => 2 end, identifier a))
    (λ '(c, t, i), mkAsset c (if decide (t = 0) then Native else if decide (t = 1) then Token else Object) i)).
  by intros [? [] ?].
Defined.
Definition op_code (o : OperationType) : Z :=
  match o with
  | OpDebit => 0 | OpCredit => 1 | OpSwap => 2 | OpLock => 3 | OpUnlock => 4 | OpCreate => 5
  | OpDestroy => 6 | OpTransfer => 7 | OpContractCall => 8
  end.
Definition code_op (z : Z) : OperationType :=
  nth (Z.to_nat z) [OpDebit; OpCredit; OpSwap; OpLock; OpUnlock; OpCreate; OpDestroy; OpTransfer;
    OpContractCall] OpDebit.
#[export] Instance OperationParams_countable : Countable OperationParams.
Proof.
  apply (inj_countable' (λ p, (op_asset p, op_amount p, op_recipient p, op_pool_id p, custom_data p))
    (λ '(a, b, c, d, f), mkParams a b c d f)).
  by intros [].
Defined.
#[export] Instance ExecutionStep_countable : Countable ExecutionStep.
Proof.
  apply (inj_countable' (λ t, (step_index t, op_code (operation t), object_id t, read_set t,
      write_set t, params t)) (λ '(a, b, c, d, f, g), mkStep a (code_op b) c d f g)).
  by intros [? [] ? ? ? ?].
Defined.
#[export] Instance PredictedOutput_countable : Countable PredictedOutput.
Proof.
  apply (inj_countable' (λ o, (out_intent_id o, out_asset o, amount_out o, fee_charged_bps o))
    (λ '(a, b, c, d), mkOutput a b c d)).
  by intros [].
Defined.
#[export] Instance FeeBreakdown_countable : Countable FeeBreakdown.
Proof.
  apply (inj_countable' (λ f, (solver_fee_bps f, protocol_fee_bps f, total_fee_bps f))
    (λ '(a, b, c), mkFeeBreakdown a b c)).
  by intros [].
Defined.

Definition sample_bundle_bincode : BundleBincode := {|
  encode_steps l := Some [Zpos (countable.encode l)];
  encode_outputs l := Some [Zpos (countable.encode l)];
  encode_fee f := Some [Zpos (countable.encode f)] |}.
Lemma sample_bundle_laws : @BundleBincodeLaws sample_bundle_bincode.
Proof.
  split; [by eexists..| | |]; cbn; intros ? ? [= E]; by apply (inj countable.encode) in E.
Qed.

(** A bundle for the intents of [targets], and the commitment made for it. *)
Definition sample_reveal (bundle solver : Z) (targets : list id32) (out : Z) : BundleReveal :=
  mkReveal bundle solver 1 targets
    [mkStep 0 OpDebit 10 [10] [10] (mkParams (Some (AssetId.token 1)) (Some 1000) None None None)] []
    ((λ i, mkOutput i (AssetId.token 2) out 30) <$> targets) (mkFeeBreakdown 20 10 30) [] 77 [] [].
Definition commit_to `{Sha256, BundleBincode} (r : BundleReveal) : BundleCommitment :=
  mkCommitment (bundle_id r) (solver_id r) (batch_window r) (Z.of_nat (length (target_intent_ids r)))
    (compute_commitment_hash r) (compute_expected_outputs_hash r) (compute_execution_plan_hash r)
    200 5000 [].

Definition sample_r1 : BundleReveal := sample_reveal 1 7 [5] 950.
Definition sample_r2 : BundleReveal :=
  with_uncovered [5; 6] [] [ResourceAccess.write 3] [1] [2] sample_r1.
Abbreviation sample_commit := (@commit_to sample_sha256 sample_bundle_bincode).

Lemma reveal_binding_witness :
  @verify_against_commitment sample_sha256 sample_bundle_bincode sample_r2 (sample_commit sample_r1) = Ok tt ∧
  execution_steps sample_r1 = execution_steps sample_r2 ∧ r_nonce sample_r1 = r_nonce sample_r2.
Proof.
  split; [vm_compute; reflexivity|].
  destruct (@reveal_binding sample_sha256 sample_bundle_bincode sample_bundle_laws
    (sample_commit sample_r1) sample_r1 sample_r2) as (_ & _ & _ & Hs & _ & _ & Hn).
  - vm_compute. reflexivity.
  - vm_compute. reflexivity.
  - unfold reveal_fits. by_eval.
  - unfold reveal_fits. by_eval.
  - apply collision_free_sound. vm_compute. reflexivity.
  - exact (conj Hs Hn).
Defined.

(** Solver 7 commits and reveals, a commitment in the reveal phase is refused, and
    solver 8 does not reveal. *)
Definition sample_r3 : BundleReveal := sample_reveal 2 8 [5; 6] 900.
Definition sample_auction : list auction_op :=
  [TryCommit (sample_commit sample_r1) 100; TryCommit (sample_commit sample_r3) 101;
   TryReveal sample_r1 104; TryReveal sample_r2 105; TryCommit (sample_commit sample_r3) 106;
   TryReveal sample_r3 108; Finalize].
Abbreviation run_sample := (@auction_run sample_sha256 sample_bundle_bincode sample_auction
  (AuctionWindow.new 1 100)).

Lemma auction_run_safe_witness :
  reveal_count run_sample.1 = 1%nat ∧ commitment_count run_sample.1 = 2%nat ∧
  committed_but_not_revealed run_sample.1 = {[8]} ∧ 101 < 105.
Proof.
  split; [vm_compute; reflexivity|]. split; [vm_compute; reflexivity|].
  split; [vm_compute; reflexivity|].
  assert (Committed (sample_commit sample_r3) 101 ∈ run_sample.2) as H1.
  { apply (bool_decide_unpack _). vm_compute. exact I. }
  assert (Revealed sample_r2 105 ∈ run_sample.2) as H2.
  { apply (bool_decide_unpack _). vm_compute. exact I. }
  destruct run_sample as [w l] eqn:E.
  destruct (@auction_run_safe sample_sha256 sample_bundle_bincode sample_auction 1 100 w l E)
    as (_ & _ & _ & Ho).
  exact (Ho _ _ _ _ H1 H2).
Defined.
