(* ===== verification/Ordering.v ===== *)
(** * Ordering of the revealed bundles

    The intent-aware ordering of src/poseq/src/auction/ordering.rs: the reveals of
    a window are grouped by target intent, each intent takes its best bundle, and
    the winners are put in a canonical sequence; and the availability checks a
    validator makes on the sequence (src/poseq/src/auction/da_checks.rs).  The
    theorems say which bundles are sequenced and in which order, that the result
    does not depend on the order in which the reveals are given, and that an
    intent can be sequenced twice. *)

From stdpp Require Import gmap strings list sorting.
From S2P Require Import Prelude Sorting Concrete PoolTypes Auction.
Import BundleReveal AuctionWindow.

(** ** Ordering *)

(* @src src/poseq/src/auction/ordering.rs:14-18 IntentOrderingMeta *)
Record IntentOrderingMeta : Type := mkOrderingMeta {
  om_intent_id : id32;
  om_deadline : Z;
  om_tip : Z }.

(* @src src/poseq/src/auction/ordering.rs:22-33 IntentOrderingResult *)
Record IntentOrderingResult : Type := mkOrdering {
  ordered_bundles : list SequencedBundle;
  sequence_root : id32;
  total_intents_filled : Z;
  total_bundles_received : Z;
  total_bundles_valid : Z }.

Section ordering.
Context `{Sha256}.
Implicit Types (r : BundleReveal) (i : id32).

(* @src src/poseq/src/auction/ordering.rs:153-159 outcome_score_for_intent *)
Definition outcome_score_for_intent r i : Z :=
  foldr Z.max 0 (user_outcome_score <$> filter (λ o, out_intent_id o = i) (predicted_outputs r)).

Definition tiebreak_bytes (b i : id32) (batch_window : Z) : bytes :=
  be_bytes 32 b ++ be_bytes 32 i ++ be_bytes 8 batch_window.
(* @src src/poseq/src/auction/ordering.rs:162-171 tiebreak_key *)
Definition tiebreak_key (b i : id32) (batch_window : Z) : id32 :=
  sha256 (tiebreak_bytes b i batch_window).

(* @src src/poseq/src/auction/ordering.rs:174-182 canonical_sort_key *)
Definition canonical_sort_key i (batch_window : Z) : id32 :=
  sha256 (be_bytes 32 i ++ be_bytes 8 batch_window).

(* @src src/poseq/src/auction/ordering.rs:185-194 compute_sequence_root *)
Definition compute_sequence_root (bundles : list SequencedBundle) : id32 :=
  sha256 (concat ((λ b, be_bytes 32 (sb_bundle_id b)) <$> bundles)).

(* @src src/poseq/src/auction/ordering.rs:73-84 order_bundles_with_meta *)
Definition candidate_cmp (batch_window : Z) i (a b : BundleReveal) : comparison :=
  then_with (outcome_score_for_intent b i ?= outcome_score_for_intent a i)
    (tiebreak_key (bundle_id a) i batch_window ?= tiebreak_key (bundle_id b) i batch_window).

(** The map of winners; its loop is over the distinct keys of [grouped]. *)
(* @src src/poseq/src/auction/ordering.rs:69-89 order_bundles_with_meta *)
Definition select_winners (batch_window : Z) (grouped : gmap Z (list BundleReveal))
  : gmap Z BundleReveal :=
  map_imap (λ i candidates, head (sort_by (candidate_cmp batch_window i) candidates)) grouped.

(* @src src/poseq/src/auction/ordering.rs:92-98 order_bundles_with_meta *)
Fixpoint unique_winners (seen : gset Z) (l : list (Z * BundleReveal)) : list (Z * BundleReveal) :=
  match l with
  | [] => []
  | p :: l =>
      if decide (bundle_id p.2 ∈ seen) then unique_winners seen l
      else p :: unique_winners ({[bundle_id p.2]} ∪ seen) l
  end.

(** The deadline and tip an intent is sorted by; unknown intents go last. *)
Definition deadline_of (intent_meta : gmap Z IntentOrderingMeta) i : Z :=
  default u64_max (om_deadline <$> intent_meta !! i).
Definition tip_of (intent_meta : gmap Z IntentOrderingMeta) i : Z :=
  default 0 (om_tip <$> intent_meta !! i).

(* @src src/poseq/src/auction/ordering.rs:102-122 order_bundles_with_meta *)
Definition canonical_cmp (batch_window : Z) (intent_meta : gmap Z IntentOrderingMeta)
    (a b : Z * BundleReveal) : comparison :=
  then_with (deadline_of intent_meta a.1 ?= deadline_of intent_meta b.1)
    (then_with (tip_of intent_meta b.1 ?= tip_of intent_meta a.1)
      (canonical_sort_key a.1 batch_window ?= canonical_sort_key b.1 batch_window)).

(* @src src/poseq/src/auction/ordering.rs:128-136 order_bundles_with_meta *)
Definition sequence_bundle (k : nat) (p : Z * BundleReveal) : SequencedBundle :=
  mkSequenced (bundle_id p.2) (solver_id p.2) (target_intent_ids p.2) (execution_steps p.2)
    (predicted_outputs p.2) (resource_declarations p.2) (wrapu 32 (Z.of_nat k)).

(* @src src/poseq/src/auction/ordering.rs:51-150 order_bundles_with_meta *)
Definition order_bundles_with_meta (rs : list BundleReveal) (batch_window : Z)
    (intent_meta : gmap Z IntentOrderingMeta) : IntentOrderingResult :=
  let winners := select_winners batch_window (group_by_intent rs) in
  let ordered := imap sequence_bundle
    (sort_by (canonical_cmp batch_window intent_meta) (unique_winners ∅ (btree_list winners))) in
  mkOrdering ordered (compute_sequence_root ordered) (wrapu 32 (Z.of_nat (size winners)))
    (wrapu 32 (Z.of_nat (length rs))) (wrapu 32 (Z.of_nat (length rs))).

(* @src src/poseq/src/auction/ordering.rs:42-48 order_bundles *)
Definition order_bundles (rs : list BundleReveal) (batch_window : Z) : IntentOrderingResult :=
  order_bundles_with_meta rs batch_window ∅.
End ordering.

(** ** Data availability *)

(* @src src/poseq/src/auction/da_checks.rs:28-43 DAFailure *)
Inductive DAFailure : Type :=
| PayloadIncomplete
| CommitmentUnavailable (b : id32)
| IntentUnavailable (i : id32)
| InsufficientReplication (required actual : Z)
| CommitmentExpired (b : id32) (until current_block : Z)
| SolverInactive (b solver : id32)
| ZeroBondLocked (b : id32).

(* @src src/poseq/src/auction/da_checks.rs:11-14 DAValidationResult *)
Record DAValidationResult : Type := mkDA { passed : bool; failures : list DAFailure }.

Module DAValidationResult.
(* @src src/poseq/src/auction/da_checks.rs:17-19 DAValidationResult::success *)
Definition success : DAValidationResult := mkDA true [].
(* @src src/poseq/src/auction/da_checks.rs:21-23 DAValidationResult::failure *)
Definition failure (l : list DAFailure) : DAValidationResult := mkDA false l.
End DAValidationResult.

(** What the second check reports on a bundle. *)
(* @src src/poseq/src/auction/da_checks.rs:72-99 validate_da *)
Definition commitment_failures (available : gmap Z BundleCommitment) (active : gset Z)
    (current_block : Z) (b : SequencedBundle) : list DAFailure :=
  match available !! sb_bundle_id b with
  | None => [CommitmentUnavailable (sb_bundle_id b)]
  | Some c =>
      (if is_valid_at c current_block then []
       else [CommitmentExpired (sb_bundle_id b) (valid_until c) current_block]) ++
      (if decide (c_solver_id c ∈ active) then []
       else [SolverInactive (sb_bundle_id b) (c_solver_id c)]) ++
      (if decide (bond_locked c = 0) then [ZeroBondLocked (sb_bundle_id b)] else [])
  end.

(* @src src/poseq/src/auction/da_checks.rs:55-116 validate_da *)
Definition validate_da (bundles : list SequencedBundle) (available : gmap Z BundleCommitment)
    (known active : gset Z) (current_block : Z) (payload_is_complete : bool)
  : DAValidationResult :=
  let fs :=
    (if payload_is_complete then [] else [PayloadIncomplete]) ++
    (bundles ≫= commitment_failures available active current_block) ++
    (bundles ≫= λ b, IntentUnavailable <$> filter (λ i, i ∉ known) (sb_target_intent_ids b)) in
  if decide (length fs = 0%nat) then DAValidationResult.success else DAValidationResult.failure fs.

(* @src src/poseq/src/auction/da_checks.rs:120-123 DAFailureTracker *)
Record DAFailureTracker : Type := mkTracker { consecutive_failures : Z; threshold : Z }.

Module DAFailureTracker.
(* @src src/poseq/src/auction/da_checks.rs:126-128 DAFailureTracker::new *)
Definition new (t : Z) : DAFailureTracker := mkTracker 0 t.

(* @src src/poseq/src/auction/da_checks.rs:131-139 DAFailureTracker::record *)
Definition record (ok : bool) (t : DAFailureTracker) : DAFailureTracker * bool :=
  if ok then (mkTracker 0 (threshold t), false)
  else
    let n := wrapu 32 (consecutive_failures t + 1) in
    (mkTracker n (threshold t), bool_decide (threshold t ≤ n)).

(* @src src/poseq/src/auction/da_checks.rs:141-143 DAFailureTracker::should_force_epoch_transition *)
Definition should_force_epoch_transition (t : DAFailureTracker) : bool :=
  bool_decide (threshold t ≤ consecutive_failures t).
End DAFailureTracker.

(** ** Lemmas of the ordering *)

Section lemmas.
Context `{Sha256, BundleBincode}.
Implicit Types (r : BundleReveal) (rs : list BundleReveal) (i j : id32) (w : Z)
  (intent_meta : gmap Z IntentOrderingMeta).

Lemma candidate_no_later w i a b :
  no_later (candidate_cmp w i) a b ↔
  outcome_score_for_intent b i < outcome_score_for_intent a i ∨
  (outcome_score_for_intent b i = outcome_score_for_intent a i ∧
   tiebreak_key (bundle_id a) i w ≤ tiebreak_key (bundle_id b) i w).
Proof. unfold no_later, candidate_cmp. by rewrite then_with_compare. Qed.

(** The canonical order of two intents. *)
Definition goes_before w intent_meta i j : Prop :=
  deadline_of intent_meta i < deadline_of intent_meta j ∨
  (deadline_of intent_meta i = deadline_of intent_meta j ∧
   (tip_of intent_meta j < tip_of intent_meta i ∨
    (tip_of intent_meta j = tip_of intent_meta i ∧
     canonical_sort_key i w ≤ canonical_sort_key j w))).

Lemma canonical_no_later w intent_meta a b :
  no_later (canonical_cmp w intent_meta) a b ↔ goes_before w intent_meta a.1 b.1.
Proof. unfold no_later, canonical_cmp, goes_before. by rewrite !then_with_compare. Qed.

Lemma candidate_total w i a b : candidate_cmp w i a b = Gt → no_later (candidate_cmp w i) b a.
Proof. intros E%not_no_later. rewrite candidate_no_later in E |- *. lia. Qed.
Lemma candidate_trans w i a b c :
  no_later (candidate_cmp w i) a b → no_later (candidate_cmp w i) b c →
  no_later (candidate_cmp w i) a c.
Proof. rewrite !candidate_no_later. lia. Qed.
Lemma canonical_total w m a b : canonical_cmp w m a b = Gt → no_later (canonical_cmp w m) b a.
Proof. intros E%not_no_later. rewrite canonical_no_later in E |- *. unfold goes_before in *. lia. Qed.
Lemma canonical_trans w m a b c :
  no_later (canonical_cmp w m) a b → no_later (canonical_cmp w m) b c →
  no_later (canonical_cmp w m) a c.
Proof. rewrite !canonical_no_later. unfold goes_before. lia. Qed.

(** *** Grouping *)

(** The reveals filed under an intent, in order; one per mention. *)
Definition candidates_of i rs : list BundleReveal :=
  rs ≫= λ r, (λ _, r) <$> filter (λ j, j = i) (target_intent_ids r).
Definition some_list (l : list BundleReveal) : option (list BundleReveal) :=
  match l with [] => None | _ => Some l end.

Lemma candidates_elem i rs r : r ∈ candidates_of i rs ↔ r ∈ rs ∧ i ∈ target_intent_ids r.
Proof.
  unfold candidates_of. rewrite list_elem_of_bind. setoid_rewrite list_elem_of_fmap.
  setoid_rewrite list_elem_of_filter. split.
  - intros (r' & (j & -> & -> & ?) & ?). done.
  - intros [? ?]. exists r. split; [|done]. by exists i.
Qed.

Lemma push_lookup r i ts g l :
  g !! i = some_list l →
  foldl (push_reveal r) g ts !! i = some_list (l ++ ((λ _, r) <$> filter (λ j, j = i) ts)).
Proof.
  revert g l. induction ts as [|t ts IH]; intros g l Hg; [by rewrite app_nil_r|].
  cbn [foldl]. rewrite filter_cons. case_decide as E.
  - rewrite (IH _ (l ++ [r])); [by rewrite <- app_assoc|].
    unfold push_reveal. rewrite E, lookup_insert_eq, Hg. by destruct l.
  - apply IH. unfold push_reveal. by rewrite lookup_insert_ne.
Qed.

Lemma group_lookup rs i : group_by_intent rs !! i = some_list (candidates_of i rs).
Proof.
  unfold group_by_intent.
  assert (∀ g l, g !! i = some_list l →
    foldl (λ grouped r, foldl (push_reveal r) grouped (target_intent_ids r)) g rs !! i =
    some_list (l ++ candidates_of i rs)) as Hg; [|by rewrite (Hg ∅ [])].
  induction rs as [|r rs IH]; intros g l Hl; [by rewrite app_nil_r|]. cbn [foldl].
  rewrite (IH _ _ (push_lookup r i (target_intent_ids r) g l Hl)). by rewrite <- app_assoc.
Qed.

(** *** Winners *)

(** A bundle that no bundle for the same intent beats. *)
Record best_for rs w i r : Prop := {
  bf_in : r ∈ rs;
  bf_targets : i ∈ target_intent_ids r;
  bf_best r' : r' ∈ rs → i ∈ target_intent_ids r' →
    outcome_score_for_intent r' i < outcome_score_for_intent r i ∨
    (outcome_score_for_intent r' i = outcome_score_for_intent r i ∧
     tiebreak_key (bundle_id r) i w ≤ tiebreak_key (bundle_id r') i w) }.

Lemma winners_lookup rs w i :
  select_winners w (group_by_intent rs) !! i = head (sort_by (candidate_cmp w i) (candidates_of i rs)).
Proof.
  unfold select_winners. rewrite map_lookup_imap, group_lookup. by destruct (candidates_of i rs).
Qed.

Lemma winner_best rs w i r :
  select_winners w (group_by_intent rs) !! i = Some r → best_for rs w i r.
Proof.
  rewrite winners_lookup. intros Hh.
  apply (sort_by_head _ (candidate_total w i) (candidate_trans w i)) in Hh as [Hin Hmin].
  apply candidates_elem in Hin as [Hin Ht]. split; [done..|].
  intros r' Hin' Ht'. apply candidate_no_later, Hmin. by rewrite candidates_elem.
Qed.

Lemma winner_exists rs w i :
  is_Some (select_winners w (group_by_intent rs) !! i) ↔ ∃ r, r ∈ rs ∧ i ∈ target_intent_ids r.
Proof.
  split.
  - intros [r [Hin Ht _]%winner_best]. by exists r.
  - intros (r & Hr%candidates_elem). rewrite winners_lookup. apply sort_by_head_some.
    intros E. rewrite E in Hr. by apply elem_of_nil in Hr.
Qed.

Lemma unique_sublist seen l : sublist (unique_winners seen l) l.
Proof.
  revert seen. induction l as [|p l IH]; intros seen; [constructor|]. cbn.
  case_decide; by constructor.
Qed.

Lemma unique_fresh seen l p : p ∈ unique_winners seen l → bundle_id p.2 ∉ seen.
Proof.
  revert seen. induction l as [|q l IH]; intros seen; [by intros ?%elem_of_nil|]. cbn.
  case_decide; [by eauto|]. intros [->|Hp%IH]%elem_of_cons; [done|set_solver].
Qed.

Lemma unique_nodup seen l : NoDup ((λ p, bundle_id p.2) <$> unique_winners seen l).
Proof.
  revert seen. induction l as [|p l IH]; intros seen; [constructor|]. cbn.
  case_decide; [done|]. cbn. constructor; [|done].
  intros (q & E & Hq%unique_fresh)%list_elem_of_fmap. set_solver.
Qed.

(** Each entry keeps a representative, at or before it. *)
Lemma unique_covers seen l p :
  StronglySorted key_le l → p ∈ l → bundle_id p.2 ∉ seen →
  ∃ q, q ∈ unique_winners seen l ∧ bundle_id q.2 = bundle_id p.2 ∧ q.1 ≤ p.1.
Proof.
  intros Hs. revert seen. induction Hs as [|a l Hs IH Hall]; intros seen Hp Hn; [by apply elem_of_nil in Hp|].
  cbn. apply elem_of_cons in Hp as [->|Hp].
  - rewrite decide_False by done. exists a. split; [left|done].
  - case_decide; [by apply IH|]. destruct (decide (bundle_id p.2 = bundle_id a.2)) as [E|E].
    + exists a. split; [left|]. split; [done|]. by apply (proj1 (Forall_forall _ _) Hall).
    + destruct (IH ({[bundle_id a.2]} ∪ seen)) as (q & Hq & ?); [done|set_solver|].
      exists q. split; [by right|done].
Qed.

Lemma same_bundle rs r r' :
  NoDup (bundle_id <$> rs) → r ∈ rs → r' ∈ rs → bundle_id r = bundle_id r' → r = r'.
Proof. apply NoDup_key_inj. Qed.
End lemmas.

(** ** Properties *)

Section properties.
Context `{Sha256, BundleBincode}.
Implicit Types (r : BundleReveal) (rs : list BundleReveal) (i j : id32) (w : Z)
  (intent_meta : gmap Z IntentOrderingMeta).

(** The entries of the sequence, each an intent and the bundle placed for it. *)
Definition placed rs w intent_meta : list (id32 * BundleReveal) :=
  sort_by (canonical_cmp w intent_meta)
    (unique_winners ∅ (btree_list (select_winners w (group_by_intent rs)))).

Lemma placed_elem rs w intent_meta p :
  p ∈ placed rs w intent_meta →
  select_winners w (group_by_intent rs) !! p.1 = Some p.2.
Proof.
  unfold placed. rewrite sort_by_perm. intros Hp.
  apply (sublist_subseteq _ _ (unique_sublist _ _)) in Hp. destruct p. by apply elem_of_btree_list.
Qed.

Lemma placed_covers rs w intent_meta r i :
  NoDup (bundle_id <$> rs) → r ∈ rs → i ∈ target_intent_ids r →
  ∃ j r', (j, r') ∈ placed rs w intent_meta ∧
    select_winners w (group_by_intent rs) !! i = Some r' ∧ j ≤ i.
Proof.
  intros Hnd Hr Hi. destruct (proj2 (winner_exists rs w i)) as [r' Hw']; [by exists r|].
  destruct (unique_covers ∅ (btree_list (select_winners w (group_by_intent rs))) (i, r'))
    as ([j r''] & Hq & Eb & Hle); [apply btree_list_sorted|by apply elem_of_btree_list|set_solver|].
  exists j, r''. assert ((j, r'') ∈ placed rs w intent_meta) as Hp.
  { unfold placed. by rewrite sort_by_perm. }
  split; [done|]. split; [|done]. pose proof (winner_best _ _ _ _ (placed_elem _ _ _ _ Hp)) as Hb.
  apply winner_best in Hw' as Hb'. rewrite Hw'. f_equal. symmetry.
  by apply (same_bundle rs); [|apply Hb|apply Hb'|].
Qed.

(** C15: The sequence of a set of reveals with distinct bundle ids: it holds each bundle
    at most once, each won the intent it is placed for, every intent that some
    reveal targets has its best bundle in the sequence, and the bundles come in the
    canonical order of the intents they are placed for.  A bundle that won several
    intents is placed for the one of least id, whatever the deadlines of the
    others. *)
Theorem order_bundles_spec (rs : list BundleReveal) (w : Z)
    (intent_meta : gmap Z IntentOrderingMeta) :
  NoDup (bundle_id <$> rs) →
  ∃ placed : list (id32 * BundleReveal),
    ordered_bundles (order_bundles_with_meta rs w intent_meta) = imap sequence_bundle placed ∧
    NoDup ((λ p, bundle_id p.2) <$> placed) ∧
    (∀ i r, (i, r) ∈ placed → best_for rs w i r) ∧
    (∀ i r, r ∈ rs → i ∈ target_intent_ids r →
       ∃ j r', (j, r') ∈ placed ∧ best_for rs w i r' ∧ j ≤ i) ∧
    StronglySorted (goes_before w intent_meta) placed.*1.
Proof.
  intros Hnd. exists (placed rs w intent_meta). split; [done|]. split_and!.
  - unfold placed. rewrite sort_by_perm. apply unique_nodup.
  - intros i r Hp%placed_elem. by apply winner_best.
  - intros i r Hr Hi. destruct (placed_covers rs w intent_meta r i) as (j & r' & ? & ? & ?); [done..|].
    exists j, r'. split_and!; [done|by apply winner_best|done].
  - apply StronglySorted_fmap with (R1 := no_later (canonical_cmp w intent_meta)).
    + intros p q. by rewrite canonical_no_later.
    + apply sort_by_sorted; [apply canonical_total|apply canonical_trans].
Qed.

(** The strings hashed to break ties. *)
Definition tiebreak_preimages rs w : list bytes :=
  rs ≫= λ r, (λ i, tiebreak_bytes (bundle_id r) i w) <$> target_intent_ids r.

Lemma tiebreak_inj b b' i w :
  fits 256 b → fits 256 b' → tiebreak_bytes b i w = tiebreak_bytes b' i w → b = b'.
Proof. intros ?? E. by apply be_bytes_app_inj in E as [? _]. Qed.

Lemma tiebreak_preimage_elem rs w i r :
  r ∈ rs → i ∈ target_intent_ids r → tiebreak_bytes (bundle_id r) i w ∈ tiebreak_preimages rs w.
Proof.
  intros Hr Hi. apply list_elem_of_bind. exists r. split; [|done].
  by apply (list_elem_of_fmap_2 (λ j, tiebreak_bytes (bundle_id r) j w)).
Qed.

Lemma candidate_anti rs w i r r' :
  NoDup (bundle_id <$> rs) → Forall (λ r, fits 256 (bundle_id r)) rs →
  no_collision (tiebreak_preimages rs w) (tiebreak_preimages rs w) →
  r ∈ candidates_of i rs → r' ∈ candidates_of i rs →
  no_later (candidate_cmp w i) r r' → no_later (candidate_cmp w i) r' r → r = r'.
Proof.
  intros Hnd Hf Hcol (Hr & Hi)%candidates_elem (Hr' & Hi')%candidates_elem Hle Hle'.
  rewrite candidate_no_later in Hle, Hle'. rewrite Forall_forall in Hf.
  apply (same_bundle rs); [done..|]. apply (tiebreak_inj _ _ i w); [by apply Hf..|].
  apply Hcol; [by apply tiebreak_preimage_elem..|].
  change (tiebreak_key (bundle_id r) i w = tiebreak_key (bundle_id r') i w). lia.
Qed.

Lemma winners_perm rs rs' w :
  NoDup (bundle_id <$> rs) → Forall (λ r, fits 256 (bundle_id r)) rs →
  no_collision (tiebreak_preimages rs w) (tiebreak_preimages rs w) → rs ≡ₚ rs' →
  select_winners w (group_by_intent rs) = select_winners w (group_by_intent rs').
Proof.
  intros Hnd Hf Hcol Hp. apply map_eq. intros i. rewrite !winners_lookup.
  apply sort_by_head_perm; [apply candidate_total|apply candidate_trans| |].
  - intros r r' Hr Hr'. by apply (candidate_anti rs w i).
  - unfold candidates_of. by rewrite Hp.
Qed.

(** The ordering is a function of the set of reveals: given in any order, they
    yield the same sequence, root and counts, as long as the hashes that break
    ties do not collide. *)
Theorem order_deterministic (rs rs' : list BundleReveal) (w : Z)
    (intent_meta : gmap Z IntentOrderingMeta) :
  NoDup (bundle_id <$> rs) → Forall (λ r, fits 256 (bundle_id r)) rs →
  no_collision (tiebreak_preimages rs w) (tiebreak_preimages rs w) → rs ≡ₚ rs' →
  order_bundles_with_meta rs w intent_meta = order_bundles_with_meta rs' w intent_meta.
Proof.
  intros Hnd Hf Hcol Hp. unfold order_bundles_with_meta.
  by rewrite (winners_perm rs rs' w Hnd Hf Hcol Hp), (Permutation_length Hp).
Qed.

Lemma strict_best rs w i r r' :
  r ∈ rs → i ∈ target_intent_ids r →
  (∀ q, q ∈ rs → q ≠ r → i ∈ target_intent_ids q →
     outcome_score_for_intent q i < outcome_score_for_intent r i) →
  best_for rs w i r' → r' = r.
Proof.
  intros Hr Hi Hbest [Hin Ht Hb]. destruct (decide (r' = r)) as [|Hne]; [done|].
  specialize (Hb r Hr Hi). specialize (Hbest r' Hin Hne Ht). lia.
Qed.

(** An intent can be sequenced twice.  A winning bundle brings all its targets and
    steps into the sequence, those of intents it lost included: when it also
    targets an intent that another bundle won, both bundles are in the sequence
    with that intent. *)
Theorem intent_sequenced_twice (rs : list BundleReveal) (w : Z)
    (intent_meta : gmap Z IntentOrderingMeta) (r r' : BundleReveal) (i j : id32) :
  NoDup (bundle_id <$> rs) → r ∈ rs → r' ∈ rs → r ≠ r' →
  i ∈ target_intent_ids r → j ∈ target_intent_ids r → j ∈ target_intent_ids r' →
  (∀ q, q ∈ rs → q ≠ r → i ∈ target_intent_ids q →
     outcome_score_for_intent q i < outcome_score_for_intent r i) →
  (∀ q, q ∈ rs → q ≠ r' → j ∈ target_intent_ids q →
     outcome_score_for_intent q j < outcome_score_for_intent r' j) →
  ∃ sb sb', sb ∈ ordered_bundles (order_bundles_with_meta rs w intent_meta) ∧
    sb' ∈ ordered_bundles (order_bundles_with_meta rs w intent_meta) ∧
    sb_bundle_id sb = bundle_id r ∧ sb_bundle_id sb' = bundle_id r' ∧
    sb_bundle_id sb ≠ sb_bundle_id sb' ∧
    j ∈ sb_target_intent_ids sb ∧ j ∈ sb_target_intent_ids sb' ∧
    sb_execution_steps sb = execution_steps r ∧ sb_execution_steps sb' = execution_steps r'.
Proof.
  intros Hnd Hr Hr' Hne Hi Hj Hj' Hbest Hbest'.
  destruct (placed_covers rs w intent_meta r i) as (x & q & Hx & Hq%winner_best & _); [done..|].
  destruct (placed_covers rs w intent_meta r' j) as (x' & q' & Hx' & Hq'%winner_best & _); [done..|].
  apply strict_best with (r := r) in Hq as ->; [|done..].
  apply strict_best with (r := r') in Hq' as ->; [|done..].
  apply list_elem_of_lookup in Hx as [k Hk], Hx' as [k' Hk'].
  exists (sequence_bundle k (x, r)), (sequence_bundle k' (x', r')).
  assert (∀ n p, placed rs w intent_meta !! n = Some p →
    sequence_bundle n p ∈ ordered_bundles (order_bundles_with_meta rs w intent_meta)) as Hin.
  { intros n p Hn. apply list_elem_of_lookup. exists n.
    change (imap sequence_bundle (placed rs w intent_meta) !! n = Some (sequence_bundle n p)).
    by rewrite list_lookup_imap, Hn. }
  split_and!; try done; [by apply Hin..|]. cbn. intros E. destruct Hne. by apply (same_bundle rs).
Qed.

(** *** The composition with the window and the availability checks *)

Lemma valid_reveals_ids wd :
  window_inv wd → bundle_id <$> valid_reveals wd = btree_keys (reveals wd).
Proof.
  intros Hw. unfold valid_reveals, btree_values, btree_keys. rewrite <- list_fmap_compose.
  apply list_fmap_ext. intros k [i r] Hk. cbn.
  apply list_elem_of_lookup_2, elem_of_btree_list in Hk. by apply (wi_reveals _ Hw).
Qed.

Lemma ordered_elem rs w intent_meta sb :
  sb ∈ ordered_bundles (order_bundles_with_meta rs w intent_meta) →
  ∃ k i r, sb = sequence_bundle k (i, r) ∧ best_for rs w i r.
Proof.
  intros Hin. change (sb ∈ imap sequence_bundle (placed rs w intent_meta)) in Hin.
  apply elem_of_lookup_imap in Hin as (k & [i r] & -> & Hk).
  exists k, i, r. split; [done|]. apply winner_best, (placed_elem _ _ intent_meta (i, r)).
  by eapply list_elem_of_lookup_2.
Qed.

(** C16: The sequence of any run of a window is backed by its commitments: bundles are
    distinct, and each was committed in the window by its solver with these steps
    and outputs (by their hashes) and has at most 64 steps; so a validator who
    knows the commitments misses none. *)
Theorem sequenced_bundles_committed (ops : list auction_op) (bw start w : Z)
    (wd : AuctionWindow) (l : list auction_event) (intent_meta : gmap Z IntentOrderingMeta) :
  auction_run ops (AuctionWindow.new bw start) = (wd, l) →
  let sbs := ordered_bundles (order_bundles_with_meta (valid_reveals wd) w intent_meta) in
  (∀ sb, sb ∈ sbs → ∃ c, get_commitment wd (sb_bundle_id sb) = Some c ∧
     c_solver_id c = sb_solver_id sb ∧
     execution_plan_hash c = sha256 (default [] (encode_steps (sb_execution_steps sb))) ∧
     expected_outputs_hash c = sha256 (default [] (encode_outputs (sb_predicted_outputs sb))) ∧
     Z.of_nat (length (sb_execution_steps sb)) ≤ MAX_BUNDLE_STEPS) ∧
  ∀ known active block b,
    CommitmentUnavailable b ∉ failures (validate_da sbs (commitments wd) known active block true).
Proof.
  intros E. destruct (run_spec ops _ (new_window_inv bw start)) as [Hw _]. rewrite E in Hw. cbn in Hw.
  assert (∀ sb, sb ∈ ordered_bundles (order_bundles_with_meta (valid_reveals wd) w intent_meta) →
    ∃ i r c, sb_bundle_id sb = i ∧ sb_solver_id sb = solver_id r ∧
      sb_execution_steps sb = execution_steps r ∧ sb_predicted_outputs sb = predicted_outputs r ∧
      Z.of_nat (length (execution_steps r)) ≤ MAX_BUNDLE_STEPS ∧
      commitments wd !! i = Some c ∧ verify_against_commitment r c = Ok tt) as Hsb.
  { intros sb (k & i & r & -> & [Hr _ _])%ordered_elem.
    apply elem_of_btree_values in Hr as (b & Hb).
    destruct (wi_reveals _ Hw b r Hb) as (<- & Hlen & c & Hc & Hv). by exists (bundle_id r), r, c. }
  split.
  - intros sb (i & r & c & -> & -> & -> & -> & Hlen & Hc & (_ & Es & _ & _ & Eo & Ep)%verify_ok)%Hsb.
    by exists c.
  - intros known active block b. unfold validate_da. case_decide; [by intros ?%elem_of_nil|].
    cbn [failures DAValidationResult.failure app]. rewrite elem_of_app. intros [Hb|Hb].
    + apply list_elem_of_bind in Hb as (sb & Hb & (i & r & c & Hi & _ & _ & _ & _ & Hc & _)%Hsb).
      revert Hb. unfold commitment_failures. rewrite Hi, Hc.
      rewrite !elem_of_app. intros [Hb|[Hb|Hb]]; revert Hb; case_match; rewrite ?elem_of_nil; try done;
        by intros [=]%list_elem_of_singleton.
    + apply list_elem_of_bind in Hb as (sb & (i & [=] & _)%list_elem_of_fmap & _).
Qed.

Lemma bind_nil {A B} (f : A → list B) l : l ≫= f = [] ↔ ∀ x, x ∈ l → f x = [].
Proof.
  induction l as [|a l IH]; cbn; [split; [by intros _ x ?%elem_of_nil|done]|].
  rewrite app_nil, IH. setoid_rewrite elem_of_cons. naive_solver.
Qed.

(** The availability checks pass exactly for a complete payload whose bundles all
    have a commitment that is not expired, of an active solver and with a bond,
    and whose intents are all known; they compare no hash of the bundle. *)
Theorem validate_da_spec (bundles : list SequencedBundle) (available : gmap Z BundleCommitment)
    (known active : gset Z) (block : Z) (complete : bool) :
  let res := validate_da bundles available known active block complete in
  (passed res = true ↔ failures res = []) ∧
  (passed res = true ↔ complete = true ∧
     (∀ b, b ∈ bundles → ∃ c, available !! sb_bundle_id b = Some c ∧ block ≤ valid_until c ∧
        c_solver_id c ∈ active ∧ bond_locked c ≠ 0) ∧
     ∀ b i, b ∈ bundles → i ∈ sb_target_intent_ids b → i ∈ known).
Proof.
  assert (∀ b, commitment_failures available active block b = [] ↔
    ∃ c, available !! sb_bundle_id b = Some c ∧ block ≤ valid_until c ∧
      c_solver_id c ∈ active ∧ bond_locked c ≠ 0) as Hb.
  { intros b. unfold commitment_failures, is_valid_at. destruct (available !! _) as [c|]; [|naive_solver].
    repeat case_bool_decide; repeat case_decide; cbn; naive_solver. }
  assert (∀ b, (IntentUnavailable <$> filter (λ i, i ∉ known) (sb_target_intent_ids b)) = [] ↔
    ∀ i, i ∈ sb_target_intent_ids b → i ∈ known) as Hi.
  { intros b. induction (sb_target_intent_ids b) as [|i l IH];
      [split; [by intros _ i ?%elem_of_nil|done]|].
    rewrite filter_cons. setoid_rewrite elem_of_cons. case_decide as Hn; [|naive_solver].
    cbn. split; [done|]. intros Hall. destruct Hn. auto. }
  assert (∀ fs : list DAFailure,
    let res := if decide (length fs = 0%nat) then DAValidationResult.success
               else DAValidationResult.failure fs in
    (passed res = true ↔ failures res = []) ∧ (passed res = true ↔ fs = [])) as Hres.
  { intros fs res. unfold res. destruct fs; cbn; split; split; done. }
  unfold validate_da. cbv zeta. split; [apply Hres|].
  rewrite (proj2 (Hres _)), !app_nil, !bind_nil. setoid_rewrite Hb. setoid_rewrite Hi.
  destruct complete; naive_solver.
Qed.
End properties.

(** ** Sample runs *)

(** Bundle 1 for intents 5 and 6, bundle 2 for intent 6 with a better price. *)
Definition both_bundle : BundleReveal := sample_reveal 1 7 [5; 6] 950.
Definition better_bundle : BundleReveal := sample_reveal 2 8 [6] 990.
Definition sample_reveals : list BundleReveal := [both_bundle; better_bundle].
Definition sample_meta : gmap Z IntentOrderingMeta :=
  {[5 := mkOrderingMeta 5 100 0; 6 := mkOrderingMeta 6 50 0]}.
Abbreviation sample_order := (@order_bundles_with_meta sample_sha256 sample_reveals 1 sample_meta).

Lemma sample_reveals_ids : NoDup (bundle_id <$> sample_reveals).
Proof. by_decide. Qed.

Lemma order_bundles_spec_witness :
  (sb_bundle_id <$> ordered_bundles sample_order) = [2; 1] ∧
  ∃ placed : list (id32 * BundleReveal),
    ordered_bundles sample_order = imap sequence_bundle placed.
Proof.
  split; [vm_compute; reflexivity|].
  destruct (@order_bundles_spec sample_sha256 sample_reveals 1 sample_meta sample_reveals_ids)
    as (placed & Hp & _).
  exists placed. exact Hp.
Defined.

Lemma order_deterministic_witness :
  sample_order = @order_bundles_with_meta sample_sha256 (rev sample_reveals) 1 sample_meta.
Proof.
  apply (@order_deterministic sample_sha256).
  - exact sample_reveals_ids.
  - repeat constructor; by_eval.
  - apply collision_free_sound. vm_compute. reflexivity.
  - apply perm_swap.
Defined.

Lemma intent_sequenced_twice_witness :
  ∃ sb sb', sb ∈ ordered_bundles sample_order ∧ sb' ∈ ordered_bundles sample_order ∧
    sb_bundle_id sb ≠ sb_bundle_id sb' ∧
    6 ∈ sb_target_intent_ids sb ∧ 6 ∈ sb_target_intent_ids sb'.
Proof.
  destruct (@intent_sequenced_twice sample_sha256 sample_reveals 1 sample_meta both_bundle
    better_bundle 5 6) as (sb & sb' & H1 & H2 & _ & _ & Hne & H3 & H4 & _).
  - exact sample_reveals_ids.
  - left.
  - right. left.
  - intros E%(f_equal bundle_id). discriminate E.
  - left.
  - right. left.
  - left.
  - intros q [->|[->|Hq%elem_of_nil]%elem_of_cons]%elem_of_cons Hne Ht; [done| |done].
    apply list_elem_of_singleton in Ht. discriminate Ht.
  - intros q [->|[->|Hq%elem_of_nil]%elem_of_cons]%elem_of_cons Hne _; [|done|done].
    vm_compute. reflexivity.
  - exists sb, sb'. exact (conj H1 (conj H2 (conj Hne (conj H3 H4)))).
Defined.

Lemma sequenced_bundles_committed_witness :
  let sbs := ordered_bundles
    (@order_bundles_with_meta sample_sha256 (valid_reveals run_sample.1) 1 ∅) in
  (sb_bundle_id <$> sbs) = [1] ∧
  ∀ sb, sb ∈ sbs → is_Some (get_commitment run_sample.1 (sb_bundle_id sb)).
Proof.
  intros sbs. split; [vm_compute; reflexivity|]. unfold sbs.
  destruct run_sample as [wd l] eqn:E.
  destruct (@sequenced_bundles_committed sample_sha256 sample_bundle_bincode sample_auction 1 100 1
    wd l ∅ E) as [Hc _].
  intros sb Hsb. destruct (Hc sb Hsb) as (c & Hc' & _). exists c. exact Hc'.
Defined.
