(* ===== verification/Finality.v ===== *)
(** * Finality of batches

    The finality state machine and its store (src/poseq/src/finality/mod.rs), the
    commitment validators vote on (finality/commitment.rs), and the checks they
    make before voting (finality/validator_checks.rs).  The theorems say what the
    history of a batch can be, which states an acknowledged batch went through,
    that every batch can be brought to an end, what a commitment root binds, and
    what the checks leave unverified. *)

From stdpp Require Import gmap strings list sorting pretty.
From S2P Require Import Prelude Concrete PoolTypes Auction Ordering.
Import BundleReveal AuctionWindow.

(** ** The state machine *)

(* @src src/poseq/src/finality/mod.rs:16-28 FinalityState *)
Inductive FinalityState : Type :=
| Proposed | Attested | QuorumReached | Finalized | RuntimeDelivered | RuntimeAcknowledged
| RuntimeRejected | Superseded | Invalidated | DisputedPlaceholder | Recovered.
#[export] Instance FinalityState_eq_dec : EqDecision FinalityState.
Proof. solve_decision. Defined.

Module FinalityState.
(* @src src/poseq/src/finality/mod.rs:38-61 FinalityState::can_transition_to *)
Definition can_transition_to (s next : FinalityState) : bool :=
  match s, next with
  | Proposed, (Attested | Superseded | Invalidated)
  | Attested, (QuorumReached | Superseded | Invalidated)
  | QuorumReached, (Finalized | Invalidated)
  | Finalized, (RuntimeDelivered | DisputedPlaceholder)
  | RuntimeDelivered, (RuntimeAcknowledged | RuntimeRejected | Recovered)
  | RuntimeRejected, (Recovered | DisputedPlaceholder)
  | DisputedPlaceholder, (Recovered | Invalidated)
  | Recovered, RuntimeDelivered => true
  | _, _ => false
  end.

(* @src src/poseq/src/finality/mod.rs:63-66 FinalityState::is_terminal *)
Definition is_terminal (s : FinalityState) : bool :=
  match s with RuntimeAcknowledged | Superseded | Invalidated => true | _ => false end.
End FinalityState.
Import FinalityState.

(* @src src/poseq/src/finality/mod.rs:74-81 FinalityStateError *)
Inductive FinalityStateError : Type :=
| IllegalTransition (from to : FinalityState)
| AlreadyTerminal (s : FinalityState)
| BatchNotFound (b : id32).

(* @src src/poseq/src/finality/mod.rs:94-99 FinalityTransitionRecord *)
Record FinalityTransitionRecord : Type := mkRecord {
  from : FinalityState;
  to : FinalityState;
  reason : string;
  timestamp_seq : Z }.

(* @src src/poseq/src/finality/mod.rs:106-112 BatchFinalityStatus *)
Record BatchFinalityStatus : Type := mkStatus {
  st_batch_id : id32;
  current_state : FinalityState;
  epoch : Z;
  slot : Z;
  transitions : list FinalityTransitionRecord }.

Module BatchFinalityStatus.
(* @src src/poseq/src/finality/mod.rs:115-123 BatchFinalityStatus::new *)
Definition new (b : id32) (epoch slot : Z) : BatchFinalityStatus := mkStatus b Proposed epoch slot [].

(** The checks and the record of a transition stamped [seq]. *)
(* @src src/poseq/src/finality/mod.rs:130-149 BatchFinalityStatus::transition *)
Definition transition_at (seq : Z) (next : FinalityState) (why : string)
  : M BatchFinalityStatus FinalityStateError () := λ s,
  if is_terminal (current_state s) then (s, Err (AlreadyTerminal (current_state s)))
  else if negb (can_transition_to (current_state s) next)
  then (s, Err (IllegalTransition (current_state s) next))
  else
    (mkStatus (st_batch_id s) next (epoch s) (slot s)
       (transitions s ++ [mkRecord (current_state s) next why seq]), Ok tt).

(* @src src/poseq/src/finality/mod.rs:125-150 BatchFinalityStatus::transition *)
Definition transition (next : FinalityState) (why : string)
  : M BatchFinalityStatus FinalityStateError () := λ s,
  transition_at (Z.of_nat (length (transitions s))) next why s.
End BatchFinalityStatus.

(* @src src/poseq/src/finality/mod.rs:158-167 FinalityGuaranteeLevel *)
Inductive FinalityGuaranteeLevel : Type :=
| Tentative | WeakFinality | StrongFinality | Delivered | RecoveryPending | Acknowledged.

(* @src src/poseq/src/finality/mod.rs:174-179 FinalityCheckpoint *)
Record FinalityCheckpoint : Type := mkCheckpoint {
  cp_epoch : Z;
  last_finalized_batch_id : id32;
  last_finalized_slot : Z;
  checkpoint_hash : id32 }.

(* @src src/poseq/src/finality/mod.rs:182-194 FinalityCheckpoint::compute *)
Definition compute_checkpoint `{Sha256} (epoch : Z) (b : id32) (slot : Z) : FinalityCheckpoint :=
  mkCheckpoint epoch b slot (sha256 (le_bytes 8 epoch ++ be_bytes 32 b ++ le_bytes 8 slot)).

(* @src src/poseq/src/finality/mod.rs:201-204 FinalityStore *)
Record FinalityStore : Type := mkFinalityStore {
  statuses : gmap Z BatchFinalityStatus;
  seq : Z }.

Module FinalityStore.
(* @src src/poseq/src/finality/mod.rs:207-212 FinalityStore::new *)
Definition new : FinalityStore := mkFinalityStore ∅ 0.

(* @src src/poseq/src/finality/mod.rs:214-217 FinalityStore::init_batch *)
Definition init_batch (b : id32) (epoch slot : Z) (fs : FinalityStore) : FinalityStore :=
  mkFinalityStore (<[b := BatchFinalityStatus.new b epoch slot]> (statuses fs)) (seq fs).

(* @src src/poseq/src/finality/mod.rs:219-252 FinalityStore::transition *)
Definition transition (b : id32) (next : FinalityState) (why : string)
  : M FinalityStore FinalityStateError () := λ fs,
  let n := seq fs in
  let m := statuses fs in
  let seq' := wrapu 64 (n + 1) in
  match m !! b with
  | None => (mkFinalityStore m seq', Err (BatchNotFound b))
  | Some s =>
      let '(s', res) := BatchFinalityStatus.transition_at n next why s in
      (mkFinalityStore (<[b := s']> m) seq', res)
  end.

(* @src src/poseq/src/finality/mod.rs:254-256 FinalityStore::get *)
Definition get (fs : FinalityStore) (b : id32) : option BatchFinalityStatus := statuses fs !! b.

(* @src src/poseq/src/finality/mod.rs:258-275 FinalityStore::guarantee_level *)
Definition guarantee_level (fs : FinalityStore) (b : id32) : option FinalityGuaranteeLevel :=
  (λ s, match current_state s with
        | Proposed => Tentative
        | Attested => WeakFinality
        | QuorumReached | Finalized => StrongFinality
        | RuntimeDelivered | RuntimeRejected => Delivered
        | Recovered => RecoveryPending
        | RuntimeAcknowledged => Acknowledged
        | _ => Tentative
        end) <$> statuses fs !! b.

(* @src src/poseq/src/finality/mod.rs:277-283 FinalityStore::all_in_state *)
Definition all_in_state (fs : FinalityStore) (s : FinalityState) : list id32 :=
  (filter (λ p, current_state p.2 = s) (btree_list (statuses fs))).*1.

(** Counts for the checkpoint of an epoch. *)
Definition in_checkpoint (e : Z) (s : BatchFinalityStatus) : bool :=
  bool_decide (epoch s = e) &&
  match current_state s with Finalized | RuntimeDelivered | RuntimeAcknowledged => true | _ => false end.

(** [max_by_key]: the last of the greatest. *)
Fixpoint max_by_slot (l : list BatchFinalityStatus) : option BatchFinalityStatus :=
  match l with
  | [] => None
  | s :: l =>
      match max_by_slot l with
      | Some m => if decide (slot s ≤ slot m) then Some m else Some s
      | None => Some s
      end
  end.

(* @src src/poseq/src/finality/mod.rs:286-312 FinalityStore::checkpoint *)
Definition checkpoint `{Sha256} (fs : FinalityStore) (e : Z) : option FinalityCheckpoint :=
  let finalized := filter (λ s, in_checkpoint e s = true) (btree_values (statuses fs)) in
  best ← max_by_slot finalized;
  Some (compute_checkpoint e (st_batch_id best) (slot best)).
End FinalityStore.
Import FinalityStore.

(** ** The commitment *)

(* @src src/poseq/src/finality/commitment.rs:15-34 FinalityCommitment *)
Record FinalityCommitment : Type := mkFinality {
  sequence_id : Z;
  ordered_bundle_ids : list id32;
  intent_ids : list id32;
  ordering_root : id32;
  bundle_root : id32;
  fairness_root : id32;
  previous_commitment : id32;
  proposer : id32;
  timestamp : Z }.

(* @src src/poseq/src/finality/commitment.rs:92-103 CommitmentVerificationError *)
Inductive CommitmentVerificationError : Type :=
| OrderingRootMismatch (expected actual : id32)
| BundleRootMismatch (expected actual : id32)
| FairnessRootMismatch (expected actual : id32)
| MissingBundle (b : id32)
| MissingIntent (i : id32)
| DuplicateBundle (b : id32)
| DACheckFailed (msg : string)
| InvalidPreviousCommitment
| SequenceGap (expected actual : Z)
| InvalidProposer (p : id32).

Module FinalityCommitment.
Section commitment.
Context `{Sha256}.

Definition root_preimage (f : FinalityCommitment) : bytes :=
  be_bytes 8 (sequence_id f) ++ be_bytes 32 (ordering_root f) ++ be_bytes 32 (bundle_root f) ++
  be_bytes 32 (fairness_root f) ++ be_bytes 32 (previous_commitment f).
(* @src src/poseq/src/finality/commitment.rs:42-53 FinalityCommitment::commitment_root *)
Definition commitment_root (f : FinalityCommitment) : id32 := sha256 (root_preimage f).

(* @src src/poseq/src/finality/commitment.rs:58-67 FinalityCommitment::compute_bundle_root *)
Definition compute_bundle_root (hashes : list id32) : id32 :=
  sha256 (concat (be_bytes 32 <$> hashes)).

(* @src src/poseq/src/finality/commitment.rs:70-88 FinalityCommitment::verify_roots *)
Definition verify_roots (f : FinalityCommitment) (expected_ordering expected_bundle : id32)
  : outcome CommitmentVerificationError () :=
  if decide (ordering_root f ≠ expected_ordering)
  then Err (OrderingRootMismatch expected_ordering (ordering_root f))
  else if decide (bundle_root f ≠ expected_bundle)
  then Err (BundleRootMismatch expected_bundle (bundle_root f))
  else Ok tt.
End commitment.
End FinalityCommitment.
Import FinalityCommitment.

(** ** The checks before a vote *)

(** The derived [Debug] text of an id and of a failure. *)
Definition debug_id (i : id32) : string :=
  ("[" +:+ String.concat ", " (pretty <$> be_bytes 32 i) +:+ "]")%string.
Definition debug_failure (f : DAFailure) : string :=
  match f with
  | PayloadIncomplete => "PayloadIncomplete"
  | CommitmentUnavailable b => "CommitmentUnavailable { bundle_id: " +:+ debug_id b +:+ " }"
  | IntentUnavailable i => "IntentUnavailable { intent_id: " +:+ debug_id i +:+ " }"
  | InsufficientReplication r a =>
      "InsufficientReplication { required: " +:+ pretty r +:+ ", actual: " +:+ pretty a +:+ " }"
  | CommitmentExpired b u c =>
      "CommitmentExpired { bundle_id: " +:+ debug_id b +:+ ", valid_until: " +:+ pretty u +:+
      ", current_block: " +:+ pretty c +:+ " }"
  | SolverInactive b s =>
      "SolverInactive { bundle_id: " +:+ debug_id b +:+ ", solver_id: " +:+ debug_id s +:+ " }"
  | ZeroBondLocked b => "ZeroBondLocked { bundle_id: " +:+ debug_id b +:+ " }"
  end%string.

(* @src src/poseq/src/finality/validator_checks.rs:37-42 verify_commitment *)
Fixpoint check_duplicates (seen : gset Z) (ids : list id32)
  : outcome CommitmentVerificationError () :=
  match ids with
  | [] => Ok tt
  | i :: ids =>
      if decide (i ∈ seen) then Err (DuplicateBundle i) else check_duplicates ({[i]} ∪ seen) ids
  end.

(** What a validator checks a commitment against. *)
Record ValidatorView : Type := mkView {
  available_commitments : gmap Z BundleCommitment;
  known_intent_ids : gset Z;
  active_solver_ids : gset Z;
  known_validators : gset Z;
  expected_fairness_root : id32;
  previous_commitment_root : option id32;
  expected_sequence_id : Z;
  current_block : Z }.

(** [if cond { return Err(e) }] *)
Definition refuse_if (P : Prop) `{Decision P} (e : CommitmentVerificationError)
  : outcome CommitmentVerificationError () := if decide P then Err e else Ok tt.

(* @src src/poseq/src/finality/validator_checks.rs:24-118 verify_commitment *)
Definition verify_commitment `{Sha256} (f : FinalityCommitment) (bundles : list SequencedBundle)
    (v : ValidatorView) : outcome CommitmentVerificationError () :=
  check_duplicates ∅ (ordered_bundle_ids f) ≫= λ _,
  let recomputed_ordering_root := compute_sequence_root bundles in
  refuse_if (ordering_root f ≠ recomputed_ordering_root)
    (OrderingRootMismatch recomputed_ordering_root (ordering_root f)) ≫= λ _,
  let commitment_hashes :=
    omap (λ b, commitment_hash <$> available_commitments v !! b) (ordered_bundle_ids f) in
  let recomputed_bundle_root := compute_bundle_root commitment_hashes in
  refuse_if (bundle_root f ≠ recomputed_bundle_root)
    (BundleRootMismatch recomputed_bundle_root (bundle_root f)) ≫= λ _,
  refuse_if (fairness_root f ≠ expected_fairness_root v)
    (FairnessRootMismatch (expected_fairness_root v) (fairness_root f)) ≫= λ _,
  ofor (λ i, refuse_if (i ∉ known_intent_ids v) (MissingIntent i)) (intent_ids f) ≫= λ _,
  let da := validate_da bundles (available_commitments v) (known_intent_ids v)
              (active_solver_ids v) (current_block v) true in
  refuse_if (passed da = false) (DACheckFailed (String.concat "; " (debug_failure <$> failures da)))
    ≫= λ _,
  refuse_if (sequence_id f ≠ expected_sequence_id v)
    (SequenceGap (expected_sequence_id v) (sequence_id f)) ≫= λ _,
  match previous_commitment_root v with
  | Some prev => refuse_if (previous_commitment f ≠ prev) InvalidPreviousCommitment
  | None => Ok tt
  end ≫= λ _,
  refuse_if (proposer f ∉ known_validators v) (InvalidProposer (proposer f)).

(** ** Runs of the store *)

Inductive finality_op : Type :=
| Init (b : id32) (e s : Z)
| Move (b : id32) (next : FinalityState) (why : string).

Definition finality_step (fs : FinalityStore) (op : finality_op) : FinalityStore :=
  match op with
  | Init b e s => init_batch b e s fs
  | Move b next why => (transition b next why fs).1
  end.
Definition finality_run (ops : list finality_op) : FinalityStore :=
  foldl finality_step FinalityStore.new ops.

(** A history of records that leads from one state to another by legal steps. *)
Fixpoint legal_history (s : FinalityState) (h : list FinalityTransitionRecord) (t : FinalityState)
  : Prop :=
  match h with
  | [] => s = t
  | r :: h => from r = s ∧ is_terminal s = false ∧ can_transition_to s (to r) = true ∧
      legal_history (to r) h t
  end.

(** What the history of a batch looks like, by the state it is in. *)
Definition history_shape (s : FinalityState) (visited : list FinalityState) : Prop :=
  match s with
  | Proposed => visited = []
  | Attested => visited = [Attested]
  | QuorumReached => visited = [Attested; QuorumReached]
  | Superseded | Invalidated => True
  | RuntimeAcknowledged => ∃ l, visited =
      [Attested; QuorumReached; Finalized] ++ l ++ [RuntimeDelivered; RuntimeAcknowledged]
  | RuntimeDelivered => ∃ l, visited = [Attested; QuorumReached; Finalized] ++ l ++ [RuntimeDelivered]
  | _ => take 3 visited = [Attested; QuorumReached; Finalized]
  end.

Section store.
Implicit Types (fs : FinalityStore) (s : BatchFinalityStatus) (b : id32).

Record status_inv b (n : Z) s : Prop := {
  si_id : st_batch_id s = b;
  si_legal : legal_history Proposed (transitions s) (current_state s);
  si_stamps : StronglySorted Z.lt (timestamp_seq <$> transitions s);
  si_below : Forall (λ r, timestamp_seq r < n) (transitions s) }.

Lemma legal_snoc (s0 : FinalityState) h (s : FinalityState) r :
  legal_history s0 h s → from r = s → is_terminal s = false →
  can_transition_to s (to r) = true → legal_history s0 (h ++ [r]) (to r).
Proof.
  revert s0. induction h as [|q h IH]; intros s0; cbn.
  - by intros -> -> ??.
  - intros (? & ? & ? & Hh) ???. split_and!; [done..|by apply IH].
Qed.

Lemma transition_at_cases n next why s s' r :
  BatchFinalityStatus.transition_at n next why s = (s', r) →
  (s' = s ∧ ∃ e, r = Err e) ∨
  (r = Ok tt ∧ is_terminal (current_state s) = false ∧
   can_transition_to (current_state s) next = true ∧
   s' = mkStatus (st_batch_id s) next (epoch s) (slot s)
          (transitions s ++ [mkRecord (current_state s) next why n])).
Proof.
  unfold BatchFinalityStatus.transition_at. destruct (is_terminal _); [intros [= <- <-]; left; eauto|].
  destruct (can_transition_to _ _); cbn; intros [= <- <-]; [by right|left; eauto].
Qed.

Lemma sorted_snoc l (z : Z) :
  StronglySorted Z.lt l → Forall (λ x, x < z) l → StronglySorted Z.lt (l ++ [z]).
Proof.
  induction 1 as [|x l Hs IH Hall]; intros Hz; cbn; [by repeat constructor|].
  apply Forall_cons in Hz as [Hx Hz]. constructor; [by apply IH|].
  apply Forall_app. split; [done|]. by repeat constructor.
Qed.

Lemma status_step b n next why s :
  status_inv b n s → status_inv b (n + 1) (BatchFinalityStatus.transition_at n next why s).1.
Proof.
  intros [Hi Hl Ht Hb]. destruct (BatchFinalityStatus.transition_at n next why s) as [s' r] eqn:E.
  assert (Forall (λ r, timestamp_seq r < n + 1) (transitions s)) as Hb'.
  { eapply Forall_impl; [exact Hb|]. cbn. lia. }
  destruct (transition_at_cases _ _ _ _ _ _ E) as [(-> & _)|(_ & Hterm & Hcan & ->)]; [done|].
  split; cbn; [done| | |].
  - by apply (legal_snoc Proposed (transitions s) (current_state s) (mkRecord (current_state s) next why n)).
  - rewrite fmap_app. apply sorted_snoc; [done|]. by apply Forall_fmap.
  - apply Forall_app. split; [done|]. repeat constructor. cbn. lia.
Qed.

Definition store_ok (fs : FinalityStore) : Prop :=
  ∀ b s, statuses fs !! b = Some s → status_inv b (seq fs) s.

Lemma run_ok ops :
  Z.of_nat (length ops) < 2 ^ 64 →
  store_ok (finality_run ops) ∧ 0 ≤ seq (finality_run ops) ≤ Z.of_nat (length ops).
Proof.
  induction ops as [|op ops IH] using rev_ind; intros Hlen.
  { split; [|done]. intros b s Hb. unfold finality_run in Hb. cbn in Hb.
    by apply lookup_empty_Some in Hb. }
  rewrite length_app in *. cbn in Hlen |- *. destruct IH as [Hok Hseq]; [lia|].
  unfold finality_run. rewrite foldl_app. cbn [foldl]. fold (finality_run ops).
  generalize dependent (finality_run ops). intros fs Hok Hseq. destruct op as [b e s|b next why]; cbn.
  - unfold init_batch, store_ok. cbn [statuses seq]. split; [|lia].
    intros b' s' [[<- <-]|[_ ?]]%lookup_insert_Some; [|by apply Hok].
    split; cbn; [done|done|constructor|constructor].
  - unfold transition. assert (wrapu 64 (seq fs + 1) = seq fs + 1) as ->.
    { apply wrapu_id. ints. }
    assert (∀ b s, statuses fs !! b = Some s → status_inv b (seq fs + 1) s) as Hup.
    { intros b' s' [Hi Hl Ht Hb]%Hok. split; [done..|].
      eapply Forall_impl; [exact Hb|]. cbn. lia. }
    destruct (statuses fs !! b) as [s|] eqn:Eb; cbn; [|split; [done|lia]].
    pose proof (status_step b (seq fs) next why s (Hok _ _ Eb)) as Hs.
    destruct (BatchFinalityStatus.transition_at _ _ _ _) as [s' r]. cbn in *. split; [|lia].
    unfold store_ok. cbn [statuses seq].
    intros b' s2 [[<- <-]|[_ ?]]%lookup_insert_Some; [done|by apply Hup].
Qed.

Lemma shape_step (s next : FinalityState) visited :
  is_terminal s = false → can_transition_to s next = true →
  history_shape s visited → history_shape next (visited ++ [next]).
Proof.
  assert (∀ l : list FinalityState, take 3 l = [Attested; QuorumReached; Finalized] →
    ∃ l', l = [Attested; QuorumReached; Finalized] ++ l') as Htake.
  { intros l Hl. exists (drop 3 l). by rewrite <- Hl, take_drop. }
  destruct s, next; cbn [is_terminal can_transition_to history_shape]; try done;
    intros _ _ Hv; subst; try done.
  all: try (apply Htake in Hv as [l ->]; first [done|by exists l]).
  all: try (destruct Hv as [l ->]; first [done|exists l; by rewrite <- !app_assoc]).
Qed.

Lemma legal_shape h (s : FinalityState) visited t :
  legal_history s h t → history_shape s visited → history_shape t (visited ++ (to <$> h)).
Proof.
  revert s visited. induction h as [|r h IH]; intros s visited; cbn.
  - intros <-. by rewrite app_nil_r.
  - intros (_ & Hterm & Hcan & Hh) Hv.
    replace (visited ++ to r :: (to <$> h)) with ((visited ++ [to r]) ++ (to <$> h)) by by rewrite <- app_assoc.
    eapply IH; [exact Hh|by eapply shape_step].
Qed.

(** ** Properties of the state machine *)

(** The history of every batch of every store: a chain of legal transitions from
    Proposed to its current state, none of them out of a terminal state, stamped
    with strictly increasing sequence numbers. *)
Theorem finality_history_legal (ops : list finality_op) (b : id32) (s : BatchFinalityStatus) :
  Z.of_nat (length ops) < 2 ^ 64 → FinalityStore.get (finality_run ops) b = Some s →
  st_batch_id s = b ∧ legal_history Proposed (transitions s) (current_state s) ∧
  StronglySorted Z.lt (timestamp_seq <$> transitions s).
Proof. intros Hlen Hb. destruct (run_ok ops Hlen) as [Hok _]. by destruct (Hok b s Hb). Qed.

(** C23: A batch is delivered, rejected, recovered, disputed or acknowledged only after
    it was attested, reached a quorum and was finalized, in this order and first
    of all; and the state before an acknowledgement is a delivery. *)
Theorem finality_needs_quorum (ops : list finality_op) (b : id32) (s : BatchFinalityStatus) :
  Z.of_nat (length ops) < 2 ^ 64 → FinalityStore.get (finality_run ops) b = Some s →
  history_shape (current_state s) (to <$> transitions s).
Proof.
  intros Hlen Hb. destruct (run_ok ops Hlen) as [Hok _]. destruct (Hok b s Hb) as [_ Hl _ _].
  by apply (legal_shape _ _ [] _ Hl).
Qed.

(** The shortest way from a state to an acknowledgement. *)
Definition way_out (s : FinalityState) : list FinalityState :=
  match s with
  | Proposed => [Attested; QuorumReached; Finalized; RuntimeDelivered; RuntimeAcknowledged]
  | Attested => [QuorumReached; Finalized; RuntimeDelivered; RuntimeAcknowledged]
  | QuorumReached => [Finalized; RuntimeDelivered; RuntimeAcknowledged]
  | Finalized | Recovered => [RuntimeDelivered; RuntimeAcknowledged]
  | RuntimeDelivered => [RuntimeAcknowledged]
  | RuntimeRejected | DisputedPlaceholder => [Recovered; RuntimeDelivered; RuntimeAcknowledged]
  | _ => []
  end.

Lemma move_ok fs b s next why :
  FinalityStore.get fs b = Some s → is_terminal (current_state s) = false →
  can_transition_to (current_state s) next = true →
  ∃ fs' s', transition b next why fs = (fs', Ok tt) ∧ FinalityStore.get fs' b = Some s' ∧
    current_state s' = next.
Proof.
  unfold FinalityStore.get, transition, BatchFinalityStatus.transition_at. intros -> -> ->. cbn.
  eexists _, _. split; [done|]. cbn. by rewrite lookup_insert_eq.
Qed.

Lemma drive_ok path fs b s why :
  FinalityStore.get fs b = Some s → path = way_out (current_state s) → path ≠ [] →
  ∃ fs' s', mfor (λ next, transition b next why) path fs = (fs', Ok tt) ∧
    FinalityStore.get fs' b = Some s' ∧ current_state s' = RuntimeAcknowledged.
Proof.
  revert fs s. induction path as [|next path IH]; intros fs s Hs Hp Hne; [done|].
  assert (is_terminal (current_state s) = false ∧ can_transition_to (current_state s) next = true ∧
    path = way_out next ∧ (path = [] → next = RuntimeAcknowledged)) as (Ht & Hc & Hw & Hend).
  { destruct (current_state s); cbn in Hp; try discriminate Hp; injection Hp as -> ->; done. }
  destruct (move_ok fs b s next why Hs Ht Hc) as (fs1 & s1 & E & Hs1 & Hst).
  destruct (decide (path = [])) as [->|Hne'].
  - exists fs1, s1. cbn. rewrite (Mbind_run _ _ _ _ _ E). split_and!; [done..|].
    rewrite Hst. by apply Hend.
  - destruct (IH fs1 s1 Hs1) as (fs' & s' & E' & ?); [by rewrite Hst|done|].
    exists fs', s'. split; [|done]. cbn. by rewrite (Mbind_run _ _ _ _ _ E).
Qed.

(** C24: From every state that is not terminal, rejection and dispute included, a batch
    can still be acknowledged, by at most five transitions that all succeed; a
    terminal state refuses every transition and keeps the batch as it is. *)
Theorem finality_live (fs : FinalityStore) (b : id32) (s : BatchFinalityStatus) (why : string) :
  FinalityStore.get fs b = Some s →
  (is_terminal (current_state s) = false →
   ∃ path fs' s', (length path ≤ 5)%nat ∧
     mfor (λ next, transition b next why) path fs = (fs', Ok tt) ∧
     FinalityStore.get fs' b = Some s' ∧ current_state s' = RuntimeAcknowledged) ∧
  (is_terminal (current_state s) = true → ∀ next,
   (transition b next why fs).2 = Err (AlreadyTerminal (current_state s)) ∧
   FinalityStore.get (transition b next why fs).1 b = Some s).
Proof.
  intros Hs. split.
  - intros Ht. destruct (drive_ok (way_out (current_state s)) fs b s why) as (fs' & s' & ?);
      [done|done|by destruct (current_state s)|].
    exists (way_out (current_state s)), fs', s'. split; [|done]. destruct (current_state s); cbn; lia.
  - intros Ht next. unfold FinalityStore.get, transition, BatchFinalityStatus.transition_at in *.
    rewrite Hs, Ht. cbn. by rewrite lookup_insert_eq.
Qed.

Lemma max_by_slot_spec l :
  match max_by_slot l with
  | Some m => m ∈ l ∧ ∀ s, s ∈ l → slot s ≤ slot m
  | None => l = []
  end.
Proof.
  induction l as [|s l IH]; [done|]. cbn. destruct (max_by_slot l) as [m|].
  - destruct IH as [Hm Hmax]. case_decide; (split; [set_solver|]);
      intros s' [->|Hs']%elem_of_cons; try specialize (Hmax _ Hs'); lia.
  - subst l. split; [left|]. by intros s' ->%list_elem_of_singleton.
Qed.

(** The checkpoint of an epoch names a batch of greatest slot among those of the
    epoch that are finalized, delivered or acknowledged, and there is none exactly
    when there is no such batch.  A batch that was finalized and then rejected or
    disputed does not count, so the checkpoint can go back. *)
Theorem checkpoint_spec `{Sha256} (ops : list finality_op) (e : Z) :
  Z.of_nat (length ops) < 2 ^ 64 →
  let fs := finality_run ops in
  match checkpoint fs e with
  | Some cp => ∃ b s, FinalityStore.get fs b = Some s ∧ in_checkpoint e s = true ∧
      cp = compute_checkpoint e b (slot s) ∧
      ∀ b' s', FinalityStore.get fs b' = Some s' → in_checkpoint e s' = true → slot s' ≤ slot s
  | None => ∀ b s, FinalityStore.get fs b = Some s → in_checkpoint e s = false
  end.
Proof.
  intros Hlen fs. destruct (run_ok ops Hlen) as [Hok _]. unfold checkpoint.
  pose proof (max_by_slot_spec (filter (λ s, in_checkpoint e s = true) (btree_values (statuses fs)))) as Hm.
  assert (∀ s, s ∈ filter (λ s, in_checkpoint e s = true) (btree_values (statuses fs)) ↔
    in_checkpoint e s = true ∧ ∃ b, FinalityStore.get fs b = Some s) as Hin.
  { intros s. by rewrite list_elem_of_filter, elem_of_btree_values. }
  destruct (max_by_slot _) as [s|]; cbn.
  - destruct Hm as [(Hc & b & Hb)%Hin Hmax]. exists b, s. split_and!; [done..| |].
    + by rewrite (si_id _ _ _ (Hok b s Hb)).
    + intros b' s' Hb' Hc'. apply Hmax, Hin. eauto.
  - intros b s Hb. destruct (in_checkpoint e s) eqn:Hc; [|done].
    assert (s ∈ filter (λ s, in_checkpoint e s = true) (btree_values (statuses fs))) as Hs.
    { apply Hin. eauto. }
    rewrite Hm in Hs. by apply elem_of_nil in Hs.
Qed.
End store.

(** ** Properties of the commitment *)

Section commitment.
Context `{Sha256}.
Implicit Types (f : FinalityCommitment) (bundles : list SequencedBundle) (v : ValidatorView).

Lemma refuse_ok (P : Prop) `{Decision P} e : refuse_if P e = Ok tt ↔ ¬ P.
Proof. unfold refuse_if. case_decide; split; done. Qed.

Lemma duplicates_ok seen ids :
  check_duplicates seen ids = Ok tt ↔ NoDup ids ∧ ∀ i, i ∈ ids → i ∉ seen.
Proof.
  revert seen. induction ids as [|i ids IH]; intros seen; cbn.
  { split; [|done]. intros _. split; [constructor|by intros i ?%elem_of_nil]. }
  case_decide as Hi.
  - split; [done|]. intros [_ Hs]. by destruct (Hs i ltac:(left)).
  - rewrite IH, NoDup_cons. setoid_rewrite elem_of_cons. set_solver.
Qed.

(** When the checks pass. *)
Lemma verify_commitment_ok f bundles v :
  verify_commitment f bundles v = Ok tt ↔
  NoDup (ordered_bundle_ids f) ∧ ordering_root f = compute_sequence_root bundles ∧
  bundle_root f = compute_bundle_root
    (omap (λ b, commitment_hash <$> available_commitments v !! b) (ordered_bundle_ids f)) ∧
  fairness_root f = expected_fairness_root v ∧
  Forall (λ i, i ∈ known_intent_ids v) (intent_ids f) ∧
  passed (validate_da bundles (available_commitments v) (known_intent_ids v) (active_solver_ids v)
    (current_block v) true) = true ∧
  sequence_id f = expected_sequence_id v ∧
  (∀ prev, previous_commitment_root v = Some prev → previous_commitment f = prev) ∧
  proposer f ∈ known_validators v.
Proof.
  unfold verify_commitment. cbv zeta. rewrite !obind_ok.
  assert (∀ (o : outcome CommitmentVerificationError ()) (P : Prop),
    (∃ a, o = Ok a ∧ P) ↔ o = Ok tt ∧ P) as Hu.
  { intros o P. split; [by intros ([] & ? & ?)|]. intros [? ?]. by exists tt. }
  rewrite !Hu. repeat (rewrite !obind_ok, !Hu). rewrite duplicates_ok, !refuse_ok, ofor_ok.
  assert (match previous_commitment_root v with
          | Some prev => refuse_if (previous_commitment f ≠ prev) InvalidPreviousCommitment
          | None => Ok tt
          end = Ok tt ↔
    ∀ prev, previous_commitment_root v = Some prev → previous_commitment f = prev) as Hprev.
  { destruct (previous_commitment_root v) as [prev|]; [|naive_solver].
    rewrite refuse_ok. split; [intros ?%dec_stable; naive_solver|naive_solver]. }
  rewrite Hprev. setoid_rewrite refuse_ok.
  assert (∀ (x y : Z), ¬ x ≠ y ↔ x = y) as Hst by (intros; split; [apply dec_stable|naive_solver]).
  rewrite !Hst.
  assert (∀ (i : Z) (X : gset Z), ¬ (i ∉ X) ↔ i ∈ X) as Hel by (intros; split; [apply dec_stable|naive_solver]).
  setoid_rewrite Hel. rewrite not_false_iff_true. set_solver.
Qed.

Definition roots_fit f : Prop :=
  fits 64 (sequence_id f) ∧ fits 256 (ordering_root f) ∧ fits 256 (bundle_root f) ∧
  fits 256 (fairness_root f) ∧ fits 256 (previous_commitment f).

(** The strings hashed for a commitment and its sequence. *)
Definition commitment_preimages f bundles : list bytes :=
  [root_preimage f; concat (be_bytes 32 <$> (sb_bundle_id <$> bundles))].

(** A commitment root binds the order: validators who accept commitments of the
    same root, each for the bundles it has and in its own view, agree on the
    sequence number, on the bundle ids in order, and on the previous commitment,
    as long as the strings they hash do not collide. *)
Theorem commitment_binds_sequence (f f' : FinalityCommitment) (bundles bundles' : list SequencedBundle)
    (v v' : ValidatorView) :
  verify_commitment f bundles v = Ok tt → verify_commitment f' bundles' v' = Ok tt →
  commitment_root f = commitment_root f' →
  roots_fit f → roots_fit f' →
  Forall (fits 256) (sb_bundle_id <$> bundles) → Forall (fits 256) (sb_bundle_id <$> bundles') →
  no_collision (commitment_preimages f bundles) (commitment_preimages f' bundles') →
  sequence_id f = sequence_id f' ∧ sb_bundle_id <$> bundles = sb_bundle_id <$> bundles' ∧
  bundle_root f = bundle_root f' ∧ fairness_root f = fairness_root f' ∧
  previous_commitment f = previous_commitment f'.
Proof.
  intros (_ & Ho & _)%verify_commitment_ok (_ & Ho' & _)%verify_commitment_ok Hroot
    (Hs & Hor & Hbr & Hfr & Hpr) (Hs' & Hor' & Hbr' & Hfr' & Hpr') Hb Hb' Hcol.
  assert (root_preimage f = root_preimage f') as E by (apply Hcol; [set_solver..|done]).
  unfold root_preimage in E.
  apply be_bytes_app_inj in E as [Es E]; [|done..]. apply be_bytes_app_inj in E as [Eo E]; [|done..].
  apply be_bytes_app_inj in E as [Eb E]; [|done..]. apply be_bytes_app_inj in E as [Ef E]; [|done..].
  apply be_bytes_inj in E; [|done..]. split_and!; try done.
  apply concat_ids_inj; [done..|]. apply Hcol; [set_solver..|].
  unfold compute_sequence_root in *. rewrite <- !list_fmap_compose in *.
  change (be_bytes 32 ∘ sb_bundle_id) with (λ b, be_bytes 32 (sb_bundle_id b)). congruence.
Qed.

(** The commitment with other intents listed. *)
Definition with_intents (l : list id32) f : FinalityCommitment :=
  mkFinality (sequence_id f) (ordered_bundle_ids f) l (ordering_root f) (bundle_root f)
    (fairness_root f) (previous_commitment f) (proposer f) (timestamp f).

(** The contents of the bundles are not checked.  Whatever steps, outputs,
    declarations and solvers the bundles are given, the checks give the same
    result and the root is the same, as only ids and targets are looked at; and an
    accepted commitment is accepted with its list of intents emptied, under the
    same root. *)
Theorem bundle_contents_unverified (f : FinalityCommitment) (bundles : list SequencedBundle)
    (v : ValidatorView) (g : SequencedBundle → SequencedBundle) :
  (∀ b, sb_bundle_id (g b) = sb_bundle_id b ∧ sb_target_intent_ids (g b) = sb_target_intent_ids b) →
  verify_commitment f (g <$> bundles) v = verify_commitment f bundles v ∧
  commitment_root (with_intents [] f) = commitment_root f ∧
  (verify_commitment f bundles v = Ok tt → verify_commitment (with_intents [] f) bundles v = Ok tt).
Proof.
  intros Hg.
  assert (∀ (B : Type) (h : SequencedBundle → list B), (∀ b, h (g b) = h b) →
    (g <$> bundles) ≫= h = bundles ≫= h) as Hbind.
  { intros B h Hh. induction bundles as [|b l IH]; [done|]. cbn. by rewrite Hh, IH. }
  assert (compute_sequence_root (g <$> bundles) = compute_sequence_root bundles) as Hroot.
  { unfold compute_sequence_root. do 2 f_equal. rewrite <- list_fmap_compose.
    apply list_fmap_ext. intros k b _. cbn. by rewrite (proj1 (Hg b)). }
  assert (∀ av kn ac bl ok, validate_da (g <$> bundles) av kn ac bl ok = validate_da bundles av kn ac bl ok)
    as Hda.
  { intros. unfold validate_da. rewrite !Hbind; [done|..]; intros b; unfold commitment_failures;
      by rewrite ?(proj1 (Hg b)), ?(proj2 (Hg b)). }
  split; [|split; [done|]].
  - unfold verify_commitment. by rewrite Hroot, Hda.
  - rewrite !verify_commitment_ok. cbn. intros (? & ? & ? & ? & _ & ?). split_and!; done || apply Forall_nil_2 || tauto.
Qed.
End commitment.

(** ** Sample runs *)

Definition sample_finality : list finality_op :=
  [Init 7 1 10; Init 8 1 20; Move 7 Attested "votes"; Move 7 Finalized "skip";
   Move 7 QuorumReached "quorum"; Move 7 Finalized "commit"; Move 7 RuntimeDelivered "sent";
   Move 7 RuntimeRejected "retry"; Move 7 Recovered "again"; Move 7 RuntimeDelivered "sent";
   Move 7 RuntimeAcknowledged "done"; Move 7 Recovered "late"; Move 8 Superseded "fork"]%string.
Definition sample_status (b : id32) : BatchFinalityStatus :=
  default (BatchFinalityStatus.new 0 0 0) (FinalityStore.get (finality_run sample_finality) b).

Lemma finality_history_legal_witness :
  current_state (sample_status 7) = RuntimeAcknowledged ∧
  legal_history Proposed (transitions (sample_status 7)) (current_state (sample_status 7)) ∧
  (timestamp_seq <$> transitions (sample_status 7)) = [0; 2; 3; 4; 5; 6; 7; 8].
Proof.
  split; [vm_compute; reflexivity|]. split; [|vm_compute; reflexivity].
  assert (FinalityStore.get (finality_run sample_finality) 7 = Some (sample_status 7)) as E
    by (vm_compute; reflexivity).
  exact (proj1 (proj2 (finality_history_legal sample_finality 7 (sample_status 7) eq_refl E))).
Defined.

Lemma finality_needs_quorum_witness :
  history_shape (current_state (sample_status 7)) (to <$> transitions (sample_status 7)).
Proof.
  assert (FinalityStore.get (finality_run sample_finality) 7 = Some (sample_status 7)) as E
    by (vm_compute; reflexivity).
  exact (finality_needs_quorum sample_finality 7 (sample_status 7) eq_refl E).
Defined.

(** A disputed batch. *)
Definition disputed : FinalityStore :=
  mkFinalityStore {[7 := mkStatus 7 DisputedPlaceholder 1 10 []]} 4.
Lemma finality_live_witness :
  ∃ path fs' s', (length path ≤ 5)%nat ∧
    mfor (λ next, transition 7 next "retry") path disputed = (fs', Ok tt) ∧
    FinalityStore.get fs' 7 = Some s' ∧ current_state s' = RuntimeAcknowledged.
Proof.
  exact (proj1 (finality_live disputed 7 (mkStatus 7 DisputedPlaceholder 1 10 []) "retry" eq_refl)
    eq_refl).
Defined.

Lemma checkpoint_spec_witness :
  let cp := @compute_checkpoint sample_sha256 1 7 10 in
  @checkpoint sample_sha256 (finality_run sample_finality) 1 = Some cp ∧
  ∃ b s, FinalityStore.get (finality_run sample_finality) b = Some s ∧
    cp = @compute_checkpoint sample_sha256 1 b (slot s).
Proof.
  intros cp.
  assert (@checkpoint sample_sha256 (finality_run sample_finality) 1 = Some cp) as E
    by (vm_compute; reflexivity).
  split; [exact E|].
  pose proof (@checkpoint_spec sample_sha256 sample_finality 1 eq_refl) as Hc.
  cbv zeta in Hc. rewrite E in Hc. destruct Hc as (b & s & Hs & _ & Hcp & _).
  exists b, s. exact (conj Hs Hcp).
Defined.

(** A commitment to the sequence of the sample window, and a validator's view. *)
Definition sample_view (wd : AuctionWindow) : ValidatorView :=
  mkView (commitments wd) {[5; 6]} {[7; 8]} {[9]} 33 (Some 44) 3 150.
Definition sample_finality_commitment `{Sha256} (bundles : list SequencedBundle) (hashes : list id32)
  : FinalityCommitment :=
  mkFinality 3 (sb_bundle_id <$> bundles) [5] (compute_sequence_root bundles)
    (compute_bundle_root hashes) 33 44 9 150.
Abbreviation sample_bundles := (ordered_bundles
  (@order_bundles_with_meta sample_sha256 (valid_reveals run_sample.1) 1 ∅)).
Abbreviation sample_fc := (@sample_finality_commitment sample_sha256 sample_bundles
  [commitment_hash (sample_commit sample_r1)]).

(** Other contents under the same id and targets. *)
Definition other_contents (b : SequencedBundle) : SequencedBundle :=
  mkSequenced (sb_bundle_id b) 99 (sb_target_intent_ids b) [] [] [] 0.

Lemma bundle_contents_unverified_witness :
  (sb_execution_steps <$> (other_contents <$> sample_bundles)) ≠ (sb_execution_steps <$> sample_bundles) ∧
  @verify_commitment sample_sha256 sample_fc (other_contents <$> sample_bundles)
    (sample_view run_sample.1) = Ok tt.
Proof.
  split; [vm_compute; discriminate|].
  destruct (@bundle_contents_unverified sample_sha256 sample_fc sample_bundles
    (sample_view run_sample.1) other_contents (λ b, conj eq_refl eq_refl)) as [E _].
  rewrite E. vm_compute. reflexivity.
Defined.

Lemma commitment_binds_sequence_witness :
  (sb_bundle_id <$> sample_bundles) = (sb_bundle_id <$> (other_contents <$> sample_bundles)).
Proof.
  refine (proj1 (proj2 (@commitment_binds_sequence sample_sha256 sample_fc
    (with_intents [] sample_fc) sample_bundles (other_contents <$> sample_bundles)
    (sample_view run_sample.1) (sample_view run_sample.1) _ _ _ _ _ _ _ _))).
  - vm_compute. reflexivity.
  - vm_compute. reflexivity.
  - vm_compute. reflexivity.
  - unfold roots_fit. by_eval.
  - unfold roots_fit. by_eval.
  - by_decide.
  - by_decide.
  - apply collision_free_sound. vm_compute. reflexivity.
Defined.
