(* ===== verification/Spending.v ===== *)
(** * Spending capabilities

    Bounded, expiring, optionally scoped rights to spend an owner's asset
    (src/runtime/src/capabilities/spending.rs), and their registry.  The theorem
    bounds what is spent through a capability over any history of the registry. *)

From stdpp Require Import gmap strings list pretty.
From S2P Require Import Prelude Concrete.

(** ** One capability *)

(* @src src/runtime/src/capabilities/spending.rs:25-34 SpendCapabilityStatus *)
Inductive SpendCapabilityStatus : Type := Active | Consumed | Revoked | Expired.
#[export] Instance SpendCapabilityStatus_eq_dec : EqDecision SpendCapabilityStatus.
Proof. solve_decision. Defined.

Definition debug_status (s : SpendCapabilityStatus) : string :=
  match s with
  | Active => "Active" | Consumed => "Consumed" | Revoked => "Revoked" | Expired => "Expired"
  end.

(* @src src/runtime/src/capabilities/spending.rs:38-61 SpendCapability *)
Record SpendCapability : Type := mkCapability {
  capability_id : id32;
  owner : id32;
  allowed_spender : id32;
  asset_id : id32;
  max_amount : Z;
  remaining_amount : Z;
  expiration_epoch : Z;
  scope_hash : option id32;
  status : SpendCapabilityStatus;
  created_at_epoch : Z }.

Definition set_status (s : SpendCapabilityStatus) (c : SpendCapability) : SpendCapability :=
  mkCapability (capability_id c) (owner c) (allowed_spender c) (asset_id c) (max_amount c)
    (remaining_amount c) (expiration_epoch c) (scope_hash c) s (created_at_epoch c).
Definition set_remaining (r : Z) (c : SpendCapability) : SpendCapability :=
  mkCapability (capability_id c) (owner c) (allowed_spender c) (asset_id c) (max_amount c)
    r (expiration_epoch c) (scope_hash c) (status c) (created_at_epoch c).

Module SpendCapability.
Definition id_preimage (who spender asset : id32) (max nonce : Z) : bytes :=
  string_bytes "OMNIPHI_SPEND_CAP_V1" ++ be_bytes 32 who ++ be_bytes 32 spender ++
  be_bytes 32 asset ++ be_bytes 16 max ++ be_bytes 8 nonce.

(* @src src/runtime/src/capabilities/spending.rs:65-83 SpendCapability::compute_id *)
Definition compute_id `{Sha256} (who spender asset : id32) (max nonce : Z) : id32 :=
  sha256 (id_preimage who spender asset max nonce).

(* @src src/runtime/src/capabilities/spending.rs:86-118 SpendCapability::create *)
Definition create `{Sha256} (who spender asset : id32) (max expiration : Z) (scope : option id32)
    (current_epoch nonce : Z) : outcome string SpendCapability :=
  if decide (who = 0) then Err "owner cannot be zero"%string
  else if decide (spender = 0) then Err "spender cannot be zero"%string
  else if decide (who = spender) then Err "owner and spender must differ"%string
  else if decide (max = 0) then Err "max_amount must be > 0"%string
  else if decide (expiration ≤ current_epoch)
  then Err ("expiration " +:+ pretty expiration +:+ " must be > current epoch " +:+ pretty current_epoch)%string
  else Ok (mkCapability (compute_id who spender asset max nonce) who spender asset max max expiration
             scope Active current_epoch).

(* @src src/runtime/src/capabilities/spending.rs:121-123 SpendCapability::is_usable *)
Definition is_usable (c : SpendCapability) (current_epoch : Z) : bool :=
  bool_decide (status c = Active) && bool_decide (current_epoch < expiration_epoch c).

(** The scope check: an error, or nothing. *)
(* @src src/runtime/src/capabilities/spending.rs:151-157 SpendCapability::consume *)
Definition scope_error (c : SpendCapability) (tx_scope : option id32) : option string :=
  match scope_hash c with
  | Some required =>
      match tx_scope with
      | Some actual => if decide (actual = required) then None else Some "scope_hash mismatch"%string
      | None => Some "capability is intent-scoped but no scope_hash provided"%string
      end
  | None => None
  end.

(* @src src/runtime/src/capabilities/spending.rs:127-177 SpendCapability::consume *)
Definition consume (spender : id32) (amt current_epoch : Z) (tx_scope : option id32)
  : M SpendCapability string Z := λ c,
  if decide (status c ≠ Active)
  then (c, Err ("capability is " +:+ debug_status (status c) +:+ ", not Active")%string)
  else if decide (expiration_epoch c ≤ current_epoch)
  then (set_status Expired c, Err "capability has expired"%string)
  else if decide (spender ≠ allowed_spender c) then (c, Err "unauthorized spender"%string)
  else match scope_error c tx_scope with
  | Some e => (c, Err e)
  | None =>
      if decide (amt = 0) then (c, Err "consume amount must be > 0"%string)
      else if decide (remaining_amount c < amt)
      then (c, Err ("insufficient capability: requested " +:+ pretty amt +:+ ", remaining " +:+
                    pretty (remaining_amount c))%string)
      else
        let c := set_remaining (remaining_amount c - amt) c in
        (if decide (remaining_amount c = 0) then set_status Consumed c else c, Ok amt)
  end.

(* @src src/runtime/src/capabilities/spending.rs:180-189 SpendCapability::revoke *)
Definition revoke (caller : id32) : M SpendCapability string () := λ c,
  if decide (caller ≠ owner c) then (c, Err "only owner can revoke"%string)
  else if decide (status c ≠ Active)
  then (c, Err ("cannot revoke: status is " +:+ debug_status (status c))%string)
  else (set_status Revoked c, Ok tt).

(* @src src/runtime/src/capabilities/spending.rs:192-196 SpendCapability::check_expiration *)
Definition check_expiration (current_epoch : Z) (c : SpendCapability) : SpendCapability :=
  if decide (status c = Active ∧ expiration_epoch c ≤ current_epoch) then set_status Expired c else c.
End SpendCapability.

(** ** The registry *)

(* @src src/runtime/src/capabilities/spending.rs:201-213 SpendCapabilityRegistry *)
Record SpendCapabilityRegistry : Type := mkSpendRegistry {
  capabilities : gmap Z SpendCapability;
  by_grant : gmap (Z * Z * Z) (list id32);
  by_owner : gmap Z (list id32);
  by_expiration : gmap Z (list id32);
  owner_nonces : gmap Z Z }.

Module SpendCapabilityRegistry.
(* @src src/runtime/src/capabilities/spending.rs:216-216 SpendCapabilityRegistry::new *)
Definition new : SpendCapabilityRegistry := mkSpendRegistry ∅ ∅ ∅ ∅ ∅.

Definition set_nonces (m : gmap Z Z) (reg : SpendCapabilityRegistry) : SpendCapabilityRegistry :=
  mkSpendRegistry (capabilities reg) (by_grant reg) (by_owner reg) (by_expiration reg) m.
Definition set_capabilities (m : gmap Z SpendCapability) (reg : SpendCapabilityRegistry)
  : SpendCapabilityRegistry :=
  mkSpendRegistry m (by_grant reg) (by_owner reg) (by_expiration reg) (owner_nonces reg).

(** [map.entry(k).or_default().push(id)] *)
Definition push `{Countable K} (k : K) (i : id32) (m : gmap K (list id32)) : gmap K (list id32) :=
  <[k := default [] (m !! k) ++ [i]]> m.

Definition index (c : SpendCapability) (reg : SpendCapabilityRegistry) : SpendCapabilityRegistry :=
  let i := capability_id c in
  mkSpendRegistry (<[i := c]> (capabilities reg))
    (push (owner c, allowed_spender c, asset_id c) i (by_grant reg))
    (push (owner c) i (by_owner reg)) (push (expiration_epoch c) i (by_expiration reg))
    (owner_nonces reg).

(* @src src/runtime/src/capabilities/spending.rs:219-245 SpendCapabilityRegistry::create *)
Definition create `{Sha256} (who spender asset : id32) (max expiration : Z) (scope : option id32)
    (current_epoch : Z) : M SpendCapabilityRegistry string id32 := λ reg,
  let nonce := entry_count who (owner_nonces reg) in
  let reg := set_nonces (touch who (owner_nonces reg)) reg in
  match SpendCapability.create who spender asset max expiration scope current_epoch nonce with
  | Err e => (reg, Err e)
  | Panic => (reg, Panic)
  | Ok c => (index c (set_nonces (incr who (owner_nonces reg)) reg), Ok (capability_id c))
  end.

(* @src src/runtime/src/capabilities/spending.rs:248-250 SpendCapabilityRegistry::get *)
Definition get (reg : SpendCapabilityRegistry) (i : id32) : option SpendCapability :=
  capabilities reg !! i.

(** Runs a method of a capability in place, [get_mut(id).ok_or_else(..)?]. *)
(* @src src/runtime/src/capabilities/spending.rs:253-255 SpendCapabilityRegistry::get_mut *)
Definition on_capability {A} (i : id32) (m : M SpendCapability string A)
  : M SpendCapabilityRegistry string A := λ reg,
  match capabilities reg !! i with
  | None => (reg, Err "capability not found"%string)
  | Some c => let '(c', r) := m c in (set_capabilities (<[i := c']> (capabilities reg)) reg, r)
  end.

(* @src src/runtime/src/capabilities/spending.rs:258-269 SpendCapabilityRegistry::consume *)
Definition consume (i spender : id32) (amt current_epoch : Z) (tx_scope : option id32)
  : M SpendCapabilityRegistry string Z :=
  on_capability i (SpendCapability.consume spender amt current_epoch tx_scope).

(** [max_by_key]: the last of the greatest. *)
Fixpoint max_by_remaining (l : list SpendCapability) : option SpendCapability :=
  match l with
  | [] => None
  | c :: l =>
      match max_by_remaining l with
      | Some m => if decide (remaining_amount c ≤ remaining_amount m) then Some m else Some c
      | None => Some c
      end
  end.

(* @src src/runtime/src/capabilities/spending.rs:273-286 SpendCapabilityRegistry::find_active *)
Definition find_active (reg : SpendCapabilityRegistry) (who spender asset : id32) (current_epoch : Z)
  : option SpendCapability :=
  ids ← by_grant reg !! (who, spender, asset);
  max_by_remaining (filter (λ c, SpendCapability.is_usable c current_epoch = true)
    (omap (λ i, capabilities reg !! i) ids)).

(* @src src/runtime/src/capabilities/spending.rs:289-297 SpendCapabilityRegistry::revoke *)
Definition revoke (i caller : id32) : M SpendCapabilityRegistry string () :=
  on_capability i (SpendCapability.revoke caller).

(** Moves the active ones of a list of capabilities to a status, and counts them. *)
Definition retire (s : SpendCapabilityStatus) (acc : gmap Z SpendCapability * nat) (i : id32)
  : gmap Z SpendCapability * nat :=
  match acc.1 !! i with
  | Some c => if decide (status c = Active) then (<[i := set_status s c]> acc.1, S acc.2) else acc
  | None => acc
  end.

(* @src src/runtime/src/capabilities/spending.rs:300-314 SpendCapabilityRegistry::revoke_all_by_owner *)
Definition revoke_all_by_owner (who : id32) (reg : SpendCapabilityRegistry)
  : SpendCapabilityRegistry * nat :=
  let '(m, n) := foldl (retire Revoked) (capabilities reg, 0%nat) (default [] (by_owner reg !! who)) in
  (set_capabilities m reg, n).

(* @src src/runtime/src/capabilities/spending.rs:318-339 SpendCapabilityRegistry::expire_stale *)
Definition expire_stale (current_epoch : Z) (reg : SpendCapabilityRegistry)
  : SpendCapabilityRegistry * nat :=
  let expired_epochs := filter (λ e, e ≤ current_epoch) (btree_keys (by_expiration reg)) in
  let '(m, n) := foldl (λ acc e, foldl (retire Expired) acc (default [] (by_expiration reg !! e)))
                   (capabilities reg, 0%nat) expired_epochs in
  (set_capabilities m reg, n).

(* @src src/runtime/src/capabilities/spending.rs:342-344 SpendCapabilityRegistry::count *)
Definition count (reg : SpendCapabilityRegistry) : nat := size (capabilities reg).

(* @src src/runtime/src/capabilities/spending.rs:347-349 SpendCapabilityRegistry::active_count *)
Definition active_count (reg : SpendCapabilityRegistry) (current_epoch : Z) : nat :=
  length (filter (λ c, SpendCapability.is_usable c current_epoch = true) (btree_values (capabilities reg))).

(* @src src/runtime/src/capabilities/spending.rs:352-358 SpendCapabilityRegistry::prune *)
Definition prune (before_epoch : Z) (reg : SpendCapabilityRegistry) : SpendCapabilityRegistry * nat :=
  let m := filter (λ p, status p.2 = Active ∨ before_epoch ≤ created_at_epoch p.2) (capabilities reg) in
  (set_capabilities m reg, (size (capabilities reg) - size m)%nat).
End SpendCapabilityRegistry.

(** ** Histories of the registry *)

Inductive spend_op : Type :=
| TryGrant (who spender asset : id32) (max expiration : Z) (scope : option id32) (epoch : Z)
| TrySpend (i spender : id32) (amt epoch : Z) (scope : option id32)
| TryRevoke (i caller : id32)
| RevokeAll (who : id32)
| ExpireStale (epoch : Z)
| Prune (epoch : Z).

Inductive spend_event : Type :=
| Granted (c : SpendCapability) (nonce : Z)
| Spent (i spender : id32) (amt epoch : Z) (scope : option id32)
| RevokedBy (i caller : id32).

Section histories.
Context `{Sha256}.
Import SpendCapabilityRegistry.
Implicit Types (reg : SpendCapabilityRegistry) (log : list spend_event) (c : SpendCapability).

(** One call: the registry after it, and what it did. *)
Definition spend_step (op : spend_op) reg : SpendCapabilityRegistry * list spend_event :=
  match op with
  | TryGrant who sp a mx ex sc ep =>
      let '(reg', r) := create who sp a mx ex sc ep reg in
      (reg', match r with
             | Ok i => match get reg' i with
                       | Some c => [Granted c (entry_count who (owner_nonces reg))]
                       | None => []
                       end
             | _ => []
             end)
  | TrySpend i sp amt ep sc =>
      let '(reg', r) := consume i sp amt ep sc reg in
      (reg', match r with Ok a => [Spent i sp a ep sc] | _ => [] end)
  | TryRevoke i who =>
      let '(reg', r) := revoke i who reg in
      (reg', match r with Ok _ => [RevokedBy i who] | _ => [] end)
  | RevokeAll who => ((revoke_all_by_owner who reg).1, [])
  | ExpireStale ep => ((expire_stale ep reg).1, [])
  | Prune ep => ((prune ep reg).1, [])
  end.
Definition spend_run (ops : list spend_op) : SpendCapabilityRegistry * list spend_event :=
  foldl (λ st op, let '(reg', l) := spend_step op st.1 in (reg', st.2 ++ l))
    (SpendCapabilityRegistry.new, []) ops.

(** Amounts and epochs are unsigned, ids have 32 bytes. *)
Definition spend_fits (op : spend_op) : Prop :=
  match op with
  | TryGrant who sp a mx _ _ _ => fits 256 who ∧ fits 256 sp ∧ fits 256 a ∧ fits 128 mx
  | TrySpend _ _ amt _ _ => 0 ≤ amt
  | _ => True
  end.

(** What a log says. *)
Definition spent (i : id32) log : Z :=
  sumZ (omap (λ ev, match ev with Spent j _ amt _ _ => if decide (j = i) then Some amt else None
                             | _ => None end) log).
Definition grants log : list (SpendCapability * Z) :=
  omap (λ ev, match ev with Granted c n => Some (c, n) | _ => None end) log.
Definition grant_bytes (g : SpendCapability * Z) : bytes :=
  SpendCapability.id_preimage (owner g.1) (allowed_spender g.1) (asset_id g.1) (max_amount g.1) g.2.

(** The terms of a capability, which never change. *)
Definition same_terms c c0 : Prop :=
  capability_id c = capability_id c0 ∧ owner c = owner c0 ∧ allowed_spender c = allowed_spender c0 ∧
  asset_id c = asset_id c0 ∧ max_amount c = max_amount c0 ∧
  expiration_epoch c = expiration_epoch c0 ∧ scope_hash c = scope_hash c0.

(** A spend that a capability allows. *)
Definition allowed c (spender : id32) (amt epoch : Z) (scope : option id32) : Prop :=
  spender = allowed_spender c ∧ 0 < amt ∧ epoch < expiration_epoch c ∧
  ∀ h, scope_hash c = Some h → scope = Some h.

(** *** Distinct ids *)

Record grants_ok reg log (bound : Z) : Prop := {
  go_nonces who : 0 ≤ entry_count who (owner_nonces reg) ≤ bound;
  go_each c n : (c, n) ∈ grants log →
    capability_id c = sha256 (grant_bytes (c, n)) ∧ 0 ≤ n < entry_count (owner c) (owner_nonces reg) ∧
    fits 256 (owner c) ∧ fits 256 (allowed_spender c) ∧ fits 256 (asset_id c) ∧ fits 128 (max_amount c);
  go_pairs : NoDup ((λ g : SpendCapability * Z, (owner g.1, g.2)) <$> grants log) }.

Lemma grants_app l l' : grants (l ++ l') = grants l ++ grants l'.
Proof. apply omap_app. Qed.

Lemma create_cases who sp a mx ex sc ep reg reg' r :
  create who sp a mx ex sc ep reg = (reg', r) →
  (∃ e, r = Err e ∧ reg' = set_nonces (touch who (owner_nonces reg)) reg) ∨
  let n := entry_count who (owner_nonces reg) in
  let c := mkCapability (SpendCapability.compute_id who sp a mx n) who sp a mx mx ex sc Active ep in
  r = Ok (capability_id c) ∧ mx ≠ 0 ∧
  reg' = index c (set_nonces (incr who (touch who (owner_nonces reg))) reg).
Proof.
  unfold create, SpendCapability.create.
  repeat (case_decide; [intros [= <- <-]; left; by eexists|]).
  intros [= <- <-]. by right.
Qed.

Definition is_grant (op : spend_op) : bool :=
  match op with TryGrant _ _ _ _ _ _ _ => true | _ => false end.

Lemma nonces_kept op reg :
  is_grant op = false →
  owner_nonces (spend_step op reg).1 = owner_nonces reg ∧ grants (spend_step op reg).2 = [].
Proof.
  destruct op as [|i sp amt ep sc|i who|who|ep|ep]; cbn [spend_step]; intros Hop; try done.
  - unfold consume, on_capability. destruct (capabilities reg !! i) as [c|]; [|done].
    by destruct (SpendCapability.consume sp amt ep sc c) as [c' []].
  - unfold revoke, on_capability. destruct (capabilities reg !! i) as [c|]; [|done].
    by destruct (SpendCapability.revoke who c) as [c' []].
  - unfold revoke_all_by_owner. by destruct (foldl _ _ _).
  - unfold expire_stale. by destruct (foldl _ _ _).
Qed.

Lemma grants_step op reg log bound :
  spend_fits op → bound + 1 < 2 ^ 64 → grants_ok reg log bound →
  grants_ok (spend_step op reg).1 (log ++ (spend_step op reg).2) (bound + 1).
Proof.
  intros Hf Hb [Hn He Hp]. destruct (is_grant op) eqn:Hop.
  2: { destruct (nonces_kept op reg Hop) as [E1 E2]. split; rewrite ?grants_app, ?E1, ?E2, ?app_nil_r; [|done..].
    intros who. specialize (Hn who). lia. }
  destruct op as [who sp a mx ex sc ep| | | | |]; try done. cbn [spend_step].
  destruct (create who sp a mx ex sc ep reg) as [reg' r] eqn:E.
  destruct (create_cases _ _ _ _ _ _ _ _ _ _ E) as [(e & -> & ->)|(-> & Hmx & ->)]; cbn [fst snd].
  { rewrite app_nil_r. split; cbn [owner_nonces set_nonces]; [| |done].
    - intros who'. rewrite entry_touch. specialize (Hn who'). lia.
    - intros c n Hc. rewrite entry_touch. by apply He. }
  unfold get, index. cbn [capabilities capability_id owner_nonces set_nonces].
  rewrite lookup_insert_eq. pose proof (Hn who) as Hw.
  assert (∀ who', entry_count who' (incr who (touch who (owner_nonces reg))) =
    if decide (who = who') then entry_count who (owner_nonces reg) + 1
    else entry_count who' (owner_nonces reg)) as Hcount.
  { intros who'. rewrite entry_incr, !entry_touch. case_decide; [|done].
    apply wrapu_id. ints. }
  destruct Hf as (Hf1 & Hf2 & Hf3 & Hf4).
  split; cbn [owner_nonces].
  - intros who'. rewrite Hcount. specialize (Hn who'). case_decide; lia.
  - intros c n. rewrite grants_app. intros [Hc|Hc]%elem_of_app.
    + destruct (He c n Hc) as (? & ? & ?). split; [done|]. split; [|done].
      rewrite Hcount. case_decide as E'; [rewrite E' in *|]; lia.
    + apply list_elem_of_singleton in Hc as [= -> ->]. cbn [owner].
      rewrite Hcount, decide_True by done. split; [done|]. split; [lia|done].
  - rewrite grants_app, fmap_app. apply NoDup_app. split_and!; [done| |apply NoDup_singleton].
    intros [o n] Ho Ho2%list_elem_of_singleton. injection Ho2 as -> ->.
    apply list_elem_of_fmap in Ho as ([c n] & [= E1 E2] & Hc).
    destruct (He c n Hc) as (_ & Hlt & _). cbn in E1. rewrite <- E1 in Hlt. lia.
Qed.

Lemma run_snoc ops op :
  spend_run (ops ++ [op]) =
  ((spend_step op (spend_run ops).1).1, (spend_run ops).2 ++ (spend_step op (spend_run ops).1).2).
Proof. unfold spend_run. rewrite foldl_app. cbn. by destruct (spend_step op _). Qed.

Lemma run_grants ops :
  Z.of_nat (length ops) < 2 ^ 64 → Forall spend_fits ops →
  grants_ok (spend_run ops).1 (spend_run ops).2 (Z.of_nat (length ops)).
Proof.
  induction ops as [|op ops IH] using rev_ind; intros Hlen Hf.
  - split; cbn; [|by intros c n ?%elem_of_nil|constructor].
    intros who. unfold entry_count. by rewrite lookup_empty.
  - rewrite length_app in *. cbn in Hlen |- *. apply Forall_app in Hf as [Hf Hop].
    rewrite run_snoc. cbn [fst snd]. rewrite Nat2Z.inj_add.
    apply grants_step; [by inversion Hop|lia|apply IH; [lia|done]].
Qed.

Lemma grant_bytes_inj c n c' n' :
  fits 256 (owner c) → fits 256 (owner c') → fits 256 (allowed_spender c) → fits 256 (allowed_spender c') →
  fits 256 (asset_id c) → fits 256 (asset_id c') → fits 128 (max_amount c) → fits 128 (max_amount c') →
  fits 64 n → fits 64 n' → grant_bytes (c, n) = grant_bytes (c', n') → owner c = owner c' ∧ n = n'.
Proof.
  unfold grant_bytes, SpendCapability.id_preimage. cbn [fst snd]. intros ?????????? E.
  apply app_inv_head in E. apply be_bytes_app_inj in E as [? E]; [|done..].
  apply be_bytes_app_inj in E as [? E]; [|done..]. apply be_bytes_app_inj in E as [? E]; [|done..].
  apply be_bytes_app_inj in E as [? E]; [|done..]. split; [done|].
  by apply be_bytes_inj in E.
Qed.

(** Ids of distinct grants differ. *)
Lemma run_ids ops :
  Z.of_nat (length ops) < 2 ^ 64 → Forall spend_fits ops →
  no_collision (grant_bytes <$> grants (spend_run ops).2) (grant_bytes <$> grants (spend_run ops).2) →
  NoDup (capability_id ∘ fst <$> grants (spend_run ops).2).
Proof.
  intros Hlen Hf Hcol. destruct (run_grants ops Hlen Hf) as [Hn He Hp].
  apply NoDup_fmap_2_strong; [|by eapply NoDup_fmap_1].
  intros [c n] [c' n'] Hc Hc' E. cbn in E.
  destruct (He _ _ Hc) as (Ei & ? & ? & ? & ? & ?), (He _ _ Hc') as (Ei' & ? & ? & ? & ? & ?).
  pose proof (Hn (owner c)). pose proof (Hn (owner c')).
  assert (owner c = owner c' ∧ n = n') as [Eo En].
  { apply grant_bytes_inj; [done..|ints|ints|].
    apply Hcol; [by apply list_elem_of_fmap_2..|congruence]. }
  apply list_elem_of_lookup in Hc as [k Hk], Hc' as [k' Hk'].
  assert (k = k') as ->; [|congruence].
  apply (NoDup_lookup _ k k' (owner c, n) Hp); rewrite list_lookup_fmap.
  - by rewrite Hk.
  - rewrite Hk'. cbn. by rewrite Eo, En.
Qed.

(** *** The bound *)

(** What a registry and a log have in common. *)
Record spend_inv reg log : Prop := {
  sv_caps i c : capabilities reg !! i = Some c → ∃ c0 n, (c0, n) ∈ grants log ∧
    capability_id c0 = i ∧ same_terms c c0 ∧ 0 ≤ remaining_amount c ∧
    remaining_amount c + spent i log = max_amount c0;
  sv_spent i sp amt ep sc : Spent i sp amt ep sc ∈ log → ∃ c0 n, (c0, n) ∈ grants log ∧
    capability_id c0 = i ∧ allowed c0 sp amt ep sc;
  sv_total c0 n : (c0, n) ∈ grants log → spent (capability_id c0) log ≤ max_amount c0;
  sv_revoked i who : RevokedBy i who ∈ log →
    (∃ c0 n, (c0, n) ∈ grants log ∧ capability_id c0 = i ∧ who = owner c0) ∧
    ∀ c, capabilities reg !! i = Some c → status c ≠ Active;
  sv_order i who l1 l2 : log = l1 ++ RevokedBy i who :: l2 → spent i l2 = 0 }.

(** The same capabilities, or fewer, none of them active again. *)
Definition tamer (m m' : gmap Z SpendCapability) : Prop :=
  ∀ i c', m' !! i = Some c' → ∃ c, m !! i = Some c ∧ same_terms c' c ∧
    remaining_amount c' = remaining_amount c ∧ (status c' = Active → status c = Active).

Lemma terms_refl c : same_terms c c.
Proof. by unfold same_terms. Qed.
Lemma terms_trans c1 c2 c3 : same_terms c1 c2 → same_terms c2 c3 → same_terms c1 c3.
Proof. unfold same_terms. naive_solver congruence. Qed.

Lemma tamer_refl m : tamer m m.
Proof. intros i c Hc. exists c. by split_and!. Qed.
Lemma tamer_trans m1 m2 m3 : tamer m1 m2 → tamer m2 m3 → tamer m1 m3.
Proof.
  intros H1 H2 i c3 (c2 & (c1 & ? & ? & ? & ?)%H1 & ? & ? & ?)%H2. exists c1.
  split_and!; [done|by eapply terms_trans|congruence|auto].
Qed.

Lemma tamer_insert m i c c' :
  m !! i = Some c → same_terms c' c → remaining_amount c' = remaining_amount c →
  (status c' = Active → status c = Active) → tamer m (<[i := c']> m).
Proof.
  intros Hc ??? j d [[<- <-]|[_ Hd]]%lookup_insert_Some; [by exists c|]. by apply tamer_refl.
Qed.

Lemma tamer_retire s l m n : s ≠ Active → tamer m (foldl (retire s) (m, n) l).1.
Proof.
  intros Hs. revert m n. induction l as [|i l IH]; intros m n; [apply tamer_refl|]. cbn [foldl].
  unfold retire at 2. cbn [fst snd]. destruct (m !! i) as [c|] eqn:Hc; [|apply IH].
  case_decide; [|apply IH]. eapply tamer_trans; [|apply IH]. by eapply tamer_insert.
Qed.

Lemma tamer_retire_all s (ls : list (list id32)) m n :
  s ≠ Active → tamer m (foldl (λ acc l, foldl (retire s) acc l) (m, n) ls).1.
Proof.
  intros Hs. revert m n. induction ls as [|l ls IH]; intros m n; [apply tamer_refl|]. cbn [foldl].
  destruct (foldl (retire s) (m, n) l) as [m1 n1] eqn:E.
  eapply tamer_trans; [|apply IH]. pose proof (tamer_retire s l m n Hs) as Ht. by rewrite E in Ht.
Qed.

Lemma inv_tamer reg reg' log :
  tamer (capabilities reg) (capabilities reg') → spend_inv reg log → spend_inv reg' log.
Proof.
  intros Ht [Hc Hs Htot Hr Ho]. split; [| done | done | | done].
  - intros i c' (c & Hi & Hterms & Hrem & _)%Ht. destruct (Hc i c Hi) as (c0 & n & ? & ? & ? & ? & ?).
    exists c0, n. rewrite Hrem. split_and!; try done. by eapply terms_trans.
  - intros i who Hin. destruct (Hr i who Hin) as [Hg Hna]. split; [done|].
    intros c' (c & Hi & _ & _ & Hact)%Ht. intros Ha. by apply (Hna c Hi), Hact.
Qed.

Lemma spent_app i l l' : spent i (l ++ l') = spent i l + spent i l'.
Proof. unfold spent. by rewrite omap_app, sumZ_app. Qed.

Lemma consume_cases sp amt ep sc c c' r :
  SpendCapability.consume sp amt ep sc c = (c', r) →
  ((∃ e, r = Err e) ∧ (c' = c ∨ c' = set_status Expired c)) ∨
  (r = Ok amt ∧ status c = Active ∧ amt ≤ remaining_amount c ∧ amt ≠ 0 ∧ ep < expiration_epoch c ∧
   sp = allowed_spender c ∧ (∀ h, scope_hash c = Some h → sc = Some h) ∧
   same_terms c' c ∧ remaining_amount c' = remaining_amount c - amt).
Proof.
  unfold SpendCapability.consume.
  destruct (decide (status c ≠ Active)) as [|Ha%dec_stable]; [intros [= <- <-]; eauto|].
  case_decide; [intros [= <- <-]; eauto|].
  destruct (decide (sp ≠ allowed_spender c)) as [|Hsp%dec_stable]; [intros [= <- <-]; eauto|].
  destruct (SpendCapability.scope_error c sc) as [e|] eqn:Esc; [intros [= <- <-]; eauto|].
  case_decide; [intros [= <- <-]; eauto|]. case_decide; [intros [= <- <-]; eauto|].
  intros [= <- <-]. right. split_and!; try done; [lia|lia| | |].
  - intros h Hh. unfold SpendCapability.scope_error in Esc. rewrite Hh in Esc.
    destruct sc as [h'|]; [|done]. by case_decide; subst.
  - by case_decide.
  - by case_decide.
Qed.

Lemma order_snoc log ev :
  (∀ i who l1 l2, log = l1 ++ RevokedBy i who :: l2 → spent i l2 = 0) →
  (∀ i who, RevokedBy i who ∈ log → spent i [ev] = 0) →
  ∀ i who l1 l2, log ++ [ev] = l1 ++ RevokedBy i who :: l2 → spent i l2 = 0.
Proof.
  intros Ho Hev i who l1 l2 E. destruct l2 as [|x l2] using rev_ind; [done|]. clear IHl2.
  rewrite app_comm_cons, app_assoc in E. apply app_inj_tail in E as [-> <-].
  rewrite spent_app, (Ho i who l1 l2 eq_refl), (Hev i who); [done|].
  rewrite elem_of_app. right. left.
Qed.

Lemma inv_grant c n reg log :
  capability_id c ∉ (capability_id ∘ fst <$> grants log) → status c = Active →
  remaining_amount c = max_amount c → 0 ≤ max_amount c → spend_inv reg log →
  spend_inv (index c reg) (log ++ [Granted c n]).
Proof.
  intros Hfresh _ Hrem Hmax [Hc Hs Htot Hr Ho].
  assert (∀ c0 n0, (c0, n0) ∈ grants log → capability_id c0 ≠ capability_id c) as Hne.
  { intros c0 n0 Hin E. apply Hfresh. rewrite <- E.
    by apply (list_elem_of_fmap_2 (capability_id ∘ fst) _ (c0, n0)). }
  assert (∀ i, spent i (log ++ [Granted c n]) = spent i log) as Hsp.
  { intros i. rewrite spent_app. cbn. lia. }
  assert (spent (capability_id c) log = 0) as Hz.
  { unfold spent. assert (omap (λ ev, match ev with Spent j _ amt _ _ =>
      if decide (j = capability_id c) then Some amt else None | _ => None end) log = []) as ->; [|done].
    apply elem_of_nil_inv. intros z (ev & Hev & Ez)%list_elem_of_omap.
    destruct ev as [|j s amt ep sc|]; try done. case_decide as Ej; [|done].
    destruct (Hs j s amt ep sc Hev) as (c0 & n0 & Hg & E & _). by destruct (Hne c0 n0 Hg); congruence. }
  assert (∀ c0 n0, (c0, n0) ∈ grants (log ++ [Granted c n]) ↔ (c0, n0) ∈ grants log ∨ (c0 = c ∧ n0 = n)) as Hg.
  { intros c0 n0. rewrite grants_app, elem_of_app. cbn. rewrite list_elem_of_singleton. naive_solver. }
  split.
  - intros i c'. unfold index. cbn. intros [[<- <-]|[Hi Hc']]%lookup_insert_Some.
    + exists c, n. rewrite Hg, Hsp, Hz. split_and!; [by right|done|apply terms_refl|lia|lia].
    + destruct (Hc i c' Hc') as (c0 & n0 & ? & ? & ? & ? & ?). exists c0, n0.
      rewrite Hg, Hsp. split_and!; try done. by left.
  - intros i sp amt ep sc [Hin|[=]%list_elem_of_singleton]%elem_of_app.
    destruct (Hs i sp amt ep sc Hin) as (c0 & n0 & ? & ?). exists c0, n0. rewrite Hg. split; [by left|done].
  - intros c0 n0. rewrite Hg, Hsp. intros [?|[-> _]]; [by eapply Htot|lia].
  - intros i who [Hin|[=]%list_elem_of_singleton]%elem_of_app.
    destruct (Hr i who Hin) as [(c0 & n0 & ? & Ei & ?) Hna]. split.
    + exists c0, n0. rewrite Hg. split; [by left|done].
    + intros c'. unfold index. cbn. intros [[E <-]|[_ ?]]%lookup_insert_Some; [|by apply Hna].
      destruct (Hne c0 n0); congruence.
  - apply order_snoc; [exact Ho|]. intros i who _. done.
Qed.

Lemma grant_unique log c n c' n' :
  NoDup (capability_id ∘ fst <$> grants log) → (c, n) ∈ grants log → (c', n') ∈ grants log →
  capability_id c = capability_id c' → c = c'.
Proof.
  intros Hnd (k & Hk)%list_elem_of_lookup (k' & Hk')%list_elem_of_lookup E.
  assert (k = k') as ->; [|congruence].
  apply (NoDup_lookup _ k k' (capability_id c) Hnd); rewrite list_lookup_fmap.
  - by rewrite Hk.
  - rewrite Hk'. cbn. by rewrite E.
Qed.

Lemma inv_spend i sp amt ep sc c c' reg log :
  NoDup (capability_id ∘ fst <$> grants log) →
  capabilities reg !! i = Some c → status c = Active → amt ≤ remaining_amount c → 0 < amt →
  allowed c sp amt ep sc → same_terms c' c → remaining_amount c' = remaining_amount c - amt →
  spend_inv reg log →
  spend_inv (set_capabilities (<[i := c']> (capabilities reg)) reg) (log ++ [Spent i sp amt ep sc]).
Proof.
  intros Hnd Hi Hact Hle Hpos Hall Hterms Hrem [Hc Hs Htot Hr Ho].
  assert (∀ j, spent j (log ++ [Spent i sp amt ep sc]) = spent j log + if decide (i = j) then amt else 0) as Hsp.
  { intros j. rewrite spent_app. f_equal. cbn. case_decide; cbn; lia. }
  assert (grants (log ++ [Spent i sp amt ep sc]) = grants log) as Hg.
  { rewrite grants_app. apply app_nil_r. }
  destruct (Hc i c Hi) as (c0 & n0 & Hin0 & Ei & Ht & Hr0 & Hsum).
  assert (∀ who, RevokedBy i who ∉ log) as Hnr.
  { intros who Hin. by destruct (proj2 (Hr i who Hin) c Hi). }
  split; rewrite ?Hg; cbn [capabilities set_capabilities].
  - intros j d [[<- <-]|[Hne Hd]]%lookup_insert_Some.
    + exists c0, n0. rewrite Hsp, decide_True by done.
      split_and!; [done|done|by eapply terms_trans|lia|lia].
    + destruct (Hc j d Hd) as (d0 & m & ? & ? & ? & ? & ?). exists d0, m.
      rewrite Hsp, decide_False by done. split_and!; try done. lia.
  - intros j sp' amt' ep' sc' [Hin|[= -> -> -> -> ->]%list_elem_of_singleton]%elem_of_app; [by eapply Hs|].
    exists c0, n0. split; [done|]. split; [done|].
    destruct Ht as (_ & _ & Es & _ & _ & Ee & Eh). unfold allowed in *. by rewrite <- Es, <- Ee, <- Eh.
  - intros d m Hd. rewrite Hsp. case_decide as E; [|by specialize (Htot d m Hd); lia].
    assert (d = c0) as -> by (eapply grant_unique; [done..|congruence]).
    rewrite <- E, <- Hsum. lia.
  - intros j who [Hin|[=]%list_elem_of_singleton]%elem_of_app.
    destruct (Hr j who Hin) as [Hgr Hna]. split; [done|].
    intros d [[<- _]|[_ Hd]]%lookup_insert_Some; [by destruct (Hnr who)|by apply Hna].
  - apply order_snoc; [exact Ho|]. intros j who Hin. cbn. case_decide as E; [|done].
    subst. by destruct (Hnr who).
Qed.

Lemma inv_revoke i who c reg log :
  capabilities reg !! i = Some c → who = owner c →
  spend_inv reg log →
  spend_inv (set_capabilities (<[i := set_status Revoked c]> (capabilities reg)) reg)
    (log ++ [RevokedBy i who]).
Proof.
  intros Hi Hwho Hinv. destruct (sv_caps _ _ Hinv i c Hi) as (c0 & n0 & Hin0 & Ei & Ht & _).
  assert (tamer (capabilities reg) (<[i := set_status Revoked c]> (capabilities reg))) as Htame.
  { by eapply tamer_insert. }
  apply (inv_tamer _ (set_capabilities (<[i := set_status Revoked c]> (capabilities reg)) reg) _ Htame) in Hinv
    as [Hc Hs Htot Hr Ho].
  assert (∀ j, spent j (log ++ [RevokedBy i who]) = spent j log) as Hsp.
  { intros j. rewrite spent_app. cbn. lia. }
  assert (grants (log ++ [RevokedBy i who]) = grants log) as Hg.
  { rewrite grants_app. apply app_nil_r. }
  split; rewrite ?Hg; cbn [capabilities set_capabilities].
  - intros j d Hd. rewrite Hsp. by apply Hc.
  - intros j sp amt ep sc [Hin|[=]%list_elem_of_singleton]%elem_of_app. by eapply Hs.
  - intros d m Hd. rewrite Hsp. by eapply Htot.
  - intros j who' [Hin|[= -> ->]%list_elem_of_singleton]%elem_of_app; [by apply Hr|]. split.
    + exists c0, n0. split_and!; [done..|]. rewrite Hwho. apply Ht.
    + cbn. intros d. rewrite lookup_insert_eq. by intros [= <-].
  - apply order_snoc; [exact Ho|]. intros j who' _. done.
Qed.

Lemma spend_step_inv op reg log :
  spend_fits op → NoDup (capability_id ∘ fst <$> grants (log ++ (spend_step op reg).2)) →
  spend_inv reg log → spend_inv (spend_step op reg).1 (log ++ (spend_step op reg).2).
Proof.
  intros Hf Hnd Hinv. destruct op as [who sp a mx ex sc ep|i sp amt ep sc|i who|who|ep|ep]; cbn [spend_step] in *.
  - destruct (create who sp a mx ex sc ep reg) as [reg' r] eqn:E.
    destruct (create_cases _ _ _ _ _ _ _ _ _ _ E) as [(e & -> & ->)|(-> & Hmx & ->)]; cbn [fst snd] in *.
    { rewrite app_nil_r. by apply (inv_tamer reg); [apply tamer_refl|]. }
    revert Hnd. unfold get. change (capabilities (index ?c ?r)) with (<[capability_id c := c]> (capabilities r)).
    cbn [capability_id]. rewrite lookup_insert_eq. intros Hnd. destruct Hf as (_ & _ & _ & Hf).
    apply inv_grant; [|done|done|cbn; ints|by apply (inv_tamer reg); [apply tamer_refl|]].
    rewrite grants_app, fmap_app in Hnd. apply NoDup_app in Hnd as (_ & Hd & _).
    intros Hin. apply (Hd _ Hin). cbn. left.
  - unfold consume, on_capability in *. destruct (capabilities reg !! i) as [c|] eqn:Hi; [|by rewrite app_nil_r].
    destruct (SpendCapability.consume sp amt ep sc c) as [c' r] eqn:E.
    destruct (consume_cases _ _ _ _ _ _ _ E) as [((e & ->) & Hc')|
      (-> & Hact & Hle & Hne & Hep & Hsp & Hsc & Hterms & Hrem)]; cbn [fst snd] in *.
    + rewrite app_nil_r. apply (inv_tamer reg); [|done].
      apply (tamer_insert _ _ c); [done|..]; by destruct Hc' as [->| ->].
    + cbn in Hf. rewrite grants_app, app_nil_r in Hnd.
      apply (inv_spend i sp amt ep sc c c'); try done; [lia|]. split_and!; [done|lia|done|done].
  - unfold revoke, on_capability in *. destruct (capabilities reg !! i) as [c|] eqn:Hi; [|by rewrite app_nil_r].
    unfold SpendCapability.revoke in *.
    destruct (decide (who ≠ owner c)) as [|Hw%dec_stable]; cbn [fst snd].
    { rewrite app_nil_r. apply (inv_tamer reg); [|done]. by apply (tamer_insert _ _ c). }
    destruct (decide (status c ≠ Active)); cbn [fst snd].
    { rewrite app_nil_r. apply (inv_tamer reg); [|done]. by apply (tamer_insert _ _ c). }
    by apply inv_revoke.
  - rewrite app_nil_r. apply (inv_tamer reg); [|done]. unfold revoke_all_by_owner.
    pose proof (tamer_retire Revoked (default [] (by_owner reg !! who)) (capabilities reg) 0) as Ht.
    destruct (foldl (retire Revoked) _ _) as [m n]. by apply Ht.
  - rewrite app_nil_r. apply (inv_tamer reg); [|done]. unfold expire_stale.
    set (es := filter _ _).
    pose proof (tamer_retire_all Expired ((λ e, default [] (by_expiration reg !! e)) <$> es)
      (capabilities reg) 0) as Ht. rewrite foldl_fmap in Ht.
    destruct (foldl _ _ es) as [m n]. by apply Ht.
  - rewrite app_nil_r. apply (inv_tamer reg); [|done]. unfold prune. cbn.
    intros i c [Hc _]%map_lookup_filter_Some. exists c. by split_and!.
Qed.

Lemma spend_run_inv ops :
  Forall spend_fits ops → NoDup (capability_id ∘ fst <$> grants (spend_run ops).2) →
  spend_inv (spend_run ops).1 (spend_run ops).2.
Proof.
  induction ops as [|op ops IH] using rev_ind; intros Hf Hnd.
  - split; cbn.
    + by intros i c ?%lookup_empty_Some.
    + by intros i ???? ?%elem_of_nil.
    + by intros c n ?%elem_of_nil.
    + by intros i who ?%elem_of_nil.
    + by intros i who [] l2.
  - apply Forall_app in Hf as [Hf Hop]. rewrite run_snoc in *. cbn [fst snd] in *.
    apply spend_step_inv; [by inversion Hop|done|]. apply IH; [done|].
    rewrite grants_app, fmap_app in Hnd. by apply NoDup_app in Hnd as [? _].
Qed.

(** ** The property *)

(** C25: Over any history of the registry, with revocations, expiries and pruning in
    between, no more is spent through a capability than was granted; every spend is
    of a granted capability, by its spender, before its expiration and in its
    scope; and after its owner revoked a capability nothing is spent through it. *)
Theorem spend_bounded (ops : list spend_op) (reg : SpendCapabilityRegistry) (log : list spend_event) :
  Z.of_nat (length ops) < 2 ^ 64 → Forall spend_fits ops → spend_run ops = (reg, log) →
  no_collision (grant_bytes <$> grants log) (grant_bytes <$> grants log) →
  (∀ c n, (c, n) ∈ grants log → spent (capability_id c) log ≤ max_amount c) ∧
  (∀ i sp amt ep sc, Spent i sp amt ep sc ∈ log →
     ∃ c n, (c, n) ∈ grants log ∧ capability_id c = i ∧ allowed c sp amt ep sc) ∧
  (∀ i who l1 l2, log = l1 ++ RevokedBy i who :: l2 → spent i l2 = 0 ∧
     ∃ c n, (c, n) ∈ grants log ∧ capability_id c = i ∧ who = owner c).
Proof.
  intros Hlen Hf E Hcol. pose proof (run_ids ops Hlen Hf) as Hnd. pose proof (spend_run_inv ops Hf) as Hinv.
  rewrite E in *. destruct (Hinv (Hnd Hcol)) as [_ Hs Htot Hr Ho]. split_and!; [done|done|].
  intros i who l1 l2 El. split; [by eapply Ho|].
  assert (RevokedBy i who ∈ log) as Hin by (rewrite El; apply elem_of_app; right; left).
  apply (Hr i who Hin).
Qed.
End histories.

(** ** Sample run *)

(** A grant of 100, spends of 60 and 50 (refused), by a stranger (refused), out of
    scope (refused), a revocation and a late spend (refused). *)
Abbreviation sample_capability :=
  (@SpendCapability.compute_id sample_sha256 1 2 3 100 0).
Abbreviation sample_spends :=
  [TryGrant 1 2 3 100 50 (Some 9) 10; TrySpend sample_capability 2 60 20 (Some 9);
   TrySpend sample_capability 2 50 20 (Some 9); TrySpend sample_capability 4 10 20 (Some 9);
   TrySpend sample_capability 2 10 20 None; TryRevoke sample_capability 1;
   TrySpend sample_capability 2 10 21 (Some 9)].

Lemma spend_bounded_witness :
  length (@spend_run sample_sha256 sample_spends).2 = 3%nat ∧
  spent sample_capability (@spend_run sample_sha256 sample_spends).2 = 60 ∧
  ∀ c n, (c, n) ∈ grants (@spend_run sample_sha256 sample_spends).2 →
    spent (capability_id c) (@spend_run sample_sha256 sample_spends).2 ≤ max_amount c.
Proof.
  split; [vm_compute; reflexivity|]. split; [vm_compute; reflexivity|].
  destruct (@spend_run sample_sha256 sample_spends) as [reg log] eqn:E.
  apply (@spend_bounded sample_sha256 sample_spends reg log).
  - vm_compute. reflexivity.
  - repeat constructor; by_eval.
  - exact E.
  - replace log with (@spend_run sample_sha256 sample_spends).2 by (rewrite E; reflexivity).
    apply collision_free_sound. vm_compute. reflexivity.
Defined.
