(* ===== verification/Sponsorship.v ===== *)
(** * Validation of sponsored intents

    Whether a sponsor pays for an intent, and how much
    (src/runtime/src/intents/sponsorship.rs): signature, replay protection, the
    sponsor's limits, and the split of the fee. *)

From stdpp Require Import gmap strings list pretty.
From S2P Require Import Prelude Errors Objects Concrete FeeEnvelope Intents Artifacts.

(* @src src/runtime/src/intents/sponsorship.rs:11-17 SponsorshipValidation *)
Record SponsorshipValidation : Type := mkValidation {
  valid : bool;
  fee_payer : id32;
  sponsor_pays_amount : Z;
  sender_pays_amount : Z;
  sv_reason : string }.

(* @src src/runtime/src/intents/sponsorship.rs:21-26 SponsorReplayTracker *)
Record SponsorReplayTracker : Type := mkReplay {
  seen : gmap (Z * Z) Z;
  by_epoch : gmap Z (list (Z * Z)) }.

Module SponsorReplayTracker.
(* @src src/runtime/src/intents/sponsorship.rs:29-29 SponsorReplayTracker::new *)
Definition new : SponsorReplayTracker := mkReplay ∅ ∅.

(* @src src/runtime/src/intents/sponsorship.rs:33-41 SponsorReplayTracker::check_and_mark *)
Definition check_and_mark (sp tx : id32) (epoch : Z) (t : SponsorReplayTracker)
  : SponsorReplayTracker * bool :=
  let key := (sp, tx) in
  if decide (is_Some (seen t !! key)) then (t, false)
  else (mkReplay (<[key := epoch]> (seen t))
          (<[epoch := default [] (by_epoch t !! epoch) ++ [key]]> (by_epoch t)), true).

(* @src src/runtime/src/intents/sponsorship.rs:44-46 SponsorReplayTracker::check_and_mark_untracked *)
Definition check_and_mark_untracked (sp tx : id32) (t : SponsorReplayTracker)
  : SponsorReplayTracker * bool := check_and_mark sp tx 0 t.

(* @src src/runtime/src/intents/sponsorship.rs:49-51 SponsorReplayTracker::is_replay *)
Definition is_replay (t : SponsorReplayTracker) (sp tx : id32) : bool :=
  bool_decide (is_Some (seen t !! (sp, tx))).

(** Takes the keys of one epoch out. *)
Definition prune_epoch (acc : SponsorReplayTracker * nat) (epoch : Z) : SponsorReplayTracker * nat :=
  match by_epoch acc.1 !! epoch with
  | Some keys =>
      (mkReplay (foldl (λ m k, delete k m) (seen acc.1) keys) (delete epoch (by_epoch acc.1)),
       (acc.2 + length keys)%nat)
  | None => acc
  end.
(* @src src/runtime/src/intents/sponsorship.rs:55-67 SponsorReplayTracker::prune *)
Definition prune (before_epoch : Z) (t : SponsorReplayTracker) : SponsorReplayTracker * nat :=
  foldl prune_epoch (t, 0%nat) (filter (λ e, e < before_epoch) (btree_keys (by_epoch t))).

(* @src src/runtime/src/intents/sponsorship.rs:70-73 SponsorReplayTracker::clear *)
Definition clear (t : SponsorReplayTracker) : SponsorReplayTracker := mkReplay ∅ ∅.
(* @src src/runtime/src/intents/sponsorship.rs:75-75 SponsorReplayTracker::len *)
Definition len (t : SponsorReplayTracker) : nat := size (seen t).
(* @src src/runtime/src/intents/sponsorship.rs:76-76 SponsorReplayTracker::is_empty *)
Definition is_empty (t : SponsorReplayTracker) : bool := bool_decide (seen t = ∅).
End SponsorReplayTracker.

#[export] Instance FeePolicy_eq_dec : EqDecision FeePolicy.
Proof. solve_decision. Defined.

Module SponsorshipValidator.
(* @src src/runtime/src/intents/sponsorship.rs:221-229 SponsorshipValidator::reject *)
Definition reject (why : string) : SponsorshipValidation := mkValidation false 0 0 0 why.

(* @src src/runtime/src/intents/sponsorship.rs:162-169 SponsorshipValidator::validate *)
Definition intent_type_name (i : IntentType) : string :=
  match i with
  | ITransfer _ => "transfer"
  | ISwap _ => "swap"
  | IYieldAllocate _ => "yield_allocate"
  | ITreasuryRebalance _ => "treasury_rebalance"
  | IRouteLiquidity _ => "route_liquidity"
  | IContractCall _ => "contract_call"
  end.

(** Steps 5 to 9, the sponsor's limits: the first that is exceeded. *)
(* @src src/runtime/src/intents/sponsorship.rs:135-143 SponsorshipValidator::validate *)
Definition check_gas (tx : IntentTransaction) : outcome string () :=
  match max_gas (sponsorship_limits tx) with
  | Some g =>
      if decide (g < max_fee tx)
      then Err ("intent max_fee " +:+ pretty (max_fee tx) +:+ " exceeds sponsor max_gas limit " +:+ pretty g)%string
      else Ok tt
  | None => Ok tt
  end.
(* @src src/runtime/src/intents/sponsorship.rs:149-156 SponsorshipValidator::validate *)
Definition check_fee (tx : IntentTransaction) : outcome string () :=
  match max_fee_amount (sponsorship_limits tx) with
  | Some m =>
      if decide (fee_policy tx = SponsorPays ∧ m < max_fee tx)
      then Err ("intent max_fee " +:+ pretty (max_fee tx) +:+ " exceeds sponsor max_fee_amount limit " +:+ pretty m)%string
      else Ok tt
  | None => Ok tt
  end.
(* @src src/runtime/src/intents/sponsorship.rs:158-174 SponsorshipValidator::validate *)
Definition check_type (tx : IntentTransaction) : outcome string () :=
  let types := allowed_intent_types (sponsorship_limits tx) in
  let name := intent_type_name (intent tx) in
  if decide (types ≠ [] ∧ name ∉ types)
  then Err ("intent type '" +:+ name +:+ "' not in sponsor's allowed types")%string else Ok tt.
(* @src src/runtime/src/intents/sponsorship.rs:176-186 SponsorshipValidator::validate *)
Definition check_objects (tx : IntentTransaction) : outcome string () :=
  let objs := sl_allowed_objects (sponsorship_limits tx) in
  if decide (objs = []) then Ok tt
  else ofor (λ o, if decide (o ∈ objs) then Ok tt
    else Err ("intent targets object " +:+ debug_object_id o +:+ " not in sponsor's allowed objects")%string)
    (target_objects tx).
(* @src src/runtime/src/intents/sponsorship.rs:188-196 SponsorshipValidator::validate *)
Definition check_expiration (tx : IntentTransaction) (current_epoch : Z) : outcome string () :=
  match Intents.expiration_epoch (sponsorship_limits tx) with
  | Some e =>
      if decide (e ≤ current_epoch)
      then Err ("sponsorship expired at epoch " +:+ pretty e +:+ " (current: " +:+ pretty current_epoch +:+ ")")%string
      else Ok tt
  | None => Ok tt
  end.
Definition limit_checks (tx : IntentTransaction) (current_epoch : Z) : outcome string () :=
  check_gas tx ≫= λ _, check_fee tx ≫= λ _, check_type tx ≫= λ _, check_objects tx ≫= λ _,
  check_expiration tx current_epoch.

(** Step 10: what the sponsor and the sender pay. *)
(* @src src/runtime/src/intents/sponsorship.rs:199-210 SponsorshipValidator::validate *)
Definition fee_split (tx : IntentTransaction) : Z * Z :=
  match fee_policy tx with
  | SponsorPays => (max_fee tx, 0)
  | SponsorThenSender =>
      let cap := default (max_fee tx) (max_fee_amount (sponsorship_limits tx)) in
      if decide (max_fee tx ≤ cap) then (max_fee tx, 0) else (cap, max_fee tx - cap)
  | SenderPays => (0, max_fee tx)
  end.

(* @src src/runtime/src/intents/sponsorship.rs:96-219 SponsorshipValidator::validate *)
Definition validate `{Sha256, Ed25519} (tx : IntentTransaction) (current_epoch : Z)
    (t : SponsorReplayTracker) : SponsorReplayTracker * SponsorshipValidation :=
  match (if decide (fee_policy tx = SenderPays) then None else sponsor tx) with
  | None => (t, mkValidation true (sender tx) 0 (max_fee tx) EmptyString)
  | Some sp =>
      if decide (sp = 0) then (t, reject "sponsor address must be non-zero"%string)
      else if decide (sp = sender tx)
      then (t, reject "sponsor and sender must be different addresses"%string)
      else if decide (sponsor_signature tx = None)
      then (t, reject "sponsored intent requires sponsor_signature"%string)
      else if negb (IntentTransaction.verify_sponsor_signature tx)
      then (t, reject "invalid sponsor signature"%string)
      else
        let '(t, fresh) := SponsorReplayTracker.check_and_mark sp (tx_id tx) current_epoch t in
        if negb fresh
        then (t, reject "sponsor replay: this (sponsor, tx_id) pair was already used"%string)
        else match limit_checks tx current_epoch with
        | Err why => (t, reject why)
        | Panic => (t, reject EmptyString)
        | Ok _ =>
            let '(sponsor_pays, sender_pays) := fee_split tx in
            (t, mkValidation true sp sponsor_pays sender_pays EmptyString)
        end
  end.
End SponsorshipValidator.
Import SponsorReplayTracker SponsorshipValidator.

(** ** Lemmas *)

(** The limits a sponsor sets. *)
Record within_limits (tx : IntentTransaction) (epoch : Z) : Prop := {
  wl_gas g : max_gas (sponsorship_limits tx) = Some g → max_fee tx ≤ g;
  wl_fee m : max_fee_amount (sponsorship_limits tx) = Some m → fee_policy tx = SponsorPays → max_fee tx ≤ m;
  wl_type : allowed_intent_types (sponsorship_limits tx) = [] ∨
    intent_type_name (intent tx) ∈ allowed_intent_types (sponsorship_limits tx);
  wl_objects : sl_allowed_objects (sponsorship_limits tx) = [] ∨
    ∀ o, o ∈ target_objects tx → o ∈ sl_allowed_objects (sponsorship_limits tx);
  wl_expiry e : Intents.expiration_epoch (sponsorship_limits tx) = Some e → epoch < e }.

(** A sponsor that can pay: named, not the sender, and its signature verifies. *)
Definition genuine `{Sha256, Ed25519} (tx : IntentTransaction) (sp : id32) : Prop :=
  sp ≠ 0 ∧ sp ≠ sender tx ∧ IntentTransaction.verify_sponsor_signature tx = true.

Section lemmas.
Context `{Sha256, Ed25519}.
Implicit Types (tx : IntentTransaction) (t : SponsorReplayTracker) (sp : id32).

Lemma check_gas_ok tx :
  check_gas tx = Ok tt ↔ ∀ g, max_gas (sponsorship_limits tx) = Some g → max_fee tx ≤ g.
Proof.
  unfold check_gas. destruct (max_gas _) as [g|]; [case_decide|].
  - split; [done|]. intros Hg. specialize (Hg g eq_refl). lia.
  - split; [intros _ ? [= <-]; lia|done].
  - split; [by intros _|done].
Qed.
Lemma check_fee_ok tx :
  check_fee tx = Ok tt ↔ ∀ m, max_fee_amount (sponsorship_limits tx) = Some m →
    fee_policy tx = SponsorPays → max_fee tx ≤ m.
Proof.
  unfold check_fee. destruct (max_fee_amount _) as [m|]; [case_decide as Hd|].
  - split; [done|]. intros Hm. destruct Hd as [Hp Hlt]. specialize (Hm m eq_refl Hp). lia.
  - split; [|done]. intros _ ? [= <-] Hp. destruct (decide (m < max_fee tx)); [tauto|lia].
  - split; [by intros _|done].
Qed.
Lemma check_type_ok tx :
  check_type tx = Ok tt ↔ allowed_intent_types (sponsorship_limits tx) = [] ∨
    intent_type_name (intent tx) ∈ allowed_intent_types (sponsorship_limits tx).
Proof.
  unfold check_type. case_decide as Hd; [naive_solver|]. split; [intros _|done].
  destruct (decide (allowed_intent_types (sponsorship_limits tx) = [])); [by left|right].
  apply dec_stable. tauto.
Qed.
Lemma check_objects_ok tx :
  check_objects tx = Ok tt ↔ sl_allowed_objects (sponsorship_limits tx) = [] ∨
    ∀ o, o ∈ target_objects tx → o ∈ sl_allowed_objects (sponsorship_limits tx).
Proof.
  unfold check_objects. case_decide; [tauto|]. rewrite ofor_ok, Forall_forall. split.
  - intros Hall. right. intros o Ho. specialize (Hall o Ho). cbn in Hall. by case_decide.
  - intros [?|Hall] o Ho; [done|]. rewrite decide_True by auto. done.
Qed.
Lemma check_expiration_ok tx epoch :
  check_expiration tx epoch = Ok tt ↔
  ∀ e, Intents.expiration_epoch (sponsorship_limits tx) = Some e → epoch < e.
Proof.
  unfold check_expiration. destruct (Intents.expiration_epoch _) as [e|]; [case_decide|].
  - split; [done|]. intros He. specialize (He e eq_refl). lia.
  - split; [intros _ ? [= <-]; lia|done].
  - split; [by intros _|done].
Qed.

Lemma limit_checks_ok tx epoch : limit_checks tx epoch = Ok tt ↔ within_limits tx epoch.
Proof.
  unfold limit_checks. rewrite !obind_ok. setoid_rewrite obind_ok.
  assert (∀ (o : outcome string ()) (P : Prop), (∃ a : (), o = Ok a ∧ P) ↔ o = Ok tt ∧ P) as Hu.
  { intros o P. split; [by intros ([] & ? & ?)|]. intros [? ?]. by exists tt. }
  rewrite !Hu. repeat (rewrite !obind_ok, !Hu).
  rewrite check_gas_ok, check_fee_ok, check_type_ok, check_objects_ok, check_expiration_ok.
  split; [intros (? & ? & ? & ? & ?); by split|intros []; by split_and!].
Qed.

Lemma limit_checks_no_panic tx epoch : limit_checks tx epoch ≠ Panic.
Proof.
  unfold limit_checks. repeat (apply obind_no_panic; [|intros _]).
  - unfold check_gas. destruct (max_gas _); [by case_decide|done].
  - unfold check_fee. destruct (max_fee_amount _); [by case_decide|done].
  - unfold check_type. by case_decide.
  - unfold check_objects. case_decide; [done|]. apply ofor_no_panic. intros o. by case_decide.
  - unfold check_expiration. destruct (Intents.expiration_epoch _); [by case_decide|done].
Qed.

(** The validation of a sponsored intent, with its outcome. *)
Lemma validate_cases tx epoch t sp :
  sponsor tx = Some sp → fee_policy tx ≠ SenderPays →
  let '(t', v) := validate tx epoch t in
  if decide (genuine tx sp ∧ seen t !! (sp, tx_id tx) = None) then
    seen t' = <[(sp, tx_id tx) := epoch]> (seen t) ∧
    ((within_limits tx epoch ∧ v = mkValidation true sp (fee_split tx).1 (fee_split tx).2 EmptyString) ∨
     (¬ within_limits tx epoch ∧ ∃ why, v = reject why))
  else t' = t ∧ ∃ why, v = reject why.
Proof.
  intros Hsp Hpol. unfold validate, genuine. rewrite (decide_False (P := fee_policy tx = SenderPays)), Hsp by done.
  destruct (decide (sp = 0)); [rewrite decide_False by tauto; eauto|].
  destruct (decide (sp = sender tx)); [rewrite decide_False by tauto; eauto|].
  destruct (decide (sponsor_signature tx = None)) as [Hn|].
  { assert (IntentTransaction.verify_sponsor_signature tx = false) as Hv.
    { unfold IntentTransaction.verify_sponsor_signature. by rewrite Hsp, Hn. }
    rewrite decide_False by (intros [(_ & _ & ?) _]; congruence). eauto. }
  destruct (IntentTransaction.verify_sponsor_signature tx) eqn:Hv; cbn [negb].
  2: { rewrite decide_False by (intros [(_ & _ & ?) _]; congruence). eauto. }
  unfold check_and_mark. destruct (decide (is_Some (seen t !! (sp, tx_id tx)))) as [Hs|Hs]; cbn [negb].
  { rewrite decide_False; [eauto|]. intros [_ E]. rewrite E in Hs. by destruct Hs. }
  apply eq_None_not_Some in Hs.
  destruct (limit_checks tx epoch) as [[]|why|] eqn:E; [destruct (fee_split tx) as [a b]| |];
    rewrite ?decide_True by done.
  - apply limit_checks_ok in E. split; [done|]. by left.
  - split; [done|]. right. split; [|by eexists]. intros Hw%limit_checks_ok. congruence.
  - by destruct (limit_checks_no_panic tx epoch).
Qed.

Lemma fee_split_sum tx : (fee_split tx).1 + (fee_split tx).2 = max_fee tx.
Proof. unfold fee_split. destruct (fee_policy tx); cbn; [lia|lia|]. case_decide; cbn; lia. Qed.

Lemma fee_split_cap tx epoch m :
  within_limits tx epoch → fee_policy tx ≠ SenderPays →
  max_fee_amount (sponsorship_limits tx) = Some m → (fee_split tx).1 ≤ m.
Proof.
  intros Hw Hp Hm. unfold fee_split. rewrite Hm. destruct (fee_policy tx) eqn:E; [done| |].
  - by apply (wl_fee _ _ Hw).
  - cbn. by case_decide.
Qed.
End lemmas.

(** ** Properties *)

Section properties.
Context `{Sha256, Ed25519}.

(** Who pays for an intent.  Without a sponsor, or under the sender's policy, the
    sender pays all.  A sponsored intent is accepted exactly when the sponsor is
    named, is not the sender, signed, has not been asked for this intent before,
    and its limits hold; the two parts add up to the fee, and the sponsor's is
    within its fee limit.  The intent is marked as used before the limits are
    looked at: one that fails a limit uses its sponsorship up. *)
Theorem sponsor_validate_spec (tx : IntentTransaction) (epoch : Z) (t : SponsorReplayTracker) :
  let '(t', v) := validate tx epoch t in
  (fee_policy tx = SenderPays ∨ sponsor tx = None →
     t' = t ∧ v = mkValidation true (sender tx) 0 (max_fee tx) EmptyString) ∧
  ∀ sp, sponsor tx = Some sp → fee_policy tx ≠ SenderPays →
    (valid v = true ↔
       genuine tx sp ∧ seen t !! (sp, tx_id tx) = None ∧ within_limits tx epoch) ∧
    (valid v = true → fee_payer v = sp ∧
       sponsor_pays_amount v + sender_pays_amount v = max_fee tx ∧
       ∀ m, max_fee_amount (sponsorship_limits tx) = Some m → sponsor_pays_amount v ≤ m) ∧
    (valid v = false → fee_payer v = 0 ∧ sponsor_pays_amount v = 0 ∧ sender_pays_amount v = 0) ∧
    (genuine tx sp → is_Some (seen t' !! (sp, tx_id tx))).
Proof.
  destruct (validate tx epoch t) as [t' v] eqn:E. split.
  { intros Hs. unfold validate in E. replace (if decide (fee_policy tx = SenderPays) then None else sponsor tx)
      with (@None id32) in E; [by injection E as <- <-|]. case_decide; [done|]. by destruct Hs. }
  intros sp Hsp Hpol. pose proof (validate_cases tx epoch t sp Hsp Hpol) as Hc. rewrite E in Hc.
  case_decide as Hg.
  - destruct Hc as (Hs & [(Hw & ->)|(Hw & why & ->)]); cbn.
    + split_and!; [naive_solver| |done|].
      * intros _. split_and!; [done|apply fee_split_sum|]. intros m. by apply (fee_split_cap tx epoch).
      * intros _. rewrite Hs, lookup_insert_eq. by eexists.
    + split_and!; [naive_solver|done|done|]. intros _. rewrite Hs, lookup_insert_eq. by eexists.
  - destruct Hc as (-> & why & ->). cbn. split_and!; [naive_solver|done|done|].
    intros Hgen. destruct (seen t !! (sp, tx_id tx)) eqn:Es; [by eexists|]. by destruct Hg.
Qed.
End properties.

(** ** Sample run *)

(** An intent of fee 1000 whose sponsor pays up to 600. *)
Definition sponsored (limits : SponsorshipLimits) : IntentTransaction :=
  let t sig := {| tx_id := 900; sender := 1; intent := sample_transfer; max_fee := 1000;
     it_deadline_epoch := 50; nonce := 0; signature := []; metadata := ∅; target_objects := [];
     constraints := default_constraints; execution_mode := BestEffort;
     sponsor := Some 2; sponsor_signature := Some sig; sponsorship_limits := limits;
     fee_policy := SponsorThenSender; fee_envelope := None |} in
  t (@IntentTransaction.sign_sponsorship sample_sha256 sample_ed25519 (t []) 2).
Abbreviation sample_validate := (λ l e t, @validate sample_sha256 sample_ed25519 (sponsored l) e t).

Definition capped : SponsorshipLimits := mkSponsorshipLimits None (Some 600) [] [] (Some 40).

(** The sponsor pays up to its cap; after a rejected attempt it pays no more. *)
Lemma sponsor_validate_spec_witness :
  (sample_validate capped 10 SponsorReplayTracker.new).2 = mkValidation true 2 600 400 EmptyString ∧
  valid (sample_validate capped 45 SponsorReplayTracker.new).2 = false ∧
  valid (sample_validate capped 10 (sample_validate capped 45 SponsorReplayTracker.new).1).2 = false ∧
  is_Some (seen (sample_validate capped 45 SponsorReplayTracker.new).1 !! (2, 900)).
Proof.
  split; [vm_compute; reflexivity|]. split; [vm_compute; reflexivity|].
  split; [vm_compute; reflexivity|].
  pose proof (@sponsor_validate_spec sample_sha256 sample_ed25519 (sponsored capped) 45
    SponsorReplayTracker.new) as Hs.
  destruct (@validate sample_sha256 sample_ed25519 (sponsored capped) 45 SponsorReplayTracker.new)
    as [t v]. destruct Hs as [_ Hs].
  destruct (Hs 2 eq_refl ltac:(discriminate)) as (_ & _ & _ & Hg). apply Hg.
  split; [discriminate|]. split; [discriminate|]. vm_compute. reflexivity.
Defined.
