(* ===== verification/Slashing.v ===== *)
(** * Slashing, jail and bonds

    Offenses and their cumulative slash, the jail with its cooldown, and the
    operator bonds that slashes draw on (src/poseq/src/slashing/ and
    src/poseq/src/bonding/).  The theorems say exactly who is jailed after any
    history, and that a bond is split between what is slashed and what is left. *)

From stdpp Require Import gmap strings list.
From S2P Require Import Prelude Concrete.

(** ** Offenses *)

(* @src src/poseq/src/slashing/offenses.rs:6-17 SlashableOffense *)
Inductive SlashableOffense : Type :=
| DoubleProposal | AbsentFromDuty | FairnessViolation | InvalidAttestation | ReplayAttack.

(* @src src/poseq/src/slashing/offenses.rs:21-29 SlashableOffense::label *)
Definition label (o : SlashableOffense) : string :=
  match o with
  | DoubleProposal => "double_proposal"
  | AbsentFromDuty => "absent_from_duty"
  | FairnessViolation => "fairness_violation"
  | InvalidAttestation => "invalid_attestation"
  | ReplayAttack => "replay_attack"
  end.

(* @src src/poseq/src/slashing/offenses.rs:34-42 SlashRecord *)
Record SlashRecord : Type := mkSlash {
  offense : SlashableOffense;
  sl_node_id : id32;
  sl_epoch : Z;
  evidence_hash : id32;
  slash_amount_bps : Z }.

Module SlashRecord.
(* @src src/poseq/src/slashing/offenses.rs:56-63 SlashRecord::hash_evidence *)
Definition hash_evidence `{Sha256} (evidence : bytes) : id32 := sha256 evidence.
(* @src src/poseq/src/slashing/offenses.rs:45-54 SlashRecord::new *)
Definition new `{Sha256} (o : SlashableOffense) (node : id32) (epoch : Z) (evidence : bytes) (bps : Z)
  : SlashRecord := mkSlash o node epoch (hash_evidence evidence) bps.
End SlashRecord.

(* @src src/poseq/src/slashing/offenses.rs:68-83 SlashingConfig *)
Record SlashingConfig : Type := mkSlashingConfig {
  double_proposal_bps : Z;
  absent_from_duty_bps : Z;
  fairness_violation_bps : Z;
  invalid_attestation_bps : Z;
  replay_attack_bps : Z;
  jail_threshold_bps : Z;
  unjail_cooldown_epochs : Z }.

Module SlashingConfig.
(* @src src/poseq/src/slashing/offenses.rs:86-96 SlashingConfig::default_config *)
Definition default_config : SlashingConfig := mkSlashingConfig 500 50 200 100 50 1000 10.

(* @src src/poseq/src/slashing/offenses.rs:99-107 SlashingConfig::slash_rate *)
Definition slash_rate (cfg : SlashingConfig) (o : SlashableOffense) : Z :=
  match o with
  | DoubleProposal => double_proposal_bps cfg
  | AbsentFromDuty => absent_from_duty_bps cfg
  | FairnessViolation => fairness_violation_bps cfg
  | InvalidAttestation => invalid_attestation_bps cfg
  | ReplayAttack => replay_attack_bps cfg
  end.
End SlashingConfig.

(* @src src/poseq/src/slashing/offenses.rs:111-115 SlashingEngine *)
Record SlashingEngine : Type := mkSlashingEngine {
  config : SlashingConfig;
  cumulative_slash : gmap Z Z }.

Module SlashingEngine.
(* @src src/poseq/src/slashing/offenses.rs:118-123 SlashingEngine::new *)
Definition new (cfg : SlashingConfig) : SlashingEngine := mkSlashingEngine cfg ∅.

(** It returns a [Result] and never an error. *)
(* @src src/poseq/src/slashing/offenses.rs:127-139 SlashingEngine::process_offense *)
Definition process_offense `{Sha256} {E} (o : SlashableOffense) (node : id32) (epoch : Z)
    (evidence : bytes) : M SlashingEngine E SlashRecord := λ e,
  let bps := SlashingConfig.slash_rate (config e) o in
  (mkSlashingEngine (config e)
     (<[node := sat_add 64 (entry_count node (cumulative_slash e)) bps]> (cumulative_slash e)),
   Ok (SlashRecord.new o node epoch evidence bps)).

(* @src src/poseq/src/slashing/offenses.rs:142-145 SlashingEngine::should_jail *)
Definition should_jail (e : SlashingEngine) (node : id32) : bool :=
  bool_decide (jail_threshold_bps (config e) ≤ entry_count node (cumulative_slash e)).

(* @src src/poseq/src/slashing/offenses.rs:148-150 SlashingEngine::cumulative_slash_bps *)
Definition cumulative_slash_bps (e : SlashingEngine) (node : id32) : Z :=
  entry_count node (cumulative_slash e).

(* @src src/poseq/src/slashing/offenses.rs:153-155 SlashingEngine::reset_slash *)
Definition reset_slash (node : id32) (e : SlashingEngine) : SlashingEngine :=
  mkSlashingEngine (config e) (delete node (cumulative_slash e)).
End SlashingEngine.

(** ** Jail *)

(** The errors of this part, of the shared error type of src/poseq/src/errors.rs. *)
(* @src src/poseq/src/errors.rs:156-188 Phase4Error *)
Inductive Phase4Error : Type :=
| UnknownSigner (n : id32)
| DuplicateSignature (n : id32)
| InvalidSignature (n : id32)
| InvalidRotationConfig (s : string)
| InsufficientCandidates (required available : Z)
| EpochNotFound (e : Z)
| NodeJailed (n : id32)
| AlreadyJailed (n : id32)
| NotJailed (n : id32)
| UnjailCooldownActive (eligible_at current : Z)
| SerializationError (s : string)
| DeserializationError (s : string)
| KeyNotFound (s : string)
| SimulationError (s : string)
| OffenseError (s : string).

(* @src src/poseq/src/slashing/jail.rs:6-10 JailRecord *)
Record JailRecord : Type := mkJail {
  jl_node_id : id32;
  jailed_at_epoch : Z;
  eligible_unjail_epoch : Z }.

Module JailRecord.
(* @src src/poseq/src/slashing/jail.rs:13-19 JailRecord::new *)
Definition new (node : id32) (at_epoch cooldown : Z) : JailRecord :=
  mkJail node at_epoch (sat_add 64 at_epoch cooldown).
(* @src src/poseq/src/slashing/jail.rs:22-24 JailRecord::can_unjail *)
Definition can_unjail (r : JailRecord) (current_epoch : Z) : bool :=
  bool_decide (eligible_unjail_epoch r ≤ current_epoch).
End JailRecord.

(** [JailStore] (jail.rs:28-30) is a map of records by node. *)
Abbreviation JailStore := (gmap Z JailRecord) (only parsing).

Module JailStore.
(* @src src/poseq/src/slashing/jail.rs:33-35 JailStore::new *)
Definition new : JailStore := ∅.

(* @src src/poseq/src/slashing/jail.rs:38-50 JailStore::jail *)
Definition jail (node : id32) (epoch cooldown : Z) : M JailStore Phase4Error JailRecord := λ j,
  if decide (is_Some (j !! node)) then (j, Err (AlreadyJailed node))
  else let r := JailRecord.new node epoch cooldown in (<[node := r]> j, Ok r).

(* @src src/poseq/src/slashing/jail.rs:53-66 JailStore::unjail *)
Definition unjail (node : id32) (current_epoch : Z) : M JailStore Phase4Error () := λ j,
  match j !! node with
  | None => (j, Err (NotJailed node))
  | Some r =>
      if negb (JailRecord.can_unjail r current_epoch)
      then (j, Err (UnjailCooldownActive (eligible_unjail_epoch r) current_epoch))
      else (delete node j, Ok tt)
  end.

(* @src src/poseq/src/slashing/jail.rs:69-71 JailStore::is_jailed *)
Definition is_jailed (j : JailStore) (node : id32) : bool := bool_decide (is_Some (j !! node)).
(* @src src/poseq/src/slashing/jail.rs:74-76 JailStore::get_record *)
Definition get_record (j : JailStore) (node : id32) : option JailRecord := j !! node.
(* @src src/poseq/src/slashing/jail.rs:79-81 JailStore::jailed_nodes *)
Definition jailed_nodes (j : JailStore) : list id32 := btree_keys j.
(* @src src/poseq/src/slashing/jail.rs:84-86 JailStore::jailed_count *)
Definition jailed_count (j : JailStore) : nat := size j.
End JailStore.

(** ** The store *)

(* @src src/poseq/src/slashing/store.rs:7-12 SlashingStore *)
Record SlashingStore : Type := mkSlashingStore {
  ss_records : gmap Z (list SlashRecord);
  jail_store : JailStore;
  engine : SlashingEngine }.

(* @src src/poseq/src/slashing/store.rs:85-88 ProcessResult *)
Record ProcessResult : Type := mkProcess { pr_record : SlashRecord; pr_jailed : bool }.

Module SlashingStore.
(* @src src/poseq/src/slashing/store.rs:15-21 SlashingStore::new *)
Definition new (cfg : SlashingConfig) : SlashingStore :=
  mkSlashingStore ∅ JailStore.new (SlashingEngine.new cfg).

(* @src src/poseq/src/slashing/store.rs:24-43 SlashingStore::process *)
Definition process `{Sha256} (o : SlashableOffense) (node : id32) (epoch : Z) (evidence : bytes)
  : M SlashingStore Phase4Error ProcessResult := λ s,
  match SlashingEngine.process_offense o node epoch evidence (engine s) with
  | (e, Ok r) =>
      let s := mkSlashingStore (<[node := default [] (ss_records s !! node) ++ [r]]> (ss_records s))
                 (jail_store s) e in
      if SlashingEngine.should_jail e node && negb (JailStore.is_jailed (jail_store s) node) then
        match JailStore.jail node epoch (unjail_cooldown_epochs (config e)) (jail_store s) with
        | (j, Ok _) => (mkSlashingStore (ss_records s) j e, Ok (mkProcess r true))
        | (j, Err err) => (mkSlashingStore (ss_records s) j e, Err err)
        | (j, Panic) => (mkSlashingStore (ss_records s) j e, Panic)
        end
      else (s, Ok (mkProcess r false))
  | (e, Err err) => (mkSlashingStore (ss_records s) (jail_store s) e, Err err)
  | (e, Panic) => (mkSlashingStore (ss_records s) (jail_store s) e, Panic)
  end.

(* @src src/poseq/src/slashing/store.rs:46-50 SlashingStore::unjail *)
Definition unjail (node : id32) (current_epoch : Z) : M SlashingStore Phase4Error () := λ s,
  match JailStore.unjail node current_epoch (jail_store s) with
  | (j, Ok _) => (mkSlashingStore (ss_records s) j (SlashingEngine.reset_slash node (engine s)), Ok tt)
  | (j, Err err) => (mkSlashingStore (ss_records s) j (engine s), Err err)
  | (j, Panic) => (mkSlashingStore (ss_records s) j (engine s), Panic)
  end.

(* @src src/poseq/src/slashing/store.rs:53-55 SlashingStore::get_records *)
Definition get_records (s : SlashingStore) (node : id32) : list SlashRecord :=
  default [] (ss_records s !! node).
(* @src src/poseq/src/slashing/store.rs:58-60 SlashingStore::get_jail_record *)
Definition get_jail_record (s : SlashingStore) (node : id32) : option JailRecord :=
  JailStore.get_record (jail_store s) node.
(* @src src/poseq/src/slashing/store.rs:63-65 SlashingStore::is_jailed *)
Definition is_jailed (s : SlashingStore) (node : id32) : bool := JailStore.is_jailed (jail_store s) node.
(* @src src/poseq/src/slashing/store.rs:68-70 SlashingStore::jailed_set *)
Definition jailed_set (s : SlashingStore) : gset Z := list_to_set (JailStore.jailed_nodes (jail_store s)).
(* @src src/poseq/src/slashing/store.rs:73-75 SlashingStore::total_offense_count *)
Definition total_offense_count (s : SlashingStore) : nat :=
  foldr (λ l n, (length l + n)%nat) 0%nat (btree_values (ss_records s)).
(* @src src/poseq/src/slashing/store.rs:78-80 SlashingStore::offense_count *)
Definition offense_count (s : SlashingStore) (node : id32) : nat :=
  default 0%nat (length <$> ss_records s !! node).
End SlashingStore.

(** ** Bonds *)

(* @src src/poseq/src/bonding/record.rs:7-14 BondState *)
Inductive BondState : Type := Active | PartiallySlashed | Jailed | Exhausted | Retired.
#[export] Instance BondState_eq_dec : EqDecision BondState.
Proof. solve_decision. Defined.

(* @src src/poseq/src/bonding/record.rs:18-20 BondState::is_slashable *)
Definition is_slashable (s : BondState) : bool :=
  match s with Active | PartiallySlashed | Jailed => true | _ => false end.

(* @src src/poseq/src/bonding/record.rs:42-73 OperatorBond *)
Record OperatorBond : Type := mkBond {
  operator_address : string;
  ob_node_id : id32;
  bond_amount : Z;
  bond_denom : string;
  bonded_since_epoch : Z;
  is_active : bool;
  withdrawn_at_epoch : Z;
  bond_state : BondState;
  slashed_amount : Z;
  available_bond : Z;
  last_slash_epoch : Z;
  slash_count : Z }.

Module OperatorBond.
(* @src src/poseq/src/bonding/record.rs:76-97 OperatorBond::new *)
Definition new (op : string) (node : id32) (amt : Z) (denom : string) (epoch : Z) : OperatorBond :=
  mkBond op node amt denom epoch true 0 Active 0 amt 0 0.

(** The code first fills [available_bond] in when it and [slashed_amount] are
    zero; after the early return that cannot be. *)
(* @src src/poseq/src/bonding/record.rs:106-132 OperatorBond::apply_slash *)
Definition apply_slash (slash_bps epoch : Z) (b : OperatorBond) : OperatorBond * Z :=
  if decide (available_bond b = 0) then (b, 0)
  else
    let available := if decide (available_bond b = 0 ∧ slashed_amount b = 0)
                     then bond_amount b else available_bond b in
    let amt := wrapu 64 (wrapu 128 (bond_amount b * slash_bps) / 10000) in
    let amt := if decide (amt = 0) then 1 else amt in
    let amt := if decide (available < amt) then available else amt in
    let left := available - amt in
    (mkBond (operator_address b) (ob_node_id b) (bond_amount b) (bond_denom b) (bonded_since_epoch b)
       (is_active b) (withdrawn_at_epoch b)
       (if decide (left = 0) then Exhausted
        else if decide (bond_state b = Active) then PartiallySlashed else bond_state b)
       (wrapu 64 (slashed_amount b + amt)) left epoch (wrapu 32 (slash_count b + 1)), amt).

(* @src src/poseq/src/bonding/record.rs:135-138 OperatorBond::withdraw *)
Definition withdraw (epoch : Z) (b : OperatorBond) : OperatorBond :=
  mkBond (operator_address b) (ob_node_id b) (bond_amount b) (bond_denom b) (bonded_since_epoch b)
    false epoch (bond_state b) (slashed_amount b) (available_bond b) (last_slash_epoch b) (slash_count b).
End OperatorBond.

(* @src src/poseq/src/bonding/record.rs:143-150 BondError *)
Inductive BondError : Type :=
| BondAlreadyActive | BondNotFound | BondAlreadyWithdrawn | InvalidBondAmount | InvalidDenom
| BondExhausted.

(* @src src/poseq/src/bonding/store.rs:10-15 BondingStore *)
Record BondingStore : Type := mkBonding {
  bonds : gmap (string * Z) OperatorBond;
  node_index : gmap Z string }.

Module BondingStore.
(* @src src/poseq/src/bonding/store.rs:18-23 BondingStore::new *)
Definition new : BondingStore := mkBonding ∅ ∅.

(* @src src/poseq/src/bonding/store.rs:27-51 BondingStore::declare *)
Definition declare (op : string) (node : id32) (amt : Z) (denom : string) (epoch : Z)
  : M BondingStore BondError () := λ s,
  if decide (amt = 0) then (s, Err InvalidBondAmount)
  else if decide (denom = EmptyString) then (s, Err InvalidDenom)
  else if match bonds s !! (op, node) with Some b => is_active b | None => false end
  then (s, Err BondAlreadyActive)
  else (mkBonding (<[(op, node) := OperatorBond.new op node amt denom epoch]> (bonds s))
          (<[node := op]> (node_index s)), Ok tt).

(* @src src/poseq/src/bonding/store.rs:54-68 BondingStore::withdraw *)
Definition withdraw (op : string) (node : id32) (epoch : Z) : M BondingStore BondError () := λ s,
  match bonds s !! (op, node) with
  | None => (s, Err BondNotFound)
  | Some b =>
      if negb (is_active b) then (s, Err BondAlreadyWithdrawn)
      else (mkBonding (<[(op, node) := OperatorBond.withdraw epoch b]> (bonds s))
              (delete node (node_index s)), Ok tt)
  end.

(* @src src/poseq/src/bonding/store.rs:71-73 BondingStore::get *)
Definition get (s : BondingStore) (op : string) (node : id32) : option OperatorBond :=
  bonds s !! (op, node).
(* @src src/poseq/src/bonding/store.rs:76-79 BondingStore::get_by_node *)
Definition get_by_node (s : BondingStore) (node : id32) : option OperatorBond :=
  op ← node_index s !! node; bonds s !! (op, node).
(* @src src/poseq/src/bonding/store.rs:82-88 BondingStore::has_active_bond *)
Definition has_active_bond (s : BondingStore) (node : id32) : bool :=
  default false (is_active <$> get_by_node s node).
(* @src src/poseq/src/bonding/store.rs:96-98 BondingStore::operator_for_node *)
Definition operator_for_node (s : BondingStore) (node : id32) : option string := node_index s !! node.
(* @src src/poseq/src/bonding/store.rs:101-110 BondingStore::load_from_chain *)
Definition load_from_chain (l : list OperatorBond) : BondingStore :=
  foldl (λ s b,
    mkBonding (<[(operator_address b, ob_node_id b) := b]> (bonds s))
      (if is_active b then <[ob_node_id b := operator_address b]> (node_index s) else node_index s))
    new l.
End BondingStore.

(** ** Histories *)

Inductive slash_op : Type :=
| Offend (o : SlashableOffense) (node : id32) (epoch : Z) (evidence : bytes)
| TryUnjail (node : id32) (epoch : Z).

Inductive slash_event : Type :=
| Offended (node : id32) (bps : Z)
| JailedAt (node : id32) (epoch : Z)
| Unjailed (node : id32).

Section histories.
Context `{Sha256}.
Implicit Types (s : SlashingStore) (log : list slash_event) (n : id32) (cfg : SlashingConfig).

Definition slash_step (op : slash_op) s : SlashingStore * list slash_event :=
  match op with
  | Offend o n e ev =>
      let '(s', r) := SlashingStore.process o n e ev s in
      (s', match r with
           | Ok p => Offended n (slash_amount_bps (pr_record p)) ::
                     (if pr_jailed p then [JailedAt n e] else [])
           | _ => []
           end)
  | TryUnjail n e =>
      let '(s', r) := SlashingStore.unjail n e s in
      (s', match r with Ok _ => [Unjailed n] | _ => [] end)
  end.
Definition slash_run cfg (ops : list slash_op) : SlashingStore * list slash_event :=
  foldl (λ st op, let '(s', l) := slash_step op st.1 in (s', st.2 ++ l)) (SlashingStore.new cfg, []) ops.

(** The slash a node has gathered since it was last released. *)
Definition tally n log : Z :=
  foldl (λ acc ev, match ev with
    | Offended m bps => if decide (m = n) then sat_add 64 acc bps else acc
    | JailedAt _ _ => acc
    | Unjailed m => if decide (m = n) then 0 else acc
    end) 0 log.
(** The epoch at which a node was jailed, if it was not released since. *)
Definition last_jail n log : option Z :=
  foldl (λ acc ev, match ev with
    | Offended _ _ => acc
    | JailedAt m e => if decide (m = n) then Some e else acc
    | Unjailed m => if decide (m = n) then None else acc
    end) None log.

Record slash_inv cfg s log : Prop := {
  sj_config : config (engine s) = cfg;
  sj_tally n : entry_count n (cumulative_slash (engine s)) = tally n log;
  sj_jail n : is_Some (jail_store s !! n) ↔ jail_threshold_bps cfg ≤ tally n log;
  sj_cooldown n : eligible_unjail_epoch <$> jail_store s !! n =
    (λ e, sat_add 64 e (unjail_cooldown_epochs cfg)) <$> last_jail n log }.

Lemma tally_app n l l' : tally n (l ++ l') = foldl (λ acc ev, match ev with
    | Offended m bps => if decide (m = n) then sat_add 64 acc bps else acc
    | JailedAt _ _ => acc
    | Unjailed m => if decide (m = n) then 0 else acc
    end) (tally n l) l'.
Proof. apply foldl_app. Qed.

Lemma entry_insert n x (m : gmap id32 Z) : entry_count n (<[n := x]> m) = x.
Proof. unfold entry_count. by rewrite lookup_insert_eq. Qed.

(** What processing an offense does: it never fails, and jails exactly when the
    node reaches the threshold outside the jail. *)
Lemma process_cases cfg o n e ev s :
  config (engine s) = cfg →
  let bps := SlashingConfig.slash_rate cfg o in
  let total := sat_add 64 (entry_count n (cumulative_slash (engine s))) bps in
  let r := SlashRecord.new o n e ev bps in
  let jails := bool_decide (jail_threshold_bps cfg ≤ total) && negb (bool_decide (is_Some (jail_store s !! n))) in
  let '(s', res) := SlashingStore.process o n e ev s in
  res = Ok (mkProcess r jails) ∧ config (engine s') = cfg ∧
  cumulative_slash (engine s') = <[n := total]> (cumulative_slash (engine s)) ∧
  jail_store s' = (if jails then <[n := JailRecord.new n e (unjail_cooldown_epochs cfg)]> (jail_store s)
                   else jail_store s).
Proof.
  intros <-. unfold SlashingStore.process, SlashingEngine.process_offense, SlashingEngine.should_jail,
    JailStore.is_jailed, JailStore.jail. cbn [config cumulative_slash jail_store engine ss_records].
  cbv zeta. rewrite entry_insert.
  repeat case_bool_decide; cbn; try done. destruct (decide _); [done|]. by cbn.
Qed.

Lemma slash_step_inv cfg op s log :
  0 < jail_threshold_bps cfg < 2 ^ 64 →
  match op with Offend o _ _ _ => 0 ≤ SlashingConfig.slash_rate cfg o | _ => True end →
  slash_inv cfg s log → slash_inv cfg (slash_step op s).1 (log ++ (slash_step op s).2).
Proof.
  intros Hth Hpos [Hc Ht Hj Hcool]. destruct op as [o n e ev|n e]; cbn [slash_step].
  - pose proof (process_cases cfg o n e ev s Hc) as Hp. cbv zeta in Hp.
    destruct (SlashingStore.process o n e ev s) as [s' res]. destruct Hp as (-> & Hc' & Hcum & Hjs).
    cbn [fst snd slash_amount_bps pr_record pr_jailed SlashRecord.new].
    assert (∀ m, tally m (log ++ Offended n (SlashingConfig.slash_rate cfg o) ::
      (if bool_decide (jail_threshold_bps cfg ≤ sat_add 64 (entry_count n (cumulative_slash (engine s)))
         (SlashingConfig.slash_rate cfg o)) && negb (bool_decide (is_Some (jail_store s !! n)))
       then [JailedAt n e] else [])) =
      if decide (n = m) then sat_add 64 (tally n log) (SlashingConfig.slash_rate cfg o) else tally m log) as Htm.
    { intros m. rewrite tally_app. cbn [foldl].
      destruct (decide (n = m)) as [->|]; by destruct (bool_decide _ && _). }
    rewrite (Ht n) in Htm, Hcum, Hjs |- *. split; [done| | |].
    + intros m. rewrite Htm, Hcum. destruct (decide (n = m)) as [<-|]; [by rewrite entry_insert|].
      rewrite <- (Ht m). unfold entry_count. by rewrite lookup_insert_ne.
    + intros m. rewrite Htm, Hjs.
      destruct (decide (n = m)) as [<-|Hn].
      * specialize (Hj n).
        assert (jail_threshold_bps cfg ≤ tally n log →
          jail_threshold_bps cfg ≤ sat_add 64 (tally n log) (SlashingConfig.slash_rate cfg o)) by ints.
        destruct (bool_decide_reflect (jail_threshold_bps cfg ≤ sat_add 64 (tally n log) (SlashingConfig.slash_rate cfg o))),
          (bool_decide_reflect (is_Some (jail_store s !! n))); cbn [andb negb]; try tauto.
        rewrite lookup_insert_eq. split; [done|intros _; by eexists].
      * destruct (_ && _); [rewrite lookup_insert_ne by done|]; apply Hj.
    + intros m. unfold last_jail. rewrite foldl_app. fold (last_jail m log). cbn [foldl].
      rewrite Hjs. destruct (_ && _); cbn [foldl]; [|apply Hcool].
      destruct (decide (n = m)) as [->|]; [by rewrite lookup_insert_eq|].
      rewrite lookup_insert_ne by done. apply Hcool.
  - unfold SlashingStore.unjail, JailStore.unjail.
    destruct (jail_store s !! n) as [r|] eqn:Er; cbn [fst snd]; [|by rewrite app_nil_r].
    destruct (JailRecord.can_unjail r e); cbn [negb fst snd]; [|by rewrite app_nil_r].
    assert (∀ m, tally m (log ++ [Unjailed n]) = if decide (n = m) then 0 else tally m log) as Htm.
    { intros m. by rewrite tally_app. }
    split; cbn [config engine SlashingEngine.reset_slash jail_store cumulative_slash];
      [done| | |].
    + intros m. rewrite Htm. unfold entry_count.
      destruct (decide (n = m)) as [->|]; [by rewrite lookup_delete_eq|].
      rewrite lookup_delete_ne by done. apply Ht.
    + intros m. rewrite Htm. destruct (decide (n = m)) as [->|].
      * rewrite lookup_delete_eq. split; [by intros [? [=]]|lia].
      * rewrite lookup_delete_ne by done. apply Hj.
    + intros m. unfold last_jail. rewrite foldl_app. fold (last_jail m log). cbn [foldl].
      destruct (decide (n = m)) as [->|]; [by rewrite lookup_delete_eq|].
      rewrite lookup_delete_ne by done. apply Hcool.
Qed.

Lemma slash_run_inv cfg ops :
  0 < jail_threshold_bps cfg < 2 ^ 64 → (∀ o, 0 ≤ SlashingConfig.slash_rate cfg o) →
  slash_inv cfg (slash_run cfg ops).1 (slash_run cfg ops).2.
Proof.
  intros Hth Hpos. induction ops as [|op ops IH] using rev_ind.
  - split; cbn; [done| | |].
    + intros n. unfold entry_count. by rewrite lookup_empty.
    + intros n. unfold JailStore.new. rewrite lookup_empty. split; [by intros [? [=]]|unfold tally; cbn; lia].
    + intros n. unfold JailStore.new. by rewrite lookup_empty.
  - unfold slash_run. rewrite foldl_app. fold (slash_run cfg ops). cbn [foldl].
    pose proof (slash_step_inv cfg op _ _ Hth ltac:(by destruct op) IH) as Hs.
    destruct (slash_step op (slash_run cfg ops).1). exact Hs.
Qed.

(** ** Properties *)

(** C26: Who is in jail after any history of offenses and releases: exactly the nodes
    whose slashes since their last release reach the threshold; and a node gets out
    exactly when the cooldown after the epoch it was jailed at has passed. *)
Theorem jail_exact (cfg : SlashingConfig) (ops : list slash_op) (s : SlashingStore)
    (log : list slash_event) :
  0 < jail_threshold_bps cfg < 2 ^ 64 → (∀ o, 0 ≤ SlashingConfig.slash_rate cfg o) →
  slash_run cfg ops = (s, log) →
  (∀ n, SlashingStore.is_jailed s n = true ↔ jail_threshold_bps cfg ≤ tally n log) ∧
  (∀ n, SlashingStore.is_jailed s n = true ↔ is_Some (last_jail n log)) ∧
  ∀ n e, (SlashingStore.unjail n e s).2 = Ok tt ↔
    ∃ e0, last_jail n log = Some e0 ∧ sat_add 64 e0 (unjail_cooldown_epochs cfg) ≤ e.
Proof.
  intros Hth Hpos E. pose proof (slash_run_inv cfg ops Hth Hpos) as Hinv. rewrite E in Hinv.
  destruct Hinv as [_ _ Hj Hcool]. cbn [fst snd] in *.
  unfold SlashingStore.is_jailed, JailStore.is_jailed. split_and!.
  - intros n. by rewrite bool_decide_eq_true, Hj.
  - intros n. rewrite bool_decide_eq_true. specialize (Hcool n).
    destruct (jail_store s !! n), (last_jail n log); try discriminate Hcool; (split; intros [? [=]]); by eexists.
  - intros n e. unfold SlashingStore.unjail, JailStore.unjail, JailRecord.can_unjail. specialize (Hcool n).
    destruct (jail_store s !! n) as [r|], (last_jail n log) as [e0|]; try discriminate Hcool; cbn.
    + injection Hcool as Hel. rewrite Hel. case_bool_decide; cbn; (split; [|by intros (? & [= <-] & ?)]); eauto.
      done.
    + split; [done|]. by intros (? & [=] & _).
Qed.
End histories.

(** *** Bonds *)

Section bonds.
Implicit Types b : OperatorBond.

(** A bond is split between what was slashed and what is left. *)
Record bond_ok (amt : Z) b : Prop := {
  bo_amount : bond_amount b = amt;
  bo_split : slashed_amount b + available_bond b = amt;
  bo_available : 0 ≤ available_bond b;
  bo_slashed : 0 ≤ slashed_amount b;
  bo_state : bond_state b = Exhausted ↔ available_bond b = 0 }.

(** Slashes one after the other, with what each took. *)
Fixpoint slash_all (l : list (Z * Z)) b : OperatorBond * list Z :=
  match l with
  | [] => (b, [])
  | (bps, e) :: l =>
      let '(b1, z) := OperatorBond.apply_slash bps e b in
      let '(b2, zs) := slash_all l b1 in (b2, z :: zs)
  end.

Lemma slash_ok amt b bps e :
  0 < amt < 2 ^ 64 → 0 ≤ bps ≤ 10000 → bond_ok amt b →
  let '(b', z) := OperatorBond.apply_slash bps e b in
  z = Z.min (available_bond b) (Z.max 1 (amt * bps / 10000)) ∧ bond_ok amt b' ∧
  slashed_amount b' = slashed_amount b + z.
Proof.
  intros Ha Hb [Hamt Hsp Hav Hsl Hst]. unfold OperatorBond.apply_slash.
  assert (0 ≤ amt * bps / 10000) as Hq0 by (apply Z.div_pos; nia).
  assert (amt * bps / 10000 ≤ amt) as Hq by (apply Z.div_le_upper_bound; nia).
  case_decide as Hz; [rewrite Hz; split; [lia|split; [by split|lia]]|].
  rewrite Hamt, (wrapu_id 128) by (split; [nia|]; assert (amt * bps < 2 ^ 64 * 10001) by nia; lia).
  rewrite (wrapu_id 64 (amt * bps / 10000)) by ints.
  rewrite (decide_False (P := available_bond b = 0 ∧ slashed_amount b = 0)) by tauto.
  set (q := if decide (amt * bps / 10000 = 0) then 1 else amt * bps / 10000).
  assert (q = Z.max 1 (amt * bps / 10000)) as Hqe by (unfold q; case_decide; lia).
  set (x := if decide (available_bond b < q) then available_bond b else q).
  assert (x = Z.min (available_bond b) (Z.max 1 (amt * bps / 10000))) as Hx.
  { unfold x. rewrite Hqe. case_decide; lia. }
  split; [done|]. split.
  - split; cbn; [done| |lia| |].
    + rewrite wrapu_id by ints. lia.
    + rewrite wrapu_id by ints. lia.
    + case_decide; [tauto|]. case_decide; [split; [done|lia]|]. split; [|lia]. intros E%Hst. lia.
  - cbn. apply wrapu_id. ints.
Qed.

(** Slashing a bond, at rates of at most 100 percent: whatever the slashes, what
    was taken and what is left add up to the bond, each slash takes its share of
    the original bond, at least one unit and never more than is left, and the bond
    is exhausted exactly when nothing is left. *)
Theorem bond_slash_exact (op denom : string) (node : id32) (amt epoch : Z) (l : list (Z * Z)) :
  0 < amt < 2 ^ 64 → Forall (λ p, 0 ≤ p.1 ≤ 10000) l →
  let '(b, taken) := slash_all l (OperatorBond.new op node amt denom epoch) in
  sumZ taken + available_bond b = amt ∧ sumZ taken = slashed_amount b ∧ 0 ≤ available_bond b ∧
  (bond_state b = Exhausted ↔ available_bond b = 0) ∧
  Forall2 (λ p z, 0 ≤ z ≤ Z.max 1 (amt * p.1 / 10000)) l taken.
Proof.
  intros Ha Hl.
  assert (∀ b, bond_ok amt b → let '(b', taken) := slash_all l b in
    bond_ok amt b' ∧ slashed_amount b' = slashed_amount b + sumZ taken ∧
    Forall2 (λ p z, 0 ≤ z ≤ Z.max 1 (amt * p.1 / 10000)) l taken) as Hall.
  { induction Hl as [|[bps e] l Hb Hl IH]; intros b Hok.
    - cbn. split; [done|]. split; [lia|constructor].
    - cbn [slash_all]. pose proof (slash_ok amt b bps e Ha Hb Hok) as Hs.
      destruct (OperatorBond.apply_slash bps e b) as [b1 z]. destruct Hs as (Hz & Hok1 & Hs1).
      specialize (IH b1 Hok1). destruct (slash_all l b1) as [b2 zs]. destruct IH as (Hok2 & Hs2 & Hf).
      rewrite sumZ_cons. split; [done|]. split; [lia|]. constructor; [|done].
      cbn. pose proof (bo_available _ _ Hok). lia. }
  assert (bond_ok amt (OperatorBond.new op node amt denom epoch)) as Hnew.
  { split; cbn; [done|lia|lia|lia|]. split; [done|lia]. }
  specialize (Hall _ Hnew). destruct (slash_all _ _) as [b taken].
  destruct Hall as ([Hamt Hsp Hav Hsl Hst] & Hs & Hf). cbn in Hs. split_and!; try done; lia.
Qed.

Lemma declare_ok op node amt denom e s s' :
  BondingStore.declare op node amt denom e s = (s', Ok tt) →
  s' = mkBonding (<[(op, node) := OperatorBond.new op node amt denom e]> (bonds s))
         (<[node := op]> (node_index s)).
Proof.
  unfold BondingStore.declare. destruct (decide (amt = 0)), (decide (denom = EmptyString)); try done.
  destruct (match _ with Some b => _ | None => _ end); [done|]. by intros [= <-].
Qed.

(** The index of nodes forgets a bond: when two operators declare a bond for the
    same node and the first withdraws, the node counts as not bonded although the
    other bond is active. *)
Theorem shared_node_loses_bond (op op' denom : string) (node : id32) (amt amt' e : Z)
    (s1 s2 s3 : BondingStore) :
  op ≠ op' →
  BondingStore.declare op node amt denom e BondingStore.new = (s1, Ok tt) →
  BondingStore.declare op' node amt' denom e s1 = (s2, Ok tt) →
  BondingStore.withdraw op node e s2 = (s3, Ok tt) →
  BondingStore.has_active_bond s3 node = false ∧
  (is_active <$> BondingStore.get s3 op' node) = Some true.
Proof.
  intros Hne ->%declare_ok ->%declare_ok H3. unfold BondingStore.withdraw in H3. cbn in H3.
  rewrite lookup_insert_ne, lookup_insert_eq in H3 by congruence. cbn in H3. injection H3 as <-.
  unfold BondingStore.has_active_bond, BondingStore.get_by_node, BondingStore.get.
  cbn. rewrite lookup_delete_eq. split; [done|].
  by rewrite lookup_insert_ne, lookup_insert_eq by congruence.
Qed.
End bonds.

(** ** Witnesses *)

(** Under the default rates: one double proposal does not jail, two do, and the
    node gets out when the cooldown has passed. *)
Definition sample_ops : list slash_op :=
  [Offend DoubleProposal 1 5 []; Offend AbsentFromDuty 2 5 []; Offend DoubleProposal 1 6 [];
   TryUnjail 1 15; Offend ReplayAttack 2 16 []].

Lemma jail_exact_witness :
  let st := slash_run (H := sample_sha256) SlashingConfig.default_config sample_ops in
  0 < jail_threshold_bps SlashingConfig.default_config < 2 ^ 64 ∧
  (∀ o, 0 ≤ SlashingConfig.slash_rate SlashingConfig.default_config o) ∧
  SlashingStore.is_jailed st.1 1 = true ∧ tally 1 st.2 = 1000 ∧
  ((SlashingStore.unjail 1 16 st.1).2 = Ok tt ↔ ∃ e0, last_jail 1 st.2 = Some e0 ∧ sat_add 64 e0 10 ≤ 16).
Proof.
  assert (0 < jail_threshold_bps SlashingConfig.default_config < 2 ^ 64) as H1 by (cbn; lia).
  assert (∀ o, 0 ≤ SlashingConfig.slash_rate SlashingConfig.default_config o) as H2 by (intros []; cbn; lia).
  destruct (slash_run (H := sample_sha256) SlashingConfig.default_config sample_ops) as [s log] eqn:E.
  cbn [fst snd]. split; [done|]. split; [done|].
  pose proof (jail_exact (H := sample_sha256) _ sample_ops s log H1 H2 E) as Hj.
  vm_compute in E. injection E as <- <-. split; [by vm_compute|]. split; [by vm_compute|].
  exact (proj2 (proj2 Hj) 1 16).
Defined.

Lemma bond_slash_exact_witness :
  let '(b, taken) := slash_all [(500, 1); (0, 2); (10000, 3)] (OperatorBond.new "op" 1 1000 "omni" 0) in
  0 < 1000 < 2 ^ 64 ∧ taken = [50; 1; 949] ∧ sumZ taken + available_bond b = 1000 ∧
  bond_state b = Exhausted.
Proof.
  assert (Forall (λ p : Z * Z, 0 ≤ p.1 ≤ 10000) [(500, 1); (0, 2); (10000, 3)]) as Hl
    by (repeat constructor; cbn; lia).
  pose proof (bond_slash_exact "op" "omni" 1 1000 0 _ ltac:(lia) Hl) as Hb.
  assert (slash_all [(500, 1); (0, 2); (10000, 3)] (OperatorBond.new "op" 1 1000 "omni" 0) =
    (mkBond "op" 1 1000 "omni" 0 true 0 Exhausted 1000 0 3 3, [50; 1; 949])) as E by (vm_compute; reflexivity).
  rewrite E in *. destruct Hb as (Hb & _). split; [lia|]. split; [done|]. by split.
Defined.

Lemma shared_node_loses_bond_witness :
  let s1 := (BondingStore.declare "a" 7 100 "omni" 1 BondingStore.new).1 in
  let s2 := (BondingStore.declare "b" 7 100 "omni" 1 s1).1 in
  let s3 := (BondingStore.withdraw "a" 7 1 s2).1 in
  BondingStore.has_active_bond s3 7 = false ∧ (is_active <$> BondingStore.get s3 "b" 7) = Some true.
Proof.
  intros s1 s2 s3.
  refine (shared_node_loses_bond "a" "b" "omni" 7 100 100 1 s1 s2 s3 _ _ _ _); [done| | |];
    by vm_compute.
Defined.
