(* ===== verification/SolverMarket.v ===== *)
(** * The solver market runtime

    The second entry of the runtime (src/runtime/src/poseq/interface.rs): a batch
    with the plans solvers submitted for its intents.  Every plan is validated, the
    winner of each intent is selected, intents without a valid plan fall back to
    the internal resolver, and the winners are scheduled and settled as in
    Runtime. *)

From stdpp Require Import gmap strings list pretty.
From S2P Require Import Prelude Errors Gas Objects Concrete Store FeeEnvelope Intents.
From S2P Require Import Planner Scheduler Artifacts Settlement Cells SettlementFacts SettlementProps.
From S2P Require Import Groups Runtime Numerals Sorting SolverTypes PlanValidation.

(** ** Records *)

(* @src src/runtime/src/poseq/interface.rs:21-21 INTERNAL_SOLVER_ID *)
Definition INTERNAL_SOLVER_ID : id32 := 2 ^ 256 - 1.

(* @src src/runtime/src/attribution/record.rs:6-18 SolverAttributionRecord *)
Record SolverAttributionRecord : Type := mkAttribution {
  at_intent_id : id32;
  winning_solver_id : id32;
  winning_plan_id : id32;
  winning_plan_hash : id32;
  total_candidates : nat;
  valid_candidates : nat;
  rejected_candidates : nat;
  at_selection_policy : string;
  selection_basis : string;
  atr_epoch : Z }.

(* @src src/runtime/src/attribution/record.rs:22-30 SelectionAuditRecord *)
Record SelectionAuditRecord : Type := mkAudit {
  au_intent_id : id32;
  all_plan_ids : list id32;
  evaluation_results : list PlanEvaluationResult;
  ranking : list nat;
  winner_index : nat;
  policy_used : string }.

(* @src src/runtime/src/poseq/interface.rs:203-209 SelectedPlanResult *)
Record SelectedPlanResult : Type := mkSelected {
  sp_intent_id : id32;
  winning_plan : CandidatePlan;
  evaluation : PlanEvaluationResult;
  attribution : SolverAttributionRecord;
  audit : SelectionAuditRecord }.

(* @src src/runtime/src/poseq/interface.rs:193-200 SolverMarketBatch *)
Record SolverMarketBatch : Type := mkMarketBatch {
  mb_batch_id : id32;
  mb_epoch : Z;
  mb_sequence_number : Z;
  mb_intents : list IntentTransaction;
  candidate_plans : gmap Z (list CandidatePlan) }.

(* @src src/runtime/src/poseq/interface.rs:212-217 FinalSettlement *)
Record FinalSettlement : Type := mkFinal {
  fs_batch_id : id32;
  fs_epoch : Z;
  selected_plans : list SelectedPlanResult;
  settlement_result : SettlementResult }.

(* @src src/runtime/src/poseq/interface.rs:220-225 SolverMarketRuntime *)
Record SolverMarketRuntime : Type := mkMarket {
  base : PoSeqRuntime;
  registry : SolverRegistry;
  selection_policy : SelectionPolicy;
  policy : PlanPolicyEvaluator }.

(** ** Conversions *)

Section conversions.
Context `{HexBytes, HexDecode}.

(** [hex::decode(s)] into an array of 32 bytes that starts as zeros. *)
Definition decode_id (s : string) : id32 :=
  match hex_decode s with
  | Some b => if decide (length b = 32%nat) then of_be b else 0
  | None => 0
  end.

(* @src src/runtime/src/poseq/interface.rs:557-628 plan_action_to_operation *)
Definition plan_action_to_operation (a : PlanAction) : ObjectOperation :=
  let amt := default 0 (act_amount a) in
  match action_type a with
  | PaDebitBalance => DebitBalance (target_object a) amt
  | PaCreditBalance => CreditBalance (target_object a) amt
  | PaSwapPoolAmounts =>
      let delta_b := default 0 (act_metadata a !! "delta_b" ≫= parse_i128) in
      SwapPoolAmounts (target_object a) (wraps 128 amt) delta_b
  | PaLockBalance => LockBalance (target_object a) amt
  | PaUnlockBalance => UnlockBalance (target_object a) amt
  | PaCustom _ =>
      match act_metadata a !! "schema_id", act_metadata a !! "proposed_state" with
      | Some schema_hex, Some state_hex =>
          ContractStateTransition (target_object a) (decode_id schema_hex)
            (default [] (hex_decode state_hex))
      | _, _ =>
          match act_metadata a !! "new_owner" with
          | Some new_owner_hex => TransferOwnership (target_object a) (decode_id new_owner_hex)
          | None => UpdateVersion (target_object a)
          end
      end
  end.

Definition hex_id (i : id32) : string := hex_bytes (be_bytes 32 i).
Definition bool_string (b : bool) : string := if b then "true" else "false".
(** The loop that copies the indexed keys of an event into the metadata. *)
Definition with_indexed (indexed : gmap string string) (m : gmap string string) : gmap string string :=
  map_fold (λ k v m, <["idx_" +:+ k := v]> m) m indexed.

(* @src src/runtime/src/poseq/interface.rs:631-773 operation_to_plan_action *)
Definition operation_to_plan_action (op : ObjectOperation) : PlanAction :=
  match op with
  | DebitBalance b amt => mkAction PaDebitBalance b (Some amt) ∅
  | CreditBalance b amt => mkAction PaCreditBalance b (Some amt) ∅
  | SwapPoolAmounts p da db =>
      mkAction PaSwapPoolAmounts p (Some (wrapu 128 da)) {["delta_b" := pretty db]}
  | LockBalance b amt => mkAction PaLockBalance b (Some amt) ∅
  | UnlockBalance b amt => mkAction PaUnlockBalance b (Some amt) ∅
  | TransferOwnership o new_owner =>
      mkAction (PaCustom "transfer_ownership") o None {["new_owner" := hex_id new_owner]}
  | UpdateVersion o => mkAction (PaCustom "update_version") o None ∅
  | ContractStateTransition c s st =>
      mkAction (PaCustom "contract_state_transition") c None
        (<["proposed_state" := hex_bytes st]> {["schema_id" := hex_id s]})
  | BindContractBalance c b s a l =>
      mkAction (PaCustom "bind_contract_balance") c None
        (<["label" := l]> (<["asset_id" := hex_id a]> (<["schema_id" := hex_id s]>
          {["balance_id" := hex_id b]})))
  | CreateToken c ms sym dec sup max =>
      let m := <["decimals" := pretty dec]> (<["symbol" := sym]> {["mint_authority_schema" := hex_id ms]}) in
      mkAction (PaCustom "create_token") c (Some sup)
        (match max with Some x => <["max_supply" := pretty x]> m | None => m end)
  | EmitContractEvent c s ty indexed data =>
      mkAction (PaCustom "emit_event") c None
        (with_indexed indexed
          (<["data" := hex_bytes data]> (<["event_type" := ty]> {["schema_id" := hex_id s]})))
  | IBCTransfer c ch po de amt re ti =>
      mkAction (PaCustom "ibc_transfer") c (Some amt)
        (<["timeout_secs" := pretty ti]> (<["receiver" := re]> (<["denom" := de]>
          (<["port_id" := po]> {["channel_id" := ch]}))))
  | ScheduleExecution c s me pa at' rec iv mx =>
      mkAction (PaCustom "schedule_execution") c None
        (<["max_recurrences" := pretty mx]> (<["interval_epochs" := pretty iv]>
          (<["recurring" := bool_string rec]> (<["execute_at_epoch" := pretty at']>
            (<["params" := hex_bytes pa]> (<["method" := me]> {["schema_id" := hex_id s]}))))))
  end.

(* @src src/runtime/src/poseq/interface.rs:516-554 candidate_plan_to_execution_plan *)
Definition candidate_plan_to_execution_plan (plan : CandidatePlan) : ExecutionPlan :=
  let operations := plan_action_to_operation <$> actions plan in
  let object_access := ((λ i, mkAccess i ReadOnly) <$> object_reads plan) ++
                       ((λ i, mkAccess i ReadWrite) <$> object_writes plan) in
  let gas_limit := sat_mul 64 (fee_quote plan) 1000 in
  let gas_estimate := wrapu 64 (Z.of_nat (length operations) * 300 + base_tx default_costs) in
  mkPlan (cp_plan_id plan) operations (cp_required_capabilities plan) object_access gas_estimate
    gas_limit.
End conversions.

(** ** Processing a batch *)

Module SolverMarketRuntime.
Import SolverRegistry.

(* @src src/runtime/src/poseq/interface.rs:228-238 SolverMarketRuntime::new *)
Definition new (sp : SelectionPolicy) (pol : PlanPolicyEvaluator) : SolverMarketRuntime :=
  mkMarket PoSeqRuntime.new SolverRegistry.new sp pol.

(* @src src/runtime/src/poseq/interface.rs:241-243 SolverMarketRuntime::register_solver *)
Definition register_solver `{Hex} (profile : SolverProfile) : M SolverMarketRuntime RuntimeError () := λ rt,
  let '(reg, r) := SolverRegistry.register profile (registry rt) in
  (mkMarket (base rt) reg (selection_policy rt) (policy rt), r).

(** The plan the internal resolver stands for. *)
(* @src src/runtime/src/poseq/interface.rs:420-462 SolverMarketRuntime::fallback_to_internal_resolver *)
Definition synthetic_plan `{Sha256, HexBytes} (intent : IntentTransaction) (exec_plan : ExecutionPlan)
  : CandidatePlan :=
  let ids md := object_id <$> filter (λ a, mode a = md) (object_access exec_plan) in
  let plan := mkCandidate (tx_id intent) (tx_id intent) INTERNAL_SOLVER_ID
    (operation_to_plan_action <$> operations exec_plan) (required_capabilities exec_plan)
    (ids ReadOnly) (ids ReadWrite) 1 (max_fee intent) 5000 [] 0 0
    (Some "Phase 1 internal resolver fallback") ∅ in
  set_plan_hash (CandidatePlan.compute_hash plan) plan.

(* @src src/runtime/src/poseq/interface.rs:407-508 SolverMarketRuntime::fallback_to_internal_resolver *)
Definition fallback_to_internal_resolver `{Sha256, HexBytes, U256} (rt : PoSeqRuntime)
    (intent : IntentTransaction) (epoch : Z) : outcome RuntimeError SelectedPlanResult :=
  exec_plan ← IntentResolver.resolve intent (store rt) (PoSeqRuntime.caps_of rt (sender intent));
  let plan := synthetic_plan intent exec_plan in
  let eval := mkEval (tx_id intent) INTERNAL_SOLVER_ID true [Valid] 5000 (object_reads plan)
    (object_writes plan) (gas_estimate exec_plan) 1 in
  let attribution := mkAttribution (tx_id intent) INTERNAL_SOLVER_ID (tx_id intent) (plan_hash plan)
    0 1 0 "FallbackPhase1" "fallback:internal_resolver" epoch in
  let audit := mkAudit (tx_id intent) [tx_id intent] [eval] [0%nat] 0 "FallbackPhase1" in
  Ok (mkSelected (tx_id intent) plan eval attribution audit).

Section processing.
Context `{Sha256, Hex, HexBytes, HexDecode, Bincode, U256}.

(** What the loops carry: the registry, the plans selected and the plans to
    execute. *)
Definition progress : Type := SolverRegistry * list SelectedPlanResult * list ExecutionPlan.

Definition push_selected (result : SelectedPlanResult) (s : progress) : progress :=
  let '(reg, selected, plans) := s in
  (reg, selected ++ [result], plans ++ [candidate_plan_to_execution_plan (winning_plan result)]).

(** An error of the fallback skips the intent, a panic stops the program. *)
(* @src src/runtime/src/poseq/interface.rs:271-284 SolverMarketRuntime::process_solver_batch *)
Definition fall_back (rt : PoSeqRuntime) (epoch : Z) (intent : IntentTransaction)
  : M progress RuntimeError () := λ s,
  match fallback_to_internal_resolver rt intent epoch with
  | Ok result => (push_selected result s, Ok tt)
  | Err _ => (s, Ok tt)
  | Panic => (s, Panic)
  end.

(** One candidate: its verdict, the reputation of its solver when it is rejected,
    the plan among the valid ones when it passes. *)
(* @src src/runtime/src/poseq/interface.rs:291-314 SolverMarketRuntime::process_solver_batch *)
Definition evaluate_one (rt : PoSeqRuntime) (pol : PlanPolicyEvaluator) (intent : IntentTransaction)
    (s : SolverRegistry * list PlanEvaluationResult * list (CandidatePlan * PlanEvaluationResult))
    (plan : CandidatePlan)
  : SolverRegistry * list PlanEvaluationResult * list (CandidatePlan * PlanEvaluationResult) :=
  let '(reg, all_evals, eval_results) := s in
  let eval := PlanValidator.validate plan intent (store rt) reg pol in
  (if passed eval then reg else record_submission (cp_solver_id plan) false false reg,
   all_evals ++ [eval],
   if passed eval then eval_results ++ [(plan, eval)] else eval_results).

(* @src src/runtime/src/poseq/interface.rs:337-340 SolverMarketRuntime::process_solver_batch *)
Definition record_valid (winner_idx : nat) (eval_results : list (CandidatePlan * PlanEvaluationResult))
    (reg : SolverRegistry) : SolverRegistry :=
  foldl (λ reg '(i, plan), record_submission (cp_solver_id plan) true (bool_decide (i = winner_idx)) reg)
    reg (imap (λ i x, (i, x.1)) eval_results).

(** The records of a selection. *)
(* @src src/runtime/src/poseq/interface.rs:342-390 SolverMarketRuntime::process_solver_batch *)
Definition selected_result (sp : SelectionPolicy) (epoch : Z) (intent : IntentTransaction)
    (candidates : list CandidatePlan) (all_evals : list PlanEvaluationResult)
    (eval_results : list (CandidatePlan * PlanEvaluationResult)) (winner_idx : nat)
    (plan : CandidatePlan) (eval : PlanEvaluationResult) : SelectedPlanResult :=
  let basis := "score:" +:+ pretty (normalized_score eval) +:+ " fee:" +:+ pretty (fee_quote plan) +:+
               " solver:" +:+ hex_bytes (take 4 (be_bytes 32 (cp_solver_id plan))) in
  let attribution := mkAttribution (tx_id intent) (cp_solver_id plan) (cp_plan_id plan) (plan_hash plan)
    (length all_evals) (length eval_results) (length all_evals - length eval_results)
    (debug_policy sp) basis epoch in
  let audit := mkAudit (tx_id intent) (cp_plan_id <$> candidates) all_evals
    (seq 0 (length eval_results)) winner_idx (debug_policy sp) in
  mkSelected (tx_id intent) plan eval attribution audit.

(** One intent. *)
(* @src src/runtime/src/poseq/interface.rs:257-391 SolverMarketRuntime::process_solver_batch *)
Definition process_intent (rt : PoSeqRuntime) (sp : SelectionPolicy) (pol : PlanPolicyEvaluator)
    (batch : SolverMarketBatch) (intent : IntentTransaction) : M progress RuntimeError () := λ s,
  let epoch := mb_epoch batch in
  if negb (is_ok (IntentTransaction.validate intent)) then (s, Ok tt)
  else
    let candidates := default [] (candidate_plans batch !! tx_id intent) in
    if decide (candidates = []) then fall_back rt epoch intent s
    else
      let '(reg, selected, plans) := s in
      let '(reg, all_evals, eval_results) :=
        foldl (evaluate_one rt pol intent) (reg, [], []) candidates in
      if decide (eval_results = []) then fall_back rt epoch intent (reg, selected, plans)
      else
        match WinningPlanSelector.select eval_results sp with
        | Ok winner_idx =>
            let reg := record_valid winner_idx eval_results reg in
            match eval_results !! winner_idx with
            | Some (plan, eval) =>
                (push_selected (selected_result sp epoch intent candidates all_evals eval_results
                   winner_idx plan eval) (reg, selected, plans), Ok tt)
            | None => ((reg, selected, plans), Panic)
            end
        | Err e => ((reg, selected, plans), Err e)
        | Panic => ((reg, selected, plans), Panic)
        end.

(* @src src/runtime/src/poseq/interface.rs:246-404 SolverMarketRuntime::process_solver_batch *)
Definition process_solver_batch (batch : SolverMarketBatch)
  : M SolverMarketRuntime RuntimeError FinalSettlement := λ m,
  let epoch := mb_epoch batch in
  let rt := mkRuntime (store (base m)) epoch (rt_safety (base m)) (capability_registry (base m)) in
  let '((reg, selected, execution_plans), r) :=
    mfor (process_intent rt (selection_policy m) (policy m) batch) (mb_intents batch)
      (registry m, [], []) in
  let at_store st := mkMarket (mkRuntime st epoch (rt_safety rt) (capability_registry rt)) reg
    (selection_policy m) (policy m) in
  match r with
  | Ok _ =>
      match ParallelScheduler.schedule execution_plans with
      | Ok groups =>
          let '(st, res) := SettlementEngine.execute_groups groups epoch (store rt) in
          (at_store st, settlement ← no_error res;
                        Ok (mkFinal (mb_batch_id batch) epoch selected settlement))
      | Err e => match e with end
      | Panic => (at_store (store rt), Panic)
      end
  | Err e => (at_store (store rt), Err e)
  | Panic => (at_store (store rt), Panic)
  end.
End processing.
End SolverMarketRuntime.

(** ** The conversions *)

Section converting.
Context `{HexLaws}.
Implicit Types (op : ObjectOperation) (p : CandidatePlan).

(** The operations a plan action can stand for. *)
Definition survives op : bool :=
  match op with
  | BindContractBalance _ _ _ _ _ | CreateToken _ _ _ _ _ _ | EmitContractEvent _ _ _ _ _
  | IBCTransfer _ _ _ _ _ _ _ | ScheduleExecution _ _ _ _ _ _ _ _ => false
  | _ => true
  end.

(** The object a plan action is about: the contract, for a binding. *)
Definition action_target op : id32 :=
  match op with BindContractBalance c _ _ _ _ => c | _ => op_target op end.

(** The fields that go through text and 128-bit casts are of their types. *)
Definition text_fits op : Prop :=
  match op with
  | SwapPoolAmounts _ da db => - 2 ^ 127 ≤ da < 2 ^ 127 ∧ - 2 ^ 127 ≤ db < 2 ^ 127
  | TransferOwnership _ o => fits 256 o
  | ContractStateTransition _ s st => fits 256 s ∧ Forall is_byte st
  | _ => True
  end.

Lemma decode_hex_id i : fits 256 i → decode_id (hex_id i) = i.
Proof.
  intros Hi. unfold decode_id, hex_id.
  rewrite hex_decode_bytes by apply be_bytes_bytes.
  rewrite decide_True by apply be_bytes_length. by apply of_be_be.
Qed.

Lemma wraps_wrapu z : - 2 ^ 127 ≤ z < 2 ^ 127 → wraps 128 (wrapu 128 z) = z.
Proof.
  intros Hz. unfold wraps, wrapu. change (128 - 1) with 127.
  rewrite Zplus_mod_idemp_l, Z.mod_small by lia. lia.
Qed.

Lemma indexed_lookup indexed m k :
  (∀ k', k ≠ "idx_" +:+ k') → with_indexed indexed m !! k = m !! k.
Proof.
  intros Hk. unfold with_indexed.
  apply (map_fold_weak_ind (λ r _, r !! k = m !! k)); [done|].
  intros i x m' r _ Hr. rewrite lookup_insert_ne; [done|]. intros E. by apply (Hk i).
Qed.

(** Writing an operation as a plan action and reading it back gives the operation,
    except for bindings, token creations, events, IBC transfers and schedules,
    which come back as a bare version bump. *)
Lemma action_back op :
  text_fits op →
  plan_action_to_operation (operation_to_plan_action op) =
  if survives op then op else UpdateVersion (action_target op).
Proof.
  intros Hf. destruct op; cbn in Hf; try done; unfold plan_action_to_operation, operation_to_plan_action;
    cbn [action_type act_metadata act_amount target_object survives action_target op_target].
  - destruct Hf as [Ha Hb]. rewrite lookup_singleton_eq. cbn [mbind option_bind].
    rewrite parse_i128_pretty by done.
    change (SwapPoolAmounts pool_id (wraps 128 (wrapu 128 delta_a)) delta_b =
      SwapPoolAmounts pool_id delta_a delta_b). by rewrite wraps_wrapu.
  - change (TransferOwnership object_id (decode_id (hex_id new_owner)) = TransferOwnership object_id new_owner).
    by rewrite decode_hex_id.
  - destruct Hf as [Hs Hst].
    change (ContractStateTransition contract_id (decode_id (hex_id schema_id))
      (default [] (hex_decode (hex_bytes proposed_state))) =
      ContractStateTransition contract_id schema_id proposed_state).
    by rewrite decode_hex_id, hex_decode_bytes.
  - by destruct max_supply.
  - by rewrite !indexed_lookup by done.
Qed.
End converting.

(** ** The fallback *)

Lemma wraps_range z : - 2 ^ 127 ≤ wraps 128 z < 2 ^ 127.
Proof.
  unfold wraps. change (128 - 1) with 127.
  pose proof (Z.mod_pos_bound (z + 2 ^ 127) (2 ^ 128) ltac:(lia)). lia.
Qed.

(** What the resolver's plans have in common beyond [resolve_well]: they only name
    objects to write, and their amounts pass through text unchanged. *)
Lemma resolve_shape `{U256} t st caps p :
  IntentResolver.resolve t st caps = Ok p →
  Forall text_fits (operations p) ∧ Forall (λ op, survives op = true) (operations p) ∧
  Forall (λ a, mode a = ReadWrite) (object_access p).
Proof.
  unfold IntentResolver.resolve, IntentResolver.resolve_transfer, IntentResolver.resolve_swap,
    IntentResolver.resolve_yield_allocate, IntentResolver.resolve_treasury_rebalance,
    IntentResolver.resolve_route_liquidity.
  destruct (intent t); intros E; [| | | | |done];
    repeat match goal with
    | E : (_ ≫= _) = Ok _ |- _ => apply obind_ok in E as (? & _ & E)
    | E : (if decide ?P then Err _ else _) = Ok _ |- _ => destruct (decide P); [done|]
    | E : (let '(_, _) := if ?b then (?x, ?y) else _ in _) = Ok _ |- _ => destruct b
    end; injection E as <-; cbn;
    (split_and!; repeat constructor; try done; apply wraps_range).
Qed.

Lemma write_only l :
  Forall (λ a, mode a = ReadWrite) l →
  ((λ i, mkAccess i ReadOnly) <$> (object_id <$> filter (λ a, mode a = ReadOnly) l)) ++
  ((λ i, mkAccess i ReadWrite) <$> (object_id <$> filter (λ a, mode a = ReadWrite) l)) = l.
Proof.
  intros Hm. assert (filter (λ a, mode a = ReadOnly) l = []) as ->.
  { induction Hm as [|a l Ha _ IH]; [done|]. rewrite filter_cons, decide_False; [done|]. by rewrite Ha. }
  cbn. induction Hm as [|[i md] l Ha _ IH]; [done|]. cbn in Ha. subst md.
  rewrite filter_cons, decide_True by done. cbn. by rewrite IH.
Qed.

(** The plan executed for an intent that falls back is the one the internal
    resolver made, up to the gas estimate. *)
Lemma fallback_plan `{HexLaws, Sha256, U256} t st caps p :
  store_inv st → IntentResolver.resolve t st caps = Ok p →
  candidate_plan_to_execution_plan (SolverMarketRuntime.synthetic_plan t p) =
  mkPlan (plan_tx_id p) (operations p) (required_capabilities p) (object_access p)
    (wrapu 64 (Z.of_nat (length (operations p)) * 300 + base_tx default_costs)) (gas_limit p).
Proof.
  intros Hinv E. destruct (resolve_shape _ _ _ _ E) as (Ht & Hs & Hm).
  pose proof (resolve_well _ _ _ _ Hinv E) as Hw.
  assert (plan_action_to_operation <$> (operation_to_plan_action <$> operations p) = operations p) as Hops.
  { rewrite <- list_fmap_compose. rewrite <- (list_fmap_id (operations p)) at 2.
    apply Forall_fmap_ext_1. eapply Forall_impl; [apply Forall_and; exact (conj Ht Hs)|].
    intros op [? Hop]. cbn. by rewrite action_back, Hop. }
  unfold candidate_plan_to_execution_plan, SolverMarketRuntime.synthetic_plan.
  cbn [actions cp_plan_id cp_required_capabilities object_reads object_writes fee_quote SolverTypes.set_plan_hash].
  rewrite Hops, (write_only (object_access p) Hm), (res_limit _ _ _ _ Hw), (res_tx_id _ _ _ _ Hw).
  done.
Qed.

(** An intent that falls back is settled exactly as the runtime without a solver
    market settles it: on any store, with the same receipt, and with the same
    object accesses to be scheduled by. *)
Theorem fallback_equivalent `{HexLaws, Sha256, Hex, Bincode, U256} t st caps p :
  store_inv st → IntentResolver.resolve t st caps = Ok p →
  let q := candidate_plan_to_execution_plan (SolverMarketRuntime.synthetic_plan t p) in
  (∀ st', SettlementEngine.apply_plan q st' = SettlementEngine.apply_plan p st') ∧
  object_access q = object_access p ∧ plan_tx_id q = plan_tx_id p.
Proof. intros Hinv E q. subst q. by rewrite (fallback_plan t st caps p Hinv E). Qed.

(** ** What a batch selects *)

Section batches.
Context `{Sha256, Hex, HexBytes, HexDecode, BincodeLaws, U256}.
Import SolverMarketRuntime.
Implicit Types (rt : PoSeqRuntime) (reg : SolverRegistry) (pol : PlanPolicyEvaluator)
  (sp : SelectionPolicy) (t : IntentTransaction) (plan : CandidatePlan) (batch : SolverMarketBatch)
  (l : list CandidatePlan).

(** The candidates of an intent, those that pass with their verdicts, and the
    selection: of the best of them, or of the internal resolver's plan.  This is a
    function of the store, the registry before the batch and the intent alone. *)
Definition candidates_for batch t : list CandidatePlan :=
  if is_ok (IntentTransaction.validate t) then default [] (candidate_plans batch !! tx_id t) else [].
Definition verdicts rt reg pol t l : list PlanEvaluationResult :=
  (λ plan, PlanValidator.validate plan t (store rt) reg pol) <$> l.
Definition passing rt reg pol t l : list (CandidatePlan * PlanEvaluationResult) :=
  filter (λ x, passed x.2 = true) (zip l (verdicts rt reg pol t l)).
Definition fallback_choice rt now t : option SelectedPlanResult :=
  match fallback_to_internal_resolver rt t now with Ok r => Some r | _ => None end.
Definition choose rt reg sp pol batch t : option SelectedPlanResult :=
  let l := candidates_for batch t in
  let ok := passing rt reg pol t l in
  if negb (is_ok (IntentTransaction.validate t)) then None
  else if decide (ok = []) then fallback_choice rt (mb_epoch batch) t
  else match WinningPlanSelector.select ok sp with
       | Ok i => x ← ok !! i;
                 Some (selected_result sp (mb_epoch batch) t l (verdicts rt reg pol t l) ok i x.1 x.2)
       | _ => None
       end.

(** Registries that differ in reputations only. *)
Definition reg_like reg reg' : Prop :=
  ∀ i, (set_reputation default_reputation <$> solvers reg !! i) =
       (set_reputation default_reputation <$> solvers reg' !! i).

Lemma reg_like_record i a w reg reg' :
  reg_like reg reg' → reg_like reg (SolverRegistry.record_submission i a w reg').
Proof.
  intros Hl j. rewrite Hl. unfold SolverRegistry.record_submission. cbn. rewrite lookup_alter.
  case_decide; [subst|done]. by destruct (solvers reg' !! j).
Qed.

Lemma eligibility_like s s' caps :
  sv_capabilities s = sv_capabilities s' →
  PlanValidator.check_solver_eligibility s caps = PlanValidator.check_solver_eligibility s' caps.
Proof. intros E. induction caps as [|c caps IH]; [done|]. cbn. by rewrite E, IH. Qed.

Lemma validate_like plan t st reg reg' pol :
  reg_like reg reg' → PlanValidator.validate plan t st reg' pol = PlanValidator.validate plan t st reg pol.
Proof.
  intros Hl. assert (PlanValidator.rejections plan t st reg' pol = PlanValidator.rejections plan t st reg pol) as E.
  { unfold PlanValidator.rejections, SolverRegistry.get. specialize (Hl (cp_solver_id plan)).
    destruct (solvers reg !! _) as [s|], (solvers reg' !! _) as [s'|]; try done.
    injection Hl as _ _ _ Hst Hcap _ _ _ _ _. rewrite (eligibility_like s' s) by done.
    unfold PlanValidator.check_solver_status, PlanValidator.check_object_count. by rewrite Hst, Hcap. }
  unfold PlanValidator.validate. by rewrite E.
Qed.

(** How often a solver's plans were judged. *)
Definition count_for (i : id32) l : nat := length (filter (λ p, cp_solver_id p = i) l).

(** The registry after judging the plans [l]: as before, with each solver's
    submissions counted (in 64 bits). *)
Definition submitted_plus (n : Z) (s : SolverProfile) : Z :=
  wrapu 64 (total_plans_submitted (reputation s) + n).
Definition tallied_by l reg reg' : Prop :=
  reg_like reg reg' ∧
  ∀ i, (submitted_plus 0 <$> solvers reg' !! i) =
       (submitted_plus (Z.of_nat (count_for i l)) <$> solvers reg !! i).

Lemma count_app i l l' : count_for i (l ++ l') = (count_for i l + count_for i l')%nat.
Proof. unfold count_for. by rewrite filter_app, length_app. Qed.

#[export] Instance tallied_proper : Proper ((≡ₚ) ==> (=) ==> (=) ==> iff) tallied_by.
Proof.
  intros l l' Hl reg _ <- reg' _ <-. unfold tallied_by.
  assert (∀ i, count_for i l = count_for i l') as E by (intros i; unfold count_for; by rewrite Hl).
  by setoid_rewrite E.
Qed.

Lemma tallied_nil reg : tallied_by [] reg reg.
Proof. by split. Qed.

Lemma tallied_trans l l' reg reg1 reg2 :
  tallied_by l reg reg1 → tallied_by l' reg1 reg2 → tallied_by (l ++ l') reg reg2.
Proof.
  intros [Hl Hc] [Hl' Hc']. split; [intros i; by rewrite Hl, Hl'|].
  intros i. rewrite Hc', count_app. specialize (Hc i).
  destruct (solvers reg1 !! i) as [s1|], (solvers reg !! i) as [s|]; try done.
  cbn in *. f_equal. injection Hc as Hc. revert Hc. unfold submitted_plus, wrapu. intros Hc.
  rewrite Z.add_0_r in Hc. rewrite <- Zplus_mod_idemp_l, Hc, Zplus_mod_idemp_l. f_equal. lia.
Qed.

Lemma tallied_record plan a w reg :
  tallied_by [plan] reg (SolverRegistry.record_submission (cp_solver_id plan) a w reg).
Proof.
  split; [by apply reg_like_record|]. intros i. unfold count_for. rewrite filter_cons, filter_nil.
  unfold SolverRegistry.record_submission. cbn [solvers]. rewrite lookup_alter.
  destruct (decide (cp_solver_id plan = i)) as [<-|].
  - destruct (solvers reg !! cp_solver_id plan); [|done]. cbn. f_equal. unfold submitted_plus. cbn.
    unfold wrapu. by rewrite Z.add_0_r, Z.mod_mod.
  - done.
Qed.

(** The loop over the candidates of an intent. *)
Lemma evaluate_candidates rt reg0 reg pol t l es rs :
  reg_like reg0 reg →
  ∃ reg', foldl (evaluate_one rt pol t) (reg, es, rs) l =
    (reg', es ++ verdicts rt reg0 pol t l, rs ++ passing rt reg0 pol t l) ∧
    tallied_by (filter (λ p, passed (PlanValidator.validate p t (store rt) reg0 pol) = false) l) reg reg'.
Proof.
  revert reg es rs. induction l as [|plan l IH]; intros reg es rs Hl.
  { exists reg. rewrite !app_nil_r. split; [done|apply tallied_nil]. }
  cbn [foldl evaluate_one]. rewrite (validate_like plan t (store rt) reg0 reg pol Hl).
  unfold passing, verdicts. cbn [fmap list_fmap zip zip_with].
  set (e := PlanValidator.validate plan t (store rt) reg0 pol). destruct (passed e) eqn:Ep.
  - rewrite !filter_cons. cbn [snd]. fold e. rewrite !Ep.
    rewrite (decide_True (P := true = true)), (decide_False (P := true = false)) by done.
    destruct (IH reg (es ++ [e]) (rs ++ [(plan, e)]) Hl) as (reg' & E & Ht).
    exists reg'. split; [|done]. etrans; [exact E|]. by rewrite <- !app_assoc.
  - rewrite !filter_cons. cbn [snd]. fold e. rewrite !Ep.
    rewrite (decide_True (P := false = false)), (decide_False (P := false = true)) by done.
    destruct (IH (SolverRegistry.record_submission (cp_solver_id plan) false false reg) (es ++ [e]) rs)
      as (reg' & E & Ht); [by apply reg_like_record|].
    exists reg'. split; [etrans; [exact E|]; by rewrite <- !app_assoc|].
    apply (tallied_trans [plan] _ reg _ reg' (tallied_record plan false false reg) Ht).
Qed.

Lemma record_valid_tallied w rs reg : tallied_by rs.*1 reg (record_valid w rs reg).
Proof.
  unfold record_valid. assert (∀ (f : nat → nat) (rs : list (CandidatePlan * PlanEvaluationResult)) reg, tallied_by rs.*1 reg
    (foldl (λ reg '(i, plan), SolverRegistry.record_submission (cp_solver_id plan) true
       (bool_decide (i = w)) reg) reg (imap (λ i x, (f i, x.1)) rs))) as H'; [|apply (H' (λ i, i))].
  clear rs reg. intros f rs. revert f. induction rs as [|x rs IH]; intros f reg; [apply tallied_nil|].
  cbn [imap foldl fmap list_fmap].
  eapply (tallied_trans [x.1]); [apply tallied_record|]. apply (IH (f ∘ S)).
Qed.

(** Passing and rejected plans together are all plans. *)
Lemma judged_all rt reg pol t l :
  filter (λ p, passed (PlanValidator.validate p t (store rt) reg pol) = false) l ++
    (passing rt reg pol t l).*1 ≡ₚ l.
Proof.
  unfold passing, verdicts. induction l as [|plan l IH]; [done|]. cbn [fmap list_fmap zip zip_with].
  set (e := PlanValidator.validate plan t (store rt) reg pol). destruct (passed e) eqn:Ep.
  - rewrite !filter_cons. cbn [snd]. fold e. rewrite !Ep.
    rewrite (decide_True (P := true = true)), (decide_False (P := true = false)) by done. cbn.
    rewrite <- Permutation_middle. by f_equiv.
  - rewrite !filter_cons. cbn [snd]. fold e. rewrite !Ep.
    rewrite (decide_True (P := false = false)), (decide_False (P := false = true)) by done. cbn. by f_equiv.
Qed.
(** The plan of a selection, as it is executed. *)
Definition executed (r : SelectedPlanResult) : ExecutionPlan :=
  candidate_plan_to_execution_plan (winning_plan r).

(** The internal resolver does not panic on an intent. *)
Definition resolvable rt t : Prop :=
  IntentResolver.resolve t (store rt) (PoSeqRuntime.caps_of rt (sender t)) ≠ Panic.

Lemma fall_back_choice rt now t reg selected plans :
  resolvable rt t →
  fall_back rt now t (reg, selected, plans) =
  ((reg, selected ++ option_list (fallback_choice rt now t),
    plans ++ (executed <$> option_list (fallback_choice rt now t))), Ok tt).
Proof.
  intros Hp. unfold fall_back, fallback_choice, fallback_to_internal_resolver, resolvable in *.
  destruct (IntentResolver.resolve t _ _); [done| |done]. cbn. by rewrite !app_nil_r.
Qed.

(** One intent makes its choice and counts its candidates. *)
Lemma process_intent_choice rt reg0 reg sp pol batch t selected plans :
  reg_like reg0 reg → resolvable rt t →
  ∃ reg', process_intent rt sp pol batch t (reg, selected, plans) =
    ((reg', selected ++ option_list (choose rt reg0 sp pol batch t),
      plans ++ (executed <$> option_list (choose rt reg0 sp pol batch t))), Ok tt) ∧
    tallied_by (candidates_for batch t) reg reg'.
Proof.
  intros Hl Hp. unfold process_intent, choose, candidates_for.
  destruct (is_ok (IntentTransaction.validate t)); cbn [negb].
  2: { exists reg. cbn. rewrite !app_nil_r. split; [done|apply tallied_nil]. }
  set (l := default [] (candidate_plans batch !! tx_id t)).
  destruct (decide (l = [])) as [->|_].
  { exists reg. cbn. rewrite fall_back_choice by done. split; [done|apply tallied_nil]. }
  destruct (evaluate_candidates rt reg0 reg pol t l [] [] Hl) as (reg1 & E & Ht). rewrite E.
  cbn [app]. destruct (decide (passing rt reg0 pol t l = [])) as [Hno|Hsome].
  { exists reg1. rewrite fall_back_choice by done. split; [done|].
    rewrite <- (judged_all rt reg0 pol t l), Hno. by rewrite app_nil_r. }
  destruct (select_winner sp _ Hsome) as (i & x & -> & Hx & _). rewrite Hx. destruct x as [plan e].
  eexists. split; [reflexivity|]. rewrite <- (judged_all rt reg0 pol t l) at 1.
  eapply tallied_trans; [exact Ht|]. apply record_valid_tallied.
Qed.

Lemma process_intents_choices rt reg0 reg sp pol batch ts selected plans :
  reg_like reg0 reg → Forall (resolvable rt) ts →
  ∃ reg', mfor (process_intent rt sp pol batch) ts (reg, selected, plans) =
    ((reg', selected ++ omap (choose rt reg0 sp pol batch) ts,
      plans ++ (executed <$> omap (choose rt reg0 sp pol batch) ts)), Ok tt) ∧
    tallied_by (concat (candidates_for batch <$> ts)) reg reg'.
Proof.
  intros Hl Hts. revert reg selected plans Hl.
  induction Hts as [|t ts Ht _ IH]; intros reg selected plans Hl.
  { exists reg. cbn. rewrite !app_nil_r. split; [done|apply tallied_nil]. }
  destruct (process_intent_choice rt reg0 reg sp pol batch t selected plans Hl Ht) as (reg1 & E & Ht1).
  destruct (IH reg1 (selected ++ option_list (choose rt reg0 sp pol batch t))
    (plans ++ (executed <$> option_list (choose rt reg0 sp pol batch t)))) as (reg2 & E2 & Ht2).
  { intros j. rewrite Hl. apply Ht1. }
  exists reg2. split; [|by eapply tallied_trans].
  cbn [mfor]. unfold mbind, M_bind. rewrite E, E2. rewrite <- !app_assoc, <- fmap_app.
  cbn [omap list_omap]. by destruct (choose rt reg0 sp pol batch t).
Qed.

(** What is executed is fit for settlement. *)
Lemma executed_good r : fits 64 (fee_quote (winning_plan r)) → plan_good (executed r).
Proof.
  intros Hf. split; cbn; [destruct Hf; split; ints|]. unfold no_create. cbn.
  apply Forall_fmap, Forall_true. intros a. unfold compose, plan_action_to_operation.
  destruct (action_type a); try done. repeat case_match; done.
Qed.

Lemma choose_fee rt reg sp pol batch t r :
  fits 64 (max_fee t) → Forall (λ p, fits 64 (fee_quote p)) (candidates_for batch t) →
  choose rt reg sp pol batch t = Some r → fits 64 (fee_quote (winning_plan r)).
Proof.
  intros Hm Hl. unfold choose. destruct (negb _); [done|]. case_decide as Hno.
  - unfold fallback_choice, fallback_to_internal_resolver.
    destruct (IntentResolver.resolve t _ _); [|done..]. by intros [= <-].
  - destruct (WinningPlanSelector.select _ sp) as [i| |]; [|done..].
    destruct (passing _ _ _ _ _ !! i) as [[plan e]|] eqn:Ei; [|done]. intros [= <-]. cbn.
    apply (proj1 (Forall_forall _ _) Hl). apply list_elem_of_lookup_2, list_elem_of_filter in Ei as [_ Hin].
    by apply elem_of_zip_l in Hin.
Qed.

(** What an action of a plan asks the settlement engine to do: the five kinds of
    actions on balances and pools act on their target with their amount (none is
    zero); a custom action is a contract transition if it carries a schema and a
    state, else a transfer of ownership if it carries a new owner, else a touch. *)
Inductive action_does (a : PlanAction) : ObjectOperation → Prop :=
| DoesDebit : action_type a = PaDebitBalance →
    action_does a (DebitBalance (target_object a) (default 0 (act_amount a)))
| DoesCredit : action_type a = PaCreditBalance →
    action_does a (CreditBalance (target_object a) (default 0 (act_amount a)))
| DoesSwap : action_type a = PaSwapPoolAmounts →
    action_does a (SwapPoolAmounts (target_object a) (wraps 128 (default 0 (act_amount a)))
      (default 0 (act_metadata a !! "delta_b" ≫= parse_i128)))
| DoesLock : action_type a = PaLockBalance →
    action_does a (LockBalance (target_object a) (default 0 (act_amount a)))
| DoesUnlock : action_type a = PaUnlockBalance →
    action_does a (UnlockBalance (target_object a) (default 0 (act_amount a)))
| DoesTransition n schema state : action_type a = PaCustom n →
    act_metadata a !! "schema_id" = Some schema → act_metadata a !! "proposed_state" = Some state →
    action_does a (ContractStateTransition (target_object a) (decode_id schema)
      (default [] (hex_decode state)))
| DoesOwner n owner : action_type a = PaCustom n →
    act_metadata a !! "schema_id" = None ∨ act_metadata a !! "proposed_state" = None →
    act_metadata a !! "new_owner" = Some owner →
    action_does a (TransferOwnership (target_object a) (decode_id owner))
| DoesTouch n : action_type a = PaCustom n →
    act_metadata a !! "schema_id" = None ∨ act_metadata a !! "proposed_state" = None →
    act_metadata a !! "new_owner" = None →
    action_does a (UpdateVersion (target_object a)).

Lemma action_does_op a : action_does a (plan_action_to_operation a).
Proof.
  unfold plan_action_to_operation. destruct (action_type a) as [| | | | |n] eqn:Ea; try by constructor.
  destruct (act_metadata a !! "schema_id") as [x|] eqn:Es;
    [destruct (act_metadata a !! "proposed_state") as [y|] eqn:Ep|].
  - by eapply DoesTransition.
  - destruct (act_metadata a !! "new_owner") eqn:Eo;
      [eapply DoesOwner|eapply DoesTouch]; eauto.
  - destruct (act_metadata a !! "new_owner") eqn:Eo;
      [eapply DoesOwner|eapply DoesTouch]; eauto.
Qed.

(** The plan [p] carries out the candidate [w]: its actions one by one, on the
    objects it names, under its id, with a thousand units of gas per unit of fee. *)
Record carries_out (w : CandidatePlan) (p : ExecutionPlan) : Prop := {
  co_id : plan_tx_id p = cp_plan_id w;
  co_ops : Forall2 action_does (actions w) (operations p);
  co_access : object_access p =
    ((λ i, mkAccess i ReadOnly) <$> object_reads w) ++ ((λ i, mkAccess i ReadWrite) <$> object_writes w);
  co_caps : required_capabilities p = cp_required_capabilities w;
  co_gas : gas_limit p = sat_mul 64 (fee_quote w) 1000 }.

Lemma executed_carries r : carries_out (winning_plan r) (executed r).
Proof.
  split; try done. cbn. induction (actions (winning_plan r)); constructor; [apply action_does_op|done].
Qed.

(** Everything a batch does, the audit included. *)
Lemma solver_batch_ok (m : SolverMarketRuntime) batch :
  store_inv (store (base m)) → Forall (resolvable (base m)) (mb_intents batch) →
  Forall (λ t, fits 64 (max_fee t) ∧
    Forall (λ p, fits 64 (fee_quote p)) (candidates_for batch t)) (mb_intents batch) →
  let rt := at_epoch (base m) (mb_epoch batch) in
  let choices := omap (choose rt (registry m) (selection_policy m) (policy m) batch) (mb_intents batch) in
  ∃ m' fs gs, process_solver_batch batch m = (m', Ok fs) ∧ selected_plans fs = choices ∧
    ParallelScheduler.schedule (executed <$> choices) = Ok gs ∧
    SettlementEngine.execute_groups gs (mb_epoch batch) (store (base m)) = (store (base m'), Ok (settlement_result fs)) ∧
    base m' = with_store rt (store (base m')) ∧
    store_inv (store (base m')) ∧ synced (store (base m')) ∧
    res_state_root (settlement_result fs) = ObjectStore.state_root (store (base m')) ∧
    rc_tx_id <$> receipts (settlement_result fs) ≡ₚ (λ r, cp_plan_id (winning_plan r)) <$> choices ∧
    tallied_by (concat (candidates_for batch <$> mb_intents batch)) (registry m) (registry m').
Proof.
  intros Hinv Hres Hfees rt choices.
  destruct (process_intents_choices rt (registry m) (registry m) (selection_policy m) (policy m) batch
    (mb_intents batch) [] []) as (reg' & E & Ht); [done|exact Hres|]. cbn [app] in E.
  destruct (schedule_any (executed <$> choices)) as (gs & Egs & Hperm).
  assert (Forall plan_good (concat (plans <$> gs))) as Hgood.
  { rewrite Hperm. apply Forall_fmap, Forall_forall. intros r Hr. apply executed_good.
    apply list_elem_of_omap in Hr as (t & Hin & Hc).
    destruct (proj1 (Forall_forall _ _) Hfees t Hin) as [Hm Hl]. by eapply choose_fee. }
  destruct (execute_groups_ok gs (mb_epoch batch) (store (base m)) Hinv Hgood)
    as (st' & res & Ex & Hinv' & Hs & Hroot & [Hi _ _ _] & _).
  eexists _, _, gs. split.
  { unfold process_solver_batch. fold (at_epoch (base m) (mb_epoch batch)). fold rt. rewrite E.
    fold choices. cbv beta iota zeta. rewrite Egs. cbn [store at_epoch rt]. rewrite Ex. reflexivity. }
  cbn [selected_plans base store settlement_result registry]. split_and!; try done.
  rewrite Hi, (sorted_groups_plans gs), Hperm, <- list_fmap_compose. done.
Qed.

(** C30: A batch of solver plans settles the plan chosen for each intent.  If the
    store is well formed, the fees fit 64 bits and the internal resolver panics on
    no intent: the selections are, intent by intent, the winner, its evaluation
    and its attribution that [choose] gives from the store and the registry before
    the batch, so no intent and no reputation recorded on the way influences
    another intent's choice.  What is scheduled and settled is, for each of them
    and nothing else, a plan that carries out the winner's actions one by one on
    the objects it names; the final store and the receipts are those of executing
    that schedule on the store before, with a receipt per winner.  The store ends
    well formed, synced and with the root of the result, and every candidate of a
    valid intent is counted once for its solver.  (How the audit ranks the plans
    is not part of the statement.) *)
Theorem solver_batch_result (m : SolverMarketRuntime) batch :
  store_inv (store (base m)) → Forall (resolvable (base m)) (mb_intents batch) →
  Forall (λ t, fits 64 (max_fee t) ∧
    Forall (λ p, fits 64 (fee_quote p)) (candidates_for batch t)) (mb_intents batch) →
  let rt := at_epoch (base m) (mb_epoch batch) in
  let choices := omap (choose rt (registry m) (selection_policy m) (policy m) batch) (mb_intents batch) in
  let chosen r := (sp_intent_id r, winning_plan r, evaluation r, attribution r) in
  ∃ m' fs ps gs, process_solver_batch batch m = (m', Ok fs) ∧
    chosen <$> selected_plans fs = chosen <$> choices ∧
    Forall2 carries_out (winning_plan <$> choices) ps ∧
    ParallelScheduler.schedule ps = Ok gs ∧ concat (plans <$> gs) ≡ₚ ps ∧
    SettlementEngine.execute_groups gs (mb_epoch batch) (store (base m)) = (store (base m'), Ok (settlement_result fs)) ∧
    base m' = with_store rt (store (base m')) ∧
    store_inv (store (base m')) ∧ synced (store (base m')) ∧
    res_state_root (settlement_result fs) = ObjectStore.state_root (store (base m')) ∧
    rc_tx_id <$> receipts (settlement_result fs) ≡ₚ (λ r, cp_plan_id (winning_plan r)) <$> choices ∧
    tallied_by (concat (candidates_for batch <$> mb_intents batch)) (registry m) (registry m').
Proof.
  intros Hinv Hres Hfees rt choices chosen.
  destruct (solver_batch_ok m batch Hinv Hres Hfees) as (m' & fs & gs & E & Esel & Egs & Hrest).
  fold rt in Egs, Esel, Hrest. fold choices in Egs, Esel, Hrest.
  exists m', fs, (executed <$> choices), gs. split; [done|]. split; [by rewrite Esel|].
  split; [|split; [done|split; [|done]]].
  - clear. induction choices as [|r l IH]; constructor; [apply executed_carries|done].
  - destruct (schedule_any (executed <$> choices)) as (gs' & Egs' & Hperm). congruence.
Qed.

(** The audit of an intent with a valid plan lists those plans in the order they
    came, not ranked, whatever the policy picks. *)
Theorem audit_unranked rt reg sp pol batch t r :
  choose rt reg sp pol batch t = Some r → winning_solver_id (attribution r) ≠ INTERNAL_SOLVER_ID →
  ranking (audit r) = seq 0 (length (passing rt reg pol t (candidates_for batch t))).
Proof.
  unfold choose. destruct (negb _); [done|]. case_decide as Hno.
  - unfold fallback_choice, fallback_to_internal_resolver.
    destruct (IntentResolver.resolve t _ _); [|done..]. by intros [= <-] [].
  - destruct (WinningPlanSelector.select _ sp) as [i| |]; [|done..].
    destruct (passing _ _ _ _ _ !! i); [|done]. by intros [= <-] _.
Qed.
End batches.

(** ** What validation leaves open *)

(** The plan of a solver that moves [amt] from the balance [i] to the balance [j]. *)
Definition moving_plan `{Sha256} (pid iid sid i j : id32) (amt fee : Z) : CandidatePlan :=
  let plan := mkCandidate pid iid sid
    [mkAction PaDebitBalance i (Some amt) ∅; mkAction PaCreditBalance j (Some amt) ∅] [] [] [i; j]
    1 fee 10000 [] 0 0 None ∅ in
  set_plan_hash (CandidatePlan.compute_hash plan) plan.

(** Any registered, active solver that may name two objects gets a plan accepted
    that moves any available amount between any two balances, whoever owns them,
    with a fee of the intent's maximum: the plan is neither compared with what the
    intent asks for nor with the intent's id or sender. *)
Theorem solver_moves_any_balance `{Sha256, HexBytes, HexDecode} (t : IntentTransaction)
    (st : ObjectStore) (reg : SolverRegistry) (s : SolverProfile) (b : BalanceObject)
    (pid iid sid i j : id32) (amt : Z) :
  solvers reg !! sid = Some s → sv_status s = Active → 2 ≤ max_objects_per_plan (sv_capabilities s) →
  balances st !! i = Some b → amt ≤ BalanceObject.available b →
  is_Some (objects st !! i) → is_Some (objects st !! j) →
  let plan := moving_plan pid iid sid i j amt (max_fee t) in
  passed (PlanValidator.validate plan t st reg PermissivePolicy) = true ∧
  operations (candidate_plan_to_execution_plan plan) = [DebitBalance i amt; CreditBalance j amt] ∧
  gas_limit (candidate_plan_to_execution_plan plan) = sat_mul 64 (max_fee t) 1000.
Proof.
  intros Hs Ha Hmax Hb Hamt Hi Hj plan. split; [|done].
  apply validate_passes. intros c. destruct c; unfold applies; try (by intros []); try (by intros Hn; apply Hn).
  - intros Hn. exact (Hn s Hs Ha).
  - intros (s' & k & _ & Hk & _). by apply elem_of_nil in Hk.
  - cbn. intros (k & Hk & Hnone). apply elem_of_cons in Hk as [->|Hk]; [by destruct Hi; congruence|].
    apply list_elem_of_singleton in Hk as ->. destruct Hj. congruence.
  - intros (a & amt' & Hin & Hd & Hamt' & Hall).
    apply elem_of_cons in Hin as [->|Hin]; [|apply list_elem_of_singleton in Hin as ->; done].
    cbn in Hamt', Hall. injection Hamt' as <-. specialize (Hall b Hb). lia.
  - cbn. intros (s' & Hs' & Hm). assert (s' = s) as -> by congruence. lia.
  - cbn. lia.
  - by cbn.
  - intros (a & n & str & Hin & Hc & _).
    apply elem_of_cons in Hin as [->|Hin]; [done|]. by apply list_elem_of_singleton in Hin as ->.
  - intros (a & n & str & Hin & Hc & _).
    apply elem_of_cons in Hin as [->|Hin]; [done|]. by apply list_elem_of_singleton in Hin as ->.
Qed.

(** ** Sample runs *)

(** Solver 77 is active; its plan for Alice's first transfer moves Bob's funds to
    Alice.  The second transfer has no candidate and falls back. *)
Definition solver77 : SolverProfile :=
  mkSolver 77 "solver" 77 Active (mkSolverCaps CapabilitySet.user_default [] [] 4) default_reputation
    0 0 0 false ∅.
Definition taking_plan : CandidatePlan := @moving_plan sample_sha256 500 1 77 11 10 30 1000.
Definition market_batch : SolverMarketBatch :=
  mkMarketBatch 7 9 1 [sample_intent sample_transfer 0; sample_intent sample_transfer 1]
    {[900 := [taking_plan]]}.
Definition sample_market : SolverMarketRuntime :=
  mkMarket sample_runtime (mkSolvers {[77 := solver77]}) BestScore PermissivePolicy.

Definition run_market : SolverMarketRuntime * outcome RuntimeError FinalSettlement :=
  @SolverMarketRuntime.process_solver_batch sample_sha256 sample_hex sample_hex_bytes sample_hex_decode
    sample_bincode sample_u256 market_batch sample_market.

Lemma solver_batch_result_witness :
  ∃ m' fs, run_market = (m', Ok fs) ∧ store_inv (store (base m')) ∧
    rc_tx_id <$> receipts (settlement_result fs) ≡ₚ [500; 901] ∧
    (amount <$> balances (store (base m')) !! 11) = Some 120.
Proof.
  destruct (@solver_batch_result sample_sha256 sample_hex sample_hex_bytes sample_hex_decode
    sample_bincode sample_bincode_laws sample_u256 sample_market market_batch)
    as (m' & fs & ps & gs & E & _ & _ & _ & _ & _ & _ & Hinv & _ & _ & Hids & _); [exact settled_inv| | |].
  - repeat constructor; vm_compute; discriminate.
  - assert (Forall (λ t, fits 64 (max_fee t) ∧
      Forall (λ p, fits 64 (fee_quote p)) (candidates_for market_batch t)) (mb_intents market_batch)) as Hf.
    { repeat apply Forall_cons_2; [..|apply Forall_nil_2]; (split; [by_eval|]); by_decide. }
    exact Hf.
  - exists m', fs. split; [exact E|]. split; [exact Hinv|]. split.
    + match type of Hids with _ ≡ₚ ?l => assert (l = [500; 901]) as El by (vm_compute; reflexivity) end.
      rewrite El in Hids. exact Hids.
    + assert ((amount <$> balances (store (base run_market.1)) !! 11) = Some 120) as Ea
        by (vm_compute; reflexivity).
      unfold run_market in Ea. rewrite E in Ea. exact Ea.
Defined.

Lemma fallback_equivalent_witness :
  ∃ p, @IntentResolver.resolve sample_u256 (sample_intent sample_transfer 0) settled_store
      CapabilitySet.user_default = Ok p ∧
    @SettlementEngine.apply_plan sample_sha256 sample_hex sample_bincode
      (@candidate_plan_to_execution_plan sample_hex_decode
        (@SolverMarketRuntime.synthetic_plan sample_sha256 sample_hex_bytes
          (sample_intent sample_transfer 0) p)) settled_store =
    @SettlementEngine.apply_plan sample_sha256 sample_hex sample_bincode p settled_store.
Proof.
  destruct (@IntentResolver.resolve sample_u256 (sample_intent sample_transfer 0) settled_store
         CapabilitySet.user_default) as [p| |] eqn:E; [|discriminate E..].
  exists p. split; [reflexivity|].
  refine (proj1 (@fallback_equivalent sample_hex_bytes sample_hex_decode sample_hex_laws sample_sha256
    sample_hex sample_bincode sample_u256 _ settled_store _ p settled_inv E) settled_store).
Defined.

Lemma solver_moves_any_balance_witness :
  passed (@PlanValidator.validate sample_sha256 sample_hex_decode taking_plan
    (sample_intent sample_transfer 0) settled_store (mkSolvers {[77 := solver77]}) PermissivePolicy) = true.
Proof.
  assert (∃ b, balances settled_store !! 11 = Some b ∧ 30 ≤ BalanceObject.available b) as (b & Hb & Ha).
  { destruct (balances settled_store !! 11) as [b|] eqn:E; [|vm_compute in E; discriminate E].
    exists b. split; [reflexivity|]. vm_compute in E. injection E as <-. by_eval. }
  refine (proj1 (@solver_moves_any_balance sample_sha256 sample_hex_bytes sample_hex_decode
    (sample_intent sample_transfer 0) settled_store (mkSolvers {[77 := solver77]}) solver77 b
    500 1 77 11 10 30 _ _ _ Hb Ha _ _)); [reflexivity|reflexivity|by_eval|by_decide|by_decide].
Defined.
