(* ===== verification/Membership.v ===== *)
(** * Nodes, their status, and committees

    Who may take part in sequencing: node identities and the registry of
    sequencers (src/poseq/src/identities/), the membership states and their legal
    transitions (src/poseq/src/membership/mod.rs), the committee snapshots imported
    from the chain (src/poseq/src/chain_bridge/snapshot.rs) and the committee formed
    from them (src/poseq/src/committee/membership.rs).  The theorems say that a
    status only changes along legal transitions, who exactly is in a committee, and
    what the hash of a snapshot leaves open. *)

From stdpp Require Import gmap strings list pretty sorting.
From S2P Require Import Prelude Concrete Sorting.

(** ** Identities *)

(* @src src/poseq/src/identities/node.rs:5-9 NodeRole *)
Inductive NodeRole : Type := Sequencer | Validator | ObserverOnly.
#[export] Instance NodeRole_eq_dec : EqDecision NodeRole.
Proof. solve_decision. Defined.

(* @src src/poseq/src/identities/node.rs:13-18 NodeStatus *)
Inductive NodeStatus : Type := NsActive | NsSuspended | NsEjected | NsPending.
#[export] Instance NodeStatus_eq_dec : EqDecision NodeStatus.
Proof. solve_decision. Defined.

(* @src src/poseq/src/identities/node.rs:22-31 NodeIdentity *)
Record NodeIdentity : Type := mkNode {
  node_id : id32;
  nd_public_key : id32;
  role : NodeRole;
  nd_status : NodeStatus;
  epoch_joined : Z;
  is_eligible_proposer : bool;
  is_eligible_attestor : bool;
  nd_metadata : gmap string string }.

Module NodeIdentity.
(* @src src/poseq/src/identities/node.rs:34-52 NodeIdentity::new *)
Definition new (i pk : id32) (r : NodeRole) (epoch : Z) : NodeIdentity :=
  mkNode i pk r NsPending epoch (bool_decide (r = Sequencer))
    (bool_decide (r = Sequencer ∨ r = Validator)) ∅.

Definition set_status (s : NodeStatus) (p a : bool) (n : NodeIdentity) : NodeIdentity :=
  mkNode (node_id n) (nd_public_key n) (role n) s (epoch_joined n) p a (nd_metadata n).
(* @src src/poseq/src/identities/node.rs:54-56 NodeIdentity::activate *)
Definition activate (n : NodeIdentity) : NodeIdentity :=
  set_status NsActive (is_eligible_proposer n) (is_eligible_attestor n) n.
(* @src src/poseq/src/identities/node.rs:58-62 NodeIdentity::suspend *)
Definition suspend (n : NodeIdentity) : NodeIdentity := set_status NsSuspended false false n.
(* @src src/poseq/src/identities/node.rs:64-68 NodeIdentity::eject *)
Definition eject (n : NodeIdentity) : NodeIdentity := set_status NsEjected false false n.
(* @src src/poseq/src/identities/node.rs:70-72 NodeIdentity::is_active *)
Definition is_active (n : NodeIdentity) : bool := bool_decide (nd_status n = NsActive).
End NodeIdentity.

(** ** The registry of sequencers *)

(* @src src/poseq/src/identities/registry.rs:21-33 ChainSequencerStatus *)
Inductive ChainSequencerStatus : Type := CsPending | CsActive | CsSuspended | CsJailed | CsRetired.
#[export] Instance ChainSequencerStatus_eq_dec : EqDecision ChainSequencerStatus.
Proof. solve_decision. Defined.
(* @src src/poseq/src/identities/registry.rs:37-39 ChainSequencerStatus::is_committee_eligible *)
Definition is_committee_eligible (s : ChainSequencerStatus) : bool := bool_decide (s = CsActive).

(* @src src/poseq/src/identities/registry.rs:47-68 SequencerRecord *)
Record SequencerRecord : Type := mkSequencer {
  sq_node_id : id32;
  sq_public_key : id32;
  moniker : string;
  sq_operator_address : string;
  cosmos_validator_address : option string;
  registered_epoch : Z;
  sq_is_active : bool;
  chain_status : ChainSequencerStatus }.
(* @src src/poseq/src/identities/registry.rs:71-73 SequencerRecord::node_id_hex *)
Definition node_id_hex `{Hex} (r : SequencerRecord) : string := hex_encode (sq_node_id r).

Definition set_chain_status (a : bool) (s : ChainSequencerStatus) (r : SequencerRecord) : SequencerRecord :=
  mkSequencer (sq_node_id r) (sq_public_key r) (moniker r) (sq_operator_address r)
    (cosmos_validator_address r) (registered_epoch r) a s.

(* @src src/poseq/src/identities/registry.rs:82-85 SequencerRegistry *)
Record SequencerRegistry : Type := mkSequencers { records : gmap Z SequencerRecord }.

Module SequencerRegistry.
(* @src src/poseq/src/identities/registry.rs:88-92 SequencerRegistry::new *)
Definition new : SequencerRegistry := mkSequencers ∅.
(* @src src/poseq/src/identities/registry.rs:95-97 SequencerRegistry::apply_registration *)
Definition apply_registration (r : SequencerRecord) (reg : SequencerRegistry) : SequencerRegistry :=
  mkSequencers (<[sq_node_id r := r]> (records reg)).
(* @src src/poseq/src/identities/registry.rs:100-105 SequencerRegistry::apply_deactivation *)
Definition apply_deactivation (i : id32) (reg : SequencerRegistry) : SequencerRegistry :=
  mkSequencers (alter (set_chain_status false CsSuspended) i (records reg)).
(* @src src/poseq/src/identities/registry.rs:108-113 SequencerRegistry::apply_reactivation *)
Definition apply_reactivation (i : id32) (reg : SequencerRegistry) : SequencerRegistry :=
  mkSequencers (alter (set_chain_status true CsActive) i (records reg)).
(* @src src/poseq/src/identities/registry.rs:118-123 SequencerRegistry::apply_status_update *)
Definition apply_status_update (i : id32) (s : ChainSequencerStatus) (reg : SequencerRegistry)
  : SequencerRegistry :=
  mkSequencers (alter (set_chain_status (is_committee_eligible s) s) i (records reg)).
(* @src src/poseq/src/identities/registry.rs:127-132 SequencerRegistry::is_chain_eligible *)
Definition is_chain_eligible (reg : SequencerRegistry) (i : id32) : bool :=
  default false ((λ r, is_committee_eligible (chain_status r)) <$> records reg !! i).
(* @src src/poseq/src/identities/registry.rs:135-137 SequencerRegistry::get *)
Definition get (reg : SequencerRegistry) (i : id32) : option SequencerRecord := records reg !! i.
(* @src src/poseq/src/identities/registry.rs:140-142 SequencerRegistry::is_active *)
Definition is_active (reg : SequencerRegistry) (i : id32) : bool :=
  default false (sq_is_active <$> records reg !! i).
(* @src src/poseq/src/identities/registry.rs:145-147 SequencerRegistry::public_key *)
Definition public_key (reg : SequencerRegistry) (i : id32) : option id32 :=
  sq_public_key <$> records reg !! i.
(* @src src/poseq/src/identities/registry.rs:150-152 SequencerRegistry::all_node_ids *)
Definition all_node_ids (reg : SequencerRegistry) : list id32 := btree_keys (records reg).
(* @src src/poseq/src/identities/registry.rs:155-161 SequencerRegistry::active_node_ids *)
Definition active_node_ids (reg : SequencerRegistry) : list id32 :=
  sq_node_id <$> filter (λ r, sq_is_active r = true) (btree_values (records reg)).
(* @src src/poseq/src/identities/registry.rs:164-166 SequencerRegistry::len *)
Definition len (reg : SequencerRegistry) : nat := size (records reg).
(* @src src/poseq/src/identities/registry.rs:168-170 SequencerRegistry::is_empty *)
Definition is_empty (reg : SequencerRegistry) : bool := bool_decide (records reg = ∅).
(* @src src/poseq/src/identities/registry.rs:175-190 SequencerRegistry::to_node_identities *)
Definition to_node_identities (reg : SequencerRegistry) : list NodeIdentity :=
  (λ r, NodeIdentity.activate
    (NodeIdentity.new (sq_node_id r) (sq_public_key r) Sequencer (registered_epoch r))) <$>
  filter (λ r, sq_is_active r = true) (btree_values (records reg)).
(* @src src/poseq/src/identities/registry.rs:194-199 SequencerRegistry::load_from_snapshot *)
Definition load_from_snapshot (l : list SequencerRecord) (_ : SequencerRegistry) : SequencerRegistry :=
  mkSequencers (foldl (λ m r, <[sq_node_id r := r]> m) ∅ l).
End SequencerRegistry.

(** ** Membership *)

(* @src src/poseq/src/membership/mod.rs:11-19 MembershipStatus *)
Inductive MembershipStatus : Type :=
| Active
| Suspended (reason : string) (since_epoch : Z)
| Banned (reason : string) (since_epoch : Z)
| Recovering | Observer | Leaving | Removed.
#[export] Instance MembershipStatus_eq_dec : EqDecision MembershipStatus.
Proof. solve_decision. Defined.

Module MembershipStatus.
(* @src src/poseq/src/membership/mod.rs:22-32 MembershipStatus::fmt *)
Definition display (s : MembershipStatus) : string :=
  match s with
  | Active => "Active" | Suspended _ _ => "Suspended" | Banned _ _ => "Banned"
  | Recovering => "Recovering" | Observer => "Observer" | Leaving => "Leaving" | Removed => "Removed"
  end.
(* @src src/poseq/src/membership/mod.rs:36-38 MembershipStatus::can_vote *)
Definition can_vote (s : MembershipStatus) : bool := match s with Active => true | _ => false end.
(* @src src/poseq/src/membership/mod.rs:40-42 MembershipStatus::can_propose *)
Definition can_propose (s : MembershipStatus) : bool := match s with Active => true | _ => false end.
(* @src src/poseq/src/membership/mod.rs:44-49 MembershipStatus::can_participate *)
Definition can_participate (s : MembershipStatus) : bool :=
  match s with Active | Recovering | Observer => true | _ => false end.
(* @src src/poseq/src/membership/mod.rs:51-53 MembershipStatus::is_terminal *)
Definition is_terminal (s : MembershipStatus) : bool :=
  match s with Banned _ _ | Removed => true | _ => false end.
(* @src src/poseq/src/membership/mod.rs:56-80 MembershipStatus::can_transition_to *)
Definition can_transition_to (s next : MembershipStatus) : bool :=
  match s, next with
  | Active, Suspended _ _ | Active, Banned _ _ | Active, Leaving | Active, Observer => true
  | Suspended _ _, Active | Suspended _ _, Recovering | Suspended _ _, Banned _ _
  | Suspended _ _, Removed => true
  | Recovering, Active | Recovering, Suspended _ _ => true
  | Observer, Active | Observer, Leaving => true
  | Leaving, Removed => true
  | _, _ => false
  end.
End MembershipStatus.

(* @src src/poseq/src/membership/mod.rs:88-93 MembershipTransitionEvent *)
Record MembershipTransitionEvent : Type := mkTransition {
  from : string; to : string; mt_epoch : Z; mt_reason : string }.
(* @src src/poseq/src/membership/mod.rs:96-101 NodeMembership *)
Record NodeMembership : Type := mkMember {
  mb_node_id : id32;
  status : MembershipStatus;
  joined_epoch : Z;
  history : list MembershipTransitionEvent }.
(* @src src/poseq/src/membership/mod.rs:108-113 RoleTransitionRequest *)
Record RoleTransitionRequest : Type := mkRequest {
  rq_node_id : id32;
  requested_status : MembershipStatus;
  rq_reason : string;
  rq_epoch : Z }.
(* @src src/poseq/src/membership/mod.rs:120-129 MembershipError *)
Inductive MembershipError : Type :=
| NodeNotFound (i : id32)
| IllegalTransition (i : id32) (from to : string)
| NodeAlreadyTerminal (i : id32)
| InsufficientCommitteeSize.

(* @src src/poseq/src/membership/mod.rs:135-137 MembershipStore *)
Record MembershipStore : Type := mkMembers { members : gmap Z NodeMembership }.

Module MembershipStore.
(* @src src/poseq/src/membership/mod.rs:140-144 MembershipStore::new *)
Definition new : MembershipStore := mkMembers ∅.

(* @src src/poseq/src/membership/mod.rs:146-159 MembershipStore::register *)
Definition register (i : id32) (epoch : Z) : M MembershipStore MembershipError () := λ s,
  if decide (is_Some (members s !! i)) then (s, Ok tt)
  else (mkMembers (<[i := mkMember i Active epoch []]> (members s)), Ok tt).

(* @src src/poseq/src/membership/mod.rs:161-188 MembershipStore::transition *)
Definition transition (req : RoleTransitionRequest) : M MembershipStore MembershipError () := λ s,
  match members s !! rq_node_id req with
  | None => (s, Err (NodeNotFound (rq_node_id req)))
  | Some m =>
      if MembershipStatus.is_terminal (status m) then (s, Err (NodeAlreadyTerminal (rq_node_id req)))
      else if negb (MembershipStatus.can_transition_to (status m) (requested_status req))
      then (s, Err (IllegalTransition (rq_node_id req) (MembershipStatus.display (status m))
                 (MembershipStatus.display (requested_status req))))
      else
        let event := mkTransition (MembershipStatus.display (status m))
          (MembershipStatus.display (requested_status req)) (rq_epoch req) (rq_reason req) in
        (mkMembers (<[rq_node_id req :=
           mkMember (mb_node_id m) (requested_status req) (joined_epoch m) (history m ++ [event])]>
           (members s)), Ok tt)
  end.

(* @src src/poseq/src/membership/mod.rs:190-192 MembershipStore::get *)
Definition get (s : MembershipStore) (i : id32) : option NodeMembership := members s !! i.
(* @src src/poseq/src/membership/mod.rs:194-200 MembershipStore::active_members *)
Definition active_members (s : MembershipStore) : list id32 :=
  (filter (λ p, status p.2 = Active) (btree_list (members s))).*1.
(* @src src/poseq/src/membership/mod.rs:202-207 MembershipStore::can_participate *)
Definition can_participate (s : MembershipStore) (i : id32) : bool :=
  default false ((λ m, MembershipStatus.can_participate (status m)) <$> members s !! i).
(** Unknown nodes are not blocked at this layer. *)
(* @src src/poseq/src/membership/mod.rs:211-216 MembershipStore::is_eligible_for_committee *)
Definition is_eligible_for_committee (s : MembershipStore) (i : id32) : bool :=
  default true ((λ m, bool_decide (status m = Active)) <$> members s !! i).

Definition suspension (epoch : Z) : MembershipStatus := Suspended "chain-authoritative suspension" epoch.
(** The result of the transition is discarded. *)
(* @src src/poseq/src/membership/mod.rs:221-253 MembershipStore::suspend_node *)
Definition suspend_node (i : id32) (epoch : Z) (s : MembershipStore) : MembershipStore :=
  match members s !! i with
  | Some m =>
      if MembershipStatus.is_terminal (status m) then s
      else match status m with
      | Suspended _ _ => s
      | _ => (transition (mkRequest i (suspension epoch) "chain-authoritative suspension" epoch) s).1
      end
  | None => mkMembers (<[i := mkMember i (suspension epoch) epoch []]> (members s))
  end.
End MembershipStore.

(** ** Snapshots from the chain *)

(* @src src/poseq/src/chain_bridge/snapshot.rs:17-26 ChainCommitteeMember *)
Record ChainCommitteeMember : Type := mkChainMember {
  cm_node_id : string;
  cm_public_key : string;
  cm_moniker : string;
  cm_role : string }.
(* @src src/poseq/src/chain_bridge/snapshot.rs:33-42 ChainCommitteeSnapshot *)
Record ChainCommitteeSnapshot : Type := mkChainSnapshot {
  cs_epoch : Z;
  cs_members : list ChainCommitteeMember;
  snapshot_hash : bytes;
  produced_at_block : Z }.
(* @src src/poseq/src/chain_bridge/snapshot.rs:174-183 SnapshotImportError *)
Inductive SnapshotImportError : Type :=
| HashMismatch (epoch : Z)
| DuplicateEpoch (epoch : Z)
| InvalidNodeId (node_id error : string)
| StaleSnapshot (epoch produced_at max_seen : Z).
(* @src src/poseq/src/chain_bridge/snapshot.rs:186-197 SnapshotImportError::fmt *)
Definition display_import_error (e : SnapshotImportError) : string :=
  match e with
  | HashMismatch epoch => "snapshot hash mismatch for epoch " +:+ pretty epoch
  | DuplicateEpoch epoch => "snapshot already imported for epoch " +:+ pretty epoch
  | StaleSnapshot epoch p m => "stale snapshot for epoch " +:+ pretty epoch +:+ ": produced_at_block=" +:+
      pretty p +:+ " < max_seen=" +:+ pretty m
  | InvalidNodeId n e => "invalid node_id " +:+ n +:+ ": " +:+ e
  end.

(** The text of [hex]'s error on a string it does not decode. *)
Class HexErrorText := hex_error_text : string → string.

(** 32 bytes of hex, as an id. *)
Definition hex_id32 `{HexDecode} (s : string) : option id32 :=
  b ← hex_decode s; if decide (length b = 32%nat) then Some (of_be b) else None.

Module ChainCommitteeSnapshot.
(* @src src/poseq/src/chain_bridge/snapshot.rs:48-57 ChainCommitteeSnapshot::compute_hash *)
Definition hash_preimage (epoch : Z) (ids : list id32) : bytes :=
  string_bytes "committee_snapshot" ++ be_bytes 8 epoch ++ be_bytes 4 (Z.of_nat (length ids)) ++
  concat (be_bytes 32 <$> ids).
Definition compute_hash `{Sha256} (epoch : Z) (ids : list id32) : id32 := sha256 (hash_preimage epoch ids).

Fixpoint decode_members `{HexDecode, HexErrorText} (l : list ChainCommitteeMember)
  : outcome SnapshotImportError (list id32) :=
  match l with
  | [] => Ok []
  | m :: l =>
      match hex_decode (cm_node_id m) with
      | None => Err (InvalidNodeId (cm_node_id m) (hex_error_text (cm_node_id m)))
      | Some b =>
          if decide (length b ≠ 32%nat)
          then Err (InvalidNodeId (cm_node_id m) ("expected 32 bytes, got " +:+ pretty (Z.of_nat (length b))))
          else ids ← decode_members l; Ok (of_be b :: ids)
      end
  end.
(* @src src/poseq/src/chain_bridge/snapshot.rs:60-80 ChainCommitteeSnapshot::sorted_member_ids *)
Definition sorted_member_ids `{HexDecode, HexErrorText} (s : ChainCommitteeSnapshot)
  : outcome SnapshotImportError (list id32) :=
  ids ← decode_members (cs_members s); Ok (merge_sort Z.le ids).

(* @src src/poseq/src/chain_bridge/snapshot.rs:83-94 ChainCommitteeSnapshot::verify_hash *)
Definition verify_hash `{Sha256, HexDecode, HexErrorText} (s : ChainCommitteeSnapshot) : bool :=
  match sorted_member_ids s with
  | Ok ids =>
      let computed := compute_hash (cs_epoch s) ids in
      if decide (length (snapshot_hash s) ≠ 32%nat) then false
      else bool_decide (be_bytes 32 computed = snapshot_hash s)
  | _ => false
  end.
End ChainCommitteeSnapshot.

(* @src src/poseq/src/chain_bridge/snapshot.rs:101-107 SnapshotImporter *)
Record SnapshotImporter : Type := mkImporter {
  snapshots : gmap Z ChainCommitteeSnapshot;
  max_produced_at_block : Z }.

Module SnapshotImporter.
(* @src src/poseq/src/chain_bridge/snapshot.rs:110-115 SnapshotImporter::new *)
Definition new : SnapshotImporter := mkImporter ∅ 0.

(* @src src/poseq/src/chain_bridge/snapshot.rs:125-147 SnapshotImporter::import *)
Definition import `{Sha256, HexDecode, HexErrorText} (snap : ChainCommitteeSnapshot)
  : M SnapshotImporter SnapshotImportError () := λ s,
  if decide (is_Some (snapshots s !! cs_epoch snap)) then (s, Err (DuplicateEpoch (cs_epoch snap)))
  else if negb (ChainCommitteeSnapshot.verify_hash snap) then (s, Err (HashMismatch (cs_epoch snap)))
  else if decide (0 < produced_at_block snap ∧ produced_at_block snap < max_produced_at_block s)
  then (s, Err (StaleSnapshot (cs_epoch snap) (produced_at_block snap) (max_produced_at_block s)))
  else
    let max := if decide (max_produced_at_block s < produced_at_block snap)
               then produced_at_block snap else max_produced_at_block s in
    (mkImporter (<[cs_epoch snap := snap]> (snapshots s)) max, Ok tt).

(* @src src/poseq/src/chain_bridge/snapshot.rs:150-152 SnapshotImporter::get *)
Definition get (s : SnapshotImporter) (epoch : Z) : option ChainCommitteeSnapshot := snapshots s !! epoch.
(* @src src/poseq/src/chain_bridge/snapshot.rs:155-157 SnapshotImporter::has_epoch *)
Definition has_epoch (s : SnapshotImporter) (epoch : Z) : bool :=
  bool_decide (is_Some (snapshots s !! epoch)).
(* @src src/poseq/src/chain_bridge/snapshot.rs:160-162 SnapshotImporter::latest *)
Definition latest (s : SnapshotImporter) : option ChainCommitteeSnapshot :=
  last (btree_values (snapshots s)).
End SnapshotImporter.

(** ** Committees *)

(* @src src/poseq/src/committee/membership.rs:10-16 PoSeqCommittee *)
Record PoSeqCommittee : Type := mkCommittee {
  pc_epoch : Z;
  sequencers : gmap Z NodeIdentity;
  attestors : gmap Z NodeIdentity }.
(* @src src/poseq/src/committee/membership.rs:225-232 CommitteeFormationError *)
Inductive CommitteeFormationError : Type :=
| SnapshotVerificationFailed
| InsufficientActiveMembers (required available : nat)
| EpochMismatch (snapshot_epoch requested_epoch : Z).
(* @src src/poseq/src/committee/membership.rs:235-245 CommitteeFormationError::fmt *)
Definition display_formation_error (e : CommitteeFormationError) : string :=
  match e with
  | SnapshotVerificationFailed => "snapshot hash verification failed"
  | InsufficientActiveMembers required available =>
      "insufficient active members: need " +:+ pretty (Z.of_nat required) +:+ ", have " +:+
      pretty (Z.of_nat available)
  | EpochMismatch s r => "epoch mismatch: snapshot=" +:+ pretty s +:+ ", requested=" +:+ pretty r
  end.

Module PoSeqCommittee.
(* @src src/poseq/src/committee/membership.rs:19-25 PoSeqCommittee::new *)
Definition new (epoch : Z) : PoSeqCommittee := mkCommittee epoch ∅ ∅.

(* @src src/poseq/src/committee/membership.rs:28-40 PoSeqCommittee::add_node *)
Definition add_node (n : NodeIdentity) (c : PoSeqCommittee) : PoSeqCommittee :=
  match role n with
  | Sequencer => mkCommittee (pc_epoch c) (<[node_id n := n]> (sequencers c)) (attestors c)
  | Validator => mkCommittee (pc_epoch c) (sequencers c) (<[node_id n := n]> (attestors c))
  | ObserverOnly => c
  end.

Definition may_propose (n : NodeIdentity) : bool := NodeIdentity.is_active n && is_eligible_proposer n.
Definition may_attest (n : NodeIdentity) : bool := NodeIdentity.is_active n && is_eligible_attestor n.
(* @src src/poseq/src/committee/membership.rs:43-48 PoSeqCommittee::eligible_proposers *)
Definition eligible_proposers (c : PoSeqCommittee) : list NodeIdentity :=
  filter (λ n, may_propose n = true) (btree_values (sequencers c)).

Definition by_node_id (a b : NodeIdentity) : comparison := node_id a ?= node_id b.
(* @src src/poseq/src/committee/membership.rs:51-66 PoSeqCommittee::eligible_attestors *)
Definition eligible_attestors (c : PoSeqCommittee) : list NodeIdentity :=
  sort_by by_node_id
    (filter (λ n, may_attest n = true) (btree_values (sequencers c)) ++
     filter (λ n, may_attest n = true) (btree_values (attestors c))).

(* @src src/poseq/src/committee/membership.rs:69-71 PoSeqCommittee::is_member *)
Definition is_member (c : PoSeqCommittee) (i : id32) : bool :=
  bool_decide (is_Some (sequencers c !! i)) || bool_decide (is_Some (attestors c !! i)).
(* @src src/poseq/src/committee/membership.rs:74-76 PoSeqCommittee::quorum_size *)
Definition quorum_size (c : PoSeqCommittee) : nat := length (eligible_attestors c).

(* @src src/poseq/src/committee/membership.rs:138-142 PoSeqCommittee::from_chain_snapshot *)
Definition role_of (s : string) : NodeRole :=
  if decide (s = "Sequencer"%string) then Sequencer
  else if decide (s = "Validator"%string) then Validator else Sequencer.

(** The node a snapshot's member becomes, if nothing excludes it. *)
(* @src src/poseq/src/committee/membership.rs:106-146 PoSeqCommittee::from_chain_snapshot *)
Definition admitted_node `{HexDecode} (registry : SequencerRegistry) (membership : MembershipStore)
    (epoch : Z) (m : ChainCommitteeMember) : option NodeIdentity :=
  i ← hex_id32 (cm_node_id m);
  if negb (SequencerRegistry.is_chain_eligible registry i) then None
  else if negb (MembershipStore.is_eligible_for_committee membership i) then None
  else
    pk ← match SequencerRegistry.get registry i with
         | Some rec => Some (sq_public_key rec)
         | None => hex_id32 (cm_public_key m)
         end;
    Some (NodeIdentity.activate (NodeIdentity.new i pk (role_of (cm_role m)) epoch)).

(* @src src/poseq/src/committee/membership.rs:87-158 PoSeqCommittee::from_chain_snapshot *)
Definition from_chain_snapshot `{Sha256, HexDecode, HexErrorText} (snapshot : ChainCommitteeSnapshot)
    (registry : SequencerRegistry) (membership : MembershipStore) (epoch : Z) (min_members : nat)
  : outcome CommitteeFormationError PoSeqCommittee :=
  if decide (cs_epoch snapshot ≠ epoch) then Err (EpochMismatch (cs_epoch snapshot) epoch)
  else if negb (ChainCommitteeSnapshot.verify_hash snapshot) then Err SnapshotVerificationFailed
  else
    let committee := foldl (λ c m, match admitted_node registry membership epoch m with
      | Some n => add_node n c | None => c end) (new epoch) (cs_members snapshot) in
    let total := (size (sequencers committee) + size (attestors committee))%nat in
    if decide (total < min_members)%nat then Err (InsufficientActiveMembers min_members total)
    else Ok committee.

Definition root_preimage (c : PoSeqCommittee) : bytes :=
  concat (be_bytes 32 <$> btree_keys (sequencers c)) ++
  concat (be_bytes 32 <$> btree_keys (attestors c)) ++ be_bytes 8 (pc_epoch c).
(* @src src/poseq/src/committee/membership.rs:161-175 PoSeqCommittee::compute_committee_root *)
Definition compute_committee_root `{Sha256} (c : PoSeqCommittee) : id32 := sha256 (root_preimage c).
End PoSeqCommittee.

(* @src src/poseq/src/committee/membership.rs:180-185 CommitteeEpoch *)
Record CommitteeEpoch : Type := mkCommitteeEpoch {
  epoch_number : Z; start_height : Z; end_height : Z; ce_committee_root : id32 }.
(* @src src/poseq/src/committee/membership.rs:188-195 CommitteeEpoch::new *)
Definition new_committee_epoch `{Sha256} (n s e : Z) (c : PoSeqCommittee) : CommitteeEpoch :=
  mkCommitteeEpoch n s e (PoSeqCommittee.compute_committee_root c).
(* @src src/poseq/src/committee/membership.rs:200-206 CommitteeMembershipRecord *)
Record CommitteeMembershipRecord : Type := mkCommitteeRecord {
  cr_epoch : Z; sequencer_ids : list id32; attestor_ids : list id32; cr_committee_root : id32;
  cr_quorum_size : nat }.
(* @src src/poseq/src/committee/membership.rs:209-219 CommitteeMembershipRecord::from_committee *)
Definition from_committee `{Sha256} (c : PoSeqCommittee) : CommitteeMembershipRecord :=
  mkCommitteeRecord (pc_epoch c) (btree_keys (sequencers c)) (btree_keys (attestors c))
    (PoSeqCommittee.compute_committee_root c) (PoSeqCommittee.quorum_size c).

(* @src src/poseq/src/committee/membership.rs:260-274 sync_membership_from_chain *)
Definition sync_membership_from_chain (registry : SequencerRegistry) (epoch : Z)
    (membership : MembershipStore) : MembershipStore :=
  foldl (λ ms i, match SequencerRegistry.get registry i with
    | Some rec => if is_committee_eligible (chain_status rec) then ms
                  else MembershipStore.suspend_node i epoch ms
    | None => ms
    end) membership (SequencerRegistry.all_node_ids registry).

(** ** Lifecycles

    The operations that change the store, and the runs they make. *)

Inductive member_op : Type :=
| OpRegister (i : id32) (epoch : Z)
| OpTransition (req : RoleTransitionRequest)
| OpSuspend (i : id32) (epoch : Z)
| OpSync (registry : SequencerRegistry) (epoch : Z).

Definition member_step (s : MembershipStore) (op : member_op) : MembershipStore :=
  match op with
  | OpRegister i epoch => (MembershipStore.register i epoch s).1
  | OpTransition req => (MembershipStore.transition req s).1
  | OpSuspend i epoch => MembershipStore.suspend_node i epoch s
  | OpSync registry epoch => sync_membership_from_chain registry epoch s
  end.
Definition member_run (s : MembershipStore) (ops : list member_op) : MembershipStore :=
  foldl member_step s ops.

(** A record grows along one legal transition, which it records. *)
Inductive member_move : NodeMembership → NodeMembership → Prop :=
| move_to m next epoch reason :
    MembershipStatus.is_terminal (status m) = false →
    MembershipStatus.can_transition_to (status m) next = true →
    member_move m (mkMember (mb_node_id m) next (joined_epoch m)
      (history m ++ [mkTransition (MembershipStatus.display (status m))
                       (MembershipStatus.display next) epoch reason])).

(** How a node may appear: active, or suspended by the chain. *)
Definition fresh_member (i : id32) (m : NodeMembership) : Prop :=
  mb_node_id m = i ∧ history m = [] ∧
  (status m = Active ∨ ∃ epoch, status m = MembershipStore.suspension epoch).

(** What an operation may do to the entry of a node. *)
Definition entry_change (i : id32) (o o' : option NodeMembership) : Prop :=
  o' = o ∨
  (∃ m, o = None ∧ o' = Some m ∧ fresh_member i m) ∨
  (∃ m m', o = Some m ∧ o' = Some m' ∧ member_move m m').

Lemma entry_same i o : entry_change i o o.
Proof. by left. Qed.

(** A store with one entry replaced, seen through [entry_change]. *)
Lemma insert_change i j m' (s : gmap Z NodeMembership) :
  entry_change i (s !! i) (Some m') → entry_change j (s !! j) (<[i := m']> s !! j).
Proof.
  intros H. destruct (decide (j = i)) as [->|Hne]; [by rewrite lookup_insert_eq|].
  rewrite lookup_insert_ne by done. apply entry_same.
Qed.

Lemma register_change j i epoch s :
  entry_change j (members s !! j) (members (MembershipStore.register i epoch s).1 !! j).
Proof.
  unfold MembershipStore.register. case_decide as H; cbn; [apply entry_same|].
  apply insert_change. right; left. exists (mkMember i Active epoch []).
  split; [by apply eq_None_not_Some|]. repeat split. by left.
Qed.

Lemma transition_change j req s :
  entry_change j (members s !! j) (members (MembershipStore.transition req s).1 !! j).
Proof.
  unfold MembershipStore.transition.
  destruct (members s !! rq_node_id req) as [m|] eqn:E; cbn; [|apply entry_same].
  destruct (MembershipStatus.is_terminal (status m)) eqn:Et; cbn; [apply entry_same|].
  destruct (MembershipStatus.can_transition_to _ _) eqn:Ec; cbn; [|apply entry_same].
  apply insert_change. rewrite E. right; right. eexists m, _. split_and!; [done..|]. by constructor.
Qed.

Lemma suspend_change j i epoch s :
  entry_change j (members s !! j) (members (MembershipStore.suspend_node i epoch s) !! j).
Proof.
  unfold MembershipStore.suspend_node. destruct (members s !! i) as [m|] eqn:E.
  - destruct (MembershipStatus.is_terminal (status m)); [apply entry_same|].
    destruct (status m); first [apply entry_same | apply transition_change].
  - cbn. apply insert_change. rewrite E. right; left. eexists. split_and!; [done..|].
    repeat split. right. by eexists.
Qed.

(** Runs of the operations, seen from one node: a sequence of changes. *)
Inductive entry_path (i : id32) : option NodeMembership → option NodeMembership → Prop :=
| path_nil o : entry_path i o o
| path_step o1 o2 o3 : entry_change i o1 o2 → entry_path i o2 o3 → entry_path i o1 o3.

Lemma path_trans i o1 o2 o3 : entry_path i o1 o2 → entry_path i o2 o3 → entry_path i o1 o3.
Proof. induction 1; eauto using entry_path. Qed.
#[local] Hint Resolve path_nil path_step path_trans register_change transition_change suspend_change : core.

Lemma sync_path i registry epoch s :
  entry_path i (members s !! i) (members (sync_membership_from_chain registry epoch s) !! i).
Proof.
  unfold sync_membership_from_chain. generalize (SequencerRegistry.all_node_ids registry) as ids.
  intros ids. revert s. induction ids as [|j ids IH]; intros s; [apply path_nil|]. cbn [foldl].
  destruct (SequencerRegistry.get registry j) as [r|]; [|apply IH].
  destruct (is_committee_eligible (chain_status r)); [apply IH|]. eauto.
Qed.

Lemma member_run_path i ops s :
  entry_path i (members s !! i) (members (member_run s ops) !! i).
Proof.
  revert s. induction ops as [|op ops IH]; intros s; [apply path_nil|]. cbn [member_run foldl].
  eapply path_trans; [|apply IH]. destruct op; cbn [member_step]; eauto using sync_path.
Qed.

(** The recorded history is a legal walk that ends at the present status. *)
Definition legal_names (e : MembershipTransitionEvent) : Prop :=
  ∃ s s', MembershipStatus.is_terminal s = false ∧ MembershipStatus.can_transition_to s s' = true ∧
    from e = MembershipStatus.display s ∧ to e = MembershipStatus.display s'.
Fixpoint walk (start : string) (l : list MembershipTransitionEvent) (stop : string) : Prop :=
  match l with
  | [] => start = stop
  | e :: l => from e = start ∧ legal_names e ∧ walk (to e) l stop
  end.
Lemma walk_snoc start l e mid :
  walk start l mid → from e = mid → legal_names e → walk start (l ++ [e]) (to e).
Proof.
  revert start. induction l as [|x l IH]; intros start; cbn; [naive_solver|].
  intros (? & ? & Hw) Hf Hl. eauto.
Qed.

Definition member_ok (i : id32) (m : NodeMembership) : Prop :=
  mb_node_id m = i ∧
  ∃ start, (start = "Active" ∨ start = "Suspended")%string ∧
    walk start (history m) (MembershipStatus.display (status m)).

Lemma fresh_ok i m : fresh_member i m → member_ok i m.
Proof.
  intros (Hi & Hh & Hs). split; [done|]. rewrite Hh. destruct Hs as [->|[epoch ->]].
  - exists "Active"%string. naive_solver.
  - exists "Suspended"%string. naive_solver.
Qed.
Lemma member_move_ok i m m' : member_move m m' → member_ok i m → member_ok i m'.
Proof.
  intros [] (Hi & start & Hs & Hw). split; [done|]. exists start. split; [done|]. cbn.
  eapply (walk_snoc _ _ (mkTransition _ _ _ _)); [done..|]. eexists _, _. done.
Qed.
Lemma path_ok i o o' m' :
  entry_path i o o' → (∀ m, o = Some m → member_ok i m) → o' = Some m' → member_ok i m'.
Proof.
  intros Hp. revert m'. induction Hp as [o|o1 o2 o3 Hc _ IH]; [naive_solver|].
  intros m' H1 H3. apply (IH m'); [|done]. intros m E2.
  destruct Hc as [->|[(m1 & -> & E & Hf)|(m0 & m1 & -> & E & Hm)]]; [by apply H1| |]; simplify_eq.
  - by apply fresh_ok.
  - eapply member_move_ok; [done|]. by apply H1.
Qed.

(** A terminal status is never left, and nobody is forgotten. *)
Lemma path_terminal i o o' m :
  entry_path i o o' → o = Some m → MembershipStatus.is_terminal (status m) = true → o' = Some m.
Proof.
  induction 1 as [o|o1 o2 o3 Hc _ IH]; intros E Ht; [done|]. apply IH; [|done].
  destruct Hc as [->|[(? & ? & _)|(m0 & m1 & E0 & _ & Hm)]]; simplify_eq; [done|].
  destruct Hm as [m next ? ? Hn _]. congruence.
Qed.
Lemma path_kept i o o' : entry_path i o o' → is_Some o → is_Some o'.
Proof.
  induction 1 as [o|o1 o2 o3 Hc _ IH]; intros H; [done|]. apply IH.
  destruct Hc as [->|[(? & ? & -> & _)|(? & ? & ? & -> & _)]]; by eauto.
Qed.
Lemma path_prefix i o o' m :
  entry_path i o o' → o = Some m → ∃ m', o' = Some m' ∧ history m `prefix_of` history m'.
Proof.
  intros Hp. revert m. induction Hp as [o|o1 o2 o3 Hc _ IH]; intros m E; [by exists m|].
  destruct Hc as [->|[(? & ? & _)|(m0 & m1 & E0 & -> & Hm)]]; simplify_eq; [by apply IH|].
  destruct (IH m1 eq_refl) as (m' & ? & ?). exists m'. split; [done|].
  destruct Hm; cbn in *. etrans; [|done]. by apply prefix_app_r.
Qed.

(** whatever operations a membership store goes through, registrations, requested
    transitions, suspensions and syncs with the chain's registry, the record of a node
    carries its own id and a history that is a walk along legal transitions from how it
    first appeared to its present status; later operations never drop the node or
    rewrite its history, and a banned or removed node keeps its record for good. *)
Theorem membership_lifecycle ops i m :
  members (member_run MembershipStore.new ops) !! i = Some m →
  member_ok i m ∧
  ∀ ops', ∃ m',
    members (member_run (member_run MembershipStore.new ops) ops') !! i = Some m' ∧
    history m `prefix_of` history m' ∧
    (MembershipStatus.is_terminal (status m) = true → m' = m).
Proof.
  intros E. split.
  - eapply path_ok; [apply member_run_path| |exact E]. intros m0 H.
    change ((∅ : gmap Z NodeMembership) !! i = Some m0) in H. by rewrite lookup_empty in H.
  - intros ops'. pose proof (member_run_path i ops' (member_run MembershipStore.new ops)) as Hp.
    destruct (path_prefix _ _ _ m Hp E) as (m' & E' & Hpre). exists m'. split_and!; [done..|].
    intros Ht. rewrite (path_terminal _ _ _ _ Hp E Ht) in E'. congruence.
Qed.

(** ** Who is in a committee *)

Section committees.
Context `{Sha256, HexDecode, HexErrorText}.
Implicit Types (registry : SequencerRegistry) (membership : MembershipStore) (epoch : Z).

(** The node [i] with role [r], as a committee of [epoch] holds it: its key is the
    registry's, the chain says Active, and the local store does not object. *)
Definition seat_of registry membership epoch (i : id32) (r : NodeRole) (n : NodeIdentity) : Prop :=
  ∃ rec, records registry !! i = Some rec ∧ chain_status rec = CsActive ∧
    (∀ m, members membership !! i = Some m → status m = Active) ∧
    n = mkNode i (sq_public_key rec) r NsActive epoch (bool_decide (r = Sequencer)) true ∅.

Definition named (l : list ChainCommitteeMember) (i : id32) (r : NodeRole) : Prop :=
  ∃ m, m ∈ l ∧ hex_id32 (cm_node_id m) = Some i ∧ PoSeqCommittee.role_of (cm_role m) = r.

Lemma role_of_member s : PoSeqCommittee.role_of s = Sequencer ∨ PoSeqCommittee.role_of s = Validator.
Proof. unfold PoSeqCommittee.role_of. repeat case_decide; auto. Qed.

Lemma admitted_seat registry membership epoch m n :
  PoSeqCommittee.admitted_node registry membership epoch m = Some n ↔
  ∃ i, hex_id32 (cm_node_id m) = Some i ∧
    seat_of registry membership epoch i (PoSeqCommittee.role_of (cm_role m)) n.
Proof.
  unfold PoSeqCommittee.admitted_node, SequencerRegistry.is_chain_eligible, SequencerRegistry.get,
    MembershipStore.is_eligible_for_committee, is_committee_eligible, seat_of.
  assert (NodeIdentity.activate (NodeIdentity.new 0 0 (PoSeqCommittee.role_of (cm_role m)) 0) =
    mkNode 0 0 (PoSeqCommittee.role_of (cm_role m)) NsActive 0
      (bool_decide (PoSeqCommittee.role_of (cm_role m) = Sequencer)) true ∅) as Er.
  { by destruct (role_of_member (cm_role m)) as [->| ->]. }
  injection Er as Er. unfold NodeIdentity.activate, NodeIdentity.set_status, NodeIdentity.new in *.
  cbn in *. rewrite Er.
  destruct (hex_id32 (cm_node_id m)) as [i|]; cbn; [|split; [done|by intros (? & ? & _)]].
  split.
  - destruct (records registry !! i) as [rec|] eqn:Er'; cbn; [|done].
    destruct (bool_decide_reflect (chain_status rec = CsActive)); cbn; [|done].
    destruct (members membership !! i) as [mb|] eqn:Em; cbn;
      [destruct (bool_decide_reflect (status mb = Active)); cbn; [|done]|];
      intros [= <-]; (exists i; split; [done|]; exists rec; split_and!; [done..| |done]);
      intros m' Hm'; by simplify_eq.
  - intros (? & [= <-] & rec & Er' & Ec & Hm & ->). rewrite Er'. cbn.
    rewrite bool_decide_eq_true_2 by done. cbn.
    destruct (members membership !! i) as [mb|] eqn:Em; cbn; [|done].
    by rewrite bool_decide_eq_true_2 by auto.
Qed.

(** The committee that the members of a list make. *)
Definition seat_all registry membership epoch (l : list ChainCommitteeMember) : PoSeqCommittee :=
  foldl (λ c m, match PoSeqCommittee.admitted_node registry membership epoch m with
    | Some n => PoSeqCommittee.add_node n c | None => c end) (PoSeqCommittee.new epoch) l.

Definition seats registry membership epoch (l : list ChainCommitteeMember) (c : PoSeqCommittee) : Prop :=
  pc_epoch c = epoch ∧
  (∀ i n, sequencers c !! i = Some n ↔ named l i Sequencer ∧ seat_of registry membership epoch i Sequencer n) ∧
  (∀ i n, attestors c !! i = Some n ↔ named l i Validator ∧ seat_of registry membership epoch i Validator n).

Lemma seat_unique registry membership epoch i r n n' :
  seat_of registry membership epoch i r n → seat_of registry membership epoch i r n' → n = n'.
Proof. intros (? & ? & ? & ? & ->) (? & ? & ? & ? & ->). by simplify_eq. Qed.
Lemma seat_id registry membership epoch i r n :
  seat_of registry membership epoch i r n → node_id n = i ∧ role n = r.
Proof. by intros (? & ? & ? & ? & ->). Qed.
Lemma named_snoc l m i r :
  named (l ++ [m]) i r ↔
  named l i r ∨ (hex_id32 (cm_node_id m) = Some i ∧ PoSeqCommittee.role_of (cm_role m) = r).
Proof. unfold named. setoid_rewrite elem_of_app. setoid_rewrite list_elem_of_singleton. naive_solver. Qed.

(** Adding a seat to one of the two maps. *)
Lemma insert_seats registry membership epoch (l : list ChainCommitteeMember) m r (s : gmap Z NodeIdentity) j n :
  (∀ i n, s !! i = Some n ↔ named l i r ∧ seat_of registry membership epoch i r n) →
  hex_id32 (cm_node_id m) = Some j → PoSeqCommittee.role_of (cm_role m) = r →
  seat_of registry membership epoch j r n →
  ∀ i n', <[j := n]> s !! i = Some n' ↔
    named (l ++ [m]) i r ∧ seat_of registry membership epoch i r n'.
Proof.
  intros Hs Hj Hr Hn i n'. rewrite named_snoc. destruct (decide (i = j)) as [->|Hne].
  - rewrite lookup_insert_eq. split; [intros [= <-]; auto|].
    intros [_ Hn']. f_equal. by eapply seat_unique.
  - rewrite lookup_insert_ne by done. rewrite Hs. naive_solver.
Qed.
(** And to a map of the other role. *)
Lemma keep_seats registry membership epoch (l : list ChainCommitteeMember) m r (s : gmap Z NodeIdentity) :
  (∀ i n, s !! i = Some n ↔ named l i r ∧ seat_of registry membership epoch i r n) →
  (∀ i n, hex_id32 (cm_node_id m) = Some i → PoSeqCommittee.role_of (cm_role m) = r →
     seat_of registry membership epoch i r n → False) →
  ∀ i n, s !! i = Some n ↔ named (l ++ [m]) i r ∧ seat_of registry membership epoch i r n.
Proof. intros Hs Hm i n. rewrite Hs, named_snoc. naive_solver. Qed.

Lemma seat_all_seats registry membership epoch l :
  seats registry membership epoch l (seat_all registry membership epoch l).
Proof.
  induction l as [|m l IH] using rev_ind.
  - split_and!; [done| |]; intros i n; cbn; rewrite lookup_empty; split; try done;
      intros [(? & Hin & _) _]; by apply not_elem_of_nil in Hin.
  - unfold seat_all. rewrite foldl_app. fold (seat_all registry membership epoch l).
    destruct IH as (He & Hs & Ha). cbn [foldl].
    pose proof (admitted_seat registry membership epoch m) as Hadm.
    destruct (PoSeqCommittee.admitted_node registry membership epoch m) as [n|].
    + destruct (proj1 (Hadm n) eq_refl) as (j & Hj & Hseat).
      destruct (seat_id _ _ _ _ _ _ Hseat) as [<- Hr].
      unfold PoSeqCommittee.add_node. rewrite Hr.
      destruct (role_of_member (cm_role m)) as [Er|Er]; rewrite Er in Hseat |- *; split_and!; cbn; try done.
      all: try (eapply insert_seats; done).
      all: apply keep_seats; [done|]; intros; congruence.
    + split_and!; try done; apply keep_seats; try done; intros i n Hi Hr Hseat;
        (assert (None = Some n) by (apply Hadm; exists i; by rewrite Hr)); done.
Qed.
End committees.

Section formation.
Context `{Sha256, HexDecode, HexErrorText}.
Implicit Types (registry : SequencerRegistry) (membership : MembershipStore) (epoch : Z).

Definition headcount (c : PoSeqCommittee) : nat := (size (sequencers c) + size (attestors c))%nat.

(** [from_chain_snapshot] reports another epoch before a bad hash, and a bad hash
    before missing members; otherwise the committee holds, under the role the snapshot
    gives it, exactly each named node that the registry records as Active on the chain
    and that the membership store does not know in another status, with the registry's
    key and ready to work, and has at least the required number of members. *)
Theorem committee_from_snapshot snap registry membership epoch min_members :
  match PoSeqCommittee.from_chain_snapshot snap registry membership epoch min_members with
  | Ok c =>
      cs_epoch snap = epoch ∧ ChainCommitteeSnapshot.verify_hash snap = true ∧
      seats registry membership epoch (cs_members snap) c ∧ (min_members ≤ headcount c)%nat
  | Err (EpochMismatch got wanted) => got = cs_epoch snap ∧ wanted = epoch ∧ got ≠ wanted
  | Err SnapshotVerificationFailed =>
      cs_epoch snap = epoch ∧ ChainCommitteeSnapshot.verify_hash snap = false
  | Err (InsufficientActiveMembers required available) =>
      cs_epoch snap = epoch ∧ ChainCommitteeSnapshot.verify_hash snap = true ∧
      required = min_members ∧ (available < required)%nat ∧
      ∃ c, seats registry membership epoch (cs_members snap) c ∧ headcount c = available
  | Panic => False
  end.
Proof.
  unfold PoSeqCommittee.from_chain_snapshot. fold (seat_all registry membership epoch (cs_members snap)).
  pose proof (seat_all_seats registry membership epoch (cs_members snap)) as Hs.
  destruct (decide (cs_epoch snap ≠ epoch)) as [He|He]; [done|]. apply dec_stable in He.
  destruct (ChainCommitteeSnapshot.verify_hash snap); cbn; [|done].
  fold (headcount (seat_all registry membership epoch (cs_members snap))).
  destruct (decide (_ < _)%nat); [eauto 10|]. split_and!; try done. lia.
Qed.

(** ** What the hash of a snapshot leaves open *)

(** The same nodes, all called validators, with other keys and names. *)
Definition as_validators (snap : ChainCommitteeSnapshot) : ChainCommitteeSnapshot :=
  mkChainSnapshot (cs_epoch snap)
    ((λ m, mkChainMember (cm_node_id m) EmptyString EmptyString "Validator") <$> cs_members snap)
    (snapshot_hash snap) (produced_at_block snap).

Lemma as_validators_ids snap :
  ChainCommitteeSnapshot.decode_members (cs_members (as_validators snap)) =
  ChainCommitteeSnapshot.decode_members (cs_members snap).
Proof.
  cbn. induction (cs_members snap) as [|m l IH]; [done|]. cbn. destruct (hex_decode (cm_node_id m)); [|done].
  case_decide; [done|]. by rewrite IH.
Qed.
Lemma as_validators_hash snap :
  ChainCommitteeSnapshot.verify_hash (as_validators snap) = ChainCommitteeSnapshot.verify_hash snap.
Proof.
  unfold ChainCommitteeSnapshot.verify_hash, ChainCommitteeSnapshot.sorted_member_ids.
  by rewrite as_validators_ids.
Qed.
Lemma as_validators_named snap i r :
  named (cs_members (as_validators snap)) i r ↔
  r = Validator ∧ ∃ r', named (cs_members snap) i r'.
Proof.
  unfold named, as_validators. cbn. split.
  - intros (m & Hm & Hi & Hr). apply list_elem_of_fmap in Hm as (m0 & -> & Hm0). cbn in *. by eauto 10.
  - intros (-> & r' & m & Hm & Hi & _). eexists. split; [by apply list_elem_of_fmap_2|]. done.
Qed.

Lemma seat_role registry membership epoch i r n r' :
  seat_of registry membership epoch i r n → ∃ n', seat_of registry membership epoch i r' n'.
Proof. intros (rec & ? & ? & ? & _). by eexists _, rec. Qed.

Lemma named_role (l : list ChainCommitteeMember) i r : named l i r → r = Sequencer ∨ r = Validator.
Proof. intros (m & _ & _ & <-). apply role_of_member. Qed.

Lemma as_validators_seats snap registry membership epoch c c' :
  seats registry membership epoch (cs_members snap) c →
  seats registry membership epoch (cs_members (as_validators snap)) c' →
  sequencers c' = ∅ ∧ dom (attestors c') = dom (sequencers c) ∪ dom (attestors c).
Proof.
  intros (_ & Hs & Ha) (_ & Hs' & Ha'). setoid_rewrite as_validators_named in Hs'.
  setoid_rewrite as_validators_named in Ha'. split.
  - apply map_empty. intros i. apply eq_None_not_Some. intros [n Hn]. apply Hs' in Hn as [[? _] _]. done.
  - apply set_eq. intros i. rewrite elem_of_union, !elem_of_dom. split.
    + intros [n Hn]. apply Ha' in Hn as [[_ [r Hr]] Hseat].
      destruct (seat_role _ _ _ _ _ _ r Hseat) as [n' Hn'].
      destruct (named_role _ _ _ Hr) as [-> | ->]; [left|right]; exists n'; [apply Hs|apply Ha]; done.
    + intros [[n Hn]|[n Hn]]; [apply Hs in Hn|apply Ha in Hn]; destruct Hn as [Hr Hseat];
        destruct (seat_role _ _ _ _ _ _ Validator Hseat) as [n' Hn']; exists n'; apply Ha'; eauto.
Qed.

Lemma eligible_proposers_none c : sequencers c = ∅ → PoSeqCommittee.eligible_proposers c = [].
Proof.
  intros E. unfold PoSeqCommittee.eligible_proposers. rewrite E.
  by assert (btree_values (∅ : gmap Z NodeIdentity) = []) as -> by (vm_compute; reflexivity).
Qed.

(** the hash of a snapshot covers the epoch and the node ids only.  From any
    snapshot that forms a committee, whoever relays it can call every member a validator,
    replacing keys and names, under the same hash: the changed snapshot verifies and
    forms a committee of the same nodes in which nobody may propose. *)
Theorem snapshot_roles_unbound snap registry membership epoch min_members c :
  PoSeqCommittee.from_chain_snapshot snap registry membership epoch min_members = Ok c →
  (min_members ≤ size (dom (sequencers c) ∪ dom (attestors c) : gset Z))%nat →
  ChainCommitteeSnapshot.verify_hash (as_validators snap) = true ∧
  ∃ c', PoSeqCommittee.from_chain_snapshot (as_validators snap) registry membership epoch min_members = Ok c' ∧
    dom (attestors c') = dom (sequencers c) ∪ dom (attestors c) ∧
    PoSeqCommittee.eligible_proposers c' = [].
Proof.
  intros E Hmin. unfold PoSeqCommittee.from_chain_snapshot in *. rewrite as_validators_hash.
  change (cs_epoch (as_validators snap)) with (cs_epoch snap).
  fold (seat_all registry membership epoch (cs_members snap)) in E.
  fold (seat_all registry membership epoch (cs_members (as_validators snap))).
  destruct (decide (cs_epoch snap ≠ epoch)) as [He|He]; [done|].
  destruct (ChainCommitteeSnapshot.verify_hash snap); cbn [negb] in *; [|done].
  destruct (decide (_ < _)%nat); [done|]. injection E as <-. split; [done|].
  pose proof (seat_all_seats registry membership epoch (cs_members (as_validators snap))) as Hc.
  revert Hc. generalize (seat_all registry membership epoch (cs_members (as_validators snap))). intros c' Hc.
  destruct (as_validators_seats _ _ _ _ _ _ (seat_all_seats _ _ _ _) Hc) as [Hs Hd].
  assert (size (sequencers c') = 0%nat) as Hsize by (rewrite Hs; apply map_size_empty).
  rewrite <- Hd, size_dom in Hmin. exists c'.
  destruct (decide (_ < _)%nat); [lia|]. split_and!; [done..|]. by apply eligible_proposers_none.
Qed.
End formation.

(** ** Samples *)

Definition sample_id_text (i : Z) : string := @hex_bytes sample_hex_bytes (be_bytes 32 i).
Definition sample_members : list ChainCommitteeMember :=
  [ mkChainMember (sample_id_text 7) "key" "seven" "Sequencer";
    mkChainMember (sample_id_text 3) "key" "three" "Validator";
    mkChainMember (sample_id_text 5) "key" "five" "Sequencer" ].
Definition sample_snapshot : ChainCommitteeSnapshot :=
  mkChainSnapshot 4 sample_members
    (be_bytes 32 (@ChainCommitteeSnapshot.compute_hash sample_sha256 4 [3; 5; 7])) 100.
Definition sample_registry : SequencerRegistry :=
  SequencerRegistry.apply_status_update 5 CsJailed
    (foldr (λ i, SequencerRegistry.apply_registration
       (mkSequencer i (i + 100) "node" "operator" None 0 true CsActive)) SequencerRegistry.new [3; 5; 7]).
#[local] Instance sample_hex_error : HexErrorText := λ _, "invalid"%string.
Definition sample_committee : PoSeqCommittee :=
  @seat_all sample_hex_decode sample_registry MembershipStore.new 4 sample_members.

Lemma membership_lifecycle_witness :
  let ops := [ OpRegister 3 1; OpSuspend 5 2; OpSync sample_registry 3;
               OpTransition (mkRequest 5 Removed "left" 4); OpTransition (mkRequest 5 Active "back" 5) ] in
  let m := mkMember 5 Removed 2 [mkTransition "Suspended" "Removed" 4 "left"] in
  members (member_run MembershipStore.new ops) !! 5 = Some m ∧ member_ok 5 m ∧
  ∃ m', members (member_run (member_run MembershipStore.new ops) [OpRegister 5 9]) !! 5 = Some m' ∧ m' = m.
Proof.
  cbn zeta. match goal with |- members (member_run _ ?ops) !! 5 = Some ?m ∧ _ =>
    assert (members (member_run MembershipStore.new ops) !! 5 = Some m) as E by (vm_compute; reflexivity);
    destruct (membership_lifecycle ops 5 m E) as [Hok Hlater] end.
  split; [exact E|]. split; [exact Hok|].
  destruct (Hlater [OpRegister 5 9]) as (m' & E' & _ & Ht). exists m'. split; [exact E'|]. by apply Ht.
Defined.

Lemma snapshot_roles_unbound_witness :
  let snap := sample_snapshot in
  @PoSeqCommittee.from_chain_snapshot sample_sha256 sample_hex_decode sample_hex_error snap
    sample_registry MembershipStore.new 4 2 = Ok sample_committee ∧
  length (PoSeqCommittee.eligible_proposers sample_committee) = 1%nat ∧
  ∃ c', @PoSeqCommittee.from_chain_snapshot sample_sha256 sample_hex_decode sample_hex_error
      (as_validators snap) sample_registry MembershipStore.new 4 2 = Ok c' ∧
    PoSeqCommittee.eligible_proposers c' = [].
Proof.
  cbn zeta.
  assert (@PoSeqCommittee.from_chain_snapshot sample_sha256 sample_hex_decode sample_hex_error sample_snapshot
    sample_registry MembershipStore.new 4 2 = Ok sample_committee) as E by (vm_compute; reflexivity).
  assert (2 ≤ size (dom (sequencers sample_committee) ∪ dom (attestors sample_committee) : gset Z))%nat as Hmin
    by (apply Nat.leb_le; vm_compute; reflexivity).
  split; [exact E|]. split; [vm_compute; reflexivity|].
  destruct (@snapshot_roles_unbound sample_sha256 sample_hex_decode sample_hex_error _ _ _ _ _ _ E Hmin)
    as (_ & c' & Hc & _ & Hp).
  exists c'. split; [exact Hc|exact Hp].
Defined.
