(* ===== verification/Rotation.v ===== *)
(** * Rotation of committees, epochs, and leaders

    How a committee is drawn for an epoch (src/poseq/src/committee_rotation/), the
    store of epochs with its boundaries and slot leaders (src/poseq/src/epochs/), and
    the choice of a leader for a slot (src/poseq/src/leader_selection/selector.rs).
    The theorems say which candidates are drawn, that epochs only advance, and how
    often each proposer leads. *)

From stdpp Require Import gmap strings list pretty sorting.
From S2P Require Import Prelude Concrete Sorting Numerals Slashing Membership.

(** The set a list of ids makes, and the ids of a set in bytes. *)
Definition ids_bytes (s : gset Z) : bytes := concat (be_bytes 32 <$> sorted_elements s).

(** ** Drawing a committee *)

Module CommitteeRotation.
(* @src src/poseq/src/committee_rotation/snapshot.rs:6-12 EpochCommitteeSnapshot *)
Record EpochCommitteeSnapshot : Type := mkSnapshot {
  es_epoch : Z; es_members : gset Z; committee_hash : id32 }.
(* @src src/poseq/src/committee_rotation/snapshot.rs:20-31 EpochCommitteeSnapshot::compute_hash *)
Definition compute_hash `{Sha256} (epoch : Z) (m : gset Z) : id32 :=
  sha256 (be_bytes 8 epoch ++ ids_bytes m).
(* @src src/poseq/src/committee_rotation/snapshot.rs:15-18 EpochCommitteeSnapshot::new *)
Definition new_snapshot `{Sha256} (epoch : Z) (m : gset Z) : EpochCommitteeSnapshot :=
  mkSnapshot epoch m (compute_hash epoch m).
(* @src src/poseq/src/committee_rotation/snapshot.rs:33-35 EpochCommitteeSnapshot::size *)
Definition snapshot_size (s : EpochCommitteeSnapshot) : nat := size (es_members s).
(* @src src/poseq/src/committee_rotation/snapshot.rs:37-39 EpochCommitteeSnapshot::contains *)
Definition contains (s : EpochCommitteeSnapshot) (i : id32) : bool := bool_decide (i ∈ es_members s).
(* @src src/poseq/src/committee_rotation/snapshot.rs:42-44 EpochCommitteeSnapshot::sorted_members *)
Definition sorted_members (s : EpochCommitteeSnapshot) : list id32 := sorted_elements (es_members s).

(* @src src/poseq/src/committee_rotation/snapshot.rs:48-50 CommitteeRotationStore *)
Abbreviation CommitteeRotationStore := (gmap Z EpochCommitteeSnapshot).
(* @src src/poseq/src/committee_rotation/snapshot.rs:53-55 CommitteeRotationStore::new *)
Definition new_store : CommitteeRotationStore := ∅.
(* @src src/poseq/src/committee_rotation/snapshot.rs:58-60 CommitteeRotationStore::insert *)
Definition insert_snapshot (s : EpochCommitteeSnapshot) (st : CommitteeRotationStore)
  : CommitteeRotationStore := <[es_epoch s := s]> st.
(* @src src/poseq/src/committee_rotation/snapshot.rs:63-65 CommitteeRotationStore::get *)
Definition get_snapshot (st : CommitteeRotationStore) (epoch : Z) : option EpochCommitteeSnapshot :=
  st !! epoch.
(* @src src/poseq/src/committee_rotation/snapshot.rs:68-70 CommitteeRotationStore::latest *)
Definition latest (st : CommitteeRotationStore) : option EpochCommitteeSnapshot :=
  last (btree_values st).
(* @src src/poseq/src/committee_rotation/snapshot.rs:73-75 CommitteeRotationStore::len *)
Definition store_len (st : CommitteeRotationStore) : nat := size st.
(* @src src/poseq/src/committee_rotation/snapshot.rs:77-79 CommitteeRotationStore::is_empty *)
Definition store_is_empty (st : CommitteeRotationStore) : bool := bool_decide (st = ∅).
(* @src src/poseq/src/committee_rotation/snapshot.rs:82-84 CommitteeRotationStore::epochs *)
Definition store_epochs (st : CommitteeRotationStore) : list Z := btree_keys st.

(* @src src/poseq/src/committee_rotation/engine.rs:8-17 CommitteeRotationConfig *)
Record CommitteeRotationConfig : Type := mkConfig {
  rotation_period_epochs : Z;
  min_committee_size : nat;
  max_committee_size : nat;
  base_shuffle_seed : id32 }.
(* @src src/poseq/src/committee_rotation/engine.rs:20-42 CommitteeRotationConfig::new *)
Definition new_config (period : Z) (min max : nat) (seed : id32)
  : outcome Phase4Error CommitteeRotationConfig :=
  if decide (max < min)%nat
  then Err (InvalidRotationConfig ("min " +:+ pretty (Z.of_nat min) +:+ " > max " +:+ pretty (Z.of_nat max)))
  else if decide (period = 0) then Err (InvalidRotationConfig "rotation_period_epochs must be > 0")
  else Ok (mkConfig period min max seed).
(** A remainder by zero panics. *)
(* @src src/poseq/src/committee_rotation/engine.rs:45-47 CommitteeRotationConfig::is_rotation_epoch *)
Definition is_rotation_epoch (c : CommitteeRotationConfig) (epoch : Z) : total_or_panic bool :=
  if decide (rotation_period_epochs c = 0) then Panic
  else Ok (bool_decide (epoch mod rotation_period_epochs c = 0)).
(* @src src/poseq/src/committee_rotation/engine.rs:57-66 CommitteeRotationConfig::shuffle_seed *)
Definition shuffle_seed `{Sha256} (c : CommitteeRotationConfig) (epoch : Z) (prev : id32) : id32 :=
  sha256 (be_bytes 8 epoch ++ be_bytes 32 (base_shuffle_seed c) ++ be_bytes 32 prev).

(* @src src/poseq/src/committee_rotation/engine.rs:71-76 RotationRecord *)
Record RotationRecord : Type := mkRotation {
  rr_epoch : Z; joined : gset Z; left : gset Z; new_committee_hash : id32 }.
(* @src src/poseq/src/committee_rotation/engine.rs:79-88 RotationRecord::new *)
Definition new_record (epoch : Z) (old_members new_members : gset Z) (h : id32) : RotationRecord :=
  mkRotation epoch (new_members ∖ old_members) (old_members ∖ new_members) h.
(* @src src/poseq/src/committee_rotation/engine.rs:90-92 RotationRecord::is_no_change *)
Definition is_no_change (r : RotationRecord) : bool :=
  bool_decide (joined r = ∅) && bool_decide (left r = ∅).

(* @src src/poseq/src/committee_rotation/engine.rs:96-99 CommitteeRotationEngine *)
Record CommitteeRotationEngine : Type := mkEngine {
  config : CommitteeRotationConfig;
  rotation_history : gmap Z RotationRecord }.
(* @src src/poseq/src/committee_rotation/engine.rs:102-107 CommitteeRotationEngine::new *)
Definition new_engine (c : CommitteeRotationConfig) : CommitteeRotationEngine := mkEngine c ∅.

(** The score of a candidate under the seed of an epoch. *)
(* @src src/poseq/src/committee_rotation/engine.rs:151-156 CommitteeRotationEngine::rotate *)
Definition score `{Sha256} (seed i : id32) : Z := sha256 (be_bytes 32 seed ++ be_bytes 32 i).

(* @src src/poseq/src/committee_rotation/engine.rs:119-185 CommitteeRotationEngine::rotate *)
Definition rotate `{Sha256} (epoch : Z) (candidates : gset Z) (prev_snapshot : option EpochCommitteeSnapshot)
    (excluded : gset Z) (prev_finalization_hash : id32)
  : M CommitteeRotationEngine Phase4Error (EpochCommitteeSnapshot * RotationRecord) := λ e,
  let eligible := filter (λ i, i ∉ excluded) (sorted_elements candidates) in
  let available := length eligible in
  if decide (available < min_committee_size (config e))%nat
  then (e, Err (InsufficientCandidates (Z.of_nat (min_committee_size (config e))) (Z.of_nat available)))
  else
    let target_size := (available `min` max_committee_size (config e))%nat in
    let seed := shuffle_seed (config e) epoch prev_finalization_hash in
    let scored := lowest snd target_size ((λ i, (i, score seed i)) <$> eligible) in
    let new_members : gset Z := list_to_set scored.*1 in
    if decide (size new_members < min_committee_size (config e))%nat
    then (e, Err (InsufficientCandidates (Z.of_nat (min_committee_size (config e)))
                    (Z.of_nat (size new_members))))
    else
      let snapshot := new_snapshot epoch new_members in
      let old_members := default ∅ (es_members <$> prev_snapshot) in
      let record := new_record epoch old_members new_members (committee_hash snapshot) in
      (mkEngine (config e) (<[epoch := record]> (rotation_history e)), Ok (snapshot, record)).
(* @src src/poseq/src/committee_rotation/engine.rs:188-190 CommitteeRotationEngine::get_record *)
Definition get_record (e : CommitteeRotationEngine) (epoch : Z) : option RotationRecord :=
  rotation_history e !! epoch.
(* @src src/poseq/src/committee_rotation/engine.rs:193-195 CommitteeRotationEngine::rotation_count *)
Definition rotation_count (e : CommitteeRotationEngine) : nat := size (rotation_history e).
End CommitteeRotation.

(** ** Epochs *)

Module Epochs.
(* @src src/poseq/src/epochs/state.rs:13-17 EpochStatus *)
Inductive EpochStatus : Type := EpActive | EpTransitioning | EpCompleted.
(* @src src/poseq/src/epochs/state.rs:24-29 ActiveCommittee *)
Record ActiveCommittee : Type := mkActive {
  ac_epoch_id : Z; ac_members : gset Z; leader_for_slot : gmap Z id32; ac_committee_hash : id32 }.
(* @src src/poseq/src/epochs/state.rs:32-38 ActiveCommittee::compute_hash *)
Definition committee_hash_of `{Sha256} (m : gset Z) : id32 := sha256 (ids_bytes m).
(* @src src/poseq/src/epochs/state.rs:40-42 ActiveCommittee::leader_at *)
Definition leader_at (c : ActiveCommittee) (slot : Z) : option id32 := leader_for_slot c !! slot.
(* @src src/poseq/src/epochs/state.rs:50-54 NextCommittee *)
Record NextCommittee : Type := mkNext {
  nc_epoch_id : Z; nc_members : gset Z; activation_slot : Z }.
(* @src src/poseq/src/epochs/state.rs:61-66 MembershipTransitionRecord *)
Record MembershipTransitionRecord : Type := mkMembershipTransition {
  tr_epoch_id : Z; tr_joined : gset Z; tr_left : gset Z; transition_hash : id32 }.
Definition tagged_ids (tag : string) (s : gset Z) : bytes :=
  concat ((λ i, string_bytes tag ++ be_bytes 32 i) <$> sorted_elements s).
(* @src src/poseq/src/epochs/state.rs:69-87 MembershipTransitionRecord::compute *)
Definition compute_transition `{Sha256} (epoch : Z) (j l : gset Z) : MembershipTransitionRecord :=
  mkMembershipTransition epoch j l
    (sha256 (le_bytes 8 epoch ++ tagged_ids "J" j ++ tagged_ids "L" l)).
(* @src src/poseq/src/epochs/state.rs:95-102 EpochState *)
Record EpochState : Type := mkEpoch {
  epoch_id : Z;
  start_slot : Z;
  end_slot : Z;
  active_committee : ActiveCommittee;
  next_committee : option NextCommittee;
  ep_status : EpochStatus }.
(* @src src/poseq/src/epochs/state.rs:109-115 EpochError *)
Inductive EpochError : Type :=
| EpochAlreadyExists (e : Z)
| EpochNotFound (e : Z)
| InvalidSlotRange (start stop : Z)
| CommitteeEmpty
| NonMonotonicEpoch (current attempted : Z).
(* @src src/poseq/src/epochs/state.rs:121-124 EpochStore *)
Record EpochStore : Type := mkEpochs { epochs : gmap Z EpochState; current_epoch : Z }.
(* @src src/poseq/src/epochs/state.rs:127-132 EpochStore::new *)
Definition new_epochs (initial : Z) : EpochStore := mkEpochs ∅ initial.
(* @src src/poseq/src/epochs/state.rs:134-136 EpochStore::current *)
Definition current (s : EpochStore) : option EpochState := epochs s !! current_epoch s.
(* @src src/poseq/src/epochs/state.rs:138-140 EpochStore::get *)
Definition get_epoch (s : EpochStore) (e : Z) : option EpochState := epochs s !! e.
(* @src src/poseq/src/epochs/state.rs:142-168 EpochStore::advance_to_epoch *)
Definition advance_to_epoch (new_epoch : Z) (state : EpochState) : M EpochStore EpochError () := λ s,
  if decide (new_epoch ≤ current_epoch s ∧ epochs s ≠ ∅)
  then (s, Err (NonMonotonicEpoch (current_epoch s) new_epoch))
  else if decide (is_Some (epochs s !! new_epoch)) then (s, Err (EpochAlreadyExists new_epoch))
  else if decide (end_slot state ≤ start_slot state)
  then (s, Err (InvalidSlotRange (start_slot state) (end_slot state)))
  else if decide (ac_members (active_committee state) = ∅) then (s, Err CommitteeEmpty)
  else (mkEpochs (<[new_epoch := state]> (epochs s)) new_epoch, Ok tt).
Definition covers (e : EpochState) (slot : Z) : bool := bool_decide (start_slot e ≤ slot < end_slot e).
(* @src src/poseq/src/epochs/state.rs:170-175 EpochStore::is_slot_in_epoch *)
Definition is_slot_in_epoch (s : EpochStore) (e slot : Z) : bool :=
  match epochs s !! e with Some e => covers e slot | None => false end.
(* @src src/poseq/src/epochs/state.rs:177-182 EpochStore::epoch_for_slot *)
Definition epoch_for_slot (s : EpochStore) (slot : Z) : option Z :=
  (λ p, epoch_id p.2) <$> btree_find (λ e, covers e slot) (epochs s).

(* @src src/poseq/src/epochs/boundary.rs:10-14 CarryForwardDecision *)
Inductive CarryForwardDecision : Type := CarryToNextEpoch | DropAndInvalidate | EscalateToDispute.
#[export] Instance CarryForwardDecision_eq_dec : EqDecision CarryForwardDecision.
Proof. solve_decision. Defined.
(* @src src/poseq/src/epochs/boundary.rs:21-25 EpochBoundaryPolicy *)
Record EpochBoundaryPolicy : Type := mkBoundaryPolicy {
  unfinalized_batch_policy : CarryForwardDecision;
  undelivered_batch_policy : CarryForwardDecision;
  pending_attestation_policy : CarryForwardDecision }.
(* @src src/poseq/src/epochs/boundary.rs:28-34 EpochBoundaryPolicy::strict *)
Definition strict : EpochBoundaryPolicy := mkBoundaryPolicy DropAndInvalidate DropAndInvalidate DropAndInvalidate.
(* @src src/poseq/src/epochs/boundary.rs:36-42 EpochBoundaryPolicy::lenient *)
Definition lenient : EpochBoundaryPolicy := mkBoundaryPolicy CarryToNextEpoch CarryToNextEpoch CarryToNextEpoch.
(* @src src/poseq/src/epochs/boundary.rs:50-56 BoundaryTransitionResult *)
Record BoundaryTransitionResult : Type := mkBoundary {
  bt_epoch_id : Z;
  batches_carried : list id32;
  batches_dropped : list id32;
  batches_escalated : list id32;
  membership_transition : MembershipTransitionRecord }.
(** What becomes of a pending batch. *)
(* @src src/poseq/src/epochs/boundary.rs:77-86 EpochBoundaryHandler::handle_boundary *)
Definition fate (p : EpochBoundaryPolicy) (b : id32 * bool) : CarryForwardDecision :=
  if b.2 then CarryToNextEpoch else unfinalized_batch_policy p.
(* @src src/poseq/src/epochs/boundary.rs:66-96 EpochBoundaryHandler::handle_boundary *)
Definition handle_boundary (outgoing : EpochState) (pending : list (id32 * bool)) (p : EpochBoundaryPolicy)
    (t : MembershipTransitionRecord) : BoundaryTransitionResult :=
  foldl (λ r b,
    match fate p b with
    | CarryToNextEpoch => mkBoundary (bt_epoch_id r) (batches_carried r ++ [b.1]) (batches_dropped r)
        (batches_escalated r) (membership_transition r)
    | DropAndInvalidate => mkBoundary (bt_epoch_id r) (batches_carried r) (batches_dropped r ++ [b.1])
        (batches_escalated r) (membership_transition r)
    | EscalateToDispute => mkBoundary (bt_epoch_id r) (batches_carried r) (batches_dropped r)
        (batches_escalated r ++ [b.1]) (membership_transition r)
    end) (mkBoundary (epoch_id outgoing) [] [] [] t) pending.

(* @src src/poseq/src/epochs/rotation.rs:15-20 CommitteeRotationConfig *)
Record SlotRotationConfig : Type := mkSlotConfig {
  epoch_length_slots : Z; sr_min_committee_size : nat; sr_max_committee_size : nat;
  rotation_seed_base : id32 }.
(* @src src/poseq/src/epochs/rotation.rs:23-34 CommitteeRotationConfig::validate *)
Definition validate_config (c : SlotRotationConfig) : outcome EpochError () :=
  if decide (epoch_length_slots c = 0) then Err (InvalidSlotRange 0 0)
  else if decide (sr_min_committee_size c = 0)%nat then Err CommitteeEmpty
  else if decide (sr_max_committee_size c < sr_min_committee_size c)%nat then Err CommitteeEmpty
  else Ok tt.
(* @src src/poseq/src/epochs/rotation.rs:36-43 CommitteeRotationConfig::default_config *)
Definition default_slot_config : SlotRotationConfig :=
  mkSlotConfig 100 3 21 (of_be (replicate 32 171)).
Definition slot_score `{Sha256} (c : SlotRotationConfig) (epoch i : Z) : Z :=
  sha256 (be_bytes 32 (rotation_seed_base c) ++ le_bytes 8 epoch ++ be_bytes 32 i).
(* @src src/poseq/src/epochs/rotation.rs:55-86 CommitteeRotationEngine::compute_next_committee *)
Definition compute_next_committee `{Sha256} (c : SlotRotationConfig) (candidates : gset Z) (epoch : Z)
  : outcome EpochError (gset Z) :=
  if decide (candidates = ∅) then Err CommitteeEmpty
  else if decide (size candidates < sr_min_committee_size c)%nat then Err CommitteeEmpty
  else
    let scored := (λ i, (i, slot_score c epoch i)) <$> sorted_elements candidates in
    Ok (list_to_set (lowest snd (sr_max_committee_size c `min` size candidates)%nat scored).*1).
Definition leader_index `{Sha256} (h : id32) (slot n : Z) : Z :=
  of_be (rev (take 8 (be_bytes 32 (sha256 (be_bytes 32 h ++ le_bytes 8 slot))))) mod n.
(* @src src/poseq/src/epochs/rotation.rs:89-111 CommitteeRotationEngine::assign_slot_leaders *)
Definition assign_slot_leaders `{Sha256} (committee : gset Z) (e : EpochState) : gmap Z id32 :=
  let members := sorted_elements committee in
  let n := length members in
  if decide (n = 0)%nat then ∅
  else
    let h := committee_hash_of committee in
    foldl (λ m slot, match members !! Z.to_nat (leader_index h slot (Z.of_nat n)) with
                     | Some i => <[slot := i]> m | None => m end)
      ∅ (seqZ (start_slot e) (end_slot e - start_slot e)).
(* @src src/poseq/src/epochs/rotation.rs:113-121 CommitteeRotationEngine::compute_transition_record *)
Definition compute_transition_record `{Sha256} (prev next : gset Z) (epoch : Z) : MembershipTransitionRecord :=
  compute_transition epoch (next ∖ prev) (prev ∖ next).
End Epochs.

(** ** Leaders *)

Module LeaderSelector.
(* @src src/poseq/src/leader_selection/selector.rs:6-13 LeaderSelectionPolicy *)
Inductive LeaderSelectionPolicy : Type := RoundRobin | SlotHash (seed : id32) | WeightedRoundRobin.
(* @src src/poseq/src/leader_selection/selector.rs:17-21 ProposalSlot *)
Record ProposalSlot : Type := mkSlot { slot_number : Z; ps_epoch : Z; ps_height : Z }.
(* @src src/poseq/src/leader_selection/selector.rs:25-31 SelectedLeader *)
Record SelectedLeader : Type := mkLeader {
  sl_node_id : id32; sl_slot : Z; sl_epoch : Z; selection_method : string; selection_hash : id32 }.

(* @src src/poseq/src/leader_selection/selector.rs:111-120 LeaderSelector::compute_slot_hash *)
Definition compute_slot_hash `{Sha256} (slot epoch : Z) (seed : id32) : id32 :=
  sha256 (le_bytes 8 slot ++ le_bytes 8 epoch ++ be_bytes 32 seed).
(* @src src/poseq/src/leader_selection/selector.rs:122-132 LeaderSelector::compute_selection_hash *)
Definition compute_selection_hash `{Sha256} (slot epoch index : Z) (seed : id32) : id32 :=
  sha256 (be_bytes 8 slot ++ be_bytes 8 epoch ++ be_bytes 8 index ++ be_bytes 32 seed).

(* @src src/poseq/src/leader_selection/selector.rs:73-77 LeaderSelector::select *)
Definition weight (n : NodeIdentity) : Z :=
  default 1 (nd_metadata n !! "weight"%string ≫= parse_u64).
(** The position whose share of the cumulative weights holds [slot_pos]; the first
    when none does.  The additions wrap. *)
(* @src src/poseq/src/leader_selection/selector.rs:87-95 LeaderSelector::select *)
Fixpoint chosen_idx (weights : list Z) (i : nat) (cumulative slot_pos : Z) : nat :=
  match weights with
  | [] => O
  | w :: ws =>
      let cumulative := wrapu 64 (cumulative + w) in
      if decide (slot_pos < cumulative) then i else chosen_idx ws (S i) cumulative slot_pos
  end.
Definition total_weight (weights : list Z) : Z := foldl (λ a w, wrapu 64 (a + w)) 0 weights.

Definition by_id (a b : NodeIdentity) : comparison := node_id a ?= node_id b.
(** The proposers in the order the selection uses. *)
Definition proposers_of (c : PoSeqCommittee) : list NodeIdentity :=
  sort_by by_id (PoSeqCommittee.eligible_proposers c).

(* @src src/poseq/src/leader_selection/selector.rs:53-99 LeaderSelector::select *)
Definition choice `{Sha256} (slot epoch : Z) (proposers : list NodeIdentity) (policy : LeaderSelectionPolicy)
  : option (nat * string * id32) :=
  let n := Z.of_nat (length proposers) in
  match policy with
  | RoundRobin =>
      let idx := Z.to_nat (slot mod n) in
      Some (idx, "RoundRobin"%string, compute_selection_hash slot epoch (Z.of_nat idx) 0)
  | SlotHash seed =>
      let hash := compute_slot_hash slot epoch seed in
      Some (Z.to_nat (of_be (take 8 (be_bytes 32 hash)) mod n), "SlotHash"%string, hash)
  | WeightedRoundRobin =>
      let weights := weight <$> proposers in
      if decide (total_weight weights = 0) then None
      else
        let idx := chosen_idx weights 0 0 (slot mod total_weight weights) in
        Some (idx, "WeightedRoundRobin"%string, compute_selection_hash slot epoch (Z.of_nat idx) 0)
  end.
(** The index is in range, so the lookup succeeds ([select_elected]). *)
(* @src src/poseq/src/leader_selection/selector.rs:39-109 LeaderSelector::select *)
Definition select `{Sha256} (slot epoch : Z) (committee : PoSeqCommittee) (policy : LeaderSelectionPolicy)
  : option SelectedLeader :=
  let proposers := proposers_of committee in
  if decide (proposers = []) then None
  else
    '(index, method, hash) ← choice slot epoch proposers policy;
    n ← proposers !! (index : nat);
    Some (mkLeader (node_id n) slot epoch method hash).
End LeaderSelector.

(** ** Which candidates are drawn *)

(** [chosen] are [n] of the pool, or all of it, with the least scores. *)
Definition drawn (score : Z → Z) (pool chosen : gset Z) (n : nat) : Prop :=
  chosen ⊆ pool ∧ size chosen = (n `min` size pool)%nat ∧
  ∀ x y, x ∈ chosen → y ∈ pool ∖ chosen → score x ≤ score y.

(** Scoring a list, sorting by the score and keeping the first. *)
Lemma lowest_scored (f : Z → Z) n (l : list Z) :
  let scored := (λ i, (i, f i)) <$> l in
  ∀ p, p ∈ lowest snd n scored → p.1 ∈ l ∧ p.2 = f p.1.
Proof.
  intros scored p Hp. apply lowest_elem, list_elem_of_fmap in Hp as (i & -> & Hi). done.
Qed.

Lemma lowest_scored_drawn (f : Z → Z) n (l : list Z) (pool : gset Z) :
  NoDup l → (∀ x, x ∈ l ↔ x ∈ pool) →
  drawn f pool (list_to_set (lowest snd n ((λ i, (i, f i)) <$> l)).*1) n.
Proof.
  intros Hnd Hl. set (scored := (λ i, (i, f i)) <$> l).
  pose proof (lowest_scored f n l) as Hs. fold scored in Hs.
  assert (NoDup (lowest snd n scored).*1) as Hnd'.
  { apply NoDup_fmap_2_strong.
    - intros [x a] [y b] Hx%Hs Hy%Hs. cbn in *. intros ->. destruct Hx, Hy. congruence.
    - apply lowest_NoDup. apply NoDup_fmap_2; [by intros ?? [= ?]|done]. }
  split_and!.
  - intros x Hx%elem_of_list_to_set. apply list_elem_of_fmap in Hx as (p & -> & Hp).
    by apply Hl, Hs.
  - rewrite size_list_to_set by done. rewrite length_fmap, lowest_length.
    unfold scored. rewrite length_fmap. f_equal.
    rewrite <- (size_list_to_set (C := gset Z)) by done. f_equal.
    apply set_eq. intros x. by rewrite elem_of_list_to_set.
  - intros x y Hx Hy. apply elem_of_list_to_set, list_elem_of_fmap in Hx as ([x' a] & -> & Hx).
    apply elem_of_difference in Hy as [Hy Hny]. rewrite elem_of_list_to_set in Hny.
    destruct (Hs _ Hx) as [_ Ha]. cbn in *. subst a.
    apply (lowest_least snd n scored (x', f x') (y, f y) Hx).
    + apply list_elem_of_fmap. exists y. split; [done|]. by apply Hl.
    + intros Hin. apply Hny, list_elem_of_fmap. by exists (y, f y).
Qed.

Lemma sorted_filter (candidates excluded : gset Z) :
  let l := filter (λ i, i ∉ excluded) (sorted_elements candidates) in
  NoDup l ∧ (∀ x, x ∈ l ↔ x ∈ candidates ∖ excluded) ∧ length l = size (candidates ∖ excluded).
Proof.
  intros l. assert (NoDup l) as Hnd by apply NoDup_filter, NoDup_sorted_elements.
  assert (∀ x, x ∈ l ↔ x ∈ candidates ∖ excluded) as Hl.
  { intros x. unfold l. rewrite list_elem_of_filter, elem_of_sorted_elements, elem_of_difference. tauto. }
  split_and!; [done..|]. rewrite <- (size_list_to_set (C := gset Z)) by done. f_equal.
  apply set_eq. intros x. by rewrite elem_of_list_to_set.
Qed.

Section rotation.
Import CommitteeRotation.
Context `{Sha256}.

(** a rotation draws from the candidates that are not excluded: with at least the
    required number of them (and room for it) the new committee is, up to its maximum
    size, those whose hash under the seed of the epoch is least, and the record in the
    history lists exactly who came and who went since the previous committee; otherwise
    the error says how many there were and nothing is recorded. *)
Theorem rotate_draws epoch candidates prev excluded fin e :
  let pool := candidates ∖ excluded in
  let old := default ∅ (es_members <$> prev) in
  let lo := min_committee_size (config e) in
  let hi := max_committee_size (config e) in
  match rotate epoch candidates prev excluded fin e with
  | (e', Ok (snap, rec)) =>
      (lo ≤ size (es_members snap) ≤ hi)%nat ∧
      drawn (score (shuffle_seed (config e) epoch fin)) pool (es_members snap) hi ∧
      es_epoch snap = epoch ∧ committee_hash snap = compute_hash epoch (es_members snap) ∧
      rec = mkRotation epoch (es_members snap ∖ old) (old ∖ es_members snap) (committee_hash snap) ∧
      e' = mkEngine (config e) (<[epoch := rec]> (rotation_history e))
  | (e', Err x) =>
      e' = e ∧ ∃ n, (n < lo)%nat ∧ x = InsufficientCandidates (Z.of_nat lo) (Z.of_nat n) ∧
        (n = size pool ∨ n = hi)
  | (_, Panic) => False
  end.
Proof.
  intros pool old lo hi. unfold rotate.
  destruct (sorted_filter candidates excluded) as (Hnd & Hl & Hlen). fold pool in Hl, Hlen.
  set (l := filter _ _) in *.
  destruct (decide (length l < _)%nat) as [Hlt|Hge]; [rewrite Hlen in *; eauto 10|].
  pose proof (lowest_scored_drawn (score (shuffle_seed (config e) epoch fin)) (length l `min` hi)%nat l pool
    Hnd Hl) as Hd.
  fold hi. set (chosen := list_to_set _) in *. destruct Hd as (Hsub & Hsize & Hleast).
  destruct (decide (size chosen < _)%nat) as [Hlt|Hge'].
  - split; [done|]. exists (size chosen). split_and!; [done..|]. fold lo in Hlt, Hge. lia.
  - cbn [es_members new_snapshot es_epoch committee_hash new_record]. fold lo in Hge', Hge.
    split_and!; try done; try lia. split_and!; [done| |done]. rewrite Hsize. lia.
Qed.
End rotation.

Section slot_rotation.
Import Epochs.
Context `{Sha256}.

Lemma next_committee_drawn c candidates epoch m :
  compute_next_committee c candidates epoch = Ok m →
  (sr_min_committee_size c ≤ size candidates)%nat ∧
  drawn (slot_score c epoch) candidates m (sr_max_committee_size c).
Proof.
  unfold compute_next_committee. case_decide; [done|]. case_decide as Hmin; [done|]. intros [= <-].
  split; [lia|].
  destruct (lowest_scored_drawn (slot_score c epoch) (sr_max_committee_size c `min` size candidates)%nat
    (sorted_elements candidates) candidates) as (? & Hsize & ?).
  - apply NoDup_sorted_elements.
  - intros x. apply elem_of_sorted_elements.
  - split_and!; [done| |done]. rewrite Hsize. lia.
Qed.

Lemma foldl_assign (f : Z → option Z) l (m : gmap Z Z) s :
  (∀ t, is_Some (f t)) →
  foldl (λ m t, match f t with Some i => <[t := i]> m | None => m end) m l !! s =
  if decide (s ∈ l) then f s else m !! s.
Proof.
  intros Hf. revert m. induction l as [|t l IH]; intros m; cbn [foldl].
  { destruct (decide (s ∈ [])) as [Hin|_]; [|done]. by apply not_elem_of_nil in Hin. }
  destruct (Hf t) as [i Hi]. rewrite Hi, IH.
  destruct (decide (s ∈ l)) as [Hin|Hin], (decide (s ∈ t :: l)) as [Hin'|Hin'];
    rewrite elem_of_cons in Hin'; try done; try tauto.
  - destruct Hin' as [->|]; [|done]. by rewrite lookup_insert_eq.
  - apply lookup_insert_ne. naive_solver.
Qed.

(** Each slot of the epoch has a leader from the committee, and no other slot has. *)
Lemma slot_leaders committee e slot :
  committee ≠ ∅ →
  match assign_slot_leaders committee e !! slot with
  | Some i => i ∈ committee ∧ start_slot e ≤ slot < end_slot e
  | None => ¬ start_slot e ≤ slot < end_slot e
  end.
Proof.
  intros Hne. unfold assign_slot_leaders. rewrite sorted_elements_length.
  assert (size committee ≠ 0%nat) as Hs by (intros E; by apply size_empty_iff, leibniz_equiv in E).
  destruct (decide (size committee = 0%nat)); [done|].
  assert (∀ t, is_Some (sorted_elements committee !! Z.to_nat
      (leader_index (committee_hash_of committee) t (Z.of_nat (size committee))))) as Hf.
  { intros t. apply lookup_lt_is_Some. rewrite sorted_elements_length. unfold leader_index.
    match goal with |- context [?a mod ?b] => pose proof (Z.mod_pos_bound a b) end. lia. }
  rewrite (foldl_assign (λ t, sorted_elements committee !! _) _ _ _ Hf).
  destruct (decide (slot ∈ _)) as [Hin|Hin]; rewrite elem_of_seqZ in Hin.
  - destruct (Hf slot) as [i Hi]. rewrite Hi. split; [|lia].
    by eapply elem_of_sorted_elements, list_elem_of_lookup_2.
  - rewrite lookup_empty. lia.
Qed.
End slot_rotation.

(** ** Epochs advance *)

Section epoch_store.
Import Epochs.

(** A boundary puts every pending batch in one of three lists, in order: the finalized
    ones are carried, the others all go where the policy says. *)
Lemma boundary_partition e pending p t :
  let r := handle_boundary e pending p t in
  batches_carried r = (filter (λ b, fate p b = CarryToNextEpoch) pending).*1 ∧
  batches_dropped r = (filter (λ b, fate p b = DropAndInvalidate) pending).*1 ∧
  batches_escalated r = (filter (λ b, fate p b = EscalateToDispute) pending).*1 ∧
  bt_epoch_id r = epoch_id e ∧ membership_transition r = t.
Proof.
  induction pending as [|b l IH] using rev_ind; [done|]. cbn zeta in *.
  unfold handle_boundary in *. rewrite foldl_app. cbn [foldl].
  rewrite !filter_app, !fmap_app, !filter_cons, !filter_nil.
  destruct IH as (Hc & Hd & He & Hid & Ht).
  destruct (fate p b) eqn:E; cbn [batches_carried batches_dropped batches_escalated bt_epoch_id
    membership_transition]; rewrite ?Hc, ?Hd, ?He, ?Hid, ?Ht;
    repeat (match goal with |- context [decide (?x = ?y :> CarryForwardDecision)] =>
      destruct (decide (x = y)); [try congruence|try congruence] end);
    cbn; by rewrite ?app_nil_r.
Qed.

Definition epochs_inv (s : EpochStore) : Prop :=
  (∀ e st, epochs s !! e = Some st →
     e ≤ current_epoch s ∧ start_slot st < end_slot st ∧ ac_members (active_committee st) ≠ ∅) ∧
  (epochs s ≠ ∅ → is_Some (current s)).

Definition epochs_run (s : EpochStore) (ops : list (Z * EpochState)) : EpochStore :=
  foldl (λ s op, (advance_to_epoch op.1 op.2 s).1) s ops.

(** What one advance may do. *)
Lemma advance_cases e st s :
  let s' := (advance_to_epoch e st s).1 in
  s' = s ∨
  (epochs s !! e = None ∧ (epochs s ≠ ∅ → current_epoch s < e) ∧ start_slot st < end_slot st ∧
   ac_members (active_committee st) ≠ ∅ ∧ s' = mkEpochs (<[e := st]> (epochs s)) e).
Proof.
  unfold advance_to_epoch. repeat (case_decide; [by left|]). right.
  split_and!; [by apply eq_None_not_Some| |lia|done|done].
  intros Hne. destruct (decide (e ≤ current_epoch s)); [naive_solver|lia].
Qed.

Lemma advance_inv e st s : epochs_inv s → epochs_inv (advance_to_epoch e st s).1.
Proof.
  intros [Hs Hc]. destruct (advance_cases e st s) as [->|(Hn & Hlt & Hr & Hm & ->)]; [done|]. split.
  - intros e' st'. cbn. destruct (decide (e' = e)) as [->|].
    { rewrite lookup_insert_eq. intros [= <-]. split_and!; [lia|done..]. }
    rewrite lookup_insert_ne by done. intros He. destruct (Hs _ _ He) as (? & ? & ?).
    split_and!; [|done..]. cut (current_epoch s < e); [lia|]. apply Hlt. intros E. by rewrite E in He.
  - intros _. unfold current. cbn. rewrite lookup_insert_eq. by eexists.
Qed.
Lemma epochs_run_inv ops s : epochs_inv s → epochs_inv (epochs_run s ops).
Proof. revert s. induction ops as [|[e st] ops IH]; intros s Hs; [done|]. by apply IH, advance_inv. Qed.

Lemma epochs_run_grows ops s :
  epochs s ⊆ epochs (epochs_run s ops) ∧
  (epochs s ≠ ∅ → current_epoch s ≤ current_epoch (epochs_run s ops)).
Proof.
  revert s. induction ops as [|[e st] ops IH]; intros s; [split; [reflexivity|cbn; lia]|].
  cbn [epochs_run foldl fst snd].
  specialize (IH (advance_to_epoch e st s).1).
  destruct (advance_cases e st s) as [E|(Hn & Hlt & _ & _ & E)]; cbn zeta in E; rewrite E in IH |- *; [done|].
  cbn [epochs current_epoch] in IH. destruct IH as [IH1 IH2]. split.
  - etrans; [by apply insert_subseteq|done].
  - intros Hne. specialize (Hlt Hne). etrans; [|apply IH2]; [lia|]. apply insert_non_empty.
Qed.

(** however a store of epochs is advanced, every epoch in it has a non-empty slot
    range and a non-empty committee and is no later than the current one, which is in
    the store; and from then on epochs are never dropped or replaced and the current
    epoch never goes back. *)
Theorem epochs_advance initial ops ops' :
  let s := epochs_run (new_epochs initial) ops in
  let s' := epochs_run s ops' in
  epochs_inv s ∧ epochs s ⊆ epochs s' ∧ (epochs s ≠ ∅ → current_epoch s ≤ current_epoch s').
Proof.
  split; [|apply epochs_run_grows]. apply epochs_run_inv. split; [|done].
  intros e st He. cbn in He. by rewrite lookup_empty in He.
Qed.
End epoch_store.

(** ** How often each proposer leads *)

(** Any [n] consecutive numbers have the remainders of [n], each once. *)
Lemma mod_window a n : 0 < n → (λ s, s mod n) <$> seqZ a n ≡ₚ seqZ 0 n.
Proof.
  intros Hn. apply NoDup_Permutation.
  - apply NoDup_fmap_2_strong; [|apply NoDup_seqZ].
    intros x y Hx%elem_of_seqZ Hy%elem_of_seqZ E.
    pose proof (Z.div_mod x n). pose proof (Z.div_mod y n). rewrite E in *.
    assert (x / n = y / n) by nia. nia.
  - apply NoDup_seqZ.
  - intros z. rewrite list_elem_of_fmap, elem_of_seqZ. split.
    + intros (s & -> & _). pose proof (Z.mod_pos_bound s n). lia.
    + intros Hz. exists (a + (z - a) mod n). split.
      * rewrite Zplus_mod_idemp_r. replace (a + (z - a)) with z by lia. symmetry. apply Z.mod_small. lia.
      * apply elem_of_seqZ. pose proof (Z.mod_pos_bound (z - a) n). lia.
Qed.

Section leaders.
Import LeaderSelector.
Context `{Sha256}.

Definition leads (committee : PoSeqCommittee) (epoch : Z) (policy : LeaderSelectionPolicy) (slot : Z)
  : option id32 := sl_node_id <$> select slot epoch committee policy.

Lemma weight_nonneg n : 0 ≤ weight n.
Proof.
  unfold weight. destruct (nd_metadata n !! "weight"%string) as [w|]; cbn; [|lia].
  destruct (parse_u64 w) eqn:E; cbn; [|lia]. apply parse_u64_fits in E. by destruct E.
Qed.

Definition weight_sum (ws : list Z) : Z := foldr Z.add 0 ws.
Lemma weight_sum_nonneg ws : Forall (Z.le 0) ws → 0 ≤ weight_sum ws.
Proof. unfold weight_sum. induction 1; cbn; lia. Qed.

Lemma total_weight_from acc ws :
  0 ≤ acc → Forall (Z.le 0) ws → acc + weight_sum ws < 2 ^ 64 →
  foldl (λ a w, wrapu 64 (a + w)) acc ws = acc + weight_sum ws.
Proof.
  intros Ha Hws. revert acc Ha.
  induction Hws as [|w ws Hw Hws IH]; intros acc Ha Hlt; cbn [foldl weight_sum foldr] in *; [lia|].
  fold (weight_sum ws) in *. pose proof (weight_sum_nonneg ws Hws).
  rewrite wrapu_id by (split; lia). rewrite IH; lia.
Qed.
Lemma total_weight_sum ws :
  Forall (Z.le 0) ws → weight_sum ws < 2 ^ 64 → total_weight ws = weight_sum ws.
Proof. intros. unfold total_weight. by rewrite total_weight_from. Qed.

(** Over the positions of one round, each proposer has as many as its weight. *)
Lemma chosen_runs ws i c :
  0 ≤ c → Forall (Z.le 0) ws → c + weight_sum ws < 2 ^ 64 →
  chosen_idx ws i c <$> seqZ c (weight_sum ws) =
  concat (imap (λ k w, replicate (Z.to_nat w) (i + k)%nat) ws).
Proof.
  intros Hc Hws. revert i c Hc. induction Hws as [|w ws Hw Hws IH]; intros i c Hc Hlt; [done|].
  cbn [weight_sum foldr imap concat] in *. fold (weight_sum ws) in *.
  pose proof (weight_sum_nonneg ws Hws).
  rewrite seqZ_app by lia. rewrite fmap_app. f_equal.
  - rewrite Nat.add_0_r. symmetry. apply replicate_as_elem_of.
    split; [by rewrite length_fmap, length_seqZ|].
    intros k (p & -> & Hp%elem_of_seqZ)%list_elem_of_fmap.
    cbn [chosen_idx]. rewrite wrapu_id by (split; lia). by destruct (decide (p < c + w)); [|lia].
  - rewrite (imap_ext _ (λ k w, replicate (Z.to_nat w) (S i + k)%nat)).
    2:{ intros k x _. cbn. f_equal. lia. }
    rewrite <- (IH (S i) (c + w)) by lia. apply list_fmap_ext. intros k p Hp%list_elem_of_lookup_2%elem_of_seqZ.
    cbn [chosen_idx]. rewrite wrapu_id by (split; lia). by destruct (decide (p < c + w)); [lia|].
Qed.

(** Selecting by an index that the policy computes. *)
Lemma chosen_bound ws i c p :
  ws ≠ [] → (chosen_idx ws i c p < i + length ws)%nat ∨ chosen_idx ws i c p = 0%nat.
Proof.
  revert i c. induction ws as [|w ws IH]; intros i c Hne; [done|]. cbn. destruct (decide _); [lia|].
  destruct (decide (ws = [])) as [->|Hne']; [by right|]. destruct (IH (S i) (wrapu 64 (c + w)) Hne'); lia.
Qed.
Lemma choice_bound slot epoch ps policy i m h :
  ps ≠ [] → choice slot epoch ps policy = Some (i, m, h) → (i < length ps)%nat.
Proof.
  intros Hne. assert (0 < length ps)%nat by (destruct ps; [done|cbn; lia]).
  assert (∀ z, Z.to_nat (z mod Z.of_nat (length ps)) < length ps)%nat as Hz.
  { intros z. pose proof (Z.mod_pos_bound z (Z.of_nat (length ps))). lia. }
  unfold choice. destruct policy; [intros [= <- _ _]; apply Hz..|].
  case_decide; [done|]. intros [= <- _ _].
  destruct (chosen_bound (weight <$> ps) 0 0 (slot mod total_weight (weight <$> ps)))
    as [Hb|Hb]; [by destruct ps| |]; rewrite ?length_fmap in Hb; lia.
Qed.

(** a leader is selected exactly when there is an eligible proposer, and, under the
    weighted policy, a weight that is not zero; it is one of the committee's active
    proposers, and the answer carries the slot and the epoch asked for. *)
Theorem select_elected slot epoch committee policy :
  match select slot epoch committee policy with
  | Some l =>
      (∃ n, n ∈ PoSeqCommittee.eligible_proposers committee ∧ sl_node_id l = node_id n ∧
         nd_status n = NsActive ∧ is_eligible_proposer n = true ∧
         ∃ k, sequencers committee !! k = Some n) ∧
      sl_slot l = slot ∧ sl_epoch l = epoch
  | None =>
      PoSeqCommittee.eligible_proposers committee = [] ∨
      (policy = WeightedRoundRobin ∧ total_weight (weight <$> proposers_of committee) = 0)
  end.
Proof.
  unfold select. set (ps := proposers_of committee).
  assert (ps ≡ₚ PoSeqCommittee.eligible_proposers committee) as Hp by apply sort_by_perm.
  destruct (decide (ps = [])) as [E|Hne]; [left; rewrite E in Hp; by apply Permutation_nil in Hp|].
  destruct (choice slot epoch ps policy) as [[[i m] h]|] eqn:Ec; cbn.
  - destruct (lookup_lt_is_Some_2 ps i) as [n Hn]; [by eapply choice_bound|]. rewrite Hn. cbn.
    split; [|done]. apply list_elem_of_lookup_2 in Hn. rewrite Hp in Hn. exists n.
    pose proof Hn as Hel. unfold PoSeqCommittee.eligible_proposers in Hn.
    apply list_elem_of_filter in Hn as [Hm Hn]. apply andb_true_iff in Hm as [Ha Hm].
    apply bool_decide_eq_true in Ha. apply elem_of_btree_values in Hn. eauto 10.
  - right. unfold choice in Ec. destruct policy; [done..|]. case_decide; done.
Qed.

Lemma leads_index epoch policy committee (f : Z → nat) slot :
  proposers_of committee ≠ [] →
  (∃ m h, choice slot epoch (proposers_of committee) policy = Some (f slot, m, h)) →
  leads committee epoch policy slot = node_id <$> proposers_of committee !! f slot.
Proof.
  intros Hne (m & h & Hc). unfold leads, select. destruct (decide _); [done|]. rewrite Hc. cbn.
  by destruct (proposers_of committee !! f slot).
Qed.

Lemma fmap_concat_imap {A B C} (g : B → C) (f : nat → A → list B) l :
  g <$> concat (imap f l) = concat (imap (λ k x, g <$> f k x) l).
Proof.
  revert f. induction l as [|x l IH]; intros f; [done|]. cbn. rewrite fmap_app. f_equal. apply IH.
Qed.

(** Looking up every position of a list. *)
Lemma lookup_positions {A} (l : list A) :
  (λ p, l !! Z.to_nat p) <$> seqZ 0 (Z.of_nat (length l)) = Some <$> l.
Proof.
  apply list_eq. intros i. rewrite !list_lookup_fmap. destruct (decide (i < length l)%nat) as [Hi|Hi].
  - destruct (lookup_lt_is_Some_2 l i Hi) as [x Hx]. rewrite Hx.
    rewrite (proj2 (lookup_seqZ _ _ _ _)) by (split; [done|lia]). cbn. rewrite <- Hx. do 2 f_equal. lia.
  - rewrite (lookup_ge_None_2 l) by lia. rewrite lookup_ge_None_2; [done|]. rewrite length_seqZ. lia.
Qed.

(** under the round robin, in any run of as many slots as there are eligible
    proposers each of them leads exactly once. *)
Theorem round_robin_fair epoch committee a :
  let n := Z.of_nat (length (PoSeqCommittee.eligible_proposers committee)) in
  leads committee epoch RoundRobin <$> seqZ a n ≡ₚ
  (λ p, Some (node_id p)) <$> PoSeqCommittee.eligible_proposers committee.
Proof.
  intros n. assert (proposers_of committee ≡ₚ PoSeqCommittee.eligible_proposers committee) as Hp
    by apply sort_by_perm.
  destruct (decide (proposers_of committee = [])) as [E|Hne].
  { rewrite E in Hp. apply Permutation_nil in Hp. unfold n. by rewrite Hp. }
  assert (0 < n) as Hn.
  { unfold n. rewrite <- Hp. destruct (proposers_of committee); [done|cbn; lia]. }
  transitivity ((fmap node_id ∘ (λ p, proposers_of committee !! Z.to_nat p)) <$>
    ((λ s, s mod n) <$> seqZ a n)).
  { rewrite <- list_fmap_compose. erewrite list_fmap_ext; [reflexivity|]. intros _ s _. cbn.
    apply (leads_index _ _ _ (λ s, Z.to_nat (s mod n))); [done|].
    unfold n. rewrite <- (Permutation_length Hp). by eexists _, _. }
  rewrite mod_window by done. unfold n. rewrite <- (Permutation_length Hp).
  rewrite (list_fmap_compose (λ p, proposers_of committee !! Z.to_nat p) (fmap node_id)).
  rewrite lookup_positions, <- list_fmap_compose. apply fmap_Permutation, Hp.
Qed.

(** under the weighted policy, when the weights are not all zero and their sum is
    a 64-bit number, in any run of as many slots as the sum each eligible proposer leads
    exactly as many as its weight. *)
Theorem weighted_fair epoch committee a :
  let ps := proposers_of committee in
  let w := weight_sum (weight <$> ps) in
  0 < w < 2 ^ 64 →
  leads committee epoch WeightedRoundRobin <$> seqZ a w ≡ₚ
  concat ((λ p, replicate (Z.to_nat (weight p)) (Some (node_id p))) <$> ps).
Proof.
  intros ps w Hw. assert (Forall (Z.le 0) (weight <$> ps)) as Hnn
    by (apply Forall_fmap, Forall_true; intros p; apply weight_nonneg).
  assert (total_weight (weight <$> ps) = w) as Ht by (apply total_weight_sum; [done|by destruct Hw]).
  assert (ps ≠ []) as Hne by (intros E; unfold w in Hw; rewrite E in Hw; cbn in Hw; lia).
  transitivity ((λ i, node_id <$> ps !! i) <$> (chosen_idx (weight <$> ps) 0 0 <$>
    ((λ s, s mod w) <$> seqZ a w))).
  { rewrite <- !list_fmap_compose. erewrite list_fmap_ext; [reflexivity|]. intros _ s _. cbn.
    apply (leads_index _ _ _ (λ s, chosen_idx (weight <$> ps) 0 0 (s mod w))); [done|].
    unfold choice. fold ps. rewrite Ht. destruct (decide (w = 0)); [lia|]. by eexists _, _. }
  rewrite mod_window by lia. unfold w at 1. rewrite chosen_runs by (done || lia). cbn [Nat.add].
  rewrite imap_fmap, fmap_concat_imap.
  rewrite (imap_ext _ (λ _ p, replicate (Z.to_nat (weight p)) (Some (node_id p)))).
  - apply reflexive_eq. f_equal. apply (imap_const (λ p, replicate (Z.to_nat (weight p)) (Some (node_id p)))).
  - intros k p Hk. cbn. by rewrite fmap_replicate, Hk.
Qed.
End leaders.

(** ** Samples *)

Definition weighted_node (i : id32) (w : string) : NodeIdentity :=
  mkNode i (i + 100) Sequencer NsActive 0 true true {["weight" := w]}.
Definition weighted_committee (ws : list (id32 * string)) : PoSeqCommittee :=
  foldl (λ c p, PoSeqCommittee.add_node (weighted_node p.1 p.2) c) (PoSeqCommittee.new 1) ws.

Lemma weighted_fair_witness :
  let c := weighted_committee [(3, "2"); (7, "1"); (5, "none")]%string in
  @leads sample_sha256 c 1 LeaderSelector.WeightedRoundRobin <$> seqZ 10 4 ≡ₚ
  [Some 3; Some 3; Some 5; Some 7].
Proof.
  cbn zeta. set (c := weighted_committee _).
  assert (weight_sum (LeaderSelector.weight <$> LeaderSelector.proposers_of c) = 4) as Hw
    by (vm_compute; reflexivity).
  pose proof (@weighted_fair sample_sha256 1 c 10) as Hf. cbn zeta in Hf. rewrite Hw in Hf.
  rewrite Hf by lia. apply reflexive_eq. vm_compute. reflexivity.
Defined.

(** The sum of the weights wraps: two proposers whose weights add up to [2^64] leave
    every slot without a leader. *)
Lemma weights_wrap slot epoch :
  let c := weighted_committee [(3, "9223372036854775808"); (5, "9223372036854775808")]%string in
  length (PoSeqCommittee.eligible_proposers c) = 2%nat ∧
  @LeaderSelector.select sample_sha256 slot epoch c LeaderSelector.WeightedRoundRobin = None.
Proof. split; vm_compute; reflexivity. Qed.
