(* ===== verification/Signatures.v ===== *)
(** * Signed sequencing messages

    The payloads that sequencers sign (src/poseq/src/crypto/payloads.rs), envelopes,
    signers and verifiers (signer.rs, node_keys.rs, verifier.rs), and the older registry
    with its multi-signature aggregator (registry.rs).  The theorems say that what a node
    signs verifies, that an accepted envelope is good for one payload of one kind only,
    and what the aggregator does not check. *)

From stdpp Require Import gmap strings list.
From S2P Require Import Prelude Concrete Slashing.

(** Ed25519 as these modules use it (crate [ed25519_dalek]): which bytes are public
    keys, the key of a secret seed, signing, verification. *)
Class NodeEd25519 := {
  node_key_ok : id32 → bool;
  key_of_seed : id32 → id32;
  sign_seed : id32 → bytes → bytes;
  verify_node : id32 → bytes → bytes → bool }.
(** The key of a seed is a key, and what is signed with the seed verifies with it. *)
Class NodeEd25519Laws `{NodeEd25519} : Prop := {
  key_of_seed_ok s : node_key_ok (key_of_seed s) = true;
  signed_verifies s m : verify_node (key_of_seed s) m (sign_seed s m) = true }.

(** ** Payloads *)

(** A tag of 32 bytes: the text, then zeros. *)
Definition padded_tag (s : string) : bytes :=
  string_bytes s ++ replicate (32 - String.length s) 0.
(* @src src/poseq/src/crypto/payloads.rs:7-7 DOMAIN_TAG_PROPOSAL *)
Definition DOMAIN_TAG_PROPOSAL : bytes := padded_tag "POSEQ_PROPOSAL_V1".
(* @src src/poseq/src/crypto/payloads.rs:9-9 DOMAIN_TAG_ATTESTATION *)
Definition DOMAIN_TAG_ATTESTATION : bytes := padded_tag "POSEQ_ATTEST_V1".
(* @src src/poseq/src/crypto/payloads.rs:11-11 DOMAIN_TAG_EVIDENCE *)
Definition DOMAIN_TAG_EVIDENCE : bytes := padded_tag "POSEQ_EVIDENCE_V1".
(* @src src/poseq/src/crypto/payloads.rs:13-13 DOMAIN_TAG_FINALIZED *)
Definition DOMAIN_TAG_FINALIZED : bytes := padded_tag "POSEQ_FINALIZED_V1".

(* @src src/poseq/src/crypto/payloads.rs:17-23 ProposalPayload *)
Record ProposalPayload : Type := mkProposalPayload {
  pp_leader_id : id32; pp_slot : Z; pp_epoch : Z; pp_batch_root : id32; submission_count : Z }.
(* @src src/poseq/src/crypto/payloads.rs:43-49 AttestationPayload *)
Record AttestationPayload : Type := mkAttestationPayload {
  ap_attestor_id : id32; ap_slot : Z; ap_epoch : Z; ap_batch_id : id32; vote_accept : bool }.
(* @src src/poseq/src/crypto/payloads.rs:69-78 EvidencePayload *)
Record EvidencePayload : Type := mkEvidencePayload {
  reporter_id : id32; accused_id : id32;
  slot_a : Z; epoch_a : Z; batch_id_a : id32;
  slot_b : Z; epoch_b : Z; batch_id_b : id32 }.
(* @src src/poseq/src/crypto/payloads.rs:101-107 FinalizedBatchPayload *)
Record FinalizedBatchPayload : Type := mkFinalizedPayload {
  finalizer_id : id32; fp_slot : Z; fp_epoch : Z; fp_batch_id : id32; fp_finalization_hash : id32 }.

(* @src src/poseq/src/crypto/payloads.rs:26-38 ProposalPayload::to_payload_hash *)
Definition proposal_preimage (p : ProposalPayload) : bytes :=
  DOMAIN_TAG_PROPOSAL ++ be_bytes 32 (pp_leader_id p) ++ be_bytes 8 (pp_slot p) ++
  be_bytes 8 (pp_epoch p) ++ be_bytes 32 (pp_batch_root p) ++ be_bytes 4 (submission_count p).
(* @src src/poseq/src/crypto/payloads.rs:52-64 AttestationPayload::to_payload_hash *)
Definition attestation_preimage (p : AttestationPayload) : bytes :=
  DOMAIN_TAG_ATTESTATION ++ be_bytes 32 (ap_attestor_id p) ++ be_bytes 8 (ap_slot p) ++
  be_bytes 8 (ap_epoch p) ++ be_bytes 32 (ap_batch_id p) ++ [Z.b2z (vote_accept p)].
(* @src src/poseq/src/crypto/payloads.rs:81-96 EvidencePayload::to_payload_hash *)
Definition evidence_preimage (p : EvidencePayload) : bytes :=
  DOMAIN_TAG_EVIDENCE ++ be_bytes 32 (reporter_id p) ++ be_bytes 32 (accused_id p) ++
  be_bytes 8 (slot_a p) ++ be_bytes 8 (epoch_a p) ++ be_bytes 32 (batch_id_a p) ++
  be_bytes 8 (slot_b p) ++ be_bytes 8 (epoch_b p) ++ be_bytes 32 (batch_id_b p).
(* @src src/poseq/src/crypto/payloads.rs:110-122 FinalizedBatchPayload::to_payload_hash *)
Definition finalized_preimage (p : FinalizedBatchPayload) : bytes :=
  DOMAIN_TAG_FINALIZED ++ be_bytes 32 (finalizer_id p) ++ be_bytes 8 (fp_slot p) ++
  be_bytes 8 (fp_epoch p) ++ be_bytes 32 (fp_batch_id p) ++ be_bytes 32 (fp_finalization_hash p).

(** The four kinds of payload, with what the verifier reads of each. *)
Inductive Payload : Type :=
| OfProposal (p : ProposalPayload)
| OfAttestation (p : AttestationPayload)
| OfEvidence (p : EvidencePayload)
| OfFinalized (p : FinalizedBatchPayload).
Definition preimage (p : Payload) : bytes :=
  match p with
  | OfProposal p => proposal_preimage p | OfAttestation p => attestation_preimage p
  | OfEvidence p => evidence_preimage p | OfFinalized p => finalized_preimage p
  end.
Definition payload_signer (p : Payload) : id32 :=
  match p with
  | OfProposal p => pp_leader_id p | OfAttestation p => ap_attestor_id p
  | OfEvidence p => reporter_id p | OfFinalized p => finalizer_id p
  end.
Definition to_payload_hash `{Sha256} (p : Payload) : id32 := sha256 (preimage p).

(** ** Signers *)

(* @src src/poseq/src/crypto/signer.rs:10-13 SignerIdentity *)
Record SignerIdentity : Type := mkIdentity { id_node_id : id32; public_key_bytes : id32 }.
(* @src src/poseq/src/crypto/signer.rs:21-29 SignerIdentity::identity_hash *)
Definition identity_hash `{Sha256} (i : SignerIdentity) : id32 :=
  sha256 (be_bytes 32 (id_node_id i) ++ be_bytes 32 (public_key_bytes i)).
(* @src src/poseq/src/crypto/signer.rs:34-39 SignatureEnvelope *)
Record SignatureEnvelope : Type := mkEnvelope {
  payload_hash : id32; signature_bytes : bytes; signer_id : id32 }.

(** A signing key is its seed. *)
(* @src src/poseq/src/crypto/signer.rs:54-57 Ed25519Signer *)
Record Ed25519Signer : Type := mkSigner { identity : SignerIdentity; signing_key : id32 }.
Module Ed25519Signer.
Section signer.
Context `{NodeEd25519}.
(* @src src/poseq/src/crypto/signer.rs:61-69 Ed25519Signer::from_seed *)
Definition from_seed (node seed : id32) : Ed25519Signer :=
  mkSigner (mkIdentity node (key_of_seed seed)) seed.
(* @src src/poseq/src/crypto/signer.rs:72-80 Ed25519Signer::sign *)
Definition sign (s : Ed25519Signer) (h : id32) : SignatureEnvelope :=
  mkEnvelope h (sign_seed (signing_key s) (be_bytes 32 h)) (id_node_id (identity s)).
End signer.
End Ed25519Signer.

(** A verifier is its key, which was found to be one. *)
(* @src src/poseq/src/crypto/signer.rs:88-91 Ed25519Verifier *)
Record Ed25519Verifier : Type := mkVerifier { vf_public_key_bytes : id32 }.
Module Ed25519Verifier.
Section verifier.
Context `{NodeEd25519}.
(* @src src/poseq/src/crypto/signer.rs:94-98 Ed25519Verifier::new *)
Definition new (pk : id32) : outcome Phase4Error Ed25519Verifier :=
  if node_key_ok pk then Ok (mkVerifier pk) else Err (InvalidSignature pk).
(* @src src/poseq/src/crypto/signer.rs:102-112 Ed25519Verifier::verify *)
Definition verify (v : Ed25519Verifier) (h : id32) (e : SignatureEnvelope) : bool :=
  if decide (payload_hash e ≠ h) then false
  else verify_node (vf_public_key_bytes v) (be_bytes 32 h) (signature_bytes e).
End verifier.
End Ed25519Verifier.

(* @src src/poseq/src/crypto/signer.rs:116-118 Ed25519SignatureRegistry *)
Abbreviation Ed25519SignatureRegistry := (gmap Z Ed25519Verifier).
Module Ed25519SignatureRegistry.
Section registry.
Context `{NodeEd25519}.
(* @src src/poseq/src/crypto/signer.rs:121-123 Ed25519SignatureRegistry::new *)
Definition new : Ed25519SignatureRegistry := ∅.
(* @src src/poseq/src/crypto/signer.rs:125-129 Ed25519SignatureRegistry::register *)
Definition register (node pk : id32) : M Ed25519SignatureRegistry Phase4Error () := λ r,
  match Ed25519Verifier.new pk with
  | Ok v => (<[node := v]> r, Ok tt) | Err e => (r, Err e) | Panic => (r, Panic)
  end.
(* @src src/poseq/src/crypto/signer.rs:131-135 Ed25519SignatureRegistry::verify *)
Definition verify (r : Ed25519SignatureRegistry) (node h : id32) (e : SignatureEnvelope)
  : outcome Phase4Error bool :=
  match r !! node with
  | None => Err (UnknownSigner node)
  | Some v => Ok (Ed25519Verifier.verify v h e)
  end.
(* @src src/poseq/src/crypto/signer.rs:137-139 Ed25519SignatureRegistry::is_registered *)
Definition is_registered (r : Ed25519SignatureRegistry) (node : id32) : bool :=
  bool_decide (is_Some (r !! node)).
End registry.
End Ed25519SignatureRegistry.

(* @src src/poseq/src/crypto/node_keys.rs:10-14 NodeKeyPair *)
Record NodeKeyPair : Type := mkKeyPair {
  kp_node_id : id32; kp_public_key_bytes : id32; signer : Ed25519Signer }.
Module NodeKeyPair.
Section keys.
Context `{Sha256, NodeEd25519}.
(* @src src/poseq/src/crypto/node_keys.rs:18-22 NodeKeyPair::from_seed *)
Definition from_seed (node seed : id32) : NodeKeyPair :=
  let s := Ed25519Signer.from_seed node seed in
  mkKeyPair node (public_key_bytes (identity s)) s.
(* @src src/poseq/src/crypto/node_keys.rs:26-34 NodeKeyPair::for_testing *)
Definition for_testing (node : id32) : NodeKeyPair :=
  from_seed node (sha256 (string_bytes "TEST_SEED" ++ be_bytes 32 node)).
(** The four methods differ only in the payload. *)
Definition sign (k : NodeKeyPair) (p : Payload) : SignatureEnvelope :=
  Ed25519Signer.sign (signer k) (to_payload_hash p).
(* @src src/poseq/src/crypto/node_keys.rs:36-39 NodeKeyPair::sign_proposal *)
Definition sign_proposal k p := sign k (OfProposal p).
(* @src src/poseq/src/crypto/node_keys.rs:41-44 NodeKeyPair::sign_attestation *)
Definition sign_attestation k p := sign k (OfAttestation p).
(* @src src/poseq/src/crypto/node_keys.rs:46-49 NodeKeyPair::sign_evidence *)
Definition sign_evidence k p := sign k (OfEvidence p).
(* @src src/poseq/src/crypto/node_keys.rs:51-54 NodeKeyPair::sign_finalized *)
Definition sign_finalized k p := sign k (OfFinalized p).
End keys.
End NodeKeyPair.

(** ** Verifying messages *)

(* @src src/poseq/src/crypto/verifier.rs:11-22 VerificationError *)
Inductive VerificationError : Type :=
| VUnknownSigner (n : id32)
| SignatureMismatch
| PayloadMismatch
| StaleEpoch (expected_min got : Z)
| WrongSigner (expected got : id32).

(* @src src/poseq/src/crypto/verifier.rs:25-27 PoSeqVerifier *)
Abbreviation PoSeqVerifier := (gmap Z Ed25519Verifier).
Module PoSeqVerifier.
Section verifier.
Context `{Sha256, NodeEd25519}.
(* @src src/poseq/src/crypto/verifier.rs:30-32 PoSeqVerifier::new *)
Definition new : PoSeqVerifier := ∅.
(* @src src/poseq/src/crypto/verifier.rs:35-39 PoSeqVerifier::register *)
Definition register (node pk : id32) : M PoSeqVerifier Phase4Error () := λ r,
  match Ed25519Verifier.new pk with
  | Ok v => (<[node := v]> r, Ok tt) | Err e => (r, Err e) | Panic => (r, Panic)
  end.
(* @src src/poseq/src/crypto/verifier.rs:43-61 PoSeqVerifier::check_sig *)
Definition check_sig (r : PoSeqVerifier) (node h : id32) (e : SignatureEnvelope)
  : outcome VerificationError () :=
  match r !! node with
  | None => Err (VUnknownSigner node)
  | Some v =>
      if decide (payload_hash e ≠ h) then Err PayloadMismatch
      else if negb (Ed25519Verifier.verify v h e) then Err SignatureMismatch
      else Ok tt
  end.
(** The four methods differ only in the payload and in the field that names its signer. *)
Definition verify (r : PoSeqVerifier) (p : Payload) (e : SignatureEnvelope)
  : outcome VerificationError () :=
  if decide (signer_id e ≠ payload_signer p) then Err (WrongSigner (payload_signer p) (signer_id e))
  else check_sig r (signer_id e) (to_payload_hash p) e.
(* @src src/poseq/src/crypto/verifier.rs:66-80 PoSeqVerifier::verify_proposal *)
Definition verify_proposal r p := verify r (OfProposal p).
(* @src src/poseq/src/crypto/verifier.rs:83-96 PoSeqVerifier::verify_attestation *)
Definition verify_attestation r p := verify r (OfAttestation p).
(* @src src/poseq/src/crypto/verifier.rs:99-112 PoSeqVerifier::verify_evidence *)
Definition verify_evidence r p := verify r (OfEvidence p).
(* @src src/poseq/src/crypto/verifier.rs:115-128 PoSeqVerifier::verify_finalized *)
Definition verify_finalized r p := verify r (OfFinalized p).
End verifier.
End PoSeqVerifier.

(** ** The older registry and the aggregator *)

(* @src src/poseq/src/crypto/registry.rs:7-9 SignatureRegistry *)
Abbreviation SignatureRegistry := (gmap Z Z).
Module SignatureRegistry.
(* @src src/poseq/src/crypto/registry.rs:17-19 SignatureRegistry::register *)
Definition register (i : SignerIdentity) (r : SignatureRegistry) : SignatureRegistry :=
  <[id_node_id i := public_key_bytes i]> r.
(* @src src/poseq/src/crypto/registry.rs:22-24 SignatureRegistry::deregister *)
Definition deregister (node : id32) (r : SignatureRegistry) : SignatureRegistry := delete node r.
(* @src src/poseq/src/crypto/registry.rs:27-29 SignatureRegistry::get_public_key *)
Definition get_public_key (r : SignatureRegistry) (node : id32) : option id32 := r !! node.
(* @src src/poseq/src/crypto/registry.rs:38-54 SignatureRegistry::verify_envelope *)
Definition verify_envelope (r : SignatureRegistry) (e : SignatureEnvelope) : outcome Phase4Error bool :=
  match r !! signer_id e with
  | None => Err (UnknownSigner (signer_id e))
  | Some _ =>
      if decide (payload_hash e = 0) then Ok false
      else if decide (signature_bytes e = replicate 64 0) then Ok false
      else Ok true
  end.
(* @src src/poseq/src/crypto/registry.rs:57-59 SignatureRegistry::len *)
Definition len (r : SignatureRegistry) : nat := size r.
(* @src src/poseq/src/crypto/registry.rs:66-68 SignatureRegistry::node_ids *)
Definition node_ids (r : SignatureRegistry) : list id32 := btree_keys r.
End SignatureRegistry.

(* @src src/poseq/src/crypto/registry.rs:79-84 MultiSigThreshold *)
Record MultiSigThreshold : Type := mkThreshold { min_count : nat; min_stake_bps : Z }.
Module MultiSigThreshold.
(* @src src/poseq/src/crypto/registry.rs:92-95 MultiSigThreshold::two_thirds *)
Definition two_thirds (total : nat) : MultiSigThreshold := mkThreshold ((total * 2 + 2) / 3)%nat 6667.
(* @src src/poseq/src/crypto/registry.rs:98-101 MultiSigThreshold::majority *)
Definition majority (total : nat) : MultiSigThreshold := mkThreshold (total / 2 + 1)%nat 5001.
(* @src src/poseq/src/crypto/registry.rs:104-106 MultiSigThreshold::meets_count *)
Definition meets_count (t : MultiSigThreshold) (n : nat) : bool := bool_decide (min_count t ≤ n)%nat.
(* @src src/poseq/src/crypto/registry.rs:111-127 MultiSigThreshold::meets_stake *)
Definition meets_stake (t : MultiSigThreshold) (ids : list id32) (weights : gmap Z Z) (total_stake : Z) : bool :=
  if decide (total_stake = 0) then false
  else
    let cumulative := foldl (λ a w, wrapu 64 (a + w)) 0 (omap (λ i, weights !! i) ids) in
    bool_decide (sat_mul 64 (min_stake_bps t) total_stake ≤ sat_mul 64 cumulative 10000).
(* @src src/poseq/src/crypto/registry.rs:130-137 MultiSigThreshold::meets_both *)
Definition meets_both (t : MultiSigThreshold) (ids : list id32) (weights : gmap Z Z) (total_stake : Z) : bool :=
  meets_count t (length ids) && meets_stake t ids weights total_stake.
End MultiSigThreshold.

(* @src src/poseq/src/crypto/registry.rs:141-145 MultiSigAggregator *)
Record MultiSigAggregator : Type := mkAggregator {
  ms_threshold : MultiSigThreshold;
  collected : gmap Z SignatureEnvelope;
  ms_registry : SignatureRegistry }.
Module MultiSigAggregator.
(* @src src/poseq/src/crypto/registry.rs:148-154 MultiSigAggregator::new *)
Definition new (t : MultiSigThreshold) (r : SignatureRegistry) : MultiSigAggregator := mkAggregator t ∅ r.
(** The verdict of [verify_envelope] is discarded; only its error counts. *)
(* @src src/poseq/src/crypto/registry.rs:157-168 MultiSigAggregator::add_envelope *)
Definition add_envelope (e : SignatureEnvelope) : M MultiSigAggregator Phase4Error () := λ a,
  let node := signer_id e in
  match SignatureRegistry.get_public_key (ms_registry a) node with
  | None => (a, Err (UnknownSigner node))
  | Some _ =>
      if decide (is_Some (collected a !! node)) then (a, Err (DuplicateSignature node))
      else match SignatureRegistry.verify_envelope (ms_registry a) e with
           | Err x => (a, Err x)
           | Panic => (a, Panic)
           | Ok _ => (mkAggregator (ms_threshold a) (<[node := e]> (collected a)) (ms_registry a), Ok tt)
           end
  end.
(* @src src/poseq/src/crypto/registry.rs:171-173 MultiSigAggregator::count_threshold_met *)
Definition count_threshold_met (a : MultiSigAggregator) : bool :=
  MultiSigThreshold.meets_count (ms_threshold a) (size (collected a)).
(* @src src/poseq/src/crypto/registry.rs:176-183 MultiSigAggregator::stake_threshold_met *)
Definition stake_threshold_met (a : MultiSigAggregator) (weights : gmap Z Z) (total_stake : Z) : bool :=
  MultiSigThreshold.meets_stake (ms_threshold a) (btree_keys (collected a)) weights total_stake.
(* @src src/poseq/src/crypto/registry.rs:186-188 MultiSigAggregator::count *)
Definition count (a : MultiSigAggregator) : nat := size (collected a).
End MultiSigAggregator.
(* @src src/poseq/src/crypto/registry.rs:192-204 compute_multisig_hash *)
Definition compute_multisig_hash `{Sha256} (envelopes : gmap Z SignatureEnvelope) : id32 :=
  sha256 (concat ((λ p, be_bytes 32 p.1 ++ signature_bytes p.2 ++ be_bytes 32 (payload_hash p.2)) <$>
    btree_list envelopes)).

(** ** One envelope, one payload *)

Definition payload_ok (p : Payload) : Prop :=
  match p with
  | OfProposal p => fits 256 (pp_leader_id p) ∧ fits 64 (pp_slot p) ∧ fits 64 (pp_epoch p) ∧
      fits 256 (pp_batch_root p) ∧ fits 32 (submission_count p)
  | OfAttestation p => fits 256 (ap_attestor_id p) ∧ fits 64 (ap_slot p) ∧ fits 64 (ap_epoch p) ∧
      fits 256 (ap_batch_id p)
  | OfEvidence p => fits 256 (reporter_id p) ∧ fits 256 (accused_id p) ∧
      fits 64 (slot_a p) ∧ fits 64 (epoch_a p) ∧ fits 256 (batch_id_a p) ∧
      fits 64 (slot_b p) ∧ fits 64 (epoch_b p) ∧ fits 256 (batch_id_b p)
  | OfFinalized p => fits 256 (finalizer_id p) ∧ fits 64 (fp_slot p) ∧ fits 64 (fp_epoch p) ∧
      fits 256 (fp_batch_id p) ∧ fits 256 (fp_finalization_hash p)
  end.
#[export] Instance payload_ok_dec p : Decision (payload_ok p).
Proof. destruct p; unfold payload_ok; apply _. Defined.

Definition domain (p : Payload) : bytes :=
  match p with
  | OfProposal _ => DOMAIN_TAG_PROPOSAL | OfAttestation _ => DOMAIN_TAG_ATTESTATION
  | OfEvidence _ => DOMAIN_TAG_EVIDENCE | OfFinalized _ => DOMAIN_TAG_FINALIZED
  end.
Lemma preimage_domain p : take 32 (preimage p) = domain p.
Proof. by destruct p. Qed.

(** Peels one fixed-width field off two equal byte strings. *)
Ltac peel :=
  match goal with
  | H : be_bytes _ _ ++ _ = be_bytes _ _ ++ _ |- _ =>
      apply be_bytes_app_inj in H as [? H]; [|done..]
  | H : be_bytes _ _ = be_bytes _ _ |- _ => apply be_bytes_inj in H; [|done..]
  end.

Lemma preimage_inj p p' : payload_ok p → payload_ok p' → preimage p = preimage p' → p = p'.
Proof.
  intros Hp Hp' E. assert (domain p = domain p') as Hd by (by rewrite <- !preimage_domain, E).
  destruct p as [[]|[]|[]|[]], p' as [[]|[]|[]|[]]; try (exfalso; by vm_compute in Hd);
    cbn [preimage proposal_preimage attestation_preimage evidence_preimage finalized_preimage] in E;
    unfold proposal_preimage, attestation_preimage, evidence_preimage, finalized_preimage in E;
    apply app_inv_head in E; cbn in Hp, Hp';
    cbn [pp_leader_id pp_slot pp_epoch pp_batch_root submission_count ap_attestor_id ap_slot ap_epoch
      ap_batch_id vote_accept reporter_id accused_id slot_a epoch_a batch_id_a slot_b epoch_b batch_id_b
      finalizer_id fp_slot fp_epoch fp_batch_id fp_finalization_hash] in E;
    destruct_and!; repeat peel; subst; try done.
  injection E as E. by apply Z.b2z_inj in E as ->.
Qed.

Section messages.
Context `{Sha256, NodeEd25519}.

Lemma verify_accepts r p e :
  PoSeqVerifier.verify r p e = Ok tt ↔
  signer_id e = payload_signer p ∧ payload_hash e = to_payload_hash p ∧
  ∃ v, r !! payload_signer p = Some v ∧
    verify_node (vf_public_key_bytes v) (be_bytes 32 (to_payload_hash p)) (signature_bytes e) = true.
Proof.
  unfold PoSeqVerifier.verify, PoSeqVerifier.check_sig, Ed25519Verifier.verify.
  destruct (decide (signer_id e ≠ payload_signer p)) as [Hs|Hs].
  { split; [done|]. by intros (? & _). }
  apply dec_stable in Hs. rewrite Hs. destruct (r !! payload_signer p) as [v|].
  2:{ split; [done|]. by intros (_ & _ & ? & ? & _). }
  destruct (decide (payload_hash e ≠ to_payload_hash p)) as [Hh|Hh].
  { split; [done|]. by intros (_ & ? & _). }
  destruct (verify_node _ _ _) eqn:E; cbn [negb]; split; try done.
  - intros _. apply dec_stable in Hh. by eauto 10.
  - intros (_ & _ & v' & Hv & E'). injection Hv as <-. congruence.
Qed.

(** what a node signs is accepted by every verifier that registered its key, for
    each of the four kinds of payload that name the node as the signer. *)
Theorem signed_accepted `{!NodeEd25519Laws} node seed r p :
  payload_signer p = node →
  let k := NodeKeyPair.from_seed node seed in
  let r' := (PoSeqVerifier.register node (kp_public_key_bytes k) r).1 in
  PoSeqVerifier.verify r' p (NodeKeyPair.sign k p) = Ok tt.
Proof.
  intros Hp k r'. apply verify_accepts. split_and!; [done..|].
  unfold r', PoSeqVerifier.register, Ed25519Verifier.new. cbn. rewrite key_of_seed_ok. cbn.
  rewrite Hp, lookup_insert_eq. eexists. split; [done|]. apply signed_verifies.
Qed.

(** an envelope that verifiers accept is good for one payload: the same bytes are
    not accepted for another slot, epoch, batch, root, verdict or kind of message,
    unless the two signed strings collide. *)
Theorem envelope_single_use r r' p p' e :
  payload_ok p → payload_ok p' → no_collision [preimage p] [preimage p'] →
  PoSeqVerifier.verify r p e = Ok tt → PoSeqVerifier.verify r' p' e = Ok tt → p = p'.
Proof.
  intros Hp Hp' Hnc (_ & E & _)%verify_accepts (_ & E' & _)%verify_accepts.
  apply preimage_inj; [done..|]. apply Hnc; [by left..|]. unfold to_payload_hash in *. congruence.
Qed.
End messages.

(** ** The aggregator does not check signatures *)

Lemma foldl_insert_lookup {A} (f : Z → A) l (m : gmap Z A) i :
  foldl (λ m j, <[j := f j]> m) m l !! i = if decide (i ∈ l) then Some (f i) else m !! i.
Proof.
  revert m. induction l as [|j l IH]; intros m; cbn [foldl].
  { destruct (decide (i ∈ [])) as [Hin|_]; [|done]. by apply not_elem_of_nil in Hin. }
  rewrite IH. destruct (decide (i ∈ l)) as [Hin|Hin], (decide (i ∈ j :: l)) as [Hin'|Hin'];
    rewrite elem_of_cons in Hin'; try done; try tauto.
  - destruct Hin' as [->|]; [|done]. by rewrite lookup_insert_eq.
  - apply lookup_insert_ne. naive_solver.
Qed.

Definition forged (i : id32) : SignatureEnvelope := mkEnvelope 0 (replicate 64 0) i.

(** the aggregator collects an envelope whatever its signature: with all-zero
    signatures over an all-zero hash, one for each registered node, it reaches any count
    that the registered nodes could reach, although the registry's own check is false on
    every one of them. *)
Theorem aggregator_collects_forgeries t (r : SignatureRegistry) :
  (min_count t ≤ size r)%nat →
  let a := foldl (λ a i, (MultiSigAggregator.add_envelope (forged i) a).1) (MultiSigAggregator.new t r)
             (SignatureRegistry.node_ids r) in
  MultiSigAggregator.count_threshold_met a = true ∧
  ∀ i e, collected a !! i = Some e → SignatureRegistry.verify_envelope r e = Ok false.
Proof.
  intros Hmin.
  assert (∀ l m, NoDup l → (∀ i, i ∈ l → is_Some (r !! i) ∧ m !! i = None) →
    foldl (λ a i, (MultiSigAggregator.add_envelope (forged i) a).1) (mkAggregator t m r) l =
    mkAggregator t (foldl (λ m i, <[i := forged i]> m) m l) r) as Hrun.
  { induction l as [|i l IH]; intros m Hnd Hl; [done|]. apply NoDup_cons in Hnd as [Hi Hnd].
    destruct (Hl i) as [[pk Hpk] Hn]; [left|]. cbn [foldl].
    unfold MultiSigAggregator.add_envelope at 2, SignatureRegistry.get_public_key,
      SignatureRegistry.verify_envelope. cbn. rewrite Hpk.
    destruct (decide (is_Some (m !! i))) as [[x Hx]|_]; [congruence|]. cbn. apply IH; [done|].
    intros j Hj. split; [apply Hl; by right|]. rewrite lookup_insert_ne by (by intros ->).
    apply Hl. by right. }
  intros a. unfold a, MultiSigAggregator.new. rewrite Hrun.
  2:{ apply NoDup_btree_keys. } 2:{ intros i Hi%elem_of_btree_keys. by rewrite lookup_empty. }
  split.
  - apply bool_decide_eq_true. cbn. etrans; [exact Hmin|]. rewrite <- !size_dom.
    apply subseteq_size. intros i Hi%elem_of_dom. apply elem_of_dom. rewrite foldl_insert_lookup.
    rewrite decide_True by (by apply elem_of_btree_keys). by eexists.
  - cbn. intros i e. rewrite foldl_insert_lookup. destruct (decide _) as [Hi|Hi];
      [|by rewrite lookup_empty]. intros [= <-]. apply elem_of_btree_keys in Hi as [pk Hpk].
    unfold SignatureRegistry.verify_envelope. cbn. by rewrite Hpk.
Qed.

(** ** Samples *)

Definition sample_node_ed25519 : NodeEd25519 := {|
  node_key_ok k := bool_decide (k ≠ 0);
  key_of_seed s := Z.abs s + 1;
  sign_seed s m := Z.abs s + 1 :: m;
  verify_node k m sig := bool_decide (sig = k :: m) |}.
Lemma sample_node_ed25519_laws : @NodeEd25519Laws sample_node_ed25519.
Proof.
  split; [|intros s m; by apply bool_decide_eq_true].
  intros s. apply bool_decide_eq_true. cbn. lia.
Qed.

Definition sample_vote : Payload := OfAttestation (mkAttestationPayload 5 9 2 77 true).
Definition sample_verifier : PoSeqVerifier :=
  (@PoSeqVerifier.register sample_node_ed25519 5
    (kp_public_key_bytes (@NodeKeyPair.from_seed sample_node_ed25519 5 31)) ∅).1.
Definition sample_envelope : SignatureEnvelope :=
  @NodeKeyPair.sign sample_sha256 sample_node_ed25519
    (@NodeKeyPair.from_seed sample_node_ed25519 5 31) sample_vote.

Lemma signed_accepted_witness :
  @PoSeqVerifier.verify sample_sha256 sample_node_ed25519 sample_verifier sample_vote sample_envelope = Ok tt.
Proof.
  exact (@signed_accepted sample_sha256 sample_node_ed25519 sample_node_ed25519_laws 5 31 ∅ sample_vote eq_refl).
Defined.

Lemma envelope_single_use_witness :
  sample_vote = OfAttestation (mkAttestationPayload (4 + 1) 9 2 77 true).
Proof.
  refine (@envelope_single_use sample_sha256 sample_node_ed25519 sample_verifier sample_verifier sample_vote _
    sample_envelope _ _ _ _ _).
  - apply (bool_decide_unpack _). vm_compute. exact I.
  - apply (bool_decide_unpack _). vm_compute. exact I.
  - apply collision_free_sound. vm_compute. reflexivity.
  - vm_compute. reflexivity.
  - vm_compute. reflexivity.
Defined.

Lemma aggregator_collects_forgeries_witness :
  let r : SignatureRegistry := list_to_map [(3, 103); (5, 105); (7, 107)] in
  let a := foldl (λ a i, (MultiSigAggregator.add_envelope (forged i) a).1)
             (MultiSigAggregator.new (MultiSigThreshold.two_thirds 3) r) (SignatureRegistry.node_ids r) in
  MultiSigAggregator.count_threshold_met a = true ∧ MultiSigAggregator.count a = 3%nat.
Proof.
  cbn zeta. set (r := list_to_map _ : SignatureRegistry). split; [|vm_compute; reflexivity].
  refine (proj1 (aggregator_collects_forgeries (MultiSigThreshold.two_thirds 3) r _)).
  apply Nat.leb_le. vm_compute. reflexivity.
Defined.
