(* ===== verification/Sequencing.v ===== *)
(** * Proposals, attestations, finalization, delivery

    The life of a batch in a sequencer node: the proposal (src/poseq/src/proposals/),
    the votes (attestations/collector.rs), finalization (finalization/engine.rs),
    conflict detection (conflicts/detector.rs), the replay guards (replay/guard.rs), the
    bridge to the runtime (bridge/hardened.rs), commitments and receipts
    (commitment/hash.rs, receipts/lifecycle.rs), the store of all of them
    (persistence/store.rs), and the node that wires them (node/sequencer_node.rs).  The
    theorems are in SequencingProps. *)

From stdpp Require Import gmap strings list pretty sorting.
From S2P Require Import Prelude Concrete Sorting Slashing Membership Rotation Signatures.

(** ** Errors *)

(* @src src/poseq/src/errors.rs:26-35 BridgeError *)
Inductive BridgeError : Type :=
| EmptyBatch | SerializationFailure (s : string) | RuntimeDeliveryFailed (s : string)
| AlreadyDelivered | AckReplay | RejectedByRuntime | DeliveryFailed.
(* @src src/poseq/src/errors.rs:38-44 ProposalError *)
Inductive ProposalError : Type :=
| NotLeader | AlreadyProposed | InvalidSlot | InvalidParent | InvalidBatchRoot.
(* @src src/poseq/src/errors.rs:47-53 AttestationError *)
Inductive AttestationError : Type :=
| NotEligible | DuplicateVote | ConflictingVote | AtProposalNotFound | AtAlreadyFinalized.

(** ** Proposals *)

(* @src src/poseq/src/proposals/batch.rs:7-14 ProposalState *)
Inductive ProposalState : Type :=
| PsPending | PsCollecting | PsAttested | PsFinalized | PsExpired | PsConflicted.
#[export] Instance ProposalState_eq_dec : EqDecision ProposalState.
Proof. solve_decision. Defined.

(* @src src/poseq/src/proposals/batch.rs:18-26 ProposalHeader *)
Record ProposalHeader : Type := mkHeader {
  hd_proposal_id : id32; hd_slot : Z; hd_epoch : Z; hd_leader_id : id32;
  hd_batch_root : id32; hd_parent_batch_id : id32; hd_policy_version : Z }.
(* @src src/poseq/src/proposals/batch.rs:30-42 ProposedBatch *)
Record ProposedBatch : Type := mkProposed {
  pb_proposal_id : id32;
  pb_slot : Z;
  pb_epoch : Z;
  pb_leader_id : id32;
  pb_ordered_submission_ids : list id32;
  pb_batch_root : id32;
  pb_parent_batch_id : id32;
  pb_policy_version : Z;
  pb_created_at_height : Z;
  pb_state : ProposalState;
  pb_metadata : gmap string string }.

Definition id_list_bytes (ids : list id32) : bytes := concat (be_bytes 32 <$> ids).

Module ProposedBatch.
(* @src src/poseq/src/proposals/batch.rs:48-57 ProposedBatch::compute_root *)
Definition compute_root `{Sha256} (ids : list id32) : id32 := sha256 (id_list_bytes ids).
(* @src src/poseq/src/proposals/batch.rs:61-72 ProposedBatch::compute_set_root *)
Definition compute_set_root `{Sha256} (ids : list id32) : id32 :=
  sha256 (id_list_bytes (merge_sort Z.le ids)).
Definition id_preimage (h : ProposalHeader) : bytes :=
  be_bytes 8 (hd_slot h) ++ be_bytes 8 (hd_epoch h) ++ be_bytes 32 (hd_leader_id h) ++
  be_bytes 32 (hd_batch_root h) ++ be_bytes 32 (hd_parent_batch_id h) ++
  be_bytes 4 (hd_policy_version h).
(* @src src/poseq/src/proposals/batch.rs:75-87 ProposedBatch::compute_id *)
Definition compute_id `{Sha256} (h : ProposalHeader) : id32 := sha256 (id_preimage h).
(* @src src/poseq/src/proposals/batch.rs:90-123 ProposedBatch::new *)
Definition new `{Sha256} (slot epoch : Z) (leader : id32) (ids : list id32) (parent : id32)
    (policy height : Z) : ProposedBatch :=
  let root := compute_root ids in
  mkProposed (compute_id (mkHeader 0 slot epoch leader root parent policy)) slot epoch leader ids root
    parent policy height PsPending ∅.

Definition set_state (st : ProposalState) (b : ProposedBatch) : ProposedBatch :=
  mkProposed (pb_proposal_id b) (pb_slot b) (pb_epoch b) (pb_leader_id b) (pb_ordered_submission_ids b)
    (pb_batch_root b) (pb_parent_batch_id b) (pb_policy_version b) (pb_created_at_height b) st (pb_metadata b).
(** A transition that is allowed from some states only, and whether it happened. *)
Definition step_from (allowed : list ProposalState) (next : ProposalState) (b : ProposedBatch)
  : ProposedBatch * bool :=
  if decide (pb_state b ∈ allowed) then (set_state next b, true) else (b, false).
(* @src src/poseq/src/proposals/batch.rs:126-133 ProposedBatch::start_collecting *)
Definition start_collecting := step_from [PsPending] PsCollecting.
(* @src src/poseq/src/proposals/batch.rs:136-143 ProposedBatch::mark_attested *)
Definition mark_attested := step_from [PsCollecting] PsAttested.
(* @src src/poseq/src/proposals/batch.rs:146-153 ProposedBatch::mark_finalized *)
Definition mark_finalized := step_from [PsAttested; PsCollecting] PsFinalized.
(* @src src/poseq/src/proposals/batch.rs:156-163 ProposedBatch::mark_expired *)
Definition mark_expired := step_from [PsPending; PsCollecting] PsExpired.
(* @src src/poseq/src/proposals/batch.rs:171-180 ProposedBatch::mark_conflicted *)
Definition mark_conflicted := step_from [PsPending; PsCollecting; PsAttested] PsConflicted.
(* @src src/poseq/src/proposals/batch.rs:182-192 ProposedBatch::header *)
Definition header (b : ProposedBatch) : ProposalHeader :=
  mkHeader (pb_proposal_id b) (pb_slot b) (pb_epoch b) (pb_leader_id b) (pb_batch_root b)
    (pb_parent_batch_id b) (pb_policy_version b).
End ProposedBatch.

(* @src src/poseq/src/proposals/batch.rs:197-203 BatchProposal *)
Record BatchProposal : Type := mkBatchProposal {
  bp_header : ProposalHeader;
  bp_ordered_submission_ids : list id32;
  bp_created_at_height : Z;
  leader_signature : option SignatureEnvelope }.
Module BatchProposal.
(* @src src/poseq/src/proposals/batch.rs:206-213 BatchProposal::from_proposed *)
Definition from_proposed (b : ProposedBatch) : BatchProposal :=
  mkBatchProposal (ProposedBatch.header b) (pb_ordered_submission_ids b) (pb_created_at_height b) None.
(** What the leader signs; the count is cut to 32 bits. *)
Definition payload (p : BatchProposal) (leader root : id32) : ProposalPayload :=
  mkProposalPayload leader (hd_slot (bp_header p)) (hd_epoch (bp_header p)) root
    (wrapu 32 (Z.of_nat (length (bp_ordered_submission_ids p)))).
(* @src src/poseq/src/proposals/batch.rs:217-232 BatchProposal::sign *)
Definition sign `{Sha256, NodeEd25519} (k : NodeKeyPair) (root : id32) (p : BatchProposal) : BatchProposal :=
  mkBatchProposal (bp_header p) (bp_ordered_submission_ids p) (bp_created_at_height p)
    (Some (NodeKeyPair.sign_proposal k (payload p (kp_node_id k) root))).
(** The leader of the payload is the envelope's own signer. *)
(* @src src/poseq/src/proposals/batch.rs:237-254 BatchProposal::verify_signature *)
Definition verify_signature `{Sha256, NodeEd25519} (p : BatchProposal) (v : PoSeqVerifier) (root : id32)
  : outcome VerificationError () :=
  match leader_signature p with
  | None => Ok tt
  | Some env => PoSeqVerifier.verify_proposal v (payload p (signer_id env) root) env
  end.
End BatchProposal.

(** ** Attestations *)

(* @src src/poseq/src/attestations/collector.rs:7-16 BatchAttestationVote *)
Record BatchAttestationVote : Type := mkAttestation {
  av_vote_id : id32; av_proposal_id : id32; av_attestor_id : id32; av_approved : bool;
  av_vote_hash : id32; av_epoch : Z; av_signature : option SignatureEnvelope }.
Module BatchAttestationVote.
(* @src src/poseq/src/attestations/collector.rs:61-76 BatchAttestationVote::compute_vote_hash *)
Definition compute_vote_hash `{Sha256} (proposal attestor : id32) (approved : bool) (epoch : Z) : id32 :=
  sha256 (be_bytes 32 proposal ++ be_bytes 32 attestor ++ [Z.b2z approved] ++ be_bytes 8 epoch).
(* @src src/poseq/src/attestations/collector.rs:19-36 BatchAttestationVote::new *)
Definition new `{Sha256} (proposal attestor : id32) (approved : bool) (epoch : Z) : BatchAttestationVote :=
  let h := compute_vote_hash proposal attestor approved epoch in
  mkAttestation h proposal attestor approved h epoch None.
(* @src src/poseq/src/attestations/collector.rs:39-59 BatchAttestationVote::new_signed *)
Definition new_signed `{Sha256, NodeEd25519} (proposal attestor : id32) (approved : bool) (epoch slot : Z)
    (batch : id32) (k : NodeKeyPair) : BatchAttestationVote :=
  let v := new proposal attestor approved epoch in
  mkAttestation (av_vote_id v) proposal attestor approved (av_vote_hash v) epoch
    (Some (NodeKeyPair.sign_attestation k (mkAttestationPayload attestor slot epoch batch approved))).
End BatchAttestationVote.

(* @src src/poseq/src/attestations/collector.rs:81-86 ConflictingAttestationRecord *)
Record ConflictingAttestationRecord : Type := mkConflict {
  cf_attestor_id : id32; first_vote_id : id32; second_vote_id : id32; conflict_type : string }.
(* @src src/poseq/src/attestations/collector.rs:90-93 AttestationThreshold *)
Record AttestationThreshold : Type := mkAttThreshold { min_approvals : nat; min_fraction_bps : Z }.
(* @src src/poseq/src/attestations/collector.rs:96-102 AttestationThreshold::two_thirds *)
Definition att_two_thirds (n : nat) : AttestationThreshold := mkAttThreshold ((n * 2 + 2) / 3)%nat 6667.
(* @src src/poseq/src/attestations/collector.rs:107-113 AttestationQuorumResult *)
Record AttestationQuorumResult : Type := mkQuorum {
  reached : bool; approvals : nat; rejections : nat; total_votes : nat; quorum_hash : id32 }.
(* @src src/poseq/src/attestations/collector.rs:116-126 AttestationQuorumResult::compute_hash *)
Definition quorum_result_hash `{Sha256} (proposal : id32) (approvals rejections total : nat) : id32 :=
  sha256 (be_bytes 32 proposal ++ be_bytes 8 (Z.of_nat approvals) ++ be_bytes 8 (Z.of_nat rejections) ++
    be_bytes 8 (Z.of_nat total)).

(* @src src/poseq/src/attestations/collector.rs:131-135 AttestationCollector *)
Record AttestationCollector : Type := mkCollector {
  ac_proposal_id : id32;
  votes : gmap Z BatchAttestationVote;
  ac_conflicts : list ConflictingAttestationRecord }.

Module AttestationCollector.
(* @src src/poseq/src/attestations/collector.rs:138-144 AttestationCollector::new *)
Definition new (proposal : id32) : AttestationCollector := mkCollector proposal ∅ [].

Definition conflicted (x : ConflictingAttestationRecord) (c : AttestationCollector)
  : AttestationCollector * outcome ConflictingAttestationRecord bool :=
  (mkCollector (ac_proposal_id c) (votes c) (ac_conflicts c ++ [x]), Err x).

(* @src src/poseq/src/attestations/collector.rs:172-192 AttestationCollector::add_vote *)
Definition add_vote (v : BatchAttestationVote) : M AttestationCollector ConflictingAttestationRecord bool := λ c,
  match votes c !! av_attestor_id v with
  | Some existing =>
      if bool_decide (av_approved existing = av_approved v) then (c, Ok false)
      else conflicted (mkConflict (av_attestor_id v) (av_vote_id existing) (av_vote_id v) "ApprovalFlip") c
  | None => (mkCollector (ac_proposal_id c) (<[av_attestor_id v := v]> (votes c)) (ac_conflicts c), Ok true)
  end.
(* @src src/poseq/src/attestations/collector.rs:150-167 AttestationCollector::add_vote_from_committee *)
Definition add_vote_from_committee (v : BatchAttestationVote) (committee : gset Z)
  : M AttestationCollector ConflictingAttestationRecord bool := λ c,
  if decide (av_attestor_id v ∉ committee)
  then conflicted (mkConflict (av_attestor_id v) 0 (av_vote_id v) "NonCommitteeMember") c
  else add_vote v c.
(* @src src/poseq/src/attestations/collector.rs:235-277 AttestationCollector::add_verified_vote *)
Definition add_verified_vote `{Sha256, NodeEd25519} (v : BatchAttestationVote) (committee : gset Z)
    (verifier : PoSeqVerifier) (slot : Z) (batch : id32)
  : M AttestationCollector ConflictingAttestationRecord bool := λ c,
  if decide (av_attestor_id v ∉ committee)
  then conflicted (mkConflict (av_attestor_id v) 0 (av_vote_id v) "NonCommitteeMember") c
  else
    match av_signature v with
    | Some env =>
        match PoSeqVerifier.verify_attestation verifier
                (mkAttestationPayload (av_attestor_id v) slot (av_epoch v) batch (av_approved v)) env with
        | Ok _ => add_vote v c
        | _ => conflicted (mkConflict (av_attestor_id v) 0 (av_vote_id v) "InvalidSignature") c
        end
    | None => add_vote v c
    end.

Definition count_votes (P : BatchAttestationVote → bool) (c : AttestationCollector) : nat :=
  length (filter (λ v, P v = true) (btree_values (votes c))).
(* @src src/poseq/src/attestations/collector.rs:194-228 AttestationCollector::check_quorum *)
Definition check_quorum `{Sha256} (c : AttestationCollector) (t : AttestationThreshold) (committee_size : nat)
  : AttestationQuorumResult :=
  let approvals := count_votes av_approved c in
  let rejections := count_votes (λ v, negb (av_approved v)) c in
  let total := size (votes c) in
  let fraction_ok :=
    if decide (committee_size = 0%nat) then false
    else bool_decide (wrapu 64 (min_fraction_bps t * Z.of_nat committee_size) ≤
                      wrapu 64 (Z.of_nat approvals * 10000)) in
  let count_ok := bool_decide (min_approvals t ≤ approvals)%nat in
  mkQuorum (fraction_ok && count_ok) approvals rejections total
    (quorum_result_hash (ac_proposal_id c) approvals rejections total).
(* @src src/poseq/src/attestations/collector.rs:279-281 AttestationCollector::has_conflicts *)
Definition has_conflicts (c : AttestationCollector) : bool := negb (bool_decide (ac_conflicts c = [])).
End AttestationCollector.

(** ** Finalization *)

(* @src src/poseq/src/finalization/engine.rs:8-20 FinalizedBatch *)
Record FinalizedBatch : Type := mkFinalized {
  fb_batch_id : id32;
  fb_proposal_id : id32;
  fb_slot : Z;
  fb_epoch : Z;
  fb_leader_id : id32;
  fb_ordered_submission_ids : list id32;
  fb_batch_root : id32;
  fb_parent_batch_id : id32;
  finalized_at_height : Z;
  quorum_summary : AttestationQuorumResult;
  finalization_hash : id32 }.
(* @src src/poseq/src/finalization/engine.rs:24-47 FinalizedBatch::compute_finalization_hash *)
Definition finalization_preimage (proposal : id32) (slot epoch : Z) (leader root parent : id32)
    (height : Z) (quorum : id32) : bytes :=
  be_bytes 32 proposal ++ be_bytes 8 slot ++ be_bytes 8 epoch ++ be_bytes 32 leader ++
  be_bytes 32 root ++ be_bytes 32 parent ++ be_bytes 8 height ++ be_bytes 32 quorum.
(* @src src/poseq/src/finalization/engine.rs:57-69 FinalizationDecision *)
Inductive FinalizationDecision : Type :=
| Finalized (b : FinalizedBatch)
| InsufficientAttestations
| ConflictDetected (s : string)
| AlreadyFinalized
| SlotAlreadyFinalized (slot epoch : Z) (existing_proposal_id : id32).
(* @src src/poseq/src/finalization/engine.rs:75-81 FinalizationEngine *)
Record FinalizationEngine : Type := mkFinEngine {
  finalized_proposals : gset Z;
  finalized_slots : gmap (Z * Z) Z }.
Module FinalizationEngine.
(* @src src/poseq/src/finalization/engine.rs:84-89 FinalizationEngine::new *)
Definition new : FinalizationEngine := mkFinEngine ∅ ∅.
(** The batch that a quorum makes of a proposal. *)
(* @src src/poseq/src/finalization/engine.rs:129-153 FinalizationEngine::finalize *)
Definition batch_of `{Sha256} (p : ProposedBatch) (height : Z) (q : AttestationQuorumResult) : FinalizedBatch :=
  let h := sha256 (finalization_preimage (pb_proposal_id p) (pb_slot p) (pb_epoch p) (pb_leader_id p)
             (pb_batch_root p) (pb_parent_batch_id p) height (quorum_hash q)) in
  mkFinalized h (pb_proposal_id p) (pb_slot p) (pb_epoch p) (pb_leader_id p)
    (pb_ordered_submission_ids p) (pb_batch_root p) (pb_parent_batch_id p) height q h.
(* @src src/poseq/src/finalization/engine.rs:92-158 FinalizationEngine::finalize *)
Definition finalize `{Sha256} (p : ProposedBatch) (c : AttestationCollector) (t : AttestationThreshold)
    (committee_size : nat) (height : Z) (e : FinalizationEngine)
  : FinalizationEngine * FinalizationDecision :=
  if decide (pb_proposal_id p ∈ finalized_proposals e) then (e, AlreadyFinalized)
  else
    let slot_key := (pb_slot p, pb_epoch p) in
    match finalized_slots e !! slot_key with
    | Some existing => (e, SlotAlreadyFinalized (pb_slot p) (pb_epoch p) existing)
    | None =>
        if AttestationCollector.has_conflicts c
        then (e, ConflictDetected (pretty (Z.of_nat (length (ac_conflicts c))) +:+
                                   " conflicting votes detected"))
        else
          let quorum := AttestationCollector.check_quorum c t committee_size in
          if negb (reached quorum) then (e, InsufficientAttestations)
          else
            (mkFinEngine ({[ pb_proposal_id p ]} ∪ finalized_proposals e)
               (<[slot_key := pb_proposal_id p]> (finalized_slots e)),
             Finalized (batch_of p height quorum))
    end.
End FinalizationEngine.

(** ** Conflicts *)

(* @src src/poseq/src/conflicts/detector.rs:8-14 IncidentType *)
Inductive IncidentType : Type :=
| DualProposal | InvalidProposer | DuplicateFinalization | AttestationEquivocation | ReplayedProposal.
Definition incident_text (t : IncidentType) : string :=
  match t with
  | DualProposal => "DualProposal" | InvalidProposer => "InvalidProposer"
  | DuplicateFinalization => "DuplicateFinalization"
  | AttestationEquivocation => "AttestationEquivocation" | ReplayedProposal => "ReplayedProposal"
  end.
(** The entries of a [BTreeMap<String, String>] in order. *)
Definition text_entries (m : gmap string string) : list (string * string) :=
  sort_by (λ a b, String.compare a.1 b.1) (map_to_list m).
(* @src src/poseq/src/conflicts/detector.rs:18-23 EquivocationIncident *)
Record EquivocationIncident : Type := mkIncident {
  incident_id : id32; incident_type : IncidentType; detected_at_height : Z;
  evidence : gmap string string }.
Module EquivocationIncident.
(* @src src/poseq/src/conflicts/detector.rs:40-56 EquivocationIncident::compute_id *)
Definition compute_id `{Sha256} (t : IncidentType) (height : Z) (ev : gmap string string) : id32 :=
  sha256 (string_bytes (incident_text t) ++ be_bytes 8 height ++
    concat ((λ p, string_bytes p.1 ++ string_bytes p.2) <$> text_entries ev)).
(* @src src/poseq/src/conflicts/detector.rs:26-38 EquivocationIncident::new *)
Definition new `{Sha256} (t : IncidentType) (height : Z) (ev : gmap string string) : EquivocationIncident :=
  mkIncident (compute_id t height ev) t height ev.
End EquivocationIncident.

(* @src src/poseq/src/conflicts/detector.rs:61-65 SequencingMisbehaviorRecord *)
Record SequencingMisbehaviorRecord : Type := mkMisbehavior {
  mr_node_id : id32; mr_incidents : list EquivocationIncident; total_incidents : nat }.
(* @src src/poseq/src/conflicts/detector.rs:68-74 SequencingMisbehaviorRecord::new *)
Definition new_misbehavior (node : id32) : SequencingMisbehaviorRecord := mkMisbehavior node [] 0.
(* @src src/poseq/src/conflicts/detector.rs:76-79 SequencingMisbehaviorRecord::record *)
Definition record_misbehavior (i : EquivocationIncident) (r : SequencingMisbehaviorRecord)
  : SequencingMisbehaviorRecord :=
  mkMisbehavior (mr_node_id r) (mr_incidents r ++ [i]) (S (total_incidents r)).

(* @src src/poseq/src/conflicts/detector.rs:93-99 ConflictDetector *)
Record ConflictDetector : Type := mkDetector {
  seen_proposals : gmap (Z * Z) (Z * Z);
  cd_incidents : list EquivocationIncident;
  misbehavior : gmap Z SequencingMisbehaviorRecord }.
Module ConflictDetector.
(* @src src/poseq/src/conflicts/detector.rs:102-108 ConflictDetector::new *)
Definition new : ConflictDetector := mkDetector ∅ [] ∅.
(* @src src/poseq/src/conflicts/detector.rs:188-194 ConflictDetector::record_incident *)
Definition record_incident (node : id32) (i : EquivocationIncident) (d : ConflictDetector) : ConflictDetector :=
  mkDetector (seen_proposals d) (cd_incidents d ++ [i])
    (<[node := record_misbehavior i (default (new_misbehavior node) (misbehavior d !! node))]> (misbehavior d)).
(* @src src/poseq/src/conflicts/detector.rs:112-170 ConflictDetector::check_proposal *)
Definition check_proposal `{Sha256, Hex} (slot epoch : Z) (leader proposal : id32) (committee : PoSeqCommittee)
    (height : Z) (d : ConflictDetector) : ConflictDetector * option EquivocationIncident :=
  if negb (PoSeqCommittee.is_member committee leader) then
    let i := EquivocationIncident.new InvalidProposer height
      {["slot" := pretty slot; "epoch" := pretty epoch; "leader_id" := hex_encode leader]} in
    (record_incident leader i d, Some i)
  else
    match seen_proposals d !! (slot, epoch) with
    | Some (existing_leader, existing_proposal) =>
        if decide (existing_proposal ≠ proposal) then
          let i := EquivocationIncident.new DualProposal height
            {["slot" := pretty slot; "epoch" := pretty epoch;
              "first_proposal" := hex_encode existing_proposal; "second_proposal" := hex_encode proposal;
              "existing_leader" := hex_encode existing_leader; "new_leader" := hex_encode leader]} in
          (record_incident leader i d, Some i)
        else
          let i := EquivocationIncident.new ReplayedProposal height {["proposal_id" := hex_encode proposal]} in
          (mkDetector (seen_proposals d) (cd_incidents d ++ [i]) (misbehavior d), Some i)
    | None =>
        (mkDetector (<[(slot, epoch) := (leader, proposal)]> (seen_proposals d)) (cd_incidents d)
           (misbehavior d), None)
    end.
(* @src src/poseq/src/conflicts/detector.rs:173-181 ConflictDetector::check_leader_authority *)
Definition check_leader_authority (leader : id32) (selected : LeaderSelector.SelectedLeader) : bool :=
  bool_decide (leader = LeaderSelector.sl_node_id selected).
End ConflictDetector.

(** ** Replay guards *)

(** The guards' keys are ids here. *)
(* @src src/poseq/src/replay/guard.rs:8-13 ReplayGuard *)
Record ReplayGuard : Type := mkGuard {
  seen : gset Z; insertion_order : gmap Z Z; next_seq : Z; capacity : nat }.
Module ReplayGuard.
(* @src src/poseq/src/replay/guard.rs:16-23 ReplayGuard::new *)
Definition new (capacity : nat) : ReplayGuard := mkGuard ∅ ∅ 0 capacity.
(* @src src/poseq/src/replay/guard.rs:33-38 ReplayGuard::check_and_record *)
Definition evict (g : ReplayGuard) : ReplayGuard :=
  if decide (0 < capacity g ∧ capacity g ≤ size (seen g))%nat then
    match btree_list (insertion_order g) with
    | (seq, key) :: _ => mkGuard (seen g ∖ {[ key ]}) (delete seq (insertion_order g)) (next_seq g) (capacity g)
    | [] => g
    end
  else g.
(* @src src/poseq/src/replay/guard.rs:27-45 ReplayGuard::check_and_record *)
Definition check_and_record (key : Z) (g : ReplayGuard) : ReplayGuard * bool :=
  if decide (key ∈ seen g) then (g, false)
  else
    let g := evict g in
    (mkGuard ({[ key ]} ∪ seen g) (<[next_seq g := key]> (insertion_order g))
       (wrapu 64 (next_seq g + 1)) (capacity g), true).
(* @src src/poseq/src/replay/guard.rs:47-49 ReplayGuard::contains *)
Definition contains (g : ReplayGuard) (key : Z) : bool := bool_decide (key ∈ seen g).
(* @src src/poseq/src/replay/guard.rs:51-53 ReplayGuard::len *)
Definition len (g : ReplayGuard) : nat := size (seen g).
(* @src src/poseq/src/replay/guard.rs:55-57 ReplayGuard::is_empty *)
Definition is_empty (g : ReplayGuard) : bool := bool_decide (seen g = ∅).
End ReplayGuard.
(** Two wrappers, for proposals and for acks, forward to the guard. *)
(* @src src/poseq/src/replay/guard.rs:61-79 ProposalReplayGuard *)
Abbreviation ProposalReplayGuard := ReplayGuard.
(* @src src/poseq/src/replay/guard.rs:82-100 AckReplayGuard *)
Abbreviation AckReplayGuard := ReplayGuard.

(** ** Delivery to the runtime *)

(* @src src/poseq/src/bridge/hardened.rs:8-17 RuntimeDeliveryEnvelope *)
Record RuntimeDeliveryEnvelope : Type := mkDelivery {
  dl_delivery_id : id32; dl_batch_id : id32; dl_slot : Z; dl_epoch : Z;
  dl_ordered_submission_ids : list id32; dl_batch_root : id32; dl_attempt_count : Z;
  delivery_hash : id32 }.
Module RuntimeDeliveryEnvelope.
(* @src src/poseq/src/bridge/hardened.rs:20-28 RuntimeDeliveryEnvelope::compute_delivery_id *)
Definition compute_delivery_id `{Sha256} (batch : id32) (attempt : Z) : id32 :=
  sha256 (be_bytes 32 batch ++ be_bytes 4 attempt).
(* @src src/poseq/src/bridge/hardened.rs:30-38 RuntimeDeliveryEnvelope::compute_delivery_hash *)
Definition compute_delivery_hash `{Sha256} (delivery batch : id32) : id32 :=
  sha256 (be_bytes 32 delivery ++ be_bytes 32 batch).
(* @src src/poseq/src/bridge/hardened.rs:40-53 RuntimeDeliveryEnvelope::build *)
Definition build `{Sha256} (b : FinalizedBatch) (attempt : Z) : RuntimeDeliveryEnvelope :=
  let d := compute_delivery_id (fb_batch_id b) attempt in
  mkDelivery d (fb_batch_id b) (fb_slot b) (fb_epoch b) (fb_ordered_submission_ids b) (fb_batch_root b)
    attempt (compute_delivery_hash d (fb_batch_id b)).
End RuntimeDeliveryEnvelope.

(* @src src/poseq/src/bridge/hardened.rs:58-64 RuntimeExecutionAck *)
Record RuntimeExecutionAck : Type := mkAck {
  ak_batch_id : id32; ak_delivery_id : id32; ak_accepted : bool; ak_epoch : Z; ack_hash : id32 }.
(* @src src/poseq/src/bridge/hardened.rs:67-82 RuntimeExecutionAck::compute_ack_hash *)
Definition compute_ack_hash `{Sha256} (batch delivery : id32) (accepted : bool) (epoch : Z) : id32 :=
  sha256 (be_bytes 32 batch ++ be_bytes 32 delivery ++ [Z.b2z accepted] ++ be_bytes 8 epoch).
(* @src src/poseq/src/bridge/hardened.rs:84-87 RuntimeExecutionAck::new *)
Definition new_ack `{Sha256} (batch delivery : id32) (accepted : bool) (epoch : Z) : RuntimeExecutionAck :=
  mkAck batch delivery accepted epoch (compute_ack_hash batch delivery accepted epoch).
(* @src src/poseq/src/bridge/hardened.rs:92-97 RuntimeExecutionRejection *)
Record RuntimeExecutionRejection : Type := mkRejection {
  rj_batch_id : id32; rj_delivery_id : id32; rj_reason : string; rj_epoch : Z }.
(* @src src/poseq/src/bridge/hardened.rs:101-108 BridgeDeliveryRecord *)
Record BridgeDeliveryRecord : Type := mkDeliveryRecord {
  br_delivery_id : id32; br_batch_id : id32; br_delivered : bool; br_acked : bool; br_accepted : bool;
  br_attempt_count : Z }.
(* @src src/poseq/src/bridge/hardened.rs:111-115 HardenedRuntimeBridge *)
Record HardenedRuntimeBridge : Type := mkBridge {
  br_records : gmap Z BridgeDeliveryRecord;
  ack_replay_guard : gmap Z bool;
  br_rejections : list RuntimeExecutionRejection }.

Module HardenedRuntimeBridge.
(* @src src/poseq/src/bridge/hardened.rs:118-124 HardenedRuntimeBridge::new *)
Definition new : HardenedRuntimeBridge := mkBridge ∅ ∅ [].
Definition count_attempt (r : BridgeDeliveryRecord) : BridgeDeliveryRecord :=
  mkDeliveryRecord (br_delivery_id r) (br_batch_id r) (br_delivered r) (br_acked r) (br_accepted r)
    (sat_add 32 (br_attempt_count r) 1).
Definition set_answer (accepted : bool) (r : BridgeDeliveryRecord) : BridgeDeliveryRecord :=
  mkDeliveryRecord (br_delivery_id r) (br_batch_id r) (br_delivered r) true accepted (br_attempt_count r).
(* @src src/poseq/src/bridge/hardened.rs:129-150 HardenedRuntimeBridge::deliver *)
Definition deliver `{Sha256} (b : FinalizedBatch) (s : HardenedRuntimeBridge)
  : HardenedRuntimeBridge * RuntimeDeliveryEnvelope :=
  let envelope := RuntimeDeliveryEnvelope.build b 1 in
  match br_records s !! fb_batch_id b with
  | Some r =>
      (mkBridge (<[fb_batch_id b := count_attempt r]> (br_records s)) (ack_replay_guard s) (br_rejections s),
       envelope)
  | None =>
      (mkBridge (<[fb_batch_id b := mkDeliveryRecord (dl_delivery_id envelope) (fb_batch_id b) true false
                     false 1]> (br_records s)) (ack_replay_guard s) (br_rejections s), envelope)
  end.
(* @src src/poseq/src/bridge/hardened.rs:153-164 HardenedRuntimeBridge::record_ack *)
Definition record_ack (a : RuntimeExecutionAck) : M HardenedRuntimeBridge BridgeError () := λ s,
  if decide (is_Some (ack_replay_guard s !! ak_delivery_id a)) then (s, Err AckReplay)
  else
    (mkBridge (alter (set_answer (ak_accepted a)) (ak_batch_id a) (br_records s))
       (<[ak_delivery_id a := true]> (ack_replay_guard s)) (br_rejections s), Ok tt).
(* @src src/poseq/src/bridge/hardened.rs:167-173 HardenedRuntimeBridge::record_rejection *)
Definition record_rejection (r : RuntimeExecutionRejection) (s : HardenedRuntimeBridge) : HardenedRuntimeBridge :=
  mkBridge (alter (set_answer false) (rj_batch_id r) (br_records s)) (ack_replay_guard s)
    (br_rejections s ++ [r]).
(* @src src/poseq/src/bridge/hardened.rs:175-177 HardenedRuntimeBridge::is_delivered *)
Definition is_delivered (s : HardenedRuntimeBridge) (b : id32) : bool :=
  default false (br_delivered <$> br_records s !! b).
(* @src src/poseq/src/bridge/hardened.rs:179-181 HardenedRuntimeBridge::is_acked *)
Definition is_acked (s : HardenedRuntimeBridge) (b : id32) : bool :=
  default false (br_acked <$> br_records s !! b).
(* @src src/poseq/src/bridge/hardened.rs:183-185 HardenedRuntimeBridge::get_record *)
Definition get_record (s : HardenedRuntimeBridge) (b : id32) : option BridgeDeliveryRecord := br_records s !! b.
End HardenedRuntimeBridge.

(** ** Commitments and receipts *)

(* @src src/poseq/src/commitment/hash.rs:6-9 BatchHashBuilder *)
Record BatchHashBuilder : Type := mkHashBuilder {
  submission_ids : list id32; header_fields : list (string * bytes) }.
(* @src src/poseq/src/commitment/hash.rs:77-81 CanonicalBatchDigest *)
Record CanonicalBatchDigest : Type := mkDigest {
  submissions_root : id32; dg_header_hash : id32; digest : id32 }.
Module BatchHashBuilder.
(* @src src/poseq/src/commitment/hash.rs:12-17 BatchHashBuilder::new *)
Definition new : BatchHashBuilder := mkHashBuilder [] [].
(* @src src/poseq/src/commitment/hash.rs:19-22 BatchHashBuilder::add_submission_id *)
Definition add_submission_id (i : id32) (b : BatchHashBuilder) : BatchHashBuilder :=
  mkHashBuilder (submission_ids b ++ [i]) (header_fields b).
(* @src src/poseq/src/commitment/hash.rs:24-27 BatchHashBuilder::add_header_field *)
Definition add_header_field (k : string) (v : bytes) (b : BatchHashBuilder) : BatchHashBuilder :=
  mkHashBuilder (submission_ids b) (header_fields b ++ [(k, v)]).
(* @src src/poseq/src/commitment/hash.rs:29-66 BatchHashBuilder::finalize *)
Definition finalize `{Sha256} (b : BatchHashBuilder) : CanonicalBatchDigest :=
  let root := sha256 (id_list_bytes (merge_sort Z.le (submission_ids b))) in
  let fields := sort_by (λ a b, String.compare a.1 b.1) (header_fields b) in
  let header := sha256 (concat ((λ f, string_bytes f.1 ++ f.2) <$> fields)) in
  mkDigest root header (sha256 (be_bytes 32 root ++ be_bytes 32 header)).
End BatchHashBuilder.

(* @src src/poseq/src/commitment/hash.rs:85-92 BatchCommitment *)
Record BatchCommitment : Type := mkCommitment {
  ordered_submissions_root : id32; cm_header_hash : id32; cm_policy_version : Z;
  parent_reference : id32; attestation_summary_hash : id32; commitment_hash : id32 }.
(* @src src/poseq/src/commitment/hash.rs:96-132 BatchCommitment::compute *)
Definition compute_commitment `{Sha256} (p : ProposedBatch) (q : AttestationQuorumResult) : BatchCommitment :=
  let root := ProposedBatch.compute_root (pb_ordered_submission_ids p) in
  let header := sha256 (be_bytes 8 (pb_slot p) ++ be_bytes 8 (pb_epoch p) ++ be_bytes 32 (pb_leader_id p) ++
                        be_bytes 4 (pb_policy_version p)) in
  mkCommitment root header (pb_policy_version p) (pb_parent_batch_id p) (quorum_hash q)
    (sha256 (be_bytes 32 root ++ be_bytes 32 header ++ be_bytes 4 (pb_policy_version p) ++
             be_bytes 32 (pb_parent_batch_id p) ++ be_bytes 32 (quorum_hash q))).

(* @src src/poseq/src/receipts/lifecycle.rs:6-12 ExportStatus *)
Inductive ExportStatus : Type := ExPending | ExDelivered | ExAcknowledged | ExRejected | ExFailed.
(* @src src/poseq/src/receipts/lifecycle.rs:16-26 FinalizationReceipt *)
Record FinalizationReceipt : Type := mkFinReceipt {
  fr_batch_id : id32; fr_proposal_id : id32; fr_slot : Z; fr_epoch : Z; fr_leader_id : id32;
  fr_finalized_at_height : Z; fr_quorum_summary : AttestationQuorumResult;
  commitment : BatchCommitment; export_status : ExportStatus }.
(* @src src/poseq/src/receipts/lifecycle.rs:30-37 DeliveryReceipt *)
Record DeliveryReceipt : Type := mkDeliveryReceipt {
  dr_batch_id : id32; dr_delivery_id : id32; dr_attempt_count : Z; dr_acked : bool; dr_accepted : bool;
  rejection_reason : option string }.
(* @src src/poseq/src/receipts/lifecycle.rs:41-47 BatchLifecycleAuditRecord *)
Record BatchLifecycleAuditRecord : Type := mkAudit {
  au_batch_id : id32; au_proposal_id : id32; finalization_receipt : FinalizationReceipt;
  delivery_receipt : option DeliveryReceipt; incident_ids : list id32 }.

(** ** The store *)

(** What the trait promises; the theorems about the node use these equations. *)
(* @src src/poseq/src/persistence/store.rs:25-32 InMemoryBatchLifecycleStore *)
Record BatchLifecycleStore : Type := mkLifecycle {
  proposed_batches : gmap Z ProposedBatch;
  finalized_batches : gmap Z FinalizedBatch;
  attestation_collectors : gmap Z AttestationCollector;
  exported : gmap Z bool;
  acked : gmap Z bool;
  ls_incidents : list EquivocationIncident }.
Module BatchLifecycleStore.
(* @src src/poseq/src/persistence/store.rs:35-44 InMemoryBatchLifecycleStore::new *)
Definition new : BatchLifecycleStore := mkLifecycle ∅ ∅ ∅ ∅ ∅ [].
(* @src src/poseq/src/persistence/store.rs:54-56 InMemoryBatchLifecycleStore::store_proposed_batch *)
Definition store_proposed_batch (b : ProposedBatch) (s : BatchLifecycleStore) : BatchLifecycleStore :=
  mkLifecycle (<[pb_proposal_id b := b]> (proposed_batches s)) (finalized_batches s)
    (attestation_collectors s) (exported s) (acked s) (ls_incidents s).
(* @src src/poseq/src/persistence/store.rs:58-60 InMemoryBatchLifecycleStore::get_proposed_batch *)
Definition get_proposed_batch (s : BatchLifecycleStore) (i : id32) : option ProposedBatch :=
  proposed_batches s !! i.
(* @src src/poseq/src/persistence/store.rs:62-64 InMemoryBatchLifecycleStore::store_finalized_batch *)
Definition store_finalized_batch (b : FinalizedBatch) (s : BatchLifecycleStore) : BatchLifecycleStore :=
  mkLifecycle (proposed_batches s) (<[fb_batch_id b := b]> (finalized_batches s))
    (attestation_collectors s) (exported s) (acked s) (ls_incidents s).
(* @src src/poseq/src/persistence/store.rs:66-68 InMemoryBatchLifecycleStore::get_finalized_batch *)
Definition get_finalized_batch (s : BatchLifecycleStore) (i : id32) : option FinalizedBatch :=
  finalized_batches s !! i.
(** Writing through [get_attestation_collector_mut] is storing the changed collector. *)
(* @src src/poseq/src/persistence/store.rs:70-80 InMemoryBatchLifecycleStore::store_attestation_collector *)
Definition store_attestation_collector (i : id32) (c : AttestationCollector) (s : BatchLifecycleStore)
  : BatchLifecycleStore :=
  mkLifecycle (proposed_batches s) (finalized_batches s) (<[i := c]> (attestation_collectors s))
    (exported s) (acked s) (ls_incidents s).
(* @src src/poseq/src/persistence/store.rs:74-76 InMemoryBatchLifecycleStore::get_attestation_collector *)
Definition get_attestation_collector (s : BatchLifecycleStore) (i : id32) : option AttestationCollector :=
  attestation_collectors s !! i.
(* @src src/poseq/src/persistence/store.rs:82-84 InMemoryBatchLifecycleStore::mark_exported *)
Definition mark_exported (i : id32) (s : BatchLifecycleStore) : BatchLifecycleStore :=
  mkLifecycle (proposed_batches s) (finalized_batches s) (attestation_collectors s)
    (<[i := true]> (exported s)) (acked s) (ls_incidents s).
(* @src src/poseq/src/persistence/store.rs:86-88 InMemoryBatchLifecycleStore::mark_acked *)
Definition mark_acked (i : id32) (a : bool) (s : BatchLifecycleStore) : BatchLifecycleStore :=
  mkLifecycle (proposed_batches s) (finalized_batches s) (attestation_collectors s)
    (exported s) (<[i := a]> (acked s)) (ls_incidents s).
(* @src src/poseq/src/persistence/store.rs:90-92 InMemoryBatchLifecycleStore::is_exported *)
Definition is_exported (s : BatchLifecycleStore) (i : id32) : bool := default false (exported s !! i).
(* @src src/poseq/src/persistence/store.rs:94-96 InMemoryBatchLifecycleStore::is_acked *)
Definition is_acked (s : BatchLifecycleStore) (i : id32) : bool := default false (acked s !! i).
(* @src src/poseq/src/persistence/store.rs:102-104 InMemoryBatchLifecycleStore::record_incident *)
Definition record_incident (i : EquivocationIncident) (s : BatchLifecycleStore) : BatchLifecycleStore :=
  mkLifecycle (proposed_batches s) (finalized_batches s) (attestation_collectors s)
    (exported s) (acked s) (ls_incidents s ++ [i]).
End BatchLifecycleStore.

(** ** The node *)

(* @src src/poseq/src/node/sequencer_node.rs:18-29 Phase2PoSeqNode *)
Record Phase2PoSeqNode : Type := mkSeqNode {
  sn_identity : NodeIdentity;
  sn_committee : PoSeqCommittee;
  leader_selection_policy : LeaderSelector.LeaderSelectionPolicy;
  attestation_threshold : AttestationThreshold;
  sn_store : BatchLifecycleStore;
  conflict_detector : ConflictDetector;
  sn_bridge : HardenedRuntimeBridge;
  finalization_engine : FinalizationEngine;
  proposal_replay : ProposalReplayGuard;
  ack_replay : AckReplayGuard }.

Definition with_parts (store : BatchLifecycleStore) (d : ConflictDetector) (br : HardenedRuntimeBridge)
    (e : FinalizationEngine) (g : ProposalReplayGuard) (n : Phase2PoSeqNode) : Phase2PoSeqNode :=
  mkSeqNode (sn_identity n) (sn_committee n) (leader_selection_policy n) (attestation_threshold n)
    store d br e g (ack_replay n).

Module Phase2PoSeqNode.
Section node.
Context `{Sha256, Hex}.

(* @src src/poseq/src/node/sequencer_node.rs:32-50 Phase2PoSeqNode::new *)
Definition new (identity : NodeIdentity) (committee : PoSeqCommittee)
    (policy : LeaderSelector.LeaderSelectionPolicy) (threshold : AttestationThreshold) : Phase2PoSeqNode :=
  mkSeqNode identity committee policy threshold BatchLifecycleStore.new ConflictDetector.new
    HardenedRuntimeBridge.new FinalizationEngine.new (ReplayGuard.new 0) (ReplayGuard.new 0).

(* @src src/poseq/src/node/sequencer_node.rs:54-113 Phase2PoSeqNode::propose_batch *)
Definition propose_batch (slot epoch height : Z) (ids : list id32) (parent : id32) (policy_version : Z)
  : M Phase2PoSeqNode ProposalError ProposedBatch := λ n,
  match LeaderSelector.select slot epoch (sn_committee n) (leader_selection_policy n) with
  | None => (n, Err InvalidSlot)
  | Some selected =>
      if decide (LeaderSelector.sl_node_id selected ≠ node_id (sn_identity n)) then (n, Err NotLeader)
      else
        let '(detector, incident) := ConflictDetector.check_proposal slot epoch (node_id (sn_identity n))
          (ProposedBatch.compute_root ids) (sn_committee n) height (conflict_detector n) in
        let n := with_parts (sn_store n) detector (sn_bridge n) (finalization_engine n) (proposal_replay n) n in
        match incident with
        | Some i =>
            (n, Err (match incident_type i with
                     | DualProposal | ReplayedProposal => AlreadyProposed
                     | InvalidProposer => NotLeader
                     | _ => InvalidSlot
                     end))
        | None =>
            let batch := ProposedBatch.new slot epoch (node_id (sn_identity n)) ids parent policy_version height in
            let '(guard, fresh) := ReplayGuard.check_and_record (pb_proposal_id batch) (proposal_replay n) in
            let n := with_parts (sn_store n) detector (sn_bridge n) (finalization_engine n) guard n in
            if negb fresh then (n, Err AlreadyProposed)
            else
              let store := BatchLifecycleStore.store_proposed_batch batch
                (BatchLifecycleStore.store_attestation_collector (pb_proposal_id batch)
                   (AttestationCollector.new (pb_proposal_id batch)) (sn_store n)) in
              (with_parts store detector (sn_bridge n) (finalization_engine n) guard n, Ok batch)
        end
  end.

(* @src src/poseq/src/node/sequencer_node.rs:116-138 Phase2PoSeqNode::submit_attestation *)
Definition submit_attestation (v : BatchAttestationVote) : M Phase2PoSeqNode AttestationError () := λ n,
  match BatchLifecycleStore.get_proposed_batch (sn_store n) (av_proposal_id v) with
  | None => (n, Err AtProposalNotFound)
  | Some _ =>
      if negb (PoSeqCommittee.is_member (sn_committee n) (av_attestor_id v)) then (n, Err NotEligible)
      else
        match BatchLifecycleStore.get_attestation_collector (sn_store n) (av_proposal_id v) with
        | None => (n, Err AtProposalNotFound)
        | Some c =>
            let '(c, r) := AttestationCollector.add_vote v c in
            (with_parts (BatchLifecycleStore.store_attestation_collector (av_proposal_id v) c (sn_store n))
               (conflict_detector n) (sn_bridge n) (finalization_engine n) (proposal_replay n) n,
             match r with Ok _ => Ok tt | Err _ => Err ConflictingVote | Panic => Panic end)
        end
  end.

(* @src src/poseq/src/node/sequencer_node.rs:141-166 Phase2PoSeqNode::try_finalize *)
Definition try_finalize (proposal : id32) (height : Z) (n : Phase2PoSeqNode)
  : Phase2PoSeqNode * FinalizationDecision :=
  match BatchLifecycleStore.get_proposed_batch (sn_store n) proposal,
        BatchLifecycleStore.get_attestation_collector (sn_store n) proposal with
  | Some proposed, Some c =>
      let '(engine, decision) := FinalizationEngine.finalize proposed c (attestation_threshold n)
        (PoSeqCommittee.quorum_size (sn_committee n)) height (finalization_engine n) in
      let store := match decision with
                   | Finalized b => BatchLifecycleStore.store_finalized_batch b (sn_store n)
                   | _ => sn_store n
                   end in
      (with_parts store (conflict_detector n) (sn_bridge n) engine (proposal_replay n) n, decision)
  | _, _ => (n, InsufficientAttestations)
  end.

(* @src src/poseq/src/node/sequencer_node.rs:169-179 Phase2PoSeqNode::export_to_runtime *)
Definition export_to_runtime (batch : id32) : M Phase2PoSeqNode BridgeError RuntimeDeliveryEnvelope := λ n,
  match BatchLifecycleStore.get_finalized_batch (sn_store n) batch with
  | None => (n, Err DeliveryFailed)
  | Some fb =>
      let '(bridge, envelope) := HardenedRuntimeBridge.deliver fb (sn_bridge n) in
      (with_parts (BatchLifecycleStore.mark_exported batch (sn_store n)) (conflict_detector n) bridge
         (finalization_engine n) (proposal_replay n) n, Ok envelope)
  end.

(* @src src/poseq/src/node/sequencer_node.rs:182-191 Phase2PoSeqNode::record_runtime_ack *)
Definition record_runtime_ack (a : RuntimeExecutionAck) : M Phase2PoSeqNode BridgeError () := λ n,
  match HardenedRuntimeBridge.record_ack a (sn_bridge n) with
  | (bridge, Ok _) =>
      (with_parts (BatchLifecycleStore.mark_acked (ak_batch_id a) (ak_accepted a) (sn_store n))
         (conflict_detector n) bridge (finalization_engine n) (proposal_replay n) n, Ok tt)
  | (bridge, Err e) =>
      (with_parts (sn_store n) (conflict_detector n) bridge (finalization_engine n) (proposal_replay n) n, Err e)
  | (bridge, Panic) => (n, Panic)
  end.

(* @src src/poseq/src/node/sequencer_node.rs:194-249 Phase2PoSeqNode::get_lifecycle_audit *)
Definition get_lifecycle_audit (n : Phase2PoSeqNode) (batch : id32) : option BatchLifecycleAuditRecord :=
  fb ← BatchLifecycleStore.get_finalized_batch (sn_store n) batch;
  proposed ← BatchLifecycleStore.get_proposed_batch (sn_store n) (fb_proposal_id fb);
  let status :=
    if BatchLifecycleStore.is_acked (sn_store n) batch then ExAcknowledged
    else if BatchLifecycleStore.is_exported (sn_store n) batch then ExDelivered
    else ExPending in
  let receipt := mkFinReceipt (fb_batch_id fb) (fb_proposal_id fb) (fb_slot fb) (fb_epoch fb)
    (fb_leader_id fb) (finalized_at_height fb) (quorum_summary fb)
    (compute_commitment proposed (quorum_summary fb)) status in
  let delivery := r ← HardenedRuntimeBridge.get_record (sn_bridge n) batch;
    if br_delivered r
    then Some (mkDeliveryReceipt batch (br_delivery_id r) (br_attempt_count r) (br_acked r) (br_accepted r) None)
    else None in
  Some (mkAudit batch (fb_proposal_id fb) receipt delivery (incident_id <$> ls_incidents (sn_store n))).
End node.
End Phase2PoSeqNode.
