(* ===== verification/SequencingProps.v ===== *)
(** * What the sequencer node guarantees

    Theorems about Sequencing: the two-thirds rule, the window of a replay guard, and
    the runs of a node, in which at most one batch of a slot is finalized and only with
    the approvals of a quorum of members; and what the node accepts without a check. *)

From stdpp Require Import gmap strings list pretty sorting.
From S2P Require Import Prelude Concrete Sorting Slashing Membership Rotation Signatures Sequencing.

(** ** The two-thirds rule *)

Section quorum.
Context `{Sha256}.

Lemma two_thirds_bps (n a : Z) : 0 < n ≤ 10000 → 6667 * n ≤ a * 10000 ↔ 2 * n < 3 * a.
Proof. intros Hn. split; intros; lia. Qed.

(** a committee of up to ten thousand reaches the two-thirds threshold exactly when
    strictly more than two thirds of it approve: the fraction in basis points is a
    little more than two thirds, so that two approvals of three are not enough although
    the count alone would accept them. *)
Theorem two_thirds_strict c n :
  Z.of_nat n ≤ 10000 → (size (votes c) ≤ n)%nat →
  let q := AttestationCollector.check_quorum c (att_two_thirds n) n in
  reached q = true ↔ (2 * n < 3 * approvals q)%nat.
Proof.
  intros Hn Hv q. unfold q, AttestationCollector.check_quorum. cbn [reached approvals att_two_thirds
    min_fraction_bps min_approvals]. set (a := AttestationCollector.count_votes av_approved c).
  assert (a ≤ size (votes c))%nat as Ha.
  { unfold a, AttestationCollector.count_votes. etrans; [apply length_filter|].
    unfold btree_values. by rewrite length_fmap, btree_list_perm, length_map_to_list. }
  destruct (decide (n = 0%nat)) as [->|Hn0]; [cbn; split; [done|lia]|].
  rewrite !wrapu_id by (split; lia).
  rewrite andb_true_iff, !bool_decide_eq_true, two_thirds_bps by lia. split.
  - intros [? _]. lia.
  - intros Hlt. split; [lia|].
    apply Nat.lt_succ_r, Nat.Div0.div_lt_upper_bound. lia.
Qed.
End quorum.

(** ** The window of a replay guard *)

(** What the guard is a cache of: the keys it accepted, in order. *)
Definition guard_run (cap : nat) (keys : list Z) : ReplayGuard * list Z :=
  foldl (λ '(g, accepted) k,
    let '(g', fresh) := ReplayGuard.check_and_record k g in
    (g', if fresh then accepted ++ [k] else accepted)) (ReplayGuard.new cap, []) keys.
(** The last [cap] of a list; all of it for capacity zero. *)
Definition window (cap : nat) (l : list Z) : list Z :=
  if decide (cap = 0%nat) then l else drop (length l - cap) l.

(** The guard holds the window, numbered by the order of acceptance. *)
Record guards (cap : nat) (g : ReplayGuard) (accepted : list Z) : Prop := {
  gd_capacity : capacity g = cap;
  gd_next : next_seq g = Z.of_nat (length accepted);
  gd_seen : seen g = list_to_set (window cap accepted);
  gd_nodup : NoDup (window cap accepted);
  gd_order i k : insertion_order g !! i = Some k ↔
    ∃ j, i = Z.of_nat j ∧ accepted !! j = Some k ∧ (cap = 0 ∨ length accepted ≤ j + cap)%nat }.

Lemma window_length cap l : cap ≠ 0%nat → length (window cap l) = (length l `min` cap)%nat.
Proof. intros Hc. unfold window. rewrite decide_False by done. rewrite length_drop. lia. Qed.

Lemma drop_tail {A} m (l : list A) : drop (S m) l = tail (drop m l).
Proof. revert l. induction m as [|m IH]; intros [|x l]; try done. apply (IH l). Qed.

(** One more accepted key: the window slides. *)
Lemma window_snoc cap l k :
  window cap (l ++ [k]) =
  (if decide (cap = 0 ∨ length l < cap)%nat then window cap l else tail (window cap l)) ++ [k].
Proof.
  unfold window. destruct (decide (cap = 0%nat)) as [->|Hc]; [by rewrite decide_True by (by left)|].
  rewrite length_app. cbn. destruct (decide _) as [[?|Hl]|Hl]; [done| |].
  - replace (length l + 1 - cap)%nat with 0%nat by lia. replace (length l - cap)%nat with 0%nat by lia. done.
  - rewrite drop_app_le by lia. f_equal. replace (length l + 1 - cap)%nat with (S (length l - cap)) by lia.
    apply drop_tail.
Qed.

Lemma btree_list_head {A} (m : gmap Z A) i a l :
  btree_list m = (i, a) :: l → m !! i = Some a ∧ ∀ j, is_Some (m !! j) → i ≤ j.
Proof.
  intros E. split; [apply elem_of_btree_list; rewrite E; left|].
  intros j [b Hb]. apply elem_of_btree_list in Hb. rewrite E in Hb.
  pose proof (btree_list_sorted m) as Hs. rewrite E in Hs. apply StronglySorted_inv in Hs as [_ Hs].
  apply elem_of_cons in Hb as [[= -> _]|Hb]; [lia|]. exact (proj1 (Forall_forall _ _) Hs _ Hb).
Qed.

Lemma guards_size cap g l : guards cap g l → size (seen g) = length (window cap l).
Proof. intros []. by rewrite gd_seen0, size_list_to_set. Qed.

(** Eviction drops the head of a full window. *)
Lemma evict_seen cap g l :
  guards cap g l →
  seen (ReplayGuard.evict g) =
    list_to_set (if decide (cap = 0 ∨ length l < cap)%nat then window cap l else tail (window cap l)) ∧
  (∀ i k, insertion_order (ReplayGuard.evict g) !! i = Some k ↔
    ∃ j, i = Z.of_nat j ∧ l !! j = Some k ∧ (cap = 0 ∨ length l < j + cap)%nat) ∧
  next_seq (ReplayGuard.evict g) = next_seq g ∧ capacity (ReplayGuard.evict g) = cap.
Proof.
  intros Hg. pose proof (guards_size _ _ _ Hg) as Hsize. destruct Hg as [Hcap Hnext Hseen Hnd Hord].
  unfold ReplayGuard.evict. rewrite Hcap.
  destruct (decide (cap = 0%nat)) as [->|Hc].
  { rewrite decide_False by lia. rewrite decide_True by (by left). split_and!; try done.
    intros i k. rewrite Hord. naive_solver. }
  rewrite window_length in Hsize by done. destruct (decide (length l < cap)%nat) as [Hlt|Hge].
  - rewrite decide_False by lia. rewrite decide_True by (by right). split_and!; try done.
    intros i k. rewrite Hord. split; intros (j & -> & Hj & _); exists j; split_and!; try done; right; lia.
  - rewrite decide_True by lia. rewrite decide_False by lia.
    set (m := (length l - cap)%nat). assert (m < length l)%nat as Hm by lia.
    destruct (lookup_lt_is_Some_2 l m Hm) as [k0 Hk0].
    assert (insertion_order g !! Z.of_nat m = Some k0) as H0.
    { apply Hord. exists m. split_and!; [done..|]. right. lia. }
    destruct (btree_list (insertion_order g)) as [|[i k] rest] eqn:E.
    { apply elem_of_btree_list in H0. rewrite E in H0. by apply not_elem_of_nil in H0. }
    destruct (btree_list_head _ _ _ _ E) as [Hi Hmin].
    destruct (proj1 (Hord i k) Hi) as (j & -> & Hj & Hbound).
    pose proof (Hmin (Z.of_nat m) (ex_intro _ k0 H0)) as Hle.
    assert (j = m) as -> by (destruct Hbound; lia). assert (k = k0) as -> by congruence.
    unfold window in *. rewrite decide_False in * by done. fold m in Hseen, Hnd |- *.
    rewrite (drop_S l k0 m Hk0) in *. cbn [tail seen insertion_order next_seq capacity].
    apply NoDup_cons in Hnd as [Hnin _]. split_and!; try done.
    + rewrite Hseen. cbn [list_to_set]. apply set_eq. intros x. set_solver.
    + intros i' k'. destruct (decide (i' = Z.of_nat m)) as [->|Hne].
      * rewrite lookup_delete_eq. split; [done|]. intros (j & Ej & _ & ?). lia.
      * rewrite lookup_delete_ne by done. rewrite Hord.
        split; intros (j & -> & Hj' & Hb); exists j; split_and!; try done; right; lia.
Qed.

Lemma check_and_record_guards cap k g l :
  guards cap g l → Z.of_nat (S (length l)) < 2 ^ 64 →
  let r := ReplayGuard.check_and_record k g in
  r.2 = bool_decide (k ∉ window cap l) ∧ guards cap r.1 (if r.2 then l ++ [k] else l).
Proof.
  intros Hg Hlen. pose proof Hg as [Hcap Hnext Hseen Hnd Hord].
  unfold ReplayGuard.check_and_record. rewrite Hseen.
  destruct (decide (k ∈ (list_to_set (window cap l) : gset Z))) as [Hin|Hin];
    rewrite elem_of_list_to_set in Hin; cbn.
  { split; [symmetry; by apply bool_decide_eq_false; intros ?|done]. }
  split; [symmetry; by apply bool_decide_eq_true|].
  destruct (evict_seen _ _ _ Hg) as (Hs & Ho & Hn & Hc). split; cbn.
  - done.
  - rewrite Hn, Hnext, length_app. cbn. rewrite wrapu_id; [lia|split; lia].
  - rewrite Hs, window_snoc. apply set_eq. intros x. set_solver.
  - rewrite window_snoc. assert (∀ w, w = window cap l ∨ w = tail (window cap l) → NoDup (w ++ [k])) as Hw.
    { intros w Hw. apply NoDup_app. assert (NoDup w ∧ w ⊆ window cap l) as [Hndw Hsub].
      { destruct Hw as [->| ->]; [by split|]. destruct (window cap l) as [|x w']; [by split|].
        apply NoDup_cons in Hnd as [_ ?]. split; [done|]. cbn. set_solver. }
      split_and!; [done| |apply NoDup_singleton]. intros x Hx. rewrite list_elem_of_singleton. intros ->.
      by apply Hin, Hsub. }
    destruct (decide _); apply Hw; auto.
  - intros i k'. rewrite Hn, Hnext, length_app. cbn. destruct (decide (i = Z.of_nat (length l))) as [->|Hne].
    + rewrite lookup_insert_eq. split.
      * intros [= <-]. exists (length l). split_and!; [done|by apply list_lookup_middle|].
        destruct (decide (cap = 0%nat)); lia.
      * intros (j & Ej%Nat2Z.inj & Hj & _). subst j. rewrite list_lookup_middle in Hj by done. congruence.
    + rewrite lookup_insert_ne by done. rewrite Ho. split; intros (j & -> & Hj & Hb); exists j.
      * split_and!; [done|by apply lookup_app_l_Some|lia].
      * split_and!; [done| |lia]. apply lookup_app_Some in Hj as [Hj|[? Hj]]; [done|].
        apply list_lookup_singleton_Some in Hj as [? _]. lia.
Qed.

Lemma guard_run_ok cap keys :
  Z.of_nat (length keys) < 2 ^ 64 →
  let '(g, accepted) := guard_run cap keys in guards cap g accepted ∧ (length accepted ≤ length keys)%nat.
Proof.
  induction keys as [|k keys IH] using rev_ind; intros Hlen.
  { split; [|done]. split; cbn; try done.
    - unfold window. by destruct (decide _).
    - unfold window. destruct (decide _); [constructor|]. rewrite drop_nil. constructor.
    - intros i k. rewrite lookup_empty. split; [done|]. intros (j & _ & Hj & _). by rewrite lookup_nil in Hj. }
  rewrite length_app in Hlen. cbn in Hlen. unfold guard_run. rewrite foldl_app.
  fold (guard_run cap keys). cbn [foldl]. destruct (guard_run cap keys) as [g l].
  destruct IH as [Hg Hl]; [lia|].
  pose proof (check_and_record_guards cap k g l Hg ltac:(lia)) as Hc. cbn zeta in Hc.
  destruct (ReplayGuard.check_and_record k g) as [g' fresh]. cbn in Hc. destruct Hc as [_ Hg'].
  split; [done|]. rewrite length_app. destruct fresh; rewrite ?length_app; cbn; lia.
Qed.

(** a replay guard is the set of the last [capacity] keys it accepted, all of them
    when the capacity is zero: it lets a key pass exactly when the key is not among
    those, which are distinct; in particular an unlimited guard lets no key pass twice. *)
Theorem guard_is_window cap keys :
  Z.of_nat (length keys) < u64_max →
  let '(g, accepted) := guard_run cap keys in
  NoDup (window cap accepted) ∧
  (cap = 0%nat → NoDup accepted) ∧
  ∀ k, ReplayGuard.contains g k = bool_decide (k ∈ window cap accepted) ∧
       (ReplayGuard.check_and_record k g).2 = bool_decide (k ∉ window cap accepted).
Proof.
  intros Hlen. unfold umax in Hlen. pose proof (guard_run_ok cap keys ltac:(lia)) as Hrun.
  destruct (guard_run cap keys) as [g l]. destruct Hrun as [Hg Hl]. pose proof Hg as [_ _ Hseen Hnd _].
  split_and!; [done| |].
  - intros ->. unfold window in Hnd. by rewrite decide_True in Hnd by done.
  - intros k. split; [|by apply check_and_record_guards; [|lia]].
    unfold ReplayGuard.contains. rewrite Hseen. apply bool_decide_ext. apply elem_of_list_to_set.
Qed.

Lemma guard_is_window_witness :
  let '(g, accepted) := guard_run 2 [5; 6; 5; 7; 5; 6] in
  accepted = [5; 6; 7; 5; 6] ∧ (ReplayGuard.check_and_record 7 g).2 = true.
Proof.
  assert (Z.of_nat (length [5; 6; 5; 7; 5; 6]) < u64_max) as Hl by (vm_compute; reflexivity).
  pose proof (guard_is_window 2 [5; 6; 5; 7; 5; 6] Hl) as Hw.
  destruct (guard_run 2 [5; 6; 5; 7; 5; 6]) as [g accepted] eqn:E.
  assert (accepted = [5; 6; 7; 5; 6]) as -> by (apply (f_equal snd) in E; vm_compute in E; by symmetry).
  split; [reflexivity|]. rewrite (proj2 (proj2 (proj2 Hw) 7)). vm_compute. reflexivity.
Defined.

(** ** Runs of a node *)

Inductive seq_op : Type :=
| SPropose (slot epoch height : Z) (ids : list id32) (parent : id32) (policy_version : Z)
| SVote (v : BatchAttestationVote)
| SFinalize (proposal : id32) (height : Z)
| SExport (batch : id32)
| SAck (a : RuntimeExecutionAck).

Inductive seq_event : Type :=
| EvProposed (p : ProposedBatch)
| EvVoted (v : BatchAttestationVote)
| EvFlipped (v : BatchAttestationVote)
| EvFinalized (b : FinalizedBatch).

Section runs.
Context `{Sha256, Hex}.

(** One operation, with the event it makes. *)
Definition seq_step (op : seq_op) (n : Phase2PoSeqNode) : Phase2PoSeqNode * list seq_event :=
  match op with
  | SPropose slot epoch height ids parent pv =>
      let '(n, r) := Phase2PoSeqNode.propose_batch slot epoch height ids parent pv n in
      (n, match r with Ok p => [EvProposed p] | _ => [] end)
  | SVote v =>
      let '(n, r) := Phase2PoSeqNode.submit_attestation v n in
      (n, match r with Ok _ => [EvVoted v] | Err ConflictingVote => [EvFlipped v] | _ => [] end)
  | SFinalize proposal height =>
      let '(n, d) := Phase2PoSeqNode.try_finalize proposal height n in
      (n, match d with Finalized b => [EvFinalized b] | _ => [] end)
  | SExport batch => ((Phase2PoSeqNode.export_to_runtime batch n).1, [])
  | SAck a => ((Phase2PoSeqNode.record_runtime_ack a n).1, [])
  end.
Definition seq_run (n : Phase2PoSeqNode) (ops : list seq_op) : Phase2PoSeqNode * list seq_event :=
  foldl (λ '(n, log) op, let '(n', evs) := seq_step op n in (n', log ++ evs)) (n, []) ops.

Context (identity : NodeIdentity) (committee : PoSeqCommittee)
  (policy : LeaderSelector.LeaderSelectionPolicy) (threshold : AttestationThreshold).

(** What must have happened before a batch is finalized. *)
Record backed (before : list seq_event) (b : FinalizedBatch) : Prop := {
  bk_slot b' : EvFinalized b' ∈ before → (fb_slot b', fb_epoch b') ≠ (fb_slot b, fb_epoch b);
  bk_proposed : ∃ p height, EvProposed p ∈ before ∧
    b = FinalizationEngine.batch_of p height (quorum_summary b) ∧
    pb_leader_id p = node_id identity ∧
    LeaderSelector.sl_node_id <$> LeaderSelector.select (pb_slot p) (pb_epoch p) committee policy =
      Some (pb_leader_id p);
  bk_quorum : ∃ voters : gset Z,
    size voters = approvals (quorum_summary b) ∧ (min_approvals threshold ≤ size voters)%nat ∧
    wrapu 64 (min_fraction_bps threshold * Z.of_nat (PoSeqCommittee.quorum_size committee)) ≤
      wrapu 64 (Z.of_nat (size voters) * 10000) ∧
    ∀ i, i ∈ voters → PoSeqCommittee.is_member committee i = true ∧
      ∃ v, EvVoted v ∈ before ∧ av_attestor_id v = i ∧ av_approved v = true ∧
           av_proposal_id v = fb_proposal_id b;
  bk_unanimous v : EvFlipped v ∈ before → av_proposal_id v ≠ fb_proposal_id b }.

(** The state of a run, in terms of what it logged. *)
Record seq_inv (n : Phase2PoSeqNode) (log : list seq_event) : Prop := {
  si_identity : sn_identity n = identity;
  si_committee : sn_committee n = committee;
  si_policy : leader_selection_policy n = policy;
  si_threshold : attestation_threshold n = threshold;
  si_guard : capacity (proposal_replay n) = 0%nat;
  si_collectors p c : attestation_collectors (sn_store n) !! p = Some c →
    p ∈ seen (proposal_replay n) ∧
    ∀ i v, votes c !! i = Some v →
      av_attestor_id v = i ∧ av_proposal_id v = p ∧ PoSeqCommittee.is_member committee i = true ∧
      EvVoted v ∈ log;
  si_proposed p b : proposed_batches (sn_store n) !! p = Some b →
    pb_proposal_id b = p ∧ EvProposed b ∈ log ∧ pb_leader_id b = node_id identity ∧
    LeaderSelector.sl_node_id <$> LeaderSelector.select (pb_slot b) (pb_epoch b) committee policy =
      Some (pb_leader_id b);
  si_paired p : is_Some (proposed_batches (sn_store n) !! p) →
    is_Some (attestation_collectors (sn_store n) !! p);
  si_flipped v : EvFlipped v ∈ log →
    ∃ c, attestation_collectors (sn_store n) !! av_proposal_id v = Some c ∧
      AttestationCollector.has_conflicts c = true;
  si_slots b : EvFinalized b ∈ log → is_Some (finalized_slots (finalization_engine n) !! (fb_slot b, fb_epoch b));
  si_finalized l1 b l2 : log = l1 ++ EvFinalized b :: l2 → backed l1 b }.

Lemma seq_new_inv : seq_inv (Phase2PoSeqNode.new identity committee policy threshold) [].
Proof.
  split; try done.
  - intros p [b Hb]. cbn in Hb. by rewrite lookup_empty in Hb.
  - intros v Hv. by apply not_elem_of_nil in Hv.
  - intros b Hb. by apply not_elem_of_nil in Hb.
  - intros [|? ?] b l2 E; discriminate.
Qed.

(** Splitting a log that grew by at most one event. *)
Lemma log_split (log evs l1 l2 : list seq_event) x :
  (length evs ≤ 1)%nat → log ++ evs = l1 ++ x :: l2 →
  (l1 = log ∧ evs = [x]) ∨ ∃ l2', log = l1 ++ x :: l2'.
Proof.
  intros Hlen E. destruct evs as [|e [|]]; [rewrite app_nil_r in E; right; by exists l2| |cbn in Hlen; lia].
  destruct (decide (l2 = [])) as [->|Hne].
  - apply app_inj_tail in E as [-> ->]. by left.
  - right. destruct (exists_last Hne) as (l2' & y & ->). exists l2'.
    rewrite app_comm_cons, app_assoc in E. by apply app_inj_tail in E as [-> _].
Qed.

(** A log that grows by something other than a finalization or a flip. *)
Lemma quiet_backed (log evs : list seq_event) :
  (length evs ≤ 1)%nat → (∀ b, EvFinalized b ∉ evs) →
  (∀ l1 b l2, log = l1 ++ EvFinalized b :: l2 → backed l1 b) →
  ∀ l1 b l2, log ++ evs = l1 ++ EvFinalized b :: l2 → backed l1 b.
Proof.
  intros Hlen Hq Hold l1 b l2 E. apply log_split in E as [[-> ->]|[l2' ->]]; [|by eapply Hold|done].
  exfalso. apply (Hq b). left.
Qed.

Lemma events_app (log evs : list seq_event) x : x ∈ log → x ∈ log ++ evs.
Proof. rewrite elem_of_app. by left. Qed.
#[local] Hint Resolve events_app : core.

(** An operation that leaves the parts the invariant speaks of alone. *)
Lemma quiet_inv n n' log :
  seq_inv n log →
  sn_identity n' = sn_identity n → sn_committee n' = sn_committee n →
  leader_selection_policy n' = leader_selection_policy n →
  attestation_threshold n' = attestation_threshold n →
  proposed_batches (sn_store n') = proposed_batches (sn_store n) →
  attestation_collectors (sn_store n') = attestation_collectors (sn_store n) →
  finalization_engine n' = finalization_engine n →
  capacity (proposal_replay n') = capacity (proposal_replay n) →
  seen (proposal_replay n) ⊆ seen (proposal_replay n') →
  seq_inv n' log.
Proof.
  intros [] E1 E2 E3 E4 E5 E6 E7 E8 Hseen. split; rewrite ?E1, ?E2, ?E3, ?E4, ?E5, ?E6, ?E7, ?E8; try done.
  intros p c Hc. destruct (si_collectors0 p c Hc) as [Hp Hv]. split; [by apply Hseen|done].
Qed.

(** The voters a collector counts as approving. *)
Lemma approving_voters (log : list seq_event) p c :
  (∀ i v, votes c !! i = Some v → av_attestor_id v = i ∧ av_proposal_id v = p ∧
     PoSeqCommittee.is_member committee i = true ∧ EvVoted v ∈ log) →
  ∃ voters : gset Z,
    size voters = AttestationCollector.count_votes av_approved c ∧
    ∀ i, i ∈ voters → PoSeqCommittee.is_member committee i = true ∧
      ∃ v, EvVoted v ∈ log ∧ av_attestor_id v = i ∧ av_approved v = true ∧ av_proposal_id v = p.
Proof.
  intros Hc. set (l := filter (λ v, av_approved v = true) (btree_values (votes c))).
  assert (av_attestor_id <$> btree_values (votes c) = btree_keys (votes c)) as Hkeys.
  { unfold btree_values, btree_keys. rewrite <- list_fmap_compose. apply list_fmap_ext.
    intros j [i v] Hj%list_elem_of_lookup_2%elem_of_btree_list. cbn. by destruct (Hc _ _ Hj). }
  exists (list_to_set (av_attestor_id <$> l)). split.
  - rewrite size_list_to_set; [by rewrite length_fmap|].
    eapply sublist_NoDup; [|apply fmap_sublist, sublist_filter]. rewrite Hkeys. apply NoDup_btree_keys.
  - intros i Hi. apply elem_of_list_to_set, list_elem_of_fmap in Hi as (v & -> & Hv).
    apply list_elem_of_filter in Hv as [Ha Hv]. apply elem_of_btree_values in Hv as [i Hi].
    destruct (Hc _ _ Hi) as (<- & Hp & Hm & Hlog). eauto 10.
Qed.

Lemma evict_unlimited g : capacity g = 0%nat → ReplayGuard.evict g = g.
Proof. intros E. unfold ReplayGuard.evict. rewrite E. by destruct (decide _) as [[? _]|]; [lia|]. Qed.

Lemma propose_inv slot epoch height ids parent pv n log :
  seq_inv n log →
  let '(n', evs) := seq_step (SPropose slot epoch height ids parent pv) n in seq_inv n' (log ++ evs).
Proof.
  intros Hi. cbn [seq_step]. unfold Phase2PoSeqNode.propose_batch.
  destruct (LeaderSelector.select _ _ _ _) as [sel|] eqn:Esel; [|by rewrite app_nil_r].
  destruct (decide _) as [|Hlead]; [by rewrite app_nil_r|]. apply dec_stable in Hlead.
  destruct (ConflictDetector.check_proposal _ _ _ _ _ _ _) as [d [i|]].
  { rewrite app_nil_r. by eapply quiet_inv. }
  cbn [with_parts sn_identity sn_committee proposal_replay sn_store]. set (p := ProposedBatch.new _ _ _ _ _ _ _).
  unfold ReplayGuard.check_and_record. destruct (decide _) as [Hin|Hin]; cbn [negb].
  { rewrite app_nil_r. by eapply quiet_inv. }
  rewrite evict_unlimited by apply Hi. pose proof Hi as []. split; cbn; try done.
  - intros q c. destruct (decide (q = pb_proposal_id p)) as [->|Hne].
    + rewrite lookup_insert_eq. intros [= <-]. split; [set_solver|]. intros i v. cbn. by rewrite lookup_empty.
    + rewrite lookup_insert_ne by done. intros Hc. destruct (si_collectors0 q c Hc) as [Hq Hv].
      split; [set_solver|]. intros i v Hiv. destruct (Hv i v Hiv) as (? & ? & ? & ?). auto.
  - intros q b. destruct (decide (q = pb_proposal_id p)) as [->|Hne].
    + rewrite lookup_insert_eq. intros [= <-]. split_and!; [done| | |].
      * apply elem_of_app. right. left.
      * cbn. by rewrite si_identity0.
      * rewrite si_committee0, si_policy0 in Esel. cbn [p ProposedBatch.new pb_slot pb_epoch pb_leader_id].
        rewrite Esel. cbn. by rewrite Hlead.
    + rewrite lookup_insert_ne by done. intros Hb. destruct (si_proposed0 q b Hb) as (? & ? & ? & ?). auto.
  - intros q. destruct (decide (q = pb_proposal_id p)) as [->|Hne]; [rewrite !lookup_insert_eq; by eexists|].
    rewrite !lookup_insert_ne by done. apply si_paired0.
  - intros v. rewrite elem_of_app, list_elem_of_singleton. intros [Hv|?]; [|done].
    destruct (si_flipped0 v Hv) as (c & Hc & Hcf). exists c. split; [|done].
    destruct (decide (av_proposal_id v = pb_proposal_id p)) as [E|Hne]; [|by rewrite lookup_insert_ne].
    exfalso. apply Hin. rewrite <- E. by eapply si_collectors0.
  - intros b. rewrite elem_of_app, list_elem_of_singleton. intros [Hb|?]; [by apply si_slots0|done].
  - apply quiet_backed; [cbn; lia| |done]. intros b. by rewrite list_elem_of_singleton.
Qed.

(** A collector replaced by one that knows more. *)
Lemma collector_inv n log p c c' ev :
  seq_inv n log → attestation_collectors (sn_store n) !! p = Some c →
  (∀ i v, votes c' !! i = Some v →
     votes c !! i = Some v ∨
     (ev = EvVoted v ∧ av_attestor_id v = i ∧ av_proposal_id v = p ∧
      PoSeqCommittee.is_member committee i = true)) →
  (AttestationCollector.has_conflicts c = true → AttestationCollector.has_conflicts c' = true) →
  (∀ b, ev ≠ EvFinalized b) →
  (∀ v, ev = EvFlipped v → av_proposal_id v = p ∧ AttestationCollector.has_conflicts c' = true) →
  seq_inv (with_parts (BatchLifecycleStore.store_attestation_collector p c' (sn_store n))
    (conflict_detector n) (sn_bridge n) (finalization_engine n) (proposal_replay n) n) (log ++ [ev]).
Proof.
  intros Hi Hc Hvotes Hmono Hnf Hflip. pose proof Hi as []. split; cbn; try done.
  - intros q c''. destruct (decide (q = p)) as [->|Hne].
    + rewrite lookup_insert_eq. intros [= <-]. destruct (si_collectors0 _ _ Hc) as [Hseen Hold].
      split; [done|]. intros i v [Hv|(-> & ? & ? & ?)]%Hvotes.
      * destruct (Hold i v Hv) as (? & ? & ? & ?). auto.
      * split_and!; try done. apply elem_of_app. right. left.
    + rewrite lookup_insert_ne by done. intros Hq. destruct (si_collectors0 q c'' Hq) as [? Hold].
      split; [done|]. intros i v Hv. destruct (Hold i v Hv) as (? & ? & ? & ?). auto.
  - intros q b Hb. destruct (si_proposed0 q b Hb) as (? & ? & ? & ?). auto.
  - intros q Hq. destruct (decide (q = p)) as [->|Hne]; [rewrite lookup_insert_eq; by eexists|].
    rewrite lookup_insert_ne by done. by apply si_paired0.
  - intros v. rewrite elem_of_app, list_elem_of_singleton. intros [Hv|<-].
    + destruct (si_flipped0 v Hv) as (c0 & Hc0 & Hcf). destruct (decide (av_proposal_id v = p)) as [E|Hne].
      * rewrite E in Hc0 |- *. rewrite lookup_insert_eq. exists c'. split; [done|]. apply Hmono.
        congruence.
      * rewrite lookup_insert_ne by done. eauto.
    + destruct (Hflip v eq_refl) as [-> ?]. rewrite lookup_insert_eq. eauto.
  - intros b. rewrite elem_of_app, list_elem_of_singleton. intros [Hb|Hb]; [by apply si_slots0|].
    by destruct (Hnf b).
  - apply quiet_backed; [cbn; lia| |done]. intros b Hb%list_elem_of_singleton. by apply (Hnf b).
Qed.

Lemma vote_inv v n log :
  seq_inv n log → let '(n', evs) := seq_step (SVote v) n in seq_inv n' (log ++ evs).
Proof.
  intros Hi. cbn [seq_step]. unfold Phase2PoSeqNode.submit_attestation.
  destruct (BatchLifecycleStore.get_proposed_batch _ _); [|by rewrite app_nil_r].
  destruct (PoSeqCommittee.is_member (sn_committee n) (av_attestor_id v)) eqn:Em; cbn [negb];
    [|by rewrite app_nil_r].
  unfold BatchLifecycleStore.get_attestation_collector.
  destruct (attestation_collectors (sn_store n) !! av_proposal_id v) as [c|] eqn:Ec; [|by rewrite app_nil_r].
  rewrite (si_committee _ _ Hi) in Em.
  unfold AttestationCollector.add_vote. destruct (votes c !! av_attestor_id v) as [old|] eqn:Eold.
  - destruct (bool_decide_reflect (av_approved old = av_approved v)) as [Ha|Ha];
      cbn [AttestationCollector.conflicted]; (eapply collector_inv; [done|done|by left|..]).
    + done.
    + done.
    + done.
    + intros _. unfold AttestationCollector.has_conflicts. cbn. by destruct (ac_conflicts c).
    + done.
    + intros v' [= <-]. split; [done|]. unfold AttestationCollector.has_conflicts. cbn.
      by destruct (ac_conflicts c).
  - eapply collector_inv; [done|done| |done..]. intros i v'. cbn.
    destruct (decide (i = av_attestor_id v)) as [->|Hne].
    + rewrite lookup_insert_eq. intros [= <-]. by right.
    + rewrite lookup_insert_ne by done. by left.
Qed.

Lemma finalize_inv proposal height n log :
  seq_inv n log → let '(n', evs) := seq_step (SFinalize proposal height) n in seq_inv n' (log ++ evs).
Proof.
  intros Hi. cbn [seq_step]. unfold Phase2PoSeqNode.try_finalize, BatchLifecycleStore.get_proposed_batch,
    BatchLifecycleStore.get_attestation_collector.
  destruct (proposed_batches (sn_store n) !! proposal) as [p|] eqn:Ep; [|by rewrite app_nil_r].
  destruct (attestation_collectors (sn_store n) !! proposal) as [c|] eqn:Ec; [|by rewrite app_nil_r].
  pose proof Hi as []. destruct (si_proposed0 _ _ Ep) as (<- & Hlog & Hlead & Hsel).
  destruct (si_collectors0 _ _ Ec) as [Hseen Hvotes].
  unfold FinalizationEngine.finalize.
  destruct (decide (pb_proposal_id p ∈ _)); [rewrite app_nil_r; by eapply quiet_inv|].
  destruct (finalized_slots _ !! _) eqn:Eslot; [rewrite app_nil_r; by eapply quiet_inv|].
  destruct (AttestationCollector.has_conflicts c) eqn:Ecf; [rewrite app_nil_r; by eapply quiet_inv|].
  set (q := AttestationCollector.check_quorum c _ _).
  destruct (reached q) eqn:Eq; cbn [negb]; [|rewrite app_nil_r; by eapply quiet_inv].
  set (b := FinalizationEngine.batch_of p height q).
  assert (backed log b) as Hb.
  { split.
    - intros b' Hb' E. apply si_slots0 in Hb' as [x Hx]. cbn in E. rewrite E in Hx. congruence.
    - by exists p, height.
    - destruct (approving_voters log (pb_proposal_id p) c Hvotes) as (voters & Hsize & Hv).
      exists voters. unfold q, AttestationCollector.check_quorum in Eq. cbn [reached] in Eq.
      rewrite si_threshold0, si_committee0 in Eq. apply andb_true_iff in Eq as [Hf Hc].
      destruct (decide (PoSeqCommittee.quorum_size committee = 0%nat)); [done|].
      apply bool_decide_eq_true in Hf, Hc. rewrite Hsize. split_and!; try done.
    - intros v Hv E. destruct (si_flipped0 v Hv) as (c0 & Hc0 & Hcf). cbn in E. rewrite E in Hc0. congruence. }
  split; cbn; try done.
  - intros q' c' Hc'. destruct (si_collectors0 q' c' Hc') as [? Hold]. split; [done|].
    intros i v Hv. destruct (Hold i v Hv) as (? & ? & ? & ?). auto.
  - intros q' b' Hb'. destruct (si_proposed0 q' b' Hb') as (? & ? & ? & ?). auto.
  - intros v. rewrite elem_of_app, list_elem_of_singleton. intros [Hv|?]; [by apply si_flipped0|done].
  - intros b'. rewrite elem_of_app, list_elem_of_singleton. intros [Hb'|[= ->]].
    + destruct (decide ((pb_slot p, pb_epoch p) = (fb_slot b', fb_epoch b'))) as [->|Hne];
        [rewrite lookup_insert_eq; by eexists|]. rewrite lookup_insert_ne by done. by apply si_slots0.
    + cbn. rewrite lookup_insert_eq. by eexists.
  - intros l1 b' l2 E. apply log_split in E as [[-> [= ->]]|[l2' ->]]; [done|by eapply si_finalized0|cbn; lia].
Qed.

Lemma seq_step_inv op n log :
  seq_inv n log → let '(n', evs) := seq_step op n in seq_inv n' (log ++ evs).
Proof.
  intros Hi. destruct op; [by apply propose_inv|by apply vote_inv|by apply finalize_inv|..];
    cbn [seq_step]; rewrite app_nil_r.
  - unfold Phase2PoSeqNode.export_to_runtime. destruct (BatchLifecycleStore.get_finalized_batch _ _); [|done].
    destruct (HardenedRuntimeBridge.deliver _ _). by eapply quiet_inv.
  - unfold Phase2PoSeqNode.record_runtime_ack. destruct (HardenedRuntimeBridge.record_ack _ _) as [? [| |]];
      [by eapply quiet_inv..|done].
Qed.

Lemma seq_run_log ops n log :
  foldl (λ '(n, log) op, let '(n', evs) := seq_step op n in (n', log ++ evs)) (n, log) ops =
  ((seq_run n ops).1, log ++ (seq_run n ops).2).
Proof.
  unfold seq_run. revert n log. induction ops as [|op ops IH]; intros n log; cbn [foldl].
  { by rewrite app_nil_r. }
  destruct (seq_step op n) as [n' evs]. rewrite IH, (IH n' ([] ++ evs)). cbn. by rewrite app_assoc.
Qed.
Lemma seq_run_app n ops ops' :
  seq_run n (ops ++ ops') =
  ((seq_run (seq_run n ops).1 ops').1, (seq_run n ops).2 ++ (seq_run (seq_run n ops).1 ops').2).
Proof.
  unfold seq_run at 1. rewrite foldl_app. fold (seq_run n ops).
  destruct (seq_run n ops) as [n' log]. by rewrite seq_run_log.
Qed.

Abbreviation start := (Phase2PoSeqNode.new identity committee policy threshold).

Lemma seq_run_from ops n log :
  seq_inv n log →
  let '(n', log') := foldl (λ '(n, log) op, let '(n', evs) := seq_step op n in (n', log ++ evs)) (n, log) ops in
  seq_inv n' log' ∧ log `prefix_of` log'.
Proof.
  revert n log. induction ops as [|op ops IH]; intros n log Hi; cbn [foldl]; [by split|].
  pose proof (seq_step_inv op n log Hi) as Hstep. destruct (seq_step op n) as [n' evs].
  specialize (IH n' (log ++ evs) Hstep).
  destruct (foldl _ _ ops) as [n'' log']. destruct IH as [? Hp]. split; [done|].
  etrans; [by apply prefix_app_r|exact Hp].
Qed.

Lemma seq_run_inv ops : seq_inv (seq_run start ops).1 (seq_run start ops).2.
Proof.
  pose proof (seq_run_from ops start [] seq_new_inv) as Hr. unfold seq_run.
  destruct (foldl _ _ ops). by destruct Hr.
Qed.

(** C29: whatever a node does, when a batch is finalized its slot of the epoch had no
    finalized batch before; its proposal was made by this node as the selected leader of
    the slot and is what the batch carries; enough distinct members of the committee,
    by count and by fraction, had sent approving votes for it; and no vote that
    contradicted an earlier one had been received for it. *)
Theorem finalized_once_and_backed ops l1 b l2 :
  (seq_run start ops).2 = l1 ++ EvFinalized b :: l2 → backed l1 b.
Proof. intros E. by eapply (si_finalized _ _ (seq_run_inv ops)). Qed.

(** A vote on a stored proposal by a member, as a step. *)
Lemma vote_step v n c :
  is_Some (proposed_batches (sn_store n) !! av_proposal_id v) →
  PoSeqCommittee.is_member (sn_committee n) (av_attestor_id v) = true →
  attestation_collectors (sn_store n) !! av_proposal_id v = Some c →
  seq_step (SVote v) n =
  let '(c', r) := AttestationCollector.add_vote v c in
  (with_parts (BatchLifecycleStore.store_attestation_collector (av_proposal_id v) c' (sn_store n))
     (conflict_detector n) (sn_bridge n) (finalization_engine n) (proposal_replay n) n,
   match r with Ok _ => [EvVoted v] | Err _ => [EvFlipped v] | Panic => [] end).
Proof.
  intros [p Hp] Hm Hc. cbn [seq_step]. unfold Phase2PoSeqNode.submit_attestation,
    BatchLifecycleStore.get_proposed_batch, BatchLifecycleStore.get_attestation_collector.
  rewrite Hp, Hm, Hc. cbn [negb]. destruct (AttestationCollector.add_vote v c) as [c' [| |]]; done.
Qed.

Definition both_ways (p i : id32) (e : Z) : list seq_op :=
  [SVote (BatchAttestationVote.new p i true e); SVote (BatchAttestationVote.new p i false e)].

Lemma both_ways_flip n p i e :
  is_Some (proposed_batches (sn_store n) !! p) → is_Some (attestation_collectors (sn_store n) !! p) →
  PoSeqCommittee.is_member (sn_committee n) i = true →
  let evs := (seq_run n (both_ways p i e)).2 in
  (∃ v, EvFlipped v ∈ evs ∧ av_proposal_id v = p) ∧ ∀ b, EvFinalized b ∉ evs.
Proof.
  intros Hp [c Hc] Hm. unfold seq_run, both_ways. cbn [foldl app].
  set (v1 := BatchAttestationVote.new p i true e). set (v2 := BatchAttestationVote.new p i false e).
  rewrite (vote_step v1 n c) by done. destruct (AttestationCollector.add_vote v1 c) as [c1 r1] eqn:E1.
  rewrite (vote_step v2 _ c1); [|done|done|cbn; by rewrite lookup_insert_eq].
  destruct (AttestationCollector.add_vote v2 c1) as [c2 r2] eqn:E2. cbn [snd app].
  unfold AttestationCollector.add_vote in E1, E2. cbn [av_attestor_id v1 v2 BatchAttestationVote.new] in E1, E2.
  destruct (votes c !! i) as [old|] eqn:Eo.
  - destruct (av_approved old) eqn:Ea; cbn [av_approved v1 v2 BatchAttestationVote.new] in E1, E2.
    + injection E1 as <- <-. rewrite Eo in E2. rewrite Ea in E2. injection E2 as <- <-. cbn.
      split; [exists v2; set_solver|set_solver].
    + injection E1 as <- <-. cbn in E2. rewrite Eo in E2. rewrite Ea in E2. injection E2 as <- <-. cbn.
      split; [exists v1; set_solver|set_solver].
  - injection E1 as <- <-. cbn in E2. rewrite lookup_insert_eq in E2. cbn in E2. injection E2 as <- <-. cbn.
    split; [exists v2; set_solver|set_solver].
Qed.

(** votes are not authenticated, and one contradiction is final: for any proposal
    that waits in the node, two unsigned messages that name any one member of the
    committee, one for and one against, keep it from ever being finalized, whatever the
    other members send. *)
Theorem one_member_vetoes ops ops' p i e l1 b l2 :
  is_Some (proposed_batches (sn_store (seq_run start ops).1) !! p) →
  PoSeqCommittee.is_member committee i = true →
  (seq_run start (ops ++ both_ways p i e ++ ops')).2 = (seq_run start ops).2 ++ l1 ++ EvFinalized b :: l2 →
  fb_proposal_id b ≠ p.
Proof.
  intros Hp Hm E. pose proof (seq_run_inv ops) as Hinv. pose proof Hinv as [].
  destruct (both_ways_flip (seq_run start ops).1 p i e) as [(v & Hv & Hvp) Hnf];
    [done|by apply si_paired0|by rewrite si_committee0|].
  pose proof E as Eall. rewrite app_assoc, (seq_run_app start (ops ++ both_ways p i e)), seq_run_app in E.
  cbn [fst snd] in E. rewrite <- app_assoc in E. apply app_inv_head in E.
  assert (EvFlipped v ∈ l1) as Hl1.
  { apply app_eq_inv in E as [(k & Ek & Ek')|(k & -> & _)]; [|apply elem_of_app; by left].
    destruct k as [|x k]; [rewrite app_nil_r in Ek; by rewrite <- Ek|]. injection Ek' as <- _.
    exfalso. apply (Hnf b). rewrite Ek. apply elem_of_app. right. left. }
  assert (backed ((seq_run start ops).2 ++ l1) b) as Hb.
  { eapply (si_finalized _ _ (seq_run_inv (ops ++ both_ways p i e ++ ops'))).
    by rewrite Eall, app_assoc. }
  intros Eb. apply (bk_unanimous _ _ Hb v); [apply elem_of_app; by right|congruence].
Qed.
End runs.

(** ** What is accepted without a check *)

Section unchecked.
Context `{Sha256, Hex}.

(** an acknowledgement is recorded without looking for the batch or its delivery:
    for any batch that was never finalized, and any delivery id that was not used yet,
    it is accepted and the store then calls the batch acknowledged, although exporting
    it still fails. *)
Theorem ack_unbound n a :
  finalized_batches (sn_store n) !! ak_batch_id a = None →
  ack_replay_guard (sn_bridge n) !! ak_delivery_id a = None →
  let '(n', r) := Phase2PoSeqNode.record_runtime_ack a n in
  r = Ok tt ∧ BatchLifecycleStore.is_acked (sn_store n') (ak_batch_id a) = ak_accepted a ∧
  (Phase2PoSeqNode.export_to_runtime (ak_batch_id a) n').2 = Err DeliveryFailed.
Proof.
  intros Hb Hd. unfold Phase2PoSeqNode.record_runtime_ack, HardenedRuntimeBridge.record_ack.
  rewrite Hd. destruct (decide (is_Some None)) as [[? ?]|_]; [done|].
  unfold BatchLifecycleStore.is_acked, Phase2PoSeqNode.export_to_runtime,
    BatchLifecycleStore.get_finalized_batch. cbn. rewrite Hb. split_and!; [done| |done].
  by rewrite lookup_insert_eq.
Qed.
End unchecked.

(** ** Samples *)

Definition sample_seat (i : id32) (r : NodeRole) : NodeIdentity :=
  NodeIdentity.activate (NodeIdentity.new i (i + 100) r 1).
Definition sample_node_committee : PoSeqCommittee :=
  foldl (λ c n, PoSeqCommittee.add_node n c) (PoSeqCommittee.new 1)
    [sample_seat 1 Sequencer; sample_seat 2 Validator; sample_seat 3 Validator; sample_seat 4 Validator].
(** The same members, of whom only the leader is active. *)
Definition suspended_committee : PoSeqCommittee :=
  foldl (λ c n, PoSeqCommittee.add_node n c) (PoSeqCommittee.new 1)
    [sample_seat 1 Sequencer; NodeIdentity.suspend (sample_seat 2 Validator);
     NodeIdentity.suspend (sample_seat 3 Validator)].
Definition sample_start (c : PoSeqCommittee) (n : nat) : Phase2PoSeqNode :=
  Phase2PoSeqNode.new (sample_seat 1 Sequencer) c LeaderSelector.RoundRobin (att_two_thirds n).
Definition sample_pid : id32 :=
  pb_proposal_id (@ProposedBatch.new sample_sha256 6 1 1 [11; 12] 0 1 9).
Definition sample_seq_ops (voters : list id32) : list seq_op :=
  SPropose 6 1 9 [11; 12] 0 1 ::
  ((λ i, SVote (@BatchAttestationVote.new sample_sha256 sample_pid i true 1)) <$> voters) ++
  [SFinalize sample_pid 10; SFinalize sample_pid 11].
Abbreviation sample_run c n voters :=
  (@seq_run sample_sha256 sample_hex (sample_start c n) (sample_seq_ops voters)).

Lemma two_thirds_strict_witness :
  let c := mkCollector 5 (list_to_map ((λ i, (i, @BatchAttestationVote.new sample_sha256 5 i true 1)) <$> [1; 2])) [] in
  reached (@AttestationCollector.check_quorum sample_sha256 c (att_two_thirds 3) 3) = false ∧
  (min_approvals (att_two_thirds 3) ≤
   approvals (@AttestationCollector.check_quorum sample_sha256 c (att_two_thirds 3) 3))%nat.
Proof.
  cbn zeta. set (c := mkCollector _ _ _). split; [|apply Nat.leb_le; vm_compute; reflexivity].
  assert (size (votes c) ≤ 3)%nat as Hs by (apply Nat.leb_le; vm_compute; reflexivity).
  pose proof (@two_thirds_strict sample_sha256 c 3 ltac:(lia) Hs) as Hq. cbn zeta in Hq.
  apply not_true_is_false. intros E. apply Hq in E.
  assert (approvals (@AttestationCollector.check_quorum sample_sha256 c (att_two_thirds 3) 3) = 2%nat) as Ea
    by (vm_compute; reflexivity).
  rewrite Ea in E. lia.
Defined.

Lemma finalized_once_and_backed_witness :
  ∃ l1 b, (sample_run sample_node_committee 4 [1; 2; 4]).2 = l1 ++ [EvFinalized b] ∧
    fb_slot b = 6 ∧ fb_ordered_submission_ids b = [11; 12] ∧
    backed (H := sample_sha256) (sample_seat 1 Sequencer) sample_node_committee LeaderSelector.RoundRobin
      (att_two_thirds 4) l1 b.
Proof.
  set (log := (sample_run sample_node_committee 4 [1; 2; 4]).2).
  assert (∃ l1 b, log = l1 ++ [EvFinalized b] ∧ fb_slot b = 6 ∧ fb_ordered_submission_ids b = [11; 12])
    as (l1 & b & E & Es & Ei).
  { assert (length log = 5%nat) as Hlen by (vm_compute; reflexivity).
    assert (match last log with Some (EvFinalized b) => bool_decide (fb_slot b = 6 ∧
      fb_ordered_submission_ids b = [11; 12]) | _ => false end = true) as Hl by (vm_compute; reflexivity).
    destruct log as [|x log'] using rev_ind; [done|]. rewrite last_snoc in Hl.
    destruct x; try done. apply bool_decide_eq_true in Hl as [? ?]. by exists log', b. }
  exists l1, b. split_and!; [done..|].
  exact (@finalized_once_and_backed sample_sha256 sample_hex _ _ _ _ (sample_seq_ops [1; 2; 4]) l1 b [] E).
Defined.

Lemma one_member_vetoes_witness :
  let ops := [SPropose 6 1 9 [11; 12] 0 1] in
  let rest := ((λ i, SVote (@BatchAttestationVote.new sample_sha256 sample_pid i true 1)) <$> [1; 2; 3]) ++
              [SFinalize sample_pid 10] in
  is_Some (proposed_batches (sn_store (@seq_run sample_sha256 sample_hex (sample_start sample_node_committee 4)
    ops).1) !! sample_pid) ∧
  ∀ l1 b l2,
    (@seq_run sample_sha256 sample_hex (sample_start sample_node_committee 4)
       (ops ++ @both_ways sample_sha256 sample_pid 4 1 ++ rest)).2 =
    (@seq_run sample_sha256 sample_hex (sample_start sample_node_committee 4) ops).2 ++
      l1 ++ EvFinalized b :: l2 →
    fb_proposal_id b ≠ sample_pid.
Proof.
  cbn zeta. assert (is_Some (proposed_batches (sn_store (@seq_run sample_sha256 sample_hex
    (sample_start sample_node_committee 4) [SPropose 6 1 9 [11; 12] 0 1]).1) !! sample_pid)) as Hp
    by (eexists; vm_compute; reflexivity).
  split; [exact Hp|]. intros l1 b l2 E.
  refine (@one_member_vetoes sample_sha256 sample_hex (sample_seat 1 Sequencer) sample_node_committee
    LeaderSelector.RoundRobin (att_two_thirds 4) _ _ sample_pid 4 1 l1 b l2 Hp _ E).
  vm_compute. reflexivity.
Defined.

Lemma ack_unbound_witness :
  let n := sample_start sample_node_committee 4 in
  let a := @new_ack sample_sha256 77 5 true 1 in
  (Phase2PoSeqNode.record_runtime_ack a n).2 = Ok tt ∧
  BatchLifecycleStore.is_acked (sn_store (Phase2PoSeqNode.record_runtime_ack a n).1) 77 = true.
Proof.
  cbn zeta. set (n := sample_start _ _). set (a := new_ack _ _ _ _).
  pose proof (@ack_unbound sample_sha256 n a eq_refl eq_refl) as Ha.
  destruct (Phase2PoSeqNode.record_runtime_ack a n) as [n' r]. destruct Ha as (? & ? & _). by split.
Defined.

(** A suspended member still votes, while the size of the committee counts only the
    active ones: here the one active member is silent, and one suspended validator
    finalizes the batch alone. *)
Lemma suspended_votes_finalize :
  PoSeqCommittee.quorum_size suspended_committee = 1%nat ∧
  PoSeqCommittee.eligible_attestors suspended_committee = [sample_seat 1 Sequencer] ∧
  length (sample_run suspended_committee 1 [3]).2 = 3%nat ∧
  ∃ b, last (sample_run suspended_committee 1 [3]).2 = Some (EvFinalized b).
Proof. split_and!; [vm_compute; reflexivity..|]. eexists. vm_compute. reflexivity. Qed.
