(* ===== verification/PoseqFees.v ===== *)
(** * Fees of the sequencing layer

    The fee envelope, the parameters, the calculator, the split of a fee and the
    estimates of the sequencing layer's own fee market (src/poseq/src/gas/: types.rs,
    parameters.rs, calculator.rs, routing.rs, estimation.rs).  The theorems bound the
    fee, say that a split loses nothing, and that the envelope the estimator suggests
    is enough. *)

From stdpp Require Import gmap strings list pretty.
From S2P Require Import Prelude.

(** ** Envelopes *)

(* @src src/poseq/src/gas/types.rs:17-29 FeeEnvelope *)
Record FeeEnvelope : Type := mkFeeEnvelope {
  payer : id32;
  max_poseq_fee : Z;
  max_runtime_fee : Z;
  priority_tip : Z;
  expiry : Z }.

(* @src src/poseq/src/gas/types.rs:64-73 FeeEnvelopeError *)
Inductive FeeEnvelopeError : Type :=
| ZeroPayer
| ZeroTotalFee
| ZeroExpiry
| TotalFeeOverflow
| FeExpired (expiry current_block : Z)
| InsufficientPoseqFee (required available : Z)
| InsufficientRuntimeFee (required available : Z)
| TipExceedsCap (tip cap : Z).
#[export] Instance FeeEnvelopeError_eq_dec : EqDecision FeeEnvelopeError.
Proof. solve_decision. Defined.
(* @src src/poseq/src/gas/types.rs:76-91 FeeEnvelopeError::fmt *)
Definition envelope_error_text (e : FeeEnvelopeError) : string :=
  match e with
  | ZeroPayer => "fee envelope: zero payer address"
  | ZeroTotalFee => "fee envelope: zero total fee"
  | ZeroExpiry => "fee envelope: zero expiry"
  | TotalFeeOverflow => "fee envelope: total fee overflows u128"
  | FeExpired expiry now =>
      "fee envelope expired at block " +:+ pretty expiry +:+ " (current " +:+ pretty now +:+ ")"
  | InsufficientPoseqFee required available =>
      "insufficient poseq fee: need " +:+ pretty required +:+ ", have " +:+ pretty available
  | InsufficientRuntimeFee required available =>
      "insufficient runtime fee: need " +:+ pretty required +:+ ", have " +:+ pretty available
  | TipExceedsCap tip cap => "priority tip " +:+ pretty tip +:+ " exceeds cap " +:+ pretty cap
  end.

Module FeeEnvelope.
(* @src src/poseq/src/gas/types.rs:33-35 FeeEnvelope::total_max_fee *)
Definition total_max_fee (e : FeeEnvelope) : Z := sat_add 128 (max_poseq_fee e) (max_runtime_fee e).
(* @src src/poseq/src/gas/types.rs:38-53 FeeEnvelope::validate *)
Definition validate (e : FeeEnvelope) : outcome FeeEnvelopeError () :=
  if decide (payer e = 0) then Err ZeroPayer
  else if decide (max_poseq_fee e = 0 ∧ max_runtime_fee e = 0) then Err ZeroTotalFee
  else if decide (expiry e = 0) then Err ZeroExpiry
  else if decide (checked_add 128 (max_poseq_fee e) (max_runtime_fee e) = None) then Err TotalFeeOverflow
  else Ok tt.
(* @src src/poseq/src/gas/types.rs:56-58 FeeEnvelope::is_expired *)
Definition is_expired (e : FeeEnvelope) (current_block : Z) : bool := bool_decide (expiry e < current_block).
End FeeEnvelope.

(* @src src/poseq/src/gas/types.rs:100-115 PoSeqFeeResult *)
Record PoSeqFeeResult : Type := mkPoseqFee {
  base_fee : Z;
  bytes_fee : Z;
  effective_tip : Z;
  congestion_multiplier_bps : Z;
  computed_fee : Z;
  charged_fee : Z;
  refund : Z }.
Module PoSeqFeeResult.
(* @src src/poseq/src/gas/types.rs:120-122 PoSeqFeeResult::priority_score *)
Definition priority_score (r : PoSeqFeeResult) : Z := effective_tip r.
End PoSeqFeeResult.

(** ** Parameters *)

(* @src src/poseq/src/gas/parameters.rs:13-67 PoSeqFeeParameters *)
Record PoSeqFeeParameters : Type := mkPoseqParams {
  base_admission_fee : Z;
  fee_per_byte : Z;
  target_intents_per_batch : Z;
  min_congestion_multiplier_bps : Z;
  max_congestion_multiplier_bps : Z;
  priority_tip_cap : Z;
  poseq_fee_floor : Z;
  max_poseq_fee_cap : Z;
  expiry_penalty_bps : Z;
  sequencer_reward_bps : Z;
  shared_security_bps : Z;
  treasury_bps : Z;
  burn_bps : Z }.

(* @src src/poseq/src/gas/parameters.rs:169-179 ParameterValidationError *)
Inductive ParameterValidationError : Type :=
| ZeroBaseAdmissionFee
| ZeroCongestionMultiplier
| CongestionMultiplierInverted (min max : Z)
| CongestionMultiplierTooHigh (v : Z)
| ZeroTargetIntentsPerBatch
| FeeFloorExceedsCap (floor cap : Z)
| ExpiryPenaltyTooHigh (v : Z)
| DistributionBpsOverflow
| DistributionBpsMismatch (total expected : Z).
(* @src src/poseq/src/gas/parameters.rs:182-199 ParameterValidationError::fmt *)
Definition parameter_error_text (e : ParameterValidationError) : string :=
  match e with
  | ZeroBaseAdmissionFee => "base_admission_fee must be > 0"
  | ZeroCongestionMultiplier => "min_congestion_multiplier_bps must be > 0"
  | CongestionMultiplierInverted min max =>
      "congestion multiplier inverted: min " +:+ pretty min +:+ " > max " +:+ pretty max
  | CongestionMultiplierTooHigh v =>
      "max congestion multiplier " +:+ pretty v +:+ " exceeds 100x (1,000,000 bps)"
  | ZeroTargetIntentsPerBatch => "target_intents_per_batch must be > 0"
  | FeeFloorExceedsCap floor cap =>
      "poseq_fee_floor " +:+ pretty floor +:+ " > max_poseq_fee_cap " +:+ pretty cap
  | ExpiryPenaltyTooHigh v => "expiry_penalty_bps " +:+ pretty v +:+ " exceeds 100% (10,000)"
  | DistributionBpsOverflow => "distribution bps overflow"
  | DistributionBpsMismatch total expected =>
      "distribution bps sum " +:+ pretty total +:+ " != expected " +:+ pretty expected
  end.

Module PoSeqFeeParameters.
(* @src src/poseq/src/gas/parameters.rs:79-95 PoSeqFeeParameters::testnet_defaults *)
Definition testnet_defaults : PoSeqFeeParameters :=
  mkPoseqParams 1000 10 64 8000 50000 50000 500 10000000 1000 4500 2000 1500 2000.

(* @src src/poseq/src/gas/parameters.rs:98-157 PoSeqFeeParameters::validate *)
Definition validate (p : PoSeqFeeParameters) : outcome ParameterValidationError () :=
  if decide (base_admission_fee p = 0) then Err ZeroBaseAdmissionFee
  else if decide (min_congestion_multiplier_bps p = 0) then Err ZeroCongestionMultiplier
  else if decide (max_congestion_multiplier_bps p < min_congestion_multiplier_bps p)
  then Err (CongestionMultiplierInverted (min_congestion_multiplier_bps p) (max_congestion_multiplier_bps p))
  else if decide (1000000 < max_congestion_multiplier_bps p)
  then Err (CongestionMultiplierTooHigh (max_congestion_multiplier_bps p))
  else if decide (target_intents_per_batch p = 0) then Err ZeroTargetIntentsPerBatch
  else if decide (max_poseq_fee_cap p < poseq_fee_floor p)
  then Err (FeeFloorExceedsCap (poseq_fee_floor p) (max_poseq_fee_cap p))
  else if decide (10000 < expiry_penalty_bps p) then Err (ExpiryPenaltyTooHigh (expiry_penalty_bps p))
  else
    match s ← checked_add 64 (sequencer_reward_bps p) (shared_security_bps p);
          s ← checked_add 64 s (treasury_bps p); checked_add 64 s (burn_bps p) with
    | None => Err DistributionBpsOverflow
    | Some total => if decide (total ≠ 10000) then Err (DistributionBpsMismatch total 10000) else Ok tt
    end.
End PoSeqFeeParameters.

(** ** The calculator *)

(* @src src/poseq/src/gas/calculator.rs:20-25 CongestionState *)
Record CongestionState : Type := mkCongestion {
  current_intent_count : Z;
  last_batch_intent_count : Z }.

Module PoSeqFeeCalculator.
(* @src src/poseq/src/gas/calculator.rs:123-151 PoSeqFeeCalculator::compute_congestion_multiplier *)
Definition compute_congestion_multiplier (p : PoSeqFeeParameters) (c : CongestionState) : Z :=
  if decide (target_intents_per_batch p = 0) then max_congestion_multiplier_bps p
  else
    let count := Z.max (current_intent_count c) (last_batch_intent_count c) in
    let raw := sat_mul 64 count 10000 / target_intents_per_batch p in
    Z.min (Z.max raw (min_congestion_multiplier_bps p)) (max_congestion_multiplier_bps p).

(** The fee before the floor and the cap, and the fee within them. *)
(* @src src/poseq/src/gas/calculator.rs:67-85 PoSeqFeeCalculator::compute *)
Definition raw_fee (p : PoSeqFeeParameters) (tip len multiplier : Z) : Z :=
  let bytes_fee := sat_mul 128 len (fee_per_byte p) in
  let pre := sat_add 128 (sat_add 128 (base_admission_fee p) bytes_fee) (Z.min tip (priority_tip_cap p)) in
  sat_mul 128 pre multiplier / 10000.
(* @src src/poseq/src/gas/calculator.rs:87-94 PoSeqFeeCalculator::compute *)
Definition within_limits (p : PoSeqFeeParameters) (fee : Z) : Z :=
  let fee := if decide (fee < poseq_fee_floor p) then poseq_fee_floor p else fee in
  if decide (max_poseq_fee_cap p < fee) then max_poseq_fee_cap p else fee.

(* @src src/poseq/src/gas/calculator.rs:51-116 PoSeqFeeCalculator::compute *)
Definition compute (p : PoSeqFeeParameters) (e : FeeEnvelope) (len : Z) (c : CongestionState)
    (current_block : Z) : outcome FeeEnvelopeError PoSeqFeeResult :=
  FeeEnvelope.validate e ≫= λ _,
  if FeeEnvelope.is_expired e current_block then Err (FeExpired (expiry e) current_block)
  else
    let multiplier := compute_congestion_multiplier p c in
    let computed := raw_fee p (priority_tip e) len multiplier in
    let charged := within_limits p computed in
    if decide (max_poseq_fee e < charged) then Err (InsufficientPoseqFee charged (max_poseq_fee e))
    else Ok (mkPoseqFee (base_admission_fee p) (sat_mul 128 len (fee_per_byte p))
               (Z.min (priority_tip e) (priority_tip_cap p)) multiplier computed charged
               (sat_sub (max_poseq_fee e) charged)).

(* @src src/poseq/src/gas/calculator.rs:156-160 PoSeqFeeCalculator::compute_expiry_penalty *)
Definition compute_expiry_penalty (p : PoSeqFeeParameters) (charged : Z) : Z :=
  sat_mul 128 charged (expiry_penalty_bps p) / 10000.
(* @src src/poseq/src/gas/calculator.rs:163-165 PoSeqFeeCalculator::can_afford_minimum *)
Definition can_afford_minimum (p : PoSeqFeeParameters) (e : FeeEnvelope) : bool :=
  bool_decide (poseq_fee_floor p ≤ max_poseq_fee e).
End PoSeqFeeCalculator.

(** ** The split of a fee *)

(* @src src/poseq/src/gas/routing.rs:17-28 PoSeqFeeDistribution *)
Record PoSeqFeeDistribution : Type := mkDistribution {
  total_fee : Z;
  sequencer_rewards : Z;
  shared_security : Z;
  treasury : Z;
  burn : Z }.

Module PoSeqFeeDistribution.
(* @src src/poseq/src/gas/routing.rs:32-38 PoSeqFeeDistribution::verify_budget_neutral *)
Definition verify_budget_neutral (d : PoSeqFeeDistribution) : bool :=
  bool_decide (sat_add 128 (sat_add 128 (sat_add 128 (sequencer_rewards d) (shared_security d)) (treasury d))
                 (burn d) = total_fee d).
End PoSeqFeeDistribution.

Definition share_of (fee bps : Z) : Z := sat_mul 128 fee bps / 10000.
(* @src src/poseq/src/gas/routing.rs:45-81 distribute_fee *)
Definition distribute_fee (p : PoSeqFeeParameters) (fee : Z) : PoSeqFeeDistribution :=
  if decide (fee = 0) then mkDistribution 0 0 0 0 0
  else
    let security := share_of fee (shared_security_bps p) in
    let treasury := share_of fee (treasury_bps p) in
    let burn := share_of fee (burn_bps p) in
    mkDistribution fee (sat_sub (sat_sub (sat_sub fee security) treasury) burn) security treasury burn.

(* @src src/poseq/src/gas/routing.rs:84-100 aggregate_distributions *)
Definition aggregate_distributions (l : list PoSeqFeeDistribution) : PoSeqFeeDistribution :=
  foldl (λ a d, mkDistribution (sat_add 128 (total_fee a) (total_fee d))
           (sat_add 128 (sequencer_rewards a) (sequencer_rewards d))
           (sat_add 128 (shared_security a) (shared_security d))
           (sat_add 128 (treasury a) (treasury d)) (sat_add 128 (burn a) (burn d)))
    (mkDistribution 0 0 0 0 0) l.

(** ** Estimates *)

(* @src src/poseq/src/gas/estimation.rs:34-41 FeeBreakdown *)
Record FeeBreakdown : Type := mkBreakdown {
  base_admission : Z;
  bandwidth_fee : Z;
  bd_priority_tip : Z;
  congestion_adjustment : string;
  runtime_gas_estimate : Z;
  runtime_gas_price : Z }.

(* @src src/poseq/src/gas/estimation.rs:13-30 FeeQuote *)
Record FeeQuote : Type := mkQuote {
  estimated_poseq_fee : Z;
  estimated_runtime_fee : Z;
  estimated_total_fee : Z;
  fq_congestion_multiplier_bps : Z;
  priority_tip_used : Z;
  tip_was_capped : bool;
  breakdown : FeeBreakdown;
  warnings : list string }.

(* @src src/poseq/src/gas/estimation.rs:125-131 estimate_fee *)
Definition congestion_text (bps : Z) : string :=
  if decide (bps < 10000) then pretty ((10000 - bps) / 100) +:+ "% below target (discount)"
  else if decide (bps = 10000) then "at target (1.0x)"
  else pretty ((bps - 10000) / 100) +:+ "% above target (surcharge)".

Definition warn_if (b : bool) (s : string) : list string := if b then [s] else [].
(* @src src/poseq/src/gas/estimation.rs:53-150 estimate_fee *)
Definition estimate_fee (p : PoSeqFeeParameters) (e : FeeEnvelope) (len : Z) (c : CongestionState)
    (current_block gas gas_price : Z) : FeeQuote :=
  let '(poseq, bps, tip, capped, base, bytes_fee, errors) :=
    match PoSeqFeeCalculator.compute p e len c current_block with
    | Ok r => (charged_fee r, congestion_multiplier_bps r, effective_tip r,
               bool_decide (priority_tip_cap p < priority_tip e), base_fee r, bytes_fee r, [])
    | Err err => (poseq_fee_floor p, 10000, 0, false, base_admission_fee p,
                  sat_mul 128 len (fee_per_byte p),
                  ["poseq fee computation error: " +:+ envelope_error_text err])
    | Panic => (0, 0, 0, false, 0, 0, [])
    end in
  let runtime := sat_mul 128 gas gas_price in
  mkQuote poseq runtime (sat_add 128 poseq runtime) bps tip capped
    (mkBreakdown base bytes_fee tip (congestion_text bps) gas gas_price)
    (errors ++ warn_if (bool_decide (30000 ≤ bps)) "high congestion: fees are 3x+ normal" ++
     warn_if capped ("priority tip capped from " +:+ pretty (priority_tip e) +:+ " to " +:+
                     pretty (priority_tip_cap p)) ++
     warn_if (bool_decide (max_poseq_fee e < poseq))
       ("max_poseq_fee (" +:+ pretty (max_poseq_fee e) +:+ ") may be insufficient (estimated " +:+
        pretty poseq +:+ ")") ++
     warn_if (bool_decide (max_runtime_fee e < runtime))
       ("max_runtime_fee (" +:+ pretty (max_runtime_fee e) +:+ ") may be insufficient (estimated " +:+
        pretty runtime +:+ ")") ++
     warn_if (FeeEnvelope.is_expired e current_block) "fee envelope has already expired").

(* @src src/poseq/src/gas/estimation.rs:154-188 suggest_envelope *)
Definition suggest_envelope (p : PoSeqFeeParameters) (len : Z) (c : CongestionState) (tip gas gas_price
    expiry_blocks current_block : Z) (who : id32) : FeeEnvelope :=
  let bytes_fee := sat_mul 128 len (fee_per_byte p) in
  let multiplier := PoSeqFeeCalculator.compute_congestion_multiplier p c in
  let pre := wrapu 128 (wrapu 128 (base_admission_fee p + bytes_fee) + Z.min tip (priority_tip_cap p)) in
  let raw := sat_mul 128 pre multiplier / 10000 in
  let poseq := Z.max raw (poseq_fee_floor p) in
  let runtime := sat_mul 128 gas gas_price in
  mkFeeEnvelope who (sat_mul 128 poseq 12 / 10) (sat_mul 128 runtime 12 / 10) tip
    (wrapu 64 (current_block + expiry_blocks)).

(** ** Lemmas *)

Section fees.
Import PoSeqFeeCalculator.

Lemma validated p :
  PoSeqFeeParameters.validate p = Ok tt →
  base_admission_fee p ≠ 0 ∧ min_congestion_multiplier_bps p ≠ 0 ∧
  min_congestion_multiplier_bps p ≤ max_congestion_multiplier_bps p ≤ 1000000 ∧
  target_intents_per_batch p ≠ 0 ∧ poseq_fee_floor p ≤ max_poseq_fee_cap p ∧ expiry_penalty_bps p ≤ 10000 ∧
  sequencer_reward_bps p + shared_security_bps p + treasury_bps p + burn_bps p = 10000.
Proof.
  unfold PoSeqFeeParameters.validate. repeat (case_decide; [done|]).
  destruct (checked_add 64 (sequencer_reward_bps p) _) as [s1|] eqn:E1; [|done]. cbn [mbind option_bind].
  destruct (checked_add 64 s1 _) as [s2|] eqn:E2; [|done]. cbn [mbind option_bind].
  destruct (checked_add 64 s2 _) as [s3|] eqn:E3; [|done].
  apply checked_add_some in E1 as [_ ->], E2 as [_ ->], E3 as [_ ->].
  case_decide; [done|]. intros _. lia.
Qed.

Lemma congestion_bounds p c :
  min_congestion_multiplier_bps p ≤ max_congestion_multiplier_bps p →
  min_congestion_multiplier_bps p ≤ compute_congestion_multiplier p c ≤ max_congestion_multiplier_bps p.
Proof. intros. unfold compute_congestion_multiplier. case_decide; lia. Qed.

Lemma congestion_mono p c c' :
  0 ≤ target_intents_per_batch p →
  current_intent_count c ≤ current_intent_count c' → last_batch_intent_count c ≤ last_batch_intent_count c' →
  compute_congestion_multiplier p c ≤ compute_congestion_multiplier p c'.
Proof.
  intros Ht H1 H2. unfold compute_congestion_multiplier. case_decide; [done|].
  apply Z.min_le_compat_r, Z.max_le_compat_r, Z.div_le_mono; [lia|]. apply sat_mul_mono; lia.
Qed.

Lemma raw_mono p tip tip' len len' m m' :
  0 ≤ fee_per_byte p → 0 ≤ m → m ≤ m' → tip ≤ tip' → len ≤ len' →
  0 ≤ base_admission_fee p → 0 ≤ len → 0 ≤ tip → 0 ≤ priority_tip_cap p →
  raw_fee p tip len m ≤ raw_fee p tip' len' m'.
Proof.
  intros Hf Hm Hmm Ht Hl Hb Hl0 Ht0 Hc. unfold raw_fee. apply Z.div_le_mono; [lia|].
  assert (0 ≤ sat_mul 128 len (fee_per_byte p)) by (unfold sat_mul, umax; nia).
  etrans; [apply sat_mul_mono; [apply sat_add_mono; [apply sat_add_mono; [reflexivity|]|]|done]|].
  - by apply (sat_mul_mono 128 len len').
  - apply (Z.min_le_compat_r tip tip'). done.
  - assert (0 ≤ sat_mul 128 len' (fee_per_byte p)) by (unfold sat_mul, umax; nia).
    unfold sat_mul at 1 3.
    set (x := sat_add 128 _ (Z.min tip' _)). assert (0 ≤ x) by (subst x; unfold sat_add, umax; lia). nia.
Qed.

Lemma limits_eq p fee :
  poseq_fee_floor p ≤ max_poseq_fee_cap p →
  within_limits p fee = Z.min (Z.max fee (poseq_fee_floor p)) (max_poseq_fee_cap p).
Proof. intros. unfold within_limits. repeat case_decide; lia. Qed.

(** A successful computation charges the fee of the formula. *)
Lemma compute_ok p e len c now r :
  compute p e len c now = Ok r →
  charged_fee r = within_limits p (raw_fee p (priority_tip e) len (compute_congestion_multiplier p c)) ∧
  charged_fee r ≤ max_poseq_fee e ∧ refund r = max_poseq_fee e - charged_fee r ∧
  now ≤ expiry e ∧ FeeEnvelope.validate e = Ok tt ∧
  congestion_multiplier_bps r = compute_congestion_multiplier p c.
Proof.
  unfold compute. destruct (FeeEnvelope.validate e) as [[]| |]; [|done..]. cbn [mbind outcome_bind].
  destruct (FeeEnvelope.is_expired e now) eqn:Ex; [done|]. case_decide; [done|]. intros [= <-].
  cbn [charged_fee refund congestion_multiplier_bps]. apply bool_decide_eq_false in Ex.
  rewrite sat_sub_id by lia. split_and!; done || lia.
Qed.

(** The parameters and inputs as the numbers their types hold. *)
Definition params_ok (p : PoSeqFeeParameters) : Prop :=
  0 ≤ base_admission_fee p ∧ 0 ≤ fee_per_byte p ∧ 0 ≤ target_intents_per_batch p ∧
  0 ≤ min_congestion_multiplier_bps p ∧ 0 ≤ priority_tip_cap p ∧ 0 ≤ poseq_fee_floor p ∧
  0 ≤ sequencer_reward_bps p ∧ 0 ≤ shared_security_bps p ∧ 0 ≤ treasury_bps p ∧ 0 ≤ burn_bps p.

(** With validated parameters, an accepted envelope is charged between the floor and
    the cap and never more than it allows, the rest is the refund, and a longer
    intent, a larger tip or more congestion never makes the charge smaller. *)
Theorem poseq_charge_bounded (p : PoSeqFeeParameters) (e e' : FeeEnvelope) (len len' : Z)
    (c c' : CongestionState) (now now' : Z) (r r' : PoSeqFeeResult) :
  params_ok p → PoSeqFeeParameters.validate p = Ok tt → 0 ≤ len ≤ len' →
  0 ≤ priority_tip e ≤ priority_tip e' →
  current_intent_count c ≤ current_intent_count c' → last_batch_intent_count c ≤ last_batch_intent_count c' →
  compute p e len c now = Ok r → compute p e' len' c' now' = Ok r' →
  poseq_fee_floor p ≤ charged_fee r ≤ max_poseq_fee_cap p ∧ charged_fee r ≤ max_poseq_fee e ∧
  charged_fee r + refund r = max_poseq_fee e ∧
  min_congestion_multiplier_bps p ≤ congestion_multiplier_bps r ≤ max_congestion_multiplier_bps p ∧
  charged_fee r ≤ charged_fee r'.
Proof.
  intros Hp (_ & _ & Hm & _ & Hfc & _)%validated Hl Ht H1 H2 E E'.
  apply compute_ok in E as (Ec & Hc & Er & _ & _ & Em), E' as (Ec' & _).
  rewrite Ec in *. rewrite Er, Em, Ec'. rewrite !limits_eq by done.
  pose proof (congestion_bounds p c ltac:(lia)) as Hb.
  pose proof (congestion_mono p c c' ltac:(apply Hp) H1 H2) as Hcm.
  assert (raw_fee p (priority_tip e) len (compute_congestion_multiplier p c)
          ≤ raw_fee p (priority_tip e') len' (compute_congestion_multiplier p c')) as Hr.
  { apply raw_mono; try lia; apply Hp || (destruct Hp; lia). }
  rewrite limits_eq in Hc by done. split_and!; lia.
Qed.
End fees.

(** ** Splits *)

Lemma share_small fee bps :
  fits 128 fee → 0 ≤ bps ≤ 10000 → 0 ≤ share_of fee bps ∧ 10000 * share_of fee bps ≤ fee * bps.
Proof.
  intros [Hf _] Hb. unfold share_of, sat_mul. pose proof (Z.min_spec (fee * bps) (umax 128)) as Hm.
  assert (0 ≤ umax 128) by by_eval. assert (0 ≤ fee * bps) by nia.
  pose proof (Z.div_pos (Z.min (fee * bps) (umax 128)) 10000 ltac:(lia) ltac:(lia)).
  pose proof (Z.mul_div_le (Z.min (fee * bps) (umax 128)) 10000 ltac:(lia)). lia.
Qed.

Lemma split_neutral p fee :
  params_ok p → PoSeqFeeParameters.validate p = Ok tt → fits 128 fee →
  let d := distribute_fee p fee in
  sequencer_rewards d + shared_security d + treasury d + burn d = fee ∧ total_fee d = fee ∧
  0 ≤ sequencer_rewards d ∧ 0 ≤ shared_security d ∧ 0 ≤ treasury d ∧ 0 ≤ burn d.
Proof.
  intros (_ & _ & _ & _ & _ & _ & ? & ? & ? & ?) (_ & _ & _ & _ & _ & _ & Hs)%validated Hf.
  pose proof (share_small fee (shared_security_bps p) Hf ltac:(lia)).
  pose proof (share_small fee (treasury_bps p) Hf ltac:(lia)).
  pose proof (share_small fee (burn_bps p) Hf ltac:(lia)).
  destruct Hf as [Hf _]. unfold distribute_fee. case_decide; [by subst|].
  cbn [sequencer_rewards shared_security treasury burn total_fee]. unfold sat_sub.
  assert (fee * shared_security_bps p + fee * treasury_bps p + fee * burn_bps p ≤ 10000 * fee) by nia.
  lia.
Qed.

Lemma split_verified p fee :
  params_ok p → PoSeqFeeParameters.validate p = Ok tt → fits 128 fee →
  PoSeqFeeDistribution.verify_budget_neutral (distribute_fee p fee) = true.
Proof.
  intros Hp Hv Hf. destruct (split_neutral p fee Hp Hv Hf) as (Hs & Ht & ? & ? & ? & ?).
  unfold PoSeqFeeDistribution.verify_budget_neutral. rewrite bool_decide_eq_true, Ht.
  destruct Hf. rewrite (sat_add_id 128 (sequencer_rewards _)) by lia.
  rewrite (sat_add_id 128 (_ + shared_security _)) by lia. rewrite sat_add_id by lia. lia.
Qed.

(** A split under validated parameters loses nothing, at any amount a [u128] can
    hold; each share but the sequencer's is the floor of its part where the product
    fits, and the sequencer has the rounding, less than three units. *)
Theorem distribution_exact (p : PoSeqFeeParameters) (fee : Z) :
  params_ok p → PoSeqFeeParameters.validate p = Ok tt → fits 128 fee →
  let d := distribute_fee p fee in
  PoSeqFeeDistribution.verify_budget_neutral d = true ∧
  sequencer_rewards d + shared_security d + treasury d + burn d = fee ∧
  (fee * 10000 < 2 ^ 128 →
   shared_security d = fee * shared_security_bps p / 10000 ∧ treasury d = fee * treasury_bps p / 10000 ∧
   burn d = fee * burn_bps p / 10000 ∧
   fee * sequencer_reward_bps p / 10000 ≤ sequencer_rewards d ≤ fee * sequencer_reward_bps p / 10000 + 3).
Proof.
  intros Hp Hv Hf. destruct (split_neutral p fee Hp Hv Hf) as (Hs & Ht & ? & ? & ? & ?).
  cbv zeta. split_and!; [|done|].
  - by apply split_verified.
  - intros Hb. destruct (validated p Hv) as (_ & _ & _ & _ & _ & _ & Hsum).
    destruct Hp as (_ & _ & _ & _ & _ & _ & ? & ? & ? & ?), Hf as [Hf _].
    assert (∀ bps, 0 ≤ bps ≤ 10000 → share_of fee bps = fee * bps / 10000) as Hshare.
    { intros bps Hbps. unfold share_of, sat_mul, umax. f_equal. nia. }
    assert (shared_security (distribute_fee p fee) = fee * shared_security_bps p / 10000 ∧
            treasury (distribute_fee p fee) = fee * treasury_bps p / 10000 ∧
            burn (distribute_fee p fee) = fee * burn_bps p / 10000) as (E1 & E2 & E3).
    { unfold distribute_fee. case_decide; [by subst|]. cbn. by rewrite !Hshare by lia. }
    split_and!; [done..| |];
      pose proof (Z.div_mod (fee * shared_security_bps p) 10000 ltac:(lia));
      pose proof (Z.div_mod (fee * treasury_bps p) 10000 ltac:(lia));
      pose proof (Z.div_mod (fee * burn_bps p) 10000 ltac:(lia));
      pose proof (Z.div_mod (fee * sequencer_reward_bps p) 10000 ltac:(lia));
      pose proof (Z.mod_pos_bound (fee * shared_security_bps p) 10000 ltac:(lia));
      pose proof (Z.mod_pos_bound (fee * treasury_bps p) 10000 ltac:(lia));
      pose proof (Z.mod_pos_bound (fee * burn_bps p) 10000 ltac:(lia));
      pose proof (Z.mod_pos_bound (fee * sequencer_reward_bps p) 10000 ltac:(lia)); nia.
Qed.

(** ** The suggested envelope *)

(** An envelope the estimator suggests is accepted under the same congestion until it
    expires, and leaves a sixth of it as refund: the margin covers the fee as long as
    the numbers are far from the end of a [u128]. *)
Theorem suggested_envelope_suffices (p : PoSeqFeeParameters) (len : Z) (c : CongestionState)
    (tip gas gas_price blocks now : Z) (who : id32) :
  params_ok p → PoSeqFeeParameters.validate p = Ok tt → 0 ≤ len → 0 ≤ tip → 0 ≤ gas * gas_price < 2 ^ 120 →
  (base_admission_fee p + len * fee_per_byte p + Z.min tip (priority_tip_cap p)) *
    PoSeqFeeCalculator.compute_congestion_multiplier p c < 2 ^ 120 →
  0 < poseq_fee_floor p < 2 ^ 120 → who ≠ 0 → 0 < now + blocks < 2 ^ 64 → 0 ≤ blocks →
  let e := suggest_envelope p len c tip gas gas_price blocks now who in
  ∃ r, PoSeqFeeCalculator.compute p e len c now = Ok r ∧ 6 * charged_fee r ≤ 5 * max_poseq_fee e + 5.
Proof.
  intros Hp Hv Hl Ht Hg Hpre Hfl Hw Hn Hbl.
  destruct (validated p Hv) as (_ & Hm0 & Hm & _ & Hfc & _ & _).
  destruct Hp as (Hb0 & Hf0 & Ht0 & Hmin0 & Hc0 & _).
  pose proof (congestion_bounds p c ltac:(lia)) as Hmul.
  set (m := PoSeqFeeCalculator.compute_congestion_multiplier p c) in *.
  set (t := Z.min tip (priority_tip_cap p)) in *. assert (0 ≤ t) by lia.
  assert (0 ≤ len * fee_per_byte p) by nia.
  set (pre := base_admission_fee p + len * fee_per_byte p + t) in *.
  assert (pre < 2 ^ 120) by nia. assert (2 ^ 120 * 256 = 2 ^ 128) as E128 by done.
  assert (sat_mul 128 len (fee_per_byte p) = len * fee_per_byte p) as Eb by (unfold sat_mul, umax; lia).
  assert (wrapu 128 (wrapu 128 (base_admission_fee p + sat_mul 128 len (fee_per_byte p)) + t) = pre) as Ew.
  { rewrite Eb, (wrapu_id 128 (base_admission_fee p + _)), wrapu_id by (split; lia). done. }
  assert (PoSeqFeeCalculator.raw_fee p tip len m = sat_mul 128 pre m / 10000) as Er.
  { unfold PoSeqFeeCalculator.raw_fee. fold t. rewrite Eb. rewrite (sat_add_id 128 (base_admission_fee p)) by lia.
    by rewrite sat_add_id by lia. }
  assert (0 ≤ sat_mul 128 pre m / 10000 < 2 ^ 120) as Hraw.
  { unfold sat_mul, umax. split; [apply Z.div_pos; nia|apply Z.div_lt_upper_bound; nia]. }
  unfold suggest_envelope. fold m t. rewrite Ew. set (raw := sat_mul 128 pre m / 10000) in *.
  set (fee := Z.max raw (poseq_fee_floor p)).
  assert (sat_mul 128 fee 12 = fee * 12) as E12 by (unfold sat_mul, umax; lia).
  assert (sat_mul 128 (sat_mul 128 gas gas_price) 12 = gas * gas_price * 12) as Eg
    by (unfold sat_mul, umax; lia).
  rewrite E12, Eg, (wrapu_id 64 (now + blocks)) by (split; lia). cbv zeta.
  pose proof (Z.div_mod (fee * 12) 10 ltac:(lia)) as D1.
  pose proof (Z.mod_pos_bound (fee * 12) 10 ltac:(lia)) as M1.
  pose proof (Z.div_mod (gas * gas_price * 12) 10 ltac:(lia)) as D2.
  pose proof (Z.mod_pos_bound (gas * gas_price * 12) 10 ltac:(lia)) as M2.
  unfold PoSeqFeeCalculator.compute, FeeEnvelope.validate, FeeEnvelope.is_expired.
  cbn [payer max_poseq_fee max_runtime_fee priority_tip expiry].
  rewrite (decide_False (P := who = 0)) by done.
  rewrite (decide_False (P := fee * 12 / 10 = 0 ∧ _)) by lia. rewrite (decide_False (P := now + blocks = 0)) by lia.
  assert (checked_add 128 (fee * 12 / 10) (gas * gas_price * 12 / 10) ≠ None) as Hsum
    by (unfold checked_add; rewrite decide_True by lia; done).
  rewrite (decide_False (P := checked_add _ _ _ = None)) by exact Hsum.
  cbn [mbind outcome_bind]. rewrite bool_decide_false by lia.
  fold m. rewrite Er. fold raw. rewrite limits_eq by done. fold fee.
  rewrite decide_False by lia. eexists. split; [reflexivity|]. cbn [charged_fee]. lia.
Qed.

Definition sample_poseq_envelope : FeeEnvelope := mkFeeEnvelope 1 10000 50000 500 1000.
Lemma testnet_ok : params_ok PoSeqFeeParameters.testnet_defaults.
Proof. by_eval. Qed.

Lemma poseq_charge_bounded_witness :
  let p := PoSeqFeeParameters.testnet_defaults in
  ∃ r, PoSeqFeeCalculator.compute p sample_poseq_envelope 100 (mkCongestion 64 64) 5 = Ok r ∧
    charged_fee r + refund r = 10000.
Proof.
  intros p. eexists. split; [vm_compute; reflexivity|].
  eapply (poseq_charge_bounded p sample_poseq_envelope sample_poseq_envelope 100 100 (mkCongestion 64 64)
    (mkCongestion 64 64) 5 5);
    [exact testnet_ok|reflexivity|by_eval|by_eval|by_eval|by_eval|vm_compute; reflexivity|vm_compute; reflexivity].
Defined.

Lemma distribution_exact_witness :
  let d := distribute_fee PoSeqFeeParameters.testnet_defaults 7 in
  sequencer_rewards d = 4 ∧ PoSeqFeeDistribution.verify_budget_neutral d = true.
Proof.
  split; [reflexivity|].
  apply (distribution_exact PoSeqFeeParameters.testnet_defaults 7); [exact testnet_ok|reflexivity|by_eval].
Defined.

Lemma suggested_envelope_suffices_witness :
  let p := PoSeqFeeParameters.testnet_defaults in
  let e := suggest_envelope p 200 (mkCongestion 100 64) 600 2000 1 50 10 1 in
  ∃ r, PoSeqFeeCalculator.compute p e 200 (mkCongestion 100 64) 10 = Ok r ∧
    6 * charged_fee r ≤ 5 * max_poseq_fee e + 5.
Proof.
  apply (suggested_envelope_suffices PoSeqFeeParameters.testnet_defaults 200 (mkCongestion 100 64) 600 2000 1 50 10 1);
    first [exact testnet_ok|reflexivity|by_eval].
Defined.
