(* ===== verification/PoseqLedger.v ===== *)
(** * Fee lifecycles and fee accounting of the sequencing layer

    The life of the fees of one intent, the ledger of all of them
    (src/poseq/src/gas/lifecycle.rs), and the totals of a period (accounting.rs).  The
    theorems say which ways a lifecycle can go, what it charges and refunds on each,
    and what it loses on the way. *)

From stdpp Require Import gmap strings list pretty.
From S2P Require Import Prelude PoseqFees.

(** ** Lifecycles *)

(* @src src/poseq/src/gas/lifecycle.rs:29-93 FeeLifecycleState *)
Inductive FeeLifecycleState : Type :=
| FlRejected (reason : string)
| FlPendingReservation
| FlReserved (who : id32) (max_poseq max_runtime total_reserved reserved_at_block : Z)
| FlSequencingCharged (who : id32) (poseq_charged runtime_budget charged_at_block : Z)
| FlRuntimeCharged (who : id32) (poseq_charged runtime_charged total_charged pending_refund charged_at_block : Z)
| FlExpired (who : id32) (penalty pending_refund expired_at_block : Z)
| FlCancelled (who : id32) (pending_refund cancelled_at_block : Z)
| FlRefunded (who : id32) (total_charged total_refunded refunded_at_block : Z)
| FlClosed (who : id32) (total_charged total_refunded closed_at_block : Z).

Module FeeLifecycleState.
(* @src src/poseq/src/gas/lifecycle.rs:96-98 FeeLifecycleState::is_terminal *)
Definition is_terminal (s : FeeLifecycleState) : bool :=
  match s with FlClosed _ _ _ _ | FlRejected _ => true | _ => false end.
(* @src src/poseq/src/gas/lifecycle.rs:100-102 FeeLifecycleState::can_charge_sequencing *)
Definition can_charge_sequencing (s : FeeLifecycleState) : bool :=
  match s with FlReserved _ _ _ _ _ => true | _ => false end.
(* @src src/poseq/src/gas/lifecycle.rs:104-106 FeeLifecycleState::can_charge_runtime *)
Definition can_charge_runtime (s : FeeLifecycleState) : bool :=
  match s with FlSequencingCharged _ _ _ _ => true | _ => false end.
(* @src src/poseq/src/gas/lifecycle.rs:108-113 FeeLifecycleState::can_refund *)
Definition can_refund (s : FeeLifecycleState) : bool :=
  match s with FlRuntimeCharged _ _ _ _ _ _ | FlExpired _ _ _ _ | FlCancelled _ _ _ => true | _ => false end.
End FeeLifecycleState.

(* @src src/poseq/src/gas/lifecycle.rs:129-133 FeeTransitionRecord *)
Record FeeTransitionRecord : Type := mkFeeTransition { ft_from : string; ft_to : string; ft_block : Z }.

(* @src src/poseq/src/gas/lifecycle.rs:121-125 FeeLifecycle *)
Record FeeLifecycle : Type := mkLifecycle {
  fl_intent_id : id32;
  fl_state : FeeLifecycleState;
  fl_transitions : list FeeTransitionRecord }.

(* @src src/poseq/src/gas/lifecycle.rs:137-144 FeeLifecycleError *)
Inductive FeeLifecycleError : Type :=
| FeInvalidTransition (from to : string)
| AlreadyCharged (stage : string)
| AlreadyRefunded
| FeAlreadyClosed
| InsufficientBudget (required available : Z)
| Underflow (field : string).
(** The arrow is the three bytes of its UTF-8 encoding. *)
Definition arrow : string :=
  String (Ascii.ascii_of_N 226) (String (Ascii.ascii_of_N 134) (String (Ascii.ascii_of_N 146) EmptyString)).
(* @src src/poseq/src/gas/lifecycle.rs:147-160 FeeLifecycleError::fmt *)
Definition lifecycle_error_text (e : FeeLifecycleError) : string :=
  match e with
  | FeInvalidTransition from to => "invalid fee transition: " +:+ from +:+ " " +:+ arrow +:+ " " +:+ to
  | AlreadyCharged stage => "fee already charged at stage: " +:+ stage
  | AlreadyRefunded => "refund already issued"
  | FeAlreadyClosed => "lifecycle already closed"
  | InsufficientBudget required available =>
      "insufficient budget: need " +:+ pretty required +:+ ", have " +:+ pretty available
  | Underflow field => "arithmetic underflow in field: " +:+ field
  end.

Module FeeLifecycle.
(* @src src/poseq/src/gas/lifecycle.rs:167-173 FeeLifecycle::new *)
Definition new (i : id32) : FeeLifecycle := mkLifecycle i FlPendingReservation [].

(* @src src/poseq/src/gas/lifecycle.rs:175-187 FeeLifecycle::state_name *)
Definition state_name (s : FeeLifecycleState) : string :=
  match s with
  | FlRejected _ => "Rejected"
  | FlPendingReservation => "PendingReservation"
  | FlReserved _ _ _ _ _ => "Reserved"
  | FlSequencingCharged _ _ _ _ => "SequencingCharged"
  | FlRuntimeCharged _ _ _ _ _ _ => "RuntimeCharged"
  | FlExpired _ _ _ _ => "Expired"
  | FlCancelled _ _ _ => "Cancelled"
  | FlRefunded _ _ _ _ => "Refunded"
  | FlClosed _ _ _ _ => "Closed"
  end.

(** The new state, and the transition recorded. *)
(* @src src/poseq/src/gas/lifecycle.rs:189-195 FeeLifecycle::record_transition *)
Definition go (s : FeeLifecycleState) (block : Z) (l : FeeLifecycle) : FeeLifecycle :=
  mkLifecycle (fl_intent_id l) s
    (fl_transitions l ++ [mkFeeTransition (state_name (fl_state l)) (state_name s) block]).
Definition invalid {A} (to : string) : M FeeLifecycle FeeLifecycleError A := λ l,
  (l, Err (FeInvalidTransition (state_name (fl_state l)) to)).

(* @src src/poseq/src/gas/lifecycle.rs:198-206 FeeLifecycle::reject *)
Definition reject (reason : string) : M FeeLifecycle FeeLifecycleError () := λ l,
  if FeeLifecycleState.is_terminal (fl_state l) then (l, Err FeAlreadyClosed)
  else (go (FlRejected reason) 0 l, Ok tt).

(* @src src/poseq/src/gas/lifecycle.rs:209-234 FeeLifecycle::reserve *)
Definition reserve (who : id32) (max_poseq max_runtime block : Z) : M FeeLifecycle FeeLifecycleError Z := λ l,
  match fl_state l with
  | FlPendingReservation =>
      match checked_add 128 max_poseq max_runtime with
      | None => (l, Err (Underflow "total_reserved"))
      | Some total => (go (FlReserved who max_poseq max_runtime total block) block l, Ok total)
      end
  | _ => invalid "Reserved" l
  end.

(* @src src/poseq/src/gas/lifecycle.rs:237-266 FeeLifecycle::charge_sequencing *)
Definition charge_sequencing (poseq_fee block : Z) : M FeeLifecycle FeeLifecycleError () := λ l,
  match fl_state l with
  | FlReserved who max_poseq max_runtime _ _ =>
      if decide (max_poseq < poseq_fee) then (l, Err (InsufficientBudget poseq_fee max_poseq))
      else (go (FlSequencingCharged who poseq_fee max_runtime block) block l, Ok tt)
  | _ => invalid "SequencingCharged" l
  end.

(* @src src/poseq/src/gas/lifecycle.rs:270-305 FeeLifecycle::charge_runtime *)
Definition charge_runtime (runtime_fee block : Z) : M FeeLifecycle FeeLifecycleError Z := λ l,
  match fl_state l with
  | FlSequencingCharged who poseq_charged budget _ =>
      let actual := Z.min runtime_fee budget in
      let refund := sat_sub budget actual in
      (go (FlRuntimeCharged who poseq_charged actual (sat_add 128 poseq_charged actual) refund block) block l,
       Ok refund)
  | _ => invalid "RuntimeCharged" l
  end.

(* @src src/poseq/src/gas/lifecycle.rs:308-349 FeeLifecycle::expire *)
Definition expire (penalty block : Z) : M FeeLifecycle FeeLifecycleError Z := λ l,
  match fl_state l with
  | FlReserved who _ _ total _ =>
      let actual := Z.min penalty total in
      let refund := sat_sub total actual in
      (go (FlExpired who actual refund block) block l, Ok refund)
  | FlSequencingCharged who poseq_charged budget _ =>
      let actual := Z.min penalty budget in
      let refund := sat_sub budget actual in
      (go (FlExpired who (sat_add 128 poseq_charged actual) refund block) block l, Ok refund)
  | _ => invalid "Expired" l
  end.

(* @src src/poseq/src/gas/lifecycle.rs:352-370 FeeLifecycle::cancel *)
Definition cancel (block : Z) : M FeeLifecycle FeeLifecycleError Z := λ l,
  match fl_state l with
  | FlReserved who _ _ total _ => (go (FlCancelled who total block) block l, Ok total)
  | _ => invalid "Cancelled" l
  end.

(* @src src/poseq/src/gas/lifecycle.rs:373-401 FeeLifecycle::issue_refund *)
Definition issue_refund (block : Z) : M FeeLifecycle FeeLifecycleError Z := λ l,
  match fl_state l with
  | FlRuntimeCharged who _ _ total refund _ => (go (FlRefunded who total refund block) block l, Ok refund)
  | FlExpired who penalty refund _ => (go (FlRefunded who penalty refund block) block l, Ok refund)
  | FlCancelled who refund _ => (go (FlRefunded who 0 refund block) block l, Ok refund)
  | _ => invalid "Refunded" l
  end.

(* @src src/poseq/src/gas/lifecycle.rs:404-428 FeeLifecycle::close *)
Definition close (block : Z) : M FeeLifecycle FeeLifecycleError () := λ l,
  match fl_state l with
  | FlRefunded who charged refunded _ => (go (FlClosed who charged refunded block) block l, Ok tt)
  | FlRejected _ => (l, Ok tt)
  | _ => invalid "Closed" l
  end.

(* @src src/poseq/src/gas/lifecycle.rs:431-444 FeeLifecycle::verify_budget_consistency *)
Definition verify_budget_consistency (l : FeeLifecycle) : bool :=
  match fl_state l with
  | FlClosed _ charged refunded _ => bool_decide (is_Some (checked_add 128 charged refunded))
  | FlRuntimeCharged _ _ _ charged refund _ => bool_decide (is_Some (checked_add 128 charged refund))
  | _ => true
  end.
End FeeLifecycle.

(** ** The ledger *)

(* @src src/poseq/src/gas/lifecycle.rs:451-453 FeeLedger *)
Record FeeLedger : Type := mkFeeLedger { lifecycles : gmap id32 FeeLifecycle }.

Module FeeLedger.
(* @src src/poseq/src/gas/lifecycle.rs:456-458 FeeLedger::new *)
Definition new : FeeLedger := mkFeeLedger ∅.
(* @src src/poseq/src/gas/lifecycle.rs:461-469 FeeLedger::begin *)
Definition begin_lifecycle (i : id32) : M FeeLedger FeeLifecycleError () := λ l,
  if decide (is_Some (lifecycles l !! i)) then (l, Err (AlreadyCharged "reservation already exists"))
  else (mkFeeLedger (<[i := FeeLifecycle.new i]> (lifecycles l)), Ok tt).
(** [get_mut(i)] and a method on the reference, if there is one. *)
(* @src src/poseq/src/gas/lifecycle.rs:472-474 FeeLedger::get_mut *)
Definition with_lifecycle {A} (i : id32) (m : M FeeLifecycle FeeLifecycleError A)
  : FeeLedger → FeeLedger * option (outcome FeeLifecycleError A) := λ l,
  match lifecycles l !! i with
  | None => (l, None)
  | Some lc => let '(lc, r) := m lc in (mkFeeLedger (<[i := lc]> (lifecycles l)), Some r)
  end.
(* @src src/poseq/src/gas/lifecycle.rs:477-479 FeeLedger::get *)
Definition get (l : FeeLedger) (i : id32) : option FeeLifecycle := lifecycles l !! i.
(* @src src/poseq/src/gas/lifecycle.rs:482-484 FeeLedger::active_count *)
Definition active_count (l : FeeLedger) : nat :=
  length (filter (λ lc, FeeLifecycleState.is_terminal (fl_state lc) = false) (btree_values (lifecycles l))).
(* @src src/poseq/src/gas/lifecycle.rs:489-495 FeeLedger::prune_closed_before *)
Definition keeps (block : Z) (lc : FeeLifecycle) : bool :=
  match fl_state lc with
  | FlClosed _ _ _ at_block => bool_decide (block ≤ at_block)
  | FlRejected _ => false
  | _ => true
  end.
(* @src src/poseq/src/gas/lifecycle.rs:487-497 FeeLedger::prune_closed_before *)
Definition prune_closed_before (block : Z) (l : FeeLedger) : FeeLedger * nat :=
  let kept := filter (λ p : Z * FeeLifecycle, keeps block p.2 = true) (lifecycles l) in
  (mkFeeLedger kept, (size (lifecycles l) - size kept)%nat).
End FeeLedger.

(** ** Accounting *)

(* @src src/poseq/src/gas/types.rs:129-153 IntentFeeStatus *)
Inductive IntentFeeStatus : Type :=
| StReserved (total_reserved : Z)
| StPoseqCharged (poseq_fee runtime_remaining : Z)
| StFullyCharged (poseq_fee runtime_fee total_charged refund : Z)
| StExpired (penalty refund : Z)
| StRejected.

(* @src src/poseq/src/gas/accounting.rs:200-205 IntentFeeLedgerEntry *)
Record IntentFeeLedgerEntry : Type := mkFeeEntry {
  fe_intent_id : id32;
  fe_payer : id32;
  fe_status : IntentFeeStatus;
  recorded_at_block : Z }.

(* @src src/poseq/src/gas/accounting.rs:54-65 TipStats *)
Record TipStats : Type := mkTipStats {
  intents_with_tip : Z;
  intents_without_tip : Z;
  total_effective_tips : Z;
  max_effective_tip : Z;
  tips_capped : Z }.

(* @src src/poseq/src/gas/accounting.rs:13-50 PoSeqFeeAccounting *)
Record PoSeqFeeAccounting : Type := mkAccounting {
  total_fees_collected : Z;
  total_runtime_fees_collected : Z;
  total_refunds : Z;
  total_expiry_penalties : Z;
  total_burned : Z;
  total_sequencer_rewards : Z;
  total_shared_security : Z;
  total_treasury : Z;
  intents_charged : Z;
  intents_expired_with_penalty : Z;
  intents_rejected : Z;
  congestion_samples : list (Z * Z);
  batch_distributions : list PoSeqFeeDistribution;
  tip_stats : TipStats;
  fees_by_intent_type : gmap string Z }.

Module PoSeqFeeAccounting.
(* @src src/poseq/src/gas/accounting.rs:74-92 PoSeqFeeAccounting::new *)
Definition new : PoSeqFeeAccounting :=
  mkAccounting 0 0 0 0 0 0 0 0 0 0 0 [] [] (mkTipStats 0 0 0 0 0) ∅.

(* @src src/poseq/src/gas/accounting.rs:107-121 PoSeqFeeAccounting::record_poseq_charge *)
Definition count_tip (tip : Z) (capped : bool) (t : TipStats) : TipStats :=
  let bump (b : bool) n := if b then wrapu 64 (n + 1) else n in
  let tipped := bool_decide (0 < tip) in
  mkTipStats (bump tipped (intents_with_tip t)) (bump (negb tipped) (intents_without_tip t))
    (if tipped then sat_add 128 (total_effective_tips t) tip else total_effective_tips t)
    (if tipped then Z.max (max_effective_tip t) tip else max_effective_tip t)
    (bump capped (tips_capped t)).

(** The total by type is a plain [+=]: it wraps. *)
(* @src src/poseq/src/gas/accounting.rs:95-125 PoSeqFeeAccounting::record_poseq_charge *)
Definition record_poseq_charge (charged refund tip : Z) (capped : bool) (intent_type : string)
    (a : PoSeqFeeAccounting) : PoSeqFeeAccounting :=
  mkAccounting (sat_add 128 (total_fees_collected a) charged) (total_runtime_fees_collected a)
    (sat_add 128 (total_refunds a) refund) (total_expiry_penalties a) (total_burned a)
    (total_sequencer_rewards a) (total_shared_security a) (total_treasury a)
    (wrapu 64 (intents_charged a + 1)) (intents_expired_with_penalty a) (intents_rejected a)
    (congestion_samples a) (batch_distributions a) (count_tip tip capped (tip_stats a))
    (<[intent_type := wrapu 128 (default 0 (fees_by_intent_type a !! intent_type) + charged)]>
       (fees_by_intent_type a)).

(* @src src/poseq/src/gas/accounting.rs:128-131 PoSeqFeeAccounting::record_runtime_charge *)
Definition record_runtime_charge (fee : Z) (a : PoSeqFeeAccounting) : PoSeqFeeAccounting :=
  mkAccounting (total_fees_collected a) (sat_add 128 (total_runtime_fees_collected a) fee)
    (total_refunds a) (total_expiry_penalties a) (total_burned a) (total_sequencer_rewards a)
    (total_shared_security a) (total_treasury a) (intents_charged a) (intents_expired_with_penalty a)
    (intents_rejected a) (congestion_samples a) (batch_distributions a) (tip_stats a)
    (fees_by_intent_type a).

(* @src src/poseq/src/gas/accounting.rs:134-137 PoSeqFeeAccounting::record_expiry_penalty *)
Definition record_expiry_penalty (penalty : Z) (a : PoSeqFeeAccounting) : PoSeqFeeAccounting :=
  mkAccounting (total_fees_collected a) (total_runtime_fees_collected a) (total_refunds a)
    (sat_add 128 (total_expiry_penalties a) penalty) (total_burned a) (total_sequencer_rewards a)
    (total_shared_security a) (total_treasury a) (intents_charged a)
    (wrapu 64 (intents_expired_with_penalty a + 1)) (intents_rejected a) (congestion_samples a)
    (batch_distributions a) (tip_stats a) (fees_by_intent_type a).

(* @src src/poseq/src/gas/accounting.rs:140-142 PoSeqFeeAccounting::record_rejection *)
Definition record_rejection (a : PoSeqFeeAccounting) : PoSeqFeeAccounting :=
  mkAccounting (total_fees_collected a) (total_runtime_fees_collected a) (total_refunds a)
    (total_expiry_penalties a) (total_burned a) (total_sequencer_rewards a) (total_shared_security a)
    (total_treasury a) (intents_charged a) (intents_expired_with_penalty a)
    (wrapu 64 (intents_rejected a + 1)) (congestion_samples a) (batch_distributions a) (tip_stats a)
    (fees_by_intent_type a).

(* @src src/poseq/src/gas/accounting.rs:145-155 PoSeqFeeAccounting::record_distribution *)
Definition record_distribution (d : PoSeqFeeDistribution) (a : PoSeqFeeAccounting) : PoSeqFeeAccounting :=
  mkAccounting (total_fees_collected a) (total_runtime_fees_collected a) (total_refunds a)
    (total_expiry_penalties a) (sat_add 128 (total_burned a) (burn d))
    (sat_add 128 (total_sequencer_rewards a) (sequencer_rewards d))
    (sat_add 128 (total_shared_security a) (shared_security d))
    (sat_add 128 (total_treasury a) (treasury d)) (intents_charged a) (intents_expired_with_penalty a)
    (intents_rejected a) (congestion_samples a) (batch_distributions a ++ [d]) (tip_stats a)
    (fees_by_intent_type a).

(* @src src/poseq/src/gas/accounting.rs:158-164 PoSeqFeeAccounting::record_congestion_sample *)
Definition record_congestion_sample (block bps : Z) (a : PoSeqFeeAccounting) : PoSeqFeeAccounting :=
  let samples := congestion_samples a ++ [(block, bps)] in
  mkAccounting (total_fees_collected a) (total_runtime_fees_collected a) (total_refunds a)
    (total_expiry_penalties a) (total_burned a) (total_sequencer_rewards a) (total_shared_security a)
    (total_treasury a) (intents_charged a) (intents_expired_with_penalty a) (intents_rejected a)
    (if decide (1000 < Z.of_nat (length samples)) then tail samples else samples)
    (batch_distributions a) (tip_stats a) (fees_by_intent_type a).

(* @src src/poseq/src/gas/accounting.rs:167-173 PoSeqFeeAccounting::average_poseq_fee *)
Definition average_poseq_fee (a : PoSeqFeeAccounting) : Z :=
  if decide (intents_charged a = 0) then 0 else total_fees_collected a / intents_charged a.
(* @src src/poseq/src/gas/accounting.rs:176-183 PoSeqFeeAccounting::average_congestion_bps *)
Definition average_congestion_bps (a : PoSeqFeeAccounting) : Z :=
  match congestion_samples a with
  | [] => 10000
  | l => wrapu 64 (sumZ (snd <$> l)) / Z.of_nat (length l)
  end.
(* @src src/poseq/src/gas/accounting.rs:186-195 PoSeqFeeAccounting::verify_accounting *)
Definition verify_accounting (a : PoSeqFeeAccounting) : bool :=
  bool_decide (sat_add 128 (sat_add 128 (sat_add 128 (total_sequencer_rewards a) (total_shared_security a))
                 (total_treasury a)) (total_burned a)
               ≤ sat_add 128 (total_fees_collected a) (total_expiry_penalties a)).
End PoSeqFeeAccounting.


(** ** A lifecycle over any run of its operations *)

Inductive LifecycleOp : Type :=
| OpReject (reason : string)
| OpReserve (who : id32) (max_poseq max_runtime block : Z)
| OpChargeSequencing (fee block : Z)
| OpChargeRuntime (fee block : Z)
| OpExpire (penalty block : Z)
| OpCancel (block : Z)
| OpRefund (block : Z)
| OpClose (block : Z).

(** One call: the lifecycle it leaves, whatever it returns. *)
Definition lifecycle_step (l : FeeLifecycle) (o : LifecycleOp) : FeeLifecycle :=
  match o with
  | OpReject reason => (FeeLifecycle.reject reason l).1
  | OpReserve who p r b => (FeeLifecycle.reserve who p r b l).1
  | OpChargeSequencing fee b => (FeeLifecycle.charge_sequencing fee b l).1
  | OpChargeRuntime fee b => (FeeLifecycle.charge_runtime fee b l).1
  | OpExpire penalty b => (FeeLifecycle.expire penalty b l).1
  | OpCancel b => (FeeLifecycle.cancel b l).1
  | OpRefund b => (FeeLifecycle.issue_refund b l).1
  | OpClose b => (FeeLifecycle.close b l).1
  end.
Definition lifecycle_run (ops : list LifecycleOp) (l : FeeLifecycle) : FeeLifecycle :=
  foldl lifecycle_step l ops.

(** The arguments are unsigned integers of 128 bits. *)
Definition op_fits (o : LifecycleOp) : Prop :=
  match o with
  | OpReserve _ p r _ => fits 128 p ∧ fits 128 r
  | OpChargeSequencing fee _ | OpChargeRuntime fee _ => fits 128 fee
  | OpExpire penalty _ => fits 128 penalty
  | _ => True
  end.

(** [who] reserved [p] for sequencing and [r] for execution. *)
Definition reserved_in (ops : list LifecycleOp) (who : id32) (p r : Z) : Prop :=
  (∃ b, OpReserve who p r b ∈ ops) ∧ 0 ≤ p ∧ 0 ≤ r ∧ p + r < 2 ^ 128.

(** The states a lifecycle with budgets [p] and [r] passed on its way to the refund,
    what it still held when the last of them charged it, and what it charged in all:
    nothing when it was cancelled; a penalty out of the whole reservation when it
    expired before sequencing; the fee of sequencing and a penalty, or the fee of
    execution, out of the runtime budget otherwise. *)
Inductive charged_by (ops : list LifecycleOp) (p r : Z) : list string → Z → Z → Prop :=
| ChargedCancelled b : OpCancel b ∈ ops → charged_by ops p r ["Cancelled"] (p + r) 0
| ChargedExpired n b : OpExpire n b ∈ ops → 0 ≤ n →
    charged_by ops p r ["Expired"] (p + r) (Z.min n (p + r))
| ChargedLate fee b n b' : OpChargeSequencing fee b ∈ ops → OpExpire n b' ∈ ops → 0 ≤ fee ≤ p → 0 ≤ n →
    charged_by ops p r ["SequencingCharged"; "Expired"] (fee + r) (fee + Z.min n r)
| ChargedRun fee b n b' : OpChargeSequencing fee b ∈ ops → OpChargeRuntime n b' ∈ ops → 0 ≤ fee ≤ p → 0 ≤ n →
    charged_by ops p r ["SequencingCharged"; "RuntimeCharged"] (fee + r) (fee + Z.min n r).

(** The audit trail of a lifecycle goes through the states [names] and ends where it is. *)
Definition steps_of (names : list string) : list (string * string) := zip names (tail names).
Definition trail (l : FeeLifecycle) (names : list string) : Prop :=
  (λ t, (ft_from t, ft_to t)) <$> fl_transitions l = steps_of names ∧
  last names = Some (FeeLifecycle.state_name (fl_state l)).

Lemma steps_of_snoc names a b : last names = Some a → steps_of (names ++ [b]) = steps_of names ++ [(a, b)].
Proof.
  induction names as [| x [| y names] IH]; [done | by intros [= ->] |].
  intros E. unfold steps_of in *. cbn in *. by rewrite (IH E).
Qed.

Lemma go_trail s b l names : trail l names →
  trail (FeeLifecycle.go s b l) (names ++ [FeeLifecycle.state_name s]).
Proof.
  intros [E L]. split; cbn [FeeLifecycle.go fl_transitions fl_state].
  - by rewrite fmap_app, E, (steps_of_snoc _ _ _ L).
  - by rewrite last_snoc.
Qed.

(** A lifecycle that held [held], charged [charged] and has [refund] to give back, or
    gave it back, after [tail]. *)
Definition accounted (ops : list LifecycleOp) (l : FeeLifecycle) (tail : list string)
    (who : id32) (charged refund : Z) : Prop :=
  ∃ mid p r held, reserved_in ops who p r ∧ charged_by ops p r mid held charged ∧
    trail l (["PendingReservation"; "Reserved"] ++ mid ++ tail) ∧ 0 ≤ refund ∧ charged + refund = held.

(** What a state says of the run that led to it. *)
Definition state_accounts (ops : list LifecycleOp) (l : FeeLifecycle) : Prop :=
  match fl_state l with
  | FlRejected _ => True
  | FlPendingReservation => trail l ["PendingReservation"]
  | FlReserved who p r total _ =>
      reserved_in ops who p r ∧ total = p + r ∧ trail l ["PendingReservation"; "Reserved"]
  | FlSequencingCharged who fee r _ =>
      ∃ p b, reserved_in ops who p r ∧ OpChargeSequencing fee b ∈ ops ∧ 0 ≤ fee ≤ p ∧
        trail l ["PendingReservation"; "Reserved"; "SequencingCharged"]
  | FlRuntimeCharged who _ _ total refund _ => accounted ops l [] who total refund
  | FlExpired who penalty refund _ => accounted ops l [] who penalty refund
  | FlCancelled who refund _ => accounted ops l [] who 0 refund
  | FlRefunded who charged refunded _ => accounted ops l ["Refunded"] who charged refunded
  | FlClosed who charged refunded _ => accounted ops l ["Refunded"; "Closed"] who charged refunded
  end.

Section Accounts.
Context (ops : list LifecycleOp).

Lemma reserved_in_app o who p r : reserved_in ops who p r → reserved_in (ops ++ [o]) who p r.
Proof. intros [[b Hb] H]. split; [exists b; set_solver | exact H]. Qed.
Lemma charged_by_app o p r mid held c : charged_by ops p r mid held c → charged_by (ops ++ [o]) p r mid held c.
Proof.
  destruct 1; [eapply ChargedCancelled | eapply ChargedExpired | eapply ChargedLate | eapply ChargedRun];
    try done; apply elem_of_app; by left.
Qed.
Lemma accounted_app o l tl who c r : accounted ops l tl who c r → accounted (ops ++ [o]) l tl who c r.
Proof.
  intros (mid & p & r' & held & H1 & H2 & H3). exists mid, p, r', held.
  eauto using reserved_in_app, charged_by_app.
Qed.

(** What was said of a state stays true of a longer run. *)
Lemma state_accounts_app o l : state_accounts ops l → state_accounts (ops ++ [o]) l.
Proof.
  unfold state_accounts. destruct (fl_state l); eauto using accounted_app.
  - intros [? ?]; eauto using reserved_in_app.
  - intros (p & b & ? & ? & ?). exists p, b. split_and!; [by apply reserved_in_app | set_solver | naive_solver..].
Qed.

Lemma accounted_go s b l tl who c r :
  accounted ops l tl who c r →
  accounted ops (FeeLifecycle.go s b l) (tl ++ [FeeLifecycle.state_name s]) who c r.
Proof.
  intros (mid & p & r' & held & H1 & H2 & H3 & H4). exists mid, p, r', held.
  split_and!; try done; [| naive_solver..]. apply (go_trail s b) in H3.
  by rewrite <- !app_assoc in H3.
Qed.
End Accounts.

Create HintDb ledger.
#[export] Hint Resolve state_accounts_app reserved_in_app charged_by_app accounted_app : ledger.

Section Step.
Context (ops : list LifecycleOp) (l : FeeLifecycle).
Hypothesis Haccounts : state_accounts ops l.

(** The calls that are refused leave everything as it is. *)
Ltac refused E := try (by apply state_accounts_app, Haccounts).

Lemma reserve_accounts who p r b : fits 128 p → fits 128 r →
  state_accounts (ops ++ [OpReserve who p r b]) (FeeLifecycle.reserve who p r b l).1.
Proof.
  intros Hp Hr. pose proof Haccounts as Ha. unfold FeeLifecycle.reserve, FeeLifecycle.invalid.
  destruct (fl_state l) eqn:E; refused E. unfold checked_add. case_decide as Hd; refused E.
  unfold state_accounts in Ha. rewrite E in Ha. split_and!; [| done | exact (go_trail _ _ _ _ Ha)].
  split; [exists b; set_solver |]. ints.
Qed.

Lemma charge_sequencing_accounts fee b : fits 128 fee →
  state_accounts (ops ++ [OpChargeSequencing fee b]) (FeeLifecycle.charge_sequencing fee b l).1.
Proof.
  intros Hf. pose proof Haccounts as Ha. unfold FeeLifecycle.charge_sequencing, FeeLifecycle.invalid.
  destruct (fl_state l) eqn:E; refused E. case_decide; refused E.
  unfold state_accounts in Ha. rewrite E in Ha. destruct Ha as (Hres & _ & Ht).
  exists max_poseq, b. split_and!; [by apply reserved_in_app | set_solver | ints | ints | exact (go_trail _ _ _ _ Ht)].
Qed.

Lemma charge_runtime_accounts fee b : fits 128 fee →
  state_accounts (ops ++ [OpChargeRuntime fee b]) (FeeLifecycle.charge_runtime fee b l).1.
Proof.
  intros Hf. pose proof Haccounts as Ha. unfold FeeLifecycle.charge_runtime, FeeLifecycle.invalid.
  destruct (fl_state l) eqn:E; refused E.
  unfold state_accounts in Ha. rewrite E in Ha. destruct Ha as (p & b' & Hres & Hin & Hfee & Ht).
  pose proof Hres as (_ & ? & ? & ?).
  exists ["SequencingCharged"; "RuntimeCharged"], p, runtime_budget, (poseq_charged + runtime_budget).
  split_and!; [by apply reserved_in_app | | exact (go_trail _ _ _ _ Ht) | ints..].
  replace (sat_add 128 poseq_charged (Z.min fee runtime_budget)) with (poseq_charged + Z.min fee runtime_budget)
    by ints.
  eapply ChargedRun; [apply elem_of_app; left; done | apply elem_of_app; right; by left | done | ints].
Qed.

Lemma expire_accounts penalty b : fits 128 penalty →
  state_accounts (ops ++ [OpExpire penalty b]) (FeeLifecycle.expire penalty b l).1.
Proof.
  intros Hf. pose proof Haccounts as Ha. unfold FeeLifecycle.expire, FeeLifecycle.invalid.
  destruct (fl_state l) eqn:E; refused E; unfold state_accounts in Ha; rewrite E in Ha.
  - destruct Ha as (Hres & -> & Ht). pose proof Hres as (_ & ? & ? & ?).
    exists ["Expired"], max_poseq, max_runtime, (max_poseq + max_runtime).
    split_and!; [by apply reserved_in_app | | exact (go_trail _ _ _ _ Ht) | ints..].
    eapply ChargedExpired; [apply elem_of_app; right; by left | ints].
  - destruct Ha as (p & b' & Hres & Hin & Hfee & Ht). pose proof Hres as (_ & ? & ? & ?).
    exists ["SequencingCharged"; "Expired"], p, runtime_budget, (poseq_charged + runtime_budget).
    split_and!; [by apply reserved_in_app | | exact (go_trail _ _ _ _ Ht) | ints..].
    replace (sat_add 128 poseq_charged (Z.min penalty runtime_budget))
      with (poseq_charged + Z.min penalty runtime_budget) by ints.
    eapply ChargedLate; [apply elem_of_app; left; done | apply elem_of_app; right; by left | done | ints].
Qed.

Lemma cancel_accounts b : state_accounts (ops ++ [OpCancel b]) (FeeLifecycle.cancel b l).1.
Proof.
  pose proof Haccounts as Ha. unfold FeeLifecycle.cancel, FeeLifecycle.invalid.
  destruct (fl_state l) eqn:E; refused E; unfold state_accounts in Ha; rewrite E in Ha.
  destruct Ha as (Hres & -> & Ht). pose proof Hres as (_ & ? & ? & ?).
  exists ["Cancelled"], max_poseq, max_runtime, (max_poseq + max_runtime).
  split_and!; [by apply reserved_in_app | | exact (go_trail _ _ _ _ Ht) | lia..].
  eapply ChargedCancelled. apply elem_of_app; right; by left.
Qed.

Lemma end_accounts b :
  state_accounts (ops ++ [OpRefund b]) (FeeLifecycle.issue_refund b l).1 ∧
  state_accounts (ops ++ [OpClose b]) (FeeLifecycle.close b l).1.
Proof.
  pose proof Haccounts as Ha. unfold FeeLifecycle.issue_refund, FeeLifecycle.close, FeeLifecycle.invalid.
  split; destruct (fl_state l) eqn:E; refused E; unfold state_accounts in Ha; rewrite E in Ha;
    exact (accounted_app _ _ _ _ _ _ _ (accounted_go _ _ _ _ _ _ _ _ Ha)).
Qed.

Lemma lifecycle_step_accounts o :
  op_fits o → state_accounts (ops ++ [o]) (lifecycle_step l o).
Proof.
  destruct o; cbn [lifecycle_step op_fits].
  - intros _. unfold FeeLifecycle.reject. case_match; [by apply state_accounts_app | done].
  - intros [? ?]. by apply reserve_accounts.
  - apply charge_sequencing_accounts.
  - apply charge_runtime_accounts.
  - apply expire_accounts.
  - intros _. apply cancel_accounts.
  - intros _. apply end_accounts.
  - intros _. apply end_accounts.
Qed.
End Step.

(** The invariant over a run. *)
Lemma lifecycle_run_accounts i ops :
  Forall op_fits ops → state_accounts ops (lifecycle_run ops (FeeLifecycle.new i)).
Proof.
  induction ops as [| o ops IH] using rev_ind; [done |]. rewrite Forall_app, Forall_singleton.
  intros [Hops Ho]. unfold lifecycle_run. rewrite foldl_app. cbn. by apply lifecycle_step_accounts, Ho; auto.
Qed.

(** What a lifecycle holds is at most what was reserved. *)
Lemma charged_by_bounds ops p r mid held c :
  0 ≤ p → 0 ≤ r → charged_by ops p r mid held c → 0 ≤ c ≤ held ∧ held ≤ p + r.
Proof. destruct 3; lia. Qed.

(** What is charged and refunded never exceeds an integer: the consistency check passes. *)
Lemma run_consistent i ops : Forall op_fits ops →
  FeeLifecycle.verify_budget_consistency (lifecycle_run ops (FeeLifecycle.new i)) = true.
Proof.
  intros H%(lifecycle_run_accounts i). unfold FeeLifecycle.verify_budget_consistency.
  unfold state_accounts in H.
  destruct (fl_state (lifecycle_run ops (FeeLifecycle.new i))); try done;
    destruct H as (mid & p & r & held & (_ & ? & ? & ?) & Hc & _ & ? & ?);
    apply charged_by_bounds in Hc; try done; apply bool_decide_eq_true;
    unfold checked_add; (case_decide; [eauto | ints]).
Qed.

(** A lifecycle that ended stays as it is. *)
Lemma terminal_stays l o : FeeLifecycleState.is_terminal (fl_state l) = true → lifecycle_step l o = l.
Proof.
  destruct o; cbn [lifecycle_step];
    unfold FeeLifecycle.reject, FeeLifecycle.reserve, FeeLifecycle.charge_sequencing,
      FeeLifecycle.charge_runtime, FeeLifecycle.expire, FeeLifecycle.cancel, FeeLifecycle.issue_refund,
      FeeLifecycle.close; by destruct (fl_state l).
Qed.

(** C37: Whatever calls are made on a fee lifecycle, in whatever order: when it is
    refunded or closed, its audit trail is one of the four ways of the state machine
    from the reservation to the refund, each stage charged at most once, and what it
    charged is exactly what that way takes: nothing when it was cancelled, the penalty
    up to the reservation when it expired before sequencing, and the fee of sequencing
    plus the penalty or the fee of execution, up to the runtime budget, otherwise.
    What it refunded is at least everything else it still held, and never lets charges
    and refund exceed the reservation; without a charge for sequencing, or with one of the
    whole sequencing budget, charges and refund are exactly the reservation.  A closed
    or rejected lifecycle does not change again, and the consistency check passes.
    (Whether the rest of a partly charged sequencing budget is refunded is left open
    here; [sequencing_rest_lost] says that it is not.) *)
Theorem lifecycle_accounts i ops :
  Forall op_fits ops →
  let l := lifecycle_run ops (FeeLifecycle.new i) in
  FeeLifecycle.verify_budget_consistency l = true ∧
  (FeeLifecycleState.is_terminal (fl_state l) = true → ∀ o, lifecycle_step l o = l) ∧
  ∀ who charged refunded b tl,
    (fl_state l = FlRefunded who charged refunded b ∧ tl = ["Refunded"] ∨
     fl_state l = FlClosed who charged refunded b ∧ tl = ["Refunded"; "Closed"]) →
    ∃ mid p r held, (∃ b, OpReserve who p r b ∈ ops) ∧
      trail l (["PendingReservation"; "Reserved"] ++ mid ++ tl) ∧
      charged_by ops p r mid held charged ∧
      held ≤ charged + refunded ≤ p + r.
Proof.
  intros Hops l. pose proof (lifecycle_run_accounts i ops Hops) as H. fold l in H.
  split_and!; [by apply run_consistent | intros Ht o; by apply terminal_stays |].
  intros who c rf b tl Hst.
  assert (accounted ops l tl who c rf) as (mid & p & r & held & (Hin & ? & ? & ?) & Hc & Ht & ? & ?).
  { unfold state_accounts in H. by destruct Hst as [[E ->] | [E ->]]; rewrite E in H. }
  exists mid, p, r, held. pose proof Hc as Hb. apply charged_by_bounds in Hb; [| done..].
  split_and!; [done | done | done | lia..].
Qed.

(** The rest of a sequencing budget that was charged in part is neither charged nor
    refunded: charges and refund are what was held after the charge, the fee and the
    runtime budget, although the reservation was [p + r]. *)
Theorem sequencing_rest_lost i ops who charged refunded b :
  Forall op_fits ops →
  fl_state (lifecycle_run ops (FeeLifecycle.new i)) = FlClosed who charged refunded b →
  (∀ b, OpCancel b ∉ ops) → (∀ n b, OpExpire n b ∉ ops) →
  ∃ p r fee, (∃ b, OpReserve who p r b ∈ ops) ∧ (∃ b, OpChargeSequencing fee b ∈ ops) ∧
    charged + refunded = fee + r ∧ fee ≤ p.
Proof.
  intros Hops E Hnc Hne. pose proof (lifecycle_run_accounts i ops Hops) as H.
  unfold state_accounts in H. rewrite E in H.
  destruct H as (mid & p & r & held & (Hin & _) & Hc & _ & _ & Hsum).
  destruct Hc as [? Hin' | ? ? Hin' | ? ? ? ? _ Hin' | fee b1 n b2 Hfee _ Hle _];
    [by destruct (Hnc _ Hin') | by destruct (Hne _ _ Hin').. |].
  exists p, r, fee. split_and!; [done | by eexists | lia..].
Qed.

(** A lifecycle with a budget of 100 and 300, charged 40 and 250. *)
Definition sample_lifecycle_ops : list LifecycleOp :=
  [OpReserve 7 100 300 1; OpChargeSequencing 40 2; OpChargeRuntime 250 3; OpCancel 3; OpRefund 4; OpClose 5].
Definition sample_lifecycle : FeeLifecycle := lifecycle_run sample_lifecycle_ops (FeeLifecycle.new 1).

Lemma sample_ops_fit : Forall op_fits sample_lifecycle_ops.
Proof. repeat constructor; vm_compute; congruence. Qed.

Lemma lifecycle_accounts_witness :
  fl_state sample_lifecycle = FlClosed 7 290 50 5 ∧
  ∃ mid p r held, (∃ b, OpReserve 7 p r b ∈ sample_lifecycle_ops) ∧
    trail sample_lifecycle (["PendingReservation"; "Reserved"] ++ mid ++ ["Refunded"; "Closed"]) ∧
    charged_by sample_lifecycle_ops p r mid held 290 ∧ held ≤ 290 + 50 ≤ p + r.
Proof.
  split; [reflexivity |].
  refine (proj2 (proj2 (lifecycle_accounts 1 sample_lifecycle_ops sample_ops_fit)) 7 290 50 5 _ _).
  right. split; reflexivity.
Defined.
