(* ===== verification/PoseqBids.v ===== *)
(** * Priorities and the solver fee market of the sequencing layer

    The priority score of an intent (src/poseq/src/gas/priority.rs) and the ranking of
    solver bids with what protects the user from them (solver_market.rs).  The theorems
    bound what a tip buys, and say which bid an auction selects. *)

From stdpp Require Import gmap strings list sorting pretty.
From S2P Require Import Prelude Concrete Sorting.

(** ** Priorities *)

(* @src src/poseq/src/gas/priority.rs:22-37 PriorityConfig *)
Record PriorityConfig : Type := mkPriorityConfig {
  fairness_class_weight_bps : Z;
  urgency_weight_bps : Z;
  tip_weight_bps : Z;
  starvation_weight_bps : Z;
  urgency_horizon_blocks : Z;
  starvation_threshold_blocks : Z;
  max_starvation_boost : Z }.

(* @src src/poseq/src/gas/priority.rs:66-81 PriorityInput *)
Record PriorityInput : Type := mkPriorityInput {
  fairness_class_weight : Z;
  admitted_at_block : Z;
  pi_deadline : Z;
  pi_current_block : Z;
  pi_effective_tip : Z;
  pi_tip_cap : Z;
  pi_is_protected : bool }.

(* @src src/poseq/src/gas/priority.rs:85-97 PriorityScore *)
Record PriorityScore : Type := mkPriorityScore {
  fairness_component : Z;
  urgency_component : Z;
  tip_component : Z;
  starvation_component : Z;
  composite : Z;
  starvation_active : bool;
  ps_is_protected : bool }.

Module PriorityConfig.
(* @src src/poseq/src/gas/priority.rs:40-50 PriorityConfig::default *)
Definition default : PriorityConfig := mkPriorityConfig 4000 2500 1500 2000 50 100 10000.
(* @src src/poseq/src/gas/priority.rs:55-61 PriorityConfig::validate *)
Definition validate (c : PriorityConfig) : bool :=
  bool_decide (sat_add 64 (sat_add 64 (sat_add 64 (fairness_class_weight_bps c) (urgency_weight_bps c))
                 (tip_weight_bps c)) (starvation_weight_bps c) = 10000).
End PriorityConfig.

(* @src src/poseq/src/gas/priority.rs:183-199 compute_urgency *)
Definition compute_urgency (i : PriorityInput) (horizon : Z) : Z :=
  if decide (pi_deadline i ≤ pi_current_block i) then 10000
  else
    let remaining := sat_sub (pi_deadline i) (pi_current_block i) in
    if decide (horizon ≤ remaining ∨ horizon = 0) then 0
    else sat_mul 64 (sat_sub horizon remaining) 10000 / horizon.

(** When the product does not fit, the tip is divided by the cap first: the score is
    nothing, the tip being below the cap. *)
(* @src src/poseq/src/gas/priority.rs:116-135 compute_priority *)
Definition tip_score (tip cap : Z) : Z :=
  if decide (cap = 0) then 0
  else if decide (cap ≤ tip) then 10000
  else
    let normalized := if decide (tip * 10000 < 2 ^ 128) then tip * 10000 / cap
                      else sat_mul 128 (tip / cap) 10000 in
    Z.min (wrapu 64 normalized) 10000.

(* @src src/poseq/src/gas/priority.rs:138-146 compute_priority *)
Definition starvation_score (c : PriorityConfig) (waiting : Z) : Z :=
  if decide (starvation_threshold_blocks c ≤ waiting) then
    Z.min (sat_mul 64 (sat_sub waiting (starvation_threshold_blocks c)) 100) (max_starvation_boost c)
  else 0.

Definition weighted (raw bps : Z) : Z := sat_mul 64 raw bps / 10000.
(* @src src/poseq/src/gas/priority.rs:105-176 compute_priority *)
Definition compute_priority (c : PriorityConfig) (i : PriorityInput) : PriorityScore :=
  let waiting := sat_sub (pi_current_block i) (admitted_at_block i) in
  let fairness := weighted (Z.min (fairness_class_weight i) 10000) (fairness_class_weight_bps c) in
  let urgency := weighted (compute_urgency i (urgency_horizon_blocks c)) (urgency_weight_bps c) in
  let tip := weighted (tip_score (pi_effective_tip i) (pi_tip_cap i)) (tip_weight_bps c) in
  let starvation := weighted (starvation_score c waiting) (starvation_weight_bps c) in
  mkPriorityScore fairness urgency tip starvation
    (sat_add 64 (sat_add 64 (sat_add 64 fairness urgency) tip) starvation)
    (bool_decide (starvation_threshold_blocks c ≤ waiting)) (pi_is_protected i).

(** ** Bids *)

(* @src src/poseq/src/gas/solver_market.rs:36-43 SolverPricingMode *)
Inductive SolverPricingMode : Type := FixedQuote | CappedQuote | MarketRate.

(* @src src/poseq/src/gas/solver_market.rs:23-32 SolverFeeTerms *)
Record SolverFeeTerms : Type := mkFeeTerms {
  max_solver_fee : Z;
  pricing_mode : SolverPricingMode;
  require_timely_settlement : bool;
  max_completion_blocks : Z }.

(* @src src/poseq/src/gas/solver_market.rs:69-88 SolverBid *)
Record SolverBid : Type := mkBid {
  bid_id : id32;
  bid_solver_id : id32;
  target_id : id32;
  batch_window : Z;
  quoted_solver_fee : Z;
  expected_execution_cost : Z;
  expected_completion_blocks : Z;
  bid_expiry : Z;
  bid_signature : bytes }.

(* @src src/poseq/src/gas/solver_market.rs:629-637 SolverMarketError *)
Inductive SolverMarketError : Type :=
| InvalidBid (reason : string)
| InvalidFeeTerms (reason : string)
| InvalidRankingParams (reason : string)
| BidExpired (id : id32) (expiry current_block : Z)
| SolverNotEligible (solver : id32) (reason : string)
| DuplicateBid (id : id32)
| BidRateLimitExceeded (solver : id32) (count max : Z).
(* @src src/poseq/src/gas/solver_market.rs:640-653 SolverMarketError::fmt *)
Definition market_error_text (e : SolverMarketError) : string :=
  match e with
  | InvalidBid r => "invalid bid: " +:+ r
  | InvalidFeeTerms r => "invalid fee terms: " +:+ r
  | InvalidRankingParams r => "invalid ranking params: " +:+ r
  | BidExpired _ expiry now => "bid expired at " +:+ pretty expiry +:+ " (current " +:+ pretty now +:+ ")"
  | SolverNotEligible _ reason => "solver not eligible: " +:+ reason
  | DuplicateBid _ => "duplicate bid"
  | BidRateLimitExceeded _ count max => "bid rate limit: " +:+ pretty count +:+ " >= " +:+ pretty max
  end.

Module SolverFeeTerms.
(* @src src/poseq/src/gas/solver_market.rs:46-53 SolverFeeTerms::default *)
Definition default : SolverFeeTerms := mkFeeTerms 0 CappedQuote true 20.
(* @src src/poseq/src/gas/solver_market.rs:57-64 SolverFeeTerms::validate *)
Definition validate (t : SolverFeeTerms) : outcome SolverMarketError () :=
  if decide (max_completion_blocks t = 0 ∧ require_timely_settlement t = true)
  then Err (InvalidFeeTerms "max_completion_blocks cannot be 0 with timely settlement required")
  else Ok tt.
End SolverFeeTerms.

Module SolverBid.
(* @src src/poseq/src/gas/solver_market.rs:92-103 SolverBid::compute_bid_id *)
Definition compute_bid_id `{Sha256} (b : SolverBid) : id32 :=
  sha256 (be_bytes 32 (bid_solver_id b) ++ be_bytes 32 (target_id b) ++ be_bytes 8 (batch_window b) ++
          be_bytes 16 (quoted_solver_fee b) ++ be_bytes 8 (bid_expiry b)).
(* @src src/poseq/src/gas/solver_market.rs:106-124 SolverBid::validate *)
Definition validate (b : SolverBid) (current_block : Z) : outcome SolverMarketError () :=
  if decide (bid_solver_id b = 0) then Err (InvalidBid "zero solver_id")
  else if decide (target_id b = 0) then Err (InvalidBid "zero target_id")
  else if decide (bid_signature b = []) then Err (InvalidBid "missing signature")
  else if decide (bid_expiry b < current_block) then Err (BidExpired (bid_id b) (bid_expiry b) current_block)
  else Ok tt.
(* @src src/poseq/src/gas/solver_market.rs:127-129 SolverBid::respects_terms *)
Definition respects_terms (b : SolverBid) (t : SolverFeeTerms) : bool :=
  bool_decide (quoted_solver_fee b ≤ max_solver_fee t).
End SolverBid.

(** ** Ranking *)

(* @src src/poseq/src/gas/solver_market.rs:138-151 AuctionRankingParams *)
Record AuctionRankingParams : Type := mkRankingParams {
  price_weight_bps : Z;
  reliability_weight_bps : Z;
  latency_weight_bps : Z;
  history_weight_bps : Z;
  min_reliability_score : Z;
  max_bids_per_solver : Z }.
Module AuctionRankingParams.
(* @src src/poseq/src/gas/solver_market.rs:154-163 AuctionRankingParams::default *)
Definition default : AuctionRankingParams := mkRankingParams 4000 3000 1000 2000 1000 5.
(* @src src/poseq/src/gas/solver_market.rs:167-178 AuctionRankingParams::validate *)
Definition validate (p : AuctionRankingParams) : outcome SolverMarketError () :=
  let total := sat_add 64 (sat_add 64 (sat_add 64 (price_weight_bps p) (reliability_weight_bps p))
                             (latency_weight_bps p)) (history_weight_bps p) in
  if decide (total ≠ 10000)
  then Err (InvalidRankingParams ("weights sum to " +:+ pretty total +:+ " instead of 10000"))
  else Ok tt.
End AuctionRankingParams.

(* @src src/poseq/src/gas/solver_market.rs:183-195 SolverPerformanceProfile *)
Record SolverPerformanceProfile : Type := mkPerformance {
  sp_solver_id : id32;
  bids_submitted : Z;
  bids_won : Z;
  settlements_completed : Z;
  settlements_failed : Z;
  invalid_plan_count : Z;
  timeout_count : Z;
  avg_latency_blocks : Z;
  sp_reliability_score : Z }.

Module SolverPerformanceProfile.
(* @src src/poseq/src/gas/solver_market.rs:198-210 SolverPerformanceProfile::new *)
Definition new (i : id32) : SolverPerformanceProfile := mkPerformance i 0 0 0 0 0 0 0 5000.

(* @src src/poseq/src/gas/solver_market.rs:213-242 SolverPerformanceProfile::recompute_reliability *)
Definition reliability (completed failed invalid timeouts : Z) : Z :=
  let attempts := wrapu 64 (completed + failed) in
  if decide (attempts = 0) then 5000
  else
    let success := wrapu 64 (sat_mul 128 completed 10000 / attempts) in
    Z.min (sat_sub (sat_sub success (Z.min (sat_mul 64 invalid 500) 5000))
             (Z.min (sat_mul 64 timeouts 300) 3000)) 10000.
Definition recompute_reliability (p : SolverPerformanceProfile) : SolverPerformanceProfile :=
  mkPerformance (sp_solver_id p) (bids_submitted p) (bids_won p) (settlements_completed p)
    (settlements_failed p) (invalid_plan_count p) (timeout_count p) (avg_latency_blocks p)
    (reliability (settlements_completed p) (settlements_failed p) (invalid_plan_count p) (timeout_count p)).

(* @src src/poseq/src/gas/solver_market.rs:245-247 SolverPerformanceProfile::record_bid *)
Definition record_bid (p : SolverPerformanceProfile) : SolverPerformanceProfile :=
  mkPerformance (sp_solver_id p) (wrapu 64 (bids_submitted p + 1)) (bids_won p) (settlements_completed p)
    (settlements_failed p) (invalid_plan_count p) (timeout_count p) (avg_latency_blocks p)
    (sp_reliability_score p).
(* @src src/poseq/src/gas/solver_market.rs:250-252 SolverPerformanceProfile::record_win *)
Definition record_win (p : SolverPerformanceProfile) : SolverPerformanceProfile :=
  mkPerformance (sp_solver_id p) (bids_submitted p) (wrapu 64 (bids_won p + 1)) (settlements_completed p)
    (settlements_failed p) (invalid_plan_count p) (timeout_count p) (avg_latency_blocks p)
    (sp_reliability_score p).

(** The average divides by the count after it is incremented: a count that wraps to
    nothing stops the program. *)
(* @src src/poseq/src/gas/solver_market.rs:255-268 SolverPerformanceProfile::record_settlement_success *)
Definition record_settlement_success (latency : Z) (p : SolverPerformanceProfile)
  : total_or_panic SolverPerformanceProfile :=
  let n := wrapu 64 (settlements_completed p + 1) in
  let set avg := recompute_reliability
    (mkPerformance (sp_solver_id p) (bids_submitted p) (bids_won p) n (settlements_failed p)
       (invalid_plan_count p) (timeout_count p) avg (sp_reliability_score p)) in
  if decide (n = 1) then Ok (set latency)
  else if decide (n = 0) then Panic
  else Ok (set (sat_add 64 (sat_mul 64 (avg_latency_blocks p) (n - 1)) latency / n)).

(* @src src/poseq/src/gas/solver_market.rs:271-274 SolverPerformanceProfile::record_settlement_failure *)
Definition record_settlement_failure (p : SolverPerformanceProfile) : SolverPerformanceProfile :=
  recompute_reliability
    (mkPerformance (sp_solver_id p) (bids_submitted p) (bids_won p) (settlements_completed p)
       (wrapu 64 (settlements_failed p + 1)) (invalid_plan_count p) (timeout_count p)
       (avg_latency_blocks p) (sp_reliability_score p)).
(* @src src/poseq/src/gas/solver_market.rs:277-280 SolverPerformanceProfile::record_invalid_plan *)
Definition record_invalid_plan (p : SolverPerformanceProfile) : SolverPerformanceProfile :=
  recompute_reliability
    (mkPerformance (sp_solver_id p) (bids_submitted p) (bids_won p) (settlements_completed p)
       (settlements_failed p) (wrapu 64 (invalid_plan_count p + 1)) (timeout_count p)
       (avg_latency_blocks p) (sp_reliability_score p)).
(* @src src/poseq/src/gas/solver_market.rs:283-286 SolverPerformanceProfile::record_timeout *)
Definition record_timeout (p : SolverPerformanceProfile) : SolverPerformanceProfile :=
  recompute_reliability
    (mkPerformance (sp_solver_id p) (bids_submitted p) (bids_won p) (settlements_completed p)
       (settlements_failed p) (invalid_plan_count p) (wrapu 64 (timeout_count p + 1))
       (avg_latency_blocks p) (sp_reliability_score p)).
End SolverPerformanceProfile.

(* @src src/poseq/src/gas/solver_market.rs:291-300 RankedBid *)
Record RankedBid : Type := mkRanked {
  rb_bid : SolverBid;
  price_score : Z;
  reliability_score : Z;
  latency_score : Z;
  history_score : Z;
  composite_score : Z;
  tiebreak_key : id32 }.

Abbreviation Profiles := (gmap id32 SolverPerformanceProfile).

Section Ranking.
Context `{Sha256} (profiles : Profiles) (terms : SolverFeeTerms) (params : AuctionRankingParams)
  (current_block : Z).

(* @src src/poseq/src/gas/solver_market.rs:317-317 rank_bids *)
Definition acceptable (b : SolverBid) : bool :=
  match SolverBid.validate b current_block with Ok _ => SolverBid.respects_terms b terms | _ => false end.

(** The largest fee among the acceptable bids, at least one. *)
(* @src src/poseq/src/gas/solver_market.rs:316-321 rank_bids *)
Definition max_fee (bids : list SolverBid) : Z :=
  foldr Z.max 1 (quoted_solver_fee <$> filter (λ b, acceptable b = true) bids).

(* @src src/poseq/src/gas/solver_market.rs:359-368 rank_bids *)
Definition history_of (profile : option SolverPerformanceProfile) : Z :=
  match profile with
  | Some p =>
      if decide (bids_submitted p = 0) then 5000
      else Z.min (wrapu 64 (sat_mul 128 (bids_won p) 10000 / bids_submitted p)) 10000
  | None => 5000
  end.
(* @src src/poseq/src/gas/solver_market.rs:351-356 rank_bids *)
Definition latency_of (blocks : Z) : Z :=
  if decide (blocks = 0) then 10000 else sat_sub 10000 (sat_mul 64 blocks 500).
(* @src src/poseq/src/gas/solver_market.rs:339-344 rank_bids *)
Definition price_of (fee highest : Z) : Z :=
  sat_sub 10000 (wrapu 64 (sat_mul 128 fee 10000 / highest)).

(** The body of the loop: the entry of a bid that passes the filters. *)
(* @src src/poseq/src/gas/solver_market.rs:323-394 rank_bids *)
Definition rank_bid (highest : Z) (b : SolverBid) : option RankedBid :=
  if acceptable b then
    let profile := profiles !! bid_solver_id b in
    let reliability := from_option sp_reliability_score 5000 profile in
    if decide (reliability < min_reliability_score params) then None
    else
      let price := price_of (quoted_solver_fee b) highest in
      let latency := latency_of (expected_completion_blocks b) in
      let history := history_of profile in
      let composite :=
        wrapu 64 (wrapu 64 (wrapu 64 (
          sat_mul 64 price (price_weight_bps params) / 10000
          + sat_mul 64 reliability (reliability_weight_bps params) / 10000)
          + sat_mul 64 latency (latency_weight_bps params) / 10000)
          + sat_mul 64 history (history_weight_bps params) / 10000) in
      Some (mkRanked b price reliability latency history composite
              (sha256 (be_bytes 32 (bid_id b) ++ be_bytes 32 (target_id b) ++ be_bytes 8 (batch_window b))))
  else None.

(* @src src/poseq/src/gas/solver_market.rs:397-400 rank_bids *)
Definition compare_ranked (a b : RankedBid) : comparison :=
  then_with (composite_score b ?= composite_score a) (tiebreak_key a ?= tiebreak_key b).

(* @src src/poseq/src/gas/solver_market.rs:306-403 rank_bids *)
Definition rank_bids (bids : list SolverBid) : list RankedBid :=
  sort_by compare_ranked (omap (rank_bid (max_fee bids)) bids).
End Ranking.

(** ** What protects the user *)

(* @src src/poseq/src/gas/solver_market.rs:411-422 UserProtectionResult *)
Inductive UserProtectionResult : Type :=
| Approved
| FeeCapViolation (quoted max : Z)
| UpBidExpired (expiry current : Z)
| ReliabilityTooLow (score min : Z)
| CompletionTooSlow (estimated max : Z).
#[export] Instance UserProtectionResult_eq_dec : EqDecision UserProtectionResult.
Proof. solve_decision. Defined.
(** The derived [Debug] text. *)
Definition debug_protection (r : UserProtectionResult) : string :=
  let fields name a x b y := name +:+ " { " +:+ a +:+ ": " +:+ pretty (x : Z) +:+ ", " +:+ b +:+ ": " +:+
                             pretty (y : Z) +:+ " }" in
  match r with
  | Approved => "Approved"
  | FeeCapViolation quoted max => fields "FeeCapViolation" "quoted" quoted "max" max
  | UpBidExpired expiry current => fields "BidExpired" "expiry" expiry "current" current
  | ReliabilityTooLow score min => fields "ReliabilityTooLow" "score" score "min" min
  | CompletionTooSlow estimated max => fields "CompletionTooSlow" "estimated" estimated "max" max
  end.

(* @src src/poseq/src/gas/solver_market.rs:425-461 check_user_protections *)
Definition check_user_protections (b : SolverBid) (t : SolverFeeTerms)
    (profile : option SolverPerformanceProfile) (min_reliability current_block : Z) : UserProtectionResult :=
  if decide (bid_expiry b < current_block) then UpBidExpired (bid_expiry b) current_block
  else if decide (max_solver_fee t < quoted_solver_fee b)
  then FeeCapViolation (quoted_solver_fee b) (max_solver_fee t)
  else
    let unreliable p :=
      if decide (sp_reliability_score p < min_reliability)
      then Some (ReliabilityTooLow (sp_reliability_score p) min_reliability) else None in
    match profile ≫= unreliable with
    | Some r => r
    | None =>
        if decide (require_timely_settlement t = true ∧
                   max_completion_blocks t < expected_completion_blocks b)
        then CompletionTooSlow (expected_completion_blocks b) (max_completion_blocks t)
        else Approved
    end.

(** ** Selection *)

(* @src src/poseq/src/gas/solver_market.rs:469-489 AuctionOutcome *)
Inductive AuctionOutcome : Type :=
| WinnerSelected (bid : SolverBid) (composite : Z) (fallback_count : nat)
| FallbackSelected (bid : SolverBid) (original_winner_id : id32) (fallback_reason : string) (composite : Z)
| NoBids
| AllExpired
| AllRejected (reasons : list string).

(** The loop: the bids left, the attempts left, the first bid turned down and the
    reasons so far. *)
(* @src src/poseq/src/gas/solver_market.rs:504-549 select_winner *)
Fixpoint select_loop (t : SolverFeeTerms) (profiles : Profiles) (min_reliability current_block : Z)
    (attempts : nat) (first : option id32) (rejections : list string) (l : list RankedBid)
  : AuctionOutcome :=
  let finish := match rejections with [] => AllExpired | _ => AllRejected rejections end in
  match l, attempts with
  | r :: l, S attempts =>
      match check_user_protections (rb_bid r) t (profiles !! bid_solver_id (rb_bid r))
              min_reliability current_block with
      | Approved =>
          match first with
          | None => WinnerSelected (rb_bid r) (composite_score r) 0
          | Some original =>
              FallbackSelected (rb_bid r) original (default EmptyString (last rejections)) (composite_score r)
          end
      | other =>
          let first := match first with None => Some (bid_solver_id (rb_bid r)) | Some i => Some i end in
          select_loop t profiles min_reliability current_block attempts first
            (rejections ++ [debug_protection other]) l
      end
  | _, _ => finish
  end.
(* @src src/poseq/src/gas/solver_market.rs:492-550 select_winner *)
Definition select_winner (ranked : list RankedBid) (t : SolverFeeTerms) (profiles : Profiles)
    (min_reliability current_block : Z) (max_fallback_attempts : nat) : AuctionOutcome :=
  match ranked with
  | [] => NoBids
  | _ => select_loop t profiles min_reliability current_block max_fallback_attempts None [] ranked
  end.

(** ** Market totals *)

(* @src src/poseq/src/gas/solver_market.rs:558-572 SolverMarketAccounting *)
Record SolverMarketAccounting : Type := mkMarketAccounting {
  total_solver_fees_reserved : Z;
  total_solver_fees_charged : Z;
  total_solver_refunds : Z;
  total_solver_penalties : Z;
  total_auctions_held : Z;
  total_bids_received : Z;
  total_winners_selected : Z;
  total_fallback_selections : Z;
  total_no_bid_auctions : Z;
  total_settlements_completed : Z;
  total_settlements_failed : Z;
  solver_wins : gmap id32 Z }.

Module SolverMarketAccounting.
(* @src src/poseq/src/gas/solver_market.rs:575-575 SolverMarketAccounting::new *)
Definition new : SolverMarketAccounting := mkMarketAccounting 0 0 0 0 0 0 0 0 0 0 0 ∅.
(* @src src/poseq/src/gas/solver_market.rs:577-580 SolverMarketAccounting::record_auction *)
Definition record_auction (bids : Z) (a : SolverMarketAccounting) : SolverMarketAccounting :=
  mkMarketAccounting (total_solver_fees_reserved a) (total_solver_fees_charged a) (total_solver_refunds a)
    (total_solver_penalties a) (wrapu 64 (total_auctions_held a + 1)) (wrapu 64 (total_bids_received a + bids))
    (total_winners_selected a) (total_fallback_selections a) (total_no_bid_auctions a)
    (total_settlements_completed a) (total_settlements_failed a) (solver_wins a).
(* @src src/poseq/src/gas/solver_market.rs:582-586 SolverMarketAccounting::record_winner *)
Definition record_winner (solver : id32) (is_fallback : bool) (a : SolverMarketAccounting)
  : SolverMarketAccounting :=
  mkMarketAccounting (total_solver_fees_reserved a) (total_solver_fees_charged a) (total_solver_refunds a)
    (total_solver_penalties a) (total_auctions_held a) (total_bids_received a)
    (wrapu 64 (total_winners_selected a + 1))
    (if is_fallback then wrapu 64 (total_fallback_selections a + 1) else total_fallback_selections a)
    (total_no_bid_auctions a) (total_settlements_completed a) (total_settlements_failed a)
    (<[solver := wrapu 64 (default 0 (solver_wins a !! solver) + 1)]> (solver_wins a)).
(* @src src/poseq/src/gas/solver_market.rs:588-590 SolverMarketAccounting::record_no_bids *)
Definition record_no_bids (a : SolverMarketAccounting) : SolverMarketAccounting :=
  mkMarketAccounting (total_solver_fees_reserved a) (total_solver_fees_charged a) (total_solver_refunds a)
    (total_solver_penalties a) (total_auctions_held a) (total_bids_received a) (total_winners_selected a)
    (total_fallback_selections a) (wrapu 64 (total_no_bid_auctions a + 1))
    (total_settlements_completed a) (total_settlements_failed a) (solver_wins a).
(* @src src/poseq/src/gas/solver_market.rs:592-596 SolverMarketAccounting::record_solver_fee *)
Definition record_solver_fee (reserved charged refund : Z) (a : SolverMarketAccounting)
  : SolverMarketAccounting :=
  mkMarketAccounting (sat_add 128 (total_solver_fees_reserved a) reserved)
    (sat_add 128 (total_solver_fees_charged a) charged) (sat_add 128 (total_solver_refunds a) refund)
    (total_solver_penalties a) (total_auctions_held a) (total_bids_received a) (total_winners_selected a)
    (total_fallback_selections a) (total_no_bid_auctions a) (total_settlements_completed a)
    (total_settlements_failed a) (solver_wins a).
(* @src src/poseq/src/gas/solver_market.rs:598-600 SolverMarketAccounting::record_penalty *)
Definition record_penalty (amount : Z) (a : SolverMarketAccounting) : SolverMarketAccounting :=
  mkMarketAccounting (total_solver_fees_reserved a) (total_solver_fees_charged a) (total_solver_refunds a)
    (sat_add 128 (total_solver_penalties a) amount) (total_auctions_held a) (total_bids_received a)
    (total_winners_selected a) (total_fallback_selections a) (total_no_bid_auctions a)
    (total_settlements_completed a) (total_settlements_failed a) (solver_wins a).
(* @src src/poseq/src/gas/solver_market.rs:602-608 SolverMarketAccounting::record_settlement *)
Definition record_settlement (success : bool) (a : SolverMarketAccounting) : SolverMarketAccounting :=
  mkMarketAccounting (total_solver_fees_reserved a) (total_solver_fees_charged a) (total_solver_refunds a)
    (total_solver_penalties a) (total_auctions_held a) (total_bids_received a) (total_winners_selected a)
    (total_fallback_selections a) (total_no_bid_auctions a)
    (if success then wrapu 64 (total_settlements_completed a + 1) else total_settlements_completed a)
    (if success then total_settlements_failed a else wrapu 64 (total_settlements_failed a + 1))
    (solver_wins a).

(** In percent, squared: at most 10000. *)
(* @src src/poseq/src/gas/solver_market.rs:612-621 SolverMarketAccounting::concentration_hhi *)
Definition concentration_hhi (a : SolverMarketAccounting) : Z :=
  if decide (total_winners_selected a = 0) then 0
  else
    let share wins := sat_mul 128 wins 100 / total_winners_selected a in
    let add hhi wins := sat_add 128 hhi (sat_mul 128 (share wins) (share wins)) in
    Z.min (wrapu 64 (foldl add 0 (btree_values (solver_wins a)))) 10000.
End SolverMarketAccounting.

(** ** What a tip buys *)

Section Priority.
Implicit Types (c : PriorityConfig) (i : PriorityInput).

Lemma weighted_bounds raw bps : 0 ≤ raw ≤ 10000 → 0 ≤ bps → 0 ≤ weighted raw bps ≤ bps.
Proof.
  intros ??. unfold weighted, sat_mul, umax. split; [apply Z.div_pos; nia |].
  apply Z.div_le_upper_bound; [lia |]. nia.
Qed.

Lemma urgency_bounds i horizon : 0 ≤ horizon → 0 ≤ compute_urgency i horizon ≤ 10000.
Proof.
  intros ?. unfold compute_urgency. case_decide; [lia |]. case_decide; [lia |].
  assert (0 < horizon) by lia. unfold sat_mul, sat_sub, umax.
  split; [apply Z.div_pos; lia | apply Z.div_le_upper_bound; lia].
Qed.

Lemma tip_score_bounds tip cap : 0 ≤ tip_score tip cap ≤ 10000.
Proof.
  unfold tip_score. case_decide; [lia |]. case_decide; [lia |].
  match goal with |- context[wrapu 64 ?x] => pose proof (wrapu_fits 64 x ltac:(lia)) end.
  ints.
Qed.

Lemma starvation_bounds c waiting : 0 ≤ max_starvation_boost c ≤ 10000 →
  0 ≤ starvation_score c waiting ≤ 10000.
Proof. intros ?. unfold starvation_score. case_decide; ints. Qed.

(** The weights are unsigned and add up. *)
Definition sound_config c : Prop :=
  fits 64 (fairness_class_weight_bps c) ∧ fits 64 (urgency_weight_bps c) ∧ fits 64 (tip_weight_bps c) ∧
  fits 64 (starvation_weight_bps c) ∧ 0 ≤ urgency_horizon_blocks c ∧ 0 ≤ max_starvation_boost c ≤ 10000 ∧
  PriorityConfig.validate c = true.

Lemma sound_weights c : sound_config c →
  fairness_class_weight_bps c + urgency_weight_bps c + tip_weight_bps c + starvation_weight_bps c = 10000.
Proof.
  intros (? & ? & ? & ? & _ & _ & Hv). unfold PriorityConfig.validate in Hv.
  apply bool_decide_eq_true in Hv. ints.
Qed.

(** With sound weights the sum of the components is exact. *)
Lemma composite_sum c i : sound_config c → 0 ≤ fairness_class_weight i →
  let s := compute_priority c i in
  composite s = fairness_component s + urgency_component s + tip_component s + starvation_component s ∧
  0 ≤ fairness_component s ≤ fairness_class_weight_bps c ∧ 0 ≤ urgency_component s ≤ urgency_weight_bps c ∧
  0 ≤ tip_component s ≤ tip_weight_bps c ∧ 0 ≤ starvation_component s ≤ starvation_weight_bps c.
Proof.
  intros Hc Hw s. pose proof (sound_weights c Hc) as Hsum.
  destruct Hc as ([? _] & [? _] & [? _] & [? _] & Hh & Hb & _).
  assert (0 ≤ fairness_component s ≤ fairness_class_weight_bps c) by (apply weighted_bounds; lia).
  assert (0 ≤ urgency_component s ≤ urgency_weight_bps c)
    by (apply weighted_bounds; [by apply urgency_bounds | lia]).
  assert (0 ≤ tip_component s ≤ tip_weight_bps c)
    by (apply weighted_bounds; [apply tip_score_bounds | lia]).
  assert (0 ≤ starvation_component s ≤ starvation_weight_bps c)
    by (apply weighted_bounds; [by apply starvation_bounds | lia]).
  split; [| done].
  change (composite s) with
    (sat_add 64 (sat_add 64 (sat_add 64 (fairness_component s) (urgency_component s)) (tip_component s))
       (starvation_component s)).
  unfold sat_add. change (umax 64) with 18446744073709551615. lia.
Qed.

(** The same intent with another tip. *)
Definition with_tip (tip : Z) i : PriorityInput :=
  mkPriorityInput (fairness_class_weight i) (admitted_at_block i) (pi_deadline i) (pi_current_block i)
    tip (pi_tip_cap i) (pi_is_protected i).

(** Scores are at most 10000, and whatever the tip, it moves the score by at most the
    weight of tips. *)
Theorem tip_influence_bounded c i tip :
  sound_config c → 0 ≤ fairness_class_weight i →
  0 ≤ composite (compute_priority c i) ≤ 10000 ∧
  Z.abs (composite (compute_priority c (with_tip tip i)) - composite (compute_priority c i))
    ≤ tip_weight_bps c.
Proof.
  intros Hc Hw. pose proof (sound_weights c Hc) as Hsum.
  pose proof (composite_sum c i Hc Hw) as (E & ? & ? & ? & ?).
  pose proof (composite_sum c (with_tip tip i) Hc Hw) as (E' & ? & ? & ? & ?).
  change (fairness_component (compute_priority c (with_tip tip i)))
    with (fairness_component (compute_priority c i)) in *.
  change (urgency_component (compute_priority c (with_tip tip i)))
    with (urgency_component (compute_priority c i)) in *.
  change (starvation_component (compute_priority c (with_tip tip i)))
    with (starvation_component (compute_priority c i)) in *.
  rewrite E, E'. lia.
Qed.
End Priority.

Definition sample_input : PriorityInput := mkPriorityInput 3000 100 140 120 5000 50000 false.
Lemma tip_influence_bounded_witness :
  composite (compute_priority PriorityConfig.default (with_tip 50000 sample_input)) = 4200 ∧
  (0 ≤ composite (compute_priority PriorityConfig.default sample_input) ≤ 10000 ∧
   Z.abs (composite (compute_priority PriorityConfig.default (with_tip 50000 sample_input)) -
          composite (compute_priority PriorityConfig.default sample_input)) ≤ 1500).
Proof.
  split; [reflexivity |].
  apply (tip_influence_bounded PriorityConfig.default sample_input 50000); vm_compute; repeat split; discriminate.
Defined.

(** The first element with a property of a sorted list comes before the others with it. *)
Lemma head_filter_sorted {A} (P : A → Prop) `{∀ x, Decision (P x)} (R : A → A → Prop) l x :
  StronglySorted R l → head (filter P l) = Some x →
  P x ∧ x ∈ l ∧ ∀ y, y ∈ l → P y → y = x ∨ R x y.
Proof.
  induction 1 as [| z l Hs IH Hall]; [done |].
  rewrite filter_cons. destruct (decide (P z)) as [Hz | Hz]; cbn.
  - intros [= ->]. split_and!; [done | by left |]. intros y [-> | Hy]%elem_of_cons _; [by left |].
    right. by apply (proj1 (Forall_forall _ _) Hall).
  - intros (? & ? & Hmin)%IH. split_and!; [done | by right |].
    intros y [-> | Hy]%elem_of_cons HPy; [done | by apply Hmin].
Qed.

(** ** What an auction selects *)

Definition selected_bid (o : AuctionOutcome) : option SolverBid :=
  match o with WinnerSelected b _ _ | FallbackSelected b _ _ _ => Some b | _ => None end.

(** A bid the user can live with. *)
Definition protects (t : SolverFeeTerms) (profile : option SolverPerformanceProfile)
    (min_reliability now : Z) (b : SolverBid) : Prop :=
  now ≤ bid_expiry b ∧ quoted_solver_fee b ≤ max_solver_fee t ∧
  (∀ p, profile = Some p → min_reliability ≤ sp_reliability_score p) ∧
  (require_timely_settlement t = true → expected_completion_blocks b ≤ max_completion_blocks t).

Lemma approved_protects b t profile min now :
  check_user_protections b t profile min now = Approved ↔ protects t profile min now b.
Proof.
  unfold check_user_protections, protects. case_decide; [split; [done | lia] |].
  case_decide; [split; [done | lia] |].
  destruct profile as [p |]; cbn; [case_decide |]; cbn.
  - split; [done |]. intros (_ & _ & Hp & _). specialize (Hp p eq_refl). lia.
  - case_decide as Hd; (split; [try done | try done]).
    + intros (_ & _ & _ & Hl). destruct Hd as [Hd ?]. specialize (Hl Hd). lia.
    + intros _. split_and!; [lia | lia | intros ? [= <-]; lia |].
      intros Hd'. destruct (decide (max_completion_blocks t < expected_completion_blocks b)); [tauto | lia].
  - case_decide as Hd; (split; [try done | try done]).
    + intros (_ & _ & _ & Hl). destruct Hd as [Hd ?]. specialize (Hl Hd). lia.
    + intros _. split_and!; [lia | lia | done |].
      intros Hd'. destruct (decide (max_completion_blocks t < expected_completion_blocks b)); [tauto | lia].
Qed.

Section Selection.
Context (t : SolverFeeTerms) (profiles : Profiles) (min now : Z).
Abbreviation approved r :=
  (check_user_protections (rb_bid r) t (profiles !! bid_solver_id (rb_bid r)) min now = Approved).
#[local] Instance approved_dec r : Decision (approved r).
Proof. apply _. Defined.

(** The loop stops at the first approved bid among those it may try. *)
Lemma select_loop_first attempts first rejections l b :
  selected_bid (select_loop t profiles min now attempts first rejections l) = Some b ↔
  ∃ r, rb_bid r = b ∧ head (filter (λ r, approved r) (take attempts l)) = Some r.
Proof.
  revert attempts first rejections. induction l as [| x l IH]; intros attempts first rejections.
  { destruct attempts, rejections; cbn; split; try done; by intros (? & _ & ?). }
  destruct attempts as [| attempts]; [destruct rejections; cbn; split; try done; by intros (? & _ & ?) |].
  cbn [select_loop take]. destruct (decide (approved x)) as [Hx | Hx].
  - rewrite filter_cons_True, Hx by done. destruct first; cbn; naive_solver.
  - rewrite filter_cons_False by done.
    destruct (check_user_protections (rb_bid x) t (profiles !! bid_solver_id (rb_bid x)) min now) eqn:E;
      [by destruct Hx | apply IH ..].
Qed.
End Selection.

Section Ranked.
Context `{Sha256} (profiles : Profiles) (terms : SolverFeeTerms) (params : AuctionRankingParams) (now : Z).

(** Ranked bids are ordered by score, then by tiebreak. *)
Lemma compare_ranked_total a b : compare_ranked a b = Gt → no_later compare_ranked b a.
Proof.
  unfold no_later, compare_ranked, then_with. intros Hgt.
  destruct (Z.compare_spec (composite_score b) (composite_score a)),
    (Z.compare_spec (composite_score a) (composite_score b)); try done; try lia.
  destruct (Z.compare_spec (tiebreak_key a) (tiebreak_key b)),
    (Z.compare_spec (tiebreak_key b) (tiebreak_key a)); try done; lia.
Qed.
Lemma no_later_compare_ranked a b : no_later compare_ranked a b ↔
  composite_score b < composite_score a ∨
  (composite_score b = composite_score a ∧ tiebreak_key a ≤ tiebreak_key b).
Proof. unfold no_later, compare_ranked. rewrite then_with_compare. by rewrite Z.compare_ngt_iff, Z.nlt_ge. Qed.
Lemma compare_ranked_trans a b c :
  no_later compare_ranked a b → no_later compare_ranked b c → no_later compare_ranked a c.
Proof. rewrite !no_later_compare_ranked. lia. Qed.

Lemma rank_bids_elem bids r : r ∈ rank_bids profiles terms params now bids →
  rb_bid r ∈ bids ∧ acceptable terms now (rb_bid r) = true ∧
  min_reliability_score params ≤ from_option sp_reliability_score 5000 (profiles !! bid_solver_id (rb_bid r)).
Proof.
  unfold rank_bids. rewrite sort_by_perm, list_elem_of_omap. intros (b & Hb & E).
  unfold rank_bid in E. destruct (acceptable terms now b) eqn:Ea; [| done].
  case_decide; [done |]. injection E as <-. cbn. split_and!; [done.. | lia].
Qed.

Lemma acceptable_spec b : acceptable terms now b = true →
  bid_solver_id b ≠ 0 ∧ target_id b ≠ 0 ∧ bid_signature b ≠ [] ∧ now ≤ bid_expiry b ∧
  quoted_solver_fee b ≤ max_solver_fee terms.
Proof.
  unfold acceptable, SolverBid.validate. repeat (case_decide; [done |]).
  unfold SolverBid.respects_terms. intros Hq%bool_decide_eq_true. split_and!; [done.. | lia | lia].
Qed.

(** The selected bid, if any, is one of the bids; it is signed, in time and within the
    cap and the patience of the user, its solver is reliable enough for the ranking and
    for the selection; and of the bids the selection may try it is the best ranked that
    protects the user: any other that does has a lower score, or the same and a larger
    tiebreak. *)
Theorem selection_protects_user bids min attempts b :
  selected_bid (select_winner (rank_bids profiles terms params now bids) terms profiles min now attempts) = Some b →
  let profile := profiles !! bid_solver_id b in
  b ∈ bids ∧ bid_signature b ≠ [] ∧ protects terms profile min now b ∧
  min_reliability_score params ≤ from_option sp_reliability_score 5000 profile ∧
  ∃ r, rb_bid r = b ∧ ∀ r', r' ∈ take attempts (rank_bids profiles terms params now bids) →
    protects terms (profiles !! bid_solver_id (rb_bid r')) min now (rb_bid r') →
    no_later compare_ranked r r'.
Proof.
  intros Hsel profile.
  assert (∃ r, rb_bid r = b ∧ head (filter (λ r, check_user_protections (rb_bid r) terms
            (profiles !! bid_solver_id (rb_bid r)) min now = Approved)
            (take attempts (rank_bids profiles terms params now bids))) = Some r) as (r & <- & Hh).
  { unfold select_winner in Hsel. destruct (rank_bids profiles terms params now bids); [done |].
    by apply select_loop_first in Hsel. }
  set (l := take attempts _) in *.
  assert (StronglySorted (no_later compare_ranked) l) as Hs.
  { eapply StronglySorted_app_1_l. unfold l. rewrite take_drop.
    apply sort_by_sorted; [exact compare_ranked_total | exact compare_ranked_trans]. }
  destruct (head_filter_sorted _ _ _ _ Hs Hh) as (Ha & Hr & Hmin). apply approved_protects in Ha as Hp.
  destruct (rank_bids_elem bids r) as (Hin & Hacc & Hrel); [unfold l in Hr; by eapply subseteq_take |].
  apply acceptable_spec in Hacc as (_ & _ & ? & _).
  split_and!; [done.. |]. exists r. split; [done |]. intros r' Hr' Hp'.
  destruct (Hmin r' Hr') as [-> |]; [by apply approved_protects | | done].
  apply no_later_compare_ranked. lia.
Qed.
End Ranked.

Definition sample_bid (id solver fee blocks : Z) : SolverBid := mkBid id solver 9 1 fee 0 blocks 50 [1].
Definition sample_bids : list SolverBid := [sample_bid 1 11 90 3; sample_bid 2 12 40 30; sample_bid 3 13 60 5].
Definition sample_terms : SolverFeeTerms := mkFeeTerms 100 CappedQuote true 20.
Definition sample_profiles : Profiles := {[ 11 := SolverPerformanceProfile.new 11 ]}.
(** The cheapest bid ranks first but takes too long: the next one wins. *)
Lemma selection_protects_user_witness :
  let ranked := @rank_bids sample_sha256 sample_profiles sample_terms AuctionRankingParams.default 10 sample_bids in
  let b := sample_bid 3 13 60 5 in
  (bid_id ∘ rb_bid <$> ranked) = [2; 3; 1] ∧
  b ∈ sample_bids ∧ bid_signature b ≠ [] ∧ protects sample_terms (sample_profiles !! bid_solver_id b) 1000 10 b ∧
  1000 ≤ from_option sp_reliability_score 5000 (sample_profiles !! bid_solver_id b) ∧
  ∃ r, rb_bid r = b ∧ ∀ r', r' ∈ take 3 ranked →
    protects sample_terms (sample_profiles !! bid_solver_id (rb_bid r')) 1000 10 (rb_bid r') →
    no_later compare_ranked r r'.
Proof.
  intros ranked b. split; [vm_compute; reflexivity |].
  apply (@selection_protects_user sample_sha256 sample_profiles sample_terms AuctionRankingParams.default 10
           sample_bids 1000 3 b). vm_compute. reflexivity.
Defined.

(** Prices are measured against the largest acceptable fee, bids of solvers the ranking
    then leaves out included: such a bid changes which of the others comes first. *)
Example left_out_bid_changes_the_winner :
  let a := mkBid 1 11 9 1 100 0 3 50 [1] in
  let b := mkBid 2 12 9 1 50 0 3 50 [1] in
  let dear := mkBid 3 13 9 1 10000 0 3 50 [1] in
  let profiles : Profiles :=
    {[ 11 := mkPerformance 11 0 0 0 0 0 0 0 8000; 13 := mkPerformance 13 0 0 0 0 0 0 0 500 ]} in
  let ranked := @rank_bids sample_sha256 profiles (mkFeeTerms 10000 CappedQuote true 20)
                  AuctionRankingParams.default 10 in
  (bid_id ∘ rb_bid <$> ranked [a; b]) = [2; 1] ∧ (bid_id ∘ rb_bid <$> ranked [a; b; dear]) = [1; 2].
Proof. vm_compute. done. Qed.

(** A tip too large to scale scores nothing, though a smaller one scores. *)
Example huge_tip_scores_nothing :
  tip_score (2 ^ 120) (2 ^ 127) = 0 ∧ 0 < tip_score (2 ^ 114) (2 ^ 127).
Proof. vm_compute. done. Qed.
