(* ===== verification/PoseqFeeSim.v ===== *)
(** * The fee simulation

    The simulation of the sequencing layer's fee market over slots of intents
    (src/poseq/src/gas/simulation.rs): the calculator, the ledger, the split and the
    priority score run together.  The theorem says that it always finds the budget
    consistent and counts every intent it looks at. *)

From stdpp Require Import gmap strings list.
From S2P Require Import Prelude PoseqFees PoseqLedger PoseqBids.

(* @src src/poseq/src/gas/simulation.rs:16-21 SimConfig *)
Record SimConfig : Type := mkSimConfig {
  sim_params : PoSeqFeeParameters;
  priority_config : PriorityConfig;
  num_slots : Z;
  intents_per_slot : Z }.

(* @src src/poseq/src/gas/simulation.rs:25-37 SimIntent *)
Record SimIntent : Type := mkSimIntent {
  si_id : id32;
  si_payer : id32;
  si_fairness_class_weight : Z;
  si_max_poseq_fee : Z;
  si_max_runtime_fee : Z;
  si_tip : Z;
  size_bytes : Z;
  deadline_offset : Z;
  runtime_gas : Z;
  si_is_protected : bool;
  label : string }.

(* @src src/poseq/src/gas/simulation.rs:41-52 SlotResult *)
Record SlotResult : Type := mkSlotResult {
  slot_number : Z;
  intents_submitted : Z;
  intents_admitted : Z;
  slot_intents_rejected : Z;
  slot_total_fees : Z;
  slot_total_refunds : Z;
  avg_fee : Z;
  slot_congestion_bps : Z;
  max_priority_score : Z;
  min_priority_score : Z }.

(* @src src/poseq/src/gas/simulation.rs:74-80 TipEffectiveness *)
Record TipEffectiveness : Type := mkTipEffectiveness {
  te_with_tip : Z;
  te_without_tip : Z;
  avg_priority_with_tip : Z;
  avg_priority_without_tip : Z;
  tip_priority_advantage_bps : Z }.

(* @src src/poseq/src/gas/simulation.rs:56-70 SimResults *)
Record SimResults : Type := mkSimResults {
  total_slots : Z;
  total_intents_submitted : Z;
  total_intents_admitted : Z;
  total_intents_rejected : Z;
  sim_fees_collected : Z;
  sim_refunds : Z;
  sim_burned : Z;
  avg_fee_per_intent : Z;
  avg_congestion_bps : Z;
  fairness_class_inclusion : gmap string (Z * Z);
  tip_effectiveness : TipEffectiveness;
  budget_consistent : bool;
  slot_results : list SlotResult }.

(** What the loop over the intents of a slot changes: the counters of the slot, and the
    ones of the run it adds to directly. *)
(* @src src/poseq/src/gas/simulation.rs:89-94 run_simulation *)
Record SimRun : Type := mkSimRun {
  class_stats : gmap string (Z * Z);
  tip_priorities : list Z;
  no_tip_priorities : list Z;
  consistent : bool;
  sim_ledger : FeeLedger;
  burned : Z }.
(* @src src/poseq/src/gas/simulation.rs:109-114 run_simulation *)
Record SlotRun : Type := mkSlotRun {
  slot_fees : Z;
  slot_refunds : Z;
  slot_admitted : Z;
  slot_rejected : Z;
  max_priority : Z;
  min_priority : Z }.

(** The whole life of the fees of an admitted intent, if its id is new: the ledger and
    whether the lifecycle adds up. *)
(* @src src/poseq/src/gas/simulation.rs:141-157 run_simulation *)
Definition simulate_lifecycle (i : SimIntent) (charged block : Z) (l : FeeLedger) : FeeLedger * bool :=
  match FeeLedger.begin_lifecycle (si_id i) l with
  | (l, Ok _) =>
      let lc := lifecycle_run
        [OpReserve (si_payer i) (si_max_poseq_fee i) (si_max_runtime_fee i) block;
         OpChargeSequencing charged (wrapu 64 (block + 1));
         OpChargeRuntime (sat_mul 128 (runtime_gas i) 1) (wrapu 64 (block + 2));
         OpRefund (wrapu 64 (block + 3)); OpClose (wrapu 64 (block + 4))] (FeeLifecycle.new (si_id i)) in
      (mkFeeLedger (<[si_id i := lc]> (lifecycles l)), FeeLifecycle.verify_budget_consistency lc)
  | (l, _) => (l, true)
  end.

(* @src src/poseq/src/gas/simulation.rs:120-126 run_simulation *)
Definition sim_envelope (i : SimIntent) (block : Z) : FeeEnvelope :=
  mkFeeEnvelope (si_payer i) (si_max_poseq_fee i) (si_max_runtime_fee i) (si_tip i)
    (wrapu 64 (block + deadline_offset i)).

Section simulate.
Context (cfg : SimConfig).

(* @src src/poseq/src/gas/simulation.rs:166-176 run_simulation *)
Definition sim_priority (i : SimIntent) (block tip : Z) : Z :=
  composite (compute_priority (priority_config cfg)
    (mkPriorityInput (si_fairness_class_weight i) block (wrapu 64 (block + deadline_offset i)) block tip
       (priority_tip_cap (sim_params cfg)) (si_is_protected i))).

(** One intent.  The calculator returns a result or an error. *)
(* @src src/poseq/src/gas/simulation.rs:116-191 run_simulation *)
Definition simulate_intent (congestion : CongestionState) (block : Z) (st : SimRun * SlotRun) (i : SimIntent)
  : SimRun * SlotRun :=
  let '(g, s) := st in
  let entry := default (0, 0) (class_stats g !! label i) in
  match PoSeqFeeCalculator.compute (sim_params cfg) (sim_envelope i block) (size_bytes i) congestion block with
  | Ok r =>
      let '(ledger, ok) := simulate_lifecycle i (charged_fee r) block (sim_ledger g) in
      let dist := distribute_fee (sim_params cfg) (charged_fee r) in
      let score := sim_priority i block (effective_tip r) in
      let tipped := bool_decide (0 < si_tip i) in
      (mkSimRun (<[label i := (wrapu 64 (entry.1 + 1), wrapu 64 (entry.2 + 1))]> (class_stats g))
         (if tipped then tip_priorities g ++ [score] else tip_priorities g)
         (if tipped then no_tip_priorities g else no_tip_priorities g ++ [score])
         (consistent g && ok && PoSeqFeeDistribution.verify_budget_neutral dist) ledger
         (wrapu 128 (burned g + burn dist)),
       mkSlotRun (wrapu 128 (slot_fees s + charged_fee r)) (wrapu 128 (slot_refunds s + refund r))
         (wrapu 64 (slot_admitted s + 1)) (slot_rejected s) (Z.max (max_priority s) score)
         (Z.min (min_priority s) score))
  | _ =>
      (mkSimRun (<[label i := (entry.1, wrapu 64 (entry.2 + 1))]> (class_stats g)) (tip_priorities g)
         (no_tip_priorities g) (consistent g) (sim_ledger g) (burned g),
       mkSlotRun (slot_fees s) (slot_refunds s) (slot_admitted s) (wrapu 64 (slot_rejected s + 1))
         (max_priority s) (min_priority s))
  end.

(* @src src/poseq/src/gas/simulation.rs:104-209 run_simulation *)
Definition simulate_slot (slot : Z) (l : list SimIntent) (g : SimRun) : SimRun * SlotResult :=
  let block := wrapu 64 (slot * 10 + 100) in
  let n := Z.of_nat (length l) in
  let congestion := mkCongestion n (intents_per_slot cfg) in
  let '(g, s) := foldl (simulate_intent congestion block) (g, mkSlotRun 0 0 0 0 0 u64_max) l in
  (g, mkSlotResult slot n (slot_admitted s) (slot_rejected s) (slot_fees s) (slot_refunds s)
        (if decide (0 < slot_admitted s) then slot_fees s / slot_admitted s else 0)
        (PoSeqFeeCalculator.compute_congestion_multiplier (sim_params cfg) congestion)
        (max_priority s) (if decide (min_priority s = u64_max) then 0 else min_priority s)).

(** The slots from [slot] on.  [Panic]: the end of the range, which wraps, is before its
    start. *)
(* @src src/poseq/src/gas/simulation.rs:98-210 run_simulation *)
Fixpoint simulate_slots (slots_left : nat) (slot : Z) (intents : list SimIntent) (g : SimRun)
    (results : list SlotResult) : total_or_panic (SimRun * list SlotResult) :=
  match slots_left with
  | O => Ok (g, results)
  | S slots_left =>
      let n := Z.of_nat (length intents) in
      let start := wrapu 64 (slot * intents_per_slot cfg) in
      let stop := Z.min (wrapu 64 (start + intents_per_slot cfg)) n in
      if decide (n ≤ start) then Ok (g, results)
      else if decide (stop < start) then Panic
      else
        let '(g, r) := simulate_slot slot (take (Z.to_nat (stop - start)) (drop (Z.to_nat start) intents)) g in
        simulate_slots slots_left (slot + 1) intents g (results ++ [r])
  end.

(** The totals the run adds the slots to. *)
(* @src src/poseq/src/gas/simulation.rs:193-196 run_simulation *)
Definition wrapped_total (w : Z) (f : SlotResult → Z) (l : list SlotResult) : Z :=
  foldl (λ a r, wrapu w (a + f r)) 0 l.

(** [sum::<u64>() / len] *)
Definition mean (default : Z) (l : list Z) : Z :=
  match l with [] => default | _ => wrapu 64 (sumZ l) / Z.of_nat (length l) end.

(* @src src/poseq/src/gas/simulation.rs:83-249 run_simulation *)
Definition run_simulation (intents : list SimIntent) : total_or_panic SimResults :=
  '(g, results) ← simulate_slots (Z.to_nat (num_slots cfg)) 0 intents
                    (mkSimRun ∅ [] [] true FeeLedger.new 0) [];
  let fees := wrapped_total 128 slot_total_fees results in
  let admitted := wrapped_total 64 intents_admitted results in
  let rejected := wrapped_total 64 slot_intents_rejected results in
  let tipped := mean 0 (tip_priorities g) in
  let untipped := mean 0 (no_tip_priorities g) in
  let advantage := if decide (0 < untipped) then sat_mul 128 (sat_sub tipped untipped) 10000 / untipped else 0 in
  Ok (mkSimResults (num_slots cfg) (wrapu 64 (admitted + rejected)) admitted rejected fees
        (wrapped_total 128 slot_total_refunds results) (burned g) (if decide (0 < admitted) then fees / admitted else 0)
        (mean 10000 (slot_congestion_bps <$> results)) (class_stats g)
        (mkTipEffectiveness (Z.of_nat (length (tip_priorities g))) (Z.of_nat (length (no_tip_priorities g)))
           tipped untipped (wrapu 64 advantage)) (consistent g) results).
End simulate.

(* @src src/poseq/src/gas/simulation.rs:268-274 generate_intents *)
Definition sim_class (k : Z) : Z * bool * string :=
  if decide (k = 0) then (9000, true, "safety_critical")
  else if decide (k = 1) then (8000, true, "protected_user")
  else if decide (k = 2) then (5000, false, "bridge_adjacent")
  else if decide (k = 3) then (3000, false, "normal")
  else (3000, false, "normal_low_tip").
(* @src src/poseq/src/gas/simulation.rs:276-282 generate_intents *)
Definition sim_tip (k : Z) : Z :=
  if decide (k = 1) then 2000 else if decide (k = 2) then 10000 else if decide (k = 3) then 50000 else 0.
(* @src src/poseq/src/gas/simulation.rs:254-296 generate_intents *)
Definition generated_intent (seed i : Z) : SimIntent :=
  let '(weight, protected, name) := sim_class (i mod 5) in
  mkSimIntent (of_be (seed :: be_bytes 4 (wrapu 32 i) ++ replicate 27 0))
    (of_be (wrapu 8 (wrapu 8 i + 1) :: wrapu 8 (wrapu 8 (Z.shiftr i 8) + 1) :: replicate 30 0))
    weight 1000000 5000000 (sim_tip (i mod 5)) (200 + i mod 200) (100 + i mod 50) (2000 + i mod 3000)
    protected name.
(* @src src/poseq/src/gas/simulation.rs:252-299 generate_intents *)
Definition generate_intents (count : nat) (seed : Z) : list SimIntent :=
  generated_intent seed <$> (Z.of_nat <$> seq 0 count).

(** ** The simulation finds nothing wrong *)

Section consistent.
Context (cfg : SimConfig).
Hypothesis (Hp : params_ok (sim_params cfg)) (Hv : PoSeqFeeParameters.validate (sim_params cfg) = Ok tt).

(** The budgets and the gas are unsigned. *)
Definition sim_intent_ok (i : SimIntent) : Prop :=
  fits 128 (si_max_poseq_fee i) ∧ fits 128 (si_max_runtime_fee i) ∧ fits 64 (runtime_gas i).

Lemma simulate_lifecycle_ok i charged block l :
  sim_intent_ok i → fits 128 charged → (simulate_lifecycle i charged block l).2 = true.
Proof.
  intros (H1 & H2 & H3) Hc. unfold simulate_lifecycle.
  destruct (FeeLedger.begin_lifecycle (si_id i) l) as [l' [?| |]]; [| done ..]. cbn [snd].
  apply run_consistent. rewrite !Forall_cons. split_and!; cbn; try done.
  unfold fits, sat_mul, umax in *. lia.
Qed.

Lemma charge_fits e len c now r :
  PoSeqFeeCalculator.compute (sim_params cfg) e len c now = Ok r → fits 128 (max_poseq_fee e) →
  fits 128 (charged_fee r).
Proof.
  intros (E & Hle & _)%compute_ok [_ ?]. split; [| lia].
  rewrite E, limits_eq by (by apply validated in Hv as (_ & _ & _ & _ & ? & _)).
  destruct Hp as (_ & _ & _ & _ & _ & ? & _). apply validated in Hv as (_ & _ & _ & _ & ? & _). lia.
Qed.

Lemma simulate_intent_consistent congestion block st i :
  sim_intent_ok i → consistent st.1 = true →
  consistent (simulate_intent cfg congestion block st i).1 = true.
Proof.
  intros Hi Hst. destruct st as [g s]. unfold simulate_intent.
  destruct (PoSeqFeeCalculator.compute _ _ _ _ _) as [r| |] eqn:E; [| done ..].
  apply charge_fits in E as Hc; [| apply Hi].
  destruct (simulate_lifecycle i _ block _) as [l ok] eqn:El.
  pose proof (simulate_lifecycle_ok i (charged_fee r) block (sim_ledger g) Hi Hc) as Hok.
  rewrite El in Hok. cbn in *. subst ok. rewrite Hst. by apply split_verified.
Qed.

Lemma simulate_intents_consistent congestion block l st :
  Forall sim_intent_ok l → consistent st.1 = true →
  consistent (foldl (simulate_intent cfg congestion block) st l).1 = true.
Proof.
  intros Hl. revert st. induction Hl as [| i l Hi _ IH]; intros st Hst; [done |].
  by apply IH, simulate_intent_consistent.
Qed.

(** Every intent of a slot is admitted or rejected. *)
Lemma simulate_intents_count congestion block l st :
  let st' := foldl (simulate_intent cfg congestion block) st l in
  slot_admitted st.2 + slot_rejected st.2 + Z.of_nat (length l) < 2 ^ 64 →
  0 ≤ slot_admitted st.2 → 0 ≤ slot_rejected st.2 →
  slot_admitted st'.2 + slot_rejected st'.2 =
    slot_admitted st.2 + slot_rejected st.2 + Z.of_nat (length l) ∧
  0 ≤ slot_admitted st'.2 ∧ 0 ≤ slot_rejected st'.2.
Proof.
  revert st. induction l as [| i l IH]; intros st; cbn [foldl length]; [lia |].
  rewrite Nat2Z.inj_succ. intros Hb Ha Hr.
  assert (slot_admitted (simulate_intent cfg congestion block st i).2 +
          slot_rejected (simulate_intent cfg congestion block st i).2 =
          slot_admitted st.2 + slot_rejected st.2 + 1 ∧
          0 ≤ slot_admitted (simulate_intent cfg congestion block st i).2 ∧
          0 ≤ slot_rejected (simulate_intent cfg congestion block st i).2) as (E & ? & ?).
  { destruct st as [g s]. cbn [snd] in *. unfold simulate_intent.
    destruct (PoSeqFeeCalculator.compute _ _ _ _ _) as [r| |]; [destruct (simulate_lifecycle i _ _ _) |..];
      cbn [snd slot_admitted slot_rejected]; rewrite wrapu_id by (unfold fits; lia); lia. }
  destruct (IH (simulate_intent cfg congestion block st i)) as (E' & ? & ?); lia.
Qed.

Definition counted (results : list SlotResult) : Z :=
  wrapped_total 64 intents_admitted results + wrapped_total 64 slot_intents_rejected results.

Lemma wrapped_total_app w f l r :
  wrapped_total w f (l ++ [r]) = wrapu w (wrapped_total w f l + f r).
Proof. unfold wrapped_total. by rewrite foldl_app. Qed.
Lemma wrapped_total_nonneg f l : 0 ≤ wrapped_total 64 f l.
Proof.
  destruct l as [| r l _] using rev_ind; [done |]. rewrite wrapped_total_app. by apply wrapu_fits.
Qed.

Lemma simulate_slot_spec slot l g :
  Forall sim_intent_ok l → consistent g = true → Z.of_nat (length l) < 2 ^ 64 →
  let '(g', r) := simulate_slot cfg slot l g in
  consistent g' = true ∧ intents_admitted r + slot_intents_rejected r = Z.of_nat (length l) ∧
  0 ≤ intents_admitted r ∧ 0 ≤ slot_intents_rejected r.
Proof.
  intros Hl Hg Hn. unfold simulate_slot.
  set (start := (g, mkSlotRun 0 0 0 0 0 u64_max)). set (congestion := mkCongestion _ _).
  pose proof (simulate_intents_consistent congestion (wrapu 64 (slot * 10 + 100)) l start Hl Hg) as Hc.
  pose proof (simulate_intents_count congestion (wrapu 64 (slot * 10 + 100)) l start) as Hs.
  subst start. destruct (foldl _ _ l) as [g' s]. cbn in Hc, Hs |- *. split; [done |]. lia.
Qed.

(** The slots reached so far have counted the intents before this one's. *)
Lemma simulate_slots_spec slots_left slot intents g results :
  0 ≤ slot → 0 ≤ intents_per_slot cfg →
  (slot + Z.of_nat slots_left) * intents_per_slot cfg < 2 ^ 64 → Z.of_nat (length intents) < 2 ^ 64 →
  Forall sim_intent_ok intents → consistent g = true →
  counted results = Z.min (slot * intents_per_slot cfg) (Z.of_nat (length intents)) →
  ∃ g' results', simulate_slots cfg slots_left slot intents g results = Ok (g', results') ∧
    consistent g' = true ∧
    counted results' = Z.min ((slot + Z.of_nat slots_left) * intents_per_slot cfg) (Z.of_nat (length intents)).
Proof.
  intros Hslot Hper Hb Hlen Hi. revert slot g results Hslot Hb.
  induction slots_left as [| n IH]; intros slot g results Hslot Hb Hg Hres; cbn [simulate_slots].
  { exists g, results. by rewrite Z.add_0_r. }
  rewrite Nat2Z.inj_succ in Hb |- *.
  assert (slot * intents_per_slot cfg + intents_per_slot cfg < 2 ^ 64) by nia.
  assert (0 ≤ slot * intents_per_slot cfg) by nia.
  rewrite (wrapu_id 64 (slot * _)), (wrapu_id 64 (_ + _)) by (unfold fits; lia).
  destruct (decide (_ ≤ slot * intents_per_slot cfg)) as [Hend | Hend].
  { exists g, results. split_and!; [done.. |]. rewrite Hres. nia. }
  rewrite decide_False by lia. set (stop := Z.min _ _).
  set (l := take _ _). assert (Z.of_nat (length l) = stop - slot * intents_per_slot cfg) as El.
  { unfold l. rewrite length_take, length_drop. lia. }
  pose proof (simulate_slot_spec slot l g) as Hs.
  destruct (simulate_slot cfg slot l g) as [g1 r].
  destruct Hs as (Hg1 & Hr & ? & ?); [by apply Forall_take, Forall_drop | done | lia |].
  replace (slot + Z.succ (Z.of_nat n)) with (slot + 1 + Z.of_nat n) in Hb |- * by lia.
  apply IH; [lia | done | done |]. unfold counted in Hres |- *. rewrite !wrapped_total_app.
  pose proof (wrapped_total_nonneg intents_admitted results).
  pose proof (wrapped_total_nonneg slot_intents_rejected results).
  rewrite !wrapu_id by (unfold fits; lia). unfold stop in *. lia.
Qed.

(** The simulation returns, whatever the intents, as long as the slots are within a
    machine integer; it reports a consistent budget, and every intent of the simulated
    slots is counted once, as admitted or as rejected. *)
Theorem simulation_consistent intents :
  0 ≤ num_slots cfg → 0 ≤ intents_per_slot cfg → num_slots cfg * intents_per_slot cfg < 2 ^ 64 →
  Z.of_nat (length intents) < 2 ^ 64 → Forall sim_intent_ok intents →
  ∃ r, run_simulation cfg intents = Ok r ∧ budget_consistent r = true ∧
    total_intents_submitted r = Z.min (num_slots cfg * intents_per_slot cfg) (Z.of_nat (length intents)) ∧
    total_intents_admitted r + total_intents_rejected r = total_intents_submitted r.
Proof.
  intros Hn Hper Hb Hlen Hi.
  destruct (simulate_slots_spec (Z.to_nat (num_slots cfg)) 0 intents
    (mkSimRun ∅ [] [] true FeeLedger.new 0) []) as (g & results & E & Hg & Hc);
    rewrite ?Z2Nat.id by lia; try done.
  { unfold counted. cbn. lia. }
  rewrite Z2Nat.id in Hc by lia. unfold run_simulation. rewrite E. cbn. eexists. split; [done |]. cbn.
  unfold counted in Hc. pose proof (wrapped_total_nonneg intents_admitted results).
  pose proof (wrapped_total_nonneg slot_intents_rejected results).
  rewrite wrapu_id by (unfold fits; lia). split_and!; [done | lia..].
Qed.
End consistent.

Definition sample_simulation : SimConfig :=
  mkSimConfig PoSeqFeeParameters.testnet_defaults PriorityConfig.default 3 4.
Lemma simulation_consistent_witness :
  ∃ r, run_simulation sample_simulation (generate_intents 10 7) = Ok r ∧ budget_consistent r = true ∧
    total_intents_submitted r = 10 ∧ total_intents_admitted r + total_intents_rejected r = 10.
Proof.
  destruct (simulation_consistent sample_simulation testnet_ok eq_refl (generate_intents 10 7))
    as (r & E & Hb & Hs & Hsum); [by_eval.. | |].
  { apply Forall_forall. intros i Hi%list_elem_of_fmap. destruct Hi as (k & -> & Hk).
    apply list_elem_of_fmap in Hk as (j & -> & _). unfold generated_intent. destruct (sim_class _) as [[? ?] ?].
    unfold sim_intent_ok, fits. cbn [si_max_poseq_fee si_max_runtime_fee runtime_gas].
    pose proof (Z.mod_pos_bound (Z.of_nat j) 3000). lia. }
  exists r. rewrite Hs in Hsum. split_and!; [exact E | exact Hb | exact Hs | exact Hsum].
Defined.
