(* ===== verification/ContractContext.v ===== *)
(** * What contract validators see

    The collectors of a plan's events and hooks, the context of the other operations of a
    plan, price feeds, state proofs, the typed storage of a contract and
    meta-transactions (src/runtime/src/contracts/advanced.rs).  The theorems say which
    prices and states a validator can read, and that the context's net change of a balance
    is the one the plan makes. *)

From stdpp Require Import gmap strings list sorting pretty.
From S2P Require Import Prelude Sorting Planner Artifacts.

(** ** Collectors *)

(* @src src/runtime/src/contracts/advanced.rs:54-56 EventCollector *)
Record EventCollector : Type := mkEventCollector { collected_events : list ContractEvent }.
Module EventCollector.
(* @src src/runtime/src/contracts/advanced.rs:59-61 EventCollector::new *)
Definition new : EventCollector := mkEventCollector [].
(* @src src/runtime/src/contracts/advanced.rs:63-65 EventCollector::emit *)
Definition emit (e : ContractEvent) (c : EventCollector) : EventCollector :=
  mkEventCollector (collected_events c ++ [e]).
(* @src src/runtime/src/contracts/advanced.rs:67-69 EventCollector::drain *)
Definition drain (c : EventCollector) : EventCollector * list ContractEvent := (new, collected_events c).
End EventCollector.

(* @src src/runtime/src/contracts/advanced.rs:493-495 IBCHookCollector *)
Record IBCHookCollector : Type := mkHookCollector { hooks : list IBCHook }.
Module IBCHookCollector.
(* @src src/runtime/src/contracts/advanced.rs:498-500 IBCHookCollector::new *)
Definition new : IBCHookCollector := mkHookCollector [].
(* @src src/runtime/src/contracts/advanced.rs:502-504 IBCHookCollector::add *)
Definition add (h : IBCHook) (c : IBCHookCollector) : IBCHookCollector := mkHookCollector (hooks c ++ [h]).
(* @src src/runtime/src/contracts/advanced.rs:506-508 IBCHookCollector::drain *)
Definition drain (c : IBCHookCollector) : IBCHookCollector * list IBCHook := (new, hooks c).
End IBCHookCollector.

(** ** The context of a plan *)

(* @src src/runtime/src/contracts/advanced.rs:169-175 ProposedTransition *)
Record ProposedTransition : Type := mkTransition {
  pt_contract_id : id32;
  pt_schema_id : id32;
  current_state_hash : id32;
  proposed_state_hash : id32;
  pt_method : string }.

(* @src src/runtime/src/contracts/advanced.rs:185-190 BalanceOpType *)
Inductive BalanceOpType : Type := Debit | Credit | Lock | Unlock.
(* @src src/runtime/src/contracts/advanced.rs:178-182 BalanceOp *)
Record BalanceOp : Type := mkBalanceOp {
  bo_balance_id : id32;
  op_type : BalanceOpType;
  bo_amount : Z }.

(* @src src/runtime/src/contracts/advanced.rs:157-166 PlanContext *)
Record PlanContext : Type := mkPlanContext {
  transitions : gmap id32 ProposedTransition;
  balance_ops : list BalanceOp;
  pc_epoch : Z;
  gas_budget : Z }.

Module PlanContext.
(* @src src/runtime/src/contracts/advanced.rs:193-200 PlanContext::new *)
Definition new (epoch gas : Z) : PlanContext := mkPlanContext ∅ [] epoch gas.

Section from_operations.
Context `{Sha256}.
(** The present state's hash is left as zeros. *)
(* @src src/runtime/src/contracts/advanced.rs:211-258 PlanContext::from_operations *)
Definition add_operation (c : PlanContext) (o : ObjectOperation) : PlanContext :=
  let push b t a := mkPlanContext (transitions c) (balance_ops c ++ [mkBalanceOp b t a])
                      (pc_epoch c) (gas_budget c) in
  match o with
  | ContractStateTransition contract schema state =>
      mkPlanContext (<[contract := mkTransition contract schema 0 (sha256 state) EmptyString]> (transitions c))
        (balance_ops c) (pc_epoch c) (gas_budget c)
  | DebitBalance b a => push b Debit a
  | CreditBalance b a => push b Credit a
  | LockBalance b a => push b Lock a
  | UnlockBalance b a => push b Unlock a
  | _ => c
  end.
(* @src src/runtime/src/contracts/advanced.rs:203-260 PlanContext::from_operations *)
Definition from_operations (ops : list ObjectOperation) (epoch gas : Z) : PlanContext :=
  foldl add_operation (new epoch gas) ops.
End from_operations.

(* @src src/runtime/src/contracts/advanced.rs:263-265 PlanContext::has_transition *)
Definition has_transition (c : PlanContext) (i : id32) : bool := bool_decide (is_Some (transitions c !! i)).
(* @src src/runtime/src/contracts/advanced.rs:268-270 PlanContext::get_transition *)
Definition get_transition (c : PlanContext) (i : id32) : option ProposedTransition := transitions c !! i.

(** In signed 128-bit arithmetic, the amounts converted too. *)
(* @src src/runtime/src/contracts/advanced.rs:275-283 PlanContext::net_balance_change *)
Definition add_net (i : id32) (net : Z) (o : BalanceOp) : Z :=
  if decide (bo_balance_id o = i) then
    match op_type o with
    | Credit => wraps 128 (net + wraps 128 (bo_amount o))
    | Debit => wraps 128 (net - wraps 128 (bo_amount o))
    | _ => net
    end
  else net.
(* @src src/runtime/src/contracts/advanced.rs:273-285 PlanContext::net_balance_change *)
Definition net_balance_change (c : PlanContext) (i : id32) : Z := foldl (add_net i) 0 (balance_ops c).
End PlanContext.

(** ** Price feeds *)

(* @src src/runtime/src/contracts/advanced.rs:335-347 OraclePriceFeed *)
Record OraclePriceFeed : Type := mkFeed {
  pair : string;
  price : Z;
  timestamp : Z;
  source : string;
  attestation : string }.

(* @src src/runtime/src/contracts/advanced.rs:351-356 OracleContext *)
Record OracleContext : Type := mkOracle { feeds : gmap string OraclePriceFeed; max_staleness_secs : Z }.

Module OracleContext.
(* @src src/runtime/src/contracts/advanced.rs:359-364 OracleContext::new *)
Definition new (staleness : Z) : OracleContext := mkOracle ∅ staleness.
(* @src src/runtime/src/contracts/advanced.rs:367-369 OracleContext::add_feed *)
Definition add_feed (f : OraclePriceFeed) (o : OracleContext) : OracleContext :=
  mkOracle (<[pair f := f]> (feeds o)) (max_staleness_secs o).
(* @src src/runtime/src/contracts/advanced.rs:374-374 OracleContext::get_price *)
Definition is_stale (o : OracleContext) (now : Z) (f : OraclePriceFeed) : bool :=
  bool_decide (0 < max_staleness_secs o ∧ max_staleness_secs o < sat_sub now (timestamp f)).
(* @src src/runtime/src/contracts/advanced.rs:372-378 OracleContext::get_price *)
Definition get_price (o : OracleContext) (p : string) (now : Z) : option Z :=
  f ← feeds o !! p; if is_stale o now f then None else Some (price f).
(** The first stale feed in the order of the pairs is reported. *)
(* @src src/runtime/src/contracts/advanced.rs:381-392 OracleContext::validate_freshness *)
Definition validate_freshness (o : OracleContext) (now : Z) : outcome string () :=
  ofor (λ p, match feeds o !! p with
             | Some f =>
                 if is_stale o now f then
                   Err ("oracle feed '" +:+ p +:+ "' is stale: age " +:+ pretty (sat_sub now (timestamp f)) +:+
                        "s > max " +:+ pretty (max_staleness_secs o) +:+ "s")
                 else Ok tt
             | None => Ok tt
             end) (sorted_strings (dom (feeds o))).
End OracleContext.

(** ** State proofs *)

(* @src src/runtime/src/contracts/advanced.rs:403-416 StateProof *)
Record StateProof : Type := mkStateProof {
  source_contract_id : id32;
  source_schema_id : id32;
  state_snapshot : bytes;
  state_hash : id32;
  sp_version : Z;
  observed_epoch : Z }.
(* @src src/runtime/src/contracts/advanced.rs:430-433 StateProofSet *)
Record StateProofSet : Type := mkProofSet { proofs : gmap id32 StateProof }.

(* @src src/runtime/src/contracts/advanced.rs:420-425 StateProof::verify *)
Definition verify_state_proof `{Sha256} (p : StateProof) : bool :=
  bool_decide (sha256 (state_snapshot p) = state_hash p).
Module StateProofSet.
(* @src src/runtime/src/contracts/advanced.rs:436-438 StateProofSet::new *)
Definition new : StateProofSet := mkProofSet ∅.
(* @src src/runtime/src/contracts/advanced.rs:440-442 StateProofSet::add *)
Definition add (p : StateProof) (s : StateProofSet) : StateProofSet :=
  mkProofSet (<[source_contract_id p := p]> (proofs s)).
(* @src src/runtime/src/contracts/advanced.rs:446-453 StateProofSet::get_verified *)
Definition get_verified `{Sha256} (s : StateProofSet) (i : id32) : option bytes :=
  p ← proofs s !! i; if verify_state_proof p then Some (state_snapshot p) else None.
End StateProofSet.

(* @src src/runtime/src/contracts/advanced.rs:647-656 ExtendedValidationContext *)
Record ExtendedValidationContext : Type := mkExtendedContext {
  plan_context : option PlanContext;
  oracle : option OracleContext;
  state_proofs : option StateProofSet;
  contract_balances : list ContractBalance }.

(** ** Typed storage *)

(* @src src/runtime/src/contracts/advanced.rs:889-900 StorageValue *)
#[warnings="-register-all"] Inductive StorageValue : Type :=
| Uint128 (v : Z)
| Int128 (v : Z)
| SvBool (v : bool)
| Bytes32 (v : id32)
| SvString (v : string)
| SvBytes (v : bytes)
| SvMap (m : gmap string StorageValue)
| SvList (l : list StorageValue).

(* @src src/runtime/src/contracts/advanced.rs:883-885 ContractStorage *)
Record ContractStorage : Type := mkStorage { fields : gmap string StorageValue }.

(** Crate [bincode] on a storage, which serializes without error. *)
Class StorageBincode := {
  encode_storage : ContractStorage → bytes;
  decode_storage : bytes → string + ContractStorage }.
Class StorageBincodeLaws `{StorageBincode} : Prop :=
  decode_encode_storage s : decode_storage (encode_storage s) = inr s.

Module ContractStorage.
(* @src src/runtime/src/contracts/advanced.rs:903-903 ContractStorage::new *)
Definition new : ContractStorage := mkStorage ∅.
(* @src src/runtime/src/contracts/advanced.rs:905-907 ContractStorage::set *)
Definition set (k : string) (v : StorageValue) (s : ContractStorage) : ContractStorage :=
  mkStorage (<[k := v]> (fields s)).
(* @src src/runtime/src/contracts/advanced.rs:909-911 ContractStorage::get *)
Definition get (s : ContractStorage) (k : string) : option StorageValue := fields s !! k.
(* @src src/runtime/src/contracts/advanced.rs:913-915 ContractStorage::get_uint128 *)
Definition get_uint128 (s : ContractStorage) (k : string) : option Z :=
  v ← get s k; match v with Uint128 v => Some v | _ => None end.
(* @src src/runtime/src/contracts/advanced.rs:917-919 ContractStorage::get_bool *)
Definition get_bool (s : ContractStorage) (k : string) : option bool :=
  v ← get s k; match v with SvBool v => Some v | _ => None end.
(* @src src/runtime/src/contracts/advanced.rs:921-923 ContractStorage::get_string *)
Definition get_string (s : ContractStorage) (k : string) : option string :=
  v ← get s k; match v with SvString v => Some v | _ => None end.
(* @src src/runtime/src/contracts/advanced.rs:925-927 ContractStorage::get_bytes32 *)
Definition get_bytes32 (s : ContractStorage) (k : string) : option id32 :=
  v ← get s k; match v with Bytes32 v => Some v | _ => None end.
(* @src src/runtime/src/contracts/advanced.rs:930-935 ContractStorage::get_map_entry *)
Definition get_map_entry (s : ContractStorage) (k e : string) : option StorageValue :=
  v ← get s k; match v with SvMap m => m !! e | _ => None end.
(** A field that is not a map is left as it is. *)
(* @src src/runtime/src/contracts/advanced.rs:938-944 ContractStorage::set_map_entry *)
Definition set_map_entry (k e : string) (v : StorageValue) (s : ContractStorage) : ContractStorage :=
  match default (SvMap ∅) (fields s !! k) with
  | SvMap m => mkStorage (<[k := SvMap (<[e := v]> m)]> (fields s))
  | _ => s
  end.
(* @src src/runtime/src/contracts/advanced.rs:947-949 ContractStorage::to_bytes *)
Definition to_bytes `{StorageBincode} (s : ContractStorage) : bytes := encode_storage s.
(* @src src/runtime/src/contracts/advanced.rs:952-954 ContractStorage::from_bytes *)
Definition from_bytes `{StorageBincode} (data : bytes) : outcome string ContractStorage :=
  match decode_storage data with inl e => Err ("storage decode: " +:+ e) | inr s => Ok s end.
(* @src src/runtime/src/contracts/advanced.rs:957-959 ContractStorage::remove *)
Definition remove (k : string) (s : ContractStorage) : ContractStorage * bool :=
  (mkStorage (delete k (fields s)), bool_decide (is_Some (fields s !! k))).
(* @src src/runtime/src/contracts/advanced.rs:962-964 ContractStorage::len *)
Definition len (s : ContractStorage) : nat := size (fields s).
(* @src src/runtime/src/contracts/advanced.rs:966-968 ContractStorage::is_empty *)
Definition is_empty (s : ContractStorage) : bool := bool_decide (size (fields s) = 0%nat).
End ContractStorage.

(** ** Meta-transactions *)

(* @src src/runtime/src/contracts/advanced.rs:979-994 MetaTransaction *)
Record MetaTransaction : Type := mkMetaTx {
  mt_sender : id32;
  fee_payer : id32;
  inner_tx_id : id32;
  relayer_max_fee : Z;
  relayer_tip : Z;
  mt_deadline_epoch : Z;
  mt_nonce : Z }.
Module MetaTransaction.
(* @src src/runtime/src/contracts/advanced.rs:998-1009 MetaTransaction::compute_id *)
Definition compute_id `{Sha256} (t : MetaTransaction) : id32 :=
  sha256 (string_bytes "OMNIPHI_META_TX_V1" ++ be_bytes 32 (mt_sender t) ++ be_bytes 32 (fee_payer t) ++
          be_bytes 32 (inner_tx_id t) ++ be_bytes 8 (mt_nonce t)).
(* @src src/runtime/src/contracts/advanced.rs:1012-1018 MetaTransaction::validate *)
Definition validate (t : MetaTransaction) : outcome string () :=
  if decide (mt_sender t = 0) then Err "sender is zero"
  else if decide (fee_payer t = 0) then Err "fee_payer is zero"
  else if decide (mt_sender t = fee_payer t) then Err "sender and fee_payer must differ"
  else if decide (relayer_max_fee t = 0) then Err "relayer_max_fee must be > 0"
  else Ok tt.
End MetaTransaction.

(** ** What a validator reads *)

(** The credits less the debits a plan makes to a balance, over the integers. *)
Definition net_of (i : id32) (o : ObjectOperation) : Z :=
  match o with
  | CreditBalance b a => if decide (b = i) then a else 0
  | DebitBalance b a => if decide (b = i) then - a else 0
  | _ => 0
  end.
(** What a plan moves in and out of a balance. *)
Definition moved_of (i : id32) (o : ObjectOperation) : Z := Z.abs (net_of i o).

Section net.
Context `{Sha256} (i : id32).

Lemma add_operation_net c o :
  PlanContext.net_balance_change (PlanContext.add_operation c o) i =
  match o with
  | CreditBalance b a =>
      if decide (b = i) then wraps 128 (PlanContext.net_balance_change c i + wraps 128 a)
      else PlanContext.net_balance_change c i
  | DebitBalance b a =>
      if decide (b = i) then wraps 128 (PlanContext.net_balance_change c i - wraps 128 a)
      else PlanContext.net_balance_change c i
  | _ => PlanContext.net_balance_change c i
  end.
Proof.
  destruct o; try done; unfold PlanContext.net_balance_change; cbn; rewrite foldl_app; cbn;
    unfold PlanContext.add_net; cbn; by case_decide.
Qed.

Lemma wraps_id z : - 2 ^ 127 ≤ z < 2 ^ 127 → wraps 128 z = z.
Proof. intros ?. unfold wraps. rewrite Z.mod_small; lia. Qed.

Lemma add_operation_exact c o :
  Z.abs (PlanContext.net_balance_change c i) + moved_of i o < 2 ^ 127 →
  PlanContext.net_balance_change (PlanContext.add_operation c o) i =
  PlanContext.net_balance_change c i + net_of i o.
Proof.
  rewrite add_operation_net. unfold moved_of. destruct o; cbn [net_of]; try lia.
  all: case_decide; [| lia]; intros; rewrite (wraps_id amount) by lia; rewrite wraps_id; lia.
Qed.

Lemma add_operations_exact ops c :
  Z.abs (PlanContext.net_balance_change c i) + sumZ (moved_of i <$> ops) < 2 ^ 127 →
  PlanContext.net_balance_change (foldl PlanContext.add_operation c ops) i =
  PlanContext.net_balance_change c i + sumZ (net_of i <$> ops).
Proof.
  revert c. induction ops as [| o ops IH]; intros c; [cbn; lia |]. rewrite !fmap_cons, !sumZ_cons.
  intros Hb. assert (0 ≤ sumZ (moved_of i <$> ops)).
  { apply sumZ_nonneg, Forall_fmap, Forall_true. intros ?. unfold moved_of. cbn. lia. }
  assert (E : PlanContext.net_balance_change (PlanContext.add_operation c o) i =
              PlanContext.net_balance_change c i + net_of i o) by (apply add_operation_exact; lia).
  cbn [foldl]. unfold moved_of in Hb at 1. rewrite IH; rewrite E; lia.
Qed.

(** As long as what a plan moves in and out of a balance stays below half the range of
    an amount, the context has its exact net change. *)
Theorem net_balance_change_exact ops epoch gas :
  sumZ (moved_of i <$> ops) < 2 ^ 127 →
  PlanContext.net_balance_change (PlanContext.from_operations ops epoch gas) i = sumZ (net_of i <$> ops).
Proof. intros ?. unfold PlanContext.from_operations. by rewrite add_operations_exact. Qed.
End net.

(** Beyond it the sign is lost: a credit of half the range reads as a debit. *)
Example large_credit_reads_as_debit `{Sha256} :
  PlanContext.net_balance_change (PlanContext.from_operations [CreditBalance 1 (2 ^ 127)] 0 0) 1 = - 2 ^ 127.
Proof. reflexivity. Qed.

(** A price a validator reads is that of the last feed added for the pair, no older than
    the limit, if there is one.  A feed from the future is not stale. *)
Theorem read_price_fresh o p now v :
  OracleContext.get_price o p now = Some v ↔
  ∃ f, feeds o !! p = Some f ∧ price f = v ∧
    (0 < max_staleness_secs o → now - timestamp f ≤ max_staleness_secs o).
Proof.
  unfold OracleContext.get_price, OracleContext.is_stale. destruct (feeds o !! p) as [f |]; cbn.
  - case_bool_decide as Hd; unfold sat_sub in Hd.
    + split; [done |]. intros (? & [= <-] & _ & Hf). lia.
    + split.
      * intros [= <-]. exists f. split_and!; [done.. | lia].
      * by intros (? & [= <-] & -> & _).
  - split; [done |]. by intros (? & ? & _).
Qed.

(** A proof that verifies is read, one that does not is as if it were not there. *)
Theorem verified_state_hashes `{Sha256} s i b :
  StateProofSet.get_verified s i = Some b ↔
  ∃ p, proofs s !! i = Some p ∧ state_snapshot p = b ∧ sha256 b = state_hash p.
Proof.
  unfold StateProofSet.get_verified, verify_state_proof. destruct (proofs s !! i) as [p |]; cbn.
  - case_bool_decide; naive_solver.
  - naive_solver.
Qed.

(** A map entry that is set is read back, and the other entries and fields stay. *)
Theorem map_entry_set s k e v k' e' :
  (∀ x, fields s !! k = Some x → ∃ m, x = SvMap m) →
  ContractStorage.get_map_entry (ContractStorage.set_map_entry k e v s) k' e' =
  if decide (k' = k ∧ e' = e) then Some v else ContractStorage.get_map_entry s k' e'.
Proof.
  intros Hm. unfold ContractStorage.set_map_entry, ContractStorage.get_map_entry, ContractStorage.get.
  destruct (fields s !! k) as [x |] eqn:E; [destruct (Hm x eq_refl) as [m ->] |]; cbn;
    (destruct (decide (k' = k)) as [-> |];
     [rewrite lookup_insert, decide_True by done; cbn; rewrite ?E; cbn | rewrite lookup_insert_ne by done]);
    (destruct (decide (e' = e)) as [-> |]); rewrite ?lookup_insert, ?lookup_insert_ne by done;
    repeat (case_decide; try naive_solver).
Qed.
