(* ===== verification/ContractAssets.v ===== *)
(** * Allowances and non-fungible tokens

    The allowance and token registries of contracts
    (src/runtime/src/contracts/advanced.rs).  The theorems say that a spender never
    spends more than it was granted, and what the index of owners lists. *)

From stdpp Require Import gmap strings list pretty.
From S2P Require Import Prelude Concrete.

(** ** Allowances *)

(* @src src/runtime/src/contracts/advanced.rs:665-670 Allowance *)
Record Allowance : Type := mkAllowance {
  al_owner : id32;
  al_spender : id32;
  al_asset_id : id32;
  al_remaining : Z }.
Abbreviation AllowanceKey := (Z * Z * Z)%type.
(* @src src/runtime/src/contracts/advanced.rs:674-677 AllowanceRegistry *)
Record AllowanceRegistry : Type := mkAllowances { entries : gmap AllowanceKey Allowance }.

Module AllowanceRegistry.
(* @src src/runtime/src/contracts/advanced.rs:680-680 AllowanceRegistry::new *)
Definition new : AllowanceRegistry := mkAllowances ∅.
(* @src src/runtime/src/contracts/advanced.rs:683-690 AllowanceRegistry::approve *)
Definition approve (owner spender asset amount : Z) (r : AllowanceRegistry) : AllowanceRegistry :=
  let key := (owner, spender, asset) in
  if decide (amount = 0) then mkAllowances (delete key (entries r))
  else mkAllowances (<[key := mkAllowance owner spender asset amount]> (entries r)).
(* @src src/runtime/src/contracts/advanced.rs:693-695 AllowanceRegistry::allowance *)
Definition allowance (r : AllowanceRegistry) (owner spender asset : Z) : Z :=
  from_option al_remaining 0 (entries r !! (owner, spender, asset)).
(* @src src/runtime/src/contracts/advanced.rs:698-710 AllowanceRegistry::spend *)
Definition spend (owner spender asset amount : Z) : M AllowanceRegistry string () := λ r,
  let key := (owner, spender, asset) in
  match entries r !! key with
  | None => (r, Err "no allowance set")
  | Some e =>
      if decide (al_remaining e < amount)
      then (r, Err ("allowance " +:+ pretty (al_remaining e) +:+ " < requested " +:+ pretty amount))
      else
        let left := al_remaining e - amount in
        if decide (left = 0) then (mkAllowances (delete key (entries r)), Ok tt)
        else (mkAllowances (<[key := mkAllowance (al_owner e) (al_spender e) (al_asset_id e) left]>
                              (entries r)), Ok tt)
  end.
(* @src src/runtime/src/contracts/advanced.rs:713-717 AllowanceRegistry::increase *)
Definition increase (owner spender asset amount : Z) (r : AllowanceRegistry) : AllowanceRegistry :=
  approve owner spender asset (sat_add 128 (allowance r owner spender asset) amount) r.
End AllowanceRegistry.

(** ** Tokens *)

(* @src src/runtime/src/contracts/advanced.rs:727-744 NonFungibleToken *)
Record NonFungibleToken : Type := mkNFT {
  token_id : id32;
  collection_id : id32;
  nft_owner : id32;
  metadata_uri : string;
  attributes : gmap string string;
  approved : option id32;
  minted_at_epoch : Z;
  frozen : bool }.

Module NonFungibleToken.
(* @src src/runtime/src/contracts/advanced.rs:747-761 NonFungibleToken::new *)
Definition new (i collection owner : id32) (uri : string) (epoch : Z) : NonFungibleToken :=
  mkNFT i collection owner uri ∅ None epoch false.
(* @src src/runtime/src/contracts/advanced.rs:764-773 NonFungibleToken::compute_token_id *)
Definition compute_token_id `{Sha256} (collection : id32) (serial : Z) : id32 :=
  sha256 (string_bytes "OMNIPHI_NFT_V1" ++ be_bytes 32 collection ++ be_bytes 8 serial).
(* @src src/runtime/src/contracts/advanced.rs:776-786 NonFungibleToken::transfer *)
Definition transfer (from to : id32) : M NonFungibleToken string () := λ n,
  if frozen n then (n, Err "NFT is frozen")
  else if decide (nft_owner n ≠ from ∧ approved n ≠ Some from) then (n, Err "not owner or approved")
  else (mkNFT (token_id n) (collection_id n) to (metadata_uri n) (attributes n) None
          (minted_at_epoch n) (frozen n), Ok tt).
(* @src src/runtime/src/contracts/advanced.rs:789-795 NonFungibleToken::approve *)
Definition approve (caller operator : id32) : M NonFungibleToken string () := λ n,
  if decide (nft_owner n ≠ caller) then (n, Err "only owner can approve")
  else (mkNFT (token_id n) (collection_id n) (nft_owner n) (metadata_uri n) (attributes n)
          (Some operator) (minted_at_epoch n) (frozen n), Ok tt).
End NonFungibleToken.

(* @src src/runtime/src/contracts/advanced.rs:800-807 NFTRegistry *)
Record NFTRegistry : Type := mkNFTs {
  tokens : gmap id32 NonFungibleToken;
  collection_serials : gmap id32 Z;
  owner_index : gmap id32 (list id32) }.

Module NFTRegistry.
(* @src src/runtime/src/contracts/advanced.rs:810-810 NFTRegistry::new *)
Definition new : NFTRegistry := mkNFTs ∅ ∅ ∅.
(* @src src/runtime/src/contracts/advanced.rs:849-851 NFTRegistry::tokens_of *)
Definition tokens_of (r : NFTRegistry) (owner : id32) : list id32 := default [] (owner_index r !! owner).
(* @src src/runtime/src/contracts/advanced.rs:854-856 NFTRegistry::collection_supply *)
Definition collection_supply (r : NFTRegistry) (c : id32) : Z := default 0 (collection_serials r !! c).
(* @src src/runtime/src/contracts/advanced.rs:844-846 NFTRegistry::get *)
Definition get (r : NFTRegistry) (i : id32) : option NonFungibleToken := tokens r !! i.

(** [entry(owner).or_default().push(id)] and [get_mut(owner)] with a [retain] of the
    others. *)
(* @src src/runtime/src/contracts/advanced.rs:839-839 NFTRegistry::transfer *)
Definition list_under (owner i : id32) (m : gmap id32 (list id32)) : gmap id32 (list id32) :=
  <[owner := default [] (m !! owner) ++ [i]]> m.
(* @src src/runtime/src/contracts/advanced.rs:836-838 NFTRegistry::transfer *)
Definition unlist_under (owner i : id32) (m : gmap id32 (list id32)) : gmap id32 (list id32) :=
  alter (filter (λ j, j ≠ i)) owner m.

(* @src src/runtime/src/contracts/advanced.rs:813-828 NFTRegistry::mint *)
Definition mint `{Sha256} (collection owner : id32) (uri : string) (epoch : Z) (r : NFTRegistry)
  : NFTRegistry * id32 :=
  let serial := collection_supply r collection in
  let i := NonFungibleToken.compute_token_id collection serial in
  (mkNFTs (<[i := NonFungibleToken.new i collection owner uri epoch]> (tokens r))
     (<[collection := wrapu 64 (serial + 1)]> (collection_serials r))
     (list_under owner i (owner_index r)), i).

(* @src src/runtime/src/contracts/advanced.rs:831-841 NFTRegistry::transfer *)
Definition transfer (i from to : id32) : M NFTRegistry string () := λ r,
  match tokens r !! i with
  | None => (r, Err "NFT not found")
  | Some n =>
      match NonFungibleToken.transfer from to n with
      | (n, Ok _) =>
          (mkNFTs (<[i := n]> (tokens r)) (collection_serials r)
             (list_under to i (unlist_under from i (owner_index r))), Ok tt)
      | (_, Err e) => (r, Err e)
      | (_, Panic) => (r, Panic)
      end
  end.

(* @src src/runtime/src/contracts/advanced.rs:859-870 NFTRegistry::burn *)
Definition burn (i caller : id32) : M NFTRegistry string () := λ r,
  match tokens r !! i with
  | None => (r, Err "NFT not found")
  | Some n =>
      if decide (nft_owner n ≠ caller) then (r, Err "only owner can burn")
      else (mkNFTs (delete i (tokens r)) (collection_serials r)
              (unlist_under (nft_owner n) i (owner_index r)), Ok tt)
  end.
End NFTRegistry.

(** ** What is spent from an allowance *)

(** The calls about one owner, spender and asset; [AlSpend] may be refused. *)
Inductive AllowanceOp : Type :=
| AlApprove (owner spender asset amount : Z)
| AlSpend (owner spender asset amount : Z)
| AlIncrease (owner spender asset amount : Z).

Definition allowance_step (r : AllowanceRegistry) (o : AllowanceOp) : AllowanceRegistry :=
  match o with
  | AlApprove w s a n => AllowanceRegistry.approve w s a n r
  | AlSpend w s a n => (AllowanceRegistry.spend w s a n r).1
  | AlIncrease w s a n => AllowanceRegistry.increase w s a n r
  end.

(** What a call grants to and takes from a key, in a state. *)
Definition granted (k : AllowanceKey) (o : AllowanceOp) : Z :=
  match o with
  | AlApprove w s a n | AlIncrease w s a n => if decide ((w, s, a) = k) then n else 0
  | AlSpend _ _ _ _ => 0
  end.
Definition spent (k : AllowanceKey) (r : AllowanceRegistry) (o : AllowanceOp) : Z :=
  match o with
  | AlSpend w s a n =>
      if decide ((w, s, a) = k) then
        match (AllowanceRegistry.spend w s a n r).2 with Ok _ => n | _ => 0 end
      else 0
  | _ => 0
  end.
Fixpoint allowance_totals (k : AllowanceKey) (ops : list AllowanceOp) (r : AllowanceRegistry)
  : AllowanceRegistry * Z * Z :=
  match ops with
  | [] => (r, 0, 0)
  | o :: ops =>
      let '(r', g, s) := allowance_totals k ops (allowance_step r o) in
      (r', granted k o + g, spent k r o + s)
  end.
Definition allowance_op_ok (o : AllowanceOp) : Prop :=
  match o with AlApprove _ _ _ n | AlSpend _ _ _ n | AlIncrease _ _ _ n => 0 ≤ n end.

Definition allowance_at (r : AllowanceRegistry) (k : AllowanceKey) : Z :=
  from_option al_remaining 0 (entries r !! k).
(** No entry is empty or negative. *)
Definition allowances_ok (r : AllowanceRegistry) : Prop := map_Forall (λ _ e, 0 < al_remaining e) (entries r).

Section allowances.
Implicit Types (k : AllowanceKey) (r : AllowanceRegistry).

Lemma allowance_nonneg r k : allowances_ok r → 0 ≤ allowance_at r k.
Proof.
  intros Hr. unfold allowance_at. destruct (entries r !! k) as [e |] eqn:E; cbn; [| lia].
  specialize (Hr _ _ E). cbn in Hr. lia.
Qed.

Lemma approve_spec w s a n r k :
  allowance_at (AllowanceRegistry.approve w s a n r) k = if decide ((w, s, a) = k) then n else allowance_at r k.
Proof.
  unfold AllowanceRegistry.approve, allowance_at. case_decide as Hn; cbn.
  - case_decide as Hk; subst; by rewrite ?lookup_delete_eq, ?lookup_delete_ne.
  - case_decide as Hk; subst; by rewrite ?lookup_insert_eq, ?lookup_insert_ne.
Qed.
Lemma approve_ok w s a n r : 0 ≤ n → allowances_ok r → allowances_ok (AllowanceRegistry.approve w s a n r).
Proof.
  intros ??. unfold AllowanceRegistry.approve, allowances_ok. case_decide; cbn.
  - by apply map_Forall_delete.
  - apply map_Forall_insert_2; [cbn; lia | done].
Qed.

Lemma spend_spec w s a n r k :
  allowance_at (AllowanceRegistry.spend w s a n r).1 k = allowance_at r k - spent k r (AlSpend w s a n).
Proof.
  unfold spent, AllowanceRegistry.spend, allowance_at. destruct (entries r !! (w, s, a)) as [e |] eqn:E; cbn.
  2: case_decide; lia.
  case_decide as Hl; cbn; [case_decide; lia |]. case_decide as Hz; cbn.
  - case_decide as Hk; subst; rewrite ?lookup_delete_eq, ?lookup_delete_ne by done; rewrite ?E; cbn; lia.
  - case_decide as Hk; subst; rewrite ?lookup_insert_eq, ?lookup_insert_ne by done; rewrite ?E; cbn; lia.
Qed.
Lemma spend_ok w s a n r : allowances_ok r → allowances_ok (AllowanceRegistry.spend w s a n r).1.
Proof.
  intros Hr. unfold AllowanceRegistry.spend. destruct (entries r !! (w, s, a)) as [e |]; [| done].
  case_decide; [done |]. case_decide; cbn; unfold allowances_ok; cbn.
  - by apply map_Forall_delete.
  - apply map_Forall_insert_2; [cbn; lia | done].
Qed.

(** One call changes an allowance by at most what it grants, less what it takes. *)
Lemma allowance_step_spec k r o :
  allowances_ok r → allowance_op_ok o →
  allowances_ok (allowance_step r o) ∧ 0 ≤ spent k r o ∧
  allowance_at (allowance_step r o) k + spent k r o ≤ allowance_at r k + granted k o.
Proof.
  intros Hr Ho. pose proof (allowance_nonneg r k Hr) as Hk. destruct o as [w s a n | w s a n | w s a n]; cbn in *.
  - split; [by apply approve_ok |]. rewrite approve_spec. case_decide; lia.
  - split; [by apply spend_ok |]. rewrite spend_spec. cbn. split; [| lia].
    repeat case_match; lia.
  - pose proof (allowance_nonneg r (w, s, a) Hr) as Hw.
    change (AllowanceRegistry.allowance r w s a) with (allowance_at r (w, s, a)) in *.
    unfold AllowanceRegistry.increase. change (AllowanceRegistry.allowance r w s a) with (allowance_at r (w, s, a)).
    split; [apply approve_ok; [unfold sat_add, umax; lia | done] |]. rewrite approve_spec.
    case_decide; subst; unfold sat_add, umax; lia.
Qed.

(** Over any calls, what a spender spends and may still spend is at most what it could
    spend before and was granted since; a refused call takes nothing. *)
Theorem allowance_bounded k ops r :
  allowances_ok r → Forall allowance_op_ok ops →
  let '(r', g, s) := allowance_totals k ops r in
  0 ≤ s ∧ 0 ≤ allowance_at r' k ∧ s + allowance_at r' k ≤ allowance_at r k + g.
Proof.
  intros Hr Hops. revert r Hr. induction Hops as [| o ops Ho _ IH]; intros r Hr; cbn.
  { pose proof (allowance_nonneg r k Hr). lia. }
  destruct (allowance_step_spec k r o Hr Ho) as (Hr' & Hs & Hle). specialize (IH _ Hr').
  destruct (allowance_totals k ops (allowance_step r o)) as [[r' g] s]. lia.
Qed.
End allowances.

Lemma allowance_bounded_witness :
  let ops := [AlApprove 1 2 3 100; AlSpend 1 2 3 60; AlSpend 1 2 3 60; AlIncrease 1 2 3 20; AlSpend 1 2 3 60] in
  let '(r', g, s) := allowance_totals (1, 2, 3) ops AllowanceRegistry.new in
  s = 120 ∧ (0 ≤ s ∧ 0 ≤ allowance_at r' (1, 2, 3) ∧ s + allowance_at r' (1, 2, 3) ≤ 0 + g).
Proof.
  split; [reflexivity |].
  apply (allowance_bounded (1, 2, 3)
    [AlApprove 1 2 3 100; AlSpend 1 2 3 60; AlSpend 1 2 3 60; AlIncrease 1 2 3 20; AlSpend 1 2 3 60]
    AllowanceRegistry.new).
  - apply map_Forall_empty.
  - repeat constructor; vm_compute; congruence.
Defined.

(** ** The index of owners *)

(** A history of a registry: whether every transfer so far was asked for by the owner
    rather than by an approved operator, the ids minted, and the registry.  An owner
    approves an operator through the token itself. *)
Inductive nft_history `{Sha256} : bool → list id32 → NFTRegistry → Prop :=
| nh_new : nft_history true [] NFTRegistry.new
| nh_mint b l r collection owner uri epoch :
    nft_history b l r →
    nft_history b ((NFTRegistry.mint collection owner uri epoch r).2 :: l)
      (NFTRegistry.mint collection owner uri epoch r).1
| nh_transfer b l r i from to n :
    nft_history b l r → tokens r !! i = Some n →
    nft_history (b && bool_decide (nft_owner n = from)) l (NFTRegistry.transfer i from to r).1
| nh_approve b l r i caller operator :
    nft_history b l r →
    nft_history b l (mkNFTs (alter (λ n, (NonFungibleToken.approve caller operator n).1) i (tokens r))
                       (collection_serials r) (owner_index r))
| nh_burn b l r i caller :
    nft_history b l r → nft_history b l (NFTRegistry.burn i caller r).1.

Definition owned_by (r : NFTRegistry) (o i : id32) : Prop := ∃ n, tokens r !! i = Some n ∧ nft_owner n = o.
(** The index lists only minted ids, and every token under its owner. *)
Definition index_covers (l : list id32) (r : NFTRegistry) : Prop :=
  (∀ o i, i ∈ NFTRegistry.tokens_of r o → i ∈ l) ∧
  (∀ o i, owned_by r o i → i ∈ l ∧ i ∈ NFTRegistry.tokens_of r o).
(** And it lists every token once and only under its owner. *)
Definition index_exact (r : NFTRegistry) : Prop :=
  ∀ o, NoDup (NFTRegistry.tokens_of r o) ∧ ∀ i, i ∈ NFTRegistry.tokens_of r o → owned_by r o i.

Section index.
Implicit Types (r : NFTRegistry) (m : gmap id32 (list id32)).

Lemma listed o i m o' : default [] (NFTRegistry.list_under o i m !! o') =
  if decide (o' = o) then default [] (m !! o') ++ [i] else default [] (m !! o').
Proof.
  unfold NFTRegistry.list_under. case_decide; subst; by rewrite ?lookup_insert_eq, ?lookup_insert_ne.
Qed.
Lemma unlisted o i m o' : default [] (NFTRegistry.unlist_under o i m !! o') =
  if decide (o' = o) then filter (λ j, j ≠ i) (default [] (m !! o')) else default [] (m !! o').
Proof.
  unfold NFTRegistry.unlist_under. case_decide; subst; rewrite ?lookup_alter_eq, ?lookup_alter_ne by done;
    [| done]. by destruct (m !! o).
Qed.

(** A change of the tokens that keeps the owners. *)
Lemma index_same_owners l r r' :
  owner_index r' = owner_index r → (∀ o i, owned_by r' o i ↔ owned_by r o i) →
  (index_covers l r → index_covers l r') ∧ (index_exact r → index_exact r').
Proof.
  intros Ei Eo. assert (∀ o, NFTRegistry.tokens_of r' o = NFTRegistry.tokens_of r o) as Et
    by (intros; unfold NFTRegistry.tokens_of; by rewrite Ei).
  unfold index_covers, index_exact. setoid_rewrite Et. by setoid_rewrite Eo.
Qed.

Lemma mint_index `{Sha256} l r c o u e :
  let r' := (NFTRegistry.mint c o u e r).1 in let i := (NFTRegistry.mint c o u e r).2 in
  i ∉ l → index_covers l r → index_covers (i :: l) r' ∧ (index_exact r → index_exact r').
Proof.
  cbn. set (i := NonFungibleToken.compute_token_id _ _). intros Hi [Hl Hc]. set (r' := mkNFTs _ _ _).
  assert (∀ o', NFTRegistry.tokens_of r' o' =
    if decide (o' = o) then NFTRegistry.tokens_of r o' ++ [i] else NFTRegistry.tokens_of r o') as Et
    by apply listed.
  assert (∀ o' j, owned_by r' o' j ↔ (j = i ∧ o' = o) ∨ (j ≠ i ∧ owned_by r o' j)) as Eo.
  { intros o' j. unfold owned_by. cbn. destruct (decide (j = i)) as [-> | Hj].
    - rewrite lookup_insert_eq. split; [by intros (? & [= <-] & <-); left |].
      intros [[_ ->] | [? _]]; [by eexists | done].
    - rewrite lookup_insert_ne by done. naive_solver. }
  assert (∀ o' j, owned_by r o' j → j ≠ i) as Hne by (intros o' j Hj ->; by apply Hi, (Hc o')).
  split; [split |].
  - intros o' j. rewrite Et. case_decide; [rewrite elem_of_app, list_elem_of_singleton | ];
      rewrite elem_of_cons; naive_solver.
  - intros o' j. rewrite Eo, Et. intros [[-> ->] | [_ [? ?]%Hc]].
    + rewrite decide_True by done. set_solver.
    + case_decide; set_solver.
  - intros He o'. rewrite Et. destruct (He o') as [Hnd Hown]. split.
    + case_decide; [| done]. apply NoDup_app. split_and!; [done | | apply NoDup_singleton].
      intros j Hj%Hl ->%list_elem_of_singleton. done.
    + intros j. setoid_rewrite Eo. case_decide; [rewrite elem_of_app, list_elem_of_singleton |]; naive_solver.
Qed.

(** What the two methods leave, and the owners after them. *)
Lemma transfer_cases i from to r n :
  tokens r !! i = Some n →
  (NFTRegistry.transfer i from to r).1 = r ∨
  ((nft_owner n = from ∨ approved n = Some from) ∧
   (∀ o j, owned_by (NFTRegistry.transfer i from to r).1 o j ↔ (j = i ∧ o = to) ∨ (j ≠ i ∧ owned_by r o j)) ∧
   (∀ o, NFTRegistry.tokens_of (NFTRegistry.transfer i from to r).1 o =
     (if decide (o = from) then filter (λ j, j ≠ i) (NFTRegistry.tokens_of r o) else NFTRegistry.tokens_of r o) ++
     (if decide (o = to) then [i] else []))).
Proof.
  intros E. unfold NFTRegistry.transfer. rewrite E. unfold NonFungibleToken.transfer.
  destruct (frozen n) eqn:Ef; [by left |]. case_decide as Hd; [by left |]. right. split.
  { destruct (decide (nft_owner n = from)), (decide (approved n = Some from)); tauto. }
  cbn. split.
  - intros o j. unfold owned_by. cbn. destruct (decide (j = i)) as [-> | Hj].
    + rewrite lookup_insert_eq. split; [intros (? & [= <-] & <-); by left |].
      intros [[_ ->] | [? _]]; [by eexists | done].
    + rewrite lookup_insert_ne by done. naive_solver.
  - intros o. unfold NFTRegistry.tokens_of. cbn. rewrite listed, unlisted.
    destruct (decide (o = to)); [done |]. by rewrite app_nil_r.
Qed.

Lemma transfer_index l i from to r n :
  tokens r !! i = Some n → index_covers l r →
  index_covers l (NFTRegistry.transfer i from to r).1 ∧
  (nft_owner n = from → index_exact r → index_exact (NFTRegistry.transfer i from to r).1).
Proof.
  intros E [Hl Hc]. destruct (transfer_cases i from to r n E) as [-> | (_ & Eo & Et)]; [done |].
  assert (owned_by r (nft_owner n) i) as Hown by by eexists.
  assert (i ∈ l) as Hil by by apply (Hc (nft_owner n)).
  split; [split |].
  - intros o j. rewrite Et, elem_of_app. intros [Hj | Hj].
    + apply (Hl o). case_decide; [by apply list_elem_of_filter in Hj as [_ ?] | done].
    + case_decide; [ apply list_elem_of_singleton in Hj as -> ; exact Hil | by apply not_elem_of_nil in Hj].
  - intros o j. rewrite Eo, Et, elem_of_app. intros [[-> ->] | [Hj [? ?]%Hc]].
    + split; [done |]. right. rewrite decide_True by done. by apply list_elem_of_singleton.
    + split; [done |]. left. case_decide; [by apply list_elem_of_filter | done].
  - intros <- He o. rewrite Et. destruct (He o) as [Hnd Hin].
    assert (∀ j, j ∈ (if decide (o = nft_owner n) then filter (λ j, j ≠ i) (NFTRegistry.tokens_of r o)
                      else NFTRegistry.tokens_of r o) → j ≠ i ∧ owned_by r o j) as Hrest.
    { intros j. case_decide as Ho.
      - intros [? ?%Hin]%list_elem_of_filter. done.
      - intros Hj%Hin. split; [| done]. intros ->. destruct Hj as (n' & E' & <-).
        rewrite E in E'. by simplify_eq. }
    split.
    + apply NoDup_app. split_and!.
      * destruct (decide (o = nft_owner n)); [by apply NoDup_filter | done].
      * intros j [Hj _]%Hrest. destruct (decide (o = to)); [by rewrite list_elem_of_singleton | apply not_elem_of_nil].
      * destruct (decide (o = to)); [apply NoDup_singleton | constructor].
    + intros j. rewrite elem_of_app, Eo. intros [[? ?]%Hrest | Hj]; [by right |].
      destruct (decide (o = to)); [by apply list_elem_of_singleton in Hj as ->; left | by apply not_elem_of_nil in Hj].
Qed.

Lemma burn_index l i caller r :
  index_covers l r →
  index_covers l (NFTRegistry.burn i caller r).1 ∧ (index_exact r → index_exact (NFTRegistry.burn i caller r).1).
Proof.
  intros [Hl Hc]. unfold NFTRegistry.burn. destruct (tokens r !! i) as [n |] eqn:E; [| done].
  case_decide as Hd; [done |]. cbn. set (r' := mkNFTs _ _ _).
  assert (∀ o, NFTRegistry.tokens_of r' o = if decide (o = nft_owner n)
    then filter (λ j, j ≠ i) (NFTRegistry.tokens_of r o) else NFTRegistry.tokens_of r o) as Et by apply unlisted.
  assert (∀ o j, owned_by r' o j ↔ j ≠ i ∧ owned_by r o j) as Eo.
  { intros o j. unfold owned_by. cbn. destruct (decide (j = i)) as [-> | Hj].
    - rewrite lookup_delete_eq. naive_solver.
    - rewrite lookup_delete_ne by done. naive_solver. }
  split; [split |].
  - intros o j. rewrite Et. case_decide; [intros [_ ?]%list_elem_of_filter |]; eauto.
  - intros o j. rewrite Eo, Et. intros [Hj [? ?]%Hc]. split; [done |].
    case_decide; [by apply list_elem_of_filter | done].
  - intros He o. rewrite Et. destruct (He o) as [Hnd Hin]. split; [case_decide; [by apply NoDup_filter | done] |].
    intros j. rewrite Eo. case_decide as Ho; [intros [? ?%Hin]%list_elem_of_filter; done |].
    intros Hj%Hin. split; [| done]. intros ->. destruct Hj as (n' & E' & <-). rewrite E in E'. by simplify_eq.
Qed.

(** Over any history in which no token id is minted twice, the index of owners lists
    every token under its owner, and nothing that was not minted; if every transfer was
    asked for by the owner, it lists every token once and under its owner only. *)
Theorem nft_index_sound `{Sha256} b l r :
  nft_history b l r → NoDup l → index_covers l r ∧ (b = true → index_exact r).
Proof.
  intros Hh. induction Hh as [| b l r c o u e _ IH | b l r i from to n _ IH E | b l r i caller op _ IH |
                               b l r i caller _ IH]; intros Hnd.
  - split; [split |].
    + intros o i Hi. exfalso. by apply not_elem_of_nil in Hi.
    + intros o i (n & E & _). done.
    + intros _ o. split; [apply NoDup_nil_2 | intros i Hi; by apply not_elem_of_nil in Hi].
  - apply NoDup_cons in Hnd as [Hi Hnd]. destruct (IH Hnd) as [Hc He].
    destruct (mint_index l r c o u e Hi Hc) as [? ?]. eauto.
  - destruct (IH Hnd) as [Hc He]. destruct (transfer_index l i from to r n E Hc) as [? Hx]. split; [done |].
    intros [? Ho%bool_decide_eq_true]%andb_true_iff. eauto.
  - destruct (IH Hnd) as [Hc He].
    destruct (index_same_owners l r (mkNFTs (alter (λ n, (NonFungibleToken.approve caller op n).1) i (tokens r))
      (collection_serials r) (owner_index r)) eq_refl) as [H1 H2]; [| eauto].
    intros o j. unfold owned_by. cbn. rewrite lookup_alter.
    destruct (decide (i = j)) as [-> |]; [| done]. destruct (tokens r !! j) as [n |]; cbn; [| naive_solver].
    assert (nft_owner (NonFungibleToken.approve caller op n).1 = nft_owner n) as En
      by (unfold NonFungibleToken.approve; by case_decide).
    split; intros (? & [= <-] & <-); eauto.
  - destruct (IH Hnd) as [Hc He]. destruct (burn_index l i caller r Hc) as [? ?]. eauto.
Qed.
End index.

(** Two tokens minted. *)
Abbreviation sample_mint := (@NFTRegistry.mint sample_sha256 5 1).
Definition sample_nfts : NFTRegistry := (sample_mint "b" 0 (sample_mint "a" 0 NFTRegistry.new).1).1.
Definition sample_nft_ids : list id32 :=
  [(sample_mint "b" 0 (sample_mint "a" 0 NFTRegistry.new).1).2; (sample_mint "a" 0 NFTRegistry.new).2].
Lemma nft_index_sound_witness :
  NFTRegistry.tokens_of sample_nfts 1 = reverse sample_nft_ids ∧
  index_covers sample_nft_ids sample_nfts ∧ (true = true → index_exact sample_nfts).
Proof.
  split; [vm_compute; reflexivity |].
  apply (@nft_index_sound sample_sha256 true sample_nft_ids sample_nfts).
  - exact (@nh_mint sample_sha256 true _ _ 5 1 "b" 0 (@nh_mint sample_sha256 true _ _ 5 1 "a" 0
             (@nh_new sample_sha256))).
  - by_decide.
Defined.

(** A transfer by an approved operator leaves the token under its old owner too. *)
Example operator_transfer_leaves_index :
  let i := @NonFungibleToken.compute_token_id sample_sha256 5 0 in
  let r := mkNFTs (alter (λ n, (NonFungibleToken.approve 1 9 n).1) i (tokens sample_nfts))
             (collection_serials sample_nfts) (owner_index sample_nfts) in
  let r := (NFTRegistry.transfer i 9 2 r).1 in
  (nft_owner <$> tokens r !! i) = Some 2 ∧ i ∈ NFTRegistry.tokens_of r 1 ∧ i ∈ NFTRegistry.tokens_of r 2.
Proof. cbv zeta. by_decide. Qed.
