(* ===== verification/Randomness.v ===== *)
(** * Randomness

    The randomness contracts draw from an epoch and their commit-reveal records
    (src/runtime/src/contracts/advanced.rs), and the entropy engine
    (src/runtime/src/randomness/mod.rs).  The theorems say that a shuffle is one, that a
    reveal is bound to its commitment, and that the cached entropy of an epoch is always
    the one its sources give, in whatever order they came. *)

From stdpp Require Import gmap strings list sorting pretty.
From S2P Require Import Prelude Concrete Sorting.

(** ** Randomness of an epoch *)

(* @src src/runtime/src/contracts/advanced.rs:1033-1038 EpochRandomness *)
Record EpochRandomness : Type := mkEpochRandomness { er_epoch : Z; er_state_root : id32 }.

Module EpochRandomness.
Section hashed.
Context `{Sha256, HexBytes}.
Implicit Types e : EpochRandomness.

(* @src src/runtime/src/contracts/advanced.rs:1047-1057 EpochRandomness::random_bytes32 *)
Definition random_bytes32 e (domain : string) : id32 :=
  sha256 (string_bytes "OMNIPHI_VRF_V1" ++ be_bytes 8 (er_epoch e) ++ be_bytes 32 (er_state_root e) ++
          string_bytes domain).
(** The first bytes of the hash as a number. *)
Definition first_bytes (n : nat) (h : id32) : Z := of_be (take n (be_bytes 32 h)).
(* @src src/runtime/src/contracts/advanced.rs:1060-1065 EpochRandomness::random_u64 *)
Definition random_u64 e (domain : string) (max : Z) : Z :=
  if decide (max = 0) then 0 else first_bytes 8 (random_bytes32 e domain) mod max.
(* @src src/runtime/src/contracts/advanced.rs:1068-1076 EpochRandomness::random_u128 *)
Definition random_u128 e (domain : string) (max : Z) : Z :=
  if decide (max = 0) then 0 else first_bytes 16 (random_bytes32 e domain) mod max.
(* @src src/runtime/src/contracts/advanced.rs:1080-1083 EpochRandomness::contract_random *)
Definition contract_random e (contract : id32) (nonce : Z) : id32 :=
  random_bytes32 e ("contract:" +:+ hex_bytes (take 8 (be_bytes 32 contract)) +:+ ":nonce:" +:+ pretty nonce).

(** [result.swap(i, j)], which stops the program when an index is out of range. *)
Definition swap {A} (i j : nat) (l : list A) : total_or_panic (list A) :=
  match l !! i, l !! j with
  | Some x, Some y => Ok (<[j := x]> (<[i := y]> l))
  | _, _ => Panic
  end.
(** The loop of [i] from [n] down to one. *)
(* @src src/runtime/src/contracts/advanced.rs:1089-1093 EpochRandomness::shuffle *)
Fixpoint shuffle_down {A} e (domain : string) (n : nat) (l : list A) : total_or_panic (list A) :=
  match n with
  | O => Ok l
  | S m =>
      let j := random_u64 e (domain +:+ ":shuffle:" +:+ pretty (Z.of_nat n)) (Z.of_nat n + 1) in
      l ← swap n (Z.to_nat j) l; shuffle_down e domain m l
  end.
(* @src src/runtime/src/contracts/advanced.rs:1086-1095 EpochRandomness::shuffle *)
Definition shuffle {A} e (domain : string) (items : list A) : total_or_panic (list A) :=
  shuffle_down e domain (length items - 1) items.
End hashed.
End EpochRandomness.

(** ** Commit and reveal *)

(* @src src/runtime/src/contracts/advanced.rs:1107-1124 CommitRevealRecord *)
Record CommitRevealRecord : Type := mkCommitReveal {
  cr_id : id32;
  cr_commitment : id32;
  revealed_value : option bytes;
  revealed_salt : option bytes;
  committer : id32;
  commit_epoch : Z;
  reveal_deadline_epoch : Z;
  revealed : bool }.

Module CommitRevealRecord.
Section hashed.
Context `{Sha256}.
Implicit Types r : CommitRevealRecord.
Definition preimage (value salt : bytes) : bytes := string_bytes "OMNIPHI_COMMIT_V1" ++ value ++ salt.
(* @src src/runtime/src/contracts/advanced.rs:1128-1137 CommitRevealRecord::compute_commitment *)
Definition compute_commitment (value salt : bytes) : id32 := sha256 (preimage value salt).
(* @src src/runtime/src/contracts/advanced.rs:1140-1165 CommitRevealRecord::commit *)
Definition commit (who commitment epoch deadline : Z) : CommitRevealRecord :=
  mkCommitReveal
    (sha256 (string_bytes "OMNIPHI_CR_ID_V1" ++ be_bytes 32 who ++ be_bytes 32 commitment ++ be_bytes 8 epoch))
    commitment None None who epoch deadline false.
(* @src src/runtime/src/contracts/advanced.rs:1168-1183 CommitRevealRecord::reveal *)
Definition reveal (value salt : bytes) (now : Z) : M CommitRevealRecord string () := λ r,
  if revealed r then (r, Err "already revealed")
  else if decide (reveal_deadline_epoch r < now) then
    (r, Err ("reveal deadline passed (deadline=" +:+ pretty (reveal_deadline_epoch r) +:+ ", now=" +:+
             pretty now +:+ ")"))
  else if decide (compute_commitment value salt ≠ cr_commitment r) then
    (r, Err "commitment mismatch: hash(value || salt) != commitment")
  else (mkCommitReveal (cr_id r) (cr_commitment r) (Some value) (Some salt) (committer r) (commit_epoch r)
          (reveal_deadline_epoch r) true, Ok tt).
(* @src src/runtime/src/contracts/advanced.rs:1186-1188 CommitRevealRecord::is_expired *)
Definition is_expired r (now : Z) : bool := negb (revealed r) && bool_decide (reveal_deadline_epoch r < now).
End hashed.
End CommitRevealRecord.

(* @src src/runtime/src/contracts/advanced.rs:1193-1195 CommitRevealRegistry *)
Record CommitRevealRegistry : Type := mkCommits { records : gmap id32 CommitRevealRecord }.
Module CommitRevealRegistry.
(* @src src/runtime/src/contracts/advanced.rs:1198-1198 CommitRevealRegistry::new *)
Definition new : CommitRevealRegistry := mkCommits ∅.
(* @src src/runtime/src/contracts/advanced.rs:1200-1207 CommitRevealRegistry::commit *)
Definition commit (c : CommitRevealRecord) : M CommitRevealRegistry string id32 := λ r,
  if decide (is_Some (records r !! cr_id c)) then (r, Err "duplicate commit")
  else (mkCommits (<[cr_id c := c]> (records r)), Ok (cr_id c)).
(* @src src/runtime/src/contracts/advanced.rs:1209-1213 CommitRevealRegistry::reveal *)
Definition reveal `{Sha256} (i : id32) (value salt : bytes) (now : Z)
  : M CommitRevealRegistry string CommitRevealRecord := λ r,
  match records r !! i with
  | None => (r, Err "commit not found")
  | Some c =>
      let '(c, res) := CommitRevealRecord.reveal value salt now c in
      (mkCommits (<[i := c]> (records r)), _ ← res; Ok c)
  end.
(* @src src/runtime/src/contracts/advanced.rs:1215-1217 CommitRevealRegistry::get *)
Definition get (r : CommitRevealRegistry) (i : id32) : option CommitRevealRecord := records r !! i.
(* @src src/runtime/src/contracts/advanced.rs:1220-1224 CommitRevealRegistry::prune_expired *)
Definition prune_expired (now : Z) (r : CommitRevealRegistry) : CommitRevealRegistry * nat :=
  let kept := filter (λ p : Z * CommitRevealRecord, CommitRevealRecord.is_expired p.2 now = false) (records r) in
  (mkCommits kept, (size (records r) - size kept)%nat).
End CommitRevealRegistry.

(** ** The entropy engine *)

(* @src src/runtime/src/randomness/mod.rs:48-55 EntropyContribution *)
Record EntropyContribution : Type := mkContribution { source_id : string; ec_value : id32; ec_epoch : Z }.

(* @src src/runtime/src/randomness/mod.rs:59-68 ValidatorCommitment *)
Record ValidatorCommitment : Type := mkValidatorCommit {
  vc_validator_id : id32;
  vc_commitment : id32;
  vc_reveal : option id32;
  vc_epoch : Z }.

Module ValidatorCommitment.
Section hashed.
Context `{Sha256}.
(* @src src/runtime/src/randomness/mod.rs:83-93 ValidatorCommitment::compute_commitment *)
Definition compute_commitment (reveal validator : id32) (epoch : Z) : id32 :=
  sha256 (string_bytes "OMNIPHI_VALIDATOR_COMMIT_V1" ++ be_bytes 32 reveal ++ be_bytes 32 validator ++
          be_bytes 8 epoch).
(* @src src/runtime/src/randomness/mod.rs:72-80 ValidatorCommitment::create *)
Definition create (validator reveal : id32) (epoch : Z) : ValidatorCommitment :=
  mkValidatorCommit validator (compute_commitment reveal validator epoch) None epoch.
(* @src src/runtime/src/randomness/mod.rs:96-99 ValidatorCommitment::verify_reveal *)
Definition verify_reveal (c : ValidatorCommitment) (reveal : id32) : bool :=
  bool_decide (compute_commitment reveal (vc_validator_id c) (vc_epoch c) = vc_commitment c).
(* @src src/runtime/src/randomness/mod.rs:102-111 ValidatorCommitment::accept_reveal *)
Definition accept_reveal (reveal : id32) : M ValidatorCommitment string () := λ c,
  if decide (is_Some (vc_reveal c)) then (c, Err "already revealed")
  else if verify_reveal c reveal
  then (mkValidatorCommit (vc_validator_id c) (vc_commitment c) (Some reveal) (vc_epoch c), Ok tt)
  else (c, Err "reveal does not match commitment").
End hashed.
End ValidatorCommitment.

(* @src src/runtime/src/randomness/mod.rs:120-132 EpochEntropy *)
Record EpochEntropy : Type := mkEntropy {
  ee_epoch : Z;
  seed : id32;
  source_count : Z;
  has_validator_commits : bool;
  withheld_count : Z }.

(* @src src/runtime/src/randomness/mod.rs:136-145 EntropyEngine *)
Record EntropyEngine : Type := mkEntropyEngine {
  epoch_seeds : gmap Z id32;
  validator_commits : gmap Z (list ValidatorCommitment);
  intent_commits : gmap Z (list id32);
  cached_entropy : gmap Z EpochEntropy }.

Module EntropyEngine.
Implicit Types g : EntropyEngine.
(* @src src/runtime/src/randomness/mod.rs:148-148 EntropyEngine::new *)
Definition new : EntropyEngine := mkEntropyEngine ∅ ∅ ∅ ∅.
(* @src src/runtime/src/randomness/mod.rs:151-155 EntropyEngine::set_epoch_seed *)
Definition set_epoch_seed (epoch seed : Z) g : EntropyEngine :=
  mkEntropyEngine (<[epoch := seed]> (epoch_seeds g)) (validator_commits g) (intent_commits g)
    (delete epoch (cached_entropy g)).
(** The entry of the epoch is created before the check for a duplicate. *)
(* @src src/runtime/src/randomness/mod.rs:158-177 EntropyEngine::add_validator_commitment *)
Definition add_validator_commitment (c : ValidatorCommitment) : M EntropyEngine string () := λ g,
  if decide (vc_validator_id c = 0) then (g, Err "validator_id must be non-zero")
  else if decide (vc_commitment c = 0) then (g, Err "commitment must be non-zero")
  else
    let commits := default [] (validator_commits g !! vc_epoch c) in
    if decide (vc_validator_id c ∈ vc_validator_id <$> commits) then
      (mkEntropyEngine (epoch_seeds g) (<[vc_epoch c := commits]> (validator_commits g)) (intent_commits g)
         (cached_entropy g), Err "duplicate commitment from same validator")
    else
      (mkEntropyEngine (epoch_seeds g) (<[vc_epoch c := commits ++ [c]]> (validator_commits g))
         (intent_commits g) (delete (vc_epoch c) (cached_entropy g)), Ok tt).

Section hashed.
Context `{Sha256}.
(* @src src/runtime/src/randomness/mod.rs:189-193 EntropyEngine::reveal_validator_commitment *)
Fixpoint reveal_first (validator reveal : id32) (l : list ValidatorCommitment)
  : option (list ValidatorCommitment * outcome string ()) :=
  match l with
  | [] => None
  | c :: l =>
      if decide (vc_validator_id c = validator) then
        let '(c, r) := ValidatorCommitment.accept_reveal reveal c in Some (c :: l, r)
      else '(l, r) ← reveal_first validator reveal l; Some (c :: l, r)
  end.
(* @src src/runtime/src/randomness/mod.rs:180-196 EntropyEngine::reveal_validator_commitment *)
Definition reveal_validator_commitment (epoch validator reveal : Z) : M EntropyEngine string () := λ g,
  match validator_commits g !! epoch with
  | None => (g, Err "no commitments for this epoch")
  | Some l =>
      match reveal_first validator reveal l with
      | None => (g, Err "validator commitment not found")
      | Some (l, r) =>
          let cached := match r with Ok _ => delete epoch (cached_entropy g) | _ => cached_entropy g end in
          (mkEntropyEngine (epoch_seeds g) (<[epoch := l]> (validator_commits g)) (intent_commits g) cached, r)
      end
  end.
(* @src src/runtime/src/randomness/mod.rs:199-203 EntropyEngine::add_intent_commits *)
Definition add_intent_commits (epoch : Z) (commits : list id32) g : EntropyEngine :=
  mkEntropyEngine (epoch_seeds g) (validator_commits g)
    (<[epoch := default [] (intent_commits g !! epoch) ++ commits]> (intent_commits g))
    (delete epoch (cached_entropy g)).

(** What a validator adds to the hash: its reveal, or a penalty from its commitment. *)
(* @src src/runtime/src/randomness/mod.rs:246-260 EntropyEngine::aggregate *)
Definition contribution_bytes (epoch : Z) (c : ValidatorCommitment) : bytes :=
  be_bytes 32 (vc_validator_id c) ++
  be_bytes 32 (match vc_reveal c with
               | Some r => r
               | None => sha256 (string_bytes "OMNIPHI_WITHHOLD_PENALTY" ++ be_bytes 32 (vc_commitment c) ++
                                 be_bytes 8 epoch)
               end).
(* @src src/runtime/src/randomness/mod.rs:241-242 EntropyEngine::aggregate *)
Definition by_validator (a b : ValidatorCommitment) : comparison := vc_validator_id a ?= vc_validator_id b.
(* @src src/runtime/src/randomness/mod.rs:218-289 EntropyEngine::aggregate *)
Definition compute_entropy (epoch : Z) g : EpochEntropy :=
  let seed := epoch_seeds g !! epoch in
  let commits := sort_by by_validator (default [] (validator_commits g !! epoch)) in
  let intents := sort_by Z.compare (default [] (intent_commits g !! epoch)) in
  mkEntropy epoch
    (sha256 (string_bytes "OMNIPHI_ENTROPY_AGG_V1" ++ be_bytes 8 epoch ++ from_option (be_bytes 32) [] seed ++
             (commits ≫= contribution_bytes epoch) ++ (intents ≫= be_bytes 32)))
    ((if decide (is_Some seed) then 1 else 0) + Z.of_nat (length commits) +
     (if decide (intents = []) then 0 else 1))
    (bool_decide (commits ≠ [])) (Z.of_nat (length (filter (λ c, vc_reveal c = None) commits))).
(* @src src/runtime/src/randomness/mod.rs:212-293 EntropyEngine::aggregate *)
Definition aggregate (epoch : Z) g : EntropyEngine * EpochEntropy :=
  match cached_entropy g !! epoch with
  | Some e => (g, e)
  | None =>
      let e := compute_entropy epoch g in
      (mkEntropyEngine (epoch_seeds g) (validator_commits g) (intent_commits g)
         (<[epoch := e]> (cached_entropy g)), e)
  end.
End hashed.

(* @src src/runtime/src/randomness/mod.rs:296-301 EntropyEngine::prune *)
Definition prune (before_epoch : Z) g : EntropyEngine :=
  mkEntropyEngine (filter (λ p : Z * Z, before_epoch ≤ p.1) (epoch_seeds g))
    (filter (λ p : Z * list ValidatorCommitment, before_epoch ≤ p.1) (validator_commits g))
    (filter (λ p : Z * list Z, before_epoch ≤ p.1) (intent_commits g))
    (filter (λ p : Z * EpochEntropy, before_epoch ≤ p.1) (cached_entropy g)).
End EntropyEngine.

(* @src src/runtime/src/randomness/mod.rs:310-319 RandomnessRequest *)
Record RandomnessRequest : Type := mkRandomnessRequest {
  rr_domain : string;
  rr_epoch : Z;
  rr_index : Z;
  rr_target_id : option id32 }.
Section derive.
Context `{Sha256}.
Definition derive_preimage (e : EpochEntropy) (r : RandomnessRequest) : bytes :=
  string_bytes "OMNIPHI_RAND_V1" ++ be_bytes 32 (seed e) ++ string_bytes (rr_domain r) ++
  be_bytes 8 (rr_epoch r) ++ be_bytes 8 (rr_index r) ++ from_option (be_bytes 32) [] (rr_target_id r).
(* @src src/runtime/src/randomness/mod.rs:330-344 derive_randomness *)
Definition derive_randomness (e : EpochEntropy) (r : RandomnessRequest) : id32 := sha256 (derive_preimage e r).
(* @src src/runtime/src/randomness/mod.rs:347-351 derive_u64 *)
Definition derive_u64 (e : EpochEntropy) (r : RandomnessRequest) : Z :=
  EpochRandomness.first_bytes 8 (derive_randomness e r).
(* @src src/runtime/src/randomness/mod.rs:354-357 derive_bounded *)
Definition derive_bounded (e : EpochEntropy) (r : RandomnessRequest) (max : Z) : Z :=
  if decide (max = 0) then 0 else derive_u64 e r mod max.
End derive.

(** What a source of entropy promises: the trait. *)
(* @src src/runtime/src/randomness/mod.rs:367-377 EntropySource *)
Class EntropySource (S : Type) := {
  contribute : S → Z → option EntropyContribution;
  source_name : S → string;
  strength : S → string }.
(* @src src/runtime/src/randomness/mod.rs:381-383 EpochSeedSource *)
Record EpochSeedSource : Type := mkSeedSource { source_seeds : gmap Z id32 }.
Module EpochSeedSource.
(* @src src/runtime/src/randomness/mod.rs:386-386 EpochSeedSource::new *)
Definition new : EpochSeedSource := mkSeedSource ∅.
(* @src src/runtime/src/randomness/mod.rs:387-387 EpochSeedSource::set *)
Definition set (epoch seed : Z) (s : EpochSeedSource) : EpochSeedSource :=
  mkSeedSource (<[epoch := seed]> (source_seeds s)).
End EpochSeedSource.
(* @src src/runtime/src/randomness/mod.rs:390-400 EpochSeedSource::contribute *)
#[export] Instance epoch_seed_source : EntropySource EpochSeedSource := {
  contribute s epoch := (λ v, mkContribution "epoch_seed" v epoch) <$> source_seeds s !! epoch;
  source_name _ := "EpochSeed";
  strength _ := "deterministic" }.

(** ** A shuffle is a permutation *)

Section shuffle.
Context `{Sha256, HexBytes}.
Import EpochRandomness.

Lemma first_bytes_nonneg n h : 0 ≤ first_bytes n h.
Proof.
  unfold first_bytes. pose proof (be_bytes_bytes 32 h) as Hb. apply (Forall_take _ n) in Hb.
  induction (take n (be_bytes 32 h)) as [| x l IH] using rev_ind; [done |].
  apply Forall_app in Hb as [? [[? ?] _]%Forall_cons]. rewrite of_be_app. specialize (IH ltac:(done)). lia.
Qed.

(** A draw is below its bound. *)
Lemma random_u64_range e domain max : 0 < max → 0 ≤ random_u64 e domain max < max.
Proof. intros ?. unfold random_u64. rewrite decide_False by lia. apply Z.mod_pos_bound. lia. Qed.

Lemma shuffle_down_permutes {A} e domain n (l : list A) :
  (n < length l)%nat ∨ n = 0%nat → ∃ l', shuffle_down e domain n l = Ok l' ∧ l' ≡ₚ l.
Proof.
  revert l. induction n as [| m IH]; intros l Hn; [by exists l |].
  destruct Hn as [Hn | ?]; [| done]. cbn [shuffle_down].
  set (j := random_u64 _ _ _).
  assert (0 ≤ j < Z.of_nat (S m) + 1) as Hj by (apply random_u64_range; lia).
  destruct (lookup_lt_is_Some_2 l (S m)) as [x Hx]; [done |].
  destruct (lookup_lt_is_Some_2 l (Z.to_nat j)) as [y Hy]; [lia |].
  unfold swap. rewrite Hx, Hy. cbn [mbind outcome_bind].
  destruct (IH (<[Z.to_nat j := x]> (<[S m := y]> l))) as (l' & -> & Hp).
  { rewrite !length_insert. lia. }
  exists l'. split; [done |]. rewrite Hp. by apply Permutation_insert_swap.
Qed.

(** A shuffle never stops the program and gives the items in some order, the same for
    everyone who knows the epoch, its root and the domain. *)
Theorem shuffle_permutes {A} e domain (items : list A) :
  ∃ l, shuffle e domain items = Ok l ∧ l ≡ₚ items.
Proof. apply shuffle_down_permutes. lia. Qed.
End shuffle.

(** ** Reveals are bound to commitments *)

(** A history of a registry: commits of records made by [commit], reveals, pruning. *)
Inductive cr_step `{Sha256} : CommitRevealRegistry → CommitRevealRegistry → Prop :=
| cr_commit r who commitment epoch deadline :
    cr_step r (CommitRevealRegistry.commit (CommitRevealRecord.commit who commitment epoch deadline) r).1
| cr_reveal r i value salt now : cr_step r (CommitRevealRegistry.reveal i value salt now r).1
| cr_prune r now : cr_step r (CommitRevealRegistry.prune_expired now r).1.

Section commit_reveal.
Context `{Sha256}.

(** A revealed record holds what opens its commitment. *)
Definition record_ok (i : id32) (c : CommitRevealRecord) : Prop :=
  cr_id c = i ∧
  match revealed_value c, revealed_salt c with
  | Some v, Some s => revealed c = true ∧ CommitRevealRecord.compute_commitment v s = cr_commitment c
  | None, None => revealed c = false
  | _, _ => False
  end.
Definition records_ok (r : CommitRevealRegistry) : Prop := map_Forall record_ok (records r).

(** What a reveal does to a record. *)
Lemma reveal_record i value salt now c :
  record_ok i c →
  let c' := (CommitRevealRecord.reveal value salt now c).1 in
  record_ok i c' ∧ cr_commitment c' = cr_commitment c ∧ (revealed c = true → c' = c).
Proof.
  intros [Hi Hc]. unfold CommitRevealRecord.reveal. destruct (revealed c) eqn:Er; cbn.
  { split_and!; try done. unfold record_ok. by rewrite Er. }
  destruct (decide _) as [? | ?]; cbn; [split_and!; try done; unfold record_ok; by rewrite Er |].
  destruct (decide _) as [? | Hm]; cbn; [split_and!; try done; unfold record_ok; by rewrite Er |].
  split_and!; try done. split; [done |]. cbn. split; [done |].
  destruct (decide (CommitRevealRecord.compute_commitment value salt = cr_commitment c)); tauto.
Qed.

Lemma cr_step_records r r' :
  cr_step r r' → records_ok r →
  records_ok r' ∧ ∀ i c, records r !! i = Some c → revealed c = true → records r' !! i = Some c.
Proof.
  intros Hs Hok. destruct Hs as [r who commitment epoch deadline | r i value salt now | r now].
  - unfold CommitRevealRegistry.commit. case_decide as Hd; cbn; [done |]. split.
    + apply map_Forall_insert_2; done.
    + intros i c Hi _. rewrite lookup_insert_ne; [done |]. intros <-. apply Hd. by eexists.
  - unfold CommitRevealRegistry.reveal. destruct (records r !! i) as [c |] eqn:E; [| done].
    pose proof (reveal_record i value salt now c (Hok _ _ E)) as (Hc & _ & Hsame).
    destruct (CommitRevealRecord.reveal value salt now c) as [c' res]. cbn in *. split.
    + by apply map_Forall_insert_2.
    + intros j d Hj Hd. destruct (decide (i = j)) as [<- |]; [| by rewrite lookup_insert_ne].
      rewrite E in Hj. injection Hj as <-. rewrite Hsame by done. by rewrite lookup_insert_eq.
  - cbn. split; [by apply map_Forall_kept |]. intros i c Hi Hr.
    apply map_lookup_filter_Some. split; [done |]. cbn. unfold CommitRevealRecord.is_expired. by rewrite Hr.
Qed.

(** Over any history of a registry, every revealed record holds a value and a salt that
    hash to its commitment, and what is revealed stays, unchanged. *)
Theorem reveals_bound r r' :
  rtc cr_step CommitRevealRegistry.new r → rtc cr_step r r' →
  ∀ i c, records r !! i = Some c → revealed c = true →
    records r' !! i = Some c ∧
    ∃ v s, revealed_value c = Some v ∧ revealed_salt c = Some s ∧
      CommitRevealRecord.compute_commitment v s = cr_commitment c.
Proof.
  intros H1 H2.
  assert (∀ a b, rtc cr_step a b → records_ok a → records_ok b ∧
            ∀ i c, records a !! i = Some c → revealed c = true → records b !! i = Some c) as Hrun.
  { intros a b. induction 1 as [| a b d Hs _ IH]; [done |]. intros Ha.
    destruct (cr_step_records a b Hs Ha) as [Hb Hab]. destruct (IH Hb) as [? ?]. eauto. }
  destruct (Hrun _ _ H1) as [Hr _]; [apply map_Forall_empty |].
  intros i c Hi Hc. split; [by apply (Hrun _ _ H2 Hr) |].
  destruct (Hr _ _ Hi) as [_ Hok]. destruct (revealed_value c) as [v |], (revealed_salt c) as [s |];
    [destruct Hok; by exists v, s | done | done | congruence].
Qed.
End commit_reveal.

(** The commitment does not say where the value ends: what was committed as "ab" with the
    salt "c" can be revealed as "a" with the salt "bc". *)
Theorem reveal_boundary_free `{Sha256} who epoch deadline now value x salt :
  now ≤ deadline →
  let c := CommitRevealRecord.commit who
             (CommitRevealRecord.compute_commitment (value ++ x) salt) epoch deadline in
  (CommitRevealRecord.reveal (value ++ x) salt now c).2 = Ok tt ∧
  (CommitRevealRecord.reveal value (x ++ salt) now c).2 = Ok tt.
Proof.
  intros Hn c. unfold CommitRevealRecord.reveal. cbn. rewrite !(decide_False (P := deadline < now)) by lia.
  unfold CommitRevealRecord.compute_commitment, CommitRevealRecord.preimage. rewrite !app_assoc.
  by rewrite !decide_False by naive_solver.
Qed.

(** ** The entropy of an epoch *)

Section entropy.
Context `{Sha256}.
Import EntropyEngine.
Implicit Types g : EntropyEngine.

Inductive entropy_step : EntropyEngine → EntropyEngine → Prop :=
| es_seed g epoch s : entropy_step g (set_epoch_seed epoch s g)
| es_commit g c : entropy_step g (add_validator_commitment c g).1
| es_reveal g epoch v r : entropy_step g (reveal_validator_commitment epoch v r g).1
| es_intents g epoch l : entropy_step g (add_intent_commits epoch l g)
| es_aggregate g epoch : entropy_step g (aggregate epoch g).1
| es_prune g before : entropy_step g (prune before g).

(** Every cached entropy is the one its sources give, and a validator commits once. *)
Definition cache_coherent g : Prop := map_Forall (λ epoch e, e = compute_entropy epoch g) (cached_entropy g).
Definition validators_distinct g : Prop :=
  map_Forall (λ _ l, NoDup (vc_validator_id <$> l)) (validator_commits g).

(** The entropy of an epoch depends on the sources of the epoch only. *)
Lemma compute_entropy_ext epoch g g' :
  epoch_seeds g !! epoch = epoch_seeds g' !! epoch →
  default [] (validator_commits g !! epoch) = default [] (validator_commits g' !! epoch) →
  default [] (intent_commits g !! epoch) = default [] (intent_commits g' !! epoch) →
  compute_entropy epoch g = compute_entropy epoch g'.
Proof. unfold compute_entropy. by intros -> -> ->. Qed.

(** A change to the sources of one epoch that drops its cached entropy. *)
Lemma coherent_change epoch g g' :
  cached_entropy g' = delete epoch (cached_entropy g) →
  (∀ e, e ≠ epoch → compute_entropy e g' = compute_entropy e g) →
  cache_coherent g → cache_coherent g'.
Proof.
  intros Ec He Hc e x. rewrite Ec, lookup_delete_Some. intros [Hne Hx]. rewrite He by done. by apply Hc.
Qed.

Lemma reveal_first_ids v r l l' res :
  reveal_first v r l = Some (l', res) →
  vc_validator_id <$> l' = vc_validator_id <$> l ∧ ((∀ a, res ≠ Ok a) → l' = l).
Proof.
  revert l' res. induction l as [| c l IH]; intros l' res; cbn; [done |]. case_decide as Hd.
  - destruct (ValidatorCommitment.accept_reveal r c) as [c' res'] eqn:E. intros [= <- <-].
    unfold ValidatorCommitment.accept_reveal in E. case_decide; [injection E as <- <-; by cbn |].
    destruct (ValidatorCommitment.verify_reveal c r); injection E as <- <-; cbn; [| done].
    split; [done |]. intros Hn. by destruct (Hn tt).
  - destruct (reveal_first v r l) as [[l1 res1] |] eqn:E; cbn; [| done]. intros [= <- <-].
    destruct (IH _ _ eq_refl) as [Hids Hs]. rewrite !fmap_cons, Hids. split; [done |]. intros Hn. by rewrite Hs.
Qed.

Ltac other_epoch := intros ? ?; apply compute_entropy_ext; cbn; by rewrite ?lookup_insert_ne.

Lemma kept_lookup {A} (m : gmap Z A) before k :
  before ≤ k → filter (λ p : Z * A, before ≤ p.1) m !! k = m !! k.
Proof.
  intros ?. destruct (m !! k) as [x |] eqn:E; [by apply map_lookup_filter_Some |].
  apply map_lookup_filter_None. by left.
Qed.

Lemma entropy_step_coherent g g' : entropy_step g g' → cache_coherent g → cache_coherent g'.
Proof.
  intros Hs Hc. destruct Hs as [g epoch s | g c | g epoch v r | g epoch l | g epoch | g before].
  - apply (coherent_change epoch g); [done | other_epoch | done].
  - unfold add_validator_commitment. case_decide; [done |]. case_decide; [done |]. case_decide; cbn.
    + intros e x Hx. cbn in Hx. rewrite (Hc e x Hx). apply compute_entropy_ext; cbn; [done | | done].
      destruct (decide (e = vc_epoch c)) as [-> |]; [by rewrite lookup_insert_eq | by rewrite lookup_insert_ne].
    + apply (coherent_change (vc_epoch c) g); [done | other_epoch | done].
  - unfold reveal_validator_commitment. destruct (validator_commits g !! epoch) as [l |] eqn:El; [| done].
    destruct (reveal_first v r l) as [[l' res] |] eqn:Er; [| done]. apply reveal_first_ids in Er as [_ Hsame].
    assert ((∀ a, res ≠ Ok a) → cache_coherent (mkEntropyEngine (epoch_seeds g)
              (<[epoch := l']> (validator_commits g)) (intent_commits g) (cached_entropy g))) as Hkeep.
    { intros Hn. rewrite Hsame by done. intros e x Hx. cbn in Hx. rewrite (Hc e x Hx).
      apply compute_entropy_ext; cbn; [done | | done].
      destruct (decide (e = epoch)) as [-> |]; [by rewrite lookup_insert_eq, El | by rewrite lookup_insert_ne]. }
    destruct res; cbn; [apply (coherent_change epoch g); [done | other_epoch | done] | by apply Hkeep..].
  - apply (coherent_change epoch g); [done | other_epoch | done].
  - unfold aggregate. destruct (cached_entropy g !! epoch) eqn:E; [done |]. cbn. intros e x. cbn.
    intros [[<- <-] | [_ Hx]]%lookup_insert_Some; [done | by apply Hc].
  - intros e x [Hx Hb]%map_lookup_filter_Some. cbn in Hb. rewrite (Hc e x Hx).
    by apply compute_entropy_ext; cbn; rewrite kept_lookup.
Qed.

Lemma entropy_step_distinct g g' : entropy_step g g' → validators_distinct g → validators_distinct g'.
Proof.
  intros Hs Hd. destruct Hs as [g epoch s | g c | g epoch v r | g epoch l | g epoch | g before]; try done.
  - assert (NoDup (vc_validator_id <$> default [] (validator_commits g !! vc_epoch c))) as Hl.
    { destruct (validator_commits g !! vc_epoch c) as [l |] eqn:E; cbn; [by apply (Hd _ _ E) | constructor]. }
    unfold add_validator_commitment. case_decide; [done |]. case_decide; [done |].
    case_decide as Hn; cbn; apply map_Forall_insert_2; [done | done | | done].
    rewrite fmap_app. apply NoDup_app. split_and!; [done | | apply NoDup_singleton].
    intros x Hx ->%list_elem_of_singleton. done.
  - unfold reveal_validator_commitment. destruct (validator_commits g !! epoch) as [l |] eqn:El; [| done].
    destruct (reveal_first v r l) as [[l' res] |] eqn:Er; [| done]. apply reveal_first_ids in Er as [Hids _].
    cbn. apply map_Forall_insert_2; [| done]. rewrite Hids. by apply (Hd _ _ El).
  - unfold aggregate. by destruct (cached_entropy g !! epoch).
  - by apply map_Forall_kept.
Qed.

Lemma entropy_run_inv g :
  rtc entropy_step EntropyEngine.new g → cache_coherent g ∧ validators_distinct g.
Proof.
  intros Hr. assert (∀ a b, rtc entropy_step a b → cache_coherent a ∧ validators_distinct a →
    cache_coherent b ∧ validators_distinct b) as Hrun.
  { induction 1 as [| a b c Hs _ IH]; [done |]. intros [Hc Hd].
    eauto using entropy_step_coherent, entropy_step_distinct. }
  apply (Hrun _ _ Hr). split; apply map_Forall_empty.
Qed.

(** Equal lists after sorting by distinct keys. *)
Lemma sort_by_key_perm {A} (key : A → Z) (l l' : list A) :
  (∀ x y, x ∈ l → y ∈ l → key x = key y → x = y) → l ≡ₚ l' →
  sort_by (λ a b, key a ?= key b) l = sort_by (λ a b, key a ?= key b) l'.
Proof.
  intros Hinj Hp. set (cmp := λ a b, key a ?= key b).
  assert (∀ k, StronglySorted (no_later cmp) (sort_by cmp k)) as Hs.
  { intros k. apply sort_by_sorted; unfold no_later, cmp; intros *; rewrite ?Z.compare_ngt_iff, ?Z.compare_gt_iff; lia. }
  apply (StronglySorted_unique_strong (no_later cmp)); [| apply Hs..|].
  - intros x y Hx Hy. unfold no_later, cmp. rewrite !Z.compare_ngt_iff. intros ??.
    apply Hinj; [by rewrite <- (sort_by_perm cmp l) | | lia]. by rewrite Hp, <- (sort_by_perm cmp l').
  - by rewrite !sort_by_perm.
Qed.

Lemma entropy_order_free epoch g g' :
  validators_distinct g →
  epoch_seeds g !! epoch = epoch_seeds g' !! epoch →
  default [] (validator_commits g !! epoch) ≡ₚ default [] (validator_commits g' !! epoch) →
  default [] (intent_commits g !! epoch) ≡ₚ default [] (intent_commits g' !! epoch) →
  compute_entropy epoch g = compute_entropy epoch g'.
Proof.
  intros Hd Es Hv Hi. unfold compute_entropy. rewrite Es.
  assert (sort_by by_validator (default [] (validator_commits g !! epoch)) =
          sort_by by_validator (default [] (validator_commits g' !! epoch))) as ->.
  { apply (sort_by_key_perm vc_validator_id); [| done]. intros x y Hx Hy Exy.
    destruct (validator_commits g !! epoch) as [l |] eqn:El; [| by apply not_elem_of_nil in Hx].
    by apply (NoDup_key_inj vc_validator_id l x y (Hd _ _ El)). }
  assert (sort_by Z.compare (default [] (intent_commits g !! epoch)) =
          sort_by Z.compare (default [] (intent_commits g' !! epoch))) as ->
    by by apply (sort_by_key_perm id).
  done.
Qed.

(** Nodes agree: whatever the histories of two engines, and whatever each has cached, an
    epoch has the same entropy in both as soon as its seed, its validator commitments
    with their reveals and its intent commitments are the same, in any order. *)
Theorem entropy_agreed epoch g g' :
  rtc entropy_step EntropyEngine.new g → rtc entropy_step EntropyEngine.new g' →
  epoch_seeds g !! epoch = epoch_seeds g' !! epoch →
  default [] (validator_commits g !! epoch) ≡ₚ default [] (validator_commits g' !! epoch) →
  default [] (intent_commits g !! epoch) ≡ₚ default [] (intent_commits g' !! epoch) →
  (aggregate epoch g).2 = (aggregate epoch g').2.
Proof.
  intros [Hc Hd]%entropy_run_inv [Hc' _]%entropy_run_inv Es Hv Hi.
  assert (∀ h, cache_coherent h → (aggregate epoch h).2 = compute_entropy epoch h) as Ha.
  { intros h Hh. unfold aggregate. destruct (cached_entropy h !! epoch) eqn:E; [by apply Hh | done]. }
  rewrite !Ha by done. by apply entropy_order_free.
Qed.
End entropy.

(** Withholding is a choice: what the hash gets for a withheld reveal is known from the
    commitment alone, so a validator knows both seeds before it decides to reveal. *)
Theorem withheld_contribution_known `{Sha256} epoch validator reveal :
  let c := ValidatorCommitment.create validator reveal epoch in
  EntropyEngine.contribution_bytes epoch c =
    be_bytes 32 validator ++
    be_bytes 32 (sha256 (string_bytes "OMNIPHI_WITHHOLD_PENALTY" ++
      be_bytes 32 (ValidatorCommitment.compute_commitment reveal validator epoch) ++ be_bytes 8 epoch)) ∧
  EntropyEngine.contribution_bytes epoch (ValidatorCommitment.accept_reveal reveal c).1 =
    be_bytes 32 validator ++ be_bytes 32 reveal.
Proof.
  intros c. split; [done |]. unfold ValidatorCommitment.accept_reveal, ValidatorCommitment.verify_reveal.
  rewrite decide_False by (intros [? ?]; done). by rewrite bool_decide_true.
Qed.

(** A name of null characters. *)
Fixpoint null_name (n : nat) : string :=
  match n with O => EmptyString | S n => String (Ascii.ascii_of_N 0) (null_name n) end.
(** Requests of different domains can hash the same bytes: the end of the domain is not
    marked. *)
Theorem domains_can_collide `{Sha256} e :
  derive_randomness e (mkRandomnessRequest (null_name 32) 0 0 None) =
  derive_randomness e (mkRandomnessRequest EmptyString 0 0 (Some 0)).
Proof. reflexivity. Qed.

Definition sample_engine (flip : bool) : EntropyEngine :=
  let a := mkValidatorCommit 1 5 None 3 in let b := mkValidatorCommit 2 6 None 3 in
  let c := if flip then b else a in let d := if flip then a else b in
  (EntropyEngine.add_validator_commitment d (EntropyEngine.add_validator_commitment c EntropyEngine.new).1).1.
Lemma entropy_agreed_witness :
  (@EntropyEngine.aggregate sample_sha256 3 (sample_engine true)).2 =
  (@EntropyEngine.aggregate sample_sha256 3 (sample_engine false)).2.
Proof.
  apply (@entropy_agreed sample_sha256 3 (sample_engine true) (sample_engine false)).
  - eapply rtc_l; [apply (es_commit _ (mkValidatorCommit 2 6 None 3)) |].
    eapply rtc_l; [apply (es_commit _ (mkValidatorCommit 1 5 None 3)) |]. apply rtc_refl.
  - eapply rtc_l; [apply (es_commit _ (mkValidatorCommit 1 5 None 3)) |].
    eapply rtc_l; [apply (es_commit _ (mkValidatorCommit 2 6 None 3)) |]. apply rtc_refl.
  - reflexivity.
  - change ([mkValidatorCommit 2 6 None 3; mkValidatorCommit 1 5 None 3] ≡ₚ
            [mkValidatorCommit 1 5 None 3; mkValidatorCommit 2 6 None 3]). apply perm_swap.
  - reflexivity.
Defined.

Abbreviation sample_opening := (@CommitRevealRecord.compute_commitment sample_sha256 [1; 2] [3]).
Definition sample_commit : CommitRevealRecord := @CommitRevealRecord.commit sample_sha256 1 sample_opening 0 9.
Definition sample_commits : CommitRevealRegistry :=
  (@CommitRevealRegistry.reveal sample_sha256 (cr_id sample_commit) [1; 2] [3] 5
     (CommitRevealRegistry.commit sample_commit CommitRevealRegistry.new).1).1.
Lemma reveals_bound_witness :
  let r := (CommitRevealRegistry.prune_expired 20 sample_commits).1 in
  ∃ i c, records sample_commits !! i = Some c ∧ revealed c = true ∧ records r !! i = Some c ∧
    ∃ v s, revealed_value c = Some v ∧ revealed_salt c = Some s ∧
      @CommitRevealRecord.compute_commitment sample_sha256 v s = cr_commitment c.
Proof.
  intros r. set (i := cr_id sample_commit). destruct (records sample_commits !! i) as [c |] eqn:E; [| by vm_compute in E].
  assert (revealed c = true) as Hr by (vm_compute in E; by injection E as <-).
  exists i, c. split; [exact E |]. split; [exact Hr |].
  apply (@reveals_bound sample_sha256 sample_commits r); [| | exact E | exact Hr].
  - eapply rtc_l; [exact (@cr_commit sample_sha256 _ 1 sample_opening 0 9) |].
    apply rtc_once. exact (@cr_reveal sample_sha256 _ (cr_id sample_commit) [1; 2] [3] 5).
  - apply rtc_once. exact (@cr_prune sample_sha256 _ 20).
Defined.
