(* ===== verification/Encrypted.v ===== *)
(** * Encrypted intents

    Intents ordered under a commitment before they are revealed
    (src/runtime/src/intents/encrypted.rs): the registry with all its operations.  The
    theorems say which reveals it grants over any history, that its counter of pending
    intents is exact, and who can end one. *)

From stdpp Require Import gmap strings list pretty.
From S2P Require Import Prelude Errors Objects Concrete FeeEnvelope Intents.

(* @src src/runtime/src/intents/encrypted.rs:39-48 EncryptedIntentStatus *)
Inductive EncryptedIntentStatus : Type := EiPending | EiRevealed | EiExpired | EiRejected.
#[export] Instance EncryptedIntentStatus_eq_dec : EqDecision EncryptedIntentStatus.
Proof. solve_decision. Defined.

(* @src src/runtime/src/intents/encrypted.rs:52-70 EncryptedIntent *)
Record EncryptedIntent : Type := mkEncrypted {
  commitment : id32;
  encrypted_payload : bytes;
  reveal_deadline : Z;
  submitter : id32;
  ei_nonce : Z;
  submitted_at_epoch : Z;
  status : EncryptedIntentStatus }.

(* @src src/runtime/src/intents/encrypted.rs:74-82 IntentReveal *)
Record IntentReveal : Type := mkReveal {
  rv_commitment : id32;
  plaintext_intent : IntentTransaction;
  reveal_nonce : id32 }.

Module EncryptedIntent.
Section hashed.
Context `{Sha256}.
(* @src src/runtime/src/intents/encrypted.rs:88-103 EncryptedIntent::compute_commitment *)
Definition compute_commitment (t : IntentTransaction) (salt : id32) : id32 :=
  sha256 (string_bytes "OMNIPHI_COMMIT_V1" ++ be_bytes 32 (IntentTransaction.signing_payload t) ++
          be_bytes 32 (sender t) ++ be_bytes 8 (nonce t) ++ be_bytes 32 salt).
(* @src src/runtime/src/intents/encrypted.rs:107-138 EncryptedIntent::create *)
Definition create (t : IntentTransaction) (salt : id32) (payload : bytes) (deadline now : Z)
  : outcome string EncryptedIntent :=
  if decide (payload = []) then Err "encrypted_payload must not be empty"
  else if decide (deadline ≤ now) then
    Err ("reveal_deadline " +:+ pretty deadline +:+ " must be > current epoch " +:+ pretty now)
  else if decide (sender t = 0) then Err "submitter must be non-zero"
  else Ok (mkEncrypted (compute_commitment t salt) payload deadline (sender t) (nonce t) now EiPending).
End hashed.
(* @src src/runtime/src/intents/encrypted.rs:141-143 EncryptedIntent::is_revealable *)
Definition is_revealable (e : EncryptedIntent) (now : Z) : bool :=
  bool_decide (status e = EiPending) && bool_decide (now ≤ reveal_deadline e).
Definition with_status (s : EncryptedIntentStatus) (e : EncryptedIntent) : EncryptedIntent :=
  mkEncrypted (commitment e) (encrypted_payload e) (reveal_deadline e) (submitter e) (ei_nonce e)
    (submitted_at_epoch e) s.
End EncryptedIntent.

(* @src src/runtime/src/intents/encrypted.rs:148-155 EncryptedIntentRegistry *)
Record EncryptedIntentRegistry : Type := mkEncryptedRegistry {
  encrypted_intents : gmap id32 EncryptedIntent;
  by_submitter_nonce : gmap (Z * Z) id32;
  pending : nat }.

Definition is_pending (e : EncryptedIntent) : bool := bool_decide (status e = EiPending).
Definition pending_of (m : gmap id32 EncryptedIntent) : nat :=
  size (filter (λ p : Z * EncryptedIntent, is_pending p.2 = true) m).

Module EncryptedIntentRegistry.
Implicit Types r : EncryptedIntentRegistry.
(* @src src/runtime/src/intents/encrypted.rs:158-158 EncryptedIntentRegistry::new *)
Definition new : EncryptedIntentRegistry := mkEncryptedRegistry ∅ ∅ 0.
(* @src src/runtime/src/intents/encrypted.rs:161-179 EncryptedIntentRegistry::submit *)
Definition submit (e : EncryptedIntent) : M EncryptedIntentRegistry string id32 := λ r,
  if decide (is_Some (encrypted_intents r !! commitment e)) then (r, Err "duplicate commitment")
  else if decide (is_Some (by_submitter_nonce r !! (submitter e, ei_nonce e))) then
    (r, Err "submitter nonce already used")
  else (mkEncryptedRegistry (<[commitment e := e]> (encrypted_intents r))
          (<[(submitter e, ei_nonce e) := commitment e]> (by_submitter_nonce r)) (S (pending r)),
        Ok (commitment e)).

(** The entry leaves the pending ones. *)
Definition settle (c : id32) (e : EncryptedIntent) (s : EncryptedIntentStatus) r : EncryptedIntentRegistry :=
  mkEncryptedRegistry (<[c := EncryptedIntent.with_status s e]> (encrypted_intents r)) (by_submitter_nonce r)
    (pending r - 1).
(* @src src/runtime/src/intents/encrypted.rs:190-245 EncryptedIntentRegistry::reveal *)
Definition reveal `{Sha256} (v : IntentReveal) (now : Z)
  : M EncryptedIntentRegistry string IntentTransaction := λ r,
  match encrypted_intents r !! rv_commitment v with
  | None => (r, Err "commitment not found")
  | Some e =>
      match status e with
      | EiRevealed => (r, Err "already revealed (duplicate reveal)")
      | EiExpired => (r, Err "encrypted intent has expired")
      | EiRejected => (r, Err "encrypted intent was rejected")
      | EiPending =>
          if decide (reveal_deadline e < now) then
            (settle (rv_commitment v) e EiExpired r,
             Err ("reveal deadline " +:+ pretty (reveal_deadline e) +:+ " passed (current epoch: " +:+
                  pretty now +:+ ")"))
          else if decide (sender (plaintext_intent v) ≠ submitter e) then
            (settle (rv_commitment v) e EiRejected r, Err "revealed intent sender does not match submitter")
          else if decide (EncryptedIntent.compute_commitment (plaintext_intent v) (reveal_nonce v) ≠
                          rv_commitment v) then
            (settle (rv_commitment v) e EiRejected r,
             Err "commitment mismatch: revealed intent does not match original commitment")
          else (settle (rv_commitment v) e EiRevealed r, Ok (plaintext_intent v))
      end
  end.

(* @src src/runtime/src/intents/encrypted.rs:252-255 EncryptedIntentRegistry::expire_stale *)
Definition expires (now : Z) (e : EncryptedIntent) : bool :=
  is_pending e && bool_decide (reveal_deadline e < now).
(* @src src/runtime/src/intents/encrypted.rs:249-259 EncryptedIntentRegistry::expire_stale *)
Definition expire_stale (now : Z) r : EncryptedIntentRegistry * nat :=
  let count := size (filter (λ p : Z * EncryptedIntent, expires now p.2 = true) (encrypted_intents r)) in
  (mkEncryptedRegistry
     ((λ e, if expires now e then EncryptedIntent.with_status EiExpired e else e) <$> encrypted_intents r)
     (by_submitter_nonce r) (pending r - count), count).
(* @src src/runtime/src/intents/encrypted.rs:262-271 EncryptedIntentRegistry::prune *)
Definition prune (before : Z) r : EncryptedIntentRegistry * nat :=
  let kept := filter (λ p : Z * EncryptedIntent,
                (is_pending p.2 || bool_decide (before ≤ submitted_at_epoch p.2)) = true) (encrypted_intents r) in
  (mkEncryptedRegistry kept (by_submitter_nonce r) (pending_of kept), (size (encrypted_intents r) - size kept)%nat).
(* @src src/runtime/src/intents/encrypted.rs:274-276 EncryptedIntentRegistry::get *)
Definition get r (c : id32) : option EncryptedIntent := encrypted_intents r !! c.
(* @src src/runtime/src/intents/encrypted.rs:279-279 EncryptedIntentRegistry::count *)
Definition count r : nat := size (encrypted_intents r).
(* @src src/runtime/src/intents/encrypted.rs:282-282 EncryptedIntentRegistry::pending_count *)
Definition pending_count r : nat := pending r.
End EncryptedIntentRegistry.

(** ** Histories *)

Inductive EncryptedOp : Type :=
| EoSubmit (e : EncryptedIntent)
| EoReveal (v : IntentReveal) (now : Z)
| EoExpire (now : Z)
| EoPrune (before : Z).

(** A granted reveal: whose slot it used, and what was revealed. *)
Record Grant : Type := mkGrant { g_slot : Z * Z; g_reveal : IntentReveal; g_epoch : Z; g_deadline : Z }.

Section run.
Context `{Sha256}.
Import EncryptedIntentRegistry.
Implicit Types r : EncryptedIntentRegistry.

Definition encrypted_step (st : EncryptedIntentRegistry * list Grant) (o : EncryptedOp)
  : EncryptedIntentRegistry * list Grant :=
  let '(r, log) := st in
  match o with
  | EoSubmit e => ((submit e r).1, log)
  | EoReveal v now =>
      match reveal v now r, encrypted_intents r !! rv_commitment v with
      | (r, Ok _), Some e => (r, mkGrant (submitter e, ei_nonce e) v now (reveal_deadline e) :: log)
      | (r, _), _ => (r, log)
      end
  | EoExpire now => ((expire_stale now r).1, log)
  | EoPrune before => ((prune before r).1, log)
  end.
Definition encrypted_run (ops : list EncryptedOp) : EncryptedIntentRegistry * list Grant :=
  foldl encrypted_step (new, []) ops.

(** Intents are submitted as [create] makes them: pending. *)
Definition submits_pending (o : EncryptedOp) : Prop :=
  match o with EoSubmit e => status e = EiPending | _ => True end.

(** A slot still in use: its entry is there and pending. *)
Definition slot_of (e : EncryptedIntent) : Z * Z := (submitter e, ei_nonce e).
Definition grant_ok (g : Grant) : Prop :=
  sender (plaintext_intent (g_reveal g)) = (g_slot g).1 ∧ g_epoch g ≤ g_deadline g ∧
  EncryptedIntent.compute_commitment (plaintext_intent (g_reveal g)) (reveal_nonce (g_reveal g)) =
    rv_commitment (g_reveal g).

Record encrypted_inv (st : EncryptedIntentRegistry * list Grant) : Prop := {
  inv_pending : pending st.1 = pending_of (encrypted_intents st.1);
  inv_key : map_Forall (λ c e, commitment e = c ∧ by_submitter_nonce st.1 !! slot_of e = Some c)
              (encrypted_intents st.1);
  inv_unused : map_Forall (λ c e, is_pending e = true → slot_of e ∉ g_slot <$> st.2) (encrypted_intents st.1);
  inv_used : ∀ s, s ∈ g_slot <$> st.2 → is_Some (by_submitter_nonce st.1 !! s);
  inv_distinct : NoDup (g_slot <$> st.2);
  inv_grants : Forall grant_ok st.2 }.

Lemma pending_of_insert m c e :
  pending_of (<[c := e]> m) = ((if is_pending e then 1 else 0) + pending_of (delete c m))%nat.
Proof.
  unfold pending_of. rewrite <- insert_delete_eq, map_filter_insert. cbn [snd].
  destruct (decide (is_pending e = true)) as [-> | ->%not_true_is_false]; cbn [Nat.add].
  - rewrite map_size_insert_None; [done |]. apply map_lookup_filter_None. left. apply lookup_delete_eq.
  - by rewrite delete_delete_eq.
Qed.
Lemma pending_of_lookup m c e :
  m !! c = Some e → pending_of m = ((if is_pending e then 1 else 0) + pending_of (delete c m))%nat.
Proof. intros Hm. rewrite <- (insert_id m c e Hm) at 1. apply pending_of_insert. Qed.

Lemma expire_pending now m :
  pending_of ((λ e, if expires now e then EncryptedIntent.with_status EiExpired e else e) <$> m) =
  (pending_of m - size (filter (λ p : Z * EncryptedIntent, expires now p.2 = true) m))%nat ∧
  (size (filter (λ p : Z * EncryptedIntent, expires now p.2 = true) m) ≤ pending_of m)%nat.
Proof.
  induction m as [| c e m Hm IH] using map_ind; [done |].
  rewrite fmap_insert, !pending_of_insert, !delete_id by (rewrite ?lookup_fmap, Hm; done).
  rewrite map_filter_insert. cbn [snd]. destruct IH as [-> IH].
  destruct (decide (expires now e = true)) as [E | E%not_true_is_false].
  - rewrite map_size_insert_None by (apply map_lookup_filter_None; by left). rewrite E.
    apply andb_true_iff in E as [-> _].
    change (is_pending (EncryptedIntent.with_status EiExpired e)) with false. cbv iota. lia.
  - rewrite E, delete_id by done. lia.
Qed.
(** Settling a pending entry takes it out of the pending ones. *)
Lemma settle_inv r log c e s :
  encrypted_inv (r, log) → encrypted_intents r !! c = Some e → is_pending e = true → s ≠ EiPending →
  encrypted_inv (settle c e s r, log).
Proof.
  intros [Hp Hk Hu Hg Hn Ho] E Ep Hs. cbn in *.
  assert (is_pending (EncryptedIntent.with_status s e) = false) as Es by by apply bool_decide_eq_false.
  split; cbn; try done.
  - rewrite pending_of_insert, Es, Hp, (pending_of_lookup _ c e E), Ep. lia.
  - apply map_Forall_insert_2; [by apply (Hk c e) | done].
  - apply map_Forall_insert_2; [by rewrite Es | done].
Qed.

Lemma submit_inv r log e :
  encrypted_inv (r, log) → status e = EiPending → encrypted_inv ((submit e r).1, log).
Proof.
  intros Hi Es. unfold submit. case_decide as Hc; [done |]. case_decide as Hs; [done |].
  destruct Hi as [Hp Hk Hu Hg Hn Ho]. cbn in *.
  assert (is_pending e = true) as Ep by by apply bool_decide_eq_true.
  assert (encrypted_intents r !! commitment e = None) as Hfree by by apply eq_None_not_Some.
  split; cbn; try done.
  - by rewrite pending_of_insert, Ep, delete_id, Hp.
  - apply map_Forall_insert_2; [by rewrite lookup_insert_eq |]. intros c x Hx. destruct (Hk c x Hx) as [? Hsl].
    split; [done |]. rewrite lookup_insert_ne; [done |]. intros E. apply Hs. unfold slot_of in Hsl. rewrite E. by eexists.
  - apply map_Forall_insert_2; [| done]. intros _ Hin. by apply Hs, Hg.
  - intros sl [x Hx]%Hg. destruct (decide (sl = slot_of e)) as [-> |];
      [rewrite lookup_insert_eq | rewrite lookup_insert_ne by done]; eauto.
Qed.

Lemma stale_expiry_inv r log now : encrypted_inv (r, log) → encrypted_inv ((expire_stale now r).1, log).
Proof.
  intros [Hp Hk Hu Hg Hn Ho]. cbn in *. split; cbn; try done.
  - destruct (expire_pending now (encrypted_intents r)) as [-> _]. by rewrite Hp.
  - intros c x. rewrite lookup_fmap. intros (e & He & ->)%fmap_Some. destruct (Hk c e He). by destruct (expires now e).
  - intros c x. rewrite lookup_fmap. intros (e & He & ->)%fmap_Some. specialize (Hu c e He).
    destruct (expires now e); [done | exact Hu].
Qed.

Lemma old_pruned_inv r log before : encrypted_inv (r, log) → encrypted_inv ((prune before r).1, log).
Proof. intros [Hp Hk Hu Hg Hn Ho]. split; cbn; try done; by apply map_Forall_kept. Qed.

(** The cases of a reveal: nothing happens, a pending entry ends, or the reveal is granted. *)
Lemma reveal_cases v now r :
  match (reveal v now r).2 with
  | Ok t =>
      ∃ e, encrypted_intents r !! rv_commitment v = Some e ∧ is_pending e = true ∧ now ≤ reveal_deadline e ∧
        t = plaintext_intent v ∧ sender t = submitter e ∧
        EncryptedIntent.compute_commitment t (reveal_nonce v) = rv_commitment v ∧
        (reveal v now r).1 = settle (rv_commitment v) e EiRevealed r
  | _ =>
      (reveal v now r).1 = r ∨
      ∃ e s, encrypted_intents r !! rv_commitment v = Some e ∧ is_pending e = true ∧ s ≠ EiPending ∧
        (reveal v now r).1 = settle (rv_commitment v) e s r
  end.
Proof.
  unfold reveal. destruct (encrypted_intents r !! rv_commitment v) as [e |] eqn:E; [| by left].
  destruct (status e) eqn:Es; try by left.
  assert (is_pending e = true) as Ep by by apply bool_decide_eq_true.
  case_decide as Hd; cbn; [right; by exists e, EiExpired |].
  destruct (decide (sender (plaintext_intent v) = submitter e)) as [Hs | Hs];
    [rewrite decide_False by tauto | rewrite decide_True by done; cbn; right; by exists e, EiRejected].
  destruct (decide (EncryptedIntent.compute_commitment (plaintext_intent v) (reveal_nonce v) = rv_commitment v))
    as [Hc | Hc];
    [rewrite decide_False by tauto | rewrite decide_True by done; cbn; right; by exists e, EiRejected].
  cbn. exists e. split_and!; done || lia.
Qed.

Lemma encrypted_step_inv st o : encrypted_inv st → submits_pending o → encrypted_inv (encrypted_step st o).
Proof.
  destruct st as [r log]. intros Hi Ho. destruct o as [e0 | v now | now | before]; cbn [encrypted_step].
  - by apply submit_inv.
  - pose proof (reveal_cases v now r) as Hr. destruct (reveal v now r) as [r' res]. cbn in Hr.
    destruct res as [t | err |].
    2,3: destruct Hr as [-> | (e & s & E & Ep & Hs & ->)]; [done | by apply settle_inv].
    destruct Hr as (e & E & Ep & Hd & -> & Hs & Hc & ->). rewrite E.
    destruct (settle_inv r log _ e EiRevealed Hi E Ep ltac:(done)) as [Hp Hk Hu Hg Hn Hok].
    pose proof (inv_unused _ Hi _ _ E Ep) as Hnew. cbn in *. split; cbn; try done.
    + intros c x Hx Epx. rewrite elem_of_cons. intros [Esl | Hin]; [| by apply (Hu c x Hx Epx)].
      destruct (Hk c x Hx) as [_ Hkx]. destruct (inv_key _ Hi _ _ E) as [_ Hke]. cbn in Hke.
      unfold slot_of in Hkx, Esl. rewrite Esl in Hkx. unfold slot_of in Hke. rewrite Hkx in Hke. injection Hke as ->.
      rewrite lookup_insert_eq in Hx. injection Hx as <-. done.
    + intros sl [-> | Hin]%elem_of_cons; [| by apply Hg].
      destruct (inv_key _ Hi _ _ E) as [_ Hke]. cbn in Hke. by eexists.
    + by constructor; [apply Hnew |].
    + by constructor.
  - by apply stale_expiry_inv.
  - by apply old_pruned_inv.
Qed.

Lemma encrypted_run_inv ops : Forall submits_pending ops → encrypted_inv (encrypted_run ops).
Proof.
  induction ops as [| o ops IH] using rev_ind.
  - intros _. split; cbn; try done; [by intros s ?%not_elem_of_nil | constructor].
  - intros [Hops [Ho _]%Forall_cons]%Forall_app. unfold encrypted_run. rewrite foldl_app. cbn.
    by apply encrypted_step_inv, Ho; apply IH.
Qed.

(** Over any history in which intents are submitted pending: each slot of a submitter and
    nonce is revealed at most once, pruning or not; what is revealed was sent by the
    submitter, opens the commitment, and came by its deadline; and the counter of pending
    intents is their number. *)
Theorem encrypted_reveals_once ops :
  Forall submits_pending ops →
  NoDup (g_slot <$> (encrypted_run ops).2) ∧ Forall grant_ok (encrypted_run ops).2 ∧
  pending_count (encrypted_run ops).1 = pending_of (encrypted_intents (encrypted_run ops).1).
Proof. intros [Hp _ _ _ Hn Ho]%encrypted_run_inv. done. Qed.

(** Anyone can end a pending intent: a reveal of its commitment with any intent that is
    not the one committed to rejects it, and the true reveal is refused from then on. *)
Theorem wrong_reveal_rejects r e v v' now now' :
  encrypted_intents r !! rv_commitment v = Some e → status e = EiPending → now ≤ reveal_deadline e →
  (sender (plaintext_intent v) ≠ submitter e ∨
   EncryptedIntent.compute_commitment (plaintext_intent v) (reveal_nonce v) ≠ rv_commitment v) →
  rv_commitment v' = rv_commitment v →
  (reveal v' now' (reveal v now r).1).2 = Err "encrypted intent was rejected".
Proof.
  intros E Es Hd Hwrong Ev.
  assert ((reveal v now r).1 = settle (rv_commitment v) e EiRejected r) as ->.
  { unfold reveal. rewrite E, Es, decide_False by lia. case_decide as Hs; [done |]. case_decide as Hc; [done |]. tauto. }
  unfold reveal. rewrite Ev. cbn. by rewrite lookup_insert_eq.
Qed.
End run.

(** ** At concrete inputs *)

Definition sample_salt : id32 := 99.
Definition sample_sealed : outcome string EncryptedIntent :=
  @EncryptedIntent.create sample_sha256 (sample_intent sample_transfer 4) sample_salt [1; 2; 3] 10 2.
Definition sealed_or (d : EncryptedIntent) : EncryptedIntent :=
  match sample_sealed with Ok e => e | _ => d end.
Definition sample_entry : EncryptedIntent := sealed_or (mkEncrypted 0 [] 0 0 0 0 EiRejected).
Definition sample_reveal : IntentReveal :=
  mkReveal (commitment sample_entry) (sample_intent sample_transfer 4) sample_salt.
Definition sample_encrypted_ops : list EncryptedOp :=
  [EoSubmit sample_entry; EoReveal sample_reveal 5; EoPrune 9; EoSubmit sample_entry; EoReveal sample_reveal 6].
Lemma encrypted_reveals_once_witness :
  length (@encrypted_run sample_sha256 sample_encrypted_ops).2 = 1%nat ∧
  NoDup (g_slot <$> (@encrypted_run sample_sha256 sample_encrypted_ops).2) ∧
  Forall (@grant_ok sample_sha256) (@encrypted_run sample_sha256 sample_encrypted_ops).2 ∧
  EncryptedIntentRegistry.pending_count (@encrypted_run sample_sha256 sample_encrypted_ops).1 =
    pending_of (encrypted_intents (@encrypted_run sample_sha256 sample_encrypted_ops).1).
Proof.
  split; [vm_compute; reflexivity |].
  apply (@encrypted_reveals_once sample_sha256 sample_encrypted_ops).
  repeat constructor; vm_compute; reflexivity.
Defined.

Lemma wrong_reveal_rejects_witness :
  let r := (EncryptedIntentRegistry.submit sample_entry EncryptedIntentRegistry.new).1 in
  let v := mkReveal (commitment sample_entry) (sample_intent sample_transfer 5) sample_salt in
  (@EncryptedIntentRegistry.reveal sample_sha256 sample_reveal 5
     (@EncryptedIntentRegistry.reveal sample_sha256 v 4 r).1).2 = Err "encrypted intent was rejected".
Proof.
  intros r v. apply (@wrong_reveal_rejects sample_sha256 r sample_entry v sample_reveal 4 5).
  - vm_compute. reflexivity.
  - vm_compute. reflexivity.
  - vm_compute. discriminate.
  - right. vm_compute. discriminate.
  - reflexivity.
Defined.
