(* ===== verification/SubmissionProps.v ===== *)
(** * What the submission path guarantees

    The canonical order of a batch (when it depends on the submissions alone and when
    it does not), and the runs of the node: each accepted submission is sequenced once
    or still queued, batches form a chain, and the queue drains. *)

From stdpp Require Import gmap strings list sorting pretty.
From S2P Require Import Prelude Concrete Sorting Submissions.
Import OrderingEngine.

(** ** The order of a batch *)

Lemma then_with_eq c c' : then_with c c' = Eq ↔ c = Eq ∧ c' = Eq.
Proof. destruct c; naive_solver. Qed.

Lemma key_cmp_eq x y : key_cmp x y = Eq → key_id x = key_id y.
Proof. unfold key_cmp. rewrite !then_with_eq, !Z.compare_eq_iff. tauto. Qed.

Definition keyed (c : OrderingPolicyConfig) (v : ValidatedSubmission) : OrderingKey * ValidatedSubmission :=
  (build_key c v, v).

Lemma tree_insert_perm {V} k (v : V) l :
  key_id k ∉ key_id <$> l.*1 → tree_insert k v l ≡ₚ (k, v) :: l.
Proof.
  induction l as [|[k' v'] l IH]; intros Hk; [done|]. cbn in *.
  apply not_elem_of_cons in Hk as [Hne Hk].
  destruct (key_cmp k k') eqn:E; [by apply key_cmp_eq in E|done|].
  rewrite IH by done. apply perm_swap.
Qed.

Lemma tree_perm c l m :
  NoDup ((key_id <$> m.*1) ++ (vid <$> l)) →
  foldl (λ m v, tree_insert (build_key c v) v m) m l ≡ₚ m ++ (keyed c <$> l).
Proof.
  revert m. induction l as [|v l IH]; intros m Hnd; cbn; [by rewrite app_nil_r|].
  assert (tree_insert (build_key c v) v m ≡ₚ keyed c v :: m) as Hp.
  { apply tree_insert_perm. cbn. intros Hin. apply NoDup_app in Hnd as (_ & Hdis & _).
    apply (Hdis _ Hin). left. }
  rewrite IH.
  - rewrite Hp. cbn. apply Permutation_middle.
  - rewrite Hp. cbn. cbn in Hnd. by rewrite <- Permutation_middle in Hnd.
Qed.

(** With distinct ids the order loses and repeats nothing. *)
Lemma tree_of_perm c l : NoDup (vid <$> l) → tree_of c l ≡ₚ keyed c <$> l.
Proof. intros Hnd. apply (tree_perm c l []). done. Qed.

Lemma order_perm c l l' : NoDup (vid <$> l) → order c l = Ok l' → l' ≡ₚ l.
Proof.
  unfold order. intros Hnd. case_decide; [done|]. intros [= <-].
  rewrite tree_of_perm by done. rewrite <- list_fmap_compose.
  by rewrite (list_fmap_ext _ id), list_fmap_id.
Qed.

(** *** Sorting by an order that the comparison respects *)

Section respects.
Context (P : OrderingKey → Prop) (R : OrderingKey → OrderingKey → Prop) `{!Transitive R}.
Hypothesis cmp_R : ∀ x y, P x → P y → key_cmp x y ≠ Gt → R x y.
Hypothesis cmp_R_gt : ∀ x y, P x → P y → key_cmp x y = Gt → R y x.

Lemma tree_insert_keys {V} k (v : V) l k' : k' ∈ (tree_insert k v l).*1 → k' = k ∨ k' ∈ l.*1.
Proof.
  induction l as [|[k1 v1] l IH]; cbn; [set_solver|].
  destruct (key_cmp k k1); cbn; set_solver.
Qed.

Lemma tree_insert_sorted {V} k (v : V) l :
  P k → Forall P l.*1 → StronglySorted R l.*1 → StronglySorted R (tree_insert k v l).*1.
Proof.
  intros Hk. induction l as [|[k1 v1] l IH]; cbn; [repeat constructor|].
  intros [H1 Hl]%Forall_cons Hs. inversion Hs as [|? ? Hs' Hall]; subst.
  destruct (key_cmp k k1) eqn:E; cbn.
  - done.
  - assert (R k k1) as Hkk by (apply cmp_R; [done..|congruence]).
    constructor; [done|]. constructor; [done|]. eapply Forall_impl; [exact Hall|].
    intros z Hz. by etrans.
  - constructor; [by apply IH|]. apply Forall_forall. intros z [->|Hz]%tree_insert_keys.
    + by apply cmp_R_gt.
    + by eapply Forall_forall in Hall.
Qed.

Lemma tree_of_sorted c l :
  (∀ v, v ∈ l → P (build_key c v)) → StronglySorted R (tree_of c l).*1.
Proof.
  unfold tree_of. intros Hl.
  assert (∀ m, Forall P m.*1 → StronglySorted R m.*1 →
    StronglySorted R (foldl (λ m v, tree_insert (build_key c v) v m) m l).*1) as Hm.
  { induction l as [|v l IH]; intros m HP Hs; [done|]. cbn. apply IH.
    - intros w Hw. apply Hl. by right.
    - apply Forall_forall. intros z [->|Hz]%tree_insert_keys; [apply Hl; left|].
      by eapply Forall_forall in HP.
    - apply tree_insert_sorted; [apply Hl; left|done..]. }
  apply Hm; constructor.
Qed.
End respects.

(** The values come in the order of their keys. *)
Lemma tree_of_values c l R :
  NoDup (vid <$> l) → StronglySorted R (tree_of c l).*1 →
  StronglySorted (λ v w, R (build_key c v) (build_key c w)) (tree_of c l).*2.
Proof.
  intros Hnd. assert (Forall (λ p, p.1 = build_key c p.2) (tree_of c l)) as Hk.
  { rewrite tree_of_perm by done. apply Forall_fmap, Forall_true. done. }
  revert Hk. generalize (tree_of c l) as t. intros t. induction t as [|[k v] t IH]; cbn; [constructor|].
  intros [Hk Ht]%Forall_cons Hs. cbn in Hk. subst k. inversion Hs as [|? ? Hs' Hall]; subst.
  constructor; [by apply IH|]. apply Forall_fmap. rewrite Forall_fmap in Hall.
  apply Forall_forall. intros [k w] Hin. eapply Forall_forall in Hall; [|done].
  eapply Forall_forall in Ht; [|done]. cbn in *. by subst.
Qed.

Definition priority (v : ValidatedSubmission) : Z :=
  priority_weight (class (raw v)) + Z.min (priority_hint (metadata (raw v))) 10000 / 10.

(** Whatever the tie break, a higher priority comes first. *)
Theorem order_by_priority c l l' :
  NoDup (vid <$> l) → order c l = Ok l' →
  l' ≡ₚ l ∧ StronglySorted (λ v w, priority w ≤ priority v) l'.
Proof.
  intros Hnd Ho. split; [by eapply order_perm|].
  unfold order in Ho. case_decide; [done|]. injection Ho as <-.
  pose (R := λ x y : OrderingKey, neg_priority x ≤ neg_priority y).
  assert (StronglySorted R (tree_of c l).*1) as Hs.
  { apply (tree_of_sorted (λ _, True)); [intros ???; unfold R; lia|..|done]; unfold R, key_cmp; intros x y _ _.
    - rewrite then_with_compare. lia.
    - destruct (Z.compare_spec (neg_priority x) (neg_priority y)); cbn; [lia|done|lia]. }
  apply tree_of_values in Hs; [|done]. eapply StronglySorted_weaken; [|exact Hs].
  unfold R, priority, build_key. cbn. intros v w. lia.
Qed.

(** *** Configurations whose comparison is an order *)

(** The tie break and the sender's nonces agree: with the nonce order enforced the tie
    must be broken by the lower nonce or by the sender. *)
Definition coherent (c : OrderingPolicyConfig) : bool :=
  negb (enforce_sender_nonce_order c) ||
  match tie_break c with LowerNonce | SenderAscending => true | _ => false end.

(** What is compared second and third. *)
Definition second (c : OrderingPolicyConfig) (k : OrderingKey) : Z :=
  if enforce_sender_nonce_order c then
    match tie_break c with SenderAscending => tie_break_bytes k | _ => key_nonce k end
  else key_nonce k.
Definition third (c : OrderingPolicyConfig) (k : OrderingKey) : Z :=
  if enforce_sender_nonce_order c then
    match tie_break c with SenderAscending => key_nonce k | _ => 0 end
  else tie_break_bytes k.
Definition ranked (c : OrderingPolicyConfig) (x y : OrderingKey) : Prop :=
  neg_priority x < neg_priority y ∨ (neg_priority x = neg_priority y ∧
  (second c x < second c y ∨ (second c x = second c y ∧
  (third c x < third c y ∨ (third c x = third c y ∧ key_id x ≤ key_id y))))).

#[local] Instance ranked_trans c : Transitive (ranked c).
Proof. intros x y z. unfold ranked. lia. Qed.
Lemma ranked_total c x y : ¬ ranked c x y → ranked c y x.
Proof. unfold ranked. lia. Qed.

Lemma cmp_ranked c v w :
  coherent c = true →
  key_cmp (build_key c v) (build_key c w) ≠ Gt ↔ ranked c (build_key c v) (build_key c w).
Proof.
  unfold coherent, key_cmp, ranked, second, third, build_key. rewrite then_with_compare.
  destruct c as [tie []]; cbn; [destruct tie; try done; intros _|intros _].
  - case_decide; cbn [then_with]; rewrite !then_with_compare, Z.compare_le_iff; lia.
  - case_decide as E; cbn [then_with]; rewrite !then_with_compare, Z.compare_le_iff; lia.
  - rewrite decide_True by done. rewrite !then_with_compare, Z.compare_le_iff. lia.
Qed.

(** C39: In a coherent configuration the order of a batch depends on the submissions alone,
    not on the order in which they arrived. *)
Theorem order_arrival_free c l1 l2 :
  coherent c = true → NoDup (vid <$> l1) → l1 ≡ₚ l2 → order c l1 = order c l2.
Proof.
  intros Hc Hnd Hp. assert (NoDup (vid <$> l2)) as Hnd2 by (by rewrite <- Hp).
  assert (∀ l, NoDup (vid <$> l) → StronglySorted (λ v w, ranked c (build_key c v) (build_key c w)) (tree_of c l).*2) as Hs.
  { intros l Hl. apply tree_of_values; [done|].
    apply (tree_of_sorted (λ k, ∃ v, k = build_key c v)); [apply _|..|naive_solver].
    - intros ? ? [v ->] [w ->]. by apply cmp_ranked.
    - intros ? ? [v ->] [w ->] HG. apply ranked_total. rewrite <- cmp_ranked by done. naive_solver. }
  unfold order. rewrite (decide_ext (l1 = []) (l2 = [])).
  { case_decide; [done|]. f_equal.
    assert (∀ l, NoDup (vid <$> l) → (tree_of c l).*2 ≡ₚ l) as Hperm.
    { intros l Hl. rewrite tree_of_perm by done. rewrite <- list_fmap_compose.
      by rewrite (list_fmap_ext _ id), list_fmap_id. }
    eapply StronglySorted_unique_strong; [|by apply Hs..|].
    - intros v w Hv Hw H1 H2. rewrite Hperm in Hv by done. rewrite Hperm, <- Hp in Hw by done.
      apply (NoDup_key_inj vid l1); [done..|]. revert H1 H2. unfold ranked. cbn. lia.
    - by rewrite !Hperm. }
  split; intros ->; [by apply Permutation_nil in Hp as ->|by apply Permutation_sym, Permutation_nil in Hp as ->].
Qed.

(** Without the nonce order the key's sender is zero for everyone, so that the nonces of
    different senders are compared before any tie is broken. *)
Theorem unenforced_orders_by_nonce tie l l' :
  NoDup (vid <$> l) → order (mkOrderingPolicy tie false) l = Ok l' →
  StronglySorted (λ v w, priority v = priority w → nonce (raw v) ≤ nonce (raw w)) l'.
Proof.
  intros Hnd Ho. pose (c := mkOrderingPolicy tie false). unfold order in Ho. case_decide; [done|].
  injection Ho as <-.
  assert (StronglySorted (ranked c) (tree_of c l).*1) as Hs.
  { apply (tree_of_sorted (λ k, ∃ v, k = build_key c v)); [apply _|..|naive_solver].
    - intros ? ? [v ->] [w ->]. by apply cmp_ranked.
    - intros ? ? [v ->] [w ->] HG. apply ranked_total. rewrite <- cmp_ranked by done. naive_solver. }
  apply tree_of_values in Hs; [|done]. eapply StronglySorted_weaken; [|exact Hs].
  unfold ranked, second, priority, build_key. cbn. intros v w. lia.
Qed.

(** *** Samples *)

Definition sample_codec : SubmissionCodec := {|
  kind_bytes k := [match k with KIntentTransaction => 0 | KGoalPacket => 1 | KCandidatePlan => 2
                   | KAgentSubmission => 3 | KRawBytes => 4 end; 0; 0; 0];
  attestation_bytes a := be_bytes 32 (att_batch a);
  counts_json m := pretty (size m) |}.
Definition sample_meta (hint : Z) : SubmissionMetadata := mkSubMetadata 0 hint None None ∅.
Definition sample_raw (who n hint : Z) (c : SubmissionClass) : SequencingSubmission :=
  mkSubmission 1 who KIntentTransaction c (@sha256 sample_sha256 [who; n]) [who; n] n 100 9
    (sample_meta hint) (replicate 64 0).
Definition sample_validated (id who n hint : Z) (c : SubmissionClass) : ValidatedSubmission :=
  mkValidated (mkEnvelope (sample_raw who n hint c) 0 id) c 2.

(** Bob's second submission, Alice's, Bob's first: each comes before the next by the
    default comparison, and the last comes before the first. *)
Definition bob2 : ValidatedSubmission := sample_validated 1 bob 2 0 Transfer.
Definition alice0 : ValidatedSubmission := sample_validated 2 alice 0 0 Transfer.
Definition bob1 : ValidatedSubmission := sample_validated 3 bob 1 0 Transfer.

Lemma order_by_priority_witness :
  NoDup (vid <$> [bob2; sample_validated 4 alice 0 10000 (Other "raw")]) ∧
  ∃ l', order default_ordering [bob2; sample_validated 4 alice 0 10000 (Other "raw")] = Ok l' ∧
  (vid <$> l') = [4; 1] ∧ StronglySorted (λ v w, priority w ≤ priority v) l'.
Proof.
  assert (NoDup (vid <$> [bob2; sample_validated 4 alice 0 10000 (Other "raw")])) as Hnd by by_decide.
  split; [done|]. eexists. split; [vm_compute; reflexivity|]. split; [done|].
  refine (proj2 (order_by_priority default_ordering _ _ Hnd _)). vm_compute. reflexivity.
Defined.

(** A hint outweighs a class: the lowest class with the highest hint comes before a
    treasury rebalance. *)
Example hint_outranks_class :
  order default_ordering
    [sample_validated 1 alice 0 0 TreasuryRebalance; sample_validated 2 bob 0 10000 (Other "raw")] =
  Ok [sample_validated 2 bob 0 10000 (Other "raw"); sample_validated 1 alice 0 0 TreasuryRebalance].
Proof. vm_compute. reflexivity. Qed.

Lemma order_arrival_free_witness :
  let c := mkOrderingPolicy SenderAscending true in
  coherent c = true ∧ NoDup (vid <$> [bob2; alice0; bob1]) ∧
  order c [bob2; alice0; bob1] = order c [bob1; alice0; bob2].
Proof.
  cbv zeta. assert (NoDup (vid <$> [bob2; alice0; bob1])) as Hnd by by_decide.
  split; [done|]. split; [done|]. apply (order_arrival_free (mkOrderingPolicy SenderAscending true)); [done|done|].
  exact (Permutation_rev [bob2; alice0; bob1]).
Defined.

(** The default configuration is not coherent: the same three submissions are ordered
    in two ways, by their arrival, and one of them runs Bob's second before his first. *)
Theorem default_order_follows_arrival :
  [bob2; alice0; bob1] ≡ₚ [bob1; alice0; bob2] ∧
  order default_ordering [bob2; alice0; bob1] = Ok [bob1; bob2; alice0] ∧
  order default_ordering [bob1; alice0; bob2] = Ok [bob2; alice0; bob1].
Proof.
  split_and!; [|vm_compute; reflexivity..].
  exact (Permutation_rev [bob2; alice0; bob1]).
Qed.

Lemma unenforced_orders_by_nonce_witness :
  let l := [sample_validated 1 bob 2 0 Transfer; sample_validated 2 alice 1 0 Transfer] in
  NoDup (vid <$> l) ∧ ∃ l', order (mkOrderingPolicy LexicographicAscending false) l = Ok l' ∧
  (vid <$> l') = [2; 1] ∧
  StronglySorted (λ v w, priority v = priority w → nonce (raw v) ≤ nonce (raw w)) l'.
Proof.
  cbv zeta. assert (NoDup (vid <$> [sample_validated 1 bob 2 0 Transfer; sample_validated 2 alice 1 0 Transfer]))
    as Hnd by by_decide.
  split; [done|]. eexists. split; [vm_compute; reflexivity|]. split; [done|].
  refine (unenforced_orders_by_nonce LexicographicAscending _ _ Hnd _). vm_compute. reflexivity.
Defined.

(** ** Batches *)

Section batch_facts.
Context `{Sha256, SubmissionCodec}.

Lemma merge_sort_perm_eq (l1 l2 : list Z) : l1 ≡ₚ l2 → merge_sort Z.le l1 = merge_sort Z.le l2.
Proof.
  intros Hp. apply (StronglySorted_unique Z.le); [apply StronglySorted_merge_sort; apply _..|].
  by rewrite !merge_sort_Permutation.
Qed.

(** Neither the batch id nor the receipt's hash depends on the order of the batch: two
    batches with the same submissions in different orders have the same header. *)
Theorem header_ignores_order p l1 l2 h parent ep seq1 seq2 b1 b2 :
  l1 ≡ₚ l2 → build p l1 h parent ep seq1 = Ok b1 → build p l2 h parent ep seq2 = Ok b2 →
  header b1 = header b2 ∧
  receipt_hash (build_receipt (batch_id (header b1)) h l1 [] (version p)) =
  receipt_hash (build_receipt (batch_id (header b2)) h l2 [] (version p)).
Proof.
  intros Hp. assert (compute_payload_root l1 = compute_payload_root l2) as Hr.
  { unfold compute_payload_root. do 3 f_equal. apply merge_sort_perm_eq. by rewrite Hp. }
  assert (length l1 = length l2) as Hl by (by rewrite Hp).
  unfold build. do 4 (case_decide; try done). intros [= <-] [= <-]. cbn.
  unfold build_receipt. cbn. rewrite Hr, Hl. done.
Qed.

(** What the runtime is given is the batch, in its order. *)
Theorem export_faithful b x :
  RuntimeBridge.export b = Ok x →
  let e := ex_envelope x in
  zip (ordered_submission_ids e) (zip (ordered_senders e) (ordered_payload_hashes e)) =
    (λ v, (vid v, (sender (raw v), payload_hash (raw v)))) <$> ordered_submissions b ∧
  re_batch_id e = batch_id (header b) ∧ original_batch_id x = batch_id (header b) ∧
  processed_count (RuntimeBridge.mock_ack x) = length (ordered_submissions b).
Proof.
  unfold RuntimeBridge.export. case_decide; [done|]. intros [= <-]. cbn.
  split_and!; [|done|done|by rewrite length_fmap].
  induction (ordered_submissions b) as [|v l IH]; cbn; [done|]. f_equal.
  destruct (decide (l = [])) as [->|]; [done|by apply IH].
Qed.
End batch_facts.

Definition sample_policy (max_batch max_queue : nat) (c : OrderingPolicyConfig) : PoSeqPolicy :=
  mkPolicy 1 (mkBatchPolicy max_batch 100 max_queue) c [].

Lemma header_ignores_order_witness :
  let b := @build sample_sha256 (sample_policy 5 5 default_ordering) in
  [bob2; alice0] ≡ₚ [alice0; bob2] ∧ ∃ b1 b2,
  b [bob2; alice0] 1 None 7 None = Ok b1 ∧ b [alice0; bob2] 1 None 7 None = Ok b2 ∧ header b1 = header b2.
Proof.
  cbv zeta. split; [apply perm_swap|].
  destruct (@build sample_sha256 (sample_policy 5 5 default_ordering) [bob2; alice0] 1 None 7 None) as [b1| |] eqn:E1; [|done..].
  destruct (@build sample_sha256 (sample_policy 5 5 default_ordering) [alice0; bob2] 1 None 7 None) as [b2| |] eqn:E2; [|done..].
  exists b1, b2. split; [done|]. split; [done|].
  exact (proj1 (@header_ignores_order sample_sha256 _ [bob2; alice0] [alice0; bob2] 1 None 7 None None b1 b2
    (perm_swap _ _ _) E1 E2)).
Defined.

Lemma export_faithful_witness :
  ∃ b x, @build sample_sha256 (sample_policy 5 5 default_ordering) [bob2; alice0] 1 None 7 None = Ok b ∧
  @RuntimeBridge.export sample_codec b = Ok x ∧ ordered_submission_ids (ex_envelope x) = [1; 2] ∧
  processed_count (RuntimeBridge.mock_ack x) = length (ordered_submissions b).
Proof.
  destruct (@build sample_sha256 (sample_policy 5 5 default_ordering) [bob2; alice0] 1 None 7 None) as [b| |] eqn:E; [|done..].
  injection E as E. exists b.
  destruct (@RuntimeBridge.export sample_codec b) as [x| |] eqn:Ex; [|subst b; done..].
  exists x. split; [done|]. split; [done|]. split; [subst b; by injection Ex as <-|].
  exact (proj2 (proj2 (proj2 (@export_faithful sample_codec b x Ex)))).
Defined.

(** ** Runs of the node *)

Inductive op : Type := OpSubmit (s : SequencingSubmission) | OpProduce (ep : Z) (sequencer : option id32).

(** What the callers were told: the ids accepted and the batches produced. *)
Record world : Type := mkWorld {
  node : PoSeqNode;
  accepted : list id32;
  batches : list OrderedBatch }.

Definition batch_ids (b : OrderedBatch) : list id32 := vid <$> ordered_submissions b.
Definition sequenced (w : world) : list id32 := concat (batch_ids <$> batches w).
Definition queued (n : PoSeqNode) : list id32 := vid <$> (map_to_list (entries (queue n))).*2.

Section runs.
Context `{Sha256, SubmissionCodec}.

Definition exec (w : world) (o : op) : world :=
  match o with
  | OpSubmit s =>
      match PoSeqNode.submit s (node w) with
      | (n, Ok id) => mkWorld n (accepted w ++ [id]) (batches w)
      | (n, _) => mkWorld n (accepted w) (batches w)
      end
  | OpProduce ep sequencer =>
      match PoSeqNode.produce_batch ep sequencer (node w) with
      | (n, Ok (b, _)) => mkWorld n (accepted w) (batches w ++ [b])
      | (n, _) => mkWorld n (accepted w) (batches w)
      end
  end.
Definition start (p : PoSeqPolicy) : world := mkWorld (PoSeqNode.new p) [] [].
Definition run (p : PoSeqPolicy) (ops : list op) : world := foldl exec (start p) ops.

(** *** The queue *)

Lemma remove_all_values m keys m' l :
  SubmissionQueue.remove_all m keys = (m', l) →
  (map_to_list m).*2 ≡ₚ l ++ (map_to_list m').*2 ∧ m' ⊆ m ∧ (length l ≤ length keys)%nat.
Proof.
  revert m m' l. induction keys as [|k keys IH]; intros m m' l; cbn; [intros [= <- <-]; by split_and!|].
  destruct (SubmissionQueue.remove_all (delete k m) keys) as [m1 l1] eqn:E. intros [= <- <-].
  destruct (IH _ _ _ E) as (Hp & Hsub & Hlen).
  assert (m1 ⊆ m) as Hs by (etrans; [exact Hsub|apply delete_subseteq]).
  destruct (m !! k) as [v|] eqn:Ek; cbn.
  - split_and!; [|done|lia]. rewrite <- (map_to_list_delete m k v Ek). cbn. by rewrite Hp.
  - split_and!; [|done|lia]. rewrite delete_id in Hp by done. exact Hp.
Qed.

Lemma remove_all_length m keys m' l :
  NoDup keys → (∀ k, k ∈ keys → is_Some (m !! k)) →
  SubmissionQueue.remove_all m keys = (m', l) → length l = length keys.
Proof.
  intros Hnd. revert m m' l. induction Hnd as [|k keys Hk Hnd IH]; intros m m' l Hin; cbn; [by intros [= <- <-]|].
  destruct (SubmissionQueue.remove_all (delete k m) keys) as [m1 l1] eqn:E. intros [= <- <-].
  destruct (Hin k) as [v ->]; [left|]. cbn. f_equal. eapply IH; [|exact E].
  intros k' Hk'. rewrite lookup_delete_ne by (by intros ->). apply Hin. by right.
Qed.

Lemma intake_keys_spec {A} (m : gmap intake_key A) :
  NoDup (intake_list m).*1 ∧ (∀ k, k ∈ (intake_list m).*1 → is_Some (m !! k)) ∧
  length (intake_list m) = size m.
Proof.
  assert (intake_list m ≡ₚ map_to_list m) as Hp by apply merge_sort_Permutation.
  split_and!; [rewrite Hp; apply NoDup_fst_map_to_list| |by rewrite Hp, length_map_to_list].
  intros k. rewrite Hp. intros ([k' a] & -> & Hin)%list_elem_of_fmap. apply elem_of_map_to_list in Hin.
  by exists a.
Qed.

Lemma take_elem {A} (x : A) n l : x ∈ take n l → x ∈ l.
Proof. intros (i & Hi & _)%elem_of_take. apply list_elem_of_lookup. eauto. Qed.

(** Draining takes as many as are asked for and there, and only those. *)
Lemma drain_spec count q q' l :
  SubmissionQueue.drain count q = (q', l) →
  (map_to_list (entries q)).*2 ≡ₚ l ++ (map_to_list (entries q')).*2 ∧
  entries q' ⊆ entries q ∧ max_size q' = max_size q ∧ length l = (count `min` SubmissionQueue.len q)%nat.
Proof.
  unfold SubmissionQueue.drain, SubmissionQueue.len.
  destruct (SubmissionQueue.remove_all _ _) as [m l0] eqn:E. intros [= <- <-]. cbn.
  destruct (remove_all_values _ _ _ _ E) as (Hp & Hs & _).
  destruct (intake_keys_spec (entries q)) as (Hnd & Hin & Hlen).
  split_and!; [done..|]. rewrite (remove_all_length _ _ _ _ (sublist_NoDup _ _ Hnd (sublist_take _ _)) (λ k Hk, Hin k (take_elem k _ _ Hk)) E).
  by rewrite length_take, length_fmap, Hlen.
Qed.

Lemma remove_all_lookup m keys m' l :
  SubmissionQueue.remove_all m keys = (m', l) →
  (∀ k w, m' !! k = Some w → (k ∉ keys) ∧ m !! k = Some w) ∧
  (∀ v, v ∈ l → ∃ k, k ∈ keys ∧ m !! k = Some v).
Proof.
  revert m m' l. induction keys as [|k keys IH]; intros m m' l; cbn.
  { intros [= <- <-]. split; [|set_solver]. intros k w ?. split; [apply not_elem_of_nil|done]. }
  destruct (SubmissionQueue.remove_all (delete k m) keys) as [m1 l1] eqn:E. intros [= <- <-].
  destruct (IH _ _ _ E) as [Hm Hl]. split.
  - intros k' w Hw. destruct (Hm _ _ Hw) as [Hk Hd]. apply lookup_delete_Some in Hd as [Hne Hd].
    split; [|done]. apply not_elem_of_cons. done.
  - intros v Hv. assert (v ∈ l1 ∨ m !! k = Some v) as [Hin|Hin].
    { destruct (m !! k) as [u|]; [|by left]. apply elem_of_cons in Hv as [->|Hv]; [by right|by left]. }
    + destruct (Hl _ Hin) as (k' & Hk' & Hd). apply lookup_delete_Some in Hd as [_ Hd].
      exists k'. split; [by right|done].
    + exists k. split; [left|done].
Qed.

Definition filed (m : gmap intake_key ValidatedSubmission) : Prop :=
  ∀ k v, m !! k = Some v → k = (received_at_sequence (envelope v), vid v).

(** The queue is first in, first out: nothing drained arrived after what is left. *)
Lemma drain_oldest count q q' l v k w :
  SubmissionQueue.drain count q = (q', l) → filed (entries q) →
  v ∈ l → entries q' !! k = Some w →
  received_at_sequence (envelope v) ≤ received_at_sequence (envelope w).
Proof.
  unfold SubmissionQueue.drain. destruct (SubmissionQueue.remove_all _ _) as [m l0] eqn:E.
  intros [= <- <-] Hf Hv Hw. cbn in Hw. destruct (remove_all_lookup _ _ _ _ E) as [Hm Hl].
  destruct (Hm _ _ Hw) as [Hk Hkw]. destruct (Hl _ Hv) as (k1 & Hk1 & Hkv).
  assert (intake_list (entries q) ≡ₚ map_to_list (entries q)) as Hp by apply merge_sort_Permutation.
  rewrite <- fmap_take in Hk, Hk1. apply list_elem_of_fmap in Hk1 as ([k1' v1] & -> & Hin1).
  assert (v1 = v) as ->.
  { apply take_elem in Hin1 as Hin. rewrite Hp in Hin. apply elem_of_map_to_list in Hin. cbn in *. congruence. }
  assert ((k, w) ∈ drop count (intake_list (entries q))) as Hin2.
  { assert ((k, w) ∈ intake_list (entries q)) as Hin by (rewrite Hp; by apply elem_of_map_to_list).
    rewrite <- (take_drop count) in Hin. apply elem_of_app in Hin as [Hin|Hin]; [|done].
    destruct Hk. apply list_elem_of_fmap. by exists (k, w). }
  assert (StronglySorted intake_le (intake_list (entries q))) as Hs by (apply StronglySorted_merge_sort; apply _).
  rewrite <- (take_drop count) in Hs. pose proof (StronglySorted_app_1_elem_of _ _ _ _ _ Hs Hin1 Hin2) as Hle.
  apply Hf in Hkw, Hkv. cbn in Hkv. subst. unfold intake_le in Hle. cbn in Hle. lia.
Qed.

(** *** The invariant of a run *)

Definition audit_of (b : OrderedBatch) : BatchAuditRecord :=
  mkAudit (batch_id (header b)) (height (header b)) (payload_root (header b)) (policy_version (header b))
    (build_receipt (batch_id (header b)) (height (header b)) (ordered_submissions b) [] (policy_version (header b))) ∅.

Definition nth_height (i : nat) : Z := wrapu 64 (Z.of_nat i).
(** The [i]-th batch, counted from zero. *)
Definition linked (bs : list OrderedBatch) (i : nat) (b : OrderedBatch) : Prop :=
  height (header b) = nth_height (S i) ∧
  parent_batch_id (header b) = match i with O => None | S j => (λ b, batch_id (header b)) <$> bs !! j end.

Record run_inv (p : PoSeqPolicy) (w : world) : Prop := {
  ri_policy : policy (node w) = p ∧ builder_policy (node w) = p ∧ ordering_config (node w) = ordering_policy p;
  ri_guard : max_history (replay_guard (node w)) = 0%nat;
  ri_capacity : max_size (queue (node w)) = max_pending_queue_size (batch_policy p);
  ri_filed : filed (entries (queue (node w)));
  ri_seen : ∀ id, id ∈ accepted w → id ∈ seen_ids (replay_guard (node w));
  ri_once : NoDup (accepted w);
  ri_kept : accepted w ≡ₚ sequenced w ++ queued (node w);
  ri_height : current_height (state (node w)) = nth_height (length (batches w));
  ri_ledger : ledger (node w) = foldl (λ m b, BatchLedger.append (audit_of b) m) BatchLedger.new (batches w);
  ri_last : last_batch_id (state (node w)) = (λ b, batch_id (header b)) <$> last (batches w);
  ri_linked : ∀ i b, batches w !! i = Some b → linked (batches w) i b;
  ri_sizes : Forall (λ b, batch_ids b ≠ [] ∧
    (length (batch_ids b) ≤ max_submissions_per_batch (batch_policy p))%nat) (batches w) }.

Lemma run_inv_start p : run_inv p (start p).
Proof. split; cbn; try done; try set_solver; try constructor. Qed.

(** What a submission does to the node, whatever its result. *)
Inductive submitted (n : PoSeqNode) (s : SequencingSubmission) : PoSeqNode → outcome PoSeqError id32 → Prop :=
| sub_invalid x :
    validate (mkEnvelope s (intake_counter n) (compute_id s)) (policy n) = Err x →
    submitted n s (with_counter (wrapu 64 (intake_counter n + 1)) n) (Err (Validation x))
| sub_duplicate :
    compute_id s ∈ seen_ids (replay_guard n) →
    submitted n s (with_counter (wrapu 64 (intake_counter n + 1)) n) (Err (Duplicate (compute_id s)))
| sub_full v :
    compute_id s ∉ seen_ids (replay_guard n) →
    validate (mkEnvelope s (intake_counter n) (compute_id s)) (policy n) = Ok v →
    (0 < max_size (queue n) ≤ SubmissionQueue.len (queue n))%nat →
    submitted n s
      (with_guard (ReplayGuard.evict (mkGuard ({[compute_id s]} ∪ seen_ids (replay_guard n))
         (insertion_order (replay_guard n) ++ [compute_id s]) (max_history (replay_guard n))))
         (with_counter (wrapu 64 (intake_counter n + 1)) n))
      (Err (QueueFull (max_size (queue n))))
| sub_queued v :
    compute_id s ∉ seen_ids (replay_guard n) →
    (max_size (queue n) = 0 ∨ SubmissionQueue.len (queue n) < max_size (queue n))%nat →
    validate (mkEnvelope s (intake_counter n) (compute_id s)) (policy n) = Ok v →
    submitted n s
      (with_queue (mkQueue (<[(intake_counter n, compute_id s) := v]> (entries (queue n))) (max_size (queue n)))
        (with_guard (ReplayGuard.evict (mkGuard ({[compute_id s]} ∪ seen_ids (replay_guard n))
           (insertion_order (replay_guard n) ++ [compute_id s]) (max_history (replay_guard n))))
           (with_counter (wrapu 64 (intake_counter n + 1)) n)))
      (Ok (compute_id s)).

Lemma validation_ok e p v :
  validate e p = Ok v → envelope v = e ∧ normalized_class v = class (submission e).
Proof. unfold validate. repeat case_decide; try done. repeat (destruct (negb _); try done). by intros [= <-]. Qed.
Lemma validation_no_panic e p : validate e p ≠ Panic.
Proof. unfold validate. repeat case_decide; try done. by repeat (destruct (negb _); try done). Qed.

Lemma submit_spec n s : submitted n s (PoSeqNode.submit s n).1 (PoSeqNode.submit s n).2.
Proof.
  unfold PoSeqNode.submit, receive, ReplayGuard.check_and_record, SubmissionQueue.push.
  destruct (validate _ _) as [v|x|] eqn:Ev; cbn in *.
  - destruct (decide (compute_id s ∈ seen_ids (replay_guard n))) as [Hin|Hin]; cbn; [by constructor|].
    destruct (decide (0 < max_size (queue n) ∧ max_size (queue n) ≤ SubmissionQueue.len (queue n))%nat) as [Hf|Hf]; cbn.
    + by eapply sub_full.
    + unfold vid. destruct (validation_ok _ _ _ Ev) as [-> _]. cbn. constructor; [done|lia|done].
  - by constructor.
  - by apply validation_no_panic in Ev.
Qed.

Lemma guard_keeps_all g : max_history g = 0%nat → ReplayGuard.evict g = g.
Proof. intros Hg. unfold ReplayGuard.evict. rewrite decide_False; [done|lia]. Qed.

Lemma queued_insert (k : intake_key) (v : ValidatedSubmission) (m : gmap intake_key ValidatedSubmission) :
  m !! k = None → vid <$> (map_to_list (<[k := v]> m)).*2 ≡ₚ vid v :: (vid <$> (map_to_list m).*2).
Proof. intros Hk. by rewrite map_to_list_insert. Qed.

Lemma elem_of_queued n k v : entries (queue n) !! k = Some v → vid v ∈ queued n.
Proof.
  intros Hk. unfold queued. apply (list_elem_of_fmap_2 vid), (list_elem_of_fmap_2 snd (map_to_list _) (k, v)).
  by apply elem_of_map_to_list.
Qed.

Lemma submit_run_inv p w s : run_inv p w → run_inv p (exec w (OpSubmit s)).
Proof.
  intros I. unfold exec. pose proof (submit_spec (node w) s) as Hs.
  destruct (PoSeqNode.submit s (node w)) as [n r]. cbn in Hs.
  destruct I as [Hpol Hg Hcap Hf Hseen Honce Hkept Hh Hled Hl Hlink Hsz].
  inversion Hs as [x Hv|Hin|u Hnew Hu Hfull|v Hnew Hroom Hv]; subst; cbn.
  1,2: by split.
  - split; cbn; rewrite ?guard_keeps_all by done; try done. cbn. set_solver.
  - destruct (validation_ok _ _ _ Hv) as [Hve _].
    assert (vid v = compute_id s) as Hid by (unfold vid; by rewrite Hve).
    assert (compute_id s ∉ accepted w) as Hfresh by (intros ?; by apply Hnew, Hseen).
    assert (entries (queue (node w)) !! (intake_counter (node w), compute_id s) = None) as Hnone.
    { destruct (entries (queue (node w)) !! _) as [u|] eqn:E; [|done]. destruct Hfresh.
      rewrite Hkept. apply elem_of_app. right. pose proof (elem_of_queued _ _ _ E) as Hq.
      apply Hf in E. injection E as _ E. by rewrite E. }
    split; cbn; rewrite ?guard_keeps_all by done; try done.
    + intros k u [[<- <-]|[_ Hu]]%lookup_insert_Some; [by rewrite Hve, Hid|by apply Hf].
    + cbn. set_solver.
    + apply NoDup_app. split_and!; [done| |apply NoDup_singleton]. set_solver.
    + unfold queued. cbn. rewrite queued_insert, Hid by done. rewrite Hkept.
      rewrite <- app_assoc. by rewrite (Permutation_app_comm (queued _) [_]).
Qed.

Lemma build_spec p l h parent ep sequencer :
  l ≠ [] → (length l ≤ max_submissions_per_batch (batch_policy p))%nat →
  ∃ b, build p l h parent ep sequencer = Ok b ∧ ordered_submissions b = l ∧ height (header b) = h ∧
    parent_batch_id (header b) = parent ∧ policy_version (header b) = version p.
Proof.
  intros Hl Hlen. unfold build. rewrite decide_False by done. rewrite decide_False by lia.
  eexists. split; [done|]. by split_and!.
Qed.

Definition drained (p : PoSeqPolicy) (n : PoSeqNode) : SubmissionQueue * list ValidatedSubmission :=
  SubmissionQueue.drain (max_submissions_per_batch (batch_policy p)) (queue n).

(** A call produces a batch of what was drained, unless nothing was. *)
Lemma produce_spec p w ep sequencer :
  run_inv p w →
  let n := with_queue (drained p (node w)).1 (node w) in
  let l := (drained p (node w)).2 in
  (l = [] ∧ PoSeqNode.produce_batch ep sequencer (node w) = (n, Err (Ordering EmptyInput))) ∨
  (∃ b, PoSeqNode.produce_batch ep sequencer (node w) =
     (with_batch (advance (batch_id (header b)) (state n)) (BatchLedger.append (audit_of b) (ledger n)) n,
      Ok (b, receipt (audit_of b))) ∧
   l ≠ [] ∧ ordered_submissions b ≡ₚ l ∧ height (header b) = nth_height (S (length (batches w))) ∧
   parent_batch_id (header b) = last_batch_id (state (node w)) ∧ policy_version (header b) = version p).
Proof.
  intros [(Hpol & Hbp & Hoc) _ _ Hf _ Honce Hkept Hh _ _ _ _]. cbv zeta. unfold PoSeqNode.produce_batch, drained.
  rewrite Hpol. destruct (SubmissionQueue.drain _ _) as [q' l] eqn:Ed. cbn.
  destruct (drain_spec _ _ _ _ Ed) as (Hp & _ & _ & Hlen). unfold order. rewrite Hoc.
  destruct (decide (l = [])) as [->|Hl]; [by left|right]. cbn.
  assert (NoDup (vid <$> l)) as Hnd.
  { rewrite Hkept in Honce. apply NoDup_app in Honce as (_ & _ & Hq). unfold queued in Hq.
    rewrite Hp, fmap_app in Hq. by apply NoDup_app in Hq as (? & _ & _). }
  assert ((tree_of (ordering_policy p) l).*2 ≡ₚ l) as Hperm.
  { eapply (order_perm (ordering_policy p)); [done|]. unfold order. by rewrite decide_False. }
  assert (wrapu 64 (current_height (state (node w)) + 1) = nth_height (S (length (batches w)))) as Hheight.
  { rewrite Hh. unfold nth_height, wrapu. rewrite Zplus_mod_idemp_l. f_equal. lia. }
  rewrite Hbp, Hheight.
  edestruct (build_spec p (tree_of (ordering_policy p) l).*2 (nth_height (S (length (batches w))))
    (last_batch_id (state (node w))) ep sequencer) as (b & Eb & Hb & Hbh & Hbpar & Hbv).
  { intros E. rewrite E in Hperm. by apply Permutation_nil in Hperm. }
  { rewrite Hperm, Hlen. lia. }
  rewrite Eb. cbn. exists b. split_and!; try done; rewrite ?Hb; [|done].
  unfold audit_of. by rewrite Hbh, Hbv, Hb, Hpol.
Qed.

Lemma linked_app bs b i c : (i < length bs)%nat → linked bs i c → linked (bs ++ [b]) i c.
Proof.
  unfold linked. intros Hi [? ->]. split; [done|]. destruct i; [done|]. rewrite lookup_app_l; [done|lia].
Qed.

Lemma produce_run_inv p w ep sequencer : run_inv p w → run_inv p (exec w (OpProduce ep sequencer)).
Proof.
  intros I. unfold exec. pose proof (produce_spec p w ep sequencer I) as Hs. cbv zeta in Hs.
  destruct I as [Hpol Hg Hcap Hf Hseen Honce Hkept Hh Hled Hl Hlink Hsz].
  unfold drained in Hs. destruct (SubmissionQueue.drain _ _) as [q' l] eqn:Ed. cbn in Hs.
  destruct (drain_spec _ _ _ _ Ed) as (Hp & Hsub & Hms & Hlen).
  assert (queued (node w) ≡ₚ (vid <$> l) ++ queued (with_queue q' (node w))) as Hq.
  { unfold queued. cbn. by rewrite Hp, fmap_app. }
  assert (filed (entries q')) as Hf' by (intros k v Hk; eapply Hf, lookup_weaken; done).
  destruct Hs as [[-> ->]|(b & -> & Hne & Hb & Hbh & Hbp & Hbv)]; cbn.
  { split; cbn; try done; [by rewrite Hms|by rewrite <- Hq]. }
  assert (batch_ids b ≡ₚ vid <$> l) as Hids by (unfold batch_ids; by rewrite Hb).
  split; cbn; try done.
  - by rewrite Hms.
  - rewrite Hkept, Hq. unfold sequenced, queued. cbn. rewrite fmap_app, concat_app. cbn.
    rewrite app_nil_r, Hids. by rewrite app_assoc.
  - rewrite Hh, length_app. cbn. unfold nth_height, wrapu. rewrite Zplus_mod_idemp_l. f_equal. lia.
  - by rewrite Hled, foldl_app.
  - by rewrite last_snoc.
  - intros i c [Hi|[Hi Hc]]%lookup_app_Some.
    + apply linked_app; [by apply lookup_lt_Some in Hi|by apply Hlink].
    + apply list_lookup_singleton_Some in Hc as [Hi0 <-]. assert (i = length (batches w)) as -> by lia.
      split; [done|]. rewrite Hbp, Hl. destruct (batches w) as [|c bs] eqn:E; [done|].
      rewrite last_lookup. cbn [length pred]. by rewrite lookup_app_l by (cbn; lia).
  - apply Forall_app. split; [done|]. apply Forall_singleton. split.
    + intros E. rewrite E in Hids. apply Permutation_nil in Hids. by apply fmap_nil_inv in Hids.
    + rewrite Hids, length_fmap, Hlen. lia.
Qed.

Lemma run_inv_run p ops : run_inv p (run p ops).
Proof.
  unfold run. rewrite <- (reverse_involutive ops). induction (reverse ops) as [|o l IH]; [apply run_inv_start|].
  rewrite reverse_cons, foldl_app. cbn. destruct o; [by apply submit_run_inv|by apply produce_run_inv].
Qed.

(** C38: Every id that the node has accepted is in exactly one place: once in one of the
    batches, or in the queue. *)
Theorem sequenced_once p ops :
  let w := run p ops in
  accepted w ≡ₚ sequenced w ++ queued (node w) ∧ NoDup (accepted w) ∧
  Forall (λ b, batch_ids b ≠ [] ∧ (length (batch_ids b) ≤ max_submissions_per_batch (batch_policy p))%nat)
    (batches w).
Proof. cbv zeta. pose proof (run_inv_run p ops) as I. split_and!; apply I. Qed.

Lemma ledger_get bs i b :
  Z.of_nat (length bs) < 2 ^ 64 → (∀ i b, bs !! i = Some b → linked bs i b) → bs !! i = Some b →
  BatchLedger.get (foldl (λ m b, BatchLedger.append (audit_of b) m) BatchLedger.new bs) (Z.of_nat (S i)) =
  Some (audit_of b).
Proof.
  intros Hlen Hlink Hb.
  assert (∀ i b, bs !! i = Some b → height (header b) = Z.of_nat (S i)) as Hh.
  { intros j c Hj. destruct (Hlink _ _ Hj) as [-> _]. unfold nth_height. apply wrapu_id.
    apply lookup_lt_Some in Hj. split; lia. }
  clear Hlink Hlen. revert i b Hb Hh. induction bs as [|c bs IH] using rev_ind; intros i b Hb Hh; [done|].
  rewrite foldl_app. cbn. unfold BatchLedger.get, BatchLedger.append, BatchLedger in *. cbn.
  rewrite (Hh (length bs) c) by (by rewrite lookup_app_r, Nat.sub_diag).
  apply lookup_app_Some in Hb as [Hb|[Hi Hb]].
  - rewrite lookup_insert_ne by (apply lookup_lt_Some in Hb; lia). apply IH; [done|].
    intros j d Hj. apply Hh. by apply lookup_app_l_Some.
  - apply list_lookup_singleton_Some in Hb as [Hi0 <-]. assert (i = length bs) as -> by lia.
    by rewrite lookup_insert_eq.
Qed.

(** The batches of a run form a chain: heights count up from one, each names the one
    before it, and the ledger has each under its height. *)
Theorem batches_linked p ops i b :
  let w := run p ops in
  batches w !! i = Some b → Z.of_nat (length (batches w)) < 2 ^ 64 →
  height (header b) = Z.of_nat (S i) ∧
  parent_batch_id (header b) = match i with O => None | S j => (λ b, batch_id (header b)) <$> batches w !! j end ∧
  BatchLedger.get (ledger (node w)) (Z.of_nat (S i)) = Some (audit_of b).
Proof.
  cbv zeta. intros Hb Hlen. pose proof (run_inv_run p ops) as I. destruct (ri_linked _ _ I _ _ Hb) as [Hh Hp].
  split_and!; [|done|].
  - rewrite Hh. unfold nth_height. apply wrapu_id. apply lookup_lt_Some in Hb. split; lia.
  - rewrite (ri_ledger _ _ I). apply ledger_get; [done|apply I|done].
Qed.

Lemma produce_shrinks p w ep sequencer :
  run_inv p w →
  accepted (exec w (OpProduce ep sequencer)) = accepted w ∧
  SubmissionQueue.len (queue (node (exec w (OpProduce ep sequencer)))) =
    (SubmissionQueue.len (queue (node w)) - max_submissions_per_batch (batch_policy p))%nat.
Proof.
  intros I. unfold exec. pose proof (produce_spec p w ep sequencer I) as Hs. cbv zeta in Hs.
  unfold drained in Hs. destruct (SubmissionQueue.drain _ _) as [q' l] eqn:Ed. cbn in Hs.
  destruct (drain_spec _ _ _ _ Ed) as (Hp & _ & _ & Hlen).
  assert (SubmissionQueue.len q' = SubmissionQueue.len (queue (node w)) -
    max_submissions_per_batch (batch_policy p))%nat as Hq.
  { apply Permutation_length in Hp. rewrite length_app, !length_fmap, !length_map_to_list in Hp.
    unfold SubmissionQueue.len in *. lia. }
  destruct Hs as [[-> ->]|(b & -> & _)]; cbn; done.
Qed.

Lemma produces_shrink p w l :
  run_inv p w → Forall (λ o, match o with OpProduce _ _ => True | _ => False end) l →
  accepted (foldl exec w l) = accepted w ∧
  SubmissionQueue.len (queue (node (foldl exec w l))) =
    (SubmissionQueue.len (queue (node w)) - length l * max_submissions_per_batch (batch_policy p))%nat.
Proof.
  intros I Hl. revert w I. induction Hl as [|o l Ho Hl IH]; intros w I; cbn [foldl length]; [split; [done|lia]|].
  destruct o as [|ep sequencer]; [done|].
  destruct (produce_shrinks p w ep sequencer I) as [Ha Hq].
  destruct (IH _ (produce_run_inv p w ep sequencer I)) as [-> ->]. split; [done|]. rewrite Hq. lia.
Qed.

(** With a positive batch size enough calls empty the queue: every accepted
    submission is then in a batch. *)
Theorem queue_drains p ops l :
  Forall (λ o, match o with OpProduce _ _ => True | _ => False end) l →
  (length (queued (node (run p ops))) ≤ length l * max_submissions_per_batch (batch_policy p))%nat →
  let w := run p (ops ++ l) in
  accepted w = accepted (run p ops) ∧ accepted w ≡ₚ sequenced w.
Proof.
  intros Hl Hlen. cbv zeta. pose proof (run_inv_run p (ops ++ l)) as I.
  destruct (produces_shrink p (run p ops) l (run_inv_run p ops) Hl) as [Ha Hq].
  unfold run in *. rewrite foldl_app in *. split; [done|]. rewrite (ri_kept _ _ I).
  assert (queued (node (foldl exec (foldl exec (start p) ops) l)) = []) as ->; [|by rewrite app_nil_r].
  apply nil_length_inv. unfold queued in *. rewrite !length_fmap, length_map_to_list in *.
  unfold SubmissionQueue.len in Hq. lia.
Qed.

(** *** Resubmissions *)

Lemma exec_seen w o id :
  max_history (replay_guard (node w)) = 0%nat →
  id ∈ seen_ids (replay_guard (node w)) → id ∈ seen_ids (replay_guard (node (exec w o))).
Proof.
  intros Hg Hid. destruct o as [s|ep sequencer]; unfold exec.
  - pose proof (submit_spec (node w) s) as Hs. destruct (PoSeqNode.submit s (node w)) as [n r].
    cbn in Hs. inversion Hs; subst; cbn; rewrite ?guard_keeps_all by done; cbn; set_solver.
  - unfold PoSeqNode.produce_batch. destruct (SubmissionQueue.drain _ _) as [q l].
    repeat (case_match; simplify_eq; try done).
Qed.

(** The intake number plays no part in the checks. *)
Lemma validate_intake s k k' id p v :
  validate (mkEnvelope s k id) p = Ok v →
  validate (mkEnvelope s k' id) p = Ok (mkValidated (mkEnvelope s k' id) (normalized_class v) (payload_size v)).
Proof.
  unfold validate. cbn. repeat case_decide; try done. repeat (destruct (negb _); try done). by intros [= <-].
Qed.

(** An id that the guard has seen stays refused. *)
Lemma seen_refused p ops ops' s k v :
  compute_id s ∈ seen_ids (replay_guard (node (run p ops))) →
  validate (mkEnvelope s k (compute_id s)) p = Ok v →
  (PoSeqNode.submit s (node (run p (ops ++ ops')))).2 = Err (Duplicate (compute_id s)).
Proof.
  intros Hseen Hv.
  assert (compute_id s ∈ seen_ids (replay_guard (node (run p (ops ++ ops'))))) as Hs.
  { revert Hseen. rewrite <- (reverse_involutive ops'). induction (reverse ops') as [|o l IH]; intros Hseen.
    - rewrite reverse_nil. by rewrite app_nil_r.
    - rewrite reverse_cons, app_assoc. unfold run. rewrite foldl_app. cbn.
      apply exec_seen; [|by apply IH]. apply (ri_guard _ _ (run_inv_run p (ops ++ reverse l))). }
  pose proof (ri_policy _ _ (run_inv_run p (ops ++ ops'))) as (Hp & _ & _).
  unfold PoSeqNode.submit, receive. cbn. rewrite Hp.
  rewrite (validate_intake _ _ _ _ _ _ Hv). unfold ReplayGuard.check_and_record. cbn. by rewrite decide_True.
Qed.

(** The guard records an id before the queue has taken the submission: one that is
    turned away because the queue is full is a duplicate from then on, whatever happens,
    and is never sequenced. *)
Theorem full_queue_burns p ops s c n' :
  PoSeqNode.submit s (node (run p ops)) = (n', Err (QueueFull c)) →
  let w := run p (ops ++ [OpSubmit s]) in
  (compute_id s ∉ accepted w) ∧
  ∀ ops', (PoSeqNode.submit s (node (run p (ops ++ [OpSubmit s] ++ ops')))).2 = Err (Duplicate (compute_id s)).
Proof.
  intros Hsub. cbv zeta. pose proof (submit_spec (node (run p ops)) s) as Hs. rewrite Hsub in Hs. cbn in Hs.
  inversion Hs as [| |v Hnew Hv Hfull Hn Hc|].
  assert (node (run p (ops ++ [OpSubmit s])) = n') as Hn'.
  { unfold run in *. rewrite foldl_app. cbn [foldl exec]. by rewrite Hsub. }
  assert (accepted (run p (ops ++ [OpSubmit s])) = accepted (run p ops)) as Ha.
  { unfold run in *. rewrite foldl_app. cbn [foldl exec]. by rewrite Hsub. }
  split.
  - rewrite Ha. intros Hin. by apply Hnew, (ri_seen _ _ (run_inv_run p ops)).
  - intros ops'. rewrite app_assoc. eapply (seen_refused p (ops ++ [OpSubmit s]) ops' s).
    + rewrite Hn', <- Hn. cbn. pose proof (ri_guard _ _ (run_inv_run p ops)) as Hg.
      rewrite guard_keeps_all by done. cbn. set_solver.
    + pose proof (ri_policy _ _ (run_inv_run p ops)) as (Hp & _ & _). rewrite Hp in Hv. exact Hv.
Qed.

(** The same payload under another class, fee priority, given id and signature. *)
Definition altered (id' : id32) (c : SubmissionClass) (m : SubmissionMetadata) (sig : bytes)
    (s : SequencingSubmission) : SequencingSubmission :=
  mkSubmission id' (sender s) (kind s) c (payload_hash s) (payload_body s) (nonce s) (max_fee s)
    (deadline_epoch s) m sig.

(** The id that the node computes covers neither class, metadata nor signature, and no
    signature is checked: once anybody's altered copy of a submission is accepted, the
    sender's own is refused for ever as a duplicate. *)
Theorem altered_copy_blocks p ops ops' s id' c m sig :
  validate (mkEnvelope s 0 (compute_id s)) p = Ok (mkValidated (mkEnvelope s 0 (compute_id s)) (class s) (length (payload_body s))) →
  compute_id s ∈ accepted (run p (ops ++ [OpSubmit (altered id' c m sig s)])) →
  (PoSeqNode.submit s (node (run p (ops ++ [OpSubmit (altered id' c m sig s)] ++ ops')))).2 =
    Err (Duplicate (compute_id s)).
Proof.
  intros Hv Hacc. rewrite app_assoc. eapply seen_refused; [|exact Hv].
  by apply (ri_seen _ _ (run_inv_run p _)).
Qed.

(** A submission is valid exactly when its id, sender and payload hash are not zero,
    its body fits and hashes to the payload hash, and its class is not forbidden. *)
Theorem validate_ok_iff e p v :
  validate e p = Ok v ↔
  v = mkValidated e (class (submission e)) (length (payload_body (submission e))) ∧
  submission_id (submission e) ≠ 0 ∧ sender (submission e) ≠ 0 ∧ payload_hash (submission e) ≠ 0 ∧
  (length (payload_body (submission e)) ≤ max_payload_bytes_per_submission (batch_policy p))%nat ∧
  (∀ q, PoSeqPolicy.find_class p (class (submission e)) = Some q → allowed q = true) ∧
  sha256 (payload_body (submission e)) = payload_hash (submission e).
Proof.
  unfold validate, PoSeqPolicy.is_class_allowed, validate_payload_hash.
  repeat (case_decide; [split; [done|naive_solver lia]|]).
  assert (default true (allowed <$> PoSeqPolicy.find_class p (class (submission e))) = true ↔
    ∀ q, PoSeqPolicy.find_class p (class (submission e)) = Some q → allowed q = true) as Ha.
  { destruct (PoSeqPolicy.find_class _ _); cbn; naive_solver. }
  destruct (default true _) eqn:Ed; cbn; [|split; [done|naive_solver]].
  case_bool_decide; cbn; [|split; [done|naive_solver]].
  split; [intros [= <-]; split_and!; try done; [lia|by apply Ha]|by intros (-> & _)].
Qed.
End runs.

(** ** Witnesses *)

#[local] Existing Instance sample_sha256.
#[local] Existing Instance sample_codec.
Definition two_policy (max_queue : nat) : PoSeqPolicy := sample_policy 2 max_queue (mkOrderingPolicy SenderAscending true).
Definition sub_of (who n : Z) : op := OpSubmit (sample_raw who n 0 Transfer).
Definition three_subs : list op := [sub_of alice 0; sub_of bob 1; sub_of bob 1; sub_of alice 2].

(** Three accepted submissions and a duplicate, and one batch of two. *)
Example sequenced_once_sample :
  let w := run (two_policy 9) (three_subs ++ [OpProduce 7 None]) in
  length (accepted w) = 3%nat ∧ length (sequenced w) = 2%nat ∧ length (queued (node w)) = 1%nat.
Proof. vm_compute. done. Qed.

Lemma batches_linked_witness :
  let w := run (two_policy 9) (three_subs ++ [OpProduce 7 None; OpProduce 8 None]) in
  ∃ b c, batches w !! 0%nat = Some b ∧ batches w !! 1%nat = Some c ∧
  height (header c) = 2 ∧ parent_batch_id (header c) = Some (batch_id (header b)).
Proof.
  cbv zeta. destruct (batches (run (two_policy 9) (three_subs ++ [OpProduce 7 None; OpProduce 8 None])) !! 0%nat) as [b|] eqn:Eb;
    [|vm_compute in Eb; discriminate].
  destruct (batches (run (two_policy 9) (three_subs ++ [OpProduce 7 None; OpProduce 8 None])) !! 1%nat) as [c|] eqn:Ec;
    [|vm_compute in Ec; discriminate].
  assert (Z.of_nat (length (batches (run (two_policy 9) (three_subs ++ [OpProduce 7 None; OpProduce 8 None])))) < 2 ^ 64) as Hlen
    by (vm_compute; reflexivity).
  destruct (batches_linked (two_policy 9) (three_subs ++ [OpProduce 7 None; OpProduce 8 None]) 1 c Ec Hlen) as (Hh & Hp & _).
  exists b, c. split; [done|]. split; [done|]. split; [exact Hh|]. rewrite Hp, Eb. done.
Defined.

Lemma queue_drains_witness :
  accepted (run (two_policy 9) (three_subs ++ [OpProduce 7 None; OpProduce 8 None])) ≡ₚ
  sequenced (run (two_policy 9) (three_subs ++ [OpProduce 7 None; OpProduce 8 None])).
Proof.
  refine (proj2 (queue_drains (two_policy 9) three_subs [OpProduce 7 None; OpProduce 8 None] _ _)).
  - by repeat constructor.
  - vm_compute. lia.
Defined.

(** A queue of one takes Alice's submission; Bob's is refused, and still is once the
    queue is empty. *)
Lemma full_queue_burns_witness :
  let s := sample_raw bob 1 0 Transfer in
  (PoSeqNode.submit s (node (run (two_policy 1) [sub_of alice 0]))).2 = Err (QueueFull 1) ∧
  (PoSeqNode.submit s (node (run (two_policy 1) ([sub_of alice 0] ++ [OpSubmit s] ++ [OpProduce 7 None])))).2 =
    Err (Duplicate (compute_id s)).
Proof.
  cbv zeta. split; [vm_compute; reflexivity|].
  destruct (PoSeqNode.submit (sample_raw bob 1 0 Transfer) (node (run (two_policy 1) [sub_of alice 0]))) as [n' r] eqn:E.
  assert (r = Err (QueueFull 1)) as Hr by (change r with (n', r).2; rewrite <- E; vm_compute; reflexivity).
  subst r. exact (proj2 (full_queue_burns (two_policy 1) [sub_of alice 0] _ 1 n' E) [OpProduce 7 None]).
Defined.

Lemma altered_copy_blocks_witness :
  (PoSeqNode.submit (sample_raw bob 1 0 Transfer)
    (node (run (two_policy 9) ([] ++ [OpSubmit (altered 5 (Other "raw") (sample_meta 0) [] (sample_raw bob 1 0 Transfer))] ++ [])))).2 =
  Err (Duplicate (compute_id (sample_raw bob 1 0 Transfer))).
Proof.
  refine (altered_copy_blocks (two_policy 9) [] [] (sample_raw bob 1 0 Transfer) 5 (Other "raw") (sample_meta 0) [] _ _).
  - vm_compute. reflexivity.
  - by_decide.
Defined.
