(* ===== verification/Fairness.v ===== *)
(** * Fairness of the sequence

    The fairness classes and policy, the classifier, the inclusion engine, the log of
    inclusions and exclusions with the search for censorship in it, the queue snapshot a
    leader commits to, and the register of protected flows (src/poseq/src/fairness/,
    inclusion/, queue_snapshot/, protected_flows/).  The theorems say when a submission is
    forced into a batch, that a snapshot is canonical, and what the search reports. *)

From stdpp Require Import gmap strings list sorting pretty.
From S2P Require Import Prelude Concrete Sorting Submissions.

(** ** Classes and policy *)

(* @src src/poseq/src/fairness/policy.rs:6-16 FairnessClass *)
Inductive FairnessClass : Type :=
| BridgeAdjacent | DomainSensitive | GovernanceSensitive | LatencySensitive | Normal
| ProtectedUserFlow | RestrictedPriority | SafetyCritical | SolverRelated.
#[export] Instance FairnessClass_eq_dec : EqDecision FairnessClass.
Proof. solve_decision. Defined.
(** The derived order is that of the declaration. *)
Definition class_index (c : FairnessClass) : Z :=
  match c with
  | BridgeAdjacent => 0 | DomainSensitive => 1 | GovernanceSensitive => 2 | LatencySensitive => 3
  | Normal => 4 | ProtectedUserFlow => 5 | RestrictedPriority => 6 | SafetyCritical => 7
  | SolverRelated => 8
  end.
Definition all_classes : list FairnessClass :=
  [BridgeAdjacent; DomainSensitive; GovernanceSensitive; LatencySensitive; Normal; ProtectedUserFlow;
   RestrictedPriority; SafetyCritical; SolverRelated].
#[export] Instance FairnessClass_countable : Countable FairnessClass.
Proof.
  refine (inj_countable' class_index (λ z, default Normal (all_classes !! Z.to_nat z)) _).
  by intros [].
Defined.
Definition debug_fairness (c : FairnessClass) : string :=
  match c with
  | BridgeAdjacent => "BridgeAdjacent" | DomainSensitive => "DomainSensitive"
  | GovernanceSensitive => "GovernanceSensitive" | LatencySensitive => "LatencySensitive"
  | Normal => "Normal" | ProtectedUserFlow => "ProtectedUserFlow"
  | RestrictedPriority => "RestrictedPriority" | SafetyCritical => "SafetyCritical"
  | SolverRelated => "SolverRelated"
  end.

(* @src src/poseq/src/fairness/policy.rs:20-28 SubmissionFairnessClass *)
Record SubmissionFairnessClass : Type := mkClassRule {
  cr_class : FairnessClass;
  cr_priority_weight : Z;
  protected : bool;
  max_wait_slots : Z }.
(* @src src/poseq/src/fairness/policy.rs:32-36 ReorderBound *)
Record ReorderBound : Type := mkBound {
  max_positions_forward : Z;
  max_positions_backward : Z;
  applies_to_class : option FairnessClass }.
(* @src src/poseq/src/fairness/policy.rs:39-45 ReorderBound::default_bound *)
Definition default_bound : ReorderBound := mkBound 5 5 None.
(* @src src/poseq/src/fairness/policy.rs:50-59 OrderingFairnessRule *)
Inductive OrderingFairnessRule : Type :=
| StrictFIFOWithinClass | BoundedPriority (n : Z) | ProtectedClassFirst | AntiStarvationPromote.
(* @src src/poseq/src/fairness/policy.rs:63-69 FairnessConstraintSet *)
Record FairnessConstraintSet : Type := mkConstraints {
  rules : list OrderingFairnessRule;
  enforce_snapshot_ordering : bool;
  max_omission_streak : Z }.
(* @src src/poseq/src/fairness/policy.rs:72-82 FairnessConstraintSet::default_constraints *)
Definition default_constraints : FairnessConstraintSet :=
  mkConstraints [ProtectedClassFirst; StrictFIFOWithinClass; AntiStarvationPromote] true 3.
(* @src src/poseq/src/fairness/policy.rs:87-96 FairSequencingPolicy *)
Record FairSequencingPolicy : Type := mkFairPolicy {
  fp_version : Z;
  class_rules : gmap FairnessClass SubmissionFairnessClass;
  reorder_bound : ReorderBound;
  anti_starvation_slots : Z;
  max_leader_discretion_bps : Z;
  protected_flow_enabled : bool }.

Definition rules_of (l : list (FairnessClass * Z * bool * Z)) : gmap FairnessClass SubmissionFairnessClass :=
  foldl (λ m '(c, w, p, wait), <[c := mkClassRule c w p wait]> m) ∅ l.
Module FairSequencingPolicy.
(* @src src/poseq/src/fairness/policy.rs:100-135 FairSequencingPolicy::default_policy *)
Definition default_policy : FairSequencingPolicy :=
  mkFairPolicy 1
    (rules_of
      [(Normal, 1000, false, 0); (LatencySensitive, 3000, false, 10); (SolverRelated, 2000, false, 20);
       (GovernanceSensitive, 4000, true, 5); (SafetyCritical, 9000, true, 2);
       (ProtectedUserFlow, 8000, true, 3); (RestrictedPriority, 500, false, 50);
       (BridgeAdjacent, 5000, true, 4); (DomainSensitive, 2500, false, 30)])
    default_bound 100 1000 true.
(* @src src/poseq/src/fairness/policy.rs:139-146 FairSequencingPolicy::get_class_rule *)
Definition get_class_rule (p : FairSequencingPolicy) (c : FairnessClass)
  : total_or_panic SubmissionFairnessClass :=
  match class_rules p !! c with
  | Some r => Ok r
  | None => expect (class_rules p !! Normal)
  end.
(* @src src/poseq/src/fairness/policy.rs:149-151 FairSequencingPolicy::is_protected *)
Definition is_protected (p : FairSequencingPolicy) (c : FairnessClass) : bool :=
  default false (protected <$> class_rules p !! c).
End FairSequencingPolicy.

(** ** Classification *)

(* @src src/poseq/src/fairness/classification.rs:6-13 ClassAssignmentRule *)
Record ClassAssignmentRule : Type := mkRule {
  rule_name : string;
  matches_metadata_key : option string;
  matches_metadata_value : option string;
  assigned_class : FairnessClass;
  rule_priority : Z }.
(* @src src/poseq/src/fairness/classification.rs:19-24 FairnessBucket *)
Record FairnessBucket : Type := mkBucket {
  bucket_class : FairnessClass;
  bucket_ids : gset id32 }.

Module FairnessClassifier.
(** The classifier is its rules, from the highest priority down. *)
(* @src src/poseq/src/fairness/classification.rs:35-38 FairnessClassifier::new *)
Definition new (l : list ClassAssignmentRule) : list ClassAssignmentRule :=
  sort_by (λ a b, rule_priority b ?= rule_priority a) l.
Definition matches (metadata : gmap string string) (r : ClassAssignmentRule) : bool :=
  match matches_metadata_key r, matches_metadata_value r with
  | None, _ => true
  | Some k, None => bool_decide (is_Some (metadata !! k))
  | Some k, Some v => bool_decide (metadata !! k = Some v)
  end.
(* @src src/poseq/src/fairness/classification.rs:42-62 FairnessClassifier::classify *)
Definition classify (l : list ClassAssignmentRule) (metadata : gmap string string) : FairnessClass :=
  default Normal (assigned_class <$> List.find (matches metadata) l).
(* @src src/poseq/src/fairness/classification.rs:65-73 FairnessClassifier::classify_all *)
Definition classify_all (l : list ClassAssignmentRule) (m : gmap id32 (gmap string string))
  : gmap id32 FairnessClass := classify l <$> m.
(* @src src/poseq/src/fairness/classification.rs:76-91 FairnessClassifier::build_buckets *)
Definition build_buckets (m : gmap id32 FairnessClass) : gmap FairnessClass FairnessBucket :=
  foldl (λ b '(id, c), <[c := mkBucket c ({[id]} ∪ default ∅ (bucket_ids <$> b !! c))]> b) ∅ (btree_list m).
End FairnessClassifier.

(* @src src/poseq/src/fairness/classification.rs:96-106 SubmissionFairnessProfile *)
Record SubmissionFairnessProfile : Type := mkProfile {
  sp_submission_id : id32;
  sp_class : FairnessClass;
  received_at_slot : Z;
  sp_received_at_sequence : Z;
  sp_age_slots : Z;
  is_forced_inclusion : bool;
  classification_rule : string }.
(* @src src/poseq/src/fairness/classification.rs:109-128 SubmissionFairnessProfile::new *)
Definition new_profile (id : id32) (c : FairnessClass) (slot sequence now : Z) (forced : bool) (rule : string)
  : SubmissionFairnessProfile := mkProfile id c slot sequence (sat_sub now slot) forced rule.

(** ** Inclusion *)

(* @src src/poseq/src/inclusion/engine.rs:15-21 ExclusionReason *)
Inductive ExclusionReason : Type :=
| NotYetEligible | PolicyExcluded | ClassRestricted | BatchFull | SnapshotNotIncluded.
(* @src src/poseq/src/inclusion/engine.rs:7-11 InclusionDecision *)
Inductive InclusionDecision : Type :=
| Include | Exclude (r : ExclusionReason) | ForceInclude (reason : string).
#[export] Instance ExclusionReason_eq_dec : EqDecision ExclusionReason.
Proof. solve_decision. Defined.
#[export] Instance InclusionDecision_eq_dec : EqDecision InclusionDecision.
Proof. solve_decision. Defined.
(* @src src/poseq/src/inclusion/engine.rs:25-32 InclusionEligibilityRecord *)
Record InclusionEligibilityRecord : Type := mkEligibility {
  ie_submission_id : id32;
  ie_class : FairnessClass;
  ie_received_at_slot : Z;
  ie_age_slots : Z;
  ie_decision : InclusionDecision;
  forced : bool }.

(* @src src/poseq/src/inclusion/engine.rs:36-39 SubmissionAgeTracker *)
Definition SubmissionAgeTracker : Type := gmap id32 (Z * Z).
Module SubmissionAgeTracker.
Implicit Types t : gmap id32 (Z * Z).
(* @src src/poseq/src/inclusion/engine.rs:42-44 SubmissionAgeTracker::new *)
Definition new : SubmissionAgeTracker := ∅.
(* @src src/poseq/src/inclusion/engine.rs:47-49 SubmissionAgeTracker::register *)
Definition register (id : id32) (slot sequence : Z) t : gmap id32 (Z * Z) :=
  <[id := default (slot, sequence) (t !! id)]> t.
(* @src src/poseq/src/inclusion/engine.rs:52-57 SubmissionAgeTracker::get_age *)
Definition get_age (id : id32) (now : Z) t : Z :=
  default 0 ((λ p : Z * Z, sat_sub now p.1) <$> t !! id).
(* @src src/poseq/src/inclusion/engine.rs:60-62 SubmissionAgeTracker::remove *)
Definition remove (id : id32) t : gmap id32 (Z * Z) := delete id t.
(* @src src/poseq/src/inclusion/engine.rs:65-73 SubmissionAgeTracker::get_stale_beyond *)
Definition get_stale_beyond (now max_wait : Z) t : list id32 :=
  (filter (λ p : id32 * (Z * Z), max_wait < sat_sub now p.2.1) (btree_list t)).*1.
End SubmissionAgeTracker.

(* @src src/poseq/src/inclusion/engine.rs:78-83 ForcedInclusionCandidate *)
Record ForcedInclusionCandidate : Type := mkForced {
  fc_submission_id : id32;
  fc_age_slots : Z;
  fc_class : FairnessClass;
  forced_reason : string }.
(* @src src/poseq/src/inclusion/engine.rs:87-90 InclusionPolicyEngine *)
Record InclusionPolicyEngine : Type := mkInclusion {
  ip_policy : FairSequencingPolicy;
  age_tracker : SubmissionAgeTracker }.

Module InclusionPolicyEngine.
(* @src src/poseq/src/inclusion/engine.rs:93-98 InclusionPolicyEngine::new *)
Definition new (p : FairSequencingPolicy) : InclusionPolicyEngine := mkInclusion p SubmissionAgeTracker.new.

Definition starving (p : FairSequencingPolicy) (now : Z) (entry : id32 * SubmissionFairnessProfile)
  : total_or_panic (option ForcedInclusionCandidate) :=
  let '(id, profile) := entry in
  let threshold := anti_starvation_slots p in
  let age := sat_sub now (received_at_slot profile) in
  if decide (threshold < age) then
    rule ← FairSequencingPolicy.get_class_rule p (sp_class profile);
    let limit := max_wait_slots rule in
    if decide (threshold < age ∨ (0 < limit ∧ limit < age)) then
      mret (Some (mkForced id age (sp_class profile)
        ("anti_starvation: age " +:+ pretty age +:+ " > threshold " +:+ pretty threshold)))
    else mret None
  else mret None.
Fixpoint starving_all (p : FairSequencingPolicy) (now : Z) (l : list (id32 * SubmissionFairnessProfile))
  : total_or_panic (list ForcedInclusionCandidate) :=
  match l with
  | [] => mret []
  | x :: l =>
      o ← starving p now x;
      rest ← starving_all p now l;
      mret (match o with Some c => c :: rest | None => rest end)
  end.
Definition by_age (a b : ForcedInclusionCandidate) : comparison :=
  then_with (fc_age_slots b ?= fc_age_slots a) (fc_submission_id a ?= fc_submission_id b).
(* @src src/poseq/src/inclusion/engine.rs:178-213 InclusionPolicyEngine::check_anti_starvation *)
Definition check_anti_starvation (e : InclusionPolicyEngine)
    (profiles : gmap id32 SubmissionFairnessProfile) (now : Z)
  : total_or_panic (list ForcedInclusionCandidate) :=
  l ← starving_all (ip_policy e) now (btree_list profiles);
  mret (sort_by by_age l).

(** One turn of the loop: the record and the number included after it. *)
Definition decide_one (e : InclusionPolicyEngine) (profiles : gmap id32 SubmissionFairnessProfile)
    (forced_set : gset id32) (now : Z) (capacity count : nat) (id : id32)
  : InclusionEligibilityRecord * nat :=
  let '(slot, age, class, is_forced) :=
    match profiles !! id with
    | Some p => (received_at_slot p, sp_age_slots p, sp_class p,
                 is_forced_inclusion p || bool_decide (id ∈ forced_set))
    | None =>
        let age := SubmissionAgeTracker.get_age id now (age_tracker e) in
        (sat_sub now age, age, Normal, bool_decide (id ∈ forced_set))
    end in
  if is_forced : bool then (mkEligibility id class slot age (ForceInclude "anti_starvation") true, S count)
  else if decide (capacity ≤ count)%nat then (mkEligibility id class slot age (Exclude BatchFull) false, count)
  else (mkEligibility id class slot age Include false, S count).
Fixpoint decide_all (e : InclusionPolicyEngine) (profiles : gmap id32 SubmissionFairnessProfile)
    (forced_set : gset id32) (now : Z) (capacity count : nat) (ids : list id32)
  : list InclusionEligibilityRecord :=
  match ids with
  | [] => []
  | id :: ids =>
      let '(r, count') := decide_one e profiles forced_set now capacity count id in
      r :: decide_all e profiles forced_set now capacity count' ids
  end.
(* @src src/poseq/src/inclusion/engine.rs:105-175 InclusionPolicyEngine::compute_eligible_set *)
Definition compute_eligible_set (e : InclusionPolicyEngine) (candidates : gset id32)
    (profiles : gmap id32 SubmissionFairnessProfile) (now : Z) (capacity : nat)
  : total_or_panic (list InclusionEligibilityRecord * list ForcedInclusionCandidate) :=
  l ← check_anti_starvation e profiles now;
  let forced_set := list_to_set (fc_submission_id <$> l) in
  mret (decide_all e profiles forced_set now capacity 0 (sorted_elements candidates), l).
End InclusionPolicyEngine.

(** ** The log of a batch window *)

(* @src src/poseq/src/fairness/log.rs:11-26 ReasonCode *)
Inductive ReasonCode : Type :=
| RIncluded | RExpiredIntent | RInvalidReveal | RFailedDA | ROrderingPriority | RDuplicateIntent
| RSolverInactive.
#[export] Instance ReasonCode_eq_dec : EqDecision ReasonCode.
Proof. solve_decision. Defined.
Definition debug_reason (r : ReasonCode) : string :=
  match r with
  | RIncluded => "Included" | RExpiredIntent => "ExpiredIntent" | RInvalidReveal => "InvalidReveal"
  | RFailedDA => "FailedDA" | ROrderingPriority => "OrderingPriority"
  | RDuplicateIntent => "DuplicateIntent" | RSolverInactive => "SolverInactive"
  end.
(* @src src/poseq/src/fairness/log.rs:30-39 FairnessLogEntry *)
Record FairnessLogEntry : Type := mkLogEntry {
  bundle_id : id32;
  le_solver_id : id32;
  eligibility : bool;
  inclusion : bool;
  reason_code : ReasonCode }.
(** The entries, oldest first. *)
(* @src src/poseq/src/fairness/log.rs:60-62 FairnessLog *)
Definition FairnessLog : Type := list FairnessLogEntry.

(** The bincode form of a reason code. *)
Class ReasonCodec := reason_bytes : ReasonCode → bytes.

Module FairnessLog.
Implicit Types l : list FairnessLogEntry.
(* @src src/poseq/src/fairness/log.rs:65-67 FairnessLog::new *)
Definition new : FairnessLog := [].
(* @src src/poseq/src/fairness/log.rs:70-78 FairnessLog::record_included *)
Definition record_included (bundle solver : id32) l : FairnessLog :=
  l ++ [mkLogEntry bundle solver true true RIncluded].
(* @src src/poseq/src/fairness/log.rs:81-94 FairnessLog::record_excluded *)
Definition record_excluded (bundle solver : id32) (reason : ReasonCode) l : FairnessLog :=
  l ++ [mkLogEntry bundle solver (bool_decide (reason = ROrderingPriority)) false reason].
(* @src src/poseq/src/fairness/log.rs:121-123 FairnessLog::len *)
Definition len l : nat := length l.
(* @src src/poseq/src/fairness/log.rs:125-127 FairnessLog::is_empty *)
Definition is_empty l : bool := bool_decide (l = []).
(* @src src/poseq/src/fairness/log.rs:130-132 FairnessLog::included_count *)
Definition included_count l : nat := length (filter (λ e, inclusion e = true) l).
(* @src src/poseq/src/fairness/log.rs:135-137 FairnessLog::excluded_count *)
Definition excluded_count l : nat := length (filter (λ e, inclusion e = false) l).
(* @src src/poseq/src/fairness/log.rs:140-144 FairnessLog::exclusions_for_solver *)
Definition exclusions_for_solver (solver : id32) l : list FairnessLogEntry :=
  filter (λ e, le_solver_id e = solver ∧ inclusion e = false) l.
Section hashed.
Context `{Sha256, ReasonCodec}.
(* @src src/poseq/src/fairness/log.rs:43-55 FairnessLogEntry::hash *)
Definition entry_hash (e : FairnessLogEntry) : id32 :=
  sha256 (be_bytes 32 (bundle_id e) ++ be_bytes 32 (le_solver_id e) ++ [Z.b2z (eligibility e)] ++
          [Z.b2z (inclusion e)] ++ reason_bytes (reason_code e)).
(* @src src/poseq/src/fairness/log.rs:100-113 FairnessLog::compute_fairness_root *)
Definition compute_fairness_root l : id32 :=
  if decide (l = []) then 0 else sha256 (concat ((λ e, be_bytes 32 (entry_hash e)) <$> l)).
End hashed.
End FairnessLog.

(** ** Evidence of censorship *)

(* @src src/poseq/src/fairness/evidence.rs:22-29 CensorshipType *)
Inductive CensorshipType : Type := RepeatedExclusion | TotalExclusion | UnjustifiedExclusion.
#[export] Instance CensorshipType_eq_dec : EqDecision CensorshipType.
Proof. solve_decision. Defined.
(* @src src/poseq/src/fairness/evidence.rs:12-18 CensorshipEvidence *)
Record CensorshipEvidence : Type := mkEvidence {
  evidence_type : CensorshipType;
  affected_solver_id : id32;
  affected_bundle_ids : list id32;
  ev_sequence_id : Z;
  description : string }.

Section evidence.
Context `{HexBytes}.
(** [hex::encode(&id[..4])] *)
Definition hex4 (id : id32) : string := hex_bytes (take 4 (be_bytes 32 id)).
Definition add_exclusion (m : gmap id32 (list id32)) (e : FairnessLogEntry) : gmap id32 (list id32) :=
  if inclusion e then m
  else <[le_solver_id e := default [] (m !! le_solver_id e) ++ [bundle_id e]]> m.
Definition exclusions_by_solver (l : list FairnessLogEntry) : gmap id32 (list id32) := foldl add_exclusion ∅ l.
Definition unjustified (e : FairnessLogEntry) : bool :=
  eligibility e && negb (inclusion e) && bool_decide (reason_code e ≠ ROrderingPriority).
(* @src src/poseq/src/fairness/evidence.rs:34-101 detect_censorship *)
Definition detect_censorship (l : list FairnessLogEntry) (sequence : Z) (max : nat) : list CensorshipEvidence :=
  (if decide (l ≠ [] ∧ FairnessLog.included_count l = 0%nat) then
     [mkEvidence TotalExclusion 0 (bundle_id <$> l) sequence
        ("all " +:+ pretty (length l) +:+ " bundles excluded from sequence " +:+ pretty sequence)]
   else []) ++
  ((λ p : id32 * list id32, mkEvidence RepeatedExclusion p.1 p.2 sequence
      ("solver " +:+ hex4 p.1 +:+ " excluded " +:+ pretty (length p.2) +:+ " times in sequence " +:+ pretty sequence))
    <$> filter (λ p : id32 * list id32, max ≤ length p.2)%nat (btree_list (exclusions_by_solver l))) ++
  ((λ e, mkEvidence UnjustifiedExclusion (le_solver_id e) [bundle_id e] sequence
      ("bundle " +:+ hex4 (bundle_id e) +:+ " eligible but excluded with reason " +:+ debug_reason (reason_code e)))
    <$> filter (λ e, unjustified e = true) l).
End evidence.

(** ** Queue snapshots *)

(* @src src/poseq/src/queue_snapshot/snapshot.rs:6-13 EligibleSubmissionEntry *)
Record EligibleSubmissionEntry : Type := mkEligible {
  el_id : id32;
  el_class : FairnessClass;
  el_slot : Z;
  el_sequence : Z;
  el_age : Z;
  el_forced : bool }.
(* @src src/poseq/src/queue_snapshot/snapshot.rs:23-33 QueueSnapshot *)
Record QueueSnapshot : Type := mkSnapshot {
  snapshot_id : id32;
  sn_slot : Z;
  sn_epoch : Z;
  sn_height : Z;
  sn_entries : list EligibleSubmissionEntry;
  snapshot_root : id32;
  sn_policy_version : Z }.
(* @src src/poseq/src/queue_snapshot/snapshot.rs:187-195 is_protected_class *)
Definition is_protected_class (c : FairnessClass) : bool :=
  match c with
  | SafetyCritical | ProtectedUserFlow | BridgeAdjacent | GovernanceSensitive => true
  | _ => false
  end.
(* @src src/poseq/src/queue_snapshot/snapshot.rs:50-58 QueueSnapshot::build *)
Definition snapshot_cmp (a b : EligibleSubmissionEntry) : comparison :=
  then_with (Z.b2z (is_protected_class (el_class b)) ?= Z.b2z (is_protected_class (el_class a)))
    (then_with (class_index (el_class a) ?= class_index (el_class b))
      (then_with (el_sequence a ?= el_sequence b) (el_id a ?= el_id b))).
(* @src src/poseq/src/queue_snapshot/snapshot.rs:112-121 SnapshotCommitment *)
Record SnapshotCommitment : Type := mkCommitment {
  sc_snapshot_id : id32;
  sc_snapshot_root : id32;
  sc_slot : Z;
  sc_epoch : Z;
  committed_by : id32;
  commitment_hash : id32 }.
(* @src src/poseq/src/queue_snapshot/snapshot.rs:165-170 SnapshotOrderingView *)
Record SnapshotOrderingView : Type := mkView {
  snapshot : QueueSnapshot;
  view_commitment : SnapshotCommitment;
  eligible_count : nat;
  forced_inclusion_count : nat }.

Module QueueSnapshot.
(* @src src/poseq/src/queue_snapshot/snapshot.rs:100-102 QueueSnapshot::ordered_ids *)
Definition ordered_ids (s : QueueSnapshot) : list id32 := el_id <$> sn_entries s.
(* @src src/poseq/src/queue_snapshot/snapshot.rs:105-107 QueueSnapshot::contains *)
Definition contains (s : QueueSnapshot) (id : id32) : bool := existsb (λ e, bool_decide (el_id e = id)) (sn_entries s).
Section hashed.
Context `{Sha256}.
(* @src src/poseq/src/queue_snapshot/snapshot.rs:75-84 QueueSnapshot::compute_root *)
Definition compute_root (l : list EligibleSubmissionEntry) : id32 :=
  sha256 (concat ((λ e, be_bytes 32 (el_id e)) <$> l)).
(* @src src/poseq/src/queue_snapshot/snapshot.rs:87-97 QueueSnapshot::compute_snapshot_id *)
Definition compute_snapshot_id (s : QueueSnapshot) : id32 :=
  sha256 (be_bytes 8 (sn_slot s) ++ be_bytes 8 (sn_epoch s) ++ be_bytes 32 (snapshot_root s) ++
          be_bytes 4 (sn_policy_version s)).
(* @src src/poseq/src/queue_snapshot/snapshot.rs:42-72 QueueSnapshot::build *)
Definition build (l : list EligibleSubmissionEntry) (slot ep h pv : Z) : QueueSnapshot :=
  let l := sort_by snapshot_cmp l in
  let draft := mkSnapshot 0 slot ep h l (compute_root l) pv in
  mkSnapshot (compute_snapshot_id draft) slot ep h l (compute_root l) pv.
End hashed.
End QueueSnapshot.

Module SnapshotCommitment.
Section hashed.
Context `{Sha256}.
(* @src src/poseq/src/queue_snapshot/snapshot.rs:143-160 SnapshotCommitment::compute_commitment_hash *)
Definition compute_commitment_hash (id root : id32) (slot ep : Z) (leader : id32) : id32 :=
  sha256 (be_bytes 32 id ++ be_bytes 32 root ++ be_bytes 8 slot ++ be_bytes 8 ep ++ be_bytes 32 leader).
(* @src src/poseq/src/queue_snapshot/snapshot.rs:125-141 SnapshotCommitment::compute *)
Definition compute (s : QueueSnapshot) (leader : id32) : SnapshotCommitment :=
  mkCommitment (snapshot_id s) (snapshot_root s) (sn_slot s) (sn_epoch s) leader
    (compute_commitment_hash (snapshot_id s) (snapshot_root s) (sn_slot s) (sn_epoch s) leader).
(* @src src/poseq/src/queue_snapshot/snapshot.rs:173-183 SnapshotOrderingView::build *)
Definition build_view (s : QueueSnapshot) (leader : id32) : SnapshotOrderingView :=
  mkView s (compute s leader) (length (sn_entries s)) (length (filter (λ e, el_forced e = true) (sn_entries s))).
End hashed.
End SnapshotCommitment.

(** ** Protected flows *)

(* @src src/poseq/src/anti_mev/policy.rs:43-48 ProtectedFlowPolicy *)
Record ProtectedFlowPolicy : Type := mkFlowPolicy {
  enabled : bool;
  protected_classes : gset FairnessClass;
  max_delay_slots : Z }.
(* @src src/poseq/src/protected_flows/handler.rs:7-15 ProtectedFlowRecord *)
Record ProtectedFlowRecord : Type := mkFlow {
  pf_id : id32;
  pf_class : FairnessClass;
  registered_at_slot : Z;
  must_include_by_slot : Z;
  included_at_slot : option Z;
  included_in_batch : option id32 }.
(* @src src/poseq/src/protected_flows/handler.rs:19-22 ProtectedFlowHandler *)
Record ProtectedFlowHandler : Type := mkFlowHandler {
  flow_records : gmap id32 ProtectedFlowRecord;
  flow_policy : ProtectedFlowPolicy }.

Module ProtectedFlowHandler.
Implicit Types h : ProtectedFlowHandler.
(* @src src/poseq/src/protected_flows/handler.rs:25-30 ProtectedFlowHandler::new *)
Definition new (p : ProtectedFlowPolicy) : ProtectedFlowHandler := mkFlowHandler ∅ p.
(* @src src/poseq/src/protected_flows/handler.rs:34-46 ProtectedFlowHandler::register *)
Definition register (id : id32) (c : FairnessClass) (now : Z) h : ProtectedFlowHandler :=
  if decide (enabled (flow_policy h) = false ∨ c ∉ protected_classes (flow_policy h)) then h
  else match flow_records h !! id with
       | Some _ => h
       | None =>
           mkFlowHandler
             (<[id := mkFlow id c now (wrapu 64 (now + max_delay_slots (flow_policy h))) None None]> (flow_records h))
             (flow_policy h)
       end.
(* @src src/poseq/src/protected_flows/handler.rs:49-54 ProtectedFlowHandler::mark_included *)
Definition mark_included (id : id32) (slot : Z) (batch : id32) h : ProtectedFlowHandler :=
  mkFlowHandler
    (alter (λ r, mkFlow (pf_id r) (pf_class r) (registered_at_slot r) (must_include_by_slot r) (Some slot)
                   (Some batch)) id (flow_records h)) (flow_policy h).
Definition is_overdue (now : Z) (r : ProtectedFlowRecord) : bool :=
  bool_decide (included_at_slot r = None) && bool_decide (must_include_by_slot r < now).
(* @src src/poseq/src/protected_flows/handler.rs:57-66 ProtectedFlowHandler::get_overdue *)
Definition get_overdue (now : Z) h : list ProtectedFlowRecord :=
  sort_by (λ a b, then_with (must_include_by_slot a ?= must_include_by_slot b) (pf_id a ?= pf_id b))
    (filter (λ r, is_overdue now r = true) (btree_values (flow_records h))).
(* @src src/poseq/src/protected_flows/handler.rs:69-71 ProtectedFlowHandler::is_registered *)
Definition is_registered (id : id32) h : bool := bool_decide (is_Some (flow_records h !! id)).
End ProtectedFlowHandler.
