(* ===== verification/FairnessProps.v ===== *)
(** * What the fairness rules guarantee

    Which submissions a batch must take and may leave out, that the snapshot a leader
    commits to does not depend on how it was collected, what the search for censorship
    can find in a log, and when a protected flow is overdue. *)

From stdpp Require Import gmap strings list sorting pretty.
From S2P Require Import Prelude Concrete Sorting Submissions Fairness.
Import InclusionPolicyEngine.

(** ** Inclusion *)

Definition starved (p : FairSequencingPolicy) (now : Z) (q : SubmissionFairnessProfile) : Prop :=
  anti_starvation_slots p < sat_sub now (received_at_slot q).

Lemma starving_spec p now id q o :
  starving p now (id, q) = Ok o →
  (starved p now q ∧ ∃ c, o = Some c ∧ fc_submission_id c = id) ∨ (¬ starved p now q ∧ o = None).
Proof.
  unfold starving, starved. case_decide as E; [|intros [= <-]; by right].
  intros (rule & _ & Hr)%obind_ok. left. split; [done|].
  rewrite decide_True in Hr by (by left). injection Hr as <-. eauto.
Qed.

Lemma starving_all_ids p now l fs :
  starving_all p now l = Ok fs →
  ∀ id, id ∈ fc_submission_id <$> fs ↔ ∃ q, (id, q) ∈ l ∧ starved p now q.
Proof.
  revert fs. induction l as [|[i q] l IH]; intros fs; cbn [starving_all].
  - intros [= <-] id. split; [set_solver|]. intros (q & Hq & _). by apply elem_of_nil in Hq.
  - intros (o & Ho & (rest & Hrest & [= <-])%obind_ok)%obind_ok id. specialize (IH _ Hrest id).
    apply starving_spec in Ho as [(Hs & c & -> & Hc)|(Hs & ->)].
    + cbn. rewrite elem_of_cons, IH, Hc. split.
      * intros [->|(q' & Hq' & Hs')]; [exists q; split; [left|done]|exists q'; split; [by right|done]].
      * intros (q' & [[= -> ->]|Hq']%elem_of_cons & Hs'); [by left|right; eauto].
    + rewrite IH. split.
      * intros (q' & Hq' & Hs'). exists q'. split; [by right|done].
      * intros (q' & [[= -> ->]|Hq']%elem_of_cons & Hs'); [done|eauto].
Qed.

Lemma check_ids e profiles now fs :
  check_anti_starvation e profiles now = Ok fs →
  ∀ id, id ∈ fc_submission_id <$> fs ↔ ∃ q, profiles !! id = Some q ∧ starved (ip_policy e) now q.
Proof.
  unfold check_anti_starvation. intros (l & Hl & [= <-])%obind_ok id.
  rewrite sort_by_perm, (starving_all_ids _ _ _ _ Hl). by setoid_rewrite elem_of_btree_list.
Qed.

Definition must_take (e : InclusionPolicyEngine) (profiles : gmap id32 SubmissionFairnessProfile) (now : Z)
    (id : id32) : Prop :=
  ∃ q, profiles !! id = Some q ∧ (is_forced_inclusion q = true ∨ starved (ip_policy e) now q).
Definition taken (r : InclusionEligibilityRecord) : Prop :=
  match ie_decision r with Exclude _ => False | _ => True end.
#[export] Instance taken_dec r : Decision (taken r).
Proof. unfold taken. destruct (ie_decision r); apply _. Defined.
Definition taken_count (l : list InclusionEligibilityRecord) : nat := length (filter taken l).
Lemma taken_count_cons r l :
  taken_count (r :: l) = ((if decide (taken r) then 1 else 0) + taken_count l)%nat.
Proof. unfold taken_count. rewrite filter_cons. by case_decide. Qed.

(** What the loop decides for an id when [before] have been taken. *)
Definition decided (e : InclusionPolicyEngine) profiles now (capacity before : nat) (id : id32)
    (r : InclusionEligibilityRecord) : Prop :=
  ie_submission_id r = id ∧
  ((must_take e profiles now id ∧ ie_decision r = ForceInclude "anti_starvation") ∨
   (¬ must_take e profiles now id ∧ (before < capacity)%nat ∧ ie_decision r = Include) ∨
   (¬ must_take e profiles now id ∧ (capacity ≤ before)%nat ∧ ie_decision r = Exclude BatchFull)).

Lemma decide_one_spec e profiles fset now capacity count id :
  (∀ i, i ∈ fset ↔ ∃ q, profiles !! i = Some q ∧ starved (ip_policy e) now q) →
  let '(r, count') := decide_one e profiles fset now capacity count id in
  decided e profiles now capacity count id r ∧ count' = (count + taken_count [r])%nat.
Proof.
  intros Hf.
  assert (∀ (cond : bool) slot age c,
    (cond = true ↔ must_take e profiles now id) →
    let '(r, count') := (if cond then (mkEligibility id c slot age (ForceInclude "anti_starvation") true, S count)
      else if decide (capacity ≤ count)%nat then (mkEligibility id c slot age (Exclude BatchFull) false, count)
      else (mkEligibility id c slot age Include false, S count)) in
    decided e profiles now capacity count id r ∧ count' = (count + taken_count [r])%nat) as Hcore.
  { intros cond slot age c Hc. destruct cond.
    - split; [split; [done|left; split; [by apply Hc|done]]|]. rewrite taken_count_cons, decide_True by done. cbn. lia.
    - assert (¬ must_take e profiles now id) as Hn by (intros H; by apply Hc in H).
      case_decide; (split; [split; [done|right]|rewrite taken_count_cons]).
      + right. done.
      + rewrite decide_False by (unfold taken; cbn; tauto). cbn. lia.
      + left. split_and!; [done|lia|done].
      + rewrite decide_True by done. cbn. lia. }
  unfold decide_one. destruct (profiles !! id) as [q|] eqn:E.
  - apply Hcore. unfold must_take. rewrite orb_true_iff, bool_decide_eq_true, Hf, E. naive_solver.
  - apply Hcore. unfold must_take. rewrite bool_decide_eq_true, Hf, E. naive_solver.
Qed.

Lemma decide_all_spec e profiles fset now capacity ids :
  (∀ i, i ∈ fset ↔ ∃ q, profiles !! i = Some q ∧ starved (ip_policy e) now q) → ∀ count,
  ie_submission_id <$> decide_all e profiles fset now capacity count ids = ids ∧
  ∀ pre r post, decide_all e profiles fset now capacity count ids = pre ++ r :: post →
    decided e profiles now capacity (count + taken_count pre) (ie_submission_id r) r.
Proof.
  intros Hf. induction ids as [|id ids IH]; intros count; cbn [decide_all].
  { split; [done|]. intros pre r post Hnil. by destruct pre. }
  pose proof (decide_one_spec e profiles fset now capacity count id Hf) as Hone.
  destruct (decide_one e profiles fset now capacity count id) as [r0 count']. destruct Hone as [Hd ->].
  destruct (IH (count + taken_count [r0])%nat) as [Hids Hpos]. split; [rewrite fmap_cons, Hids; f_equal; apply Hd|].
  intros [|x pre] r post [= <- Heq].
  - rewrite Nat.add_0_r. pose proof (proj1 Hd) as ->. exact Hd.
  - specialize (Hpos _ _ _ Heq). rewrite (taken_count_cons r0 pre). rewrite taken_count_cons in Hpos.
    replace (count + ((if decide (taken r0) then 1 else 0) + taken_count pre))%nat
      with (count + ((if decide (taken r0) then 1 else 0) + taken_count []) + taken_count pre)%nat; [exact Hpos|].
    cbn. lia.
Qed.

(** In the set computed for a batch each candidate has one record, lower ids first; one
    whose profile is forced or has waited longer than the limit is taken whatever the
    capacity, another is taken as long as fewer than the capacity were taken before it,
    and left out otherwise. *)
Theorem eligible_set_spec e cs profiles now capacity rs fs :
  compute_eligible_set e cs profiles now capacity = Ok (rs, fs) →
  ie_submission_id <$> rs = sorted_elements cs ∧
  ∀ pre r post, rs = pre ++ r :: post → decided e profiles now capacity (taken_count pre) (ie_submission_id r) r.
Proof.
  unfold compute_eligible_set. intros (l & Hl & [= <- <-])%obind_ok.
  edestruct (decide_all_spec e profiles (list_to_set (fc_submission_id <$> l)) now capacity (sorted_elements cs))
    as [H1 H2]; [|split; [exact H1|exact H2]].
  intros i. rewrite elem_of_list_to_set. by apply check_ids.
Qed.

Definition get_rule_cases (p1 p2 : FairSequencingPolicy) (c : FairnessClass) : Prop :=
  (∃ r1 r2, FairSequencingPolicy.get_class_rule p1 c = Ok r1 ∧ FairSequencingPolicy.get_class_rule p2 c = Ok r2) ∨
  (FairSequencingPolicy.get_class_rule p1 c = Panic ∧ FairSequencingPolicy.get_class_rule p2 c = Panic).
Lemma get_rules_agree p1 p2 c :
  (∀ c, is_Some (class_rules p1 !! c) ↔ is_Some (class_rules p2 !! c)) → get_rule_cases p1 p2 c.
Proof.
  intros Hr. pose proof (Hr c) as Hc. pose proof (Hr Normal) as Hn.
  unfold get_rule_cases, FairSequencingPolicy.get_class_rule.
  assert (∀ A (o1 o2 : option A), (is_Some o1 ↔ is_Some o2) →
    (∃ a1 a2, o1 = Some a1 ∧ o2 = Some a2) ∨ (o1 = None ∧ o2 = None)) as Ho.
  { intros A [a1|] [a2|] [H1 H2]; [left; eauto| | |by right].
    - by destruct H1 as [? ?]; [eauto|].
    - by destruct H2 as [? ?]; [eauto|]. }
  destruct (Ho _ _ _ Hc) as [(r1 & r2 & -> & ->)|[-> ->]]; [left; eauto|].
  destruct (Ho _ _ _ Hn) as [(r1 & r2 & -> & ->)|[-> ->]]; [left; cbn; eauto|by right].
Qed.

(** The waiting limits of the classes play no part: policies with the same classes and
    the same general limit decide alike. *)
Theorem class_limits_unused p1 p2 ages cs profiles now capacity :
  anti_starvation_slots p1 = anti_starvation_slots p2 →
  (∀ c, is_Some (class_rules p1 !! c) ↔ is_Some (class_rules p2 !! c)) →
  compute_eligible_set (mkInclusion p1 ages) cs profiles now capacity =
  compute_eligible_set (mkInclusion p2 ages) cs profiles now capacity.
Proof.
  intros Ht Hr. unfold compute_eligible_set, check_anti_starvation. cbn [ip_policy].
  assert (∀ l, starving_all p1 now l = starving_all p2 now l) as Hall.
  { induction l as [|[id q] l IH]; [done|]. cbn [starving_all]. rewrite IH. f_equal.
    unfold starving. rewrite Ht. case_decide as Hage; [|done].
    assert (∀ c, get_rule_cases p1 p2 c) as Hget by (intros c; by apply get_rules_agree).
    destruct (Hget (sp_class q)) as [(r1 & r2 & -> & ->)|[-> ->]]; [|done]. cbn.
    rewrite !decide_True by (by left). done. }
  rewrite Hall. assert (∀ fset ids count,
    decide_all (mkInclusion p1 ages) profiles fset now capacity count ids =
    decide_all (mkInclusion p2 ages) profiles fset now capacity count ids) as Hd.
  { intros fset. induction ids as [|id ids IH]; intros count; [done|]. cbn [decide_all].
    unfold decide_one. cbn [age_tracker]. destruct (match profiles !! id with Some _ => _ | None => _ end) as [[[slot age] c] []].
    - by rewrite IH.
    - case_decide; by rewrite IH. }
  destruct (starving_all p2 now (btree_list profiles)); [|done..]. cbn. by rewrite Hd.
Qed.

(** ** Snapshots *)

Section snapshots.
Context `{Sha256}.

Definition snapshot_before (a b : EligibleSubmissionEntry) : Prop :=
  Z.b2z (is_protected_class (el_class b)) < Z.b2z (is_protected_class (el_class a)) ∨
  (is_protected_class (el_class b) = is_protected_class (el_class a) ∧
   (class_index (el_class a) < class_index (el_class b) ∨ (class_index (el_class a) = class_index (el_class b) ∧
    (el_sequence a < el_sequence b ∨ (el_sequence a = el_sequence b ∧ el_id a ≤ el_id b))))).

Lemma b2z_inj a b : Z.b2z a = Z.b2z b ↔ a = b.
Proof. by destruct a, b. Qed.

Lemma snapshot_no_later a b : no_later snapshot_cmp a b ↔ snapshot_before a b.
Proof.
  unfold no_later, snapshot_cmp, snapshot_before.
  rewrite !then_with_compare, Z.compare_le_iff, b2z_inj. done.
Qed.
Lemma snapshot_sorted l : StronglySorted (no_later snapshot_cmp) (sort_by snapshot_cmp l).
Proof.
  apply sort_by_sorted.
  - intros a b HG. assert (¬ no_later snapshot_cmp a b) as Hn by (by apply not_no_later).
    rewrite snapshot_no_later in *. unfold snapshot_before in *. rewrite <- !b2z_inj in *. lia.
  - intros a b c. rewrite !snapshot_no_later. unfold snapshot_before. rewrite <- !b2z_inj. lia.
Qed.

(** Entries collected in any order give the same snapshot, which lists each of them once,
    those of a protected class first, and within a class by sequence. *)
Theorem snapshot_canonical l1 l2 slot ep h pv :
  NoDup (el_id <$> l1) → l1 ≡ₚ l2 →
  QueueSnapshot.build l1 slot ep h pv = QueueSnapshot.build l2 slot ep h pv ∧
  sn_entries (QueueSnapshot.build l1 slot ep h pv) ≡ₚ l1 ∧
  StronglySorted snapshot_before (sn_entries (QueueSnapshot.build l1 slot ep h pv)).
Proof.
  intros Hnd Hp. assert (sort_by snapshot_cmp l1 = sort_by snapshot_cmp l2) as He.
  { eapply StronglySorted_unique_strong; [|apply snapshot_sorted..|].
    - intros a b Ha Hb H1 H2. rewrite sort_by_perm in Ha. rewrite sort_by_perm, <- Hp in Hb.
      apply (NoDup_key_inj el_id l1); [done..|]. revert H1 H2. rewrite !snapshot_no_later.
      unfold snapshot_before. rewrite <- !b2z_inj. lia.
    - by rewrite !sort_by_perm. }
  unfold QueueSnapshot.build. cbn. rewrite He. split; [done|]. split.
  - by rewrite sort_by_perm, Hp.
  - eapply StronglySorted_weaken; [|apply snapshot_sorted]. intros a b. by rewrite snapshot_no_later.
Qed.

(** Nothing promotes a forced entry: the order of the snapshot is the same with the
    marks erased. *)
Definition unmark (e : EligibleSubmissionEntry) : EligibleSubmissionEntry :=
  mkEligible (el_id e) (el_class e) (el_slot e) (el_sequence e) (el_age e) false.
Theorem forced_not_promoted l slot ep h pv :
  QueueSnapshot.ordered_ids (QueueSnapshot.build (unmark <$> l) slot ep h pv) =
  QueueSnapshot.ordered_ids (QueueSnapshot.build l slot ep h pv) ∧
  snapshot_id (QueueSnapshot.build (unmark <$> l) slot ep h pv) = snapshot_id (QueueSnapshot.build l slot ep h pv).
Proof.
  assert (sort_by snapshot_cmp (unmark <$> l) = unmark <$> sort_by snapshot_cmp l) as Hs.
  { induction l as [|x l IH]; [done|].
    change (insert_by snapshot_cmp (unmark x) (sort_by snapshot_cmp (unmark <$> l)) =
            unmark <$> insert_by snapshot_cmp x (sort_by snapshot_cmp l)).
    rewrite IH. generalize (sort_by snapshot_cmp l) as s. intros s.
    induction s as [|y s IHs]; [done|]. cbn [insert_by fmap list_fmap].
    change (snapshot_cmp (unmark x) (unmark y)) with (snapshot_cmp x y).
    destruct (snapshot_cmp x y); [done..|]. cbn [fmap list_fmap]. by rewrite <- IHs. }
  assert (∀ s, el_id <$> (unmark <$> s) = el_id <$> s) as Hid by (intros s; by rewrite <- list_fmap_compose).
  assert (QueueSnapshot.compute_root (unmark <$> sort_by snapshot_cmp l) = QueueSnapshot.compute_root (sort_by snapshot_cmp l)) as Hr.
  { unfold QueueSnapshot.compute_root. by rewrite <- list_fmap_compose. }
  unfold QueueSnapshot.ordered_ids, QueueSnapshot.build, QueueSnapshot.compute_snapshot_id. cbn.
  by rewrite Hs, Hid, Hr.
Qed.
End snapshots.

(** ** Censorship *)

Inductive log_call : Type :=
| LogIncluded (bundle solver : id32) | LogExcluded (bundle solver : id32) (reason : ReasonCode).
Definition log_step (l : FairnessLog) (c : log_call) : FairnessLog :=
  match c with
  | LogIncluded b s => FairnessLog.record_included b s l
  | LogExcluded b s r => FairnessLog.record_excluded b s r l
  end.
Definition logged (calls : list log_call) : list FairnessLogEntry := foldl log_step FairnessLog.new calls.

Section censorship.
Context `{HexBytes}.

Lemma logged_entries calls :
  logged calls = (λ c, match c with
    | LogIncluded b s => mkLogEntry b s true true RIncluded
    | LogExcluded b s r => mkLogEntry b s (bool_decide (r = ROrderingPriority)) false r
    end) <$> calls.
Proof.
  unfold logged. induction calls as [|c calls IH] using rev_ind; [done|].
  rewrite foldl_app, fmap_app. cbn [foldl log_step fmap list_fmap]. rewrite IH. by destruct c.
Qed.

Lemma exclusions_lookup l s ids :
  exclusions_by_solver l !! s = Some ids ↔
  ids = bundle_id <$> FairnessLog.exclusions_for_solver s l ∧ ids ≠ [].
Proof.
  revert ids. unfold exclusions_by_solver, FairnessLog.exclusions_for_solver.
  induction l as [|e l IH] using rev_ind; intros ids.
  { cbn. rewrite lookup_empty. split; [done|intros [-> ?]; done]. }
  rewrite foldl_app, filter_app, fmap_app. cbn [foldl]. unfold add_exclusion at 1.
  rewrite filter_cons, filter_nil. destruct (inclusion e) eqn:Ei.
  { rewrite decide_False by (intros [_ ?]; done). cbn. rewrite app_nil_r. apply IH. }
  destruct (decide (le_solver_id e = s)) as [->|Hne].
  - rewrite decide_True by done. rewrite lookup_insert_eq. cbn.
    destruct (foldl add_exclusion ∅ l !! s) as [ids'|] eqn:E.
    + destruct (proj1 (IH ids') eq_refl) as [-> _]. cbn. split; [intros [= <-]; split; [done|by intros [_ ?]%app_nil]|by intros [-> _]].
    + assert (bundle_id <$> filter (λ e0, le_solver_id e0 = s ∧ inclusion e0 = false) l = []) as Hnil.
      { destruct (decide (bundle_id <$> filter (λ e0, le_solver_id e0 = s ∧ inclusion e0 = false) l = [])); [done|].
        discriminate (proj2 (IH _) (conj eq_refl n)). }
      rewrite Hnil. cbn. split; [intros [= <-]; done|by intros [-> _]].
  - rewrite decide_False by (intros [? _]; done). rewrite lookup_insert_ne by done. cbn. rewrite app_nil_r. apply IH.
Qed.

(** What the search reports of a log that the log's own methods wrote: nothing as an
    unjustified exclusion, each solver with at least the threshold of exclusions (and at
    least one) with all its excluded bundles, and the whole system when bundles came and
    none was included. *)
Theorem censorship_reports calls sequence max :
  let l := logged calls in
  let ev := detect_censorship l sequence max in
  (∀ e, e ∈ ev → evidence_type e ≠ UnjustifiedExclusion) ∧
  ((∃ e, e ∈ ev ∧ evidence_type e = TotalExclusion) ↔ l ≠ [] ∧ FairnessLog.included_count l = 0%nat) ∧
  (∀ s ids, (∃ e, e ∈ ev ∧ evidence_type e = RepeatedExclusion ∧ affected_solver_id e = s ∧ affected_bundle_ids e = ids) ↔
     ids = bundle_id <$> FairnessLog.exclusions_for_solver s l ∧ ids ≠ [] ∧ (max ≤ length ids)%nat).
Proof.
  cbv zeta. set (l := logged calls).
  assert (filter (λ e, unjustified e = true) l = []) as Hun.
  { unfold l. rewrite logged_entries. induction calls as [|c calls IH]; [done|].
    rewrite fmap_cons, filter_cons, decide_False; [exact IH|].
    unfold unjustified. destruct c as [b s|b s r]; cbn; [done|]. by destruct r. }
  unfold detect_censorship. fold l. rewrite Hun. cbn. rewrite app_nil_r.
  set (rep := filter _ (btree_list _)).
  assert (∀ e, e ∈ (λ p : id32 * list id32, mkEvidence RepeatedExclusion p.1 p.2 sequence
      ("solver " +:+ hex4 p.1 +:+ " excluded " +:+ pretty (length p.2) +:+ " times in sequence " +:+ pretty sequence)) <$> rep →
    evidence_type e = RepeatedExclusion) as Hrep.
  { intros e (p & -> & _)%list_elem_of_fmap. done. }
  split_and!.
  - intros e [He|He]%elem_of_app; [|rewrite Hrep; done].
    case_decide; [apply list_elem_of_singleton in He as ->; done|by apply elem_of_nil in He].
  - split.
    + intros (e & [He|He]%elem_of_app & Ht); [|apply Hrep in He; congruence].
      case_decide; [done|by apply elem_of_nil in He].
    + intros Hc. rewrite decide_True by done. eexists. split; [left|done].
  - intros s ids. split.
    + intros (e & [He|He]%elem_of_app & Ht & <- & <-).
      { case_decide; [apply list_elem_of_singleton in He as ->; done|by apply elem_of_nil in He]. }
      apply list_elem_of_fmap in He as ([s ids] & -> & Hin). cbn.
      apply list_elem_of_filter in Hin as [Hm Hin]. apply elem_of_btree_list, exclusions_lookup in Hin as [? ?].
      done.
    + intros (Hi & Hne & Hm). eexists. split; [apply elem_of_app; right|].
      * apply (list_elem_of_fmap_2 _ _ (s, ids)). unfold rep. apply list_elem_of_filter. split; [done|].
        apply elem_of_btree_list, exclusions_lookup. done.
      * done.
Qed.
End censorship.

(** ** Protected flows *)

Inductive flow_call : Type :=
| FlowRegister (id : id32) (c : FairnessClass) (now : Z) | FlowIncluded (id : id32) (slot : Z) (batch : id32).
Definition flow_step (h : ProtectedFlowHandler) (c : flow_call) : ProtectedFlowHandler :=
  match c with
  | FlowRegister id c now => ProtectedFlowHandler.register id c now h
  | FlowIncluded id slot batch => ProtectedFlowHandler.mark_included id slot batch h
  end.

Lemma flow_policy_step h c : flow_policy (flow_step h c) = flow_policy h.
Proof.
  destruct c as [id c now|id slot batch]; cbn; [|done]. unfold ProtectedFlowHandler.register.
  case_decide; [done|]. by destruct (flow_records h !! id).
Qed.

(** A registered flow keeps its record and its deadline, and once included it stays so. *)
Definition later (r r' : ProtectedFlowRecord) : Prop :=
  pf_id r' = pf_id r ∧ must_include_by_slot r' = must_include_by_slot r ∧
  (is_Some (included_at_slot r) → is_Some (included_at_slot r')).
Lemma flow_step_later h c id r :
  flow_records h !! id = Some r →
  ∃ r', flow_records (flow_step h c) !! id = Some r' ∧ later r r' ∧
    (included_at_slot r' = included_at_slot r ∨ ∃ slot batch, c = FlowIncluded id slot batch).
Proof.
  intros Hr. assert (later r r) as Hrefl by done.
  assert (∃ r', Some r = Some r' ∧ later r r' ∧
    (included_at_slot r' = included_at_slot r ∨ ∃ slot batch, c = FlowIncluded id slot batch)) as Hstay by eauto 10.
  destruct c as [i c now|i slot batch]; cbn.
  - unfold ProtectedFlowHandler.register. case_decide; [by rewrite Hr|].
    destruct (flow_records h !! i) as [q|] eqn:E; [by rewrite Hr|]. cbn.
    rewrite lookup_insert_ne by (intros ->; congruence). by rewrite Hr.
  - destruct (decide (i = id)) as [->|Hne].
    + rewrite lookup_alter_eq, Hr. cbn. eexists. split; [done|]. split; [split_and!; [done..|by eauto]|by eauto].
    + rewrite lookup_alter_ne by done. by rewrite Hr.
Qed.

(** A flow of a protected class that is registered now becomes overdue after the delay of
    the policy, whatever else happens, until it is marked as included; and never after. *)
Theorem overdue_exactly h id c now calls later_slot :
  enabled (flow_policy h) = true → c ∈ protected_classes (flow_policy h) → flow_records h !! id = None →
  0 ≤ now → 0 ≤ max_delay_slots (flow_policy h) → now + max_delay_slots (flow_policy h) < 2 ^ 64 →
  let h' := foldl flow_step (ProtectedFlowHandler.register id c now h) calls in
  (∃ r, flow_records h' !! id = Some r ∧ r ∈ ProtectedFlowHandler.get_overdue later_slot h') ↔
  now + max_delay_slots (flow_policy h) < later_slot ∧ (∀ slot batch, FlowIncluded id slot batch ∉ calls).
Proof.
  intros He Hc Hnone Hn0 Hd0 Hfit. cbv zeta.
  assert (∃ r, flow_records (foldl flow_step (ProtectedFlowHandler.register id c now h) calls) !! id = Some r ∧
    pf_id r = id ∧ must_include_by_slot r = now + max_delay_slots (flow_policy h) ∧
    (included_at_slot r = None ↔ ∀ slot batch, FlowIncluded id slot batch ∉ calls)) as (r & Hr & Hid & Hm & Hi).
  { induction calls as [|x calls IH] using rev_ind.
    - cbn. unfold ProtectedFlowHandler.register. rewrite decide_False by (rewrite He; naive_solver).
      rewrite Hnone. cbn. rewrite lookup_insert_eq. eexists. split; [done|]. cbn.
      split_and!; [done|apply wrapu_id; by split; lia|]. split; [intros _ ??; by apply not_elem_of_nil|done].
    - destruct IH as (r & Hr & Hid & Hm & Hi). rewrite foldl_app. cbn [foldl].
      destruct (flow_step_later _ x _ _ Hr) as (r' & Hr' & (Hid' & Hm' & Hinc) & Hcase).
      exists r'. split_and!; [done|congruence|congruence|].
      setoid_rewrite not_elem_of_app. setoid_rewrite list_elem_of_singleton. destruct Hcase as [Hsame|(sl & ba & ->)].
      + rewrite Hsame, Hi. split; [|naive_solver]. intros Hall slot batch. split; [by apply Hall|].
        intros <-. cbn in Hr'. rewrite lookup_alter_eq, Hr in Hr'. cbn in Hr'. injection Hr' as <-. cbn in Hsame.
        assert (included_at_slot r = None) as Hx by (by apply Hi). congruence.
      + cbn in Hr'. rewrite lookup_alter_eq, Hr in Hr'. cbn in Hr'. injection Hr' as <-. cbn.
        split; [done|]. intros Hall. by destruct (Hall sl ba) as [_ []]. }
  unfold ProtectedFlowHandler.get_overdue. split.
  - intros (q & Hq & Hin). rewrite Hr in Hq. injection Hq as <-.
    rewrite sort_by_perm in Hin. apply list_elem_of_filter in Hin as [Ho _].
    unfold ProtectedFlowHandler.is_overdue in Ho. apply andb_true_iff in Ho as [H1%bool_decide_eq_true H2%bool_decide_eq_true].
    split; [by rewrite <- Hm|by apply Hi].
  - intros [Hlt Hall%Hi]. exists r. split; [done|].
    rewrite sort_by_perm. apply list_elem_of_filter. split; [|apply elem_of_btree_values; eauto].
    unfold ProtectedFlowHandler.is_overdue. apply andb_true_iff. split; apply bool_decide_eq_true; [done|by rewrite Hm].
Qed.

(** ** Witnesses *)

Definition fair_engine : InclusionPolicyEngine :=
  mkInclusion FairSequencingPolicy.default_policy (SubmissionAgeTracker.register 9 0 0 SubmissionAgeTracker.new).
Definition sample_profiles : gmap id32 SubmissionFairnessProfile :=
  <[1 := new_profile 1 Normal 190 0 200 false "r"]>
  (<[2 := new_profile 2 SafetyCritical 150 1 200 false "r"]>
  (<[3 := new_profile 3 Normal 10 2 200 false "r"]> ∅)).

(** A batch of one: the first is taken, the starved third is forced; the safety-critical
    second has waited past the limit of its class and is left out, and so is the ninth,
    registered 200 slots ago but without a profile. *)
Lemma eligible_set_spec_witness :
  ∃ rs fs, compute_eligible_set fair_engine {[1; 2; 3; 9]} sample_profiles 200 1 = Ok (rs, fs) ∧
  (ie_decision <$> rs) = [Include; Exclude BatchFull; ForceInclude "anti_starvation"; Exclude BatchFull] ∧
  ie_submission_id <$> rs = sorted_elements {[1; 2; 3; 9]}.
Proof.
  destruct (compute_eligible_set fair_engine {[1; 2; 3; 9]} sample_profiles 200 1) as [[rs fs]| |] eqn:E;
    [|vm_compute in E; discriminate..].
  exists rs, fs. split; [done|]. split.
  - apply (f_equal (λ o, match o with Ok (l, _) => ie_decision <$> l | _ => [] end)) in E.
    cbv beta iota in E. rewrite <- E. vm_compute. reflexivity.
  - exact (proj1 (eligible_set_spec fair_engine _ _ _ _ _ _ E)).
Defined.

Lemma class_limits_unused_witness :
  let p := FairSequencingPolicy.default_policy in
  let q := mkFairPolicy 1 ((λ r, mkClassRule (cr_class r) (cr_priority_weight r) (protected r) 1) <$> class_rules p)
             default_bound 100 1000 true in
  compute_eligible_set (mkInclusion p ∅) {[1; 2; 3]} sample_profiles 200 1 =
  compute_eligible_set (mkInclusion q ∅) {[1; 2; 3]} sample_profiles 200 1.
Proof.
  cbv zeta. apply class_limits_unused; [done|]. intros c. cbn [class_rules]. rewrite lookup_fmap.
  symmetry. apply fmap_is_Some.
Defined.

Definition entry_a : EligibleSubmissionEntry := mkEligible 5 Normal 1 0 3 true.
Definition entry_b : EligibleSubmissionEntry := mkEligible 6 SafetyCritical 1 9 3 false.
Lemma snapshot_canonical_witness :
  @QueueSnapshot.build sample_sha256 [entry_a; entry_b] 1 1 1 1 =
  @QueueSnapshot.build sample_sha256 [entry_b; entry_a] 1 1 1 1.
Proof.
  refine (proj1 (@snapshot_canonical sample_sha256 [entry_a; entry_b] [entry_b; entry_a] 1 1 1 1 _ _)).
  - by_decide.
  - apply perm_swap.
Defined.

(** An eligible bundle that a log of another origin excludes for a wrong reason is what
    the last pattern looks for. *)
Example unjustified_elsewhere :
  evidence_type <$> @detect_censorship sample_hex_bytes [mkLogEntry 1 7 true false RFailedDA] 3 5 =
  [TotalExclusion; UnjustifiedExclusion].
Proof. vm_compute. reflexivity. Qed.

Definition sample_flows : ProtectedFlowHandler :=
  ProtectedFlowHandler.new (mkFlowPolicy true {[SafetyCritical; BridgeAdjacent]} 5).
Lemma overdue_exactly_witness :
  ∃ r, flow_records (ProtectedFlowHandler.register 7 SafetyCritical 10 sample_flows) !! 7 = Some r ∧
  r ∈ ProtectedFlowHandler.get_overdue 16 (ProtectedFlowHandler.register 7 SafetyCritical 10 sample_flows).
Proof.
  refine (proj2 (overdue_exactly sample_flows 7 SafetyCritical 10 [] 16 eq_refl _ _ _ _ _) _); [by_decide|done|done|done|done|].
  split; [done|]. intros ??. apply not_elem_of_nil.
Defined.
