(* ===== verification/AntiMev.v ===== *)
(** * Bounds on the leader's reordering

    The anti-MEV policy and engine, the validator of a proposed order, the audit record
    and receipt it leaves, the configuration they come from and the ledger that keeps
    them (src/poseq/src/anti_mev/, fairness_validation/, fairness_audit/,
    fairness_bridge/, fairness_config/, fairness_persistence/), and the detector of
    incidents (fairness_incidents/detector.rs). *)

From stdpp Require Import gmap strings list sorting pretty.
From S2P Require Import Prelude Concrete Sorting Submissions Fairness.

(** ** Policy *)

(** The reorder bound of the anti-MEV policy has the fields of the fairness policy's. *)
Module MevBound.
(* @src src/poseq/src/anti_mev/policy.rs:6-13 ReorderBound *)
Definition t : Type := ReorderBound.
(* @src src/poseq/src/anti_mev/policy.rs:16-22 ReorderBound::default_bound *)
Definition default_bound : t := mkBound 5 5 None.
(* @src src/poseq/src/anti_mev/policy.rs:24-30 ReorderBound::strict_bound *)
Definition strict_bound : t := mkBound 0 0 None.
(* @src src/poseq/src/anti_mev/policy.rs:32-38 ReorderBound::for_class *)
Definition for_class (c : FairnessClass) (forward backward : Z) : t := mkBound forward backward (Some c).
End MevBound.

(* @src src/poseq/src/anti_mev/policy.rs:51-62 ProtectedFlowPolicy::default_policy *)
Definition default_flow_policy : ProtectedFlowPolicy :=
  mkFlowPolicy true {[SafetyCritical; ProtectedUserFlow; BridgeAdjacent; GovernanceSensitive]} 5.
(* @src src/poseq/src/anti_mev/policy.rs:67-72 LeaderDiscretionLimit *)
Record LeaderDiscretionLimit : Type := mkDiscretion {
  max_discretion_bps : Z;
  apply_to_protected : bool }.
(* @src src/poseq/src/anti_mev/policy.rs:75-80 LeaderDiscretionLimit::default_limit *)
Definition default_limit : LeaderDiscretionLimit := mkDiscretion 1000 true.
(* @src src/poseq/src/anti_mev/policy.rs:85-90 OrderingCommitmentRule *)
Record OrderingCommitmentRule : Type := mkCommitmentRule {
  require_snapshot_precommit : bool;
  snapshot_validity_slots : Z }.
(* @src src/poseq/src/anti_mev/policy.rs:93-98 OrderingCommitmentRule::default_rule *)
Definition default_rule : OrderingCommitmentRule := mkCommitmentRule true 3.
(* @src src/poseq/src/anti_mev/policy.rs:103-112 AntiMevPolicy *)
Record AntiMevPolicy : Type := mkMevPolicy {
  mp_version : Z;
  reorder_bounds : list ReorderBound;
  ordering_commitment_required : bool;
  protected_flow_policy : ProtectedFlowPolicy;
  leader_discretion_limit : LeaderDiscretionLimit;
  anti_sandwich_hook_enabled : bool }.

Module AntiMevPolicy.
(* @src src/poseq/src/anti_mev/policy.rs:115-129 AntiMevPolicy::default_policy *)
Definition default_policy : AntiMevPolicy :=
  mkMevPolicy 1
    [MevBound.default_bound; MevBound.for_class SafetyCritical 0 0; MevBound.for_class ProtectedUserFlow 1 1;
     MevBound.for_class BridgeAdjacent 2 2]
    true default_flow_policy default_limit false.
(* @src src/poseq/src/anti_mev/policy.rs:133-145 AntiMevPolicy::get_reorder_bound_for *)
Definition get_reorder_bound_for (p : AntiMevPolicy) (c : FairnessClass) : option ReorderBound :=
  match List.find (λ b, bool_decide (applies_to_class b = Some c)) (reorder_bounds p) with
  | Some b => Some b
  | None => List.find (λ b, bool_decide (applies_to_class b = None)) (reorder_bounds p)
  end.
(* @src src/poseq/src/anti_mev/policy.rs:153-171 AntiMevPolicy::validate_ordering_delta *)
Definition validate_ordering_delta (p : AntiMevPolicy) (c : FairnessClass) (moved : Z) : bool :=
  match get_reorder_bound_for p c with
  | None => true
  | Some b =>
      (if decide (moved < 0) then bool_decide (- moved ≤ max_positions_forward b) else true) &&
      (if decide (0 < moved) then bool_decide (moved ≤ max_positions_backward b) else true)
  end.
End AntiMevPolicy.

(** ** Engine *)

(* @src src/poseq/src/anti_mev/engine.rs:8-16 OrderingDelta *)
Record OrderingDelta : Type := mkDelta {
  od_id : id32;
  snapshot_position : Z;
  proposed_position : Z;
  delta : Z;
  od_class : FairnessClass }.
(* @src src/poseq/src/anti_mev/engine.rs:20-24 ProtectedFlowViolation *)
Record ProtectedFlowViolation : Type := mkFlowViolation {
  fv_id : id32;
  expected_max_position : Z;
  actual_position : Z }.
(* @src src/poseq/src/anti_mev/engine.rs:28-34 AntiMevViolationType *)
Inductive AntiMevViolationType : Type :=
| ExceededForwardReorderBound | ExceededBackwardReorderBound | ProtectedFlowDelayed
| LeaderDiscretionExceeded | SnapshotCommitmentViolation.
#[export] Instance AntiMevViolationType_eq_dec : EqDecision AntiMevViolationType.
Proof. solve_decision. Defined.
(* @src src/poseq/src/anti_mev/engine.rs:38-43 AntiMevViolation *)
Record AntiMevViolation : Type := mkViolation {
  vi_id : id32;
  violation_type : AntiMevViolationType;
  actual_delta : Z;
  allowed_delta : Z }.
(* @src src/poseq/src/anti_mev/engine.rs:47-53 AntiMevValidationResult *)
Record AntiMevValidationResult : Type := mkMevResult {
  mev_valid : bool;
  violations : list AntiMevViolation;
  position_deltas : list OrderingDelta;
  max_delta_forward : Z;
  max_delta_backward : Z }.
(* @src src/poseq/src/anti_mev/engine.rs:56-64 AntiMevValidationResult::default *)
Definition default_mev_result : AntiMevValidationResult := mkMevResult true [] [] 0 0.

(** [iter().enumerate().map(..).collect()] into a map: of equal keys the last wins. *)
Definition positions (l : list id32) : gmap id32 Z :=
  foldl (λ m p, <[p.2 := p.1]> m) ∅ (imap (λ i id, (Z.of_nat i, id)) l).
Definition classes (l : list (id32 * FairnessClass)) : gmap id32 FairnessClass :=
  foldl (λ m p, <[p.1 := p.2]> m) ∅ l.

Module AntiMevEngine.
(** The engine is its policy. *)
(* @src src/poseq/src/anti_mev/engine.rs:171-210 AntiMevEngine::compute_position_deltas *)
Definition compute_position_deltas (snapshot : list (id32 * FairnessClass)) (proposed : list id32)
  : list OrderingDelta :=
  sort_by (by_score snapshot_position)
    (omap (λ p : id32 * Z,
       (λ prop, mkDelta p.1 p.2 prop (prop - p.2) (default Normal (classes snapshot !! p.1)))
       <$> positions proposed !! p.1)
     (btree_list (positions snapshot.*1))).

Definition i64_max : Z := 2 ^ 63 - 1.
Definition violation_of (p : AntiMevPolicy) (classes : gmap id32 FairnessClass) (d : OrderingDelta)
  : option AntiMevViolation :=
  let class := default Normal (classes !! od_id d) in
  let bound := AntiMevPolicy.get_reorder_bound_for p class in
  if AntiMevPolicy.validate_ordering_delta p class (delta d) then None
  else if decide (delta d < 0) then
    Some (mkViolation (od_id d) ExceededForwardReorderBound (delta d)
            (- default i64_max (max_positions_forward <$> bound)))
  else
    Some (mkViolation (od_id d) ExceededBackwardReorderBound (delta d)
            (default i64_max (max_positions_backward <$> bound))).
Definition moved_bps (deltas : list OrderingDelta) (total : nat) : Z :=
  Z.of_nat (length (filter (λ d, delta d ≠ 0) deltas)) * 10000 / Z.of_nat total.
(* @src src/poseq/src/anti_mev/engine.rs:83-164 AntiMevEngine::apply_ordering_constraints *)
Definition apply_ordering_constraints (p : AntiMevPolicy) (snapshot : list (id32 * FairnessClass))
    (proposed : list id32) (batch_size : nat) : AntiMevValidationResult :=
  let deltas := compute_position_deltas snapshot proposed in
  let per_submission := omap (violation_of p (classes snapshot)) deltas in
  let limit := max_discretion_bps (leader_discretion_limit p) in
  let discretion :=
    if decide ((0 < batch_size)%nat ∧ deltas ≠ [] ∧ limit < moved_bps deltas (length deltas)) then
      [mkViolation 0 LeaderDiscretionExceeded (moved_bps deltas (length deltas)) limit]
    else [] in
  let all := per_submission ++ discretion in
  mkMevResult (bool_decide (all = [])) all deltas
    (foldl (λ m d, if decide (delta d < m) then delta d else m) 0 deltas)
    (foldl (λ m d, if decide (m < delta d) then delta d else m) 0 deltas).

Definition usize_max : Z := umax 64.
Definition flow_violation (p : ProtectedFlowPolicy) (proposed : list id32)
    (entry : id32 * SubmissionFairnessProfile) : option ProtectedFlowViolation :=
  let '(id, profile) := entry in
  if decide (sp_class profile ∈ protected_classes p) then
    let max_pos := Z.min (max_delay_slots p) (sat_sub (Z.of_nat (length proposed)) 1) in
    match positions proposed !! id with
    | None => Some (mkFlowViolation id max_pos usize_max)
    | Some actual => if decide (max_pos < actual) then Some (mkFlowViolation id max_pos actual) else None
    end
  else None.
(* @src src/poseq/src/anti_mev/engine.rs:213-261 AntiMevEngine::validate_protected_flows *)
Definition validate_protected_flows (p : AntiMevPolicy) (proposed : list id32)
    (profiles : gmap id32 SubmissionFairnessProfile) : list ProtectedFlowViolation :=
  let pfp := protected_flow_policy p in
  if enabled pfp then sort_by (by_score fv_id) (omap (flow_violation pfp proposed) (btree_list profiles))
  else [].
End AntiMevEngine.

(** ** Audit *)

(* @src src/poseq/src/fairness_audit/records.rs:10-23 InclusionAuditEntry *)
Record InclusionAuditEntry : Type := mkAuditEntry {
  ae_id : id32;
  ae_class : FairnessClass;
  ae_age_slots : Z;
  included : bool;
  forced_inclusion : bool;
  exclusion_reason : option ExclusionReason;
  position_in_batch : option Z;
  ae_snapshot_position : option Z;
  position_delta : option Z }.
(* @src src/poseq/src/fairness_audit/records.rs:26-54 InclusionAuditEntry::from_decision *)
Definition from_decision (id : id32) (c : FairnessClass) (age : Z) (d : InclusionDecision)
    (batch_pos snap_pos : option Z) : InclusionAuditEntry :=
  let '(inc, frc, reason) :=
    match d with
    | Include => (true, false, None)
    | ForceInclude _ => (true, true, None)
    | Exclude r => (false, false, Some r)
    end in
  mkAuditEntry id c age inc frc reason batch_pos snap_pos
    (match batch_pos, snap_pos with Some b, Some s => Some (b - s) | _, _ => None end).
(* @src src/poseq/src/fairness_audit/records.rs:59-68 OrderingJustificationRecord *)
Record OrderingJustificationRecord : Type := mkJustification {
  oj_id : id32;
  oj_snapshot_position : Z;
  final_position : Z;
  oj_delta : Z;
  justified_by : string;
  policy_compliant : bool }.
(* @src src/poseq/src/fairness_audit/records.rs:72-90 FairnessAuditRecord *)
Record FairnessAuditRecord : Type := mkFairAudit {
  fa_batch_id : id32;
  fa_slot : Z;
  fa_epoch : Z;
  fa_leader_id : id32;
  snapshot_commitment : SnapshotCommitment;
  fa_policy_version : Z;
  total_eligible : nat;
  total_included : nat;
  total_excluded : nat;
  forced_inclusions : nat;
  inclusion_entries : list InclusionAuditEntry;
  ordering_justifications : list OrderingJustificationRecord;
  class_distribution : gmap FairnessClass nat;
  anti_mev_result : AntiMevValidationResult;
  fairness_warnings : list string;
  audit_hash : id32 }.
(* @src src/poseq/src/fairness_audit/records.rs:186-193 FairnessReceipt *)
Record FairnessReceipt : Type := mkFairReceipt {
  fr_batch_id : id32;
  fr_audit_hash : id32;
  fr_policy_version : Z;
  compliant : bool;
  warning_count : nat;
  violation_count : nat }.

Section audit.
Context `{Sha256}.
Definition nat8 (n : nat) : bytes := be_bytes 8 (Z.of_nat n).
(* @src src/poseq/src/fairness_audit/records.rs:147-181 FairnessAuditRecord::compute_audit_hash *)
Definition compute_audit_hash (batch : id32) (slot ep : Z) (leader : id32) (c : SnapshotCommitment) (pv : Z)
    (eligible inc exc frc : nat) (mev : AntiMevValidationResult) (warnings : list string) : id32 :=
  sha256 (be_bytes 32 batch ++ be_bytes 8 slot ++ be_bytes 8 ep ++ be_bytes 32 leader ++
    be_bytes 32 (commitment_hash c) ++ be_bytes 4 pv ++ nat8 eligible ++ nat8 inc ++ nat8 exc ++ nat8 frc ++
    [Z.b2z (mev_valid mev)] ++ nat8 (length (violations mev)) ++ concat (string_bytes <$> warnings)).
(* @src src/poseq/src/fairness_audit/records.rs:95-145 FairnessAuditRecord::build *)
Definition build_audit (batch : id32) (slot ep : Z) (leader : id32) (c : SnapshotCommitment) (pv : Z)
    (eligible inc exc frc : nat) (entries : list InclusionAuditEntry)
    (justifications : list OrderingJustificationRecord) (distribution : gmap FairnessClass nat)
    (mev : AntiMevValidationResult) (warnings : list string) : FairnessAuditRecord :=
  mkFairAudit batch slot ep leader c pv eligible inc exc frc entries justifications distribution mev warnings
    (compute_audit_hash batch slot ep leader c pv eligible inc exc frc mev warnings).
(* @src src/poseq/src/fairness_audit/records.rs:196-205 FairnessReceipt::from_audit *)
Definition from_audit (r : FairnessAuditRecord) : FairnessReceipt :=
  mkFairReceipt (fa_batch_id r) (audit_hash r) (fa_policy_version r)
    (mev_valid (anti_mev_result r) && bool_decide (fairness_warnings r = []))
    (length (fairness_warnings r)) (length (violations (anti_mev_result r))).
End audit.

(** ** Validation of a proposal *)

(* @src src/poseq/src/fairness_validation/validator.rs:14-22 ProposalFairnessError *)
Inductive ProposalFairnessError : Type :=
| SnapshotMissing
| SnapshotMismatch (expected got : id32)
| ReorderBoundViolated (id : id32) (delta max : Z)
| FlowDelayed (id : id32)
| EligibleSubmissionOmitted (id : id32)
| DiscretionExceeded
| ClassOrderViolated.
#[export] Instance ProposalFairnessError_eq_dec : EqDecision ProposalFairnessError.
Proof. solve_decision. Defined.
(* @src src/poseq/src/fairness_validation/validator.rs:26-32 FairnessValidationResult *)
Record FairnessValidationResult : Type := mkFairResult {
  valid : bool;
  errors : list ProposalFairnessError;
  warnings : list string;
  vr_anti_mev_result : AntiMevValidationResult;
  audit_record : FairnessAuditRecord }.
(* @src src/poseq/src/fairness_validation/validator.rs:36-39 FairProposalValidator *)
Record FairProposalValidator : Type := mkValidator {
  fairness_policy : FairSequencingPolicy;
  anti_mev_policy : AntiMevPolicy }.

Module FairProposalValidator.
Section validator.
Context `{Sha256, Hex}.

Definition quoted (s : string) : string := dq +:+ s +:+ dq.
Definition mev_error (s : QueueSnapshot) (v : AntiMevViolation) : ProposalFairnessError :=
  match violation_type v with
  | ExceededForwardReorderBound | ExceededBackwardReorderBound =>
      ReorderBoundViolated (vi_id v) (actual_delta v) (allowed_delta v)
  | ProtectedFlowDelayed => FlowDelayed (vi_id v)
  | LeaderDiscretionExceeded => DiscretionExceeded
  | SnapshotCommitmentViolation => SnapshotMismatch (snapshot_id s) 0
  end.
(** What the audit says of one entry of the snapshot. *)
Definition audit_entry (proposed snap : gmap id32 Z) (profiles : gmap id32 SubmissionFairnessProfile)
    (e : EligibleSubmissionEntry) : InclusionAuditEntry :=
  let id := el_id e in
  let profile := profiles !! id in
  let frc := default false (is_forced_inclusion <$> profile) in
  from_decision id (default (el_class e) (sp_class <$> profile)) (default (el_age e) (sp_age_slots <$> profile))
    (if decide (is_Some (proposed !! id)) then (if frc then ForceInclude "forced" else Include)
     else Exclude SnapshotNotIncluded)
    (proposed !! id) (snap !! id).
Definition count_one (m : gmap FairnessClass nat) (a : InclusionAuditEntry) : gmap FairnessClass nat :=
  if included a then <[ae_class a := S (default 0%nat (m !! ae_class a))]> m else m.
Definition justify (p : AntiMevPolicy) (d : OrderingDelta) : OrderingJustificationRecord :=
  let ok := AntiMevPolicy.validate_ordering_delta p (od_class d) (delta d) in
  mkJustification (od_id d) (snapshot_position d) (proposed_position d) (delta d)
    (if ok then "within_reorder_bound" else "VIOLATION") ok.

(* @src src/poseq/src/fairness_validation/validator.rs:57-266 FairProposalValidator::validate *)
Definition validate (v : FairProposalValidator) (proposed : list id32) (s : QueueSnapshot)
    (profiles : gmap id32 SubmissionFairnessProfile) (leader : id32) (slot ep : Z) (batch : id32)
  : FairnessValidationResult :=
  let foreign := filter (λ id, id ∉ QueueSnapshot.ordered_ids s) proposed in
  let order := (λ e, (el_id e, el_class e)) <$> sn_entries s in
  let mev := AntiMevEngine.apply_ordering_constraints (anti_mev_policy v) order proposed (length proposed) in
  let flows := AntiMevEngine.validate_protected_flows (anti_mev_policy v) proposed profiles in
  let errors := (EligibleSubmissionOmitted <$> foreign) ++ (mev_error s <$> violations mev) ++
                ((λ f, FlowDelayed (fv_id f)) <$> flows) in
  let entries := audit_entry (positions proposed) (positions (el_id <$> sn_entries s)) profiles <$> sn_entries s in
  let eligible := length (sn_entries s) in
  let moved := AntiMevEngine.moved_bps (position_deltas mev) (eligible `max` 1) in
  let limit := max_leader_discretion_bps (fairness_policy v) in
  let warnings :=
    ((λ id, "Submission " +:+ quoted (hex_encode id) +:+ " in proposed order is not in snapshot") <$> foreign) ++
    ((λ f, "Protected flow " +:+ quoted (hex_encode (fv_id f)) +:+ " at position " +:+ pretty (actual_position f) +:+
           " exceeds max " +:+ pretty (expected_max_position f)) <$> flows) ++
    (if decide ((0 < eligible)%nat ∧ limit < moved) then
       ["Leader discretion " +:+ pretty moved +:+ "bps exceeds policy limit " +:+ pretty limit +:+ "bps"]
     else []) in
  let audit := build_audit batch slot ep leader (SnapshotCommitment.compute s leader)
    (fp_version (fairness_policy v)) eligible (length proposed) (eligible - length proposed)
    (length (filter (λ a, forced_inclusion a = true) entries)) entries
    (justify (anti_mev_policy v) <$> position_deltas mev) (foldl count_one ∅ entries) mev warnings in
  mkFairResult (bool_decide (errors = [])) errors warnings mev audit.
End validator.
End FairProposalValidator.

(** ** Metadata for the runtime *)

(* @src src/poseq/src/fairness_bridge/envelope.rs:7-17 BatchFairnessMetadata *)
Record BatchFairnessMetadata : Type := mkFairMetadata {
  fm_batch_id : id32;
  fm_policy_version : Z;
  fm_snapshot_commitment : SnapshotCommitment;
  fairness_receipt : FairnessReceipt;
  protected_flow_count : nat;
  fm_forced_inclusion_count : nat;
  incident_count : nat;
  metadata_hash : id32 }.
(* @src src/poseq/src/fairness_bridge/envelope.rs:67-72 RuntimeFairnessEnvelope *)
Record RuntimeFairnessEnvelope : Type := mkFairEnvelope {
  fe_batch_id : id32;
  fairness_metadata : BatchFairnessMetadata;
  audit_reference : id32 }.
(* @src src/poseq/src/fairness_bridge/envelope.rs:75-85 RuntimeFairnessEnvelope::new *)
Definition new_fair_envelope (batch : id32) (m : BatchFairnessMetadata) (audit : id32) : RuntimeFairnessEnvelope :=
  mkFairEnvelope batch m audit.
(* @src src/poseq/src/fairness_bridge/envelope.rs:90-94 FairnessReferenceId *)
Record FairnessReferenceId : Type := mkFairReference {
  ref_batch_id : id32;
  ref_audit_hash : id32;
  ref_policy_version : Z }.
Section metadata.
Context `{Sha256}.
(* @src src/poseq/src/fairness_bridge/envelope.rs:47-62 BatchFairnessMetadata::compute_metadata_hash *)
Definition compute_metadata_hash (batch : id32) (pv : Z) (root audit : id32) : id32 :=
  sha256 (be_bytes 32 batch ++ be_bytes 4 pv ++ be_bytes 32 root ++ be_bytes 32 audit).
(* @src src/poseq/src/fairness_bridge/envelope.rs:20-45 BatchFairnessMetadata::build *)
Definition build_metadata (batch : id32) (pv : Z) (c : SnapshotCommitment) (r : FairnessReceipt)
    (flows frc incidents : nat) : BatchFairnessMetadata :=
  mkFairMetadata batch pv c r flows frc incidents
    (compute_metadata_hash batch pv (sc_snapshot_root c) (fr_audit_hash r)).
End metadata.

(** ** Configuration *)

(* @src src/poseq/src/fairness_config/config.rs:12-17 InclusionConfig *)
Record InclusionConfig : Type := mkInclusionConfig {
  batch_capacity : Z;
  ic_anti_starvation_slots : Z;
  max_inclusion_age_slots : Z;
  force_include_protected_after_slots : Z }.
(* @src src/poseq/src/fairness_config/config.rs:32-39 FairnessThresholds *)
Record FairnessThresholds : Type := mkThresholds {
  ft_max_omission_streak : Z;
  max_class_skew_bps : Z;
  min_normal_class_bps : Z }.
(* @src src/poseq/src/fairness_config/config.rs:53-59 AntiMevConfig *)
Record AntiMevConfig : Type := mkMevConfig {
  max_reorder_positions_forward : Z;
  max_reorder_positions_backward : Z;
  mc_ordering_commitment_required : bool;
  leader_discretion_max_bps : Z;
  protected_flow_max_delay_slots : Z }.
(* @src src/poseq/src/fairness_config/config.rs:75-79 ProtectedFlowConfig *)
Record ProtectedFlowConfig : Type := mkFlowConfig {
  fl_enabled : bool;
  fl_protected_classes : list FairnessClass;
  fl_max_delay_slots : Z }.
(* @src src/poseq/src/fairness_config/config.rs:98-106 FairnessConfig *)
Record FairnessConfig : Type := mkFairConfig {
  fc_version : Z;
  fc_inclusion : InclusionConfig;
  thresholds : FairnessThresholds;
  fc_anti_mev : AntiMevConfig;
  protected_flows : ProtectedFlowConfig;
  audit_enabled : bool;
  incident_detection_enabled : bool }.

Module FairnessConfig.
(* @src src/poseq/src/fairness_config/config.rs:20-27 InclusionConfig::default_config *)
Definition default_inclusion : InclusionConfig := mkInclusionConfig 256 100 500 5.
(* @src src/poseq/src/fairness_config/config.rs:42-48 FairnessThresholds::default_thresholds *)
Definition default_thresholds : FairnessThresholds := mkThresholds 3 500 1000.
(* @src src/poseq/src/fairness_config/config.rs:62-70 AntiMevConfig::default_config *)
Definition default_anti_mev : AntiMevConfig := mkMevConfig 5 5 true 1000 5.
(* @src src/poseq/src/fairness_config/config.rs:82-93 ProtectedFlowConfig::default_config *)
Definition default_flows : ProtectedFlowConfig :=
  mkFlowConfig true [SafetyCritical; ProtectedUserFlow; BridgeAdjacent; GovernanceSensitive] 5.
(* @src src/poseq/src/fairness_config/config.rs:109-119 FairnessConfig::default_config *)
Definition default_config : FairnessConfig :=
  mkFairConfig 1 default_inclusion default_thresholds default_anti_mev default_flows true true.
(* @src src/poseq/src/fairness_config/config.rs:122-169 FairnessConfig::to_fair_sequencing_policy *)
Definition to_fair_sequencing_policy (c : FairnessConfig) : FairSequencingPolicy :=
  let protected_set : gset FairnessClass := list_to_set (fl_protected_classes (protected_flows c)) in
  let delay := fl_max_delay_slots (protected_flows c) in
  let row (r : FairnessClass * Z * Z) := let '(k, w, wait) := r in (k, w, bool_decide (k ∈ protected_set), wait) in
  mkFairPolicy (fc_version c)
    (rules_of (row <$> [(Normal, 1000, 0); (LatencySensitive, 3000, 10); (SolverRelated, 2000, 20);
       (GovernanceSensitive, 4000, delay); (SafetyCritical, 9000, delay); (ProtectedUserFlow, 8000, delay);
       (RestrictedPriority, 500, 50); (BridgeAdjacent, 5000, delay); (DomainSensitive, 2500, 30)]))
    (mkBound (max_reorder_positions_forward (fc_anti_mev c)) (max_reorder_positions_backward (fc_anti_mev c)) None)
    (ic_anti_starvation_slots (fc_inclusion c)) (leader_discretion_max_bps (fc_anti_mev c))
    (fl_enabled (protected_flows c)).
(* @src src/poseq/src/fairness_config/config.rs:210-220 FairnessConfig::to_protected_flow_policy *)
Definition to_protected_flow_policy (c : FairnessConfig) : ProtectedFlowPolicy :=
  mkFlowPolicy (fl_enabled (protected_flows c)) (list_to_set (fl_protected_classes (protected_flows c)))
    (protected_flow_max_delay_slots (fc_anti_mev c)).
(* @src src/poseq/src/fairness_config/config.rs:172-207 FairnessConfig::to_anti_mev_policy *)
Definition to_anti_mev_policy (c : FairnessConfig) : AntiMevPolicy :=
  mkMevPolicy (fc_version c)
    [mkBound (max_reorder_positions_forward (fc_anti_mev c)) (max_reorder_positions_backward (fc_anti_mev c)) None;
     mkBound 0 0 (Some SafetyCritical)]
    (mc_ordering_commitment_required (fc_anti_mev c)) (to_protected_flow_policy c)
    (mkDiscretion (leader_discretion_max_bps (fc_anti_mev c)) true) false.
End FairnessConfig.

(** * Incidents of unfair sequencing

    What an audit record shows to the incident detector, the count of omissions it
    keeps, and the ledger of audits, incidents and leaders
    (src/poseq/src/fairness_incidents/detector.rs, fairness_persistence/ledger.rs). *)

(* @src src/poseq/src/fairness_incidents/detector.rs:11-16 FairnessIncidentSeverity *)
Inductive FairnessIncidentSeverity : Type := SevInfo | SevWarning | SevViolation | SevCritical.
Definition severity_index (s : FairnessIncidentSeverity) : Z :=
  match s with SevInfo => 0 | SevWarning => 1 | SevViolation => 2 | SevCritical => 3 end.
(* @src src/poseq/src/fairness_incidents/detector.rs:20-37 FairnessViolationType *)
Inductive FairnessViolationType : Type :=
| RepeatedOmission (n : Z) | ExcessiveReorder | FlowViolation | LeaderDiscretionAbuse | StarvationDetected
| ClassBucketSkew | SnapshotOrderViolation | UnauthorizedOmission.
#[export] Instance FairnessViolationType_eq_dec : EqDecision FairnessViolationType.
Proof. solve_decision. Defined.
(* @src src/poseq/src/fairness_incidents/detector.rs:41-52 UnfairSequencingIncident *)
Record UnfairSequencingIncident : Type := mkUnfair {
  incident_id : id32;
  ui_batch_id : id32;
  ui_slot : Z;
  ui_epoch : Z;
  ui_leader_id : id32;
  ui_submission_id : option id32;
  ui_type : FairnessViolationType;
  severity : FairnessIncidentSeverity;
  evidence : gmap string string }.
(* @src src/poseq/src/fairness_incidents/detector.rs:114-120 OmissionPatternRecord *)
Record OmissionPatternRecord : Type := mkOmission {
  om_id : id32;
  omission_count : Z;
  first_omission_slot : Z;
  last_seen_slot : Z;
  om_class : FairnessClass }.
(* @src src/poseq/src/fairness_incidents/detector.rs:124-129 FairnessIncidentDetector *)
Record FairnessIncidentDetector : Type := mkFairDetector {
  omission_records : gmap id32 OmissionPatternRecord;
  incidents : list UnfairSequencingIncident }.

Section incident.
Context `{Sha256}.
Definition type_tag (t : FairnessViolationType) : Z :=
  match t with
  | RepeatedOmission _ => 1 | ExcessiveReorder => 2 | FlowViolation => 3 | LeaderDiscretionAbuse => 4
  | StarvationDetected => 5 | ClassBucketSkew => 6 | SnapshotOrderViolation => 7 | UnauthorizedOmission => 8
  end.
(* @src src/poseq/src/fairness_incidents/detector.rs:84-109 UnfairSequencingIncident::compute_incident_id *)
Definition compute_incident_id (batch id : id32) (t : FairnessViolationType) (slot : Z) : id32 :=
  sha256 (be_bytes 32 batch ++ be_bytes 32 id ++ [type_tag t] ++ be_bytes 8 slot).
(* @src src/poseq/src/fairness_incidents/detector.rs:55-82 UnfairSequencingIncident::new *)
Definition new_incident (batch : id32) (slot ep : Z) (leader : id32) (id : option id32)
    (t : FairnessViolationType) (s : FairnessIncidentSeverity) (ev : gmap string string)
  : UnfairSequencingIncident :=
  mkUnfair (compute_incident_id batch (default 0 id) t slot) batch slot ep leader id t s ev.
End incident.

Module FairnessIncidentDetector.
Implicit Types d : FairnessIncidentDetector.
(* @src src/poseq/src/fairness_incidents/detector.rs:132-137 FairnessIncidentDetector::new *)
Definition new : FairnessIncidentDetector := mkFairDetector ∅ [].
Definition record_omission (slot : Z) (m : gmap id32 OmissionPatternRecord) (e : InclusionAuditEntry)
  : gmap id32 OmissionPatternRecord :=
  let r := default (mkOmission (ae_id e) 0 slot slot (ae_class e)) (m !! ae_id e) in
  <[ae_id e := mkOmission (om_id r) (wrapu 32 (omission_count r + 1)) (first_omission_slot r) slot (om_class r)]> m.
(* @src src/poseq/src/fairness_incidents/detector.rs:254-277 FairnessIncidentDetector::record_omissions *)
Definition record_omissions (excluded : list InclusionAuditEntry) (slot : Z) d : FairnessIncidentDetector :=
  mkFairDetector (foldl (record_omission slot) (omission_records d) excluded) (incidents d).
(* @src src/poseq/src/fairness_incidents/detector.rs:327-331 FairnessIncidentDetector::clear_resolved_omissions *)
Definition clear_resolved_omissions (ids : list id32) d : FairnessIncidentDetector :=
  mkFairDetector (foldl (λ m id, delete id m) (omission_records d) ids) (incidents d).
Section detect.
Context `{Sha256}.
Definition max_streak : Z := 3.
Definition omission_incident (p : id32 * OmissionPatternRecord) : option UnfairSequencingIncident :=
  let '(id, r) := p in
  if decide (max_streak ≤ omission_count r) then
    Some (new_incident 0 (last_seen_slot r) 0 0 (Some id) (RepeatedOmission (omission_count r))
      (if decide (max_streak * 2 ≤ omission_count r) then SevCritical else SevViolation)
      (<["omission_count" := pretty (omission_count r)]>
       (<["first_slot" := pretty (first_omission_slot r)]>
        (<["last_slot" := pretty (last_seen_slot r)]> ∅))))
  else None.
Definition by_severity (a b : UnfairSequencingIncident) : comparison :=
  then_with (severity_index (severity b) ?= severity_index (severity a))
    (default 0 (ui_submission_id a) ?= default 0 (ui_submission_id b)).
(* @src src/poseq/src/fairness_incidents/detector.rs:280-320 FairnessIncidentDetector::check_repeated_omissions *)
Definition check_repeated_omissions d : list UnfairSequencingIncident :=
  sort_by by_severity (omap omission_incident (btree_list (omission_records d))).
Definition violation_incident (a : FairnessAuditRecord) (v : AntiMevViolation) : UnfairSequencingIncident :=
  let '(t, s) :=
    match violation_type v with
    | ExceededForwardReorderBound | ExceededBackwardReorderBound => (ExcessiveReorder, SevViolation)
    | ProtectedFlowDelayed => (FlowViolation, SevCritical)
    | LeaderDiscretionExceeded => (LeaderDiscretionAbuse, SevWarning)
    | SnapshotCommitmentViolation => (SnapshotOrderViolation, SevCritical)
    end in
  new_incident (fa_batch_id a) (fa_slot a) (fa_epoch a) (fa_leader_id a) (Some (vi_id v)) t s
    (<["actual_delta" := pretty (actual_delta v)]> (<["allowed_delta" := pretty (allowed_delta v)]> ∅)).
Definition entry_incident (a : FairnessAuditRecord) (e : InclusionAuditEntry) (t : FairnessViolationType)
    (s : FairnessIncidentSeverity) (ev : gmap string string) : UnfairSequencingIncident :=
  new_incident (fa_batch_id a) (fa_slot a) (fa_epoch a) (fa_leader_id a) (Some (ae_id e)) t s ev.
Definition starvation (a : FairnessAuditRecord) (threshold : Z) (e : InclusionAuditEntry)
  : option UnfairSequencingIncident :=
  if decide (threshold < ae_age_slots e ∧ included e = false) then
    Some (entry_incident a e StarvationDetected SevWarning
      (<["age_slots" := pretty (ae_age_slots e)]> (<["threshold" := pretty threshold]> ∅)))
  else None.
Definition unauthorized (a : FairnessAuditRecord) (e : InclusionAuditEntry) : option UnfairSequencingIncident :=
  if decide (included e = false ∧ exclusion_reason e = Some PolicyExcluded) then
    Some (entry_incident a e UnauthorizedOmission SevViolation {[ "class" := debug_fairness (ae_class e) ]})
  else None.
(* @src src/poseq/src/fairness_incidents/detector.rs:140-251 FairnessIncidentDetector::detect_from_audit *)
Definition detect_from_audit (a : FairnessAuditRecord) (p : FairSequencingPolicy) d
  : FairnessIncidentDetector * list UnfairSequencingIncident :=
  let d := record_omissions (filter (λ e, included e = false) (inclusion_entries a)) (fa_slot a) d in
  let detected :=
    (violation_incident a <$> violations (anti_mev_result a)) ++ check_repeated_omissions d ++
    omap (starvation a (anti_starvation_slots p)) (inclusion_entries a) ++
    omap (unauthorized a) (inclusion_entries a) in
  (mkFairDetector (omission_records d) (incidents d ++ detected), detected).
End detect.
End FairnessIncidentDetector.

(** ** Ledger *)

(* @src src/poseq/src/fairness_persistence/ledger.rs:9-16 ForcedInclusionRecord *)
Record ForcedInclusionRecord : Type := mkForcedRecord {
  fo_submission_id : id32;
  forced_in_batch : id32;
  forced_at_slot : Z;
  age_at_forcing : Z;
  fo_class : FairnessClass;
  fo_reason : string }.
(* @src src/poseq/src/fairness_persistence/ledger.rs:20-27 LeaderFairnessEntry *)
Record LeaderFairnessEntry : Type := mkLeaderEntry {
  lf_leader_id : id32;
  lf_batch_id : id32;
  lf_slot : Z;
  lf_compliant : bool;
  lf_violation_count : Z;
  incident_ids : list id32 }.
(* @src src/poseq/src/fairness_persistence/ledger.rs:31-40 FairnessLedger *)
Record FairnessLedger : Type := mkFairLedger {
  audit_records : gmap id32 FairnessAuditRecord;
  fl_incidents : list UnfairSequencingIncident;
  forced_records : list ForcedInclusionRecord;
  snapshot_commitments : gmap id32 SnapshotCommitment;
  leader_history : gmap id32 (list LeaderFairnessEntry) }.
Module FairnessLedger.
Implicit Types l : FairnessLedger.
(* @src src/poseq/src/fairness_persistence/ledger.rs:43-51 FairnessLedger::new *)
Definition new : FairnessLedger := mkFairLedger ∅ [] [] ∅ ∅.
(* @src src/poseq/src/fairness_persistence/ledger.rs:53-55 FairnessLedger::record_audit *)
Definition record_audit (r : FairnessAuditRecord) l : FairnessLedger :=
  mkFairLedger (<[fa_batch_id r := r]> (audit_records l)) (fl_incidents l) (forced_records l)
    (snapshot_commitments l) (leader_history l).
(* @src src/poseq/src/fairness_persistence/ledger.rs:57-59 FairnessLedger::record_incident *)
Definition record_incident (i : UnfairSequencingIncident) l : FairnessLedger :=
  mkFairLedger (audit_records l) (fl_incidents l ++ [i]) (forced_records l) (snapshot_commitments l)
    (leader_history l).
(* @src src/poseq/src/fairness_persistence/ledger.rs:61-63 FairnessLedger::record_forced_inclusion *)
Definition record_forced_inclusion (r : ForcedInclusionRecord) l : FairnessLedger :=
  mkFairLedger (audit_records l) (fl_incidents l) (forced_records l ++ [r]) (snapshot_commitments l)
    (leader_history l).
(* @src src/poseq/src/fairness_persistence/ledger.rs:65-67 FairnessLedger::record_snapshot_commitment *)
Definition record_snapshot_commitment (c : SnapshotCommitment) l : FairnessLedger :=
  mkFairLedger (audit_records l) (fl_incidents l) (forced_records l)
    (<[sc_snapshot_id c := c]> (snapshot_commitments l)) (leader_history l).
(* @src src/poseq/src/fairness_persistence/ledger.rs:69-74 FairnessLedger::record_leader_entry *)
Definition record_leader_entry (e : LeaderFairnessEntry) l : FairnessLedger :=
  mkFairLedger (audit_records l) (fl_incidents l) (forced_records l) (snapshot_commitments l)
    (<[lf_leader_id e := default [] (leader_history l !! lf_leader_id e) ++ [e]]> (leader_history l)).
(* @src src/poseq/src/fairness_persistence/ledger.rs:76-78 FairnessLedger::get_audit *)
Definition get_audit (batch : id32) l : option FairnessAuditRecord := audit_records l !! batch.
(* @src src/poseq/src/fairness_persistence/ledger.rs:80-85 FairnessLedger::get_leader_history *)
Definition get_leader_history (leader : id32) l : list LeaderFairnessEntry := default [] (leader_history l !! leader).
(* @src src/poseq/src/fairness_persistence/ledger.rs:87-92 FairnessLedger::get_incidents_for_leader *)
Definition get_incidents_for_leader (leader : id32) l : list UnfairSequencingIncident :=
  filter (λ i, ui_leader_id i = leader) (fl_incidents l).
End FairnessLedger.
