(* ===== verification/AntiMevProps.v ===== *)
(** * What the bounds on reordering guarantee

    Which proposed orders the validator accepts, what it lets a leader leave out, and
    what the audits it writes can show to the incident detector. *)

From stdpp Require Import gmap strings list sorting pretty.
From S2P Require Import Prelude Concrete Sorting Submissions Fairness AntiMev.

(** ** Positions *)

Lemma positions_snoc l x : positions (l ++ [x]) = <[x := Z.of_nat (length l)]> (positions l).
Proof. unfold positions. rewrite imap_app, foldl_app. cbn. by rewrite Nat.add_0_r. Qed.

(** The position of an id is that of its last occurrence. *)
Lemma positions_spec l id z :
  positions l !! id = Some z ↔
  ∃ i, z = Z.of_nat i ∧ l !! i = Some id ∧ ∀ j, (i < j)%nat → l !! j ≠ Some id.
Proof.
  revert z. induction l as [|x l IH] using rev_ind; intros z.
  { split; [done|]. intros (i & _ & Hi & _). by rewrite lookup_nil in Hi. }
  rewrite positions_snoc. destruct (decide (x = id)) as [->|Hne].
  - rewrite lookup_insert_eq. split.
    + intros [= <-]. exists (length l). split_and!; [done|by rewrite lookup_app_r, Nat.sub_diag|].
      intros j Hj. rewrite lookup_ge_None_2; [done|]. rewrite length_app. cbn. lia.
    + intros (i & -> & Hi & Hlast). f_equal. f_equal.
      destruct (decide (i < length l)%nat) as [Hlt|Hge].
      * exfalso. apply (Hlast (length l)); [lia|]. by rewrite lookup_app_r, Nat.sub_diag.
      * apply lookup_lt_Some in Hi. rewrite length_app in Hi. cbn in Hi. lia.
  - rewrite lookup_insert_ne by done. rewrite IH. split; intros (i & -> & Hi & Hlast); exists i; (split; [done|]).
    + split; [by apply lookup_app_l_Some|]. intros j Hj Hx. apply lookup_app_Some in Hx as [Hx|[Hle Hx]].
      * by apply (Hlast j).
      * apply list_lookup_singleton_Some in Hx as [_ ->]. done.
    + apply lookup_app_Some in Hi as [Hi|[Hle Hi]].
      * split; [done|]. intros j Hj Hx. apply (Hlast j Hj). by apply lookup_app_l_Some.
      * apply list_lookup_singleton_Some in Hi as [_ ->]. done.
Qed.

Lemma positions_nodup l id z :
  NoDup l → positions l !! id = Some z ↔ ∃ i, z = Z.of_nat i ∧ l !! i = Some id.
Proof.
  intros Hnd. rewrite positions_spec. split; [naive_solver|].
  intros (i & -> & Hi). exists i. split_and!; [done..|]. intros j Hj Hx.
  assert (i = j); [by eapply NoDup_lookup|lia].
Qed.
Lemma positions_is_some l id : is_Some (positions l !! id) ↔ id ∈ l.
Proof.
  induction l as [|x l IH] using rev_ind.
  { split; [by intros [? ?]|by intros ?%elem_of_nil]. }
  rewrite positions_snoc, lookup_insert_is_Some, IH, elem_of_app, list_elem_of_singleton.
  destruct (decide (x = id)); naive_solver.
Qed.

Lemma classes_nodup l id c : NoDup l.*1 → classes l !! id = Some c ↔ (id, c) ∈ l.
Proof.
  unfold classes. induction l as [|[i k] l IH] using rev_ind; intros Hnd.
  { split; [done|by intros ?%elem_of_nil]. }
  rewrite fmap_app in Hnd. apply NoDup_app in Hnd as (Hnd & Hdis & _). specialize (IH Hnd).
  rewrite foldl_app, elem_of_app, list_elem_of_singleton. cbn.
  destruct (decide (i = id)) as [->|Hne].
  - rewrite lookup_insert_eq. split; [intros [= <-]; by right|]. intros [Hin|[= ->]]; [|done].
    exfalso. apply (Hdis id); [|left]. by apply (list_elem_of_fmap_2 fst _ (id, c)).
  - rewrite lookup_insert_ne, IH by done. naive_solver.
Qed.

(** ** Deltas *)

Definition bounds_ok (p : AntiMevPolicy) : Prop :=
  Forall (λ b, 0 ≤ max_positions_forward b ∧ 0 ≤ max_positions_backward b) (reorder_bounds p).

Lemma bound_for_in p c b : AntiMevPolicy.get_reorder_bound_for p c = Some b → b ∈ reorder_bounds p.
Proof.
  unfold AntiMevPolicy.get_reorder_bound_for. destruct (List.find _ _) as [b'|] eqn:E.
  - intros [= <-]. apply List.find_some in E as [Hin _]. by apply list_elem_of_In.
  - intros Hb. apply List.find_some in Hb as [Hin _]. by apply list_elem_of_In.
Qed.

(** A class's own bound, or else the general one, says how far a submission may go. *)
Lemma validate_delta_spec p c z :
  bounds_ok p →
  AntiMevPolicy.validate_ordering_delta p c z = true ↔
  ∀ b, AntiMevPolicy.get_reorder_bound_for p c = Some b →
    - max_positions_forward b ≤ z ≤ max_positions_backward b.
Proof.
  intros Hok. unfold AntiMevPolicy.validate_ordering_delta.
  destruct (AntiMevPolicy.get_reorder_bound_for p c) as [b|] eqn:E; [|naive_solver].
  pose proof (proj1 (Forall_forall _ _) Hok b (bound_for_in _ _ _ E)) as [Hf Hb].
  rewrite andb_true_iff.
  assert (((if decide (z < 0) then bool_decide (- z ≤ max_positions_forward b) else true) = true ↔
    - max_positions_forward b ≤ z)) as ->.
  { case_decide; [rewrite bool_decide_eq_true|]; lia. }
  assert (((if decide (0 < z) then bool_decide (z ≤ max_positions_backward b) else true) = true ↔
    z ≤ max_positions_backward b)) as ->.
  { case_decide; [rewrite bool_decide_eq_true|]; lia. }
  naive_solver.
Qed.

Lemma deltas_spec snap proposed d :
  d ∈ AntiMevEngine.compute_position_deltas snap proposed ↔
  positions snap.*1 !! od_id d = Some (snapshot_position d) ∧
  positions proposed !! od_id d = Some (proposed_position d) ∧
  delta d = proposed_position d - snapshot_position d ∧
  od_class d = default Normal (classes snap !! od_id d).
Proof.
  unfold AntiMevEngine.compute_position_deltas. rewrite sort_by_perm, list_elem_of_omap. split.
  - intros ([id s] & Hin%elem_of_btree_list & Hd). cbn in Hd.
    destruct (positions proposed !! id) as [q|] eqn:E; [|done]. injection Hd as <-. cbn. done.
  - intros (Hs & Hq & Hd & Hc). exists (od_id d, snapshot_position d). split; [by apply elem_of_btree_list|].
    cbn. rewrite Hq. cbn. rewrite <- Hd, <- Hc. by destruct d.
Qed.

Lemma omap_nil {A B} (f : A → option B) l : omap f l = [] ↔ ∀ x, x ∈ l → f x = None.
Proof.
  induction l as [|x l IH]; cbn; [split; [by intros _ ? ?%elem_of_nil|done]|].
  setoid_rewrite elem_of_cons. destruct (f x) eqn:E; [split; [done|naive_solver congruence]|].
  rewrite IH. naive_solver.
Qed.

Lemma no_violation p cl d :
  AntiMevEngine.violation_of p cl d = None ↔
  AntiMevPolicy.validate_ordering_delta p (default Normal (cl !! od_id d)) (delta d) = true.
Proof.
  unfold AntiMevEngine.violation_of. destruct (AntiMevPolicy.validate_ordering_delta _ _ _); [done|].
  case_decide; done.
Qed.

(** C40: The orders the engine accepts: each submission that the snapshot and the proposal
    share is within the bound of its class, and at most the permitted share of them have
    moved at all. *)
Theorem engine_accepts p snap proposed n :
  bounds_ok p → NoDup snap.*1 →
  let deltas := AntiMevEngine.compute_position_deltas snap proposed in
  mev_valid (AntiMevEngine.apply_ordering_constraints p snap proposed n) = true ↔
  (∀ i id c q b, snap !! i = Some (id, c) → positions proposed !! id = Some q →
     AntiMevPolicy.get_reorder_bound_for p c = Some b →
     - max_positions_forward b ≤ q - Z.of_nat i ≤ max_positions_backward b) ∧
  (n = 0%nat ∨ deltas = [] ∨
   AntiMevEngine.moved_bps deltas (length deltas) ≤ max_discretion_bps (leader_discretion_limit p)).
Proof.
  intros Hok Hnd. cbv zeta. unfold AntiMevEngine.apply_ordering_constraints. cbn.
  rewrite bool_decide_eq_true, app_nil.
  assert (omap (AntiMevEngine.violation_of p (classes snap)) (AntiMevEngine.compute_position_deltas snap proposed) = [] ↔
    ∀ i id c q b, snap !! i = Some (id, c) → positions proposed !! id = Some q →
     AntiMevPolicy.get_reorder_bound_for p c = Some b →
     - max_positions_forward b ≤ q - Z.of_nat i ≤ max_positions_backward b) as ->.
  { rewrite omap_nil. setoid_rewrite deltas_spec. setoid_rewrite no_violation. split.
    - intros Hall i id c q b Hi Hq Hb.
      assert (positions snap.*1 !! id = Some (Z.of_nat i)) as Hs.
      { apply positions_nodup; [done|]. exists i. by rewrite list_lookup_fmap, Hi. }
      assert (classes snap !! id = Some c) as Hc by (apply classes_nodup; [done|by eapply list_elem_of_lookup_2]).
      specialize (Hall (mkDelta id (Z.of_nat i) q (q - Z.of_nat i) c)). cbn in Hall. rewrite Hc in Hall.
      exact (proj1 (validate_delta_spec p c _ Hok) (Hall (conj Hs (conj Hq (conj eq_refl eq_refl)))) b Hb).
    - intros Hall d (Hs & Hq & Hd & _). apply positions_nodup in Hs as (i & Hpos & Hi); [|done].
      rewrite list_lookup_fmap in Hi. destruct (snap !! i) as [[id c]|] eqn:E; [|done]. cbn in Hi. injection Hi as Hid.
      assert (classes snap !! od_id d = Some c) as Hc
        by (apply classes_nodup; [done|rewrite <- Hid; by eapply list_elem_of_lookup_2]).
      rewrite Hc. cbn. apply validate_delta_spec; [done|]. intros b Hb. rewrite Hd, Hpos.
      rewrite <- Hid in Hq. by eapply Hall. }
  apply and_iff_compat_l. case_decide as Hd; [|split; [intros _|intros _; reflexivity]].
  - split; [done|]. destruct Hd as (? & ? & ?). intros [->|[?|?]]; [lia|done|lia].
  - destruct (decide (n = 0%nat)); [by left|]. destruct (decide (AntiMevEngine.compute_position_deltas snap proposed = [])); [by right; left|].
    right; right. apply Z.nlt_ge. intros ?. apply Hd. split_and!; [lia|done|done].
Qed.

(** ** Proposals *)

Lemma flows_nil p proposed profiles :
  AntiMevEngine.validate_protected_flows p proposed profiles = [] ↔
  (enabled (protected_flow_policy p) = true → ∀ id q, profiles !! id = Some q →
     sp_class q ∈ protected_classes (protected_flow_policy p) →
     ∃ z, positions proposed !! id = Some z ∧
       z ≤ Z.min (max_delay_slots (protected_flow_policy p)) (sat_sub (Z.of_nat (length proposed)) 1)).
Proof.
  unfold AntiMevEngine.validate_protected_flows. destruct (enabled _); [|split; [by intros _ ?|done]].
  assert (∀ l : list ProtectedFlowViolation, sort_by (by_score fv_id) l = [] ↔ l = []) as ->.
  { intros l. split; [|by intros ->]. intros Hs. pose proof (sort_by_perm (by_score fv_id) l) as Hp.
    rewrite Hs in Hp. by apply Permutation_nil in Hp. }
  rewrite omap_nil. split.
  - intros Hall _ id q Hq Hc. specialize (Hall (id, q) (proj2 (elem_of_btree_list _ _ _) Hq)).
    unfold AntiMevEngine.flow_violation in Hall. rewrite decide_True in Hall by done.
    destruct (positions proposed !! id) as [z|]; [|done]. case_decide; [done|]. exists z. split; [done|lia].
  - intros Hall [id q] Hq%elem_of_btree_list. unfold AntiMevEngine.flow_violation. case_decide as Hc; [|done].
    destruct (Hall eq_refl id q Hq Hc) as (z & -> & Hz). rewrite decide_False by lia. done.
Qed.

Lemma filter_nil_iff {A} (P : A → Prop) `{!∀ x, Decision (P x)} (l : list A) :
  filter P l = [] ↔ ∀ x, x ∈ l → ¬ P x.
Proof.
  split.
  - intros Hf x Hx HP. assert (x ∈ filter P l) as Hin by (by apply list_elem_of_filter).
    rewrite Hf in Hin. by apply elem_of_nil in Hin.
  - induction l as [|x l IH]; intros Hl; [done|]. rewrite filter_cons, decide_False by (apply Hl; left).
    apply IH. intros y Hy. apply Hl. by right.
Qed.

Lemma fmap_nil_iff {A B} (f : A → B) (l : list A) : f <$> l = [] ↔ l = [].
Proof. split; [apply fmap_nil_inv|by intros ->]. Qed.

Section proposals.
Context `{Sha256, Hex}.
Implicit Types v : FairProposalValidator.

Definition snapshot_order (s : QueueSnapshot) : list (id32 * FairnessClass) :=
  (λ e, (el_id e, el_class e)) <$> sn_entries s.
Definition mev_result v proposed s : AntiMevValidationResult :=
  AntiMevEngine.apply_ordering_constraints (anti_mev_policy v) (snapshot_order s) proposed (length proposed).

(** The proposals the validator accepts: they name only what the snapshot has, keep to
    the bounds on reordering, and put every profiled submission of a protected class
    within the permitted delay. *)
Theorem validator_accepts_iff v proposed s profiles leader slot ep batch :
  valid (FairProposalValidator.validate v proposed s profiles leader slot ep batch) = true ↔
  (∀ id, id ∈ proposed → id ∈ QueueSnapshot.ordered_ids s) ∧
  mev_valid (mev_result v proposed s) = true ∧
  (enabled (protected_flow_policy (anti_mev_policy v)) = true → ∀ id q, profiles !! id = Some q →
     sp_class q ∈ protected_classes (protected_flow_policy (anti_mev_policy v)) →
     ∃ z, positions proposed !! id = Some z ∧
       z ≤ Z.min (max_delay_slots (protected_flow_policy (anti_mev_policy v)))
             (sat_sub (Z.of_nat (length proposed)) 1)).
Proof.
  unfold FairProposalValidator.validate. cbn [valid]. rewrite bool_decide_eq_true, !app_nil, !fmap_nil_iff.
  rewrite flows_nil, filter_nil_iff. unfold mev_result, AntiMevEngine.apply_ordering_constraints at 2.
  cbn [mev_valid]. rewrite bool_decide_eq_true.
  assert ((∀ id, id ∈ proposed → ¬ (id ∉ QueueSnapshot.ordered_ids s)) ↔
    (∀ id, id ∈ proposed → id ∈ QueueSnapshot.ordered_ids s)) as ->; [|done].
  split; intros Hall id Hid; [|by intros Hn; apply Hn, Hall].
  destruct (decide (id ∈ QueueSnapshot.ordered_ids s)); [done|]. by destruct (Hall id Hid).
Qed.

(** The receipt calls a batch compliant exactly when its proposal was valid and the share
    of moved submissions, now counted among all eligible ones, is within the fairness
    policy's limit as well. *)
Theorem receipt_compliant v proposed s profiles leader slot ep batch :
  let r := FairProposalValidator.validate v proposed s profiles leader slot ep batch in
  compliant (from_audit (audit_record r)) = true ↔
  valid r = true ∧
  (sn_entries s = [] ∨ AntiMevEngine.moved_bps (position_deltas (vr_anti_mev_result r)) (length (sn_entries s))
     ≤ max_leader_discretion_bps (fairness_policy v)).
Proof.
  cbv zeta. unfold FairProposalValidator.validate. cbn [valid audit_record vr_anti_mev_result].
  unfold from_audit, build_audit. cbn [compliant anti_mev_result fairness_warnings].
  rewrite andb_true_iff, !bool_decide_eq_true, !app_nil, !fmap_nil_iff.
  set (mev := AntiMevEngine.apply_ordering_constraints _ _ _ _).
  assert (mev_valid mev = true ↔ violations mev = []) as ->.
  { unfold mev, AntiMevEngine.apply_ordering_constraints. cbn [mev_valid violations]. by rewrite bool_decide_eq_true. }
  assert (length (sn_entries s) = 0%nat ↔ sn_entries s = []) as Hlen by apply length_zero_iff_nil.
  destruct (decide (sn_entries s = [])) as [E|E].
  { rewrite decide_False by (rewrite E; cbn; lia). naive_solver. }
  rewrite Nat.max_l by (destruct (sn_entries s); [done|cbn; lia]).
  case_decide as Hd.
  - split; [naive_solver|]. intros [_ [?|?]]; [done|lia].
  - assert (AntiMevEngine.moved_bps (position_deltas mev) (length (sn_entries s)) ≤ max_leader_discretion_bps (fairness_policy v)).
    { apply Z.nlt_ge. intros ?. apply Hd. split; [|done]. destruct (sn_entries s); [done|cbn; lia]. }
    naive_solver.
Qed.

(** *** Omissions *)

Lemma snapshot_ids s : (snapshot_order s).*1 = QueueSnapshot.ordered_ids s.
Proof. unfold snapshot_order, QueueSnapshot.ordered_ids. by rewrite <- list_fmap_compose. Qed.

Lemma prefix_deltas s k d :
  NoDup (QueueSnapshot.ordered_ids s) →
  d ∈ AntiMevEngine.compute_position_deltas (snapshot_order s) (take k (QueueSnapshot.ordered_ids s)) →
  delta d = 0.
Proof.
  intros Hnd (Hs & Hq & -> & _)%deltas_spec. rewrite snapshot_ids in Hs.
  assert (NoDup (take k (QueueSnapshot.ordered_ids s))) as Hnd'
    by (eapply sublist_NoDup; [exact Hnd|apply sublist_take]).
  apply positions_nodup in Hs as (i & -> & Hi); [|done]. apply positions_nodup in Hq as (j & -> & Hj); [|done].
  apply lookup_take_Some in Hj as [Hj _]. assert (i = j) as -> by exact (NoDup_lookup _ _ _ _ Hnd Hi Hj). lia.
Qed.

(** Nothing is said of what a proposal leaves out, unless it has a profile of a protected
    class: any first part of the snapshot, even the empty one, is a valid proposal, with
    forced submissions left out or not. *)
Theorem omissions_accepted v s profiles leader slot ep batch k :
  bounds_ok (anti_mev_policy v) → 0 ≤ max_discretion_bps (leader_discretion_limit (anti_mev_policy v)) →
  NoDup (QueueSnapshot.ordered_ids s) →
  (∀ id q, profiles !! id = Some q → sp_class q ∉ protected_classes (protected_flow_policy (anti_mev_policy v))) →
  valid (FairProposalValidator.validate v (take k (QueueSnapshot.ordered_ids s)) s profiles leader slot ep batch) = true.
Proof.
  intros Hok Hlim Hnd Hprof. apply validator_accepts_iff. split_and!.
  - intros id (i & Hi & _)%elem_of_take. by eapply list_elem_of_lookup_2.
  - unfold mev_result. set (ids := take k (QueueSnapshot.ordered_ids s)).
    assert (∀ d, d ∈ AntiMevEngine.compute_position_deltas (snapshot_order s) ids → delta d = 0) as Hz
      by (intros d; by apply prefix_deltas).
    unfold AntiMevEngine.apply_ordering_constraints. cbn [mev_valid]. apply bool_decide_eq_true, app_nil. split.
    + apply omap_nil. intros d Hd. apply no_violation, validate_delta_spec; [done|]. intros b Hb.
      rewrite (Hz d Hd). apply bound_for_in in Hb. pose proof (proj1 (Forall_forall _ _) Hok b Hb) as [??]. lia.
    + rewrite decide_False; [done|]. intros (_ & _ & Hlt). revert Hlt. unfold AntiMevEngine.moved_bps.
      rewrite (proj2 (filter_nil_iff (λ d, delta d ≠ 0) _)); [change (Z.of_nat (length []) * 10000) with 0; rewrite Zdiv_0_l; intros ?; lia|]. intros d Hd Hn. by apply Hn, Hz.
  - intros _ id q Hq Hc. by destruct (Hprof id q Hq).
Qed.
End proposals.

(** ** Incidents *)

Section incidents.
Context `{Sha256, Hex}.

Lemma mev_types p snap proposed n w :
  w ∈ violations (AntiMevEngine.apply_ordering_constraints p snap proposed n) →
  violation_type w ∈ [ExceededForwardReorderBound; ExceededBackwardReorderBound; LeaderDiscretionExceeded].
Proof.
  unfold AntiMevEngine.apply_ordering_constraints. cbn [violations]. intros [Hw|Hw]%elem_of_app.
  - apply list_elem_of_omap in Hw as (d & _ & Hw). unfold AntiMevEngine.violation_of in Hw.
    destruct (AntiMevPolicy.validate_ordering_delta _ _ _); [done|]. case_decide; injection Hw as <-; cbn; set_solver.
  - case_decide; [|by apply elem_of_nil in Hw]. apply list_elem_of_singleton in Hw as ->. cbn. set_solver.
Qed.

Lemma audit_reason proposed snap profiles e :
  exclusion_reason (FairProposalValidator.audit_entry proposed snap profiles e) ≠ Some PolicyExcluded.
Proof.
  unfold FairProposalValidator.audit_entry, from_decision.
  case_decide; [destruct (default false _)|]; done.
Qed.

(** The audits that the validator writes never show the detector an unauthorised omission
    or a protected flow violated: a submission left out counts as an omission, and that
    is all. *)
Theorem validator_incidents v proposed s profiles leader slot ep batch p d i :
  i ∈ (FairnessIncidentDetector.detect_from_audit
         (audit_record (FairProposalValidator.validate v proposed s profiles leader slot ep batch)) p d).2 →
  (∃ n, 3 ≤ n ∧ ui_type i = RepeatedOmission n) ∨
  ui_type i ∈ [ExcessiveReorder; LeaderDiscretionAbuse; StarvationDetected].
Proof.
  unfold FairnessIncidentDetector.detect_from_audit. cbn [snd].
  intros [Hi|[Hi|[Hi|Hi]%elem_of_app]%elem_of_app]%elem_of_app.
  - right. apply list_elem_of_fmap in Hi as (w & -> & Hw). apply mev_types in Hw.
    unfold FairnessIncidentDetector.violation_incident. destruct (violation_type w); cbn; set_solver.
  - left. unfold FairnessIncidentDetector.check_repeated_omissions in Hi. rewrite sort_by_perm in Hi.
    apply list_elem_of_omap in Hi as ([id r] & _ & Hr). unfold FairnessIncidentDetector.omission_incident in Hr.
    case_decide as Hc; [|done]. injection Hr as <-. exists (omission_count r). split; [exact Hc|done].
  - right. apply list_elem_of_omap in Hi as (e & _ & Hr). unfold FairnessIncidentDetector.starvation in Hr.
    case_decide; [|done]. injection Hr as <-. cbn. set_solver.
  - exfalso. apply list_elem_of_omap in Hi as (e & He & Hr). unfold FairnessIncidentDetector.unauthorized in Hr.
    case_decide as Hc; [|done]. destruct Hc as [_ Hc]. unfold FairProposalValidator.validate, build_audit in He.
    cbn [audit_record inclusion_entries] in He. apply list_elem_of_fmap in He as (x & -> & _).
    by apply audit_reason in Hc.
Qed.

(** *** Omissions over many batches *)

Definition omitted (id : id32) (a : FairnessAuditRecord) : nat :=
  length (filter (λ e, ae_id e = id) (filter (λ e, included e = false) (inclusion_entries a))).
Definition omitted_in (id : id32) (l : list FairnessAuditRecord) : nat := sum_list (omitted id <$> l).

Lemma record_omissions_count slot es m id :
  omission_count <$> foldl (FairnessIncidentDetector.record_omission slot) m es !! id =
  let k := length (filter (λ e, ae_id e = id) es) in
  if decide (k = 0%nat) then omission_count <$> m !! id
  else Some (wrapu 32 (default 0 (omission_count <$> m !! id) + Z.of_nat k)).
Proof.
  cbv zeta. revert m. induction es as [|e es IH]; intros m; cbn [foldl]; [done|].
  rewrite IH. unfold FairnessIncidentDetector.record_omission. rewrite filter_cons.
  destruct (decide (ae_id e = id)) as [->|Hne].
  - rewrite lookup_insert_eq. cbn [fmap option_fmap option_map default length].
    set (k := length (filter (λ e0, ae_id e0 = id) es)). rewrite (decide_False (P := S k = 0%nat)) by lia.
    assert (omission_count (default (mkOmission id 0 slot slot (ae_class e)) (m !! id)) =
      default 0 (omission_count <$> m !! id)) as Hc by (by destruct (m !! id)).
    cbn. rewrite Hc. destruct (decide (k = 0%nat)) as [->|]; [done|]. f_equal.
    unfold wrapu. rewrite Zplus_mod_idemp_l. f_equal. lia.
  - rewrite lookup_insert_ne by done. done.
Qed.

(** The count a repeated omission is reported by is the number of times the submission was
    ever left out of an audited batch, not of times in a row: being included in between
    does not reset it. *)
Theorem omission_total p audits id :
  Z.of_nat (omitted_in id audits) < 2 ^ 32 →
  omission_count <$> omission_records (foldl (λ d a, (FairnessIncidentDetector.detect_from_audit a p d).1)
    FairnessIncidentDetector.new audits) !! id =
  if decide (omitted_in id audits = 0%nat) then None else Some (Z.of_nat (omitted_in id audits)).
Proof.
  induction audits as [|a audits IH] using rev_ind; intros Hlt; [done|].
  assert (omitted_in id (audits ++ [a]) = (omitted_in id audits + omitted id a)%nat) as Hsum.
  { unfold omitted_in. rewrite fmap_app, sum_list_with_app. cbn. lia. }
  rewrite Hsum in *. rewrite foldl_app. cbn [foldl]. unfold FairnessIncidentDetector.detect_from_audit at 1.
  cbn [fst omission_records FairnessIncidentDetector.record_omissions].
  rewrite record_omissions_count, IH by lia. cbv zeta. fold (omitted id a).
  destruct (decide (omitted id a = 0%nat)) as [->|Hk].
  - rewrite Nat.add_0_r. done.
  - rewrite (decide_False (P := (omitted_in id audits + omitted id a)%nat = 0%nat)) by lia. f_equal.
    destruct (decide (omitted_in id audits = 0%nat)) as [->|]; cbn;
      rewrite wrapu_id by (split; lia); lia.
Qed.
End incidents.

(** ** Samples and witnesses *)

Definition sample_validator : FairProposalValidator :=
  mkValidator FairSequencingPolicy.default_policy AntiMevPolicy.default_policy.
Definition normal_entry (id : Z) : EligibleSubmissionEntry := mkEligible id Normal 1 id 3 (bool_decide (id = 1)).
(** Twenty ordinary submissions, the first of them forced. *)
Definition twenty : QueueSnapshot :=
  @QueueSnapshot.build sample_sha256 (normal_entry <$> seqZ 1 20) 1 1 1 1.
Definition propose (proposed : list id32) : FairnessValidationResult :=
  @FairProposalValidator.validate sample_sha256 sample_hex sample_validator proposed twenty ∅ 77 1 1 5.

(** Leaving out the last nineteen is accepted; leaving out only the first is not, since
    every other submission has then moved. *)
Example omitting_first_rejected :
  valid (propose [1]) = true ∧ valid (propose []) = true ∧ errors (propose (seqZ 2 19)) = [DiscretionExceeded].
Proof. vm_compute. done. Qed.
(** Two neighbours of twenty may change places, a submission may be listed twice, and one
    that is not in the snapshot is reported as an eligible one omitted. *)
Example swap_accepted :
  valid (propose ([2; 1] ++ seqZ 3 18)) = true ∧ valid (propose (seqZ 1 20 ++ [20])) = true ∧
  errors (propose [1; 2; 99]) = [EligibleSubmissionOmitted 99].
Proof. vm_compute. done. Qed.

(** The policy that the default configuration is converted to lacks the bounds that the
    default policy sets for two protected classes. *)
Example config_loses_bounds :
  let p := FairnessConfig.to_anti_mev_policy FairnessConfig.default_config in
  AntiMevPolicy.validate_ordering_delta AntiMevPolicy.default_policy ProtectedUserFlow 5 = false ∧
  AntiMevPolicy.validate_ordering_delta p ProtectedUserFlow 5 = true.
Proof. vm_compute. done. Qed.

Lemma default_bounds_ok : bounds_ok AntiMevPolicy.default_policy.
Proof. unfold bounds_ok. by_decide. Defined.

Lemma engine_accepts_witness :
  mev_valid (AntiMevEngine.apply_ordering_constraints AntiMevPolicy.default_policy [(1, Normal); (2, Normal)] [1; 2] 2) = true ∧
  ∀ b, AntiMevPolicy.get_reorder_bound_for AntiMevPolicy.default_policy Normal = Some b →
    - max_positions_forward b ≤ 1 - 1 ≤ max_positions_backward b.
Proof.
  assert (mev_valid (AntiMevEngine.apply_ordering_constraints AntiMevPolicy.default_policy [(1, Normal); (2, Normal)] [1; 2] 2) = true) as Hv
    by (vm_compute; reflexivity).
  split; [exact Hv|].
  pose proof (proj1 (proj1 (engine_accepts AntiMevPolicy.default_policy [(1, Normal); (2, Normal)] [1; 2] 2
    default_bounds_ok ltac:(by_decide)) Hv) 1%nat 2 Normal 1) as Hb.
  intros b Hget. apply (Hb b); [reflexivity|vm_compute; reflexivity|exact Hget].
Defined.

Lemma omissions_accepted_witness :
  valid (@FairProposalValidator.validate sample_sha256 sample_hex sample_validator (take 3 (QueueSnapshot.ordered_ids twenty))
    twenty ∅ 77 1 1 5) = true.
Proof.
  refine (@omissions_accepted sample_sha256 sample_hex sample_validator twenty ∅ 77 1 1 5 3 default_bounds_ok _ _ _).
  - by_decide.
  - by_decide.
  - intros id q Hq. by rewrite lookup_empty in Hq.
Defined.

Definition late_audit : FairnessAuditRecord := audit_record (propose (seqZ 2 19)).
Lemma validator_incidents_witness :
  ∃ i, i ∈ (@FairnessIncidentDetector.detect_from_audit sample_sha256 late_audit FairSequencingPolicy.default_policy
    FairnessIncidentDetector.new).2 ∧
  ((∃ n, 3 ≤ n ∧ ui_type i = RepeatedOmission n) ∨
   ui_type i ∈ [ExcessiveReorder; LeaderDiscretionAbuse; StarvationDetected]).
Proof.
  set (l := (@FairnessIncidentDetector.detect_from_audit sample_sha256 late_audit FairSequencingPolicy.default_policy
    FairnessIncidentDetector.new).2).
  destruct (head l) as [i|] eqn:E; [|vm_compute in E; discriminate].
  assert (i ∈ l) as Hi by (by apply head_Some_elem_of).
  exists i. split; [exact Hi|].
  exact (@validator_incidents sample_sha256 sample_hex sample_validator (seqZ 2 19) twenty ∅ 77 1 1 5
    FairSequencingPolicy.default_policy FairnessIncidentDetector.new i Hi).
Defined.

(** The first submission is left out, included, and left out twice more: three in all. *)
Lemma omission_total_witness :
  let audits := [audit_record (propose []); audit_record (propose [1]); audit_record (propose []); audit_record (propose [])] in
  omission_count <$> omission_records (foldl (λ d a, (@FairnessIncidentDetector.detect_from_audit sample_sha256 a
    FairSequencingPolicy.default_policy d).1) FairnessIncidentDetector.new audits) !! 1 = Some 3.
Proof.
  cbv zeta.
  assert (omitted_in 1 [audit_record (propose []); audit_record (propose [1]); audit_record (propose []); audit_record (propose [])] = 3%nat) as E
    by (vm_compute; reflexivity).
  rewrite (@omission_total sample_sha256 FairSequencingPolicy.default_policy
    [audit_record (propose []); audit_record (propose [1]); audit_record (propose []); audit_record (propose [])] 1).
  - by rewrite E.
  - by rewrite E.
Defined.
