(* ===== verification/Accountability.v ===== *)
(** * Accountability of a node over an epoch

    The counters of an epoch and the records they give (src/poseq/src/performance/), the
    liveness of the registered nodes (liveness/), the reward score and its multiplier
    (reward/), what is settled for a node (settlement/epoch.rs), the ranking of sequencers
    (ranking/profile.rs), the status recommendations of the enforcement rules
    (enforcement/rules.rs) and the adjudication of evidence (adjudication/engine.rs).  The
    theorems say what an epoch reports of its events, how the scores are bounded, who is
    recommended for what, and what is decided of each packet of evidence. *)

From stdpp Require Import gmap strings list sorting pretty.
From S2P Require Import Prelude Concrete Sorting.

(** ** Performance *)

(* @src src/poseq/src/performance/record.rs:6-17 NodePerformanceRecord *)
Record NodePerformanceRecord : Type := mkPerformance {
  pf_node_id : id32;
  pf_epoch : Z;
  proposals_count : Z;
  attestations_count : Z;
  missed_attestations : Z;
  fault_events : Z;
  participation_rate_bps : Z }.

(* @src src/poseq/src/performance/record.rs:22-29 NodePerformanceRecord::compute_participation_rate *)
Definition compute_participation_rate (attestations eligible_slots : Z) : Z :=
  if decide (eligible_slots = 0) then 0
  else Z.min (sat_mul 64 attestations 10000 / eligible_slots) 10000.

(* @src src/poseq/src/performance/tracker.rs:6-12 NodeCounters *)
Record NodeCounters : Type := mkCounters {
  nc_proposals : Z;
  nc_attestations : Z;
  nc_missed : Z;
  nc_faults : Z;
  nc_eligible_slots : Z }.
Definition no_counts : NodeCounters := mkCounters 0 0 0 0 0.
Definition inc64 (z : Z) : Z := wrapu 64 (z + 1).

Module PerformanceTracker.
(* @src src/poseq/src/performance/tracker.rs:18-20 PerformanceTracker *)
Definition PerformanceTracker : Type := gmap Z NodeCounters.
(* @src src/poseq/src/performance/tracker.rs:23-27 PerformanceTracker::new *)
Definition new : PerformanceTracker := ∅.
(** [entry(node_id).or_default()], updated in place. *)
Definition bump (f : NodeCounters → NodeCounters) (n : id32) (t : gmap Z NodeCounters) : gmap Z NodeCounters :=
  <[n := f (default no_counts (t !! n))]> t.
(* @src src/poseq/src/performance/tracker.rs:29-31 PerformanceTracker::record_proposal *)
Definition record_proposal : id32 → gmap Z NodeCounters → gmap Z NodeCounters :=
  bump (λ c, mkCounters (inc64 (nc_proposals c)) (nc_attestations c) (nc_missed c) (nc_faults c) (nc_eligible_slots c)).
(* @src src/poseq/src/performance/tracker.rs:33-35 PerformanceTracker::record_attestation *)
Definition record_attestation : id32 → gmap Z NodeCounters → gmap Z NodeCounters :=
  bump (λ c, mkCounters (nc_proposals c) (inc64 (nc_attestations c)) (nc_missed c) (nc_faults c) (nc_eligible_slots c)).
(* @src src/poseq/src/performance/tracker.rs:37-42 PerformanceTracker::record_missed_attestation *)
Definition record_missed_attestation : id32 → gmap Z NodeCounters → gmap Z NodeCounters :=
  bump (λ c, mkCounters (nc_proposals c) (nc_attestations c) (inc64 (nc_missed c)) (nc_faults c) (nc_eligible_slots c)).
(* @src src/poseq/src/performance/tracker.rs:44-46 PerformanceTracker::record_fault *)
Definition record_fault : id32 → gmap Z NodeCounters → gmap Z NodeCounters :=
  bump (λ c, mkCounters (nc_proposals c) (nc_attestations c) (nc_missed c) (inc64 (nc_faults c)) (nc_eligible_slots c)).
(* @src src/poseq/src/performance/tracker.rs:52-54 PerformanceTracker::record_eligible_slot *)
Definition record_eligible_slot : id32 → gmap Z NodeCounters → gmap Z NodeCounters :=
  bump (λ c, mkCounters (nc_proposals c) (nc_attestations c) (nc_missed c) (nc_faults c) (inc64 (nc_eligible_slots c))).
Definition record_of (epoch : Z) (p : Z * NodeCounters) : NodePerformanceRecord :=
  mkPerformance p.1 epoch (nc_proposals p.2) (nc_attestations p.2) (nc_missed p.2) (nc_faults p.2)
    (compute_participation_rate (nc_attestations p.2) (nc_eligible_slots p.2)).
(* @src src/poseq/src/performance/tracker.rs:58-78 PerformanceTracker::finalize_epoch *)
Definition finalize_epoch (epoch : Z) (t : gmap Z NodeCounters) : gmap Z NodeCounters * list NodePerformanceRecord :=
  (∅, record_of epoch <$> btree_list t).
End PerformanceTracker.

(** ** Liveness *)

(* @src src/poseq/src/liveness/events.rs:5-11 LivenessEvent *)
Record LivenessEvent : Type := mkLive {
  lv_node_id : id32;
  lv_epoch : Z;
  last_seen_slot : Z;
  was_proposer : bool;
  was_attestor : bool }.
(* @src src/poseq/src/liveness/events.rs:15-21 InactivityEvent *)
Record InactivityEvent : Type := mkInactive {
  ia_node_id : id32;
  detected_at_epoch : Z;
  last_active_epoch : Z;
  missed_epochs : Z }.
(* @src src/poseq/src/liveness/events.rs:25-29 LivenessEventExport *)
Record LivenessEventExport : Type := mkLivenessExport {
  lx_epoch : Z;
  active_events : list LivenessEvent;
  inactivity_events : list InactivityEvent }.

(* @src src/poseq/src/liveness/tracker.rs:13-19 LivenessTracker *)
Record LivenessTracker : Type := mkLiveness {
  last_seen_epoch : gmap Z Z;
  consecutive_missed : gmap Z Z;
  current_epoch_events : gmap Z LivenessEvent;
  inactivity_threshold : Z;
  lt_current_epoch : Z }.

Module LivenessTracker.
(* @src src/poseq/src/liveness/tracker.rs:22-30 LivenessTracker::new *)
Definition new (threshold : Z) : LivenessTracker := mkLiveness ∅ ∅ ∅ threshold 0.
(* @src src/poseq/src/liveness/tracker.rs:36-51 LivenessTracker::record_active *)
Definition record_active (n : id32) (slot : Z) (proposer attestor : bool) (t : LivenessTracker) : LivenessTracker :=
  mkLiveness (last_seen_epoch t) (consecutive_missed t)
    (<[n := mkLive n (lt_current_epoch t) slot proposer attestor]> (current_epoch_events t))
    (inactivity_threshold t) (lt_current_epoch t).
(** The body of the loop over the registered nodes, with the events emitted so far. *)
(* @src src/poseq/src/liveness/tracker.rs:66-89 LivenessTracker::finalize_epoch *)
Definition visit (epoch : Z) (acc : LivenessTracker * list InactivityEvent) (n : id32)
    : LivenessTracker * list InactivityEvent :=
  let '(t, evs) := acc in
  if decide (is_Some (current_epoch_events t !! n)) then
    (mkLiveness (<[n := epoch]> (last_seen_epoch t)) (<[n := 0]> (consecutive_missed t))
       (current_epoch_events t) (inactivity_threshold t) (lt_current_epoch t), evs)
  else
    let missed := inc64 (entry_count n (consecutive_missed t)) in
    (mkLiveness (last_seen_epoch t) (<[n := missed]> (consecutive_missed t))
       (current_epoch_events t) (inactivity_threshold t) (lt_current_epoch t),
     if decide (inactivity_threshold t < missed)
     then evs ++ [mkInactive n epoch (entry_count n (last_seen_epoch t)) missed] else evs).
(* @src src/poseq/src/liveness/tracker.rs:57-102 LivenessTracker::finalize_epoch *)
Definition finalize_epoch (epoch : Z) (registered : list id32) (t : LivenessTracker)
    : LivenessTracker * LivenessEventExport :=
  let active := btree_values (current_epoch_events t) in
  let '(t', evs) := foldl (visit epoch) (t, []) registered in
  (mkLiveness (last_seen_epoch t') (consecutive_missed t') ∅ (inactivity_threshold t') (inc64 epoch),
   mkLivenessExport epoch active evs).
End LivenessTracker.

(** ** Rewards *)

(* @src src/poseq/src/reward/poc.rs:11-18 PoCMultiplierRecord *)
Record PoCMultiplierRecord : Type := mkPoc {
  pc_operator : string;
  pc_epoch : Z;
  multiplier_bps : Z;
  pc_source : string }.

Module PoCMultiplierRecord.
(* @src src/poseq/src/reward/poc.rs:21-21 PoCMultiplierRecord::DEFAULT_MULTIPLIER_BPS *)
Definition DEFAULT_MULTIPLIER_BPS : Z := 10000.
(* @src src/poseq/src/reward/poc.rs:22-22 PoCMultiplierRecord::MIN_MULTIPLIER_BPS *)
Definition MIN_MULTIPLIER_BPS : Z := 5000.
(* @src src/poseq/src/reward/poc.rs:23-23 PoCMultiplierRecord::MAX_MULTIPLIER_BPS *)
Definition MAX_MULTIPLIER_BPS : Z := 15000.
(* @src src/poseq/src/reward/poc.rs:25-32 PoCMultiplierRecord::default_for *)
Definition default_for (op : string) (epoch : Z) : PoCMultiplierRecord :=
  mkPoc op epoch DEFAULT_MULTIPLIER_BPS "default".
(* @src src/poseq/src/reward/poc.rs:35-38 PoCMultiplierRecord::clamped_multiplier *)
Definition clamped_multiplier (r : PoCMultiplierRecord) : Z :=
  Z.min (Z.max (multiplier_bps r) MIN_MULTIPLIER_BPS) MAX_MULTIPLIER_BPS.
End PoCMultiplierRecord.

Module PoCMultiplierStore.
(* @src src/poseq/src/reward/poc.rs:42-44 PoCMultiplierStore *)
Definition PoCMultiplierStore : Type := gmap (Z * string) PoCMultiplierRecord.
(* @src src/poseq/src/reward/poc.rs:47-51 PoCMultiplierStore::new *)
Definition new : PoCMultiplierStore := ∅.
(* @src src/poseq/src/reward/poc.rs:53-55 PoCMultiplierStore::set *)
Definition set (r : PoCMultiplierRecord) (s : PoCMultiplierStore) : PoCMultiplierStore :=
  <[(pc_epoch r, pc_operator r) := r]> s.
(* @src src/poseq/src/reward/poc.rs:58-63 PoCMultiplierStore::get *)
Definition get (s : PoCMultiplierStore) (epoch : Z) (op : string) : Z :=
  match s !! (epoch, op) with
  | Some r => PoCMultiplierRecord.clamped_multiplier r
  | None => PoCMultiplierRecord.DEFAULT_MULTIPLIER_BPS
  end.
(* @src src/poseq/src/reward/poc.rs:66-68 PoCMultiplierStore::get_record *)
Definition get_record (s : PoCMultiplierStore) (epoch : Z) (op : string) : option PoCMultiplierRecord :=
  s !! (epoch, op).
End PoCMultiplierStore.

(* @src src/poseq/src/reward/score.rs:11-37 EpochRewardScore *)
Record EpochRewardScore : Type := mkScore {
  rs_node_id : id32;
  rs_operator : option string;
  rs_epoch : Z;
  base_score_bps : Z;
  uptime_score_bps : Z;
  rs_poc_multiplier_bps : Z;
  rs_fault_penalty_bps : Z;
  final_score_bps : Z;
  rs_is_bonded : bool }.

(* @src src/poseq/src/reward/score.rs:48-58 EpochRewardScore::compute_final *)
Definition compute_final (base uptime poc penalty : Z) : Z :=
  let combined := (base + uptime) / 2 in
  let scaled := wrapu 64 (combined * poc) / 10000 in
  sat_sub (Z.min scaled 20000) penalty.
(* @src src/poseq/src/reward/score.rs:61-63 EpochRewardScore::compute_fault_penalty *)
Definition compute_fault_penalty (faults : Z) : Z := Z.min (sat_mul 64 faults 500) 5000.

(* @src src/poseq/src/reward/score.rs:73-112 build_reward_score *)
Definition build_reward_score (p : NodePerformanceRecord) (lx : option LivenessEventExport) (poc : Z)
    (op : option string) (bonded : bool) : EpochRewardScore :=
  let base := participation_rate_bps p in
  let uptime := match lx with
    | Some le => if existsb (λ e, bool_decide (lv_node_id e = pf_node_id p)) (active_events le) then 10000 else 0
    | None => 0
    end in
  let penalty := compute_fault_penalty (fault_events p) in
  mkScore (pf_node_id p) op (pf_epoch p) base uptime poc penalty
    (compute_final base uptime poc penalty) bonded.

(** ** Settlement of an epoch *)

(* @src src/poseq/src/settlement/epoch.rs:11-32 EpochSettlement *)
Record EpochSettlement : Type := mkEpochSettlement {
  es_node_id : id32;
  es_operator : string;
  es_epoch : Z;
  gross_reward_score_bps : Z;
  es_poc_multiplier_bps : Z;
  es_fault_penalty_bps : Z;
  slash_penalty_bps : Z;
  net_reward_score_bps : Z;
  es_is_bonded : bool;
  slash_count : Z }.

(* @src src/poseq/src/settlement/epoch.rs:42-76 EpochSettlement::compute *)
Definition compute_settlement (n : id32) (op : string) (epoch : Z) (r : EpochRewardScore)
    (slash_bps_sum slashes : Z) (op_from_bond : option string) : EpochSettlement :=
  let gross := final_score_bps r in
  let poc := if decide (rs_poc_multiplier_bps r = 0) then 10000 else rs_poc_multiplier_bps r in
  let slash := Z.min slash_bps_sum gross in
  let net := Z.min (sat_sub gross slash) 20000 in
  mkEpochSettlement n (default op op_from_bond) epoch gross poc (rs_fault_penalty_bps r) slash net
    (rs_is_bonded r) slashes.

(** The keys are pairs of a node and an epoch, in the order of the pairs. *)
Definition pair_order {A} (x y : (Z * Z) * A) : comparison :=
  then_with (x.1.1 ?= y.1.1) (x.1.2 ?= y.1.2).

Module EpochSettlements.
(* @src src/poseq/src/settlement/epoch.rs:80-82 SettlementEngine *)
Definition SettlementEngine : Type := gmap (Z * Z) EpochSettlement.
(* @src src/poseq/src/settlement/epoch.rs:85-89 SettlementEngine::new *)
Definition new : SettlementEngine := ∅.
(* @src src/poseq/src/settlement/epoch.rs:92-95 SettlementEngine::store *)
Definition store (x : EpochSettlement) (s : SettlementEngine) : SettlementEngine :=
  <[(es_node_id x, es_epoch x) := x]> s.
(* @src src/poseq/src/settlement/epoch.rs:98-100 SettlementEngine::get *)
Definition get (s : SettlementEngine) (n : id32) (epoch : Z) : option EpochSettlement := s !! (n, epoch).
(* @src src/poseq/src/settlement/epoch.rs:103-108 SettlementEngine::for_epoch *)
Definition for_epoch (s : SettlementEngine) (epoch : Z) : list EpochSettlement :=
  filter (λ x, es_epoch x = epoch) (sort_by pair_order (map_to_list s)).*2.
(* @src src/poseq/src/settlement/epoch.rs:111-113 SettlementEngine::len *)
Definition len (s : SettlementEngine) : nat := size s.
(* @src src/poseq/src/settlement/epoch.rs:115-117 SettlementEngine::is_empty *)
Definition is_empty (s : SettlementEngine) : bool := bool_decide (s = ∅).
End EpochSettlements.

(** ** Ranking *)

(* @src src/poseq/src/ranking/profile.rs:9-20 SequencerTier *)
Inductive SequencerTier : Type := Elite | Established | Standard | Probationary | Underperforming.
#[export] Instance SequencerTier_eq_dec : EqDecision SequencerTier.
Proof. solve_decision. Defined.

(* @src src/poseq/src/ranking/profile.rs:33-56 SequencerTier::classify *)
Definition classify (bonded : bool) (poc participation faults epochs_since : Z) : SequencerTier :=
  if negb bonded then Underperforming
  else if decide (epochs_since < 3) then Probationary
  else if decide (participation < 5000 ∨ 5 < faults) then Underperforming
  else if decide (11000 < poc ∧ 9000 < participation ∧ faults = 0) then Elite
  else if decide (9000 ≤ poc ∧ 7000 ≤ participation ∧ faults ≤ 2) then Established
  else Standard.

(* @src src/poseq/src/ranking/profile.rs:64-74 SequencerRankingProfile *)
Record SequencerRankingProfile : Type := mkProfile {
  rk_node_id : id32;
  rk_operator : string;
  rk_epoch : Z;
  rk_available_bond : Z;
  rk_poc_multiplier_bps : Z;
  rk_participation_rate_bps : Z;
  fault_events_recent : Z;
  rank_score : Z;
  tier : SequencerTier }.

(* @src src/poseq/src/ranking/profile.rs:78-110 SequencerRankingProfile::build *)
Definition build_profile (n : id32) (op : string) (epoch bond poc0 participation faults epochs_since : Z)
    (bonded : bool) : SequencerRankingProfile :=
  let poc := if decide (poc0 = 0) then 10000 else poc0 in
  mkProfile n op epoch bond poc participation faults
    (wrapu 32 (wrapu 64 (participation * poc) / 10000))
    (classify bonded poc participation faults epochs_since).

Definition rank_order (a b : SequencerRankingProfile) : comparison := rank_score b ?= rank_score a.

Module RankingEngine.
(* @src src/poseq/src/ranking/profile.rs:114-116 RankingEngine *)
Definition RankingEngine : Type := gmap Z SequencerRankingProfile.
(* @src src/poseq/src/ranking/profile.rs:119-123 RankingEngine::new *)
Definition new : RankingEngine := ∅.
(* @src src/poseq/src/ranking/profile.rs:125-127 RankingEngine::store *)
Definition store (p : SequencerRankingProfile) (s : gmap Z SequencerRankingProfile)
    : gmap Z SequencerRankingProfile := <[rk_node_id p := p]> s.
(* @src src/poseq/src/ranking/profile.rs:129-131 RankingEngine::get *)
Definition get (s : gmap Z SequencerRankingProfile) (n : id32) : option SequencerRankingProfile := s !! n.
(* @src src/poseq/src/ranking/profile.rs:134-138 RankingEngine::ranked *)
Definition ranked (s : gmap Z SequencerRankingProfile) : list SequencerRankingProfile :=
  sort_by rank_order (btree_values s).
(* @src src/poseq/src/ranking/profile.rs:140-142 RankingEngine::len *)
Definition len (s : gmap Z SequencerRankingProfile) : nat := size s.
(* @src src/poseq/src/ranking/profile.rs:144-146 RankingEngine::is_empty *)
Definition is_empty (s : gmap Z SequencerRankingProfile) : bool := bool_decide (s = ∅).
End RankingEngine.

(** ** Enforcement *)

(* @src src/poseq/src/chain_bridge/exporter.rs:53-59 StatusRecommendation *)
Record StatusRecommendation : Type := mkRecommendation {
  sr_node_id : id32;
  recommended_status : string;
  sr_reason : string;
  sr_epoch : Z }.

(* @src src/poseq/src/enforcement/rules.rs:9-22 EnforcementConfig *)
Record EnforcementConfig : Type := mkEnforcement {
  inactivity_suspend_threshold : Z;
  fault_jail_threshold : Z;
  min_participation_bps : Z }.
(* @src src/poseq/src/enforcement/rules.rs:25-31 EnforcementConfig::default *)
Definition default_enforcement : EnforcementConfig := mkEnforcement 4 5 1000.

(* @src src/poseq/src/enforcement/rules.rs:38-60 evaluate_inactivity *)
Definition evaluate_inactivity (evs : list InactivityEvent) (cfg : EnforcementConfig) (epoch : Z)
    : list StatusRecommendation :=
  if decide (inactivity_suspend_threshold cfg = 0) then []
  else (λ e, mkRecommendation (ia_node_id e) "Suspended"
          ("node missed " +:+ pretty (missed_epochs e) +:+ " consecutive epochs (threshold: " +:+
           pretty (inactivity_suspend_threshold cfg) +:+ ")") epoch) <$>
       filter (λ e, inactivity_suspend_threshold cfg < missed_epochs e) evs.

Definition jail_due (cfg : EnforcementConfig) (p : NodePerformanceRecord) : Prop :=
  0 < fault_jail_threshold cfg ∧ fault_jail_threshold cfg ≤ fault_events p.
Definition low_participation (cfg : EnforcementConfig) (p : NodePerformanceRecord) : Prop :=
  0 < min_participation_bps cfg ∧ participation_rate_bps p < min_participation_bps cfg ∧
  0 < participation_rate_bps p.
#[export] Instance jail_due_dec cfg p : Decision (jail_due cfg p).
Proof. unfold jail_due. apply _. Defined.
#[export] Instance low_participation_dec cfg p : Decision (low_participation cfg p).
Proof. unfold low_participation. apply _. Defined.

Definition perf_rec (cfg : EnforcementConfig) (epoch : Z) (p : NodePerformanceRecord) : option StatusRecommendation :=
  if decide (jail_due cfg p) then
    Some (mkRecommendation (pf_node_id p) "Jailed"
      ("node recorded " +:+ pretty (fault_events p) +:+ " fault events (threshold: " +:+
       pretty (fault_jail_threshold cfg) +:+ ")") epoch)
  else if decide (low_participation cfg p) then
    Some (mkRecommendation (pf_node_id p) "Suspended"
      ("participation rate " +:+ pretty (participation_rate_bps p) +:+ "bps below minimum " +:+
       pretty (min_participation_bps cfg) +:+ "bps") epoch)
  else None.
(* @src src/poseq/src/enforcement/rules.rs:67-109 evaluate_performance *)
Definition evaluate_performance (records : list NodePerformanceRecord) (cfg : EnforcementConfig) (epoch : Z)
    : list StatusRecommendation := omap (perf_rec cfg epoch) records.

Definition merge_rec (by_node : gmap Z StatusRecommendation) (r : StatusRecommendation)
    : gmap Z StatusRecommendation :=
  let entry := default r (by_node !! sr_node_id r) in
  <[sr_node_id r :=
    if decide (recommended_status r = "Jailed" ∧ recommended_status entry = "Suspended") then r else entry]> by_node.
(* @src src/poseq/src/enforcement/rules.rs:115-137 evaluate_epoch *)
Definition evaluate_epoch (evs : list InactivityEvent) (records : list NodePerformanceRecord)
    (cfg : EnforcementConfig) (epoch : Z) : list StatusRecommendation :=
  btree_values (foldl merge_rec ∅ (evaluate_inactivity evs cfg epoch ++ evaluate_performance records cfg epoch)).

(** ** Adjudication *)

(* @src src/poseq/src/adjudication/engine.rs:9-14 AdjudicationPath *)
Inductive AdjudicationPath : Type := Automatic | GovernanceReview.
#[export] Instance AdjudicationPath_eq_dec : EqDecision AdjudicationPath.
Proof. solve_decision. Defined.
(* @src src/poseq/src/adjudication/engine.rs:18-27 AdjudicationDecision *)
Inductive AdjudicationDecision : Type := Pending | Penalized | Escalated | Dismissed.
#[export] Instance AdjudicationDecision_eq_dec : EqDecision AdjudicationDecision.
Proof. solve_decision. Defined.
(* @src src/poseq/src/adjudication/engine.rs:34-55 AdjudicationRecord *)
Record AdjudicationRecord : Type := mkAdjudication {
  ad_packet_hash : id32;
  ad_node_id : id32;
  misbehavior_type : string;
  ad_epoch : Z;
  path : AdjudicationPath;
  decision : AdjudicationDecision;
  ad_slash_bps : Z;
  decided_at_epoch : Z;
  ad_reason : string;
  auto_applied : bool }.
(* @src src/poseq/src/adjudication/engine.rs:59-64 AdjudicationError *)
Inductive AdjudicationError : Type := AlreadyFinalized (packet_hash : id32) | InvalidPacketHash.

(* @src src/poseq/src/adjudication/engine.rs:83-91 slash_bps_for_severity *)
Definition slash_bps_for_severity (severity : string) : Z :=
  if decide (severity = "Minor") then 0
  else if decide (severity = "Moderate") then 300
  else if decide (severity = "Severe") then 1000
  else if decide (severity = "Critical") then 2000
  else 0.
(* @src src/poseq/src/adjudication/engine.rs:95-97 is_auto_adjudicable *)
Definition is_auto_adjudicable (severity : string) : bool := bool_decide (severity = "Moderate").

Module AdjudicationEngine.
(* @src src/poseq/src/adjudication/engine.rs:103-106 AdjudicationEngine *)
Definition AdjudicationEngine : Type := gmap Z AdjudicationRecord.
(* @src src/poseq/src/adjudication/engine.rs:109-113 AdjudicationEngine::new *)
Definition new : AdjudicationEngine := ∅.
(** The record of a packet seen for the first time. *)
(* @src src/poseq/src/adjudication/engine.rs:139-163 AdjudicationEngine::adjudicate *)
Definition verdict (h n : id32) (kind severity : string) (epoch : Z) : AdjudicationRecord :=
  let '(way, dec) :=
    if decide (severity = "Minor") then (Automatic, Dismissed)
    else if is_auto_adjudicable severity then (Automatic, Penalized)
    else (GovernanceReview, Escalated) in
  mkAdjudication h n kind epoch way dec (slash_bps_for_severity severity) epoch
    ("auto-adjudicated: " +:+ kind +:+ " severity " +:+ severity) (bool_decide (way = Automatic)).
(* @src src/poseq/src/adjudication/engine.rs:124-167 AdjudicationEngine::adjudicate *)
Definition adjudicate (h n : id32) (kind severity : string) (epoch : Z)
    : M (gmap Z AdjudicationRecord) AdjudicationError AdjudicationRecord := λ s,
  match s !! h with
  | Some existing => if decide (decision existing ≠ Pending) then (s, Err (AlreadyFinalized h))
      else let rec := verdict h n kind severity epoch in (<[h := rec]> s, Ok rec)
  | None => let rec := verdict h n kind severity epoch in (<[h := rec]> s, Ok rec)
  end.
(* @src src/poseq/src/adjudication/engine.rs:170-172 AdjudicationEngine::get *)
Definition get (s : gmap Z AdjudicationRecord) (h : id32) : option AdjudicationRecord := s !! h.
(* @src src/poseq/src/adjudication/engine.rs:176-187 AdjudicationEngine::escalated_recommendations *)
Definition escalated_recommendations (s : gmap Z AdjudicationRecord) (epoch : Z) : list StatusRecommendation :=
  (λ r, mkRecommendation (ad_node_id r) "Jailed" (ad_reason r) epoch) <$>
  filter (λ r, ad_epoch r = epoch ∧ decision r = Escalated) (btree_values s).
(* @src src/poseq/src/adjudication/engine.rs:190-192 AdjudicationEngine::len *)
Definition len (s : gmap Z AdjudicationRecord) : nat := size s.
(* @src src/poseq/src/adjudication/engine.rs:194-196 AdjudicationEngine::is_empty *)
Definition is_empty (s : gmap Z AdjudicationRecord) : bool := bool_decide (s = ∅).
End AdjudicationEngine.

(** ** What an epoch reports of its events *)

Inductive perf_kind : Type := EvProposal | EvAttestation | EvMissed | EvFault | EvEligible.
#[export] Instance perf_kind_eq_dec : EqDecision perf_kind.
Proof. solve_decision. Defined.
Definition perf_step (t : gmap Z NodeCounters) (ev : perf_kind * id32) : gmap Z NodeCounters :=
  match ev.1 with
  | EvProposal => PerformanceTracker.record_proposal ev.2 t
  | EvAttestation => PerformanceTracker.record_attestation ev.2 t
  | EvMissed => PerformanceTracker.record_missed_attestation ev.2 t
  | EvFault => PerformanceTracker.record_fault ev.2 t
  | EvEligible => PerformanceTracker.record_eligible_slot ev.2 t
  end.
Definition perf_run (evs : list (perf_kind * id32)) : gmap Z NodeCounters := foldl perf_step PerformanceTracker.new evs.
Definition events_of (k : perf_kind) (n : id32) (evs : list (perf_kind * id32)) : Z :=
  Z.of_nat (length (filter (λ ev, ev = (k, n)) evs)).

Lemma events_snoc k n evs ev :
  events_of k n (evs ++ [ev]) = events_of k n evs + (if decide (ev = (k, n)) then 1 else 0).
Proof.
  unfold events_of. rewrite filter_app, filter_cons, filter_nil, length_app. case_decide; cbn; lia.
Qed.
Lemma events_bound k n evs : 0 ≤ events_of k n evs ≤ Z.of_nat (length evs).
Proof. unfold events_of. pose proof (length_filter (λ ev, ev = (k, n)) evs). lia. Qed.

Definition counted (n : id32) (evs : list (perf_kind * id32)) : NodeCounters :=
  mkCounters (events_of EvProposal n evs) (events_of EvAttestation n evs) (events_of EvMissed n evs)
    (events_of EvFault n evs) (events_of EvEligible n evs).

Lemma inc64_small z : 0 ≤ z < 2 ^ 64 - 1 → inc64 z = z + 1.
Proof. intros ?. apply wrapu_id. ints. Qed.

Lemma perf_run_exact evs n :
  Z.of_nat (length evs) < 2 ^ 64 →
  perf_run evs !! n = if decide (n ∈ evs.*2) then Some (counted n evs) else None.
Proof.
  unfold perf_run. revert n. induction evs as [|ev evs IH] using rev_ind; intros n Hlen; [done|].
  rewrite length_app in Hlen. cbn [length] in Hlen. rewrite foldl_app. cbn [foldl].
  specialize (λ n, IH n ltac:(lia)). set (t := foldl _ _ _) in *.
  assert (default no_counts (t !! ev.2) = counted ev.2 evs) as Ed.
  { rewrite IH. case_decide as Hin; [done|]. unfold counted, events_of, no_counts.
    assert (∀ k, filter (λ e, e = (k, ev.2)) evs = []) as E.
    { intros k. destruct (filter _ _) as [|e l] eqn:E; [done|]. destruct Hin.
      assert (e ∈ filter (λ e, e = (k, ev.2)) evs) as He by (rewrite E; left).
      apply list_elem_of_filter in He as [-> ?]. apply list_elem_of_fmap. by exists (k, ev.2). }
    by rewrite !E. }
  assert (perf_step t ev = <[ev.2 := counted ev.2 (evs ++ [ev])]> t) as ->.
  { destruct ev as [k m]. pose proof (λ k, events_bound k m evs) as Hb.
    unfold counted. rewrite !events_snoc. cbn [snd fst] in *.
    destruct k; unfold perf_step; cbn [fst snd];
      unfold PerformanceTracker.record_proposal, PerformanceTracker.record_attestation,
        PerformanceTracker.record_missed_attestation, PerformanceTracker.record_fault,
        PerformanceTracker.record_eligible_slot, PerformanceTracker.bump; rewrite Ed;
      f_equal; unfold counted; cbn [nc_proposals nc_attestations nc_missed nc_faults nc_eligible_slots];
      rewrite inc64_small by (split; [apply Hb|]; eapply Z.le_lt_trans; [apply Hb|]; lia);
      repeat (case_decide; [simplify_eq|try congruence]); f_equal; lia. }
  rewrite fmap_app. cbn [fmap list_fmap]. destruct (decide (n = ev.2)) as [->|Hne].
  - rewrite lookup_insert_eq, decide_True; [done|]. rewrite elem_of_app, list_elem_of_singleton. by right.
  - rewrite lookup_insert_ne, IH by done.
    assert (counted n (evs ++ [ev]) = counted n evs) as ->.
    { unfold counted. rewrite !events_snoc. rewrite !decide_False by (by intros ->). by rewrite !Z.add_0_r. }
    apply decide_ext. rewrite elem_of_app, list_elem_of_singleton. tauto.
Qed.

(** The records of an epoch are one for each node of which anything was recorded, in the
    order of the ids; each counts the events of its node, and the rate is that of the
    attestations among the eligible slots.  The next epoch starts from nothing. *)
Theorem perf_epoch_exact (evs : list (perf_kind * id32)) (epoch : Z) (t : gmap Z NodeCounters)
    (rs : list NodePerformanceRecord) :
  Z.of_nat (length evs) * 10000 < 2 ^ 64 →
  PerformanceTracker.finalize_epoch epoch (perf_run evs) = (t, rs) →
  t = PerformanceTracker.new ∧ StronglySorted Z.lt (pf_node_id <$> rs) ∧
  (∀ r, r ∈ rs ↔ ∃ n, n ∈ evs.*2 ∧
    let attended := events_of EvAttestation n evs in
    let slots := events_of EvEligible n evs in
    r = mkPerformance n epoch (events_of EvProposal n evs) attended (events_of EvMissed n evs)
      (events_of EvFault n evs) (if decide (slots = 0) then 0 else Z.min (attended * 10000 / slots) 10000)).
Proof.
  intros Hlen [= <- <-]. split_and!; [done|..].
  - assert (pf_node_id <$> (PerformanceTracker.record_of epoch <$> btree_list (perf_run evs)) =
            btree_keys (perf_run evs)) as ->.
    { unfold btree_keys. rewrite <- list_fmap_compose. done. }
    apply btree_keys_sorted.
  - intros r. rewrite list_elem_of_fmap. assert (∀ n,
      PerformanceTracker.record_of epoch (n, counted n evs) =
      mkPerformance n epoch (events_of EvProposal n evs) (events_of EvAttestation n evs) (events_of EvMissed n evs)
      (events_of EvFault n evs) (if decide (events_of EvEligible n evs = 0) then 0
        else Z.min (events_of EvAttestation n evs * 10000 / events_of EvEligible n evs) 10000)) as Hrec.
    { intros n. unfold PerformanceTracker.record_of, counted, compute_participation_rate. cbn.
      pose proof (events_bound EvAttestation n evs).
      assert (sat_mul 64 (events_of EvAttestation n evs) 10000 = events_of EvAttestation n evs * 10000) as -> by ints.
      done. }
    split.
    + intros ([n c] & -> & Hin). apply elem_of_btree_list in Hin.
      rewrite perf_run_exact in Hin by lia. case_decide as Hn; [|done].
      injection Hin as <-. exists n. split; [done|]. apply Hrec.
    + intros (n & Hn & ->). exists (n, counted n evs). split; [by rewrite Hrec|].
      apply elem_of_btree_list. rewrite perf_run_exact by lia. by rewrite decide_True.
Qed.

(** ** Bounds of the scores *)

Lemma poc_multiplier_bounds s epoch op : 5000 ≤ PoCMultiplierStore.get s epoch op ≤ 15000.
Proof.
  unfold PoCMultiplierStore.get. destruct (s !! _) as [r|]; [|done].
  unfold PoCMultiplierRecord.clamped_multiplier, PoCMultiplierRecord.MIN_MULTIPLIER_BPS,
    PoCMultiplierRecord.MAX_MULTIPLIER_BPS. lia.
Qed.

(** With a multiplier of the store, the score of a node is half of its participation and
    uptime, scaled and less 500 for each fault up to 5000, and never below zero; it is at
    most 15000, so neither clamp at 20000 is ever reached.  What the settlement pays and
    what the slashes take sum to the score. *)
Theorem reward_bounded (s : PoCMultiplierStore.PoCMultiplierStore) (p : NodePerformanceRecord)
    (lx : option LivenessEventExport) (operator : string) (op : option string) (bonded : bool)
    (slashed slashes : Z) :
  0 ≤ participation_rate_bps p ≤ 10000 → 0 ≤ fault_events p → 0 ≤ slashed →
  let r := build_reward_score p lx (PoCMultiplierStore.get s (pf_epoch p) operator) op bonded in
  let e := compute_settlement (pf_node_id p) operator (pf_epoch p) r slashed slashes op in
  final_score_bps r =
    Z.max 0 ((participation_rate_bps p + uptime_score_bps r) / 2 *
             PoCMultiplierStore.get s (pf_epoch p) operator / 10000 - Z.min (500 * fault_events p) 5000) ∧
  0 ≤ final_score_bps r ≤ 15000 ∧
  net_reward_score_bps e = Z.max 0 (final_score_bps r - slashed) ∧
  net_reward_score_bps e + slash_penalty_bps e = final_score_bps r.
Proof.
  intros Hp Hf Hs r e. pose proof (poc_multiplier_bounds s (pf_epoch p) operator) as Hm.
  set (m := PoCMultiplierStore.get _ _ _) in *.
  assert (0 ≤ uptime_score_bps r ≤ 10000) as Hu.
  { unfold r, build_reward_score. cbn. destruct lx; [|done]. by destruct (existsb _ _). }
  assert (0 ≤ (participation_rate_bps p + uptime_score_bps r) / 2 ≤ 10000) as Hc.
  { split; [apply Z.div_pos; lia|]. apply Z.div_le_upper_bound; lia. }
  set (c := (participation_rate_bps p + uptime_score_bps r) / 2) in *.
  assert (0 ≤ c * m ≤ 150000000) as Hcm by nia.
  assert (0 ≤ c * m / 10000 ≤ 15000) as Hd.
  { split; [apply Z.div_pos; lia|]. apply Z.div_le_upper_bound; lia. }
  assert (final_score_bps r = Z.max 0 (c * m / 10000 - Z.min (500 * fault_events p) 5000)) as Hfin.
  { change (final_score_bps r) with (compute_final (participation_rate_bps p) (uptime_score_bps r) m
      (compute_fault_penalty (fault_events p))).
    unfold compute_final. fold c. rewrite wrapu_id by ints. unfold compute_fault_penalty. ints. }
  split_and!; [done|lia|lia|..];
    unfold e, compute_settlement; cbn [net_reward_score_bps slash_penalty_bps]; unfold sat_sub; lia.
Qed.

(** A score may be built with a multiplier of zero: nothing is earned then, while the
    settlement of that score and a ranking say that the multiplier was neutral. *)
Theorem zero_multiplier_scores_nothing (p : NodePerformanceRecord) (lx : option LivenessEventExport)
    (op op' : option string) (operator : string) (bonded : bool) (slashed slashes bond since : Z) :
  0 ≤ fault_events p →
  let r := build_reward_score p lx 0 op bonded in
  let e := compute_settlement (pf_node_id p) operator (pf_epoch p) r slashed slashes op' in
  let rank := build_profile (pf_node_id p) operator (pf_epoch p) bond 0 (participation_rate_bps p)
    (fault_events p) since bonded in
  final_score_bps r = 0 ∧ es_poc_multiplier_bps e = 10000 ∧ rk_poc_multiplier_bps rank = 10000.
Proof.
  intros Hf. split_and!; [|done..]. unfold build_reward_score, compute_final. cbn.
  rewrite Z.mul_0_r. unfold compute_fault_penalty. change (wrapu 64 0 `div` 10000) with 0. ints.
Qed.

(** Beyond the range of the store the clamp is before the penalty. *)
Example clamp_before_penalty : compute_final 10000 10000 30000 1000 = 19000.
Proof. reflexivity. Qed.

(** ** Liveness over a history of epochs *)

Record epoch_run : Type := mkEpochRun {
  er_epoch : Z;
  seen : list (id32 * Z * bool * bool);
  registered : list id32 }.
Definition was_seen (e : epoch_run) (n : id32) : Prop := n ∈ (λ x, x.1.1.1) <$> seen e.
#[export] Instance was_seen_dec e n : Decision (was_seen e n).
Proof. unfold was_seen. apply _. Defined.

Definition record_all (l : list (id32 * Z * bool * bool)) (t : LivenessTracker) : LivenessTracker :=
  foldl (λ t x, LivenessTracker.record_active x.1.1.1 x.1.1.2 x.1.2 x.2 t) t l.
Definition run_epoch (e : epoch_run) (t : LivenessTracker) : LivenessTracker * LivenessEventExport :=
  LivenessTracker.finalize_epoch (er_epoch e) (registered e) (record_all (seen e) t).
(** The tracker after a history, the latest epoch first. *)
Definition liveness_run (threshold : Z) (h : list epoch_run) : LivenessTracker :=
  foldr (λ e t, (run_epoch e t).1) (LivenessTracker.new threshold) h.

(** The epochs a node missed while registered since it was last seen while registered,
    and the epoch in which that was. *)
Fixpoint missed_since (h : list epoch_run) (n : id32) : Z :=
  match h with
  | [] => 0
  | e :: h => if decide (n ∈ registered e) then
      if decide (was_seen e n) then 0 else missed_since h n + 1
    else missed_since h n
  end.
Fixpoint last_active (h : list epoch_run) (n : id32) : Z :=
  match h with
  | [] => 0
  | e :: h => if decide (n ∈ registered e ∧ was_seen e n) then er_epoch e else last_active h n
  end.

Lemma missed_bound h n : 0 ≤ missed_since h n ≤ Z.of_nat (length h).
Proof. induction h as [|e h IH]; cbn; [lia|]. repeat case_decide; lia. Qed.

Lemma record_all_spec l t :
  last_seen_epoch (record_all l t) = last_seen_epoch t ∧
  consecutive_missed (record_all l t) = consecutive_missed t ∧
  inactivity_threshold (record_all l t) = inactivity_threshold t ∧
  (∀ n, is_Some (current_epoch_events (record_all l t) !! n) ↔
    is_Some (current_epoch_events t !! n) ∨ n ∈ (λ x, x.1.1.1) <$> l).
Proof.
  revert t. induction l as [|x l IH]; intros t; [cbn; set_solver|].
  destruct (IH (LivenessTracker.record_active x.1.1.1 x.1.1.2 x.1.2 x.2 t)) as (E1 & E2 & E3 & E4).
  change (record_all (x :: l) t) with
    (record_all l (LivenessTracker.record_active x.1.1.1 x.1.1.2 x.1.2 x.2 t)).
  split_and!; [done..|]. intros n. rewrite E4. cbn [LivenessTracker.record_active current_epoch_events].
  rewrite fmap_cons, elem_of_cons, lookup_insert. destruct (decide (x.1.1.1 = n)) as [<-|Hne].
  - split; [intros _; right; by left|]. intros _. left. by eexists.
  - split; [tauto|]. intros [?|[->|?]]; [by left|done|by right].
Qed.

Lemma omap_ext_in {A B} (f g : A → option B) (l : list A) : (∀ x, x ∈ l → f x = g x) → omap f l = omap g l.
Proof.
  induction l as [|x l IH]; intros Hfg; [done|].
  change (match f x with Some y => y :: omap f l | None => omap f l end =
          match g x with Some y => y :: omap g l | None => omap g l end).
  rewrite (Hfg x) by left. rewrite IH by (intros; apply Hfg; by right). done.
Qed.

(** What the loop of [finalize_epoch] leaves and emits. *)
Definition inactive_at (epoch : Z) (t : LivenessTracker) (n : id32) : option InactivityEvent :=
  if decide (is_Some (current_epoch_events t !! n)) then None
  else let missed := inc64 (entry_count n (consecutive_missed t)) in
    if decide (inactivity_threshold t < missed)
    then Some (mkInactive n epoch (entry_count n (last_seen_epoch t)) missed) else None.

Lemma visit_all epoch l t evs t' evs' :
  NoDup l → foldl (LivenessTracker.visit epoch) (t, evs) l = (t', evs') →
  current_epoch_events t' = current_epoch_events t ∧ inactivity_threshold t' = inactivity_threshold t ∧
  evs' = evs ++ omap (inactive_at epoch t) l ∧
  ∀ n, entry_count n (consecutive_missed t') =
         (if decide (n ∈ l) then if decide (is_Some (current_epoch_events t !! n)) then 0
          else inc64 (entry_count n (consecutive_missed t)) else entry_count n (consecutive_missed t)) ∧
       entry_count n (last_seen_epoch t') =
         (if decide (n ∈ l ∧ is_Some (current_epoch_events t !! n)) then epoch
          else entry_count n (last_seen_epoch t)).
Proof.
  intros Hnd. revert t evs. induction Hnd as [|m l Hm Hnd IH]; intros t evs.
  { intros [= <- <-]. cbn. rewrite app_nil_r. split_and!; [done..|]. intros n.
    assert (n ∉ []) by apply not_elem_of_nil. by rewrite !decide_False by tauto. }
  cbn [foldl]. destruct (LivenessTracker.visit epoch (t, evs) m) as [t1 evs1] eqn:Ev. intros Hf.
  destruct (IH _ _ Hf) as (E1 & E2 & E3 & E4). clear IH Hf.
  assert (current_epoch_events t1 = current_epoch_events t ∧ inactivity_threshold t1 = inactivity_threshold t ∧
    evs1 = evs ++ omap (inactive_at epoch t) [m] ∧
    ∀ n, entry_count n (consecutive_missed t1) = (if decide (n = m) then
           if decide (is_Some (current_epoch_events t !! n)) then 0
           else inc64 (entry_count n (consecutive_missed t)) else entry_count n (consecutive_missed t)) ∧
         entry_count n (last_seen_epoch t1) = (if decide (n = m ∧ is_Some (current_epoch_events t !! n)) then epoch
           else entry_count n (last_seen_epoch t))) as (F1 & F2 & F3 & F4).
  { unfold LivenessTracker.visit in Ev. cbn [omap list_omap]. unfold inactive_at.
    destruct (decide (is_Some (current_epoch_events t !! m))) as [Hs|Hs]; injection Ev as <- <-;
      cbn [current_epoch_events inactivity_threshold consecutive_missed last_seen_epoch];
      (split_and!; [done|done|by case_decide; rewrite ?app_nil_r|]) || (split_and!; [done|done|by rewrite app_nil_r|]);
      intros n; unfold entry_count; rewrite !lookup_insert; destruct (decide (n = m)) as [->|Hne];
      rewrite ?(decide_True (P := m = m)), ?(decide_False (P := m = n)) by done; cbn;
      repeat case_decide; try done; tauto. }
  rewrite F1 in *. split_and!; [done|congruence|..].
  - rewrite E3, F3, <- app_assoc. f_equal. change (omap ?f (m :: l)) with (omap f ([m] ++ l)).
    rewrite omap_app. f_equal. apply omap_ext_in. intros k Hk.
    assert (k ≠ m) by (by intros ->). unfold inactive_at. destruct (F4 k) as [-> ->]. rewrite F1, F2.
    rewrite !(decide_False (P := k = m)), (decide_False (P := k = m ∧ _)) by tauto. done.
  - intros n. destruct (E4 n) as [-> ->], (F4 n) as [-> ->].
    destruct (decide (n = m)) as [->|Hne].
    + rewrite (decide_False (P := m ∈ l)), (decide_False (P := m ∈ l ∧ _)) by naive_solver.
      rewrite (decide_True (P := m ∈ m :: l)) by left. split; [done|].
      apply decide_ext. rewrite elem_of_cons. tauto.
    + rewrite (decide_False (P := n = m ∧ _)) by naive_solver.
      split; apply decide_ext; rewrite elem_of_cons; tauto.
Qed.

Definition history_ok (h : list epoch_run) : Prop :=
  Forall (λ e, NoDup (registered e)) h ∧ Z.of_nat (length h) < 2 ^ 64.

Lemma liveness_inv threshold h :
  history_ok h →
  let t := liveness_run threshold h in
  current_epoch_events t = ∅ ∧ inactivity_threshold t = threshold ∧
  ∀ n, entry_count n (consecutive_missed t) = missed_since h n ∧ entry_count n (last_seen_epoch t) = last_active h n.
Proof.
  intros [Hnd Hlen]. induction Hnd as [|e h He Hh IH]; [done|]. cbn [length] in Hlen.
  destruct IH as (I1 & I2 & I3); [lia|].
  change (liveness_run threshold (e :: h)) with (run_epoch e (liveness_run threshold h)).1.
  set (t := liveness_run threshold h) in *. unfold run_epoch, LivenessTracker.finalize_epoch.
  destruct (record_all_spec (seen e) t) as (R1 & R2 & R3 & R4).
  destruct (foldl _ _ _) as [t' evs] eqn:Ef.
  destruct (visit_all _ _ _ _ _ _ He Ef) as (V1 & V2 & _ & V4). cbn.
  split_and!; [done|congruence|]. intros n. destruct (V4 n) as [-> ->].
  rewrite R1, R2, (proj1 (I3 n)), (proj2 (I3 n)).
  assert (is_Some (current_epoch_events (record_all (seen e) t) !! n) ↔ was_seen e n) as Hs.
  { rewrite R4, I1, lookup_empty. unfold was_seen. naive_solver. }
  pose proof (missed_bound h n). rewrite inc64_small by lia.
  split.
  - destruct (decide (n ∈ registered e)); [|done]. by apply decide_ext.
  - apply decide_ext. by rewrite Hs.
Qed.

(** An epoch reports as inactive exactly the registered nodes that were not seen in it and
    have by then missed more epochs in a row than the threshold, in the order of the
    registration, with the number missed and the epoch in which each was last active. *)
Theorem liveness_exact (threshold : Z) (h : list epoch_run) (e : epoch_run) :
  history_ok (e :: h) →
  let lx := (run_epoch e (liveness_run threshold h)).2 in
  inactivity_events lx = omap (λ n,
    if decide (was_seen e n) then None
    else if decide (threshold < missed_since h n + 1)
         then Some (mkInactive n (er_epoch e) (last_active h n) (missed_since h n + 1)) else None) (registered e) ∧
  ∀ n, n ∈ lv_node_id <$> active_events lx → was_seen e n.
Proof.
  intros [Hnd Hlen]. apply Forall_cons in Hnd as [He Hh]. cbn [length] in Hlen.
  destruct (liveness_inv threshold h) as (I1 & I2 & I3); [split; [done|lia]|].
  set (t := liveness_run threshold h) in *. unfold run_epoch, LivenessTracker.finalize_epoch.
  destruct (record_all_spec (seen e) t) as (R1 & R2 & R3 & R4).
  assert (∀ n, is_Some (current_epoch_events (record_all (seen e) t) !! n) ↔ was_seen e n) as Hs.
  { intros n. rewrite R4, I1, lookup_empty. unfold was_seen. naive_solver. }
  destruct (foldl _ _ _) as [t' evs] eqn:Ef.
  destruct (visit_all _ _ _ _ _ _ He Ef) as (_ & _ & V3 & _). cbn. split.
  - rewrite V3. cbn [app]. apply omap_ext_in. intros n _. unfold inactive_at. rewrite R1, R2, R3, I2.
    destruct (I3 n) as [-> ->]. pose proof (missed_bound h n). rewrite inc64_small by lia.
    by apply decide_ext.
  - intros n (ev & -> & Hev)%list_elem_of_fmap. apply elem_of_btree_values in Hev as [k Hk].
    assert (lv_node_id ev = k) as ->; [|by apply Hs].
    clear -I1 Hk. revert k Hk. unfold record_all. induction (seen e) as [|x l IH] using rev_ind; intros k.
    { cbn. by rewrite I1, lookup_empty. }
    rewrite foldl_app. cbn. rewrite lookup_insert. case_decide; [by intros [= <-]|]. apply IH.
Qed.

(** ** Enforcement *)

Section enforcement.
Context (evs : list InactivityEvent) (records : list NodePerformanceRecord) (cfg : EnforcementConfig) (epoch : Z).

Definition jail_case (n : id32) : Prop := ∃ p, p ∈ records ∧ pf_node_id p = n ∧ jail_due cfg p.
Definition suspend_case (n : id32) : Prop :=
  (∃ e, e ∈ evs ∧ ia_node_id e = n ∧ inactivity_suspend_threshold cfg ≠ 0 ∧
        inactivity_suspend_threshold cfg < missed_epochs e) ∨
  (∃ p, p ∈ records ∧ pf_node_id p = n ∧ ¬ jail_due cfg p ∧ low_participation cfg p).

Lemma all_recs_spec n s :
  (∃ r, r ∈ evaluate_inactivity evs cfg epoch ++ evaluate_performance records cfg epoch ∧
        sr_node_id r = n ∧ recommended_status r = s) ↔
  (s = "Jailed" ∧ jail_case n) ∨ (s = "Suspended" ∧ suspend_case n).
Proof.
  unfold jail_case, suspend_case. setoid_rewrite elem_of_app. split.
  - intros (r & [Hr|Hr] & <- & <-).
    + unfold evaluate_inactivity in Hr. case_decide; [by apply elem_of_nil in Hr|].
      apply list_elem_of_fmap in Hr as (e & -> & [??]%list_elem_of_filter). cbn. right. split; [done|]. left. eauto.
    + apply list_elem_of_omap in Hr as (p & Hp & Er). unfold perf_rec in Er.
      repeat case_decide; simplify_eq; cbn; eauto 10.
  - intros [[-> (p & Hp & <- & Hj)]|[-> [(e & He & <- & H0 & Hm)|(p & Hp & <- & Hj & Hl)]]].
    + eexists. split; [right; apply list_elem_of_omap; exists p; split; [done|]|].
      { unfold perf_rec. by rewrite decide_True. } done.
    + eexists. split; [left|].
      { unfold evaluate_inactivity. rewrite decide_False by done. apply list_elem_of_fmap.
        exists e. split; [done|]. by apply list_elem_of_filter. } done.
    + eexists. split; [right; apply list_elem_of_omap; exists p; split; [done|]|].
      { unfold perf_rec. rewrite decide_False by done. by rewrite decide_True. } done.
Qed.

Lemma all_recs_status r :
  r ∈ evaluate_inactivity evs cfg epoch ++ evaluate_performance records cfg epoch →
  recommended_status r = "Jailed" ∨ recommended_status r = "Suspended".
Proof.
  intros Hr. destruct (proj1 (all_recs_spec (sr_node_id r) (recommended_status r))) as [[? _]|[? _]]; eauto.
Qed.
End enforcement.

(** Merging keeps, of each node, a recommendation of the strongest status seen. *)
Lemma merge_spec l n :
  Forall (λ r, recommended_status r = "Jailed" ∨ recommended_status r = "Suspended") l →
  match foldl merge_rec ∅ l !! n with
  | None => ∀ r, r ∈ l → sr_node_id r ≠ n
  | Some r => r ∈ l ∧ sr_node_id r = n ∧
      (recommended_status r = "Suspended" → ∀ r', r' ∈ l → sr_node_id r' = n → recommended_status r' = "Suspended")
  end.
Proof.
  induction l as [|x l IH] using rev_ind; intros Hl;
    [cbn [foldl]; rewrite lookup_empty; by intros r ?%elem_of_nil|].
  apply Forall_app in Hl as [Hl Hx]. apply Forall_inv in Hx. specialize (IH Hl).
  rewrite foldl_app. cbn [foldl]. set (m := foldl merge_rec ∅ l) in *. unfold merge_rec at 1.
  destruct (decide (sr_node_id x = n)) as [<-|Hne].
  - rewrite lookup_insert_eq. destruct (m !! sr_node_id x) as [r0|] eqn:E; cbn.
    + destruct IH as (Hr0 & Hn & Hs). destruct (decide _) as [[Hj Hsus]|Hd].
      * split_and!; [set_solver|done|]. rewrite Hj. intros [=].
      * split_and!; [set_solver|done|]. intros Es r' [Hr'|Ex%list_elem_of_singleton]%elem_of_app Hn'; [by apply Hs|].
        subst r'. destruct Hx as [Hj|Hx]; [by destruct Hd|exact Hx].
    + assert ((if decide (recommended_status x = "Jailed" ∧ recommended_status x = "Suspended") then x else x) = x)
        as -> by (by case_decide).
      split_and!; [set_solver|done|]. intros Es r' [Hr'|Ex%list_elem_of_singleton]%elem_of_app Hn';
        [by destruct (IH _ Hr')|by subst r'].
  - rewrite lookup_insert_ne by done. destruct (m !! n) as [r0|].
    + destruct IH as (Hr0 & Hn & Hs). split_and!; [set_solver|done|].
      intros Es r' [Hr'|Ex%list_elem_of_singleton]%elem_of_app Hn'; [|subst r']; [by apply Hs|done].
    + intros r' [Hr'|Ex%list_elem_of_singleton]%elem_of_app; [|subst r']; [by apply IH|done].
Qed.

(** An epoch recommends one status at most for a node: jail exactly where a record shows
    as many faults as the threshold, suspension exactly where none does but the node was
    inactive for more epochs than the threshold or took part too little, though not where
    it took no part at all. *)
Theorem enforcement_exact (evs : list InactivityEvent) (records : list NodePerformanceRecord)
    (cfg : EnforcementConfig) (epoch : Z) :
  let l := evaluate_epoch evs records cfg epoch in
  NoDup (sr_node_id <$> l) ∧
  ∀ n s, (∃ r, r ∈ l ∧ sr_node_id r = n ∧ recommended_status r = s) ↔
    (s = "Jailed" ∧ jail_case records cfg n) ∨
    (s = "Suspended" ∧ ¬ jail_case records cfg n ∧ suspend_case evs records cfg n).
Proof.
  intros l. set (recs := evaluate_inactivity evs cfg epoch ++ evaluate_performance records cfg epoch).
  set (m := foldl merge_rec ∅ recs).
  assert (∀ n, match m !! n with
    | None => ∀ r, r ∈ recs → sr_node_id r ≠ n
    | Some r => r ∈ recs ∧ sr_node_id r = n ∧ (recommended_status r = "Suspended" →
        ∀ r', r' ∈ recs → sr_node_id r' = n → recommended_status r' = "Suspended") end) as Hm.
  { intros n. apply merge_spec, Forall_forall. intros r. apply all_recs_status. }
  assert (∀ n s, (∃ r, r ∈ l ∧ sr_node_id r = n ∧ recommended_status r = s) ↔
      ∃ r, m !! n = Some r ∧ recommended_status r = s) as Hl.
  { intros n s. split.
    - intros (r & [k Hk]%elem_of_btree_values & <- & <-). fold recs m in Hk. specialize (Hm k). rewrite Hk in Hm.
      destruct Hm as (_ & -> & _). eauto.
    - intros (r & Hr & <-). specialize (Hm n). rewrite Hr in Hm. exists r. split_and!; [|naive_solver|done].
      apply elem_of_btree_values. by exists n. }
  split.
  - assert (sr_node_id <$> l = btree_keys m) as ->; [|apply NoDup_btree_keys].
    unfold l, evaluate_epoch, btree_values, btree_keys. fold recs m. rewrite <- list_fmap_compose.
    apply list_fmap_ext. intros i [k r] Hi. cbn. apply list_elem_of_lookup_2, elem_of_btree_list in Hi.
    specialize (Hm k). rewrite Hi in Hm. naive_solver.
  - intros n s. rewrite Hl. specialize (Hm n).
    pose proof (all_recs_spec evs records cfg epoch n) as Ha. fold recs in Ha. destruct (m !! n) as [r|].
    + destruct Hm as (Hr & Hn & Hs).
      pose proof (proj1 (Ha (recommended_status r)) ltac:(eauto)) as Hcase.
      assert (∀ s, (∃ r0, Some r = Some r0 ∧ recommended_status r0 = s) ↔ recommended_status r = s) as -> by naive_solver.
      destruct Hcase as [[E Hj]|[E Hsus]]; rewrite E in *.
      * split; [intros <-; by left|]. intros [[-> _]|[_ [[] _]]]; done.
      * split.
        { intros <-. right. split_and!; [done| |done]. intros Hj.
          destruct (proj2 (Ha "Jailed")) as (r' & Hr' & Hn' & E'); [by left|].
          rewrite (Hs eq_refl r' Hr' Hn') in E'. done. }
        intros [[-> Hj]|[-> _]]; [|done]. destruct (proj2 (Ha "Jailed")) as (r' & Hr' & Hn' & E'); [by left|].
        by rewrite (Hs eq_refl r' Hr' Hn') in E'.
    + split; [naive_solver|]. intros Hc. exfalso.
      destruct (proj2 (Ha s)) as (r & Hr & Hn & _); [naive_solver|]. by apply (Hm r).
Qed.

(** A node that attested in none of its slots is not suspended for it. *)
Theorem absentee_not_suspended (n : id32) (e slots faults proposals missed : Z) (cfg : EnforcementConfig) :
  faults < fault_jail_threshold cfg →
  evaluate_performance
    [mkPerformance n e proposals 0 missed faults (compute_participation_rate 0 slots)] cfg e = [].
Proof.
  intros Hf. unfold evaluate_performance, perf_rec, jail_due, low_participation. cbn.
  rewrite decide_False by (cbn; lia). rewrite decide_False; [done|]. cbn.
  unfold compute_participation_rate. case_decide; [lia|]. change (sat_mul 64 0 10000) with 0.
  rewrite Z.div_0_l by done. lia.
Qed.

(** ** Adjudication *)

Definition report : Type := id32 * id32 * string * string * Z.
Definition rp_hash (r : report) : id32 := r.1.1.1.1.
Definition rp_severity (r : report) : string := r.1.2.
Definition adjudicate_report (r : report) : M (gmap Z AdjudicationRecord) AdjudicationError AdjudicationRecord :=
  AdjudicationEngine.adjudicate r.1.1.1.1 r.1.1.1.2 r.1.1.2 r.1.2 r.2.
Definition verdict_of (r : report) : AdjudicationRecord :=
  AdjudicationEngine.verdict r.1.1.1.1 r.1.1.1.2 r.1.1.2 r.1.2 r.2.
Definition adjudicate_all (l : list report) : gmap Z AdjudicationRecord :=
  foldl (λ s r, (adjudicate_report r s).1) AdjudicationEngine.new l.
(** The first report of a packet. *)
Definition first_report (h : id32) (l : list report) : option report :=
  List.find (λ r, bool_decide (rp_hash r = h)) l.

Lemma verdict_fields r :
  ad_epoch (verdict_of r) = r.2 ∧ ad_node_id (verdict_of r) = r.1.1.1.2 ∧
  decision (verdict_of r) = if decide (rp_severity r = "Minor") then Dismissed
    else if decide (rp_severity r = "Moderate") then Penalized else Escalated.
Proof.
  unfold verdict_of, AdjudicationEngine.verdict, is_auto_adjudicable. fold (rp_severity r).
  destruct (decide (rp_severity r = "Minor")); [done|].
  destruct (decide (rp_severity r = "Moderate")); [by rewrite bool_decide_true|by rewrite bool_decide_false].
Qed.
Lemma verdict_decided r : decision (verdict_of r) ≠ Pending.
Proof. destruct (verdict_fields r) as (_ & _ & ->). by repeat case_decide. Qed.

Lemma first_report_app h l l' :
  first_report h (l ++ l') = match first_report h l with Some r => Some r | None => first_report h l' end.
Proof. unfold first_report. induction l as [|r l IH]; [done|]. cbn. by case_bool_decide. Qed.

(** The engine holds for each packet what its first report led to, and a later report of
    the same packet, whatever its severity, is refused and changes nothing. *)
Lemma adjudicate_all_lookup l h : adjudicate_all l !! h = verdict_of <$> first_report h l.
Proof.
  unfold adjudicate_all. revert h. induction l as [|r l IH] using rev_ind; intros h; [done|].
  rewrite foldl_app, first_report_app. cbn [foldl]. set (s := foldl _ _ _) in *.
  unfold adjudicate_report, AdjudicationEngine.adjudicate. fold (rp_hash r). rewrite (IH (rp_hash r)).
  assert (first_report h [r] = if decide (rp_hash r = h) then Some r else None) as ->.
  { unfold first_report. cbn. by case_bool_decide; case_decide. }
  destruct (first_report (rp_hash r) l) as [r0|] eqn:E; cbn.
  - rewrite decide_True by apply verdict_decided. cbn. rewrite IH.
    destruct (decide (rp_hash r = h)); subst; [by rewrite E|by destruct (first_report h l)].
  - destruct (decide (rp_hash r = h)) as [<-|Hne].
    + by rewrite lookup_insert_eq, E.
    + rewrite lookup_insert_ne, IH by done. by destruct (first_report h l).
Qed.

(** After any reports, the record of a packet is that of the first report of it: dismissed
    if that said Minor, penalized if Moderate and escalated otherwise, whatever the
    severity is; a further report is refused, and the nodes recommended for jail are those
    of the escalated packets of the epoch. *)
Theorem adjudicated_once (l : list report) :
  let s := adjudicate_all l in
  (∀ h, AdjudicationEngine.get s h = verdict_of <$> first_report h l) ∧
  (∀ r, is_Some (first_report (rp_hash r) l) → adjudicate_report r s = (s, Err (AlreadyFinalized (rp_hash r)))) ∧
  (∀ e n, n ∈ sr_node_id <$> AdjudicationEngine.escalated_recommendations s e ↔
    ∃ r, first_report (rp_hash r) l = Some r ∧ r.1.1.1.2 = n ∧ r.2 = e ∧
      rp_severity r ≠ "Minor" ∧ rp_severity r ≠ "Moderate").
Proof.
  intros s. split_and!.
  - apply adjudicate_all_lookup.
  - intros r [r0 E]. unfold adjudicate_report, AdjudicationEngine.adjudicate. fold (rp_hash r).
    unfold s. rewrite adjudicate_all_lookup, E. cbn. by rewrite decide_True by apply verdict_decided.
  - assert (∀ r, decision (verdict_of r) = Escalated ↔ rp_severity r ≠ "Minor" ∧ rp_severity r ≠ "Moderate") as Hd.
    { intros r. destruct (verdict_fields r) as (_ & _ & ->). repeat case_decide; naive_solver. }
    assert (∀ r, ad_epoch (verdict_of r) = r.2 ∧ ad_node_id (verdict_of r) = r.1.1.1.2) as Hf.
    { intros r. by destruct (verdict_fields r) as (-> & -> & _). }
    intros e n. unfold AdjudicationEngine.escalated_recommendations. rewrite <- list_fmap_compose, list_elem_of_fmap.
    setoid_rewrite list_elem_of_filter. setoid_rewrite elem_of_btree_values. split.
    + intros (x & -> & [He Hx] & h & Hh). unfold s in Hh. rewrite adjudicate_all_lookup in Hh.
      apply fmap_Some in Hh as (r & Hr & ->). apply Hd in Hx. destruct (Hf r) as [E1 E2]. exists r.
      assert (rp_hash r = h) as -> by (apply find_some in Hr as [_ Hr]; by apply bool_decide_eq_true in Hr).
      split_and!; [done|by rewrite <- E2|congruence|tauto..].
    + intros (r & Hr & <- & <- & Hs). exists (verdict_of r). destruct (Hf r) as [E1 E2].
      split_and!; [by cbn; rewrite E2|by rewrite E1|by apply Hd|].
      exists (rp_hash r). unfold s. by rewrite adjudicate_all_lookup, Hr.
Qed.

(** A record escalated to governance has a slash in it all the same. *)
Example escalated_has_slash :
  let r := AdjudicationEngine.verdict 1 2 "Equivocation" "Critical" 3 in
  decision r = Escalated ∧ ad_slash_bps r = 2000.
Proof. split; reflexivity. Qed.

(** ** Ranking *)

Lemma ranked_sorted (l : list (Z * SequencerRankingProfile)) :
  StronglySorted key_le l → NoDup l.*1 → Forall (λ p, rk_node_id p.2 = p.1) l →
  StronglySorted (λ a b, rank_score b < rank_score a ∨
    (rank_score a = rank_score b ∧ rk_node_id a < rk_node_id b)) (sort_by rank_order l.*2).
Proof.
  induction 1 as [|p l Hs IH Hall]; intros Hnd Hk; [constructor|].
  cbn in Hnd. apply NoDup_cons in Hnd as [Hnin Hnd]. apply Forall_cons in Hk as [Hp Hk].
  change (sort_by rank_order (p :: l).*2) with (insert_by rank_order p.2 (sort_by rank_order l.*2)).
  specialize (IH Hnd Hk).
  assert (Forall (λ b, rk_node_id p.2 < rk_node_id b) (sort_by rank_order l.*2)) as Hid.
  { rewrite sort_by_perm. apply Forall_forall. intros b (q & -> & Hq)%list_elem_of_fmap.
    pose proof (proj1 (Forall_forall _ _) Hall q Hq) as Hle. unfold key_le in Hle.
    pose proof (proj1 (Forall_forall _ _) Hk q Hq) as Eq. cbn in Eq. rewrite Hp, Eq.
    assert (p.1 ≠ q.1); [|lia]. intros E. destruct Hnin. apply list_elem_of_fmap. by exists q. }
  induction IH as [|y ys Hys IHys Hy]; [by repeat constructor|].
  apply Forall_cons in Hid as [Hpy Hid]. cbn. unfold rank_order at 1.
  destruct (Z.compare_spec (rank_score y) (rank_score p.2)) as [E|E|E].
  - constructor; [by constructor|]. constructor; [by right|].
    apply Forall_forall. intros b Hb. pose proof (proj1 (Forall_forall _ _) Hy b Hb).
    pose proof (proj1 (Forall_forall _ _) Hid b Hb). cbn in *. lia.
  - constructor; [by constructor|]. constructor; [by left|].
    eapply Forall_impl; [exact Hy|]. cbn. lia.
  - constructor; [by apply IHys|]. rewrite insert_by_perm. constructor; [|done]. left. lia.
Qed.

Definition rank_all (l : list SequencerRankingProfile) : gmap Z SequencerRankingProfile :=
  foldl (λ s p, RankingEngine.store p s) RankingEngine.new l.

Lemma rank_all_keys l n p : rank_all l !! n = Some p → rk_node_id p = n.
Proof.
  unfold rank_all. revert n p. induction l as [|x l IH] using rev_ind; intros n p; [done|].
  rewrite foldl_app. cbn. unfold RankingEngine.store. rewrite lookup_insert. case_decide; [by intros [= <-]|apply IH].
Qed.

(** The ranking lists the last profile of every node once, the higher score first and the
    lower id first among equals, whether the node is bonded or not. *)
Theorem ranked_spec (l : list SequencerRankingProfile) :
  let s := rank_all l in
  RankingEngine.ranked s ≡ₚ btree_values s ∧
  StronglySorted (λ a b, rank_score b < rank_score a ∨
    (rank_score a = rank_score b ∧ rk_node_id a < rk_node_id b)) (RankingEngine.ranked s) ∧
  ∀ p, p ∈ RankingEngine.ranked s ↔ RankingEngine.get s (rk_node_id p) = Some p.
Proof.
  intros s. split_and!.
  - apply sort_by_perm.
  - apply ranked_sorted; [apply btree_list_sorted|apply NoDup_btree_keys|].
    apply Forall_forall. intros [n p] Hp%elem_of_btree_list. by apply (rank_all_keys l).
  - intros p. unfold RankingEngine.ranked. rewrite sort_by_perm, elem_of_btree_values. unfold RankingEngine.get.
    split; [|by eauto]. intros [n Hn]. by rewrite (rank_all_keys l n p Hn).
Qed.

(** A rank score is the rate scaled by the multiplier, without overflow. *)
Theorem rank_score_exact (n : id32) (op : string) (e bond poc rate faults since : Z) (bonded : bool) :
  0 ≤ rate ≤ 10000 → fits 32 poc →
  rank_score (build_profile n op e bond poc rate faults since bonded) =
  rate * (if decide (poc = 0) then 10000 else poc) / 10000.
Proof.
  intros Hr Hp. unfold build_profile. cbn [rank_score]. set (m := if decide _ then _ else _).
  assert (0 ≤ m < 2 ^ 32) as Hm by (unfold m; case_decide; ints).
  assert (0 ≤ rate * m ≤ 10000 * m) by nia.
  rewrite (wrapu_id 64) by ints. apply wrapu_id. split; [apply Z.div_pos; lia|].
  apply Z.div_lt_upper_bound; lia.
Qed.

(** What each tier requires. *)
Theorem tier_spec (bonded : bool) (poc rate faults since : Z) :
  0 ≤ faults →
  match classify bonded poc rate faults since with
  | Elite => bonded = true ∧ 3 ≤ since ∧ 11000 < poc ∧ 9000 < rate ∧ faults = 0
  | Established => bonded = true ∧ 3 ≤ since ∧ 9000 ≤ poc ∧ 7000 ≤ rate ∧ faults ≤ 2
  | Standard => bonded = true ∧ 3 ≤ since ∧ 5000 ≤ rate ∧ faults ≤ 5 ∧ (poc < 9000 ∨ rate < 7000 ∨ 2 < faults)
  | Probationary => bonded = true ∧ since < 3
  | Underperforming => bonded = false ∨ (3 ≤ since ∧ (rate < 5000 ∨ 5 < faults))
  end.
Proof.
  intros Hf. unfold classify. destruct bonded; cbn; [|by left].
  repeat case_decide; try lia; tauto.
Qed.

(** ** Runs *)

Definition sample_perf : list (perf_kind * id32) :=
  [(EvEligible, 2); (EvAttestation, 2); (EvEligible, 2); (EvFault, 1); (EvProposal, 2)].
Lemma perf_epoch_exact_witness :
  let rs := (PerformanceTracker.finalize_epoch 7 (perf_run sample_perf)).2 in
  rs = [mkPerformance 1 7 0 0 0 1 0; mkPerformance 2 7 1 1 0 0 5000] ∧ StronglySorted Z.lt (pf_node_id <$> rs).
Proof.
  split; [by vm_compute|].
  destruct (perf_epoch_exact sample_perf 7 ∅ (PerformanceTracker.finalize_epoch 7 (perf_run sample_perf)).2)
    as (_ & H & _); [by vm_compute|reflexivity|exact H].
Defined.

Definition sample_record : NodePerformanceRecord := mkPerformance 3 1 2 9 1 2 9000.
Lemma reward_bounded_witness :
  let r := build_reward_score sample_record (Some (mkLivenessExport 1 [mkLive 3 1 5 true true] [])) 10000 None true in
  final_score_bps r = 8500 ∧ 0 ≤ final_score_bps r ≤ 15000.
Proof.
  split; [by vm_compute|].
  destruct (reward_bounded ∅ sample_record (Some (mkLivenessExport 1 [mkLive 3 1 5 true true] [])) "op" None true 0 0)
    as (_ & H & _); [by vm_compute..|exact H].
Defined.

Lemma zero_multiplier_scores_nothing_witness :
  final_score_bps (build_reward_score sample_record None 0 None true) = 0.
Proof.
  destruct (zero_multiplier_scores_nothing sample_record None None None "op" true 0 0 0 5) as (H & _);
    [by vm_compute|exact H].
Defined.

Definition sample_history : list epoch_run :=
  [mkEpochRun 3 [(2, 30, true, true)] [1; 2]; mkEpochRun 2 [] [1; 2]; mkEpochRun 1 [(1, 10, false, true)] [1; 2]].
Lemma liveness_exact_witness :
  let e := mkEpochRun 4 [] [1; 2] in
  inactivity_events (run_epoch e (liveness_run 2 sample_history)).2 = [mkInactive 1 4 1 3].
Proof.
  destruct (liveness_exact 2 sample_history (mkEpochRun 4 [] [1; 2])) as [H _].
  { split; [|by vm_compute]. repeat constructor; set_solver. }
  etransitivity; [exact H|by vm_compute].
Defined.

Lemma absentee_not_suspended_witness :
  evaluate_performance [mkPerformance 1 2 0 0 100 0 (compute_participation_rate 0 100)] default_enforcement 2 = [].
Proof. by apply absentee_not_suspended. Defined.

Example attendee_suspended :
  recommended_status <$>
    evaluate_performance [mkPerformance 1 2 0 1 99 0 (compute_participation_rate 1 100)] default_enforcement 2 =
  ["Suspended"].
Proof. reflexivity. Qed.

Lemma rank_score_exact_witness : rank_score (build_profile 1 "op" 1 0 12000 9000 0 9 false) = 10800.
Proof. rewrite (rank_score_exact 1 "op" 1 0 12000 9000 0 9 false); [reflexivity|by_eval..]. Defined.

Lemma tier_spec_witness : classify true 12000 9500 0 5 = Elite ∧ 11000 < 12000.
Proof. split; [reflexivity|]. exact (proj1 (proj2 (proj2 (tier_spec true 12000 9500 0 5 ltac:(by_eval))))). Defined.
