(* ===== verification/Misbehavior.v ===== *)
(** * Misbehavior and penalties

    The kinds of misbehavior, their evidence and cases, the history of a node, and the
    enforcer that forwards reports to the slashing store (src/poseq/src/misbehavior/), the
    classes of the enforcement rules (enforcement/classification.rs) and the penalties that
    are recommended (penalties/).  The theorems say which reports slash, what evidence and
    payload hashes bind, and where the tables of the three modules differ. *)

From stdpp Require Import gmap strings list sorting.
From S2P Require Import Prelude Concrete Sorting Slashing Accountability.

(** ** Kinds and severities *)

(* @src src/poseq/src/misbehavior/types.rs:10-26 MisbehaviorType *)
Inductive MisbehaviorType : Type :=
| MtEquivocation | MtInvalidProposalAuthority | MtInvalidFairnessEnvelope | MtInvalidAttestation
| MtDuplicateAttestationAbuse | MtPersistentOmission | MtInvalidBatchDeliveryAttempt | MtRuntimeBridgeAbuse
| MtStaleCommitteeParticipation | MtSlotHijackingAttempt | MtBoundaryTransitionAbuse
| MtRepeatedInvalidProposalSpam | MtFairnessViolation | MtReplayAttack | MtAbsentFromDuty.
#[export] Instance MisbehaviorType_eq_dec : EqDecision MisbehaviorType.
Proof. solve_decision. Defined.

(* @src src/poseq/src/misbehavior/types.rs:29-47 MisbehaviorType::type_tag *)
Definition type_tag (t : MisbehaviorType) : Z :=
  match t with
  | MtEquivocation => 1 | MtInvalidProposalAuthority => 2 | MtInvalidFairnessEnvelope => 3
  | MtInvalidAttestation => 4 | MtDuplicateAttestationAbuse => 5 | MtPersistentOmission => 6
  | MtInvalidBatchDeliveryAttempt => 7 | MtRuntimeBridgeAbuse => 8 | MtStaleCommitteeParticipation => 9
  | MtSlotHijackingAttempt => 10 | MtBoundaryTransitionAbuse => 11 | MtRepeatedInvalidProposalSpam => 12
  | MtFairnessViolation => 13 | MtReplayAttack => 14 | MtAbsentFromDuty => 15
  end.

(* @src src/poseq/src/misbehavior/types.rs:55-60 MisbehaviorSeverity *)
Inductive MisbehaviorSeverity : Type := SevMinor | SevModerate | SevSevere | SevCritical.
#[export] Instance MisbehaviorSeverity_eq_dec : EqDecision MisbehaviorSeverity.
Proof. solve_decision. Defined.
Definition debug_severity (s : MisbehaviorSeverity) : string :=
  match s with
  | SevMinor => "Minor" | SevModerate => "Moderate" | SevSevere => "Severe" | SevCritical => "Critical"
  end.

(* @src src/poseq/src/misbehavior/types.rs:63-81 MisbehaviorType::default_severity *)
Definition default_severity (t : MisbehaviorType) : MisbehaviorSeverity :=
  match t with
  | MtEquivocation | MtSlotHijackingAttempt | MtRuntimeBridgeAbuse | MtReplayAttack => SevCritical
  | MtInvalidProposalAuthority | MtInvalidBatchDeliveryAttempt | MtBoundaryTransitionAbuse => SevSevere
  | MtDuplicateAttestationAbuse | MtInvalidFairnessEnvelope | MtInvalidAttestation
  | MtStaleCommitteeParticipation | MtRepeatedInvalidProposalSpam => SevModerate
  | MtFairnessViolation | MtPersistentOmission | MtAbsentFromDuty => SevMinor
  end.
(* @src src/poseq/src/misbehavior/types.rs:83-91 MisbehaviorType::is_slashable *)
Definition mt_is_slashable (t : MisbehaviorType) : bool :=
  match t with
  | MtEquivocation | MtSlotHijackingAttempt | MtRuntimeBridgeAbuse | MtReplayAttack => true
  | _ => false
  end.

(** ** Evidence and cases *)

(* @src src/poseq/src/misbehavior/types.rs:99-106 MisbehaviorEvidence *)
Record MisbehaviorEvidence : Type := mkEvidence {
  evidence_type : MisbehaviorType;
  ev_node_id : id32;
  ev_epoch : Z;
  ev_slot : option Z;
  ev_hash : id32;
  details : string }.

Module MisbehaviorEvidence.
Definition preimage (n : id32) (t : MisbehaviorType) (epoch : Z) (slot : option Z) : bytes :=
  be_bytes 32 n ++ [type_tag t] ++ le_bytes 8 epoch ++ le_bytes 8 (default 0 slot).
(* @src src/poseq/src/misbehavior/types.rs:109-121 MisbehaviorEvidence::compute_hash *)
Definition compute_hash `{Sha256} (n : id32) (t : MisbehaviorType) (epoch : Z) (slot : option Z) : id32 :=
  sha256 (preimage n t epoch slot).
(* @src src/poseq/src/misbehavior/types.rs:123-139 MisbehaviorEvidence::new *)
Definition new `{Sha256} (n : id32) (t : MisbehaviorType) (epoch : Z) (slot : option Z) (text : string)
    : MisbehaviorEvidence := mkEvidence t n epoch slot (compute_hash n t epoch slot) text.
End MisbehaviorEvidence.

(* @src src/poseq/src/misbehavior/types.rs:147-152 MisbehaviorCase *)
Record MisbehaviorCase : Type := mkCase {
  case_id : id32;
  evidence : MisbehaviorEvidence;
  mc_severity : MisbehaviorSeverity;
  resolved : bool }.
Definition severity_tag (s : MisbehaviorSeverity) : Z :=
  match s with SevMinor => 1 | SevModerate => 2 | SevSevere => 3 | SevCritical => 4 end.
(* @src src/poseq/src/misbehavior/types.rs:155-173 MisbehaviorCase::new *)
Definition new_case `{Sha256} (ev : MisbehaviorEvidence) : MisbehaviorCase :=
  let sev := default_severity (evidence_type ev) in
  mkCase (sha256 (be_bytes 32 (ev_hash ev) ++ [severity_tag sev])) ev sev false.

(** ** The history *)

(* @src src/poseq/src/misbehavior/history.rs:81-85 MisbehaviorError *)
Inductive MisbehaviorError : Type :=
| CaseAlreadyExists (id : id32) | MeNodeNotFound (id : id32) | CaseNotFound (id : id32).

(** The first case of the list with the id is marked. *)
Fixpoint resolve_first (id : id32) (l : list MisbehaviorCase) : list MisbehaviorCase * bool :=
  match l with
  | [] => ([], false)
  | c :: l =>
      if decide (case_id c = id) then (mkCase (case_id c) (evidence c) (mc_severity c) true :: l, true)
      else let '(l', found) := resolve_first id l in (c :: l', found)
  end.

Module NodeMisbehaviorHistory.
(* @src src/poseq/src/misbehavior/history.rs:11-13 NodeMisbehaviorHistory *)
Definition NodeMisbehaviorHistory : Type := gmap Z (list MisbehaviorCase).
(* @src src/poseq/src/misbehavior/history.rs:16-20 NodeMisbehaviorHistory::new *)
Definition new : NodeMisbehaviorHistory := ∅.
(* @src src/poseq/src/misbehavior/history.rs:29-34 NodeMisbehaviorHistory::cases_for *)
Definition cases_for (h : gmap Z (list MisbehaviorCase)) (n : id32) : list MisbehaviorCase := default [] (h !! n).
(* @src src/poseq/src/misbehavior/history.rs:22-27 NodeMisbehaviorHistory::record *)
Definition record (c : MisbehaviorCase) (h : gmap Z (list MisbehaviorCase)) : gmap Z (list MisbehaviorCase) :=
  <[ev_node_id (evidence c) := cases_for h (ev_node_id (evidence c)) ++ [c]]> h.
(* @src src/poseq/src/misbehavior/history.rs:36-41 NodeMisbehaviorHistory::critical_count *)
Definition critical_count (h : gmap Z (list MisbehaviorCase)) (n : id32) : nat :=
  length (filter (λ c, mc_severity c = SevCritical) (cases_for h n)).
(* @src src/poseq/src/misbehavior/history.rs:43-47 NodeMisbehaviorHistory::has_unresolved_slashable *)
Definition has_unresolved_slashable (h : gmap Z (list MisbehaviorCase)) (n : id32) : bool :=
  existsb (λ c, negb (resolved c) && mt_is_slashable (evidence_type (evidence c))) (cases_for h n).
(* @src src/poseq/src/misbehavior/history.rs:49-59 NodeMisbehaviorHistory::resolve_case *)
Definition resolve_case (n id : id32) (h : gmap Z (list MisbehaviorCase)) : gmap Z (list MisbehaviorCase) * bool :=
  match h !! n with
  | Some cases => let '(cases', found) := resolve_first id cases in (<[n := cases']> h, found)
  | None => (h, false)
  end.
(* @src src/poseq/src/misbehavior/history.rs:61-67 NodeMisbehaviorHistory::all_unresolved *)
Definition all_unresolved (h : gmap Z (list MisbehaviorCase)) : list MisbehaviorCase :=
  filter (λ c, resolved c = false) (concat (btree_values h)).
End NodeMisbehaviorHistory.

(** ** The enforcer *)

(* @src src/poseq/src/misbehavior/enforcer.rs:25-30 EnforcementResult *)
Record EnforcementResult : Type := mkEnforced { er_case : MisbehaviorCase; slash_result : option ProcessResult }.

(* @src src/poseq/src/misbehavior/enforcer.rs:35-50 to_slashable_offense *)
Definition to_slashable_offense (t : MisbehaviorType) : option SlashableOffense :=
  match t with
  | MtEquivocation | MtSlotHijackingAttempt => Some DoubleProposal
  | MtReplayAttack => Some ReplayAttack
  | MtRuntimeBridgeAbuse => Some InvalidAttestation
  | MtFairnessViolation => Some FairnessViolation
  | MtAbsentFromDuty => Some AbsentFromDuty
  | MtInvalidAttestation | MtDuplicateAttestationAbuse => Some InvalidAttestation
  | _ => None
  end.

(* @src src/poseq/src/misbehavior/enforcer.rs:53-56 MisbehaviorEnforcer *)
Record MisbehaviorEnforcer : Type := mkEnforcer {
  history : gmap Z (list MisbehaviorCase);
  slashing : SlashingStore }.

Module MisbehaviorEnforcer.
(* @src src/poseq/src/misbehavior/enforcer.rs:59-64 MisbehaviorEnforcer::new *)
Definition new (s : SlashingStore) : MisbehaviorEnforcer := mkEnforcer NodeMisbehaviorHistory.new s.
(* @src src/poseq/src/misbehavior/enforcer.rs:74-99 MisbehaviorEnforcer::report *)
Definition report `{Sha256} (ev : MisbehaviorEvidence) : M MisbehaviorEnforcer Phase4Error EnforcementResult := λ m,
  let c := new_case ev in
  let h := NodeMisbehaviorHistory.record c (history m) in
  if mt_is_slashable (evidence_type ev) then
    match to_slashable_offense (evidence_type ev) with
    | Some o =>
        match SlashingStore.process o (ev_node_id ev) (ev_epoch ev) (be_bytes 32 (ev_hash ev)) (slashing m) with
        | (s, Ok r) => (mkEnforcer h s, Ok (mkEnforced c (Some r)))
        | (s, Err e) => (mkEnforcer h s, Err e)
        | (s, Panic) => (mkEnforcer h s, Panic)
        end
    | None => (mkEnforcer h (slashing m), Ok (mkEnforced c None))
    end
  else (mkEnforcer h (slashing m), Ok (mkEnforced c None)).
(* @src src/poseq/src/misbehavior/enforcer.rs:103-105 MisbehaviorEnforcer::jailed_set *)
Definition jailed_set (m : MisbehaviorEnforcer) : gset Z := SlashingStore.jailed_set (slashing m).
(* @src src/poseq/src/misbehavior/enforcer.rs:108-110 MisbehaviorEnforcer::is_jailed *)
Definition is_jailed (m : MisbehaviorEnforcer) (n : id32) : bool := SlashingStore.is_jailed (slashing m) n.
(* @src src/poseq/src/misbehavior/enforcer.rs:113-115 MisbehaviorEnforcer::unjail *)
Definition unjail (n : id32) (current_epoch : Z) : M MisbehaviorEnforcer Phase4Error () := λ m,
  let '(s, r) := SlashingStore.unjail n current_epoch (slashing m) in (mkEnforcer (history m) s, r).
(* @src src/poseq/src/misbehavior/enforcer.rs:118-120 MisbehaviorEnforcer::has_unresolved_slashable *)
Definition has_unresolved_slashable (m : MisbehaviorEnforcer) (n : id32) : bool :=
  NodeMisbehaviorHistory.has_unresolved_slashable (history m) n.
End MisbehaviorEnforcer.

(** ** Classes of the enforcement rules *)

(* @src src/poseq/src/enforcement/classification.rs:5-13 EventClass *)
Inductive EventClass : Type := Informational | Penalizable | Slashable.
#[export] Instance EventClass_eq_dec : EqDecision EventClass.
Proof. solve_decision. Defined.
(* @src src/poseq/src/enforcement/classification.rs:19-45 classify_misbehavior *)
Definition classify_misbehavior (t : MisbehaviorType) : EventClass :=
  match t with
  | MtEquivocation | MtSlotHijackingAttempt | MtReplayAttack | MtRuntimeBridgeAbuse => Slashable
  | MtInvalidProposalAuthority | MtBoundaryTransitionAbuse | MtStaleCommitteeParticipation => Slashable
  | MtInvalidFairnessEnvelope | MtInvalidAttestation | MtDuplicateAttestationAbuse
  | MtInvalidBatchDeliveryAttempt | MtRepeatedInvalidProposalSpam | MtFairnessViolation => Penalizable
  | MtPersistentOmission | MtAbsentFromDuty => Informational
  end.
(* @src src/poseq/src/enforcement/classification.rs:48-54 classify_severity *)
Definition classify_severity (s : MisbehaviorSeverity) : EventClass :=
  match s with SevCritical | SevSevere => Slashable | SevModerate => Penalizable | SevMinor => Informational end.

(** ** Penalties *)

(* @src src/poseq/src/penalties/mod.rs:13-19 PenaltySeverityLevel *)
Inductive PenaltySeverityLevel : Type := Warning | PenMinor | PenModerate | PenSevere | Full.
(** The derived order is that of the declaration. *)
Definition level_index (l : PenaltySeverityLevel) : Z :=
  match l with Warning => 0 | PenMinor => 1 | PenModerate => 2 | PenSevere => 3 | Full => 4 end.

(* @src src/poseq/src/penalties/mod.rs:26-35 PenaltyRecommendation *)
Record PenaltyRecommendation : Type := mkPenalty {
  pn_node_id : id32;
  pn_severity : PenaltySeverityLevel;
  pn_reason : string;
  pn_slash_bps : Z;
  suspend_epochs : Z;
  ban : bool;
  governance_escalation : bool;
  pn_evidence_hashes : list id32 }.
(* @src src/poseq/src/penalties/mod.rs:38-69 PenaltyRecommendation::from_misbehavior *)
Definition from_misbehavior (n : id32) (s : MisbehaviorSeverity) (hashes : list id32) : PenaltyRecommendation :=
  let reason := "Auto-generated from " +:+ debug_severity s in
  match s with
  | SevMinor => mkPenalty n Warning reason 0 0 false false hashes
  | SevModerate => mkPenalty n PenMinor reason 300 2 false false hashes
  | SevSevere => mkPenalty n PenSevere reason 3000 5 false true hashes
  | SevCritical => mkPenalty n Full reason 10000 0 true true hashes
  end.

(* @src src/poseq/src/penalties/mod.rs:77-84 SlashableEvidencePlaceholder *)
Record SlashableEvidencePlaceholder : Type := mkPlaceholder {
  ph_node_id : id32;
  ph_misbehavior_type : string;
  evidence_hashes : list id32;
  proposed_slash_bps : Z;
  packaged_at_epoch : Z;
  payload_hash : id32 }.
Definition payload_preimage (n : id32) (hashes : list id32) (bps : Z) : bytes :=
  be_bytes 32 n ++ concat (be_bytes 32 <$> merge_sort Z.le hashes) ++ le_bytes 4 bps.
(* @src src/poseq/src/penalties/mod.rs:107-122 SlashableEvidencePlaceholder::compute_payload_hash *)
Definition compute_payload_hash `{Sha256} (n : id32) (hashes : list id32) (bps : Z) : id32 :=
  sha256 (payload_preimage n hashes bps).
(* @src src/poseq/src/penalties/mod.rs:87-105 SlashableEvidencePlaceholder::new *)
Definition new_placeholder `{Sha256} (n : id32) (kind : string) (hashes : list id32) (bps epoch : Z)
    : SlashableEvidencePlaceholder :=
  let hashes := merge_sort Z.le hashes in
  mkPlaceholder n kind hashes bps epoch (compute_payload_hash n hashes bps).

(* @src src/poseq/src/penalties/mod.rs:130-136 GovernanceEscalationFlag *)
Record GovernanceEscalationFlag : Type := mkFlag {
  gf_node_id : id32;
  escalation_reason : string;
  evidence_placeholder : SlashableEvidencePlaceholder;
  requires_governance_vote : bool;
  gf_epoch : Z }.
(* @src src/poseq/src/penalties/mod.rs:143-147 PenaltyHookError *)
Inductive PenaltyHookError : Type :=
| PhNodeNotFound (id : id32) | InvalidSlashBps (bps : Z) | AlreadyEscalated (id : id32).

(* @src src/poseq/src/penalties/mod.rs:153-156 PenaltyActionHook *)
Record PenaltyActionHook : Type := mkHook {
  recommendations : gmap Z (list PenaltyRecommendation);
  escalations : list GovernanceEscalationFlag }.
Definition max_level (a b : PenaltySeverityLevel) : PenaltySeverityLevel :=
  if decide (level_index a ≤ level_index b) then b else a.

Module PenaltyActionHook.
(* @src src/poseq/src/penalties/mod.rs:159-164 PenaltyActionHook::new *)
Definition new : PenaltyActionHook := mkHook ∅ [].
(* @src src/poseq/src/penalties/mod.rs:177-182 PenaltyActionHook::recommendations_for *)
Definition recommendations_for (p : PenaltyActionHook) (n : id32) : list PenaltyRecommendation :=
  default [] (recommendations p !! n).
(* @src src/poseq/src/penalties/mod.rs:166-171 PenaltyActionHook::push_recommendation *)
Definition push_recommendation (r : PenaltyRecommendation) (p : PenaltyActionHook) : PenaltyActionHook :=
  mkHook (<[pn_node_id r := recommendations_for p (pn_node_id r) ++ [r]]> (recommendations p)) (escalations p).
(* @src src/poseq/src/penalties/mod.rs:173-175 PenaltyActionHook::push_escalation *)
Definition push_escalation (f : GovernanceEscalationFlag) (p : PenaltyActionHook) : PenaltyActionHook :=
  mkHook (recommendations p) (escalations p ++ [f]).
(* @src src/poseq/src/penalties/mod.rs:184-186 PenaltyActionHook::all_escalations *)
Definition all_escalations (p : PenaltyActionHook) : list GovernanceEscalationFlag := escalations p.
(* @src src/poseq/src/penalties/mod.rs:188-194 PenaltyActionHook::highest_severity_for *)
Definition highest_severity_for (p : PenaltyActionHook) (n : id32) : option PenaltySeverityLevel :=
  match recommendations p !! n with
  | Some (r :: l) => Some (foldl (λ acc r, max_level acc (pn_severity r)) (pn_severity r) l)
  | _ => None
  end.
End PenaltyActionHook.

(** ** Which reports slash *)

Section enforcer.
Context `{Sha256}.
Implicit Types (m : MisbehaviorEnforcer) (evs : list MisbehaviorEvidence).

Definition report_all (cfg : SlashingConfig) evs : MisbehaviorEnforcer :=
  foldl (λ m ev, (MisbehaviorEnforcer.report ev m).1) (MisbehaviorEnforcer.new (SlashingStore.new cfg)) evs.

(** The offense that a report is forwarded as. *)
Definition forwarded (ev : MisbehaviorEvidence) : option (SlashableOffense * MisbehaviorEvidence) :=
  match evidence_type ev with
  | MtEquivocation | MtSlotHijackingAttempt => Some (DoubleProposal, ev)
  | MtReplayAttack => Some (ReplayAttack, ev)
  | MtRuntimeBridgeAbuse => Some (InvalidAttestation, ev)
  | _ => None
  end.
Definition slash_all (cfg : SlashingConfig) (l : list (SlashableOffense * MisbehaviorEvidence)) : SlashingStore :=
  foldl (λ s p, (SlashingStore.process p.1 (ev_node_id p.2) (ev_epoch p.2)
    (be_bytes 32 (ev_hash p.2)) s).1) (SlashingStore.new cfg) l.

Lemma report_cases ev m :
  let '(m', res) := MisbehaviorEnforcer.report ev m in
  history m' = NodeMisbehaviorHistory.record (new_case ev) (history m) ∧
  slashing m' = match forwarded ev with
    | Some (o, _) => (SlashingStore.process o (ev_node_id ev) (ev_epoch ev) (be_bytes 32 (ev_hash ev)) (slashing m)).1
    | None => slashing m
    end ∧
  ∃ r, res = Ok r ∧ er_case r = new_case ev ∧ (is_Some (slash_result r) ↔ is_Some (forwarded ev)).
Proof.
  unfold MisbehaviorEnforcer.report, forwarded.
  pose proof (λ o, process_cases _ o (ev_node_id ev) (ev_epoch ev) (be_bytes 32 (ev_hash ev)) (slashing m) eq_refl) as Hp.
  destruct (evidence_type ev); cbn [mt_is_slashable to_slashable_offense fst];
    try (split_and!; [done..|]; eexists; split_and!; [done..|]; cbn; by split; intros [? [=]]);
    match goal with |- context [SlashingStore.process ?o ?n ?e ?b ?s] => specialize (Hp o);
      destruct (SlashingStore.process o n e b s) as [s' res] end;
    destruct Hp as (-> & _); (split_and!; [done..|]); eexists; (split_and!; [done..|]); split; intros _; by eexists.
Qed.

Lemma report_all_snoc cfg evs ev :
  report_all cfg (evs ++ [ev]) = (MisbehaviorEnforcer.report ev (report_all cfg evs)).1.
Proof. unfold report_all. by rewrite foldl_app. Qed.

Lemma reports_refine_step (cfg : SlashingConfig) (evs : list MisbehaviorEvidence) :
  let m := report_all cfg evs in
  (∀ n, NodeMisbehaviorHistory.cases_for (history m) n = new_case <$> filter (λ ev, ev_node_id ev = n) evs) ∧
  slashing m = slash_all cfg (omap forwarded evs).
Proof.
  intros m. split.
  - unfold m. induction evs as [|ev evs IH] using rev_ind; intros n; [done|]. rewrite report_all_snoc.
    pose proof (report_cases ev (report_all cfg evs)) as Hc.
    destruct (MisbehaviorEnforcer.report _ _) as [m' res]. destruct Hc as (E & _). cbn [fst]. rewrite E.
    unfold NodeMisbehaviorHistory.record. unfold NodeMisbehaviorHistory.cases_for in *. cbn [evidence new_case].
    rewrite filter_app, filter_cons, filter_nil, fmap_app, <- IH, lookup_insert.
    destruct (decide (ev_node_id ev = n)) as [<-|]; [done|by rewrite app_nil_r].
  - unfold m. induction evs as [|ev evs IH] using rev_ind; [done|]. rewrite report_all_snoc.
    pose proof (report_cases ev (report_all cfg evs)) as Hc.
    destruct (MisbehaviorEnforcer.report _ _) as [m' res]. destruct Hc as (_ & E & _). cbn [fst]. rewrite E, IH.
    rewrite omap_app. unfold slash_all. rewrite foldl_app. cbn [omap list_omap].
    assert (∀ p, forwarded ev = Some p → p.2 = ev) as Hf by (unfold forwarded; intros p Hp; destruct (evidence_type ev); by simplify_eq).
    destruct (forwarded ev) as [[o ev']|]; [|done]. specialize (Hf _ eq_refl). cbn in Hf. by subst ev'.
Qed.

(** Reports refine the slashing store: every one succeeds and adds a case to the history
    of its node, and the store is the one reached by forwarding exactly the reports of the
    four slashable kinds, as the offenses they stand for. *)
Theorem reports_refine_slashing (cfg : SlashingConfig) (evs : list MisbehaviorEvidence) :
  let m := report_all cfg evs in
  (∀ n, NodeMisbehaviorHistory.cases_for (history m) n = new_case <$> filter (λ ev, ev_node_id ev = n) evs) ∧
  slashing m = slash_all cfg (omap forwarded evs) ∧
  ∀ ev, ∃ r, (MisbehaviorEnforcer.report ev m).2 = Ok r.
Proof.
  intros m. destruct (reports_refine_step cfg evs) as [E1 E2]. split_and!; [exact E1|exact E2|].
  intros ev. pose proof (report_cases ev m) as Hc. destruct (MisbehaviorEnforcer.report _ _) as [m' res].
  destruct Hc as (_ & _ & r & -> & _). by exists r.
Qed.

(** A node is not jailed for any number of reports that are not of the slashable kinds. *)
Lemma process_other_node o n e b s n' :
  n ≠ n' → jail_store (SlashingStore.process o n e b s).1 !! n' = jail_store s !! n'.
Proof.
  intros Hne. pose proof (process_cases _ o n e b s eq_refl) as Hp. destruct (SlashingStore.process _ _ _ _ _) as [s' res].
  destruct Hp as (_ & _ & _ & Hj). cbn [fst]. rewrite Hj. case_match; [|done]. by rewrite lookup_insert_ne.
Qed.
Theorem unslashable_never_jailed (cfg : SlashingConfig) (evs : list MisbehaviorEvidence) (n : id32) :
  (∀ ev, ev ∈ evs → ev_node_id ev = n → mt_is_slashable (evidence_type ev) = false) →
  MisbehaviorEnforcer.is_jailed (report_all cfg evs) n = false.
Proof.
  intros Hn. unfold MisbehaviorEnforcer.is_jailed, SlashingStore.is_jailed, JailStore.is_jailed.
  apply bool_decide_eq_false. intros [j Hj]. revert j Hj.
  induction evs as [|ev evs IH] using rev_ind; intros j; [done|]. rewrite report_all_snoc.
  pose proof (report_cases ev (report_all cfg evs)) as Hc.
  destruct (MisbehaviorEnforcer.report _ _) as [m' res]. destruct Hc as (_ & E & _). cbn [fst]. rewrite E.
  specialize (IH ltac:(intros; apply Hn; [set_solver|done])).
  assert (ev_node_id ev = n → forwarded ev = None) as Hf.
  { intros En. specialize (Hn ev ltac:(set_solver) En). unfold forwarded. by destruct (evidence_type ev). }
  destruct (forwarded ev) as [[o ev']|]; [|by apply IH].
  rewrite process_other_node; [by apply IH|]. intros En. specialize (Hf En). done.
Qed.

(** ** Reports are not told apart *)

(** The same evidence of a slashable kind reported twice to a new enforcer is two slashes,
    and two cases of one id; resolving that id ever finds the first of them, so however
    often it is done the node keeps an unresolved slashable case. *)
Theorem double_report_unresolvable (cfg : SlashingConfig) (ev : MisbehaviorEvidence) (o : SlashableOffense) (k : nat) :
  forwarded ev = Some (o, ev) →
  fits 64 (SlashingConfig.slash_rate cfg o) →
  let n := ev_node_id ev in
  let m := report_all cfg [ev; ev] in
  let h := Nat.iter k (λ h, (NodeMisbehaviorHistory.resolve_case n (case_id (new_case ev)) h).1) (history m) in
  entry_count n (cumulative_slash (engine (slashing m))) =
    Z.min (2 * SlashingConfig.slash_rate cfg o) u64_max ∧
  NodeMisbehaviorHistory.has_unresolved_slashable h n = true.
Proof.
  intros Hf Hr n m h. destruct (reports_refine_step cfg [ev; ev]) as [Hh Hs]. fold m in Hh, Hs. split.
  - rewrite Hs. cbn [omap list_omap]. rewrite Hf. unfold slash_all. cbn [foldl fst snd].
    set (b := be_bytes 32 (ev_hash ev)). set (s0 := SlashingStore.new cfg).
    pose proof (process_cases cfg o n (ev_epoch ev) b s0 eq_refl) as Hp. fold n.
    destruct (SlashingStore.process o n (ev_epoch ev) b s0) as [s1 r1]. destruct Hp as (_ & Ec1 & E1 & _).
    cbn [fst]. pose proof (process_cases cfg o n (ev_epoch ev) b s1 Ec1) as Hp.
    destruct (SlashingStore.process o n (ev_epoch ev) b s1) as [s2 r2]. destruct Hp as (_ & _ & E2 & _).
    cbn [fst]. rewrite E2, entry_insert, E1, entry_insert.
    change (entry_count n (cumulative_slash (engine s0))) with 0. ints.
  - assert (∃ c, h !! n = Some [c; new_case ev] ∧ case_id c = case_id (new_case ev)) as (c & Hc & _).
    { unfold h. clear h Hs. induction k as [|k (c & Hc & Hid)].
      - exists (new_case ev). split; [|done]. specialize (Hh n). unfold NodeMisbehaviorHistory.cases_for in Hh. unfold Nat.iter, nat_rect.
        rewrite !filter_cons, filter_nil, !decide_True in Hh by done.
        destruct (history m !! n) as [l|]; cbn in Hh; [by subst l|done].
      - rewrite Nat.iter_succ. set (h := Nat.iter k _ _) in *.
        unfold NodeMisbehaviorHistory.resolve_case. rewrite Hc.
        cbn [resolve_first]. rewrite decide_True by done. cbn [fst]. rewrite lookup_insert_eq.
        eexists. split; [done|]. done. }
    unfold NodeMisbehaviorHistory.has_unresolved_slashable, NodeMisbehaviorHistory.cases_for. rewrite Hc. cbn.
    assert (mt_is_slashable (evidence_type ev) = true) as -> by (unfold forwarded in Hf; by destruct (evidence_type ev)).
    by rewrite orb_true_r.
Qed.

(** ** What evidence binds *)

(** Evidence binds the node, the kind, the epoch and the slot, except that no slot counts
    as slot zero. *)
Theorem evidence_binds (n n' : id32) (t t' : MisbehaviorType) (e e' : Z) (s s' : option Z) :
  fits 256 n → fits 256 n' → fits 64 e → fits 64 e' → fits 64 (default 0 s) → fits 64 (default 0 s') →
  no_collision [MisbehaviorEvidence.preimage n t e s] [MisbehaviorEvidence.preimage n' t' e' s'] →
  MisbehaviorEvidence.compute_hash n t e s = MisbehaviorEvidence.compute_hash n' t' e' s' ↔
  n = n' ∧ t = t' ∧ e = e' ∧ default 0 s = default 0 s'.
Proof.
  intros Hn Hn' He He' Hs Hs' Hc. split.
  - intros E. apply Hc in E; [|left|left]. unfold MisbehaviorEvidence.preimage in E.
    apply be_bytes_app_inj in E as [-> E]; [|done..].
    apply (app_inj_1 [type_tag t] [type_tag t']) in E as [Et E]; [|done].
    apply app_inj_1 in E as [E1 E2]; [|by rewrite !le_bytes_length].
    apply le_bytes_inj in E1; [|done..]. apply le_bytes_inj in E2; [|done..].
    split_and!; [done| |done..]. injection Et. by destruct t, t'.
  - intros (-> & -> & -> & E). unfold MisbehaviorEvidence.compute_hash, MisbehaviorEvidence.preimage. by rewrite E.
Qed.

(** A packaged payload does not depend on the order in which the hashes came. *)
Theorem payload_order_free (n : id32) (kind : string) (l l' : list id32) (bps epoch : Z) :
  l ≡ₚ l' → new_placeholder n kind l bps epoch = new_placeholder n kind l' bps epoch.
Proof.
  intros Hp. unfold new_placeholder. assert (merge_sort Z.le l = merge_sort Z.le l') as ->; [|done].
  apply (StronglySorted_unique Z.le); [apply StronglySorted_merge_sort; apply _..|].
  by rewrite !merge_sort_Permutation.
Qed.

(** The payload hash says nothing of the kind of misbehavior and the epoch, and the hashes
    in the package are those that it covers. *)
Theorem payload_covers (n : id32) (kind kind' : string) (l : list id32) (bps epoch epoch' : Z) :
  payload_hash (new_placeholder n kind l bps epoch) = payload_hash (new_placeholder n kind' l bps epoch') ∧
  payload_hash (new_placeholder n kind l bps epoch) =
    compute_payload_hash n (evidence_hashes (new_placeholder n kind l bps epoch)) bps.
Proof. split; reflexivity. Qed.
End enforcer.

(** ** The tables *)

(** The class of a kind is that of its default severity but for three kinds. *)
Theorem classes_disagree (t : MisbehaviorType) :
  classify_misbehavior t ≠ classify_severity (default_severity t) ↔
  t = MtStaleCommitteeParticipation ∨ t = MtInvalidBatchDeliveryAttempt ∨ t = MtFairnessViolation.
Proof. destruct t; cbn; naive_solver. Qed.

(** The enforcer slashes for four of the kinds that the rules class as slashable, and has
    an offense for four more kinds that it never forwards. *)
Theorem slashed_kinds (t : MisbehaviorType) :
  (mt_is_slashable t = true ↔ default_severity t = SevCritical) ∧
  (mt_is_slashable t = true → classify_misbehavior t = Slashable ∧ is_Some (to_slashable_offense t)) ∧
  (is_Some (to_slashable_offense t) ∧ mt_is_slashable t = false ↔
    t = MtFairnessViolation ∨ t = MtAbsentFromDuty ∨ t = MtInvalidAttestation ∨ t = MtDuplicateAttestationAbuse).
Proof. destruct t; cbn; (split_and!; [done|by eauto|]); split; intros Ht; try (by destruct Ht as [[? [=]] ?]); naive_solver. Qed.

(** A recommended slash and the one that adjudication records agree for the two lower
    severities only. *)
Theorem slash_tables_disagree (n : id32) (s : MisbehaviorSeverity) (l : list id32) :
  pn_slash_bps (from_misbehavior n s l) = slash_bps_for_severity (debug_severity s) ↔ s = SevMinor ∨ s = SevModerate.
Proof. destruct s; cbn; naive_solver. Qed.

(** The highest severity recommended for a node. *)
Lemma max_level_spec a b :
  (max_level a b = a ∨ max_level a b = b) ∧
  level_index a ≤ level_index (max_level a b) ∧ level_index b ≤ level_index (max_level a b).
Proof. unfold max_level. case_decide; (split; [tauto|lia]). Qed.

Lemma max_levels a (k : list PenaltyRecommendation) :
  let s := foldl (λ acc r, max_level acc (pn_severity r)) a k in
  (s = a ∨ ∃ r, r ∈ k ∧ pn_severity r = s) ∧ level_index a ≤ level_index s ∧
  ∀ r, r ∈ k → level_index (pn_severity r) ≤ level_index s.
Proof.
  revert a. induction k as [|r k IH]; intros a; cbn.
  { split_and!; [by left|done|]. by intros r ?%elem_of_nil. }
  destruct (IH (max_level a (pn_severity r))) as (Hs & Ha & Hk). set (s := foldl _ _ _) in *.
  destruct (max_level_spec a (pn_severity r)) as (Hm & H1 & H2). split_and!.
  - destruct Hs as [Hs|(r' & ? & ?)]; [destruct Hm as [E|E]; rewrite E in Hs|]; [by left|right..].
    + exists r. split; [left|done].
    + exists r'. split; [by right|done].
  - lia.
  - intros r' [->|Hr']%elem_of_cons; [lia|by apply Hk].
Qed.

Definition push_all (l : list PenaltyRecommendation) : PenaltyActionHook :=
  foldl (λ p r, PenaltyActionHook.push_recommendation r p) PenaltyActionHook.new l.
Lemma push_all_lookup l n :
  PenaltyActionHook.recommendations_for (push_all l) n = filter (λ r, pn_node_id r = n) l ∧
  recommendations (push_all l) !! n ≠ Some [].
Proof.
  unfold push_all. induction l as [|r l [IH1 IH2]] using rev_ind; [done|]. rewrite foldl_app. cbn [foldl].
  unfold PenaltyActionHook.push_recommendation, PenaltyActionHook.recommendations_for in *. cbn [recommendations].
  rewrite filter_app, filter_cons, filter_nil, lookup_insert. destruct (decide (pn_node_id r = n)) as [<-|].
  - cbn. rewrite IH1. split; [done|]. intros [= ?%app_eq_nil]. naive_solver.
  - by rewrite app_nil_r.
Qed.

Theorem highest_severity_spec (l : list PenaltyRecommendation) (n : id32) :
  match PenaltyActionHook.highest_severity_for (push_all l) n with
  | None => ∀ r, r ∈ l → pn_node_id r ≠ n
  | Some s => (∃ r, r ∈ l ∧ pn_node_id r = n ∧ pn_severity r = s) ∧
      ∀ r, r ∈ l → pn_node_id r = n → level_index (pn_severity r) ≤ level_index s
  end.
Proof.
  destruct (push_all_lookup l n) as [E1 E2]. unfold PenaltyActionHook.highest_severity_for,
    PenaltyActionHook.recommendations_for in *.
  assert (∀ r, r ∈ l ∧ pn_node_id r = n ↔ r ∈ default [] (recommendations (push_all l) !! n)) as Hin.
  { intros r. rewrite E1, list_elem_of_filter. tauto. }
  clear E1. destruct (recommendations (push_all l) !! n) as [[|r0 k]|]; [done| |].
  2:{ intros r Hr Hn. by apply (not_elem_of_nil r), Hin. }
  cbn [default] in Hin. destruct (max_levels (pn_severity r0) k) as (Hs & H0 & Hk).
  setoid_rewrite elem_of_cons in Hin. split.
  - destruct Hs as [-> |(r & Hr & E)].
    + exists r0. destruct (proj2 (Hin r0)) as [??]; [by left|]. done.
    + exists r. destruct (proj2 (Hin r)) as [??]; [by right|]. done.
  - intros r Hr Hn. destruct (proj1 (Hin r) (conj Hr Hn)) as [->|?]; [done|by apply Hk].
Qed.

(** ** Runs *)

Definition sample_evidence (t : MisbehaviorType) : MisbehaviorEvidence :=
  @MisbehaviorEvidence.new sample_sha256 7 t 3 (Some 9) "seen".

Lemma unslashable_never_jailed_witness :
  MisbehaviorEnforcer.is_jailed (@report_all sample_sha256 (mkSlashingConfig 0 0 0 0 0 0 0)
    [sample_evidence MtFairnessViolation; sample_evidence MtAbsentFromDuty]) 7 = false.
Proof.
  apply unslashable_never_jailed. intros ev [-> |[-> |[]%elem_of_nil]%elem_of_cons]%elem_of_cons _; reflexivity.
Defined.

Lemma double_report_unresolvable_witness :
  let m := @report_all sample_sha256 SlashingConfig.default_config
    [sample_evidence MtEquivocation; sample_evidence MtEquivocation] in
  entry_count 7 (cumulative_slash (engine (slashing m))) = 1000 ∧ MisbehaviorEnforcer.is_jailed m 7 = true.
Proof.
  split; [|by vm_compute].
  exact (proj1 (@double_report_unresolvable sample_sha256 SlashingConfig.default_config
    (sample_evidence MtEquivocation) DoubleProposal 2 eq_refl ltac:(by_eval))).
Defined.

Lemma evidence_binds_witness :
  @MisbehaviorEvidence.compute_hash sample_sha256 7 MtEquivocation 3 None =
  @MisbehaviorEvidence.compute_hash sample_sha256 7 MtEquivocation 3 (Some 0).
Proof.
  apply (@evidence_binds sample_sha256); [by_eval..| |done].
  apply collision_free_sound. by vm_compute.
Defined.

Lemma payload_order_free_witness :
  @new_placeholder sample_sha256 7 "Equivocation" [3; 1; 2] 300 4 =
  @new_placeholder sample_sha256 7 "Equivocation" [1; 2; 3] 300 4.
Proof. apply (@payload_order_free sample_sha256). by_decide. Defined.
