(* ===== verification/Delivery.v ===== *)
(** * Delivery of batches to the runtime

    The envelope a finalized batch is delivered in, with its commitment, the outcomes of
    ingestion and the pipeline that keeps the state of each batch over the hardened bridge
    of Sequencing (src/poseq/src/bridge/pipeline.rs), and the store that retries deliveries
    (src/poseq/src/bridge_recovery/).  The theorems say what the commitment binds, which
    event decides the state of a batch, and how often a batch is exported. *)

From stdpp Require Import gmap strings list pretty.
From S2P Require Import Prelude Concrete Membership Sequencing.

(** ** Envelopes *)

(* @src src/poseq/src/bridge/pipeline.rs:42-51 FairnessMeta *)
Record FairnessMeta : Type := mkFairnessMeta {
  fm_policy_version : Z;
  forced_inclusion_count : Z;
  rate_limited_count : Z;
  per_submission_class : list Z }.
(* @src src/poseq/src/bridge/pipeline.rs:54-61 FairnessMeta::none *)
Definition no_fairness (policy_version : Z) : FairnessMeta := mkFairnessMeta policy_version 0 0 [].

(* @src src/poseq/src/bridge/pipeline.rs:66-72 BatchCommitment *)
Record BatchCommitment : Type := mkCommitment {
  commitment_hash : id32;
  bc_finalization_hash : id32;
  bc_delivery_id : id32;
  submission_root : id32 }.
(* @src src/poseq/src/bridge/pipeline.rs:75-109 BatchCommitment::compute *)
Definition compute_commitment `{Sha256} (finalization delivery : id32) (ids : list id32) : BatchCommitment :=
  let root := sha256 (concat (be_bytes 32 <$> ids)) in
  mkCommitment (sha256 (be_bytes 32 finalization ++ be_bytes 32 delivery ++ be_bytes 32 root))
    finalization delivery root.

(* @src src/poseq/src/bridge/pipeline.rs:118-146 FinalizationEnvelope *)
Record FinalizationEnvelope : Type := mkEnvelope {
  fe_batch_id : id32;
  fe_delivery_id : id32;
  fe_attempt_count : Z;
  fe_slot : Z;
  fe_epoch : Z;
  fe_sequence_number : Z;
  fe_leader_id : id32;
  fe_parent_batch_id : id32;
  fe_ordered_submission_ids : list id32;
  fe_batch_root : id32;
  fe_finalization_hash : id32;
  quorum_approvals : Z;
  committee_size : Z;
  fe_fairness : FairnessMeta;
  fe_commitment : BatchCommitment }.

Module FinalizationEnvelope.
(* @src src/poseq/src/bridge/pipeline.rs:150-179 FinalizationEnvelope::build *)
Definition build `{Sha256} (b : FinalizedBatch) (d : RuntimeDeliveryEnvelope) (sequence : Z) (f : FairnessMeta)
    : FinalizationEnvelope :=
  mkEnvelope (fb_batch_id b) (dl_delivery_id d) (dl_attempt_count d) (fb_slot b) (fb_epoch b) sequence
    (fb_leader_id b) (fb_parent_batch_id b) (fb_ordered_submission_ids b) (fb_batch_root b) (finalization_hash b)
    (Z.of_nat (approvals (quorum_summary b))) (Z.of_nat (total_votes (quorum_summary b))) f
    (compute_commitment (finalization_hash b) (dl_delivery_id d) (fb_ordered_submission_ids b)).
(* @src src/poseq/src/bridge/pipeline.rs:182-189 FinalizationEnvelope::verify_commitment *)
Definition verify_commitment `{Sha256} (e : FinalizationEnvelope) : bool :=
  bool_decide (commitment_hash (compute_commitment (fe_finalization_hash e) (fe_delivery_id e)
    (fe_ordered_submission_ids e)) = commitment_hash (fe_commitment e)).
End FinalizationEnvelope.

(** ** Outcomes of ingestion *)

(* @src src/poseq/src/bridge/pipeline.rs:216-226 RuntimeIngestionAck *)
Record RuntimeIngestionAck : Type := mkIngestionAck {
  ra_batch_id : id32;
  ra_delivery_id : id32;
  ra_epoch : Z;
  succeeded_count : Z;
  failed_count : Z;
  execution_result_ref : option id32;
  ra_ack_hash : id32 }.
(* @src src/poseq/src/bridge/pipeline.rs:229-239 RuntimeIngestionAck::compute_ack_hash *)
Definition compute_ingestion_ack_hash `{Sha256} (batch delivery : id32) (epoch : Z) : id32 :=
  sha256 (be_bytes 32 batch ++ be_bytes 32 delivery ++ string_bytes "ack" ++ be_bytes 8 epoch).
(* @src src/poseq/src/bridge/pipeline.rs:241-259 RuntimeIngestionAck::new *)
Definition new_ingestion_ack `{Sha256} (batch delivery : id32) (epoch succeeded failed : Z) (ref : option id32)
    : RuntimeIngestionAck :=
  mkIngestionAck batch delivery epoch succeeded failed ref (compute_ingestion_ack_hash batch delivery epoch).

(* @src src/poseq/src/bridge/pipeline.rs:275-286 RejectionCause *)
Inductive RejectionCause : Type :=
| InvalidEnvelope (s : string) | AlreadyApplied | TransientUnavailable (s : string)
| ExecutionFailure (s : string) | SafetyBlock (s : string).
Module RejectionCause.
(* @src src/poseq/src/bridge/pipeline.rs:289-297 RejectionCause::tag *)
Definition tag (c : RejectionCause) : string :=
  match c with
  | InvalidEnvelope _ => "invalid_envelope" | AlreadyApplied => "already_applied"
  | TransientUnavailable _ => "transient_unavailable" | ExecutionFailure _ => "execution_failure"
  | SafetyBlock _ => "safety_block"
  end.
(* @src src/poseq/src/bridge/pipeline.rs:299-301 RejectionCause::is_retryable *)
Definition is_retryable (c : RejectionCause) : bool :=
  match c with TransientUnavailable _ => true | _ => false end.
End RejectionCause.

(* @src src/poseq/src/bridge/pipeline.rs:264-271 RuntimeIngestionRejection *)
Record RuntimeIngestionRejection : Type := mkIngestionRejection {
  rr_batch_id : id32;
  rr_delivery_id : id32;
  rr_epoch : Z;
  cause : RejectionCause;
  rejection_hash : id32 }.
(* @src src/poseq/src/bridge/pipeline.rs:305-319 RuntimeIngestionRejection::compute_rejection_hash *)
Definition compute_rejection_hash `{Sha256} (batch delivery : id32) (cause_tag : bytes) : id32 :=
  sha256 (be_bytes 32 batch ++ be_bytes 32 delivery ++ string_bytes "reject" ++ cause_tag).
(* @src src/poseq/src/bridge/pipeline.rs:321-331 RuntimeIngestionRejection::new *)
Definition new_ingestion_rejection `{Sha256} (batch delivery : id32) (epoch : Z) (c : RejectionCause)
    : RuntimeIngestionRejection :=
  mkIngestionRejection batch delivery epoch c
    (compute_rejection_hash batch delivery (string_bytes (RejectionCause.tag c))).

(* @src src/poseq/src/bridge/pipeline.rs:194-199 IngestionOutcome *)
Inductive IngestionOutcome : Type :=
| OutAccepted (a : RuntimeIngestionAck) | OutRejected (r : RuntimeIngestionRejection).
Module IngestionOutcome.
(* @src src/poseq/src/bridge/pipeline.rs:202-207 IngestionOutcome::batch_id *)
Definition batch_id (o : IngestionOutcome) : id32 :=
  match o with OutAccepted a => ra_batch_id a | OutRejected r => rr_batch_id r end.
(* @src src/poseq/src/bridge/pipeline.rs:209-211 IngestionOutcome::is_accepted *)
Definition is_accepted (o : IngestionOutcome) : bool :=
  match o with OutAccepted _ => true | OutRejected _ => false end.
End IngestionOutcome.

(** ** The pipeline *)

(** The [{:?}] text of a string, quoted and escaped. *)
Class StrDebug := str_debug : string → string.
Definition debug_cause `{StrDebug} (c : RejectionCause) : string :=
  match c with
  | InvalidEnvelope s => "InvalidEnvelope(" +:+ str_debug s +:+ ")"
  | AlreadyApplied => "AlreadyApplied"
  | TransientUnavailable s => "TransientUnavailable(" +:+ str_debug s +:+ ")"
  | ExecutionFailure s => "ExecutionFailure(" +:+ str_debug s +:+ ")"
  | SafetyBlock s => "SafetyBlock(" +:+ str_debug s +:+ ")"
  end.

(* @src src/poseq/src/bridge/pipeline.rs:368-377 PipelineState *)
Inductive PipelineState : Type := PsPending | PsAccepted | RejectedRetryable | RejectedTerminal.
#[export] Instance PipelineState_eq_dec : EqDecision PipelineState.
Proof. solve_decision. Defined.
(* @src src/poseq/src/bridge/pipeline.rs:357-364 BatchLifecycleEntry *)
Record BatchLifecycleEntry : Type := mkLifecycle {
  lc_batch_id : id32;
  lc_epoch : Z;
  lc_attempt_count : Z;
  lc_state : PipelineState;
  lc_result_ref : option id32;
  rejection_cause : option string }.
(* @src src/poseq/src/bridge/pipeline.rs:348-354 BatchPipeline *)
Record BatchPipeline : Type := mkPipeline {
  bridge : HardenedRuntimeBridge;
  next_sequence : Z;
  lifecycle : gmap Z BatchLifecycleEntry }.

Module BatchPipeline.
(* @src src/poseq/src/bridge/pipeline.rs:380-386 BatchPipeline::new *)
Definition new : BatchPipeline := mkPipeline HardenedRuntimeBridge.new 1 ∅.
(* @src src/poseq/src/bridge/pipeline.rs:394-419 BatchPipeline::deliver *)
Definition deliver `{Sha256} (b : FinalizedBatch) (f : FairnessMeta) (p : BatchPipeline)
    : BatchPipeline * FinalizationEnvelope :=
  let sequence := next_sequence p in
  let '(br, d) := HardenedRuntimeBridge.deliver b (bridge p) in
  let entry := match lifecycle p !! fb_batch_id b with
    | Some e => mkLifecycle (lc_batch_id e) (lc_epoch e) (dl_attempt_count d) (lc_state e) (lc_result_ref e)
                  (rejection_cause e)
    | None => mkLifecycle (fb_batch_id b) (fb_epoch b) 1 PsPending None None
    end in
  (mkPipeline br (wrapu 64 (sequence + 1)) (<[fb_batch_id b := entry]> (lifecycle p)),
   FinalizationEnvelope.build b d sequence f).
(* @src src/poseq/src/bridge/pipeline.rs:425-439 BatchPipeline::record_ack *)
Definition record_ack `{Sha256} (a : RuntimeIngestionAck) : M BatchPipeline BridgeError () := λ p,
  let hw := new_ack (ra_batch_id a) (ra_delivery_id a) (bool_decide (0 < succeeded_count a)) (ra_epoch a) in
  match HardenedRuntimeBridge.record_ack hw (bridge p) with
  | (br, Ok _) =>
      (mkPipeline br (next_sequence p)
         (alter (λ e, mkLifecycle (lc_batch_id e) (lc_epoch e) (lc_attempt_count e) PsAccepted
                        (execution_result_ref a) (rejection_cause e)) (ra_batch_id a) (lifecycle p)), Ok tt)
  | (br, Err e) => (mkPipeline br (next_sequence p) (lifecycle p), Err e)
  | (br, Panic) => (mkPipeline br (next_sequence p) (lifecycle p), Panic)
  end.
(* @src src/poseq/src/bridge/pipeline.rs:444-464 BatchPipeline::record_rejection *)
Definition record_rejection `{StrDebug} (r : RuntimeIngestionRejection) (p : BatchPipeline) : BatchPipeline :=
  let text := debug_cause (cause r) in
  mkPipeline
    (HardenedRuntimeBridge.record_rejection (mkRejection (rr_batch_id r) (rr_delivery_id r) text (rr_epoch r)) (bridge p))
    (next_sequence p)
    (alter (λ e, mkLifecycle (lc_batch_id e) (lc_epoch e) (lc_attempt_count e)
                   (if RejectionCause.is_retryable (cause r) then RejectedRetryable else RejectedTerminal)
                   (lc_result_ref e) (Some text)) (rr_batch_id r) (lifecycle p)).
(* @src src/poseq/src/bridge/pipeline.rs:467-472 BatchPipeline::needs_retry *)
Definition needs_retry (p : BatchPipeline) (b : id32) : bool :=
  match lifecycle p !! b with Some e => bool_decide (lc_state e = RejectedRetryable) | None => false end.
(* @src src/poseq/src/bridge/pipeline.rs:475-479 BatchPipeline::is_terminal *)
Definition is_terminal (p : BatchPipeline) (b : id32) : bool :=
  match lifecycle p !! b with
  | Some e => match lc_state e with PsAccepted | RejectedTerminal => true | _ => false end
  | None => false
  end.
(* @src src/poseq/src/bridge/pipeline.rs:482-484 BatchPipeline::get_delivery_record *)
Definition get_delivery_record (p : BatchPipeline) (b : id32) : option BridgeDeliveryRecord :=
  HardenedRuntimeBridge.get_record (bridge p) b.
(* @src src/poseq/src/bridge/pipeline.rs:487-489 BatchPipeline::get_lifecycle *)
Definition get_lifecycle (p : BatchPipeline) (b : id32) : option BatchLifecycleEntry := lifecycle p !! b.
End BatchPipeline.

(** ** Retries *)

(* @src src/poseq/src/bridge_recovery/mod.rs:11-20 BridgeDeliveryState *)
Inductive BridgeDeliveryState : Type :=
| BdPending | Exporting | Exported | Acknowledged | Rejected | RetryPending (attempt : Z) | Failed | RecoveredAck.
#[export] Instance BridgeDeliveryState_eq_dec : EqDecision BridgeDeliveryState.
Proof. solve_decision. Defined.
Module BridgeDeliveryState.
(* @src src/poseq/src/bridge_recovery/mod.rs:22-26 BridgeDeliveryState::fmt *)
Definition text (s : BridgeDeliveryState) : string :=
  match s with
  | BdPending => "Pending" | Exporting => "Exporting" | Exported => "Exported" | Acknowledged => "Acknowledged"
  | Rejected => "Rejected" | RetryPending a => "RetryPending { attempt: " +:+ pretty a +:+ " }"
  | Failed => "Failed" | RecoveredAck => "RecoveredAck"
  end.
(* @src src/poseq/src/bridge_recovery/mod.rs:29-35 BridgeDeliveryState::can_retry *)
Definition can_retry (s : BridgeDeliveryState) (max_attempts : Z) : bool :=
  match s with Rejected => true | RetryPending a => bool_decide (a < max_attempts) | _ => false end.
(* @src src/poseq/src/bridge_recovery/mod.rs:37-44 BridgeDeliveryState::is_terminal *)
Definition is_terminal (s : BridgeDeliveryState) : bool :=
  match s with Acknowledged | Failed | RecoveredAck => true | _ => false end.
End BridgeDeliveryState.

(* @src src/poseq/src/bridge_recovery/mod.rs:52-55 BridgeRetryPolicy *)
Record BridgeRetryPolicy : Type := mkRetryPolicy { max_attempts : Z; backoff_base_seq : Z }.
(* @src src/poseq/src/bridge_recovery/mod.rs:58-63 BridgeRetryPolicy::default_policy *)
Definition default_retry : BridgeRetryPolicy := mkRetryPolicy 3 10.

(* @src src/poseq/src/bridge_recovery/mod.rs:77-93 BridgeRecoveryError *)
Inductive BridgeRecoveryError : Type :=
| BatchNotFound (b : id32)
| AlreadyTerminal (b : id32)
| MaxRetriesExceeded (b : id32)
| InvalidStateForOperation (b : id32) (state op : string)
| AckHashConflict (b stored_hash new_hash : id32).

(* @src src/poseq/src/bridge_recovery/mod.rs:100-106 BridgeRecoveryRecord *)
Record BridgeRecoveryRecord : Type := mkRecovery {
  rv_batch_id : id32;
  rv_state : BridgeDeliveryState;
  attempts : Z;
  last_attempt_seq : Z;
  rv_ack_hash : option id32 }.

Module BridgeRecoveryRecord.
(* @src src/poseq/src/bridge_recovery/mod.rs:109-117 BridgeRecoveryRecord::new *)
Definition new (b : id32) : BridgeRecoveryRecord := mkRecovery b BdPending 0 0 None.
Definition invalid (r : BridgeRecoveryRecord) (op : string) : BridgeRecoveryError :=
  InvalidStateForOperation (rv_batch_id r) (BridgeDeliveryState.text (rv_state r)) op.
(* @src src/poseq/src/bridge_recovery/mod.rs:119-135 BridgeRecoveryRecord::try_export *)
Definition try_export : M BridgeRecoveryRecord BridgeRecoveryError () := λ r,
  if BridgeDeliveryState.is_terminal (rv_state r) then (r, Err (AlreadyTerminal (rv_batch_id r)))
  else match rv_state r with
  | BdPending | RetryPending _ =>
      (mkRecovery (rv_batch_id r) Exporting (wrapu 32 (attempts r + 1)) (last_attempt_seq r) (rv_ack_hash r), Ok tt)
  | _ => (r, Err (invalid r "try_export"))
  end.
(* @src src/poseq/src/bridge_recovery/mod.rs:137-153 BridgeRecoveryRecord::mark_acknowledged *)
Definition mark_acknowledged (h : id32) : M BridgeRecoveryRecord BridgeRecoveryError () := λ r,
  if BridgeDeliveryState.is_terminal (rv_state r) then (r, Err (AlreadyTerminal (rv_batch_id r)))
  else match rv_state r with
  | Exporting | Exported =>
      (mkRecovery (rv_batch_id r) Acknowledged (attempts r) (last_attempt_seq r) (Some h), Ok tt)
  | _ => (r, Err (invalid r "mark_acknowledged"))
  end.
(* @src src/poseq/src/bridge_recovery/mod.rs:155-170 BridgeRecoveryRecord::mark_rejected *)
Definition mark_rejected : M BridgeRecoveryRecord BridgeRecoveryError () := λ r,
  if BridgeDeliveryState.is_terminal (rv_state r) then (r, Err (AlreadyTerminal (rv_batch_id r)))
  else match rv_state r with
  | Exporting | Exported =>
      (mkRecovery (rv_batch_id r) Rejected (attempts r) (last_attempt_seq r) (rv_ack_hash r), Ok tt)
  | _ => (r, Err (invalid r "mark_rejected"))
  end.
(* @src src/poseq/src/bridge_recovery/mod.rs:172-192 BridgeRecoveryRecord::retry *)
Definition retry (policy : BridgeRetryPolicy) (seq : Z) : M BridgeRecoveryRecord BridgeRecoveryError () := λ r,
  if decide (max_attempts policy ≤ attempts r) then
    (mkRecovery (rv_batch_id r) Failed (attempts r) (last_attempt_seq r) (rv_ack_hash r),
     Err (MaxRetriesExceeded (rv_batch_id r)))
  else match rv_state r with
  | Rejected | RetryPending _ =>
      (mkRecovery (rv_batch_id r) (RetryPending (attempts r)) (attempts r) seq (rv_ack_hash r), Ok tt)
  | _ => (r, Err (invalid r "retry"))
  end.
End BridgeRecoveryRecord.

(* @src src/poseq/src/bridge_recovery/mod.rs:200-205 RuntimeAckReconciliationResult *)
Record RuntimeAckReconciliationResult : Type := mkReconciliation {
  rc_batch_id : id32;
  was_duplicate_ack : bool;
  ack_hash_match : bool;
  action_taken : string }.
(* @src src/poseq/src/bridge_recovery/mod.rs:212-218 DeliveryConsistencyCheck *)
Record DeliveryConsistencyCheck : Type := mkConsistency {
  batches_pending : nat;
  batches_acked : nat;
  batches_failed : nat;
  batches_in_retry : nat;
  inconsistencies : list string }.

(* @src src/poseq/src/bridge_recovery/mod.rs:224-228 BridgeRecoveryStore *)
Record BridgeRecoveryStore : Type := mkRecoveryStore {
  rv_records : gmap Z BridgeRecoveryRecord;
  policy : BridgeRetryPolicy;
  rv_seq : Z }.

(** The text of the first bytes of an id. *)
Definition debug_head (b : id32) : string :=
  "[" +:+ String.concat ", " (pretty <$> take 4 (be_bytes 32 b)) +:+ "]".

Module BridgeRecoveryStore.
(* @src src/poseq/src/bridge_recovery/mod.rs:231-237 BridgeRecoveryStore::new *)
Definition new (p : BridgeRetryPolicy) : BridgeRecoveryStore := mkRecoveryStore ∅ p 0.
(* @src src/poseq/src/bridge_recovery/mod.rs:239-243 BridgeRecoveryStore::register_batch *)
Definition register_batch (b : id32) (s : BridgeRecoveryStore) : BridgeRecoveryStore :=
  match rv_records s !! b with
  | Some _ => s
  | None => mkRecoveryStore (<[b := BridgeRecoveryRecord.new b]> (rv_records s)) (policy s) (rv_seq s)
  end.
(** [get_mut], then an operation on the record in place. *)
Definition with_record {A} (b : id32) (f : M BridgeRecoveryRecord BridgeRecoveryError A)
    : M BridgeRecoveryStore BridgeRecoveryError A := λ s,
  match rv_records s !! b with
  | None => (s, Err (BatchNotFound b))
  | Some r => let '(r', res) := f r in
      (mkRecoveryStore (<[b := r']> (rv_records s)) (policy s) (rv_seq s), res)
  end.
(* @src src/poseq/src/bridge_recovery/mod.rs:245-251 BridgeRecoveryStore::export_batch *)
Definition export_batch (b : id32) : M BridgeRecoveryStore BridgeRecoveryError () :=
  with_record b BridgeRecoveryRecord.try_export.
(** What an acknowledgement does to the record of its batch. *)
(* @src src/poseq/src/bridge_recovery/mod.rs:263-303 BridgeRecoveryStore::acknowledge *)
Definition acknowledge_record (b h : id32) : M BridgeRecoveryRecord BridgeRecoveryError RuntimeAckReconciliationResult := λ r,
  if BridgeDeliveryState.is_terminal (rv_state r) then
    let was_acked := match rv_state r with Acknowledged | RecoveredAck => true | _ => false end in
    let hash_match := match rv_ack_hash r with Some h' => bool_decide (h' = h) | None => false end in
    match was_acked && negb hash_match, rv_ack_hash r with
    | true, Some stored => (r, Err (AckHashConflict b stored h))
    | _, _ => (r, Ok (mkReconciliation b was_acked hash_match "ignored_duplicate"))
    end
  else
    let is_recovery := match rv_state r with RetryPending _ => true | _ => false end in
    match BridgeRecoveryRecord.mark_acknowledged h r with
    | (r', Ok _) =>
        let r'' := if is_recovery
          then mkRecovery (rv_batch_id r') RecoveredAck (attempts r') (last_attempt_seq r') (rv_ack_hash r') else r' in
        (r'', Ok (mkReconciliation b false true "acknowledged"))
    | (r', Err e) => (r', Err e)
    | (r', Panic) => (r', Panic)
    end.
(* @src src/poseq/src/bridge_recovery/mod.rs:253-304 BridgeRecoveryStore::acknowledge *)
Definition acknowledge (b h : id32) : M BridgeRecoveryStore BridgeRecoveryError RuntimeAckReconciliationResult :=
  with_record b (acknowledge_record b h).
(* @src src/poseq/src/bridge_recovery/mod.rs:307-309 BridgeRecoveryStore::get_record *)
Definition get_record (s : BridgeRecoveryStore) (b : id32) : option BridgeRecoveryRecord := rv_records s !! b.
(* @src src/poseq/src/bridge_recovery/mod.rs:312-314 BridgeRecoveryStore::all_records *)
Definition all_records (s : BridgeRecoveryStore) : list BridgeRecoveryRecord := btree_values (rv_records s).
(* @src src/poseq/src/bridge_recovery/mod.rs:316-325 BridgeRecoveryStore::reject_and_retry *)
Definition reject_and_retry (b : id32) : M BridgeRecoveryStore BridgeRecoveryError () := λ s,
  let seq := rv_seq s in
  with_record b (BridgeRecoveryRecord.mark_rejected ≫= λ _, BridgeRecoveryRecord.retry (policy s) seq)
    (mkRecoveryStore (rv_records s) (policy s) (wrapu 64 (seq + 1))).

Definition count_record (c : DeliveryConsistencyCheck) (r : BridgeRecoveryRecord) : DeliveryConsistencyCheck :=
  let '(mkConsistency p a f t i) := c in
  match rv_state r with
  | BdPending | Exporting | Exported => mkConsistency (S p) a f t i
  | Acknowledged | RecoveredAck => mkConsistency p (S a) f t
      (match rv_ack_hash r with Some _ => i | None => i ++ ["batch " +:+ debug_head (rv_batch_id r) +:+ " acked but no ack_hash"] end)
  | Failed => mkConsistency p a (S f) t i
  | RetryPending _ => mkConsistency p a f (S t) i
  | Rejected => mkConsistency p a f t (i ++ ["batch " +:+ debug_head (rv_batch_id r) +:+ " stuck in Rejected"])
  end.
(* @src src/poseq/src/bridge_recovery/mod.rs:327-370 BridgeRecoveryStore::consistency_check *)
Definition consistency_check (s : BridgeRecoveryStore) : DeliveryConsistencyCheck :=
  foldl count_record (mkConsistency 0 0 0 0 []) (btree_values (rv_records s)).
End BridgeRecoveryStore.

(** ** What the commitment binds *)

Section envelopes.
Context `{Sha256, !Sha256Laws}.

Definition root_preimages (e : FinalizationEnvelope) : list bytes := [concat (be_bytes 32 <$> fe_ordered_submission_ids e)].
Definition envelope_preimage (e : FinalizationEnvelope) : bytes :=
  be_bytes 32 (fe_finalization_hash e) ++ be_bytes 32 (fe_delivery_id e) ++
  be_bytes 32 (sha256 (concat (be_bytes 32 <$> fe_ordered_submission_ids e))).
Definition envelope_preimages (e : FinalizationEnvelope) : list bytes := [envelope_preimage e].
Definition envelope_fits (e : FinalizationEnvelope) : Prop :=
  fits 256 (fe_finalization_hash e) ∧ fits 256 (fe_delivery_id e) ∧
  Forall (fits 256) (fe_ordered_submission_ids e).

(** Two envelopes that verify against one commitment hash have the same finalization, the
    same delivery and the same submissions in the same order. *)
Theorem envelope_binds (e e' : FinalizationEnvelope) :
  envelope_fits e → envelope_fits e' →
  no_collision (root_preimages e) (root_preimages e') →
  no_collision (envelope_preimages e) (envelope_preimages e') →
  FinalizationEnvelope.verify_commitment e = true → FinalizationEnvelope.verify_commitment e' = true →
  commitment_hash (fe_commitment e) = commitment_hash (fe_commitment e') →
  fe_finalization_hash e = fe_finalization_hash e' ∧ fe_delivery_id e = fe_delivery_id e' ∧
  fe_ordered_submission_ids e = fe_ordered_submission_ids e'.
Proof.
  intros (Hf & Hd & Hi) (Hf' & Hd' & Hi') Hr Hc V V' E.
  unfold FinalizationEnvelope.verify_commitment in V, V'.
  apply bool_decide_eq_true in V, V'. rewrite <- V, <- V' in E. cbn [compute_commitment commitment_hash] in E.
  apply Hc in E; [|left|left]. apply be_bytes_app_inj in E as [Ef E]; [|done..].
  apply be_bytes_app_inj in E as [Ed E]; [|done..].
  apply be_bytes_inj in E; [|apply sha256_fits..].
  split_and!; [done|done|]. apply concat_ids_inj; [done..|]. apply Hr; [left|left|done].
Qed.

(** A delivered envelope verifies; but so does one whose slot, epoch, leader, roots, quorum,
    sequence number and fairness data were exchanged. *)
Theorem envelope_fields_unbound (b : FinalizedBatch) (d : RuntimeDeliveryEnvelope) (sequence : Z) (f : FairnessMeta)
    (batch attempt slot epoch sequence' leader parent root n m : Z) (f' : FairnessMeta) :
  let e := FinalizationEnvelope.build b d sequence f in
  FinalizationEnvelope.verify_commitment e = true ∧
  FinalizationEnvelope.verify_commitment
    (mkEnvelope batch (fe_delivery_id e) attempt slot epoch sequence' leader parent (fe_ordered_submission_ids e) root
       (fe_finalization_hash e) n m f' (fe_commitment e)) = true.
Proof. split; by apply bool_decide_eq_true. Qed.
End envelopes.

(** ** Runs of the pipeline *)

Section pipeline.
Context `{Sha256, StrDebug}.

Inductive pipeline_op : Type :=
| OpDeliver (b : FinalizedBatch) (f : FairnessMeta)
| OpAck (a : RuntimeIngestionAck)
| OpReject (r : RuntimeIngestionRejection).
Definition pipeline_step (p : BatchPipeline) (o : pipeline_op) : BatchPipeline :=
  match o with
  | OpDeliver b f => (BatchPipeline.deliver b f p).1
  | OpAck a => (BatchPipeline.record_ack a p).1
  | OpReject r => BatchPipeline.record_rejection r p
  end.
Definition pipeline_run (ops : list pipeline_op) : BatchPipeline := foldl pipeline_step BatchPipeline.new ops.

Definition delivers (n : id32) (o : pipeline_op) : bool :=
  match o with OpDeliver b _ => bool_decide (fb_batch_id b = n) | _ => false end.
Definition acks (d : id32) (o : pipeline_op) : bool :=
  match o with OpAck a => bool_decide (ra_delivery_id a = d) | _ => false end.
Definition deliveries (n : id32) (ops : list pipeline_op) : Z := Z.of_nat (length (filter (λ o, delivers n o = true) ops)).

Lemma deliveries_snoc n ops o : deliveries n (ops ++ [o]) = deliveries n ops + Z.b2z (delivers n o).
Proof.
  unfold deliveries. rewrite filter_app, filter_cons, filter_nil, length_app.
  case_decide as E; [rewrite E|apply not_true_is_false in E; rewrite E]; cbn; lia.
Qed.
Lemma deliveries_bound n ops : 0 ≤ deliveries n ops ≤ Z.of_nat (length ops).
Proof. unfold deliveries. pose proof (length_filter (λ o, delivers n o = true) ops). lia. Qed.

(** The record and the entry of a batch after a number of deliveries. *)
Definition record_ok (n k : Z) (p : BatchPipeline) : Prop :=
  match br_records (bridge p) !! n with
  | Some r => 0 < k ∧ br_attempt_count r = k ∧ br_delivery_id r = RuntimeDeliveryEnvelope.compute_delivery_id n 1
  | None => k = 0
  end.
Definition entry_ok (n k : Z) (p : BatchPipeline) : Prop :=
  match lifecycle p !! n with
  | Some e => 0 < k ∧ lc_attempt_count e = 1
  | None => k = 0
  end.

Lemma pipeline_run_inv ops :
  Z.of_nat (length ops) < 2 ^ 32 →
  let p := pipeline_run ops in
  (∀ n, record_ok n (deliveries n ops) p ∧ entry_ok n (deliveries n ops) p) ∧
  ∀ d, is_Some (ack_replay_guard (bridge p) !! d) ↔ Exists (λ o, acks d o = true) ops.
Proof.
  unfold pipeline_run. induction ops as [|o ops IH] using rev_ind; intros Hlen.
  { split; [done|]. intros d. rewrite Exists_nil. by split; [intros [??]|]. }
  rewrite length_app in Hlen. cbn [length] in Hlen. destruct IH as [IH1 IH2]; [lia|].
  rewrite foldl_app. cbn [foldl]. set (p := foldl _ _ _) in *. destruct o as [b f|a|r]; cbn [pipeline_step].
  - split.
    + intros n. rewrite deliveries_snoc. cbn [delivers]. destruct (IH1 n) as [Hr He].
      pose proof (deliveries_bound n ops). unfold record_ok, entry_ok in *.
      unfold BatchPipeline.deliver, HardenedRuntimeBridge.deliver.
      destruct (br_records (bridge p) !! fb_batch_id b) as [r0|] eqn:Er; cbn [fst bridge lifecycle br_records];
        rewrite !lookup_insert; destruct (decide (fb_batch_id b = n)) as [<-|Hne].
      * rewrite bool_decide_true, Er in * by done. cbn. destruct Hr as (? & Hk & ?).
        split; [split_and!; [lia|unfold sat_add; cbn; rewrite Hk; ints|done]|]. by destruct (lifecycle p !! fb_batch_id b); (split; [lia|]).
      * rewrite bool_decide_false by done. cbn. by rewrite Z.add_0_r.
      * rewrite bool_decide_true, Er in * by done. cbn.
        split; [split_and!; [lia..|done]|]. by destruct (lifecycle p !! fb_batch_id b); (split; [lia|]).
      * rewrite bool_decide_false by done. cbn. by rewrite Z.add_0_r.
    + intros d. rewrite Exists_app, Exists_cons, Exists_nil. cbn [acks]. rewrite <- IH2.
      unfold BatchPipeline.deliver, HardenedRuntimeBridge.deliver.
      destruct (br_records (bridge p) !! fb_batch_id b); cbn; naive_solver.
  - unfold BatchPipeline.record_ack, HardenedRuntimeBridge.record_ack. cbn [ak_delivery_id ak_batch_id new_ack ak_accepted].
    destruct (decide (is_Some (ack_replay_guard (bridge p) !! ra_delivery_id a))) as [Hs|Hs].
    + cbn [fst]. split.
      * intros n. rewrite deliveries_snoc. cbn. rewrite Z.add_0_r. apply IH1.
      * intros d. rewrite Exists_app, Exists_cons, Exists_nil. cbn [acks bridge]. rewrite <- IH2.
        rewrite bool_decide_eq_true. naive_solver.
    + cbn [fst]. split.
      * intros n. rewrite deliveries_snoc. cbn [delivers Z.b2z]. rewrite Z.add_0_r. destruct (IH1 n) as [Hr He].
        unfold record_ok, entry_ok in *. cbn [bridge lifecycle br_records]. rewrite !lookup_alter.
        split; case_decide; subst; [destruct (br_records _ !! _)|..|destruct (lifecycle p !! _)|]; done.
      * intros d. rewrite Exists_app, Exists_cons, Exists_nil. cbn [acks bridge ack_replay_guard]. rewrite <- IH2.
        rewrite bool_decide_eq_true, lookup_insert. case_decide; naive_solver.
  - unfold BatchPipeline.record_rejection, HardenedRuntimeBridge.record_rejection. split.
    + intros n. rewrite deliveries_snoc. cbn [delivers Z.b2z]. rewrite Z.add_0_r. destruct (IH1 n) as [Hr He].
      unfold record_ok, entry_ok in *. cbn [bridge lifecycle br_records rj_batch_id]. rewrite !lookup_alter.
      split; case_decide; subst; [destruct (br_records _ !! _)|..|destruct (lifecycle p !! _)|]; done.
    + intros d. rewrite Exists_app, Exists_cons, Exists_nil. cbn [acks bridge ack_replay_guard]. rewrite <- IH2. naive_solver.
Qed.

(** After any run, an acknowledgement succeeds exactly when no earlier one was of its
    delivery; the bridge counts the deliveries of a batch, all under the id of the first
    attempt; and the lifecycle entry says one attempt, however many there were. *)
Theorem pipeline_exact (ops : list pipeline_op) :
  Z.of_nat (length ops) < 2 ^ 32 →
  let p := pipeline_run ops in
  (∀ a, (BatchPipeline.record_ack a p).2 =
    if decide (Exists (λ o, acks (ra_delivery_id a) o = true) ops) then Err AckReplay else Ok tt) ∧
  (∀ n r, BatchPipeline.get_delivery_record p n = Some r → br_attempt_count r = deliveries n ops ∧
    br_delivery_id r = RuntimeDeliveryEnvelope.compute_delivery_id n 1) ∧
  (∀ n, is_Some (BatchPipeline.get_lifecycle p n) ↔ 0 < deliveries n ops) ∧
  (∀ n e, BatchPipeline.get_lifecycle p n = Some e → lc_attempt_count e = 1).
Proof.
  intros Hlen p. destruct (pipeline_run_inv ops Hlen) as [H1 H2]. fold p in H1, H2. split_and!.
  - intros a. unfold BatchPipeline.record_ack, HardenedRuntimeBridge.record_ack. cbn [ak_delivery_id new_ack].
    specialize (H2 (ra_delivery_id a)).
    destruct (decide (is_Some _)), (decide (Exists _ _)); (done || tauto).
  - intros n r Hr. destruct (H1 n) as [Hok _]. unfold record_ok in Hok.
    unfold BatchPipeline.get_delivery_record, HardenedRuntimeBridge.get_record in Hr. rewrite Hr in Hok. tauto.
  - intros n. destruct (H1 n) as [_ Hok]. unfold entry_ok in Hok. unfold BatchPipeline.get_lifecycle.
    destruct (lifecycle p !! n); [split; [tauto|by eexists]|]. split; [intros [? [=]]|lia].
  - intros n e He. destruct (H1 n) as [_ Hok]. unfold entry_ok in Hok. unfold BatchPipeline.get_lifecycle in He.
    rewrite He in Hok. tauto.
Qed.

Lemma deliver_guard b f p : ack_replay_guard (bridge (BatchPipeline.deliver b f p).1) = ack_replay_guard (bridge p).
Proof. unfold BatchPipeline.deliver, HardenedRuntimeBridge.deliver. by destruct (br_records (bridge p) !! _). Qed.
Lemma reject_guard r p : ack_replay_guard (bridge (BatchPipeline.record_rejection r p)) = ack_replay_guard (bridge p).
Proof. done. Qed.
(** A delivery leaves an entry, in the state that it had if there was one. *)
Lemma deliver_entry b f p :
  ∃ e, lifecycle (BatchPipeline.deliver b f p).1 !! fb_batch_id b = Some e ∧
  lc_state e = match lifecycle p !! fb_batch_id b with Some e0 => lc_state e0 | None => PsPending end.
Proof.
  unfold BatchPipeline.deliver. destruct (HardenedRuntimeBridge.deliver b (bridge p)) as [br d]. cbn [fst lifecycle].
  rewrite lookup_insert_eq. eexists. split; [done|]. by destruct (lifecycle p !! fb_batch_id b).
Qed.

(** A batch that the runtime asked to retry still asks for it after it was delivered
    again, and one rejected for good is delivered again and can be accepted. *)
Theorem rejection_not_final (b : FinalizedBatch) (f : FairnessMeta) (a : RuntimeIngestionAck) (s : string) (d : id32)
    (p : BatchPipeline) :
  ra_batch_id a = fb_batch_id b → ack_replay_guard (bridge p) !! ra_delivery_id a = None →
  let again c := (BatchPipeline.deliver b f (BatchPipeline.record_rejection
    (new_ingestion_rejection (fb_batch_id b) d 0 c) (BatchPipeline.deliver b f p).1)).1 in
  BatchPipeline.needs_retry (again (TransientUnavailable s)) (fb_batch_id b) = true ∧
  BatchPipeline.is_terminal (again AlreadyApplied) (fb_batch_id b) = true ∧
  ∃ e, BatchPipeline.get_lifecycle (BatchPipeline.record_ack a (again AlreadyApplied)).1 (fb_batch_id b) = Some e ∧
    lc_state e = PsAccepted.
Proof.
  intros Ea Hg again.
  assert (∀ c, ack_replay_guard (bridge (again c)) = ack_replay_guard (bridge p) ∧
    ∃ e, lifecycle (again c) !! fb_batch_id b = Some e ∧
      lc_state e = if RejectionCause.is_retryable c then RejectedRetryable else RejectedTerminal) as Hag.
  { intros c. unfold again. rewrite deliver_guard, reject_guard, deliver_guard. split; [done|].
    destruct (deliver_entry b f p) as (e1 & E1 & _).
    assert (∀ r p0 e0, lifecycle p0 !! rr_batch_id r = Some e0 →
      ∃ e, lifecycle (BatchPipeline.record_rejection r p0) !! rr_batch_id r = Some e ∧
      lc_state e = if RejectionCause.is_retryable (cause r) then RejectedRetryable else RejectedTerminal) as Hrej.
    { intros r p0 e0 E0. unfold BatchPipeline.record_rejection. cbn [lifecycle]. rewrite lookup_alter_eq, E0.
      by eexists. }
    destruct (Hrej (new_ingestion_rejection (fb_batch_id b) d 0 c) _ e1 E1) as (e2 & E2 & S2).
    destruct (deliver_entry b f (BatchPipeline.record_rejection (new_ingestion_rejection (fb_batch_id b) d 0 c)
      (BatchPipeline.deliver b f p).1)) as (e3 & E3 & S3).
    exists e3. split; [exact E3|]. cbn [rr_batch_id new_ingestion_rejection] in E2. rewrite E2 in S3. by rewrite S3, S2. }
  destruct (Hag (TransientUnavailable s)) as (_ & e1 & L1 & S1).
  destruct (Hag AlreadyApplied) as (G2 & e2 & L2 & S2). split_and!.
  - unfold BatchPipeline.needs_retry. rewrite L1. by apply bool_decide_eq_true.
  - unfold BatchPipeline.is_terminal. by rewrite L2, S2.
  - unfold BatchPipeline.get_lifecycle, BatchPipeline.record_ack, HardenedRuntimeBridge.record_ack.
    cbn [ak_delivery_id new_ack]. rewrite G2, Hg. rewrite decide_False by (by intros [? [=]]). cbn [fst lifecycle].
    rewrite Ea, lookup_alter_eq, L2. cbn. by eexists.
Qed.

(** An acknowledgement of one batch under the delivery id of another uses that id up: the
    other batch stays pending, and its own acknowledgement is refused. *)
Theorem foreign_ack_blocks (a a' : RuntimeIngestionAck) (p : BatchPipeline) (e : BatchLifecycleEntry) :
  ra_batch_id a' ≠ ra_batch_id a → ra_delivery_id a' = ra_delivery_id a →
  BatchPipeline.get_lifecycle p (ra_batch_id a) = Some e →
  let p' := (BatchPipeline.record_ack a' p).1 in
  (BatchPipeline.record_ack a p').2 = Err AckReplay ∧
  BatchPipeline.get_lifecycle (BatchPipeline.record_ack a p').1 (ra_batch_id a) = Some e.
Proof.
  intros Hb Hd He p'. unfold BatchPipeline.get_lifecycle in *.
  assert (is_Some (ack_replay_guard (bridge p') !! ra_delivery_id a) ∧ lifecycle p' !! ra_batch_id a = Some e) as [Hs He'].
  { unfold p', BatchPipeline.record_ack, HardenedRuntimeBridge.record_ack. cbn [ak_delivery_id ak_batch_id new_ack].
    rewrite Hd. destruct (decide _) as [?|?]; cbn; [done|].
    rewrite lookup_insert_eq, lookup_alter_ne by done. split; [by eexists|done]. }
  unfold BatchPipeline.record_ack, HardenedRuntimeBridge.record_ack. cbn [ak_delivery_id new_ack].
  by rewrite decide_True.
Qed.
End pipeline.

(** ** Runs of the retry store *)

Inductive recovery_op : Type :=
| OpRegister (b : id32) | OpExport (b : id32) | OpAckBatch (b h : id32) | OpRejectRetry (b : id32).
Definition recovery_step (s : BridgeRecoveryStore) (o : recovery_op) : BridgeRecoveryStore :=
  match o with
  | OpRegister b => BridgeRecoveryStore.register_batch b s
  | OpExport b => (BridgeRecoveryStore.export_batch b s).1
  | OpAckBatch b h => (BridgeRecoveryStore.acknowledge b h s).1
  | OpRejectRetry b => (BridgeRecoveryStore.reject_and_retry b s).1
  end.
Definition recovery_run (pol : BridgeRetryPolicy) (ops : list recovery_op) : BridgeRecoveryStore :=
  foldl recovery_step (BridgeRecoveryStore.new pol) ops.

(** What a record of a run is like: how often it was exported, and with an
    acknowledgement exactly when it is acknowledged. *)
Definition record_inv (m b : Z) (r : BridgeRecoveryRecord) : Prop :=
  rv_batch_id r = b ∧
  match rv_state r with
  | BdPending => attempts r = 0 ∧ rv_ack_hash r = None
  | Exporting => 1 ≤ attempts r ≤ Z.max 1 m ∧ rv_ack_hash r = None
  | RetryPending a => a = attempts r ∧ 1 ≤ a < m ∧ rv_ack_hash r = None
  | Acknowledged => 1 ≤ attempts r ≤ Z.max 1 m ∧ is_Some (rv_ack_hash r)
  | Failed => attempts r = Z.max 1 m ∧ rv_ack_hash r = None
  | _ => False
  end.

Section records.
Context (pol : BridgeRetryPolicy) (Hpol : fits 32 (max_attempts pol)).
Local Abbreviation m := (max_attempts pol).

Lemma try_export_inv b r : record_inv m b r → record_inv m b (BridgeRecoveryRecord.try_export r).1.
Proof.
  unfold record_inv, BridgeRecoveryRecord.try_export. intros [Hb Hr].
  destruct (rv_state r) eqn:E; cbn in *; rewrite ?E; try done; (split; [done|]);
    rewrite wrapu_id by ints; naive_solver lia.
Qed.

Lemma acknowledge_inv b h r : record_inv m b r → record_inv m b (BridgeRecoveryStore.acknowledge_record b h r).1.
Proof.
  intros Hi. pose proof Hi as [Hb Hr]. unfold BridgeRecoveryStore.acknowledge_record, BridgeRecoveryRecord.mark_acknowledged.
  destruct (rv_state r) eqn:E; cbn in *; rewrite ?E; cbn; try done.
  - split; [done|]. cbn. split; [tauto|by eexists].
  - destruct Hr as [? [h' Eh]]. rewrite Eh. by case_bool_decide.
Qed.

Lemma reject_retry_inv b sq r : record_inv m b r →
  record_inv m b ((BridgeRecoveryRecord.mark_rejected ≫= λ _, BridgeRecoveryRecord.retry pol sq) r).1.
Proof.
  intros Hi. pose proof Hi as [Hb Hr]. unfold mbind, M_bind, BridgeRecoveryRecord.mark_rejected, BridgeRecoveryRecord.retry.
  destruct (rv_state r) eqn:E; cbn in *; rewrite ?E; try done.
  destruct (decide _); cbn; (split; [done|]); cbn; naive_solver lia.
Qed.
End records.

Definition recovery_inv (pol : BridgeRetryPolicy) (s : BridgeRecoveryStore) : Prop :=
  policy s = pol ∧ ∀ b r, rv_records s !! b = Some r → record_inv (max_attempts pol) b r.

Lemma with_record_cases {A} b (f : M BridgeRecoveryRecord BridgeRecoveryError A) s :
  let '(s', res) := BridgeRecoveryStore.with_record b f s in
  policy s' = policy s ∧
  match rv_records s !! b with
  | None => rv_records s' = rv_records s
  | Some r => rv_records s' = <[b := (f r).1]> (rv_records s)
  end.
Proof.
  unfold BridgeRecoveryStore.with_record. destruct (rv_records s !! b) as [r|]; [|done].
  by destruct (f r) as [r' res].
Qed.

Lemma with_record_inv {A} pol b (f : M BridgeRecoveryRecord BridgeRecoveryError A) s :
  (∀ r, record_inv (max_attempts pol) b r → record_inv (max_attempts pol) b (f r).1) →
  recovery_inv pol s → recovery_inv pol (BridgeRecoveryStore.with_record b f s).1.
Proof.
  intros Hf [Hp Hr]. pose proof (with_record_cases b f s) as Hc.
  destruct (BridgeRecoveryStore.with_record b f s) as [s' res]. destruct Hc as [E1 E2]. cbn [fst].
  split; [congruence|]. intros b' r'. destruct (rv_records s !! b) as [r|] eqn:Eb; rewrite E2; [|apply Hr].
  rewrite lookup_insert. case_decide; [|apply Hr]. intros [= <-]. subst. auto.
Qed.

Lemma recovery_run_inv pol ops : fits 32 (max_attempts pol) → recovery_inv pol (recovery_run pol ops).
Proof.
  intros Hpol. unfold recovery_run. induction ops as [|o ops IH] using rev_ind; [by split|].
  rewrite foldl_app. cbn [foldl]. set (s := foldl _ _ _) in *. destruct o as [b|b|b h|b]; cbn [recovery_step].
  - unfold BridgeRecoveryStore.register_batch. destruct (rv_records s !! b) eqn:E; [done|].
    destruct IH as [Hp Hr]. split; [done|]. intros b' r'. cbn. rewrite lookup_insert.
    case_decide; [|apply Hr]. by intros [= <-].
  - apply with_record_inv; [|done]. intros. by apply try_export_inv.
  - apply with_record_inv; [|done]. intros. by apply acknowledge_inv.
  - unfold BridgeRecoveryStore.reject_and_retry. destruct IH as [Hp Hr]. rewrite Hp.
    apply with_record_inv; [|done]. intros. by apply reject_retry_inv.
Qed.

(** How many exports of a batch succeed in a run. *)
Definition exported (s : BridgeRecoveryStore) (b : id32) (o : recovery_op) : Z :=
  match o with
  | OpExport b' => if decide (b' = b) then
      match (BridgeRecoveryStore.export_batch b' s).2 with Ok _ => 1 | _ => 0 end else 0
  | _ => 0
  end.
Fixpoint exports (b : id32) (s : BridgeRecoveryStore) (ops : list recovery_op) : Z :=
  match ops with
  | [] => 0
  | o :: ops => exported s b o + exports b (recovery_step s o) ops
  end.
Definition attempts_of (s : BridgeRecoveryStore) (b : id32) : Z := default 0 (attempts <$> rv_records s !! b).

Lemma exports_snoc b s ops o :
  exports b s (ops ++ [o]) = exports b s ops + exported (foldl recovery_step s ops) b o.
Proof. revert s. induction ops as [|o' ops IH]; intros s; cbn [app exports foldl]; [lia|]. rewrite IH. lia. Qed.

Lemma with_record_attempts {A} b' (f : M BridgeRecoveryRecord BridgeRecoveryError A) s b (k : Z) :
  (∀ r, rv_records s !! b' = Some r → b' = b → attempts (f r).1 = attempts r + k) →
  (rv_records s !! b' = None → b' = b → k = 0) →
  attempts_of (BridgeRecoveryStore.with_record b' f s).1 b = attempts_of s b + (if decide (b' = b) then k else 0).
Proof.
  intros Hf Hk. pose proof (with_record_cases b' f s) as Hc. destruct (BridgeRecoveryStore.with_record b' f s) as [s' res].
  destruct Hc as [_ E]. cbn [fst]. unfold attempts_of. destruct (rv_records s !! b') as [r|] eqn:Eb; rewrite E.
  - specialize (Hf r eq_refl). rewrite lookup_insert. destruct (decide (b' = b)) as [<-|]; [|lia].
    rewrite Eb. by apply Hf.
  - destruct (decide (b' = b)); [rewrite Hk by done|]; lia.
Qed.

Lemma step_attempts pol s b o :
  fits 32 (max_attempts pol) → recovery_inv pol s → attempts_of (recovery_step s o) b = attempts_of s b + exported s b o.
Proof.
  intros Hpol [Hp Hr]. destruct o as [b'|b'|b' h|b']; cbn [recovery_step exported].
  - unfold BridgeRecoveryStore.register_batch, attempts_of. destruct (rv_records s !! b') eqn:E; [lia|]. cbn.
    rewrite lookup_insert. case_decide; [subst; rewrite E; cbn; lia|lia].
  - apply with_record_attempts.
    + intros r Er _. unfold BridgeRecoveryStore.export_batch, BridgeRecoveryStore.with_record.
      rewrite Er. destruct (Hr b' r Er) as [_ Hi]. revert Hi. unfold BridgeRecoveryRecord.try_export.
      destruct (rv_state r); intros Hi; cbn; try lia; rewrite wrapu_id; (done || ints || lia).
    + intros Er _. unfold BridgeRecoveryStore.export_batch, BridgeRecoveryStore.with_record. by rewrite Er.
  - pose proof (with_record_attempts b' (BridgeRecoveryStore.acknowledge_record b' h) s b 0) as Hw.
    assert ((if decide (b' = b) then 0 else 0) = 0) as Ez by (by case_decide). rewrite Ez in Hw. apply Hw; [|done].
    intros r _ _. unfold BridgeRecoveryStore.acknowledge_record, BridgeRecoveryRecord.mark_acknowledged.
    destruct (rv_state r); cbn; try lia; repeat case_match; cbn; lia.
  - unfold BridgeRecoveryStore.reject_and_retry.
    set (s1 := mkRecoveryStore (rv_records s) (policy s) (wrapu 64 (rv_seq s + 1))).
    change (attempts_of s b) with (attempts_of s1 b).
    pose proof (with_record_attempts b' (BridgeRecoveryRecord.mark_rejected ≫= λ _, BridgeRecoveryRecord.retry (policy s) (rv_seq s)) s1 b 0) as Hw.
    assert ((if decide (b' = b) then 0 else 0) = 0) as Ez by (by case_decide). rewrite Ez in Hw. apply Hw; [|done].
    intros r _ _. unfold mbind, M_bind, BridgeRecoveryRecord.mark_rejected, BridgeRecoveryRecord.retry.
    destruct (rv_state r); cbn; try lia; destruct (decide (max_attempts _ ≤ _)); cbn; lia.
Qed.

Lemma exports_attempts pol ops b :
  fits 32 (max_attempts pol) → attempts_of (recovery_run pol ops) b = exports b (BridgeRecoveryStore.new pol) ops.
Proof.
  intros Hpol. induction ops as [|o ops IH] using rev_ind; [done|].
  rewrite exports_snoc, <- IH. unfold recovery_run. rewrite foldl_app. cbn [foldl].
  apply (step_attempts pol); [done|]. by apply recovery_run_inv.
Qed.

Lemma count_sum l c :
  Forall (λ r, ∃ b m, record_inv m b r) l →
  let c' := foldl BridgeRecoveryStore.count_record c l in
  inconsistencies c' = inconsistencies c ∧
  (batches_pending c' + batches_acked c' + batches_failed c' + batches_in_retry c' =
   length l + (batches_pending c + batches_acked c + batches_failed c + batches_in_retry c))%nat.
Proof.
  intros Hl. revert c. induction Hl as [|r l (b & m & _ & Hr) _ IH]; intros c; [done|]. cbn [foldl].
  destruct (IH (BridgeRecoveryStore.count_record c r)) as [E1 E2]. cbn zeta. rewrite E1, E2.
  destruct c as [p a f t i]. cbn [length]. unfold BridgeRecoveryStore.count_record.
  destruct (rv_state r); cbn; try done; (split; [|lia]); try done.
  by destruct Hr as [_ [h ->]].
Qed.

(** C28: After any run, a batch was exported successfully at most as often as the policy allows, and once at
    least is always allowed; one that waits for a retry is below the limit and one that
    failed is at it; the store finds itself consistent and counts every batch once.  No
    batch is ever exported, rejected or recovered in the sense of the states so named. *)
Theorem recovery_sound (pol : BridgeRetryPolicy) (ops : list recovery_op) :
  fits 32 (max_attempts pol) →
  let s := recovery_run pol ops in
  let c := BridgeRecoveryStore.consistency_check s in
  (∀ b r, BridgeRecoveryStore.get_record s b = Some r → record_inv (max_attempts pol) b r) ∧
  (∀ b, exports b (BridgeRecoveryStore.new pol) ops ≤ Z.max 1 (max_attempts pol)) ∧
  inconsistencies c = [] ∧
  (batches_pending c + batches_acked c + batches_failed c + batches_in_retry c)%nat = size (rv_records s).
Proof.
  intros Hpol s c. destruct (recovery_run_inv pol ops Hpol) as [_ Hr]. fold s in Hr. split; [exact Hr|]. split.
  { intros b. rewrite <- exports_attempts by done. unfold attempts_of. fold s.
    destruct (rv_records s !! b) as [r|] eqn:E; [|cbn; lia]. destruct (Hr b r E) as [_ Hi]. cbn.
    destruct (rv_state r); naive_solver lia. }
  destruct (count_sum (btree_values (rv_records s)) (mkConsistency 0 0 0 0 [])) as [E1 E2].
  { apply Forall_forall. intros r [b Hb]%elem_of_btree_values. eauto. }
  split; [exact E1|]. etransitivity; [exact E2|]. cbn. rewrite Nat.add_0_r. unfold btree_values.
  rewrite length_fmap, btree_list_perm. apply length_map_to_list.
Qed.

(** A record that is acknowledged or failed stays as it is, whatever is done after; so the
    first hash acknowledged is kept, and another is reported as a conflict. *)
Theorem terminal_kept (s : BridgeRecoveryStore) (ops : list recovery_op) (b : id32) (r : BridgeRecoveryRecord) :
  BridgeRecoveryStore.get_record s b = Some r → BridgeDeliveryState.is_terminal (rv_state r) = true →
  BridgeRecoveryStore.get_record (foldl recovery_step s ops) b = Some r ∧
  ∀ h h', rv_state r = Acknowledged → rv_ack_hash r = Some h → h' ≠ h →
    (BridgeRecoveryStore.acknowledge b h' (foldl recovery_step s ops)).2 = Err (AckHashConflict b h h').
Proof.
  intros Hb Ht. unfold BridgeRecoveryStore.get_record in *.
  assert (rv_records (foldl recovery_step s ops) !! b = Some r) as Hb'.
  { assert (∀ A b' (f : M BridgeRecoveryRecord BridgeRecoveryError A) s, rv_records s !! b = Some r → (f r).1 = r →
      rv_records (BridgeRecoveryStore.with_record b' f s).1 !! b = Some r) as Hw.
    { intros A b' f s0 Hs Hf. pose proof (with_record_cases b' f s0) as Hc.
      destruct (BridgeRecoveryStore.with_record b' f s0) as [s' res]. destruct Hc as [_ E]. cbn [fst].
      destruct (rv_records s0 !! b') as [r'|] eqn:Eb; rewrite E; [|done]. rewrite lookup_insert.
      case_decide; [|done]. subst. f_equal. congruence. }
    induction ops as [|o ops IH] using rev_ind; [done|]. rewrite foldl_app. cbn [foldl].
    set (s1 := foldl _ _ _) in *. destruct o as [b'|b'|b' h|b']; cbn [recovery_step].
    - unfold BridgeRecoveryStore.register_batch. destruct (rv_records s1 !! b') eqn:E; [done|]. cbn.
      rewrite lookup_insert_ne; [done|]. intros ->. congruence.
    - apply Hw; [done|]. unfold BridgeRecoveryRecord.try_export. by rewrite Ht.
    - apply Hw; [done|]. unfold BridgeRecoveryStore.acknowledge_record. rewrite Ht. by repeat case_match.
    - apply Hw; [done|]. unfold mbind, M_bind, BridgeRecoveryRecord.mark_rejected. by rewrite Ht. }
  split; [done|]. intros h h' Hs Hh Hne. unfold BridgeRecoveryStore.acknowledge, BridgeRecoveryStore.with_record.
  rewrite Hb'. unfold BridgeRecoveryStore.acknowledge_record. rewrite Ht, Hs, Hh. by rewrite bool_decide_false.
Qed.

(** The acknowledgement of a batch that waits for its retry is an error, and the batch
    waits on; so a delivery that was only late is never recovered. *)
Theorem late_ack_refused (s : BridgeRecoveryStore) (b h a : id32) (r : BridgeRecoveryRecord) :
  BridgeRecoveryStore.get_record s b = Some r → rv_state r = RetryPending a →
  (BridgeRecoveryStore.acknowledge b h s).2 = Err (BridgeRecoveryRecord.invalid r "mark_acknowledged") ∧
  BridgeRecoveryStore.get_record (BridgeRecoveryStore.acknowledge b h s).1 b = Some r.
Proof.
  unfold BridgeRecoveryStore.get_record. intros Hb Hs.
  unfold BridgeRecoveryStore.acknowledge, BridgeRecoveryStore.with_record, BridgeRecoveryStore.acknowledge_record,
    BridgeRecoveryRecord.mark_acknowledged. rewrite Hb, Hs. cbn. by rewrite lookup_insert_eq.
Qed.

(** Applied to the record itself, a retry beyond the limit fails even what was
    acknowledged. *)
Theorem retry_fails_acknowledged (p : BridgeRetryPolicy) (sq : Z) (r : BridgeRecoveryRecord) :
  max_attempts p ≤ attempts r → rv_state r = Acknowledged →
  rv_state (BridgeRecoveryRecord.retry p sq r).1 = Failed.
Proof. intros Hm _. unfold BridgeRecoveryRecord.retry. by rewrite decide_True. Qed.

(** ** Runs *)

Definition sample_finalized : FinalizedBatch :=
  mkFinalized 11 1 2 3 4 [21; 22] 5 6 7 (mkQuorum true 3 0 4 8) 9.
Definition sample_envelope (sequence : Z) : FinalizationEnvelope :=
  @FinalizationEnvelope.build sample_sha256 sample_finalized
    (@RuntimeDeliveryEnvelope.build sample_sha256 sample_finalized 1) sequence (no_fairness 1).

Lemma envelope_binds_witness :
  fe_ordered_submission_ids (sample_envelope 1) = fe_ordered_submission_ids (sample_envelope 2).
Proof.
  destruct (@envelope_binds sample_sha256 sample_sha256_laws (sample_envelope 1) (sample_envelope 2)) as (_ & _ & H);
    [..|exact H].
  1,2: split_and!; [by_eval..|]; repeat constructor; by_eval.
  1,2: apply collision_free_sound; by vm_compute.
  all: by vm_compute.
Defined.

Definition sample_str_debug : StrDebug := λ s, s.
Definition sample_ack (batch delivery : id32) : RuntimeIngestionAck :=
  @new_ingestion_ack sample_sha256 batch delivery 3 2 0 None.

Definition sample_pipeline_ops : list pipeline_op :=
  [OpDeliver sample_finalized (no_fairness 1); OpAck (sample_ack 11 5); OpDeliver sample_finalized (no_fairness 1)].
Lemma pipeline_exact_witness :
  (@BatchPipeline.record_ack sample_sha256 (sample_ack 11 5)
    (@pipeline_run sample_sha256 sample_str_debug sample_pipeline_ops)).2 = Err AckReplay.
Proof.
  rewrite (proj1 (@pipeline_exact sample_sha256 sample_str_debug sample_pipeline_ops ltac:(by vm_compute)) (sample_ack 11 5)).
  rewrite decide_True; [done|]. right. left. reflexivity.
Defined.

Lemma rejection_not_final_witness :
  BatchPipeline.needs_retry
    (@BatchPipeline.deliver sample_sha256 sample_finalized (no_fairness 1)
      (@BatchPipeline.record_rejection sample_str_debug (@new_ingestion_rejection sample_sha256 11 5 0 (TransientUnavailable "busy"))
        (@BatchPipeline.deliver sample_sha256 sample_finalized (no_fairness 1) BatchPipeline.new).1)).1 11 = true.
Proof.
  exact (proj1 (@rejection_not_final sample_sha256 sample_str_debug sample_finalized (no_fairness 1) (sample_ack 11 5)
    "busy" 5 BatchPipeline.new eq_refl eq_refl)).
Defined.

Lemma foreign_ack_blocks_witness :
  let p := (@BatchPipeline.deliver sample_sha256 sample_finalized (no_fairness 1) BatchPipeline.new).1 in
  (@BatchPipeline.record_ack sample_sha256 (sample_ack 11 5)
    (@BatchPipeline.record_ack sample_sha256 (sample_ack 12 5) p).1).2 = Err AckReplay.
Proof.
  cbv zeta. refine (proj1 (@foreign_ack_blocks sample_sha256 (sample_ack 11 5) (sample_ack 12 5) _
    (mkLifecycle 11 3 1 PsPending None None) _ _ _)); by vm_compute.
Defined.

Definition sample_recovery : list recovery_op :=
  [OpRegister 1; OpExport 1; OpRejectRetry 1; OpExport 1; OpRejectRetry 1; OpExport 1; OpAckBatch 1 7; OpRegister 2].
Lemma recovery_sound_witness :
  inconsistencies (BridgeRecoveryStore.consistency_check (recovery_run default_retry sample_recovery)) = [] ∧
  (attempts <$> BridgeRecoveryStore.get_record (recovery_run default_retry sample_recovery) 1) = Some 3.
Proof.
  split; [|by vm_compute]. exact (proj1 (proj2 (proj2 (recovery_sound default_retry sample_recovery ltac:(by_eval))))).
Defined.

Lemma terminal_kept_witness :
  BridgeRecoveryStore.get_record
    (foldl recovery_step (recovery_run default_retry sample_recovery) [OpExport 1; OpRejectRetry 1; OpAckBatch 1 8]) 1 =
  Some (mkRecovery 1 Acknowledged 3 1 (Some 7)).
Proof.
  refine (proj1 (terminal_kept (recovery_run default_retry sample_recovery) [OpExport 1; OpRejectRetry 1; OpAckBatch 1 8] 1
    (mkRecovery 1 Acknowledged 3 1 (Some 7)) _ _)); by vm_compute.
Defined.

Lemma late_ack_refused_witness :
  (BridgeRecoveryStore.acknowledge 1 7
    (recovery_run default_retry [OpRegister 1; OpExport 1; OpRejectRetry 1])).2 =
  Err (InvalidStateForOperation 1 "RetryPending { attempt: 1 }" "mark_acknowledged").
Proof.
  etransitivity; [refine (proj1 (late_ack_refused (recovery_run default_retry [OpRegister 1; OpExport 1; OpRejectRetry 1]) 1 7 1
    (mkRecovery 1 (RetryPending 1) 1 0 None) _ _)); by vm_compute|by vm_compute].
Defined.

Lemma retry_fails_acknowledged_witness :
  rv_state (BridgeRecoveryRecord.retry default_retry 9 (mkRecovery 1 Acknowledged 3 1 (Some 7))).1 = Failed.
Proof. by apply retry_fails_acknowledged. Defined.
