(* ===== verification/Checkpoints.v ===== *)
(** * Checkpoints and recovery

    The store of checkpoints and their restoration into the finality store
    (src/poseq/src/checkpoints/mod.rs), the checkpoints of node recovery (recovery/) and
    the engine that makes both and follows the bridge (sync/).  The theorems say that the
    two indices of the store agree, what pruning keeps, what a restoration changes, when a
    checkpoint is made, and what the id of a checkpoint leaves open. *)

From stdpp Require Import gmap strings list sorting pretty.
From S2P Require Import Prelude Concrete Sorting Delivery Finality.

(** ** Checkpoints *)

(* @src src/poseq/src/checkpoints/mod.rs:15-21 CheckpointMetadata *)
Record CheckpointMetadata : Type := mkMeta {
  ck_version : Z;
  ck_epoch : Z;
  ck_slot : Z;
  created_seq : Z;
  ck_node_id : id32 }.
(* @src src/poseq/src/checkpoints/mod.rs:28-35 PoSeqCheckpoint *)
Record PoSeqCheckpoint : Type := mkPoSeqCheckpoint {
  metadata : CheckpointMetadata;
  finality_checkpoint : FinalityCheckpoint;
  epoch_state_hash : id32;
  ck_bridge_state_hash : id32;
  misbehavior_count : Z;
  checkpoint_id : id32 }.

Module PoSeqCheckpoint.
Definition preimage (m : CheckpointMetadata) (finality_hash : id32) : bytes :=
  le_bytes 4 (ck_version m) ++ le_bytes 8 (ck_epoch m) ++ le_bytes 8 (ck_slot m) ++ le_bytes 8 (created_seq m) ++
  be_bytes 32 (ck_node_id m) ++ be_bytes 32 finality_hash.
(* @src src/poseq/src/checkpoints/mod.rs:38-47 PoSeqCheckpoint::compute_id *)
Definition compute_id `{Sha256} (m : CheckpointMetadata) (finality_hash : id32) : id32 :=
  sha256 (preimage m finality_hash).
(* @src src/poseq/src/checkpoints/mod.rs:49-53 PoSeqCheckpoint::verify_id *)
Definition verify_id `{Sha256} (c : PoSeqCheckpoint) : bool :=
  bool_decide (compute_id (metadata c) (checkpoint_hash (finality_checkpoint c)) = checkpoint_id c).
End PoSeqCheckpoint.

(* @src src/poseq/src/checkpoints/mod.rs:61-65 LifecycleSnapshot *)
Record LifecycleSnapshot : Type := mkSnapshot {
  sn_checkpoint : PoSeqCheckpoint; active_batch_ids : list id32; finalized_batch_ids : list id32 }.
(* @src src/poseq/src/checkpoints/mod.rs:72-77 SnapshotExportRecord *)
Record SnapshotExportRecord : Type := mkExport {
  ex_checkpoint_id : id32; export_seq : Z; format_version : Z; size_bytes : Z }.
(* @src src/poseq/src/checkpoints/mod.rs:84-89 CheckpointRestoreResult *)
Record CheckpointRestoreResult : Type := mkRestore {
  rt_checkpoint_id : id32; success : bool; epoch_restored : Z; errors : list string }.
(* @src src/poseq/src/checkpoints/mod.rs:96-99 CheckpointPolicy *)
Record CheckpointPolicy : Type := mkCkPolicy {
  checkpoint_interval_epochs : Z; max_checkpoints_retained : nat }.
(* @src src/poseq/src/checkpoints/mod.rs:102-107 CheckpointPolicy::default_policy *)
Definition default_ck_policy : CheckpointPolicy := mkCkPolicy 10 50.
(* @src src/poseq/src/checkpoints/mod.rs:115-120 CheckpointError *)
Inductive CheckpointError : Type :=
| IdMismatch (id : id32) | EpochAlreadyCheckpointed (epoch : Z) | StoreEmpty | SerializationFailed (s : string).

(** [bincode::serialize] of a checkpoint. *)
Class CheckpointBincode := ck_encode : PoSeqCheckpoint → option bytes.

(* @src src/poseq/src/checkpoints/mod.rs:126-131 CheckpointStore *)
Record CheckpointStore : Type := mkCkStore {
  ck_map : gmap Z PoSeqCheckpoint;
  epoch_index : gmap Z Z;
  ck_policy : CheckpointPolicy;
  ck_seq : Z }.

Module CheckpointStore.
(* @src src/poseq/src/checkpoints/mod.rs:134-141 CheckpointStore::new *)
Definition new (p : CheckpointPolicy) : CheckpointStore := mkCkStore ∅ ∅ p 0.
(* @src src/poseq/src/checkpoints/mod.rs:143-170 CheckpointStore::store *)
Definition store `{Sha256, CheckpointBincode} (c : PoSeqCheckpoint)
    : M CheckpointStore CheckpointError SnapshotExportRecord := λ s,
  if negb (PoSeqCheckpoint.verify_id c) then (s, Err (IdMismatch (checkpoint_id c)))
  else
    let e := ck_epoch (metadata c) in
    if decide (is_Some (epoch_index s !! e)) then (s, Err (EpochAlreadyCheckpointed e))
    else
      let size := match ck_encode c with Some b => Z.of_nat (length b) | None => 0 end in
      let id := checkpoint_id c in
      (mkCkStore (<[id := c]> (ck_map s)) (<[e := id]> (epoch_index s)) (ck_policy s) (wrapu 64 (ck_seq s + 1)),
       Ok (mkExport id (ck_seq s) 1 size)).
(* @src src/poseq/src/checkpoints/mod.rs:172-174 CheckpointStore::get_by_id *)
Definition get_by_id (s : CheckpointStore) (id : id32) : option PoSeqCheckpoint := ck_map s !! id.
(* @src src/poseq/src/checkpoints/mod.rs:176-179 CheckpointStore::get_by_epoch *)
Definition get_by_epoch (s : CheckpointStore) (e : Z) : option PoSeqCheckpoint :=
  id ← epoch_index s !! e; ck_map s !! id.
(* @src src/poseq/src/checkpoints/mod.rs:181-184 CheckpointStore::latest *)
Definition latest (s : CheckpointStore) : option PoSeqCheckpoint :=
  id ← last (btree_values (epoch_index s)); ck_map s !! id.
(* @src src/poseq/src/checkpoints/mod.rs:197-218 CheckpointStore::restore *)
Definition restore `{Sha256} (s : CheckpointStore) (id : id32) : CheckpointRestoreResult :=
  match ck_map s !! id with
  | None => mkRestore id false 0 ["checkpoint not found"]
  | Some c =>
      let errs := if PoSeqCheckpoint.verify_id c then [] else ["checkpoint_id verification failed"] in
      mkRestore id (bool_decide (errs = [])) (ck_epoch (metadata c)) errs
  end.
(* @src src/poseq/src/checkpoints/mod.rs:227-254 CheckpointStore::restore_into_finality_store *)
Definition restore_into_finality_store `{Sha256} (s : CheckpointStore) (id : id32)
    : M FinalityStore CheckpointError Z := λ fs,
  match ck_map s !! id with
  | None => (fs, Err StoreEmpty)
  | Some c =>
      if negb (PoSeqCheckpoint.verify_id c) then (fs, Err (IdMismatch (checkpoint_id c)))
      else
        let b := last_finalized_batch_id (finality_checkpoint c) in
        let e := ck_epoch (metadata c) in
        match FinalityStore.get fs b with
        | Some _ => (fs, Ok e)
        | None =>
            let fs := FinalityStore.init_batch b e (ck_slot (metadata c)) fs in
            let fs := (FinalityStore.transition b Attested "restored" fs).1 in
            let fs := (FinalityStore.transition b QuorumReached "restored" fs).1 in
            let fs := (FinalityStore.transition b Finalized "restored" fs).1 in
            (fs, Ok e)
        end
  end.
(** One epoch of the loop of [prune_old]. *)
Definition prune_epoch (acc : CheckpointStore * nat) (e : Z) : CheckpointStore * nat :=
  let '(s, n) := acc in
  match epoch_index s !! e with
  | Some id => (mkCkStore (delete id (ck_map s)) (delete e (epoch_index s)) (ck_policy s) (ck_seq s), S n)
  | None => (s, n)
  end.
(* @src src/poseq/src/checkpoints/mod.rs:258-273 CheckpointStore::prune_old *)
Definition prune_old (s : CheckpointStore) : CheckpointStore * nat :=
  let max := max_checkpoints_retained (ck_policy s) in
  if decide (size (epoch_index s) ≤ max)%nat then (s, 0%nat)
  else foldl prune_epoch (s, 0%nat) (take (size (epoch_index s) - max) (btree_keys (epoch_index s))).
(* @src src/poseq/src/checkpoints/mod.rs:275-289 CheckpointStore::should_checkpoint *)
Definition should_checkpoint (s : CheckpointStore) (current_epoch : Z) : bool :=
  let interval := checkpoint_interval_epochs (ck_policy s) in
  if decide (interval = 0) then false
  else if decide (current_epoch = 0) then false
  else if decide (epoch_index s = ∅) then bool_decide (current_epoch mod interval = 0)
  else
    let last_epoch := default 0 (last (btree_keys (epoch_index s))) in
    bool_decide (wrapu 64 (last_epoch + interval) ≤ current_epoch).
End CheckpointStore.

(** ** Recovery *)

(* @src src/poseq/src/recovery/mod.rs:11-20 RecoveryCheckpoint *)
Record RecoveryCheckpoint : Type := mkRecoveryCheckpoint {
  rcp_id : id32;
  rcp_epoch : Z;
  rcp_last_slot : Z;
  rcp_last_batch : id32;
  finality_store_hash : id32;
  committee_hash : id32;
  rcp_bridge_state_hash : id32;
  rcp_hash : id32 }.

Module RecoveryCheckpoint.
(* @src src/poseq/src/recovery/mod.rs:52-68 RecoveryCheckpoint::compute_hash *)
Definition compute_hash `{Sha256} (epoch last_slot last_batch finality committee bridge : Z) : id32 :=
  sha256 (le_bytes 8 epoch ++ le_bytes 8 last_slot ++ be_bytes 32 last_batch ++ be_bytes 32 finality ++
    be_bytes 32 committee ++ be_bytes 32 bridge).
(* @src src/poseq/src/recovery/mod.rs:23-50 RecoveryCheckpoint::compute *)
Definition compute `{Sha256} (epoch last_slot last_batch finality committee bridge : Z) : RecoveryCheckpoint :=
  let h := compute_hash epoch last_slot last_batch finality committee bridge in
  mkRecoveryCheckpoint h epoch last_slot last_batch finality committee bridge h.
(* @src src/poseq/src/recovery/mod.rs:70-80 RecoveryCheckpoint::verify *)
Definition verify `{Sha256} (c : RecoveryCheckpoint) : bool :=
  bool_decide (compute_hash (rcp_epoch c) (rcp_last_slot c) (rcp_last_batch c) (finality_store_hash c)
    (committee_hash c) (rcp_bridge_state_hash c) = rcp_hash c).
End RecoveryCheckpoint.

(* @src src/poseq/src/recovery/mod.rs:88-95 RecoveredStateSummary *)
Record RecoveredStateSummary : Type := mkRecovered {
  checkpoint_used : RecoveryCheckpoint;
  batches_replayed : Z;
  finality_states_restored : Z;
  bridge_records_restored : Z;
  recovery_success : bool;
  sum_inconsistencies : list string }.
(* @src src/poseq/src/recovery/mod.rs:102-107 StateSyncRequest *)
Record StateSyncRequest : Type := mkSyncRequest {
  requesting_node : id32; from_epoch : Z; from_slot : Z; known_checkpoint_id : option id32 }.
(* @src src/poseq/src/recovery/mod.rs:110-114 StateSyncResponse *)
Record StateSyncResponse : Type := mkSyncResponse {
  responding_node : id32; resp_checkpoints : list RecoveryCheckpoint; available : bool }.
(* @src src/poseq/src/recovery/mod.rs:121-125 ConsistencyVerificationResult *)
Record ConsistencyVerificationResult : Type := mkVerified {
  is_consistent : bool; mismatches : list string; verified_epoch : Z }.
(* @src src/poseq/src/recovery/mod.rs:132-137 RecoveryError *)
Inductive RecoveryError : Type :=
| CheckpointNotFound (epoch : Z) | CheckpointHashMismatch (epoch : Z)
| InvalidCheckpoint (s : string) | RecoveryFailed (s : string).

Module NodeRecoveryManager.
(* @src src/poseq/src/recovery/mod.rs:143-145 NodeRecoveryManager *)
Definition NodeRecoveryManager : Type := gmap Z RecoveryCheckpoint.
(* @src src/poseq/src/recovery/mod.rs:148-152 NodeRecoveryManager::new *)
Definition new : NodeRecoveryManager := ∅.
(* @src src/poseq/src/recovery/mod.rs:154-160 NodeRecoveryManager::store_checkpoint *)
Definition store_checkpoint `{Sha256} (c : RecoveryCheckpoint) : M (gmap Z RecoveryCheckpoint) RecoveryError () := λ s,
  if negb (RecoveryCheckpoint.verify c) then (s, Err (CheckpointHashMismatch (rcp_epoch c)))
  else (<[rcp_epoch c := c]> s, Ok tt).
(* @src src/poseq/src/recovery/mod.rs:162-164 NodeRecoveryManager::latest_checkpoint *)
Definition latest_checkpoint (s : gmap Z RecoveryCheckpoint) : option RecoveryCheckpoint := last (btree_values s).
(* @src src/poseq/src/recovery/mod.rs:166-168 NodeRecoveryManager::checkpoint_for_epoch *)
Definition checkpoint_for_epoch (s : gmap Z RecoveryCheckpoint) (e : Z) : option RecoveryCheckpoint := s !! e.
(* @src src/poseq/src/recovery/mod.rs:170-189 NodeRecoveryManager::verify_consistency *)
Definition verify_consistency `{Sha256} (s : gmap Z RecoveryCheckpoint) (e : Z) : ConsistencyVerificationResult :=
  match s !! e with
  | None => mkVerified false ["No checkpoint for epoch " +:+ pretty e] e
  | Some c =>
      let ms := if RecoveryCheckpoint.verify c then [] else ["Checkpoint hash mismatch at epoch " +:+ pretty e] in
      mkVerified (bool_decide (ms = [])) ms e
  end.
(* @src src/poseq/src/recovery/mod.rs:191-209 NodeRecoveryManager::simulate_recovery *)
Definition simulate_recovery `{Sha256} (c : RecoveryCheckpoint) (batches_since : Z) : RecoveredStateSummary :=
  let valid := RecoveryCheckpoint.verify c in
  mkRecovered c batches_since batches_since (batches_since / 2) valid
    (if valid then [] else ["checkpoint hash invalid"]).
End NodeRecoveryManager.

(** ** The engine *)

(* @src src/poseq/src/sync/mod.rs:25-34 SyncStatus *)
Record SyncStatus : Type := mkSyncStatus {
  ss_local_epoch : Z;
  ss_peer_max_epoch : Z;
  lag : Z;
  is_catching_up : bool;
  latest_checkpoint_epoch : option Z;
  bridge_backlog : nat;
  bridge_acked : nat;
  bridge_failed : nat }.
(* @src src/poseq/src/sync/mod.rs:40-46 StateSyncEngine *)
Record StateSyncEngine : Type := mkSync {
  recovery_mgr : gmap Z RecoveryCheckpoint;
  checkpoint_store : CheckpointStore;
  bridge_store : BridgeRecoveryStore;
  local_epoch : Z;
  peer_max_epoch : Z }.

Module StateSyncEngine.
Section engine.
Context `{Sha256, CheckpointBincode}.
(* @src src/poseq/src/sync/mod.rs:59-67 StateSyncEngine::new *)
Definition new (cp : CheckpointPolicy) (bp : BridgeRetryPolicy) : StateSyncEngine :=
  mkSync NodeRecoveryManager.new (CheckpointStore.new cp) (BridgeRecoveryStore.new bp) 0 0.
(** The hash of the epochs exported so far. *)
Definition bridge_hash (exported : gset Z) : id32 :=
  sha256 (string_bytes "bridge:state:" ++ concat (le_bytes 8 <$> sorted_elements exported)).
(** The checkpoint of an epoch. *)
(* @src src/poseq/src/sync/mod.rs:86-127 StateSyncEngine::create_checkpoint *)
Definition checkpoint_of (epoch slot : Z) (latest_finalized : option id32) (committee : id32) (exported : gset Z)
    (node : id32) : RecoveryCheckpoint * PoSeqCheckpoint :=
  let b := default 0 latest_finalized in
  let fc := compute_checkpoint epoch b slot in
  let bh := bridge_hash exported in
  let rc := RecoveryCheckpoint.compute epoch slot b (checkpoint_hash fc) committee bh in
  let meta := mkMeta 1 epoch slot epoch node in
  (rc, mkPoSeqCheckpoint meta fc committee bh 0 (PoSeqCheckpoint.compute_id meta (checkpoint_hash fc))).
(* @src src/poseq/src/sync/mod.rs:72-133 StateSyncEngine::create_checkpoint *)
Definition create_checkpoint (epoch slot : Z) (latest_finalized : option id32) (committee : id32) (exported : gset Z)
    (node : id32) (t : StateSyncEngine) : StateSyncEngine * option id32 :=
  if negb (CheckpointStore.should_checkpoint (checkpoint_store t) epoch) then (t, None)
  else
    let '(rc, cp) := checkpoint_of epoch slot latest_finalized committee exported node in
    let mgr := (NodeRecoveryManager.store_checkpoint rc (recovery_mgr t)).1 in
    let '(cs, r) := CheckpointStore.store cp (checkpoint_store t) in
    (mkSync mgr cs (bridge_store t) (local_epoch t) (peer_max_epoch t),
     match r with Ok _ => Some (checkpoint_id cp) | _ => None end).
(* @src src/poseq/src/sync/mod.rs:136-140 StateSyncEngine::update_peer_epoch *)
Definition update_peer_epoch (e : Z) (t : StateSyncEngine) : StateSyncEngine :=
  mkSync (recovery_mgr t) (checkpoint_store t) (bridge_store t) (local_epoch t)
    (if decide (peer_max_epoch t < e) then e else peer_max_epoch t).
(* @src src/poseq/src/sync/mod.rs:143-145 StateSyncEngine::update_local_epoch *)
Definition update_local_epoch (e : Z) (t : StateSyncEngine) : StateSyncEngine :=
  mkSync (recovery_mgr t) (checkpoint_store t) (bridge_store t) e (peer_max_epoch t).
(* @src src/poseq/src/sync/mod.rs:148-150 StateSyncEngine::is_behind *)
Definition is_behind (t : StateSyncEngine) (threshold : Z) : bool :=
  bool_decide (wrapu 64 (local_epoch t + threshold) < peer_max_epoch t).
(* @src src/poseq/src/sync/mod.rs:153-177 StateSyncEngine::sync_status *)
Definition sync_status (t : StateSyncEngine) : SyncStatus :=
  let c := BridgeRecoveryStore.consistency_check (bridge_store t) in
  mkSyncStatus (local_epoch t) (peer_max_epoch t) (sat_sub (peer_max_epoch t) (local_epoch t)) (is_behind t 0)
    ((λ c, ck_epoch (metadata c)) <$> CheckpointStore.latest (checkpoint_store t))
    (batches_pending c + batches_in_retry c) (batches_acked c) (batches_failed c).
Definition with_bridge (b : BridgeRecoveryStore) (t : StateSyncEngine) : StateSyncEngine :=
  mkSync (recovery_mgr t) (checkpoint_store t) b (local_epoch t) (peer_max_epoch t).
Definition is_ok {E A} (o : outcome E A) : bool := match o with Ok _ => true | _ => false end.
(* @src src/poseq/src/sync/mod.rs:180-182 StateSyncEngine::register_batch_for_bridge *)
Definition register_batch_for_bridge (b : id32) (t : StateSyncEngine) : StateSyncEngine :=
  with_bridge (BridgeRecoveryStore.register_batch b (bridge_store t)) t.
(* @src src/poseq/src/sync/mod.rs:185-187 StateSyncEngine::mark_bridge_exported *)
Definition mark_bridge_exported (b : id32) (t : StateSyncEngine) : StateSyncEngine * bool :=
  let '(s, r) := BridgeRecoveryStore.export_batch b (bridge_store t) in (with_bridge s t, is_ok r).
(* @src src/poseq/src/sync/mod.rs:190-192 StateSyncEngine::mark_bridge_acked *)
Definition mark_bridge_acked (b h : id32) (t : StateSyncEngine) : StateSyncEngine * bool :=
  let '(s, r) := BridgeRecoveryStore.acknowledge b h (bridge_store t) in (with_bridge s t, is_ok r).
Definition retry_state (s : BridgeDeliveryState) : bool :=
  match s with Rejected | RetryPending _ => true | _ => false end.
(* @src src/poseq/src/sync/mod.rs:195-207 StateSyncEngine::bridge_retry_candidates *)
Definition bridge_retry_candidates (t : StateSyncEngine) : list id32 :=
  rv_batch_id <$> filter (λ r, retry_state (rv_state r) = true) (BridgeRecoveryStore.all_records (bridge_store t)).
(* @src src/poseq/src/sync/mod.rs:210-212 StateSyncEngine::prune_checkpoints *)
Definition prune_checkpoints (t : StateSyncEngine) : StateSyncEngine * nat :=
  let '(cs, n) := CheckpointStore.prune_old (checkpoint_store t) in
  (mkSync (recovery_mgr t) cs (bridge_store t) (local_epoch t) (peer_max_epoch t), n).
End engine.
End StateSyncEngine.

(** ** The store *)

Section store.
Context `{Sha256, CheckpointBincode}.

Definition meta_fits (c : PoSeqCheckpoint) : Prop :=
  fits 32 (ck_version (metadata c)) ∧ fits 64 (ck_epoch (metadata c)) ∧ fits 64 (ck_slot (metadata c)) ∧
  fits 64 (created_seq (metadata c)) ∧ fits 256 (ck_node_id (metadata c)) ∧
  fits 256 (checkpoint_hash (finality_checkpoint c)).
Definition id_preimage (c : PoSeqCheckpoint) : bytes :=
  PoSeqCheckpoint.preimage (metadata c) (checkpoint_hash (finality_checkpoint c)).

Lemma id_preimage_inj c c' : meta_fits c → meta_fits c' → id_preimage c = id_preimage c' → metadata c = metadata c'.
Proof.
  intros (F1 & F2 & F3 & F4 & F5 & F6) (F1' & F2' & F3' & F4' & F5' & F6') E.
  unfold id_preimage, PoSeqCheckpoint.preimage in E.
  apply app_inj_1 in E as [E1 E]; [|by rewrite !le_bytes_length]. apply app_inj_1 in E as [E2 E]; [|by rewrite !le_bytes_length].
  apply app_inj_1 in E as [E3 E]; [|by rewrite !le_bytes_length]. apply app_inj_1 in E as [E4 E]; [|by rewrite !le_bytes_length].
  apply be_bytes_app_inj in E as [E5 _]; [|done..].
  apply le_bytes_inj in E1, E2, E3, E4; try done.
  destruct (metadata c), (metadata c'). cbn in *. by subst.
Qed.

(** The two maps agree, on checkpoints that were offered. *)
Record store_inv (offered : list PoSeqCheckpoint) (s : CheckpointStore) : Prop := {
  si_index e id : epoch_index s !! e = Some id → ∃ c, ck_map s !! id = Some c ∧ ck_epoch (metadata c) = e;
  si_map id c : ck_map s !! id = Some c → epoch_index s !! ck_epoch (metadata c) = Some id ∧
    checkpoint_id c = id ∧ PoSeqCheckpoint.verify_id c = true ∧ c ∈ offered }.

Lemma ck_store_step_inv offered c s :
  Forall meta_fits offered → no_collision (id_preimage <$> offered) (id_preimage <$> offered) →
  c ∈ offered → store_inv offered s → store_inv offered (CheckpointStore.store c s).1.
Proof.
  intros Hfit Hcol Hc [Hi Hm]. unfold CheckpointStore.store.
  destruct (PoSeqCheckpoint.verify_id c) eqn:Hv; [cbn [negb]|by split].
  destruct (decide _) as [|Hne]; [by split|]. cbn [fst].
  assert (ck_map s !! checkpoint_id c = None) as Hfresh.
  { destruct (ck_map s !! checkpoint_id c) as [c'|] eqn:E; [|done]. destruct Hne.
    destruct (Hm _ _ E) as (He & Hid & Hv' & Hc'). unfold PoSeqCheckpoint.verify_id in *.
    apply bool_decide_eq_true in Hv, Hv'.
    assert (metadata c = metadata c') as ->; [|by eexists].
    rewrite Forall_forall in Hfit. apply id_preimage_inj; [by apply Hfit..|].
    apply Hcol; [by apply list_elem_of_fmap_2..|]. unfold id_preimage. unfold PoSeqCheckpoint.compute_id in *. congruence. }
  split; cbn [ck_map epoch_index].
  - intros e id. rewrite lookup_insert. case_decide as E.
    + intros [= <-]. exists c. by rewrite lookup_insert_eq.
    + intros Hid. destruct (Hi e id Hid) as (c' & Hc' & He). exists c'.
      rewrite lookup_insert_ne; [done|]. intros <-. congruence.
  - intros id c'. rewrite lookup_insert. case_decide as E.
    + intros [= <-]. subst. by rewrite lookup_insert_eq.
    + intros Hc'. destruct (Hm _ _ Hc') as (He & ? & ? & ?). split_and!; [|done..].
      rewrite lookup_insert_ne; [done|]. intros E'. apply Hne. exists id. congruence.
Qed.

Lemma prune_epoch_inv offered s n e :
  store_inv offered s → store_inv offered (CheckpointStore.prune_epoch (s, n) e).1.
Proof.
  intros [Hi Hm]. unfold CheckpointStore.prune_epoch. destruct (epoch_index s !! e) as [id|] eqn:E; [|by split].
  destruct (Hi e id E) as (c & Hc & He). split; cbn.
  - intros e' id' [Hne H']%lookup_delete_Some. destruct (Hi e' id' H') as (c' & Hc' & He'). exists c'.
    split; [|done]. apply lookup_delete_Some. split; [|done]. intros <-. congruence.
  - intros id' c' [Hne H']%lookup_delete_Some. destruct (Hm _ _ H') as (He' & ? & ? & ?). split_and!; [|done..].
    apply lookup_delete_Some. split; [|done]. intros Ee. rewrite <- Ee, E in He'. congruence.
Qed.

(** What a round of pruning leaves of the index. *)
Lemma prune_all l s n :
  NoDup l → (∀ e, e ∈ l → is_Some (epoch_index s !! e)) →
  let r := foldl CheckpointStore.prune_epoch (s, n) l in
  (∀ e, epoch_index r.1 !! e = if decide (e ∈ l) then None else epoch_index s !! e) ∧ r.2 = (n + length l)%nat ∧
  (∀ offered, store_inv offered s → store_inv offered r.1) ∧ ck_policy r.1 = ck_policy s.
Proof.
  intros Hnd. revert s n. induction Hnd as [|e l He Hnd IH]; intros s n Hl.
  { cbn. split_and!; [|lia|done|done]. intros e. by rewrite decide_False by apply not_elem_of_nil. }
  cbn [foldl]. destruct (Hl e ltac:(left)) as [id Hid].
  assert (CheckpointStore.prune_epoch (s, n) e =
    (mkCkStore (delete id (ck_map s)) (delete e (epoch_index s)) (ck_policy s) (ck_seq s), S n)) as E.
  { unfold CheckpointStore.prune_epoch. by rewrite Hid. }
  pose proof (λ o, prune_epoch_inv o s n e) as Hinv. rewrite E in *. cbn [fst] in Hinv.
  destruct (IH (mkCkStore (delete id (ck_map s)) (delete e (epoch_index s)) (ck_policy s) (ck_seq s)) (S n)) as (I1 & I2 & I3 & I4).
  { intros e' He'. cbn. rewrite lookup_delete_ne; [apply Hl; by right|]. by intros ->. }
  cbn zeta. split_and!; [|cbn [length]; lia|auto|done].
  intros e'. rewrite I1. cbn [epoch_index]. destruct (decide (e' = e)) as [->|Hne].
  - rewrite (decide_True (P := e ∈ e :: l)) by left. by rewrite lookup_delete_eq, decide_False.
  - rewrite lookup_delete_ne by done. apply decide_ext. rewrite elem_of_cons. tauto.
Qed.

Lemma take_keys s n e : e ∈ take n (btree_keys (epoch_index s)) → is_Some (epoch_index s !! e).
Proof. intros He. apply elem_of_btree_keys. rewrite <- (take_drop n). set_solver. Qed.

(** Pruning keeps the newest checkpoints: as many as the policy retains, every one of them
    newer than every one that it removed, and it returns how many that was. *)
Theorem prune_keeps_newest (s : CheckpointStore) :
  let '(s', n) := CheckpointStore.prune_old s in
  let max := max_checkpoints_retained (ck_policy s) in
  n = (size (epoch_index s) - max)%nat ∧ size (epoch_index s') = (size (epoch_index s) `min` max)%nat ∧
  (∀ e id, epoch_index s' !! e = Some id → epoch_index s !! e = Some id) ∧
  ∀ e e', is_Some (epoch_index s' !! e) → is_Some (epoch_index s !! e') → epoch_index s' !! e' = None → e' < e.
Proof.
  unfold CheckpointStore.prune_old. set (max := max_checkpoints_retained (ck_policy s)).
  destruct (decide _) as [Hle|Hgt].
  { split_and!; [lia|lia|done|]. intros e e' _ [id E] E'. congruence. }
  set (k := (size (epoch_index s) - max)%nat). set (keys := btree_keys (epoch_index s)).
  assert (NoDup keys) as Hnd by apply NoDup_btree_keys.
  assert (length keys = size (epoch_index s)) as Hlen.
  { unfold keys, btree_keys. rewrite length_fmap, btree_list_perm. apply length_map_to_list. }
  rewrite <- (take_drop k keys) in Hnd. apply NoDup_app in Hnd as (Hnt & Hdisj & Hndd).
  destruct (prune_all (take k keys) s 0 Hnt (take_keys s k)) as (I1 & I2 & _ & _).
  destruct (foldl _ _ _) as [s' n]. cbn [fst snd] in I1, I2. rewrite length_take in I2.
  assert (∀ e, is_Some (epoch_index s' !! e) ↔ e ∈ drop k keys) as Hkept.
  { intros e. rewrite I1. split.
    - intros He. case_decide as Hin; [by destruct He|]. apply elem_of_btree_keys in He. fold keys in He.
      rewrite <- (take_drop k keys) in He. set_solver.
    - intros He. rewrite decide_False by (intros ?; by eapply Hdisj). apply elem_of_btree_keys. fold keys.
      rewrite <- (take_drop k keys). set_solver. }
  split_and!; [lia|..].
  - transitivity (length (drop k keys)); [|rewrite length_drop; lia].
    rewrite <- (length_map_to_list (epoch_index s')), <- (length_fmap fst).
    apply Permutation_length, NoDup_Permutation; [apply NoDup_fst_map_to_list|done|].
    intros e. rewrite <- Hkept, list_elem_of_fmap. split.
    + intros ([e0 id] & -> & Hin). apply elem_of_map_to_list in Hin. by eexists.
    + intros [id Hid]. exists (e, id). split; [done|]. by apply elem_of_map_to_list.
  - intros e id. rewrite I1. by case_decide.
  - intros e e' He%Hkept He' Hn. rewrite I1 in Hn. case_decide as Hin; [|rewrite Hn in He'; by destruct He'].
    assert (StronglySorted Z.lt keys) as Hs.
    { apply btree_keys_sorted. }
    rewrite <- (take_drop k keys) in Hs. apply StronglySorted_app in Hs as (Hs & _). by apply Hs.
Qed.

Inductive checkpoint_op : Type := OpStore (c : PoSeqCheckpoint) | OpPrune.
Definition checkpoint_step (s : CheckpointStore) (o : checkpoint_op) : CheckpointStore :=
  match o with
  | OpStore c => (CheckpointStore.store c s).1
  | OpPrune => (CheckpointStore.prune_old s).1
  end.
Definition checkpoint_run (p : CheckpointPolicy) (ops : list checkpoint_op) : CheckpointStore :=
  foldl checkpoint_step (CheckpointStore.new p) ops.
Definition offered (ops : list checkpoint_op) : list PoSeqCheckpoint :=
  omap (λ o, match o with OpStore c => Some c | OpPrune => None end) ops.

Lemma checkpoint_run_inv p ops :
  Forall meta_fits (offered ops) → no_collision (id_preimage <$> offered ops) (id_preimage <$> offered ops) →
  store_inv (offered ops) (checkpoint_run p ops).
Proof.
  intros Hfit Hcol. unfold checkpoint_run. set (all := offered ops) in *.
  assert (∀ o, o ∈ ops → match o with OpStore c => c ∈ all | OpPrune => True end) as Hin.
  { intros [c|] Ho; [|done]. apply list_elem_of_omap. by exists (OpStore c). }
  clearbody all. induction ops as [|o ops IH] using rev_ind; [by split|].
  rewrite foldl_app. cbn [foldl]. specialize (IH ltac:(intros; apply Hin; set_solver)).
  set (s := foldl _ _ _) in *. specialize (Hin o ltac:(set_solver)). destruct o as [c|]; cbn [checkpoint_step].
  - by apply ck_store_step_inv.
  - unfold CheckpointStore.prune_old. destruct (decide _); [done|].
    destruct (prune_all (take (size (epoch_index s) - max_checkpoints_retained (ck_policy s)) (btree_keys (epoch_index s))) s 0)
      as (_ & _ & Hp & _); [|apply take_keys|by apply Hp].
    eapply sublist_NoDup; [exact (NoDup_btree_keys (epoch_index s))|apply sublist_take].
Qed.

(** After any run, up to collisions of the ids, the checkpoint found under an epoch is the
    one of that epoch found under its id; it was offered, it restores, and no other can be
    stored in its place; the latest is that of the greatest epoch. *)
Theorem checkpoints_exact (p : CheckpointPolicy) (ops : list checkpoint_op) :
  Forall meta_fits (offered ops) → no_collision (id_preimage <$> offered ops) (id_preimage <$> offered ops) →
  let s := checkpoint_run p ops in
  (∀ e c, CheckpointStore.get_by_epoch s e = Some c ↔
     CheckpointStore.get_by_id s (checkpoint_id c) = Some c ∧ ck_epoch (metadata c) = e) ∧
  (∀ e c, CheckpointStore.get_by_epoch s e = Some c → c ∈ offered ops ∧
     CheckpointStore.restore s (checkpoint_id c) = mkRestore (checkpoint_id c) true e [] ∧
     ∀ c', ck_epoch (metadata c') = e → PoSeqCheckpoint.verify_id c' = true →
       CheckpointStore.store c' s = (s, Err (EpochAlreadyCheckpointed e))) ∧
  (∀ c, CheckpointStore.latest s = Some c → CheckpointStore.get_by_epoch s (ck_epoch (metadata c)) = Some c ∧
     ∀ e c', CheckpointStore.get_by_epoch s e = Some c' → e ≤ ck_epoch (metadata c)).
Proof.
  intros Hfit Hcol s. destruct (checkpoint_run_inv p ops Hfit Hcol) as [Hi Hm]. fold s in Hi, Hm.
  assert (∀ e c, CheckpointStore.get_by_epoch s e = Some c ↔
    epoch_index s !! e = Some (checkpoint_id c) ∧ ck_map s !! checkpoint_id c = Some c ∧ ck_epoch (metadata c) = e) as Hg.
  { intros e c. unfold CheckpointStore.get_by_epoch. rewrite bind_Some. split.
    - intros (id & He & Hc). destruct (Hm _ _ Hc) as (He' & Eid & _). destruct (Hi _ _ He) as (c' & Hc' & Ee).
      rewrite Eid. simplify_eq. done.
    - intros (He & Hc & _). eauto. }
  split_and!.
  - intros e c. rewrite Hg. unfold CheckpointStore.get_by_id. split; [tauto|]. intros [Hc <-].
    destruct (Hm _ _ Hc) as (He & _). done.
  - intros e c (He & Hc & Ee)%Hg. destruct (Hm _ _ Hc) as (_ & _ & Hv & Hoff). split_and!; [done|..].
    + unfold CheckpointStore.restore. rewrite Hc, Hv. cbn. by rewrite Ee.
    + intros c' Ec' Hv'. unfold CheckpointStore.store. rewrite Hv', Ec'. cbn [negb].
      rewrite decide_True; [done|]. by eexists.
  - intros c Hl. unfold CheckpointStore.latest, btree_values in Hl. rewrite fmap_last in Hl.
    destruct (last (btree_list (epoch_index s))) as [[k id]|] eqn:El; [|done]. cbn in Hl.
    apply btree_last_spec in El as [Ek Hmax]. destruct (Hi _ _ Ek) as (c' & Hc' & Ee). rewrite Hl in Hc'. injection Hc' as <-.
    destruct (Hm _ _ Hl) as (_ & Eid & _). split.
    + apply Hg. rewrite Ee, Eid. done.
    + intros e c' (He & _ & _)%Hg. rewrite Ee. apply Hmax. by eexists.
Qed.

(** ** Restoration *)

(** A stored checkpoint that verifies is restored by entering its last finalized batch in
    the finality store as finalized, at the epoch and slot of the checkpoint, and nothing
    else; where the batch is known already, in whatever state, nothing is done; so a second
    restoration changes nothing. *)
Theorem restore_exact (s : CheckpointStore) (id : id32) (c : PoSeqCheckpoint) (fs : FinalityStore) :
  CheckpointStore.get_by_id s id = Some c → PoSeqCheckpoint.verify_id c = true →
  let b := last_finalized_batch_id (finality_checkpoint c) in
  let '(fs', r) := CheckpointStore.restore_into_finality_store s id fs in
  r = Ok (ck_epoch (metadata c)) ∧
  (∀ b', b' ≠ b → FinalityStore.get fs' b' = FinalityStore.get fs b') ∧
  match FinalityStore.get fs b with
  | Some _ => fs' = fs
  | None => ∃ st, FinalityStore.get fs' b = Some st ∧ current_state st = Finalized ∧
      epoch st = ck_epoch (metadata c) ∧ slot st = ck_slot (metadata c) ∧
      FinalityStore.guarantee_level fs' b = Some StrongFinality
  end ∧
  CheckpointStore.restore_into_finality_store s id fs' = (fs', Ok (ck_epoch (metadata c))).
Proof.
  intros Hc Hv b. unfold CheckpointStore.get_by_id in Hc. unfold CheckpointStore.restore_into_finality_store.
  rewrite Hc, Hv. cbn [negb]. fold b. destruct (FinalityStore.get fs b) as [st|] eqn:Eb; [by rewrite Eb|].
  set (fs1 := FinalityStore.init_batch b (ck_epoch (metadata c)) (ck_slot (metadata c)) fs).
  assert (∀ fs0 st next, FinalityStore.get fs0 b = Some st → FinalityState.is_terminal (current_state st) = false →
    FinalityState.can_transition_to (current_state st) next = true →
    let fs' := (FinalityStore.transition b next "restored" fs0).1 in
    (∃ st', FinalityStore.get fs' b = Some st' ∧ current_state st' = next ∧ epoch st' = epoch st ∧ slot st' = slot st) ∧
    ∀ b', b' ≠ b → FinalityStore.get fs' b' = FinalityStore.get fs0 b') as Hstep.
  { intros fs0 st next Hg Ht Hc0. unfold FinalityStore.get, FinalityStore.transition, BatchFinalityStatus.transition_at in *.
    rewrite Hg, Ht, Hc0. cbn. split; [rewrite lookup_insert_eq; by eexists|]. intros b' Hb'. by rewrite lookup_insert_ne. }
  assert (FinalityStore.get fs1 b = Some (BatchFinalityStatus.new b (ck_epoch (metadata c)) (ck_slot (metadata c)))) as E1
    by (unfold fs1, FinalityStore.get, FinalityStore.init_batch; cbn; apply lookup_insert_eq).
  destruct (Hstep fs1 _ Attested E1 eq_refl eq_refl) as [(s2 & E2 & C2 & Ee2 & Es2) F2].
  set (fs2 := (FinalityStore.transition b Attested "restored" fs1).1) in *.
  destruct (Hstep fs2 _ QuorumReached E2) as [(s3 & E3 & C3 & Ee3 & Es3) F3]; [by rewrite C2..|].
  set (fs3 := (FinalityStore.transition b QuorumReached "restored" fs2).1) in *.
  destruct (Hstep fs3 _ Finalized E3) as [(s4 & E4 & C4 & Ee4 & Es4) F4]; [by rewrite C3..|].
  set (fs4 := (FinalityStore.transition b Finalized "restored" fs3).1) in *. split_and!; [done|..].
  - intros b' Hb'. rewrite F4, F3, F2 by done. unfold fs1, FinalityStore.get, FinalityStore.init_batch. cbn.
    by rewrite lookup_insert_ne.
  - cbn in Ee2, Es2. exists s4. split_and!; [done|done|congruence|congruence|]. unfold FinalityStore.guarantee_level, FinalityStore.get in *.
    rewrite E4. cbn. by rewrite C4.
  - by rewrite E4.
Qed.

(** The id of a checkpoint covers the metadata and the hash of its finality checkpoint; with
    any other last batch, state hashes or count in its place the checkpoint verifies too. *)
Theorem checkpoint_id_leaves_open (c : PoSeqCheckpoint) (e b sl state bridge count : Z) :
  PoSeqCheckpoint.verify_id c = true →
  PoSeqCheckpoint.verify_id
    (mkPoSeqCheckpoint (metadata c) (mkCheckpoint e b sl (checkpoint_hash (finality_checkpoint c)))
       state bridge count (checkpoint_id c)) = true.
Proof. done. Qed.
End store.

(** ** The engine *)

Section engine.
Context `{Sha256, CheckpointBincode}.

Lemma due_not_stored (s : CheckpointStore) e :
  fits 64 (default 0 (last (btree_keys (epoch_index s))) + checkpoint_interval_epochs (ck_policy s)) →
  0 ≤ checkpoint_interval_epochs (ck_policy s) →
  CheckpointStore.should_checkpoint s e = true → epoch_index s !! e = None.
Proof.
  intros Hfit Hint. unfold CheckpointStore.should_checkpoint.
  destruct (decide (checkpoint_interval_epochs (ck_policy s) = 0)); [done|]. case_decide; [done|]. case_decide as Hemp.
  { intros _. by rewrite Hemp, lookup_empty. }
  intros Hd%bool_decide_eq_true. rewrite wrapu_id in Hd by done.
  destruct (epoch_index s !! e) as [id|] eqn:E; [|done]. exfalso.
  destruct (btree_last_some _ Hemp) as [[k id'] El]. apply btree_last_spec in El as Hl. destruct Hl as [_ Hmax].
  unfold btree_keys in Hd. rewrite fmap_last, El in Hd. cbn in Hd. specialize (Hmax e ltac:(by eexists)). lia.
Qed.

(** A checkpoint is made exactly when it is due: it is then found under its id and its
    epoch, with the batch finalized last, and the recovery manager has a checkpoint of the
    epoch that verifies; otherwise nothing changes. *)
Theorem create_checkpoint_exact (t : StateSyncEngine) (e sl : Z) (latest_finalized : option id32) (committee : id32)
    (exported : gset Z) (node : id32) :
  let s := checkpoint_store t in
  fits 64 (default 0 (last (btree_keys (epoch_index s))) + checkpoint_interval_epochs (ck_policy s)) →
  0 ≤ checkpoint_interval_epochs (ck_policy s) →
  let '(t', r) := StateSyncEngine.create_checkpoint e sl latest_finalized committee exported node t in
  if CheckpointStore.should_checkpoint s e then
    ∃ c, r = Some (checkpoint_id c) ∧ CheckpointStore.get_by_id (checkpoint_store t') (checkpoint_id c) = Some c ∧
      CheckpointStore.get_by_epoch (checkpoint_store t') e = Some c ∧ PoSeqCheckpoint.verify_id c = true ∧
      finality_checkpoint c = compute_checkpoint e (default 0 latest_finalized) sl ∧
      is_consistent (NodeRecoveryManager.verify_consistency (recovery_mgr t') e) = true
  else r = None ∧ t' = t.
Proof.
  intros s Hfit Hint. unfold StateSyncEngine.create_checkpoint. fold s.
  destruct (CheckpointStore.should_checkpoint s e) eqn:Hd; [cbn [negb]|done].
  pose proof (due_not_stored s e Hfit Hint Hd) as Hnone.
  destruct (StateSyncEngine.checkpoint_of e sl latest_finalized committee exported node) as [rc c] eqn:Ec.
  injection Ec as Erc Ecp.
  assert (RecoveryCheckpoint.verify rc = true) as Hrv by (rewrite <- Erc; by apply bool_decide_eq_true).
  assert (PoSeqCheckpoint.verify_id c = true) as Hcv by (rewrite <- Ecp; by apply bool_decide_eq_true).
  assert (ck_epoch (metadata c) = e ∧ rcp_epoch rc = e) as [He Hre] by (by rewrite <- Ecp, <- Erc).
  unfold CheckpointStore.store. rewrite Hcv, He. cbn [negb]. rewrite decide_False by (rewrite Hnone; by intros [? [=]]).
  exists c. cbn [checkpoint_store recovery_mgr]. unfold CheckpointStore.get_by_id, CheckpointStore.get_by_epoch.
  cbn [ck_map epoch_index]. rewrite !lookup_insert_eq. cbn. rewrite lookup_insert_eq. split_and!; [done..|by rewrite <- Ecp|].
  unfold NodeRecoveryManager.verify_consistency, NodeRecoveryManager.store_checkpoint. rewrite Hrv. cbn [negb fst].
  rewrite Hre, lookup_insert_eq, Hrv. done.
Qed.

(** The bridge operations of the engine. *)
Inductive bridge_op : Type := BrRegister (b : id32) | BrExported (b : id32) | BrAcked (b h : id32).
Definition bridge_step (t : StateSyncEngine) (o : bridge_op) : StateSyncEngine :=
  match o with
  | BrRegister b => StateSyncEngine.register_batch_for_bridge b t
  | BrExported b => (StateSyncEngine.mark_bridge_exported b t).1
  | BrAcked b h => (StateSyncEngine.mark_bridge_acked b h t).1
  end.
Definition as_recovery (o : bridge_op) : recovery_op :=
  match o with BrRegister b => OpRegister b | BrExported b => OpExport b | BrAcked b h => OpAckBatch b h end.

Lemma bridge_run_store ops t :
  bridge_store (foldl bridge_step t ops) = foldl recovery_step (bridge_store t) (as_recovery <$> ops).
Proof.
  revert t. induction ops as [|o ops IH]; intros t; [done|]. cbn [foldl fmap list_fmap]. rewrite IH. f_equal.
  destruct o as [b|b|b h]; cbn [bridge_step as_recovery recovery_step]; [done|..].
  - unfold StateSyncEngine.mark_bridge_exported. by destruct (BridgeRecoveryStore.export_batch b (bridge_store t)).
  - unfold StateSyncEngine.mark_bridge_acked. by destruct (BridgeRecoveryStore.acknowledge b h (bridge_store t)).
Qed.

Definition no_retry (s : BridgeRecoveryStore) : Prop :=
  ∀ b r, rv_records s !! b = Some r → StateSyncEngine.retry_state (rv_state r) = false.
Lemma no_retry_with {A} b (f : M BridgeRecoveryRecord BridgeRecoveryError A) s :
  (∀ r, StateSyncEngine.retry_state (rv_state r) = false → StateSyncEngine.retry_state (rv_state (f r).1) = false) →
  no_retry s → no_retry (BridgeRecoveryStore.with_record b f s).1.
Proof.
  intros Hf Hs b' r'. pose proof (with_record_cases b f s) as Hc. destruct (BridgeRecoveryStore.with_record b f s) as [s' res].
  destruct Hc as [_ E]. cbn [fst]. destruct (rv_records s !! b) as [r|] eqn:Eb; rewrite E; [|apply Hs].
  rewrite lookup_insert. case_decide; [|apply Hs]. intros [= <-]. apply Hf. by apply (Hs b).
Qed.

(** Over any use of the engine the status counts every registered batch once, and there is
    never a candidate for a retry: nothing the engine offers rejects a delivery. *)
Theorem sync_bridge_sound (t : StateSyncEngine) (pol : BridgeRetryPolicy) (ops : list bridge_op) :
  bridge_store t = BridgeRecoveryStore.new pol → fits 32 (max_attempts pol) →
  let t' := foldl bridge_step t ops in
  let st := StateSyncEngine.sync_status t' in
  (bridge_backlog st + bridge_acked st + bridge_failed st)%nat = size (rv_records (bridge_store t')) ∧
  StateSyncEngine.bridge_retry_candidates t' = [].
Proof.
  intros Hb Hpol t' st. pose proof (bridge_run_store ops t) as Hrun. fold t' in Hrun. rewrite Hb in Hrun. split.
  - assert (recovery_inv pol (bridge_store t')) as [_ Hr] by (rewrite Hrun; by apply (recovery_run_inv pol)).
    destruct (count_sum (btree_values (rv_records (bridge_store t'))) (mkConsistency 0 0 0 0 [])) as [_ E].
    { apply Forall_forall. intros r [b Hr']%elem_of_btree_values. eauto. }
    cbn zeta in E. unfold btree_values in E at 5. rewrite length_fmap, btree_list_perm, length_map_to_list in E.
    unfold st, StateSyncEngine.sync_status, BridgeRecoveryStore.consistency_check. cbn in *. lia.
  - assert (no_retry (bridge_store t')) as Hn.
    { rewrite Hrun. clear. induction ops as [|o ops IH] using rev_ind; [done|].
      rewrite fmap_app, foldl_app. cbn [fmap list_fmap foldl]. set (s := foldl _ _ _) in *.
      destruct o as [b|b|b h]; cbn [as_recovery recovery_step].
      - unfold BridgeRecoveryStore.register_batch. destruct (rv_records s !! b) eqn:E; [done|]. intros b' r'. cbn.
        rewrite lookup_insert. case_decide; [by intros [= <-]|apply IH].
      - apply no_retry_with; [|done]. intros r Hr. unfold BridgeRecoveryRecord.try_export. by destruct (rv_state r) eqn:E; cbn; rewrite ?E.
      - apply no_retry_with; [|done]. intros r Hr.
        unfold BridgeRecoveryStore.acknowledge_record, BridgeRecoveryRecord.mark_acknowledged.
        destruct (rv_state r) eqn:E; cbn in *; rewrite ?E; try done; by repeat case_match; cbn; rewrite ?E. }
    unfold StateSyncEngine.bridge_retry_candidates. destruct (filter _ _) as [|r l] eqn:E; [done|]. exfalso.
    assert (r ∈ r :: l) as Hr by left. rewrite <- E in Hr. apply list_elem_of_filter in Hr as [Hr [b Hb']%elem_of_btree_values].
    specialize (Hn b r Hb'). congruence.
Qed.
End engine.

(** ** Runs *)

Definition sample_ck (e : Z) : PoSeqCheckpoint :=
  (@StateSyncEngine.checkpoint_of sample_sha256 e 5 (Some 77) 3 ∅ 1).2.
Definition sample_ck_encode : CheckpointBincode := λ _, Some [0].
Definition sample_ck_ops : list checkpoint_op :=
  [OpStore (sample_ck 10); OpStore (sample_ck 30); OpStore (sample_ck 20); OpPrune].
Definition sample_ck_policy : CheckpointPolicy := mkCkPolicy 10 2.

Lemma checkpoints_exact_witness :
  let s := @checkpoint_run sample_sha256 sample_ck_encode sample_ck_policy sample_ck_ops in
  CheckpointStore.get_by_epoch s 10 = None ∧ CheckpointStore.latest s = Some (sample_ck 30) ∧
  CheckpointStore.get_by_epoch s 30 = Some (sample_ck 30).
Proof.
  split; [by vm_compute|]. split; [by vm_compute|].
  destruct (@checkpoints_exact sample_sha256 sample_ck_encode sample_ck_policy sample_ck_ops) as (_ & _ & H).
  - repeat constructor; by_eval.
  - apply collision_free_sound. by vm_compute.
  - refine (proj1 (H (sample_ck 30) _)). by vm_compute.
Defined.

Definition sample_ck_store : CheckpointStore :=
  @checkpoint_run sample_sha256 sample_ck_encode sample_ck_policy [OpStore (sample_ck 10)].
Lemma restore_exact_witness :
  (@CheckpointStore.restore_into_finality_store sample_sha256 sample_ck_store (checkpoint_id (sample_ck 10)) FinalityStore.new).2 =
  Ok 10.
Proof.
  pose proof (@restore_exact sample_sha256 sample_ck_store (checkpoint_id (sample_ck 10)) (sample_ck 10)
    FinalityStore.new ltac:(by vm_compute) ltac:(by vm_compute)) as Hr.
  cbv zeta in Hr. destruct (CheckpointStore.restore_into_finality_store _ _ _) as [fs' r]. exact (proj1 Hr).
Defined.

Lemma checkpoint_id_leaves_open_witness :
  @PoSeqCheckpoint.verify_id sample_sha256
    (mkPoSeqCheckpoint (metadata (sample_ck 10))
       (mkCheckpoint 99 66 0 (checkpoint_hash (finality_checkpoint (sample_ck 10)))) 0 0 9 (checkpoint_id (sample_ck 10))) = true.
Proof. apply (@checkpoint_id_leaves_open sample_sha256). by vm_compute. Defined.

Definition sample_sync : StateSyncEngine := StateSyncEngine.new sample_ck_policy default_retry.
Lemma create_checkpoint_exact_witness :
  is_Some (@StateSyncEngine.create_checkpoint sample_sha256 sample_ck_encode 10 5 (Some 77) 3 ∅ 1 sample_sync).2.
Proof.
  pose proof (@create_checkpoint_exact sample_sha256 sample_ck_encode sample_sync 10 5 (Some 77) 3 ∅ 1
    ltac:(by_eval) ltac:(by vm_compute)) as Hc. cbv zeta in Hc.
  assert (CheckpointStore.should_checkpoint (checkpoint_store sample_sync) 10 = true) as Hd by (by vm_compute).
  rewrite Hd in Hc. destruct (StateSyncEngine.create_checkpoint _ _ _ _ _ _ _) as [t' r].
  destruct Hc as (c & -> & _). by eexists.
Defined.

Lemma sync_bridge_sound_witness :
  let t := foldl bridge_step sample_sync [BrRegister 1; BrExported 1; BrAcked 1 5; BrRegister 2; BrExported 2] in
  StateSyncEngine.bridge_retry_candidates t = [] ∧ bridge_backlog (StateSyncEngine.sync_status t) = 1%nat.
Proof.
  split; [|by vm_compute].
  exact (proj2 (sync_bridge_sound sample_sync default_retry
    [BrRegister 1; BrExported 1; BrAcked 1 5; BrRegister 2; BrExported 2] eq_refl ltac:(by_eval))).
Defined.
